(* ===== verification/_CoqProject ===== *)
-Q . S2P
Prelude.v
CLib.v
Cron.v
CronNextRun.v
CronFields.v
CronSched.v
Spanfs.v
SpanfsProofs.v
Targz.v
TargzHeader.v
TargzTar.v
TargzGz.v
TargzRoundtrip.v
TargzSafety.v
StorageDb.v
StorageDbBlock.v
StorageDbSchema.v
StorageDbSpec.v
StorageDbStore.v
StorageDbValues.v
StorageDbFile.v
Config.v
ConfigTree.v
ConfigOps.v
ConfigSet.v
Auth.v
AuthProofs.v
Rtos.v
Its.v
ItsFlow.v
ItsServer.v
ItsInv.v
ItsOwn.v
ItsStep.v
ItsPacket.v
ItsConn.v
ItsDemo.v
CliPath.v
Cli.v
CliEditor.v
CliTask.v
CliEditSpec.v
CliShell.v
CliInv.v
CliLogin.v
CliDemo.v
LogRing.v
LogText.v
Log.v
LogTask.v
LogTextProofs.v
LogInv.v
LogFlow.v
LogInbound.v
LogAdmin.v
LogDemo.v
Vfs.v
Persist.v
PersistFiles.v
PersistTree.v
PersistSet.v
PersistFlush.v
PersistWork.v
PersistLoad.v
PersistCrash.v
PersistDemo.v
SdbRoute.v
SdbRouteProofs.v
SdbRouteStore.v
SdbRouteSet.v
SdbRouteDemo.v
Mirror.v
MirrorDump.v
MirrorPatch.v
MirrorGate.v
MirrorInv.v
MirrorDemo.v
