(* ===== verification/Prelude.v ===== *)
(** * spangap-core: a verification library

    spangap-core is the firmware core of an ESP32 platform: a set of C++ modules under
    src/esp-idf/src, each owned by a FreeRTOS task, that talk to each other through its
    (inter-task streaming) and keep their settings in storage. This library models the
    modules with logic of their own and proves what makes them correct.

    ** The program and its model

    Every module is translated function by function, with the source's names. A C object is
    a list of bytes or a record; a w-bit integer is a [Z] with its wrap-around written out
    ([wrap8] .. [wrap64]); a call that fails returns what the code returns, and an access
    outside an object, or a loop out of fuel, is [None] (in its: the flag [bad]). Code that
    is not in the repository is a class with the operations the sources call and a class of
    laws with its documented behaviour; a concrete instance shows that the laws can hold.

    - Prelude.v: notation, tactics, hint databases, lists, bytes and integers. CLib.v: the C
      library routines on strings and numbers. Rtos.v: FreeRTOS stream buffers and queues
      ([StreamBuf], [RtosQueue] with their laws, and lists as an instance).
    - cron (cron.cpp): Cron.v models field matching, entry parsing, [cronNextRun] and the
      scheduler's state; CronNextRun.v, CronFields.v and CronSched.v prove it. The calendar
      ([localtime_r], [mktime]) is an interface, UTC an instance.
    - spanfs (components/spanfs: spanfs.c, tools/mkspanfs.py): Spanfs.v, SpanfsProofs.v. The
      reader takes the width of [size_t] as a parameter.
    - targz (targz.cpp): Targz.v models the writer and the streaming reader; TargzHeader.v,
      TargzTar.v, TargzGz.v, TargzRoundtrip.v and TargzSafety.v prove it. miniz's deflate
      and inflate and the CRC are interfaces.
    - storage_db (storage_db.cpp, storage_db.h): StorageDb.v; StorageDbSpec.v is the
      abstract store, StorageDbBlock.v the arena, and StorageDbSchema.v, StorageDbStore.v,
      StorageDbValues.v and StorageDbFile.v relate the two. The allocator's answers and the
      file system are arguments.
    - storage (storage.cpp), the configuration tree: Config.v; ConfigTree.v, ConfigOps.v and
      ConfigSet.v prove it. cJSON's node operations are an interface.
    - storage's files (storage.cpp, and fs.cpp as they use it): Vfs.v has the C library's
      file calls as an interface and the computations that record every file system they
      pass through; Persist.v the files ([Files]), the sub-trees with files of their own
      ([Externals]), the persist worker ([Flush], [saveStep] one critical section or file
      write) and start-up ([Load]). PersistFiles.v is about one file, PersistTree.v about
      taking sub-trees out and grafting them, PersistSet.v about writing beside them and
      what files hold, PersistFlush.v states the invariant [covered] and shows that the
      worker and writes keep it, PersistWork.v adds the other calls and the end of a flush,
      PersistLoad.v loading, PersistCrash.v power cuts; PersistDemo.v is an instance with
      file systems in memory. JSON text is an interface.
    - storage's router (storage.cpp), between the configuration tree and storage_db:
      SdbRoute.v has the registrations, the matching of a key against their patterns, the
      instances, and reading, enumerating, writing, dropping and flushing through them;
      [routerOf] and [filesOf] make of it the interfaces [SdbRouter] and [SdbFiles] that
      Config.v and Persist.v use. SdbRouteProofs.v is about matching, SdbRouteStore.v about
      reads, SdbRouteSet.v about a write from the op list to the readers, a flush and a
      restart; SdbRouteDemo.v is a message store on a small device.
    - storage's browser mirror (storage.cpp), the client on the configuration port: Mirror.v
      has the dump cut into messages ([Dump]), the changed keys, reloads, merge patches and
      the paced queue with its off-actor builder ([Patch]), and the client's messages,
      connect, disconnect and a pass of the storage task ([Inbound]). The record stores are
      the interface [MirrorDb], made of the router in [SdbMirror], the link is [DcLink].
      MirrorDump.v is about dumps, MirrorPatch.v about patches, MirrorGate.v about what a
      client can write, MirrorInv.v has the invariant over all steps and the queue's order,
      and shows that the router fits the invariant; MirrorDemo.v is a device with a client,
      and what the gates and patches let through.
    - auth (auth.cpp): Auth.v calls the tree of Config.v; AuthProofs.v. SHA-256 is a
      parameter.
    - its (its.cpp, its.h): Its.v has the tables (buffer pool, packet links, connections,
      tasks) with their operations, ItsFlow.v the data API, ItsServer.v connections,
      dispatch and registration. ItsInv.v states the invariant, ItsOwn.v and ItsStep.v show
      that every call keeps it, and what holds in every state reachable by any of them;
      ItsPacket.v has the contracts of packet links and of framed packets, ItsConn.v that of
      connect with cancel; ItsDemo.v runs a server and two clients.
    - cli (cli.cpp, cli.h): CliPath.v has path normalisation with its specification, Cli.v
      the state, the registry, history, output, working directories, the dispatcher, aliases
      and scripts, CliEditor.v the line editor, CliTask.v sessions, the password gate and
      the loop of the task. CliEditSpec.v relates the editor to a line with a cursor,
      CliShell.v says what a line and a script run, CliInv.v states the invariant,
      CliLogin.v is about the gate. its, storage, fs, auth and log are one interface,
      [CliEnv]; CliDemo.v builds it from Config.v and Auth.v. Commands are a parameter that
      may change any of the state.
    - log (log.cpp, log.h): LogRing.v has the ring between the logging tasks and the log
      task with its refinement to a queue; LogText.v levels, colours, rules and the format
      of a line; Log.v the state, the vprintf hook with its gate, and the file sink;
      LogTask.v consumer slots, paste-back, inbound lines, the task's pass and its start,
      levels and the commands. LogTextProofs.v is about lines, LogInv.v states the invariant
      and that every action keeps it, LogFlow.v follows a line into the ring and out of it,
      LogInbound.v is about lines that consumers send, LogAdmin.v about levels, rotation and
      paste-back. its, storage, fs and the console are one interface, [LogEnv]; LogDemo.v is
      an instance.

    ** What the theorems show

    - Round trips: archives (targz), images (spanfs), store files and descriptors
      (storage_db), op lists (storage), the tree and the structured stores through a flush
      and a restart, cron entries, stored passwords. For the tree this is on a file system
      with room and no faults whose rename replaces its target, as LittleFS's does, with
      memory granted and no tree file inside another; for a store file, when the rename that
      the code does not check succeeds.
    - The mirror: a client that merges a dump has the device's tree; one that merges a patch
      of changed leaves, none inside another, reads the device's values; the queue is sent
      in order; no secret reaches the link and no message of the client reaches a secret, as
      long as writes and messages spell the secrets as the gates expect.
    - Refinement: the record store implements an ordered list of records whatever the
      allocator answers; a packet link implements a bounded fifo with a byte window, each
      operation leaving every other link alone; the line editor, fed the bytes a terminal
      sends, implements a line with a cursor and a history; the log ring, its writers and
      its reader interleaved at every access, implements a bounded byte queue.
    - Exactness: in a zone without daylight saving [cronNextRun] returns the earliest
      matching minute and a poll within a day of the last serviced minute runs exactly the
      commands due, while a slot 1441 minutes after it is lost; merging is RFC 7396 with the
      array extension; what is set is what is read, in the tree and through the router, and
      nothing else changes; a key goes to the first store whose pattern it fits; a login is
      refused exactly while the backoff runs and otherwise succeeds exactly for a password
      of an enabled realm; a logged line that fits its block and no rule touches reaches the
      ring with its level, and every consumer gets exactly the ring's bytes; a tag's level
      is its setting, else its default, else the global one; rotation removes exactly the
      expired files.
    - Safety: the tar reader, fed any bytes, returns from every feed and reports only safe
      names; an opened image is read in bounds; no sequence of its calls frees a block
      twice, reads a freed one, loses count of one or lets two connections share a buffer; a
      cancelled connect leaves the server no connection; a CLI session that must log in
      reaches no command before [authLogin] accepts the line typed on it, and every pass of
      the CLI task keeps its slots in bounds if the commands do; so does every action on the
      log with texts of at most 958 bytes. On a file system without faults whose rename
      replaces its target a power cut at any point of a flush leaves files that a restart
      loads, each key with its old or its new value; no interleaving of the worker with
      writes forgets one, outside one window that is shown to be open.
    - Defects, each shown on a concrete input: the eviction of the newest session, an
      endless index rebuild, lost and undirtied records, a subtree that survives its
      deletion, a 32-bit overflow in spanfs, pool slots of its that are never released,
      password tries beyond the limit, a script cut at a long line, a log line longer than
      its block, settings lost to a power cut on the SD card, a write forgotten behind the
      worker's back, a deleted conversation that comes back, secrets a client overwrites by
      another spelling, patches that leave the client behind, a flush that reports success
      for a file it did not replace, a read without memory that hides a store's records, and
      others.

    ** Bounds and fuel

    Loops that are not structural take fuel from a bound of the code itself: the
    1000-iteration guard of [cronNextRun], the size of the arena for record walks, the
    length of the input for parsers, the descriptors in a ring for a drain, the bound of
    deflate's output by its input for inflate. The theorems that a function returns cover
    them: enough fuel is part of what is proved. Only the rounds of the final inflation,
    with no more input announced, may be endless for a hostile archive: nothing is assumed
    of the decompressor there, and what is proved holds after any number of them. The
    dispatcher recurses on the length of the line, a script on the length of the file. A
    drain of the log ring takes one more round than the ring has bytes; paste-back and the
    file filter take the length of their text. A flush takes steps until the worker waits;
    that it does, whatever the files do, is a theorem. The sending loop of the mirror takes
    the length of its queue, the closing of instances that of their list. The waits of its
    are not fuel: a wait is given the list of its wake-ups and answers [None] when the list
    ends while it still waits; so is a blocking read of the CLI.

    ** Concurrency

    A call into its is one step, and a sleeping call sees the others through its wake-ups
    (what they did, and the time) and through [room], what they do while a send waits for
    room in an inbox. The theorems hold for any such behaviour that keeps the invariant, for
    callbacks likewise, and for a sleeping sender as long as its link is not given to
    another connection while its handle is open. Interleavings inside one call, which the
    code excludes with spinlocks, are not modelled. The log ring is the one structure that
    tasks share without a lock on both sides: its steps are single accesses, in any order,
    with sequentially consistent memory; the formatter's static level and the gate's flags
    are read and written whole. The persist worker is a machine beside the storage actor:
    between two of its steps (critical sections and file writes) any calls of other tasks
    may come. A file write is one step for the other tasks, and a trail of file systems for
    a power cut. The builder of a dump is a step of its own beside the storage actor, at any
    time between its start and the pass that adopts or discards what it built. cron, the
    storage actor, cli and the log task run on one task each; what other tasks do between
    their polls is an event.

    ** Not modelled

    Of storage.cpp the CLI commands, the one-way migrations of the tree into the structured
    stores and the timing of the save timer; of its.cpp the statistics ([itsStatus],
    [itsTaskMem]), the wrappers that resolve a task by name or start it on demand and the
    unused [inboxDrain]; cron's deep-sleep entry, which nothing calls; of cli.cpp the serial
    task (the USB byte shuttle with its framed RPC and port handlers) and the commands of
    cli_cmd_*.cpp; of log.cpp the peek and watch commands, the hardware watchpoint and the
    heap-integrity poll, and the creation of the task. Of fs.cpp only the path operations
    the files of storage need are modelled. The modules pm, usb_ports and spangap_init are
    mostly calls into ESP-IDF; the timezone table is generated. *)

From stdpp Require Export base numbers list option strings.
From Stdlib Require Export ZArith Lia.
From Stdlib Require Import Ascii.

#[export] Set Default Goal Selector "!".

Open Scope Z_scope.

(** ** Notation *)

Declare Scope spangap_scope.
Delimit Scope spangap_scope with spangap.

(** A byte string: an in-memory object or a C string without its NUL. Every
    element is meant to be in [0, 256) ([bytes_ok]). *)
Abbreviation bytes := (list Z).

Definition str (s : string) : bytes :=
  map (fun c => Z.of_nat (nat_of_ascii c)) (String.list_ascii_of_string s).

(** The character constant of a one-character literal, and a literal string. *)
Notation "$ s" := (str s) (at level 5, s at level 0, only parsing) : spangap_scope.

Definition chr (s : string) : Z :=
  match str s with c :: _ => c | [] => 0 end.

(** The length of an object as a mathematical integer. *)
Definition Zlen {A} (l : list A) : Z := Z.of_nat (length l).

(** ** Fixed-width unsigned integers: the value kept after a store to a w-bit
    object. *)
Definition wrap8 (v : Z) : Z := v mod 2 ^ 8.
Definition wrap16 (v : Z) : Z := v mod 2 ^ 16.
Definition wrap32 (v : Z) : Z := v mod 2 ^ 32.
Definition wrap64 (v : Z) : Z := v mod 2 ^ 64.

Definition UINT32_MAX : Z := 2 ^ 32 - 1.

Definition is_byte (b : Z) : Prop := 0 <= b < 256.
Definition bytes_ok (l : bytes) : Prop := Forall is_byte l.

(** ** Memory objects

    A read or write that leaves the object is undefined behaviour in C; here it
    is [None], so that "this routine never reads outside its object" is the
    statement that the routine does not return [None]. Offsets are in Z. *)
Definition mem_get (m : bytes) (i : Z) : option Z :=
  if (0 <=? i) && (i <? Zlen m) then m !! Z.to_nat i else None.

Definition mem_slice (m : bytes) (off len : Z) : option bytes :=
  if (0 <=? off) && (0 <=? len) && (off + len <=? Zlen m)
  then Some (take (Z.to_nat len) (drop (Z.to_nat off) m))
  else None.

(** [memcpy(m + off, src, |src|)]. *)
Definition mem_put (m : bytes) (off : Z) (src : bytes) : option bytes :=
  if (0 <=? off) && (off + Zlen src <=? Zlen m)
  then Some (take (Z.to_nat off) m ++ src ++ drop (Z.to_nat off + length src) m)
  else None.

(** ** Little-endian scalars *)
Fixpoint le_val (l : bytes) : Z :=
  match l with
  | [] => 0
  | b :: l' => b + 256 * le_val l'
  end.

Fixpoint le_bytes (n : nat) (v : Z) : bytes :=
  match n with
  | O => []
  | S n' => v mod 256 :: le_bytes n' (v / 256)
  end.

Definition rd16 (m : bytes) (off : Z) : option Z := le_val <$> mem_slice m off 2.
Definition rd32 (m : bytes) (off : Z) : option Z := le_val <$> mem_slice m off 4.
Definition wr16 (v : Z) : bytes := le_bytes 2 v.
Definition wr32 (v : Z) : bytes := le_bytes 4 v.

(** ** Automation *)

Create HintDb spangap.
Create Rewrite HintDb zlen.

Lemma Zlen_nil {A} : Zlen (@nil A) = 0.
Proof. reflexivity. Qed.

Lemma Zlen_cons {A} (x : A) l : Zlen (x :: l) = 1 + Zlen l.
Proof. unfold Zlen. simpl. lia. Qed.

Lemma Zlen_app {A} (l1 l2 : list A) : Zlen (l1 ++ l2) = Zlen l1 + Zlen l2.
Proof. unfold Zlen. rewrite length_app. lia. Qed.

Lemma Zlen_nonneg {A} (l : list A) : 0 <= Zlen l.
Proof. unfold Zlen. lia. Qed.

Lemma Zlen_replicate {A} n (x : A) : Zlen (replicate n x) = Z.of_nat n.
Proof. unfold Zlen. by rewrite length_replicate. Qed.

Lemma Zlen_rev {A} (l : list A) : Zlen (rev l) = Zlen l.
Proof. unfold Zlen. by rewrite length_rev. Qed.

Lemma Zlen_map {A B} (f : A -> B) l : Zlen (map f l) = Zlen l.
Proof. unfold Zlen. by rewrite length_map. Qed.

Lemma Zlen_take {A} n (l : list A) : Zlen (take n l) = Z.min (Z.of_nat n) (Zlen l).
Proof. unfold Zlen. rewrite length_take. lia. Qed.

Lemma Zlen_drop {A} n (l : list A) : Zlen (drop n l) = Z.max 0 (Zlen l - Z.of_nat n).
Proof. unfold Zlen. rewrite length_drop. lia. Qed.

Lemma Zlen_zero {A} (l : list A) : Zlen l = 0 -> l = [].
Proof. destruct l; [done|]. rewrite Zlen_cons. pose proof (Zlen_nonneg l). lia. Qed.

#[export] Hint Rewrite @Zlen_nil @Zlen_cons @Zlen_app @Zlen_replicate @Zlen_rev
  @Zlen_map @Zlen_take @Zlen_drop : zlen.

(** [zlia]: linear arithmetic after pushing [Zlen] through list constructors,
    with the non-negativity of every remaining length in the context. *)
Ltac zlen_facts :=
  repeat match goal with
  | |- context [Zlen ?l] =>
      lazymatch goal with
      | _ : 0 <= Zlen l |- _ => fail
      | _ => pose proof (Zlen_nonneg l)
      end
  | _ : context [Zlen ?l] |- _ =>
      lazymatch goal with
      | _ : 0 <= Zlen l |- _ => fail
      | _ => pose proof (Zlen_nonneg l)
      end
  end.
Ltac zlia := autorewrite with zlen in *; zlen_facts; lia.

(** Turn the boolean tests of the code into propositions. *)
Ltac b2p :=
  repeat match goal with
  | H : context [_ && _ = true] |- _ => rewrite andb_true_iff in H
  | H : context [_ || _ = true] |- _ => rewrite orb_true_iff in H
  | H : context [_ && _ = false] |- _ => rewrite andb_false_iff in H
  | H : context [_ || _ = false] |- _ => rewrite orb_false_iff in H
  | H : context [negb _ = true] |- _ => rewrite negb_true_iff in H
  | H : context [negb _ = false] |- _ => rewrite negb_false_iff in H
  | H : context [Z.leb _ _ = true] |- _ => rewrite Z.leb_le in H
  | H : context [Z.ltb _ _ = true] |- _ => rewrite Z.ltb_lt in H
  | H : context [Z.leb _ _ = false] |- _ => rewrite Z.leb_gt in H
  | H : context [Z.ltb _ _ = false] |- _ => rewrite Z.ltb_ge in H
  | H : context [Z.eqb _ _ = true] |- _ => rewrite Z.eqb_eq in H
  | H : context [Z.eqb _ _ = false] |- _ => rewrite Z.eqb_neq in H
  | H : _ /\ _ |- _ => revert H; intros [? ?]
  end.

(** ** Slices of memory objects *)

Lemma mem_slice_mid (pre bs post : bytes) off len :
  off = Zlen pre -> len = Zlen bs ->
  mem_slice (pre ++ bs ++ post) off len = Some bs.
Proof.
  intros -> ->. unfold mem_slice.
  rewrite (proj2 (Z.leb_le _ _)) by apply Zlen_nonneg.
  rewrite (proj2 (Z.leb_le _ _)) by apply Zlen_nonneg.
  rewrite (proj2 (Z.leb_le _ _)) by zlia. simpl. f_equal.
  unfold Zlen. rewrite !Nat2Z.id, drop_app_length. by rewrite take_app_length.
Qed.

Lemma mem_slice_Some (m : bytes) off len bs :
  mem_slice m off len = Some bs <->
  exists pre post, m = pre ++ bs ++ post /\ Zlen pre = off /\ Zlen bs = len.
Proof.
  split.
  - unfold mem_slice. case_match eqn:E; [|done]. b2p. intros [= <-].
    exists (take (Z.to_nat off) m), (drop (Z.to_nat len) (drop (Z.to_nat off) m)).
    rewrite take_drop, take_drop. split; [done|]. zlia.
  - intros (pre & post & -> & <- & <-). by apply mem_slice_mid.
Qed.

Lemma mem_slice_total (m : bytes) off len :
  0 <= off -> 0 <= len -> off + len <= Zlen m ->
  exists bs, mem_slice m off len = Some bs /\ Zlen bs = len.
Proof.
  intros ???. unfold mem_slice. rewrite !(proj2 (Z.leb_le _ _)) by done.
  simpl. eexists; split; [done|]. zlia.
Qed.

Lemma mem_slice_bounds (m : bytes) off len bs :
  mem_slice m off len = Some bs ->
  0 <= off /\ 0 <= len /\ off + len <= Zlen m /\ Zlen bs = len.
Proof.
  intros (pre & post & -> & <- & <-)%mem_slice_Some. zlia.
Qed.

(** Reading inside a prefix does not see what follows it. *)
Lemma mem_slice_app_l (m m' : bytes) off len :
  off + len <= Zlen m -> mem_slice (m ++ m') off len = mem_slice m off len.
Proof.
  intros H. unfold mem_slice. destruct (0 <=? off) eqn:?; [|done].
  destruct (0 <=? len) eqn:?; [|done]. b2p. simpl.
  rewrite !(proj2 (Z.leb_le _ _)) by zlia. f_equal.
  rewrite drop_app_le by (unfold Zlen in *; lia).
  rewrite take_app_le by (rewrite length_drop; unfold Zlen in *; lia). done.
Qed.

Lemma mem_slice_app_r (m m' : bytes) off len :
  Zlen m <= off ->
  mem_slice (m ++ m') off len = mem_slice m' (off - Zlen m) len.
Proof.
  intros H. unfold mem_slice. pose proof (Zlen_nonneg m).
  rewrite (proj2 (Z.leb_le 0 off)), (proj2 (Z.leb_le 0 (off - Zlen m))) by lia.
  destruct (0 <=? len) eqn:?; [|done]. rewrite Zlen_app. simpl.
  replace (off + len <=? Zlen m + Zlen m') with (off - Zlen m + len <=? Zlen m')
    by (apply eq_true_iff_eq; rewrite !Z.leb_le; lia).
  case_match; [|done]. do 2 f_equal. rewrite drop_app_ge by (unfold Zlen in *; lia).
  f_equal. unfold Zlen in *. lia.
Qed.

Lemma mem_get_slice (m : bytes) i :
  mem_get m i = match mem_slice m i 1 with Some (b :: _) => Some b | _ => None end.
Proof.
  unfold mem_get, mem_slice. simpl.
  destruct (0 <=? i) eqn:E1; [|done]. simpl.
  replace (i + 1 <=? Zlen m) with (i <? Zlen m)
    by (apply eq_true_iff_eq; rewrite Z.leb_le, Z.ltb_lt; lia).
  case_match eqn:E; [|done]. b2p.
  destruct (lookup_lt_is_Some_2 m (Z.to_nat i)) as [x Hx]; [unfold Zlen in *; lia|].
  rewrite Hx. apply drop_S in Hx. rewrite Hx. done.
Qed.

Lemma mem_get_app_l (m m' : bytes) i : i < Zlen m -> mem_get (m ++ m') i = mem_get m i.
Proof. intros H. by rewrite !mem_get_slice, mem_slice_app_l by lia. Qed.

Lemma mem_get_mid (pre post : bytes) b i :
  i = Zlen pre -> mem_get (pre ++ b :: post) i = Some b.
Proof.
  intros ->. rewrite mem_get_slice, (mem_slice_mid pre [b] post); done.
Qed.

Lemma mem_get_total (m : bytes) i : 0 <= i < Zlen m -> exists b, mem_get m i = Some b.
Proof.
  intros [??]. unfold mem_get. rewrite (proj2 (Z.leb_le _ _)), (proj2 (Z.ltb_lt _ _)) by done.
  simpl. apply lookup_lt_is_Some_2. unfold Zlen in *. lia.
Qed.

Lemma mem_put_mid (pre old src post : bytes) off :
  off = Zlen pre -> Zlen old = Zlen src ->
  mem_put (pre ++ old ++ post) off src = Some (pre ++ src ++ post).
Proof.
  intros -> E. unfold mem_put.
  rewrite !(proj2 (Z.leb_le _ _)) by zlia. simpl. unfold Zlen in *. f_equal.
  rewrite Nat2Z.id, take_app_length. f_equal. f_equal.
  rewrite app_assoc. apply drop_app_length'. rewrite length_app. lia.
Qed.

Lemma mem_put_total (m : bytes) off src :
  0 <= off -> off + Zlen src <= Zlen m ->
  exists pre old post, m = pre ++ old ++ post /\ Zlen pre = off /\ Zlen old = Zlen src /\
    mem_put m off src = Some (pre ++ src ++ post).
Proof.
  intros H1 H2. destruct (mem_slice_total m off (Zlen src)) as (old & E & Ho); [zlia..|].
  apply mem_slice_Some in E as (pre & post & -> & <- & _).
  exists pre, old, post. repeat split; [done|]. by apply mem_put_mid.
Qed.

Lemma mem_put_length (m m' : bytes) off src : mem_put m off src = Some m' -> Zlen m' = Zlen m.
Proof.
  unfold mem_put. case_match eqn:E; [|done]. b2p. intros [= <-].
  unfold Zlen in *. rewrite !length_app, length_take, length_drop. lia.
Qed.

(** ** Little-endian scalars *)

Lemma length_le_bytes n v : length (le_bytes n v) = n.
Proof. revert v. induction n; simpl; auto. Qed.

Lemma Zlen_le_bytes n v : Zlen (le_bytes n v) = Z.of_nat n.
Proof. unfold Zlen. by rewrite length_le_bytes. Qed.
#[export] Hint Rewrite Zlen_le_bytes : zlen.

Lemma le_bytes_ok n v : bytes_ok (le_bytes n v).
Proof.
  revert v. induction n as [|n IH]; intros v; simpl; constructor; [|apply IH].
  unfold is_byte. apply Z.mod_pos_bound. lia.
Qed.

Lemma le_val_bound l : bytes_ok l -> 0 <= le_val l < 256 ^ Zlen l.
Proof.
  induction 1 as [|b l Hb _ IH]; [done|].
  rewrite Zlen_cons, Z.pow_add_r by zlia. simpl. unfold is_byte in Hb. lia.
Qed.

Lemma le_val_le_bytes n v : le_val (le_bytes n v) = v mod 256 ^ Z.of_nat n.
Proof.
  revert v. induction n as [|n IH]; intros v; simpl le_bytes; simpl le_val.
  - by rewrite Z.mod_1_r.
  - rewrite IH, Nat2Z.inj_succ, Z.pow_succ_r by lia.
    rewrite Z.rem_mul_r by (try apply Z.pow_nonzero; lia). lia.
Qed.

Lemma le_bytes_le_val l : bytes_ok l -> le_bytes (length l) (le_val l) = l.
Proof.
  induction 1 as [|b l Hb _ IH]; simpl; [done|]. unfold is_byte in Hb.
  rewrite Z.mul_comm, Z.mod_add, Z.mod_small by lia.
  by rewrite Z.div_add, Z.div_small, Z.add_0_l, IH by lia.
Qed.

Lemma le_val_wr16 v : 0 <= v < 2 ^ 16 -> le_val (wr16 v) = v.
Proof. intros. unfold wr16. rewrite le_val_le_bytes. apply Z.mod_small. lia. Qed.

Lemma le_val_wr32 v : 0 <= v < 2 ^ 32 -> le_val (wr32 v) = v.
Proof. intros. unfold wr32. rewrite le_val_le_bytes. apply Z.mod_small. lia. Qed.

Lemma rd16_mid pre post v off :
  off = Zlen pre -> rd16 (pre ++ wr16 v ++ post) off = Some (wrap16 v).
Proof.
  intros ->. unfold rd16. rewrite mem_slice_mid by done.
  change (Some (le_val (wr16 v)) = Some (wrap16 v)). unfold wr16. by rewrite le_val_le_bytes.
Qed.

Lemma rd32_mid pre post v off :
  off = Zlen pre -> rd32 (pre ++ wr32 v ++ post) off = Some (wrap32 v).
Proof.
  intros ->. unfold rd32. rewrite mem_slice_mid by done.
  change (Some (le_val (wr32 v)) = Some (wrap32 v)). unfold wr32. by rewrite le_val_le_bytes.
Qed.

Lemma rd32_total (m : bytes) off :
  0 <= off -> off + 4 <= Zlen m -> exists v, rd32 m off = Some v.
Proof.
  intros. destruct (mem_slice_total m off 4) as (bs & E & _); [lia..|].
  unfold rd32. rewrite E. simpl. eauto.
Qed.

Lemma rd16_total (m : bytes) off :
  0 <= off -> off + 2 <= Zlen m -> exists v, rd16 m off = Some v.
Proof.
  intros. destruct (mem_slice_total m off 2) as (bs & E & _); [lia..|].
  unfold rd16. rewrite E. simpl. eauto.
Qed.

Lemma bytes_ok_app l1 l2 : bytes_ok (l1 ++ l2) <-> bytes_ok l1 /\ bytes_ok l2.
Proof. apply Forall_app. Qed.

Lemma mem_slice_ok (m : bytes) off len bs :
  bytes_ok m -> mem_slice m off len = Some bs -> bytes_ok bs.
Proof.
  intros Hm (pre & post & -> & _ & _)%mem_slice_Some.
  apply bytes_ok_app in Hm as [_ Hm]. by apply bytes_ok_app in Hm as [? _].
Qed.

Lemma rd32_bound (m : bytes) off v : bytes_ok m -> rd32 m off = Some v -> 0 <= v < 2 ^ 32.
Proof.
  unfold rd32. intros Hm H. apply fmap_Some in H as (bs & E & ->).
  pose proof (mem_slice_bounds _ _ _ _ E) as (_ & _ & _ & L).
  pose proof (le_val_bound bs (mem_slice_ok _ _ _ _ Hm E)). by rewrite L in H.
Qed.

Lemma rd16_bound (m : bytes) off v : bytes_ok m -> rd16 m off = Some v -> 0 <= v < 2 ^ 16.
Proof.
  unfold rd16. intros Hm H. apply fmap_Some in H as (bs & E & ->).
  pose proof (mem_slice_bounds _ _ _ _ E) as (_ & _ & _ & L).
  pose proof (le_val_bound bs (mem_slice_ok _ _ _ _ Hm E)). by rewrite L in H.
Qed.

(** A property that every step of a fold keeps. *)
Lemma foldl_inv {S A} (P : S -> Prop) (f : S -> A -> S) (l : list A) s :
  (forall s x, x ∈ l -> P s -> P (f s x)) -> P s -> P (foldl f s l).
Proof.
  revert s. induction l as [|x l IH]; intros s Hf Hs; simpl; [done|]. apply IH.
  - intros s' y Hy. apply Hf. by right.
  - apply Hf; [by left|done].
Qed.

#[export] Hint Resolve Zlen_nonneg le_bytes_ok mem_slice_ok : spangap.
