(* ===== verification/CLib.v ===== *)
(** * The C library routines the sources call on strings and numbers

    A C string is the list of its bytes before the NUL, so [strlen] is the
    length. [long] is 32 bits on the target, so [atoi] (newlib: a cast of
    [strtol]) and [strtoul] saturate at 32 bits; [strtoll] at 64. The numeric
    conversions of [snprintf] print through [udec]/[sdec]. *)

From S2P Require Import Prelude.

(** ** Character classes and scanning *)

Definition isspace (c : Z) : bool := (c =? 32) || ((9 <=? c) && (c <=? 13)).
Definition isdigit (c : Z) : bool := (48 <=? c) && (c <=? 57).

Fixpoint skip_while (p : Z -> bool) (l : bytes) : bytes :=
  match l with
  | c :: l' => if p c then skip_while p l' else l
  | [] => []
  end.

Fixpoint take_while (p : Z -> bool) (l : bytes) : bytes :=
  match l with
  | c :: l' => if p c then c :: take_while p l' else []
  | [] => []
  end.

(** [strchr(s, c)]: the part before the first [c] and the part after it. *)
Fixpoint strchr (s : bytes) (c : Z) : option (bytes * bytes) :=
  match s with
  | [] => None
  | x :: s' =>
      if x =? c then Some ([], s')
      else match strchr s' c with
           | Some (pre, post) => Some (x :: pre, post)
           | None => None
           end
  end.

(** [strcmp] compares as unsigned char. *)
Fixpoint strcmp (a b : bytes) : comparison :=
  match a, b with
  | [], [] => Eq
  | [], _ => Lt
  | _, [] => Gt
  | x :: a', y :: b' =>
      match x ?= y with
      | Eq => strcmp a' b'
      | r => r
      end
  end.

Definition streq (a b : bytes) : bool := bool_decide (a = b).

(** [strncmp(s, p, strlen(p)) == 0]. *)
Fixpoint has_prefix (p s : bytes) : bool :=
  match p, s with
  | [], _ => true
  | x :: p', y :: s' => (x =? y) && has_prefix p' s'
  | _, _ => false
  end.

(** ** Decimal conversions *)

Definition dval (ds : bytes) : Z := fold_left (fun a c => a * 10 + (c - 48)) ds 0.

(** The sign and the digits after the white space, as [strto*] reads them. *)
Definition strto_parts (s : bytes) : bool * bytes :=
  match skip_while isspace s with
  | c :: s' =>
      if c =? 45 then (true, take_while isdigit s')
      else if c =? 43 then (false, take_while isdigit s')
      else (false, take_while isdigit (c :: s'))
  | [] => (false, [])
  end.

Definition clamp (lo hi v : Z) : Z := Z.max lo (Z.min hi v).

Definition strtol_w (lo hi : Z) (s : bytes) : Z :=
  let '(neg, ds) := strto_parts s in
  clamp lo hi (if neg : bool then - dval ds else dval ds).

Definition atoi (s : bytes) : Z := strtol_w (- 2 ^ 31) (2 ^ 31 - 1) s.
Definition strtoll (s : bytes) : Z := strtol_w (- 2 ^ 63) (2 ^ 63 - 1) s.

(** [strtoul]: out of range is [ULONG_MAX]; a minus sign negates in the type. *)
Definition strtoul (s : bytes) : Z :=
  let '(neg, ds) := strto_parts s in
  if dval ds >? UINT32_MAX then UINT32_MAX
  else if neg : bool then wrap32 (- dval ds) else dval ds.

(** [%u] and [%d]; twenty digits hold every 64-bit value. *)
Fixpoint udec_aux (fuel : nat) (v : Z) (acc : bytes) : bytes :=
  match fuel with
  | O => acc
  | S f =>
      let acc' := (48 + v mod 10) :: acc in
      if v <? 10 then acc' else udec_aux f (v / 10) acc'
  end.

Definition udec (v : Z) : bytes := udec_aux 20 v [].
Definition sdec (v : Z) : bytes := if v <? 0 then 45 :: udec (- v) else udec v.

(** [snprintf]/[safeStrncpy] into an [n]-byte buffer keeps [n - 1] bytes. *)
Definition trunc (n : nat) (s : bytes) : bytes := take (pred n) s.

(** The C string at the start of a buffer: [c_str()] of a string that may hold NULs,
    or [strnlen] on a bounded field. *)
Definition c_str (s : bytes) : bytes :=
  match strchr s 0 with Some (pre, _) => pre | None => s end.

(** ** Lemmas *)

Lemma c_str_id s : 0 ∉ s -> c_str s = s.
Proof.
  intros H. unfold c_str. induction s as [|c s IH]; [done|]. apply not_elem_of_cons in H as [Hc H].
  cbn. rewrite (proj2 (Z.eqb_neq c 0)) by done. specialize (IH H). destruct (strchr s 0) as [[a b]|]; congruence.
Qed.

Lemma strchr_app s c post : c ∉ s -> strchr (s ++ c :: post) c = Some (s, post).
Proof.
  induction s as [|x s IH]; simpl; intros Hin; [by rewrite Z.eqb_refl|].
  apply not_elem_of_cons in Hin as [Hne Hin].
  rewrite (proj2 (Z.eqb_neq x c)) by congruence. by rewrite IH.
Qed.

Lemma strchr_Some s c pre post :
  strchr s c = Some (pre, post) <-> s = pre ++ c :: post /\ c ∉ pre.
Proof.
  split; [|intros [-> ?]; by apply strchr_app].
  revert pre. induction s as [|x s IH]; intros pre; simpl; [done|].
  destruct (Z.eqb_spec x c) as [->|Hne].
  - intros [= <- <-]. split; [done|apply not_elem_of_nil].
  - destruct (strchr s c) as [[p' q']|] eqn:E; [|done]. intros [= <- ->].
    destruct (IH _ eq_refl) as [-> ?]. split; [done|]. by apply not_elem_of_cons.
Qed.

Lemma strchr_None s c : strchr s c = None <-> c ∉ s.
Proof.
  induction s as [|x s IH]; simpl; [split; [intros _; apply not_elem_of_nil|done]|].
  rewrite not_elem_of_cons. destruct (Z.eqb_spec x c) as [->|]; [naive_solver|].
  destruct (strchr s c) as [[??]|]; [|naive_solver].
  split; [done|]. intros [_ H]. by apply IH in H.
Qed.

Lemma strcmp_eq a b : strcmp a b = Eq <-> a = b.
Proof.
  revert b. induction a as [|x a IH]; intros [|y b]; simpl; try done.
  destruct (Z.compare_spec x y) as [->|?|?]; [rewrite IH; naive_solver|..]; split; try done;
    intros; simplify_eq; lia.
Qed.

Lemma strcmp_antisym a b : strcmp b a = CompOpp (strcmp a b).
Proof.
  revert b. induction a as [|x a IH]; intros [|y b]; try done. simpl.
  rewrite (Z.compare_antisym x y). destruct (x ?= y); simpl; [apply IH|done|done].
Qed.

Lemma streq_true a b : streq a b = true <-> a = b.
Proof. apply bool_decide_eq_true. Qed.

Lemma streq_false a b : streq a b = false <-> a <> b.
Proof. apply bool_decide_eq_false. Qed.

Lemma has_prefix_true p s : has_prefix p s = true <-> exists r, s = p ++ r.
Proof.
  revert s. induction p as [|x p IH]; intros s; simpl.
  - split; [intros _; by exists s|done].
  - destruct s as [|y s]; [split; [done|by intros [r ?]]|].
    rewrite andb_true_iff, Z.eqb_eq, IH. split.
    + intros [-> [r ->]]. by exists r.
    + intros [r [= -> ->]]. eauto.
Qed.

Lemma take_while_all p l : Forall (fun c => p c = true) l -> take_while p l = l.
Proof. induction 1 as [|c l Hc _ IH]; simpl; [done|]. by rewrite Hc, IH. Qed.

Lemma take_while_app p l c r :
  Forall (fun c => p c = true) l -> p c = false -> take_while p (l ++ c :: r) = l.
Proof.
  induction 1 as [|d l Hd _ IH]; intros Hc; simpl; [by rewrite Hc|].
  by rewrite Hd, IH.
Qed.

Lemma skip_while_app p l r :
  Forall (fun c => p c = true) l ->
  match r with [] => True | c :: _ => p c = false end ->
  skip_while p (l ++ r) = r.
Proof.
  induction 1 as [|d l Hd _ IH]; intros Hr; simpl.
  - destruct r; simpl; [done|by rewrite Hr].
  - by rewrite Hd, IH.
Qed.

Lemma dval_app ds c : dval (ds ++ [c]) = dval ds * 10 + (c - 48).
Proof. unfold dval. by rewrite fold_left_app. Qed.

Lemma udec_aux_app fuel v acc : udec_aux fuel v acc = udec_aux fuel v [] ++ acc.
Proof.
  revert v acc. induction fuel as [|f IH]; intros v acc; simpl; [done|].
  destruct (v <? 10); [done|]. rewrite IH, (IH _ [_]). by rewrite <- app_assoc.
Qed.

Lemma udec_aux_digits fuel v :
  0 <= v -> Forall (fun c => isdigit c = true) (udec_aux fuel v []).
Proof.
  revert v. induction fuel as [|f IH]; intros v Hv; simpl; [constructor|].
  assert (isdigit (48 + v mod 10) = true) as Hd.
  { pose proof (Z.mod_pos_bound v 10). unfold isdigit. rewrite andb_true_iff, !Z.leb_le. lia. }
  destruct (v <? 10); [by repeat constructor|].
  rewrite udec_aux_app. apply Forall_app. split; [|by repeat constructor].
  apply IH. apply Z.div_pos; lia.
Qed.

Lemma dval_udec_aux fuel v :
  0 <= v < 10 ^ Z.of_nat fuel -> dval (udec_aux fuel v []) = v.
Proof.
  revert v. induction fuel as [|f IH]; intros v Hv.
  - change (10 ^ Z.of_nat 0) with 1 in Hv. unfold dval. simpl. lia.
  - rewrite Nat2Z.inj_succ, Z.pow_succ_r in Hv by lia. simpl.
    destruct (Z.ltb_spec v 10) as [Hlt|Hge].
    + rewrite Z.mod_small by lia. unfold dval. simpl. lia.
    + rewrite udec_aux_app, dval_app, IH.
      * pose proof (Z.div_mod v 10). lia.
      * split; [apply Z.div_pos; lia|]. apply Z.div_lt_upper_bound; lia.
Qed.

Lemma udec_digits v : 0 <= v -> Forall (fun c => isdigit c = true) (udec v).
Proof. apply udec_aux_digits. Qed.

Lemma dval_udec v : 0 <= v < 10 ^ 20 -> dval (udec v) = v.
Proof. intros. apply (dval_udec_aux 20). done. Qed.

Lemma udec_aux_nonempty f v : udec_aux (S f) v [] <> [].
Proof.
  simpl. destruct (v <? 10); [done|]. rewrite udec_aux_app.
  by destruct (udec_aux f (v / 10) []).
Qed.

Lemma udec_nonempty v : udec v <> [].
Proof. apply udec_aux_nonempty. Qed.

(** Digits followed by something that is not a digit read back as their value. *)
Lemma strto_parts_digits ds r :
  ds <> [] -> Forall (fun c => isdigit c = true) ds ->
  match r with [] => True | c :: _ => isdigit c = false end ->
  strto_parts (ds ++ r) = (false, ds).
Proof.
  intros Hne Hds Hr. unfold strto_parts. destruct ds as [|d ds]; [done|].
  pose proof (Forall_inv Hds) as Hd. simpl.
  assert (isspace d = false) as ->.
  { unfold isdigit, isspace in *. b2p. rewrite orb_false_iff, andb_false_iff, Z.eqb_neq, !Z.leb_gt. lia. }
  assert ((d =? 45) = false) as -> by (unfold isdigit in Hd; b2p; apply Z.eqb_neq; lia).
  assert ((d =? 43) = false) as -> by (unfold isdigit in Hd; b2p; apply Z.eqb_neq; lia).
  f_equal. change (take_while isdigit ((d :: ds) ++ r) = d :: ds). clear Hne Hd.
  revert Hds. generalize (d :: ds). intros l Hds. destruct r as [|c r].
  - rewrite app_nil_r. by apply take_while_all.
  - by apply take_while_app.
Qed.

Lemma atoi_udec v r :
  0 <= v < 2 ^ 31 ->
  match r with [] => True | c :: _ => isdigit c = false end ->
  atoi (udec v ++ r) = v.
Proof.
  intros Hv Hr. unfold atoi, strtol_w.
  rewrite strto_parts_digits; [|apply udec_nonempty|apply udec_digits; lia|done].
  rewrite dval_udec by lia. unfold clamp. lia.
Qed.

Lemma strtoul_udec v : 0 <= v < 2 ^ 32 -> strtoul (udec v) = v.
Proof.
  intros Hv. unfold strtoul. rewrite <- (app_nil_r (udec v)).
  rewrite strto_parts_digits; [|apply udec_nonempty|apply udec_digits; lia|done].
  rewrite dval_udec by lia. unfold UINT32_MAX.
  rewrite Z.gtb_ltb, (proj2 (Z.ltb_ge _ _)) by lia. done.
Qed.

Lemma udec_no_char v c : 0 <= v -> isdigit c = false -> c ∉ udec v.
Proof.
  intros Hv Hc Hin. pose proof (udec_digits v Hv) as H.
  rewrite Forall_forall in H. apply H in Hin. congruence.
Qed.

Lemma length_udec_aux fuel v : (length (udec_aux fuel v []) <= fuel)%nat.
Proof.
  revert v. induction fuel as [|f IH]; intros v; simpl; [lia|].
  destruct (v <? 10); simpl; [lia|]. rewrite udec_aux_app, length_app. simpl.
  specialize (IH (v / 10)). lia.
Qed.

Lemma length_skip_while p l : (length (skip_while p l) <= length l)%nat.
Proof. induction l as [|c l IH]; simpl; [done|]. destruct (p c); simpl; lia. Qed.

Lemma Zlen_skip_while p l : Zlen (skip_while p l) <= Zlen l.
Proof. unfold Zlen. pose proof (length_skip_while p l). lia. Qed.

Lemma Zlen_trunc n s : Zlen (trunc n s) <= Z.of_nat (pred n) /\ Zlen (trunc n s) <= Zlen s.
Proof. unfold trunc. rewrite Zlen_take. lia. Qed.

#[export] Hint Resolve udec_digits udec_nonempty : spangap.
