(* ===== verification/Cron.v ===== *)
(** * cron: the minute-resolution scheduler (src/esp-idf/src/cron.cpp)

    [Fields] is the matcher of one cron field, [Parse] the tokenizer of an
    entry, [NextRun] the search for the next matching minute, [Sched] the
    scheduler's state with [cronReschedule], [cronPoll] and
    [cronDrainCommands].

    [localtime_r] and [mktime] are parameters ([Calendar]); what the search
    needs of them is stated by [FixedZone], a zone without DST, and
    [UtcCalendar] is a concrete such zone. The FreeRTOS stream buffer is the
    parameter [StreamBuffer]. Log lines are not modelled. *)

From S2P Require Import Prelude CLib.

Open Scope spangap_scope.

(** ** Matching one field *)
Module Fields.

(** The pieces of [s] between the separators [c]. *)
Fixpoint split (c : Z) (s : bytes) : list bytes :=
  match s with
  | [] => [[]]
  | x :: s' =>
      if x =? c then [] :: split c s'
      else match split c s' with
           | h :: t => (x :: h) :: t
           | [] => [[x]]
           end
  end.

(** The part of [cronMatchField] after the step has been split off. *)
Definition cronMatchStep (base : bytes) (step value minVal : Z) : bool :=
  if streq base ($ "*") then
    if step =? 0 then true else Z.rem (value - minVal) step =? 0
  else
    match strchr base (chr "-") with
    | Some (_, rest) =>
        let lo := atoi base in
        let hi := atoi rest in
        if (value <? lo) || (hi <? value) then false
        else if step =? 0 then true
        else Z.rem (value - lo) step =? 0
    | None =>
        let num := atoi base in
        if step =? 0 then value =? num
        else if value <? num then false
        else Z.rem (value - num) step =? 0
    end.

(** [cronMatchField] on a field without a comma: [char base[16]]. *)
Definition cronMatchOne (field : bytes) (value minVal maxVal : Z) : bool :=
  match strchr field (chr "/") with
  | Some (base, rest) =>
      if 16 <=? Zlen base then false
      else
        let step := atoi rest in
        if step <=? 0 then false else cronMatchStep base step value minVal
  | None => cronMatchStep (trunc 16 field) 0 value minVal
  end.

(** The loop over the comma-separated parts: [char buf[32]]. A part has no
    comma, so the recursive call takes the branch of [cronMatchOne]. *)
Fixpoint cronMatchParts (parts : list bytes) (value minVal maxVal : Z) : bool :=
  match parts with
  | [] => false
  | p :: rest =>
      if 32 <=? Zlen p then false
      else if cronMatchOne p value minVal maxVal then true
      else cronMatchParts rest value minVal maxVal
  end.

Definition cronMatchField (field : bytes) (value minVal maxVal : Z) : bool :=
  match strchr field (chr ",") with
  | Some _ => cronMatchParts (split (chr ",") field) value minVal maxVal
  | None => cronMatchOne field value minVal maxVal
  end.

End Fields.

(** ** Tokenizing an entry *)
Module Parse.

Definition CRON_FLAG_AWAKE : Z := 1.
Definition CRON_FLAG_NETWORK : Z := 2.

Fixpoint parseFlagsLoop (s : bytes) (flags : Z) : Z :=
  match s with
  | [] => flags
  | c :: s' =>
      if c =? chr " " then flags
      else if (c =? chr "A") || (c =? chr "a") then
        parseFlagsLoop s' (Z.lor flags CRON_FLAG_AWAKE)
      else if (c =? chr "N") || (c =? chr "n") then
        parseFlagsLoop s' (Z.lor flags (Z.lor CRON_FLAG_NETWORK CRON_FLAG_AWAKE))
      else parseFlagsLoop s' flags
  end.

Definition parseFlags (s : bytes) : Z :=
  match s with
  | c :: s' =>
      if (c =? chr "-") &&
         match s' with [] => true | d :: _ => d =? chr " " end
      then 0 else parseFlagsLoop s 0
  | [] => parseFlagsLoop s 0
  end.

Record cron_parsed := {
  cp_field : list bytes;    (* field[5][32] *)
  cp_flags : Z;
  cp_cmd : bytes
}.

Definition is_blank (c : Z) : bool := (c =? chr " ") || (c =? 9).
Definition not_blank (c : Z) : bool := negb (is_blank c).

(** The loop over the time fields: [n] more tokens, each under 32 bytes. *)
Fixpoint parseFields (n : nat) (p : bytes) : option (list bytes * bytes) :=
  match n with
  | O => Some ([], p)
  | S n' =>
      let p1 := skip_while is_blank p in
      match p1 with
      | [] => None
      | _ =>
          let tok := take_while not_blank p1 in
          if 32 <=? Zlen tok then None
          else match parseFields n' (skip_while not_blank p1) with
               | Some (fs, r) => Some (tok :: fs, r)
               | None => None
               end
      end
  end.

Definition cronParse (entry : bytes) : option cron_parsed :=
  match parseFields 5 entry with
  | None => None
  | Some (fs, p) =>
      let p1 := skip_while is_blank p in
      match p1 with
      | [] => None
      | _ =>
          let flags := parseFlags p1 in
          let p2 := skip_while is_blank (skip_while not_blank p1) in
          match p2 with
          | [] => None
          | _ => Some {| cp_field := fs; cp_flags := flags; cp_cmd := p2 |}
          end
      end
  end.

End Parse.

(** ** The next matching minute *)
Module NextRun.
Import Fields Parse.

(** [struct tm], less [tm_yday]. *)
Record tm := mk_tm {
  tm_sec : Z; tm_min : Z; tm_hour : Z; tm_mday : Z; tm_mon : Z; tm_year : Z;
  tm_wday : Z; tm_isdst : Z
}.

(** The C library's calendar: [localtime_r], and [mktime] giving the time and
    the normalized structure ([None] for its (time_t)-1). *)
Class Calendar := {
  localtime : Z -> tm;
  mktime : tm -> option (Z * tm)
}.

Definition fieldAt (e : cron_parsed) (i : nat) : bytes := nth i (cp_field e) [].

(** The tests of the loop body: month, day of month and day of week together;
    a Sunday also matches a 7 in the dow field. *)
Definition cronDayOk (e : cron_parsed) (t : tm) : bool :=
  let dowOk := cronMatchField (fieldAt e 4) (tm_wday t) 0 7 ||
               ((tm_wday t =? 0) && cronMatchField (fieldAt e 4) 7 0 7) in
  cronMatchField (fieldAt e 3) (tm_mon t + 1) 1 12 &&
  cronMatchField (fieldAt e 2) (tm_mday t) 1 31 &&
  dowOk.
Definition cronHourOk (e : cron_parsed) (t : tm) : bool :=
  cronMatchField (fieldAt e 1) (tm_hour t) 0 23.
Definition cronMinOk (e : cron_parsed) (t : tm) : bool :=
  cronMatchField (fieldAt e 0) (tm_min t) 0 59.

Definition nextDay (t : tm) : tm :=
  mk_tm (tm_sec t) 0 0 (tm_mday t + 1) (tm_mon t) (tm_year t) (tm_wday t) (-1).
Definition nextHour (t : tm) : tm :=
  mk_tm (tm_sec t) 0 (tm_hour t + 1) (tm_mday t) (tm_mon t) (tm_year t) (tm_wday t) (-1).
Definition nextMin (t : tm) : tm :=
  mk_tm (tm_sec t) (tm_min t + 1) (tm_hour t) (tm_mday t) (tm_mon t) (tm_year t) (tm_wday t) (-1).

Section Search.
Context `{Calendar}.

Fixpoint cronNextLoop (guard : nat) (e : cron_parsed) (horizon t : Z) (b : tm) : Z :=
  match guard with
  | O => UINT32_MAX
  | S g =>
      if horizon <? wrap32 (Z.quot t 60) then UINT32_MAX
      else
        let continue (b' : tm) :=
          match mktime b' with
          | Some (t', b'') => cronNextLoop g e horizon t' b''
          | None => UINT32_MAX
          end in
        if negb (cronDayOk e b) then continue (nextDay b)
        else if negb (cronHourOk e b) then continue (nextHour b)
        else if negb (cronMinOk e b) then continue (nextMin b)
        else wrap32 (Z.quot t 60)
  end.

Definition clearSec (t : tm) : tm :=
  mk_tm 0 (tm_min t) (tm_hour t) (tm_mday t) (tm_mon t) (tm_year t) (tm_wday t) (tm_isdst t).

Definition HORIZON_MIN : Z := 400 * 24 * 60.

Definition cronNextRun (e : cron_parsed) (fromMinute : Z) : Z :=
  let t := fromMinute * 60 in
  let horizon := wrap32 (fromMinute + HORIZON_MIN) in
  cronNextLoop 1000 e horizon t (clearSec (localtime t)).

End Search.
End NextRun.

(** ** The scheduler *)
Module Sched.
Import Fields Parse NextRun.

(** The FreeRTOS stream buffer of [CRON_STREAM_SIZE] bytes between the cron task
    and the CLI task: send with a timeout (the count is ignored by the code),
    and the one-byte receive without waiting. *)
Class StreamBuffer (SB : Type) := {
  sb_create : SB;
  sb_send : SB -> bytes -> SB;
  sb_recv1 : SB -> option (Z * SB)
}.

Definition CRON_STREAM_SIZE : Z := 256.

(** The storage keys cron reads: [s.cron.version], [s.cron.enable], the leaves
    under [s.cron.tab] in storage order, and [wifi.sta.state]. *)
Record cron_cfg := {
  cfg_version : option Z;
  cfg_enable : option Z;
  cfg_tab : list (bytes * option bytes);
  cfg_sta_state : bytes
}.

Record cron_tab := { ct_name : bytes; ct_line : bytes }.

Record cron_st (SB : Type) := {
  cronLastMinute : Z;          (* RTC RAM *)
  cronNextMinute : Z;
  cronWakeMinute : Z;
  cronStream : option SB;
  lockCount : Z;               (* holds of cronDeepLock *)
  lockReleased : bool;         (* the static of cronUpdateLock *)
  cronMutex : bool;            (* created *)
  s_entries : list cron_tab;
  isDeepSleepWake : bool
}.
Arguments cronLastMinute {_}. Arguments cronNextMinute {_}.
Arguments cronWakeMinute {_}. Arguments cronStream {_}.
Arguments lockCount {_}. Arguments lockReleased {_}. Arguments cronMutex {_}.
Arguments s_entries {_}. Arguments isDeepSleepWake {_}.

Definition cronEnabled (c : cron_cfg) : bool :=
  negb (default 0 (cfg_enable c) =? 0).

Definition CRON_TAB_PREFIX : bytes := $ "s.cron.tab.".

Definition cronCollectCb (kv : bytes * option bytes) : cron_tab :=
  let name := if has_prefix CRON_TAB_PREFIX kv.1
              then drop (length CRON_TAB_PREFIX) kv.1 else kv.1 in
  {| ct_name := name; ct_line := default [] kv.2 |}.

Section Ops.
Context `{Calendar} {SB : Type} `{StreamBuffer SB}.
Implicit Types st : cron_st SB.

(** Field updates of the module's static state. *)
Definition set_entries st es : cron_st SB :=
  Build_cron_st SB (cronLastMinute st) (cronNextMinute st) (cronWakeMinute st)
    (cronStream st) (lockCount st) (lockReleased st) (cronMutex st) es
    (isDeepSleepWake st).
Definition set_last st m : cron_st SB :=
  Build_cron_st SB m (cronNextMinute st) (cronWakeMinute st)
    (cronStream st) (lockCount st) (lockReleased st) (cronMutex st) (s_entries st)
    (isDeepSleepWake st).
Definition set_next st n w : cron_st SB :=
  Build_cron_st SB (cronLastMinute st) n w
    (cronStream st) (lockCount st) (lockReleased st) (cronMutex st) (s_entries st)
    (isDeepSleepWake st).
Definition set_stream st s : cron_st SB :=
  Build_cron_st SB (cronLastMinute st) (cronNextMinute st) (cronWakeMinute st)
    s (lockCount st) (lockReleased st) (cronMutex st) (s_entries st)
    (isDeepSleepWake st).
Definition set_lock st n r : cron_st SB :=
  Build_cron_st SB (cronLastMinute st) (cronNextMinute st) (cronWakeMinute st)
    (cronStream st) n r (cronMutex st) (s_entries st) (isDeepSleepWake st).

Definition cronCollect st (c : cron_cfg) : cron_st SB :=
  set_entries st (map cronCollectCb (cfg_tab c)).

Definition cronUpdateLock st (c : cron_cfg) : cron_st SB :=
  let allow := cronEnabled c && negb (bool_decide (s_entries st = [])) in
  if allow && negb (lockReleased st) then set_lock st (lockCount st - 1) true
  else if negb allow && lockReleased st then set_lock st (lockCount st + 1) false
  else st.

(** The fold of [cronComputeNextLocked]: the earliest minute of any entry and of
    any entry without the A flag. *)
Definition computeNextStep (from : Z) (acc : Z * Z) (e : cron_tab) : Z * Z :=
  match cronParse (ct_line e) with
  | None => acc
  | Some p =>
      let n := cronNextRun p from in
      (if n <? acc.1 then n else acc.1,
       if (Z.land (cp_flags p) CRON_FLAG_AWAKE =? 0) && (n <? acc.2) then n else acc.2)
  end.

Definition cronComputeNextLocked st (fromMinute : Z) : cron_st SB :=
  let '(next, wake) :=
    fold_left (computeNextStep fromMinute) (s_entries st) (UINT32_MAX, UINT32_MAX) in
  set_next st next wake.

Definition cronAnchorSane st (nowMin : Z) : bool :=
  negb (cronLastMinute st =? 0) && (cronLastMinute st <=? nowMin) &&
  (wrap32 (nowMin - cronLastMinute st) <=? 24 * 60).

Definition cronReschedule st (c : cron_cfg) (now : Z) : cron_st SB :=
  if negb (cronMutex st) then st
  else
    let nowMin := wrap32 (Z.quot now 60) in
    let st := if cronAnchorSane st nowMin then st else set_last st nowMin in
    let st := cronCollect st c in
    let st := cronUpdateLock st c in
    cronComputeNextLocked st (wrap32 (cronLastMinute st + 1)).

(** One iteration of the loop of [cronPoll] over the entries. *)
Definition cronPollEntry (last nowMin : Z) (netUp deepWake : bool)
    (s : option SB) (e : cron_tab) : option SB :=
  match cronParse (ct_line e) with
  | None => s
  | Some p =>
      if nowMin <? cronNextRun p (wrap32 (last + 1)) then s
      else if negb (Z.land (cp_flags p) CRON_FLAG_AWAKE =? 0) && deepWake then s
      else if negb (Z.land (cp_flags p) CRON_FLAG_NETWORK =? 0) && negb netUp then s
      else match s with
           | Some sb => Some (sb_send (sb_send sb (cp_cmd p)) [10])
           | None => None
           end
  end.

Definition netIsUp (c : cron_cfg) : bool :=
  streq (trunc 16 (cfg_sta_state c)) ($ "connected").

Definition cronPoll st (c : cron_cfg) (now : Z) : cron_st SB :=
  if negb (cronMutex st) || negb (cronEnabled c) then st
  else
    let nowMin := wrap32 (Z.quot now 60) in
    if negb (cronAnchorSane st nowMin) then
      let st := cronCollect (set_last st nowMin) c in
      cronComputeNextLocked st (wrap32 (nowMin + 1))
    else if nowMin <? cronNextMinute st then st
    else
      let st := cronCollect st c in
      let s := fold_left
        (cronPollEntry (cronLastMinute st) nowMin (netIsUp c) (isDeepSleepWake st))
        (s_entries st) (cronStream st) in
      let st := set_last (set_stream st s) nowMin in
      cronComputeNextLocked st (wrap32 (nowMin + 1)).

(** [cronWakeupHandler] on the target; the result and the new state. *)
Definition cronWakeupHandler st (wakeByTimer rtcValid : bool) : bool * cron_st SB :=
  if negb wakeByTimer then (false, st)
  else if negb rtcValid then (false, st)
  else (true,
        Build_cron_st SB (cronLastMinute st) (cronNextMinute st) (cronWakeMinute st)
          (cronStream st) (lockCount st) (lockReleased st) (cronMutex st)
          (s_entries st) true).

Definition CRON_VERSION : Z := 1.

(** [cronInit]: nothing in safe mode, else the gated defaults, the mutex and one
    hold of the deep-sleep lock; the task it spawns starts with [cronTaskStart]. *)
Definition cronInit st (c : cron_cfg) (safeMode : bool) : cron_st SB * cron_cfg :=
  if safeMode then (st, c)
  else
    let c' :=
      if default 0 (cfg_version c) <? CRON_VERSION then
        {| cfg_version := Some CRON_VERSION;
           cfg_enable := match cfg_enable c with Some v => Some v | None => Some 1 end;
           cfg_tab := cfg_tab c; cfg_sta_state := cfg_sta_state c |}
      else c in
    (Build_cron_st SB (cronLastMinute st) (cronNextMinute st) (cronWakeMinute st)
       (cronStream st) (lockCount st + 1) (lockReleased st) true
       (s_entries st) (isDeepSleepWake st), c').

Definition cronTaskStart st (c : cron_cfg) (now : Z) : cron_st SB :=
  cronReschedule (set_stream st (Some sb_create)) c now.

(** [cronDrainCommands]: the lines handed to [cliProcess], [char buf[128]].
    [pos] is the buffer built so far; the fuel bounds the bytes read. *)
Fixpoint drainLoop (fuel : nat) (sb : SB) (buf : bytes) : list bytes * SB :=
  match fuel with
  | O => ([], sb)
  | S f =>
      match sb_recv1 sb with
      | None => ([], sb)
      | Some (c, sb') =>
          if c =? 10 then
            let '(cmds, sb'') := drainLoop f sb' [] in
            (if 0 <? Zlen buf then buf :: cmds else cmds, sb'')
          else if Zlen buf <? 127 then drainLoop f sb' (buf ++ [c])
          else drainLoop f sb' buf
      end
  end.

Definition cronDrainCommands (fuel : nat) (s : option SB) : list bytes * option SB :=
  match s with
  | None => ([], None)
  | Some sb => let '(cmds, sb') := drainLoop fuel sb [] in (cmds, Some sb')
  end.

End Ops.
End Sched.
