(* ===== verification/CronNextRun.v ===== *)
(** * cron: [cronNextRun] finds the earliest matching minute

    The laws of a zone without DST ([FixedZone]), the proof that the day-first
    search with its 1000-iteration guard and 400-day horizon returns the least
    matching minute or reports that there is none, and the UTC Gregorian
    calendar as an instance of the laws. *)

From S2P Require Import Prelude CLib Cron.
Import Fields Parse NextRun.

(** [b]'s date at hour [h] and minute [m]. *)
Definition at_time (b : tm) (h m : Z) : tm :=
  mk_tm 0 m h (tm_mday b) (tm_mon b) (tm_year b) (tm_wday b) 0.

(** A zone whose offset from UTC is constant: local day [d] has the date
    [zone_date d], local time splits into whole days, hours and minutes, and
    [mktime] accepts the out-of-range day, hour or minute the search builds. *)
Class FixedZone `{Calendar} := {
  zone_off : Z;
  zone_date : Z -> tm;
  zone_localtime : forall d h m,
    0 <= h < 24 -> 0 <= m < 60 -> 0 <= 1440 * d + 60 * h + m - zone_off ->
    localtime (60 * (1440 * d + 60 * h + m - zone_off)) = at_time (zone_date d) h m;
  zone_mktime : forall d a h m,
    a = 0 \/ a = 1 -> 0 <= h <= 24 -> 0 <= m <= 60 ->
    0 <= 1440 * d + 1439 - zone_off ->
    let k := 1440 * (d + a) + 60 * h + m - zone_off in
    0 <= k ->
    mktime (mk_tm 0 m h (tm_mday (zone_date d) + a) (tm_mon (zone_date d))
              (tm_year (zone_date d)) (tm_wday (zone_date d)) (-1))
    = Some (60 * k, localtime (60 * k))
}.

(** The five fields match at epoch minute [k]. *)
Definition cronDueAt `{Calendar} (e : cron_parsed) (k : Z) : bool :=
  let b := localtime (60 * k) in
  cronDayOk e b && cronHourOk e b && cronMinOk e b.

(** [r] is the least due minute in [k, horizon], or [UINT32_MAX] when there is
    none. *)
Definition least_due `{Calendar} (e : cron_parsed) (horizon k r : Z) : Prop :=
  (r = UINT32_MAX /\ forall j, k <= j <= horizon -> cronDueAt e j = false) \/
  (k <= r <= horizon /\ cronDueAt e r = true /\
   forall j, k <= j < r -> cronDueAt e j = false).

Section Correct.
Context `{FixedZone}.
Variables (e : cron_parsed) (horizon : Z).
Hypothesis horizon_range : 0 <= horizon < 2 ^ 32 - 1440.

Definition minuteOf (d h m : Z) : Z := 1440 * d + 60 * h + m - zone_off.
Definition valid (d h m : Z) : Prop :=
  0 <= h < 24 /\ 0 <= m < 60 /\ 0 <= minuteOf d h m <= horizon + 1440.
Definition loopAt (g : nat) (d h m : Z) : Z :=
  cronNextLoop g e horizon (60 * minuteOf d h m) (at_time (zone_date d) h m).

Definition dOk (d : Z) : bool := cronDayOk e (zone_date d).
Definition hOk (h : Z) : bool := cronMatchField (fieldAt e 1) h 0 23.
Definition mOk (m : Z) : bool := cronMatchField (fieldAt e 0) m 0 59.

Lemma due_split d h m :
  0 <= h < 24 -> 0 <= m < 60 -> 0 <= minuteOf d h m ->
  cronDueAt e (minuteOf d h m) = dOk d && hOk h && mOk m.
Proof.
  intros Hh Hm Hk. unfold cronDueAt, minuteOf in *. by rewrite zone_localtime.
Qed.

(** Every minute has a day, an hour and a minute of the hour. *)
Lemma minute_decompose k :
  0 <= k -> exists d h m, k = minuteOf d h m /\ 0 <= h < 24 /\ 0 <= m < 60.
Proof.
  intros Hk. unfold minuteOf. set (u := k + zone_off).
  exists (u / 1440), (u mod 1440 / 60), (u mod 60).
  pose proof (Z.div_mod u 1440). pose proof (Z.mod_pos_bound u 1440).
  pose proof (Z.div_mod (u mod 1440) 60). pose proof (Z.mod_pos_bound (u mod 1440) 60).
  assert (u mod 60 = (u mod 1440) mod 60) as ->
    by (symmetry; apply Z.mod_mod_divide; by exists 24).
  subst u. lia.
Qed.

Lemma not_due d h m d' h' m' :
  minuteOf d h m = minuteOf d' h' m' ->
  0 <= h < 24 -> 0 <= m < 60 -> 0 <= minuteOf d h m ->
  dOk d && hOk h && mOk m = false -> cronDueAt e (minuteOf d' h' m') = false.
Proof. intros <- ????. by rewrite due_split. Qed.

(** The three ways the search advances. *)
Definition hourEnd (d h : Z) : Z * Z * Z := if h =? 23 then (d + 1, 0, 0) else (d, h + 1, 0).
Definition minEnd (d h m : Z) : Z * Z * Z := if m =? 59 then hourEnd d h else (d, h, m + 1).

Definition loopAt' (g : nat) (p : Z * Z * Z) : Z := let '(d, h, m) := p in loopAt g d h m.

Lemma mktime_at g d a h m d' h' m' :
  a = 0 \/ a = 1 -> 0 <= h <= 24 -> 0 <= m <= 60 ->
  0 <= minuteOf d 23 59 -> 0 <= h' < 24 -> 0 <= m' < 60 ->
  minuteOf (d + a) h m = minuteOf d' h' m' -> 0 <= minuteOf d' h' m' ->
  match mktime (mk_tm 0 m h (tm_mday (zone_date d) + a) (tm_mon (zone_date d))
              (tm_year (zone_date d)) (tm_wday (zone_date d)) (-1)) with
  | Some (t', b'') => cronNextLoop g e horizon t' b''
  | None => UINT32_MAX
  end = loopAt g d' h' m'.
Proof.
  intros Ha Hh Hm Hd Hh' Hm' E Hk. unfold minuteOf in *.
  rewrite zone_mktime by lia. rewrite E, zone_localtime by lia. done.
Qed.

Lemma loop_step g d h m :
  valid d h m ->
  loopAt (S g) d h m =
    if horizon <? minuteOf d h m then UINT32_MAX
    else if negb (dOk d) then loopAt g (d + 1) 0 0
    else if negb (hOk h) then loopAt' g (hourEnd d h)
    else if negb (mOk m) then loopAt' g (minEnd d h m)
    else minuteOf d h m.
Proof.
  intros (Hh & Hm & Hk). unfold loopAt. cbn [cronNextLoop].
  assert (wrap32 (Z.quot (60 * minuteOf d h m) 60) = minuteOf d h m) as ->.
  { rewrite Z.mul_comm, Z.quot_mul by lia. unfold wrap32. apply Z.mod_small. lia. }
  destruct (horizon <? minuteOf d h m) eqn:Eh; [reflexivity|]. b2p.
  fold (loopAt g (d + 1) 0 0). change (cronDayOk e (at_time (zone_date d) h m)) with (dOk d).
  change (cronHourOk e (at_time (zone_date d) h m)) with (hOk h).
  change (cronMinOk e (at_time (zone_date d) h m)) with (mOk m).
  destruct (dOk d); [|apply mktime_at; unfold minuteOf in *; lia]. cbn [negb].
  unfold minEnd, hourEnd, nextHour, nextMin. cbn [tm_mday tm_mon tm_year tm_wday tm_hour tm_sec tm_min at_time].
  rewrite <- (Z.add_0_r (tm_mday (zone_date d))).
  destruct (hOk h); [|destruct (Z.eqb_spec h 23); apply mktime_at; unfold minuteOf in *; lia].
  destruct (mOk m); [reflexivity|]. cbn [negb].
  destruct (Z.eqb_spec m 59), (Z.eqb_spec h 23); apply mktime_at; unfold minuteOf in *; lia.
Qed.

(** With [n] iterations left the search from this minute gives the right answer. *)
Definition wins (n d h m : Z) : Prop :=
  forall g, n <= Z.of_nat g -> least_due e horizon (minuteOf d h m) (loopAt g d h m).

Lemma wins_mono n n' d h m : wins n d h m -> n <= n' -> wins n' d h m.
Proof. intros W ? g ?. apply W. lia. Qed.

Lemma least_due_skip k k' r :
  (forall j, k <= j < k' -> j <= horizon -> cronDueAt e j = false) -> k <= k' ->
  least_due e horizon k' r -> least_due e horizon k r.
Proof.
  intros Hskip Hle [[-> Hn]|(Hr & Hd & Hn)].
  - left. split; [done|]. intros j Hj. destruct (Z.lt_ge_cases j k'); [apply Hskip|apply Hn]; lia.
  - right. split; [lia|]. split; [done|].
    intros j Hj. destruct (Z.lt_ge_cases j k'); [apply Hskip|apply Hn]; lia.
Qed.

(** One iteration that moves on to [(d', h', m')] without skipping a due minute. *)
Lemma wins_next n d h m d' h' m' :
  valid d h m -> minuteOf d h m <= horizon ->
  (forall g, loopAt (S g) d h m = loopAt g d' h' m') ->
  (forall j, minuteOf d h m <= j < minuteOf d' h' m' -> cronDueAt e j = false) ->
  minuteOf d h m <= minuteOf d' h' m' ->
  0 <= n -> wins n d' h' m' -> wins (n + 1) d h m.
Proof.
  intros Hv Hk Hs Hj Hle Hn W [|g] Hg; [lia|]. rewrite Hs.
  apply (least_due_skip _ (minuteOf d' h' m')); [auto|done|]. apply W. lia.
Qed.

Lemma wins_beyond d h m : valid d h m -> horizon < minuteOf d h m -> wins 1 d h m.
Proof.
  intros Hv Hk [|g] Hg; [lia|]. rewrite loop_step, (proj2 (Z.ltb_lt _ _)) by done.
  left. split; [done|]. lia.
Qed.

Lemma wins_hit d h m :
  valid d h m -> minuteOf d h m <= horizon -> dOk d = true -> hOk h = true -> mOk m = true ->
  wins 1 d h m.
Proof.
  intros Hv Hk Ed Eh Em [|g] Hg; [lia|].
  rewrite loop_step, (proj2 (Z.ltb_ge _ _)), Ed, Eh, Em by done. cbn [negb].
  destruct Hv as (? & ? & ?). right. split; [lia|]. rewrite due_split by lia.
  rewrite Ed, Eh, Em. split; [done|]. lia.
Qed.

(** A day that does not match is left in one iteration. *)
Lemma wins_day n d h m :
  valid d h m -> dOk d = false -> 0 <= n -> wins n (d + 1) 0 0 -> wins (n + 1) d h m.
Proof.
  intros Hv Ed Hn W. destruct (Z.lt_ge_cases horizon (minuteOf d h m)).
  { apply (wins_mono 1); [by apply wins_beyond|lia]. }
  pose proof Hv as (Hh & Hm & Hk).
  apply (wins_next _ _ _ _ (d + 1) 0 0); [done..| | | |done|done].
  - intros g. by rewrite loop_step, (proj2 (Z.ltb_ge _ _)), Ed by done.
  - intros j Hj. destruct (minute_decompose j) as (d' & h' & m' & -> & ? & ?); [lia|].
    apply (not_due d' h' m'); [done..|lia|].
    assert (d' = d) as -> by (unfold minuteOf in *; lia). by rewrite Ed.
  - unfold minuteOf in *. lia.
Qed.

Definition winsAt (n : Z) (p : Z * Z * Z) : Prop := let '(d, h, m) := p in wins n d h m.

(** An hour that does not match is left in one iteration. *)
Lemma wins_hour n d h m :
  valid d h m -> dOk d = true -> hOk h = false -> 0 <= n -> winsAt n (hourEnd d h) ->
  wins (n + 1) d h m.
Proof.
  intros Hv Ed Eh Hn W. destruct (Z.lt_ge_cases horizon (minuteOf d h m)).
  { apply (wins_mono 1); [by apply wins_beyond|lia]. }
  pose proof Hv as (Hh & Hm & Hk).
  assert (forall j, minuteOf d h m <= j < minuteOf d (h + 1) 0 -> cronDueAt e j = false) as Hskip.
  { intros j Hj. destruct (minute_decompose j) as (d' & h' & m' & -> & ? & ?); [lia|].
    apply (not_due d' h' m'); [done..|lia|].
    assert (d' = d /\ h' = h) as [-> ->] by (unfold minuteOf in *; lia). by rewrite Ed, Eh. }
  unfold hourEnd in W. destruct (Z.eqb_spec h 23); simpl in W.
  - apply (wins_next _ _ _ _ (d + 1) 0 0); [done..| | |unfold minuteOf; lia|done|done].
    + intros g. rewrite loop_step, (proj2 (Z.ltb_ge _ _)), Ed, Eh by done. cbn.
      unfold hourEnd. by rewrite (proj2 (Z.eqb_eq h 23)).
    + intros j Hj. apply Hskip. unfold minuteOf in *. lia.
  - apply (wins_next _ _ _ _ d (h + 1) 0); [done..| |done|unfold minuteOf; lia|done|done].
    intros g. rewrite loop_step, (proj2 (Z.ltb_ge _ _)), Ed, Eh by done. cbn.
    unfold hourEnd. by rewrite (proj2 (Z.eqb_neq h 23)).
Qed.

(** A minute that does not match is left in one iteration. *)
Lemma wins_min n d h m :
  valid d h m -> dOk d = true -> hOk h = true -> mOk m = false -> 0 <= n ->
  winsAt n (minEnd d h m) -> wins (n + 1) d h m.
Proof.
  intros Hv Ed Eh Em Hn W. destruct (Z.lt_ge_cases horizon (minuteOf d h m)).
  { apply (wins_mono 1); [by apply wins_beyond|lia]. }
  pose proof Hv as (Hh & Hm & Hk). destruct (minEnd d h m) as [[d' h'] m'] eqn:E.
  assert (minuteOf d' h' m' = minuteOf d h m + 1) as Ek.
  { unfold minEnd, hourEnd in E. destruct (Z.eqb_spec m 59), (Z.eqb_spec h 23);
      injection E as <- <- <-; unfold minuteOf; lia. }
  apply (wins_next _ _ _ _ d' h' m'); [done..| | |lia|done|done].
  - intros g. rewrite loop_step, (proj2 (Z.ltb_ge _ _)), Ed, Eh, Em by done. cbn. by rewrite E.
  - intros j Hj. assert (j = minuteOf d h m) as -> by lia.
    rewrite due_split by lia. by rewrite Ed, Eh, Em.
Qed.

(** *** Counting iterations

    When some minute and some hour of the day can match, a matching day entered
    at midnight is finished within 24 + 60 iterations, so only the first day can
    waste iterations inside a day. *)
Section Count.
Hypothesis some_hour : exists h, 0 <= h < 24 /\ hOk h = true.
Hypothesis some_min : exists m, 0 <= m < 60 /\ mOk m = true.

Lemma wins_in_hour n d h m m' :
  valid d h m -> dOk d = true -> hOk h = true -> mOk m' = true ->
  m <= m' < 60 -> n = m' - m -> wins (n + 1) d h m.
Proof.
  intros Hv Ed Eh Em' Hm' ->. remember (Z.to_nat (m' - m)) as j eqn:Ej.
  revert m Hv Hm' Ej. induction j as [|j IH]; intros m Hv Hm' Ej.
  all: destruct (Z.lt_ge_cases horizon (minuteOf d h m));
    [apply (wins_mono 1); [by apply wins_beyond|lia]|].
  all: destruct (mOk m) eqn:Em; [apply (wins_mono 1); [by apply wins_hit|lia]|].
  - assert (m = m') by lia. congruence.
  - apply wins_min; [done..|lia|]. unfold minEnd. rewrite (proj2 (Z.eqb_neq m 59)) by lia.
    simpl. assert (m <> m') by congruence.
    replace (m' - m) with (m' - (m + 1) + 1) by lia. apply IH; [|lia|lia].
    destruct Hv as (? & ? & ?). unfold valid, minuteOf in *. lia.
Qed.

Lemma wins_in_day n d h h' :
  valid d h 0 -> dOk d = true -> hOk h' = true -> h <= h' < 24 -> n = h' - h ->
  wins (n + 60) d h 0.
Proof.
  intros Hv Ed Eh' Hh' ->. remember (Z.to_nat (h' - h)) as j eqn:Ej.
  destruct some_min as (ms & Hms & Ems).
  revert h Hv Hh' Ej. induction j as [|j IH]; intros h Hv Hh' Ej.
  all: destruct (Z.lt_ge_cases horizon (minuteOf d h 0));
    [apply (wins_mono 1); [by apply wins_beyond|lia]|].
  all: destruct (hOk h) eqn:Eh;
    [apply (wins_mono (ms - 0 + 1)); [eapply wins_in_hour; [done..|lia|lia]|lia]|].
  - assert (h = h') by lia. congruence.
  - assert (h <> h') by congruence.
    replace (h' - h + 60) with (h' - (h + 1) + 60 + 1) by lia.
    apply wins_hour; [done..|lia|]. unfold hourEnd. rewrite (proj2 (Z.eqb_neq h 23)) by lia.
    simpl. apply IH; [|lia|lia]. destruct Hv as (? & ? & ?). unfold valid, minuteOf in *. lia.
Qed.

(** From midnight of day [d], when day [D] starts after the horizon. *)
Lemma wins_days d D :
  horizon < minuteOf D 0 0 -> d <= D -> 0 <= minuteOf d 0 0 ->
  minuteOf d 0 0 <= horizon + 1440 -> wins (D - d + 84) d 0 0.
Proof.
  intros HD Hd Hk Hk2. destruct some_hour as (hs & Hhs & Ehs).
  remember (Z.to_nat (D - d)) as j eqn:Ej.
  revert d Hd Hk Hk2 Ej. induction j as [|j IH]; intros d Hd Hk Hk2 Ej.
  all: assert (valid d 0 0) as Hv by (unfold valid; lia).
  all: destruct (Z.lt_ge_cases horizon (minuteOf d 0 0));
    [apply (wins_mono 1); [by apply wins_beyond|lia]|].
  - assert (d = D) by lia. subst. lia.
  - destruct (dOk d) eqn:Ed.
    + apply (wins_mono (hs - 0 + 60)); [eapply wins_in_day; [done..|lia|lia]|lia].
    + replace (D - d + 84) with (D - (d + 1) + 84 + 1) by lia.
      assert (minuteOf (d + 1) 0 0 = minuteOf d 0 0 + 1440) by (unfold minuteOf; lia).
      apply wins_day; [done..|lia|]. apply IH; lia.
Qed.

(** From an hour start on the first day. *)
Lemma wins_hour_start d D h :
  valid d h 0 -> horizon < minuteOf D 0 0 -> d < D -> wins (D - d + 84 + (24 - h)) d h 0.
Proof.
  intros Hv HD Hd. destruct some_min as (ms & Hms & Ems).
  assert (Hh : 0 <= h < 24) by apply Hv.
  remember (Z.to_nat (23 - h)) as j eqn:Ej.
  revert h Hv Hh Ej. induction j as [|j IH]; intros h Hv Hh Ej.
  all: destruct (Z.lt_ge_cases horizon (minuteOf d h 0));
    [apply (wins_mono 1); [by apply wins_beyond|lia]|].
  all: assert (wins (D - (d + 1) + 84) (d + 1) 0 0) as Wd
    by (destruct Hv as (_ & _ & Hk); apply wins_days; unfold minuteOf in *; lia).
  all: destruct (dOk d) eqn:Ed; [|apply (wins_mono (D - (d + 1) + 84 + 1));
    [by apply wins_day; [..|lia|]|lia]].
  all: destruct (hOk h) eqn:Eh;
    [apply (wins_mono (ms - 0 + 1)); [eapply wins_in_hour; [done..|lia|lia]|lia]|].
  - assert (h = 23) as -> by lia. apply (wins_mono (D - (d + 1) + 84 + 1)); [|lia].
    apply wins_hour; [done..|lia|done].
  - replace (D - d + 84 + (24 - h)) with (D - d + 84 + (24 - (h + 1)) + 1) by lia.
    apply wins_hour; [done..|lia|]. unfold hourEnd. rewrite (proj2 (Z.eqb_neq h 23)) by lia.
    simpl. apply IH; [|lia|lia]. destruct Hv as (? & ? & ?). unfold valid, minuteOf in *. lia.
Qed.

(** From any minute. *)
Lemma wins_any d D h m :
  valid d h m -> horizon < minuteOf D 0 0 -> d < D ->
  wins (D - d + 84 + 24 + (60 - m)) d h m.
Proof.
  intros Hv HD Hd. assert (Hm : 0 <= m < 60) by apply Hv.
  remember (Z.to_nat (59 - m)) as j eqn:Ej.
  revert m Hv Hm Ej. induction j as [|j IH]; intros m Hv Hm Ej.
  all: destruct (Z.lt_ge_cases horizon (minuteOf d h m));
    [apply (wins_mono 1); [by apply wins_beyond|lia]|].
  all: assert (wins (D - (d + 1) + 84) (d + 1) 0 0) as Wd
    by (destruct Hv as (? & _ & Hk); apply wins_days; unfold minuteOf in *; lia).
  all: assert (winsAt (D - d + 84 + 24) (hourEnd d h)) as Wh.
  1, 3: unfold hourEnd; destruct (Z.eqb_spec h 23); [by apply (wins_mono (D - (d + 1) + 84)); [|lia]|];
    apply (wins_mono (D - d + 84 + (24 - (h + 1)))); [|destruct Hv as (? & _); lia];
    apply wins_hour_start; [|done..];
    destruct Hv as (? & ? & ?); unfold valid, minuteOf in *; lia.
  all: destruct (dOk d) eqn:Ed; [|apply (wins_mono (D - (d + 1) + 84 + 1));
    [by apply wins_day; [..|lia|]|lia]].
  all: destruct (hOk h) eqn:Eh; [|apply (wins_mono (D - d + 84 + 24 + 1));
    [by apply wins_hour; [..|lia|]|lia]].
  all: destruct (mOk m) eqn:Em; [apply (wins_mono 1); [by apply wins_hit|lia]|].
  - assert (m = 59) as -> by lia. apply (wins_mono (D - d + 84 + 24 + 1)); [|lia].
    apply wins_min; [done..|lia|done].
  - replace (D - d + 84 + 24 + (60 - m)) with (D - d + 84 + 24 + (60 - (m + 1)) + 1) by lia.
    apply wins_min; [done..|lia|]. unfold minEnd. rewrite (proj2 (Z.eqb_neq m 59)) by lia.
    simpl. apply IH; [|lia|lia]. destruct Hv as (? & ? & ?). unfold valid, minuteOf in *. lia.
Qed.
End Count.

(** When no hour or no minute can match, every answer the loop can give is
    [UINT32_MAX]. *)
Lemma never_due_loop g d h m :
  valid d h m ->
  (forall h', 0 <= h' < 24 -> hOk h' = false) \/ (forall m', 0 <= m' < 60 -> mOk m' = false) ->
  loopAt g d h m = UINT32_MAX.
Proof.
  intros Hv Hno. revert d h m Hv. induction g as [|g IH]; intros d h m Hv; [done|].
  rewrite loop_step by done. destruct (Z.ltb_spec horizon (minuteOf d h m)); [done|].
  destruct Hv as (Hh & Hm & Hk).
  assert (valid (d + 1) 0 0) as Vd by (unfold valid, minuteOf in *; lia).
  assert (loopAt' g (hourEnd d h) = UINT32_MAX) as Eh.
  { unfold hourEnd. destruct (Z.eqb_spec h 23); apply IH; [done|].
    unfold valid, minuteOf in *; lia. }
  destruct (dOk d); [|by apply IH]. destruct (hOk h) eqn:E1; [|done].
  destruct (mOk m) eqn:E2.
  - destruct Hno as [Hno|Hno]; [rewrite Hno in E1|rewrite Hno in E2]; done.
  - cbn. unfold minEnd. destruct (Z.eqb_spec m 59); [done|]. apply IH.
    unfold valid, minuteOf in *; lia.
Qed.

Lemma never_due k :
  0 <= k ->
  (forall h', 0 <= h' < 24 -> hOk h' = false) \/ (forall m', 0 <= m' < 60 -> mOk m' = false) ->
  cronDueAt e k = false.
Proof.
  intros Hk Hno. destruct (minute_decompose k) as (d & h & m & -> & ? & ?); [done|].
  rewrite due_split by done. destruct Hno as [Hno|Hno]; rewrite Hno by done;
    rewrite ?andb_false_r; done.
Qed.
End Correct.

(** Whether some value of a bounded range passes a test. *)
Lemma range_decide (f : Z -> bool) n :
  (exists x, 0 <= x < Z.of_nat n /\ f x = true) \/ (forall x, 0 <= x < Z.of_nat n -> f x = false).
Proof.
  induction n as [|n [(x & Hx & E)|IH]].
  - right. lia.
  - left. exists x. split; [lia|done].
  - destruct (f (Z.of_nat n)) eqn:E.
    + left. exists (Z.of_nat n). split; [lia|done].
    + right. intros x Hx. destruct (Z.eq_dec x (Z.of_nat n)) as [->|]; [done|]. apply IH. lia.
Qed.

Lemma cronNextRun_least_due `{FixedZone} e from :
  0 <= from < 2 ^ 32 - 600000 ->
  least_due e (from + HORIZON_MIN) from (cronNextRun e from).
Proof.
  intros Hf. unfold cronNextRun.
  assert (wrap32 (from + HORIZON_MIN) = from + HORIZON_MIN) as ->
    by (apply Z.mod_small; unfold HORIZON_MIN; lia).
  set (hz := from + HORIZON_MIN).
  assert (0 <= hz < 2 ^ 32 - 1440) as Hz by (unfold hz, HORIZON_MIN; lia).
  destruct (minute_decompose from) as (d & h & m & Ek & Hh & Hm); [lia|].
  assert (valid hz d h m) as Hv by (unfold valid; rewrite <- Ek; unfold hz, HORIZON_MIN; lia).
  replace (cronNextLoop 1000 e hz (from * 60) (clearSec (localtime (from * 60))))
    with (loopAt e hz 1000 d h m).
  2: { unfold loopAt. rewrite (Z.mul_comm from 60), Ek. unfold minuteOf in *.
       by rewrite zone_localtime by lia. }
  rewrite Ek at 1.
  destruct (range_decide (hOk e) 24) as [Hs|Hno];
    [destruct (range_decide (mOk e) 60) as [Ms|Mno]|].
  - apply (wins_any e hz Hz Hs Ms d (d + 402)); [done|..].
    + unfold minuteOf, hz, HORIZON_MIN in *. lia.
    + lia.
    + lia.
  - rewrite (never_due_loop e hz Hz) by auto. left. split; [done|].
    intros j Hj. apply never_due; [lia|auto].
  - rewrite (never_due_loop e hz Hz) by auto. left. split; [done|].
    intros j Hj. apply never_due; [lia|auto].
Qed.

(** ** The UTC Gregorian calendar as a [FixedZone] *)
Module Utc.

Definition is_leap (y : Z) : bool :=
  (y mod 4 =? 0) && (negb (y mod 100 =? 0) || (y mod 400 =? 0)).

Definition days_before_month (y m : Z) : Z :=
  nth (Z.to_nat m) [0; 31; 59; 90; 120; 151; 181; 212; 243; 273; 304; 334; 365] 0 +
  (if (2 <=? m) && is_leap y then 1 else 0).

Definition month_len (y m : Z) : Z := days_before_month y (m + 1) - days_before_month y m.

(** Days from the epoch to 1 January of year [y]. *)
Definition days_before_year (y : Z) : Z :=
  365 * (y - 1970) + (y - 1969) / 4 - (y - 1901) / 100 + (y - 1601) / 400.

Definition days_of (y m d : Z) : Z := days_before_year y + days_before_month y m + (d - 1).

Record date := mk_date { dt_year : Z; dt_mon : Z; dt_mday : Z; dt_wday : Z }.

Definition next_date (x : date) : date :=
  let w := if dt_wday x =? 6 then 0 else dt_wday x + 1 in
  if dt_mday x <? month_len (dt_year x) (dt_mon x)
  then mk_date (dt_year x) (dt_mon x) (dt_mday x + 1) w
  else if dt_mon x <? 11 then mk_date (dt_year x) (dt_mon x + 1) 1 w
  else mk_date (dt_year x + 1) 0 1 w.

(** 1 January 1970 was a Thursday. *)
Definition civil (d : Z) : date := N.iter (Z.to_N d) next_date (mk_date 1970 0 1 4).

Definition date_tm (x : date) : tm :=
  mk_tm 0 0 0 (dt_mday x) (dt_mon x) (dt_year x - 1900) (dt_wday x) 0.

Definition utc_localtime (t : Z) : tm :=
  let b := at_time (date_tm (civil (t / 86400))) (t mod 86400 / 3600) (t mod 3600 / 60) in
  mk_tm (t mod 60) (tm_min b) (tm_hour b) (tm_mday b) (tm_mon b) (tm_year b) (tm_wday b) 0.

Definition utc_mktime (b : tm) : option (Z * tm) :=
  let t := 60 * (1440 * days_of (tm_year b + 1900) (tm_mon b) (tm_mday b) +
                 60 * tm_hour b + tm_min b) + tm_sec b in
  if t <? 0 then None else Some (t, utc_localtime t).

#[export] Instance UtcCalendar : Calendar :=
  {| localtime := utc_localtime; mktime := utc_mktime |}.

Definition date_ok (x : date) (d : Z) : Prop :=
  0 <= dt_mon x < 12 /\ days_of (dt_year x) (dt_mon x) (dt_mday x) = d.

Lemma days_before_year_succ y :
  days_before_year (y + 1) = days_before_year y + 365 + (if is_leap y then 1 else 0).
Proof.
  unfold days_before_year, is_leap.
  destruct (Z.eqb_spec (y mod 4) 0), (Z.eqb_spec (y mod 100) 0), (Z.eqb_spec (y mod 400) 0);
    cbn [andb orb negb]; Z.to_euclidean_division_equations; lia.
Qed.

Lemma next_date_ok x d :
  date_ok x d -> dt_mday x <= month_len (dt_year x) (dt_mon x) ->
  date_ok (next_date x) (d + 1) /\
  dt_mday (next_date x) <= month_len (dt_year (next_date x)) (dt_mon (next_date x)).
Proof.
  destruct x as [y m md w]. unfold date_ok, next_date. simpl. intros [Hm Hd] Hl.
  assert (forall y' m', 0 <= m' < 12 -> 1 <= month_len y' m') as Hpos.
  { intros y' m' Hm'. unfold month_len, days_before_month.
    assert (m' = 0 \/ m' = 1 \/ m' = 2 \/ m' = 3 \/ m' = 4 \/ m' = 5 \/ m' = 6 \/ m' = 7 \/
            m' = 8 \/ m' = 9 \/ m' = 10 \/ m' = 11) as Hc by lia.
    destruct (is_leap y'); naive_solver lia. }
  destruct (Z.ltb_spec md (month_len y m)); simpl.
  - unfold days_of in *. lia.
  - destruct (Z.ltb_spec m 11); simpl.
    + specialize (Hpos y (m + 1)). unfold days_of, month_len in *. lia.
    + specialize (Hpos (y + 1) 0). split; [split|lia]; [lia|].
      assert (m = 11) as -> by lia. unfold days_of in *. rewrite days_before_year_succ.
      unfold month_len, days_before_month in *. simpl in *. destruct (is_leap y); lia.
Qed.

Lemma civil_ok d : 0 <= d -> date_ok (civil d) d.
Proof.
  intros Hd. enough (date_ok (civil d) d /\
    dt_mday (civil d) <= month_len (dt_year (civil d)) (dt_mon (civil d))) by naive_solver.
  revert d Hd. apply natlike_ind; [by repeat split|].
  intros d Hd [IH1 IH2]. unfold civil. rewrite Z2N.inj_succ, N.iter_succ by done.
  by apply next_date_ok.
Qed.

Lemma utc_localtime_split d h m :
  0 <= h < 24 -> 0 <= m < 60 ->
  utc_localtime (60 * (1440 * d + 60 * h + m - 0)) = at_time (date_tm (civil d)) h m.
Proof.
  intros Hh Hm. unfold utc_localtime. set (t := 60 * _).
  assert (t / 86400 = d) as -> by (subst t; Z.to_euclidean_division_equations; lia).
  assert (t mod 86400 / 3600 = h) as -> by (subst t; Z.to_euclidean_division_equations; lia).
  assert (t mod 3600 / 60 = m) as -> by (subst t; Z.to_euclidean_division_equations; lia).
  assert (t mod 60 = 0) as -> by (subst t; Z.to_euclidean_division_equations; lia).
  done.
Qed.

#[export] Program Instance UtcZone : FixedZone :=
  {| zone_off := 0; zone_date := fun d => date_tm (civil d) |}.
Next Obligation. intros d h m ???. by apply utc_localtime_split. Qed.
Next Obligation.
  intros d a h m Ha Hh Hm Hd k Hk. cbn. unfold utc_mktime. cbn [tm_mday tm_mon tm_year tm_hour tm_min tm_sec date_tm].
  destruct (civil_ok d) as [_ E]; [lia|].
  replace (dt_year (civil d) - 1900 + 1900) with (dt_year (civil d)) by lia.
  replace (60 * (1440 * days_of _ _ _ + 60 * h + m) + 0) with (60 * k)
    by (unfold days_of in *; lia).
  by rewrite (proj2 (Z.ltb_ge _ _)) by lia.
Qed.

End Utc.

(** ** Properties *)

(** C19: in a zone without DST, [cronNextRun] returns the earliest minute at or
    after [from] at which all five fields match, within the 400-day horizon, and
    [UINT32_MAX] exactly when there is none: the day-first stepping skips no
    matching minute and the 1000-iteration guard never cuts a search short. *)
Theorem cronNextRun_earliest `{FixedZone} e from :
  0 <= from < 2 ^ 32 - 600000 ->
  let r := cronNextRun e from in
  (r = UINT32_MAX /\
   forall k, from <= k <= from + HORIZON_MIN -> cronDueAt e k = false) \/
  (from <= r <= from + HORIZON_MIN /\ cronDueAt e r = true /\
   forall k, from <= k < r -> cronDueAt e k = false).
Proof. apply cronNextRun_least_due. Qed.

Definition sample_entry : cron_parsed :=
  {| cp_field := [str "30"; str "4"; str "1"; str "*"; str "*"]; cp_flags := 0;
     cp_cmd := str "backup" |}.

(** 04:30 on the first of the month, from 2 January 1970: 1 February. *)
Lemma cronNextRun_earliest_witness :
  @cronNextRun Utc.UtcCalendar sample_entry 1440 = 31 * 1440 + 270 /\
  forall k, 1440 <= k < 31 * 1440 + 270 -> @cronDueAt Utc.UtcCalendar sample_entry k = false.
Proof.
  assert (@cronNextRun Utc.UtcCalendar sample_entry 1440 = 31 * 1440 + 270) as E
    by (vm_compute; reflexivity).
  destruct (@cronNextRun_earliest Utc.UtcCalendar Utc.UtcZone sample_entry 1440)
    as [[E' _]|(_ & _ & Hno)]; [lia| |].
  - rewrite E in E'. discriminate.
  - split; [exact E|]. rewrite E in Hno. exact Hno.
Defined.
