(* ===== verification/CronFields.v ===== *)
(** * cron: what a field matches and what an entry parses to

    A field is printed from a syntax of items ([*], [N], [N-M], each with an
    optional [/S]); [cronMatchField] on the printed text is the meaning of the
    items. An entry printed from its tokens parses back to them. *)

From S2P Require Import Prelude CLib Cron.
Import Fields Parse.
Open Scope spangap_scope.

(** ** The syntax and meaning of a field *)

Inductive fbase := Star | Num (n : Z) | Range (lo hi : Z).
Record item := { it_base : fbase; it_step : option Z }.

Definition print_base (b : fbase) : bytes :=
  match b with
  | Star => $ "*"
  | Num n => udec n
  | Range lo hi => udec lo ++ $ "-" ++ udec hi
  end.

Definition print_item (i : item) : bytes :=
  print_base (it_base i) ++
  match it_step i with Some s => $ "/" ++ udec s | None => [] end.

Fixpoint print_field (its : list item) : bytes :=
  match its with
  | [] => []
  | [i] => print_item i
  | i :: its' => print_item i ++ $ "," ++ print_field its'
  end.

(** The values a base starts from, and up to where. *)
Definition in_base (b : fbase) (v : Z) : bool :=
  match b with
  | Star => true
  | Num n => n <=? v
  | Range lo hi => (lo <=? v) && (v <=? hi)
  end.
Definition base_start (b : fbase) (minVal : Z) : Z :=
  match b with Star => minVal | Num n => n | Range lo _ => lo end.

Definition item_matches (v minVal : Z) (i : item) : bool :=
  match it_step i with
  | Some s => in_base (it_base i) v && ((v - base_start (it_base i) minVal) mod s =? 0)
  | None => match it_base i with Num n => v =? n | b => in_base b v end
  end.

Definition small (n : Z) : Prop := 0 <= n < 10 ^ 6.
Definition item_ok (i : item) : Prop :=
  match it_base i with
  | Star => True | Num n => small n | Range lo hi => small lo /\ small hi
  end /\
  match it_step i with Some s => 0 < s < 10 ^ 6 | None => True end.

(** ** Lemmas on the printed text *)

Lemma length_udec_small n : small n -> Zlen (udec n) <= 6.
Proof.
  assert (forall f k v, 0 <= v < 10 ^ Z.of_nat (S k) ->
            (length (udec_aux f v []) <= S k)%nat) as Haux.
  { induction f as [|f IH]; intros k v Hv; cbn [udec_aux]; [simpl; lia|].
    destruct (Z.ltb_spec v 10); [simpl; lia|]. rewrite udec_aux_app, length_app. cbn [length].
    destruct k as [|k]; [simpl in Hv; lia|].
    assert (0 <= v / 10 < 10 ^ Z.of_nat (S k)) as Hd.
    { rewrite (Nat2Z.inj_succ (S k)), Z.pow_succ_r in Hv by lia.
      split; [apply Z.div_pos; lia|apply Z.div_lt_upper_bound; lia]. }
    specialize (IH k (v / 10) Hd). lia. }
  intros Hn. unfold Zlen. pose proof (Haux 20%nat 5%nat n Hn). unfold udec. lia.
Qed.

Lemma print_base_chars b c :
  match b with Star => True | Num n => 0 <= n | Range lo hi => 0 <= lo /\ 0 <= hi end ->
  isdigit c = false -> c <> chr "*" -> c <> chr "-" -> c ∉ print_base b.
Proof.
  destruct b as [|n|lo hi]; simpl; intros H Hd H1 H2.
  - change (c ∉ [chr "*"]). by rewrite list_elem_of_singleton.
  - by apply udec_no_char.
  - destruct H. change (c ∉ udec lo ++ [chr "-"] ++ udec hi).
    rewrite !not_elem_of_app, list_elem_of_singleton.
    repeat split; [by apply udec_no_char|done|by apply udec_no_char].
Qed.

Lemma item_ok_nonneg i :
  item_ok i ->
  match it_base i with Star => True | Num n => 0 <= n | Range lo hi => 0 <= lo /\ 0 <= hi end.
Proof. unfold item_ok, small. destruct (it_base i); naive_solver lia. Qed.

Lemma print_item_no_comma i : item_ok i -> chr "," ∉ print_item i.
Proof.
  intros Hi. pose proof (item_ok_nonneg i Hi) as Hb. destruct Hi as [_ Hs].
  unfold print_item. rewrite not_elem_of_app. split; [by apply print_base_chars|].
  destruct (it_step i); [|apply not_elem_of_nil].
  change (chr "," ∉ [chr "/"] ++ udec z). rewrite not_elem_of_app, list_elem_of_singleton.
  split; [done|apply udec_no_char; [lia|done]].
Qed.

Lemma length_print_base i : item_ok i -> Zlen (print_base (it_base i)) < 16.
Proof.
  intros [Hb _]. destruct (it_base i) as [|n|lo hi]; simpl; [by vm_compute|..].
  - pose proof (length_udec_small n Hb). lia.
  - destruct Hb. pose proof (length_udec_small lo). pose proof (length_udec_small hi).
    autorewrite with zlen. naive_solver lia.
Qed.

Lemma length_print_item i : item_ok i -> Zlen (print_item i) < 32.
Proof.
  intros Hi. pose proof (length_print_base i Hi). destruct Hi as [_ Hs].
  unfold print_item. destruct (it_step i) as [s|]; simpl; autorewrite with zlen; [|lia].
  assert (small s) as Hss by (unfold small; lia). pose proof (length_udec_small s Hss). lia.
Qed.

(** The test after the step has been split off, on a printed base. *)
Lemma match_step_print b step v minVal :
  match b with Star => True | Num n => small n | Range lo hi => small lo /\ small hi end ->
  minVal <= v -> 0 <= step ->
  cronMatchStep (print_base b) step v minVal =
    if step =? 0 then match b with Num n => v =? n | _ => in_base b v end
    else in_base b v && ((v - base_start b minVal) mod step =? 0).
Proof.
  intros Hb Hv Hs. unfold cronMatchStep. destruct b as [|n|lo hi].
  - simpl. destruct (Z.eqb_spec step 0); [done|]. by rewrite Z.rem_mod_nonneg by lia.
  - assert (streq (print_base (Num n)) ($ "*") = false) as ->.
    { apply streq_false. intros E.
      assert (chr "*" ∈ udec n) as Hin by (change (chr "*" ∈ print_base (Num n)); rewrite E; by left).
      revert Hin. apply udec_no_char; [unfold small in Hb; lia|done]. }
    rewrite (proj2 (strchr_None _ _)) by (simpl; apply udec_no_char; [unfold small in Hb; lia|done]).
    rewrite <- (app_nil_r (print_base (Num n))). simpl print_base.
    rewrite atoi_udec by (try done; unfold small in Hb; lia). simpl.
    destruct (Z.eqb_spec step 0); [done|].
    destruct (Z.ltb_spec v n), (Z.leb_spec n v); try (exfalso; lia); [done|].
    by rewrite Z.rem_mod_nonneg by lia.
  - destruct Hb as [Hlo Hhi]. unfold small in *.
    assert (chr "-" ∉ udec lo) as Hno by (apply udec_no_char; [lia|done]).
    assert (streq (print_base (Range lo hi)) ($ "*") = false) as ->.
    { apply streq_false. intros E.
      assert (chr "-" ∈ [chr "*"]) as Hin.
      { change [chr "*"] with ($ "*"). rewrite <- E. apply elem_of_app. right. by left. }
      by apply list_elem_of_singleton in Hin. }
    simpl print_base. rewrite strchr_app by done.
    rewrite atoi_udec by (try done; lia).
    rewrite <- (app_nil_r (udec hi)) at 1. rewrite atoi_udec by (try done; lia).
    cbn [in_base base_start].
    destruct (Z.ltb_spec v lo), (Z.leb_spec lo v); try (exfalso; lia); cbn [orb andb];
      [by destruct (step =? 0)|].
    destruct (Z.ltb_spec hi v), (Z.leb_spec v hi); try (exfalso; lia); [by destruct (step =? 0)|].
    destruct (Z.eqb_spec step 0); [done|]. by rewrite Z.rem_mod_nonneg by lia.
Qed.

Lemma match_one_print i v minVal maxVal :
  item_ok i -> minVal <= v -> cronMatchOne (print_item i) v minVal maxVal = item_matches v minVal i.
Proof.
  intros Hi Hv. pose proof (length_print_base i Hi) as Hl.
  assert (chr "/" ∉ print_base (it_base i)) as Hno by (apply print_base_chars; [by apply item_ok_nonneg|done..]).
  destruct Hi as [Hb Hs]. unfold cronMatchOne, print_item, item_matches.
  destruct (it_step i) as [s|].
  - change ($ "/" ++ udec s) with (chr "/" :: udec s). rewrite strchr_app by done.
    rewrite (proj2 (Z.leb_gt _ _)) by done.
    rewrite <- (app_nil_r (udec s)), atoi_udec by (try done; lia).
    rewrite (proj2 (Z.leb_gt _ _)) by lia. rewrite match_step_print by (done || lia).
    by rewrite (proj2 (Z.eqb_neq _ _)) by lia.
  - rewrite app_nil_r, (proj2 (strchr_None _ _)) by done. unfold trunc.
    rewrite take_ge by (unfold Zlen in Hl; simpl; lia).
    rewrite match_step_print; [|exact Hb|exact Hv|lia]. simpl. by destruct (it_base i).
Qed.

Lemma split_app s c r : c ∉ s -> split c (s ++ c :: r) = s :: split c r.
Proof.
  induction s as [|x s IH]; simpl; intros Hin; [by rewrite Z.eqb_refl|].
  apply not_elem_of_cons in Hin as [Hne Hin].
  rewrite (proj2 (Z.eqb_neq x c)) by congruence. by rewrite IH.
Qed.

Lemma split_none s c : c ∉ s -> split c s = [s].
Proof.
  induction s as [|x s IH]; simpl; intros Hin; [done|].
  apply not_elem_of_cons in Hin as [Hne Hin].
  rewrite (proj2 (Z.eqb_neq x c)) by congruence. by rewrite IH.
Qed.

Lemma split_print its :
  its <> [] -> Forall item_ok its -> split (chr ",") (print_field its) = map print_item its.
Proof.
  induction its as [|i its IH]; [done|]. intros _ Hok. inversion Hok as [|?? Hi His]; subst.
  pose proof (print_item_no_comma i Hi). destruct its as [|j its]; [by apply split_none|].
  change (print_field (i :: j :: its)) with (print_item i ++ chr "," :: print_field (j :: its)).
  rewrite split_app by done. by rewrite IH.
Qed.

Lemma match_parts_print its v minVal maxVal :
  Forall item_ok its -> minVal <= v ->
  cronMatchParts (map print_item its) v minVal maxVal = existsb (item_matches v minVal) its.
Proof.
  intros Hok Hv. induction Hok as [|i its Hi _ IH]; [done|]. cbn [map cronMatchParts existsb].
  rewrite (proj2 (Z.leb_gt _ _)) by (by apply length_print_item).
  rewrite match_one_print by done. rewrite IH. by destruct (item_matches v minVal i).
Qed.

(** ** Printed entries *)

(** A token: non-empty, without blanks, short enough for its buffer. *)
Definition token_ok (t : bytes) : Prop :=
  t <> [] /\ Forall (fun c => not_blank c = true) t /\ Zlen t < 32.

Fixpoint print_tokens (ts : list bytes) (rest : bytes) : bytes :=
  match ts with
  | [] => rest
  | t :: ts' => t ++ $ " " ++ print_tokens ts' rest
  end.

Definition starts_token (p : bytes) : Prop :=
  match p with c :: _ => not_blank c = true | [] => False end.

Lemma skip_blank_token p : starts_token p -> skip_while is_blank p = p.
Proof.
  destruct p as [|c p]; [done|]. simpl. unfold not_blank. rewrite negb_true_iff. by intros ->.
Qed.

Lemma skip_token t r :
  Forall (fun c => not_blank c = true) t -> skip_while not_blank (t ++ $ " " ++ r) = $ " " ++ r.
Proof. intros. by apply skip_while_app. Qed.

Lemma take_token t r :
  Forall (fun c => not_blank c = true) t -> take_while not_blank (t ++ $ " " ++ r) = t.
Proof. intros. by apply take_while_app. Qed.

Lemma parse_fields_print n ts rest :
  length ts = n -> Forall token_ok ts ->
  forall lead, lead = [] \/ lead = $ " " ->
  exists lead', (lead' = [] \/ lead' = $ " ") /\
    parseFields n (lead ++ print_tokens ts rest) = Some (ts, lead' ++ rest).
Proof.
  revert n. induction ts as [|t ts IH]; intros n <- Hok lead Hl; cbn [print_tokens length parseFields].
  - exists lead. done.
  - inversion Hok as [|?? (Hne & Hnb & Hlen) Hts]; subst.
    assert (starts_token (t ++ $ " " ++ print_tokens ts rest)) as Hst
      by (destruct t; [done|]; by inversion Hnb).
    assert (skip_while is_blank (lead ++ t ++ $ " " ++ print_tokens ts rest)
            = t ++ $ " " ++ print_tokens ts rest) as E.
    { destruct Hl as [-> | ->]; [by apply skip_blank_token|]. simpl. by apply skip_blank_token. }
    rewrite E. destruct (IH _ eq_refl Hts ($ " ")) as (lead' & Hl' & Hp); [by right|].
    exists lead'. split; [done|]. destruct (t ++ $ " " ++ print_tokens ts rest) eqn:Et; [done|].
    rewrite <- Et. rewrite take_token, skip_token by done.
    rewrite (proj2 (Z.leb_gt _ _)) by done. by rewrite Hp.
Qed.

Lemma parse_flags_loop_app f r acc :
  Forall (fun c => not_blank c = true) f ->
  parseFlagsLoop (f ++ $ " " ++ r) acc = parseFlagsLoop f acc.
Proof.
  intros Hf. revert acc. induction Hf as [|c f Hc _ IH]; intros acc; [done|]. cbn [app parseFlagsLoop].
  rewrite !IH. done.
Qed.

Lemma parse_flags_token f r :
  f <> [] -> Forall (fun c => not_blank c = true) f -> parseFlags (f ++ $ " " ++ r) = parseFlags f.
Proof.
  intros Hne Hf. unfold parseFlags. destruct f as [|c f]; [done|].
  pose proof (parse_flags_loop_app (c :: f) r 0 Hf) as E. cbn [app] in *. rewrite E.
  destruct f as [|d f]; [done|]. done.
Qed.

(** ** Properties *)

(** A field written from items [*], [N], [N-M], each with an optional step,
    matches exactly the values one of its items describes. *)
Theorem cronMatchField_print its v minVal maxVal :
  its <> [] -> Forall item_ok its -> minVal <= v ->
  cronMatchField (print_field its) v minVal maxVal = existsb (item_matches v minVal) its.
Proof.
  intros Hne Hok Hv. unfold cronMatchField. pose proof (split_print its Hne Hok) as Hs.
  rewrite Hs, match_parts_print by done.
  destruct (strchr (print_field its) (chr ",")) as [[??]|] eqn:E; [done|].
  apply strchr_None in E. rewrite split_none in Hs by done.
  destruct its as [|i [|j its]]; simplify_eq/=; try done.
  rewrite orb_false_r. inversion Hok; subst. by apply match_one_print.
Qed.

Lemma cronMatchField_print_witness :
  cronMatchField (print_field [ {| it_base := Range 10 50; it_step := Some 5 |};
                                {| it_base := Num 7; it_step := None |} ]) 35 0 59 = true.
Proof.
  rewrite cronMatchField_print; [reflexivity|done|repeat constructor; unfold small; simpl; lia|lia].
Defined.

(** An entry made of five field tokens, a flags token and a command, separated
    by spaces, parses to those fields, the flags of that token alone and the
    command. *)
Theorem cronParse_print fs flags cmd :
  length fs = 5%nat -> Forall token_ok fs ->
  flags <> [] -> Forall (fun c => not_blank c = true) flags -> starts_token cmd ->
  cronParse (print_tokens fs (flags ++ $ " " ++ cmd)) =
    Some {| cp_field := fs; cp_flags := parseFlags flags; cp_cmd := cmd |}.
Proof.
  intros Hlen Hok Hfne Hfl Hcmd. unfold cronParse.
  destruct (parse_fields_print 5 fs (flags ++ $ " " ++ cmd) Hlen Hok [])
    as (lead & Hl & E); [by left|].
  cbn [app] in E. rewrite E.
  assert (skip_while is_blank (lead ++ flags ++ $ " " ++ cmd) = flags ++ $ " " ++ cmd) as E1.
  { assert (starts_token (flags ++ $ " " ++ cmd)) by (destruct flags; [done|]; by inversion Hfl).
    destruct Hl as [-> | ->]; [by apply skip_blank_token|]. cbn. by apply skip_blank_token. }
  rewrite E1. destruct (flags ++ $ " " ++ cmd) eqn:Ef; [by destruct flags|]. rewrite <- Ef.
  rewrite parse_flags_token, skip_token by done.
  replace (skip_while is_blank ($ " " ++ cmd)) with cmd
    by (symmetry; cbn; by apply skip_blank_token).
  by destruct cmd.
Qed.

Lemma cronParse_print_witness :
  cronParse ($ "0 4 * * 1-5 A backup now") =
    Some {| cp_field := [ $ "0"; $ "4"; $ "*"; $ "*"; $ "1-5" ];
            cp_flags := CRON_FLAG_AWAKE; cp_cmd := $ "backup now" |}.
Proof.
  apply (cronParse_print [ $ "0"; $ "4"; $ "*"; $ "*"; $ "1-5" ] ($ "A") ($ "backup now"));
    [reflexivity|repeat constructor; done|done|repeat constructor|done].
Defined.

(** The flags token ends only at a space, so with a tab between a [-] flags
    token and the command, the letters of the command's first word set flags. *)
Theorem parseFlags_reads_past_tab cmd :
  starts_token cmd ->
  parseFlags (chr "-" :: 9 :: cmd) = parseFlagsLoop cmd 0 /\
  exists p, cronParse ($ "* * * * * " ++ chr "-" :: 9 :: cmd) = Some p /\
    cp_cmd p = cmd /\ cp_flags p = parseFlagsLoop cmd 0.
Proof.
  intros Hc. split; [done|]. destruct cmd as [|c cmd]; [done|].
  unfold cronParse. simpl in Hc. unfold not_blank in Hc. apply negb_true_iff in Hc.
  assert (parseFields 5 ($ "* * * * * " ++ chr "-" :: 9 :: c :: cmd) =
          Some ([ $ "*"; $ "*"; $ "*"; $ "*"; $ "*" ], 32 :: 45 :: 9 :: c :: cmd)) as ->
    by (vm_compute; reflexivity).
  change (skip_while is_blank (32 :: 45 :: 9 :: c :: cmd)) with (45 :: 9 :: c :: cmd).
  change (skip_while not_blank (45 :: 9 :: c :: cmd)) with (9 :: c :: cmd).
  change (skip_while is_blank (9 :: c :: cmd)) with (if is_blank c then skip_while is_blank cmd else c :: cmd).
  rewrite Hc. eexists. split; [reflexivity|]. split; reflexivity.
Qed.

Lemma parseFlags_reads_past_tab_witness :
  exists p, cronParse ($ "* * * * * " ++ chr "-" :: 9 :: $ "nightly") = Some p /\
    cp_flags p = Z.lor CRON_FLAG_NETWORK CRON_FLAG_AWAKE.
Proof.
  destruct (parseFlags_reads_past_tab ($ "nightly")) as [_ (p & E & _ & Ef)]; [done|].
  exists p. split; [exact E|]. rewrite Ef. reflexivity.
Defined.
