(* ===== verification/CronSched.v ===== *)
(** * cron: what a poll runs

    The laws of the stream buffer, the set of commands due in a window, and the
    proofs that a poll hands exactly those to the CLI task, that the stored next
    minute never hides a due entry, that the deep-sleep lock is balanced, and
    that a slot can be lost when the window is older than a day. *)

From S2P Require Import Prelude CLib Cron CronNextRun.
Import Fields Parse NextRun Sched.
Open Scope spangap_scope.

(** Documented behaviour of the FreeRTOS stream buffer: bytes come out in the
    order they went in; a send that fits is complete. *)
Class StreamBufferLaws (SB : Type) `{StreamBuffer SB} := {
  sb_contents : SB -> bytes;
  sb_create_empty : sb_contents sb_create = [];
  sb_send_fits : forall s d,
    Zlen (sb_contents s) + Zlen d <= CRON_STREAM_SIZE ->
    sb_contents (sb_send s d) = sb_contents s ++ d;
  sb_recv1_nil : forall s, sb_contents s = [] -> sb_recv1 s = None;
  sb_recv1_cons : forall s c r, sb_contents s = c :: r ->
    exists s', sb_recv1 s = Some (c, s') /\ sb_contents s' = r
}.

(** A buffer as the list of its bytes: a concrete instance. *)
Definition list_send (s d : bytes) : bytes :=
  s ++ take (Z.to_nat (CRON_STREAM_SIZE - Zlen s)) d.
#[export] Instance ListBuffer : StreamBuffer bytes :=
  {| sb_create := []; sb_send := list_send;
     sb_recv1 := fun s => match s with c :: r => Some (c, r) | [] => None end |}.
Lemma list_send_fits (s d : bytes) :
  Zlen s + Zlen d <= CRON_STREAM_SIZE -> list_send s d = s ++ d.
Proof. intros Hfit. unfold list_send. f_equal. apply take_ge. unfold Zlen in *. lia. Qed.

#[export] Instance ListBufferLaws : StreamBufferLaws bytes.
Proof.
  refine {| sb_contents := fun s => s; sb_create_empty := eq_refl;
            sb_send_fits := list_send_fits |}.
  - by intros s ->.
  - intros s c r ->. by exists r.
Defined.

(** ** The specification of a poll *)

(** Some minute of (last, now] matches. *)
Definition windowDue `{Calendar} (p : cron_parsed) (last now : Z) : bool :=
  existsb (cronDueAt p) (seqZ (last + 1) (now - last)).

Definition flagsAllow (p : cron_parsed) (netUp deepWake : bool) : bool :=
  negb (negb (Z.land (cp_flags p) CRON_FLAG_AWAKE =? 0) && deepWake) &&
  negb (negb (Z.land (cp_flags p) CRON_FLAG_NETWORK =? 0) && negb netUp).

Definition dueCmd `{Calendar} (last now : Z) (netUp deepWake : bool) (e : cron_tab) : list bytes :=
  match cronParse (ct_line e) with
  | Some p => if windowDue p last now && flagsAllow p netUp deepWake then [cp_cmd p] else []
  | None => []
  end.

Definition dueCmds `{Calendar} (c : cron_cfg) (last now : Z) (deepWake : bool) : list bytes :=
  flat_map (dueCmd last now (netIsUp c) deepWake) (map cronCollectCb (cfg_tab c)).

(** Commands as the stream carries them. *)
Definition cmdLines (cmds : list bytes) : bytes := flat_map (fun x => x ++ [10]) cmds.

(** The stored next minute is the one computed from the current entries. *)
Definition sched_ok `{Calendar} {SB} (st : cron_st SB) (c : cron_cfg) : Prop :=
  cronNextMinute st =
    (fold_left (computeNextStep (wrap32 (cronLastMinute st + 1)))
       (map cronCollectCb (cfg_tab c)) (UINT32_MAX, UINT32_MAX)).1.

Section Poll.
Context `{FixedZone} {SB : Type} `{StreamBufferLaws SB}.
Implicit Types (st : cron_st SB) (c : cron_cfg).

(** ** The stored next minute *)

Lemma compute_next_le from es acc :
  (fold_left (computeNextStep from) es acc).1 <= acc.1 /\
  forall e p, e ∈ es -> cronParse (ct_line e) = Some p ->
    (fold_left (computeNextStep from) es acc).1 <= cronNextRun p from.
Proof.
  revert acc. induction es as [|e0 es IH]; intros acc; simpl.
  - split; [lia|]. intros e p Hin. by apply not_elem_of_nil in Hin.
  - destruct (IH (computeNextStep from acc e0)) as [IH1 IH2].
    assert ((computeNextStep from acc e0).1 <= acc.1 /\
      forall p, cronParse (ct_line e0) = Some p ->
        (computeNextStep from acc e0).1 <= cronNextRun p from) as [Ha Hb].
    { unfold computeNextStep. destruct (cronParse (ct_line e0)) as [p0|]; [|naive_solver lia].
      simpl. destruct (Z.ltb_spec (cronNextRun p0 from) acc.1); split; try lia;
        intros p [= <-]; lia. }
    split; [lia|]. intros e p [->|Hin]%elem_of_cons Hp; [|by eapply IH2].
    specialize (Hb p Hp). lia.
Qed.

Lemma compute_next_le_wake from es acc :
  acc.1 <= acc.2 ->
  (fold_left (computeNextStep from) es acc).1 <= (fold_left (computeNextStep from) es acc).2.
Proof.
  revert acc. induction es as [|e es IH]; intros acc Ha; simpl; [done|]. apply IH.
  unfold computeNextStep. destruct (cronParse (ct_line e)) as [p|]; [|done]. simpl.
  destruct (Z.ltb_spec (cronNextRun p from) acc.1), (Z.land (cp_flags p) CRON_FLAG_AWAKE =? 0);
    cbn [andb]; try lia; destruct (Z.ltb_spec (cronNextRun p from) acc.2); lia.
Qed.

(** ** Due in a window *)

Lemma windowDue_true p last now :
  windowDue p last now = true <-> exists k, last < k <= now /\ cronDueAt p k = true.
Proof.
  unfold windowDue. rewrite existsb_exists. split.
  - intros (k & Hin & Hk). apply list_elem_of_In, elem_of_seqZ in Hin. exists k. split; [lia|done].
  - intros (k & Hk & Hd). exists k. split; [|done]. apply list_elem_of_In, elem_of_seqZ. lia.
Qed.

(** The due check of the code is the window test. *)
Lemma next_run_window p last now :
  0 <= last -> last <= now <= last + 1440 -> now < 2 ^ 32 - 700000 ->
  (now <? cronNextRun p (wrap32 (last + 1))) = negb (windowDue p last now).
Proof.
  intros Hl Hn Hb. replace (wrap32 (last + 1)) with (last + 1)
    by (symmetry; apply Z.mod_small; lia).
  assert (0 <= last + 1 < 2 ^ 32 - 600000) as Hrange by lia.
  pose proof (cronNextRun_least_due p (last + 1) Hrange) as HL.
  apply eq_true_iff_eq. rewrite Z.ltb_lt, negb_true_iff.
  destruct HL as [[-> Hno]|(Hr & Hd & Hno)].
  - split; [intros _|unfold UINT32_MAX; lia]. apply not_true_is_false.
    intros (k & Hk & Hdue)%windowDue_true. rewrite Hno in Hdue; [done|unfold HORIZON_MIN; lia].
  - split.
    + intros Hlt. apply not_true_is_false. intros (k & Hk & Hdue)%windowDue_true.
      rewrite Hno in Hdue; [done|lia].
    + intros Hw. apply Z.lt_nge. intros Hle. enough (windowDue p last now = true) by congruence.
      apply windowDue_true. exists (cronNextRun p (last + 1)). split; [lia|done].
Qed.

Definition fitsWindow (last now : Z) : Prop :=
  0 <= last /\ last <= now <= last + 1440 /\ now < 2 ^ 32 - 700000.

Lemma poll_entry last now netUp deepWake sb e :
  fitsWindow last now ->
  Zlen (sb_contents sb) + Zlen (cmdLines (dueCmd last now netUp deepWake e)) <= CRON_STREAM_SIZE ->
  exists sb', cronPollEntry last now netUp deepWake (Some sb) e = Some sb' /\
    sb_contents sb' = sb_contents sb ++ cmdLines (dueCmd last now netUp deepWake e).
Proof.
  intros (Hl & Hn & Hb). unfold cronPollEntry, dueCmd, flagsAllow.
  destruct (cronParse (ct_line e)) as [p|]; [|exists sb; by rewrite app_nil_r].
  rewrite next_run_window by done.
  destruct (windowDue p last now); cbn [negb andb]; [|exists sb; by rewrite app_nil_r].
  destruct (_ && deepWake); cbn [negb andb]; [exists sb; by rewrite app_nil_r|].
  destruct (_ && negb netUp); cbn [negb andb]; [exists sb; by rewrite app_nil_r|].
  unfold cmdLines. cbn [flat_map]. rewrite app_nil_r. intros Hfit.
  eexists. split; [done|]. autorewrite with zlen in Hfit.
  rewrite sb_send_fits, sb_send_fits, app_assoc; [done|zlia|].
  rewrite sb_send_fits by zlia. zlia.
Qed.

Lemma poll_entries last now netUp deepWake es sb :
  fitsWindow last now ->
  Zlen (sb_contents sb) + Zlen (cmdLines (flat_map (dueCmd last now netUp deepWake) es))
    <= CRON_STREAM_SIZE ->
  exists sb', fold_left (cronPollEntry last now netUp deepWake) es (Some sb) = Some sb' /\
    sb_contents sb' = sb_contents sb ++ cmdLines (flat_map (dueCmd last now netUp deepWake) es).
Proof.
  intros Hw. revert sb. induction es as [|e es IH]; intros sb Hfit; cbn [fold_left flat_map] in *.
  - exists sb. by rewrite app_nil_r.
  - unfold cmdLines in *. rewrite flat_map_app in *. autorewrite with zlen in Hfit.
    destruct (poll_entry last now netUp deepWake sb e Hw) as (sb1 & E1 & C1).
    { unfold cmdLines. zlia. }
    rewrite E1. destruct (IH sb1) as (sb2 & E2 & C2); [rewrite C1; unfold cmdLines; zlia|].
    exists sb2. split; [done|]. rewrite C2, C1. by rewrite <- app_assoc.
Qed.

(** No entry is due before the stored next minute. *)
Lemma not_due_before_next st c now :
  fitsWindow (cronLastMinute st) now -> sched_ok st c -> now < cronNextMinute st ->
  forall deepWake, dueCmds c (cronLastMinute st) now deepWake = [].
Proof.
  intros (Hl & Hn & Hb) Hs Hlt deepWake. unfold dueCmds.
  pose proof (compute_next_le (wrap32 (cronLastMinute st + 1)) (map cronCollectCb (cfg_tab c))
    (UINT32_MAX, UINT32_MAX)) as [_ Hle]. unfold sched_ok in Hs. rewrite <- Hs in Hle.
  revert Hle. generalize (map cronCollectCb (cfg_tab c)). intros es Hle.
  induction es as [|e es IH]; [done|]. cbn [flat_map].
  rewrite IH by (intros; eapply Hle; [right|]; done). rewrite app_nil_r. unfold dueCmd.
  destruct (cronParse (ct_line e)) as [p|] eqn:Ep; [|done].
  specialize (Hle e p (list_elem_of_here _ _) Ep).
  pose proof (next_run_window p (cronLastMinute st) now Hl Hn Hb) as Ew.
  rewrite (proj2 (Z.ltb_lt _ _)) in Ew by lia. destruct (windowDue _ _ _); done.
Qed.

Lemma anchor_sane_window st nowMin :
  cronAnchorSane st nowMin = true -> 0 <= cronLastMinute st -> nowMin < 2 ^ 32 - 700000 ->
  fitsWindow (cronLastMinute st) nowMin.
Proof.
  unfold cronAnchorSane. intros Ha ??. b2p. unfold wrap32 in *.
  rewrite Z.mod_small in * by lia. unfold fitsWindow. lia.
Qed.

(** ** Draining *)

Lemma drain_lines cmds fuel sb :
  sb_contents sb = cmdLines cmds ->
  Forall (fun x => x <> [] /\ 10 ∉ x) cmds ->
  (length (sb_contents sb) < fuel)%nat ->
  exists sb', drainLoop fuel sb [] = (map (take 127) cmds, sb') /\ sb_contents sb' = [].
Proof.
  assert (forall x rest fuel sb buf,
    sb_contents sb = x ++ rest -> 10 ∉ x -> (length (sb_contents sb) < fuel)%nat ->
    (length buf <= 127)%nat ->
    exists sb' fuel', drainLoop fuel sb buf = drainLoop fuel' sb' (take 127 (buf ++ x)) /\
      sb_contents sb' = rest /\ (length rest < fuel')%nat) as Hline.
  { induction x as [|ch x IH]; intros rest fuel' s buf Hc Hno Hf Hb.
    - exists s, fuel'. rewrite app_nil_r, take_ge by done. simpl in Hc. rewrite Hc in Hf. done.
    - destruct fuel' as [|fuel']; [lia|]. simpl in Hc. apply not_elem_of_cons in Hno as [Hne Hno].
      destruct (sb_recv1_cons s ch (x ++ rest) Hc) as (s' & Er & Hc').
      cbn [drainLoop]. rewrite Er, (proj2 (Z.eqb_neq ch 10)) by congruence.
      rewrite Hc in Hf. simpl in Hf.
      destruct (Z.ltb_spec (Zlen buf) 127) as [Hlt|Hge].
      + destruct (IH rest fuel' s' (buf ++ [ch])) as (s2 & f2 & E & C & L);
          [done|done|rewrite Hc'; lia|rewrite length_app; unfold Zlen in Hlt; simpl; lia|].
        exists s2, f2. by rewrite E, <- app_assoc.
      + destruct (IH rest fuel' s' buf) as (s2 & f2 & E & C & L); [done|done|rewrite Hc'; lia|done|].
        exists s2, f2. rewrite E. unfold Zlen in Hge. rewrite !take_app_le by lia. done. }
  revert fuel sb. induction cmds as [|x cmds IH]; intros fuel sb Hc Hok Hf.
  - destruct fuel; [lia|]. cbn [drainLoop]. rewrite sb_recv1_nil by done. by exists sb.
  - inversion Hok as [|?? [Hne Hno] Hoks]; subst.
    change (cmdLines (x :: cmds)) with ((x ++ [10]) ++ cmdLines cmds) in Hc.
    rewrite <- app_assoc in Hc.
    destruct (Hline x _ fuel sb [] Hc Hno Hf) as (s1 & f1 & E1 & C1 & L1); [simpl; lia|].
    rewrite E1. simpl in C1. destruct f1 as [|f1]; [lia|]. cbn [drainLoop].
    destruct (sb_recv1_cons s1 10 _ C1) as (s2 & Er & C2). rewrite Er. cbn [Z.eqb Pos.eqb].
    simpl in L1. destruct (IH f1 s2 C2 Hoks) as (s3 & E3 & C3); [rewrite C2; lia|].
    rewrite E3. exists s3. split; [|done]. cbn [app map].
    destruct x as [|ch x]; [done|]. done.
Qed.
End Poll.

(** ** Reachable scheduler states *)

Section Reach.
Context `{Calendar} {SB : Type} `{StreamBuffer SB}.

(** What the cron task, the end of boot and the CLI task do after [cronInit]. *)
Inductive cron_step : cron_st SB -> cron_st SB -> Prop :=
| step_start st c now : cron_step st (cronTaskStart st c now)
| step_reschedule st c now : cron_step st (cronReschedule st c now)
| step_poll st c now : cron_step st (cronPoll st c now)
| step_wake st t v : cron_step st (cronWakeupHandler st t v).2
| step_drain st fuel : cron_step st (set_stream st (cronDrainCommands fuel (cronStream st)).2).

(** Static data before [cronInit]: RTC minutes of any value. *)
Definition cron_boot (l n w : Z) : cron_st SB :=
  Build_cron_st SB l n w None 0 false false [] false.

Inductive cron_reach : cron_st SB -> Prop :=
| reach_init l n w c : cron_reach (cronInit (cron_boot l n w) c false).1
| reach_step st st' : cron_reach st -> cron_step st st' -> cron_reach st'.

Definition lock_inv (st : cron_st SB) : Prop :=
  cronMutex st = true /\ lockCount st = if lockReleased st then 0 else 1.

Lemma update_lock_inv st c :
  lock_inv st -> lock_inv (cronUpdateLock st c) /\
  lockReleased (cronUpdateLock st c) =
    cronEnabled c && negb (bool_decide (s_entries st = [])).
Proof.
  intros [Hm Hc]. unfold cronUpdateLock, lock_inv.
  destruct (cronEnabled c && negb (bool_decide (s_entries st = []))), (lockReleased st) eqn:E;
    cbn [negb andb set_lock lockReleased lockCount cronMutex]; rewrite ?E; repeat split; try done; lia.
Qed.

Lemma compute_next_lock st m :
  lock_inv st -> lock_inv (cronComputeNextLocked st m) /\
  lockReleased (cronComputeNextLocked st m) = lockReleased st.
Proof. unfold cronComputeNextLocked. by destruct (fold_left _ _ _). Qed.

Lemma reschedule_lock st c now :
  lock_inv st -> lock_inv (cronReschedule st c now) /\
  lockReleased (cronReschedule st c now) = cronEnabled c && negb (bool_decide (cfg_tab c = [])).
Proof.
  intros Hi. unfold cronReschedule. rewrite (proj1 Hi). cbn [negb].
  set (st1 := if cronAnchorSane _ _ then _ else _).
  assert (lock_inv st1) as H1 by (unfold st1; by destruct (cronAnchorSane _ _)).
  assert (lock_inv (cronCollect st1 c)) as H2 by done.
  destruct (update_lock_inv (cronCollect st1 c) c H2) as [H3 E3].
  destruct (compute_next_lock _ (wrap32 (cronLastMinute (cronUpdateLock (cronCollect st1 c) c) + 1)) H3)
    as [H4 E4].
  split; [done|]. rewrite E4, E3. do 2 f_equal. cbn. apply bool_decide_ext.
  destruct (cfg_tab c); done.
Qed.

Lemma poll_lock st c now : lock_inv st -> lock_inv (cronPoll st c now).
Proof.
  intros Hi. unfold cronPoll. rewrite (proj1 Hi). cbn [negb orb].
  destruct (cronEnabled c); [cbn [negb]|done].
  destruct (cronAnchorSane _ _); cbn [negb]; [|by apply compute_next_lock].
  destruct (_ <? _); [done|]. by apply compute_next_lock.
Qed.

Lemma reach_lock_inv st : cron_reach st -> lock_inv st.
Proof.
  induction 1 as [|st st' _ IH Hs]; [done|]. destruct Hs.
  - unfold cronTaskStart. by apply reschedule_lock.
  - by apply reschedule_lock.
  - by apply poll_lock.
  - unfold cronWakeupHandler. by destruct t, v.
  - done.
Qed.
End Reach.

(** ** Properties *)

Lemma parse_cmd_nonempty line p : cronParse line = Some p -> cp_cmd p <> [].
Proof. unfold cronParse. intros E. repeat case_match; simplify_eq/=; done. Qed.

Lemma due_cmds_nonempty `{Calendar} c last now deepWake :
  Forall (fun x => x <> []) (dueCmds c last now deepWake).
Proof.
  unfold dueCmds. generalize (map cronCollectCb (cfg_tab c)). intros es.
  induction es as [|e es IH]; [constructor|]. cbn [flat_map]. apply Forall_app. split; [|done].
  unfold dueCmd. destruct (cronParse (ct_line e)) as [p|] eqn:E; [|constructor].
  destruct (_ && _); repeat constructor. by eapply parse_cmd_nonempty.
Qed.

Lemma compute_next_sched_ok `{Calendar} {SB} (st : cron_st SB) c m :
  s_entries st = map cronCollectCb (cfg_tab c) -> m = wrap32 (cronLastMinute st + 1) ->
  sched_ok (cronComputeNextLocked st m) c /\
  cronLastMinute (cronComputeNextLocked st m) = cronLastMinute st /\
  cronStream (cronComputeNextLocked st m) = cronStream st.
Proof.
  intros Es ->. unfold sched_ok, cronComputeNextLocked. rewrite Es.
  destruct (fold_left _ _ _) as [n w] eqn:E. cbn. by rewrite E.
Qed.


Definition sample_cfg : cron_cfg :=
  {| cfg_version := Some 1; cfg_enable := Some 1;
     cfg_tab := [(str "s.cron.tab.a", Some (str "0 0 2 1 * - a"));
                 (str "s.cron.tab.b", Some (str "1 0 3 1 * - b"))];
     cfg_sta_state := [] |}.

Definition sample_st : cron_st bytes :=
  @cronReschedule Utc.UtcCalendar bytes
    (Build_cron_st bytes 1439 0 0 (Some []) 1 false true [] false) sample_cfg (1439 * 60).


(** From [cronInit] on, whatever the order of reschedules, polls, wake-ups and
    drains, the deep-sleep lock is held at most once and released only in between;
    after a reschedule it is released exactly when cron is enabled and has
    entries. *)
Theorem cron_lock_balanced `{Calendar} {SB} `{StreamBuffer SB} (st : cron_st SB) c now :
  cron_reach st ->
  (lockCount st = 0 \/ lockCount st = 1) /\
  (lockCount (cronReschedule st c now) = 0 <->
   cronEnabled c = true /\ cfg_tab c <> []).
Proof.
  intros Hr%reach_lock_inv. split; [destruct Hr as [_ ->]; destruct (lockReleased st); auto|].
  destruct (reschedule_lock st c now Hr) as [[_ Ec] Er]. rewrite Ec, Er.
  destruct (cronEnabled c), (cfg_tab c); cbn; naive_solver.
Qed.

Lemma cron_lock_balanced_witness :
  lockCount (@cronReschedule Utc.UtcCalendar bytes (cronInit (cron_boot 0 0 0) sample_cfg false).1
               sample_cfg 60) = 0.
Proof. apply cron_lock_balanced; [apply reach_init|done]. Defined.

(** When the last serviced minute is more than a day old, a poll runs nothing
    and moves the window past the current minute, whatever is due in it. *)
Theorem cronPoll_reanchor `{Calendar} {SB} `{StreamBuffer SB} (st : cron_st SB) c now :
  let nowMin := wrap32 (Z.quot now 60) in
  cronMutex st = true -> cronEnabled c = true -> cronAnchorSane st nowMin = false ->
  cronStream (cronPoll st c now) = cronStream st /\
  cronLastMinute (cronPoll st c now) = nowMin /\ sched_ok (cronPoll st c now) c.
Proof.
  intros nowMin Hm He Ha. unfold cronPoll. rewrite Hm, He. cbn [negb orb]. fold nowMin.
  rewrite Ha. cbn [negb]. set (st1 := cronCollect _ _).
  destruct (compute_next_sched_ok st1 c (wrap32 (nowMin + 1)) eq_refl eq_refl) as (? & ? & ?).
  by subst st1.
Qed.

Lemma cronPoll_reanchor_witness :
  cronLastMinute (@cronPoll Utc.UtcCalendar bytes _ sample_st sample_cfg (5000 * 60)) = 5000.
Proof. apply cronPoll_reanchor; vm_compute; reflexivity. Defined.

(** Poll and drain at each of the given minutes; the commands run. *)
Fixpoint runPolls (st : cron_st bytes) (c : cron_cfg) (minutes : list Z) : list bytes :=
  match minutes with
  | [] => []
  | m :: ms =>
      let st' := @cronPoll Utc.UtcCalendar bytes _ st c (m * 60) in
      let '(cmds, s) := cronDrainCommands 300 (cronStream st') in
      cmds ++ runPolls (set_stream st' s) c ms
  end.

(** Two entries 24 hours and one minute apart, polled every minute without a gap: the first
    runs, the second is due at minute 2881 and is never run. *)
Example second_entry_lost :
  runPolls sample_st sample_cfg (seqZ 1440 1500) = [str "a"] /\
  exists p, cronParse (str "1 0 3 1 * - b") = Some p /\
    @cronDueAt Utc.UtcCalendar p 2881 = true.
Proof.
  split; [vm_compute; reflexivity|]. eexists. split; [vm_compute; reflexivity|].
  vm_compute. reflexivity.
Qed.

(** ** Slots more than a day away *)

(** The polls at the given times, in order. *)
Definition polls `{Calendar} {SB} `{StreamBuffer SB} (st : cron_st SB) (c : cron_cfg) (times : list Z) : cron_st SB :=
  foldl (fun st t => cronPoll st c t) st times.

(** Before the stored next minute, and within a day of the anchor, a poll does nothing. *)
Lemma polls_idle `{Calendar} {SB} `{StreamBuffer SB} (st : cron_st SB) c times :
  0 < cronLastMinute st < 2 ^ 32 - 1440 -> cronLastMinute st + 1440 < cronNextMinute st ->
  Forall (fun t => cronLastMinute st <= Z.quot t 60 <= cronLastMinute st + 1440) times -> polls st c times = st.
Proof.
  intros Hl Hn F. induction F as [|t times Ht _ IH]; [done|]. cbn [polls foldl].
  assert (cronPoll st c t = st) as ->; [|exact IH]. unfold cronPoll. destruct (_ || _); [done|].
  assert (wrap32 (Z.quot t 60) = Z.quot t 60) as -> by (apply Z.mod_small; lia).
  assert (cronAnchorSane st (Z.quot t 60) = true) as ->.
  { unfold cronAnchorSane. rewrite (proj2 (Z.eqb_neq _ _)), (proj2 (Z.leb_le _ _)) by lia. cbn [negb andb].
    apply Z.leb_le. unfold wrap32. rewrite Z.mod_small by lia. lia. }
  cbn [negb]. by rewrite (proj2 (Z.ltb_lt _ _)) by lia.
Qed.

(** The stored next minute is the next run of some entry. *)
Lemma compute_next_attained `{Calendar} from es acc :
  (fold_left (computeNextStep from) es acc).1 = acc.1 \/
  exists e p, e ∈ es /\ cronParse (ct_line e) = Some p /\ (fold_left (computeNextStep from) es acc).1 = cronNextRun p from.
Proof.
  revert acc. induction es as [|e0 es IH]; intros acc; [by left|]. cbn [fold_left].
  destruct (IH (computeNextStep from acc e0)) as [->|(e & p & He & Hp & ->)]; [|right; exists e, p; split; [by right|done]].
  unfold computeNextStep. destruct (cronParse (ct_line e0)) as [p|] eqn:Ep; [|by left]. cbn [fst].
  destruct (_ <? _); [right; exists e0, p; split; [by left|done]|by left].
Qed.

(** C40: a slot exactly 1441 minutes after the last serviced minute is lost, for any table and
    zone without daylight saving, however often cron polls. If that is the next slot of any
    entry, then polls during the day before it do nothing, and the poll in the slot's own
    minute hands nothing to the CLI although some entry is due in that minute: it takes the
    anchor for stale and moves it onto the slot, so that no later window contains it. *)
Theorem late_slot_lost `{FixedZone} {SB} `{StreamBuffer SB} (st : cron_st SB) c times now :
  let last := cronLastMinute st in
  cronMutex st = true -> cronEnabled c = true -> 0 < last < 2 ^ 32 - 700000 -> sched_ok st c ->
  cronNextMinute st = last + 1441 -> Forall (fun t => last <= Z.quot t 60 <= last + 1440) times ->
  Z.quot now 60 = last + 1441 ->
  let st' := cronPoll (polls st c times) c now in
  (exists e p, e ∈ map cronCollectCb (cfg_tab c) /\ cronParse (ct_line e) = Some p /\ cronDueAt p (last + 1441) = true) /\
  cronStream st' = cronStream st /\ cronLastMinute st' = last + 1441 /\ sched_ok st' c.
Proof.
  intros last Hm He Hl Hs Hn F Ht. cbn zeta. rewrite polls_idle by (try done; fold last; lia).
  unfold cronPoll. rewrite Hm, He. cbn [negb orb].
  assert (wrap32 (Z.quot now 60) = last + 1441) as -> by (rewrite Ht; apply Z.mod_small; lia).
  assert (cronAnchorSane st (last + 1441) = false) as ->.
  { unfold cronAnchorSane. fold last. replace (last + 1441 - last) with 1441 by lia. apply andb_false_r. }
  cbn [negb]. set (st1 := cronCollect _ _).
  destruct (compute_next_sched_ok st1 c (wrap32 (last + 1441 + 1)) eq_refl eq_refl) as (S1 & S2 & S3).
  split; [|by split_and!].
  unfold sched_ok in Hs. fold last in Hs. rewrite Hn in Hs.
  destruct (compute_next_attained (wrap32 (last + 1)) (map cronCollectCb (cfg_tab c)) (UINT32_MAX, UINT32_MAX)) as [E|(e & p & Hin & Hp & E)].
  { rewrite E in Hs. unfold UINT32_MAX in Hs. cbn [fst] in Hs. lia. }
  exists e, p. split; [done|]. split; [done|]. rewrite <- Hs in E.
  assert (wrap32 (last + 1) = last + 1) as Ew by (apply Z.mod_small; lia). rewrite Ew in E.
  destruct (cronNextRun_least_due p (last + 1) ltac:(lia)) as [[Er _]|(_ & Hd & _)]; [rewrite Er in E; unfold UINT32_MAX in E; lia|].
  by rewrite E.
Qed.

(** The second entry of the table, after the first was run at minute 1440. *)
Definition serviced_st : cron_st bytes := @cronPoll Utc.UtcCalendar bytes _ sample_st sample_cfg (1440 * 60).

Lemma late_slot_lost_witness :
  cronStream (@cronPoll Utc.UtcCalendar bytes _ (@polls Utc.UtcCalendar bytes _ serviced_st sample_cfg [1500 * 60; 2880 * 60]) sample_cfg (2881 * 60)) =
  cronStream serviced_st.
Proof.
  assert (cronLastMinute serviced_st = 1440) as El by (vm_compute; reflexivity).
  pose proof (@late_slot_lost Utc.UtcCalendar Utc.UtcZone bytes ListBuffer serviced_st sample_cfg [1500 * 60; 2880 * 60] (2881 * 60)) as T.
  cbn zeta in T. rewrite El in T.
  specialize (T ltac:(vm_compute; reflexivity) ltac:(vm_compute; reflexivity) ltac:(lia) ltac:(vm_compute; reflexivity)
    ltac:(vm_compute; reflexivity) ltac:(repeat constructor; vm_compute; discriminate) eq_refl).
  exact (proj1 (proj2 T)).
Defined.
