(* ===== verification/Spanfs.v ===== *)
(** * spanfs: the read-only image format
      (src/esp-idf/components/spanfs/src/spanfs.c)

    The reader opens an image held in memory, validates it, and looks paths up by
    binary search. A read outside the image is [None] here, and so is a loop that
    runs out of fuel, so "does not return [None]" is both memory safety and
    termination. [size_t] has [W] bits: 32 on the device, 64 on the host.
    [pack] is the packer (tools/mkspanfs.py). *)

From S2P Require Import Prelude CLib.
Open Scope spangap_scope.

Inductive esp_err :=
| ESP_OK | ESP_ERR_NO_MEM | ESP_ERR_INVALID_ARG | ESP_ERR_INVALID_STATE
| ESP_ERR_INVALID_SIZE | ESP_ERR_NOT_FOUND | ESP_ERR_INVALID_CRC.

#[export] Instance esp_err_eq_dec : EqDecision esp_err.
Proof. solve_decision. Defined.

Definition SPANFS_MAGIC : Z := 0x53504653.
Definition SPANFS_VERSION : Z := 1.
Definition SPANFS_HEADER_SZ : Z := 20.
Definition SPANFS_ENTRY_SZ : Z := 12.
Definition SPANFS_DATA_ALIGN : Z := 4.

(** [struct spanfs], less the release hook; [index] is [base + 20]. *)
Record spanfs := {
  base : bytes;
  entry_count : Z;
  total_size : Z
}.

(** ** CRC-32, bit by bit *)

Definition crc_bit (crc : Z) : Z :=
  let mask := if Z.land crc 1 =? 0 then 0 else UINT32_MAX in
  Z.lxor (Z.shiftr crc 1) (Z.land 0xEDB88320 mask).

Definition crc_byte (crc b : Z) : Z := Nat.iter 8 crc_bit (Z.lxor crc b).

Definition spanfs_crc32 (p : bytes) : Z :=
  Z.lxor (fold_left crc_byte p UINT32_MAX) UINT32_MAX.

(** ** C strings inside the image *)

(** The string at [off]: up to its NUL, which must be inside the image. *)
Definition cstr_at (m : bytes) (off : Z) : option bytes :=
  if (0 <=? off) && (off <=? Zlen m)
  then fst <$> strchr (drop (Z.to_nat off) m) 0
  else None.

(** [memchr(b + off, 0, n)] finds a NUL. *)
Definition has_nul (m : bytes) (off n : Z) : option bool :=
  bs ← mem_slice m off n;
  Some (match strchr bs 0 with Some _ => true | None => false end).

Section Reader.
Variable W : Z.

Definition wrap_sz (v : Z) : Z := v mod 2 ^ W.

(** Offset in the image of entry [i]'s word [w]. *)
Definition ent_off (i w : Z) : Z := SPANFS_HEADER_SZ + wrap_sz (i * SPANFS_ENTRY_SZ) + w.

Definition ent_path_off (fs : spanfs) (i : Z) : option Z := rd32 (base fs) (ent_off i 0).
Definition ent_data_off (fs : spanfs) (i : Z) : option Z := rd32 (base fs) (ent_off i 4).
Definition ent_data_len (fs : spanfs) (i : Z) : option Z := rd32 (base fs) (ent_off i 8).
Definition ent_path (fs : spanfs) (i : Z) : option bytes :=
  off ← ent_path_off fs i; cstr_at (base fs) off.

(** The validation loop over the entries from [i]: [None] outside the image,
    [Some false] for [ESP_ERR_INVALID_SIZE]. *)
Fixpoint validate (n : nat) (b : bytes) (index_end total i : Z) : option bool :=
  match n with
  | O => Some true
  | S n' =>
      po ← rd32 b (ent_off i 0);
      doff ← rd32 b (ent_off i 4);
      dlen ← rd32 b (ent_off i 8);
      if (po <? index_end) || (total <=? po) then Some false
      else if total <? doff + dlen then Some false
      else
        nul ← has_nul b po (total - po);
        if nul : bool then validate n' b index_end total (i + 1) else Some false
  end.

Definition spanfs_open_mem (image : option bytes) (alloc_ok : bool)
    : option (esp_err + spanfs) :=
  match image with
  | None => Some (inl ESP_ERR_INVALID_ARG)
  | Some b =>
      let size := Zlen b in
      if size <? SPANFS_HEADER_SZ then Some (inl ESP_ERR_INVALID_SIZE)
      else
        magic ← rd32 b 0;
        if negb (magic =? SPANFS_MAGIC) then Some (inl ESP_ERR_INVALID_STATE)
        else
          version ← mem_get b 4;
          if negb (version =? SPANFS_VERSION) then Some (inl ESP_ERR_INVALID_STATE)
          else
            count ← rd32 b 8;
            total ← rd32 b 12;
            crc ← rd32 b 16;
            if (total <? SPANFS_HEADER_SZ) || (size <? total)
            then Some (inl ESP_ERR_INVALID_SIZE)
            else
              let index_end := wrap_sz (SPANFS_HEADER_SZ + wrap_sz (count * SPANFS_ENTRY_SZ)) in
              if total <? index_end then Some (inl ESP_ERR_INVALID_SIZE)
              else
                crc_end ← (if 0 <? count then rd32 b (SPANFS_HEADER_SZ + 4) else Some total);
                if (0 <? count) && ((crc_end <? index_end) || (total <? crc_end))
                then Some (inl ESP_ERR_INVALID_SIZE)
                else
                  meta ← mem_slice b SPANFS_HEADER_SZ (crc_end - SPANFS_HEADER_SZ);
                  if negb (spanfs_crc32 meta =? crc) then Some (inl ESP_ERR_INVALID_CRC)
                  else
                    good ← validate (Z.to_nat count) b index_end total 0;
                    if negb (good : bool) then Some (inl ESP_ERR_INVALID_SIZE)
                    else if negb alloc_ok then Some (inl ESP_ERR_NO_MEM)
                    else Some (inr {| base := b; entry_count := count; total_size := total |})
  end.

(** The binary search over [lo, hi). *)
Fixpoint lookupLoop (fuel : nat) (fs : spanfs) (path : bytes) (lo hi : Z)
    : option (esp_err + Z * Z) :=
  if lo <? hi then
    match fuel with
    | O => None
    | S f =>
        let mid := lo + (hi - lo) / 2 in
        p ← ent_path fs mid;
        match strcmp path p with
        | Eq =>
            off ← ent_data_off fs mid;
            len ← ent_data_len fs mid;
            Some (inr (off, len))
        | Lt => lookupLoop f fs path lo mid
        | Gt => lookupLoop f fs path (mid + 1) hi
        end
    end
  else Some (inl ESP_ERR_NOT_FOUND).

(** [spanfs_lookup] with both out-parameters: the data as (offset, length) in the
    image. 32 halvings cover any 32-bit count. *)
Definition spanfs_lookup (fs : option spanfs) (path : option bytes)
    : option (esp_err + Z * Z) :=
  match fs, path with
  | Some fs, Some path =>
      lookupLoop 32 fs (skip_while (fun c => c =? chr "/") path) 0 (entry_count fs)
  | _, _ => Some (inl ESP_ERR_INVALID_ARG)
  end.

Definition spanfs_count (fs : option spanfs) : Z :=
  match fs with Some fs => entry_count fs | None => 0 end.

Definition spanfs_entry_at (fs : option spanfs) (i : Z)
    : option (esp_err + bytes * Z * Z) :=
  match fs with
  | Some fs =>
      if entry_count fs <=? i then Some (inl ESP_ERR_INVALID_ARG)
      else
        p ← ent_path fs i;
        off ← ent_data_off fs i;
        len ← ent_data_len fs i;
        Some (inr (p, off, len))
  | None => Some (inl ESP_ERR_INVALID_ARG)
  end.

Definition spanfs_image_size (fs : option spanfs) : Z :=
  match fs with Some fs => total_size fs | None => 0 end.

End Reader.

(** ** The packer: [pack] of tools/mkspanfs.py on the sorted entries *)

Definition align_up (x a : Z) : Z := (x + a - 1) / a * a.

(** The path blob and the path offsets. *)
Fixpoint pack_paths (blob_start : Z) (files : list (bytes * bytes)) : bytes * list Z :=
  match files with
  | [] => ([], [])
  | (p, _) :: rest =>
      let '(blob, offs) := pack_paths (blob_start + Zlen p + 1) rest in
      (p ++ [0] ++ blob, blob_start :: offs)
  end.

(** The data blob, the data offsets and the end position. *)
Fixpoint pack_data (cur : Z) (files : list (bytes * bytes)) : bytes * list Z * Z :=
  match files with
  | [] => ([], [], cur)
  | (_, d) :: rest =>
      let pad := align_up cur SPANFS_DATA_ALIGN - cur in
      let '(blob, offs, fin) := pack_data (cur + pad + Zlen d) rest in
      (replicate (Z.to_nat pad) 0 ++ d ++ blob, (cur + pad) :: offs, fin)
  end.

Fixpoint pack_index (po pd : list Z) (files : list (bytes * bytes)) : bytes :=
  match po, pd, files with
  | o :: po', x :: pd', (_, d) :: rest =>
      wr32 o ++ wr32 x ++ wr32 (Zlen d) ++ pack_index po' pd' rest
  | _, _, _ => []
  end.

Definition pack (entries : list (bytes * bytes)) : bytes :=
  let count := Zlen entries in
  let blob_start := SPANFS_HEADER_SZ + count * SPANFS_ENTRY_SZ in
  let '(path_blob, path_offs) := pack_paths blob_start entries in
  let data_start := align_up (blob_start + Zlen path_blob) SPANFS_DATA_ALIGN in
  let '(data_blob, data_offs, total) := pack_data data_start entries in
  let index := pack_index path_offs data_offs entries in
  let align_pad := replicate (Z.to_nat (data_start - (blob_start + Zlen path_blob))) 0 in
  let meta := index ++ path_blob ++ align_pad in
  let header := wr32 SPANFS_MAGIC ++ [SPANFS_VERSION; 0] ++ wr16 0 ++
                wr32 count ++ wr32 total ++ wr32 (spanfs_crc32 meta) in
  header ++ meta ++ data_blob.

(** Entries in the order the packer writes them: strictly increasing paths. *)
Fixpoint paths_sorted (files : list (bytes * bytes)) : bool :=
  match files with
  | (p, _) :: (((q, _) :: _) as rest) =>
      match strcmp p q with Lt => paths_sorted rest | _ => false end
  | _ => true
  end.
