(* ===== verification/SpanfsProofs.v ===== *)
(** * spanfs: an opened image is safe to read, and lookup finds what was packed *)

From S2P Require Import Prelude CLib Spanfs.
Open Scope spangap_scope.

(** ** The order of paths *)

Lemma strcmp_refl a : strcmp a a = Eq.
Proof. by apply strcmp_eq. Qed.

Lemma strcmp_lt_trans a b c : strcmp a b = Lt -> strcmp b c = Lt -> strcmp a c = Lt.
Proof.
  revert b c. induction a as [|x a IH]; intros [|y b] [|z c]; try done; simpl.
  destruct (Z.compare_spec x y) as [->|?|?]; [|destruct (Z.compare_spec y z) as [->|?|?]|done].
  - destruct (y ?= z) eqn:E; [apply IH|done|done].
  - intros _ _. by rewrite (proj2 (Z.compare_lt_iff x z)).
  - intros _ _. by rewrite (proj2 (Z.compare_lt_iff x z)) by lia.
  - done.
Qed.

(** ** Strings inside the image *)

Lemma has_nul_cstr m off n :
  has_nul m off n = Some true -> exists p, cstr_at m off = Some p /\ Zlen p < n.
Proof.
  unfold has_nul, cstr_at. intros E. apply bind_Some in E as (bs & Es & E).
  destruct (strchr bs 0) as [[p r]|] eqn:Ec; [|done].
  pose proof (mem_slice_bounds _ _ _ _ Es) as (? & ? & ? & Hl).
  rewrite !(proj2 (Z.leb_le _ _)) by lia. cbn [andb].
  apply mem_slice_Some in Es as (pre & post & -> & <- & <-).
  apply strchr_Some in Ec as [-> Hno]. unfold Zlen at 1. rewrite Nat2Z.id, drop_app_length.
  rewrite <- app_assoc. cbn [app]. rewrite strchr_app by done. exists p. split; [done|]. zlia.
Qed.

Lemma cstr_at_mid pre p post :
  0 ∉ p -> cstr_at (pre ++ p ++ 0 :: post) (Zlen pre) = Some p.
Proof.
  intros Hno. unfold cstr_at. rewrite !(proj2 (Z.leb_le _ _)) by zlia. cbn [andb].
  unfold Zlen. rewrite Nat2Z.id, drop_app_length, strchr_app by done. done.
Qed.

Lemma has_nul_mid pre p post n post' :
  0 ∉ p -> n = Zlen (p ++ 0 :: post) -> has_nul (pre ++ (p ++ 0 :: post) ++ post') (Zlen pre) n = Some true.
Proof.
  intros Hno ->. unfold has_nul. rewrite mem_slice_mid by done. simpl. by rewrite strchr_app.
Qed.

(** ** What a successful open establishes *)

Section Open.
Variable W : Z.
Hypothesis W_pos : 0 <= W.

Lemma ent_off_small i w : 0 <= i -> i * 12 < 2 ^ W -> ent_off W i w = 20 + 12 * i + w.
Proof.
  intros. unfold ent_off, wrap_sz, SPANFS_HEADER_SZ, SPANFS_ENTRY_SZ.
  rewrite Z.mod_small by lia. lia.
Qed.

(** Entry [i] is inside the image: its path and its data. *)
Definition entry_ok (b : bytes) (total i : Z) (path : bytes) (doff dlen : Z) : Prop :=
  exists po, rd32 b (20 + 12 * i) = Some po /\ rd32 b (20 + 12 * i + 4) = Some doff /\
    rd32 b (20 + 12 * i + 8) = Some dlen /\ cstr_at b po = Some path /\ doff + dlen <= total.

Lemma validate_sound n b ie total i :
  0 <= i -> (i + Z.of_nat n) * 12 < 2 ^ W ->
  validate W n b ie total i = Some true ->
  forall j, i <= j < i + Z.of_nat n -> exists path doff dlen, entry_ok b total j path doff dlen.
Proof.
  revert i. induction n as [|n IH]; intros i Hi Hw E j Hj; [lia|]. cbn [validate] in E.
  rewrite !ent_off_small in E by lia. rewrite Z.add_0_r in E.
  apply bind_Some in E as (po & Ep & E). apply bind_Some in E as (doff & Ed & E).
  apply bind_Some in E as (dlen & El & E).
  destruct (_ || _); [done|]. destruct (Z.ltb_spec total (doff + dlen)); [done|].
  apply bind_Some in E as (nul & En & E). destruct nul; [|done].
  destruct (Z.eq_dec j i) as [->|Hne].
  - apply has_nul_cstr in En as (p & Ec & _). exists p, doff, dlen, po. done.
  - apply (IH (i + 1)); [lia|lia|done|lia].
Qed.

Lemma validate_total n b ie total i :
  bytes_ok b -> 0 <= i -> (i + Z.of_nat n) * 12 < 2 ^ W -> total <= Zlen b -> 0 <= ie ->
  20 + 12 * (i + Z.of_nat n) <= Zlen b -> exists r, validate W n b ie total i = Some r.
Proof.
  intros Hb. revert i. induction n as [|n IH]; intros i Hi Hw Ht Hie Hsz; [by exists true|].
  cbn [validate]. rewrite !ent_off_small by lia.
  destruct (rd32_total b (20 + 12 * i + 0)) as [po ->]; [lia..|].
  destruct (rd32_total b (20 + 12 * i + 4)) as [doff ->]; [lia..|].
  destruct (rd32_total b (20 + 12 * i + 8)) as [dlen ->]; [lia..|]. cbn.
  destruct (_ || _) eqn:E; [by exists false|]. b2p.
  destruct (total <? doff + dlen); [by exists false|].
  unfold has_nul. destruct (mem_slice_total b po (total - po)) as (bs & -> & _); [lia..|].
  cbn. destruct (strchr bs 0); [|by exists false]. apply IH; lia.
Qed.

(** The invariant of an opened image. *)
Definition image_ok (fs : spanfs) : Prop :=
  bytes_ok (base fs) /\ 0 <= entry_count fs < 2 ^ 32 /\ entry_count fs * 12 < 2 ^ W /\
  total_size fs <= Zlen (base fs) /\
  forall i, 0 <= i < entry_count fs ->
    exists path doff dlen, entry_ok (base fs) (total_size fs) i path doff dlen.

(** The size of the index does not overflow [size_t]: always so with 64 bits. *)
Definition index_fits (b : bytes) : Prop :=
  forall count, rd32 b 8 = Some count -> SPANFS_HEADER_SZ + count * SPANFS_ENTRY_SZ < 2 ^ W.

Lemma open_image_ok b alloc fs :
  bytes_ok b -> index_fits b ->
  spanfs_open_mem W (Some b) alloc = Some (inr fs) -> base fs = b /\ image_ok fs.
Proof.
  intros Hb Hfit. cbn [spanfs_open_mem]. destruct (_ <? _); [done|].
  intros E. apply bind_Some in E as (magic & _ & E). destruct (negb _); [done|].
  apply bind_Some in E as (version & _ & E). destruct (negb _); [done|].
  apply bind_Some in E as (count & Ec & E). apply bind_Some in E as (total & _ & E).
  apply bind_Some in E as (crc & _ & E).
  destruct ((_ <? _) || _) eqn:Et; [done|]. destruct (_ <? wrap_sz _ _); [done|].
  apply bind_Some in E as (crc_end & _ & E). destruct (_ && _); [done|].
  apply bind_Some in E as (meta & _ & E). destruct (negb _); [done|].
  apply bind_Some in E as (good & Eg & E). destruct good; [|done]. cbn [negb] in E.
  destruct alloc; [|done]. cbn [negb] in E. injection E as <-. split; [done|].
  pose proof (rd32_bound b 8 count Hb Ec). specialize (Hfit count Ec).
  unfold SPANFS_HEADER_SZ, SPANFS_ENTRY_SZ in Hfit. b2p.
  repeat split; cbn; try done; try lia.
  intros i Hi. eapply validate_sound; [| |exact Eg|]; lia.
Qed.

Lemma open_total b alloc :
  bytes_ok b -> index_fits b -> exists r, spanfs_open_mem W (Some b) alloc = Some r.
Proof.
  intros Hb Hfit. cbn [spanfs_open_mem]. destruct (Z.ltb_spec (Zlen b) SPANFS_HEADER_SZ) as [|Hsz]; [eauto|].
  unfold SPANFS_HEADER_SZ in Hsz.
  destruct (rd32_total b 0) as [magic ->]; [lia..|]. cbn. destruct (negb _); [eauto|].
  destruct (mem_get_total b 4) as [v ->]; [lia..|]. cbn. destruct (negb _); [eauto|].
  destruct (rd32_total b 8) as [count Ec]; [lia..|]. rewrite Ec.
  destruct (rd32_total b 12) as [total Et]; [lia..|]. rewrite Et.
  destruct (rd32_total b 16) as [crc ->]; [lia..|]. cbn.
  destruct ((_ <? _) || _) eqn:E1; [eauto|]. b2p.
  pose proof (rd32_bound b 8 count Hb Ec). specialize (Hfit count Ec).
  unfold SPANFS_HEADER_SZ, SPANFS_ENTRY_SZ, wrap_sz in *.
  rewrite (Z.mod_small (count * 12)), Z.mod_small by lia.
  destruct (Z.ltb_spec total (20 + count * 12)) as [|Hie]; [eauto|].
  set (ce := if 0 <? count then _ else _).
  assert (exists e, ce = Some e /\ ((0 <? count) && ((e <? 20 + count * 12) || (total <? e)) = false ->
            20 <= e <= total)) as (crc_end & -> & Hce).
  { unfold ce. destruct (Z.ltb_spec 0 count).
    - destruct (rd32_total b (20 + 4)) as [e ->]; [lia..|]. exists e. split; [done|].
      cbn. intros. b2p. lia.
    - exists total. split; [done|]. intros. lia. }
  cbn [mbind option_bind]. destruct ((0 <? count) && _); [eauto|]. specialize (Hce eq_refl).
  destruct (mem_slice_total b 20 (crc_end - 20)) as (meta & -> & _); [lia..|]. cbn [mbind option_bind].
  destruct (negb _); [eauto|].
  destruct (validate_total (Z.to_nat count) b (20 + count * 12) total 0) as [[|] ->]; [done|lia..|cbn|cbn]; [|eauto].
  destruct alloc; cbn; eauto.
Qed.

(** ** Lookup *)

Lemma ent_read fs i path doff dlen :
  image_ok fs -> 0 <= i < entry_count fs -> entry_ok (base fs) (total_size fs) i path doff dlen ->
  ent_path W fs i = Some path /\ ent_data_off W fs i = Some doff /\ ent_data_len W fs i = Some dlen.
Proof.
  intros (Hb & Hc & Hw & Ht & _) Hi (po & E1 & E2 & E3 & E4 & _).
  unfold ent_path, ent_path_off, ent_data_off, ent_data_len. rewrite !ent_off_small by lia.
  rewrite Z.add_0_r, E1, E2, E3. done.
Qed.

Lemma lookup_total fuel fs path lo hi :
  image_ok fs -> 0 <= lo -> hi <= entry_count fs -> hi - lo < 2 ^ Z.of_nat fuel ->
  (exists i p doff dlen, lo <= i < hi /\ entry_ok (base fs) (total_size fs) i p doff dlen /\ p = path /\
     lookupLoop W fuel fs path lo hi = Some (inr (doff, dlen))) \/
  lookupLoop W fuel fs path lo hi = Some (inl ESP_ERR_NOT_FOUND).
Proof.
  intros Hok. revert lo hi. induction fuel as [|f IH]; intros lo hi Hlo Hhi Hf.
  - change (2 ^ Z.of_nat 0) with 1 in Hf. right. cbn. by rewrite (proj2 (Z.ltb_ge _ _)) by lia.
  - cbn [lookupLoop]. destruct (Z.ltb_spec lo hi) as [Hlt|]; [|by right].
    rewrite Nat2Z.inj_succ, Z.pow_succ_r in Hf by lia.
    set (mid := lo + (hi - lo) / 2).
    assert (lo <= mid < hi /\ mid - lo < 2 ^ Z.of_nat f /\ hi - (mid + 1) < 2 ^ Z.of_nat f) as (Hm & H1 & H2)
      by (subst mid; Z.to_euclidean_division_equations; lia).
    destruct Hok as (Hb & Hc & Hw & Ht & Hent) eqn:Ho.
    destruct (Hent mid) as (p & doff & dlen & He); [lia|].
    destruct (ent_read fs mid p doff dlen) as (-> & -> & ->); [done|lia|done|]. cbn.
    destruct (strcmp path p) eqn:Ecmp.
    + left. exists mid, p, doff, dlen. apply strcmp_eq in Ecmp as ->. done.
    + destruct (IH lo mid) as [(i & q & d & l & Hi & ? & ? & ?)|?]; [lia|lia|lia|left; exists i, q, d, l|by right].
      split; [lia|done].
    + destruct (IH (mid + 1) hi) as [(i & q & d & l & Hi & ? & ? & ?)|?]; [lia|lia|lia|left; exists i, q, d, l|by right].
      split; [lia|done].
Qed.

(** The entries are in strictly increasing path order. *)
Definition index_sorted (fs : spanfs) : Prop :=
  forall i j p q, 0 <= i < j -> j < entry_count fs ->
    ent_path W fs i = Some p -> ent_path W fs j = Some q -> strcmp p q = Lt.

Lemma lookup_complete fuel fs path lo hi k doff dlen :
  image_ok fs -> index_sorted fs -> 0 <= lo -> hi <= entry_count fs -> hi - lo < 2 ^ Z.of_nat fuel ->
  lo <= k < hi -> entry_ok (base fs) (total_size fs) k path doff dlen ->
  lookupLoop W fuel fs path lo hi = Some (inr (doff, dlen)).
Proof.
  intros Hok Hs. revert lo hi. induction fuel as [|f IH]; intros lo hi Hlo Hhi Hf Hk He.
  - change (2 ^ Z.of_nat 0) with 1 in Hf. lia.
  - cbn [lookupLoop]. rewrite (proj2 (Z.ltb_lt lo hi)) by lia.
    rewrite Nat2Z.inj_succ, Z.pow_succ_r in Hf by lia.
    set (mid := lo + (hi - lo) / 2).
    assert (lo <= mid < hi /\ mid - lo < 2 ^ Z.of_nat f /\ hi - (mid + 1) < 2 ^ Z.of_nat f) as (Hm & H1 & H2)
      by (subst mid; Z.to_euclidean_division_equations; lia).
    pose proof Hok as (_ & _ & _ & _ & Hent).
    destruct (Hent mid) as (p & doff' & dlen' & He'); [lia|].
    destruct (ent_read fs mid p doff' dlen') as (Ep & Eo & El); [done|lia|done|].
    destruct (ent_read fs k path doff dlen) as (Epk & Eok & Elk); [done|lia|done|].
    rewrite Ep. cbn. destruct (Z.lt_trichotomy k mid) as [Hlt|[->|Hgt]].
    + rewrite (Hs k mid path p) by (done || lia). apply IH; [lia|lia|lia|lia|done].
    + rewrite Ep in Epk. injection Epk as ->. rewrite strcmp_refl, Eo, El. cbn. congruence.
    + rewrite strcmp_antisym, (Hs mid k p path) by (done || lia). apply IH; [lia|lia|lia|lia|done].
Qed.
End Open.

(** ** The packer *)

Lemma pack_paths_spec files bs blob offs :
  pack_paths bs files = (blob, offs) ->
  length offs = length files /\
  forall i p d, files !! i = Some (p, d) ->
    exists A B, blob = A ++ p ++ 0 :: B /\ offs !! i = Some (bs + Zlen A).
Proof.
  revert bs blob offs. induction files as [|[p d] files IH]; intros bs blob offs; simpl.
  - intros [= <- <-]. done.
  - destruct (pack_paths (bs + Zlen p + 1) files) as [blob' offs'] eqn:E. intros [= <- <-].
    destruct (IH _ _ _ E) as [Hl Hi]. split; [simpl; lia|].
    intros [|i] q d' Hq; simpl in *; simplify_eq.
    + exists [], blob'. split; [done|]. f_equal. zlia.
    + destruct (Hi _ _ _ Hq) as (A & B & -> & Ho). exists (p ++ 0 :: A), B.
      split; [by rewrite <- !app_assoc|]. rewrite Ho. f_equal. zlia.
Qed.

Lemma align_up_spec x : 0 <= x ->
  x <= align_up x SPANFS_DATA_ALIGN < x + 4 /\ align_up x SPANFS_DATA_ALIGN mod 4 = 0.
Proof.
  intros. unfold align_up, SPANFS_DATA_ALIGN. rewrite Z.mod_mul by lia.
  split; [Z.to_euclidean_division_equations; lia|done].
Qed.

Lemma align_up_id x : x mod 4 = 0 -> align_up x SPANFS_DATA_ALIGN = x.
Proof. intros. unfold align_up, SPANFS_DATA_ALIGN. Z.to_euclidean_division_equations; lia. Qed.

Lemma pack_data_spec files cur blob offs fin :
  0 <= cur -> pack_data cur files = (blob, offs, fin) ->
  length offs = length files /\ fin = cur + Zlen blob /\
  (cur mod 4 = 0 -> match offs with o :: _ => o = cur | [] => True end) /\
  forall i p d, files !! i = Some (p, d) ->
    exists A B, blob = A ++ d ++ B /\ offs !! i = Some (cur + Zlen A).
Proof.
  revert cur blob offs fin. induction files as [|[p d] files IH]; intros cur blob offs fin Hc; simpl.
  - intros [= <- <- <-]. repeat split; [rewrite Zlen_nil; lia|done].
  - pose proof (align_up_spec cur Hc) as [Ha _].
    set (pad := align_up cur SPANFS_DATA_ALIGN - cur) in *.
    assert (0 <= pad) as Hpad by (unfold pad; lia).
    destruct (pack_data (cur + pad + Zlen d) files) as [[blob' offs'] fin'] eqn:E.
    intros [= <- <- <-]. destruct (IH (cur + pad + Zlen d) _ _ _ ltac:(zlia) E) as (Hl & Hf & _ & Hi).
    split; [simpl; lia|]. split; [zlia|]. split.
    + intros Hm. subst pad. rewrite align_up_id by done. lia.
    + intros [|i] q d' Hq; simpl in *; simplify_eq.
      * exists (replicate (Z.to_nat pad) 0), blob'. split; [done|]. f_equal. zlia.
      * destruct (Hi _ _ _ Hq) as (A & B & -> & Ho).
        exists (replicate (Z.to_nat pad) 0 ++ d ++ A), B.
        split; [by rewrite <- !app_assoc|]. rewrite Ho. f_equal. zlia.
Qed.

Lemma pack_index_spec po pd files :
  length po = length files -> length pd = length files ->
  Zlen (pack_index po pd files) = 12 * Zlen files /\
  forall i o x p d, po !! i = Some o -> pd !! i = Some x -> files !! i = Some (p, d) ->
    exists A B, pack_index po pd files = A ++ wr32 o ++ wr32 x ++ wr32 (Zlen d) ++ B /\
      Zlen A = 12 * Z.of_nat i.
Proof.
  revert po pd. induction files as [|[p d] files IH]; intros [|o po] [|x pd] H1 H2; try done.
  simpl in H1, H2. destruct (IH po pd) as [Hl Hi]; [lia..|]. cbn [pack_index]. split.
  - unfold wr32. autorewrite with zlen. lia.
  - intros [|i] o' x' q d' Ho Hx Hq; simpl in *; simplify_eq.
    + exists [], (pack_index po pd files). done.
    + destruct (Hi _ _ _ _ _ Ho Hx Hq) as (A & B & -> & HA).
      exists (wr32 o ++ wr32 x ++ wr32 (Zlen d) ++ A), B. split; [by rewrite <- !app_assoc|].
      unfold wr32. autorewrite with zlen. lia.
Qed.

Lemma lxor_bound a b : 0 <= a < 2 ^ 32 -> 0 <= b < 2 ^ 32 -> 0 <= Z.lxor a b < 2 ^ 32.
Proof.
  intros Ha Hb. assert (0 <= Z.lxor a b) as Hn by (apply Z.lxor_nonneg; lia).
  split; [done|]. destruct (Z.eq_dec (Z.lxor a b) 0) as [->|Hne]; [lia|].
  apply Z.log2_lt_pow2; [lia|]. pose proof (Z.log2_lxor a b ltac:(lia) ltac:(lia)).
  assert (forall c, 0 <= c < 2 ^ 32 -> Z.log2 c < 32) as Hl.
  { intros c Hc. destruct (Z.eq_dec c 0) as [->|]; [simpl; lia|]. apply Z.log2_lt_pow2; lia. }
  pose proof (Hl a Ha). pose proof (Hl b Hb). lia.
Qed.

Lemma crc_bit_bound c : 0 <= c < 2 ^ 32 -> 0 <= crc_bit c < 2 ^ 32.
Proof.
  intros Hc. unfold crc_bit. apply lxor_bound.
  - rewrite Z.shiftr_div_pow2 by lia. split; [apply Z.div_pos; lia|].
    apply Z.div_lt_upper_bound; lia.
  - destruct (Z.land c 1 =? 0); [change (Z.land 0xEDB88320 0) with 0|
      change (Z.land 0xEDB88320 UINT32_MAX) with 0xEDB88320]; lia.
Qed.

Lemma iter_bound (f : Z -> Z) n c :
  (forall x, 0 <= x < 2 ^ 32 -> 0 <= f x < 2 ^ 32) ->
  0 <= c < 2 ^ 32 -> 0 <= Nat.iter n f c < 2 ^ 32.
Proof. intros Hf Hc. induction n as [|n IH]; [done|]. by apply Hf. Qed.

Lemma crc_byte_bound c b : 0 <= c < 2 ^ 32 -> is_byte b -> 0 <= crc_byte c b < 2 ^ 32.
Proof.
  intros Hc Hb. apply (iter_bound crc_bit 8); [apply crc_bit_bound|].
  apply lxor_bound; [done|unfold is_byte in Hb; lia].
Qed.

Lemma fold_bound (f : Z -> Z -> Z) p c :
  (forall x b, 0 <= x < 2 ^ 32 -> is_byte b -> 0 <= f x b < 2 ^ 32) ->
  bytes_ok p -> 0 <= c < 2 ^ 32 -> 0 <= fold_left f p c < 2 ^ 32.
Proof.
  intros Hf Hp. revert c. induction Hp as [|b p Hb _ IH]; intros c Hc; [done|].
  apply IH. by apply Hf.
Qed.

Lemma uint32_max_bound : 0 <= UINT32_MAX < 2 ^ 32.
Proof. unfold UINT32_MAX. lia. Qed.

Lemma crc32_bound p : bytes_ok p -> 0 <= spanfs_crc32 p < 2 ^ 32.
Proof.
  intros Hp. pose proof uint32_max_bound as Hm. unfold spanfs_crc32. revert Hm.
  generalize UINT32_MAX. intros M Hm. apply lxor_bound; [|done].
  apply fold_bound; [apply crc_byte_bound|done|done].
Qed.

(** The layout of a packed image. *)
Record packed (files : list (bytes * bytes)) (img : bytes) (total : Z) : Prop := {
  pk_total : Zlen img = total;
  pk_count : 20 + 12 * Zlen files <= total;
  pk_head : exists crc meta data, img =
    (wr32 SPANFS_MAGIC ++ [SPANFS_VERSION; 0] ++ wr16 0 ++ wr32 (Zlen files) ++
     wr32 total ++ wr32 crc) ++ meta ++ data /\
    crc = spanfs_crc32 meta /\ 12 * Zlen files <= Zlen meta /\
    (files = [] -> data = []) /\
    (files <> [] -> rd32 img 24 = Some (wrap32 (20 + Zlen meta)));
  pk_entry : forall i p d, files !! i = Some (p, d) -> 0 ∉ p ->
    exists po doff, rd32 img (20 + 12 * Z.of_nat i) = Some (wrap32 po) /\
      rd32 img (20 + 12 * Z.of_nat i + 4) = Some (wrap32 doff) /\
      rd32 img (20 + 12 * Z.of_nat i + 8) = Some (wrap32 (Zlen d)) /\
      20 + 12 * Zlen files <= po < total /\ 0 <= doff /\ doff + Zlen d <= total /\
      cstr_at img po = Some p /\ has_nul img po (total - po) = Some true /\
      mem_slice img doff (Zlen d) = Some d
}.

Lemma pack_packed files : packed files (pack files) (Zlen (pack files)).
Proof.
  unfold pack. set (bs := SPANFS_HEADER_SZ + Zlen files * SPANFS_ENTRY_SZ).
  assert (bs = 20 + 12 * Zlen files) as Ebs by (unfold bs, SPANFS_HEADER_SZ, SPANFS_ENTRY_SZ; lia).
  destruct (pack_paths bs files) as [blob po] eqn:Ep.
  destruct (pack_paths_spec _ _ _ _ Ep) as [Lp Sp].
  set (ds := align_up (bs + Zlen blob) SPANFS_DATA_ALIGN).
  destruct (align_up_spec (bs + Zlen blob)) as [Hds Hdm]; [zlia|]. fold ds in Hds, Hdm.
  destruct (pack_data ds files) as [[data pd] total] eqn:Ed.
  destruct (pack_data_spec files ds _ _ _ ltac:(zlia) Ed) as (Ld & Et & Hfst & Sd).
  destruct (pack_index_spec po pd files Lp Ld) as [Li Si].
  set (pad := replicate (Z.to_nat (ds - (bs + Zlen blob))) 0).
  assert (Zlen pad = ds - (bs + Zlen blob)) as Lpad by (unfold pad; zlia).
  set (index := pack_index po pd files) in *. set (meta := index ++ blob ++ pad).
  assert (Zlen meta = ds - 20) as Lm by (unfold meta; autorewrite with zlen; lia).
  set (header := wr32 SPANFS_MAGIC ++ _).
  assert (Zlen header = 20) as Lh by reflexivity.
  assert (Zlen (header ++ meta ++ data) = total) as ET by (autorewrite with zlen; lia).
  rewrite ET.
  assert (forall i p d, files !! i = Some (p, d) -> exists o x A B,
    po !! i = Some o /\ pd !! i = Some x /\ Zlen A = 12 * Z.of_nat i /\
    header ++ meta ++ data = (header ++ A) ++ wr32 o ++ wr32 x ++ wr32 (Zlen d) ++ B) as Hent.
  { intros i p d Hi. destruct (Sp _ _ _ Hi) as (A1 & B1 & _ & Ho).
    destruct (Sd _ _ _ Hi) as (A2 & B2 & _ & Hx).
    destruct (Si _ _ _ _ _ Ho Hx Hi) as (A & B & E & HA).
    eexists _, _, A, (B ++ (blob ++ pad) ++ data). repeat split; try done.
    unfold meta. rewrite E. by rewrite <- !app_assoc. }
  split; [done|zlia| |].
  - exists (spanfs_crc32 meta), meta, data. split; [reflexivity|]. split; [reflexivity|].
    split; [|split].
    + unfold meta. zlia.
    + intros ->. simpl in Ed. by injection Ed as <- _ _.
    + intros Hne. destruct files as [|[p d] files]; [done|].
      destruct (Hent 0%nat p d eq_refl) as (o & x & A & B & _ & Hx & HA & E).
      apply Zlen_zero in HA as ->. rewrite E, app_nil_r. rewrite app_assoc.
      replace 24 with (Zlen (header ++ wr32 o)) by (unfold wr32; zlia).
      rewrite rd32_mid by done. specialize (Hfst Hdm). destruct pd; [done|]. simpl in Hx.
      injection Hx as ->. do 2 f_equal. lia.
  - intros i p d Hi Hno. destruct (Hent i p d Hi) as (o & x & A & B & Ho & Hx & HA & E).
    destruct (Sp _ _ _ Hi) as (A1 & B1 & Eb & Ho'). destruct (Sd _ _ _ Hi) as (A2 & B2 & Edt & Hx').
    rewrite Ho in Ho'. rewrite Hx in Hx'. injection Ho' as ->. injection Hx' as ->.
    eexists _, _. split; [|split; [|split; [|split; [|split; [|split; [|split; [|split]]]]]]].
    + rewrite E. apply rd32_mid. zlia.
    + rewrite E, (app_assoc (header ++ A)). apply rd32_mid. unfold wr32. zlia.
    + rewrite E, !(app_assoc _ (wr32 _)), <- (app_assoc _ (wr32 (Zlen d))). apply rd32_mid. unfold wr32. zlia.
    + rewrite Eb in *. zlia.
    + zlia.
    + rewrite Edt in *. zlia.
    + replace (header ++ meta ++ data) with ((header ++ index ++ A1) ++ p ++ 0 :: (B1 ++ pad ++ data))
        by (unfold meta; rewrite Eb; rewrite <- !app_assoc; done).
      replace (bs + Zlen A1) with (Zlen (header ++ index ++ A1)) by zlia. by apply cstr_at_mid.
    + replace (header ++ meta ++ data) with ((header ++ index ++ A1) ++ (p ++ 0 :: (B1 ++ pad ++ data)) ++ [])
        by (unfold meta; rewrite Eb, app_nil_r; rewrite <- !app_assoc; done).
      replace (bs + Zlen A1) with (Zlen (header ++ index ++ A1)) by zlia.
      apply has_nul_mid; [done|]. rewrite Et. rewrite Eb, Edt in *. zlia.
    + rewrite Edt. rewrite !app_assoc, <- (app_assoc _ d). apply mem_slice_mid; zlia.
Qed.

(** ** Opening never leaves the image *)

Lemma index_fits_at W b c :
  rd32 b 8 = Some c -> SPANFS_HEADER_SZ + c * SPANFS_ENTRY_SZ < 2 ^ W -> index_fits W b.
Proof. intros E Hc c' E'. congruence. Qed.

(** [spanfs_open_mem] on any byte string returns (it neither reads outside the
    image nor loops), as long as the index size computed from the header does not
    overflow [size_t]; every error code is a returned value. *)
Theorem spanfs_open_mem_total W b alloc :
  0 <= W -> bytes_ok b -> index_fits W b ->
  exists r, spanfs_open_mem W (Some b) alloc = Some r.
Proof. intros. by apply open_total. Qed.

Lemma spanfs_open_mem_total_witness :
  exists r, spanfs_open_mem 32 (Some (pack [($ "a", [1; 2; 3])])) true = Some r.
Proof.
  apply (spanfs_open_mem_total 32); [lia| |].
  - vm_compute. repeat constructor; discriminate.
  - apply (index_fits_at 32 _ 1); [vm_compute; reflexivity|done].
Defined.

Lemma entry_ok_slice b total i p doff dlen :
  bytes_ok b -> total <= Zlen b -> entry_ok b total i p doff dlen ->
  exists bs, mem_slice b doff dlen = Some bs /\ Zlen bs = dlen.
Proof.
  intros Hb Ht (po & _ & E2 & E3 & _ & Hle).
  pose proof (rd32_bound _ _ _ Hb E2). pose proof (rd32_bound _ _ _ Hb E3).
  apply mem_slice_total; lia.
Qed.

(** C34: on an image that opened, [spanfs_lookup] of any path and [spanfs_entry_at]
    of any index return without reading outside the image (the binary search ends
    within 32 probes), and the data range they report is inside the image, at most
    [total_size]. *)
Theorem spanfs_opened_reads_in_bounds W b alloc fs path i :
  0 <= W -> bytes_ok b -> index_fits W b -> 0 <= i ->
  spanfs_open_mem W (Some b) alloc = Some (inr fs) ->
  (exists r, spanfs_lookup W (Some fs) (Some path) = Some r /\
     forall off len, r = inr (off, len) ->
       exists d, mem_slice b off len = Some d /\ off + len <= spanfs_image_size (Some fs)) /\
  (exists r, spanfs_entry_at W (Some fs) i = Some r /\
     (r = inl ESP_ERR_INVALID_ARG <-> spanfs_count (Some fs) <= i) /\
     forall p off len, r = inr (p, off, len) ->
       exists d, mem_slice b off len = Some d /\ off + len <= spanfs_image_size (Some fs)).
Proof.
  intros HW Hb Hfit Hi E. destruct (open_image_ok W HW b alloc fs Hb Hfit E) as [<- Hok].
  pose proof Hok as (_ & Hc & Hw & Ht & Hent). split.
  - destruct (lookup_total W HW 32 fs (skip_while (fun c => c =? chr "/") path) 0 (entry_count fs))
      as [(j & p & doff & dlen & Hj & He & _ & El)|El]; [done|lia|lia|lia| |];
      (eexists; split; [exact El|]).
    + intros off len [= <- <-]. destruct (entry_ok_slice _ _ _ _ _ _ Hb Ht He) as (d & Ed & _).
      destruct He as (_ & _ & _ & _ & _ & ?). eauto.
    + discriminate.
  - cbn [spanfs_entry_at spanfs_count]. destruct (Z.leb_spec (entry_count fs) i).
    + eexists. split; [done|]. split; [done|discriminate].
    + destruct (Hent i) as (p & doff & dlen & He); [lia|].
      destruct (ent_read W HW fs i p doff dlen) as (-> & -> & ->); [done|lia|done|]. cbn.
      eexists. split; [done|]. split; [split; [done|lia]|]. intros q off len [= <- <- <-].
      destruct (entry_ok_slice _ _ _ _ _ _ Hb Ht He) as (d & Ed & _).
      destruct He as (_ & _ & _ & _ & _ & ?). eauto.
Qed.

Definition demo_image : bytes := pack [($ "a", [1; 2; 3]); ($ "b/c", [7])].

Lemma demo_image_ok : bytes_ok demo_image /\ index_fits 32 demo_image.
Proof.
  split; [vm_compute; repeat constructor; discriminate|].
  apply (index_fits_at 32 _ 2); [vm_compute; reflexivity|done].
Qed.

Lemma spanfs_opened_reads_in_bounds_witness :
  exists r, spanfs_lookup 32 (Some {| base := demo_image; entry_count := 2; total_size := Zlen demo_image |})
    (Some ($ "/b/c")) = Some r /\
     forall off len, r = inr (off, len) -> exists d, mem_slice demo_image off len = Some d /\
       off + len <= Zlen demo_image.
Proof.
  refine (proj1 (spanfs_opened_reads_in_bounds 32 demo_image true
    {| base := demo_image; entry_count := 2; total_size := Zlen demo_image |} ($ "/b/c") 0
    ltac:(lia) (proj1 demo_image_ok) (proj2 demo_image_ok) ltac:(lia) ltac:(vm_compute; reflexivity))).
Defined.

(** When the paths of an opened image are strictly increasing, [spanfs_lookup]
    decides membership exactly: it answers with a data range iff some entry has the
    requested path (its leading slashes dropped) and that range, and
    [ESP_ERR_NOT_FOUND] iff no entry has that path. *)
Theorem spanfs_lookup_exact W b alloc fs path :
  0 <= W -> bytes_ok b -> index_fits W b -> index_sorted W fs ->
  spanfs_open_mem W (Some b) alloc = Some (inr fs) ->
  let key := skip_while (fun c => c =? chr "/") path in
  (forall off len, spanfs_lookup W (Some fs) (Some path) = Some (inr (off, len)) <->
     exists i, 0 <= i < spanfs_count (Some fs) /\
       spanfs_entry_at W (Some fs) i = Some (inr (key, off, len))) /\
  (spanfs_lookup W (Some fs) (Some path) = Some (inl ESP_ERR_NOT_FOUND) <->
     forall i p off len, 0 <= i -> spanfs_entry_at W (Some fs) i = Some (inr (p, off, len)) -> p <> key).
Proof.
  intros HW Hb Hfit Hs E key. destruct (open_image_ok W HW b alloc fs Hb Hfit E) as [<- Hok].
  pose proof Hok as (_ & Hc & Hw & Ht & Hent).
  assert (forall i p off len, 0 <= i < entry_count fs ->
    spanfs_entry_at W (Some fs) i = Some (inr (p, off, len)) <->
    entry_ok (base fs) (total_size fs) i p off len) as Hat.
  { intros i p off len Hi. destruct (Hent i Hi) as (p' & o' & l' & He).
    destruct (ent_read W HW fs i p' o' l' Hok Hi He) as (E1 & E2 & E3).
    cbn [spanfs_entry_at]. rewrite (proj2 (Z.leb_gt _ _)), E1, E2, E3 by lia. cbn.
    split; [by intros [= <- <- <-]|]. intros He'.
    destruct (ent_read W HW fs i p off len Hok Hi He') as (E1' & E2' & E3'). congruence. }
  pose proof (lookup_complete W HW 32 fs key 0 (entry_count fs)) as Hcomp.
  pose proof (lookup_total W HW 32 fs key 0 (entry_count fs) Hok
    ltac:(lia) ltac:(lia) ltac:(lia)) as Htot.
  cbn [spanfs_lookup spanfs_count]. fold key. split.
  - intros off len. split.
    + intros El. destruct Htot as [(j & p & o & l & Hj & He & -> & El')|El']; [|congruence].
      exists j. split; [done|]. apply Hat; [done|]. congruence.
    + intros (i & Hi & He%Hat); [|done]. apply (Hcomp i off len); (done || lia).
  - split.
    + intros El i p off len Hi He ->.
      assert (0 <= i < entry_count fs) as Hi'.
      { cbn [spanfs_entry_at] in He. destruct (Z.leb_spec (entry_count fs) i); [done|lia]. }
      apply Hat in He; [|done]. rewrite (Hcomp i off len) in El; (done || lia).
    + intros Hno. destruct Htot as [(j & p & o & l & Hj & He & -> & _)|El']; [|done].
      destruct (Hno j key o l); [lia| |done]. by apply Hat.
Qed.

Definition demo_fs : spanfs :=
  {| base := demo_image; entry_count := 2; total_size := Zlen demo_image |}.

Lemma demo_sorted : index_sorted 32 demo_fs.
Proof.
  intros i j p q Hij Hj. change (entry_count demo_fs) with 2 in Hj.
  assert (i = 0) as -> by lia. assert (j = 1) as -> by lia.
  vm_compute. intros [= <-] [= <-]. done.
Qed.

Lemma spanfs_lookup_exact_witness :
  spanfs_lookup 32 (Some demo_fs) (Some ($ "//b/c")) = Some (inr (56, 1)).
Proof.
  apply (proj1 (spanfs_lookup_exact 32 demo_image true demo_fs ($ "//b/c") ltac:(lia)
    (proj1 demo_image_ok) (proj2 demo_image_ok) demo_sorted ltac:(vm_compute; reflexivity))).
  exists 1. split; [vm_compute; done|vm_compute; reflexivity].
Defined.

(** ** Packing, then opening *)

Lemma pack_paths_ok files bs :
  Forall (fun f => bytes_ok f.1) files -> bytes_ok (pack_paths bs files).1.
Proof.
  intros H. revert bs. induction H as [|[p d] files Hp _ IH]; intros bs; [constructor|].
  cbn [pack_paths]. specialize (IH (bs + Zlen p + 1)). destruct (pack_paths _ files). cbn in *.
  apply bytes_ok_app. split; [done|]. constructor; [done|done].
Qed.

Lemma zeros_ok n : bytes_ok (replicate n 0).
Proof. apply Forall_replicate. done. Qed.

Lemma pack_data_ok files cur :
  Forall (fun f => bytes_ok f.2) files -> bytes_ok (pack_data cur files).1.1.
Proof.
  intros H. revert cur. induction H as [|[p d] files Hp _ IH]; intros cur; [constructor|].
  cbn [pack_data]. cbv zeta. match goal with |- context [pack_data ?c files] => specialize (IH c) end.
  destruct (pack_data _ files) as [[blob offs] fin]. cbn in *.
  rewrite !bytes_ok_app. split; [apply zeros_ok|done].
Qed.

Lemma pack_index_ok po pd files : bytes_ok (pack_index po pd files).
Proof.
  revert po pd. induction files as [|[p d] files IH]; intros [|o po] [|x pd]; try solve [constructor].
  cbn [pack_index]. unfold wr32. rewrite !bytes_ok_app. auto using le_bytes_ok.
Qed.

Lemma pack_ok files :
  Forall (fun f => bytes_ok f.1 /\ bytes_ok f.2) files -> bytes_ok (pack files).
Proof.
  intros H. apply Forall_and in H as [H1 H2]. unfold pack.
  pose proof (pack_paths_ok files (SPANFS_HEADER_SZ + Zlen files * SPANFS_ENTRY_SZ) H1) as Hp.
  destruct (pack_paths _ files) as [blob offs]. cbn [fst] in Hp.
  match goal with |- context [pack_data ?c files] => pose proof (pack_data_ok files c H2) as Hd end.
  destruct (pack_data _ files) as [[data doffs] fin]. cbn [fst] in Hd.
  unfold wr32, wr16. rewrite !bytes_ok_app.
  repeat split; auto using le_bytes_ok, pack_index_ok, zeros_ok.
  repeat constructor; done.
Qed.

Lemma validate_complete W n b ie total i :
  0 <= W -> 0 <= i -> (i + Z.of_nat n) * 12 < 2 ^ W ->
  (forall j, i <= j < i + Z.of_nat n -> exists po doff dlen,
     rd32 b (20 + 12 * j) = Some po /\ rd32 b (20 + 12 * j + 4) = Some doff /\
     rd32 b (20 + 12 * j + 8) = Some dlen /\ ie <= po < total /\ doff + dlen <= total /\
     has_nul b po (total - po) = Some true) ->
  validate W n b ie total i = Some true.
Proof.
  intros HW. revert i. induction n as [|n IH]; intros i Hi Hw Hent; [done|]. cbn [validate].
  rewrite !ent_off_small, Z.add_0_r by lia.
  destruct (Hent i) as (po & doff & dlen & -> & -> & -> & Hpo & Hd & Hn); [lia|]. cbn.
  rewrite (proj2 (Z.ltb_ge po ie)), (proj2 (Z.leb_gt total po)), (proj2 (Z.ltb_ge _ _)) by lia.
  cbn. rewrite Hn. cbn. apply IH; [lia|lia|]. intros j Hj. apply Hent. lia.
Qed.

(** What the packer requires of its input. *)
Definition packable (files : list (bytes * bytes)) : Prop :=
  paths_sorted files = true /\ Zlen (pack files) < 2 ^ 32 /\
  Forall (fun f => (bytes_ok f.1 /\ bytes_ok f.2) /\ (0 ∉ f.1) /\
                   skip_while (fun c => c =? chr "/") f.1 = f.1) files.

Definition packed_fs (files : list (bytes * bytes)) : spanfs :=
  {| base := pack files; entry_count := Zlen files; total_size := Zlen (pack files) |}.

Lemma packed_entry files i p d :
  packable files -> files !! i = Some (p, d) -> exists po doff,
    rd32 (pack files) (20 + 12 * Z.of_nat i) = Some po /\
    rd32 (pack files) (20 + 12 * Z.of_nat i + 4) = Some doff /\
    rd32 (pack files) (20 + 12 * Z.of_nat i + 8) = Some (Zlen d) /\
    20 + 12 * Zlen files <= po < Zlen (pack files) /\ doff + Zlen d <= Zlen (pack files) /\
    cstr_at (pack files) po = Some p /\ has_nul (pack files) po (Zlen (pack files) - po) = Some true /\
    mem_slice (pack files) doff (Zlen d) = Some d.
Proof.
  intros (Hs & Hsz & Hf) Hi. destruct (pack_packed files) as [_ Hc _ Hent].
  pose proof (proj1 (Forall_lookup _ _) Hf i _ Hi) as (_ & Hno & _).
  destruct (Hent i p d Hi Hno) as (po & doff & E1 & E2 & E3 & Hpo & Hd0 & Hd & Ecs & Hn & Esl).
  exists po, doff. unfold wrap32 in *. rewrite !Z.mod_small in * by zlia. done.
Qed.

Lemma packed_lookup_nat {A} (l : list A) (j : Z) :
  0 <= j < Zlen l -> exists x, l !! Z.to_nat j = Some x.
Proof. intros. apply lookup_lt_is_Some_2. unfold Zlen in *. lia. Qed.

Lemma open_packed W files :
  32 <= W -> packable files ->
  spanfs_open_mem W (Some (pack files)) true = Some (inr (packed_fs files)).
Proof.
  intros HW Hpk. pose proof Hpk as (Hs & Hsz & Hf).
  pose proof (pack_packed files) as [_ Hc (crc & meta & data & E & -> & Hm & Hnil & Hfst) _].
  assert (bytes_ok (pack files)) as Hb.
  { apply pack_ok. eapply Forall_impl; [exact Hf|]. by intros ? [? _]. }
  assert (2 ^ 32 <= 2 ^ W) as HpW by (apply Z.pow_le_mono_r; lia).
  assert (Zlen (pack files) = 20 + Zlen meta + Zlen data) as Htot.
  { rewrite E. unfold wr32, wr16. autorewrite with zlen. lia. }
  assert (0 <= spanfs_crc32 meta < 2 ^ 32) as Hcrc.
  { apply crc32_bound. rewrite E in Hb. rewrite !bytes_ok_app in Hb. tauto. }
  assert (0 <= Zlen files) by apply Zlen_nonneg.
  assert (0 <= Zlen data) by apply Zlen_nonneg.
  assert (forall pre v post off, pack files = pre ++ wr32 v ++ post -> Zlen pre = off ->
    0 <= v < 2 ^ 32 -> rd32 (pack files) off = Some v) as Hrd.
  { intros pre v post off -> <- Hv. rewrite rd32_mid by done. unfold wrap32. by rewrite Z.mod_small. }
  cbn [spanfs_open_mem]. unfold SPANFS_HEADER_SZ, SPANFS_ENTRY_SZ, wrap_sz.
  rewrite (proj2 (Z.ltb_ge _ _)) by lia.
  rewrite (Hrd [] SPANFS_MAGIC ([SPANFS_VERSION; 0] ++ wr16 0 ++ wr32 (Zlen files) ++
     wr32 (Zlen (pack files)) ++ wr32 (spanfs_crc32 meta) ++ meta ++ data) 0);
    [|rewrite E at 1; by rewrite <- !app_assoc|done|done].
  cbn [mbind option_bind]. rewrite Z.eqb_refl. cbn [negb].
  assert (mem_get (pack files) 4 = Some SPANFS_VERSION) as ->.
  { rewrite E. rewrite <- !app_assoc. by apply (mem_get_mid (wr32 SPANFS_MAGIC)). }
  cbn [mbind option_bind]. rewrite Z.eqb_refl. cbn [negb].
  rewrite (Hrd (wr32 SPANFS_MAGIC ++ [SPANFS_VERSION; 0] ++ wr16 0) (Zlen files)
     (wr32 (Zlen (pack files)) ++ wr32 (spanfs_crc32 meta) ++ meta ++ data) 8);
    [|rewrite E at 1; by rewrite <- !app_assoc|done|lia].
  rewrite (Hrd (wr32 SPANFS_MAGIC ++ [SPANFS_VERSION; 0] ++ wr16 0 ++ wr32 (Zlen files))
     (Zlen (pack files)) (wr32 (spanfs_crc32 meta) ++ meta ++ data) 12);
    [|rewrite E at 1; by rewrite <- !app_assoc|done|lia].
  rewrite (Hrd (wr32 SPANFS_MAGIC ++ [SPANFS_VERSION; 0] ++ wr16 0 ++ wr32 (Zlen files) ++
     wr32 (Zlen (pack files))) (spanfs_crc32 meta) (meta ++ data) 16);
    [|rewrite E at 1; by rewrite <- !app_assoc|done|lia].
  cbn [mbind option_bind].
  rewrite (proj2 (Z.ltb_ge (Zlen (pack files)) 20)), (Z.ltb_irrefl (Zlen (pack files))) by lia.
  cbn [orb]. rewrite (Z.mod_small (Zlen files * 12)), (Z.mod_small (20 + _)) by lia.
  rewrite (proj2 (Z.ltb_ge (Zlen (pack files)) (20 + _))) by lia.
  assert ((if 0 <? Zlen files then rd32 (pack files) (20 + 4) else Some (Zlen (pack files)))
          = Some (20 + Zlen meta)) as ->.
  { destruct (Z.ltb_spec 0 (Zlen files)).
    - change (20 + 4) with 24. rewrite (Hfst ltac:(by intros ->)). unfold wrap32. by rewrite Z.mod_small by lia.
    - rewrite Hnil in Htot by (apply Zlen_zero; lia). rewrite Zlen_nil in Htot. f_equal. lia. }
  cbn [mbind option_bind].
  rewrite (proj2 (Z.ltb_ge (20 + Zlen meta) _)), (proj2 (Z.ltb_ge _ (20 + Zlen meta))) by lia.
  rewrite andb_false_r.
  assert (mem_slice (pack files) 20 (20 + Zlen meta - 20) = Some meta) as ->.
  { rewrite E at 1. apply mem_slice_mid; [done|lia]. }
  cbn [mbind option_bind]. rewrite Z.eqb_refl. cbn [negb].
  rewrite validate_complete; [done|lia|lia|lia|].
  intros j Hj. destruct (packed_lookup_nat files j) as ([p d] & Hl); [lia|].
  destruct (packed_entry files _ p d Hpk Hl) as (po & doff & E1 & E2 & E3 & ? & ? & _ & Hn & _).
  rewrite Z2Nat.id in * by lia. exists po, doff, (Zlen d). repeat split; (done || lia).
Qed.

Lemma paths_sorted_lt files i j p d q e :
  paths_sorted files = true -> (i < j)%nat ->
  files !! i = Some (p, d) -> files !! j = Some (q, e) -> strcmp p q = Lt.
Proof.
  revert i j p d. induction files as [|[a x] files IH]; intros i j p d Hs Hij Hi Hj; [done|].
  destruct j as [|j]; [lia|]. destruct files as [|[b y] files]; [done|].
  cbn [paths_sorted] in Hs. destruct (strcmp a b) eqn:Eab; try done.
  destruct i as [|i]; simpl in Hi; [|eapply (IH i j); (done || lia)].
  injection Hi as -> ->. destruct j as [|j].
  - simpl in Hj. injection Hj as -> ->. done.
  - apply (strcmp_lt_trans _ b); [done|]. eapply (IH 0%nat (S j) b y); (done || lia).
Qed.

Lemma packed_image_ok W files : 32 <= W -> packable files ->
  image_ok W (packed_fs files) /\ index_sorted W (packed_fs files) /\
  forall i p d, files !! i = Some (p, d) -> exists doff,
    entry_ok (pack files) (Zlen (pack files)) (Z.of_nat i) p doff (Zlen d) /\
    mem_slice (pack files) doff (Zlen d) = Some d.
Proof.
  intros HW Hpk. pose proof Hpk as (Hs & Hsz & Hf).
  pose proof (pk_count _ _ _ (pack_packed files)) as Hc.
  pose proof (Zlen_nonneg files) as Hn.
  assert (2 ^ 32 <= 2 ^ W) as HpW by (apply Z.pow_le_mono_r; lia).
  assert (forall i p d, files !! i = Some (p, d) -> exists doff,
    entry_ok (pack files) (Zlen (pack files)) (Z.of_nat i) p doff (Zlen d) /\
    mem_slice (pack files) doff (Zlen d) = Some d) as Hent.
  { intros i p d Hi. destruct (packed_entry files i p d Hpk Hi)
      as (po & doff & E1 & E2 & E3 & Hpo & Hd & Ec & _ & Esl).
    exists doff. split; [|done]. exists po. done. }
  assert (image_ok W (packed_fs files)) as Hok.
  { repeat split; cbn; try lia.
    - apply pack_ok. eapply Forall_impl; [exact Hf|]. by intros ? [? _].
    - intros i Hi. destruct (packed_lookup_nat files i Hi) as ([p d] & Hl).
      destruct (Hent _ p d Hl) as (doff & He & _). rewrite Z2Nat.id in He by lia. eauto. }
  split; [done|]. split; [|done].
  intros i j p q Hij Hj Ep Eq. cbn in Hj.
  destruct (packed_lookup_nat files i) as ([p' d] & Hp); [lia|].
  destruct (packed_lookup_nat files j) as ([q' e] & Hq); [lia|].
  destruct (Hent _ _ _ Hp) as (doff & He & _). destruct (Hent _ _ _ Hq) as (eoff & He' & _).
  rewrite Z2Nat.id in He, He' by lia.
  destruct (ent_read W ltac:(lia) (packed_fs files) i p' doff (Zlen d) Hok) as (Ep' & _);
    [cbn; lia|done|].
  destruct (ent_read W ltac:(lia) (packed_fs files) j q' eoff (Zlen e) Hok) as (Eq' & _);
    [cbn; lia|done|].
  rewrite Ep in Ep'. rewrite Eq in Eq'. injection Ep' as ->. injection Eq' as ->.
  eapply (paths_sorted_lt files (Z.to_nat i) (Z.to_nat j)); (done || lia).
Qed.

Lemma skip_while_slashes f x n l : f x = true -> skip_while f (replicate n x ++ l) = skip_while f l.
Proof. intros Hx. induction n as [|n IH]; [done|]. cbn. by rewrite Hx. Qed.

(** C23: an image written by the packer opens, reports as many entries as files were
    packed, and [spanfs_lookup] finds exactly the packed files: every packed path
    (with any number of leading slashes) gives back the bytes packed under it, and
    every other path gives [ESP_ERR_NOT_FOUND]. *)
Theorem spanfs_pack_roundtrip W files :
  32 <= W -> packable files ->
  exists fs, spanfs_open_mem W (Some (pack files)) true = Some (inr fs) /\
    spanfs_count (Some fs) = Zlen files /\
    (forall n p d, (p, d) ∈ files -> exists off,
       spanfs_lookup W (Some fs) (Some (replicate n (chr "/") ++ p)) = Some (inr (off, Zlen d)) /\
       mem_slice (base fs) off (Zlen d) = Some d) /\
    (forall p, skip_while (fun c => c =? chr "/") p ∉ files.*1 ->
       spanfs_lookup W (Some fs) (Some p) = Some (inl ESP_ERR_NOT_FOUND)).
Proof.
  intros HW Hpk. exists (packed_fs files). split; [by apply open_packed|]. split; [done|].
  destruct (packed_image_ok W files HW Hpk) as (Hok & Hs & Hent).
  pose proof Hok as (_ & Hc & _). cbn in Hc. destruct Hpk as (_ & _ & Hf). split.
  - intros n p d (i & Hi)%list_elem_of_lookup. destruct (Hent i p d Hi) as (doff & He & Esl).
    exists doff. split; [|done]. cbn [spanfs_lookup].
    pose proof (proj1 (Forall_lookup _ _) Hf i _ Hi) as (_ & _ & Hsk).
    rewrite skip_while_slashes by done. cbn [fst] in Hsk. rewrite Hsk.
    apply lookup_lt_Some in Hi.
    apply (lookup_complete W ltac:(lia) 32 (packed_fs files) p 0 (Zlen files) (Z.of_nat i));
      try done; unfold Zlen in *; cbn; lia.
  - intros p Hno. cbn [spanfs_lookup].
    destruct (lookup_total W ltac:(lia) 32 (packed_fs files) (skip_while (fun c => c =? chr "/") p) 0
      (Zlen files)) as [(i & q & o & l & Hi & He & -> & _)|?]; [done|lia|cbn; lia|lia| |done].
    destruct Hno. destruct (packed_lookup_nat files i Hi) as ([q d] & Hl).
    destruct (Hent _ q d Hl) as (o' & He' & _). rewrite Z2Nat.id in He' by lia.
    destruct (ent_read W ltac:(lia) (packed_fs files) i _ o l Hok Hi He) as (Ea & _).
    destruct (ent_read W ltac:(lia) (packed_fs files) i _ o' (Zlen d) Hok Hi He') as (Eb & _).
    rewrite Ea in Eb. injection Eb as ->. apply list_elem_of_fmap. exists (q, d).
    split; [done|]. by eapply list_elem_of_lookup_2.
Qed.

Lemma demo_packable : packable [($ "a", [1; 2; 3]); ($ "b/c", [7])].
Proof.
  split; [reflexivity|]. split; [vm_compute; reflexivity|].
  assert (forall p d, bytes_ok p -> bytes_ok d -> bool_decide (0 ∉ p) = true ->
    skip_while (fun c => c =? chr "/") p = p ->
    (bytes_ok p /\ bytes_ok d) /\ (0 ∉ p) /\ skip_while (fun c => c =? chr "/") p = p) as H.
  { intros p d ?? Hno%bool_decide_eq_true ?. done. }
  apply Forall_cons; split; [|apply Forall_cons; split; [|constructor]]; apply H; try reflexivity;
    vm_compute; repeat constructor; discriminate.
Qed.

Lemma spanfs_pack_roundtrip_witness :
  exists off, spanfs_lookup 32 (Some demo_fs) (Some ($ "/b/c")) = Some (inr (off, 1)) /\
    mem_slice demo_image off 1 = Some [7].
Proof.
  destruct (spanfs_pack_roundtrip 32 _ ltac:(lia) demo_packable) as (fs & E & _ & Hin & _).
  assert (fs = demo_fs) as -> by (revert E; vm_compute; congruence).
  destruct (Hin 1%nat ($ "b/c") [7]) as (off & El & Es).
  { apply list_elem_of_In. right. left. reflexivity. }
  exists off. split; [exact El|exact Es].
Defined.

(** ** The index size on a 32-bit target

    Without [index_fits] the guard on the index size is computed modulo [2 ^ 32]. *)

(** 36 bytes whose header claims 0x15555556 entries: [count * 12] is 8 modulo
    [2 ^ 32], so the index appears to end at 28. *)
Definition overflow_image : bytes :=
  let meta := wr32 32 ++ wr32 36 ++ wr32 0 ++ wr32 32 in
  wr32 SPANFS_MAGIC ++ [SPANFS_VERSION; 0] ++ wr16 0 ++
  wr32 0x15555556 ++ wr32 36 ++ wr32 (spanfs_crc32 meta) ++ meta.

Lemma overflow_validate n : validate 32 (S (S n)) overflow_image 28 36 0 = None.
Proof. vm_compute. reflexivity. Qed.

(** With a 32-bit [size_t] the multiplication [count * SPANFS_ENTRY_SZ] can
    overflow: this 36-byte image passes the size, CRC and first-entry checks of
    [spanfs_open_mem] and the validation loop then reads past its end, whereas with a
    64-bit [size_t] it is refused with [ESP_ERR_INVALID_SIZE]. *)
Theorem spanfs_open_mem_overflow_32 :
  bytes_ok overflow_image /\ Zlen overflow_image = 36 /\
  spanfs_open_mem 32 (Some overflow_image) true = None /\
  spanfs_open_mem 64 (Some overflow_image) true = Some (inl ESP_ERR_INVALID_SIZE).
Proof.
  split; [vm_compute; repeat constructor; discriminate|]. split; [vm_compute; reflexivity|].
  split; [|vm_compute; reflexivity].
  cbn [spanfs_open_mem].
  assert (rd32 overflow_image 8 = Some 0x15555556) as -> by (vm_compute; reflexivity).
  assert (exists n, Z.to_nat 0x15555556 = S (S n)) as (n & Hn).
  { exists (Z.to_nat (0x15555556 - 2)). lia. }
  cbn [mbind option_bind]. rewrite Hn. clear Hn. vm_compute. reflexivity.
Qed.
