(* ===== verification/Targz.v ===== *)
(** * targz: streaming ustar inside gzip (src/esp-idf/src/targz.cpp)

    [Header]: the ustar block. [Writer]: entries in, gzip bytes out. [Reader]:
    gzip bytes in, callbacks out. The deflate codec (miniz's tdefl and tinfl) and
    the CRC-32 of the ROM are parameters; loops over their results take their fuel
    from the codec's own output bound. A result [None] is a loop out of fuel or an
    access outside an array. *)

From S2P Require Import Prelude CLib.
Open Scope spangap_scope.

Definition TAR_BLOCK : Z := 512.
Definition GZ_HDR_LEN : Z := 10.
Definition GZ_FOOT_LEN : Z := 8.
Definition GZ_HEADER : bytes := [0x1f; 0x8b; 8; 0; 0; 0; 0; 0; 0; 0xff].

Module Header.

(** [struct ustar_t]: each field an array of the width [wf] gives. *)
Record ustar := {
  name : bytes; mode : bytes; uid : bytes; gid : bytes; size : bytes; mtime : bytes;
  chksum : bytes; typeflag : Z; linkname : bytes; magic : bytes; version : bytes;
  uname : bytes; gname : bytes; devmajor : bytes; devminor : bytes; prefix : bytes;
  padding : bytes
}.

(** The object representation of the struct. *)
Definition ustar_bytes (h : ustar) : bytes :=
  name h ++ mode h ++ uid h ++ gid h ++ size h ++ mtime h ++ chksum h ++ typeflag h ::
  (linkname h ++ magic h ++ version h ++ uname h ++ gname h ++ devmajor h ++ devminor h ++
   prefix h ++ padding h).

(** [*(const ustar_t* )block]. *)
Definition field (b : bytes) (off width : Z) : bytes :=
  take (Z.to_nat width) (drop (Z.to_nat off) b).

Definition ustar_of (b : bytes) : ustar := {|
  name := field b 0 100; mode := field b 100 8; uid := field b 108 8; gid := field b 116 8;
  size := field b 124 12; mtime := field b 136 12; chksum := field b 148 8;
  typeflag := nth 156 b 0; linkname := field b 157 100; magic := field b 257 6;
  version := field b 263 2; uname := field b 265 32; gname := field b 297 32;
  devmajor := field b 329 8; devminor := field b 337 8; prefix := field b 345 155;
  padding := field b 500 12 |}.

(** [octalField]: the digits are written from the last to the first. *)
Fixpoint octalDigits (n : nat) (v : Z) (acc : bytes) : bytes :=
  match n with
  | O => acc
  | S n' => octalDigits n' (Z.shiftr v 3) (48 + Z.land v 7 :: acc)
  end.

Definition octalField (width : nat) (v : Z) : bytes := octalDigits (pred width) v [] ++ [0].

Fixpoint octalLoop (src : bytes) (v : Z) : Z :=
  match src with
  | [] => v
  | c :: src' =>
      if (c =? 0) || (c =? 32) then v
      else if (c <? 48) || (55 <? c) then 0
      else octalLoop src' (Z.lor (wrap64 (Z.shiftl v 3)) (c - 48))
  end.

Definition octalValue (src : bytes) : Z := octalLoop src 0.

(** The sum over the block, the [chksum] bytes counted as spaces. *)
Fixpoint checksumFrom (i sum : Z) (p : bytes) : Z :=
  match p with
  | [] => sum
  | b :: p' =>
      checksumFrom (i + 1)
        (wrap32 (sum + (if (148 <=? i) && (i <? 148 + 8) then 32 else b))) p'
  end.

Definition headerChecksum (h : ustar) : Z := checksumFrom 0 0 (ustar_bytes h).

Definition zeros (n : nat) : bytes := replicate n 0.

(** [memcpy(field, src, |src|)] over a field's present contents. *)
Definition over (src old : bytes) : bytes := src ++ drop (length src) old.

Definition fillHeader (tf sz mt : Z) : ustar := {|
  name := zeros 100;
  mode := over ((if tf =? chr "5" then $ "0000755" else $ "0000644") ++ [0]) (zeros 8);
  uid := over ($ "0000000" ++ [0]) (zeros 8);
  gid := over ($ "0000000" ++ [0]) (zeros 8);
  size := octalField 12 sz;
  mtime := octalField 12 mt;
  chksum := zeros 8;
  typeflag := tf;
  linkname := zeros 100;
  magic := over ($ "ustar" ++ [0]) (zeros 6);
  version := over ($ "00") (zeros 2);
  uname := over ($ "root" ++ [0]) (zeros 32);
  gname := over ($ "root" ++ [0]) (zeros 32);
  devmajor := zeros 8; devminor := zeros 8; prefix := zeros 155; padding := zeros 12 |}.

Definition with_chksum (h : ustar) (c : bytes) : ustar := {|
  name := name h; mode := mode h; uid := uid h; gid := gid h; size := size h; mtime := mtime h;
  chksum := c; typeflag := typeflag h; linkname := linkname h; magic := magic h;
  version := version h; uname := uname h; gname := gname h; devmajor := devmajor h;
  devminor := devminor h; prefix := prefix h; padding := padding h |}.

Definition with_name (h : ustar) (n p : bytes) : ustar := {|
  name := n; mode := mode h; uid := uid h; gid := gid h; size := size h; mtime := mtime h;
  chksum := chksum h; typeflag := typeflag h; linkname := linkname h; magic := magic h;
  version := version h; uname := uname h; gname := gname h; devmajor := devmajor h;
  devminor := devminor h; prefix := p; padding := padding h |}.

Definition sealHeader (h : ustar) : ustar :=
  with_chksum h (over (octalField 7 (headerChecksum h)) (take 7 (chksum h)) ++ [32]).

(** The split loop of [setEntryName]: [i] runs down from [len - 1]. *)
Fixpoint splitLoop (i : nat) (h : ustar) (nm : bytes) : option ustar :=
  match i with
  | O => None
  | S i' =>
      let tail := (length nm - i' - 1)%nat in
      if negb (nth i' nm 0 =? chr "/") then splitLoop i' h nm
      else if (tail =? 0)%nat || (100 <? tail)%nat || (155 <? i')%nat then splitLoop i' h nm
      else Some (with_name h (over (drop (S i') nm) (name h)) (over (take i' nm) (prefix h)))
  end.

(** [setEntryName]: [None] for [false]. *)
Definition setEntryName (h : ustar) (nm : bytes) : option ustar :=
  let len := length nm in
  if (len =? 0)%nat then None
  else if (len <=? 100)%nat then Some (with_name h (over nm (name h)) (prefix h))
  else if (155 + 1 + 100 <? len)%nat then None
  else splitLoop len h nm.

(** The component scan of [safeEntryName] from position [i], [n] steps. *)
Fixpoint safeLoop (n : nat) (nm : bytes) (i start : nat) : bool :=
  match n with
  | O => true
  | S n' =>
      let len := length nm in
      if negb (i =? len)%nat && negb (nth i nm 0 =? chr "/") then safeLoop n' nm (S i) start
      else
        let seg := (i - start)%nat in
        if (seg =? 0)%nat && negb (i =? len)%nat then false
        else if (seg =? 2)%nat && (nth start nm 0 =? chr ".") && (nth (S start) nm 0 =? chr ".")
        then false
        else safeLoop n' nm (S i) (S i)
  end.

Definition safeEntryName (nm : bytes) : bool :=
  match nm with
  | [] => false
  | c :: _ =>
      if c =? chr "/" then false
      else if (256 <=? length nm)%nat then false
      else safeLoop (S (length nm)) nm 0 0
  end.

End Header.
Import Header.

(** ** The codec *)

Inductive tdefl_flush := TDEFL_NO_FLUSH | TDEFL_FINISH.
Inductive tdefl_status := TDEFL_STATUS_ERR | TDEFL_STATUS_OKAY | TDEFL_STATUS_DONE.
Inductive tinfl_status :=
| TINFL_STATUS_FAILED | TINFL_STATUS_DONE
| TINFL_STATUS_NEEDS_MORE_INPUT | TINFL_STATUS_HAS_MORE_OUTPUT.

Class Tdefl (C : Type) := {
  tdefl_init : C;
  (** input, room in the output buffer, flush: status, bytes consumed, output *)
  tdefl_compress : C -> bytes -> Z -> tdefl_flush -> C * tdefl_status * Z * bytes;
  (** a bound on the output still to come for this much input ([mz_deflateBound]) *)
  tdefl_bound : C -> Z -> nat
}.

Class Tinfl (I : Type) := {
  tinfl_init : I;
  (** input, room in the window, HAS_MORE_INPUT: status, bytes consumed, output *)
  tinfl_decompress : I -> bytes -> Z -> bool -> I * tinfl_status * Z * bytes;
  (** a bound on the output that what the decompressor holds and this much input encode *)
  tinfl_bound : I -> Z -> nat
}.

Class Crc := { mz_crc32 : Z -> bytes -> Z }.

Module Writer.
Section Writer.
Context {C S : Type} `{TD : Tdefl C} `{CR : Crc}.

(** The sink: its state after taking a run, and whether it accepts. *)
Variable sink : S -> bytes -> S * bool.

Definition DEFLATE_OUT : Z := 8192.

Record writer := {
  comp : C; crc : Z; rawLen : Z; pending : Z; pad : Z; ok : bool
}.

Definition set_comp (w : writer) (c : C) : writer :=
  {| comp := c; crc := crc w; rawLen := rawLen w; pending := pending w; pad := pad w; ok := ok w |}.
Definition set_sum (w : writer) (c n : Z) : writer :=
  {| comp := comp w; crc := c; rawLen := n; pending := pending w; pad := pad w; ok := ok w |}.
Definition set_body (w : writer) (p q : Z) : writer :=
  {| comp := comp w; crc := crc w; rawLen := rawLen w; pending := p; pad := q; ok := ok w |}.
Definition set_bad (w : writer) : writer :=
  {| comp := comp w; crc := crc w; rawLen := rawLen w; pending := pending w; pad := pad w; ok := false |}.

(** An operation on the writer and its sink: the [bool] it returns. *)
Definition wop : Type := writer * S -> option (writer * S * bool).

(** [if (!a) return false; b]. *)
Definition andThen (a b : wop) : wop := fun st =>
  '(w, s, r) ← a st;
  if r : bool then b (w, s) else Some (w, s, false).

Definition wtrue : wop := fun '(w, s) => Some (w, s, true).

Definition drop_z (n : Z) (l : bytes) : bytes := drop (Z.to_nat n) l.

Fixpoint deflateLoop (fuel : nat) (p : bytes) (flush : tdefl_flush) : wop := fun '(w, s) =>
  match fuel with
  | O => None
  | Datatypes.S f =>
      let '(c, st, inBytes, out) := tdefl_compress (comp w) p DEFLATE_OUT flush in
      let w := set_comp w c in
      match st with
      | TDEFL_STATUS_ERR => Some (set_bad w, s, false)
      | _ =>
          let '(s, took) := if Zlen out =? 0 then (s, true) else sink s out in
          if negb took then Some (set_bad w, s, false)
          else
            let left := drop_z inBytes p in
            let again :=
              if (inBytes =? 0) && (Zlen out =? 0) then Some (set_bad w, s, false)
              else deflateLoop f left flush (w, s) in
            match flush, st with
            | TDEFL_FINISH, TDEFL_STATUS_DONE => Some (w, s, true)
            | TDEFL_FINISH, _ => again
            | TDEFL_NO_FLUSH, _ => if Zlen left =? 0 then Some (w, s, true) else again
            end
      end
  end.

Definition deflateRun (data : bytes) (flush : tdefl_flush) : wop := fun '(w, s) =>
  deflateLoop (Datatypes.S (length data + tdefl_bound (comp w) (Zlen data))) data flush (w, s).

Definition writeRaw (data : bytes) : wop := fun '(w, s) =>
  if negb (ok w) then Some (w, s, false)
  else if Zlen data =? 0 then Some (w, s, true)
  else deflateRun data TDEFL_NO_FLUSH
         (set_sum w (mz_crc32 (crc w) data) (wrap64 (rawLen w + Zlen data)), s).

(** [writeZeros]: runs of at most 64 bytes. *)
Fixpoint writeZerosLoop (fuel : nat) (len : nat) : wop :=
  match len, fuel with
  | O, _ => wtrue
  | _, O => fun _ => None
  | _, Datatypes.S f =>
      let n := Nat.min len 64 in
      andThen (writeRaw (replicate n 0)) (writeZerosLoop f (len - n))
  end.

Definition writeZeros (len : Z) : wop := writeZerosLoop (Z.to_nat len) (Z.to_nat len).

Definition clear_pending : wop := fun '(w, s) => Some (set_body w 0 (pad w), s, true).
Definition clear_pad : wop := fun '(w, s) => Some (set_body w (pending w) 0, s, true).

Definition finishEntry : wop := fun '(w, s) =>
  andThen
    (if pending w =? 0 then wtrue else andThen (writeZeros (pending w)) clear_pending)
    (fun '(w, s) =>
       if pad w =? 0 then Some (w, s, true) else andThen (writeZeros (pad w)) clear_pad (w, s))
    (w, s).

(** [targzWriterOpen]: [None] for a null result; [alloc_ok] is the outcome of the
    three allocations. *)
Definition targzWriterOpen (alloc_ok : bool) (s : S) : option writer * S :=
  if negb alloc_ok then (None, s)
  else
    let '(s, took) := sink s GZ_HEADER in
    if negb took then (None, s)
    else (Some {| comp := tdefl_init; crc := 0; rawLen := 0; pending := 0; pad := 0; ok := true |}, s).

Definition tar_pad (sz : Z) : Z := (TAR_BLOCK - sz mod TAR_BLOCK) mod TAR_BLOCK.

Definition when_ok (a : wop) : wop := fun '(w, s) =>
  if ok w then a (w, s) else Some (w, s, false).

Definition targzWriterAddDir (nm : bytes) (mt : Z) : wop :=
  when_ok (andThen finishEntry (
    let h := fillHeader (chr "5") 0 mt in
    let withSlash := nm ++ [chr "/"] in
    match (if 256 <=? Zlen withSlash then None else setEntryName h withSlash) with
    | None => wtrue
    | Some h => writeRaw (ustar_bytes (sealHeader h))
    end)).

Definition set_entry (sz : Z) : wop := fun '(w, s) => Some (set_body w sz (tar_pad sz), s, true).

Definition targzWriterAddFile (nm : bytes) (sz mt : Z) : wop :=
  when_ok (andThen finishEntry (
    match setEntryName (fillHeader (chr "0") sz mt) nm with
    | None => wtrue
    | Some h => andThen (writeRaw (ustar_bytes (sealHeader h))) (set_entry sz)
    end)).

Definition targzWriterData (data : bytes) : wop := when_ok (fun '(w, s) =>
  let data := if pending w <? Zlen data then take (Z.to_nat (pending w)) data else data in
  andThen (writeRaw data) (fun '(w, s) =>
    let w := set_body w (pending w - Zlen data) (pad w) in
    if (pending w =? 0) && negb (pad w =? 0)
    then andThen (writeZeros (pad w)) clear_pad (w, s)
    else Some (w, s, true)) (w, s)).

(** [targzWriterClose]; the frees have no visible effect. *)
Definition targzWriterClose : wop := fun '(w, s) =>
  if negb (ok w) then Some (w, s, false)
  else
    andThen finishEntry (andThen (writeZeros (2 * TAR_BLOCK)) (andThen (deflateRun [] TDEFL_FINISH)
      (fun '(w, s) =>
         let '(s, took) := sink s (wr32 (crc w) ++ wr32 (wrap32 (rawLen w))) in
         Some (w, s, took)))) (w, s).

End Writer.
End Writer.

Module Reader.

Inductive targz_err :=
| TARGZ_OK | TARGZ_ERR_MAGIC | TARGZ_ERR_DEFLATE | TARGZ_ERR_TAR | TARGZ_ERR_UNSAFE
| TARGZ_ERR_CRC | TARGZ_ERR_TRUNCATED | TARGZ_ERR_SINK | TARGZ_ERR_MEM.

#[export] Instance targz_err_eq_dec : EqDecision targz_err.
Proof. solve_decision. Defined.

Definition targzErrStr (e : targz_err) : bytes :=
  match e with
  | TARGZ_OK => $ "ok"
  | TARGZ_ERR_MAGIC => $ "not a gzip archive"
  | TARGZ_ERR_DEFLATE => $ "corrupt compressed data"
  | TARGZ_ERR_TAR => $ "corrupt archive"
  | TARGZ_ERR_UNSAFE => $ "archive contains an unsafe entry"
  | TARGZ_ERR_CRC => $ "archive checksum mismatch"
  | TARGZ_ERR_TRUNCATED => $ "archive truncated"
  | TARGZ_ERR_SINK => $ "could not write extracted data"
  | TARGZ_ERR_MEM => $ "out of memory"
  end.

Definition DICT_SIZE : Z := 32768.

Inductive gz_stage :=
| GZ_FIXED | GZ_EXTRA_LEN | GZ_EXTRA | GZ_FNAME | GZ_FCOMMENT | GZ_FHCRC | GZ_DEFLATE | GZ_FOOTER.
Inductive tar_stage := TAR_HDR | TAR_DATA | TAR_PAD | TAR_END.

#[export] Instance gz_stage_eq_dec : EqDecision gz_stage.
Proof. solve_decision. Defined.
#[export] Instance tar_stage_eq_dec : EqDecision tar_stage.
Proof. solve_decision. Defined.

(** The fields of [targz_reader_t], by the routine that owns them. [hdr] is the
    first [hdrHave] bytes of the header buffer, [hold] the first [holdLen] bytes of
    the withheld ones. *)
Record tar_st := {
  tar : tar_stage; hdr : bytes; pending : Z; pad : Z; zeroBlocks : Z;
  entries : Z; nbytes : Z; inFile : bool
}.

Record gz_st := { gz : gz_stage; gzBuf : bytes; gzHave : Z; gzFlags : Z; extraLeft : Z }.

(** The callbacks over a context of type [K]; any of them may be null. *)
Record reader_cb (K : Type) := {
  onDir : option (K -> bytes -> K * bool);
  onFile : option (K -> bytes -> Z -> K * bool);
  onData : option (K -> bytes -> K * bool);
  onFileEnd : option (K -> K * bool)
}.
Arguments onDir {K}. Arguments onFile {K}. Arguments onData {K}. Arguments onFileEnd {K}.

(** ** The tar parser *)

Section Tar.
Context {K : Type} (cb : reader_cb K).

(** [cb && !cb(ctx, ...)], with the context the call leaves. *)
Definition call1 {A} (f : option (K -> A -> K * bool)) (k : K) (a : A) : K * bool :=
  match f with Some f => f k a | None => (k, true) end.
Definition call2 (f : option (K -> bytes -> Z -> K * bool)) (k : K) (a : bytes) (b : Z) : K * bool :=
  match f with Some f => f k a b | None => (k, true) end.
Definition call0 (f : option (K -> K * bool)) (k : K) : K * bool :=
  match f with Some f => f k | None => (k, true) end.

(** The string of a field bounded by its width: up to [strnlen] bytes. *)
Definition strnlen (s : bytes) : bytes :=
  match strchr s 0 with Some (pre, _) => pre | None => s end.

(** [while (len && name[len - 1] == '/') name[--len] = 0]: on the reversed name. *)
Fixpoint stripSlashes (rname : bytes) (isDir : bool) : bytes * bool :=
  match rname with
  | c :: r => if c =? chr "/" then stripSlashes r true else (rev rname, isDir)
  | [] => ([], isDir)
  end.

(** The path of the entry: prefix, slash and name, or the name alone. *)
Definition entryPath (h : ustar) : bytes :=
  let pre := strnlen (prefix h) in
  if Zlen pre =? 0 then strnlen (name h) else pre ++ [chr "/"] ++ strnlen (name h).

Definition set_stage (r : tar_st) (st : tar_stage) : tar_st :=
  {| tar := st; hdr := hdr r; pending := pending r; pad := pad r; zeroBlocks := zeroBlocks r;
     entries := entries r; nbytes := nbytes r; inFile := inFile r |}.

(** The end of an entry's body: [onFileEnd] for a file, then padding or a header. *)
Definition endBody (r : tar_st) (k : K) : tar_st * K * targz_err :=
  let '(k, took) := if inFile r then call0 (onFileEnd cb) k else (k, true) in
  if negb took then (r, k, TARGZ_ERR_SINK)
  else ({| tar := if pad r =? 0 then TAR_HDR else TAR_PAD; hdr := hdr r; pending := pending r;
           pad := pad r; zeroBlocks := zeroBlocks r; entries := entries r; nbytes := nbytes r;
           inFile := false |}, k, TARGZ_OK).

(** [tarHeader] on the complete block [b]. *)
Definition tarHeader (r : tar_st) (k : K) (b : bytes) : tar_st * K * targz_err :=
  let h := ustar_of b in
  if forallb (fun c => c =? 0) b then
    let z := zeroBlocks r + 1 in
    ({| tar := if 2 <=? z then TAR_END else tar r; hdr := hdr r; pending := pending r;
        pad := pad r; zeroBlocks := z; entries := entries r; nbytes := nbytes r;
        inFile := inFile r |}, k, TARGZ_OK)
  else
    let r := {| tar := tar r; hdr := hdr r; pending := pending r; pad := pad r; zeroBlocks := 0;
                entries := entries r; nbytes := nbytes r; inFile := inFile r |} in
    if negb (octalValue (chksum h) =? headerChecksum h) then (r, k, TARGZ_ERR_TAR)
    else if 264 <=? Zlen (entryPath h) then (r, k, TARGZ_ERR_UNSAFE)
    else
      let sz := octalValue (size h) in
      let ty := typeflag h in
      let '(nm, isDir) := stripSlashes (rev (entryPath h)) (ty =? chr "5") in
      if negb isDir && negb (ty =? chr "0") && negb (ty =? 0) then (r, k, TARGZ_ERR_UNSAFE)
      else if negb (safeEntryName nm) then (r, k, TARGZ_ERR_UNSAFE)
      else
        let ent := wrap32 (entries r + 1) in
        let pd := Writer.tar_pad sz in
        let '(k, took) := if isDir then call1 (onDir cb) k nm else call2 (onFile cb) k nm (wrap32 sz) in
        if negb took then
          ({| tar := tar r; hdr := hdr r; pending := pending r; pad := pad r; zeroBlocks := 0;
              entries := ent; nbytes := nbytes r; inFile := inFile r |}, k, TARGZ_ERR_SINK)
        else
          let r := {| tar := if sz =? 0 then tar r else TAR_DATA; hdr := hdr r; pending := sz; pad := pd; zeroBlocks := 0;
                      entries := ent;
                      nbytes := if isDir then nbytes r else wrap64 (nbytes r + sz);
                      inFile := if isDir then inFile r else true |} in
          if sz =? 0 then endBody r k else (r, k, TARGZ_OK).

Definition set_hdr (r : tar_st) (b : bytes) : tar_st :=
  {| tar := tar r; hdr := b; pending := pending r; pad := pad r; zeroBlocks := zeroBlocks r;
     entries := entries r; nbytes := nbytes r; inFile := inFile r |}.
Definition set_pending (r : tar_st) (n : Z) : tar_st :=
  {| tar := tar r; hdr := hdr r; pending := n; pad := pad r; zeroBlocks := zeroBlocks r;
     entries := entries r; nbytes := nbytes r; inFile := inFile r |}.
Definition set_pad (r : tar_st) (n : Z) : tar_st :=
  {| tar := if n =? 0 then TAR_HDR else tar r; hdr := hdr r; pending := pending r; pad := n;
     zeroBlocks := zeroBlocks r; entries := entries r; nbytes := nbytes r; inFile := inFile r |}.

Definition split_z (n : Z) (p : bytes) : bytes * bytes :=
  (take (Z.to_nat n) p, drop (Z.to_nat n) p).

Fixpoint tarConsumeLoop (fuel : nat) (r : tar_st) (k : K) (p : bytes)
    : option (tar_st * K * targz_err) :=
  if (Zlen p =? 0) || bool_decide (tar r = TAR_END) then Some (r, k, TARGZ_OK)
  else
    match fuel with
    | O => None
    | S f =>
        match tar r with
        | TAR_HDR =>
            let '(now, rest) := split_z (Z.min (TAR_BLOCK - Zlen (hdr r)) (Zlen p)) p in
            let b := hdr r ++ now in
            if Zlen b <? TAR_BLOCK then Some (set_hdr r b, k, TARGZ_OK)
            else
              let '(r, k, e) := tarHeader (set_hdr r []) k b in
              if bool_decide (e = TARGZ_OK) then tarConsumeLoop f r k rest else Some (r, k, e)
        | TAR_DATA =>
            let '(now, rest) := split_z (Z.min (pending r) (Zlen p)) p in
            let '(k, took) := if inFile r then call1 (onData cb) k now else (k, true) in
            if negb took then Some (r, k, TARGZ_ERR_SINK)
            else
              let r := set_pending r (pending r - Zlen now) in
              if pending r =? 0 then
                let '(r, k, e) := endBody r k in
                if bool_decide (e = TARGZ_OK) then tarConsumeLoop f r k rest else Some (r, k, e)
              else tarConsumeLoop f r k rest
        | _ =>
            let '(now, rest) := split_z (Z.min (pad r) (Zlen p)) p in
            tarConsumeLoop f (set_pad r (pad r - Zlen now)) k rest
        end
    end.

Definition tarConsume (r : tar_st) (k : K) (p : bytes) : option (tar_st * K * targz_err) :=
  tarConsumeLoop (length p) r k p.

End Tar.

(** ** The gzip member header *)

(** The stage after the fixed header ([0x04]), the extra field ([0x08]), the name
    ([0x10]) and the comment ([0x02]): the first optional field still to come. *)
Definition afterComment (flags : Z) : gz_stage :=
  if negb (Z.land flags 0x02 =? 0) then GZ_FHCRC else GZ_DEFLATE.
Definition afterName (flags : Z) : gz_stage :=
  if negb (Z.land flags 0x10 =? 0) then GZ_FCOMMENT else afterComment flags.
Definition afterExtra (flags : Z) : gz_stage :=
  if negb (Z.land flags 0x08 =? 0) then GZ_FNAME else afterName flags.
Definition afterFixed (flags : Z) : gz_stage :=
  if negb (Z.land flags 0x04 =? 0) then GZ_EXTRA_LEN else afterExtra flags.

Definition gz_at (g : gz_st) (st : gz_stage) : gz_st :=
  {| gz := st; gzBuf := gzBuf g; gzHave := gzHave g; gzFlags := gzFlags g; extraLeft := extraLeft g |}.
Definition gz_have (g : gz_st) (n : Z) : gz_st :=
  {| gz := gz g; gzBuf := gzBuf g; gzHave := n; gzFlags := gzFlags g; extraLeft := extraLeft g |}.
(** [gzBuf[gzHave++] = c]. *)
Definition gz_push (g : gz_st) (c : Z) : gz_st :=
  {| gz := gz g; gzBuf := <[Z.to_nat (gzHave g) := c]> (gzBuf g); gzHave := gzHave g + 1;
     gzFlags := gzFlags g; extraLeft := extraLeft g |}.

(** One turn of the loop of [gzHeader] on the non-empty input [p]: the bytes left
    and the error, if any. *)
Definition gzStep (g : gz_st) (p : bytes) : gz_st * bytes * targz_err :=
  match p with
  | [] => (g, p, TARGZ_OK)
  | c :: p' =>
      match gz g with
      | GZ_FIXED =>
          let g := gz_push g c in
          if gzHave g <? GZ_HDR_LEN then (g, p', TARGZ_OK)
          else
            let at' i := nth i (gzBuf g) 0 in
            if negb (at' 0%nat =? 0x1f) || negb (at' 1%nat =? 0x8b) || negb (at' 2%nat =? 8)
            then (g, p', TARGZ_ERR_MAGIC)
            else
              ({| gz := afterFixed (at' 3%nat); gzBuf := gzBuf g; gzHave := 0;
                  gzFlags := at' 3%nat; extraLeft := extraLeft g |}, p', TARGZ_OK)
      | GZ_EXTRA_LEN =>
          let g := gz_push g c in
          if gzHave g <? 2 then (g, p', TARGZ_OK)
          else
            let n := Z.lor (nth 0 (gzBuf g) 0) (Z.shiftl (nth 1 (gzBuf g) 0) 8) in
            ({| gz := if n =? 0 then afterExtra (gzFlags g) else GZ_EXTRA; gzBuf := gzBuf g;
                gzHave := 0; gzFlags := gzFlags g; extraLeft := n |}, p', TARGZ_OK)
      | GZ_EXTRA =>
          let n := Z.min (Zlen p) (extraLeft g) in
          let left := extraLeft g - n in
          ({| gz := if left =? 0 then afterExtra (gzFlags g) else GZ_EXTRA; gzBuf := gzBuf g;
              gzHave := gzHave g; gzFlags := gzFlags g; extraLeft := left |},
           drop (Z.to_nat n) p, TARGZ_OK)
      | GZ_FNAME => (if c =? 0 then gz_at g (afterName (gzFlags g)) else g, p', TARGZ_OK)
      | GZ_FCOMMENT => (if c =? 0 then gz_at g (afterComment (gzFlags g)) else g, p', TARGZ_OK)
      | GZ_FHCRC =>
          let n := gzHave g + 1 in
          (if n <? 2 then gz_have g n else gz_at (gz_have g 0) GZ_DEFLATE, p', TARGZ_OK)
      | _ => (g, p, TARGZ_OK)
      end
  end.

Fixpoint gzHeaderLoop (fuel : nat) (g : gz_st) (p : bytes) : option (gz_st * bytes * targz_err) :=
  if (Zlen p =? 0) || bool_decide (gz g = GZ_DEFLATE) then Some (g, p, TARGZ_OK)
  else if bool_decide (gz g = GZ_FOOTER) then Some (g, p, TARGZ_OK)
  else
    match fuel with
    | O => None
    | S f =>
        let '(g, p, e) := gzStep g p in
        if bool_decide (e = TARGZ_OK) then gzHeaderLoop f g p else Some (g, p, e)
    end.

(** [gzHeader]: the bytes it leaves, in place of the count it consumed. *)
Definition gzHeader (g : gz_st) (p : bytes) : option (gz_st * bytes * targz_err) :=
  gzHeaderLoop (length p) g p.

(** ** The reader *)

Section Reader.
Context {I K : Type} `{TI : Tinfl I} `{CR : Crc} (cb : reader_cb K).

Record reader := {
  inf : I; dictOfs : Z; gzs : gz_st; hold : bytes; crc : Z; rawLen : Z;
  tars : tar_st; err : targz_err
}.

Definition tar_init : tar_st :=
  {| tar := TAR_HDR; hdr := []; pending := 0; pad := 0; zeroBlocks := 0; entries := 0;
     nbytes := 0; inFile := false |}.
Definition gz_init : gz_st :=
  {| gz := GZ_FIXED; gzBuf := replicate 10 0; gzHave := 0; gzFlags := 0; extraLeft := 0 |}.

Definition targzReaderOpen (alloc_ok : bool) : option reader :=
  if alloc_ok then
    Some {| inf := tinfl_init; dictOfs := 0; gzs := gz_init; hold := []; crc := 0; rawLen := 0;
            tars := tar_init; err := TARGZ_OK |}
  else None.

Definition fail (r : reader) (e : targz_err) : reader :=
  {| inf := inf r; dictOfs := dictOfs r; gzs := gzs r; hold := hold r; crc := crc r;
     rawLen := rawLen r; tars := tars r; err := e |}.
Definition with_gz (r : reader) (g : gz_st) : reader :=
  {| inf := inf r; dictOfs := dictOfs r; gzs := g; hold := hold r; crc := crc r;
     rawLen := rawLen r; tars := tars r; err := err r |}.
Definition with_hold (r : reader) (h : bytes) : reader :=
  {| inf := inf r; dictOfs := dictOfs r; gzs := gzs r; hold := h; crc := crc r;
     rawLen := rawLen r; tars := tars r; err := err r |}.
Definition with_inf (r : reader) (i : I) : reader :=
  {| inf := i; dictOfs := dictOfs r; gzs := gzs r; hold := hold r; crc := crc r;
     rawLen := rawLen r; tars := tars r; err := err r |}.

(** The inflated run [out]: checksum, tar parser, window position. *)
Definition takeOutput (r : reader) (k : K) (out : bytes) : option (reader * K) :=
  if Zlen out =? 0 then Some (r, k)
  else
    '(t, k, e) ← tarConsume cb (tars r) k out;
    Some ({| inf := inf r;
             dictOfs := if bool_decide (e = TARGZ_OK)
                        then Z.land (dictOfs r + Zlen out) (DICT_SIZE - 1) else dictOfs r;
             gzs := gzs r; hold := hold r; crc := mz_crc32 (crc r) out;
             rawLen := wrap64 (rawLen r + Zlen out); tars := t;
             err := if bool_decide (e = TARGZ_OK) then err r else e |}, k).

Fixpoint inflateLoop (fuel : nat) (r : reader) (k : K) (p : bytes) (final : bool)
    : option (reader * K * bytes) :=
  if negb (bool_decide (gz (gzs r) = GZ_DEFLATE)) then Some (r, k, p)
  else
    match fuel with
    | O => None
    | S f =>
        let '(i, st, inBytes, out) := tinfl_decompress (inf r) p (DICT_SIZE - dictOfs r) (negb final) in
        let p := drop (Z.to_nat inBytes) p in
        '(r, k) ← takeOutput (with_inf r i) k out;
        if negb (bool_decide (err r = TARGZ_OK)) then Some (r, k, p)
        else
          match st with
          | TINFL_STATUS_DONE => Some (with_gz r (gz_at (gzs r) GZ_FOOTER), k, p)
          | TINFL_STATUS_FAILED => Some (fail r TARGZ_ERR_DEFLATE, k, p)
          | _ => if (inBytes =? 0) && (Zlen out =? 0) then Some (r, k, p) else inflateLoop f r k p final
          end
    end.

(** [inflateSome]: the bytes it would not consume. *)
Definition inflateSome (r : reader) (k : K) (p : bytes) (final : bool) : option (reader * K * bytes) :=
  inflateLoop (S (length p + tinfl_bound (inf r) (Zlen p))) r k p final.

(** One of the two [inflateSome] calls of [targzReaderFeed], skipped on no bytes. *)
Definition feedPart (r : reader) (k : K) (p : bytes) : option (reader * K) :=
  if Zlen p =? 0 then Some (r, k)
  else
    '(r, k, unread) ← inflateSome r k p false;
    if negb (bool_decide (err r = TARGZ_OK)) then Some (r, k)
    else if negb (Zlen unread =? 0) && bool_decide (gz (gzs r) = GZ_DEFLATE)
    then Some (fail r TARGZ_ERR_DEFLATE, k)
    else Some (r, k).

(** The withholding of the last eight bytes, and inflation of the rest. *)
Definition feedBody (r : reader) (k : K) (p : bytes) : option (reader * K * targz_err) :=
  let total := Zlen (hold r) + Zlen p in
  if total <=? GZ_FOOT_LEN then Some (with_hold r (hold r ++ p), k, TARGZ_OK)
  else
    let feed := total - GZ_FOOT_LEN in
    let fromHold := Z.min feed (Zlen (hold r)) in
    let fromData := feed - fromHold in
    let next := drop (Z.to_nat fromHold) (hold r) ++ drop (Z.to_nat fromData) p in
    '(r, k) ← feedPart r k (take (Z.to_nat fromHold) (hold r));
    if negb (bool_decide (err r = TARGZ_OK)) then Some (r, k, err r)
    else
      '(r, k) ← feedPart r k (take (Z.to_nat fromData) p);
      if negb (bool_decide (err r = TARGZ_OK)) then Some (r, k, err r)
      else Some (with_hold r next, k, TARGZ_OK).

Definition targzReaderFeed (r : reader) (k : K) (p : bytes) : option (reader * K * targz_err) :=
  if negb (bool_decide (err r = TARGZ_OK)) then Some (r, k, err r)
  else if bool_decide (gz (gzs r) = GZ_DEFLATE) || bool_decide (gz (gzs r) = GZ_FOOTER)
  then feedBody r k p
  else
    '(g, p, e) ← gzHeader (gzs r) p;
    let r := with_gz r g in
    if negb (bool_decide (e = TARGZ_OK)) then Some (fail r e, k, e)
    else if negb (bool_decide (gz g = GZ_DEFLATE)) then Some (r, k, TARGZ_OK)
    else feedBody r k p.

(** [targzReaderFinish]: the verdict, the entry count and the byte count. *)
Definition targzReaderFinish (r : reader) (k : K) : option (targz_err * Z * Z * K) :=
  '(r, k, _) ← (if bool_decide (err r = TARGZ_OK) && bool_decide (gz (gzs r) = GZ_DEFLATE)
                then inflateSome r k [] true else Some (r, k, []));
  let e :=
    if negb (bool_decide (err r = TARGZ_OK)) then err r
    else if bool_decide (gz (gzs r) = GZ_DEFLATE) then TARGZ_ERR_TRUNCATED
    else if Zlen (hold r) <? GZ_FOOT_LEN then TARGZ_ERR_TRUNCATED
    else if bool_decide (tar (tars r) = TAR_DATA) || bool_decide (tar (tars r) = TAR_PAD) ||
            negb (Zlen (hdr (tars r)) =? 0) then TARGZ_ERR_TRUNCATED
    else if negb (le_val (take 4 (hold r)) =? crc r) ||
            negb (le_val (take 4 (drop 4 (hold r))) =? wrap32 (rawLen r)) then TARGZ_ERR_CRC
    else TARGZ_OK in
  Some (e, entries (tars r), nbytes (tars r), k).

(** Feeding a whole stream in chunks, as a caller does: it stops at the first error. *)
Fixpoint feedAll (r : reader) (k : K) (chunks : list bytes) : option (reader * K * targz_err) :=
  match chunks with
  | [] => Some (r, k, TARGZ_OK)
  | c :: rest =>
      '(r, k, e) ← targzReaderFeed r k c;
      if bool_decide (e = TARGZ_OK) then feedAll r k rest else Some (r, k, e)
  end.

End Reader.
End Reader.
