(* ===== verification/TargzHeader.v ===== *)
(** * targz: the ustar header block

    Octal fields, the checksum, the layout of the block, and which names
    [safeEntryName] lets through. *)

From S2P Require Import Prelude CLib Targz.
Import Header.
Open Scope spangap_scope.

(** ** Octal fields *)

Lemma lor_shift3 x d : 0 <= x -> 0 <= d < 8 -> Z.lor (Z.shiftl x 3) d = x * 8 + d.
Proof.
  intros Hx Hd. rewrite <- Z.lxor_lor; [rewrite <- Z.add_nocarry_lxor|].
  1: by rewrite Z.shiftl_mul_pow2 by lia.
  all: apply Z.bits_inj'; intros n Hn; rewrite Z.land_spec, Z.bits_0;
    destruct (Z.ltb_spec n 3);
    [by rewrite Z.shiftl_spec_low by lia|].
  all: replace d with (d mod 2 ^ 3) by (apply Z.mod_small; lia);
    rewrite Z.mod_pow2_bits_high by lia; apply andb_false_r.
Qed.

Lemma octalLoop_digits n v acc u :
  0 <= v -> 0 <= u -> (u + 1) * 8 ^ Z.of_nat n <= 2 ^ 60 ->
  octalLoop (octalDigits n v acc) u = octalLoop acc (u * 8 ^ Z.of_nat n + v mod 8 ^ Z.of_nat n).
Proof.
  revert v acc. induction n as [|n IH]; intros v acc Hv Hu Hb.
  - change (8 ^ Z.of_nat 0) with 1. by rewrite Z.mod_1_r, Z.mul_1_r, Z.add_0_r.
  - rewrite Nat2Z.inj_succ, Z.pow_succ_r in * by lia. cbn [octalDigits].
    assert (0 < 8 ^ Z.of_nat n) by (apply Z.pow_pos_nonneg; lia).
    assert (0 <= Z.land v 7 < 8) as Hd.
    { change 7 with (Z.ones 3). rewrite Z.land_ones by lia. apply Z.mod_pos_bound. lia. }
    rewrite IH by (try apply Z.shiftr_nonneg; lia). cbn [octalLoop].
    rewrite !(proj2 (Z.eqb_neq _ _)), !(proj2 (Z.ltb_ge _ _)) by lia. cbn [orb].
    set (x := u * 8 ^ Z.of_nat n + _).
    assert (0 <= x < (u + 1) * 8 ^ Z.of_nat n) as Hx.
    { unfold x. pose proof (Z.mod_pos_bound (Z.shiftr v 3) (8 ^ Z.of_nat n)). lia. }
    unfold wrap64. rewrite Z.mod_small by (rewrite Z.shiftl_mul_pow2; lia).
    replace (48 + Z.land v 7 - 48) with (Z.land v 7) by lia.
    rewrite lor_shift3 by lia. f_equal. unfold x.
    change 7 with (Z.ones 3). rewrite Z.land_ones, Z.shiftr_div_pow2 by lia.
    change (2 ^ 3) with 8. rewrite Z.rem_mul_r by lia. lia.
Qed.

Lemma octalValue_field width v rest :
  (0 < width <= 20)%nat -> 0 <= v < 8 ^ (Z.of_nat width - 1) ->
  octalValue (octalField width v ++ rest) = v.
Proof.
  intros Hw Hv. unfold octalValue, octalField. destruct width as [|n]; [lia|]. cbn [pred].
  replace (Z.of_nat (S n) - 1) with (Z.of_nat n) in Hv by lia.
  assert (forall n v a b, octalDigits n v a ++ b = octalDigits n v (a ++ b)) as Happ.
  { clear. induction n as [|n IH]; intros v a b; [done|]. cbn [octalDigits]. by rewrite IH. }
  rewrite <- app_assoc, Happ. cbn [app]. rewrite octalLoop_digits; [|lia|lia|].
  - cbn [octalLoop orb Z.eqb]. rewrite Z.mod_small by done. lia.
  - change (2 ^ 60) with (8 ^ 20). rewrite Z.mul_1_l. apply Z.pow_le_mono_r; lia.
Qed.

Lemma octalDigits_length n v acc : length (octalDigits n v acc) = (n + length acc)%nat.
Proof. revert v acc. induction n as [|n IH]; intros v acc; [done|]. cbn. rewrite IH. cbn. lia. Qed.

Lemma octalField_length w v : (0 < w)%nat -> length (octalField w v) = w.
Proof. intros. unfold octalField. rewrite length_app, octalDigits_length. cbn. lia. Qed.

Lemma octalField_ok w v : bytes_ok (octalField w v).
Proof.
  unfold octalField. apply bytes_ok_app. split; [|by repeat constructor].
  assert (forall n v acc, bytes_ok acc -> bytes_ok (octalDigits n v acc)) as H.
  { clear. induction n as [|n IH]; intros v acc Ha; [done|]. cbn. apply IH. constructor; [|done].
    unfold is_byte. change 7 with (Z.ones 3). rewrite Z.land_ones by lia.
    pose proof (Z.mod_pos_bound v (2 ^ 3)). lia. }
  apply H. constructor.
Qed.

(** ** The layout of the block *)

Record wf (h : ustar) : Prop := {
  wf_name : Zlen (name h) = 100; wf_mode : Zlen (mode h) = 8; wf_uid : Zlen (uid h) = 8;
  wf_gid : Zlen (gid h) = 8; wf_size : Zlen (size h) = 12; wf_mtime : Zlen (mtime h) = 12;
  wf_chksum : Zlen (chksum h) = 8; wf_linkname : Zlen (linkname h) = 100;
  wf_magic : Zlen (magic h) = 6; wf_version : Zlen (version h) = 2;
  wf_uname : Zlen (uname h) = 32; wf_gname : Zlen (gname h) = 32;
  wf_devmajor : Zlen (devmajor h) = 8; wf_devminor : Zlen (devminor h) = 8;
  wf_prefix : Zlen (prefix h) = 155; wf_padding : Zlen (padding h) = 12
}.

Lemma field_skip a b off w : Zlen a <= off -> field (a ++ b) off w = field b (off - Zlen a) w.
Proof.
  intros H. unfold field. rewrite drop_app_ge by (unfold Zlen in *; lia).
  do 2 f_equal. unfold Zlen in *. lia.
Qed.

Lemma field_skip1 x b off w : 0 < off -> field (x :: b) off w = field b (off - 1) w.
Proof. intros H. apply (field_skip [x] b off w). rewrite Zlen_cons, Zlen_nil. lia. Qed.

Lemma field_here a b off w : off = 0 -> w = Zlen a -> field (a ++ b) off w = a.
Proof. intros -> ->. unfold field, Zlen. rewrite Nat2Z.id. cbn [Z.to_nat drop]. apply take_app_length. Qed.

Lemma nth_skip (a b : bytes) n d :
  (length a <= n)%nat -> nth n (a ++ b) d = nth (n - length a) b d.
Proof. apply app_nth2. Qed.

Lemma ustar_of_bytes h : wf h -> ustar_of (ustar_bytes h) = h.
Proof.
  intros []. destruct h. unfold ustar_of, ustar_bytes. cbn [name mode uid gid size mtime chksum
    typeflag linkname magic version uname gname devmajor devminor prefix padding] in *.
  assert (forall (l : bytes) n, Zlen l = Z.of_nat n -> length l = n) as HL by (unfold Zlen; lia).
  f_equal;
    repeat first [rewrite field_skip by lia | rewrite field_skip1 by lia];
    try (rewrite field_here by lia; done).
  2: { rewrite <- (app_nil_r padding0) at 1. by rewrite field_here by lia. }
  repeat (rewrite nth_skip; [|unfold Zlen in *; lia]).
  match goal with |- nth ?n _ _ = _ => replace n with 0%nat by (unfold Zlen in *; lia) end. done.
Qed.

(** ** The checksum *)

Lemma checksumFrom_app i s a b :
  checksumFrom i s (a ++ b) = checksumFrom (i + Zlen a) (checksumFrom i s a) b.
Proof.
  revert i s. induction a as [|x a IH]; intros i s; [by rewrite Zlen_nil, Z.add_0_r|].
  cbn [app checksumFrom]. rewrite IH, Zlen_cons. f_equal. lia.
Qed.

Lemma checksum_spaces i s c c' :
  148 <= i -> i + Zlen c <= 156 -> Zlen c = Zlen c' -> checksumFrom i s c = checksumFrom i s c'.
Proof.
  revert i s c'. induction c as [|x c IH]; intros i s c' H1 H2 E.
  - symmetry in E. by apply Zlen_zero in E as ->.
  - destruct c' as [|x' c']; [zlia|]. rewrite !Zlen_cons in *. pose proof (Zlen_nonneg c).
    cbn [checksumFrom]. rewrite (proj2 (Z.leb_le 148 i)), (proj2 (Z.ltb_lt i _)) by lia.
    apply IH; lia.
Qed.

Lemma checksum_bound p i s :
  bytes_ok p -> 0 <= s -> s + 255 * Zlen p < 2 ^ 32 ->
  0 <= checksumFrom i s p <= s + 255 * Zlen p.
Proof.
  intros Hp. revert i s. induction Hp as [|b p Hb _ IH]; intros i s Hs Hlt; [cbn; zlia|].
  rewrite Zlen_cons in *. pose proof (Zlen_nonneg p). cbn [checksumFrom]. unfold is_byte in Hb.
  set (v := if _ && _ then 32 else b). assert (0 <= v <= 255) as Hv by (unfold v; case_match; lia).
  unfold wrap32. rewrite Z.mod_small by lia. specialize (IH (i + 1) (s + v)). lia.
Qed.

Lemma headerChecksum_with h c : wf h -> Zlen c = 8 ->
  headerChecksum (with_chksum h c) = headerChecksum h.
Proof.
  intros [] Hc. unfold headerChecksum, ustar_bytes. cbn [name mode uid gid size mtime chksum
    typeflag linkname magic version uname gname devmajor devminor prefix padding with_chksum].
  rewrite !(checksumFrom_app _ _ (name h)), !(checksumFrom_app _ _ (mode h)),
    !(checksumFrom_app _ _ (uid h)), !(checksumFrom_app _ _ (gid h)),
    !(checksumFrom_app _ _ (size h)), !(checksumFrom_app _ _ (mtime h)).
  rewrite (checksumFrom_app _ _ c), (checksumFrom_app _ _ (chksum h)).
  f_equal; [lia|]. apply checksum_spaces; lia.
Qed.

(** Every byte of the block is a byte. *)
Definition hdr_ok (h : ustar) : Prop := wf h /\ bytes_ok (ustar_bytes h).

Lemma Zlen_ustar_bytes h : wf h -> Zlen (ustar_bytes h) = 512.
Proof. intros []. unfold ustar_bytes. autorewrite with zlen. lia. Qed.

Lemma over_length s o : Zlen s <= Zlen o -> Zlen (over s o) = Zlen o.
Proof. intros. unfold over. autorewrite with zlen. unfold Zlen in *. lia. Qed.

Lemma over_ok s o : bytes_ok s -> bytes_ok o -> bytes_ok (over s o).
Proof. intros Hs Ho. unfold over. apply bytes_ok_app. split; [done|]. by apply Forall_drop. Qed.

Lemma with_chksum_wf h c : wf h -> Zlen c = 8 -> wf (with_chksum h c).
Proof. intros []. by split. Qed.

Lemma with_chksum_ok h c : hdr_ok h -> Zlen c = 8 -> bytes_ok c -> hdr_ok (with_chksum h c).
Proof.
  intros [Hw Hb] Hc Hok. split; [by apply with_chksum_wf|]. revert Hb. unfold ustar_bytes.
  cbn [name mode uid gid size mtime chksum typeflag linkname magic version uname gname devmajor
    devminor prefix padding with_chksum].
  rewrite !bytes_ok_app. unfold bytes_ok. rewrite !Forall_cons. tauto.
Qed.

Lemma seal_chksum h : wf h ->
  over (octalField 7 (headerChecksum h)) (take 7 (chksum h)) ++ [32] =
  octalField 7 (headerChecksum h) ++ [32].
Proof.
  intros []. unfold over. rewrite drop_ge; [by rewrite app_nil_r|].
  rewrite octalField_length, length_take by lia. lia.
Qed.

Lemma seal_ok h : hdr_ok h -> hdr_ok (sealHeader h).
Proof.
  intros Hh. unfold sealHeader. rewrite seal_chksum by apply Hh. apply with_chksum_ok; [done| |].
  - rewrite Zlen_app. unfold Zlen at 1. rewrite octalField_length by lia. done.
  - apply bytes_ok_app. split; [apply octalField_ok|by repeat constructor].
Qed.

(** A sealed header passes the reader's checksum test. *)
Lemma seal_checksum h : hdr_ok h ->
  octalValue (chksum (sealHeader h)) = headerChecksum (sealHeader h).
Proof.
  intros [Hw Hb]. unfold sealHeader. rewrite seal_chksum by done.
  assert (Zlen (octalField 7 (headerChecksum h) ++ [32]) = 8) as Hl.
  { rewrite Zlen_app. unfold Zlen at 1. rewrite octalField_length by lia. done. }
  rewrite headerChecksum_with by done. cbn [chksum with_chksum].
  apply octalValue_field; [lia|].
  pose proof (checksum_bound (ustar_bytes h) 0 0 Hb) as Hc. rewrite Zlen_ustar_bytes in Hc by done.
  unfold headerChecksum. change (8 ^ (Z.of_nat 7 - 1)) with 262144. lia.
Qed.

(** ** Names in and out of the block *)

Lemma strchr_zero s rest : 0 ∉ s -> Reader.strnlen (s ++ 0 :: rest) = s.
Proof. intros H. unfold Reader.strnlen. by rewrite strchr_app. Qed.

Lemma strnlen_full s : 0 ∉ s -> Reader.strnlen s = s.
Proof. intros H. unfold Reader.strnlen. by rewrite (proj2 (strchr_None _ _)). Qed.

Lemma strnlen_over s n : 0 ∉ s -> (length s <= n)%nat -> Reader.strnlen (over s (zeros n)) = s.
Proof.
  intros Hs Hn. unfold over, zeros. rewrite drop_replicate.
  destruct (n - length s)%nat; [|by apply strchr_zero].
  cbn [replicate]. rewrite app_nil_r. by apply strnlen_full.
Qed.

(** A header as [fillHeader] leaves it. *)
Definition blank_name (h : ustar) : Prop := name h = zeros 100 /\ prefix h = zeros 155.

Lemma splitLoop_path i h nm h' :
  blank_name h -> 0 ∉ nm -> (i <= length nm)%nat -> head nm <> Some (chr "/") ->
  splitLoop i h nm = Some h' ->
  Reader.entryPath h' = nm /\ exists n p, h' = with_name h n p /\ Zlen n = 100 /\ Zlen p = 155 /\
    (bytes_ok nm -> bytes_ok n /\ bytes_ok p).
Proof.
  intros [Hn Hp] H0 Hi Hhd. induction i as [|i IH]; cbn [splitLoop]; [done|].
  destruct (negb (nth i nm 0 =? chr "/")) eqn:Ec; [apply IH; lia|].
  destruct (_ || _ || _) eqn:Et; [apply IH; lia|]. intros [= <-].
  apply negb_false_iff, Z.eqb_eq in Ec. rewrite !orb_false_iff in Et. destruct Et as [[Et1 Et2] Et3].
  apply Nat.eqb_neq in Et1. apply Nat.ltb_ge in Et2, Et3.
  assert (nm = take i nm ++ chr "/" :: drop (S i) nm) as Enm.
  { rewrite <- Ec. rewrite <- (take_drop i nm) at 1. f_equal.
    destruct (lookup_lt_is_Some_2 nm i) as [x Hx]; [lia|]. rewrite (drop_S _ _ _ Hx).
    f_equal. symmetry. by apply nth_lookup_Some. }
  assert ((0 ∉ take i nm) /\ 0 ∉ drop (S i) nm) as [H1 H2].
  { rewrite Enm in H0. rewrite not_elem_of_app, not_elem_of_cons in H0. tauto. }
  assert (length (take i nm) = i) as L1 by (rewrite length_take; lia).
  assert (length (drop (S i) nm) = (length nm - i - 1)%nat) as L2 by (rewrite length_drop; lia).
  split.
  - unfold Reader.entryPath. cbn [name prefix with_name]. rewrite Hn, Hp.
    rewrite !strnlen_over by (done || lia).
    destruct (Z.eqb_spec (Zlen (take i nm)) 0) as [Ez|]; [|by rewrite Enm at 3].
    apply Zlen_zero in Ez. destruct i; [|by destruct nm]. rewrite Enm in Hhd. done.
  - eexists _, _. split; [done|]. rewrite Hn, Hp. repeat split.
    + rewrite over_length; [done|]. unfold Zlen, zeros. rewrite length_replicate. lia.
    + rewrite over_length; [done|]. unfold Zlen, zeros. rewrite length_replicate. lia.
    + apply over_ok; [by apply Forall_drop|]. by apply Forall_replicate.
    + apply over_ok; [by apply Forall_take|]. by apply Forall_replicate.
Qed.

Lemma setEntryName_path h nm h' :
  blank_name h -> 0 ∉ nm -> head nm <> Some (chr "/") -> setEntryName h nm = Some h' ->
  Reader.entryPath h' = nm /\ exists n p, h' = with_name h n p /\ Zlen n = 100 /\ Zlen p = 155 /\
    (bytes_ok nm -> bytes_ok n /\ bytes_ok p).
Proof.
  intros Hbl H0 Hhd. unfold setEntryName. destruct (_ =? 0)%nat; [done|].
  destruct (Nat.leb_spec (length nm) 100).
  - intros [= <-]. destruct Hbl as [Hn Hp]. split.
    + unfold Reader.entryPath. cbn [name prefix with_name]. rewrite Hn, Hp.
      change (Zlen (Reader.strnlen (zeros 155)) =? 0) with true. cbn iota.
      by apply strnlen_over.
    + eexists _, _. split; [done|]. rewrite Hn, Hp. repeat split.
      * rewrite over_length; [done|]. unfold Zlen, zeros. rewrite length_replicate. lia.
      * apply over_ok; [done|]. by apply Forall_replicate.
      * by apply Forall_replicate.
  - destruct (_ <? _)%nat; [done|]. by apply splitLoop_path.
Qed.

Lemma fill_ok tf sz mt : is_byte tf -> hdr_ok (fillHeader tf sz mt).
Proof.
  intros Htf. assert (forall w v, (0 < w)%nat -> Zlen (octalField w v) = Z.of_nat w) as Hl
    by (intros; unfold Zlen; by rewrite octalField_length).
  split.
  - split; cbn [name mode uid gid size mtime chksum linkname magic version uname gname devmajor
      devminor prefix padding fillHeader]; try reflexivity; [|by rewrite Hl by lia..].
    by destruct (tf =? chr "5").
  - unfold ustar_bytes. cbn [name mode uid gid size mtime chksum typeflag linkname magic version
      uname gname devmajor devminor prefix padding fillHeader].
    assert (forall n, bytes_ok (zeros n)) as Hz by (intros; by apply Forall_replicate).
    rewrite !bytes_ok_app. unfold bytes_ok at 8. rewrite Forall_cons. fold bytes_ok.
    rewrite !bytes_ok_app. repeat split; auto using octalField_ok; try apply Htf;
      try (destruct (tf =? chr "5")); vm_compute; repeat constructor; discriminate.
Qed.

Lemma with_name_ok h n p : hdr_ok h -> Zlen n = 100 -> Zlen p = 155 -> bytes_ok n -> bytes_ok p ->
  hdr_ok (with_name h n p).
Proof.
  intros [[] Hb] Hn Hp On Op. split; [by split|]. revert Hb. unfold ustar_bytes.
  cbn [name mode uid gid size mtime chksum typeflag linkname magic version uname gname devmajor
    devminor prefix padding with_name].
  rewrite !bytes_ok_app. unfold bytes_ok. rewrite !Forall_cons, !Forall_app. tauto.
Qed.

(** What the reader sees in the block the writer made for an entry. *)
Lemma written_header tf sz mt nm h :
  is_byte tf -> 0 <= sz < 2 ^ 32 -> 0 ∉ nm -> bytes_ok nm -> head nm <> Some (chr "/") ->
  setEntryName (fillHeader tf sz mt) nm = Some h ->
  let b := ustar_bytes (sealHeader h) in
  Zlen b = 512 /\ bytes_ok b /\ forallb (fun c => c =? 0) b = false /\
  octalValue (chksum (ustar_of b)) = headerChecksum (ustar_of b) /\
  Reader.entryPath (ustar_of b) = nm /\ octalValue (size (ustar_of b)) = sz /\
  typeflag (ustar_of b) = tf.
Proof.
  intros Htf Hsz H0 Hok Hhd E b.
  destruct (setEntryName_path (fillHeader tf sz mt) nm h (conj eq_refl eq_refl) H0 Hhd E)
    as (Hpath & n & p & -> & Ln & Lp & Hnp).
  destruct (Hnp Hok) as [On Op].
  assert (hdr_ok (with_name (fillHeader tf sz mt) n p)) as Hh.
  { apply with_name_ok; try done. by apply fill_ok. }
  pose proof (seal_ok _ Hh) as [Hw Hb]. unfold b. rewrite ustar_of_bytes by done.
  split; [by apply Zlen_ustar_bytes|]. split; [done|]. split; [|split; [by apply seal_checksum|]].
  - apply not_true_iff_false. intros F. rewrite forallb_forall in F.
    assert (In (chr "u") (ustar_bytes (sealHeader (with_name (fillHeader tf sz mt) n p)))) as Hin.
    { unfold ustar_bytes. cbn [name mode uid gid size mtime chksum typeflag linkname magic version
        uname gname devmajor devminor prefix padding fillHeader with_name with_chksum sealHeader].
      do 7 (apply in_or_app; right). right. apply in_or_app; right. apply in_or_app; left.
      left. reflexivity. }
    apply F in Hin. done.
  - split; [done|]. split; [|done]. unfold sealHeader. cbn [size with_chksum with_name fillHeader].
    rewrite <- (app_nil_r (octalField 12 sz)). apply octalValue_field; [lia|].
    change (8 ^ (Z.of_nat 12 - 1)) with 8589934592. lia.
Qed.

(** ** Safe names *)

(** The components of a path: what lies between its slashes. *)
Fixpoint components (s : bytes) : list bytes :=
  match s with
  | [] => [[]]
  | c :: r =>
      if c =? chr "/" then [] :: components r
      else match components r with x :: xs => (c :: x) :: xs | [] => [[c]] end
  end.

Lemma components_cons s : exists x xs, components s = x :: xs.
Proof.
  induction s as [|c r (x & xs & IH)]; cbn; [eauto|]. rewrite IH. case_match; eauto.
Qed.

(** The scan as a recursion on the rest of the name, [seg] the open component. *)
Fixpoint safeRest (seg rest : bytes) : bool :=
  match rest with
  | [] => negb (streq seg ($ ".."))
  | c :: r =>
      if c =? chr "/" then
        negb (Zlen seg =? 0) && negb (streq seg ($ "..")) && safeRest [] r
      else safeRest (seg ++ [c]) r
  end.

Lemma dotdot_seg (s : bytes) :
  ((length s =? 2)%nat && (nth 0 s 0 =? chr ".") && (nth 1 s 0 =? chr ".")) = streq s ($ "..").
Proof.
  apply eq_true_iff_eq. rewrite !andb_true_iff, Nat.eqb_eq, !Z.eqb_eq, streq_true. split.
  - destruct s as [|a [|b [|c s]]]; cbn [length nth]; intros [[? ?] ?]; try (exfalso; lia); subst; reflexivity.
  - by intros ->.
Qed.

Lemma safeLoop_S n nm i start :
  safeLoop (S n) nm i start =
  if negb (i =? length nm)%nat && negb (nth i nm 0 =? chr "/") then safeLoop n nm (S i) start
  else if (i - start =? 0)%nat && negb (i =? length nm)%nat then false
  else if (i - start =? 2)%nat && (nth start nm 0 =? chr ".") && (nth (S start) nm 0 =? chr ".")
  then false else safeLoop n nm (S i) (S i).
Proof. reflexivity. Qed.

Lemma safeLoop_rest n pre seg rest :
  n = S (length rest) ->
  safeLoop n (pre ++ seg ++ rest) (length pre + length seg) (length pre) = safeRest seg rest.
Proof.
  revert pre seg n. induction rest as [|c r IH]; intros pre seg n ->; rewrite safeLoop_S.
  - assert ((length pre + length seg =? length (pre ++ seg ++ []))%nat = true) as ->.
    { apply Nat.eqb_eq. rewrite !length_app. cbn. lia. }
    cbn [negb andb]. rewrite andb_false_r, app_nil_r.
    replace (length pre + length seg - length pre)%nat with (length seg) by lia.
    rewrite (nth_skip pre _ (length pre)), (nth_skip pre _ (S (length pre))), Nat.sub_diag by lia. replace (S (length pre) - length pre)%nat with 1%nat by lia.
    rewrite dotdot_seg. cbn [safeRest length safeLoop]. by destruct (streq seg _).
  - assert ((length pre + length seg =? length (pre ++ seg ++ c :: r))%nat = false) as ->.
    { apply Nat.eqb_neq. rewrite !length_app. cbn. lia. }
    assert (nth (length pre + length seg) (pre ++ seg ++ c :: r) 0 = c) as ->.
    { rewrite nth_skip by lia. rewrite nth_skip by lia.
      replace (_ - _ - _)%nat with 0%nat by lia. done. }
    cbn [negb andb safeRest]. destruct (c =? chr "/") eqn:Ec; cbn [negb].
    + rewrite andb_true_r. replace (length pre + length seg - length pre)%nat with (length seg) by lia.
      assert ((length seg =? 0)%nat = (Zlen seg =? 0)) as ->.
      { unfold Zlen. apply eq_true_iff_eq. rewrite Nat.eqb_eq, Z.eqb_eq. lia. }
      destruct (Z.eqb_spec (Zlen seg) 0); [done|]. cbn [negb andb].
      assert ((length seg =? 2)%nat && (nth (length pre) (pre ++ seg ++ c :: r) 0 =? chr ".") &&
        (nth (S (length pre)) (pre ++ seg ++ c :: r) 0 =? chr ".") = streq seg ($ "..")) as ->.
      { rewrite <- dotdot_seg. destruct (Nat.eqb_spec (length seg) 2) as [E2|]; [|done].
        rewrite (nth_skip pre _ (length pre)), (nth_skip pre _ (S (length pre))), Nat.sub_diag by lia.
        replace (S (length pre) - length pre)%nat with 1%nat by lia.
        by rewrite !app_nth1 by lia. }
      destruct (streq seg _); [done|]. cbn [negb andb].
      specialize (IH (pre ++ seg ++ [c]) [] (S (length r)) eq_refl).
      rewrite !length_app in IH. cbn [length app] in IH. rewrite <- !app_assoc in IH.
      rewrite <- IH. cbn [app]. f_equal; lia.
    + specialize (IH pre (seg ++ [c]) (S (length r)) eq_refl).
      rewrite length_app in IH. cbn [length] in IH. rewrite <- app_assoc in IH. cbn [app] in IH.
      rewrite <- IH. f_equal. lia.
Qed.

Lemma removelast_cons {A} (x : A) l : l <> [] -> removelast (x :: l) = x :: removelast l.
Proof. by destruct l. Qed.

Lemma safeRest_components seg rest :
  chr "/" ∉ seg -> safeRest seg rest = true <->
  ($ ".." ∉ components (seg ++ rest)) /\ [] ∉ removelast (components (seg ++ rest)).
Proof.
  assert (forall seg rest, chr "/" ∉ seg -> components (seg ++ rest) =
    match components rest with x :: xs => (seg ++ x) :: xs | [] => [] end) as Hc.
  { clear. intros seg rest. induction seg as [|c seg IH]; intros Hn.
    - cbn [app]. destruct (components_cons rest) as (x & xs & ->). done.
    - apply not_elem_of_cons in Hn as [Hc Hn]. cbn [app components].
      rewrite (proj2 (Z.eqb_neq c _)) by done. rewrite IH by done.
      destruct (components_cons rest) as (x & xs & ->). done. }
  revert seg. induction rest as [|c r IH]; intros seg Hn; cbn [safeRest].
  - rewrite Hc by done. cbn. rewrite app_nil_r, negb_true_iff, streq_false.
    rewrite list_elem_of_singleton. split; [|naive_solver].
    intros H. split; [congruence|]. apply not_elem_of_nil.
  - destruct (c =? chr "/") eqn:Ec.
    + specialize (IH [] ltac:(apply not_elem_of_nil)). cbn [app] in IH.
      rewrite Hc by done. cbn [components]. rewrite Ec, app_nil_r.
      destruct (components_cons r) as (x & xs & Er).
      rewrite removelast_cons by (by rewrite Er).
      rewrite !andb_true_iff, IH, !negb_true_iff, streq_false, Z.eqb_neq, !not_elem_of_cons.
      assert (Zlen seg <> 0 <-> [] <> seg) as ->.
      { split; [by intros ? <-|]. intros H Hz. apply Zlen_zero in Hz. congruence. }
      naive_solver.
    + rewrite IH.
      * by rewrite <- app_assoc.
      * rewrite not_elem_of_app, not_elem_of_cons. apply Z.eqb_neq in Ec.
        split; [done|]. split; [done|]. apply not_elem_of_nil.
Qed.

Lemma safe_spec nm :
  safeEntryName nm = true <->
  nm <> [] /\ Zlen nm < 256 /\ ($ ".." ∉ components nm) /\ [] ∉ removelast (components nm).
Proof.
  destruct nm as [|c r]; [by split; [|intros []]|]. unfold safeEntryName.
  pose proof (safeLoop_rest (S (length (c :: r))) [] [] (c :: r) eq_refl) as Hl.
  cbn [app length Nat.add] in Hl. cbn [length]. rewrite Hl.
  pose proof (safeRest_components [] (c :: r) ltac:(apply not_elem_of_nil)) as Hs. cbn [app] in Hs.
  destruct (c =? chr "/") eqn:Ec.
  - split; [done|]. intros (_ & _ & _ & H). destruct H. cbn [components]. rewrite Ec.
    destruct (components_cons r) as (x & xs & ->). apply list_elem_of_In. by left.
  - destruct (Nat.leb_spec 256 (S (length r))) as [H|H].
    + split; [done|]. intros (_ & H' & _). unfold Zlen in H'. cbn [length] in H'. lia.
    + rewrite Hs. split; [|naive_solver]. intros [? ?].
      split; [done|]. split; [unfold Zlen; cbn [length]; lia|done].
Qed.
