(* ===== verification/TargzTar.v ===== *)
(** * targz: the tar parser

    [tarBytes] is the parser one byte at a time. [tarConsume], which works on runs,
    computes the same, so how the inflater cuts the stream does not matter. *)

From S2P Require Import Prelude CLib Targz TargzHeader.
Import Header Reader.
Open Scope spangap_scope.

(** ** Names the callbacks may see *)

(** Relative, no empty and no [..] component, shorter than 256 bytes. *)
Definition safe_name (nm : bytes) : Prop :=
  nm <> [] /\ Zlen nm < 256 /\ ($ ".." ∉ components nm) /\ [] ∉ components nm.

Lemma components_snoc nm c : exists xs x,
  components nm = xs ++ [x] /\
  components (nm ++ [c]) = if c =? chr "/" then xs ++ [x; []] else xs ++ [x ++ [c]].
Proof.
  induction nm as [|a nm IH]; cbn [app components].
  - exists [], []. split; [done|]. by destruct (c =? chr "/").
  - destruct IH as (xs & x & E1 & E2). rewrite E1, E2. destruct (a =? chr "/").
    + exists ([] :: xs), x. split; [done|]. by destruct (c =? chr "/").
    + destruct xs as [|y ys]; cbn [app].
      * exists [], (a :: x). split; [done|]. by destruct (c =? chr "/").
      * exists ((a :: y) :: ys), x. split; [done|]. by destruct (c =? chr "/").
Qed.

(** The name ends neither in a slash nor empty. *)
Definition no_trailing (nm : bytes) : Prop := last nm <> Some (chr "/").

Lemma safe_safe_name nm :
  no_trailing nm -> safeEntryName nm = true <-> safe_name nm.
Proof.
  intros Ht. rewrite safe_spec. unfold safe_name.
  destruct nm as [|c nm] using rev_ind; [naive_solver|].
  unfold no_trailing in Ht. rewrite last_snoc in Ht.
  destruct (components_snoc nm c) as (xs & x & _ & ->).
  rewrite (proj2 (Z.eqb_neq c _)) by congruence. rewrite removelast_last, !not_elem_of_app.
  rewrite !list_elem_of_singleton. assert ([] <> x ++ [c]) by (by destruct x). naive_solver.
Qed.

Lemma stripSlashes_spec rname d nm d' :
  stripSlashes rname d = (nm, d') -> no_trailing nm /\
  exists n, rev rname = nm ++ replicate n (chr "/") /\ d' = (d || negb (n =? 0)%nat).
Proof.
  revert d. induction rname as [|c r IH]; intros d; cbn [stripSlashes].
  - intros [= <- <-]. split; [done|]. exists 0%nat. by rewrite orb_false_r.
  - destruct (c =? chr "/") eqn:Ec.
    + intros E. destruct (IH _ E) as [Hn (n & Er & ->)]. split; [done|]. exists (S n).
      apply Z.eqb_eq in Ec as ->. cbn [rev]. rewrite Er, <- app_assoc, <- replicate_cons_app.
      split; [done|]. cbn. by rewrite orb_true_r.
    + intros [= <- <-]. split.
      * unfold no_trailing. cbn [rev]. rewrite last_snoc. apply Z.eqb_neq in Ec. congruence.
      * exists 0%nat. cbn [replicate]. by rewrite app_nil_r, orb_false_r.
Qed.

Lemma strip_none nm d : no_trailing nm -> stripSlashes (rev nm) d = (nm, d).
Proof.
  intros Ht. destruct nm as [|c nm] using rev_ind; [done|]. rewrite rev_app_distr. cbn [rev app stripSlashes].
  unfold no_trailing in Ht. rewrite last_snoc in Ht.
  rewrite (proj2 (Z.eqb_neq c _)) by congruence. cbn [rev]. by rewrite rev_involutive.
Qed.

Lemma strip_one nm d : no_trailing nm -> stripSlashes (rev (nm ++ [chr "/"])) d = (nm, true).
Proof.
  intros Ht. rewrite rev_app_distr. cbn [rev app stripSlashes]. rewrite Z.eqb_refl. by apply strip_none.
Qed.

(** ** The parser's invariant *)

Record tar_inv (r : tar_st) : Prop := {
  inv_hdr : Zlen (hdr r) < TAR_BLOCK;
  inv_hdr_stage : tar r <> TAR_HDR -> hdr r = [];
  inv_pending : tar r = TAR_DATA -> 0 < pending r;
  inv_pad : 0 <= pad r /\ (tar r = TAR_PAD -> 0 < pad r);
  inv_file : inFile r = true -> tar r = TAR_DATA
}.

Lemma tar_init_inv : tar_inv tar_init.
Proof. by split. Qed.

Lemma tar_pad_range sz : 0 <= Writer.tar_pad sz < TAR_BLOCK.
Proof. unfold Writer.tar_pad, TAR_BLOCK. apply Z.mod_pos_bound. lia. Qed.

Lemma tar_pad_mult sz : (sz + Writer.tar_pad sz) mod TAR_BLOCK = 0.
Proof. unfold Writer.tar_pad, TAR_BLOCK. Z.to_euclidean_division_equations. lia. Qed.

Lemma octalLoop_nonneg s v : 0 <= v -> 0 <= octalLoop s v.
Proof.
  revert v. induction s as [|c s IH]; intros v Hv; [done|]. cbn [octalLoop].
  destruct (_ || _); [done|]. destruct (_ || _) eqn:E; [done|]. b2p. apply IH.
  apply Z.lor_nonneg. split; [|lia]. unfold wrap64. apply Z.mod_pos_bound. lia.
Qed.

Section Tar.
Context {K : Type} (cb : reader_cb K).

Implicit Types (r : tar_st) (k : K) (e : targz_err).

Lemma endBody_inv r k r' k' :
  hdr r = [] -> 0 <= pad r -> endBody cb r k = (r', k', TARGZ_OK) -> tar_inv r'.
Proof.
  intros Hh Hp. unfold endBody. destruct (if inFile r then _ else _) as [k1 [|]]; [|done].
  cbn [negb]. intros [= <- <-]. split; cbn [hdr tar pending pad inFile].
  - by rewrite Hh.
  - by rewrite Hh.
  - by destruct (_ =? 0).
  - split; [done|]. destruct (Z.eqb_spec (pad r) 0); [done|]. lia.
  - done.
Qed.

Lemma tarHeader_inv r k b r' k' :
  tar_inv r -> tar r = TAR_HDR -> hdr r = [] ->
  tarHeader cb r k b = (r', k', TARGZ_OK) -> tar_inv r'.
Proof.
  intros [I1 I2 I3 I4 I5] Ht Hh. unfold tarHeader. destruct (forallb _ b).
  - intros [= <- <-]. assert (inFile r <> true) by (intros E; apply I5 in E; congruence).
    split; cbn; try done; destruct (2 <=? _); rewrite ?Ht; try done; [|]; split; (done || lia).
  - destruct (negb _); [done|]. destruct (264 <=? _); [done|].
    destruct (stripSlashes _ _) as [nm isDir]. destruct (_ && _ && _); [done|].
    destruct (negb (safeEntryName nm)); [done|].
    destruct (if isDir then _ else _) as [k1 [|]]; [|done]. cbn [negb].
    set (sz := octalValue _). pose proof (tar_pad_range sz).
    pose proof (octalLoop_nonneg (size (ustar_of b)) 0 ltac:(lia)) as Hsz. fold (octalValue (size (ustar_of b))) in Hsz. fold sz in Hsz.
    destruct (Z.eqb_spec sz 0).
    + apply endBody_inv; [done|]. cbn [pad]. lia.
    + intros [= <- <-]. split; cbn [tar hdr pending pad inFile]; rewrite ?Hh; try done; [lia|]. by split; [lia|].
Qed.

(** ** One byte at a time *)

Definition tarByte r k (c : Z) : tar_st * K * targz_err :=
  match tar r with
  | TAR_END => (r, k, TARGZ_OK)
  | TAR_HDR =>
      let b := hdr r ++ [c] in
      if Zlen b <? TAR_BLOCK then (set_hdr r b, k, TARGZ_OK) else tarHeader cb (set_hdr r []) k b
  | TAR_DATA =>
      let '(k, took) := if inFile r then call1 (onData cb) k [c] else (k, true) in
      if negb took then (r, k, TARGZ_ERR_SINK)
      else
        let r := set_pending r (pending r - 1) in
        if pending r =? 0 then endBody cb r k else (r, k, TARGZ_OK)
  | TAR_PAD => (set_pad r (pad r - 1), k, TARGZ_OK)
  end.

Fixpoint tarBytes r k (p : bytes) : tar_st * K * targz_err :=
  match p with
  | [] => (r, k, TARGZ_OK)
  | c :: p' =>
      let '(r, k, e) := tarByte r k c in
      if bool_decide (e = TARGZ_OK) then tarBytes r k p' else (r, k, e)
  end.

(** Then, stopping at an error. *)
Definition tar_then (x : tar_st * K * targz_err) (f : tar_st -> K -> tar_st * K * targz_err) :=
  let '(r, k, e) := x in if bool_decide (e = TARGZ_OK) then f r k else (r, k, e).

Lemma tarBytes_app r k a b :
  tarBytes r k (a ++ b) = tar_then (tarBytes r k a) (fun r k => tarBytes r k b).
Proof.
  revert r k. induction a as [|c a IH]; intros r k; [done|]. cbn [app tarBytes].
  destruct (tarByte r k c) as [[r1 k1] e1]. destruct (bool_decide (e1 = TARGZ_OK)) eqn:E; [apply IH|].
  unfold tar_then. by rewrite E.
Qed.

(** The data callback does not mind where the runs are cut. *)
Definition streaming : Prop := forall f k a b, onData cb = Some f -> a <> [] -> b <> [] ->
  f k (a ++ b) = let '(k1, took) := f k a in if took : bool then f k1 b else (k1, false).

(** Same outcome: after an error only the verdict, the context and the tally count. *)
Definition same (x y : tar_st * K * targz_err) : Prop :=
  x.1.2 = y.1.2 /\ x.2 = y.2 /\ entries x.1.1 = entries y.1.1 /\ nbytes x.1.1 = nbytes y.1.1 /\
  (x.2 = TARGZ_OK -> x.1.1 = y.1.1).

#[export] Instance same_equiv : Equivalence same.
Proof.
  split.
  - done.
  - intros x y (? & ? & ? & ? & H). repeat split; try done. intros E. symmetry. apply H. congruence.
  - intros x y z (? & ? & ? & ? & H) (? & ? & ? & ? & H'). repeat split; try congruence.
    intros E. rewrite H by done. apply H'. congruence.
Qed.

Lemma same_then x y f g :
  same x y -> (x.2 = TARGZ_OK -> same (f x.1.1 x.1.2) (g x.1.1 x.1.2)) ->
  same (tar_then x f) (tar_then y g).
Proof.
  destruct x as [[r k] e], y as [[r' k'] e']. intros (Ek & Ee & H1 & H2 & Hr) Hf. cbn in *. subst.
  unfold tar_then. destruct (bool_decide_reflect (e' = TARGZ_OK)) as [->|].
  - specialize (Hr eq_refl). subst. by apply Hf.
  - repeat split; (done || congruence).
Qed.

Lemma hdr_run p r k :
  tar r = TAR_HDR -> Zlen (hdr r) + Zlen p < TAR_BLOCK ->
  tarBytes r k p = (set_hdr r (hdr r ++ p), k, TARGZ_OK).
Proof.
  revert r. induction p as [|c p IH]; intros r Ht Hl.
  - rewrite app_nil_r. by destruct r.
  - rewrite Zlen_cons in Hl. pose proof (Zlen_nonneg p). cbn [tarBytes]. unfold tarByte. rewrite Ht.
    rewrite (proj2 (Z.ltb_lt _ _)) by zlia. cbn iota. rewrite bool_decide_true by done.
    rewrite IH; [|done|cbn; zlia]. cbn. by rewrite <- app_assoc.
Qed.

Lemma hdr_full p r k :
  tar r = TAR_HDR -> p <> [] -> Zlen (hdr r) + Zlen p = TAR_BLOCK ->
  tarBytes r k p = tarHeader cb (set_hdr r []) k (hdr r ++ p).
Proof.
  intros Ht Hne Hl. destruct p as [|c p _] using rev_ind; [done|].
  rewrite Zlen_app, Zlen_cons, Zlen_nil in Hl. rewrite tarBytes_app, hdr_run by (done || lia).
  cbn [tar_then]. rewrite bool_decide_true by done. cbn [tarBytes]. unfold tarByte. cbn [tar hdr set_hdr].
  rewrite Ht. rewrite (proj2 (Z.ltb_ge _ _)) by zlia. rewrite <- app_assoc.
  destruct (tarHeader _ _ _ _) as [[r' k'] e']. by destruct (bool_decide_reflect (e' = TARGZ_OK)) as [->|].
Qed.

Lemma pad_run p r k :
  tar r = TAR_PAD -> Zlen p <= pad r -> p <> [] ->
  tarBytes r k p = (set_pad r (pad r - Zlen p), k, TARGZ_OK).
Proof.
  revert r. induction p as [|c p IH]; intros r Ht Hl Hne; [done|].
  rewrite Zlen_cons in *. pose proof (Zlen_nonneg p). cbn [tarBytes]. unfold tarByte. rewrite Ht.
  rewrite bool_decide_true by done. destruct (decide (p = [])) as [->|Hp].
  - cbn [tarBytes]. by rewrite Zlen_nil.
  - assert (0 < Zlen p). { destruct p; [done|]. rewrite Zlen_cons. zlia. }
    rewrite IH; [|unfold set_pad; cbn; rewrite (proj2 (Z.eqb_neq _ _)) by lia; done|cbn; lia|done].
    unfold set_pad. cbn. rewrite (proj2 (Z.eqb_neq (pad r - 1) 0)) by lia.
    replace (pad r - 1 - Zlen p) with (pad r - (1 + Zlen p)) by lia. done.
Qed.

Lemma data_run p r k :
  streaming -> tar r = TAR_DATA -> p <> [] -> Zlen p <= pending r ->
  same (tarBytes r k p)
    (let '(k1, took) := if inFile r then call1 (onData cb) k p else (k, true) in
     if negb took then (r, k1, TARGZ_ERR_SINK)
     else
       let r1 := set_pending r (pending r - Zlen p) in
       if pending r1 =? 0 then endBody cb r1 k1 else (r1, k1, TARGZ_OK)).
Proof.
  intros Hst. revert r k. induction p as [|c p IH]; intros r k Ht Hne Hl; [done|].
  rewrite Zlen_cons in *. pose proof (Zlen_nonneg p). cbn [tarBytes]. unfold tarByte. rewrite Ht.
  destruct (decide (p = [])) as [->|Hp].
  - change (1 + Zlen []) with 1. cbn [tarBytes].
    destruct (if inFile r then _ else _) as [k1 [|]]; cbn [negb]; [|done].
    destruct (pending _ =? 0); [|done].
    destruct (endBody cb _ _) as [[r' k'] e']. by destruct (bool_decide_reflect (e' = TARGZ_OK)) as [->|].
  - assert (0 < Zlen p) by (destruct p; [done|]; rewrite Zlen_cons; zlia).
    assert ((if inFile r then call1 (onData cb) k (c :: p) else (k, true)) =
            let '(k1, took) := if inFile r then call1 (onData cb) k [c] else (k, true) in
            if took : bool then (if inFile r then call1 (onData cb) k1 p else (k1, true)) else (k1, false)) as ->.
    { destruct (inFile r); [|done]. unfold call1. destruct (onData cb) as [f|] eqn:Ef; [|done].
      by apply (Hst f k [c] p Ef). }
    destruct (if inFile r then call1 (onData cb) k [c] else _) as [k1 [|]]; cbn [negb]; [|done].
    cbn [pending set_pending]. rewrite (proj2 (Z.eqb_neq (pending r - 1) 0)) by lia.
    rewrite bool_decide_true by done.
    specialize (IH (set_pending r (pending r - 1)) k1 Ht Hp). cbn [pending set_pending inFile] in IH.
    etransitivity; [apply IH; lia|].
    destruct (if inFile r then call1 (onData cb) k1 p else _) as [k2 [|]]; cbn [negb]; [|done].
    replace (pending r - 1 - Zlen p) with (pending r - (1 + Zlen p)) by lia. done.
Qed.

Lemma end_run p r k : tar r = TAR_END -> tarBytes r k p = (r, k, TARGZ_OK).
Proof.
  intros Ht. induction p as [|c p IH]; [done|]. cbn [tarBytes]. unfold tarByte. by rewrite Ht.
Qed.

Lemma set_pending_inv r n : tar_inv r -> 0 < n -> tar_inv (set_pending r n).
Proof. intros [] Hn. by split. Qed.

Lemma set_pad_inv r n : tar_inv r -> tar r = TAR_PAD -> 0 <= n -> tar_inv (set_pad r n).
Proof.
  intros [I1 I2 I3 I4 I5] Ht Hn. assert (hdr r = []) as Hh by (apply I2; congruence).
  split; cbn [tar hdr pending pad inFile set_pad]; rewrite ?Hh; try done.
  - by destruct (n =? 0); rewrite ?Ht.
  - split; [done|]. destruct (Z.eqb_spec n 0); [done|]. lia.
  - intros E. apply I5 in E. congruence.
Qed.

Lemma split_z_spec n (p now rest : bytes) :
  0 <= n <= Zlen p -> split_z n p = (now, rest) -> p = now ++ rest /\ Zlen now = n.
Proof.
  intros Hn [= <- <-]. split; [by rewrite take_drop|]. rewrite Zlen_take. lia.
Qed.

Lemma Zlen_pos_ne (p : bytes) : 0 < Zlen p -> p <> [].
Proof. by intros ? ->. Qed.

(** The loop, with enough fuel, is the byte-wise parser. *)
Lemma tarConsumeLoop_bytes fuel r k p :
  streaming -> tar_inv r -> (length p <= fuel)%nat ->
  exists x, tarConsumeLoop cb fuel r k p = Some x /\ same x (tarBytes r k p) /\
    (x.2 = TARGZ_OK -> tar_inv x.1.1).
Proof.
  intros Hst. revert r k p. induction fuel as [|f IH]; intros r k p Hinv Hf.
  { destruct p; [|cbn in Hf; lia]. exists (r, k, TARGZ_OK). done. }
  cbn [tarConsumeLoop]. destruct (Z.eqb_spec (Zlen p) 0) as [Hz|Hz].
  { apply Zlen_zero in Hz as ->. exists (r, k, TARGZ_OK). done. }
  destruct (bool_decide_reflect (tar r = TAR_END)) as [He|He]; cbn [orb].
  { exists (r, k, TARGZ_OK). by rewrite end_run. }
  pose proof (Zlen_nonneg p) as Hp0. pose proof Hinv as [I1 I2 I3 [I4 I4'] I5].
  assert (forall (a b : bytes), p = a ++ b -> 0 < Zlen a -> (length b <= f)%nat) as Hlen.
  { intros a b -> Ha. rewrite length_app in Hf. unfold Zlen in Ha. lia. }
  assert (forall now rest r1 k1 e1, p = now ++ rest -> 0 < Zlen now ->
    same (r1, k1, e1) (tarBytes r k now) -> (e1 = TARGZ_OK -> tar_inv r1) ->
    exists x, (if bool_decide (e1 = TARGZ_OK) then tarConsumeLoop cb f r1 k1 rest
               else Some (r1, k1, e1)) = Some x /\ same x (tarBytes r k p) /\
      (x.2 = TARGZ_OK -> tar_inv x.1.1)) as Hgo.
  { intros now rest r1 k1 e1 Ep Hn Hs Hi.
    rewrite Ep, tarBytes_app. destruct (bool_decide_reflect (e1 = TARGZ_OK)) as [->|Hne].
    - destruct (IH r1 k1 rest (Hi eq_refl) (Hlen _ _ Ep Hn)) as (x & -> & Hx & Hix).
      exists x. split; [done|]. split; [|done].
      transitivity (tar_then (r1, k1, TARGZ_OK) (fun r k => tarBytes r k rest)); [done|].
      by apply same_then.
    - eexists. split; [done|]. split; [|done].
      transitivity (tar_then (r1, k1, e1) (fun r k => tarBytes r k rest)).
      + cbn [tar_then]. by rewrite bool_decide_false.
      + by apply same_then. }
  destruct (tar r) eqn:Ht; [| | |done].
  - pose proof (Zlen_nonneg (hdr r)). unfold TAR_BLOCK in *.
    destruct (split_z _ p) as [now rest] eqn:Es. apply split_z_spec in Es as [Ep Hn]; [|lia].
    destruct (Z.ltb_spec (Zlen (hdr r ++ now)) 512) as [Hlt|Hge]; rewrite Zlen_app in *.
    + assert (rest = []) as -> by (apply Zlen_zero; rewrite Ep, Zlen_app in *; zlia).
      rewrite app_nil_r in Ep. subst now. eexists. split; [done|].
      rewrite hdr_run by (done || unfold TAR_BLOCK; lia). split; [done|]. intros _.
      split; cbn [fst snd tar hdr pending pad inFile set_hdr]; rewrite ?Ht; try done.
      rewrite Zlen_app. unfold TAR_BLOCK. lia.
    + assert (0 < Zlen now) by lia.
      destruct (tarHeader cb (set_hdr r []) k (hdr r ++ now)) as [[r1 k1] e1] eqn:E1.
      apply (Hgo now rest); [done|done| |].
      * rewrite hdr_full; [by rewrite E1|done|by apply Zlen_pos_ne|unfold TAR_BLOCK; lia].
      * intros ->. eapply (tarHeader_inv (set_hdr r []) k); [|done|done|exact E1].
        split; cbn [tar hdr pending pad inFile set_hdr]; rewrite ?Ht; done.
  - specialize (I3 eq_refl). destruct (split_z _ p) as [now rest] eqn:Es.
    apply split_z_spec in Es as [Ep Hn]; [|lia]. assert (0 < Zlen now) by lia.
    pose proof (data_run now r k Hst Ht (Zlen_pos_ne _ ltac:(done)) ltac:(lia)) as Hd.
    destruct (if inFile r then _ else _) as [k1 took]. destruct took; cbn [negb] in *.
    + cbn [pending set_pending] in *. destruct (Z.eqb_spec (pending r - Zlen now) 0) as [Hz0|Hz0].
      * destruct (endBody cb _ k1) as [[r2 k2] e2] eqn:E2. apply (Hgo now rest); [done|done|by symmetry|].
        intros ->. eapply (endBody_inv (set_pending r (pending r - Zlen now)) k1); [| |exact E2]; [|done].
        cbn. apply I2. done.
      * specialize (Hgo now rest (set_pending r (pending r - Zlen now)) k1 TARGZ_OK Ep ltac:(done)
          ltac:(by symmetry)). rewrite bool_decide_true in Hgo by done. apply Hgo.
        intros _. apply set_pending_inv; [done|lia].
    + specialize (Hgo now rest r k1 TARGZ_ERR_SINK Ep ltac:(done) ltac:(by symmetry) ltac:(done)).
      by rewrite bool_decide_false in Hgo.
  - specialize (I4' eq_refl). destruct (split_z _ p) as [now rest] eqn:Es.
    apply split_z_spec in Es as [Ep Hn]; [|lia]. assert (0 < Zlen now) by lia.
    specialize (Hgo now rest (set_pad r (pad r - Zlen now)) k TARGZ_OK Ep ltac:(done)).
    rewrite bool_decide_true in Hgo by done. apply Hgo.
    + by rewrite pad_run by (done || lia || by apply Zlen_pos_ne).
    + intros _. apply set_pad_inv; (done || lia).
Qed.

Lemma tarConsume_bytes r k p :
  streaming -> tar_inv r ->
  exists x, tarConsume cb r k p = Some x /\ same x (tarBytes r k p) /\
    (x.2 = TARGZ_OK -> tar_inv x.1.1).
Proof. intros. by apply tarConsumeLoop_bytes. Qed.

End Tar.

(** ** The cut of the stream does not matter *)

Section Chunks.
Context {K : Type} (cb : reader_cb K).

(** The calls of [tarConsume] for a sequence of inflated runs. *)
Fixpoint consumeAll (r : tar_st) (k : K) (runs : list bytes) : option (tar_st * K * targz_err) :=
  match runs with
  | [] => Some (r, k, TARGZ_OK)
  | p :: rest =>
      '(r, k, e) ← tarConsume cb r k p;
      if bool_decide (e = TARGZ_OK) then consumeAll r k rest else Some (r, k, e)
  end.

Lemma consumeAll_bytes r k runs :
  streaming cb -> tar_inv r -> exists x, consumeAll r k runs = Some x /\
    same x (tarBytes cb r k (concat runs)) /\ (x.2 = TARGZ_OK -> tar_inv x.1.1).
Proof.
  intros Hst. revert r k. induction runs as [|p runs IH]; intros r k Hinv.
  { exists (r, k, TARGZ_OK). done. }
  cbn [consumeAll concat]. destruct (tarConsume_bytes cb r k p Hst Hinv) as ([[r1 k1] e1] & -> & Hs & Hi).
  rewrite tarBytes_app. cbn [mbind option_bind].
  destruct (bool_decide_reflect (e1 = TARGZ_OK)) as [->|Hne].
  - destruct (IH r1 k1 (Hi eq_refl)) as (x & -> & Hx & Hix). exists x. split; [done|]. split; [|done].
    transitivity (tar_then (r1, k1, TARGZ_OK) (fun r k => tarBytes cb r k (concat runs))); [done|].
    by apply same_then.
  - eexists. split; [done|]. split; [|done].
    transitivity (tar_then (r1, k1, e1) (fun r k => tarBytes cb r k (concat runs))).
    + cbn [tar_then]. by rewrite bool_decide_false.
    + by apply same_then.
Qed.

(** The tar parser returns for any input and does not depend on how the stream
    is cut into runs: feeding [runs] one by one gives the verdict, the callback
    context, the tally and (when no error stopped it) the whole parser state that
    feeding their concatenation at once gives, for callbacks whose [onData] does not
    depend on the cut either. *)
Theorem tarConsume_any_cut r k runs :
  streaming cb -> tar_inv r ->
  exists x y, consumeAll r k runs = Some x /\ tarConsume cb r k (concat runs) = Some y /\ same x y.
Proof.
  intros Hst Hinv. destruct (consumeAll_bytes r k runs Hst Hinv) as (x & Ex & Hx & _).
  destruct (tarConsume_bytes cb r k (concat runs) Hst Hinv) as (y & Ey & Hy & _).
  exists x, y. split; [done|]. split; [done|]. etransitivity; [exact Hx|by symmetry].
Qed.

(** ** Only safe names reach the callbacks *)

Section Safe.
Variable P : K -> Prop.

(** The callbacks keep [P] when they are given safe names. *)
Record keeps : Prop := {
  keeps_dir : forall f k nm, onDir cb = Some f -> P k -> safe_name nm -> P (f k nm).1;
  keeps_file : forall f k nm sz, onFile cb = Some f -> P k -> safe_name nm -> P (f k nm sz).1;
  keeps_data : forall f k d, onData cb = Some f -> P k -> P (f k d).1;
  keeps_end : forall f k, onFileEnd cb = Some f -> P k -> P (f k).1
}.

Hypothesis Hkeeps : keeps.

Lemma endBody_keeps r k : P k -> P (endBody cb r k).1.2.
Proof.
  intros Hk. unfold endBody.
  assert (P (if inFile r then call0 (onFileEnd cb) k else (k, true)).1) as H.
  { destruct (inFile r); [|done]. unfold call0. destruct (onFileEnd cb) eqn:E; [|done].
    by apply (keeps_end Hkeeps). }
  destruct (if inFile r then _ else _) as [k1 [|]]; done.
Qed.

Lemma tarHeader_keeps r k b : P k -> P (tarHeader cb r k b).1.2.
Proof.
  intros Hk. unfold tarHeader. destruct (forallb _ b); [done|].
  destruct (negb (_ =? _)); [done|]. destruct (264 <=? _); [done|].
  destruct (stripSlashes _ _) as [nm isDir] eqn:Es. destruct (_ && _ && _); [done|].
  destruct (safeEntryName nm) eqn:Esafe; [|done]. cbn [negb].
  apply stripSlashes_spec in Es as [Hnt _]. apply safe_safe_name in Esafe; [|done].
  set (x := if isDir then _ else _). assert (P x.1) as Hx.
  { unfold x, call1, call2. destruct isDir.
    - destruct (onDir cb) eqn:E; [|done]. by apply (keeps_dir Hkeeps).
    - destruct (onFile cb) eqn:E; [|done]. by apply (keeps_file Hkeeps). }
  destruct x as [k1 [|]]; cbn [negb]; [|done]. destruct (_ =? 0); [by apply endBody_keeps|done].
Qed.

Lemma tarConsumeLoop_keeps fuel r k p r' k' e' :
  P k -> tarConsumeLoop cb fuel r k p = Some (r', k', e') -> P k'.
Proof.
  revert r k p. induction fuel as [|f IH]; intros r k p Hk; cbn [tarConsumeLoop];
    (destruct (_ || _); [by intros [= <- <- <-]|]); [done|].
  assert (forall r1 k1 e1 rest, P k1 -> (if bool_decide (e1 = TARGZ_OK) then tarConsumeLoop cb f r1 k1 rest
      else Some (r1, k1, e1)) = Some (r', k', e') -> P k') as Hgo.
  { intros r1 k1 e1 rest H1. case_bool_decide; [by apply IH|]. by intros [= <- <- <-]. }
  destruct (tar r); destruct (split_z _ p) as [now rest].
  - destruct (_ <? _); [by intros [= <- <- <-]|].
    pose proof (tarHeader_keeps (set_hdr r []) k (hdr r ++ now) Hk) as H1.
    destruct (tarHeader _ _ _ _) as [[r1 k1] e1]. by apply Hgo.
  - assert (P (if inFile r then call1 (onData cb) k now else (k, true)).1) as Hx.
    { destruct (inFile r); [|done]. unfold call1. destruct (onData cb) eqn:E; [|done].
      by apply (keeps_data Hkeeps). }
    destruct (if inFile r then _ else _) as [k1 [|]]; cbn [negb fst] in *; [|by intros [= <- <- <-]].
    destruct (_ =? 0); [|by apply IH].
    pose proof (endBody_keeps (set_pending r (pending r - Zlen now)) k1 Hx) as H1.
    destruct (endBody _ _ _) as [[r2 k2] e2]. by apply Hgo.
  - by apply IH.
  - by apply IH.
Qed.
End Safe.
End Chunks.

(** ** Archives: what the writer lays out and the parser delivers *)

Inductive entry := EDir (nm : bytes) (mt : Z) | EFile (nm body : bytes) (mt : Z).

(** The header block of an entry, when its name fits. *)
Definition entry_header (e : entry) : option bytes :=
  match e with
  | EDir nm mt =>
      (fun h => ustar_bytes (sealHeader h)) <$>
        (if 256 <=? Zlen (nm ++ [chr "/"]) then None
         else setEntryName (fillHeader (chr "5") 0 mt) (nm ++ [chr "/"]))
  | EFile nm body mt =>
      (fun h => ustar_bytes (sealHeader h)) <$> setEntryName (fillHeader (chr "0") (Zlen body) mt) nm
  end.

Definition entry_body (e : entry) : bytes :=
  match e with EDir _ _ => [] | EFile _ body _ => body end.

(** Header, body and padding to a block; an entry whose name does not fit is absent. *)
Definition entry_bytes (e : entry) : bytes :=
  match entry_header e with
  | Some h => h ++ entry_body e ++ zeros (Z.to_nat (Writer.tar_pad (Zlen (entry_body e))))
  | None => []
  end.

Definition archive (es : list entry) : bytes := concat (map entry_bytes es) ++ zeros 1024.

Definition entry_name (e : entry) : bytes := match e with EDir nm _ => nm | EFile nm _ _ => nm end.

(** An entry that can be written and read back. *)
Record entry_ok (e : entry) : Prop := {
  eo_safe : safe_name (entry_name e);
  eo_bytes : bytes_ok (entry_name e);
  eo_nonul : 0 ∉ entry_name e;
  eo_fits : is_Some (entry_header e);
  eo_size : Zlen (entry_body e) < 2 ^ 32
}.

Section Archive.
Context {K : Type} (cb : reader_cb K).

(** What an entry means to the callbacks. *)
Definition deliver (e : entry) (k : K) : K * bool :=
  match e with
  | EDir nm _ => call1 (onDir cb) k nm
  | EFile nm body _ =>
      let '(k, took) := call2 (onFile cb) k nm (Zlen body) in
      if negb took then (k, false)
      else
        let '(k, took) := if Zlen body =? 0 then (k, true) else call1 (onData cb) k body in
        if negb took then (k, false) else call0 (onFileEnd cb) k
  end.

Fixpoint deliverAll (es : list entry) (k : K) : K * bool :=
  match es with
  | [] => (k, true)
  | e :: rest =>
      let '(k, took) := deliver e k in if took : bool then deliverAll rest k else (k, false)
  end.

(** Between entries: a header is expected and none of it has come. *)
Record at_header (r : tar_st) (n : Z) (b : Z) : Prop := {
  ah_tar : tar r = TAR_HDR; ah_hdr : hdr r = []; ah_file : inFile r = false;
  ah_zero : zeroBlocks r = 0; ah_pad : 0 <= pad r; ah_entries : entries r = n; ah_bytes : nbytes r = b
}.

Lemma at_header_init : at_header tar_init 0 0.
Proof. by split. Qed.

Lemma safe_head nm : safe_name nm -> head nm <> Some (chr "/").
Proof.
  intros (Hne & _ & _ & He) Hh. destruct nm as [|c nm]; [done|]. injection Hh as ->.
  apply He. cbn [components]. rewrite Z.eqb_refl. apply list_elem_of_In. by left.
Qed.

Lemma safe_no_trailing nm : safe_name nm -> no_trailing nm.
Proof.
  intros (Hne & _ & _ & He) Hl. destruct nm as [|c nm _] using rev_ind; [done|].
  rewrite last_snoc in Hl. injection Hl as ->. destruct (components_snoc nm (chr "/")) as (xs & x & _ & E).
  rewrite Z.eqb_refl in E. apply He. rewrite E. apply list_elem_of_In. apply in_or_app. right. right. by left.
Qed.

(** The header block of an entry, parsed. *)
Lemma tarHeader_entry r k e b n nb k1 :
  entry_ok e -> entry_header e = Some b -> at_header r n nb ->
  (match e with
   | EDir nm _ => call1 (onDir cb) k nm
   | EFile nm body _ => call2 (onFile cb) k nm (Zlen body)
   end) = (k1, true) ->
  Zlen b = 512 /\
  tarHeader cb r k b =
    let sz := Zlen (entry_body e) in
    let isf := match e with EDir _ _ => false | EFile _ _ _ => true end in
    let r1 := {| tar := if sz =? 0 then TAR_HDR else TAR_DATA; hdr := []; pending := sz;
                 pad := Writer.tar_pad sz; zeroBlocks := 0; entries := wrap32 (n + 1);
                 nbytes := if isf then wrap64 (nb + sz) else nb; inFile := isf |} in
    if sz =? 0 then endBody cb r1 k1 else (r1, k1, TARGZ_OK).
Proof.
  intros [Hs Hb H0 Hfit Hsz] Eh [At Ah Af Az Ap Ae An] Hcall.
  pose proof (safe_head _ Hs) as Hhd. pose proof (safe_no_trailing _ Hs) as Hnt.
  pose proof (Zlen_nonneg (entry_body e)).
  pose proof (proj2 (safe_safe_name _ Hnt) Hs) as Hsafe. pose proof Hs as (Hne & Hlen & _).
  destruct e as [nm mt|nm body mt]; cbn [entry_header entry_name entry_body] in *.
  - apply fmap_Some in Eh as (h & Eh & ->). destruct (256 <=? _) eqn:E256; [done|].
    destruct (written_header (chr "5") 0 mt (nm ++ [chr "/"]) h) as (Hl & _ & Hz & Hck & Hp & Hs' & Ht);
      [done|lia|..]; [| | |done|].
    { rewrite not_elem_of_app. split; [done|]. by apply not_elem_of_cons; split; [|apply not_elem_of_nil]. }
    { apply bytes_ok_app. split; [done|]. by repeat constructor. }
    { by destruct nm. }
    split; [done|]. unfold tarHeader. rewrite Hz, Hck, Z.eqb_refl, Hp. cbn [negb].
    rewrite (proj2 (Z.leb_gt 264 _)) by (rewrite Zlen_app, Zlen_cons, Zlen_nil; lia).
    rewrite strip_one by done. rewrite Hs'. cbn [negb andb]. rewrite Hsafe. cbn [negb].
    rewrite Hcall. cbn [negb tar hdr pending pad inFile entries nbytes]. rewrite At, Ah, Af, Ae, An.
    reflexivity.
  - apply fmap_Some in Eh as (h & Eh & ->).
    destruct (written_header (chr "0") (Zlen body) mt nm h) as (Hl & _ & Hz & Hck & Hp & Hs' & Ht);
      [done|lia|done|done|done|done|].
    split; [done|]. unfold tarHeader. rewrite Hz, Hck, Z.eqb_refl, Hp. cbn [negb].
    rewrite (proj2 (Z.leb_gt 264 _)) by lia.
    rewrite strip_none by done. rewrite Ht, Hs'.
    change (chr "0" =? chr "5") with false. rewrite Z.eqb_refl. cbn [negb andb]. rewrite Hsafe. cbn [negb].
    assert (wrap32 (Zlen body) = Zlen body) as -> by (unfold wrap32; apply Z.mod_small; lia).
    rewrite Hcall. cbn [negb tar hdr pending pad inFile entries nbytes]. rewrite At, Ah, Ae, An.
    done.
Qed.

Lemma same_ok (x : tar_st * K * targz_err) r k : same x (r, k, TARGZ_OK) -> x = (r, k, TARGZ_OK).
Proof. destruct x as [[r' k'] e']. intros (H1 & H2 & _ & _ & H3). cbn in *. subst. by rewrite H3. Qed.

Lemma then_ok (x : tar_st * K * targz_err) r k f :
  x = (r, k, TARGZ_OK) -> tar_then x f = f r k.
Proof. intros ->. cbn [tar_then]. by rewrite bool_decide_true. Qed.

Lemma pad_zeros r k n nb :
  tar r = (if pad r =? 0 then TAR_HDR else TAR_PAD) -> hdr r = [] -> inFile r = false ->
  zeroBlocks r = 0 -> 0 <= pad r -> entries r = n -> nbytes r = nb ->
  exists r', tarBytes cb r k (zeros (Z.to_nat (pad r))) = (r', k, TARGZ_OK) /\ at_header r' n nb.
Proof.
  intros Ht Hh Hf Hz Hp <- <-. destruct (Z.eqb_spec (pad r) 0) as [E|E].
  - rewrite E. exists r. split; [done|]. by split.
  - assert (Zlen (zeros (Z.to_nat (pad r))) = pad r) as Hl by (unfold zeros; zlia).
    eexists. rewrite pad_run; [split; [done|]|done|lia|by apply Zlen_pos_ne; lia].
    rewrite Hl, Z.sub_diag. by split.
Qed.

Lemma header_block r k b :
  at_header r (entries r) (nbytes r) -> Zlen b = 512 ->
  tarBytes cb r k b = tarHeader cb r k b.
Proof.
  intros [At Ah _ _ _ _ _] Hb. rewrite hdr_full; [|done|by apply Zlen_pos_ne; lia|rewrite Ah; exact Hb].
  rewrite Ah. destruct r. cbn in *. by subst.
Qed.

Lemma entry_run r k e n nb k' :
  streaming cb -> entry_ok e -> at_header r n nb -> 0 <= nb < 2 ^ 64 ->
  deliver e k = (k', true) ->
  exists r', tarBytes cb r k (entry_bytes e) = (r', k', TARGZ_OK) /\
    at_header r' (wrap32 (n + 1)) (wrap64 (nb + Zlen (entry_body e))).
Proof.
  intros Hst He Hat Hnb Hd. destruct (eo_fits e He) as [b Eb].
  unfold entry_bytes. rewrite Eb, tarBytes_app.
  destruct e as [nm mt|nm body mt]; cbn [deliver] in Hd.
  - destruct (tarHeader_entry r k _ b n nb k' He Eb Hat Hd) as [Hl Hh].
    rewrite header_block by (done || destruct Hat; subst; done). rewrite Hh. cbn [entry_body].
    eexists. split; [reflexivity|]. split; try done. cbn.
    unfold wrap64. rewrite Z.add_0_r. by rewrite Z.mod_small.
  - destruct (call2 (onFile cb) k nm (Zlen body)) as [k1 [|]] eqn:E1; [|done]. cbn [negb] in Hd.
    destruct (tarHeader_entry r k _ b n nb k1 He Eb Hat E1) as [Hl Hh].
    rewrite header_block by (done || destruct Hat; subst; done). rewrite Hh. cbn [entry_body].
    cbv zeta. pose proof (Zlen_nonneg body). pose proof (tar_pad_range (Zlen body)) as Hpr.
    destruct (Z.eqb_spec (Zlen body) 0) as [Ez|Ez].
    + apply Zlen_zero in Ez as ->. cbn [negb] in Hd. unfold endBody. cbn [inFile]. rewrite Hd.
      eexists. split; [reflexivity|]. by split.
    + destruct (call1 (onData cb) k1 body) as [k2 [|]] eqn:E2; [|done]. cbn [negb] in Hd.
      erewrite then_ok by reflexivity. rewrite tarBytes_app.
      match goal with |- context [tarBytes cb ?r1 k1 body] =>
        pose proof (data_run cb body r1 k1 Hst eq_refl (Zlen_pos_ne body ltac:(lia)) (Z.le_refl _)) as Hdr end.
      cbn [inFile pending set_pending] in Hdr. rewrite E2, Z.sub_diag in Hdr. cbn [negb Z.eqb] in Hdr.
      unfold endBody in Hdr. cbn [inFile set_pending] in Hdr. rewrite Hd in Hdr. cbn [negb] in Hdr.
      apply same_ok in Hdr. erewrite then_ok by exact Hdr.
      match goal with |- context [tarBytes cb ?r2 k' (zeros _)] =>
        apply (pad_zeros r2 k' (wrap32 (n + 1)) (wrap64 (nb + Zlen body))) end; try done.
      cbn [pad set_pending]. lia.
Qed.

(** The total size of the bodies. *)
Definition body_bytes (es : list entry) : Z := foldr (fun e s => Zlen (entry_body e) + s) 0 es.

Lemma entries_run es r k n nb k' :
  streaming cb -> Forall entry_ok es -> at_header r n nb -> 0 <= n < 2 ^ 32 -> 0 <= nb < 2 ^ 64 ->
  deliverAll es k = (k', true) ->
  exists r', tarBytes cb r k (concat (map entry_bytes es)) = (r', k', TARGZ_OK) /\
    at_header r' (wrap32 (n + Zlen es)) (wrap64 (nb + body_bytes es)).
Proof.
  intros Hst He. revert r k n nb. induction He as [|e es He _ IH]; intros r k n nb Hat Hn Hnb Hd.
  - injection Hd as ->. exists r. split; [done|]. change (body_bytes []) with 0. change (Zlen []) with 0.
    unfold wrap32, wrap64. rewrite !Z.add_0_r, !Z.mod_small by done. done.
  - cbn [deliverAll] in Hd. destruct (deliver e k) as [k1 [|]] eqn:E1; [|done].
    destruct (entry_run r k e n nb k1 Hst He Hat Hnb E1) as (r1 & Er & Hat1).
    cbn [map concat]. rewrite tarBytes_app. erewrite then_ok by exact Er.
    destruct (IH r1 k1 _ _ Hat1) as (r2 & Er2 & Hat2); [unfold wrap32; apply Z.mod_pos_bound; lia|
      unfold wrap64; apply Z.mod_pos_bound; lia|done|].
    exists r2. split; [done|]. cbn [body_bytes foldr]. fold (body_bytes es). rewrite Zlen_cons.
    revert Hat2. unfold wrap32, wrap64. rewrite !Zplus_mod_idemp_l, !Z.add_assoc. done.
Qed.

Lemma zero_block r k : tar r = TAR_HDR -> hdr r = [] ->
  tarBytes cb r k (zeros 512) =
  ({| tar := if 2 <=? zeroBlocks r + 1 then TAR_END else TAR_HDR; hdr := []; pending := pending r;
      pad := pad r; zeroBlocks := zeroBlocks r + 1; entries := entries r; nbytes := nbytes r;
      inFile := inFile r |}, k, TARGZ_OK).
Proof.
  intros Ht Hh. rewrite hdr_full; [|done|done|by rewrite Hh]. rewrite Hh. unfold tarHeader.
  change (forallb (fun c => c =? 0) ([] ++ zeros 512)) with true.
  cbn [set_hdr tar hdr pending pad zeroBlocks entries nbytes inFile]. by rewrite Ht.
Qed.

Lemma archive_run es k k' :
  streaming cb -> Forall entry_ok es -> deliverAll es k = (k', true) ->
  exists r', tarBytes cb tar_init k (archive es) = (r', k', TARGZ_OK) /\ tar r' = TAR_END /\
    hdr r' = [] /\ entries r' = wrap32 (Zlen es) /\ nbytes r' = wrap64 (body_bytes es).
Proof.
  intros Hst He Hd. destruct (entries_run es tar_init k 0 0 k' Hst He at_header_init
    ltac:(lia) ltac:(lia) Hd) as (r1 & Er & [A1 A2 A3 A4 A5 A6 A7]).
  unfold archive. rewrite tarBytes_app. erewrite then_ok by exact Er.
  change (zeros 1024) with (zeros 512 ++ zeros 512). rewrite tarBytes_app.
  erewrite then_ok by (apply zero_block; done).
  rewrite zero_block by (cbn; rewrite ?A4; done). eexists. split; [reflexivity|].
  cbn [tar hdr entries nbytes zeroBlocks]. rewrite A4, A6, A7. done.
Qed.

End Archive.
