(* ===== verification/TargzGz.v ===== *)
(** * targz: the gzip layer

    The member header, the withheld footer, and the round trip of a whole archive:
    what the writer sends to its sink, cut anyhow and fed to the reader, delivers
    the entries that were added. *)

From S2P Require Import Prelude CLib Targz TargzHeader TargzTar.
Import Header Reader.
Open Scope spangap_scope.

(** ** The member header, one byte at a time *)

Definition gz_done (g : gz_st) : bool :=
  bool_decide (gz g = GZ_DEFLATE) || bool_decide (gz g = GZ_FOOTER).

Definition gzByte (g : gz_st) (c : Z) : gz_st * targz_err :=
  let '(g', _, e) := gzStep g [c] in (g', e).

Fixpoint gzRun (g : gz_st) (p : bytes) : gz_st * bytes * targz_err :=
  if gz_done g then (g, p, TARGZ_OK)
  else
    match p with
    | [] => (g, [], TARGZ_OK)
    | c :: p' =>
        let '(g', e) := gzByte g c in
        if bool_decide (e = TARGZ_OK) then gzRun g' p' else (g', p', e)
    end.

(** The stages that count something have something left to count. *)
Definition gz_inv (g : gz_st) : Prop := gz g = GZ_EXTRA -> 0 < extraLeft g.

Lemma after_not_extra fl : afterFixed fl <> GZ_EXTRA /\ afterExtra fl <> GZ_EXTRA /\
  afterName fl <> GZ_EXTRA /\ afterComment fl <> GZ_EXTRA.
Proof. unfold afterFixed, afterExtra, afterName, afterComment. repeat case_match; done. Qed.

Lemma gzStep_inv g p g' p' e : bytes_ok (gzBuf g) -> bytes_ok p -> gz_inv g ->
  gzStep g p = (g', p', e) -> gz_inv g' /\ bytes_ok (gzBuf g').
Proof.
  intros Hb Hp Hi. assert (forall c, is_byte c -> bytes_ok (gzBuf (gz_push g c))) as Hpush.
  { intros c Hc. cbn. by apply Forall_insert. }
  pose proof after_not_extra as Ha. unfold gzStep. destruct p as [|c p]; [by intros [= <- <- <-]|].
  apply Forall_cons in Hp as [Hc _]. specialize (Hpush c Hc). unfold gz_inv in *.
  destruct (gz g) eqn:Eg.
  - destruct (_ <? GZ_HDR_LEN); [intros [= <- <- <-]; cbn; by rewrite Eg|].
    destruct (_ || _ || _); intros [= <- <- <-]; cbn; rewrite ?Eg; split; try done.
    intros E. by apply (Ha (nth 3 (gzBuf (gz_push g c)) 0)) in E.
  - destruct (_ <? 2); [intros [= <- <- <-]; cbn; by rewrite Eg|].
    intros [= <- <- <-]. split; [|done]. cbn [gz extraLeft]. set (n := Z.lor _ _).
    assert (0 <= n). { unfold n. apply Z.lor_nonneg. 
      assert (forall i, 0 <= nth i (gzBuf (gz_push g c)) 0) as Hn.
      { intros i. destruct (nth_in_or_default i (gzBuf (gz_push g c)) 0) as [Hin| ->]; [|lia].
        apply list_elem_of_In in Hin. unfold bytes_ok in Hpush. rewrite Forall_forall in Hpush. specialize (Hpush _ Hin). unfold is_byte in Hpush. lia. }
      split; [apply Hn|]. apply Z.shiftl_nonneg. apply Hn. }
    destruct (Z.eqb_spec n 0); [|lia]. intros E. by apply (Ha (gzFlags (gz_push g c))) in E.
  - intros [= <- <- <-]. split; [|done]. cbn [gz extraLeft]. specialize (Hi eq_refl).
    destruct (Z.eqb_spec (extraLeft g - Zlen (c :: p) `min` extraLeft g) 0); [|lia].
    intros E. by apply (Ha (gzFlags g)) in E.
  - intros [= <- <- <-]. destruct (c =? 0); cbn; rewrite ?Eg; split; try done.
    intros E. by apply (Ha (gzFlags g)) in E.
  - intros [= <- <- <-]. destruct (c =? 0); cbn; rewrite ?Eg; split; try done.
    intros E. by apply (Ha (gzFlags g)) in E.
  - intros [= <- <- <-]. destruct (_ <? 2); cbn; rewrite ?Eg; done.
  - intros [= <- <- <-]. by rewrite Eg.
  - intros [= <- <- <-]. by rewrite Eg.
Qed.

Lemma gzRun_cons g c p : gz_done g = false ->
  gzRun g (c :: p) = let '(g', e) := gzByte g c in
    if bool_decide (e = TARGZ_OK) then gzRun g' p else (g', p, e).
Proof. intros H. cbn [gzRun]. by rewrite H. Qed.

(** A turn of the loop on a run is as many single bytes. *)
Lemma gzStep_bytes g c p g' p' e :
  gz_inv g -> gz_done g = false -> gzStep g (c :: p) = (g', p', e) ->
  (length p' <= length p)%nat /\
  gzRun g (c :: p) = if bool_decide (e = TARGZ_OK) then gzRun g' p' else (g', p', e).
Proof.
  intros Hi Hd E. destruct (decide (gz g = GZ_EXTRA)) as [Ex|Hx].
  - specialize (Hi Ex). unfold gzStep in E. rewrite Ex in E. injection E as <- <- <-.
    rewrite (bool_decide_true (TARGZ_OK = TARGZ_OK)) by done. pose proof (Zlen_nonneg p).
    split; [rewrite length_drop; unfold Zlen; cbn [length]; lia|].
    clear Hd. revert g c Ex Hi. induction p as [|c' p IH]; intros g c Ex Hi;
      (rewrite gzRun_cons by (unfold gz_done; by rewrite Ex));
      unfold gzByte; unfold gzStep at 1; rewrite Ex.
    + rewrite Zlen_cons, Zlen_nil, Z.min_l by lia. reflexivity.
    + rewrite (Zlen_cons c []), Zlen_nil, Z.min_l by lia.
      rewrite (bool_decide_true (TARGZ_OK = TARGZ_OK)) by done. rewrite (Zlen_cons c).
      destruct (Z.eq_dec (extraLeft g) 1) as [E1|E1].
      * rewrite E1. rewrite (Z.min_r _ 1) by zlia. reflexivity.
      * rewrite (proj2 (Z.eqb_neq (extraLeft g - (1 + 0)) 0)) by lia.
        rewrite IH; [|zlia|done|cbn; lia]. cbn [extraLeft gzFlags gzBuf gzHave].
        set (m := Z.min (Zlen (c' :: p)) _).
        assert (Z.min (1 + Zlen (c' :: p)) (extraLeft g) = 1 + m) as -> by (unfold m; lia).
        assert (0 <= m) by (unfold m; zlia).
        replace (extraLeft g - (1 + 0) - m) with (extraLeft g - (1 + m)) by lia.
        replace (Z.to_nat (1 + m)) with (S (Z.to_nat m)) by lia. reflexivity.
  - assert (gzStep g (c :: p) = (fun x => (x.1, p, x.2)) (gzByte g c)) as Es.
    { unfold gzByte, gzStep. unfold gz_done in Hd. destruct (gz g) eqn:Eg; try done;
        repeat case_match; simplify_eq/=; try done. }
    rewrite E in Es. rewrite gzRun_cons by done. destruct (gzByte g c) as [g1 e1]. cbn in Es.
    injection Es as -> -> ->. done.
Qed.

Lemma gzHeaderLoop_run fuel g p :
  bytes_ok (gzBuf g) -> bytes_ok p -> gz_inv g -> (length p <= fuel)%nat ->
  gzHeaderLoop fuel g p = Some (gzRun g p).
Proof.
  revert g p. induction fuel as [|f IH]; intros g p Hb Hp Hi Hf.
  - destruct p; [|cbn in Hf; lia]. cbn. by destruct (gz_done g).
  - cbn [gzHeaderLoop]. destruct p as [|c p].
    { cbn [gzRun]. by destruct (gz_done g). }
    rewrite Zlen_cons, (proj2 (Z.eqb_neq _ _)) by zlia. cbn [orb].
    destruct (gz_done g) eqn:Ed; unfold gz_done in Ed.
    + cbn [gzRun]. unfold gz_done. rewrite Ed. apply orb_true_iff in Ed.
      destruct (bool_decide (gz g = GZ_DEFLATE)); [done|]. destruct Ed as [|E]; [done|]. by rewrite E.
    + apply orb_false_iff in Ed as Ed'. destruct Ed' as [-> ->].
      destruct (gzStep g (c :: p)) as [[g' p'] e] eqn:Es.
      destruct (gzStep_bytes g c p g' p' e Hi Ed Es) as [Hl ->].
      destruct (gzStep_inv g (c :: p) g' p' e Hb Hp Hi Es) as [Hi' Hb'].
      destruct (bool_decide_reflect (e = TARGZ_OK)) as [->|]; [|done]. apply IH; [done| |done|cbn in Hf; lia].
      assert (exists n, p' = drop n (c :: p)) as [n ->].
      { clear -Es. unfold gzStep in Es. destruct (gz g); repeat case_match; simplify_eq/=;
          (by exists 1%nat) || (by exists 0%nat) || (by eexists). }
      by apply Forall_drop.
Qed.

Lemma gzRun_app g a b :
  gzRun g (a ++ b) =
  let '(g1, rest, e) := gzRun g a in
  if bool_decide (e = TARGZ_OK) then
    if gz_done g1 then (g1, rest ++ b, TARGZ_OK) else gzRun g1 b
  else (g1, rest ++ b, e).
Proof.
  revert g. induction a as [|c a IH]; intros g.
  - cbn [app gzRun]. destruct (gz_done g) eqn:Ed; rewrite (bool_decide_true (TARGZ_OK = TARGZ_OK)) by done;
      rewrite Ed; [|done]. destruct b; cbn [gzRun]; by rewrite Ed.
  - cbn [app gzRun]. destruct (gz_done g) eqn:Ed.
    + by rewrite (bool_decide_true (TARGZ_OK = TARGZ_OK)), Ed by done.
    + destruct (gzByte g c) as [g' e]. destruct (bool_decide (e = TARGZ_OK)) eqn:Ee; [apply IH|].
      by rewrite Ee.
Qed.

Lemma gzRun_rest g p g1 rest :
  gzRun g p = (g1, rest, TARGZ_OK) -> gz_done g1 = false -> rest = [].
Proof.
  revert g. induction p as [|c p IH]; intros g E Hd; cbn [gzRun] in E.
  - by destruct (gz_done g); injection E as <- <-.
  - destruct (gz_done g) eqn:Ed; [injection E as <- <-; congruence|].
    destruct (gzByte g c) as [g' e]. case_match; [by eapply IH|]. injection E as <- <- ->. done.
Qed.

(** ** The optional fields of the header *)

Lemma gzRun_step g c p g' :
  gz_done g = false -> gzByte g c = (g', TARGZ_OK) -> gzRun g (c :: p) = gzRun g' p.
Proof. intros Hd E. by rewrite gzRun_cons, E by done. Qed.

(** A gzip member header (RFC 1952) with the flags [fl]; [meta] is MTIME, XFL, OS. *)
Definition gz_member (fl : Z) (meta extra nm cm hc : bytes) : bytes :=
  [0x1f; 0x8b; 8; fl] ++ meta ++
  (if negb (Z.land fl 0x04 =? 0) then wr16 (Zlen extra) ++ extra else []) ++
  (if negb (Z.land fl 0x08 =? 0) then nm ++ [0] else []) ++
  (if negb (Z.land fl 0x10 =? 0) then cm ++ [0] else []) ++
  (if negb (Z.land fl 0x02 =? 0) then hc else []).

Record member_ok (fl : Z) (meta extra nm cm hc : bytes) : Prop := {
  mo_fl : is_byte fl; mo_meta : Zlen meta = 6 /\ bytes_ok meta;
  mo_extra : Zlen extra < 2 ^ 16 /\ bytes_ok extra;
  mo_name : (0 ∉ nm) /\ bytes_ok nm; mo_comment : (0 ∉ cm) /\ bytes_ok cm;
  mo_hcrc : Zlen hc = 2 /\ bytes_ok hc
}.

Definition gz_mk (st : gz_stage) (buf : bytes) (fl ex : Z) : gz_st :=
  {| gz := st; gzBuf := buf; gzHave := 0; gzFlags := fl; extraLeft := ex |}.

Lemma run_name buf fl ex nm x : 0 ∉ nm ->
  gzRun (gz_mk GZ_FNAME buf fl ex) ((nm ++ [0]) ++ x) = gzRun (gz_mk (afterName fl) buf fl ex) x.
Proof.
  intros Hn. rewrite <- app_assoc. induction nm as [|c nm IH]; [cbn [app]; by rewrite gzRun_cons|].
  apply not_elem_of_cons in Hn as [Hc Hn]. cbn [app]. rewrite gzRun_cons by done.
  unfold gzByte, gzStep. cbn [gz gz_mk]. rewrite (proj2 (Z.eqb_neq c 0)) by done. by apply IH.
Qed.

Lemma run_comment buf fl ex cm x : 0 ∉ cm ->
  gzRun (gz_mk GZ_FCOMMENT buf fl ex) ((cm ++ [0]) ++ x) = gzRun (gz_mk (afterComment fl) buf fl ex) x.
Proof.
  intros Hn. rewrite <- app_assoc. induction cm as [|c cm IH]; [cbn [app]; by rewrite gzRun_cons|].
  apply not_elem_of_cons in Hn as [Hc Hn]. cbn [app]. rewrite gzRun_cons by done.
  unfold gzByte, gzStep. cbn [gz gz_mk]. rewrite (proj2 (Z.eqb_neq c 0)) by done. by apply IH.
Qed.

Lemma run_extra buf fl n extra x : Zlen extra = n -> 0 < n ->
  gzRun (gz_mk GZ_EXTRA buf fl n) (extra ++ x) = gzRun (gz_mk (afterExtra fl) buf fl 0) x.
Proof.
  revert n. induction extra as [|c extra IH]; intros n Hl Hn; [rewrite Zlen_nil in Hl; lia|].
  rewrite Zlen_cons in Hl. pose proof (Zlen_nonneg extra). cbn [app]. rewrite gzRun_cons by done.
  unfold gzByte, gzStep. cbn [gz gz_mk]. rewrite (Zlen_cons c []), Zlen_nil. cbn [extraLeft gzFlags gzBuf gzHave gz_mk].
  rewrite Z.min_l by lia. rewrite (bool_decide_true (TARGZ_OK = TARGZ_OK)) by done.
  destruct (Z.eqb_spec (n - (1 + 0)) 0) as [E|E].
  - assert (extra = []) as -> by (apply Zlen_zero; lia). cbn [app]. by rewrite E.
  - apply IH; lia.
Qed.

Lemma run_extra_len buf fl ex n x : (2 <= length buf)%nat -> 0 <= n < 2 ^ 16 -> exists buf',
  gzRun (gz_mk GZ_EXTRA_LEN buf fl ex) (wr16 n ++ x) =
  gzRun (gz_mk (if n =? 0 then afterExtra fl else GZ_EXTRA) buf' fl n) x.
Proof.
  intros Hb Hn. destruct buf as [|b0 [|b1 buf]]; [cbn in Hb; lia..|].
  unfold wr16. cbn [le_bytes app].
  set (x0 := n mod 256). set (x1 := (n / 256) mod 256). set (v := Z.lor x0 (Z.shiftl x1 8)).
  erewrite (gzRun_step _ x0 _ {| gz := GZ_EXTRA_LEN; gzBuf := x0 :: b1 :: buf; gzHave := 1;
    gzFlags := fl; extraLeft := ex |}) by reflexivity.
  erewrite (gzRun_step _ x1 _ (gz_mk (if v =? 0 then afterExtra fl else GZ_EXTRA)
    (x0 :: x1 :: buf) fl v)) by reflexivity.
  eexists. subst v x0 x1. assert (Z.lor (n mod 256) (Z.shiftl ((n / 256) mod 256) 8) = n) as ->.
  { rewrite Z.shiftl_mul_pow2 by lia. change (2 ^ 8) with 256.
    rewrite (Z.mod_small (n / 256)) by (split; [apply Z.div_pos; lia|apply Z.div_lt_upper_bound; lia]).
    rewrite <- Z.lxor_lor; [rewrite <- Z.add_nocarry_lxor|].
    1: rewrite Z.mul_comm, Z.add_comm; symmetry; apply Z.div_mod; lia.
    all: apply Z.bits_inj'; intros i Hi; rewrite Z.land_spec, Z.bits_0;
      change 256 with (2 ^ 8); destruct (Z.ltb_spec i 8);
      [rewrite Z.mul_pow2_bits_low by lia; apply andb_false_r|by rewrite Z.mod_pow2_bits_high by lia]. }
  reflexivity.
Qed.

Lemma run_member fl meta extra nm cm hc x : member_ok fl meta extra nm cm hc ->
  exists g, gzRun gz_init (gz_member fl meta extra nm cm hc ++ x) = (g, x, TARGZ_OK) /\ gz g = GZ_DEFLATE.
Proof.
  intros [_ [Hm _] [He _] [Hn _] [Hc _] [Hh _]]. unfold gz_member. rewrite <- !app_assoc.
  destruct meta as [|m0 [|m1 [|m2 [|m3 [|m4 [|m5 [|m6 meta]]]]]]]; try (exfalso; clear -Hm; zlia).
  destruct hc as [|h0 [|h1 [|h2 hc]]]; try (exfalso; clear -Hh; zlia).
  assert (forall buf ex, exists g,
    gzRun (gz_mk (afterComment fl) buf fl ex)
      ((if negb (Z.land fl 0x02 =? 0) then [h0; h1] else []) ++ x) = (g, x, TARGZ_OK) /\ gz g = GZ_DEFLATE) as H1.
  { intros buf ex. unfold afterComment. destruct (negb (Z.land fl 2 =? 0)).
    - cbn [app]. do 2 erewrite gzRun_step by reflexivity.
      destruct x; cbn; eauto.
    - destruct x; cbn; eauto. }
  assert (forall buf ex, exists g,
    gzRun (gz_mk (afterName fl) buf fl ex)
      ((if negb (Z.land fl 0x10 =? 0) then cm ++ [0] else []) ++
       (if negb (Z.land fl 0x02 =? 0) then [h0; h1] else []) ++ x) = (g, x, TARGZ_OK) /\ gz g = GZ_DEFLATE) as H2.
  { intros buf ex. unfold afterName. destruct (negb (Z.land fl 0x10 =? 0)); [|apply H1].
    rewrite run_comment by done. apply H1. }
  assert (forall buf ex, exists g,
    gzRun (gz_mk (afterExtra fl) buf fl ex)
      ((if negb (Z.land fl 0x08 =? 0) then nm ++ [0] else []) ++
       (if negb (Z.land fl 0x10 =? 0) then cm ++ [0] else []) ++
       (if negb (Z.land fl 0x02 =? 0) then [h0; h1] else []) ++ x) = (g, x, TARGZ_OK) /\ gz g = GZ_DEFLATE) as H3.
  { intros buf ex. unfold afterExtra. destruct (negb (Z.land fl 0x08 =? 0)); [|apply H2].
    rewrite run_name by done. apply H2. }
  set (tail := (if negb (Z.land fl 0x08 =? 0) then nm ++ [0] else []) ++ _) in *. clearbody tail.
  cbn [app]. do 9 (erewrite gzRun_step by reflexivity).
  erewrite (gzRun_step _ m5 _ (gz_mk (afterFixed fl) [0x1f; 0x8b; 8; fl; m0; m1; m2; m3; m4; m5] fl 0))
    by reflexivity.
  unfold afterFixed. destruct (negb (Z.land fl 0x04 =? 0)); [|apply H3].
  rewrite <- app_assoc. pose proof (Zlen_nonneg extra).
  destruct (run_extra_len [0x1f; 0x8b; 8; fl; m0; m1; m2; m3; m4; m5] fl 0 (Zlen extra) (extra ++ tail))
    as [buf' ->]; [cbn; lia|lia|].
  destruct (Z.eqb_spec (Zlen extra) 0) as [E|E].
  - apply Zlen_zero in E as ->. apply H3.
  - rewrite run_extra by lia. apply H3.
Qed.

Lemma gzRun_inv g p g' rest e : bytes_ok (gzBuf g) -> bytes_ok p -> gz_inv g ->
  gzRun g p = (g', rest, e) -> gz_inv g' /\ bytes_ok (gzBuf g').
Proof.
  intros Hb Hp. revert g Hb. induction Hp as [|c p Hc _ IH]; intros g Hb Hi; cbn [gzRun].
  - by destruct (gz_done g); intros [= <- <- <-].
  - destruct (gz_done g); [by intros [= <- <- <-]|]. unfold gzByte.
    destruct (gzStep g [c]) as [[g1 p1] e1] eqn:Es.
    destruct (gzStep_inv g [c] g1 p1 e1 Hb (Forall_cons_2 _ _ _ Hc (Forall_nil_2 _)) Hi Es) as [Hi1 Hb1].
    case_match; [by apply IH|]. by intros [= <- <- <-].
Qed.

Lemma gz_init_ok : gz_inv gz_init /\ bytes_ok (gzBuf gz_init).
Proof. split; [done|]. by apply Forall_replicate. Qed.

Lemma gzHeader_run g p : bytes_ok (gzBuf g) -> bytes_ok p -> gz_inv g ->
  gzHeader g p = Some (gzRun g p).
Proof. intros. by apply gzHeaderLoop_run. Qed.

Lemma member_bytes_ok fl meta extra nm cm hc :
  member_ok fl meta extra nm cm hc -> bytes_ok (gz_member fl meta extra nm cm hc).
Proof.
  intros [Hf [_ Hm] [_ He] [_ Hn] [_ Hc] [_ Hh]]. unfold gz_member, wr16. rewrite !bytes_ok_app.
  assert (bytes_ok [0]) by (by repeat constructor).
  assert (bytes_ok []) by constructor.
  split; [|repeat split; try done; case_match; rewrite ?bytes_ok_app; auto using le_bytes_ok].
  repeat (apply Forall_cons; split; [done|]). constructor.
Qed.

(** The reader skips the whole gzip member header, whatever optional fields it
    has (FEXTRA, FNAME, FCOMMENT, FHCRC) and however it is cut in two: the bytes left
    over are exactly those that follow it, and the deflate stage is reached. *)
Theorem gzHeader_skips_fields fl meta extra nm cm hc rest a b :
  member_ok fl meta extra nm cm hc -> bytes_ok rest ->
  gz_member fl meta extra nm cm hc ++ rest = a ++ b ->
  exists g1 rest1, gzHeader gz_init a = Some (g1, rest1, TARGZ_OK) /\
    ((gz g1 = GZ_DEFLATE /\ rest1 ++ b = rest) \/
     (rest1 = [] /\ exists g2, gzHeader g1 b = Some (g2, rest, TARGZ_OK) /\ gz g2 = GZ_DEFLATE)).
Proof.
  intros Hm Hr E. destruct gz_init_ok as [Hi Hb].
  assert (bytes_ok (a ++ b)) as Hab.
  { rewrite <- E. apply bytes_ok_app. split; [by apply member_bytes_ok|done]. }
  apply bytes_ok_app in Hab as [Ha Hbb].
  destruct (run_member fl meta extra nm cm hc rest Hm) as (g & Er & Hg).
  rewrite E, gzRun_app in Er. rewrite gzHeader_run by done.
  destruct (gzRun gz_init a) as [[g1 rest1] e1] eqn:E1.
  destruct (bool_decide_reflect (e1 = TARGZ_OK)) as [->|]; [|by injection Er as -> _ ->].
  exists g1, rest1. split; [done|]. destruct (gz_done g1) eqn:Ed.
  - left. injection Er as -> ->. done.
  - right. split; [by eapply gzRun_rest|]. destruct (gzRun_inv _ _ _ _ _ Hb Ha Hi E1) as [Hi1 Hb1].
    exists g. rewrite gzHeader_run by done. by rewrite Er.
Qed.

Lemma gzHeader_skips_fields_witness :
  exists g1 rest1, gzHeader gz_init (gz_member 0x1e (replicate 6 0) [9; 9] ($ "f") ($ "c") [1; 2])
    = Some (g1, rest1, TARGZ_OK) /\
    ((gz g1 = GZ_DEFLATE /\ rest1 ++ [3; 0] = [3; 0]) \/
     (rest1 = [] /\ exists g2, gzHeader g1 [3; 0] = Some (g2, [3; 0], TARGZ_OK) /\ gz g2 = GZ_DEFLATE)).
Proof.
  apply (gzHeader_skips_fields 0x1e (replicate 6 0) [9; 9] ($ "f") ($ "c") [1; 2] [3; 0]); [|by repeat constructor|done].
  assert (forall c, c <> 0 -> 0 ∉ [c]) as Hno by (intros c Hc Hin; apply list_elem_of_singleton in Hin; congruence).
  split; try (split; [done|]); try (by repeat constructor); split; try (by apply Hno); by repeat constructor.
Defined.
