(* ===== verification/TargzRoundtrip.v ===== *)
(** * targz: the round trip of an archive

    The laws of the deflate codec the code relies on, what the writer sends to its
    sink, and what the reader makes of it. *)

From S2P Require Import Prelude CLib Spanfs SpanfsProofs Targz TargzHeader TargzTar TargzGz.
Import Header.
Open Scope spangap_scope.

(** ** What the codec promises *)

Class CrcLaws `(CR : Crc) := {
  crc_nil : mz_crc32 0 [] = 0;
  crc_app : forall c a b, mz_crc32 c (a ++ b) = mz_crc32 (mz_crc32 c a) b;
  crc_range : forall a, bytes_ok a -> 0 <= mz_crc32 0 a < 2 ^ 32
}.

(** The streaming contract of tdefl: [d_in] and [d_out] are the bytes consumed and
    produced so far, [stream d raw] says that [d] is a complete deflate stream of
    [raw]. A live compressor consumes a prefix of what it is given, makes progress,
    and its output is bounded; after a FINISH that reports DONE its output is a
    complete stream of its input. *)
Class TdeflLaws {C} (TD : Tdefl C) (stream : bytes -> bytes -> Prop) := {
  d_live : C -> Prop;
  d_in : C -> bytes;
  d_out : C -> bytes;
  d_init : d_live tdefl_init /\ d_in tdefl_init = [] /\ d_out tdefl_init = [];
  d_step : forall c p cap fl c' st n out, d_live c -> 0 < cap ->
    tdefl_compress c p cap fl = (c', st, n, out) ->
    st <> TDEFL_STATUS_ERR /\ 0 <= n <= Zlen p /\ Zlen out <= cap /\
    d_in c' = d_in c ++ take (Z.to_nat n) p /\ d_out c' = d_out c ++ out /\
    (tdefl_bound c' (Zlen p - n) + length out <= tdefl_bound c (Zlen p))%nat /\
    match fl, st with
    | TDEFL_FINISH, TDEFL_STATUS_DONE => n = Zlen p /\ stream (d_out c') (d_in c')
    | TDEFL_FINISH, _ => d_live c' /\ (n <> 0 \/ out <> [])
    | TDEFL_NO_FLUSH, _ => d_live c' /\ (p <> [] -> n <> 0 \/ out <> [])
    end;
  d_bytes : forall d raw, stream d raw -> bytes_ok raw -> bytes_ok d
}.

(** The streaming contract of tinfl, fed a prefix of a complete stream: it does not
    fail, its output is a prefix of the original, it asks for more input only once it
    has consumed what it was given, and DONE means that all of the original is out.
    With no more input to come it does not ask for any. On any input while there is more to
    come, and to the end of a complete stream, the output is bounded by the input: in
    deflate (RFC 1951) a symbol takes at least a bit and stands for at most 258 bytes. *)
Class TinflLaws {I} (TI : Tinfl I) (stream : bytes -> bytes -> Prop) := {
  i_in : I -> bytes;
  i_out : I -> bytes;
  i_init : i_in tinfl_init = [] /\ i_out tinfl_init = [];
  i_step : forall i p cap more i' st n out, 0 < cap ->
    tinfl_decompress i p cap more = (i', st, n, out) ->
    0 <= n <= Zlen p /\ Zlen out <= cap /\
    i_in i' = i_in i ++ take (Z.to_nat n) p /\ i_out i' = i_out i ++ out /\
    (more = true -> tinfl_bound i' (Zlen p - n) + length out <= tinfl_bound i (Zlen p))%nat;
  i_good : forall i p cap (more : bool) i' st n out d raw, 0 < cap ->
    stream d raw -> i_in i ++ p `prefix_of` d -> (more = false -> i_in i ++ p = d) ->
    i_out i `prefix_of` raw ->
    tinfl_decompress i p cap more = (i', st, n, out) ->
    i_out i' `prefix_of` raw /\
    (tinfl_bound i' (Zlen p - n) + length out <= tinfl_bound i (Zlen p))%nat /\
    match st with
    | TINFL_STATUS_FAILED => False
    | TINFL_STATUS_DONE => i_out i' = raw
    | TINFL_STATUS_NEEDS_MORE_INPUT => more = true /\ n = Zlen p
    | TINFL_STATUS_HAS_MORE_OUTPUT => out <> []
    end
}.

Lemma le_bytes_mod n v : le_bytes n (v mod 256 ^ Z.of_nat n) = le_bytes n v.
Proof.
  revert v. induction n as [|n IH]; intros v; [done|]. cbn [le_bytes].
  rewrite Nat2Z.inj_succ, Z.pow_succ_r by lia.
  assert (0 < 256 ^ Z.of_nat n) by (apply Z.pow_pos_nonneg; lia).
  rewrite Z.rem_mul_r by lia. f_equal.
  - rewrite Z.mul_comm, Z.mod_add by lia. by rewrite Z.mod_mod by lia.
  - rewrite <- (IH (v / 256)). f_equal. rewrite Z.mul_comm, Z.div_add by lia.
    rewrite Z.div_small by (apply Z.mod_pos_bound; lia). lia.
Qed.

Lemma le_bytes_wrap v : le_bytes 4 (wrap32 v) = le_bytes 4 v.
Proof. apply (le_bytes_mod 4). Qed.

(** ** The writer *)

Import Writer.

Section Writing.
Context {C : Type} `{TD : Tdefl C} `{CR : Crc} {stream : bytes -> bytes -> Prop}
        `{!TdeflLaws TD stream} `{!CrcLaws CR}.

(** A sink that keeps everything. *)
Definition mem_sink (s p : bytes) : bytes * bool := (s ++ p, true).

Implicit Types (w : writer (C := C)) (s raw : bytes).

(** The writer after [raw] bytes of tar. *)
Record winv w s raw : Prop := {
  wi_ok : ok w = true; wi_live : d_live (comp w); wi_in : d_in (comp w) = raw;
  wi_out : s = GZ_HEADER ++ d_out (comp w);
  wi_crc : crc w = mz_crc32 0 raw; wi_len : rawLen w = wrap64 (Zlen raw)
}.

Lemma out_case s (out : bytes) :
  (if Zlen out =? 0 then (s, true) else mem_sink s out) = (s ++ out, true).
Proof.
  destruct (Z.eqb_spec (Zlen out) 0) as [E|]; [|done]. apply Zlen_zero in E as ->. by rewrite app_nil_r.
Qed.

Lemma drop_z_len n (p : bytes) : 0 <= n <= Zlen p -> Zlen (drop_z n p) = Zlen p - n.
Proof. intros. unfold drop_z. rewrite Zlen_drop. lia. Qed.

Lemma deflateLoop_all fuel p w s :
  d_live (comp w) -> s = GZ_HEADER ++ d_out (comp w) -> p <> [] ->
  (length p + tdefl_bound (comp w) (Zlen p) < fuel)%nat ->
  exists c', deflateLoop mem_sink fuel p TDEFL_NO_FLUSH (w, s) =
      Some (set_comp w c', GZ_HEADER ++ d_out c', true) /\
    d_live c' /\ d_in c' = d_in (comp w) ++ p.
Proof.
  revert p w s. induction fuel as [|f IH]; intros p w s Hl Hs Hp Hf; [lia|]. cbn [deflateLoop].
  destruct (tdefl_compress (comp w) p DEFLATE_OUT TDEFL_NO_FLUSH) as [[[c st] n] out] eqn:E.
  destruct (d_step _ _ _ _ _ _ _ _ Hl (eq_refl : 0 < DEFLATE_OUT) E) as (Hst & Hn & _ & Hin & Hout & Hb & Hm).
  assert (d_live c /\ (n <> 0 \/ out <> [])) as [Hl' Hpr].
  { destruct st; [done|..]; destruct Hm as [? Hm]; (split; [done|by apply Hm]). }
  rewrite out_case. cbn [negb].
  assert (Zlen (drop_z n p) = Zlen p - n) as Hd by (by apply drop_z_len).
  assert (exists c', (if Zlen (drop_z n p) =? 0 then Some (set_comp w c, s ++ out, true)
    else if (n =? 0) && (Zlen out =? 0) then Some (set_bad (set_comp w c), s ++ out, false)
    else deflateLoop mem_sink f (drop_z n p) TDEFL_NO_FLUSH (set_comp w c, s ++ out)) =
      Some (set_comp w c', GZ_HEADER ++ d_out c', true) /\
    d_live c' /\ d_in c' = d_in (comp w) ++ p) as (c' & Hgo & H1 & H2).
  { destruct (Z.eqb_spec (Zlen (drop_z n p)) 0) as [Hz|Hz].
    - exists c. rewrite Hs, Hout, app_assoc. split; [done|]. split; [done|]. rewrite Hin. f_equal.
      apply take_ge. unfold Zlen in *. lia.
    - destruct ((n =? 0) && (Zlen out =? 0)) eqn:Eno.
      { exfalso. b2p. destruct Hpr as [|Hne]; [done|]. apply Hne. by apply Zlen_zero. }
      destruct (IH (drop_z n p) (set_comp w c) (s ++ out)) as (c' & Ec & H1 & H2).
      + done.
      + cbn [comp set_comp]. by rewrite Hs, Hout, app_assoc.
      + intros E0. rewrite E0 in Hz. done.
      + cbn [comp set_comp]. rewrite Hd. assert (length (drop_z n p) = (length p - Z.to_nat n)%nat) as ->
          by (unfold drop_z; apply length_drop).
        assert (0 < Z.to_nat n + length out)%nat.
        { destruct Hpr as [|Hne]; [lia|]. destruct out; [done|cbn; lia]. }
        unfold Zlen in *. lia.
      + exists c'. split; [done|]. split; [done|]. cbn in H2. rewrite H2, Hin, <- app_assoc. f_equal.
        unfold drop_z. by rewrite take_drop. }
  exists c'. split; [|done]. destruct st; [done|exact Hgo|exact Hgo].
Qed.

Lemma writeRaw_ok data w s raw :
  winv w s raw -> exists w' s', writeRaw mem_sink data (w, s) = Some (w', s', true) /\
    winv w' s' (raw ++ data) /\ pending w' = pending w /\ pad w' = pad w.
Proof.
  intros [H1 H2 H3 H4 H5 H6]. unfold writeRaw. rewrite H1. cbn [negb].
  destruct (Z.eqb_spec (Zlen data) 0) as [E|E].
  { apply Zlen_zero in E as ->. rewrite app_nil_r. exists w, s. by repeat split. }
  unfold deflateRun. set (w1 := set_sum _ _ _).
  destruct (deflateLoop_all (S (length data + tdefl_bound (comp w1) (Zlen data))) data w1 s)
    as (c' & -> & Hl & Hin); [done|done|by intros ->|lia|].
  eexists _, _. split; [done|]. split; [|done]. split; cbn; try done.
  - by rewrite Hin, <- H3.
  - by rewrite H5, crc_app.
  - rewrite H6, Zlen_app. unfold wrap64. apply Zplus_mod_idemp_l.
Qed.

Lemma deflateLoop_finish fuel w s :
  d_live (comp w) -> s = GZ_HEADER ++ d_out (comp w) -> (tdefl_bound (comp w) 0 < fuel)%nat ->
  exists c', deflateLoop mem_sink fuel [] TDEFL_FINISH (w, s) =
      Some (set_comp w c', GZ_HEADER ++ d_out c', true) /\ stream (d_out c') (d_in (comp w)).
Proof.
  revert w s. induction fuel as [|f IH]; intros w s Hl Hs Hf; [lia|]. cbn [deflateLoop].
  destruct (tdefl_compress (comp w) [] DEFLATE_OUT TDEFL_FINISH) as [[[c st] n] out] eqn:E.
  destruct (d_step _ _ _ _ _ _ _ _ Hl (eq_refl : 0 < DEFLATE_OUT) E) as (Hst & Hn & _ & Hin & Hout & Hb & Hm).
  change (Zlen (@nil Z)) with 0 in *. assert (n = 0) as -> by lia.
  cbn in Hin. rewrite app_nil_r in Hin. rewrite out_case. cbn [negb].
  destruct st; [done| |].
  - destruct Hm as [Hl' [?|Hne]]; [done|].
    rewrite (proj2 (Z.eqb_neq (Zlen out) 0)) by (intros E0; apply Hne; by apply Zlen_zero).
    cbn [andb Z.eqb]. change (drop_z 0 []) with (@nil Z).
    destruct (IH (set_comp w c) (s ++ out)) as (c' & Ec & Hstr).
    + done.
    + cbn [comp set_comp]. by rewrite Hs, Hout, app_assoc.
    + cbn [comp set_comp]. assert (0 < length out)%nat by (destruct out; [done|cbn; lia]).
      change (0 - 0) with 0 in Hb. lia.
    + exists c'. split; [done|]. cbn in Hstr. by rewrite <- Hin.
  - destruct Hm as [_ Hstr]. exists c. rewrite Hs, Hout, app_assoc. split; [done|].
    rewrite <- Hin, <- Hout. done.
Qed.

Lemma andThen_true (a b : wop (C := C) (S := bytes)) st w s :
  a st = Some (w, s, true) -> andThen a b st = b (w, s).
Proof. intros E. unfold andThen. by rewrite E. Qed.

Lemma writeZerosLoop_ok fuel len w s raw :
  winv w s raw -> (len <= fuel)%nat -> exists w' s',
    writeZerosLoop mem_sink fuel len (w, s) = Some (w', s', true) /\
    winv w' s' (raw ++ zeros len) /\ pending w' = pending w /\ pad w' = pad w.
Proof.
  revert len w s raw. induction fuel as [|f IH]; intros len w s raw Hw Hl.
  { destruct len; [|lia]. exists w, s. cbn. rewrite app_nil_r. by split_and!. }
  destruct len as [|len]. { exists w, s. cbn. rewrite app_nil_r. by split_and!. }
  cbn [writeZerosLoop]. set (n := Nat.min (S len) 64). assert (0 < n <= S len)%nat by (unfold n; lia).
  destruct (writeRaw_ok (replicate n 0) w s raw Hw) as (w1 & s1 & E1 & Hw1 & Hp1 & Hd1).
  erewrite andThen_true by exact E1.
  destruct (IH (S len - n)%nat w1 s1 _ Hw1) as (w2 & s2 & E2 & Hw2 & Hp2 & Hd2); [lia|].
  exists w2, s2. split; [done|]. rewrite Hp2, Hd2. split; [|done].
  unfold zeros in *. rewrite <- app_assoc, <- replicate_add in Hw2.
  by replace (n + (S len - n))%nat with (S len) in Hw2 by lia.
Qed.

Lemma writeZeros_ok len w s raw : 0 <= len ->
  winv w s raw -> exists w' s', writeZeros mem_sink len (w, s) = Some (w', s', true) /\
    winv w' s' (raw ++ zeros (Z.to_nat len)) /\ pending w' = pending w /\ pad w' = pad w.
Proof. intros Hl Hw. by apply writeZerosLoop_ok. Qed.

Lemma winv_body w s raw a b : winv w s raw -> winv (set_body w a b) s raw.
Proof. intros []. by split. Qed.

(** The open entry is closed: the rest of its body and its padding are zeros. *)
Lemma finishEntry_ok w s raw :
  winv w s raw -> 0 <= pending w -> 0 <= pad w -> exists w' s',
    finishEntry mem_sink (w, s) = Some (w', s', true) /\
    winv w' s' (raw ++ zeros (Z.to_nat (pending w)) ++ zeros (Z.to_nat (pad w))) /\
    pending w' = 0 /\ pad w' = 0.
Proof.
  intros Hw Hp Hd. unfold finishEntry.
  assert (exists w1 s1, (if pending w =? 0 then wtrue (S := bytes)
      else andThen (writeZeros mem_sink (pending w)) clear_pending) (w, s) = Some (w1, s1, true) /\
    winv w1 s1 (raw ++ zeros (Z.to_nat (pending w))) /\ pending w1 = 0 /\ pad w1 = pad w)
    as (w1 & s1 & E1 & Hw1 & Hp1 & Hd1).
  { destruct (Z.eqb_spec (pending w) 0) as [E|E].
    - rewrite E. exists w, s. cbn. rewrite app_nil_r. by split_and!.
    - destruct (writeZeros_ok (pending w) w s raw Hp Hw) as (w1 & s1 & E1 & Hw1 & Hp1 & Hd1).
      erewrite andThen_true by exact E1. eexists _, _. split; [done|]. split; [by apply winv_body|done]. }
  erewrite andThen_true by exact E1. rewrite <- Hd1, app_assoc. rewrite <- Hd1 in Hd.
  destruct (Z.eqb_spec (pad w1) 0) as [E|E].
  - rewrite E. exists w1, s1. cbn. rewrite app_nil_r. by split_and!.
  - destruct (writeZeros_ok (pad w1) w1 s1 _ Hd Hw1) as (w2 & s2 & E2 & Hw2 & Hp2 & Hd2).
    erewrite andThen_true by exact E2. eexists _, _. split; [done|].
    split; [by apply winv_body|]. split; [|done]. cbn. congruence.
Qed.

(** ** A session: entries added, bodies in chunks of any size *)

Inductive wentry :=
| WDir (nm : bytes) (mt : Z)
| WFile (nm : bytes) (sz mt : Z) (chunks : list bytes).

(** The archived entry: the body is the chunks cut or zero-filled to the size. *)
Definition entry_of (e : wentry) : entry :=
  match e with
  | WDir nm mt => EDir nm mt
  | WFile nm sz mt chunks => EFile nm (resize (Z.to_nat sz) 0 (concat chunks)) mt
  end.

Fixpoint writeChunks (chunks : list bytes) : wop (C := C) (S := bytes) :=
  match chunks with
  | [] => wtrue
  | d :: rest => andThen (targzWriterData mem_sink d) (writeChunks rest)
  end.

Definition addEntry (e : wentry) : wop :=
  match e with
  | WDir nm mt => targzWriterAddDir mem_sink nm mt
  | WFile nm sz mt chunks => andThen (targzWriterAddFile mem_sink nm sz mt) (writeChunks chunks)
  end.

Fixpoint addEntries (es : list wentry) : wop :=
  match es with
  | [] => wtrue
  | e :: rest => andThen (addEntry e) (addEntries rest)
  end.

(** The tar stream so far, with the open entry as closing it would complete it. *)
Definition wopen w s (tarred : bytes) : Prop := exists raw,
  winv w s raw /\ 0 <= pending w /\ 0 <= pad w /\
  tarred = raw ++ zeros (Z.to_nat (pending w)) ++ zeros (Z.to_nat (pad w)).

Lemma wopen_finish w s t : wopen w s t -> exists w' s',
  finishEntry mem_sink (w, s) = Some (w', s', true) /\ winv w' s' t /\ pending w' = 0 /\ pad w' = 0.
Proof. intros (raw & Hw & Hp & Hd & ->). by apply finishEntry_ok. Qed.

Lemma winv_wopen w s t : winv w s t -> pending w = 0 -> pad w = 0 -> wopen w s t.
Proof.
  intros Hw Hp Hd. exists t. rewrite Hp, Hd. split; [done|]. split; [done|]. split; [done|].
  cbn. by rewrite !app_nil_r.
Qed.

Lemma resize_app p (d r : bytes) :
  take p d ++ resize (p - length (take p d)) 0 r = resize p 0 (d ++ r).
Proof.
  rewrite !resize_spec, take_app, app_assoc, length_take, length_app.
  f_equal; [f_equal|f_equal; lia]. destruct (decide (p <= length d)%nat).
  - by replace (p - p `min` length d)%nat with (p - length d)%nat by lia.
  - f_equal. lia.
Qed.

Lemma writeChunks_ok chunks w s raw :
  winv w s raw -> 0 <= pending w -> 0 <= pad w -> exists w' s',
    writeChunks chunks (w, s) = Some (w', s', true) /\
    wopen w' s' (raw ++ resize (Z.to_nat (pending w)) 0 (concat chunks) ++ zeros (Z.to_nat (pad w))).
Proof.
  revert w s raw. induction chunks as [|d rest IH]; intros w s raw Hw Hp Hd.
  { exists w, s. split; [done|]. exists raw. cbn [concat]. by rewrite resize_nil. }
  cbn [writeChunks concat]. rewrite <- resize_app.
  unfold targzWriterData, when_ok. unfold andThen at 1. rewrite (wi_ok _ _ _ Hw).
  set (d' := if pending w <? Zlen d then take (Z.to_nat (pending w)) d else d).
  assert (d' = take (Z.to_nat (pending w)) d) as Ed.
  { unfold d'. destruct (Z.ltb_spec (pending w) (Zlen d)); [done|]. symmetry. apply take_ge. unfold Zlen in *. lia. }
  clearbody d'. subst d'. set (d' := take (Z.to_nat (pending w)) d).
  assert (Zlen d' <= pending w) as Hle by (unfold d'; rewrite Zlen_take; lia).
  destruct (writeRaw_ok d' w s raw Hw) as (w1 & s1 & E1 & Hw1 & Hp1 & Hd1).
  erewrite andThen_true by exact E1. cbn [pending pad set_body]. rewrite Hp1, Hd1.
  set (w2 := set_body w1 (pending w - Zlen d') (pad w)).
  assert (winv w2 s1 (raw ++ d')) as Hw2 by (by apply winv_body).
  replace (Z.to_nat (pending w) - length d')%nat with (Z.to_nat (pending w - Zlen d'))
    by (unfold Zlen; lia).
  destruct ((_ =? 0) && _) eqn:Ez.
  - b2p. destruct (writeZeros_ok (pad w) w2 s1 _ Hd Hw2) as (w3 & s3 & E3 & Hw3 & Hp3 & Hd3).
    erewrite andThen_true by exact E3. cbn [clear_pad].
    destruct (IH (set_body w3 (pending w3) 0) s3 _ ltac:(by apply winv_body)) as (w4 & s4 & E4 & H4).
    + cbn [pending set_body]. rewrite Hp3. cbn. lia.
    + done.
    + exists w4, s4. split; [done|]. revert H4. cbn [pending pad set_body]. rewrite Hp3.
      cbn [pending set_body w2]. replace (pending w - Zlen d') with 0 by lia. cbn [Z.to_nat resize take app zeros replicate].
      rewrite resize_0. by rewrite !app_nil_r, <- !app_assoc.
  - destruct (IH w2 s1 _ Hw2) as (w4 & s4 & E4 & H4); [cbn; lia|done|].
    exists w4, s4. split; [done|]. revert H4. cbn [pending pad set_body w2]. by rewrite <- !app_assoc.
Qed.

Lemma when_ok_true (a : wop) w s : ok w = true -> when_ok (C := C) (S := bytes) a (w, s) = a (w, s).
Proof. intros E. unfold when_ok. by rewrite E. Qed.

Lemma addEntry_ok e w s t :
  (match e with WFile _ sz _ _ => 0 <= sz | WDir _ _ => True end) ->
  wopen w s t -> exists w' s', addEntry e (w, s) = Some (w', s', true) /\
    wopen w' s' (t ++ entry_bytes (entry_of e)).
Proof.
  intros Hsz Hw. pose proof Hw as (raw0 & Hw0 & _).
  destruct (wopen_finish w s t Hw) as (w1 & s1 & E1 & Hw1 & Hp1 & Hd1).
  destruct e as [nm mt|nm sz mt chunks]; cbn [addEntry entry_of].
  - unfold targzWriterAddDir. rewrite when_ok_true by apply Hw0. erewrite andThen_true by exact E1.
    unfold entry_bytes. cbn [entry_header entry_body]. 
    match goal with |- context [if ?b then None else ?x] => destruct (if b then None else x) as [h|] end; cbn [fmap option_fmap option_map].
    + destruct (writeRaw_ok (ustar_bytes (sealHeader h)) w1 s1 t Hw1) as (w2 & s2 & E2 & Hw2 & Hp2 & Hd2).
      exists w2, s2. split; [done|]. change (zeros (Z.to_nat (tar_pad (Zlen [])))) with (@nil Z).
      rewrite app_nil_r. apply winv_wopen; congruence.
    + exists w1, s1. split; [done|]. rewrite app_nil_r. by apply winv_wopen.
  - assert (Zlen (resize (Z.to_nat sz) 0 (concat chunks)) = sz) as Hl.
    { unfold Zlen. rewrite length_resize. lia. }
    unfold entry_bytes. cbn [entry_header entry_body]. rewrite Hl.
    unfold targzWriterAddFile. unfold andThen at 1. rewrite when_ok_true by apply Hw0.
    erewrite andThen_true by exact E1. destruct (setEntryName _ nm) as [h|]; cbn [fmap option_fmap option_map].
    + destruct (writeRaw_ok (ustar_bytes (sealHeader h)) w1 s1 t Hw1) as (w2 & s2 & E2 & Hw2 & Hp2 & Hd2).
      erewrite andThen_true by exact E2. cbn [set_entry mbind option_bind].
      destruct (writeChunks_ok chunks (set_body w2 sz (tar_pad sz)) s2 _ ltac:(by apply winv_body))
        as (w3 & s3 & E3 & H3); [done|apply tar_pad_range|].
      exists w3, s3. split; [done|]. revert H3. cbn [pending pad set_body]. by rewrite <- !app_assoc.
    + cbn [wtrue mbind option_bind].
      destruct (writeChunks_ok chunks w1 s1 t Hw1) as (w3 & s3 & E3 & H3); [lia|lia|].
      exists w3, s3. split; [done|]. revert H3. rewrite Hp1, Hd1. cbn. by rewrite resize_0.
Qed.

Definition wentry_ok (e : wentry) : Prop :=
  match e with WFile _ sz _ _ => 0 <= sz | WDir _ _ => True end.

Lemma addEntries_ok es w s t :
  Forall wentry_ok es -> wopen w s t -> exists w' s', addEntries es (w, s) = Some (w', s', true) /\
    wopen w' s' (t ++ concat (map (fun e => entry_bytes (entry_of e)) es)).
Proof.
  intros He. revert w s t. induction He as [|e es He _ IH]; intros w s t Hw.
  { exists w, s. cbn. by rewrite app_nil_r. }
  cbn [addEntries map concat]. destruct (addEntry_ok e w s t He Hw) as (w1 & s1 & E1 & H1).
  erewrite andThen_true by exact E1. destruct (IH w1 s1 _ H1) as (w2 & s2 & E2 & H2).
  exists w2, s2. split; [done|]. by rewrite app_assoc.
Qed.

(** The whole session, from open to close, on a sink that keeps everything. *)
Definition writeArchive (es : list wentry) : option (bytes * bool) :=
  match targzWriterOpen mem_sink true [] with
  | (Some w, s) =>
      '(w, s, r) ← andThen (addEntries es) (targzWriterClose mem_sink) (w, s); Some (s, r)
  | (None, s) => Some (s, false)
  end.

Lemma writeArchive_ok es :
  Forall wentry_ok es -> exists d,
    writeArchive es = Some (GZ_HEADER ++ d ++
      wr32 (mz_crc32 0 (archive (map entry_of es))) ++ wr32 (Zlen (archive (map entry_of es))), true) /\
    stream d (archive (map entry_of es)).
Proof.
  intros He. unfold writeArchive, targzWriterOpen. cbn [negb mem_sink].
  set (w0 := {| comp := tdefl_init; crc := 0; rawLen := 0; pending := 0; pad := 0; ok := true |}).
  assert (wopen w0 ([] ++ GZ_HEADER) []) as Hw0.
  { destruct d_init as (Hl & Hi & Ho). apply winv_wopen; [|done|done]. split; try done.
    - cbn [comp w0]. by rewrite Ho, app_nil_r.
    - cbn [crc w0]. by rewrite crc_nil. }
  destruct (addEntries_ok es _ _ _ He Hw0) as (w1 & s1 & E1 & H1). erewrite andThen_true by exact E1.
  pose proof H1 as (raw1 & Hr1 & _). unfold targzWriterClose. rewrite (wi_ok _ _ _ Hr1). cbn [negb].
  destruct (wopen_finish _ _ _ H1) as (w2 & s2 & E2 & Hw2 & _ & _). erewrite andThen_true by exact E2.
  destruct (writeZeros_ok (2 * TAR_BLOCK) w2 s2 _ ltac:(done) Hw2) as (w3 & s3 & E3 & Hw3 & _ & _).
  erewrite andThen_true by exact E3. cbn [app] in Hw3.
  assert (concat (map (fun e => entry_bytes (entry_of e)) es) ++ zeros (Z.to_nat (2 * TAR_BLOCK)) =
          archive (map entry_of es)) as Ea by (unfold archive; by rewrite map_map).
  rewrite Ea in Hw3. clear Ea. set (ar := archive (map entry_of es)) in *. clearbody ar.
  destruct Hw3 as [W1 W2 W3 W4 W5 W6].
  destruct (deflateLoop_finish (S (length (@nil Z) + tdefl_bound (comp w3) (Zlen (@nil Z))))
    w3 s3 W2 W4) as (c' & E4 & Hs); [cbn [length]; change (Zlen (@nil Z)) with 0; lia|].
  erewrite andThen_true by exact E4. cbn [mbind option_bind mem_sink crc rawLen set_comp].
  exists (d_out c'). rewrite W3 in Hs. split; [|done]. rewrite W5, W6, <- !app_assoc.
  assert (wr32 (wrap32 (wrap64 (Zlen ar))) = wr32 (Zlen ar)) as ->; [|done].
  assert (wrap32 (wrap64 (Zlen ar)) = wrap32 (Zlen ar)) as ->; [|apply le_bytes_wrap].
  unfold wrap32, wrap64. apply Z.mod_mod_divide. by exists (2 ^ 32).
Qed.
End Writing.

(** ** The reader *)

Import Reader.

Section Reading.
Context {I K : Type} `{TI : Tinfl I} `{CR : Crc} {stream : bytes -> bytes -> Prop}
        `{!TinflLaws TI stream} `{!CrcLaws CR}.
Variable cb : reader_cb K.
Hypothesis Hstreaming : streaming cb.

(** A good stream [d] of [raw], which the parser accepts from the context [k0]. *)
Variables (d raw : bytes) (k0 : K) (rF : tar_st) (kF : K).
Hypothesis Hd : stream d raw.
Hypothesis Hraw : tarBytes cb tar_init k0 raw = (rF, kF, TARGZ_OK).

Implicit Types (r : reader (I := I)) (k : K).

(** The reader after [o] bytes of output. *)
Record after_out r k (o : bytes) : Prop := {
  ao_err : err r = TARGZ_OK;
  ao_tar : tarBytes cb tar_init k0 o = (tars r, k, TARGZ_OK);
  ao_inv : tar_inv (tars r);
  ao_crc : Reader.crc r = mz_crc32 0 o;
  ao_len : Reader.rawLen r = wrap64 (Zlen o);
  ao_dict : 0 <= dictOfs r < DICT_SIZE
}.

Record inflating r k : Prop := {
  if_gz : gz (gzs r) = GZ_DEFLATE;
  if_pre : i_out (inf r) `prefix_of` raw;
  if_out : after_out r k (i_out (inf r))
}.

Definition inflated r k : Prop := gz (gzs r) = GZ_FOOTER /\ after_out r k raw.

Lemma prefix_accepted o : o `prefix_of` raw -> exists t k, tarBytes cb tar_init k0 o = (t, k, TARGZ_OK).
Proof.
  intros [rest E]. pose proof Hraw as H. rewrite E, tarBytes_app in H.
  destruct (tarBytes cb tar_init k0 o) as [[r k] e]. cbn [tar_then] in H.
  destruct (bool_decide_reflect (e = TARGZ_OK)) as [He|He]; [subst e; eauto|congruence].
Qed.

Lemma takeOutput_ok r k o out :
  after_out r k o -> o ++ out `prefix_of` raw -> exists r' k',
    takeOutput cb r k out = Some (r', k') /\ after_out r' k' (o ++ out) /\
    inf r' = inf r /\ gzs r' = gzs r /\ hold r' = hold r.
Proof.
  intros [A1 A2 A3 A4 A5 A6] Hp. unfold takeOutput. destruct (Z.eqb_spec (Zlen out) 0) as [E|E].
  { apply Zlen_zero in E as ->. rewrite app_nil_r. exists r, k. by split. }
  destruct (tarConsume_bytes cb (tars r) k out Hstreaming A3) as ([[t k1] e] & -> & Hs & Hi).
  destruct (prefix_accepted _ Hp) as (t' & k' & E'). rewrite tarBytes_app in E'.
  erewrite then_ok in E' by exact A2. rewrite E' in Hs. apply same_ok in Hs. injection Hs as -> -> ->.
  cbn [mbind option_bind]. rewrite !bool_decide_true by done. eexists _, _. split; [done|]. split; [|done].
  split; cbn [err tars Reader.crc Reader.rawLen dictOfs].
  - done.
  - rewrite tarBytes_app. erewrite then_ok by exact A2. done.
  - by apply Hi.
  - by rewrite A4, crc_app.
  - rewrite A5, Zlen_app. unfold wrap64. apply Zplus_mod_idemp_l.
  - change (DICT_SIZE - 1) with (Z.ones 15). rewrite Z.land_ones by lia. apply Z.mod_pos_bound. done.
Qed.

Lemma inflateLoop_ok fuel r k p final :
  inflating r k -> i_in (inf r) ++ p `prefix_of` d -> (final = true -> i_in (inf r) ++ p = d) ->
  (length p + tinfl_bound (inf r) (Zlen p) < fuel)%nat ->
  exists r' k' rest, inflateLoop cb fuel r k p final = Some (r', k', rest) /\ hold r' = hold r /\
    ((inflating r' k' /\ i_in (inf r') = i_in (inf r) ++ p /\ rest = [] /\ final = false) \/ inflated r' k').
Proof.
  revert r k p. induction fuel as [|f IH]; intros r k p [Hg Hpre Hao] Hpd Hfin Hf; [lia|].
  cbn [inflateLoop]. rewrite Hg. cbn [bool_decide decide negb].
  destruct (tinfl_decompress (inf r) p (DICT_SIZE - dictOfs r) (negb final)) as [[[i st] n] out] eqn:E.
  pose proof (ao_dict _ _ _ Hao) as Hdict.
  assert (0 < DICT_SIZE - dictOfs r) as Hcap by lia.
  assert (negb final = false -> i_in (inf r) ++ p = d) as Hfin' by (by destruct final; intros ?; [apply Hfin|]).
  destruct (i_step _ _ _ _ _ _ _ _ Hcap E) as (Hn & _ & Hin & Hout & _).
  destruct (i_good _ _ _ _ _ _ _ _ d raw Hcap Hd Hpd
    Hfin' Hpre E) as (Hpre' & Hb & Hst).
  rewrite Hout in Hpre'.
  destruct (takeOutput_ok (with_inf r i) k (i_out (inf r)) out) as (r1 & k1 & -> & Hao1 & Hi1 & Hg1 & Hh1);
    [by destruct Hao|done|].
  cbn [mbind option_bind]. rewrite (ao_err _ _ _ Hao1). cbn [bool_decide decide negb].
  cbn [inf with_inf gzs hold] in *. rewrite <- Hout, <- Hi1 in Hao1.
  set (p' := drop (Z.to_nat n) p).
  assert (i_in (inf r1) ++ p' = i_in (inf r) ++ p) as Hall.
  { rewrite Hi1, Hin, <- app_assoc. unfold p'. by rewrite take_drop. }
  assert (inflating r1 k1) as Hr1.
  { split; [by rewrite Hg1| |done]. by rewrite Hi1, Hout. }
  assert (n <> 0 \/ out <> [] -> exists r' k' rest, inflateLoop cb f r1 k1 p' final = Some (r', k', rest) /\
    hold r' = hold r /\ ((inflating r' k' /\ i_in (inf r') = i_in (inf r) ++ p /\ rest = [] /\ final = false)
      \/ inflated r' k')) as Hgo.
  { intros Hpr. destruct (IH r1 k1 p' Hr1) as (r' & k' & rest & -> & Hh & Hres); [by rewrite Hall..| |].
    - rewrite Hi1. assert (length p' = (length p - Z.to_nat n)%nat) as -> by (unfold p'; apply length_drop).
      assert (Zlen p' = Zlen p - n) as -> by (unfold p'; rewrite Zlen_drop; lia).
      assert (0 < Z.to_nat n + length out)%nat by (destruct Hpr as [|Ho]; [lia|destruct out; [done|cbn; lia]]).
      unfold Zlen in *. lia.
    - exists r', k', rest. rewrite Hall in Hres. split; [done|]. by rewrite Hh, Hh1. }
  destruct st.
  - done.
  - eexists _, _, _. split; [done|]. split; [done|]. right. split; [done|].
    rewrite Hi1, Hst in Hao1. by destruct Hao1.
  - destruct Hst as [Hm ->]. destruct ((_ =? 0) && _) eqn:Eno.
    + b2p. eexists _, _, _. split; [done|]. split; [done|]. left. split; [done|].
      assert (p = []) as -> by (by apply Zlen_zero). cbn in Hall. rewrite !app_nil_r in Hall.
      rewrite Hall, app_nil_r. by destruct final.
    + apply Hgo. destruct (Z.eqb_spec (Zlen p) 0); [|by left]. right. intros ->. done.
  - rewrite (proj2 (Z.eqb_neq (Zlen out) 0)) by (intros E0; apply Hst; by apply Zlen_zero).
    rewrite andb_false_r. apply Hgo. by right.
Qed.

(** Between feeds. *)
Definition feeding r k : Prop := inflating r k \/ inflated r k.

Lemma feedPart_ok r k p :
  feeding r k -> (inflating r k -> i_in (inf r) ++ p `prefix_of` d) ->
  exists r' k', feedPart cb r k p = Some (r', k') /\ hold r' = hold r /\ err r' = TARGZ_OK /\
    ((inflating r' k' /\ inflating r k /\ i_in (inf r') = i_in (inf r) ++ p) \/ inflated r' k').
Proof.
  intros Hr Hpd. unfold feedPart. destruct (Z.eqb_spec (Zlen p) 0) as [E|E].
  { apply Zlen_zero in E as ->. exists r, k. split; [done|]. split; [done|].
    split; [by destruct Hr as [[_ _ []]|[_ []]]|]. rewrite app_nil_r. destruct Hr as [Hr|Hr]; [by left|by right]. }
  destruct Hr as [Hr|Hr].
  - destruct (inflateLoop_ok (S (length p + tinfl_bound (inf r) (Zlen p))) r k p false Hr (Hpd Hr))
      as (r' & k' & rest & El & Hh & Hres); [done|lia|].
    unfold inflateSome. rewrite El. cbn [mbind option_bind].
    assert (err r' = TARGZ_OK) as He by (by destruct Hres as [[[_ _ []] _]|[_ []]]). rewrite He.
    cbn [bool_decide decide negb]. exists r', k'. destruct Hres as [(Hr' & Hin & -> & _)|Hr'].
    + split; [done|]. split_and!; try done. left. done.
    + pose proof Hr' as [Hg _]. rewrite Hg. change (bool_decide (GZ_FOOTER = GZ_DEFLATE)) with false. rewrite andb_false_r.
      split_and!; try done. by right.
  - pose proof Hr as [Hg Hao]. unfold inflateSome. cbn [inflateLoop]. rewrite Hg.
    change (bool_decide (GZ_FOOTER = GZ_DEFLATE)) with false.
    cbn [negb mbind option_bind]. rewrite (ao_err _ _ _ Hao), Hg.
    change (bool_decide (GZ_FOOTER = GZ_DEFLATE)) with false.
    change (bool_decide (TARGZ_OK = TARGZ_OK)) with true. cbn [negb]. rewrite andb_false_r. exists r, k. split_and!; try done.
    + by destruct Hao.
    + by right.
Qed.

(** After [t] bytes of the body, the last eight (or all, while fewer) are withheld
    and the rest went to the inflater. *)
Definition fed r k (t : bytes) : Prop := exists pre,
  t = pre ++ hold r /\ (Zlen (hold r) = 8 \/ (pre = [] /\ Zlen (hold r) <= 8)) /\
  ((inflating r k /\ i_in (inf r) = pre) \/ inflated r k).

Lemma prefix_but (x n y d' f : bytes) :
  x ++ n = y -> y `prefix_of` d' ++ f -> Zlen n = Zlen f -> x `prefix_of` d'.
Proof.
  intros <- [z E] Hl. rewrite <- app_assoc in E. exists (take (length d' - length x) (n ++ z)).
  assert (take (length d') (d' ++ f) = take (length d') (x ++ n ++ z)) as Ht by (by rewrite E).
  rewrite take_app_length in Ht. rewrite Ht at 1. rewrite take_app. f_equal.
  apply take_ge. apply (f_equal length) in E. rewrite !length_app in E. unfold Zlen in Hl. lia.
Qed.

Variable foot : bytes.
Hypothesis Hfoot : Zlen foot = 8.

Lemma inflating_err r k : inflating r k \/ inflated r k -> err r = TARGZ_OK.
Proof. by intros [[_ _ []]|[_ []]]. Qed.

Lemma with_hold_inflating r k h : inflating r k -> inflating (with_hold r h) k.
Proof. intros [? ? []]. by split. Qed.

Lemma with_hold_inflated r k h : inflated r k -> inflated (with_hold r h) k.
Proof. intros [? []]. by split. Qed.

Lemma feedBody_ok r k t p :
  fed r k t -> t ++ p `prefix_of` d ++ foot ->
  exists r' k', feedBody cb r k p = Some (r', k', TARGZ_OK) /\ fed r' k' (t ++ p).
Proof.
  intros (pre & Et & Hh & Hr) Hp. unfold feedBody, GZ_FOOT_LEN. pose proof (Zlen_nonneg p).
  pose proof (Zlen_nonneg (hold r)).
  destruct (Z.leb_spec (Zlen (hold r) + Zlen p) 8) as [Hle|Hgt].
  - eexists _, _. split; [done|]. exists pre. cbn [hold with_hold inf].
    split; [by rewrite Et, app_assoc|]. split.
    { rewrite Zlen_app. destruct Hh as [Hh|[-> Hh]]; [left; lia|]. right. split; [done|lia]. }
    destruct Hr as [[Hr Hi]|Hr]; [left; split; [by apply with_hold_inflating|done]|].
    right. by apply with_hold_inflated.
  - set (total := Zlen (hold r) + Zlen p) in *. set (fh := Z.min (total - 8) (Zlen (hold r))).
    set (fd := total - 8 - fh). set (a := take (Z.to_nat fh) (hold r)). set (b := take (Z.to_nat fd) p).
    set (next := drop (Z.to_nat fh) (hold r) ++ drop (Z.to_nat fd) p).
    assert (0 <= fh <= Zlen (hold r) /\ 0 <= fd <= Zlen p /\ (fd = 0 \/ fh = Zlen (hold r))) as (Hfh & Hfd & Hor)
      by (unfold fd, fh, total in *; lia).
    assert (a ++ b ++ next = hold r ++ p) as Hsplit.
    { unfold a, b, next. destruct Hor as [E|E].
      - rewrite E. change (Z.to_nat 0) with 0%nat. rewrite take_0, drop_0. cbn [app]. by rewrite app_assoc, take_drop.
      - rewrite E. unfold Zlen. rewrite Nat2Z.id, take_ge, drop_ge by lia. cbn [app]. by rewrite take_drop. }
    assert (Zlen next = 8) as Hnext.
    { apply (f_equal Zlen) in Hsplit. rewrite !Zlen_app in Hsplit. unfold a, b in Hsplit.
      rewrite !Zlen_take in Hsplit. unfold fd, total in *. lia. }
    assert (inflating r k -> (i_in (inf r) ++ a) ++ b `prefix_of` d) as Hab.
    { intros Hi. apply (prefix_but _ next (t ++ p) d foot); [|done|lia].
      assert (i_in (inf r) = pre) as ->.
      { destruct Hr as [[_ ?]|[Hg _]]; [done|]. destruct Hi. congruence. }
      rewrite Et, <- !app_assoc. f_equal. by rewrite Hsplit. }
    assert (feeding r k) as Hfeed by (destruct Hr as [[? _]|?]; [by left|by right]).
    destruct (feedPart_ok r k a Hfeed) as (r1 & k1 & -> & Hh1 & He1 & Hr1).
    { intros Hi. etransitivity; [|exact (Hab Hi)]. by exists b. }
    cbn [mbind option_bind]. rewrite He1. change (bool_decide (TARGZ_OK = TARGZ_OK)) with true. cbn [negb].
    destruct (feedPart_ok r1 k1 b) as (r2 & k2 & -> & Hh2 & He2 & Hr2).
    { destruct Hr1 as [(? & _)|?]; [by left|by right]. }
    { intros Hi. destruct Hr1 as [(_ & Hi0 & E)|[Hg _]]; [|destruct Hi; congruence]. rewrite E. by apply Hab. }
    cbn [mbind option_bind]. rewrite He2. change (bool_decide (TARGZ_OK = TARGZ_OK)) with true. cbn [negb].
    eexists _, _. split; [done|]. exists (pre ++ a ++ b). cbn [hold with_hold inf].
    split; [by rewrite Et, <- !app_assoc, Hsplit|]. split; [by left|].
    destruct Hr2 as [(Hi2 & Hi1 & E2)|Hd2]; [|right; by apply with_hold_inflated].
    left. split; [by apply with_hold_inflating|]. rewrite E2.
    destruct Hr1 as [(_ & Hi0 & E1)|[Hg _]]; [|destruct Hi1; congruence]. rewrite E1.
    destruct Hr as [[_ ->]|[Hg _]]; [by rewrite <- app_assoc|]. destruct Hi0; congruence.
Qed.

(** While the gzip header is incomplete: the rest of the stream completes it. *)
Record in_header r (rem : bytes) : Prop := {
  ih_done : gz_done (gzs r) = false;
  ih_inv : gz_inv (gzs r) /\ bytes_ok (gzBuf (gzs r));
  ih_run : exists g, gzRun (gzs r) rem = (g, d ++ foot, TARGZ_OK) /\ gz g = GZ_DEFLATE;
  ih_rest : i_in (inf r) = [] /\ i_out (inf r) = [] /\ hold r = [] /\ err r = TARGZ_OK /\
    tars r = tar_init /\ Reader.crc r = 0 /\ Reader.rawLen r = 0 /\ dictOfs r = 0
}.

(** The reader, with [rem] still to come. *)
Definition reading r k (rem : bytes) : Prop :=
  (k = k0 /\ in_header r rem) \/ exists t, fed r k t /\ t ++ rem = d ++ foot.

Lemma fed_stage r k t : fed r k t -> err r = TARGZ_OK /\
  bool_decide (gz (gzs r) = GZ_DEFLATE) || bool_decide (gz (gzs r) = GZ_FOOTER) = true.
Proof.
  intros (pre & _ & _ & [[Hr _]|Hr]); (split; [apply (inflating_err r k); tauto|]).
  - by destruct Hr as [-> _ _].
  - by destruct Hr as [-> _].
Qed.

Lemma feed_ok r k p rem :
  bytes_ok p -> reading r k (p ++ rem) ->
  exists r' k', targzReaderFeed cb r k p = Some (r', k', TARGZ_OK) /\ reading r' k' rem.
Proof.
  intros Hpo [[-> [H1 [H2 H2'] (g & H3 & Hg) H4]]|(t & Hf & Et)]; unfold targzReaderFeed.
  - destruct H4 as (Hi & Ho & Hh & He & Ht & Hc & Hl & Hdd). rewrite He.
    change (bool_decide (TARGZ_OK = TARGZ_OK)) with true. cbn [negb].
    pose proof H1 as H1'. unfold gz_done in H1'. rewrite H1'.
    rewrite gzHeader_run by done. cbn [mbind option_bind]. rewrite gzRun_app in H3.
    destruct (gzRun (gzs r) p) as [[g1 rest] e1] eqn:E1.
    destruct (bool_decide_reflect (e1 = TARGZ_OK)) as [He1|]; [subst e1|by injection H3 as -> _ ->].
    cbn [negb]. destruct (gz_done g1) eqn:Ed.
    + injection H3 as -> E3. rewrite Hg. change (bool_decide (GZ_DEFLATE = GZ_DEFLATE)) with true. cbn [negb].
      destruct (feedBody_ok (with_gz r g) k0 [] rest) as (r' & k' & E & Hf).
      * exists []. cbn [with_gz hold inf]. rewrite Hh, Hi. split; [done|]. split; [right; done|]. left.
        split; [|done]. split; cbn [with_gz gzs inf]; [done|rewrite Ho; by exists raw|].
        rewrite Ho. split; cbn [with_gz err tars Reader.crc Reader.rawLen dictOfs]; try done.
        -- by rewrite Ht.
        -- rewrite Ht. apply tar_init_inv.
        -- by rewrite Hc, crc_nil.
        -- by rewrite Hdd.
      * exists rem. done.
      * exists r', k'. split; [done|]. right. exists rest. done.
    + assert (bool_decide (gz g1 = GZ_DEFLATE) = false) as ->.
      { unfold gz_done in Ed. by apply orb_false_iff in Ed as [? _]. }
      cbn [negb]. eexists _, _. split; [done|]. left. split; [done|].
      split; cbn [with_gz gzs inf hold err tars Reader.crc Reader.rawLen dictOfs]; try done.
      * exact (gzRun_inv _ _ _ _ _ H2' Hpo H2 E1).
      * eauto.
  - destruct (fed_stage r k t Hf) as [-> ->]. change (bool_decide (TARGZ_OK = TARGZ_OK)) with true. cbn [negb].
    destruct (feedBody_ok r k t p Hf) as (r' & k' & E & Hf').
    { rewrite <- Et. exists rem. by rewrite app_assoc. }
    exists r', k'. split; [done|]. right. exists (t ++ p). by rewrite <- app_assoc.
Qed.

Lemma feedAll_ok chunks r k :
  Forall bytes_ok chunks -> reading r k (concat chunks) ->
  exists r' k', feedAll cb r k chunks = Some (r', k', TARGZ_OK) /\ reading r' k' [].
Proof.
  intros Hc. revert r k. induction Hc as [|p rest Hp _ IH]; intros r k Hr; [by exists r, k|].
  cbn [feedAll concat] in *. destruct (feed_ok r k p (concat rest) Hp Hr) as (r1 & k1 & -> & Hr1).
  cbn [mbind option_bind]. change (bool_decide (TARGZ_OK = TARGZ_OK)) with true. by apply IH.
Qed.

Lemma open_reading r : targzReaderOpen true = Some r ->
  reading r k0 (GZ_HEADER ++ d ++ foot).
Proof.
  intros [= <-]. left. split; [done|]. destruct i_init as [Hi Ho]. destruct gz_init_ok as [? ?].
  split; cbn [gzs inf hold err tars Reader.crc Reader.rawLen dictOfs]; try done.
  destruct (run_member 0 [0; 0; 0; 0; 0; 0xff] [] [] [] [0; 0] (d ++ foot)) as (g & E & Hg).
  - split; try done; (split; [try done; apply not_elem_of_nil|try (by repeat constructor)]).
    all: try constructor.
  - exists g. done.
Qed.

Lemma finish_ok r k :
  bytes_ok raw -> foot = wr32 (mz_crc32 0 raw) ++ wr32 (Zlen raw) -> tar rF = TAR_END -> hdr rF = [] ->
  reading r k [] ->
  targzReaderFinish cb r k = Some (TARGZ_OK, entries rF, nbytes rF, kF).
Proof.
  intros Hrb Ef HtF HhF [[_ [Hgd _ (g & Hg1 & Hg2) _]]|(t & (pre & Et & Hh & Hr) & Etd)].
  { exfalso. cbn [gzRun] in Hg1. rewrite Hgd in Hg1. injection Hg1 as <- _. unfold gz_done in Hgd.
    rewrite Hg2 in Hgd. done. }
  rewrite app_nil_r in Etd. subst t.
  assert (pre = d /\ hold r = foot) as [-> Hhold].
  { assert (length (hold r) = length foot) as Hlen.
    { destruct Hh as [Hh|[-> Hh]]; [unfold Zlen in *; lia|]. cbn [app] in Etd.
      apply (f_equal length) in Etd. rewrite length_app in Etd. unfold Zlen in *. lia. }
    by apply app_inj_2. }
  unfold targzReaderFinish.
  assert (exists r' k' rest, (if bool_decide (err r = TARGZ_OK) && bool_decide (gz (gzs r) = GZ_DEFLATE)
      then inflateSome cb r k [] true else Some (r, k, [])) = Some (r', k', rest) /\
    inflated r' k' /\ hold r' = foot) as (r' & k' & rest & -> & [Hg' Hao] & Hh').
  { rewrite (inflating_err r k) by tauto. change (bool_decide (TARGZ_OK = TARGZ_OK)) with true. cbn [andb].
    destruct Hr as [[Hr Hi]|Hr].
    - pose proof Hr as [Hg _ _]. rewrite Hg. change (bool_decide (GZ_DEFLATE = GZ_DEFLATE)) with true. cbn iota.
      destruct (inflateLoop_ok (S (length (@nil Z) + tinfl_bound (inf r) (Zlen (@nil Z)))) r k [] true Hr)
        as (r' & k' & rest & E & Hh' & Hres); [by rewrite app_nil_r, Hi|by rewrite app_nil_r, Hi|lia|].
      destruct Hres as [(_ & _ & _ & ?)|Hres]; [done|]. exists r', k', rest. split; [done|]. by rewrite Hh'.
    - pose proof Hr as [Hg _]. rewrite Hg. change (bool_decide (GZ_FOOTER = GZ_DEFLATE)) with false.
      cbn iota. exists r, k, []. done. }
  cbn [mbind option_bind]. destruct Hao as [A1 A2 A3 A4 A5 A6]. rewrite Hraw in A2. injection A2 as <- <-.
  rewrite A1, Hg', Hh', Hfoot, HtF, HhF, A4, A5, Ef.
  assert (take 4 (wr32 (mz_crc32 0 raw) ++ wr32 (Zlen raw)) = wr32 (mz_crc32 0 raw)) as -> by done.
  assert (take 4 (drop 4 (wr32 (mz_crc32 0 raw) ++ wr32 (Zlen raw))) = wr32 (Zlen raw)) as -> by done.
  rewrite le_val_wr32 by (by apply crc_range). unfold wr32 at 1. rewrite le_val_le_bytes.
  assert (Zlen raw mod 256 ^ Z.of_nat 4 = wrap32 (wrap64 (Zlen raw))) as ->.
  { unfold wrap32, wrap64. change (256 ^ Z.of_nat 4) with (2 ^ 32). symmetry. apply Z.mod_mod_divide. by exists (2 ^ 32). }
  rewrite !Z.eqb_refl. done.
Qed.
End Reading.

(** ** An archive survives the round trip *)

Lemma fmap_header_ok tf sz mt nm h :
  is_byte tf -> 0 <= sz < 2 ^ 32 -> 0 ∉ nm -> bytes_ok nm -> head nm <> Some (chr "/") ->
  setEntryName (fillHeader tf sz mt) nm = Some h -> bytes_ok (ustar_bytes (sealHeader h)).
Proof. intros. by edestruct (written_header tf sz mt nm h) as (_ & ? & _). Qed.

Lemma entry_bytes_ok e : entry_ok e -> bytes_ok (entry_body e) -> bytes_ok (entry_bytes e).
Proof.
  intros [Hs Hb H0 [b Eb] Hsz] Hbody. unfold entry_bytes. rewrite Eb, !bytes_ok_app.
  assert (forall n, bytes_ok (zeros n)) as Hz by (intros; by apply Forall_replicate).
  split; [|done]. pose proof (safe_head _ Hs) as Hhd. pose proof (Zlen_nonneg (entry_body e)).
  destruct e as [nm mt|nm body mt]; cbn [entry_header entry_name entry_body] in *;
    apply fmap_Some in Eb as (h & Eb & ->).
  - destruct (256 <=? _); [done|]. eapply (fmap_header_ok (chr "5") 0 mt); [done|lia| | | |exact Eb].
    + rewrite not_elem_of_app. split; [done|]. by apply not_elem_of_cons; split; [|apply not_elem_of_nil].
    + apply bytes_ok_app. split; [done|]. by repeat constructor.
    + destruct Hs as [? _]. by destruct nm.
  - by eapply (fmap_header_ok (chr "0") (Zlen body) mt).
Qed.

Lemma archive_ok es : Forall entry_ok es -> Forall (fun e => bytes_ok (entry_body e)) es ->
  bytes_ok (archive es).
Proof.
  intros He Hb. unfold archive. apply bytes_ok_app. split; [|by apply Forall_replicate].
  induction He as [|e es He _ IH]; [constructor|]. apply Forall_cons in Hb as [Hb1 Hb2].
  cbn [map concat]. apply bytes_ok_app. split; [by apply entry_bytes_ok|by apply IH].
Qed.


(** ** A codec that satisfies the laws: nothing is compressed *)

Module Stored.

Definition stored (d raw : bytes) : Prop := d = raw.

#[export] Instance StoredTdefl : Tdefl bytes := {|
  tdefl_init := [];
  tdefl_compress c p cap fl :=
    let out := take (Z.to_nat cap) p in
    (c ++ out,
     match fl with
     | TDEFL_FINISH => if Zlen p <=? cap then TDEFL_STATUS_DONE else TDEFL_STATUS_OKAY
     | TDEFL_NO_FLUSH => TDEFL_STATUS_OKAY
     end, Zlen out, out);
  tdefl_bound _ n := Z.to_nat n |}.

#[export] Instance StoredTinfl : Tinfl bytes := {|
  tinfl_init := [];
  tinfl_decompress i p cap more :=
    let out := take (Z.to_nat cap) p in
    (i ++ out,
     if cap <? Zlen p then TINFL_STATUS_HAS_MORE_OUTPUT
     else if more : bool then TINFL_STATUS_NEEDS_MORE_INPUT else TINFL_STATUS_DONE, Zlen out, out);
  tinfl_bound _ n := Z.to_nat n |}.

(** The CRC-32 of the ROM, as [mz_crc32] uses it. *)
#[export] Instance RomCrc : Crc := {|
  mz_crc32 c p := Z.lxor (fold_left crc_byte p (Z.lxor c UINT32_MAX)) UINT32_MAX |}.

Lemma taken (p : bytes) cap : 0 < cap ->
  Zlen (take (Z.to_nat cap) p) = Z.min cap (Zlen p) /\ take (Z.to_nat (Zlen (take (Z.to_nat cap) p))) p = take (Z.to_nat cap) p.
Proof.
  intros Hc. assert (Zlen (take (Z.to_nat cap) p) = Z.min cap (Zlen p)) as E by (rewrite Zlen_take; lia).
  split; [done|]. rewrite E. destruct (Z.min_spec cap (Zlen p)) as [[_ ->]|[? ->]]; [done|].
  rewrite !take_ge; [done| |]; unfold Zlen in *; lia.
Qed.

#[export] Instance StoredTdeflLaws : TdeflLaws StoredTdefl stored.
Proof.
  refine {| d_live _ := True; d_in c := c; d_out c := c |}; [done| |by intros d raw ->].
  intros c p cap fl c' st n out _ Hc. unfold tdefl_compress, StoredTdefl, tdefl_bound, stored.
  destruct (taken p cap Hc) as [Hl Ht]. pose proof (Zlen_nonneg p).
  intros [= <- <- <- <-]. rewrite Ht.
  assert (p <> [] -> Zlen (take (Z.to_nat cap) p) <> 0) as Hne.
  { intros Hp. rewrite Hl. destruct p; [done|]. rewrite Zlen_cons in *. zlia. }
  assert (Z.to_nat (Zlen p - Zlen (take (Z.to_nat cap) p)) + length (take (Z.to_nat cap) p) <= Z.to_nat (Zlen p))%nat
    as Hb by (unfold Zlen in *; lia).
  destruct fl; [|destruct (Z.leb_spec (Zlen p) cap)]; split_and!; try done; try lia; try (by intros; left; auto).
Qed.

#[export] Instance StoredTinflLaws : TinflLaws StoredTinfl stored.
Proof.
  refine {| i_in i := i; i_out i := i |}; [done| |].
  - intros i p cap more i' st n out Hc. unfold tinfl_decompress, StoredTinfl, tinfl_bound.
    destruct (taken p cap Hc) as [Hl Ht]. pose proof (Zlen_nonneg p).
    intros [= <- <- <- <-]. rewrite Ht. split_and!; try done; try lia. intros _. unfold Zlen in *. lia.
  - intros i p cap more i' st n out d raw Hc Hs Hp Hfin _. unfold stored in Hs. subst d. unfold tinfl_decompress, StoredTinfl.
    destruct (taken p cap Hc) as [Hl Ht]. intros [= <- <- <- <-]. split.
    { etransitivity; [|exact Hp]. exists (drop (Z.to_nat cap) p). by rewrite <- app_assoc, take_drop. }
    split; [unfold tinfl_bound, Zlen in *; lia|].
    destruct (Z.ltb_spec cap (Zlen p)) as [Hlt|Hge].
    + intros E. rewrite E in Hl. change (Zlen (@nil Z)) with 0 in Hl. lia.
    + assert (take (Z.to_nat cap) p = p) as -> by (apply take_ge; unfold Zlen in *; lia).
      destruct more; [split; [done|done]|by apply Hfin].
Qed.

#[export] Instance RomCrcLaws : CrcLaws RomCrc.
Proof.
  split.
  - reflexivity.
  - intros c a b. unfold mz_crc32, RomCrc. rewrite fold_left_app. do 2 f_equal.
    by rewrite Z.lxor_assoc, Z.lxor_nilpotent, Z.lxor_0_r.
  - intros a Ha. exact (crc32_bound a Ha).
Qed.

(** Callbacks that keep what they are given. *)
Definition keep_cb : reader_cb (list (bytes * bytes)) := {|
  onDir := Some (fun k nm => ((nm, []) :: k, true));
  onFile := Some (fun k nm _ => ((nm, []) :: k, true));
  onData := Some (fun k d => (match k with (nm, b) :: k' => (nm, b ++ d) :: k' | [] => [] end, true));
  onFileEnd := None |}.

Lemma keep_streaming : streaming keep_cb.
Proof. intros f [|[nm b] k] a c [= <-] _ _; [done|]. by rewrite app_assoc. Qed.

Definition demo : list wentry := [WDir ($ "d") 0; WFile ($ "d/f") 5 0 [[1; 2]; [3]]].

Lemma demo_entries_ok :
  Forall wentry_ok demo /\ Forall entry_ok (map entry_of demo) /\
  Forall (fun e => bytes_ok (entry_body e)) (map entry_of demo).
Proof.
  assert (forall p : Prop, forall d : Decision p, bool_decide p = true -> p) as Hdec.
  { intros p d H. by apply bool_decide_eq_true in H. }
  split; [by repeat constructor|]. split.
  - apply Forall_cons; split; [|apply Forall_cons; split; [|constructor]];
      (split; [split_and!; apply (Hdec _ _); vm_compute; reflexivity
              |vm_compute; repeat constructor; discriminate
              |apply (Hdec _ _); vm_compute; reflexivity
              |vm_compute; eauto|vm_compute; reflexivity]).
  - apply Forall_cons; split; [|apply Forall_cons; split; [|constructor]];
      vm_compute; repeat constructor; discriminate.
Qed.

End Stored.

