(* ===== verification/TargzSafety.v ===== *)
(** * targz: hostile archives, failing sinks

    The reader on arbitrary bytes: it always returns, and the callbacks only ever
    see safe names. The writer after a failure: it stays failed. *)

From S2P Require Import Prelude CLib Spanfs SpanfsProofs Targz TargzHeader TargzTar TargzGz TargzRoundtrip.
Import Header Reader.
Open Scope spangap_scope.

(** ** The reader on any input *)

Lemma tarConsumeLoop_total {K} (cb : reader_cb K) fuel r k p :
  tar_inv r -> (length p <= fuel)%nat ->
  exists x, tarConsumeLoop cb fuel r k p = Some x /\ (x.2 = TARGZ_OK -> tar_inv x.1.1).
Proof.
  revert r k p. induction fuel as [|f IH]; intros r k p Hinv Hf.
  { destruct p; [|cbn in Hf; lia]. by exists (r, k, TARGZ_OK). }
  cbn [tarConsumeLoop]. destruct (Z.eqb_spec (Zlen p) 0) as [Hz|Hz]; [by exists (r, k, TARGZ_OK)|].
  destruct (bool_decide_reflect (tar r = TAR_END)) as [He|He]; cbn [orb]; [by exists (r, k, TARGZ_OK)|].
  pose proof (Zlen_nonneg p) as Hp0. pose proof Hinv as [I1 I2 I3 [I4 I4'] I5].
  assert (forall now rest r1 k1 e1, p = now ++ rest -> 0 < Zlen now -> (e1 = TARGZ_OK -> tar_inv r1) ->
    exists x, (if bool_decide (e1 = TARGZ_OK) then tarConsumeLoop cb f r1 k1 rest
               else Some (r1, k1, e1)) = Some x /\ (x.2 = TARGZ_OK -> tar_inv x.1.1)) as Hgo.
  { intros now rest r1 k1 e1 Ep Hn Hi. destruct (bool_decide_reflect (e1 = TARGZ_OK)) as [->|Hne].
    - apply IH; [by apply Hi|]. rewrite Ep, length_app in Hf. unfold Zlen in Hn. lia.
    - eexists. split; [done|]. done. }
  destruct (tar r) eqn:Ht; [| | |done].
  - pose proof (Zlen_nonneg (hdr r)). unfold TAR_BLOCK in *.
    destruct (split_z _ p) as [now rest] eqn:Es. apply split_z_spec in Es as [Ep Hn]; [|lia].
    destruct (Z.ltb_spec (Zlen (hdr r ++ now)) 512) as [Hlt|Hge]; rewrite Zlen_app in *.
    + eexists. split; [done|]. intros _. split; cbn [fst tar hdr pending pad inFile set_hdr]; rewrite ?Ht; try done.
      rewrite Zlen_app. unfold TAR_BLOCK. lia.
    + destruct (tarHeader cb (set_hdr r []) k (hdr r ++ now)) as [[r1 k1] e1] eqn:E1.
      apply (Hgo now rest); [done|lia|]. intros ->.
      eapply (tarHeader_inv cb (set_hdr r []) k); [|done|done|exact E1].
      split; cbn [tar hdr pending pad inFile set_hdr]; rewrite ?Ht; done.
  - specialize (I3 eq_refl). destruct (split_z _ p) as [now rest] eqn:Es.
    apply split_z_spec in Es as [Ep Hn]; [|lia]. assert (0 < Zlen now) by lia.
    destruct (if inFile r then _ else _) as [k1 [|]]; cbn [negb]; [|eexists; done].
    cbn [pending set_pending]. destruct (Z.eqb_spec (pending r - Zlen now) 0) as [Hz0|Hz0].
    + destruct (endBody cb _ k1) as [[r2 k2] e2] eqn:E2. apply (Hgo now rest); [done|done|].
      intros ->. eapply (endBody_inv cb (set_pending r (pending r - Zlen now)) k1); [| |exact E2]; [|done].
      cbn. by apply I2.
    + specialize (Hgo now rest (set_pending r (pending r - Zlen now)) k1 TARGZ_OK Ep ltac:(done)).
      rewrite bool_decide_true in Hgo by done. apply Hgo. intros _. apply set_pending_inv; [done|lia].
  - specialize (I4' eq_refl). destruct (split_z _ p) as [now rest] eqn:Es.
    apply split_z_spec in Es as [Ep Hn]; [|lia].
    specialize (Hgo now rest (set_pad r (pad r - Zlen now)) k TARGZ_OK Ep ltac:(lia)).
    rewrite bool_decide_true in Hgo by done. apply Hgo. intros _. apply set_pad_inv; (done || lia).
Qed.

Section Hostile.
Context {I K : Type} `{TI : Tinfl I} `{CR : Crc} {stream : bytes -> bytes -> Prop}
        `{!TinflLaws TI stream}.
Variables (cb : reader_cb K) (P : K -> Prop).
Hypothesis Hkeeps : keeps cb P.

Implicit Types (r : reader (I := I)) (k : K).

(** The reader's own invariant, whatever it has been fed. *)
Record sane r k : Prop := {
  sn_tar : err r = TARGZ_OK -> tar_inv (tars r);
  sn_dict : 0 <= dictOfs r < DICT_SIZE;
  sn_gz : gz_inv (gzs r);
  sn_buf : bytes_ok (gzBuf (gzs r));
  sn_ctx : P k
}.

Lemma takeOutput_sane r k out : sane r k -> err r = TARGZ_OK ->
  exists r' k', takeOutput cb r k out = Some (r', k') /\ sane r' k' /\ inf r' = inf r.
Proof.
  intros [S1 S2 S3 S4 S5] He. unfold takeOutput. destruct (Zlen out =? 0); [by exists r, k|].
  destruct (tarConsumeLoop_total cb (length out) (tars r) k out (S1 He) (le_n _)) as ([[t k1] e] & E & Hi).
  unfold tarConsume. rewrite E. cbn [mbind option_bind]. eexists _, _. split; [done|]. split; [|done].
  split; cbn [err tars dictOfs gzs]; try done.
  - destruct (bool_decide_reflect (e = TARGZ_OK)) as [->|]; [by intros _; apply Hi|done].
  - case_bool_decide; [|done].
    change (DICT_SIZE - 1) with (Z.ones 15). rewrite Z.land_ones by lia. by apply Z.mod_pos_bound.
  - eapply tarConsumeLoop_keeps; [exact Hkeeps|exact S5|exact E].
Qed.

Lemma inflateLoop_sane fuel r k p :
  sane r k -> err r = TARGZ_OK -> (length p + tinfl_bound (inf r) (Zlen p) < fuel)%nat ->
  exists r' k' rest, inflateLoop cb fuel r k p false = Some (r', k', rest) /\ sane r' k'.
Proof.
  revert r k p. induction fuel as [|f IH]; intros r k p Hs He Hf; [lia|]. cbn [inflateLoop]. set (final := false).
  destruct (bool_decide (gz (gzs r) = GZ_DEFLATE)); cbn [negb]; [|by exists r, k, p].
  destruct (tinfl_decompress (inf r) p (DICT_SIZE - dictOfs r) (negb final)) as [[[i st] n] out] eqn:E.
  pose proof (sn_dict _ _ Hs). assert (0 < DICT_SIZE - dictOfs r) as Hcap by lia.
  destruct (i_step _ _ _ _ _ _ _ _ Hcap E) as (Hn & _ & _ & _ & Hb). specialize (Hb eq_refl).
  destruct (takeOutput_sane (with_inf r i) k out) as (r1 & k1 & -> & Hs1 & Hi1);
    [by destruct Hs|done|]. cbn [mbind option_bind].
  destruct (bool_decide_reflect (err r1 = TARGZ_OK)) as [He1|]; cbn [negb]; [|by eexists _, _, _].
  assert (exists r' k' rest, (if (n =? 0) && (Zlen out =? 0) then Some (r1, k1, drop (Z.to_nat n) p)
    else inflateLoop cb f r1 k1 (drop (Z.to_nat n) p) final) = Some (r', k', rest) /\ sane r' k') as Hgo.
  { destruct ((n =? 0) && _) eqn:Eno; [by eexists _, _, _|]. apply IH; [done|done|].
    rewrite Hi1. cbn [inf with_inf]. rewrite length_drop, Zlen_drop.
    replace (Z.max 0 (Zlen p - Z.of_nat (Z.to_nat n))) with (Zlen p - n) by lia.
    b2p. unfold Zlen in *. lia. }
  destruct st; [| |exact Hgo|exact Hgo].
  - eexists _, _, _. split; [done|]. by destruct Hs1.
  - eexists _, _, _. split; [done|]. destruct Hs1. by split.
Qed.

(** The inflation cut after [n] rounds of its loop: where it is then. *)
Fixpoint inflateRounds (n : nat) r k (p : bytes) (final : bool) : option (reader * K * bytes) :=
  if negb (bool_decide (gz (gzs r) = GZ_DEFLATE)) then Some (r, k, p)
  else
    match n with
    | O => Some (r, k, p)
    | S n =>
        let '(i, st, inBytes, out) := tinfl_decompress (inf r) p (DICT_SIZE - dictOfs r) (negb final) in
        let p := drop (Z.to_nat inBytes) p in
        '(r, k) ← takeOutput cb (with_inf r i) k out;
        if negb (bool_decide (err r = TARGZ_OK)) then Some (r, k, p)
        else
          match st with
          | TINFL_STATUS_DONE => Some (with_gz r (gz_at (gzs r) GZ_FOOTER), k, p)
          | TINFL_STATUS_FAILED => Some (fail r TARGZ_ERR_DEFLATE, k, p)
          | _ => if (inBytes =? 0) && (Zlen out =? 0) then Some (r, k, p) else inflateRounds n r k p final
          end
    end.

(** If the loop ends it is where it is after that many rounds. *)
Lemma inflateLoop_rounds fuel : forall r k p final x, inflateLoop cb fuel r k p final = Some x -> inflateRounds fuel r k p final = Some x.
Proof.
  induction fuel as [|f IH]; intros r k p final x; cbn [inflateLoop inflateRounds]; (destruct (negb _); [done|]); [done|].
  destruct (tinfl_decompress _ _ _ _) as [[[i st] n] out]. destruct (takeOutput cb (with_inf r i) k out) as [[r1 k1]|]; [|done].
  cbn [mbind option_bind]. destruct (negb _); [done|]. destruct st; try done; (destruct (_ && _); [done|apply IH]).
Qed.

Lemma inflateRounds_sane n : forall r k p final, sane r k -> err r = TARGZ_OK ->
  exists r' k' rest, inflateRounds n r k p final = Some (r', k', rest) /\ sane r' k'.
Proof.
  induction n as [|n IH]; intros r k p final Hs He; cbn [inflateRounds]; (destruct (negb _); [by exists r, k, p|]); [by exists r, k, p|].
  destruct (tinfl_decompress (inf r) p (DICT_SIZE - dictOfs r) (negb final)) as [[[i st] m] out].
  destruct (takeOutput_sane (with_inf r i) k out) as (r1 & k1 & -> & Hs1 & _); [by destruct Hs|done|]. cbn [mbind option_bind].
  destruct (bool_decide_reflect (err r1 = TARGZ_OK)) as [He1|]; cbn [negb]; [|by eexists _, _, _].
  destruct st; [| |destruct (_ && _); [by eexists _, _, _|by apply IH]..].
  - eexists _, _, _. split; [done|]. by destruct Hs1.
  - eexists _, _, _. split; [done|]. destruct Hs1. by split.
Qed.

Lemma feedPart_sane r k p : sane r k -> err r = TARGZ_OK ->
  exists r' k', feedPart cb r k p = Some (r', k') /\ sane r' k'.
Proof.
  intros Hs He. unfold feedPart. destruct (_ =? 0); [by exists r, k|].
  destruct (inflateLoop_sane (S (length p + tinfl_bound (inf r) (Zlen p))) r k p Hs He (le_n _))
    as (r' & k' & rest & E & Hs').
  unfold inflateSome. rewrite E. cbn [mbind option_bind].
  destruct (negb (bool_decide (err r' = _))); [by eexists _, _|].
  destruct (negb _ && _); eexists _, _; (split; [done|]); [|done]. by destruct Hs'.
Qed.

Lemma feedBody_sane r k p : sane r k -> err r = TARGZ_OK ->
  exists r' k' e, feedBody cb r k p = Some (r', k', e) /\ sane r' k' /\ (e = TARGZ_OK -> err r' = TARGZ_OK).
Proof.
  intros Hs He. unfold feedBody. destruct (_ <=? _).
  { eexists _, _, _. split; [done|]. split; [|done]. by destruct Hs. }
  match goal with |- context [feedPart cb r k ?a] => destruct (feedPart_sane r k a Hs He) as (r1 & k1 & -> & Hs1) end.
  cbn [mbind option_bind]. destruct (bool_decide_reflect (err r1 = TARGZ_OK)) as [He1|Hne]; cbn [negb].
  2: { eexists _, _, _. split; [done|]. done. }
  match goal with |- context [feedPart cb r1 k1 ?a] => destruct (feedPart_sane r1 k1 a Hs1 He1) as (r2 & k2 & -> & Hs2) end.
  cbn [mbind option_bind]. destruct (bool_decide_reflect (err r2 = TARGZ_OK)) as [He2|Hne]; cbn [negb].
  - eexists _, _, _. split; [done|]. split; [|done]. by destruct Hs2.
  - eexists _, _, _. split; [done|]. done.
Qed.

Lemma feed_sane r k p : sane r k -> bytes_ok p ->
  exists r' k' e, targzReaderFeed cb r k p = Some (r', k', e) /\ sane r' k'.
Proof.
  intros Hs Hp. unfold targzReaderFeed.
  destruct (bool_decide_reflect (err r = TARGZ_OK)) as [He|]; cbn [negb]; [|by eexists _, _, _].
  assert (forall r p, sane r k -> err r = TARGZ_OK ->
    exists r' k' e, feedBody cb r k p = Some (r', k', e) /\ sane r' k') as Hbody.
  { intros r1 p1 H1 H2. destruct (feedBody_sane r1 k p1 H1 H2) as (r' & k' & e & ? & ? & _). eauto. }
  destruct (_ || _); [by apply Hbody|]. destruct Hs as [S1 S2 S3 S4 S5].
  rewrite gzHeader_run by done. destruct (gzRun (gzs r) p) as [[g p1] e1] eqn:E1. cbn [mbind option_bind].
  destruct (gzRun_inv _ _ _ _ _ S4 Hp S3 E1) as [Hgi Hgb].
  destruct (bool_decide_reflect (e1 = TARGZ_OK)) as [_|Ee]; cbn [negb].
  2: { eexists _, _, _. split; [done|]. split; cbn [err fail with_gz tars dictOfs gzs]; done. }
  destruct (bool_decide (gz g = GZ_DEFLATE)); cbn [negb]; [apply Hbody; [by split|done]|].
  eexists _, _, _. split; [done|]. by split.
Qed.

Lemma feedAll_sane chunks r k : sane r k -> Forall bytes_ok chunks ->
  exists r' k' e, feedAll cb r k chunks = Some (r', k', e) /\ sane r' k'.
Proof.
  intros Hs Hc. revert r k Hs. induction Hc as [|p rest Hp _ IH]; intros r k Hs; [by exists r, k, TARGZ_OK|].
  cbn [feedAll]. destruct (feed_sane r k p Hs Hp) as (r1 & k1 & e1 & -> & Hs1). cbn [mbind option_bind].
  destruct (bool_decide (e1 = TARGZ_OK)); [by apply IH|]. by exists r1, k1, e1.
Qed.
End Hostile.


(** Every directory and file name kept so far is safe. *)
Definition all_safe (k : list (bytes * bytes)) : Prop := Forall (fun e => safe_name e.1) k.

Lemma keep_cb_keeps : keeps Stored.keep_cb all_safe.
Proof.
  split.
  - intros f k nm [= <-] Hk Hn. by constructor.
  - intros f k nm sz [= <-] Hk Hn. by constructor.
  - intros f [|[nm b] k] d [= <-] Hk; [done|]. apply Forall_cons in Hk as [? ?]. by constructor.
  - done.
Qed.


(** ** The writer after a failure *)

Import Writer.

Section Sticky.
Context {C S : Type} `{TD : Tdefl C} `{CR : Crc}.
Variable sink : S -> bytes -> S * bool.

(** An operation that fails leaves the writer failed. *)
Definition sticky (a : wop (C := C) (S := S)) : Prop :=
  forall w s w' s', a (w, s) = Some (w', s', false) -> ok w' = false.

Lemma andThen_sticky a b : sticky a -> sticky b -> sticky (andThen a b).
Proof.
  intros Ha Hb w s w' s'. unfold andThen. intros E. apply bind_Some in E as ([[w1 s1] r] & E1 & E).
  destruct r; [by eapply Hb|]. injection E as -> ->. by eapply Ha.
Qed.

Lemma wtrue_sticky : sticky wtrue.
Proof. by intros w s w' s' [= ]. Qed.

Lemma deflateLoop_sticky fuel p fl : sticky (deflateLoop sink fuel p fl).
Proof.
  revert p. induction fuel as [|f IH]; intros p w s w' s'; cbn [deflateLoop]; [done|].
  destruct (tdefl_compress _ _ _ _) as [[[c st] n] out].
  destruct (if Zlen out =? 0 then _ else _) as [s1 took].
  assert ((if (n =? 0) && (Zlen out =? 0) then Some (set_bad (set_comp w c), s1, false)
    else deflateLoop sink f (drop_z n p) fl (set_comp w c, s1)) = Some (w', s', false) -> ok w' = false) as Hgo.
  { destruct (_ && _); [by intros [= <- <-]|apply IH]. }
  destruct st; [by intros [= <- <-]|..]; (destruct took; cbn [negb]; [|by intros [= <- <-]]);
    destruct fl; try exact Hgo; try (destruct (Zlen (drop_z n p) =? 0); [done|exact Hgo]); done.
Qed.

Lemma writeRaw_sticky data : sticky (writeRaw sink data).
Proof.
  intros w s w' s'. unfold writeRaw. destruct (ok w) eqn:E; cbn [negb]; [|by intros [= <- <-]].
  destruct (_ =? 0); [done|]. unfold deflateRun. apply deflateLoop_sticky.
Qed.

Lemma writeZerosLoop_sticky fuel len : sticky (writeZerosLoop sink fuel len).
Proof.
  revert len. induction fuel as [|f IH]; intros [|len]; cbn [writeZerosLoop];
    try apply wtrue_sticky; [done|].
  apply andThen_sticky; [apply writeRaw_sticky|apply IH].
Qed.

Lemma finishEntry_sticky : sticky (finishEntry sink).
Proof.
  intros w s. unfold finishEntry. apply andThen_sticky.
  - destruct (_ =? 0); [apply wtrue_sticky|]. apply andThen_sticky; [apply writeZerosLoop_sticky|by intros ????].
  - intros w1 s1 w2 s2. destruct (_ =? 0); [done|]. apply andThen_sticky; [apply writeZerosLoop_sticky|by intros ????].
Qed.

Lemma when_ok_sticky a : sticky a -> sticky (when_ok a).
Proof. intros Ha w s w' s'. unfold when_ok. destruct (ok w) eqn:E; [apply Ha|by intros [= <- <-]]. Qed.

(** The operations a caller may apply to an open writer. *)
Inductive wcall := CallDir (nm : bytes) (mt : Z) | CallFile (nm : bytes) (sz mt : Z) | CallData (data : bytes).

Definition runCall (c : wcall) : wop (C := C) (S := S) :=
  match c with
  | CallDir nm mt => targzWriterAddDir sink nm mt
  | CallFile nm sz mt => targzWriterAddFile sink nm sz mt
  | CallData data => targzWriterData sink data
  end.

Lemma runCall_sticky c : sticky (runCall c).
Proof.
  destruct c as [nm mt|nm sz mt|data]; cbn [runCall]; apply when_ok_sticky.
  - apply andThen_sticky; [apply finishEntry_sticky|]. cbv zeta.
    match goal with |- sticky (match ?x with _ => _ end) => destruct x end;
      [apply writeRaw_sticky|apply wtrue_sticky].
  - apply andThen_sticky; [apply finishEntry_sticky|].
    destruct (setEntryName _ nm); [|apply wtrue_sticky].
    apply andThen_sticky; [apply writeRaw_sticky|by intros ????].
  - intros w s. apply andThen_sticky; [apply writeRaw_sticky|]. intros w1 s1 w2 s2.
    cbv beta iota zeta. match goal with |- (if ?b then _ else _) = _ -> _ => destruct b end; [|done]. apply andThen_sticky; [apply writeZerosLoop_sticky|by intros ????].
Qed.
End Sticky.

(** C39: a writer operation that reports failure (the sink refused a run, or deflate
    failed or stopped making progress) is final: every later operation, the closing
    one included, returns false at once and sends nothing more to the sink. *)
Theorem targz_writer_failure_is_final {C S} (TD : Tdefl C) (CR : Crc) (sink : S -> bytes -> S * bool)
    (c : wcall) (w w' : writer) (s s' : S) :
  runCall sink c (w, s) = Some (w', s', false) ->
  (forall c', runCall sink c' (w', s') = Some (w', s', false)) /\
  targzWriterClose sink (w', s') = Some (w', s', false).
Proof.
  intros E. apply runCall_sticky in E. split.
  - intros c'. destruct c'; cbn [runCall]; unfold targzWriterAddDir, targzWriterAddFile, targzWriterData, when_ok;
      by rewrite E.
  - unfold targzWriterClose. by rewrite E.
Qed.

(** A sink that accepts [n] runs. *)
Definition short_sink (n : Z) (_ : bytes) : Z * bool := (n - 1, 0 <? n).

Definition fresh_writer : writer (C := bytes) :=
  {| comp := []; crc := 0; rawLen := 0; pending := 0; pad := 0; ok := true |}.

Lemma targz_writer_failure_is_final_witness :
  exists w', targzWriterClose (TD := Stored.StoredTdefl) (CR := Stored.RomCrc) short_sink (w', -1) = Some (w', -1, false).
Proof.
  eexists. apply (targz_writer_failure_is_final Stored.StoredTdefl Stored.RomCrc short_sink
    (CallDir ($ "d") 0) fresh_writer _ 0 (-1)). vm_compute. reflexivity.
Defined.

(** ** The longest name *)

Definition long_name : bytes := replicate 155 (chr "a") ++ [chr "/"] ++ replicate 100 (chr "b").

(** The writer and the reader disagree on the longest name: a path of 256 bytes
    (155 of prefix, a slash, 100 of name) fits the header, so [targzWriterAddFile]
    archives it, and the reader then rejects the entry with [TARGZ_ERR_UNSAFE], which
    ends the whole extraction. *)
Theorem targz_name_of_256_not_restored {K} (cb : reader_cb K) (k : K) :
  Zlen long_name = 256 /\
  exists h, setEntryName (fillHeader (chr "0") 0 0) long_name = Some h /\
    exists r, tarConsume cb tar_init k (ustar_bytes (sealHeader h)) = Some (r, k, TARGZ_ERR_UNSAFE).
Proof.
  split; [reflexivity|]. eexists. split; [vm_compute; reflexivity|].
  eexists. vm_compute. reflexivity.
Qed.

Lemma tarConsume_any_cut_witness :
  exists x y, consumeAll Stored.keep_cb tar_init [] [replicate 300 1; [2]; replicate 300 3] = Some x /\
    tarConsume Stored.keep_cb tar_init [] (replicate 300 1 ++ [2] ++ replicate 300 3) = Some y /\ same x y.
Proof.
  exact (tarConsume_any_cut Stored.keep_cb tar_init [] [replicate 300 1; [2]; replicate 300 3]
    Stored.keep_streaming tar_init_inv).
Defined.
