(* ===== verification/StorageDb.v ===== *)
(** * storage_db: packed record stores (src/esp-idf/src/storage_db.cpp)

    [Hex], [Schema], [Gz]: the encodings. [Block]: the arena of records, its index,
    growth and compaction. [Store]: the operations of the module. The heap is a
    parameter of each operation (the outcome of each allocation it may make), the
    file system an interface, the deflate codec that of targz. [None] is an access
    outside the arena or a loop out of fuel. *)

From stdpp Require Export gmap.
From S2P Require Import Prelude CLib Targz.
Open Scope Z_scope.
Open Scope spangap_scope.

Module Hex.

Definition hexNib (c : Z) : option Z :=
  if (48 <=? c) && (c <=? 57) then Some (c - 48)
  else if (97 <=? c) && (c <=? 102) then Some (c - 97 + 10)
  else if (65 <=? c) && (c <=? 70) then Some (c - 65 + 10)
  else None.

(** ["0123456789abcdef"[n]]. *)
Definition hexDigit (n : Z) : Z := if n <? 10 then 48 + n else 97 + (n - 10).

Fixpoint hexEncodeBytes (p : bytes) : bytes :=
  match p with
  | [] => []
  | b :: p' => hexDigit (Z.shiftr b 4) :: hexDigit (Z.land b 0xf) :: hexEncodeBytes p'
  end.

(** The bytes decoded from [s], at most [maxOut]. *)
Fixpoint hexDecodeInto (s : bytes) (maxOut : nat) : bytes :=
  match maxOut, s with
  | S m, c0 :: c1 :: s' =>
      match hexNib c0, hexNib c1 with
      | Some hi, Some lo => Z.lor (Z.shiftl hi 4) lo :: hexDecodeInto s' m
      | _, _ => []
      end
  | _, _ => []
  end.

Definition isAllZero (p : bytes) : bool := forallb (fun b => b =? 0) p.

End Hex.
Import Hex.

Module Schema.

(** [enum sdb_kind : uint8_t]; a value read from a file may be any byte. *)
Definition SDB_U8 : Z := 1.
Definition SDB_U32 : Z := 2.
Definition SDB_FIXSTR : Z := 3.
Definition SDB_TEXT : Z := 4.
Definition SDB_DATA : Z := 5.

Record sdb_field := { fname : bytes; kind : Z; foff : Z; width : Z }.

#[export] Instance sdb_field_eq_dec : EqDecision sdb_field.
Proof. solve_decision. Defined.

Definition SDB_REC_LEN_OFF : Z := 0.
Definition SDB_FLAGS_OFF : Z := 4.
Definition SDB_FLAG_DELETED : Z := 1.
Definition SDB_HDR_BUILTIN : Z := 8.

Record sdb_schema := { schema_id : Z; schema_ver : Z; hdr_size : Z; fields : list sdb_field }.

Definition textCount (sc : sdb_schema) : Z :=
  foldl (fun n f => if kind f =? SDB_TEXT then wrap16 (n + 1) else n) 0 (fields sc).

Definition add_field (sc : sdb_schema) (f : sdb_field) (hdr : Z) : sdb_schema :=
  {| schema_id := schema_id sc; schema_ver := schema_ver sc; hdr_size := wrap16 hdr;
     fields := fields sc ++ [f] |}.

Definition u8 (sc : sdb_schema) (nm : bytes) : sdb_schema :=
  add_field sc {| fname := nm; kind := SDB_U8; foff := hdr_size sc; width := 0 |} (hdr_size sc + 1).

Definition u32 (sc : sdb_schema) (nm : bytes) : sdb_schema :=
  let h := if negb (Z.land (hdr_size sc) 3 =? 0)
           then wrap16 (Z.ldiff (hdr_size sc + 3) 3) else hdr_size sc in
  add_field sc {| fname := nm; kind := SDB_U32; foff := h; width := 0 |} (h + 4).

Definition fixstr (sc : sdb_schema) (nm : bytes) (w : Z) : sdb_schema :=
  add_field sc {| fname := nm; kind := SDB_FIXSTR; foff := hdr_size sc; width := w |} (hdr_size sc + w).

Definition data (sc : sdb_schema) (nm : bytes) (n : Z) : sdb_schema :=
  add_field sc {| fname := nm; kind := SDB_DATA; foff := hdr_size sc; width := n |} (hdr_size sc + n).

Definition text (sc : sdb_schema) (nm : bytes) : sdb_schema :=
  add_field sc {| fname := nm; kind := SDB_TEXT; foff := textCount sc; width := 0 |} (hdr_size sc).

Definition find (sc : sdb_schema) (nm : bytes) : option sdb_field :=
  List.find (fun f => streq (fname f) nm) (fields sc).

(** The descriptor: field count, then kind, offset, width, name length and name. *)
Definition serializeField (f : sdb_field) : bytes :=
  let nl := if 255 <? Zlen (fname f) then 255 else Zlen (fname f) in
  [kind f] ++ wr16 (foff f) ++ wr16 (width f) ++ [nl] ++ take (Z.to_nat nl) (fname f).

Definition serializeDescriptor (sc : sdb_schema) : bytes :=
  wr16 (Zlen (fields sc)) ++ concat (map serializeField (fields sc)).

(** The field loop of [parseDescriptor] at offset [o], [nf] fields to go: outer [None]
    outside the buffer, inner [None] for [return false]. *)
Fixpoint parseFieldsLoop (nf : nat) (p : bytes) (o : Z) : option (option (list sdb_field)) :=
  match nf with
  | O => Some (Some [])
  | S nf' =>
      if Zlen p <? o + 6 then Some None
      else
        k ← mem_get p o;
        off ← rd16 p (o + 1);
        w ← rd16 p (o + 3);
        nl ← mem_get p (o + 5);
        if Zlen p <? o + 6 + nl then Some None
        else
          nm ← mem_slice p (o + 6) nl;
          rest ← parseFieldsLoop nf' p (o + 6 + nl);
          Some (option_map (cons {| fname := nm; kind := k; foff := off; width := w |}) rest)
  end.

Definition parseDescriptor (p : bytes) (id ver hdr : Z) : option (option sdb_schema) :=
  if Zlen p <? 2 then Some None
  else
    nf ← rd16 p 0;
    fs ← parseFieldsLoop (Z.to_nat nf) p 2;
    Some (option_map (fun fs => {| schema_id := id; schema_ver := ver; hdr_size := hdr; fields := fs |}) fs).

Definition schemaLayoutEqual (a b : sdb_schema) : bool :=
  (hdr_size a =? hdr_size b) && bool_decide (fields a = fields b).

(** The legacy layout table. *)
Record sdb_legacy := { l_id : Z; l_hdr : Z; l_schema : sdb_schema }.

Fixpoint sdbRegisterLegacyLayout (tab : list sdb_legacy) (sc : sdb_schema) : list sdb_legacy :=
  match tab with
  | [] => [{| l_id := schema_id sc; l_hdr := hdr_size sc; l_schema := sc |}]
  | l :: rest =>
      if (l_id l =? schema_id sc) && (l_hdr l =? hdr_size sc)
      then {| l_id := l_id l; l_hdr := l_hdr l; l_schema := sc |} :: rest
      else l :: sdbRegisterLegacyLayout rest sc
  end.

Definition sdbFindLegacy (tab : list sdb_legacy) (id hdr : Z) : option sdb_schema :=
  l_schema <$> List.find (fun l => (l_id l =? id) && (l_hdr l =? hdr)) tab.

End Schema.
Import Schema.

Module Gz.
Section Gz.
Context {C I : Type} `{TD : Tdefl C} `{TI : Tinfl I} `{CR : Crc}.

(** [gzDeflateBin]: [None] for a null result; [a1], [a2] the two allocations. *)
Definition gzDeflateBin (a1 a2 : bool) (inp : bytes) : option bytes :=
  let inLen := Zlen inp in
  if negb (a1 && a2) then None
  else
    let '(_, st, inSz, out) :=
      tdefl_compress tdefl_init inp (inLen + inLen / 8 + 192) TDEFL_FINISH in
    match st with
    | TDEFL_STATUS_DONE =>
        if negb (inSz =? inLen) then None
        else Some (GZ_HEADER ++ out ++ wr32 (mz_crc32 0 inp) ++ wr32 inLen)
    | _ => None
    end.

(** [while (off < n && gz[off]) off++; off++], with [n - off] bytes left. *)
Definition skipZ (gz : bytes) (off : Z) : Z :=
  let rest := drop (Z.to_nat off) gz in
  off + Zlen (take_while (fun c => negb (c =? 0)) rest) + 1.

(** The offset of the deflate data: inner [None] for a malformed header. *)
Definition gzDataOff (gz : bytes) : option (option Z) :=
  let n := Zlen gz in
  if n <? 10 + 8 then Some None
  else
    m0 ← mem_get gz 0; m1 ← mem_get gz 1; m2 ← mem_get gz 2;
    if negb (m0 =? 0x1f) || negb (m1 =? 0x8b) || negb (m2 =? 8) then Some None
    else
      flg ← mem_get gz 3;
      let off := 10 in
      xl ← (if Z.land flg 0x04 =? 0 then Some (Some 0)
            else if n <? off + 2 then Some None
            else (fun l => Some (2 + l)) <$> rd16 gz off);
      match xl with
      | None => Some None
      | Some xl =>
          let off := off + xl in
          let off := if Z.land flg 0x08 =? 0 then off else skipZ gz off in
          let off := if Z.land flg 0x10 =? 0 then off else skipZ gz off in
          let off := if Z.land flg 0x02 =? 0 then off else off + 2 in
          if n <? off + 8 then Some None else Some (Some off)
      end.

(** [gzInflateBin]: inner [None] for a null result. *)
Definition gzInflateBin (a1 a2 : bool) (gz : bytes) : option (option bytes) :=
  off ← gzDataOff gz;
  match off with
  | None => Some None
  | Some off =>
      let n := Zlen gz in
      crc ← rd32 gz (n - 8);
      isz ← rd32 gz (n - 4);
      if 8 * 1024 * 1024 <? isz then Some None
      else if negb (a1 && a2) then Some None
      else
        inp ← mem_slice gz off (n - off - 8);
        let '(_, st, _, out) := tinfl_decompress tinfl_init inp isz false in
        match st with
        | TINFL_STATUS_DONE =>
            if negb (Zlen out =? isz) || negb (mz_crc32 0 out =? crc) then Some None else Some (Some out)
        | _ => Some None
        end
  end.

(** [gzInflatePrefix]: the bytes produced, empty for a malformed stream. *)
Definition gzInflatePrefix (a1 : bool) (gz : bytes) (maxOut : Z) : option bytes :=
  off ← gzDataOff gz;
  match off with
  | None => Some []
  | Some off =>
      if negb a1 then Some []
      else
        inp ← mem_slice gz off (Zlen gz - off - 8);
        let '(_, st, _, out) := tinfl_decompress tinfl_init inp maxOut false in
        match st with
        | TINFL_STATUS_DONE | TINFL_STATUS_HAS_MORE_OUTPUT => Some out
        | _ => Some []
        end
  end.

End Gz.
End Gz.

Module Block.

Definition SDB_MAGIC : bytes := [83; 71; 68; 66].
Definition SDB_FORMAT_VER : Z := 2.
Definition SDB_FILE_HDR : Z := 16.
Definition SDB_COMPACT_SCRATCH : Z := 8192.

(** [struct sdb_store]: [block] is the arena up to [used], [cap] its capacity. *)
Record sdb_store := {
  schema : sdb_schema; path : bytes; cap_records : Z;
  block : bytes; cap : Z; loaded : bool; dirty : bool; grow_failed : bool;
  index : gmap bytes Z
}.

Definition used (s : sdb_store) : Z := Zlen (block s).
Definition hs (s : sdb_store) : Z := hdr_size (schema s).

Definition with_arena (s : sdb_store) (b : bytes) (idx : gmap bytes Z) : sdb_store :=
  {| schema := schema s; path := path s; cap_records := cap_records s; block := b; cap := cap s;
     loaded := loaded s; dirty := dirty s; grow_failed := grow_failed s; index := idx |}.
Definition with_cap (s : sdb_store) (c : Z) (gf : bool) : sdb_store :=
  {| schema := schema s; path := path s; cap_records := cap_records s; block := block s; cap := c;
     loaded := loaded s; dirty := dirty s; grow_failed := gf; index := index s |}.
Definition with_flags (s : sdb_store) (ld dt : bool) : sdb_store :=
  {| schema := schema s; path := path s; cap_records := cap_records s; block := block s; cap := cap s;
     loaded := ld; dirty := dt; grow_failed := grow_failed s; index := index s |}.

(** The outcome of the allocations an append may make: the doubling, the page-rounded
    retry, the fresh block of a relocation. *)
Record heap := { grow1 : bool; grow2 : bool; fresh : bool }.

Definition fileHeader (sc : sdb_schema) (recCount : Z) : bytes :=
  SDB_MAGIC ++ wr16 SDB_FORMAT_VER ++ wr16 (schema_id sc) ++ wr16 (schema_ver sc) ++
  wr16 (hdr_size sc) ++ wr32 recCount.

Definition writeFileHeader (sc : sdb_schema) (b : bytes) (recCount : Z) : option bytes :=
  mem_put b 0 (fileHeader sc recCount).

Definition buildDiskImage (s : sdb_store) (alloc_ok : bool) : option (option bytes) :=
  let desc := serializeDescriptor (schema s) in
  if negb alloc_ok then Some None
  else
    hd ← mem_slice (block s) 0 SDB_FILE_HDR;
    hd ← mem_put hd 4 (wr16 SDB_FORMAT_VER);
    recs ← mem_slice (block s) SDB_FILE_HDR (used s - SDB_FILE_HDR);
    Some (Some (hd ++ wr16 (Zlen desc) ++ desc ++ recs)).

(** [while (ncap < need) ncap *= 2]. *)
Fixpoint growLoop (fuel : nat) (ncap need : Z) : option Z :=
  if ncap <? need then
    match fuel with O => None | S f => growLoop f (ncap * 2) need end
  else Some ncap.

Definition page_up (n : Z) : Z := (n + 4095) / 4096 * 4096.

Definition ensureCap (s : sdb_store) (need : Z) (h : heap) : option (sdb_store * bool) :=
  if need <=? cap s then Some (with_cap s (cap s) false, true)
  else
    ncap ← growLoop 64 (if cap s =? 0 then 256 else cap s) need;
    if grow1 h then Some (with_cap s ncap false, true)
    else if grow2 h then Some (with_cap s (page_up need) false, true)
    else Some (with_cap s (cap s) true, false).

(** The key of the record at [off]. *)
Definition keyAt (hsz : Z) (b : bytes) (off : Z) : option bytes :=
  klen ← rd16 b (off + hsz);
  mem_slice b (off + hsz + 2) klen.

Definition is_live (flags : Z) : bool := Z.land flags SDB_FLAG_DELETED =? 0.

(** [rebuildIndex]: [Some (false, _)] for a structurally corrupt record. *)
Fixpoint rebuildLoop (fuel : nat) (hsz : Z) (b : bytes) (off : Z) (idx : gmap bytes Z)
    : option (bool * gmap bytes Z) :=
  if negb (off <? Zlen b) then Some (true, idx)
  else
    match fuel with
    | O => None
    | S f =>
        if Zlen b <? off + hsz then Some (false, idx)
        else
          rlen ← rd32 b (off + SDB_REC_LEN_OFF);
          if (rlen <? hsz) || (Zlen b <? off + rlen) then Some (false, idx)
          else
            flags ← mem_get b (off + SDB_FLAGS_OFF);
            if is_live flags then
              klen ← rd16 b (off + hsz);
              if rlen <? hsz + 2 + klen then Some (false, idx)
              else
                key ← mem_slice b (off + hsz + 2) klen;
                rebuildLoop f hsz b (off + rlen) (<[key := off]> idx)
            else rebuildLoop f hsz b (off + rlen) idx
    end.

Definition rebuildIndex (s : sdb_store) : option (sdb_store * bool) :=
  '(ok, idx) ← rebuildLoop (length (block s)) (hs s) (block s) SDB_FILE_HDR ∅;
  Some (with_arena s (block s) idx, ok).

Definition findRec (s : sdb_store) (key : bytes) : option Z := index s !! key.

(** The text fields from [p], [n] to go. *)
Fixpoint readTexts (n : nat) (b : bytes) (p : Z) : option (list bytes) :=
  match n with
  | O => Some []
  | S n' =>
      l ← rd16 b p;
      t ← mem_slice b (p + 2) l;
      rest ← readTexts n' b (p + 2 + l);
      Some (t :: rest)
  end.

Definition readRecordText (sc : sdb_schema) (b : bytes) (off : Z) : option (bytes * list bytes) :=
  let p := off + hdr_size sc in
  klen ← rd16 b p;
  key ← mem_slice b (p + 2) klen;
  texts ← readTexts (Z.to_nat (textCount sc)) b (p + 2 + klen);
  Some (key, texts).

Definition textImage (t : bytes) : bytes := wr16 (Zlen t) ++ t.

(** [hdrCopy] is [hs] bytes; the length and the flags are put over the copy. *)
Definition buildRecord (hdrCopy key : bytes) (texts : list bytes) : option bytes :=
  let r := hdrCopy ++ textImage key ++ concat (map textImage texts) in
  flags ← mem_get hdrCopy SDB_FLAGS_OFF;
  r ← mem_put r SDB_REC_LEN_OFF (wr32 (Zlen r));
  mem_put r SDB_FLAGS_OFF [flags].

(** The compaction loop: write cursor [w], read cursor [off], scratch contents. *)
Fixpoint compactLoop (fuel : nat) (hsz usd : Z) (b : bytes) (idx : gmap bytes Z)
    (w off : Z) (scratch : bytes) (kept : Z) : option (bytes * gmap bytes Z * Z * bytes * Z) :=
  if negb (off <? usd) then Some (b, idx, w, scratch, kept)
  else
    match fuel with
    | O => None
    | S f =>
        rlen ← rd32 b (off + SDB_REC_LEN_OFF);
        if (rlen <? hsz) || (usd <? off + rlen) then Some (b, idx, w, scratch, kept)
        else
          flags ← mem_get b (off + SDB_FLAGS_OFF);
          if negb (is_live flags) then compactLoop f hsz usd b idx w (off + rlen) scratch kept
          else if SDB_COMPACT_SCRATCH <? rlen then
            b1 ← (if Zlen scratch =? 0 then Some b else mem_put b w scratch);
            let w1 := w + Zlen scratch in
            key ← keyAt hsz b1 off;
            rec ← mem_slice b1 off rlen;
            b2 ← mem_put b1 w1 rec;
            compactLoop f hsz usd b2 (<[key := w1]> idx) (w1 + rlen) (off + rlen) [] (kept + 1)
          else
            let full := SDB_COMPACT_SCRATCH <? Zlen scratch + rlen in
            b1 ← (if full then mem_put b w scratch else Some b);
            let w1 := if full then w + Zlen scratch else w in
            let scratch1 := if full then [] else scratch in
            key ← keyAt hsz b1 off;
            rec ← mem_slice b1 off rlen;
            compactLoop f hsz usd b1 (<[key := w1 + Zlen scratch1]> idx) w1 (off + rlen)
              (scratch1 ++ rec) (kept + 1)
    end.

Definition sdbCompactInPlace (s : sdb_store) : option sdb_store :=
  '(b, idx, w, scratch, kept) ←
    compactLoop (length (block s)) (hs s) (used s) (block s) (index s) SDB_FILE_HDR SDB_FILE_HDR [] 0;
  b ← (if Zlen scratch =? 0 then Some b else mem_put b w scratch);
  let w := w + Zlen scratch in
  b ← mem_slice b 0 w;
  b ← writeFileHeader (schema s) b kept;
  Some (with_arena s b idx).

(** The scan of [reclaimForAppend]: the bytes of live records. *)
Fixpoint liveBytesLoop (fuel : nat) (hsz : Z) (b : bytes) (off acc : Z) : option Z :=
  if negb (off <? Zlen b) then Some acc
  else
    match fuel with
    | O => None
    | S f =>
        rlen ← rd32 b (off + SDB_REC_LEN_OFF);
        if (rlen <? hsz) || (Zlen b <? off + rlen) then Some acc
        else
          flags ← mem_get b (off + SDB_FLAGS_OFF);
          liveBytesLoop f hsz b (off + rlen) (if is_live flags then acc + rlen else acc)
    end.

(** The relocation loop: the new block [nb] grows by the live records. *)
Fixpoint relocateLoop (fuel : nat) (hsz : Z) (b : bytes) (o : Z) (nb : bytes) (idx : gmap bytes Z)
    (kept : Z) : option (bytes * gmap bytes Z * Z) :=
  if negb (o <? Zlen b) then Some (nb, idx, kept)
  else
    match fuel with
    | O => None
    | S f =>
        rlen ← rd32 b (o + SDB_REC_LEN_OFF);
        if (rlen <? hsz) || (Zlen b <? o + rlen) then Some (nb, idx, kept)
        else
          flags ← mem_get b (o + SDB_FLAGS_OFF);
          if is_live flags then
            rec ← mem_slice b o rlen;
            let nb1 := nb ++ rec in
            key ← keyAt hsz nb1 (Zlen nb);
            relocateLoop f hsz b (o + rlen) nb1 (<[key := Zlen nb]> idx) (kept + 1)
          else relocateLoop f hsz b (o + rlen) nb idx kept
    end.

Definition reclaimForAppend (s : sdb_store) (recSize : Z) (h : heap) : option (sdb_store * bool) :=
  liveBytes ← liveBytesLoop (length (block s)) (hs s) (block s) SDB_FILE_HDR SDB_FILE_HDR;
  let target := liveBytes + recSize in
  if (cap s * 9 <=? liveBytes * 10) && fresh h then
    let newcap := liveBytes + liveBytes / 5 in
    let newcap := page_up (if newcap <? target then target else newcap) in
    hd ← mem_slice (block s) 0 SDB_FILE_HDR;
    '(nb, idx, kept) ← relocateLoop (length (block s)) (hs s) (block s) SDB_FILE_HDR hd (index s) 0;
    nb ← writeFileHeader (schema s) nb kept;
    let s := with_cap (with_arena s nb idx) newcap false in
    Some (s, used s + recSize <=? cap s)
  else
    s ← sdbCompactInPlace s;
    if used s + recSize <=? cap s then Some (with_cap s (cap s) false, true) else Some (s, false).

Definition appendRecord (s : sdb_store) (key rec : bytes) (h : heap) : option (sdb_store * bool) :=
  '(s, fits) ← ensureCap s (used s + Zlen rec) h;
  '(s, fits) ← (if fits : bool then Some (s, true) else reclaimForAppend s (Zlen rec) h);
  if negb fits then Some (s, false)
  else Some (with_arena s (block s ++ rec) (<[key := used s]> (index s)), true).

(** The tombstoning loop of [compact]. *)
Fixpoint tombstoneLoop (fuel : nat) (hsz : Z) (b : bytes) (idx : gmap bytes Z) (off todo : Z)
    : option (bytes * gmap bytes Z) :=
  if negb ((0 <? todo) && (off <? Zlen b)) then Some (b, idx)
  else
    match fuel with
    | O => None
    | S f =>
        rlen ← rd32 b (off + SDB_REC_LEN_OFF);
        if (rlen <? hsz) || (Zlen b <? off + rlen) then Some (b, idx)
        else
          flags ← mem_get b (off + SDB_FLAGS_OFF);
          if is_live flags then
            key ← keyAt hsz b off;
            b1 ← mem_put b (off + SDB_FLAGS_OFF) [Z.lor flags SDB_FLAG_DELETED];
            tombstoneLoop f hsz b1 (delete key idx) (off + rlen) (todo - 1)
          else tombstoneLoop f hsz b idx (off + rlen) todo
    end.

Definition compact (s : sdb_store) (dropOldest : Z) : option sdb_store :=
  '(b, idx) ← tombstoneLoop (length (block s)) (hs s) (block s) (index s) SDB_FILE_HDR dropOldest;
  sdbCompactInPlace (with_arena s b idx).

End Block.
Import Block.

(** ** The file system, as the module uses it *)
Class FileSys (F : Type) := {
  fs_stat : F -> bytes -> option Z;
  fs_open_rb : F -> bytes -> bool;
  fs_read : F -> bytes -> Z -> bytes;
  fs_open_w : F -> bytes -> option F;
  fs_write : F -> bytes -> bytes -> F * Z;
  fs_remove : F -> bytes -> F;
  fs_rename : F -> bytes -> bytes -> bool * F
}.

Module Store.

Definition sdbInitEmpty (s : sdb_store) (h : heap) : option sdb_store :=
  if loaded s then Some s
  else
    '(s, fits) ← ensureCap (with_arena s (block s) ∅) SDB_FILE_HDR h;
    if negb (fits : bool) then Some s
    else
      b ← writeFileHeader (schema s) (replicate (Z.to_nat SDB_FILE_HDR) 0) 0;
      Some (with_flags (with_arena s b ∅) true false).

Definition sdbEvict (s : sdb_store) : sdb_store :=
  {| schema := schema s; path := path s; cap_records := cap_records s; block := []; cap := 0;
     loaded := false; dirty := false; grow_failed := grow_failed s; index := ∅ |}.

Definition sdbHasRecord (s : sdb_store) (key : bytes) : bool :=
  loaded s && bool_decide (is_Some (index s !! key)).

Definition sdbRecordCount (s : sdb_store) : Z := Z.of_nat (size (index s)).

(** The value of field [fd] of the record at [off], as the string API renders it;
    inner [None] for a field the record does not have. *)
Definition fieldValue (sc : sdb_schema) (b : bytes) (off : Z) (fd : sdb_field) : option (option bytes) :=
  if kind fd =? SDB_U8 then v ← mem_get b (off + foff fd); Some (Some (udec v))
  else if kind fd =? SDB_U32 then v ← rd32 b (off + foff fd); Some (Some (udec v))
  else if kind fd =? SDB_FIXSTR then
    p ← mem_slice b (off + foff fd) (width fd); Some (Some (c_str p))
  else if kind fd =? SDB_DATA then
    p ← mem_slice b (off + foff fd) (width fd);
    Some (Some (if isAllZero p then [] else hexEncodeBytes p))
  else if kind fd =? SDB_TEXT then
    '(_, texts) ← readRecordText sc b off;
    Some (texts !! Z.to_nat (foff fd))
  else Some None.

Definition sdbGetField (s : sdb_store) (key field : bytes) : option (option bytes) :=
  if negb (loaded s) then Some None
  else
    match findRec s key, find (schema s) field with
    | Some off, Some fd => fieldValue (schema s) (block s) off fd
    | _, _ => Some None
    end.

(** [sdbGetFieldBin] with a buffer of [capacity] bytes: success, the reported length,
    the bytes copied. *)
Definition sdbGetFieldBin (s : sdb_store) (key field : bytes) (capacity : Z)
    : option (bool * Z * bytes) :=
  if negb (loaded s) then Some (false, 0, [])
  else
    match findRec s key, find (schema s) field with
    | Some off, Some fd =>
        if negb (kind fd =? SDB_DATA) then Some (false, 0, [])
        else
          p ← mem_slice (block s) (off + foff fd) (width fd);
          if isAllZero p then Some (false, 0, [])
          else if capacity <? width fd then Some (false, width fd, [])
          else Some (true, width fd, p)
    | _, _ => Some (false, 0, [])
    end.

(** The creation branch of [sdbSetField]: append an empty record, then enforce the
    cap. The offset of the record, [None] for an early return. *)
Definition createRecord (s : sdb_store) (key : bytes) (h : heap) : option (sdb_store * option Z) :=
  rec ← buildRecord (replicate (Z.to_nat (hs s)) 0) key
          (replicate (Z.to_nat (textCount (schema s))) []);
  '(s, appended) ← appendRecord s key rec h;
  if negb (appended : bool) then Some (s, None)
  else
    match findRec s key with
    | None => Some (s, None)
    | Some off =>
        let n := sdbRecordCount s in
        if negb (cap_records s =? 0) && (cap_records s <? n) then
          let drop := (n - cap_records s) + cap_records s / 8 in
          let drop := if n <=? drop then n - 1 else drop in
          s ← compact s drop;
          match findRec s key with
          | None => Some (with_flags s (loaded s) true, None)
          | Some off => Some (s, Some off)
          end
        else Some (s, Some off)
    end.

(** The switch of [sdbSetField] on the record at [off]. *)
Definition writeField (s : sdb_store) (off : Z) (fd : sdb_field) (val : bytes) (h : heap)
    : option sdb_store :=
  let at' := off + foff fd in
  let put v := b ← mem_put (block s) at' v; Some (with_flags (with_arena s b (index s)) (loaded s) true) in
  if kind fd =? SDB_U8 then put [wrap8 (atoi val)]
  else if kind fd =? SDB_U32 then put (wr32 (strtoul val))
  else if kind fd =? SDB_FIXSTR then
    let l := if width fd <=? Zlen val then width fd - 1 else Zlen val in
    if l <? 0 then None
    else put (take (Z.to_nat l) val ++ replicate (Z.to_nat (width fd - l)) 0)
  else if kind fd =? SDB_DATA then
    let d := if Zlen val =? width fd * 2 then hexDecodeInto val (Z.to_nat (width fd)) else [] in
    put (d ++ replicate (Z.to_nat (width fd) - length d) 0)
  else if kind fd =? SDB_TEXT then
    '(k, texts) ← readRecordText (schema s) (block s) off;
    let i := Z.to_nat (foff fd) in
    if bool_decide (texts !! i = Some val) then Some s
    else
      let texts := <[i := val]> texts in
      hdr ← mem_slice (block s) off (hs s);
      rec ← buildRecord hdr k texts;
      rlen ← rd32 (block s) (off + SDB_REC_LEN_OFF);
      if Zlen rec =? rlen then
        b ← mem_put (block s) off rec;
        Some (with_flags (with_arena s b (index s)) (loaded s) true)
      else
        flags ← mem_get (block s) (off + SDB_FLAGS_OFF);
        b ← mem_put (block s) (off + SDB_FLAGS_OFF) [Z.lor flags SDB_FLAG_DELETED];
        '(s, _) ← appendRecord (with_arena s b (delete k (index s))) k rec h;
        Some (with_flags s (loaded s) true)
  else Some (with_flags s (loaded s) true).

Definition sdbSetField (s : sdb_store) (key field val : bytes) (h1 h2 : heap) : option sdb_store :=
  if negb (loaded s) then Some s
  else
    match find (schema s) field with
    | None => Some s
    | Some fd =>
        '(s, off) ← (match findRec s key with
                     | Some off => Some (s, Some off)
                     | None => createRecord s key h1
                     end);
        match off with
        | None => Some s
        | Some off => writeField s off fd val h2
        end
    end.

Definition sdbDeleteRecord (s : sdb_store) (key : bytes) : option sdb_store :=
  if negb (loaded s) then Some s
  else
    match findRec s key with
    | None => Some s
    | Some off =>
        flags ← mem_get (block s) (off + SDB_FLAGS_OFF);
        b ← mem_put (block s) (off + SDB_FLAGS_OFF) [Z.lor flags SDB_FLAG_DELETED];
        Some (with_flags (with_arena s b (delete key (index s))) (loaded s) true)
    end.

(** What [sdbForEach] reports of one record: empty strings are skipped. *)
Definition reportField (sc : sdb_schema) (b : bytes) (off : Z) (key : bytes) (fd : sdb_field)
    : option (list (bytes * bytes * bytes)) :=
  v ← fieldValue sc b off fd;
  Some (match v with
        | Some v =>
            if (kind fd =? SDB_U8) || (kind fd =? SDB_U32) || negb (Zlen v =? 0)
            then [(c_str key, c_str (fname fd), c_str v)] else []
        | None => []
        end).

Fixpoint reportFields (sc : sdb_schema) (b : bytes) (off : Z) (key : bytes) (fs : list sdb_field)
    : option (list (bytes * bytes * bytes)) :=
  match fs with
  | [] => Some []
  | fd :: rest =>
      a ← reportField sc b off key fd;
      r ← reportFields sc b off key rest;
      Some (a ++ r)
  end.

Fixpoint forEachLoop (fuel : nat) (sc : sdb_schema) (b : bytes) (off : Z)
    : option (list (bytes * bytes * bytes)) :=
  if negb (off <? Zlen b) then Some []
  else
    match fuel with
    | O => None
    | S f =>
        rlen ← rd32 b (off + SDB_REC_LEN_OFF);
        if (rlen <? hdr_size sc) || (Zlen b <? off + rlen) then Some []
        else
          flags ← mem_get b (off + SDB_FLAGS_OFF);
          now ← (if is_live flags then
                   '(key, _) ← readRecordText sc b off;
                   reportFields sc b off key (fields sc)
                 else Some []);
          rest ← forEachLoop f sc b (off + rlen);
          Some (now ++ rest)
    end.

(** The calls [sdbForEach] makes, in order. *)
Definition sdbForEach (s : sdb_store) : option (list (bytes * bytes * bytes)) :=
  if negb (loaded s) then Some []
  else forEachLoop (length (block s)) (schema s) (block s) SDB_FILE_HDR.

(** ** Migration *)

(** The outcome of the allocations of each [sdbSetField] call. *)
Definition heaps : Type := bytes -> bytes -> heap * heap.

Fixpoint migrateFields (src : sdb_store) (key : bytes) (fs : list sdb_field) (dst : sdb_store)
    (materialized : bool) (hp : heaps) : option (sdb_store * bool) :=
  match fs with
  | [] => Some (dst, materialized)
  | fd :: rest =>
      let nm := c_str (fname fd) in
      match find (schema dst) nm with
      | None => migrateFields src key rest dst materialized hp
      | Some _ =>
          v ← sdbGetField src (c_str key) nm;
          match v with
          | None => migrateFields src key rest dst materialized hp
          | Some v =>
              dst ← sdbSetField dst (c_str key) nm (c_str v) (hp key nm).1 (hp key nm).2;
              migrateFields src key rest dst true hp
          end
      end
  end.

Fixpoint migrateLoop (fuel : nat) (src : sdb_store) (off : Z) (dst : sdb_store) (hp : heaps)
    : option sdb_store :=
  if negb (off <? used src) then Some dst
  else
    match fuel with
    | O => None
    | S f =>
        rlen ← rd32 (block src) (off + SDB_REC_LEN_OFF);
        if (rlen <? hs src) || (used src <? off + rlen) then Some dst
        else
          flags ← mem_get (block src) (off + SDB_FLAGS_OFF);
          dst ← (if is_live flags then
                   '(key, _) ← readRecordText (schema src) (block src) off;
                   '(dst, materialized) ← migrateFields src key (fields (schema src)) dst false hp;
                   match materialized, fields (schema dst) with
                   | false, fd :: _ =>
                       sdbSetField dst (c_str key) (c_str (fname fd)) [] (hp key []).1 (hp key []).2
                   | _, _ => Some dst
                   end
                 else Some dst);
          migrateLoop f src (off + rlen) dst hp
    end.

Definition sdbMigrateRecords (dst src : sdb_store) (hp : heaps) : option sdb_store :=
  migrateLoop (length (block src)) src SDB_FILE_HDR dst hp.

(** ** Files *)

Section Files.
Context {C I F : Type} `{TD : Tdefl C} `{TI : Tinfl I} `{CR : Crc} `{FS : FileSys F}.

(** The allocations of a load: file buffer, inflater output and state, record block,
    the empty arena, and those of a migration. *)
Record load_heap := {
  a_raw : bool; a_out : bool; a_inf : bool; a_rb : bool; a_init : heap; a_mig : heaps
}.

Definition peekPrefix (fs : F) (p : bytes) (a1 a2 : bool) (window : Z) : option bytes :=
  match fs_stat fs p with
  | Some sz =>
      if sz <=? 0 then Some []
      else if negb (fs_open_rb fs p) then Some []
      else if negb a1 then Some []
      else Gz.gzInflatePrefix a2 (fs_read fs p sz) window
  | None => Some []
  end.

Definition magic_ok (pre : bytes) : bool := bool_decide (take 4 pre = SDB_MAGIC).

(** [sdbPeekHeader]: schema id, version and header size. *)
Definition sdbPeekHeader (fs : F) (p : bytes) (a1 a2 : bool) : option (option (Z * Z * Z)) :=
  pre ← peekPrefix fs p a1 a2 SDB_FILE_HDR;
  if (Zlen pre <? SDB_FILE_HDR) || negb (magic_ok pre) then Some None
  else
    id ← rd16 pre 6; ver ← rd16 pre 8; hdr ← rd16 pre 10;
    Some (Some (id, ver, hdr)).

Definition sdbFileMatchesSchema (fs : F) (p : bytes) (cur : sdb_schema) (a1 a2 : bool) : option bool :=
  pre ← peekPrefix fs p a1 a2 512;
  if (Zlen pre <? SDB_FILE_HDR + 2) || negb (magic_ok pre) then Some false
  else
    fmt ← rd16 pre 4;
    if fmt <? 2 then Some false
    else
      descLen ← rd16 pre SDB_FILE_HDR;
      if Zlen pre <? SDB_FILE_HDR + 2 + descLen then Some false
      else
        let want := serializeDescriptor cur in
        d ← mem_slice pre (SDB_FILE_HDR + 2) descLen;
        Some (bool_decide (Zlen want = descLen) && bool_decide (d = want)).

(** [sdbLoadFailEmpty], and the same reset for an unknown v1 layout. *)
Definition sdbLoadFailEmpty (s : sdb_store) (h : heap) : option (sdb_store * bool) :=
  let s := {| schema := schema s; path := path s; cap_records := cap_records s; block := []; cap := 0;
              loaded := false; dirty := dirty s; grow_failed := grow_failed s; index := index s |} in
  s ← sdbInitEmpty s h;
  Some (s, false).

Definition initThen (s : sdb_store) (h : heap) (r : bool) : option (sdb_store * bool) :=
  s ← sdbInitEmpty s h; Some (s, r).

(** The schema the records of the image were written with and where they begin;
    inner [None] for another store's file, a bad descriptor or an unknown layout. *)
Definition resolveReader (s : sdb_store) (legacy : list sdb_legacy) (blk : bytes)
    : option (option (sdb_schema * Z)) :=
  fmt ← rd16 blk 4; fid ← rd16 blk 6; fver ← rd16 blk 8; fhdr ← rd16 blk 10;
  if negb (fid =? schema_id (schema s)) then Some None
  else if 2 <=? fmt then
    if Zlen blk <? SDB_FILE_HDR + 2 then Some None
    else
      descLen ← rd16 blk SDB_FILE_HDR;
      let recStart := SDB_FILE_HDR + 2 + descLen in
      if Zlen blk <? recStart then Some None
      else
        desc ← mem_slice blk (SDB_FILE_HDR + 2) descLen;
        sc ← parseDescriptor desc fid fver fhdr;
        Some (option_map (fun sc => (sc, recStart)) sc)
  else if fhdr =? hdr_size (schema s) then Some (Some (schema s, SDB_FILE_HDR))
  else Some (option_map (fun sc => (sc, SDB_FILE_HDR)) (sdbFindLegacy legacy fid fhdr)).

(** Adopting or migrating the records of a decoded image. *)
Definition adoptImage (s : sdb_store) (reader : sdb_schema) (rb : bytes) (lh : load_heap)
    : option (sdb_store * bool) :=
  if schemaLayoutEqual reader (schema s) then
    let s1 := {| schema := schema s; path := path s; cap_records := cap_records s; block := rb;
                 cap := Zlen rb; loaded := true; dirty := false; grow_failed := grow_failed s;
                 index := index s |} in
    '(s1, good) ← rebuildIndex s1;
    if negb (good : bool) then sdbLoadFailEmpty s1 (a_init lh)
    else
      b ← writeFileHeader (schema s1) (block s1) (sdbRecordCount s1);
      Some (with_arena s1 b (index s1), true)
  else
    let rs := {| schema := reader; path := []; cap_records := 0; block := rb; cap := Zlen rb;
                 loaded := true; dirty := false; grow_failed := false; index := ∅ |} in
    '(rs, good) ← rebuildIndex rs;
    if negb (good : bool) then sdbLoadFailEmpty s (a_init lh)
    else
      ds ← sdbInitEmpty {| schema := schema s; path := path s; cap_records := 0; block := []; cap := 0;
                           loaded := false; dirty := false; grow_failed := false; index := ∅ |} (a_init lh);
      if negb (loaded ds) then initThen s (a_init lh) false
      else
        ds ← sdbMigrateRecords ds rs (a_mig lh);
        b ← writeFileHeader (schema s) (block ds) (sdbRecordCount ds);
        Some ({| schema := schema s; path := path s; cap_records := cap_records s; block := b;
                 cap := cap ds; loaded := true; dirty := true; grow_failed := grow_failed s;
                 index := index ds |}, true).

Definition sdbLoad (fs : F) (legacy : list sdb_legacy) (s : sdb_store) (lh : load_heap)
    : option (sdb_store * bool) :=
  if loaded s then Some (s, true)
  else if Zlen (path s) =? 0 then initThen s (a_init lh) true
  else
    match fs_stat fs (path s) with
    | None => initThen s (a_init lh) true
    | Some sz =>
        if sz <=? 0 then initThen s (a_init lh) true
        else if negb (fs_open_rb fs (path s)) then initThen s (a_init lh) true
        else if negb (a_raw lh) then initThen s (a_init lh) false
        else
          blk ← Gz.gzInflateBin (a_out lh) (a_inf lh) (fs_read fs (path s) sz);
          match blk with
          | None => initThen s (a_init lh) false
          | Some blk =>
              if (Zlen blk <? SDB_FILE_HDR) || negb (magic_ok blk) then sdbLoadFailEmpty s (a_init lh)
              else
                rd ← resolveReader s legacy blk;
                match rd with
                | None => sdbLoadFailEmpty s (a_init lh)
                | Some (reader, recStart) =>
                    if negb (a_rb lh) then initThen s (a_init lh) false
                    else
                      hd ← mem_slice blk 0 SDB_FILE_HDR;
                      recs ← mem_slice blk recStart (Zlen blk - recStart);
                      adoptImage s reader (hd ++ recs) lh
                end
          end
    end.

(** The chunked write: the file system and whether every byte was taken. *)
Fixpoint writeFileLoop (fuel : nat) (fs : F) (p gz : bytes) : option (F * bool) :=
  if Zlen gz =? 0 then Some (fs, true)
  else
    match fuel with
    | O => None
    | S f =>
        let now := take (Z.to_nat 8192) gz in
        let '(fs, n) := fs_write fs p now in
        if negb (n =? Zlen now) then Some (fs, false)
        else writeFileLoop f fs p (drop (Z.to_nat 8192) gz)
    end.

Definition sdbFlush (fs : F) (s : sdb_store) (a_img a1 a2 : bool) : option (F * sdb_store * bool) :=
  if negb (loaded s) || (Zlen (path s) =? 0) then Some (fs, with_flags s (loaded s) false, true)
  else
    s ← compact s 0;
    img ← buildDiskImage s a_img;
    match img with
    | None => Some (fs, s, false)
    | Some img =>
        match Gz.gzDeflateBin a1 a2 img with
        | None => Some (fs, s, false)
        | Some gz =>
            let tmp := path s ++ $ ".new" in
            match fs_open_w fs tmp with
            | None => Some (fs, s, false)
            | Some fs1 =>
                '(fs2, ok) ← writeFileLoop (length gz) fs1 tmp gz;
                if negb (ok : bool) then Some (fs_remove fs2 tmp, s, false)
                else Some ((fs_rename fs2 tmp (path s)).2, with_flags s (loaded s) false, true)
            end
        end
    end.

Definition sdbUpgradeFileIfStale (fs : F) (legacy : list sdb_legacy) (p : bytes) (cur : sdb_schema)
    (lh : load_heap) (a1 a2 a3 : bool) : option (F * bool) :=
  match fs_stat fs p with
  | None => Some (fs, false)
  | Some sz =>
      if sz <=? 0 then Some (fs, false)
      else
        same ← sdbFileMatchesSchema fs p cur a1 a2;
        if same : bool then Some (fs, false)
        else
          '(s, good) ← sdbLoad fs legacy
            {| schema := cur; path := p; cap_records := 0; block := []; cap := 0; loaded := false;
               dirty := false; grow_failed := false; index := ∅ |} lh;
          if negb (good : bool) then Some (fs, false)
          else
            '(fs, _, ok) ← sdbFlush fs s a3 a1 a2;
            Some (fs, ok)
  end.

Definition sdbSerializeGz (s : sdb_store) (a_img a1 a2 : bool) : option (sdb_store * option bytes) :=
  if negb (loaded s) then Some (s, None)
  else
    s ← compact s 0;
    img ← buildDiskImage s a_img;
    Some (s, match img with Some img => Gz.gzDeflateBin a1 a2 img | None => None end).

Definition sdbSnapshotRaw (s : sdb_store) (a_img : bool) : option (sdb_store * option bytes) :=
  if negb (loaded s) then Some (s, None)
  else
    s ← compact s 0;
    img ← buildDiskImage s a_img;
    Some (s, img).

End Files.
End Store.
