(* ===== verification/StorageDbBlock.v ===== *)
(** * storage_db: the arena as a list of records

    [repr s rs]: the arena of [s] is the file header followed by the images of the
    records [rs], and its index is that of the live ones. Every arena operation is
    shown to act on [rs] as one expects. *)

From stdpp Require Import gmap.
From S2P Require Import Prelude CLib Targz StorageDb.
Import Schema Block.
Open Scope Z_scope.
Open Scope spangap_scope.

(** ** Records and their images *)

(** [r_fix]: the fixed header after the length and the flags. *)
Record rec := { r_flags : Z; r_fix : bytes; r_key : bytes; r_texts : list bytes }.

Definition tail_image (r : rec) : bytes := textImage (r_key r) ++ concat (map textImage (r_texts r)).
Definition reclen (r : rec) : Z := 5 + Zlen (r_fix r) + Zlen (tail_image r).
Definition image (r : rec) : bytes := wr32 (reclen r) ++ [r_flags r] ++ r_fix r ++ tail_image r.
Definition images (rs : list rec) : bytes := concat (map image rs).
Definition live (r : rec) : bool := is_live (r_flags r).
Definition lives (rs : list rec) : list rec := List.filter live rs.
Definition keys (rs : list rec) : list bytes := map r_key (lives rs).

Record wf_rec (hsz : Z) (nt : nat) (r : rec) : Prop := {
  wr_fix : Zlen (r_fix r) = hsz - 5;
  wr_key : Zlen (r_key r) < 2 ^ 16;
  wr_texts : Forall (fun t => Zlen t < 2 ^ 16) (r_texts r);
  wr_nt : length (r_texts r) = nt
}.

Lemma Zlen_image r : Zlen (image r) = reclen r.
Proof. unfold image, reclen, wr32. autorewrite with zlen. lia. Qed.
#[export] Hint Rewrite Zlen_image : zlen.

Lemma Zlen_textImage t : Zlen (textImage t) = 2 + Zlen t.
Proof. unfold textImage, wr16. autorewrite with zlen. lia. Qed.
#[export] Hint Rewrite Zlen_textImage : zlen.

Lemma reclen_ge hsz nt r : wf_rec hsz nt r -> hsz + 2 + Zlen (r_key r) <= reclen r.
Proof. intros []. unfold reclen, tail_image. zlia. Qed.

Lemma images_app a b : images (a ++ b) = images a ++ images b.
Proof. unfold images. by rewrite map_app, concat_app. Qed.

Lemma images_cons r rs : images (r :: rs) = image r ++ images rs.
Proof. done. Qed.

Lemma images_one r : images [r] = image r.
Proof. unfold images. cbn. by rewrite app_nil_r. Qed.

Lemma keys_app a b : keys (a ++ b) = keys a ++ keys b.
Proof. unfold keys, lives. by rewrite List.filter_app, map_app. Qed.

Lemma keys_lives rs : keys (lives rs) = keys rs.
Proof.
  unfold keys, lives. f_equal. induction rs as [|r rs IH]; [done|]. cbn.
  destruct (live r) eqn:E; cbn; rewrite ?E; congruence.
Qed.

(** ** Reading a record where it stands *)

Section At.
Variables (hsz : Z) (nt : nat) (P Q : bytes) (r : rec).
Hypothesis Hw : wf_rec hsz nt r.
Hypothesis Hlen : reclen r < 2 ^ 32.

Let b := P ++ image r ++ Q.

Lemma at_len : rd32 b (Zlen P + SDB_REC_LEN_OFF) = Some (reclen r).
Proof.
  unfold b, image, SDB_REC_LEN_OFF. rewrite <- app_assoc. rewrite rd32_mid by lia. unfold wrap32. rewrite Z.mod_small; [done|].
  pose proof (reclen_ge _ _ _ Hw). destruct Hw. pose proof (Zlen_nonneg (r_fix r)). pose proof (Zlen_nonneg (r_key r)). lia.
Qed.

Lemma at_flags : mem_get b (Zlen P + SDB_FLAGS_OFF) = Some (r_flags r).
Proof.
  unfold b, image, SDB_FLAGS_OFF. rewrite <- !app_assoc, app_assoc. cbn [app].
  apply mem_get_mid. unfold wr32. zlia.
Qed.

Lemma at_text t P' Q' : Zlen t < 2 ^ 16 ->
  rd16 (P' ++ textImage t ++ Q') (Zlen P') = Some (Zlen t) /\
  mem_slice (P' ++ textImage t ++ Q') (Zlen P' + 2) (Zlen t) = Some t.
Proof.
  intros Ht. unfold textImage. split.
  - rewrite <- app_assoc. rewrite rd16_mid by done. unfold wrap16. rewrite Z.mod_small by zlia. done.
  - rewrite <- app_assoc, app_assoc. apply mem_slice_mid; [unfold wr16; zlia|done].
Qed.

Lemma at_split : b = (P ++ wr32 (reclen r) ++ [r_flags r] ++ r_fix r) ++
  textImage (r_key r) ++ (concat (map textImage (r_texts r)) ++ Q) /\
  Zlen (P ++ wr32 (reclen r) ++ [r_flags r] ++ r_fix r) = Zlen P + hsz.
Proof.
  split; [unfold b, image, tail_image; by rewrite <- !app_assoc|]. destruct Hw. unfold wr32. zlia.
Qed.

Lemma at_klen : rd16 b (Zlen P + hsz) = Some (Zlen (r_key r)).
Proof. destruct at_split as [-> <-]. apply at_text. apply Hw. Qed.

Lemma at_key_slice : mem_slice b (Zlen P + hsz + 2) (Zlen (r_key r)) = Some (r_key r).
Proof. destruct at_split as [-> <-]. apply at_text. apply Hw. Qed.

Lemma at_key : keyAt hsz b (Zlen P) = Some (r_key r).
Proof. unfold keyAt. rewrite at_klen. cbn. apply at_key_slice. Qed.

Lemma readTexts_at ts P' Q' :
  Forall (fun t => Zlen t < 2 ^ 16) ts ->
  readTexts (length ts) (P' ++ concat (map textImage ts) ++ Q') (Zlen P') = Some ts.
Proof.
  intros H. revert P'. induction H as [|t ts Ht _ IH]; intros P'; [done|].
  cbn [length readTexts map concat]. rewrite <- app_assoc.
  destruct (at_text t P' (concat (map textImage ts) ++ Q') Ht) as [-> E]. cbn [mbind option_bind].
  rewrite E. cbn [mbind option_bind]. rewrite app_assoc.
  replace (Zlen P' + 2 + Zlen t) with (Zlen (P' ++ textImage t)) by zlia. rewrite IH. done.
Qed.

Lemma at_texts sc : hdr_size sc = hsz -> Z.to_nat (textCount sc) = nt ->
  readRecordText sc b (Zlen P) = Some (r_key r, r_texts r).
Proof.
  intros Hh Hn. unfold readRecordText. rewrite Hh, at_klen. cbn [mbind option_bind].
  rewrite at_key_slice. cbn [mbind option_bind].
  destruct at_split as [Eb El]. rewrite Eb, app_assoc.
  replace (Zlen P + hsz + 2 + Zlen (r_key r)) with
    (Zlen ((P ++ wr32 (reclen r) ++ [r_flags r] ++ r_fix r) ++ textImage (r_key r))) by (rewrite Zlen_app, El, Zlen_textImage; lia).
  rewrite Hn, <- (wr_nt _ _ _ Hw), readTexts_at by apply Hw. done.
Qed.

Lemma at_image : mem_slice b (Zlen P) (reclen r) = Some (image r).
Proof. unfold b. apply mem_slice_mid; [done|by rewrite Zlen_image]. Qed.

Lemma at_set_flags v : mem_put b (Zlen P + SDB_FLAGS_OFF) [v] =
  Some (P ++ image {| r_flags := v; r_fix := r_fix r; r_key := r_key r; r_texts := r_texts r |} ++ Q).
Proof.
  unfold b, image, tail_image, SDB_FLAGS_OFF. cbn [r_flags r_fix r_key r_texts reclen]. rewrite <- !app_assoc, app_assoc.
  rewrite (mem_put_mid (P ++ wr32 (reclen r)) [r_flags r] [v]); [|unfold wr32; zlia|done].
  f_equal. by rewrite <- !app_assoc.
Qed.
End At.

(** ** The index *)

(** Walking the records from [off], the live ones entered over [idx]. *)
Fixpoint index_acc (off : Z) (idx : gmap bytes Z) (rs : list rec) : gmap bytes Z :=
  match rs with
  | [] => idx
  | r :: rest => index_acc (off + reclen r) (if live r then <[r_key r := off]> idx else idx) rest
  end.

Lemma index_acc_app off idx a b :
  index_acc off idx (a ++ b) = index_acc (off + Zlen (images a)) (index_acc off idx a) b.
Proof.
  revert off idx. induction a as [|r a IH]; intros off idx.
  - cbn. by rewrite Zlen_nil, Z.add_0_r.
  - cbn [app index_acc]. rewrite IH, images_cons. f_equal. zlia.
Qed.

Lemma index_acc_notin off idx rs k : k ∉ keys rs -> index_acc off idx rs !! k = idx !! k.
Proof.
  revert off idx. induction rs as [|r rs IH]; intros off idx Hk; [done|]. cbn [index_acc].
  unfold keys, lives in Hk. cbn in Hk. destruct (live r); cbn in Hk.
  - apply not_elem_of_cons in Hk as [Hne Hk]. rewrite IH by done. by apply lookup_insert_ne.
  - by apply IH.
Qed.

Lemma index_acc_at off idx a r b :
  live r = true -> r_key r ∉ keys b ->
  index_acc off idx (a ++ r :: b) !! r_key r = Some (off + Zlen (images a)).
Proof.
  intros Hl Hk. rewrite index_acc_app. cbn [index_acc]. rewrite Hl, index_acc_notin by done.
  by rewrite lookup_insert_eq.
Qed.

(** A live key names a record. *)
Lemma keys_split rs k : k ∈ keys rs -> exists a r b, rs = a ++ r :: b /\ live r = true /\ r_key r = k /\ k ∉ keys b.
Proof.
  induction rs as [|r rs IH]; [by intros ?%not_elem_of_nil|].
  intros Hk. destruct (decide (k ∈ keys rs)) as [Hin|Hnin].
  - destruct (IH Hin) as (a & r' & b & -> & H). by exists (r :: a), r', b.
  - unfold keys, lives in Hk, Hnin. cbn in Hk. destruct (live r) eqn:El; cbn in Hk; [|done].
    apply elem_of_cons in Hk as [->|]; [|done]. by exists [], r, rs.
Qed.

(** Two walks that enter the same live keys at the same places agree, whatever they
    started from among those keys. *)
Lemma index_acc_base off idx rs :
  (forall k, k ∉ keys rs -> idx !! k = None) -> index_acc off idx rs = index_acc off ∅ rs.
Proof.
  intros Hi. apply map_eq. intros k. destruct (decide (k ∈ keys rs)) as [Hin|Hnin].
  - destruct (keys_split rs k Hin) as (a & r & b & -> & Hl & <- & Hb). by rewrite !index_acc_at.
  - rewrite !index_acc_notin by done. rewrite Hi by done. by rewrite lookup_empty.
Qed.

Lemma index_acc_size off rs : NoDup (keys rs) -> size (index_acc off ∅ rs) = length (keys rs).
Proof.
  assert (forall rs off idx, NoDup (keys rs) -> (forall k, k ∈ keys rs -> idx !! k = None) ->
    size (index_acc off idx rs) = (size idx + length (keys rs))%nat) as H.
  { clear. induction rs as [|r rs IH]; intros off idx Hn Hd; [cbn; lia|]. cbn [index_acc].
    unfold keys, lives in *. cbn in *. destruct (live r); cbn in *; [|by apply IH].
    apply NoDup_cons in Hn as [Hr Hn]. rewrite IH; [|done|].
    - rewrite map_size_insert_None by (apply Hd, elem_of_cons; by left). lia.
    - intros k Hk. rewrite lookup_insert_ne by congruence. apply Hd, elem_of_cons. by right. }
  intros Hn. rewrite H; [|done|intros; apply lookup_empty]. by rewrite map_size_empty.
Qed.

(** ** The invariant *)

Record repr (s : sdb_store) (rs : list rec) : Prop := {
  rp_block : exists hd, Zlen hd = 16 /\ block s = hd ++ images rs;
  rp_recs : Forall (wf_rec (hs s) (Z.to_nat (textCount (schema s)))) rs;
  rp_keys : NoDup (keys rs);
  rp_index : index s = index_acc 16 ∅ rs;
  rp_hs : 8 <= hs s;
  rp_cap : used s <= cap s;
  rp_small : cap s < 2 ^ 31
}.

Lemma reclen_le_images r rs : r ∈ rs -> reclen r <= Zlen (images rs).
Proof.
  intros (a & b & ->)%list_elem_of_split. rewrite images_app, images_cons. zlia.
Qed.

(** ** The walks *)

Section Walks.
Variables (hsz : Z) (nt : nat).
Hypothesis Hhs : 8 <= hsz.

Notation wf := (wf_rec hsz nt).

Lemma length_images rs : Forall wf rs -> (length rs <= length (images rs))%nat.
Proof.
  induction 1 as [|r rs Hr _ IH]; [done|]. rewrite images_cons, length_app. cbn [length].
  pose proof (Zlen_image r) as Hz. pose proof (reclen_ge _ _ _ Hr). pose proof (Zlen_nonneg (r_key r)).
  unfold Zlen in Hz. lia.
Qed.

(** The tests at the head of every walk, at a record. *)
Lemma walk_tests P r rs Q :
  wf r -> Zlen (P ++ images (r :: rs) ++ Q) < 2 ^ 32 ->
  (Zlen P <? Zlen (P ++ images (r :: rs) ++ Q)) = true /\
  (Zlen (P ++ images (r :: rs) ++ Q) <? Zlen P + hsz) = false /\
  (reclen r <? hsz) || (Zlen (P ++ images (r :: rs) ++ Q) <? Zlen P + reclen r) = false /\
  reclen r < 2 ^ 32 /\
  P ++ images (r :: rs) ++ Q = P ++ image r ++ (images rs ++ Q) /\
  P ++ images (r :: rs) ++ Q = (P ++ image r) ++ images rs ++ Q /\
  Zlen P + reclen r = Zlen (P ++ image r).
Proof.
  intros Hr Hlt. pose proof (reclen_ge _ _ _ Hr). pose proof (Zlen_nonneg (r_key r)).
  pose proof (Zlen_nonneg (images rs)). pose proof (Zlen_nonneg Q). pose proof (Zlen_nonneg P).
  rewrite images_cons in *. rewrite !Zlen_app, Zlen_image in *.
  rewrite <- !app_assoc. repeat split; lia.
Qed.

Lemma rebuildLoop_ok fuel P rs idx :
  Forall wf rs -> Zlen (P ++ images rs ++ []) < 2 ^ 32 -> (length rs <= fuel)%nat ->
  rebuildLoop fuel hsz (P ++ images rs ++ []) (Zlen P) idx = Some (true, index_acc (Zlen P) idx rs).
Proof.
  intros Hw. revert fuel P idx. induction Hw as [|r rs Hr _ IH]; intros fuel P idx Hlt Hf.
  - rewrite app_nil_r. destruct fuel; cbn [rebuildLoop images map concat]; rewrite Z.ltb_irrefl || rewrite app_nil_r, Z.ltb_irrefl; done.
  - destruct fuel as [|f]; [cbn in Hf; lia|].
    destruct (walk_tests P r rs [] Hr Hlt) as (T1 & T2 & T3 & T4 & E1 & E2 & E3).
    cbn [rebuildLoop]. rewrite T1, T2. cbn [negb]. rewrite E1, (at_len hsz nt), <- E1 by done. cbn [mbind option_bind].
    rewrite T3, E1, at_flags. cbn [mbind option_bind index_acc].
    unfold live. destruct (is_live (r_flags r)).
    + rewrite (at_klen hsz nt) by done. cbn [mbind option_bind].
      pose proof (reclen_ge _ _ _ Hr). rewrite (proj2 (Z.ltb_ge _ _)) by lia.
      rewrite (at_key_slice hsz nt) by done. cbn [mbind option_bind].
      rewrite <- E1, E2, E3. apply IH; [by rewrite <- E2|cbn in Hf; lia].
    + rewrite <- E1, E2, E3. apply IH; [by rewrite <- E2|cbn in Hf; lia].
Qed.

(** The bytes of the live records. *)
Lemma liveBytesLoop_ok fuel P rs acc :
  Forall wf rs -> Zlen (P ++ images rs ++ []) < 2 ^ 32 -> (length rs <= fuel)%nat ->
  liveBytesLoop fuel hsz (P ++ images rs ++ []) (Zlen P) acc = Some (acc + Zlen (images (lives rs))).
Proof.
  intros Hw. revert fuel P acc. induction Hw as [|r rs Hr _ IH]; intros fuel P acc Hlt Hf.
  - cbn [images lives List.filter map concat app]. rewrite app_nil_r, Zlen_nil, Z.add_0_r.
    destruct fuel; cbn [liveBytesLoop]; by rewrite Z.ltb_irrefl.
  - destruct fuel as [|f]; [cbn in Hf; lia|].
    destruct (walk_tests P r rs [] Hr Hlt) as (T1 & T2 & T3 & T4 & E1 & E2 & E3).
    cbn [liveBytesLoop]. rewrite T1. cbn [negb]. rewrite E1, (at_len hsz nt), <- E1 by done. cbn [mbind option_bind].
    rewrite T3, E1, at_flags. cbn [mbind option_bind].
    rewrite <- E1, E2, E3, IH; [|by rewrite <- E2|cbn in Hf; lia].
    f_equal. unfold lives. cbn [List.filter]. fold (lives rs). unfold live at 1.
    destruct (is_live (r_flags r)); [|done]. rewrite images_cons. zlia.
Qed.

Lemma relocateLoop_ok fuel P rs nb idx kept :
  Forall wf rs -> Zlen (P ++ images rs ++ []) < 2 ^ 32 -> (length rs <= fuel)%nat ->
  relocateLoop fuel hsz (P ++ images rs ++ []) (Zlen P) nb idx kept =
  Some (nb ++ images (lives rs), index_acc (Zlen nb) idx (lives rs), kept + Zlen (lives rs)).
Proof.
  intros Hw. revert fuel P nb idx kept. induction Hw as [|r rs Hr _ IH]; intros fuel P nb idx kept Hlt Hf.
  - cbn [images lives List.filter map concat app index_acc]. rewrite !app_nil_r, Zlen_nil, Z.add_0_r.
    destruct fuel; cbn [relocateLoop]; by rewrite Z.ltb_irrefl.
  - destruct fuel as [|f]; [cbn in Hf; lia|].
    destruct (walk_tests P r rs [] Hr Hlt) as (T1 & T2 & T3 & T4 & E1 & E2 & E3).
    cbn [relocateLoop]. rewrite T1. cbn [negb]. rewrite E1, (at_len hsz nt), <- E1 by done. cbn [mbind option_bind].
    rewrite T3, E1, at_flags. cbn [mbind option_bind].
    unfold lives. cbn [List.filter]. fold (lives rs). unfold live.
    destruct (is_live (r_flags r)) eqn:El.
    + rewrite at_image. cbn [mbind option_bind].
      pose proof (at_key hsz nt nb [] r Hr) as Hk. rewrite app_nil_r in Hk. rewrite Hk. cbn [mbind option_bind].
      rewrite <- E1, E2, E3, IH; [|by rewrite <- E2|cbn in Hf; lia].
      cbn [index_acc]. unfold live. rewrite El, images_cons, <- app_assoc, Zlen_cons, Zlen_app, Zlen_image.
      do 2 f_equal. lia.
    + rewrite <- E1, E2, E3. apply IH; [by rewrite <- E2|cbn in Hf; lia].
Qed.

(** Tombstoning the first [n] live records. *)
Definition kill (r : rec) : rec :=
  {| r_flags := Z.lor (r_flags r) SDB_FLAG_DELETED; r_fix := r_fix r; r_key := r_key r; r_texts := r_texts r |}.

Fixpoint tomb (n : Z) (rs : list rec) : list rec :=
  match rs with
  | [] => []
  | r :: rest =>
      if 0 <? n then
        if live r then kill r :: tomb (n - 1) rest else r :: tomb n rest
      else rs
  end.

Lemma kill_dead r : live (kill r) = false.
Proof.
  unfold live, is_live, kill, SDB_FLAG_DELETED. cbn [r_flags]. apply Z.eqb_neq.
  intros H. apply (f_equal (fun z => Z.testbit z 0)) in H.
  rewrite Z.land_spec, Z.lor_spec, Z.bits_0 in H. change (Z.testbit 1 0) with true in H.
  by rewrite orb_true_r in H.
Qed.

Lemma kill_reclen r : reclen (kill r) = reclen r.
Proof. done. Qed.

Lemma kill_wf r : wf r -> wf (kill r).
Proof. intros []. by split. Qed.

Lemma tomb_wf n rs : Forall wf rs -> Forall wf (tomb n rs).
Proof.
  intros H. revert n. induction H as [|r rs Hr Hrs IH]; intros n; cbn [tomb]; [constructor|].
  repeat case_match; constructor; auto using kill_wf.
Qed.

Lemma tomb_length n rs : Zlen (images (tomb n rs)) = Zlen (images rs).
Proof.
  revert n. induction rs as [|r rs IH]; intros n; [done|]. cbn [tomb].
  destruct (0 <? n); [|done]. destruct (live r); rewrite !images_cons, !Zlen_app, !Zlen_image, IH; done.
Qed.

Lemma tomb_lives n rs : 0 <= n -> lives (tomb n rs) = drop (Z.to_nat n) (lives rs).
Proof.
  revert n. induction rs as [|r rs IH]; intros n Hn; cbn [tomb]; [unfold lives; cbn [List.filter]; by rewrite drop_nil|].
  destruct (Z.ltb_spec 0 n).
  - unfold lives. cbn [List.filter]. fold (lives rs). destruct (live r) eqn:El; cbn [List.filter].
    + rewrite kill_dead. fold (lives (tomb (n - 1) rs)). rewrite IH by lia.
      replace (Z.to_nat n) with (S (Z.to_nat (n - 1))) by lia. done.
    + rewrite El. fold (lives (tomb n rs)). by apply IH.
  - replace n with 0 by lia. done.
Qed.

Lemma tombstoneLoop_ok fuel P rs idx n :
  Forall wf rs -> Zlen (P ++ images rs ++ []) < 2 ^ 32 -> (length rs <= fuel)%nat -> 0 <= n ->
  tombstoneLoop fuel hsz (P ++ images rs ++ []) idx (Zlen P) n =
  Some (P ++ images (tomb n rs) ++ [], foldl (fun m k => delete k m) idx (take (Z.to_nat n) (keys rs))).
Proof.
  intros Hw. revert fuel P idx n. induction Hw as [|r rs Hr _ IH]; intros fuel P idx n Hlt Hf Hn.
  - cbn [tomb keys lives List.filter map images concat app]. rewrite app_nil_r, take_nil.
    destruct fuel; cbn [tombstoneLoop]; by rewrite Z.ltb_irrefl, andb_false_r.
  - destruct (Z.ltb_spec 0 n) as [Hp|Hz].
    2: { assert (n = 0) as -> by lia. cbn [tomb]. change (0 <? 0) with false. destruct fuel; done. }
    destruct fuel as [|f]; [cbn in Hf; lia|].
    destruct (walk_tests P r rs [] Hr Hlt) as (T1 & T2 & T3 & T4 & E1 & E2 & E3).
    cbn [tombstoneLoop]. rewrite T1, (proj2 (Z.ltb_lt 0 n)) by done. cbn [negb andb].
    rewrite E1, (at_len hsz nt), <- E1 by done. cbn [mbind option_bind].
    rewrite T3, E1, at_flags. cbn [mbind option_bind tomb]. rewrite (proj2 (Z.ltb_lt 0 n)) by done.
    unfold keys, lives. cbn [List.filter]. fold (lives rs). fold (live r).
    destruct (live r) eqn:El.
    + rewrite (at_key hsz nt) by done. cbn [mbind option_bind]. rewrite at_set_flags. cbn [mbind option_bind].
      fold (kill r). rewrite E3. cbn [map]. replace (Z.to_nat n) with (S (Z.to_nat (n - 1))) by lia.
      cbn [take foldl]. rewrite images_cons, <- app_assoc.
      specialize (IH f (P ++ image (kill r)) (delete (r_key r) idx) (n - 1)).
      assert (Zlen (P ++ image (kill r)) = Zlen (P ++ image r)) as EK by (rewrite !Zlen_app, !Zlen_image; done).
      rewrite EK in IH. rewrite <- !app_assoc in IH. rewrite IH; [done| |cbn in Hf; lia|lia].
      rewrite images_cons, <- app_assoc in Hlt. rewrite !Zlen_app, !Zlen_image in *. by rewrite kill_reclen.
    + rewrite <- E1, E2, E3. fold (keys rs). rewrite IH; [|by rewrite <- E2|cbn in Hf; lia|done].
      rewrite images_cons. by rewrite <- !app_assoc.
Qed.
End Walks.

(** ** Compaction in place *)

Lemma put_over (A M B src : bytes) off :
  off = Zlen A -> Zlen src <= Zlen M ->
  mem_put (A ++ M ++ B) off src = Some (A ++ src ++ drop (length src) M ++ B).
Proof.
  intros -> Hl. rewrite <- (take_drop (length src) M) at 1. rewrite <- app_assoc.
  apply mem_put_mid; [done|]. unfold Zlen in *. rewrite length_take. lia.
Qed.

Section Compact.
Variables (hsz : Z) (nt : nat).
Hypothesis Hhs : 8 <= hsz.
Notation wf := (wf_rec hsz nt).

Lemma compactLoop_ok fuel H W J rest idx scratch D kept :
  Forall wf rest -> Zlen (H ++ W ++ J ++ images rest) < 2 ^ 32 -> (length rest <= fuel)%nat ->
  Zlen scratch <= Zlen J -> W ++ scratch = D ->
  exists W' J' scratch',
    compactLoop fuel hsz (Zlen (H ++ W ++ J ++ images rest)) (H ++ W ++ J ++ images rest) idx
      (Zlen H + Zlen W) (Zlen H + Zlen W + Zlen J) scratch kept =
    Some (H ++ W' ++ J', index_acc (Zlen H + Zlen D) idx (lives rest), Zlen H + Zlen W', scratch',
          kept + Zlen (lives rest)) /\
    W' ++ scratch' = D ++ images (lives rest) /\ Zlen scratch' <= Zlen J'.
Proof.
  intros Hw. revert fuel W J idx scratch D kept. induction Hw as [|r rs Hr _ IH]; intros fuel W J idx scratch D kept Hlt Hf Hsc HD.
  - change (images []) with (@nil Z). rewrite app_nil_r. exists W, J, scratch.
    change (lives []) with (@nil rec). cbn [index_acc]. change (images []) with (@nil Z).
    rewrite app_nil_r. change (Zlen (@nil rec)) with 0. rewrite Z.add_0_r. split; [|done].
    rewrite !Zlen_app. destruct fuel; cbn [compactLoop]; by rewrite Z.add_assoc, Z.ltb_irrefl.
  - destruct fuel as [|f]; [cbn in Hf; lia|]. cbn [length] in Hf.
    pose proof (reclen_ge _ _ _ Hr) as Hge. pose proof (Zlen_nonneg (r_key r)).
    pose proof (Zlen_nonneg (images rs)). pose proof (Zlen_nonneg H). pose proof (Zlen_nonneg W).
    pose proof (Zlen_nonneg J). pose proof (Zlen_nonneg scratch).
    assert (forall P Q, Zlen P = Zlen H + Zlen W + Zlen J ->
      rd32 (P ++ image r ++ Q) (Zlen H + Zlen W + Zlen J + SDB_REC_LEN_OFF) = Some (reclen r) /\
      mem_get (P ++ image r ++ Q) (Zlen H + Zlen W + Zlen J + SDB_FLAGS_OFF) = Some (r_flags r) /\
      keyAt hsz (P ++ image r ++ Q) (Zlen H + Zlen W + Zlen J) = Some (r_key r) /\
      mem_slice (P ++ image r ++ Q) (Zlen H + Zlen W + Zlen J) (reclen r) = Some (image r)) as Hat.
    { intros P Q <-. rewrite images_cons, !Zlen_app, Zlen_image in Hlt.
      split; [apply (at_len hsz nt); [done|lia]|]. split; [apply at_flags|].
      split; [by apply (at_key hsz nt)|apply at_image]. }
    set (usd := Zlen (H ++ W ++ J ++ images (r :: rs))) in *.
    assert (usd = Zlen H + Zlen W + Zlen J + reclen r + Zlen (images rs)) as Eu.
    { unfold usd. rewrite images_cons, !Zlen_app, Zlen_image. lia. }
    cbn [compactLoop]. rewrite images_cons.
    assert (H ++ W ++ J ++ image r ++ images rs = (H ++ W ++ J) ++ image r ++ images rs) as E1 by (by rewrite <- !app_assoc).
    destruct (Hat (H ++ W ++ J) (images rs)) as (A1 & A2 & _ & _); [rewrite !Zlen_app; lia|].
    rewrite (proj2 (Z.ltb_lt (Zlen H + Zlen W + Zlen J) usd)) by lia. cbn [negb].
    rewrite E1, A1. cbn [mbind option_bind].
    rewrite (proj2 (Z.ltb_ge (reclen r) hsz)), (proj2 (Z.ltb_ge usd _)) by lia. cbn [orb].
    rewrite A2. cbn [mbind option_bind]. unfold lives. cbn [List.filter]. fold (lives rs). fold (live r).
    destruct (live r) eqn:El; cbn [negb].
    + (* the scratch is flushed in front of the gap *)
      set (J1 := drop (length scratch) J).
      assert (Zlen J1 = Zlen J - Zlen scratch) as HJ1 by (unfold J1; rewrite Zlen_drop; unfold Zlen in *; lia).
      assert (mem_put ((H ++ W ++ J) ++ image r ++ images rs) (Zlen H + Zlen W) scratch =
              Some (H ++ (W ++ scratch) ++ J1 ++ image r ++ images rs)) as Hflush.
      { rewrite <- !app_assoc, (app_assoc H W), (put_over (H ++ W) J) by (try rewrite Zlen_app; lia).
        f_equal. by rewrite <- !app_assoc. }
      assert (index_acc (Zlen H + Zlen D) idx (r :: lives rs) =
              index_acc (Zlen H + Zlen (D ++ image r)) (<[r_key r := Zlen H + Zlen D]> idx) (lives rs)) as Ei.
      { cbn [index_acc]. rewrite El. f_equal. rewrite Zlen_app, Zlen_image. lia. }
      assert (D ++ images (r :: lives rs) = (D ++ image r) ++ images (lives rs)) as Ed
        by (rewrite images_cons; by rewrite <- !app_assoc).
      rewrite Ei, Ed, Zlen_cons.
      replace (kept + (1 + Zlen (lives rs))) with (kept + 1 + Zlen (lives rs)) by lia.
      destruct (SDB_COMPACT_SCRATCH <? reclen r).
      * assert ((if Zlen scratch =? 0 then Some ((H ++ W ++ J) ++ image r ++ images rs)
          else mem_put ((H ++ W ++ J) ++ image r ++ images rs) (Zlen H + Zlen W) scratch) =
          Some (H ++ (W ++ scratch) ++ J1 ++ image r ++ images rs)) as ->.
        { destruct (Z.eqb_spec (Zlen scratch) 0) as [Ez|]; [|done]. apply Zlen_zero in Ez as ->.
          unfold J1. cbn [length drop]. by rewrite app_nil_r, <- !app_assoc. }
        cbn [mbind option_bind]. rewrite HD.
        assert (H ++ D ++ J1 ++ image r ++ images rs = (H ++ D ++ J1) ++ image r ++ images rs) as E2 by (by rewrite <- !app_assoc).
        destruct (Hat (H ++ D ++ J1) (images rs)) as (_ & _ & A3 & A4); [rewrite !Zlen_app, HJ1, <- HD, Zlen_app; lia|].
        rewrite E2, A3, A4. cbn [mbind option_bind]. rewrite <- E2.
        assert (Zlen H + Zlen W + Zlen scratch = Zlen H + Zlen D) as -> by (rewrite <- HD, Zlen_app; lia).
        assert (mem_put (H ++ D ++ J1 ++ image r ++ images rs) (Zlen H + Zlen D) (image r) =
          Some (H ++ (D ++ image r) ++ drop (length (image r)) (J1 ++ image r) ++ images rs)) as ->.
        { rewrite (app_assoc H D), (app_assoc J1), (put_over (H ++ D) (J1 ++ image r));
            [|by rewrite Zlen_app|rewrite Zlen_app; zlia]. f_equal. by rewrite <- !app_assoc. }
        cbn [mbind option_bind]. set (J2 := drop (length (image r)) (J1 ++ image r)).
        assert (Zlen J2 = Zlen J1) as HJ2.
        { unfold J2. rewrite Zlen_drop, Zlen_app. fold (Zlen (image r)). zlia. }
        assert (usd = Zlen (H ++ (D ++ image r) ++ J2 ++ images rs)) as Eu2.
        { rewrite Eu, !Zlen_app, HJ2, HJ1, Zlen_image, <- HD, Zlen_app. lia. }
        rewrite Eu2.
        assert (Zlen H + Zlen W + Zlen J + reclen r = Zlen H + Zlen (D ++ image r) + Zlen J2) as ->
          by (rewrite HJ2, HJ1, Zlen_app, Zlen_image, <- HD, Zlen_app; lia).
        assert (Zlen H + Zlen D + reclen r = Zlen H + Zlen (D ++ image r)) as -> by (rewrite Zlen_app, Zlen_image; lia).
        destruct (IH f (D ++ image r) J2 (<[r_key r := Zlen H + Zlen D]> idx) [] (D ++ image r) (kept + 1))
          as (W' & J' & s' & -> & ? & ?); [by rewrite <- Eu2|lia|rewrite Zlen_nil; zlia|by rewrite app_nil_r|].
        by exists W', J', s'.
      * set (full := SDB_COMPACT_SCRATCH <? Zlen scratch + reclen r).
        set (W1 := if full then D else W). set (Jn := if full then J1 else J).
        set (sc1 := if full then [] else scratch).
        assert ((if full then mem_put ((H ++ W ++ J) ++ image r ++ images rs) (Zlen H + Zlen W) scratch
          else Some ((H ++ W ++ J) ++ image r ++ images rs)) =
          Some (H ++ W1 ++ Jn ++ image r ++ images rs)) as ->.
        { unfold W1, Jn. destruct full; [by rewrite Hflush, HD|by rewrite <- !app_assoc]. }
        cbn [mbind option_bind].
        assert (W1 ++ sc1 = D /\ Zlen W1 + Zlen Jn = Zlen W + Zlen J /\ Zlen sc1 <= Zlen Jn /\
          (if full then Zlen H + Zlen W + Zlen scratch else Zlen H + Zlen W) = Zlen H + Zlen W1) as (HD1 & HW1 & Hs1 & Hw1).
        { unfold W1, sc1, Jn. destruct full; [rewrite app_nil_r, Zlen_nil, HJ1|];
            (split; [done|]); rewrite <- ?HD, ?Zlen_app; lia. }
        assert (H ++ W1 ++ Jn ++ image r ++ images rs = (H ++ W1 ++ Jn) ++ image r ++ images rs) as E2 by (by rewrite <- !app_assoc).
        destruct (Hat (H ++ W1 ++ Jn) (images rs)) as (_ & _ & A3 & A4); [rewrite !Zlen_app; lia|].
        rewrite E2, A3, A4. cbn [mbind option_bind]. rewrite <- E2, Hw1.
        assert (H ++ W1 ++ Jn ++ image r ++ images rs = H ++ W1 ++ (Jn ++ image r) ++ images rs) as -> by (by rewrite <- !app_assoc).
        assert (usd = Zlen (H ++ W1 ++ (Jn ++ image r) ++ images rs)) as Eu2.
        { rewrite Eu, !Zlen_app, Zlen_image. lia. }
        assert (Zlen H + Zlen W1 + Zlen sc1 = Zlen H + Zlen D) as -> by (rewrite <- HD1, Zlen_app; lia).
        assert (Zlen H + Zlen W + Zlen J + reclen r = Zlen H + Zlen W1 + Zlen (Jn ++ image r)) as ->
          by (rewrite Zlen_app, Zlen_image; lia).
        destruct (IH f W1 (Jn ++ image r) (<[r_key r := Zlen H + Zlen D]> idx) (sc1 ++ image r) (D ++ image r) (kept + 1))
          as (W' & J' & s' & Eloop & ? & ?); [by rewrite <- Eu2|lia|rewrite !Zlen_app; lia|by rewrite app_assoc, HD1|].
        exists W', J', s'. rewrite Eu2. done.
    + assert (H ++ W ++ (J ++ image r) ++ images rs = (H ++ W ++ J) ++ image r ++ images rs) as E2 by (by rewrite <- !app_assoc).
      destruct (IH f W (J ++ image r) idx scratch D kept) as (W' & J' & s' & Eloop & ? & ?);
        [rewrite E2, <- E1, <- images_cons; done|lia|rewrite Zlen_app; zlia|done|].
      exists W', J', s'. rewrite E2, <- E1, <- images_cons in Eloop. fold usd in Eloop.
      rewrite <- E1, <- images_cons. replace (Zlen H + Zlen W + Zlen J + reclen r) with (Zlen H + Zlen W + Zlen (J ++ image r)) by (rewrite Zlen_app, Zlen_image; lia).
      done.
Qed.
End Compact.

(** ** The arena operations on the list of records *)

(** The parts of a store the arena operations leave alone. *)
Definition same_meta (s s' : sdb_store) : Prop :=
  schema s' = schema s /\ path s' = path s /\ cap_records s' = cap_records s /\
  loaded s' = loaded s /\ dirty s' = dirty s.

Lemma same_meta_trans a b c : same_meta a b -> same_meta b c -> same_meta a c.
Proof. intros (?&?&?&?&?) (?&?&?&?&?). repeat split; congruence. Qed.

Lemma Zlen_fileHeader sc n : Zlen (fileHeader sc n) = 16.
Proof. unfold fileHeader, wr16, wr32, SDB_MAGIC. autorewrite with zlen. lia. Qed.

Lemma writeFileHeader_ok sc hd b n : Zlen hd = 16 ->
  writeFileHeader sc (hd ++ b) n = Some (fileHeader sc n ++ b).
Proof.
  intros Hh. unfold writeFileHeader.
  apply (mem_put_mid [] hd (fileHeader sc n) b); [done|]. by rewrite Zlen_fileHeader.
Qed.

Lemma lives_wf hsz nt rs : Forall (wf_rec hsz nt) rs -> Forall (wf_rec hsz nt) (lives rs).
Proof. rewrite !Forall_forall. intros H r Hr. apply H. apply list_elem_of_In, filter_In in Hr as [? _]. by apply list_elem_of_In. Qed.

Lemma lives_length rs : Zlen (images (lives rs)) <= Zlen (images rs).
Proof.
  induction rs as [|r rs IH]; [done|]. unfold lives. cbn [List.filter]. fold (lives rs).
  pose proof (Zlen_nonneg (image r)). destruct (live r); rewrite ?images_cons; zlia.
Qed.

Lemma lives_lives rs : lives (lives rs) = lives rs.
Proof.
  unfold lives. induction rs as [|r rs IH]; [done|]. cbn. destruct (live r) eqn:E; cbn; rewrite ?E; congruence.
Qed.

Lemma index_lives s rs off : repr s rs -> index_acc off (index s) (lives rs) = index_acc off ∅ (lives rs).
Proof.
  intros Hr. apply index_acc_base. intros k Hk. rewrite keys_lives in Hk.
  rewrite (rp_index _ _ Hr), index_acc_notin by done. apply lookup_empty.
Qed.

Lemma compactInPlace_ok s rs :
  repr s rs -> exists s', sdbCompactInPlace s = Some s' /\ repr s' (lives rs) /\ same_meta s s' /\
    cap s' = cap s /\ block s' = fileHeader (schema s) (Zlen (lives rs)) ++ images (lives rs).
Proof.
  intros Hr. pose proof Hr as [(hd & Hhd & Eb) Hw Hk Hi Hh Hc Hs]. unfold sdbCompactInPlace, used, SDB_FILE_HDR in *.
  destruct (compactLoop_ok (hs s) (Z.to_nat (textCount (schema s))) Hh (length (block s)) hd [] [] rs (index s) [] [] 0) as (W & J & sc & El & HD & Hsc);
    [done|cbn [app]; rewrite <- Eb; lia| |done|done|].
  { rewrite Eb, length_app. pose proof (length_images _ _ Hh rs Hw). lia. }
  cbn [app] in El, HD. rewrite <- Eb, Zlen_nil, !Z.add_0_r, Z.add_0_l, Hhd in El. rewrite El. cbn [mbind option_bind].
  assert ((if Zlen sc =? 0 then Some (hd ++ W ++ J) else mem_put (hd ++ W ++ J) (16 + Zlen W) sc) =
    Some (hd ++ images (lives rs) ++ drop (length sc) J)) as ->.
  { destruct (Z.eqb_spec (Zlen sc) 0) as [Ez|].
    - apply Zlen_zero in Ez as ->. rewrite app_nil_r in HD. cbn [length drop]. by rewrite HD.
    - rewrite <- (app_nil_r J) at 1. rewrite app_assoc, put_over by (try rewrite Zlen_app; lia).
      f_equal. by rewrite <- HD, <- !app_assoc, app_nil_r. }
  cbn [mbind option_bind].
  assert (16 + Zlen W + Zlen sc = Zlen (hd ++ images (lives rs))) as -> by (rewrite <- HD, !Zlen_app; lia).
  rewrite app_assoc.
  assert (mem_slice ((hd ++ images (lives rs)) ++ drop (length sc) J) 0 (Zlen (hd ++ images (lives rs))) =
    Some (hd ++ images (lives rs))) as -> by (by apply (mem_slice_mid [])).
  cbn [mbind option_bind].
  rewrite writeFileHeader_ok by done. cbn [mbind option_bind]. eexists. split; [done|].
  split; [|by repeat split]. pose proof (lives_length rs).
  split; cbn [block schema index cap with_arena hs].
  - eexists. split; [|done]. apply Zlen_fileHeader.
  - by apply lives_wf.
  - by rewrite keys_lives.
  - by apply (index_lives s).
  - done.
  - unfold used. cbn [block with_arena]. rewrite Zlen_app, Zlen_fileHeader. rewrite Eb, Zlen_app in Hc. lia.
  - done.
Qed.

Lemma drop_keys_notin (n : nat) rs k : NoDup (keys rs) -> k ∈ take n (keys rs) -> k ∉ drop n (keys rs).
Proof.
  intros Hn Ht Hd. rewrite <- (take_drop n (keys rs)) in Hn. apply NoDup_app in Hn as (_ & Hn & _). by apply (Hn k).
Qed.

Lemma foldl_delete_lookup (ks : list bytes) (m : gmap bytes Z) k :
  foldl (fun m k => delete k m) m ks !! k = if bool_decide (k ∈ ks) then None else m !! k.
Proof.
  revert m. induction ks as [|x ks IH]; intros m; cbn [foldl].
  - by rewrite bool_decide_false by apply not_elem_of_nil.
  - rewrite IH. destruct (decide (k ∈ ks)) as [Hin|Hnin].
    + rewrite !bool_decide_true by (try apply elem_of_cons; tauto). done.
    + rewrite bool_decide_false by done. destruct (decide (k = x)) as [->|Hne].
      * rewrite lookup_delete_eq, bool_decide_true by (apply elem_of_cons; by left). done.
      * rewrite lookup_delete_ne by congruence. rewrite bool_decide_false; [done|].
        rewrite elem_of_cons. tauto.
Qed.

Lemma tomb_keys n rs : 0 <= n -> keys (tomb n rs) = drop (Z.to_nat n) (keys rs).
Proof. intros Hn. unfold keys. rewrite tomb_lives by done. by rewrite <- skipn_map. Qed.

Lemma tomb_index off n rs : 0 <= n -> NoDup (keys rs) ->
  foldl (fun m k => delete k m) (index_acc off ∅ rs) (take (Z.to_nat n) (keys rs)) = index_acc off ∅ (tomb n rs).
Proof.
  intros Hn. revert off n Hn.
  assert (forall rs off n idx idx', 0 <= n -> NoDup (keys rs) ->
    (forall k, idx !! k = idx' !! k \/ (k ∈ take (Z.to_nat n) (keys rs) /\ idx' !! k = None)) ->
    (forall k, k ∈ take (Z.to_nat n) (keys rs) -> idx' !! k = None) ->
    foldl (fun m k => delete k m) (index_acc off idx rs) (take (Z.to_nat n) (keys rs)) = index_acc off idx' (tomb n rs)) as H.
  { clear. intros rs off n idx idx' Hn Hnd Hidx Hnone. apply map_eq. intros k. rewrite foldl_delete_lookup.
    destruct (decide (k ∈ take (Z.to_nat n) (keys rs))) as [Hin|Hnin].
    - rewrite bool_decide_true by done. rewrite index_acc_notin; [symmetry; by apply Hnone|].
      rewrite tomb_keys by done. by apply drop_keys_notin.
    - rewrite bool_decide_false by done. assert (idx !! k = idx' !! k) as Ek by (destruct (Hidx k) as [|[? _]]; [done|done]).
      clear Hidx Hnone. revert off n idx idx' Hn Hnin Ek. induction rs as [|r rs IH]; intros off n idx idx' Hn Hnin Ek; [done|].
      cbn [tomb]. destruct (Z.ltb_spec 0 n) as [Hp|Hz].
      + unfold keys, lives in Hnin, Hnd. cbn in Hnin, Hnd. cbn [index_acc]. destruct (live r) eqn:El.
        * cbn in Hnin, Hnd. apply NoDup_cons in Hnd as [_ Hnd]. fold (keys rs) in Hnd, Hnin.
          replace (Z.to_nat n) with (S (Z.to_nat (n - 1))) in Hnin by lia. cbn [take] in Hnin.
          apply not_elem_of_cons in Hnin as [Hne Hnin].
          cbn [index_acc]. rewrite kill_dead, kill_reclen. apply IH; [done|lia|done|].
          by rewrite lookup_insert_ne.
        * cbn [index_acc]. rewrite El. by apply IH.
      + clear IH. set (l := r :: rs). clearbody l. destruct (decide (k ∈ keys l)) as [Hin|Hni].
        * destruct (keys_split l k Hin) as (a & r' & b & -> & Hl & <- & Hb). by rewrite !index_acc_at.
        * by rewrite !index_acc_notin. }
  intros off n Hn Hnd. apply H; [done|done|by left|]. intros k _. apply lookup_empty.
Qed.

Lemma compact_ok s rs n :
  repr s rs -> 0 <= n -> exists s', compact s n = Some s' /\ repr s' (drop (Z.to_nat n) (lives rs)) /\
    same_meta s s' /\ cap s' = cap s /\
    block s' = fileHeader (schema s) (Zlen (drop (Z.to_nat n) (lives rs))) ++ images (drop (Z.to_nat n) (lives rs)).
Proof.
  intros Hr Hn. pose proof Hr as [(hd & Hhd & Eb) Hw Hk Hi Hh Hc Hs]. unfold compact, SDB_FILE_HDR, used in *.
  assert (block s = hd ++ images rs ++ []) as Eb' by (by rewrite app_nil_r).
  pose proof (tombstoneLoop_ok (hs s) (Z.to_nat (textCount (schema s))) Hh (length (block s)) hd rs (index s) n Hw) as Ht.
  rewrite <- Eb', Hhd in Ht. rewrite Ht; [|lia| |done].
  2: { rewrite Eb, length_app. pose proof (length_images _ _ Hh rs Hw). lia. }
  cbn [mbind option_bind]. rewrite Hi, tomb_index by done.
  set (s1 := with_arena s (hd ++ images (tomb n rs) ++ []) (index_acc 16 ∅ (tomb n rs))).
  assert (repr s1 (tomb n rs)) as Hr1.
  { split; cbn [block schema index cap with_arena hs s1]; try done.
    - exists hd. by rewrite app_nil_r.
    - by apply tomb_wf.
    - rewrite tomb_keys by done. rewrite <- (take_drop (Z.to_nat n) (keys rs)) in Hk. by apply NoDup_app in Hk as (_ & _ & ?).
    - unfold used. cbn [block with_arena s1]. rewrite app_nil_r, Zlen_app, tomb_length. rewrite Eb, Zlen_app in Hc. lia. }
  destruct (compactInPlace_ok s1 _ Hr1) as (s' & E & Hr' & Hm & Hcap & Hb). rewrite tomb_lives in * by done.
  exists s'. split; [exact E|]. split; [done|]. split; [exact Hm|]. done.
Qed.

(** ** Growth and append *)

Lemma growLoop_ok fuel n need : 0 < n -> need <= n * 2 ^ Z.of_nat fuel ->
  exists m, growLoop fuel n need = Some m /\ need <= m /\ n <= m /\ (m = n \/ m < 2 * need).
Proof.
  revert n. induction fuel as [|f IH]; intros n Hn Hb.
  - change (2 ^ Z.of_nat 0) with 1 in Hb. cbn [growLoop]. rewrite (proj2 (Z.ltb_ge n need)) by lia. exists n. split; [done|lia].
  - cbn [growLoop]. destruct (Z.ltb_spec n need); [|exists n; split; [done|lia]].
    rewrite Nat2Z.inj_succ, Z.pow_succ_r in Hb by lia.
    destruct (IH (n * 2)) as (m & -> & ? & ? & ?); [lia|lia|]. exists m. split; [done|]. lia.
Qed.

Lemma page_up_ok n : 0 <= n -> n <= page_up n < n + 4096.
Proof. intros. unfold page_up. Z.to_euclidean_division_equations. lia. Qed.

Lemma ensureCap_ok s need h :
  0 <= cap s < 2 ^ 31 -> need < 2 ^ 30 -> exists s' b,
    ensureCap s need h = Some (s', b) /\ block s' = block s /\ index s' = index s /\ same_meta s s' /\
    cap s <= cap s' < 2 ^ 31 /\ (b = true <-> need <= cap s') /\
    ((need <=? cap s) || grow1 h || grow2 h = true -> b = true).
Proof.
  intros Hc Hn. unfold ensureCap. destruct (Z.leb_spec need (cap s)) as [Hle|Hgt].
  - eexists _, true. split; [done|]. by repeat split; cbn; try lia.
  - destruct (growLoop_ok 64 (if cap s =? 0 then 256 else cap s) need) as (m & -> & H1 & H2 & H3).
    + destruct (Z.eqb_spec (cap s) 0); lia.
    + destruct (Z.eqb_spec (cap s) 0); lia.
    + cbn [mbind option_bind]. pose proof (page_up_ok need ltac:(lia)) as Hpg.
      assert (cap s <= m < 2 ^ 31) as Hm by (destruct (Z.eqb_spec (cap s) 0); lia).
      destruct (grow1 h); [eexists _, true; split; [done|]; by repeat split; cbn [cap with_cap block index orb]; try lia|].
      destruct (grow2 h); [eexists _, true; split; [done|]; repeat split; cbn [cap with_cap]; try done; lia|].
      eexists _, false. split; [done|]. repeat split; cbn [cap with_cap orb]; try done; lia.
Qed.

Lemma repr_cap s rs c gf : repr s rs -> used s <= c < 2 ^ 31 -> repr (with_cap s c gf) rs.
Proof. intros [H1 H2 H3 H4 H5 H6 H7] Hc. split; try done; unfold used in *; cbn; lia. Qed.

Lemma repr_block_eq s s' rs :
  repr s rs -> block s' = block s -> index s' = index s -> schema s' = schema s ->
  used s <= cap s' < 2 ^ 31 -> repr s' rs.
Proof.
  intros [H1 H2 H3 H4 H5 H6 H7] Eb Ei Es Hc. unfold used, hs in *. split; unfold used, hs; rewrite ?Eb, ?Ei, ?Es; try done; lia.
Qed.

(** Reclaiming keeps exactly the live records. *)
Lemma reclaim_ok s rs n h :
  repr s rs -> 0 <= n -> used s + n < 2 ^ 30 -> exists s' b,
    reclaimForAppend s n h = Some (s', b) /\ repr s' (lives rs) /\ same_meta s s' /\
    used s' <= used s /\ (b = true -> used s' + n <= cap s').
Proof.
  intros Hr Hn Hsm. pose proof Hr as [(hd & Hhd & Eb) Hw Hk Hi Hh Hc Hs].
  unfold reclaimForAppend, SDB_FILE_HDR.
  assert (block s = hd ++ images rs ++ []) as Eb' by (by rewrite app_nil_r).
  pose proof (lives_length rs) as Hll. unfold used in *.
  assert (length rs <= length (block s))%nat as Hfu.
  { rewrite Eb, length_app. pose proof (length_images _ _ Hh rs Hw). lia. }
  assert (Zlen (hd ++ images rs ++ []) < 2 ^ 32) as Hlt by (rewrite <- Eb'; lia).
  pose proof (liveBytesLoop_ok (hs s) _ Hh (length (block s)) hd rs 16 Hw Hlt Hfu) as Hlb.
  rewrite <- Eb', Hhd in Hlb. rewrite Hlb. cbn [mbind option_bind].
  destruct (_ && fresh h).
  - assert (mem_slice (block s) 0 16 = Some hd) as -> by (rewrite Eb, <- Hhd; by apply (mem_slice_mid [])).
    cbn [mbind option_bind].
    pose proof (relocateLoop_ok (hs s) _ Hh (length (block s)) hd rs hd (index s) 0 Hw Hlt Hfu) as Hrl.
    rewrite <- Eb', Hhd in Hrl. rewrite Hrl. cbn [mbind option_bind]. rewrite writeFileHeader_ok by done.
    cbn [mbind option_bind]. rewrite (index_lives s rs) by done. eexists _, _. split; [done|].
    cbn [block cap with_cap with_arena]. rewrite Zlen_app, Zlen_fileHeader.
    set (lb := 16 + Zlen (images (lives rs))) in *. pose proof (Zlen_nonneg (images (lives rs))).
    rewrite Eb, Zlen_app in Hc, Hsm. rewrite Eb, Zlen_app.
    set (nc := if lb + lb / 5 <? lb + n then lb + n else lb + lb / 5).
    assert (lb <= nc < 2 ^ 30 + 2 ^ 29) as Hnc.
    { unfold nc. assert (0 <= lb / 5 <= lb) by (Z.to_euclidean_division_equations; lia).
      assert (lb / 5 <= 2 ^ 28) by (apply Z.div_le_upper_bound; lia). destruct (Z.ltb_spec (lb + lb / 5) (lb + n)); lia. }
    pose proof (page_up_ok nc ltac:(lia)).
    split; [|split; [by repeat split|split; [lia|intros ?; b2p; lia]]].
    split; unfold used, hs; cbn [block schema index cap with_arena with_cap]; try done; try lia.
    + eexists. split; [|done]. apply Zlen_fileHeader.
    + by apply lives_wf.
    + by rewrite keys_lives.
    + rewrite Zlen_app, Zlen_fileHeader. fold lb. lia.
  - destruct (compactInPlace_ok s rs Hr) as (s1 & -> & Hr1 & Hm & Hcap & Hb1). cbn [mbind option_bind].
    assert (Zlen (block s1) <= Zlen (block s)) as Hle.
    { rewrite Hb1, Eb, !Zlen_app, Zlen_fileHeader. lia. }
    destruct (Z.leb_spec (Zlen (block s1) + n) (cap s1)); eexists _, _; (split; [done|]).
    + split; [apply repr_cap; [done|destruct Hr1; lia]|]. split; [exact Hm|]. cbn [block with_cap cap]. unfold used in *. lia.
    + split; [done|]. split; [done|]. split; [done|done].
Qed.

(** Appending: on success the record is last; the others are those that were live, or
    all of them when no reclaim was needed. *)
Lemma appendRecord_ok s rs r h :
  repr s rs -> wf_rec (hs s) (Z.to_nat (textCount (schema s))) r -> live r = true -> r_key r ∉ keys rs ->
  used s + reclen r < 2 ^ 30 -> exists s' b rs',
    appendRecord s (r_key r) (image r) h = Some (s', b) /\ same_meta s s' /\
    lives rs' = lives rs /\ (rs' = rs \/ rs' = lives rs) /\ repr s' (if b : bool then rs' ++ [r] else rs') /\
    ((used s + reclen r <=? cap s) || grow1 h || grow2 h = true -> b = true) /\
    used s' <= used s + reclen r.
Proof.
  intros Hr Hw Hl Hk Hsm. pose proof Hr as [_ _ _ _ _ Hc Hs]. unfold appendRecord. rewrite Zlen_image.
  pose proof (reclen_ge _ _ _ Hw). pose proof (rp_hs _ _ Hr). pose proof (Zlen_nonneg (r_key r)).
  assert (0 <= used s) by apply Zlen_nonneg.
  destruct (ensureCap_ok s (used s + reclen r) h) as (s1 & b1 & -> & Eb1 & Ei1 & Hm1 & Hc1 & Hb1 & Hg); [lia|lia|].
  cbn [mbind option_bind].
  assert (repr s1 rs) as Hr1 by (apply (repr_block_eq s); [done|done|done|apply Hm1|lia]).
  assert (used s1 = used s) as Eu by (unfold used; by rewrite Eb1).
  assert (forall s2 rs2, repr s2 rs2 -> lives rs2 = lives rs -> schema s2 = schema s -> used s2 + reclen r <= cap s2 ->
    repr (with_arena s2 (block s2 ++ image r) (<[r_key r := used s2]> (index s2))) (rs2 ++ [r])) as Happ.
  { intros s2 rs2 [(hd & Hhd & Eb) A2 A3 A4 A5 A6 A7] El Es Hfit.
    assert (keys rs2 = keys rs) as Ek by (unfold keys; by rewrite El).
    split; unfold used, hs in *; cbn [block schema index cap with_arena]; try done.
    - exists hd. split; [done|]. rewrite images_app, images_one, Eb. by rewrite <- app_assoc.
    - apply Forall_app. split; [done|]. constructor; [|constructor]. by rewrite Es.
    - rewrite keys_app. unfold keys at 2, lives. cbn. rewrite Hl. cbn. apply NoDup_app. split; [done|].
      split; [|apply NoDup_singleton]. intros k Hin ->%list_elem_of_singleton. rewrite Ek in Hin. done.
    - rewrite index_acc_app. cbn [index_acc]. rewrite Hl, <- A4, Eb, Zlen_app, Hhd. done.
    - rewrite Zlen_app, Zlen_image. lia. }
  destruct b1.
  - cbn [mbind option_bind negb]. eexists _, true, rs. split; [done|]. split; [exact Hm1|]. split; [done|].
    split; [by left|]. split; [apply Happ; [done|done|apply Hm1|]|].
    + rewrite Eu. by apply Hb1.
    + split; [done|]. unfold used in *. cbn [block with_arena]. rewrite Zlen_app, Zlen_image. lia.
  - destruct (reclaim_ok s1 rs (reclen r) h Hr1) as (s2 & b2 & -> & Hr2 & Hm2 & Hu2 & Hb2); [lia|lia|].
    cbn [mbind option_bind]. assert (same_meta s s2) as Hm by (by eapply same_meta_trans).
    destruct b2; cbn [negb].
    + eexists _, true, (lives rs). split; [done|]. split; [exact Hm|]. split; [apply lives_lives|].
      split; [by right|]. split; [apply Happ; [done|apply lives_lives|apply Hm|by apply Hb2]|].
      split; [done|]. unfold used in *. cbn [block with_arena]. rewrite Zlen_app, Zlen_image. lia.
    + eexists _, false, (lives rs). split; [done|]. split; [exact Hm|]. split; [apply lives_lives|].
      split; [by right|]. split; [done|]. split; [|unfold used in *; lia]. intros Hx. by apply Hg in Hx.
Qed.
