(* ===== verification/StorageDbSchema.v ===== *)
(** * storage_db: schemas, descriptors and field values

    Well-formed schemas (what the builders produce), the descriptor round trip, hex,
    and the value of a field of a record as the string API shows it. *)

From stdpp Require Import gmap.
From S2P Require Import Prelude CLib Targz StorageDb StorageDbBlock.
Import Hex Schema Block Store.
Open Scope Z_scope.
Open Scope spangap_scope.

(** ** Well-formed schemas *)

Definition is_text (f : sdb_field) : bool := kind f =? SDB_TEXT.

(** The bytes a fixed field occupies in the record header. *)
Definition fsize (f : sdb_field) : Z :=
  if kind f =? SDB_U8 then 1 else if kind f =? SDB_U32 then 4 else width f.

Definition disjoint (f g : sdb_field) : Prop :=
  if is_text f then is_text g = true -> foff f <> foff g
  else is_text g = false -> foff f + fsize f <= foff g \/ foff g + fsize g <= foff f.

Record wf_field (sc : sdb_schema) (f : sdb_field) : Prop := {
  wf_kind : kind f ∈ [SDB_U8; SDB_U32; SDB_FIXSTR; SDB_TEXT; SDB_DATA];
  wf_width : 0 <= width f < 2 ^ 16 /\ (kind f = SDB_FIXSTR -> 0 < width f);
  wf_fixed : is_text f = false -> SDB_HDR_BUILTIN <= foff f /\ foff f + fsize f <= hdr_size sc;
  wf_text : is_text f = true -> 0 <= foff f < textCount sc
}.

Record wf_schema (sc : sdb_schema) : Prop := {
  ws_hdr : SDB_HDR_BUILTIN <= hdr_size sc < 2 ^ 16;
  ws_fields : Forall (wf_field sc) (fields sc);
  ws_names : NoDup (map fname (fields sc));
  ws_text : textCount sc = Zlen (List.filter is_text (fields sc)) /\ textCount sc < 2 ^ 16;
  ws_disjoint : forall i j f g, i <> j -> fields sc !! i = Some f -> fields sc !! j = Some g -> disjoint f g
}.

Lemma disjoint_sym f g : disjoint f g -> disjoint g f.
Proof.
  unfold disjoint. destruct (is_text f) eqn:Ef, (is_text g) eqn:Eg; intros H H'; try done.
  - intros E. by apply H.
  - destruct (H H'); lia.
Qed.

(** Adding a field that lies beyond the present ones keeps a schema well formed. *)
Lemma add_field_wf sc f hdr :
  wf_schema sc -> hdr_size sc <= hdr < 2 ^ 16 -> fname f ∉ map fname (fields sc) ->
  (kind f ∈ [SDB_U8; SDB_U32; SDB_FIXSTR; SDB_TEXT; SDB_DATA]) ->
  (0 <= width f < 2 ^ 16 /\ (kind f = SDB_FIXSTR -> 0 < width f)) ->
  (if is_text f then foff f = textCount sc /\ textCount sc < 2 ^ 16 - 1
   else hdr_size sc <= foff f /\ foff f + fsize f <= hdr) ->
  wf_schema (add_field sc f hdr).
Proof.
  intros [H1 H2 H3 [H4 H4'] H5] Hh Hn Hk Hw Hf. unfold add_field.
  assert (wrap16 hdr = hdr) as -> by (unfold wrap16, SDB_HDR_BUILTIN in *; apply Z.mod_small; lia).
  set (sc' := {| schema_id := schema_id sc; schema_ver := schema_ver sc; hdr_size := hdr; fields := fields sc ++ [f] |}).
  assert (textCount sc' = if is_text f then textCount sc + 1 else textCount sc) as Et.
  { unfold textCount, sc'. cbn [fields]. rewrite foldl_app. cbn [foldl]. fold (textCount sc). fold (is_text f).
    pose proof (Zlen_nonneg (List.filter is_text (fields sc))).
    destruct (is_text f); [|done]. unfold wrap16. rewrite Z.mod_small; lia. }
  pose proof (Zlen_nonneg (List.filter is_text (fields sc))).
  split; cbn [hdr_size fields sc'].
  - unfold SDB_HDR_BUILTIN in *. lia.
  - apply Forall_app. split.
    + eapply Forall_impl; [exact H2|]. intros g [G1 G2 G3 G4]. split; [done|done| |].
      * intros Eg. specialize (G3 Eg). cbn [hdr_size sc']. lia.
      * intros Eg. specialize (G4 Eg). rewrite Et. destruct (is_text f); lia.
    + constructor; [|constructor]. split; [done|done| |]; intros E; rewrite E in *; unfold SDB_HDR_BUILTIN in *.
      * cbn [hdr_size sc']. lia.
      * rewrite Et. lia.
  - rewrite map_app. apply NoDup_app. split; [done|]. split; [|apply NoDup_singleton].
    intros x Hx ->%list_elem_of_singleton. done.
  - rewrite Et, List.filter_app, Zlen_app. cbn [List.filter]. destruct (is_text f); cbn; rewrite ?Zlen_cons, ?Zlen_nil; lia.
  - assert (forall i g, fields sc !! i = Some g -> disjoint g f) as Hdis.
    { intros i g Hg. pose proof (proj1 (Forall_lookup _ _) H2 i g Hg) as [_ _ G3 G4]. unfold disjoint.
      destruct (is_text g) eqn:Eg; intros Ef; rewrite Ef in *.
      - specialize (G4 eq_refl). lia.
      - specialize (G3 eq_refl). lia. }
    intros i j a b Hij Ha Hb. rewrite lookup_app_Some in Ha, Hb.
    destruct Ha as [Ha|[Hi Ha]], Hb as [Hb|[Hj Hb]].
    + by eapply H5.
    + apply list_lookup_singleton_Some in Hb as [_ <-]. by eapply Hdis.
    + apply list_lookup_singleton_Some in Ha as [_ <-]. apply disjoint_sym. by eapply Hdis.
    + apply list_lookup_singleton_Some in Ha as [Hi' _]. apply list_lookup_singleton_Some in Hb as [Hj' _]. lia.
Qed.

(** The builders as a program: one call per field. *)
Inductive builder :=
| B_u8 (nm : bytes) | B_u32 (nm : bytes) | B_fixstr (nm : bytes) (w : Z)
| B_data (nm : bytes) (n : Z) | B_text (nm : bytes).

Definition build1 (sc : sdb_schema) (b : builder) : sdb_schema :=
  match b with
  | B_u8 nm => u8 sc nm
  | B_u32 nm => u32 sc nm
  | B_fixstr nm w => fixstr sc nm w
  | B_data nm n => data sc nm n
  | B_text nm => text sc nm
  end.

Definition bname (b : builder) : bytes :=
  match b with B_u8 n | B_u32 n | B_fixstr n _ | B_data n _ | B_text n => n end.

(** Room a builder may need, alignment included. *)
Definition bsize (b : builder) : Z :=
  match b with B_u8 _ => 1 | B_u32 _ => 7 | B_fixstr _ w => w | B_data _ n => n | B_text _ => 0 end.

Definition builder_ok (b : builder) : Prop :=
  match b with B_fixstr _ w => 0 < w < 2 ^ 16 | B_data _ n => 0 <= n < 2 ^ 16 | _ => True end.

Lemma align4 h : 0 <= h -> h <= Z.ldiff (h + 3) 3 <= h + 3.
Proof.
  intros Hh. change 3 with (Z.ones 2) at 2 4. rewrite Z.ldiff_ones_r, Z.shiftl_mul_pow2, Z.shiftr_div_pow2 by lia.
  change (2 ^ 2) with 4. Z.to_euclidean_division_equations. lia.
Qed.

Lemma add_fields_app sc f h : fields (add_field sc f h) = fields sc ++ [f].
Proof. done. Qed.

Lemma build1_wf sc b :
  wf_schema sc -> builder_ok b -> bname b ∉ map fname (fields sc) ->
  hdr_size sc + bsize b < 2 ^ 16 -> textCount sc < 2 ^ 16 - 1 ->
  wf_schema (build1 sc b) /\ hdr_size (build1 sc b) <= hdr_size sc + bsize b /\
  textCount (build1 sc b) <= textCount sc + 1 /\ map fname (fields (build1 sc b)) = map fname (fields sc) ++ [bname b].
Proof.
  intros Hw Hok Hn Hsz Htc. pose proof (ws_hdr _ Hw) as Hh. unfold SDB_HDR_BUILTIN in Hh.
  assert (forall f h, wf_schema (add_field sc f h) -> hdr_size sc <= h <= hdr_size sc + bsize b -> fname f = bname b ->
    wf_schema (add_field sc f h) /\ hdr_size (add_field sc f h) <= hdr_size sc + bsize b /\
    textCount (add_field sc f h) <= textCount sc + 1 /\
    map fname (fields (add_field sc f h)) = map fname (fields sc) ++ [bname b]) as Hfin.
  { intros f h Hwf Hle Hnm. split; [done|]. split; [cbn; unfold wrap16; rewrite Z.mod_small; lia|].
    rewrite add_fields_app, map_app. cbn [map]. rewrite Hnm. split; [|done].
    rewrite (proj1 (ws_text _ Hwf)), (proj1 (ws_text _ Hw)), add_fields_app, List.filter_app, Zlen_app. cbn.
    destruct (is_text f); rewrite ?Zlen_cons, ?Zlen_nil; lia. }
  assert (forall f h, kind f ∈ [SDB_U8; SDB_U32; SDB_FIXSTR; SDB_TEXT; SDB_DATA] -> fname f = bname b ->
    hdr_size sc <= h <= hdr_size sc + bsize b -> (0 <= width f < 2 ^ 16 /\ (kind f = SDB_FIXSTR -> 0 < width f)) ->
    (if is_text f then foff f = textCount sc /\ textCount sc < 2 ^ 16 - 1
     else hdr_size sc <= foff f /\ foff f + fsize f <= h) ->
    wf_schema (add_field sc f h)) as Hadd.
  { intros f h Hk Hnm Hle Hwd Hf. apply add_field_wf; try done; [lia|]. by rewrite Hnm. }
  assert (forall k, (k = 1 \/ k = 2 \/ k = 3 \/ k = 4 \/ k = 5) -> k ∈ [SDB_U8; SDB_U32; SDB_FIXSTR; SDB_TEXT; SDB_DATA]) as Hkin.
  { intros k H. apply list_elem_of_In. cbn. unfold SDB_U8, SDB_U32, SDB_FIXSTR, SDB_TEXT, SDB_DATA. lia. }
  destruct b as [nm|nm|nm w|nm n|nm]; cbn [build1 bname bsize builder_ok] in *; apply Hfin; try done; try lia;
    try (apply Hadd; [apply Hkin; auto 10|done|lia|cbn; split; [lia|done]|cbn; unfold fsize; cbn; lia]).
  - unfold u32. pose proof (align4 (hdr_size sc) ltac:(lia)) as Ha.
    set (h := if negb _ then _ else _). assert (hdr_size sc <= h <= hdr_size sc + 3) as Hh'.
    { unfold h. destruct (negb _); [|lia]. unfold wrap16. rewrite Z.mod_small; lia. }
    apply Hadd; [apply Hkin; auto|done|lia|cbn; split; [lia|done]|cbn; unfold fsize; cbn; lia].
  - set (h := if negb _ then _ else _). pose proof (align4 (hdr_size sc) ltac:(lia)) as Ha. unfold h. destruct (negb _); [|lia].
    unfold wrap16. rewrite Z.mod_small; lia.
  - apply Hadd; [apply Hkin; auto|done|lia|cbn; split; [lia|intros; lia]|cbn; unfold fsize; cbn; lia].
Qed.

Lemma bsizes_nonneg bs : Forall builder_ok bs -> 0 <= foldr (fun b n => bsize b + n) 0 bs.
Proof.
  induction 1 as [|b bs Hb _ IH]; [done|]. cbn [foldr]. destruct b; cbn [bsize builder_ok] in *; lia.
Qed.

(** C37: a schema put together with the builder calls, from the built-in header and
    with distinct names, is well formed: every fixed field lies inside the header
    after the built-in part, no two overlap, text fields are numbered in order, so
    field accesses never leave the record nor disturb each other. *)
Theorem schema_builders_disjoint sc bs :
  hdr_size sc = SDB_HDR_BUILTIN -> fields sc = [] -> Forall builder_ok bs -> NoDup (map bname bs) ->
  SDB_HDR_BUILTIN + foldr (fun b n => bsize b + n) 0 bs < 2 ^ 16 -> Zlen bs < 2 ^ 16 - 1 ->
  wf_schema (foldl build1 sc bs).
Proof.
  intros Hh Hf Hok Hnd Hsz Hlen.
  assert (wf_schema sc) as Hw.
  { assert (textCount sc = 0) as Et by (unfold textCount; by rewrite Hf).
    split; rewrite ?Hh, ?Hf, ?Et; unfold SDB_HDR_BUILTIN in *; try done; constructor. }
  assert (textCount sc + Zlen bs < 2 ^ 16 - 1) as Ht by (unfold textCount; rewrite Hf; cbn; lia).
  assert (NoDup (map fname (fields sc) ++ map bname bs)) as Hnames by (by rewrite Hf).
  rewrite <- Hh in Hsz. clear Hh Hf Hnd Hlen. revert sc Hw Hsz Ht Hnames.
  induction Hok as [|b bs Hb Hbs IH]; intros sc Hw Hsz Ht Hnames; [done|]. cbn [foldl foldr map] in *.
  rewrite Zlen_cons in Ht. pose proof (Zlen_nonneg bs).
  pose proof Hnames as Hnames'. apply NoDup_app in Hnames' as (_ & Hd & _).
  assert (bname b ∉ map fname (fields sc)) as Hn.
  { intros Hin. apply (Hd (bname b) Hin). apply list_elem_of_In. by left. }
  destruct (build1_wf sc b Hw Hb Hn) as (Hw' & Hs' & Ht' & Hf'); [|lia|].
  - pose proof (bsizes_nonneg bs Hbs). lia.
  - apply IH; [done|lia|lia|]. rewrite Hf', <- app_assoc. done.
Qed.

Lemma schema_builders_disjoint_witness :
  wf_schema (foldl build1 {| schema_id := 1; schema_ver := 1; hdr_size := SDB_HDR_BUILTIN; fields := [] |}
    [B_u8 ($ "n"); B_u32 ($ "ts"); B_fixstr ($ "st") 8; B_data ($ "h") 16; B_text ($ "body")]).
Proof.
  apply schema_builders_disjoint; [done|done| | |vm_compute; reflexivity|vm_compute; reflexivity].
  - repeat (apply Forall_cons; split; [cbn; lia|]). constructor.
  - apply (bool_decide_unpack _). vm_compute. done.
Defined.

(** ** Descriptors *)

Lemma serializeField_len f : Zlen (fname f) <= 255 -> Zlen (serializeField f) = 6 + Zlen (fname f).
Proof.
  intros Hn. unfold serializeField, wr16. rewrite (proj2 (Z.ltb_ge 255 _)) by lia.
  autorewrite with zlen. unfold Zlen in *. lia.
Qed.

Definition field_ok (f : sdb_field) : Prop :=
  0 <= foff f < 2 ^ 16 /\ 0 <= width f < 2 ^ 16 /\ Zlen (fname f) <= 255.

Lemma parseFields_ok fs P :
  Forall field_ok fs ->
  parseFieldsLoop (length fs) (P ++ concat (map serializeField fs)) (Zlen P) = Some (Some fs).
Proof.
  intros H. revert P. induction H as [|f fs (Ho & Hw & Hn) _ IH]; intros P; [done|].
  cbn [length parseFieldsLoop map concat]. pose proof (serializeField_len f Hn) as Hl.
  set (rest := concat (map serializeField fs)) in *. pose proof (Zlen_nonneg rest). pose proof (Zlen_nonneg (fname f)).
  rewrite (proj2 (Z.ltb_ge _ _)) by (rewrite !Zlen_app; lia).
  assert (serializeField f = [kind f] ++ wr16 (foff f) ++ wr16 (width f) ++ [Zlen (fname f)] ++ fname f) as Es.
  { unfold serializeField. rewrite (proj2 (Z.ltb_ge 255 _)) by lia. do 4 f_equal. unfold Zlen. by rewrite Nat2Z.id, firstn_all. }
  assert (P ++ serializeField f ++ rest = P ++ kind f :: (wr16 (foff f) ++ wr16 (width f) ++ [Zlen (fname f)] ++ fname f ++ rest)) as E1
    by (rewrite Es; by rewrite <- !app_assoc).
  rewrite E1, (mem_get_mid P _ _ (Zlen P)) by done. cbn [mbind option_bind].
  assert (P ++ kind f :: (wr16 (foff f) ++ wr16 (width f) ++ [Zlen (fname f)] ++ fname f ++ rest) =
    (P ++ [kind f]) ++ wr16 (foff f) ++ (wr16 (width f) ++ [Zlen (fname f)] ++ fname f ++ rest)) as E2 by (by rewrite <- !app_assoc).
  rewrite E2, (rd16_mid (P ++ [kind f]) _ _ (Zlen P + 1)) by (rewrite Zlen_app; done). cbn [mbind option_bind].
  rewrite (app_assoc (P ++ [kind f])), (rd16_mid _ _ _ (Zlen P + 3)) by (unfold wr16; autorewrite with zlen; lia). cbn [mbind option_bind].
  rewrite (app_assoc (_ ++ wr16 (foff f))). cbn [app].
  rewrite (mem_get_mid _ _ _ (Zlen P + 5)) by (unfold wr16; autorewrite with zlen; lia). cbn [mbind option_bind].
  rewrite (proj2 (Z.ltb_ge _ _)) by (unfold wr16; autorewrite with zlen; lia).
  rewrite (cons_middle (Zlen (fname f))), app_assoc.
  rewrite (mem_slice_mid _ _ _ (Zlen P + 6)) by (unfold wr16; autorewrite with zlen; lia). cbn [mbind option_bind].
  rewrite app_assoc.
  match goal with |- context [parseFieldsLoop _ (?Q ++ rest) ?o] =>
    replace o with (Zlen Q) by (unfold wr16; autorewrite with zlen; lia) end.
  rewrite IH. cbn. unfold wrap16. rewrite !Z.mod_small by lia. by destruct f.
Qed.

Lemma parseDescriptor_ok sc :
  Forall field_ok (fields sc) -> Zlen (fields sc) < 2 ^ 16 ->
  parseDescriptor (serializeDescriptor sc) (schema_id sc) (schema_ver sc) (hdr_size sc) = Some (Some sc).
Proof.
  intros Hf Hn. unfold parseDescriptor, serializeDescriptor. pose proof (Zlen_nonneg (fields sc)).
  set (rest := concat (map serializeField (fields sc))). pose proof (Zlen_nonneg rest).
  rewrite (proj2 (Z.ltb_ge _ _)) by (unfold wr16; autorewrite with zlen; lia).
  assert (rd16 (wr16 (Zlen (fields sc)) ++ rest) 0 = Some (Zlen (fields sc))) as ->.
  { etransitivity; [by apply (rd16_mid [])|]. unfold wrap16. by rewrite Z.mod_small. }
  cbn [mbind option_bind].
  pose proof (parseFields_ok (fields sc) (wr16 (Zlen (fields sc))) Hf) as Hp. fold rest in Hp.
  change (Zlen (wr16 (Zlen (fields sc)))) with 2 in Hp. unfold Zlen at 1. rewrite Nat2Z.id, Hp. cbn.
  by destruct sc.
Qed.

(** The embedded field descriptor round-trips: what [serializeDescriptor] writes,
    [parseDescriptor] reads back as the same field table (names up to 255 bytes,
    16-bit offsets and widths), so a file describes its own layout exactly. *)
Theorem descriptor_roundtrip sc :
  Forall field_ok (fields sc) -> Zlen (fields sc) < 2 ^ 16 ->
  parseDescriptor (serializeDescriptor sc) (schema_id sc) (schema_ver sc) (hdr_size sc) = Some (Some sc).
Proof. apply parseDescriptor_ok. Qed.

Definition demo_schema : sdb_schema :=
  foldl build1 {| schema_id := 7; schema_ver := 1; hdr_size := SDB_HDR_BUILTIN; fields := [] |}
    [B_u8 ($ "n"); B_u32 ($ "ts"); B_fixstr ($ "st") 8; B_data ($ "h") 2; B_text ($ "body"); B_text ($ "title")].

Lemma demo_fields_ok : Forall field_ok (fields demo_schema) /\ wf_schema demo_schema.
Proof.
  split.
  - repeat (apply Forall_cons; split; [vm_compute; repeat split; discriminate|]). constructor.
  - unfold demo_schema. set (sc := {| schema_id := 7; schema_ver := 1; hdr_size := SDB_HDR_BUILTIN; fields := [] |}).
    assert (forall sc b, wf_schema sc -> builder_ok b -> bool_decide (bname b ∉ map fname (fields sc)) = true ->
      hdr_size sc + bsize b < 2 ^ 16 -> textCount sc < 2 ^ 16 - 1 -> wf_schema (build1 sc b)) as H.
    { intros sc' b ?? Hn%bool_decide_eq_true ??. by apply build1_wf. }
    cbn [foldl]. repeat (apply H; [|cbn; lia|vm_compute; reflexivity|vm_compute; reflexivity|vm_compute; reflexivity]).
    split; try (vm_compute; split; done || discriminate); try constructor; done.
Qed.

Lemma descriptor_roundtrip_witness :
  parseDescriptor (serializeDescriptor demo_schema) 7 1 (hdr_size demo_schema) = Some (Some demo_schema).
Proof. apply (descriptor_roundtrip demo_schema (proj1 demo_fields_ok)). vm_compute. reflexivity. Defined.
