(* ===== verification/StorageDbSpec.v ===== *)
(** * storage_db: the abstract store

    A store is an ordered list of records, each a key and a value (a string) for every
    field of the schema. [aget], [aset], [adelete], [atrim] say what the operations
    mean; [abs] reads the abstract store off the arena. *)

From stdpp Require Import gmap.
From S2P Require Import Prelude CLib Targz StorageDb StorageDbBlock StorageDbSchema.
Import Hex Schema Block Store.
Open Scope Z_scope.
Open Scope spangap_scope.

(** ** Field values *)

(** The bytes stored for a value in a fixed field. *)
Definition encode (fd : sdb_field) (val : bytes) : bytes :=
  if kind fd =? SDB_U8 then [wrap8 (atoi val)]
  else if kind fd =? SDB_U32 then wr32 (strtoul val)
  else if kind fd =? SDB_FIXSTR then
    let l := if width fd <=? Zlen val then width fd - 1 else Zlen val in
    take (Z.to_nat l) val ++ replicate (Z.to_nat (width fd - l)) 0
  else
    let d := if Zlen val =? width fd * 2 then hexDecodeInto val (Z.to_nat (width fd)) else [] in
    d ++ replicate (Z.to_nat (width fd) - length d) 0.

(** The string shown for the bytes of a fixed field. *)
Definition render (fd : sdb_field) (p : bytes) : bytes :=
  if (kind fd =? SDB_U8) || (kind fd =? SDB_U32) then udec (le_val p)
  else if kind fd =? SDB_FIXSTR then c_str p
  else if isAllZero p then [] else hexEncodeBytes p.

(** What a value reads back as once stored. *)
Definition canon (fd : sdb_field) (val : bytes) : bytes :=
  if is_text fd then val else render fd (encode fd val).

Definition sub (k n : Z) (l : bytes) : bytes := take (Z.to_nat n) (drop (Z.to_nat k) l).
Definition patch (k : Z) (v l : bytes) : bytes :=
  take (Z.to_nat k) l ++ v ++ drop (Z.to_nat k + length v) l.

Definition fix_at (r : rec) (fd : sdb_field) : bytes := sub (foff fd - 5) (fsize fd) (r_fix r).

Definition rec_value (r : rec) (fd : sdb_field) : bytes :=
  if is_text fd then default [] (r_texts r !! Z.to_nat (foff fd)) else render fd (fix_at r fd).

(** ** Abstract records and stores *)

Record arec := { a_key : bytes; a_vals : list (bytes * bytes) }.

Definition abs_rec (sc : sdb_schema) (r : rec) : arec :=
  {| a_key := r_key r; a_vals := map (fun f => (fname f, rec_value r f)) (fields sc) |}.
Definition abs (sc : sdb_schema) (rs : list rec) : list arec := map (abs_rec sc) (lives rs).

Definition afind (A : list arec) (key : bytes) : option arec :=
  List.find (fun a => streq (a_key a) key) A.
Definition alookup (l : list (bytes * bytes)) (nm : bytes) : option bytes :=
  snd <$> List.find (fun p => streq p.1 nm) l.
Definition aget (A : list arec) (key field : bytes) : option bytes :=
  a ← afind A key; alookup (a_vals a) field.

Definition set_val (nm v : bytes) (l : list (bytes * bytes)) : list (bytes * bytes) :=
  map (fun p => if streq p.1 nm then (p.1, v) else p) l.
Definition areplace (A : list arec) (a' : arec) : list arec :=
  map (fun a => if streq (a_key a) (a_key a') then a' else a) A.
Definition adelete (A : list arec) (key : bytes) : list arec :=
  List.filter (fun a => negb (streq (a_key a) key)) A.

(** A record just created: zeros and empty strings. *)
Definition zero_rec (sc : sdb_schema) (key : bytes) : rec :=
  {| r_flags := 0; r_fix := replicate (Z.to_nat (hdr_size sc - 5)) 0; r_key := key;
     r_texts := replicate (Z.to_nat (textCount sc)) [] |}.

(** The cap: past it, the oldest go until an eighth of it is free. *)
Definition atrim (capn : Z) (A : list arec) : list arec :=
  let n := Zlen A in
  if negb (capn =? 0) && (capn <? n) then
    let d := (n - capn) + capn / 8 in
    drop (Z.to_nat (if n <=? d then n - 1 else d)) A
  else A.

(** Setting a field. A text of another length moves its record to the end. *)
Definition aset (sc : sdb_schema) (capn : Z) (A : list arec) (key field val : bytes) : list arec :=
  match find sc field with
  | None => A
  | Some fd =>
      match afind A key with
      | None => 
          let a := abs_rec sc (zero_rec sc key) in
          let A := atrim capn (A ++ [a]) in
          areplace A {| a_key := key; a_vals := set_val field (canon fd val) (a_vals a) |}
      | Some a =>
          let a' := {| a_key := key; a_vals := set_val field (canon fd val) (a_vals a) |} in
          if is_text fd && negb (Zlen (default [] (alookup (a_vals a) field)) =? Zlen val)
          then adelete A key ++ [a'] else areplace A a'
      end
  end.

(** ** Slices and patches *)

Lemma slice_in (A F B : bytes) k n : 0 <= k -> 0 <= n -> k + n <= Zlen F ->
  mem_slice (A ++ F ++ B) (Zlen A + k) n = Some (sub k n F).
Proof.
  intros Hk Hn Hl. unfold sub. apply mem_slice_Some.
  exists (A ++ take (Z.to_nat k) F), (drop (Z.to_nat n) (drop (Z.to_nat k) F) ++ B).
  split; [|split; [rewrite Zlen_app, Zlen_take; lia|rewrite Zlen_take, Zlen_drop; lia]].
  rewrite (app_assoc (take (Z.to_nat n) _)), take_drop, <- app_assoc, (app_assoc (take (Z.to_nat k) F)).
  by rewrite take_drop.
Qed.

Lemma put_in (A F B v : bytes) k : 0 <= k -> k + Zlen v <= Zlen F ->
  mem_put (A ++ F ++ B) (Zlen A + k) v = Some (A ++ patch k v F ++ B).
Proof.
  intros Hk Hl. pose proof (Zlen_nonneg v). unfold patch. rewrite <- (take_drop (Z.to_nat k) F) at 1.
  rewrite <- (app_assoc (take _ F)), app_assoc.
  rewrite (put_over (A ++ take (Z.to_nat k) F) (drop (Z.to_nat k) F)).
  - f_equal. by rewrite drop_drop, <- !app_assoc.
  - rewrite Zlen_app, Zlen_take. lia.
  - rewrite Zlen_drop. lia.
Qed.

Lemma Zlen_patch k v l : 0 <= k -> k + Zlen v <= Zlen l -> Zlen (patch k v l) = Zlen l.
Proof.
  intros Hk Hl. unfold patch. rewrite !Zlen_app, Zlen_take, Zlen_drop. unfold Zlen in *. lia.
Qed.

Lemma sub_patch_same k v l : 0 <= k -> k + Zlen v <= Zlen l -> sub k (Zlen v) (patch k v l) = v.
Proof.
  intros Hk Hl. unfold sub, patch. rewrite drop_app_length' by (rewrite length_take; unfold Zlen in *; lia).
  unfold Zlen. by rewrite Nat2Z.id, take_app_length.
Qed.

Lemma sub_patch_other k v l k' n : 0 <= k -> 0 <= k' -> 0 <= n -> k + Zlen v <= Zlen l -> k' + n <= Zlen l ->
  k + Zlen v <= k' \/ k' + n <= k -> sub k' n (patch k v l) = sub k' n l.
Proof.
  intros Hk Hk' Hn Hl Hl' Hor. unfold sub, patch.
  assert (length (take (Z.to_nat k) l) = Z.to_nat k) as Lt by (rewrite length_take; unfold Zlen in *; lia).
  destruct Hor as [Hge|Hle].
  - rewrite app_assoc, drop_app_ge by (rewrite length_app, Lt; unfold Zlen in *; lia).
    rewrite length_app, Lt, drop_drop. do 2 f_equal. unfold Zlen in *. lia.
  - rewrite drop_app_le by (rewrite Lt; lia). rewrite take_app_le by (rewrite length_drop, Lt; lia).
    rewrite take_drop_commute, take_take, take_drop_commute. do 2 f_equal. lia.
Qed.

Lemma Zlen_sub k n l : 0 <= k -> 0 <= n -> k + n <= Zlen l -> Zlen (sub k n l) = n.
Proof. intros. unfold sub. rewrite Zlen_take, Zlen_drop. lia. Qed.

(** ** A field of a record where it stands *)

Lemma kind_cases sc fd : wf_field sc fd ->
  kind fd = SDB_U8 \/ kind fd = SDB_U32 \/ kind fd = SDB_FIXSTR \/ kind fd = SDB_TEXT \/ kind fd = SDB_DATA.
Proof. intros [H _ _ _]. apply list_elem_of_In in H. cbn in H. naive_solver. Qed.

(** Reduces the tests on a known field kind. *)
Ltac ksimp := cbn [Z.eqb Pos.eqb SDB_U8 SDB_U32 SDB_FIXSTR SDB_TEXT SDB_DATA orb] in *.

Section Value.
Variables (sc : sdb_schema) (fd : sdb_field) (r : rec) (P Q : bytes).
Hypothesis Hsc : wf_schema sc.
Hypothesis Hfd : wf_field sc fd.
Hypothesis Hr : wf_rec (hdr_size sc) (Z.to_nat (textCount sc)) r.
Hypothesis Hlen : reclen r < 2 ^ 32.

Lemma fixed_range : is_text fd = false ->
  0 <= foff fd - 5 /\ 0 <= fsize fd /\ foff fd - 5 + fsize fd <= Zlen (r_fix r).
Proof.
  intros Ht. destruct (wf_fixed _ _ Hfd Ht) as [H1 H2]. rewrite (wr_fix _ _ _ Hr).
  unfold SDB_HDR_BUILTIN in *. destruct (wf_width _ _ Hfd) as [Hw _].
  unfold fsize in *. repeat case_match; lia.
Qed.

(** The image with its fixed part in the middle. *)
Lemma fix_split : P ++ image r ++ Q =
  (P ++ wr32 (reclen r) ++ [r_flags r]) ++ r_fix r ++ (tail_image r ++ Q) /\
  Zlen (P ++ wr32 (reclen r) ++ [r_flags r]) = Zlen P + 5.
Proof. split; [unfold image; by rewrite <- !app_assoc|unfold wr32; autorewrite with zlen; lia]. Qed.

Lemma fieldValue_at : fieldValue sc (P ++ image r ++ Q) (Zlen P) fd = Some (Some (rec_value r fd)).
Proof.
  destruct fix_split as [Es El]. unfold fieldValue, rec_value, render, fix_at.
  assert (is_text fd = false -> forall n, n = fsize fd ->
    mem_slice (P ++ image r ++ Q) (Zlen P + foff fd) n = Some (sub (foff fd - 5) (fsize fd) (r_fix r))) as Hsl.
  { intros Ht n ->. destruct (fixed_range Ht) as (F1 & F2 & F3). rewrite Es.
    replace (Zlen P + foff fd) with (Zlen (P ++ wr32 (reclen r) ++ [r_flags r]) + (foff fd - 5)) by lia.
    by apply slice_in. }
  unfold is_text, fsize in *.
  destruct (kind_cases _ _ Hfd) as [E|[E|[E|[E|E]]]]; rewrite E in *; ksimp.
  - rewrite mem_get_slice, Hsl by done. destruct (fixed_range) as (F1 & F2 & F3); [unfold is_text; by rewrite E|].
    unfold fsize in *. rewrite E in *. ksimp.
    assert (Zlen (sub (foff fd - 5) 1 (r_fix r)) = 1) as L by (apply Zlen_sub; lia).
    destruct (sub (foff fd - 5) 1 (r_fix r)) as [|x [|y l]]; [done| |exfalso; rewrite !Zlen_cons in L; pose proof (Zlen_nonneg l); lia].
    cbn. by rewrite Z.add_0_r.
  - unfold rd32. rewrite Hsl by done. done.
  - rewrite Hsl by done. done.
  - rewrite (at_texts (hdr_size sc) (Z.to_nat (textCount sc))) by done. cbn.
    destruct (wf_text _ _ Hfd) as [T1 T2]; [unfold is_text; by rewrite E|].
    destruct (lookup_lt_is_Some_2 (r_texts r) (Z.to_nat (foff fd))) as [t Ht].
    { rewrite (wr_nt _ _ _ Hr). lia. }
    by rewrite Ht.
  - rewrite Hsl by done. done.
Qed.

Definition with_fix (v : bytes) : rec :=
  {| r_flags := r_flags r; r_fix := v; r_key := r_key r; r_texts := r_texts r |}.

Lemma put_fixed v : is_text fd = false -> Zlen v = fsize fd ->
  mem_put (P ++ image r ++ Q) (Zlen P + foff fd) v =
    Some (P ++ image (with_fix (patch (foff fd - 5) v (r_fix r))) ++ Q) /\
  wf_rec (hdr_size sc) (Z.to_nat (textCount sc)) (with_fix (patch (foff fd - 5) v (r_fix r))) /\
  reclen (with_fix (patch (foff fd - 5) v (r_fix r))) = reclen r.
Proof.
  intros Ht Hv. destruct (fixed_range Ht) as (F1 & F2 & F3). destruct fix_split as [Es El].
  assert (Zlen (patch (foff fd - 5) v (r_fix r)) = Zlen (r_fix r)) as Lp by (apply Zlen_patch; lia).
  assert (reclen (with_fix (patch (foff fd - 5) v (r_fix r))) = reclen r) as Er
    by (unfold reclen, tail_image; cbn [r_fix r_key r_texts with_fix]; by rewrite Lp).
  split; [|split; [|done]].
  - rewrite Es. replace (Zlen P + foff fd) with (Zlen (P ++ wr32 (reclen r) ++ [r_flags r]) + (foff fd - 5)) by lia.
    rewrite put_in by lia. f_equal. unfold image. rewrite Er. cbn [r_flags r_fix with_fix].
    unfold tail_image. cbn [r_key r_texts with_fix]. by rewrite <- !app_assoc.
  - destruct Hr as [R1 R2 R3 R4]. split; cbn [r_fix r_key r_texts with_fix]; try done. lia.
Qed.
End Value.

(** ** The value of every field after an update of one *)

Lemma hexDecodeInto_length s n : (length (hexDecodeInto s n) <= n)%nat.
Proof.
  revert s. induction n as [|n IH]; intros s; [by destruct s as [|? [|? ?]]|].
  destruct s as [|c0 [|c1 s]]; cbn [hexDecodeInto length]; try lia.
  destruct (hexNib c0), (hexNib c1); cbn [length]; try lia. specialize (IH s). lia.
Qed.

Lemma encode_length sc fd val : wf_field sc fd -> is_text fd = false -> Zlen (encode fd val) = fsize fd.
Proof.
  intros Hfd Ht. destruct (wf_width _ _ Hfd) as [Hw Hf]. pose proof (Zlen_nonneg val).
  unfold encode, fsize, is_text in *.
  destruct (kind_cases _ _ Hfd) as [E|[E|[E|[E|E]]]]; rewrite E in *; ksimp; try done.
  - specialize (Hf eq_refl). rewrite Zlen_app, Zlen_take, Zlen_replicate. destruct (Z.leb_spec (width fd) (Zlen val)); lia.
  - rewrite Zlen_app, Zlen_replicate. case_match.
    + pose proof (hexDecodeInto_length val (Z.to_nat (width fd))). unfold Zlen. lia.
    + cbn [length]. rewrite Zlen_nil. lia.
Qed.

Lemma fields_unique sc f g : wf_schema sc -> f ∈ fields sc -> g ∈ fields sc -> fname f = fname g -> f = g.
Proof.
  intros Hsc Hf Hg E. pose proof (ws_names _ Hsc) as Hn.
  apply list_elem_of_lookup in Hf as [i Hi]. apply list_elem_of_lookup in Hg as [j Hj].
  assert (i = j) as <-; [|congruence].
  eapply NoDup_lookup; [exact Hn| |]; rewrite list_lookup_fmap; [by rewrite Hi|by rewrite Hj, E].
Qed.

Lemma fields_disjoint sc f g : wf_schema sc -> f ∈ fields sc -> g ∈ fields sc -> g <> f -> disjoint f g.
Proof.
  intros Hsc Hf Hg E. apply list_elem_of_lookup in Hf as [i Hi]. apply list_elem_of_lookup in Hg as [j Hj].
  eapply (ws_disjoint _ Hsc i j); [|done|done]. congruence.
Qed.

Lemma field_wf sc f : wf_schema sc -> f ∈ fields sc -> wf_field sc f.
Proof. intros Hsc Hf. pose proof (ws_fields _ Hsc) as H. rewrite Forall_forall in H. apply H. done. Qed.

Lemma abs_rec_set sc r r' fd v :
  wf_schema sc -> fd ∈ fields sc -> r_key r' = r_key r -> rec_value r' fd = v ->
  (forall g, g ∈ fields sc -> g <> fd -> rec_value r' g = rec_value r g) ->
  abs_rec sc r' = {| a_key := r_key r; a_vals := set_val (fname fd) v (a_vals (abs_rec sc r)) |}.
Proof.
  intros Hsc Hfd Hk Hv Ho. unfold abs_rec, set_val. rewrite Hk. f_equal. cbn [a_vals]. rewrite map_map.
  apply map_ext_in. intros g Hg. apply list_elem_of_In in Hg. cbn [fst].
  destruct (streq (fname g) (fname fd)) eqn:E.
  - apply streq_true in E. rewrite (fields_unique sc g fd) by done. by rewrite Hv.
  - apply streq_false in E. rewrite Ho; [done|done|congruence].
Qed.

Section Update.
Variables (sc : sdb_schema) (fd : sdb_field) (r : rec) (val : bytes).
Hypothesis Hsc : wf_schema sc.
Hypothesis Hin : fd ∈ fields sc.
Hypothesis Hr : wf_rec (hdr_size sc) (Z.to_nat (textCount sc)) r.

Lemma abs_put_fixed : is_text fd = false ->
  abs_rec sc (with_fix r (patch (foff fd - 5) (encode fd val) (r_fix r))) =
  {| a_key := r_key r; a_vals := set_val (fname fd) (canon fd val) (a_vals (abs_rec sc r)) |}.
Proof.
  intros Ht. pose proof (field_wf _ _ Hsc Hin) as Hfd. pose proof (encode_length _ _ val Hfd Ht) as El.
  destruct (fixed_range _ _ _ Hfd Hr Ht) as (F1 & F2 & F3).
  apply abs_rec_set; try done.
  - unfold rec_value, canon, fix_at. rewrite Ht. cbn [r_fix with_fix]. f_equal.
    rewrite <- El. apply sub_patch_same; lia.
  - intros g Hg Hne. unfold rec_value, fix_at. cbn [r_fix r_texts with_fix]. destruct (is_text g) eqn:Eg; [done|].
    destruct (fixed_range _ _ _ (field_wf _ _ Hsc Hg) Hr Eg) as (G1 & G2 & G3).
    pose proof (fields_disjoint _ _ _ Hsc Hin Hg Hne) as Hd. unfold disjoint in Hd. rewrite Ht in Hd. specialize (Hd Eg).
    f_equal. apply sub_patch_other; lia.
Qed.

Definition with_text : rec :=
  {| r_flags := r_flags r; r_fix := r_fix r; r_key := r_key r; r_texts := <[Z.to_nat (foff fd) := val]> (r_texts r) |}.

Lemma abs_put_text : is_text fd = true ->
  abs_rec sc with_text =
  {| a_key := r_key r; a_vals := set_val (fname fd) (canon fd val) (a_vals (abs_rec sc r)) |}.
Proof.
  intros Ht. pose proof (field_wf _ _ Hsc Hin) as Hfd. pose proof (wf_text _ _ Hfd Ht) as T.
  apply abs_rec_set; try done.
  - unfold rec_value, canon. rewrite Ht. cbn [r_texts with_text]. rewrite list_lookup_insert_eq; [done|].
    rewrite (wr_nt _ _ _ Hr). lia.
  - intros g Hg Hne. unfold rec_value, fix_at. cbn [r_fix r_texts with_text]. destruct (is_text g) eqn:Eg; [|done].
    pose proof (fields_disjoint _ _ _ Hsc Hin Hg Hne) as Hd. unfold disjoint in Hd. rewrite Ht in Hd. specialize (Hd Eg).
    pose proof (wf_text _ _ (field_wf _ _ Hsc Hg) Eg). rewrite list_lookup_insert_ne by lia. done.
Qed.

Lemma with_text_wf : Zlen val < 2 ^ 16 -> wf_rec (hdr_size sc) (Z.to_nat (textCount sc)) with_text.
Proof.
  intros Hv. destruct Hr as [R1 R2 R3 R4]. split; cbn [r_fix r_key r_texts with_text]; try done.
  - by apply Forall_insert.
  - by rewrite length_insert.
Qed.
End Update.

(** ** Operations of the abstract store around one record *)

Definition akeys (A : list arec) : list bytes := map a_key A.

Lemma akeys_abs sc rs : akeys (abs sc rs) = keys rs.
Proof. unfold akeys, abs, keys. rewrite map_map. done. Qed.

Lemma abs_app sc a b : abs sc (a ++ b) = abs sc a ++ abs sc b.
Proof. unfold abs, lives. by rewrite List.filter_app, map_app. Qed.

Lemma abs_live sc r : live r = true -> abs sc [r] = [abs_rec sc r].
Proof. intros H. unfold abs, lives. cbn. by rewrite H. Qed.

Lemma abs_dead sc r : live r = false -> abs sc [r] = [].
Proof. intros H. unfold abs, lives. cbn. by rewrite H. Qed.

Lemma abs_lives sc rs : abs sc (lives rs) = abs sc rs.
Proof. unfold abs. by rewrite lives_lives. Qed.

Lemma afind_none A k : k ∉ akeys A -> afind A k = None.
Proof.
  induction A as [|a A IH]; [done|]. cbn. intros Hk. apply not_elem_of_cons in Hk as [Hne Hk].
  rewrite (proj2 (streq_false _ _)) by congruence. by apply IH.
Qed.

Lemma afind_mid A1 a A2 : a_key a ∉ akeys A1 -> afind (A1 ++ a :: A2) (a_key a) = Some a.
Proof.
  induction A1 as [|x A1 IH]; cbn; intros Hk.
  - by rewrite (proj2 (streq_true _ _)).
  - apply not_elem_of_cons in Hk as [Hne Hk]. rewrite (proj2 (streq_false _ _)) by congruence. by apply IH.
Qed.

Lemma areplace_notin A a : a_key a ∉ akeys A -> areplace A a = A.
Proof.
  induction A as [|x A IH]; [done|]. cbn. intros Hk. apply not_elem_of_cons in Hk as [Hne Hk].
  rewrite (proj2 (streq_false _ _)) by congruence. f_equal. by apply IH.
Qed.

Lemma areplace_mid A1 a a' A2 : a_key a' = a_key a -> a_key a ∉ akeys A1 -> a_key a ∉ akeys A2 ->
  areplace (A1 ++ a :: A2) a' = A1 ++ a' :: A2.
Proof.
  intros E H1 H2. unfold areplace. rewrite map_app. cbn [map]. rewrite (proj2 (streq_true _ _)) by done.
  fold (areplace A1 a') (areplace A2 a'). by rewrite !areplace_notin by (by rewrite E).
Qed.

Lemma adelete_notin A k : k ∉ akeys A -> adelete A k = A.
Proof.
  induction A as [|x A IH]; [done|]. cbn. intros Hk. apply not_elem_of_cons in Hk as [Hne Hk].
  rewrite (proj2 (streq_false _ _)) by congruence. cbn. f_equal. by apply IH.
Qed.

Lemma adelete_mid A1 a A2 : a_key a ∉ akeys A1 -> a_key a ∉ akeys A2 ->
  adelete (A1 ++ a :: A2) (a_key a) = A1 ++ A2.
Proof.
  intros H1 H2. unfold adelete. rewrite List.filter_app. cbn [List.filter]. rewrite (proj2 (streq_true _ _)) by done.
  cbn [negb]. fold (adelete A1 (a_key a)) (adelete A2 (a_key a)). by rewrite !adelete_notin.
Qed.

(** A field of a record, through the schema. *)
Lemma alookup_rec sc r nm :
  alookup (a_vals (abs_rec sc r)) nm = option_map (rec_value r) (find sc nm).
Proof.
  unfold alookup, abs_rec, find. cbn [a_vals]. induction (fields sc) as [|f fs IH]; [done|]. cbn.
  destruct (streq (fname f) nm); [done|]. apply IH.
Qed.

Lemma find_Some sc nm fd : find sc nm = Some fd -> fd ∈ fields sc /\ fname fd = nm.
Proof. intros H. apply find_some in H as [H1 H2]. apply list_elem_of_In in H1. by apply streq_true in H2. Qed.
