(* ===== verification/StorageDbStore.v ===== *)
(** * storage_db: the operations implement the abstract store

    From [repr] to the abstract store of StorageDbSpec: reading, writing, deleting and
    creating records, with the cap enforced and allocation failures as they come. *)

From stdpp Require Import gmap.
From S2P Require Import Prelude CLib Targz StorageDb StorageDbBlock StorageDbSchema StorageDbSpec.
Import Hex Schema Block Store.
Open Scope Z_scope.
Open Scope spangap_scope.

(** ** Finding a record *)

Record located (s : sdb_store) (rs : list rec) (key : bytes) (off : Z) (P : bytes) (a : list rec) (r : rec) (b : list rec)
    : Prop := {
  lo_split : rs = a ++ r :: b;
  lo_live : live r = true;
  lo_key : r_key r = key;
  lo_a : key ∉ keys a;
  lo_b : key ∉ keys b;
  lo_block : block s = P ++ image r ++ images b;
  lo_off : off = Zlen P;
  lo_P : exists hd, Zlen hd = 16 /\ P = hd ++ images a;
  lo_wf : wf_rec (hs s) (Z.to_nat (textCount (schema s))) r;
  lo_len : reclen r <= used s /\ reclen r < 2 ^ 31
}.

Lemma keys_one r : live r = true -> keys [r] = [r_key r].
Proof. intros H. unfold keys, lives. cbn. by rewrite H. Qed.

Lemma keys_dead r : live r = false -> keys [r] = [].
Proof. intros H. unfold keys, lives. cbn. by rewrite H. Qed.

Lemma locate s rs a r b : repr s rs -> rs = a ++ r :: b -> live r = true ->
  exists P, located s rs (r_key r) (16 + Zlen (images a)) P a r b.
Proof.
  intros [(hd & Hhd & Eb) H2 H3 H4 H5 H6 H7] Ers Hl. subst rs.
  rewrite (cons_middle r), !keys_app, keys_one in H3 by done.
  apply NoDup_app in H3 as (_ & Ha & Hb). cbn in Hb. apply NoDup_cons in Hb as [Hb _].
  rewrite images_app, images_cons in Eb. pose proof (Zlen_nonneg (images a)). pose proof (Zlen_nonneg (images b)).
  exists (hd ++ images a). split; try done.
  - intros Hin. apply (Ha _ Hin). apply elem_of_cons. by left.
  - by rewrite Eb, <- !app_assoc.
  - rewrite Zlen_app. lia.
  - by exists hd.
  - apply Forall_app in H2 as [_ H2]. by apply Forall_cons in H2 as [H2 _].
  - unfold used in *. rewrite Eb, !Zlen_app, Zlen_image in *. lia.
Qed.

Lemma findRec_ok s rs key : repr s rs ->
  match findRec s key with
  | None => key ∉ keys rs
  | Some off => exists P a r b, located s rs key off P a r b
  end.
Proof.
  intros Hr. unfold findRec. rewrite (rp_index _ _ Hr).
  destruct (decide (key ∈ keys rs)) as [Hin|Hnin].
  - destruct (keys_split rs key Hin) as (a & r & b & Ers & Hl & <- & Hb).
    rewrite Ers, index_acc_at by done. destruct (locate s rs a r b Hr Ers Hl) as [P HP].
    rewrite <- Ers. eauto 10.
  - by rewrite index_acc_notin, lookup_empty.
Qed.

Lemma findRec_at s rs a r b : repr s rs -> rs = a ++ r :: b -> live r = true ->
  findRec s (r_key r) = Some (16 + Zlen (images a)).
Proof.
  intros Hr Ers Hl. destruct (locate _ _ _ _ _ Hr Ers Hl) as [P HP]. unfold findRec.
  rewrite (rp_index _ _ Hr), Ers. apply index_acc_at; [done|]. apply HP.
Qed.

(** ** Changing the record in place, and tombstoning it *)

Lemma index_acc_delete k off idx rs : k ∉ keys rs ->
  index_acc off (delete k idx) rs = delete k (index_acc off idx rs).
Proof.
  revert off idx. induction rs as [|r rs IH]; intros off idx Hk; [done|]. cbn [index_acc].
  rewrite (keys_app [r] rs : keys (r :: rs) = _), not_elem_of_app in Hk. destruct Hk as [Hr Hk].
  destruct (live r) eqn:El; [|by apply IH]. rewrite keys_one, list_elem_of_singleton in Hr by done.
  rewrite <- IH, delete_insert_ne by congruence. done.
Qed.

Lemma with_arena_repr s rs a r b hd r' idx :
  repr s rs -> rs = a ++ r :: b -> Zlen hd = 16 ->
  wf_rec (hs s) (Z.to_nat (textCount (schema s))) r' -> reclen r' = reclen r ->
  NoDup (keys (a ++ r' :: b)) -> idx = index_acc 16 ∅ (a ++ r' :: b) ->
  repr (with_arena s ((hd ++ images a) ++ image r' ++ images b) idx) (a ++ r' :: b).
Proof.
  intros [(hd' & Hhd' & Eb) H2 H3 H4 H5 H6 H7] Ers Hhd Hw El Hnd Ei. subst rs.
  rewrite images_app, images_cons in Eb. unfold used in H6. rewrite Eb, !Zlen_app, Zlen_image in H6.
  split; unfold used, hs in *; cbn [block schema index cap with_arena]; try done.
  - exists hd. split; [done|]. by rewrite images_app, images_cons, <- !app_assoc.
  - apply Forall_app in H2 as [Ha Hb]. apply Forall_cons in Hb as [_ Hb].
    apply Forall_app. split; [done|]. by apply Forall_cons.
  - rewrite !Zlen_app, Zlen_image. lia.
Qed.

Lemma repr_replace s rs key off P a r b r' :
  repr s rs -> located s rs key off P a r b -> wf_rec (hs s) (Z.to_nat (textCount (schema s))) r' ->
  reclen r' = reclen r -> r_key r' = r_key r -> r_flags r' = r_flags r ->
  repr (with_arena s (P ++ image r' ++ images b) (index s)) (a ++ r' :: b).
Proof.
  intros Hr [Ers Hl Hk Ha Hb Eb Eo (hd & Hhd & ->) Hw Hlen] Hw' El Ek Ef.
  assert (live r' = live r) as Elv by (unfold live; by rewrite Ef).
  eapply with_arena_repr; try done.
  - pose proof (rp_keys _ _ Hr) as Hn. rewrite Ers in Hn. revert Hn.
    rewrite (cons_middle r), (cons_middle r'), !keys_app, !keys_one by congruence. by rewrite Ek.
  - rewrite (rp_index _ _ Hr), Ers, !index_acc_app. cbn [index_acc]. by rewrite Elv, El, Ek.
Qed.

Lemma repr_kill s rs key off P a r b :
  repr s rs -> located s rs key off P a r b ->
  repr (with_arena s (P ++ image (kill r) ++ images b) (delete key (index s))) (a ++ kill r :: b).
Proof.
  intros Hr [Ers Hl Hk Ha Hb Eb Eo (hd & Hhd & ->) Hw Hlen].
  eapply with_arena_repr; try done; [by apply kill_wf| |].
  - pose proof (rp_keys _ _ Hr) as Hn. rewrite Ers in Hn. revert Hn.
    rewrite (cons_middle r), (cons_middle (kill r)), !keys_app, keys_one, keys_dead by (done || apply kill_dead).
    cbn [app]. rewrite !NoDup_app. intros (N1 & N2 & N3). cbn in N3. apply NoDup_cons in N3 as [_ N3].
    split; [done|]. split; [|done]. intros k Hka Hkb. apply (N2 k Hka). apply elem_of_cons. by right.
  - rewrite (rp_index _ _ Hr), Ers, !index_acc_app. cbn [index_acc]. rewrite kill_dead, Hl, Hk, kill_reclen.
    rewrite <- index_acc_delete by done. rewrite delete_insert_id; [done|].
    by rewrite index_acc_notin, lookup_empty.
Qed.

Lemma repr_flags s rs ld dt : repr s rs -> repr (with_flags s ld dt) rs.
Proof. intros []. by split. Qed.

(** The abstract store around a located record. *)
Lemma abs_located s rs key off P a r b : located s rs key off P a r b ->
  abs (schema s) rs = abs (schema s) a ++ abs_rec (schema s) r :: abs (schema s) b /\
  a_key (abs_rec (schema s) r) = key /\
  (key ∉ akeys (abs (schema s) a)) /\ key ∉ akeys (abs (schema s) b).
Proof.
  intros [-> Hl Hk Ha Hb _ _ _ _ _]. rewrite !akeys_abs. split; [|done].
  rewrite (cons_middle r), !abs_app, abs_live by done. done.
Qed.

Lemma abs_replace s rs key off P a r b r' v nm : located s rs key off P a r b ->
  r_flags r' = r_flags r ->
  abs_rec (schema s) r' = {| a_key := r_key r; a_vals := set_val nm v (a_vals (abs_rec (schema s) r)) |} ->
  abs (schema s) (a ++ r' :: b) =
  areplace (abs (schema s) rs) {| a_key := key; a_vals := set_val nm v (a_vals (abs_rec (schema s) r)) |}.
Proof.
  intros Hlo Ef Er. destruct (abs_located _ _ _ _ _ _ _ _ Hlo) as (-> & Ek & Ha & Hb).
  rewrite areplace_mid by (cbn [a_key]; congruence).
  rewrite (cons_middle r'), !abs_app, abs_live by (unfold live; rewrite Ef; apply Hlo).
  rewrite Er, (lo_key _ _ _ _ _ _ _ _ Hlo). done.
Qed.

Lemma abs_kill s rs key off P a r b : located s rs key off P a r b ->
  abs (schema s) (a ++ kill r :: b) = adelete (abs (schema s) rs) key.
Proof.
  intros Hlo. destruct (abs_located _ _ _ _ _ _ _ _ Hlo) as (-> & <- & Ha & Hb).
  rewrite adelete_mid by done. rewrite (cons_middle (kill r)), !abs_app, abs_dead by apply kill_dead. done.
Qed.

(** ** Reading and deleting *)

Section Ops.
Variables (s : sdb_store) (rs : list rec).
Hypothesis Hsc : wf_schema (schema s).
Hypothesis Hrep : repr s rs.
Hypothesis Hld : loaded s = true.
Notation A := (abs (schema s) rs).

Lemma getField_ok key field : sdbGetField s key field = Some (aget A key field).
Proof.
  unfold sdbGetField, aget. rewrite Hld. cbn [negb]. pose proof (findRec_ok s rs key Hrep) as Hf.
  destruct (findRec s key) as [off|] eqn:Ef.
  - destruct Hf as (P & a & r & b & Hlo). destruct (abs_located _ _ _ _ _ _ _ _ Hlo) as (EA & Ek & Ha & Hb).
    rewrite EA, <- Ek, afind_mid by (by rewrite Ek). cbn [mbind option_bind]. rewrite alookup_rec.
    destruct (find (schema s) field) as [fd|] eqn:Efd; [|done]. cbn [option_map].
    destruct (find_Some _ _ _ Efd) as [Hin _].
    rewrite (lo_block _ _ _ _ _ _ _ _ Hlo), (lo_off _ _ _ _ _ _ _ _ Hlo).
    pose proof (lo_len _ _ _ _ _ _ _ _ Hlo).
    apply fieldValue_at; [by apply field_wf|exact (lo_wf _ _ _ _ _ _ _ _ Hlo)].
  - rewrite afind_none by (by rewrite akeys_abs). done.
Qed.

Lemma deleteRecord_ok key : exists s' rs',
  sdbDeleteRecord s key = Some s' /\ repr s' rs' /\ abs (schema s) rs' = adelete A key /\
  schema s' = schema s /\ loaded s' = true.
Proof.
  unfold sdbDeleteRecord. rewrite Hld. cbn [negb]. pose proof (findRec_ok s rs key Hrep) as Hf.
  destruct (findRec s key) as [off|] eqn:Ef.
  - destruct Hf as (P & a & r & b & Hlo).
    rewrite (lo_block _ _ _ _ _ _ _ _ Hlo), (lo_off _ _ _ _ _ _ _ _ Hlo).
    rewrite at_flags. cbn [mbind option_bind]. rewrite at_set_flags. cbn [mbind option_bind].
    eexists _, (a ++ kill r :: b). split; [done|]. split; [|split; [by eapply abs_kill|done]].
    apply repr_flags. by eapply repr_kill.
  - exists s, rs. rewrite adelete_notin by (by rewrite akeys_abs). done.
Qed.
End Ops.

(** ** Writing a field *)

(** The image put together from a header copy. *)
Lemma buildRecord_ok L fl fx key texts : Zlen L = 4 ->
  buildRecord (L ++ [fl] ++ fx) key texts =
  Some (image {| r_flags := fl; r_fix := fx; r_key := key; r_texts := texts |}).
Proof.
  intros HL. unfold buildRecord, SDB_FLAGS_OFF, SDB_REC_LEN_OFF.
  assert (mem_get (L ++ [fl] ++ fx) 4 = Some fl) as -> by (by apply (mem_get_mid L fx fl 4)). cbn [mbind option_bind].
  set (r := {| r_flags := fl; r_fix := fx; r_key := key; r_texts := texts |}).
  assert ((L ++ [fl] ++ fx) ++ textImage key ++ concat (map textImage texts) = L ++ [fl] ++ fx ++ tail_image r) as ->
    by (unfold tail_image; by rewrite <- !app_assoc).
  assert (Zlen (L ++ [fl] ++ fx ++ tail_image r) = reclen r) as ->
    by (unfold reclen; rewrite !Zlen_app, HL; cbn [r_fix r]; rewrite Zlen_cons, Zlen_nil; lia).
  assert (mem_put (L ++ [fl] ++ fx ++ tail_image r) 0 (wr32 (reclen r)) = Some (wr32 (reclen r) ++ [fl] ++ fx ++ tail_image r)) as ->
    by (apply (mem_put_mid [] L (wr32 (reclen r)) ([fl] ++ fx ++ tail_image r) 0 eq_refl); by rewrite HL).
  cbn [mbind option_bind].
  rewrite (mem_put_mid (wr32 (reclen r)) [fl] [fl] (fx ++ tail_image r) 4) by done. done.
Qed.

Lemma texts_length (ts : list bytes) i v old : ts !! i = Some old ->
  Zlen (concat (map textImage (<[i := v]> ts))) = Zlen (concat (map textImage ts)) - Zlen old + Zlen v.
Proof.
  revert i. induction ts as [|t ts IH]; intros i Hi; [done|]. destruct i as [|i]; cbn in Hi.
  - injection Hi as ->. cbn [map concat insert list_insert]. rewrite !Zlen_app, !Zlen_textImage. lia.
  - change (<[S i := v]> (t :: ts)) with (t :: <[i := v]> ts). cbn [map concat]. rewrite !Zlen_app, IH by done. lia.
Qed.

(** Everything but the arena, its index and the dirty mark. *)
Definition same_store (s s' : sdb_store) : Prop :=
  schema s' = schema s /\ path s' = path s /\ cap_records s' = cap_records s /\ loaded s' = loaded s.

Lemma same_meta_store s s' : same_meta s s' -> same_store s s'.
Proof. intros (?&?&?&?&?). by split_and!. Qed.

Lemma same_store_trans a b c : same_store a b -> same_store b c -> same_store a c.
Proof. intros (?&?&?&?) (?&?&?&?). split_and!; congruence. Qed.

(** What a write to the located record means. *)
Definition awrite (A : list arec) (a : arec) (fd : sdb_field) (val : bytes) : list arec :=
  let a' := {| a_key := a_key a; a_vals := set_val (fname fd) (canon fd val) (a_vals a) |} in
  if is_text fd && negb (Zlen (default [] (alookup (a_vals a) (fname fd))) =? Zlen val)
  then adelete A (a_key a) ++ [a'] else areplace A a'.

Section Write.
Variables (s : sdb_store) (rs : list rec) (key : bytes) (off : Z) (P : bytes) (a : list rec) (r : rec) (b : list rec).
Variables (fd : sdb_field) (val : bytes) (h : heap).
Hypothesis Hsc : wf_schema (schema s).
Hypothesis Hrep : repr s rs.
Hypothesis Hlo : located s rs key off P a r b.
Hypothesis Hin : fd ∈ fields (schema s).
Notation A := (abs (schema s) rs).
Notation res s' rs' := (repr s' rs' /\ same_store s s' /\ abs (schema s) rs' = awrite A (abs_rec (schema s) r) fd val).

Lemma in_place r' : wf_rec (hs s) (Z.to_nat (textCount (schema s))) r' ->
  reclen r' = reclen r -> r_key r' = r_key r -> r_flags r' = r_flags r ->
  abs_rec (schema s) r' = {| a_key := r_key r; a_vals := set_val (fname fd) (canon fd val) (a_vals (abs_rec (schema s) r)) |} ->
  is_text fd && negb (Zlen (default [] (alookup (a_vals (abs_rec (schema s) r)) (fname fd))) =? Zlen val) = false ->
  res (with_flags (with_arena s (P ++ image r' ++ images b) (index s)) (loaded s) true) (a ++ r' :: b).
Proof.
  intros Hw El Ek Ef Ea Ht. split; [apply repr_flags; by eapply repr_replace|]. split; [done|].
  unfold awrite. rewrite Ht. rewrite (abs_replace _ _ _ _ _ _ _ _ _ _ _ Hlo Ef Ea). cbn [a_key abs_rec].
  by rewrite (lo_key _ _ _ _ _ _ _ _ Hlo).
Qed.

Lemma writeField_fixed : is_text fd = false -> exists s' rs', writeField s off fd val h = Some s' /\ res s' rs' /\ used s' = used s.
Proof.
  intros Ht. pose proof (field_wf _ _ Hsc Hin) as Hfd. pose proof (lo_wf _ _ _ _ _ _ _ _ Hlo) as Hw.
  pose proof (lo_len _ _ _ _ _ _ _ _ Hlo) as Hlen.
  pose proof (encode_length _ _ val Hfd Ht) as El.
  destruct (put_fixed (schema s) fd r P (images b) Hfd Hw (encode fd val) Ht El) as (Ep & Hw' & Er').
  assert (writeField s off fd val h =
    (b ← mem_put (block s) (off + foff fd) (encode fd val);
     Some (with_flags (with_arena s b (index s)) (loaded s) true))) as ->.
  { unfold writeField, encode. destruct (wf_width _ _ Hfd) as [Hw0 Hf0]. unfold is_text in Ht.
    destruct (kind_cases _ _ Hfd) as [E|[E|[E|[E|E]]]]; rewrite E in *; ksimp; try done.
    specialize (Hf0 eq_refl). pose proof (Zlen_nonneg val).
    rewrite (proj2 (Z.ltb_ge _ 0)); [done|]. destruct (Z.leb_spec (width fd) (Zlen val)); lia. }
  rewrite (lo_block _ _ _ _ _ _ _ _ Hlo), (lo_off _ _ _ _ _ _ _ _ Hlo), Ep. cbn [mbind option_bind].
  eexists _, _. split; [done|]. split.
  - apply in_place; [exact Hw'|done|done|done| |by rewrite Ht]. by apply abs_put_fixed.
  - unfold used. cbn [block with_flags with_arena]. rewrite (lo_block _ _ _ _ _ _ _ _ Hlo), !Zlen_app, !Zlen_image. lia.
Qed.

Lemma old_text : is_text fd = true ->
  exists old, r_texts r !! Z.to_nat (foff fd) = Some old /\
    alookup (a_vals (abs_rec (schema s) r)) (fname fd) = Some old.
Proof.
  intros Ht. pose proof (wf_text _ _ (field_wf _ _ Hsc Hin) Ht) as T.
  destruct (lookup_lt_is_Some_2 (r_texts r) (Z.to_nat (foff fd))) as [old Ho].
  { rewrite (wr_nt _ _ _ (lo_wf _ _ _ _ _ _ _ _ Hlo)). lia. }
  exists old. split; [done|]. rewrite alookup_rec.
  destruct (find (schema s) (fname fd)) as [g|] eqn:Eg.
  - destruct (find_Some _ _ _ Eg) as [Hg En]. rewrite (fields_unique _ g fd Hsc Hg Hin En). cbn.
    unfold rec_value. by rewrite Ht, Ho.
  - exfalso. unfold find in Eg. pose proof (find_none _ _ Eg fd (proj1 (list_elem_of_In _ _) Hin)) as Hno.
    cbn in Hno. by apply streq_false in Hno.
Qed.

(** A text of another length: the record is tombstoned and written anew at the end. *)
Lemma rewrite_moves : is_text fd = true -> Zlen val < 2 ^ 16 -> used s < 2 ^ 28 ->
  is_text fd && negb (Zlen (default [] (alookup (a_vals (abs_rec (schema s) r)) (fname fd))) =? Zlen val) = true ->
  exists s1 ok rs',
    appendRecord (with_arena s (P ++ image (kill r) ++ images b) (delete key (index s))) key
      (image (with_text fd r val)) h = Some (s1, ok) /\
    repr s1 rs' /\ same_store s s1 /\
    (grow1 h || grow2 h = true -> abs (schema s) rs' = awrite A (abs_rec (schema s) r) fd val).
Proof.
  intros Ht Hv Hu Hmv. pose proof (lo_wf _ _ _ _ _ _ _ _ Hlo) as Hw.
  pose proof (lo_len _ _ _ _ _ _ _ _ Hlo) as [Hlen _].
  destruct (old_text Ht) as (old & Ho & _).
  pose proof (with_text_wf (schema s) fd r val Hw Hv) as Hw'. set (r' := with_text fd r val) in *.
  assert (reclen r' = reclen r - Zlen old + Zlen val) as Er'.
  { unfold reclen, tail_image. cbn [r' with_text r_fix r_key r_texts]. rewrite !Zlen_app, (texts_length _ _ val old Ho). lia. }
  set (s0 := with_arena s _ _). pose proof (repr_kill _ _ _ _ _ _ _ _ Hrep Hlo) as Hk. fold s0 in Hk.
  assert (used s0 = used s) as Eu.
  { unfold used. cbn [s0 block with_arena]. rewrite (lo_block _ _ _ _ _ _ _ _ Hlo), !Zlen_app, !Zlen_image. done. }
  assert (live r' = true) as Hl by exact (lo_live _ _ _ _ _ _ _ _ Hlo).
  assert (r_key r' = key) as Ek by exact (lo_key _ _ _ _ _ _ _ _ Hlo).
  assert (keys (a ++ kill r :: b) = keys a ++ keys b) as Eks
    by (rewrite (cons_middle (kill r)), !keys_app, keys_dead by apply kill_dead; done).
  pose proof (Zlen_nonneg old).
  destruct (appendRecord_ok s0 _ r' h Hk Hw' Hl) as (s1 & ok & rs1 & Ea & Hm & Elv & _ & Hr1 & Hg & Hu1).
  { rewrite Eks, Ek, not_elem_of_app. split; apply Hlo. }
  { rewrite Eu, Er'. lia. }
  rewrite Ek in Ea. exists s1, ok, (if ok then rs1 ++ [r'] else rs1). split; [exact Ea|]. split; [done|].
  split; [apply (same_store_trans _ s0); [done|by apply same_meta_store]|].
  intros Hgr. rewrite Hg by (rewrite <- orb_assoc, Hgr; apply orb_true_r).
  unfold awrite. rewrite Hmv, abs_app, abs_live by done. unfold r'. rewrite abs_put_text by done.
  f_equal.
  transitivity (abs (schema s) (a ++ kill r :: b)); [unfold abs; by rewrite Elv|].
  rewrite (abs_kill _ _ _ _ _ _ _ _ Hlo). cbn [a_key abs_rec]. by rewrite (lo_key _ _ _ _ _ _ _ _ Hlo).
Qed.

Lemma writeField_text : is_text fd = true -> Zlen val < 2 ^ 16 -> used s < 2 ^ 28 ->
  exists s' rs', writeField s off fd val h = Some s' /\ repr s' rs' /\ same_store s s' /\
    (grow1 h || grow2 h = true -> abs (schema s) rs' = awrite A (abs_rec (schema s) r) fd val).
Proof.
  intros Ht Hv Hu. pose proof (lo_wf _ _ _ _ _ _ _ _ Hlo) as Hw. pose proof (lo_len _ _ _ _ _ _ _ _ Hlo) as [_ Hlen].
  pose proof Ht as Hk. unfold is_text in Hk. apply Z.eqb_eq in Hk.
  destruct (old_text Ht) as (old & Ho & Hal).
  unfold writeField. rewrite Hk. ksimp.
  rewrite (lo_block _ _ _ _ _ _ _ _ Hlo), (lo_off _ _ _ _ _ _ _ _ Hlo).
  rewrite (at_texts (hs s) (Z.to_nat (textCount (schema s)))) by done. cbn [mbind option_bind].
  rewrite (lo_key _ _ _ _ _ _ _ _ Hlo), Ho.
  destruct (bool_decide_reflect (Some old = Some val)) as [Ev|Hne].
  { injection Ev as Ev. subst old. exists s, rs. split_and!; try done. intros _.
    unfold awrite. rewrite Hal. change (default [] (Some val)) with val. rewrite Z.eqb_refl. cbn [negb]. rewrite andb_false_r.
    pose proof (abs_put_text (schema s) fd r val Hsc Hin Hw Ht) as E.
    assert (with_text fd r val = r) as Er by (unfold with_text; rewrite list_insert_id by done; by destruct r).
    rewrite Er in E. cbn [a_key abs_rec]. rewrite (lo_key _ _ _ _ _ _ _ _ Hlo).
    rewrite <- (abs_replace _ _ _ _ _ _ _ _ r _ _ Hlo eq_refl E). by rewrite <- (lo_split _ _ _ _ _ _ _ _ Hlo). }
  assert (mem_slice (P ++ image r ++ images b) (Zlen P) (hs s) = Some (wr32 (reclen r) ++ [r_flags r] ++ r_fix r)) as ->.
  { unfold image. assert ((wr32 (reclen r) ++ [r_flags r] ++ r_fix r ++ tail_image r) ++ images b =
      (wr32 (reclen r) ++ [r_flags r] ++ r_fix r) ++ (tail_image r ++ images b)) as -> by (by rewrite <- !app_assoc).
    apply mem_slice_mid; [done|]. unfold wr32. rewrite !Zlen_app, Zlen_le_bytes, (wr_fix _ _ _ Hw), Zlen_cons, Zlen_nil. lia. }
  cbn [mbind option_bind]. rewrite buildRecord_ok by done. cbn [mbind option_bind].
  rewrite (at_len (hs s) (Z.to_nat (textCount (schema s)))) by (done || lia). cbn [mbind option_bind].
  assert (image {| r_flags := r_flags r; r_fix := r_fix r; r_key := key; r_texts := <[Z.to_nat (foff fd):=val]> (r_texts r) |} =
    image (with_text fd r val)) as -> by (unfold with_text; by rewrite (lo_key _ _ _ _ _ _ _ _ Hlo)).
  assert (reclen (with_text fd r val) = reclen r - Zlen old + Zlen val) as Er'.
  { unfold reclen, tail_image. cbn [with_text r_fix r_key r_texts]. rewrite !Zlen_app, (texts_length _ _ val old Ho). lia. }
  rewrite Zlen_image. destruct (Z.eqb_spec (reclen (with_text fd r val)) (reclen r)) as [El|Hnl].
  - rewrite (mem_put_mid P (image r) (image (with_text fd r val)) (images b)) by (rewrite ?Zlen_image; congruence || done).
    cbn [mbind option_bind]. eexists _, _. split; [done|].
    destruct (in_place (with_text fd r val)) as (I1 & I2 & I3); [by apply with_text_wf|done|done|done|by apply abs_put_text| |].
    { rewrite Hal. change (default [] (Some old)) with old. rewrite (proj2 (Z.eqb_eq _ _)) by lia. by rewrite andb_false_r. }
    split; [exact I1|]. split; [exact I2|]. intros _. exact I3.
  - rewrite at_flags. cbn [mbind option_bind]. rewrite at_set_flags. cbn [mbind option_bind].
    destruct rewrite_moves as (s1 & ok & rs' & Ea & R1 & R2 & R3); try done.
    { rewrite Ht, Hal. change (default [] (Some old)) with old. rewrite (proj2 (Z.eqb_neq _ _)) by lia. done. }
    change (image {| r_flags := Z.lor (r_flags r) SDB_FLAG_DELETED; r_fix := r_fix r; r_key := r_key r; r_texts := r_texts r |})
      with (image (kill r)).
    rewrite Ea. cbn [mbind option_bind]. eexists _, rs'. split; [done|]. split; [by apply repr_flags|].
    split; [exact R2|exact R3].
Qed.

Lemma writeField_ok : Zlen val < 2 ^ 16 -> used s < 2 ^ 28 ->
  exists s' rs', writeField s off fd val h = Some s' /\ repr s' rs' /\ same_store s s' /\
    (grow1 h || grow2 h = true -> abs (schema s) rs' = awrite A (abs_rec (schema s) r) fd val).
Proof.
  intros Hv Hu. destruct (is_text fd) eqn:Et; [by apply writeField_text|].
  destruct (writeField_fixed Et) as (s' & rs' & E & (R1 & R2 & R3) & _). exists s', rs'. by split_and!.
Qed.
End Write.

(** ** Creating a record *)

Lemma zero_rec_wf sc key : wf_schema sc -> Zlen key < 2 ^ 16 ->
  wf_rec (hdr_size sc) (Z.to_nat (textCount sc)) (zero_rec sc key) /\
  reclen (zero_rec sc key) < 2 ^ 19.
Proof.
  intros Hsc Hk. pose proof (ws_hdr _ Hsc) as Hh. unfold SDB_HDR_BUILTIN in Hh. destruct (ws_text _ Hsc) as [Et Htc].
  pose proof (Zlen_nonneg (List.filter is_text (fields sc))).
  assert (forall n, Zlen (concat (map textImage (replicate n []))) = 2 * Z.of_nat n) as Hc.
  { induction n as [|n IH]; [done|]. cbn [replicate map concat]. rewrite Zlen_app, Zlen_textImage, IH, Zlen_nil. lia. }
  assert (Zlen (replicate (Z.to_nat (hdr_size sc - 5)) 0) = hdr_size sc - 5) as Hr by (rewrite Zlen_replicate; lia).
  split.
  - split; cbn [r_fix r_key r_texts zero_rec]; try done.
    + apply Forall_replicate. done.
    + by rewrite length_replicate.
  - unfold reclen, tail_image. cbn [r_fix r_key r_texts zero_rec]. rewrite Hr, Zlen_app, Zlen_textImage, Hc. lia.
Qed.

Lemma buildRecord_zero sc key : 8 <= hdr_size sc ->
  buildRecord (replicate (Z.to_nat (hdr_size sc)) 0) key (replicate (Z.to_nat (textCount sc)) []) =
  Some (image (zero_rec sc key)).
Proof.
  intros Hh. assert (Z.to_nat (hdr_size sc) = (4 + (1 + Z.to_nat (hdr_size sc - 5)))%nat) as -> by lia.
  rewrite !replicate_add. by apply (buildRecord_ok (replicate 4 0)).
Qed.

Lemma images_drop n rs : Zlen (images (drop n rs)) <= Zlen (images rs).
Proof. rewrite <- (take_drop n rs) at 2. rewrite images_app, Zlen_app. pose proof (Zlen_nonneg (images (take n rs))). lia. Qed.

(** The cap's drop count leaves at least the last record. *)
Definition trim_count (capn n : Z) : Z :=
  if negb (capn =? 0) && (capn <? n) then
    let d := (n - capn) + capn / 8 in if n <=? d then n - 1 else d
  else 0.

Lemma trim_count_bound capn n : 0 <= capn -> 0 < n -> 0 <= trim_count capn n < n.
Proof.
  intros Hc Hn. unfold trim_count. repeat case_match; b2p; try lia.
  assert (0 <= capn / 8) by (apply Z.div_pos; lia). lia.
Qed.

Lemma atrim_drop capn A : 0 <= capn -> atrim capn A = drop (Z.to_nat (trim_count capn (Zlen A))) A.
Proof. intros Hc. unfold atrim, trim_count. by destruct (_ && _). Qed.

Lemma recordCount_ok s rs : repr s rs -> sdbRecordCount s = Zlen (lives rs).
Proof.
  intros Hr. unfold sdbRecordCount. rewrite (rp_index _ _ Hr), index_acc_size by apply Hr.
  unfold keys, Zlen. by rewrite length_map.
Qed.

Lemma abs_drop sc n rs : abs sc (drop n (lives rs)) = drop n (abs sc rs).
Proof.
  unfold abs. assert (lives (drop n (lives rs)) = drop n (lives rs)) as ->; [|by rewrite skipn_map].
  apply List.forallb_filter_id. rewrite forallb_forall. intros r Hr.
  assert (In r (lives rs)) as Hin by (rewrite <- (take_drop n (lives rs)); apply in_or_app; by right).
  apply filter_In in Hin as [_ Hin]. exact Hin.
Qed.

Section Create.
Variables (s : sdb_store) (rs : list rec) (key : bytes) (h : heap).
Hypothesis Hsc : wf_schema (schema s).
Hypothesis Hrep : repr s rs.
Hypothesis Hnew : key ∉ keys rs.
Hypothesis Hkey : Zlen key < 2 ^ 16.
Hypothesis Hused : used s < 2 ^ 27.
Hypothesis Hcap : 0 <= cap_records s.
Notation A := (abs (schema s) rs).
Notation zr := (zero_rec (schema s) key).

Lemma createRecord_ok : exists s' o rs',
  createRecord s key h = Some (s', o) /\ repr s' rs' /\ same_store s s' /\ used s' < 2 ^ 28 /\
  match o with
  | None => abs (schema s) rs' = A /\ grow1 h || grow2 h = false
  | Some off => (exists P a, located s' rs' key off P a zr []) /\
      abs (schema s) rs' = atrim (cap_records s) (A ++ [abs_rec (schema s) zr])
  end.
Proof.
  destruct (zero_rec_wf _ key Hsc Hkey) as [Hw Hl].
  pose proof (rp_hs _ _ Hrep) as Hh. unfold createRecord, hs in *. rewrite buildRecord_zero by done. cbn [mbind option_bind].
  destruct (appendRecord_ok s rs zr h Hrep Hw eq_refl Hnew) as (s1 & ok & rs1 & Ea & Hm & Elv & _ & Hr1 & Hg & Hu); [lia|].
  cbn [r_key zero_rec] in Ea. rewrite Ea. cbn [mbind option_bind]. pose proof (same_meta_store _ _ Hm) as Hst.
  destruct ok; cbn [negb].
  2: { exists s1, None, rs1. split; [done|]. split; [done|]. split; [done|]. split; [lia|].
       split; [unfold abs; by rewrite Elv|]. apply not_true_is_false. intros Hgr.
       assert (false = true) by (apply Hg; rewrite <- orb_assoc, Hgr; apply orb_true_r). done. }
  pose proof (findRec_at s1 _ rs1 zr [] Hr1 eq_refl eq_refl) as Ef. cbn [r_key zero_rec] in Ef. rewrite Ef.
  rewrite (recordCount_ok _ _ Hr1). rewrite (proj1 (proj2 (proj2 Hst))).
  assert (lives (rs1 ++ [zr]) = lives rs ++ [zr]) as El by (unfold lives; rewrite List.filter_app; fold (lives rs1); by rewrite Elv).
  set (n := Zlen (lives (rs1 ++ [zr]))).
  assert (Zlen (A ++ [abs_rec (schema s) zr]) = n) as En
    by (unfold n, abs; rewrite El, !Zlen_app, Zlen_map; done).
  assert (0 < n) as Hn by (unfold n; rewrite El, Zlen_app; change (Zlen [zr]) with 1; pose proof (Zlen_nonneg (lives rs)); lia).
  pose proof (trim_count_bound (cap_records s) n Hcap Hn) as Ht.
  assert (abs (schema s) (rs1 ++ [zr]) = A ++ [abs_rec (schema s) zr]) as EA by (unfold abs; rewrite El, map_app; done).
  rewrite atrim_drop, En by done. unfold trim_count in *.
  destruct (negb (cap_records s =? 0) && (cap_records s <? n)) eqn:Et.
  - set (d := if n <=? _ then _ else _) in *.
    destruct (compact_ok s1 _ d Hr1 ltac:(lia)) as (s2 & -> & Hr2 & Hm2 & _ & Eb2). cbn [mbind option_bind].
    assert (drop (Z.to_nat d) (lives (rs1 ++ [zr])) = drop (Z.to_nat d) (lives rs) ++ [zr]) as Ed.
    { rewrite El. apply drop_app_le. unfold n in Ht. rewrite El, Zlen_app in Ht. change (Zlen [zr]) with 1 in Ht. unfold Zlen in Ht. lia. }
    pose proof (findRec_at s2 _ _ zr [] Hr2 Ed eq_refl) as Ef2. cbn [r_key zero_rec] in Ef2. rewrite Ef2.
    eexists s2, _, _. split; [done|]. split; [exact Hr2|].
    split; [apply (same_store_trans _ s1); [done|by apply same_meta_store]|]. split.
    + assert (used s2 <= used s1); [|lia]. pose proof (rp_block _ _ Hr1) as (hd & Hhd & Eb1).
      unfold used. rewrite Eb1, Eb2, !Zlen_app, Zlen_fileHeader. etransitivity; [apply Z.add_le_mono_l, images_drop|].
      pose proof (lives_length (rs1 ++ [zr])). lia.
    + split; [destruct (locate s2 _ _ zr [] Hr2 Ed eq_refl) as [P HP]; by eexists _, _|].
      by rewrite abs_drop, EA.
  - eexists s1, _, _. split; [done|]. split; [exact Hr1|]. split; [done|]. split; [lia|]. split.
    + destruct (locate s1 _ rs1 zr [] Hr1 eq_refl eq_refl) as [P HP]. by eexists _, _.
    + by rewrite EA.
Qed.
End Create.

(** ** The operations against the abstract store *)

(** [s] is a loaded store whose contents are [A]. *)
Definition implements (s : sdb_store) (A : list arec) : Prop :=
  exists rs, repr s rs /\ wf_schema (schema s) /\ loaded s = true /\ abs (schema s) rs = A.

Definition heap_ok (h : heap) : bool := grow1 h || grow2 h.

(** Writing to the last record is replacing it, moved or not. *)
Lemma awrite_last A a fd val : a_key a ∉ akeys A ->
  awrite (A ++ [a]) a fd val =
  areplace (A ++ [a]) {| a_key := a_key a; a_vals := set_val (fname fd) (canon fd val) (a_vals a) |}.
Proof.
  intros Hk. unfold awrite. destruct (_ && _); [|done].
  rewrite areplace_mid by (done || apply not_elem_of_nil). rewrite adelete_mid by (done || apply not_elem_of_nil).
  by rewrite app_nil_r.
Qed.

Lemma setField_ok s rs key field val h1 h2 :
  repr s rs -> wf_schema (schema s) -> loaded s = true ->
  Zlen key < 2 ^ 16 -> Zlen val < 2 ^ 16 -> used s < 2 ^ 27 -> 0 <= cap_records s ->
  exists s' rs', sdbSetField s key field val h1 h2 = Some s' /\ repr s' rs' /\ same_store s s' /\
    (heap_ok h1 = true -> heap_ok h2 = true ->
     abs (schema s) rs' = aset (schema s) (cap_records s) (abs (schema s) rs) key field val).
Proof.
  intros Hr Hsc Hld Hk Hv Hu Hc. unfold sdbSetField, aset. rewrite Hld. cbn [negb].
  destruct (find (schema s) field) as [fd|] eqn:Ef; [|exists s, rs; by split_and!].
  destruct (find_Some _ _ _ Ef) as [Hin <-].
  pose proof (findRec_ok s rs key Hr) as Hf. destruct (findRec s key) as [off|] eqn:Eo; cbn [mbind option_bind].
  - destruct Hf as (P & a & r & b & Hlo). destruct (abs_located _ _ _ _ _ _ _ _ Hlo) as (EA & Ek & Ha & Hb).
    destruct (writeField_ok s rs key off P a r b fd val h2 Hsc Hr Hlo Hin Hv ltac:(lia)) as (s' & rs' & E & R1 & R2 & R3).
    exists s', rs'. split; [done|]. split; [done|]. split; [done|]. intros _ H2. rewrite (R3 H2).
    assert (afind (abs (schema s) rs) key = Some (abs_rec (schema s) r)) as -> by (rewrite EA, <- Ek; apply afind_mid; by rewrite Ek).
    unfold awrite. rewrite Ek. done.
  - destruct (createRecord_ok s rs key h1 Hsc Hr Hf Hk Hu Hc) as (s1 & o & rs1 & -> & C1 & C2 & C3 & C4).
    cbn [mbind option_bind]. rewrite afind_none by (by rewrite akeys_abs). destruct C2 as (S1 & S2 & S3 & S4).
    destruct o as [off|].
    + destruct C4 as [(P & a & Hlo) EA].
      destruct (writeField_ok s1 rs1 key off P a (zero_rec (schema s) key) [] fd val h2) as (s' & rs' & E & R1 & R2 & R3);
        try done; [by rewrite S1|by rewrite S1|].
      exists s', rs'. split; [done|]. split; [done|]. split; [by apply (same_store_trans _ s1)|].
      intros _ H2. specialize (R3 H2). rewrite S1 in R3. rewrite R3. rewrite <- EA.
      destruct (abs_located _ _ _ _ _ _ _ _ Hlo) as (EA1 & Ek & Ha & _). rewrite S1 in EA1, Ek, Ha.
      rewrite EA1. rewrite <- Ek in Ha. by rewrite awrite_last.
    + exists s1, rs1. split; [done|]. split; [done|]. split; [done|]. intros H1. unfold heap_ok in H1.
      destruct C4 as [_ C4]. congruence.
Qed.

(** C1: setting a field of a loaded store implements the abstract update: the record is
    created empty if the key is new, the cap then evicts the oldest records (to an
    eighth below it) but never the new one, the field reads as the canonical form of
    the value, every other field and record keeps its value, and a text of another
    length moves its record to the end. Whatever the allocator answers, the call ends
    with a well-formed store and never touches memory outside the arena. *)
Theorem sdbSetField_refines s A key field val h1 h2 :
  implements s A -> Zlen key < 2 ^ 16 -> Zlen val < 2 ^ 16 -> used s < 2 ^ 27 -> 0 <= cap_records s ->
  exists s' A', sdbSetField s key field val h1 h2 = Some s' /\ implements s' A' /\ same_store s s' /\
    (heap_ok h1 = true -> heap_ok h2 = true -> A' = aset (schema s) (cap_records s) A key field val).
Proof.
  intros (rs & Hr & Hsc & Hld & <-) Hk Hv Hu Hc.
  destruct (setField_ok s rs key field val h1 h2 Hr Hsc Hld Hk Hv Hu Hc) as (s' & rs' & E & R1 & R2 & R3).
  pose proof R2 as (S1 & S2 & S3 & S4).
  exists s', (abs (schema s) rs'). split; [done|]. split; [|by split].
  exists rs'. rewrite S1, S4. by split_and!.
Qed.

(** Reading a field returns the value the abstract store holds for it, and nothing
    for an unknown key or field, without leaving the arena. *)
Theorem sdbGetField_refines s A key field :
  implements s A -> sdbGetField s key field = Some (aget A key field).
Proof. intros (rs & Hr & Hsc & Hld & <-). by apply getField_ok. Qed.

(** Deleting removes exactly the record of that key from the abstract store. *)
Theorem sdbDeleteRecord_refines s A key :
  implements s A -> exists s', sdbDeleteRecord s key = Some s' /\ implements s' (adelete A key).
Proof.
  intros (rs & Hr & Hsc & Hld & <-).
  destruct (deleteRecord_ok s rs Hr Hld key) as (s' & rs' & E & R1 & R2 & R3 & R4).
  exists s'. split; [done|]. exists rs'. rewrite R3. by split_and!.
Qed.

(** Compaction, as run before every flush, keeps the contents and leaves no dead
    bytes: the arena is the file header followed by the live records. *)
Theorem compact_preserves s A :
  implements s A -> exists s' rs, compact s 0 = Some s' /\ implements s' A /\ same_meta s s' /\
    block s' = fileHeader (schema s) (Zlen A) ++ images rs /\ lives rs = rs.
Proof.
  intros (rs & Hr & Hsc & Hld & <-). destruct (compact_ok s rs 0 Hr ltac:(lia)) as (s' & E & R1 & Hm & _ & Eb).
  exists s', (lives rs). pose proof Hm as (S1 & _ & _ & S4 & _). split; [done|].
  split; [exists (lives rs); rewrite S1, S4, abs_lives; by split_and!|]. split; [done|].
  split; [|apply lives_lives]. unfold abs. rewrite Zlen_map. exact Eb.
Qed.

(** ** A concrete store *)

(** The store that holds exactly the records [rs]. *)
Definition store_of (sc : sdb_schema) (p : bytes) (capn : Z) (rs : list rec) : sdb_store :=
  {| schema := sc; path := p; cap_records := capn; block := fileHeader sc (Zlen (lives rs)) ++ images rs;
     cap := 16 + Zlen (images rs); loaded := true; dirty := false; grow_failed := false;
     index := index_acc 16 ∅ rs |}.

Lemma store_of_repr sc p capn rs :
  Forall (wf_rec (hdr_size sc) (Z.to_nat (textCount sc))) rs -> NoDup (keys rs) -> 8 <= hdr_size sc ->
  Zlen (images rs) < 2 ^ 30 -> repr (store_of sc p capn rs) rs.
Proof.
  intros Hw Hn Hh Hl. split; unfold used, hs; cbn [block schema index cap store_of]; try done.
  - eexists. split; [|done]. apply Zlen_fileHeader.
  - rewrite Zlen_app, Zlen_fileHeader. lia.
  - lia.
Qed.

Definition demo_rec (key : bytes) (n : Z) : rec :=
  {| r_flags := 0;
     r_fix := [0; 0; 0; n; 0; 0; 0] ++ wr32 77 ++ ($ "ok") ++ replicate 6 0 ++ [171; 18];
     r_key := key; r_texts := [$ "hi"; $ "t"] |}.

Definition demo_recs : list rec := [demo_rec ($ "a") 1; kill (demo_rec ($ "b") 2); demo_rec ($ "c") 3].
Definition demo_store : sdb_store := store_of demo_schema ($ "/s") 2 demo_recs.
Definition demo_abs : list arec := abs demo_schema demo_recs.

Lemma demo_repr : repr demo_store demo_recs.
Proof.
  apply store_of_repr; [| |vm_compute; discriminate|vm_compute; reflexivity].
  - repeat (apply Forall_cons; split; [split; [reflexivity|reflexivity| |reflexivity]|]); try constructor;
      repeat constructor.
  - apply (bool_decide_unpack _). vm_compute. done.
Qed.

Lemma demo_implements : implements demo_store demo_abs.
Proof. exists demo_recs. split_and!; [exact demo_repr|apply demo_fields_ok|done|done]. Qed.

Definition heap_yes : heap := {| grow1 := true; grow2 := true; fresh := true |}.
Definition heap_no : heap := {| grow1 := false; grow2 := false; fresh := false |}.

Lemma sdbSetField_refines_witness : exists s',
  sdbSetField demo_store ($ "d") ($ "body") ($ "xyz") heap_yes heap_yes = Some s' /\
  exists A', implements s' A' /\ map a_key A' = [$ "c"; $ "d"] /\ aget A' ($ "d") ($ "body") = Some ($ "xyz").
Proof.
  destruct (sdbSetField_refines demo_store demo_abs ($ "d") ($ "body") ($ "xyz") heap_yes heap_yes demo_implements)
    as (s' & A' & E & I & _ & EA); [vm_compute; reflexivity|vm_compute; reflexivity|vm_compute; reflexivity|vm_compute; discriminate|].
  exists s'. split; [exact E|]. exists A'. split; [exact I|]. rewrite (EA eq_refl eq_refl). split; vm_compute; reflexivity.
Defined.

Lemma sdbGetField_refines_witness :
  sdbGetField demo_store ($ "c") ($ "h") = Some (Some ($ "ab12")) /\
  sdbGetField demo_store ($ "b") ($ "h") = Some None.
Proof.
  rewrite !(sdbGetField_refines demo_store demo_abs _ _ demo_implements). split; vm_compute; reflexivity.
Defined.

Lemma sdbDeleteRecord_refines_witness : exists s',
  sdbDeleteRecord demo_store ($ "a") = Some s' /\ implements s' (adelete demo_abs ($ "a")) /\
  map a_key (adelete demo_abs ($ "a")) = [$ "c"].
Proof.
  destruct (sdbDeleteRecord_refines demo_store demo_abs ($ "a") demo_implements) as (s' & E & I).
  exists s'. split; [exact E|]. split; [exact I|]. vm_compute. reflexivity.
Defined.

Lemma compact_preserves_witness : exists s', compact demo_store 0 = Some s' /\ implements s' demo_abs.
Proof.
  destruct (compact_preserves demo_store demo_abs demo_implements) as (s' & rs & E & I & _). exists s'. by split.
Defined.

(** ** Two behaviours of [sdbSetField] at its edges *)

(** Setting a text field of a new key to the empty string creates the record but
    leaves the store clean, so the new record is not flushed. *)
Theorem sdbSetField_empty_text_not_dirty :
  exists s', sdbSetField demo_store ($ "d") ($ "body") [] heap_yes heap_yes = Some s' /\
    sdbHasRecord demo_store ($ "d") = false /\ sdbHasRecord s' ($ "d") = true /\ dirty s' = false.
Proof. eexists. split; [vm_compute; reflexivity|]. split_and!; vm_compute; reflexivity. Qed.

(** When a text grows and no memory can be had, the record is lost: the old image
    is tombstoned before the append that then fails. *)
Theorem sdbSetField_oom_loses_record :
  exists s', sdbSetField demo_store ($ "a") ($ "body") (replicate 200 120) heap_no heap_no = Some s' /\
    sdbHasRecord demo_store ($ "a") = true /\ sdbHasRecord s' ($ "a") = false.
Proof. eexists. split; [vm_compute; reflexivity|]. split_and!; vm_compute; reflexivity. Qed.
