(* ===== verification/StorageDbValues.v ===== *)
(** * storage_db: what is set is what is read

    Values a field represents exactly, and the set/get laws of the store: the field
    just set reads back, everything else is as it was. *)

From stdpp Require Import gmap.
From S2P Require Import Prelude CLib Targz StorageDb StorageDbBlock StorageDbSchema StorageDbSpec StorageDbStore.
Import Hex Schema Block Store.
Open Scope Z_scope.
Open Scope spangap_scope.

(** ** Hex *)

Lemma hexNib_digit n : 0 <= n < 16 -> hexNib (hexDigit n) = Some n.
Proof.
  intros H. unfold hexDigit, hexNib. destruct (Z.ltb_spec n 10).
  - rewrite (proj2 (Z.leb_le 48 _)), (proj2 (Z.leb_le _ 57)) by lia. cbn [andb]. f_equal. lia.
  - rewrite (proj2 (Z.leb_gt _ 57)) by lia. rewrite andb_false_r.
    rewrite (proj2 (Z.leb_le 97 _)), (proj2 (Z.leb_le _ 102)) by lia. cbn [andb]. f_equal. lia.
Qed.

Lemma nibbles b : is_byte b -> 0 <= Z.shiftr b 4 < 16 /\ 0 <= Z.land b 0xf < 16 /\
  Z.lor (Z.shiftl (Z.shiftr b 4) 4) (Z.land b 0xf) = b.
Proof.
  intros Hb. unfold is_byte in Hb. change 0xf with (Z.ones 4). rewrite Z.land_ones by lia.
  split; [rewrite Z.shiftr_div_pow2 by lia; split; [apply Z.div_pos; lia|apply Z.div_lt_upper_bound; lia]|].
  split; [apply Z.mod_pos_bound; lia|].
  rewrite <- Z.land_ones by lia. apply Z.bits_inj'. intros i Hi.
  rewrite Z.lor_spec, Z.land_spec. destruct (Z.ltb_spec i 4).
  - rewrite Z.shiftl_spec_low, Z.ones_spec_low by lia. by rewrite andb_true_r.
  - rewrite Z.shiftl_spec, Z.shiftr_spec, Z.ones_spec_high by lia. replace (i - 4 + 4) with i by lia.
    by rewrite andb_false_r, orb_false_r.
Qed.

Lemma hex_roundtrip p : bytes_ok p -> hexDecodeInto (hexEncodeBytes p) (length p) = p.
Proof.
  induction 1 as [|b p Hb _ IH]; [done|]. cbn [hexEncodeBytes length hexDecodeInto].
  destruct (nibbles b Hb) as (N1 & N2 & N3). rewrite !hexNib_digit by done. by rewrite N3, IH.
Qed.

Lemma Zlen_hexEncode p : Zlen (hexEncodeBytes p) = 2 * Zlen p.
Proof. induction p as [|b p IH]; [done|]. cbn [hexEncodeBytes]. rewrite !Zlen_cons, IH. lia. Qed.

(** ** Representable values *)

(** The values that read back unchanged: numbers in range, short strings, hex of the
    field's width (not all zero) or nothing, any text. *)
Definition representable (fd : sdb_field) (val : bytes) : Prop :=
  if kind fd =? SDB_U8 then exists v, 0 <= v < 2 ^ 8 /\ val = udec v
  else if kind fd =? SDB_U32 then exists v, 0 <= v < 2 ^ 32 /\ val = udec v
  else if kind fd =? SDB_FIXSTR then Zlen val < width fd /\ 0 ∉ val
  else if kind fd =? SDB_DATA then
    val = [] \/ exists p, bytes_ok p /\ Zlen p = width fd /\ isAllZero p = false /\ val = hexEncodeBytes p
  else True.

Lemma c_str_cut s rest : 0 ∉ s -> c_str (s ++ 0 :: rest) = s.
Proof. intros H. unfold c_str. by rewrite strchr_app. Qed.

Lemma isAllZero_replicate n : isAllZero (replicate n 0) = true.
Proof. induction n; done. Qed.

Lemma canon_representable sc fd val : wf_field sc fd -> representable fd val -> canon fd val = val.
Proof.
  intros Hfd Hrep. destruct (wf_width _ _ Hfd) as [Hw Hf]. unfold canon, is_text, render, encode, representable in *.
  destruct (kind_cases _ _ Hfd) as [E|[E|[E|[E|E]]]]; rewrite E in *; ksimp; try done.
  - destruct Hrep as (v & Hv & ->). rewrite <- (app_nil_r (udec v)) at 1. rewrite atoi_udec by (lia || done).
    unfold wrap8. rewrite Z.mod_small by lia. cbn [le_val]. f_equal. lia.
  - destruct Hrep as (v & Hv & ->). by rewrite strtoul_udec, le_val_wr32.
  - destruct Hrep as [Hl H0]. rewrite (proj2 (Z.leb_gt _ _)) by lia.
    assert (take (Z.to_nat (Zlen val)) val = val) as -> by (unfold Zlen; rewrite Nat2Z.id; apply firstn_all).
    replace (Z.to_nat (width fd - Zlen val)) with (S (Z.to_nat (width fd - Zlen val - 1))) by lia.
    cbn [replicate]. apply c_str_cut. done.
  - destruct Hrep as [->|(p & Hp & Hl & Hz & ->)].
    + assert ((if Zlen (@nil Z) =? width fd * 2 then hexDecodeInto [] (Z.to_nat (width fd)) else []) = []) as ->
        by (destruct (_ =? _); [by destruct (Z.to_nat (width fd))|done]).
      cbn [app length]. by rewrite isAllZero_replicate.
    + rewrite Zlen_hexEncode, Hl, (Z.mul_comm 2), Z.eqb_refl.
      assert (Z.to_nat (width fd) = length p) as -> by (unfold Zlen in Hl; lia).
      rewrite hex_roundtrip, Nat.sub_diag by done. cbn [replicate]. by rewrite app_nil_r, Hz.
Qed.

(** ** Reading the abstract store after an update *)

Lemma alookup_set_same nm v l : is_Some (alookup l nm) -> alookup (set_val nm v l) nm = Some v.
Proof.
  unfold alookup, set_val. induction l as [|[n w] l IH]; cbn; [by intros []|].
  destruct (streq n nm) eqn:E; cbn; rewrite E; [done|]. exact IH.
Qed.

Lemma alookup_set_other nm nm' v l : nm' <> nm -> alookup (set_val nm v l) nm' = alookup l nm'.
Proof.
  intros Hne. unfold alookup, set_val. induction l as [|[n w] l IH]; cbn; [done|].
  destruct (streq n nm) eqn:E; cbn; destruct (streq n nm') eqn:E'; try done.
  apply streq_true in E, E'. congruence.
Qed.

Lemma afind_areplace_same A a : is_Some (afind A (a_key a)) -> afind (areplace A a) (a_key a) = Some a.
Proof.
  unfold afind, areplace. induction A as [|x A IH]; cbn; [by intros []|].
  destruct (streq (a_key x) (a_key a)) eqn:E; cbn; [by rewrite (proj2 (streq_true _ _))|]. rewrite E. exact IH.
Qed.

Lemma afind_areplace_other A a k : k <> a_key a -> afind (areplace A a) k = afind A k.
Proof.
  intros Hne. unfold afind, areplace. induction A as [|x A IH]; cbn; [done|].
  destruct (streq (a_key x) (a_key a)) eqn:E; cbn; [|by rewrite IH].
  apply streq_true in E. rewrite !(proj2 (streq_false _ _)) by congruence. exact IH.
Qed.

Lemma afind_app A B k : afind (A ++ B) k = match afind A k with Some a => Some a | None => afind B k end.
Proof. unfold afind. induction A as [|x A IH]; cbn; [done|]. by destruct (streq (a_key x) k). Qed.

Lemma afind_adelete A k k' : afind (adelete A k) k' = if streq k' k then None else afind A k'.
Proof.
  unfold afind, adelete. induction A as [|x A IH]; cbn; [by destruct (streq k' k)|].
  destruct (streq (a_key x) k) eqn:E; cbn.
  - rewrite IH. apply streq_true in E. rewrite E. destruct (streq k' k) eqn:E'; [done|].
    rewrite (proj2 (streq_false _ _)); [done|]. apply streq_false in E'. congruence.
  - destruct (streq (a_key x) k') eqn:E'; [|exact IH]. apply streq_true in E'. rewrite <- E'. by rewrite E.
Qed.

Lemma afind_one a k : afind [a] k = if streq (a_key a) k then Some a else None.
Proof. unfold afind. cbn. by destruct (streq (a_key a) k). Qed.

Definition fresh_rec (sc : sdb_schema) (key : bytes) : arec := abs_rec sc (zero_rec sc key).

(** The record after an update, whichever way it was written. *)
Lemma afind_aset_same sc capn A key field val fd :
  find sc field = Some fd -> 0 <= capn ->
  afind (aset sc capn A key field val) key =
  Some {| a_key := key;
          a_vals := set_val field (canon fd val) (a_vals (default (fresh_rec sc key) (afind A key))) |}.
Proof.
  intros Ef Hc. unfold aset. rewrite Ef. destruct (afind A key) as [a|] eqn:Ea.
  - destruct (_ && _).
    + rewrite afind_app, afind_adelete, (proj2 (streq_true _ _)) by done.
      rewrite afind_one. cbn [a_key]. by rewrite (proj2 (streq_true _ _)).
    + rewrite (afind_areplace_same A {| a_key := key; a_vals := _ |}); [done|]. cbn [a_key]. by rewrite Ea.
  - rewrite (afind_areplace_same _ {| a_key := key; a_vals := _ |}); [done|]. cbn [a_key].
    rewrite atrim_drop by done. set (z := abs_rec sc (zero_rec sc key)).
    pose proof (trim_count_bound capn (Zlen (A ++ [z])) Hc) as Ht. rewrite Zlen_app in *. change (Zlen [z]) with 1 in *.
    pose proof (Zlen_nonneg A). rewrite drop_app_le by (unfold Zlen in *; lia).
    rewrite afind_app, afind_one. cbn [z a_key abs_rec r_key zero_rec]. rewrite (proj2 (streq_true _ _)) by done.
    by destruct (afind (drop _ A) key).
Qed.

Lemma afind_aset_other sc capn A key field val k :
  k <> key -> capn = 0 \/ is_Some (afind A key) -> afind (aset sc capn A key field val) k = afind A k.
Proof.
  intros Hne Hc. unfold aset. destruct (find sc field) as [fd|]; [|done].
  destruct (afind A key) as [a|] eqn:Ea.
  - destruct (_ && _).
    + rewrite afind_app, afind_adelete, (proj2 (streq_false _ _)) by done.
      rewrite afind_one. cbn [a_key]. rewrite (proj2 (streq_false _ _)) by congruence. by destruct (afind A k).
    + by apply afind_areplace_other.
  - destruct Hc as [->|[? ?]]; [|done]. rewrite afind_areplace_other by done. unfold atrim. cbn [Z.eqb negb andb].
    rewrite afind_app, afind_one. cbn [a_key abs_rec r_key zero_rec]. rewrite (proj2 (streq_false _ _)) by congruence.
    by destruct (afind A k).
Qed.

(** A value that the field can represent reads back exactly as it was set; the other
    fields of an existing record keep their values, and so does every record under
    another key unless the insertion of a new key makes the cap evict it. *)
Theorem sdb_set_then_get s A key field val fd h1 h2 :
  implements s A -> Zlen key < 2 ^ 16 -> Zlen val < 2 ^ 16 -> used s < 2 ^ 27 -> 0 <= cap_records s ->
  heap_ok h1 = true -> heap_ok h2 = true -> find (schema s) field = Some fd -> representable fd val ->
  exists s', sdbSetField s key field val h1 h2 = Some s' /\
    sdbGetField s' key field = Some (Some val) /\
    (forall field', field' <> field -> sdbHasRecord s key = true -> sdbGetField s' key field' = sdbGetField s key field') /\
    (forall key' field', key' <> key -> cap_records s = 0 \/ sdbHasRecord s key = true ->
      sdbGetField s' key' field' = sdbGetField s key' field').
Proof.
  intros (rs & Hr & Hsc & Hld & <-) Hk Hv Hu Hc H1 H2 Ef Hrep.
  destruct (setField_ok s rs key field val h1 h2 Hr Hsc Hld Hk Hv Hu Hc) as (s' & rs' & E & R1 & R2 & R3).
  specialize (R3 H1 H2). destruct R2 as (S1 & S2 & S3 & S4). exists s'. split; [done|].
  assert (forall k f, sdbGetField s' k f = Some (aget (aset (schema s) (cap_records s) (abs (schema s) rs) key field val) k f)) as Hg.
  { intros k f. rewrite <- R3, <- S1. apply getField_ok; [by rewrite S1|done|by rewrite S4]. }
  assert (forall k, sdbHasRecord s k = true -> is_Some (afind (abs (schema s) rs) k)) as Hh.
  { intros k Hh. unfold sdbHasRecord in Hh. rewrite Hld in Hh. cbn [andb] in Hh. apply bool_decide_eq_true in Hh as [o Ho].
    pose proof (findRec_ok s rs k Hr) as Hf. unfold findRec in Hf. rewrite Ho in Hf. destruct Hf as (P & a & r & b & Hlo).
    destruct (abs_located _ _ _ _ _ _ _ _ Hlo) as (-> & <- & Ha & _). by rewrite afind_mid. }
  assert (forall r, is_Some (alookup (a_vals (abs_rec (schema s) r)) field)) as Hal by (intros r; by rewrite alookup_rec, Ef).
  destruct (find_Some _ _ _ Ef) as [Hin _].
  rewrite Hg. unfold aget. rewrite (afind_aset_same _ _ _ _ _ _ fd Ef Hc). cbn [mbind option_bind a_vals].
  split; [|split].
  - rewrite (canon_representable (schema s)) by (done || by apply field_wf). f_equal. apply alookup_set_same.
    destruct (afind (abs (schema s) rs) key) as [a|] eqn:Ea; [|apply Hal]. cbn.
    apply find_some in Ea as [Ea _]. apply in_map_iff in Ea as (r & <- & _). apply Hal.
  - intros field' Hne Hhas. rewrite Hg, (getField_ok s rs) by done. unfold aget.
    rewrite (afind_aset_same _ _ _ _ _ _ fd Ef Hc). cbn [mbind option_bind a_vals]. rewrite alookup_set_other by done.
    destruct (Hh key Hhas) as [a ->]. done.
  - intros key' field' Hne Hcap. rewrite Hg, (getField_ok s rs) by done. unfold aget. rewrite afind_aset_other; [done|done|].
    destruct Hcap as [->|Hhas]; [by left|right; by apply Hh].
Qed.

Lemma sdb_set_then_get_witness : exists s',
  sdbSetField demo_store ($ "c") ($ "h") ($ "00ff") heap_yes heap_yes = Some s' /\
  sdbGetField s' ($ "c") ($ "h") = Some (Some ($ "00ff")).
Proof.
  destruct (sdb_set_then_get demo_store demo_abs ($ "c") ($ "h") ($ "00ff")
    {| fname := $ "h"; kind := SDB_DATA; foff := 24; width := 2 |} heap_yes heap_yes demo_implements)
    as (s' & E & G & _); [reflexivity|reflexivity|vm_compute; reflexivity|vm_compute; discriminate|reflexivity|reflexivity|vm_compute; reflexivity| |exists s'; split; [exact E|exact G]].
  right. exists [0; 255]. split; [repeat constructor; unfold is_byte; lia|]. done.
Defined.

(** ** Enumerating the store *)

(** The calls one record gives: numbers always, strings when not empty. *)
Definition areport1 (key : bytes) (fd : sdb_field) (v : bytes) : list (bytes * bytes * bytes) :=
  if (kind fd =? SDB_U8) || (kind fd =? SDB_U32) || negb (Zlen v =? 0)
  then [(c_str key, c_str (fname fd), c_str v)] else [].

Definition areport (sc : sdb_schema) (a : arec) : list (bytes * bytes * bytes) :=
  concat (zip_with (fun fd p => areport1 (a_key a) fd p.2) (fields sc) (a_vals a)).

Section Report.
Variables (sc : sdb_schema).
Hypothesis Hsc : wf_schema sc.
Notation wf := (wf_rec (hdr_size sc) (Z.to_nat (textCount sc))).

Lemma reportFields_ok P Q r fs : wf r -> (forall f, f ∈ fs -> wf_field sc f) ->
  reportFields sc (P ++ image r ++ Q) (Zlen P) (r_key r) fs =
  Some (concat (zip_with (fun fd p => areport1 (r_key r) fd p.2) fs (map (fun f => (fname f, rec_value r f)) fs))).
Proof.
  intros Hr. induction fs as [|f fs IH]; intros Hf; [done|]. cbn [reportFields map zip_with concat].
  unfold reportField. rewrite fieldValue_at; [|apply Hf, elem_of_cons; by left|done]. cbn [mbind option_bind].
  rewrite IH by (intros g Hg; apply Hf, elem_of_cons; by right). done.
Qed.

Lemma forEachLoop_ok fuel P rs : Forall wf rs -> Zlen (P ++ images rs ++ []) < 2 ^ 32 -> (length rs <= fuel)%nat ->
  forEachLoop fuel sc (P ++ images rs ++ []) (Zlen P) = Some (concat (map (areport sc) (abs sc rs))).
Proof.
  intros Hw. revert fuel P. induction Hw as [|r rs Hr _ IH]; intros fuel P Hlt Hf.
  - cbn [images abs lives List.filter map concat app]. rewrite app_nil_r.
    destruct fuel; cbn [forEachLoop]; by rewrite Z.ltb_irrefl.
  - destruct fuel as [|f]; [cbn in Hf; lia|]. pose proof (ws_hdr _ Hsc) as Hh. unfold SDB_HDR_BUILTIN in Hh.
    destruct (walk_tests (hdr_size sc) _ (proj1 Hh) P r rs [] Hr Hlt) as (T1 & T2 & T3 & T4 & E1 & E2 & E3).
    cbn [forEachLoop]. rewrite T1. cbn [negb].
    rewrite E1, (at_len (hdr_size sc) (Z.to_nat (textCount sc))), <- E1 by done. cbn [mbind option_bind].
    rewrite T3, E1, at_flags. cbn [mbind option_bind].
    assert (forEachLoop f sc (P ++ image r ++ images rs ++ []) (Zlen P + reclen r) = Some (concat (map (areport sc) (abs sc rs)))) as Hrec.
    { rewrite <- E1, E2, E3. apply IH; [by rewrite <- E2|cbn in Hf; lia]. }
    rewrite (abs_app sc [r] rs : abs sc (r :: rs) = _), map_app, concat_app. destruct (is_live (r_flags r)) eqn:El.
    + rewrite (at_texts (hdr_size sc) (Z.to_nat (textCount sc))) by done. cbn [mbind option_bind].
      rewrite reportFields_ok by (done || intros g Hg; by apply field_wf). cbn [mbind option_bind]. rewrite Hrec.
      rewrite (abs_live sc r) by exact El. cbn [mbind option_bind map concat]. by rewrite app_nil_r.
    + cbn [mbind option_bind]. rewrite Hrec. by rewrite (abs_dead sc r) by exact El.
Qed.
End Report.

(** Enumerating a store calls back once per field of every live record, in storage
    order and schema order, with the values the getters return; fixed strings, hex and
    texts that are empty are left out. *)
Theorem sdbForEach_reports s A :
  implements s A -> sdbForEach s = Some (concat (map (areport (schema s)) A)).
Proof.
  intros (rs & Hr & Hsc & Hld & <-). unfold sdbForEach. rewrite Hld. cbn [negb].
  pose proof Hr as [(hd & Hhd & Eb) Hw _ _ Hh Hc Hs]. unfold used, SDB_FILE_HDR in *.
  assert (block s = hd ++ images rs ++ []) as Eb' by (by rewrite app_nil_r).
  rewrite Eb' at 2. rewrite <- Hhd. apply forEachLoop_ok; [done|done|rewrite <- Eb'; lia|].
  rewrite Eb, length_app. pose proof (length_images _ _ Hh rs Hw). lia.
Qed.

Lemma sdbForEach_reports_witness :
  sdbForEach demo_store = Some (concat (map (areport demo_schema) demo_abs)) /\
  length (concat (map (areport demo_schema) demo_abs)) = 12%nat.
Proof. split; [apply (sdbForEach_reports demo_store demo_abs demo_implements)|vm_compute; reflexivity]. Defined.
