(* ===== verification/StorageDbFile.v ===== *)
(** * storage_db: flushing and loading

    What the file system and the one-shot inflater promise, and that a flushed store
    loads back with the same contents, or a failed flush leaves the file as it was. *)

From stdpp Require Import gmap.
From S2P Require Import Prelude CLib Targz TargzRoundtrip StorageDb StorageDbBlock StorageDbSchema StorageDbSpec StorageDbStore.
Import Hex Schema Gz Block Store.
Open Scope Z_scope.
Open Scope spangap_scope.

(** ** The interfaces *)

(** Files by path. A write may be short; opening for writing truncates; a rename that
    succeeds replaces its target, and one that fails may at most have removed it. *)
Class FsLaws {F} (FS : FileSys F) := {
  fs_contents : F -> bytes -> option bytes;
  fs_stat_ok : forall fs p, fs_stat fs p = option_map Zlen (fs_contents fs p);
  fs_open_rb_ok : forall fs p c, fs_contents fs p = Some c -> fs_open_rb fs p = true;
  fs_read_ok : forall fs p c, fs_contents fs p = Some c -> fs_read fs p (Zlen c) = c;
  fs_open_w_ok : forall fs p fs', fs_open_w fs p = Some fs' ->
    fs_contents fs' p = Some [] /\ forall q, q <> p -> fs_contents fs' q = fs_contents fs q;
  fs_write_ok : forall fs p c b fs' n, fs_contents fs p = Some c -> fs_write fs p b = (fs', n) ->
    0 <= n <= Zlen b /\ fs_contents fs' p = Some (c ++ take (Z.to_nat n) b) /\
    forall q, q <> p -> fs_contents fs' q = fs_contents fs q;
  fs_remove_ok : forall fs p q, q <> p -> fs_contents (fs_remove fs p) q = fs_contents fs q;
  fs_rename_ok : forall fs p q c fs', fs_contents fs p = Some c -> fs_rename fs p q = (true, fs') -> fs_contents fs' q = Some c;
  fs_rename_other : forall fs p q r, r <> p -> r <> q -> fs_contents (fs_rename fs p q).2 r = fs_contents fs r
}.

(** Given room for exactly the original, the inflater decodes a complete stream in
    one call. *)
Class TinflOneShot {I} (TI : Tinfl I) (stream : bytes -> bytes -> Prop) :=
  one_shot : forall d raw, stream d raw -> exists i n,
    tinfl_decompress tinfl_init d (Zlen raw) false = (i, TINFL_STATUS_DONE, n, raw).

Section Files.
Context {C I F : Type} `{TD : Tdefl C} `{TI : Tinfl I} `{CR : Crc} `{FS : FileSys F} {stream : bytes -> bytes -> Prop}
        `{!TdeflLaws TD stream} `{!TinflOneShot TI stream} `{!CrcLaws CR} `{!FsLaws FS}.

(** ** gzip *)

Lemma gzDeflate_stream a1 a2 inp gz : gzDeflateBin a1 a2 inp = Some gz -> bytes_ok inp ->
  exists d, stream d inp /\ gz = GZ_HEADER ++ d ++ wr32 (mz_crc32 0 inp) ++ wr32 (Zlen inp).
Proof.
  intros H Hok. unfold gzDeflateBin in H. destruct (negb (a1 && a2)); [done|].
  destruct (tdefl_compress tdefl_init inp (Zlen inp + Zlen inp / 8 + 192) TDEFL_FINISH) as [[[c st] n] out] eqn:E.
  destruct d_init as (L & Ei & Eo). pose proof (Zlen_nonneg inp). assert (0 <= Zlen inp / 8) by (apply Z.div_pos; lia).
  destruct (d_step tdefl_init inp (Zlen inp + Zlen inp / 8 + 192) TDEFL_FINISH c st n out L ltac:(lia) E) as (_ & _ & _ & Di & Do & _ & D).
  destruct st; try done. destruct D as [-> D]. rewrite Z.eqb_refl in H. cbn [negb] in H. injection H as <-.
  exists out. split; [|done]. rewrite Di, Do, Ei, Eo in D. cbn [app] in D.
  rewrite take_ge in D by (unfold Zlen; lia). exact D.
Qed.

Lemma gzInflate_stream d inp : stream d inp -> bytes_ok inp -> Zlen inp <= 8 * 1024 * 1024 ->
  gzInflateBin true true (GZ_HEADER ++ d ++ wr32 (mz_crc32 0 inp) ++ wr32 (Zlen inp)) = Some (Some inp).
Proof.
  intros Hd Hok Hl. set (tl := wr32 (mz_crc32 0 inp) ++ wr32 (Zlen inp)).
  assert (Zlen tl = 8) as Lt by (unfold tl, wr32; rewrite Zlen_app, !Zlen_le_bytes; lia).
  assert (Zlen GZ_HEADER = 10) as Lh by done. pose proof (Zlen_nonneg d). pose proof (Zlen_nonneg inp).
  assert (Zlen (GZ_HEADER ++ d ++ tl) = 18 + Zlen d) as Lg by (rewrite !Zlen_app; lia).
  assert (gzDataOff (GZ_HEADER ++ d ++ tl) = Some (Some 10)) as Eo.
  { unfold gzDataOff. rewrite Lg, (proj2 (Z.ltb_ge _ _)) by lia.
    rewrite !mem_get_app_l by (rewrite Lh; lia).
    change (mem_get GZ_HEADER 0) with (Some 0x1f). change (mem_get GZ_HEADER 1) with (Some 0x8b).
    change (mem_get GZ_HEADER 2) with (Some 8). change (mem_get GZ_HEADER 3) with (Some 0).
    cbn [mbind option_bind Z.eqb Pos.eqb negb orb].
    assert (forall m, (Z.land 0 m =? 0) = true) as El by done. rewrite !El. cbn [mbind option_bind].
    change (10 + 0) with 10. rewrite (proj2 (Z.ltb_ge _ _)) by lia. done. }
  unfold gzInflateBin. rewrite Eo. cbn [mbind option_bind]. rewrite Lg.
  assert (rd32 (GZ_HEADER ++ d ++ tl) (18 + Zlen d - 8) = Some (mz_crc32 0 inp)) as ->.
  { unfold tl. rewrite (app_assoc GZ_HEADER), (rd32_mid (GZ_HEADER ++ d) _ _ (18 + Zlen d - 8)) by (rewrite Zlen_app; lia).
    unfold wrap32. rewrite Z.mod_small; [done|]. by apply crc_range. }
  cbn [mbind option_bind].
  assert (rd32 (GZ_HEADER ++ d ++ tl) (18 + Zlen d - 4) = Some (Zlen inp)) as ->.
  { unfold tl. rewrite <- (app_nil_r (wr32 (Zlen inp))), 2!app_assoc.
    rewrite <- (app_assoc (GZ_HEADER ++ d)), (app_assoc (GZ_HEADER ++ d)), (rd32_mid ((GZ_HEADER ++ d) ++ _) _ _ (18 + Zlen d - 4))
      by (unfold wr32; rewrite !Zlen_app, Zlen_le_bytes; lia).
    unfold wrap32. rewrite Z.mod_small; [done|]. lia. }
  cbn [mbind option_bind]. rewrite (proj2 (Z.ltb_ge _ _)) by lia. cbn [andb negb].
  rewrite (mem_slice_mid GZ_HEADER d tl) by lia. cbn [mbind option_bind].
  destruct (one_shot d inp Hd) as (i & n & ->). by rewrite !Z.eqb_refl.
Qed.

(** ** The write loop *)

Lemma writeFileLoop_ok fuel fs p gz c : fs_contents fs p = Some c -> (length gz <= fuel)%nat ->
  exists fs' ok, writeFileLoop fuel fs p gz = Some (fs', ok) /\
    (forall q, q <> p -> fs_contents fs' q = fs_contents fs q) /\
    (ok = true -> fs_contents fs' p = Some (c ++ gz)).
Proof.
  revert fs gz c. induction fuel as [|f IH]; intros fs gz c Hc Hf.
  - destruct gz; [|cbn in Hf; lia]. exists fs, true. cbn. rewrite app_nil_r. by split_and!.
  - cbn [writeFileLoop]. destruct (Z.eqb_spec (Zlen gz) 0) as [E|Hne].
    { apply Zlen_zero in E as ->. exists fs, true. rewrite app_nil_r. by split_and!. }
    set (now := take (Z.to_nat 8192) gz). destruct (fs_write fs p now) as [fs1 n] eqn:Ew.
    destruct (fs_write_ok _ _ _ _ _ _ Hc Ew) as (Hn & Hc1 & Ho1).
    destruct (Z.eqb_spec n (Zlen now)) as [->|Hs]; cbn [negb]; [|by exists fs1, false].
    rewrite (take_ge now) in Hc1 by (unfold Zlen; lia).
    destruct (IH fs1 (drop (Z.to_nat 8192) gz) _ Hc1) as (fs' & ok & E & Ho & Hk).
    { rewrite length_drop. destruct gz; [done|]. cbn [length] in *. lia. }
    exists fs', ok. split; [done|]. split; [intros q Hq; by rewrite Ho, Ho1|].
    intros Hok. rewrite (Hk Hok), <- app_assoc. unfold now. by rewrite take_drop.
Qed.

(** ** The image on disk *)

Definition disk (sc : sdb_schema) (n : Z) (recs : bytes) : bytes :=
  fileHeader sc n ++ wr16 (Zlen (serializeDescriptor sc)) ++ serializeDescriptor sc ++ recs.

(** A schema whose descriptor fits its 16-bit fields. *)
Record desc_ok (sc : sdb_schema) : Prop := {
  do_fields : Forall field_ok (fields sc);
  do_names : Forall (fun f => bytes_ok (fname f)) (fields sc);
  do_count : Zlen (fields sc) < 2 ^ 16;
  do_id : 0 <= schema_id sc < 2 ^ 16;
  do_ver : 0 <= schema_ver sc < 2 ^ 16;
  do_len : Zlen (serializeDescriptor sc) < 2 ^ 16
}.

Lemma buildDiskImage_ok s n recs a : block s = fileHeader (schema s) n ++ recs ->
  buildDiskImage s a = Some (if a then Some (disk (schema s) n recs) else None).
Proof.
  intros Eb. unfold buildDiskImage, SDB_FILE_HDR, used. destruct a; [|done]. cbn [negb]. pose proof (Zlen_fileHeader (schema s) n) as Lh.
  rewrite Eb, Zlen_app, Lh.
  assert (mem_slice (fileHeader (schema s) n ++ recs) 0 16 = Some (fileHeader (schema s) n)) as ->
    by (by apply (mem_slice_mid [])).
  cbn [mbind option_bind].
  assert (mem_put (fileHeader (schema s) n) 4 (wr16 SDB_FORMAT_VER) = Some (fileHeader (schema s) n)) as ->
    by (apply (mem_put_mid SDB_MAGIC (wr16 SDB_FORMAT_VER) (wr16 SDB_FORMAT_VER)); done).
  cbn [mbind option_bind]. rewrite <- (app_nil_r recs) at 1.
  rewrite (mem_slice_mid _ recs []) by lia. done.
Qed.

Lemma header_reads sc n X : desc_ok sc -> wf_schema sc ->
  rd16 (fileHeader sc n ++ X) 4 = Some 2 /\ rd16 (fileHeader sc n ++ X) 6 = Some (schema_id sc) /\
  rd16 (fileHeader sc n ++ X) 8 = Some (schema_ver sc) /\ rd16 (fileHeader sc n ++ X) 10 = Some (hdr_size sc).
Proof.
  intros [_ _ _ Hi Hv _] Hsc. pose proof (ws_hdr _ Hsc) as Hh. unfold SDB_HDR_BUILTIN in Hh.
  assert (forall P v Q, 0 <= v < 2 ^ 16 -> fileHeader sc n ++ X = P ++ wr16 v ++ Q -> rd16 (fileHeader sc n ++ X) (Zlen P) = Some v) as H.
  { intros P v Q Hr ->. rewrite rd16_mid by done. unfold wrap16. by rewrite Z.mod_small. }
  unfold fileHeader in *. split_and!.
  - apply (H SDB_MAGIC 2 (wr16 (schema_id sc) ++ wr16 (schema_ver sc) ++ wr16 (hdr_size sc) ++ wr32 n ++ X)); [lia|].
    by rewrite <- !app_assoc.
  - apply (H (SDB_MAGIC ++ wr16 SDB_FORMAT_VER) _ (wr16 (schema_ver sc) ++ wr16 (hdr_size sc) ++ wr32 n ++ X)); [lia|].
    by rewrite <- !app_assoc.
  - apply (H (SDB_MAGIC ++ wr16 SDB_FORMAT_VER ++ wr16 (schema_id sc)) _ (wr16 (hdr_size sc) ++ wr32 n ++ X)); [lia|].
    by rewrite <- !app_assoc.
  - apply (H (SDB_MAGIC ++ wr16 SDB_FORMAT_VER ++ wr16 (schema_id sc) ++ wr16 (schema_ver sc)) _ (wr32 n ++ X)); [lia|].
    by rewrite <- !app_assoc.
Qed.

Lemma resolveReader_ok s legacy n recs : desc_ok (schema s) -> wf_schema (schema s) ->
  resolveReader s legacy (disk (schema s) n recs) =
  Some (Some (schema s, 18 + Zlen (serializeDescriptor (schema s)))).
Proof.
  intros Hd Hsc. destruct (header_reads (schema s) n
    (wr16 (Zlen (serializeDescriptor (schema s))) ++ serializeDescriptor (schema s) ++ recs) Hd Hsc) as (R1 & R2 & R3 & R4).
  unfold resolveReader, disk, SDB_FILE_HDR. rewrite R1, R2, R3, R4. cbn [mbind option_bind]. rewrite Z.eqb_refl. cbn [negb].
  pose proof (Zlen_fileHeader (schema s) n) as Lh. set (D := serializeDescriptor (schema s)) in *.
  pose proof (Zlen_nonneg D). pose proof (Zlen_nonneg recs). pose proof (do_len _ Hd) as Hl. fold D in Hl.
  assert (Zlen (fileHeader (schema s) n ++ wr16 (Zlen D) ++ D ++ recs) = 18 + Zlen D + Zlen recs) as L
    by (rewrite !Zlen_app, Lh; unfold wr16; rewrite Zlen_le_bytes; lia).
  rewrite (proj2 (Z.leb_le 2 2)), L, (proj2 (Z.ltb_ge _ _)) by lia.
  rewrite (rd16_mid _ _ _ 16) by done. cbn [mbind option_bind]. unfold wrap16. rewrite Z.mod_small by lia.
  rewrite (proj2 (Z.ltb_ge _ _)) by lia.
  rewrite (app_assoc (fileHeader (schema s) n)), (mem_slice_mid _ D recs)
    by (done || rewrite Zlen_app, Lh; unfold wr16; rewrite Zlen_le_bytes; lia).
  cbn [mbind option_bind]. unfold D. rewrite parseDescriptor_ok by apply Hd. cbn [mbind option_bind option_map].
  do 3 f_equal. 
Qed.

Lemma bytes_ok_concat (l : list bytes) : Forall bytes_ok l -> bytes_ok (concat l).
Proof. induction 1; [constructor|]. cbn [concat]. by apply bytes_ok_app. Qed.

Lemma images_lives_ok rs : bytes_ok (images rs) -> bytes_ok (images (lives rs)).
Proof.
  induction rs as [|r rs IH]; [done|]. rewrite images_cons, bytes_ok_app. intros [H1 H2]. specialize (IH H2).
  unfold lives. cbn [List.filter]. fold (lives rs). destruct (live r); [|done]. rewrite images_cons. by apply bytes_ok_app.
Qed.

Lemma disk_ok sc n recs : wf_schema sc -> desc_ok sc -> bytes_ok recs -> bytes_ok (disk sc n recs).
Proof.
  intros Hsc Hd Hr. unfold disk, fileHeader, serializeDescriptor, wr16, wr32. rewrite !bytes_ok_app.
  split_and!; try apply le_bytes_ok; try done; [by repeat constructor|].
  apply bytes_ok_concat. apply Forall_map, Forall_forall. intros f Hf. unfold compose.
  pose proof (field_wf _ _ Hsc Hf) as Hw. pose proof (proj1 (Forall_forall _ _) (do_names _ Hd) f Hf) as Hn. cbn in Hn.
  unfold serializeField, wr16. rewrite !bytes_ok_app. pose proof (Zlen_nonneg (fname f)).
  split_and!; try apply le_bytes_ok.
  - constructor; [|constructor]. unfold is_byte.
    destruct (kind_cases _ _ Hw) as [E|[E|[E|[E|E]]]]; rewrite E; unfold SDB_U8, SDB_U32, SDB_FIXSTR, SDB_TEXT, SDB_DATA; lia.
  - constructor; [|constructor]. unfold is_byte. destruct (Z.ltb_spec 255 (Zlen (fname f))); lia.
  - by apply Forall_take.
Qed.

(** ** Loading the image back *)

Definition load_heap_ok (lh : load_heap) : bool := a_raw lh && a_out lh && a_inf lh && a_rb lh.

Lemma adoptImage_ok s rs n lh :
  wf_schema (schema s) -> Forall (wf_rec (hs s) (Z.to_nat (textCount (schema s)))) rs -> NoDup (keys rs) ->
  16 + Zlen (images rs) < 2 ^ 31 ->
  exists s', adoptImage s (schema s) (fileHeader (schema s) n ++ images rs) lh = Some (s', true) /\
    repr s' rs /\ schema s' = schema s /\ loaded s' = true /\ dirty s' = false.
Proof.
  intros Hsc Hw Hn Hl. unfold adoptImage, schemaLayoutEqual. rewrite Z.eqb_refl, bool_decide_true by done. cbn [andb].
  pose proof (ws_hdr _ Hsc) as Hh. unfold SDB_HDR_BUILTIN in Hh.
  pose proof (Zlen_fileHeader (schema s) n) as Lh. unfold rebuildIndex, hs, SDB_FILE_HDR. cbn [block schema].
  set (hd := fileHeader (schema s) n) in *.
  pose proof (rebuildLoop_ok (hdr_size (schema s)) (Z.to_nat (textCount (schema s))) ltac:(lia) (length (hd ++ images rs)) hd rs ∅ Hw) as Hrb.
  rewrite app_nil_r, Lh in Hrb. rewrite Hrb; clear Hrb.
  2: { rewrite Zlen_app. lia. }
  2: { rewrite length_app. pose proof (length_images _ _ ltac:(destruct Hh; eassumption) rs Hw). lia. }
  cbn [mbind option_bind negb]. unfold with_arena. cbn [schema block index path cap_records cap loaded dirty grow_failed]. rewrite writeFileHeader_ok by done. cbn [mbind option_bind].
  eexists. split; [done|]. split; [|done].
  split; unfold used, hs; cbn [block schema index cap with_arena]; try done; try lia.
  - eexists. split; [|done]. apply Zlen_fileHeader.
  - rewrite ?Zlen_app, ?Zlen_fileHeader. lia.
Qed.

Lemma sdbLoad_ok fs legacy s lh rs n gz :
  loaded s = false -> path s <> [] -> wf_schema (schema s) -> desc_ok (schema s) -> load_heap_ok lh = true ->
  Forall (wf_rec (hs s) (Z.to_nat (textCount (schema s)))) rs -> NoDup (keys rs) -> 
  (exists d, stream d (disk (schema s) n (images rs)) /\
    gz = GZ_HEADER ++ d ++ wr32 (mz_crc32 0 (disk (schema s) n (images rs))) ++ wr32 (Zlen (disk (schema s) n (images rs)))) ->
  bytes_ok (images rs) -> Zlen (disk (schema s) n (images rs)) <= 8 * 1024 * 1024 ->
  fs_contents fs (path s) = Some gz ->
  exists s', sdbLoad fs legacy s lh = Some (s', true) /\
    repr s' rs /\ schema s' = schema s /\ loaded s' = true /\ dirty s' = false.
Proof.
  intros Hld Hp Hsc Hd Hlh Hw Hn (d & Hs & Egz) Hok Hl Hc. unfold load_heap_ok in Hlh.
  apply andb_true_iff in Hlh as [Hlh A4]. apply andb_true_iff in Hlh as [Hlh A3]. apply andb_true_iff in Hlh as [A1 A2].
  unfold sdbLoad. rewrite Hld. destruct (Z.eqb_spec (Zlen (path s)) 0) as [E|_]; [by apply Zlen_zero in E|].
  rewrite fs_stat_ok, Hc. cbn [option_map].
  assert (18 <= Zlen gz) as Lg.
  { rewrite Egz, !Zlen_app. unfold wr32. rewrite !Zlen_le_bytes. change (Zlen GZ_HEADER) with 10. pose proof (Zlen_nonneg d). lia. }
  rewrite (proj2 (Z.leb_gt _ _)) by lia. rewrite (fs_open_rb_ok _ _ _ Hc), (fs_read_ok _ _ _ Hc), A1, A2, A3, A4. cbn [negb].
  rewrite Egz, gzInflate_stream by (done || by apply disk_ok). cbn [mbind option_bind].
  set (D := serializeDescriptor (schema s)).
  assert (Zlen (disk (schema s) n (images rs)) = 18 + Zlen D + Zlen (images rs)) as L
    by (unfold disk; rewrite !Zlen_app, Zlen_fileHeader; unfold wr16; rewrite Zlen_le_bytes; fold D; lia).
  pose proof (Zlen_nonneg D). pose proof (Zlen_nonneg (images rs)). unfold SDB_FILE_HDR.
  rewrite (proj2 (Z.ltb_ge _ _)) by lia.
  assert (magic_ok (disk (schema s) n (images rs)) = true) as -> by done. cbn [orb negb].
  rewrite resolveReader_ok by done. cbn [mbind option_bind]. fold D.
  assert (mem_slice (disk (schema s) n (images rs)) 0 16 = Some (fileHeader (schema s) n)) as ->
    by (by apply (mem_slice_mid [])).
  cbn [mbind option_bind].
  assert (mem_slice (disk (schema s) n (images rs)) (18 + Zlen D) (Zlen (disk (schema s) n (images rs)) - (18 + Zlen D)) = Some (images rs)) as ->.
  { rewrite L. unfold disk. fold D. rewrite <- (app_nil_r (images rs)) at 1. rewrite !app_assoc, <- app_assoc.
    apply mem_slice_mid; [|lia]. rewrite !Zlen_app, Zlen_fileHeader. unfold wr16. rewrite Zlen_le_bytes. lia. }
  cbn [mbind option_bind]. apply adoptImage_ok; try done. lia.
Qed.

(** ** Flushing *)

(** C5: a flush always ends, and keeps the contents in memory. Its last step, and the one
    whose result it ignores, is to rename the temporary file over the store's: when it
    reports success the dirty mark is gone either way, and if that rename succeeded the
    file holds exactly those contents, so that evicting the store and loading it again,
    with whatever legacy layouts registered, gives the same records in the same order. When
    it reports failure, for lack of memory or because a write came out short, the store keeps
    its dirty mark and its file is untouched. No other file ever changes but the temporary
    one. *)
Theorem sdbFlush_then_load fs s A legacy lh a_img a1 a2 :
  implements s A -> path s <> [] -> desc_ok (schema s) -> bytes_ok (block s) ->
  used s + 2 + Zlen (serializeDescriptor (schema s)) <= 8 * 1024 * 1024 -> load_heap_ok lh = true ->
  exists fs' s' ok, sdbFlush fs s a_img a1 a2 = Some (fs', s', ok) /\ implements s' A /\
    (forall q, q <> path s -> q <> path s ++ $ ".new" -> fs_contents fs' q = fs_contents fs q) /\
    (ok = true -> dirty s' = false /\
      exists fs2 renamed, fs_rename fs2 (path s ++ $ ".new") (path s) = (renamed, fs') /\ fs_contents fs2 (path s) = fs_contents fs (path s) /\
        (renamed = true ->
          exists s2, sdbLoad fs' legacy (sdbEvict s') lh = Some (s2, true) /\ implements s2 A /\ dirty s2 = false)) /\
    (ok = false -> dirty s' = dirty s /\ fs_contents fs' (path s) = fs_contents fs (path s)).
Proof.
  intros (rs & Hr & Hsc & Hld & <-) Hp Hd Hok Hsz Hlh. unfold sdbFlush. rewrite Hld.
  destruct (Z.eqb_spec (Zlen (path s)) 0) as [E|_]; [by apply Zlen_zero in E|]. cbn [negb orb].
  destruct (compact_ok s rs 0 Hr ltac:(lia)) as (s1 & -> & R1 & Hm & _ & Eb). cbn [mbind option_bind].
  change (drop (Z.to_nat 0) (lives rs)) with (lives rs) in *. pose proof Hm as (S1 & S2 & S3 & S4 & S5).
  assert (implements s1 (abs (schema s) rs)) as Hi1
    by (exists (lives rs); rewrite S1, S4, abs_lives; by split_and!).
  rewrite <- S1 in Eb. rewrite (buildDiskImage_ok _ _ _ a_img Eb). cbn [mbind option_bind].
  set (n := Zlen (lives rs)) in *. set (img := disk (schema s1) n (images (lives rs))).
  destruct a_img; [|by exists fs, s1, false].
  pose proof (rp_block _ _ Hr) as (hd & Hhd & Eb0).
  assert (bytes_ok (images (lives rs))) as Hokl
    by (rewrite Eb0, bytes_ok_app in Hok; destruct Hok; by apply images_lives_ok).
  assert (bytes_ok img) as Himg by (apply disk_ok; rewrite ?S1; done).
  assert (Zlen img <= 8 * 1024 * 1024) as Limg.
  { unfold img, disk. rewrite S1, !Zlen_app, Zlen_fileHeader. unfold wr16. rewrite Zlen_le_bytes.
    unfold used in Hsz. rewrite Eb0, Zlen_app in Hsz. pose proof (lives_length rs). lia. }
  destruct (gzDeflateBin a1 a2 img) as [gz|] eqn:Egz; [|by exists fs, s1, false].
  destruct (gzDeflate_stream _ _ _ _ Egz Himg) as (d & Hs & Egz').
  rewrite S2. destruct (fs_open_w fs (path s ++ $ ".new")) as [fs1|] eqn:Eo; [|by exists fs, s1, false].
  destruct (fs_open_w_ok _ _ _ Eo) as [C1 O1].
  assert (path s <> path s ++ $ ".new") as Ne by (intros X; apply (f_equal length) in X; rewrite length_app in X; cbn in X; lia).
  destruct (writeFileLoop_ok (length gz) fs1 _ gz [] C1 (le_n _)) as (fs2 & ok & -> & O2 & C2).
  cbn [mbind option_bind]. destruct ok; cbn [negb].
  - specialize (C2 eq_refl). cbn [app] in C2. destruct (fs_rename fs2 (path s ++ $ ".new") (path s)) as [renamed fs3] eqn:Er.
    pose proof (fs_rename_ok _ _ (path s) _ fs3 C2) as C3.
    eexists _, _, true. split; [done|]. split; [destruct Hi1 as (r & I1 & I2 & I3 & I4); exists r; split_and!; [by apply repr_flags|done|done|done]|].
    split; [intros q H1 H2; cbn [snd]; pose proof (fs_rename_other fs2 (path s ++ $ ".new") (path s) q H2 H1) as X; rewrite Er in X; cbn [snd] in X; by rewrite X, O2, O1|].
    split; [|done]. intros _. split; [done|]. exists fs2, renamed. split; [done|]. split; [by rewrite O2, O1|].
    intros ->. cbn [snd]. specialize (C3 Er).
    destruct (sdbLoad_ok fs3 legacy
      (sdbEvict (with_flags s1 (loaded s1) false)) lh (lives rs) n gz) as (s2 & E2 & L1 & L2 & L3 & L4);
      unfold hs; cbn [loaded path schema sdbEvict with_flags]; rewrite ?S1, ?S2; try done.
    + by apply lives_wf, Hr.
    + rewrite keys_lives. apply Hr.
    + exists d. unfold img in Hs, Egz'. rewrite S1 in Hs, Egz'. by split.
    + unfold img in Limg. by rewrite S1 in Limg.
    + exists s2. split; [exact E2|]. split; [|done]. cbn [schema sdbEvict with_flags] in L2. exists (lives rs).
      rewrite L2, S1, abs_lives. by split_and!.
  - eexists _, _, false. split; [done|]. split; [done|]. split; [intros q _ Hq; by rewrite fs_remove_ok, O2, O1|].
    split; [done|]. intros _. split; [done|]. by rewrite fs_remove_ok, O2, O1.
Qed.
End Files.

(** ** A concrete file system and codec *)

Import Stored.

#[export] Instance MemFs : FileSys (gmap bytes bytes) := {|
  fs_stat fs p := option_map Zlen (fs !! p);
  fs_open_rb fs p := bool_decide (is_Some (fs !! p));
  fs_read fs p n := take (Z.to_nat n) (default [] (fs !! p));
  fs_open_w fs p := Some (<[p := []]> fs);
  fs_write fs p b := (<[p := default [] (fs !! p) ++ b]> fs, Zlen b);
  fs_remove fs p := delete p fs;
  fs_rename fs p q := match fs !! p with Some c => (true, <[q := c]> (delete p fs)) | None => (false, fs) end |}.

#[export] Instance MemFsLaws : FsLaws MemFs.
Proof.
  refine {| fs_contents fs p := fs !! p |}; cbn; try done.
  - intros fs p c ->. by rewrite bool_decide_true.
  - intros fs p c ->. cbn. apply take_ge. unfold Zlen. lia.
  - intros fs p fs' [= <-]. split; [by rewrite lookup_insert_eq|]. intros q Hq. by rewrite lookup_insert_ne.
  - intros fs p c b fs' n -> [= <- <-]. pose proof (Zlen_nonneg b). split; [lia|]. rewrite lookup_insert_eq. cbn.
    rewrite take_ge by (unfold Zlen; lia). split; [done|]. intros q Hq. by rewrite lookup_insert_ne.
  - intros fs p q Hq. by rewrite lookup_delete_ne.
  - intros fs p q c fs' -> [= <-]. by rewrite lookup_insert_eq.
  - intros fs p q r Hp Hq. destruct (fs !! p); [|done]. cbn. by rewrite lookup_insert_ne, lookup_delete_ne.
Defined.

#[export] Instance StoredOneShot : TinflOneShot StoredTinfl stored.
Proof.
  intros d raw ->. eexists _, _. unfold tinfl_decompress, StoredTinfl. rewrite Z.ltb_irrefl, take_ge by (unfold Zlen; lia). done.
Qed.

Definition load_yes : load_heap :=
  {| a_raw := true; a_out := true; a_inf := true; a_rb := true; a_init := heap_yes; a_mig := fun _ _ => (heap_yes, heap_yes) |}.

Lemma demo_desc_ok : desc_ok demo_schema.
Proof.
  split; [apply demo_fields_ok| |vm_compute; reflexivity|vm_compute; split; [discriminate|reflexivity]
         |vm_compute; split; [discriminate|reflexivity]|vm_compute; reflexivity].
  vm_compute. repeat constructor; discriminate.
Qed.

Lemma sdbFlush_then_load_witness : exists fs' s' s2,
  sdbFlush (C := bytes) (∅ : gmap bytes bytes) demo_store true true true = Some (fs', s', true) /\
  sdbLoad (I := bytes) fs' [] (sdbEvict s') load_yes = Some (s2, true) /\ implements s2 demo_abs.
Proof.
  destruct (sdbFlush_then_load (C := bytes) (I := bytes) (∅ : gmap bytes bytes) demo_store demo_abs [] load_yes true true true)
    as (fs' & s' & ok & E & I1 & _ & T & _); [exact demo_implements|done|exact demo_desc_ok|vm_compute; repeat constructor; discriminate
    |vm_compute; discriminate|done|].
  assert (ok = true) as ->.
  { apply (f_equal (option_map snd)) in E. vm_compute in E. by injection E. }
  destruct (T eq_refl) as (_ & fs2 & renamed & R & P & L0). assert (renamed = true) as ->.
  { destruct renamed; [done|]. exfalso.
    unfold fs_rename, MemFs in R. destruct (fs2 !! _); [done|]. injection R as <-.
    apply (f_equal (option_map (fun x => bool_decide (x.1.1 !! path demo_store = None)))) in E. cbn [option_map fst] in E.
    cbn [fs_contents MemFsLaws] in P. rewrite P in E. vm_compute in E. discriminate. }
  destruct (L0 eq_refl) as (s2 & L & I2 & _). exists fs', s', s2. split; [exact E|]. split; [exact L|exact I2].
Defined.

(** ** A rename that fails *)

(** The same file system, with renames that fail. *)
Definition StuckFs : FileSys (gmap bytes bytes) := {|
  fs_stat fs p := option_map Zlen (fs !! p);
  fs_open_rb fs p := bool_decide (is_Some (fs !! p));
  fs_read fs p n := take (Z.to_nat n) (default [] (fs !! p));
  fs_open_w fs p := Some (<[p := []]> fs);
  fs_write fs p b := (<[p := default [] (fs !! p) ++ b]> fs, Zlen b);
  fs_remove fs p := delete p fs;
  fs_rename fs p q := (false, fs) |}.

(** A flush whose rename fails reports success and clears the dirty mark, although the
    store's file is not there. *)
Theorem flush_ignores_rename :
  (fun x => (x.2, dirty x.1.2, x.1.1 !! path demo_store)) <$>
    sdbFlush (C := bytes) (FS := StuckFs) (∅ : gmap bytes bytes) (with_flags demo_store true true) true true true =
  Some (true, false, None).
Proof. vm_compute. reflexivity. Qed.

(** ** Reading past the arena on a damaged file *)

(** A file whose last record ends right after its fixed header makes the index
    rebuild read the two bytes of the key length past the end of the block: the check
    that there is room for them comes only after the read. *)
Theorem rebuildIndex_reads_past_end :
  let s := store_of demo_schema ($ "/s") 0 [] in
  let b := block s ++ wr32 (hdr_size demo_schema) ++ [0] ++ replicate 21 0 in
  Zlen b = 16 + hdr_size demo_schema /\ rebuildIndex (with_arena s b ∅) = None.
Proof. split; vm_compute; reflexivity. Qed.

(** A file that declares a zero header size and holds a record marked deleted with
    length zero keeps the index rebuild going round the same offset for ever: no
    number of steps finishes the walk. *)
Theorem rebuildIndex_may_not_end (fuel : nat) :
  let b := fileHeader demo_schema 1 ++ wr32 0 ++ [1] in
  rebuildLoop fuel 0 b SDB_FILE_HDR ∅ = None.
Proof.
  cbn zeta. induction fuel as [|f IH]; [vm_compute; reflexivity|].
  set (b := fileHeader demo_schema 1 ++ wr32 0 ++ [1]) in *. cbn [rebuildLoop].
  change (negb (SDB_FILE_HDR <? Zlen b)) with false. change (Zlen b <? SDB_FILE_HDR + 0) with false.
  change (rd32 b (SDB_FILE_HDR + SDB_REC_LEN_OFF)) with (Some 0). cbn [mbind option_bind].
  change ((0 <? 0) || (Zlen b <? SDB_FILE_HDR + 0)) with false.
  change (mem_get b (SDB_FILE_HDR + SDB_FLAGS_OFF)) with (Some 1). cbn [mbind option_bind].
  change (is_live 1) with false. exact IH.
Qed.
