(* ===== verification/Config.v ===== *)
(** * storage: the configuration tree and its actor (src/esp-idf/src/storage.cpp)

    [Tree]: the cJSON tree, dot-path navigation and merging. [Ops]: the op lists that
    carry every write. [Subs]: the subscription table. [Actor]: applying an op list,
    and the readers. cJSON is third-party code: its node operations are the class
    [CJson], what the module relies on is [CJsonLaws]. *)

From stdpp Require Import gmap.
From S2P Require Import Prelude CLib.
Open Scope Z_scope.
Open Scope spangap_scope.

(** A cJSON node, as its struct has it: [child] is the list of children, each with its
    [string], which an array element lacks. *)
Inductive json :=
| JNull
| JBool (b : bool)
| JNum (valueint : Z)
| JStr (valuestring : bytes)
| JNode (isArray : bool) (child : list (option bytes * json)).

Abbreviation kids := (list (option bytes * json)).

Definition cJSON_IsObject (n : json) : bool := match n with JNode false _ => true | _ => false end.
Definition cJSON_IsArray (n : json) : bool := match n with JNode true _ => true | _ => false end.

(** The library's operations on the children of a node. [cJSON_find] is the position of
    the child that [cJSON_GetObjectItem] returns. *)
Class CJson := {
  cJSON_find : kids -> bytes -> option nat;
  cJSON_AddItemToObject : kids -> bytes -> json -> kids;
  cJSON_DeleteItemFromObject : kids -> bytes -> kids;
  cJSON_AddItemToArray : kids -> option bytes * json -> kids;
  cJSON_DeleteItemFromArray : kids -> Z -> kids;
  cJSON_ReplaceItemInArray : kids -> Z -> option bytes * json -> kids;
  cJSON_Duplicate : option bytes * json -> option bytes * json;
  cJSON_ParseWithLength : bytes -> option json;
  cJSON_PrintUnformatted : json -> option bytes
}.

Module Tree.
Section Tree.
Context `{CJ : CJson}.

Definition cJSON_GetObjectItem (n : json) (k : bytes) : option json :=
  match n with JNode _ l => i ← cJSON_find l k; snd <$> l !! i | _ => None end.

Definition cJSON_GetArrayItem (n : json) (i : Z) : option json :=
  match n with JNode _ l => if i <? 0 then None else snd <$> l !! Z.to_nat i | _ => None end.

Definition isAllDigits (s : bytes) : bool :=
  if Zlen s =? 0 then false else forallb (fun c => (48 <=? c) && (c <=? 57)) s.

(** The segment at [p], whether a dot ends it, and what follows. *)
Definition segment (p : bytes) : bytes * bool * bytes :=
  match strchr p (chr ".") with
  | Some (seg, rest) => (seg, true, rest)
  | None => (p, false, [])
  end.

Definition SEG_SIZE : Z := 96.

Fixpoint navLoop (fuel : nat) (node : json) (p : bytes) : option json :=
  match p, fuel with
  | [], _ => Some node
  | _, O => None
  | _, S f =>
      let '(seg, _, rest) := segment p in
      if Zlen seg =? 0 then navLoop f node rest
      else if SEG_SIZE <=? Zlen seg then None
      else
        node ← (if cJSON_IsArray node && isAllDigits seg then cJSON_GetArrayItem node (atoi seg)
                else cJSON_GetObjectItem node seg);
        navLoop f node rest
  end.

Definition navigatePath (root : json) (dotPath : bytes) : option json :=
  if Zlen dotPath =? 0 then None else navLoop (length dotPath) root dotPath.

(** [navigateOrCreate], with the change [k] its caller then makes to the children of
    the parent it returns, under the leaf name: the new children of [nd], and whether
    there was a parent. *)
Fixpoint navCreate (fuel : nat) (nd : kids) (p : bytes) (k : kids -> bytes -> kids) : kids * bool :=
  match p, fuel with
  | [], _ => (nd, false)
  | _, O => (nd, false)
  | _, S f =>
      let '(seg, dot, rest) := segment p in
      if Zlen seg =? 0 then navCreate f nd rest k
      else if SEG_SIZE <=? Zlen seg then (nd, false)
      else if negb (dot : bool) then (k nd (trunc 96 seg), true)
      else
        match cJSON_find nd seg with
        | None =>
            let '(c, r) := navCreate f [] rest k in
            (cJSON_AddItemToObject nd seg (JNode false c), r)
        | Some i =>
            match nd !! i with
            | Some (nm, JNode b l) =>
                let '(c, r) := navCreate f l rest k in
                (<[i := (nm, JNode b c)]> nd, r)
            | _ =>
                let '(c, r) := navCreate f [] rest k in
                (cJSON_AddItemToObject (cJSON_DeleteItemFromObject nd seg) seg (JNode false c), r)
            end
        end
  end.

Definition navigateOrCreate (root : kids) (dotPath : bytes) (k : kids -> bytes -> kids) : kids * bool :=
  navCreate (length dotPath) root dotPath k.

Fixpoint stripRev (r : bytes) : bytes :=
  match r with
  | c :: r' => if c =? chr "." then stripRev r' else r
  | [] => []
  end.

Definition stripDots (s : bytes) : bytes := rev (stripRev (rev s)).

Definition numericName (c : option bytes * json) : bool :=
  match c.1 with Some s => isAllDigits s | None => false end.

Definition allNumericKeys (obj : json) : bool :=
  match obj with
  | JNode false ((_ :: _) as l) => forallb numericName l
  | _ => false
  end.

(** [std::sort] with [std::greater]. *)
Fixpoint insert_desc (x : Z) (l : list Z) : list Z :=
  match l with
  | [] => [x]
  | y :: l' => if y <=? x then x :: l else y :: insert_desc x l'
  end.
Definition sort_desc (l : list Z) : list Z := foldr insert_desc [] l.

Definition is_null (n : json) : bool := match n with JNull => true | _ => false end.

Definition child_index (c : option bytes * json) : Z := atoi (default [] c.1).

(** The deletions of [deepMergeIntoArray]. *)
Definition deletions (patch : kids) : list Z :=
  sort_desc (map child_index (List.filter (fun c => is_null c.2) patch)).

Definition applyDeletions (al : kids) (idxs : list Z) : kids :=
  foldl (fun al idx => if (0 <=? idx) && (idx <? Zlen al) then cJSON_DeleteItemFromArray al idx else al) al idxs.

(** [while (cJSON_GetArraySize(dstArr) < idx) cJSON_AddItemToArray(dstArr, null)]. *)
Definition padNulls (al : kids) (idx : Z) : kids :=
  Nat.iter (Z.to_nat (idx - Zlen al)) (fun al => cJSON_AddItemToArray al (None, JNull)) al.

(** [deepMerge(dst, src)] works on the children [dl] of [dst]. [elem_step] and
    [item_step] are the bodies of the loops of [deepMergeIntoArray] and [deepMerge],
    [dm] their recursive call. *)
Definition elem_step (dm : json -> kids -> kids) (al : kids) (c : option bytes * json) : kids :=
  match c with
  | (_, JNull) => al
  | (nm, it) =>
      let idx := atoi (default [] nm) in
      if idx <? Zlen al then
        match it, al !! Z.to_nat idx with
        | JNode false _, Some (en, JNode false ecl) => <[Z.to_nat idx := (en, JNode false (dm it ecl))]> al
        | _, _ => cJSON_ReplaceItemInArray al idx (cJSON_Duplicate c)
        end
      else cJSON_AddItemToArray (padNulls al idx) (cJSON_Duplicate c)
  end.

Definition deepMergeIntoArray (dm : json -> kids -> kids) (al : kids) (patch : kids) : kids :=
  fold_left (elem_step dm) patch (applyDeletions al (deletions patch)).

Definition item_step (dm : json -> kids -> kids) (dl : kids) (c : option bytes * json) : kids :=
  match c with
  | (None, _) => dl
  | (Some name, item) =>
      let replace := cJSON_AddItemToObject (cJSON_DeleteItemFromObject dl name) name (cJSON_Duplicate c).2 in
      match item with
      | JNull => cJSON_DeleteItemFromObject dl name
      | JNode false sub =>
          match cJSON_find dl name with
          | None => cJSON_AddItemToObject dl name (cJSON_Duplicate c).2
          | Some i =>
              match dl !! i with
              | Some (nm, JNode false cl) => <[i := (nm, JNode false (dm item cl))]> dl
              | Some (nm, JNode true cl) =>
                  if allNumericKeys item then <[i := (nm, JNode true (deepMergeIntoArray dm cl sub))]> dl
                  else replace
              | _ => replace
              end
          end
      | _ => replace
      end
  end.

Fixpoint deepMerge (src : json) (dl : kids) {struct src} : kids :=
  match src with
  | JNode _ sl => fold_left (item_step deepMerge) sl dl
  | _ => dl
  end.

(** [jsonDeepMerge]: the merge of the settings files, arrays replaced. *)
Definition json_step (dm : json -> kids -> kids) (dl : kids) (c : option bytes * json) : kids :=
  match c with
  | (None, _) => dl
  | (Some name, item) =>
      let replace := cJSON_AddItemToObject (cJSON_DeleteItemFromObject dl name) name (cJSON_Duplicate c).2 in
      match item with
      | JNull => cJSON_DeleteItemFromObject dl name
      | JNode false sub =>
          match cJSON_find dl name with
          | None => cJSON_AddItemToObject dl name (cJSON_Duplicate c).2
          | Some i =>
              match dl !! i with
              | Some (nm, JNode false cl) => <[i := (nm, JNode false (dm item cl))]> dl
              | _ => replace
              end
          end
      | _ => replace
      end
  end.

Fixpoint jsonDeepMerge (src : json) (dl : kids) {struct src} : kids :=
  match src with
  | JNode _ sl => fold_left (json_step jsonDeepMerge) sl dl
  | _ => dl
  end.

(** A child's name on a path: its own, or its index. *)
Definition child_name (c : option bytes * json) (idx : Z) : bytes := default (sdec idx) c.1.

Definition join_path (path name : bytes) : bytes := if Zlen path =? 0 then name else path ++ [chr "."] ++ name.

(** [walkLeavesImpl] with a path buffer of [pathSize]: the calls it makes, in order. *)
Fixpoint walkLeavesImpl (pathSize : Z) (path : bytes) (node : json) {struct node} : list (bytes * bytes) :=
  match node with
  | JNode _ l =>
      (fix each (l : kids) (idx : Z) {struct l} : list (bytes * bytes) :=
        match l with
        | [] => []
        | (nm, item) :: rest =>
            let p := join_path path (default (sdec idx) nm) in
            (if pathSize <=? Zlen p then []
             else
               match item with
               | JNode _ _ => walkLeavesImpl pathSize p item
               | JStr s => [(p, s)]
               | JNum v => [(p, sdec v)]
               | _ => []
               end) ++ each rest (idx + 1)
        end) l 0
  | _ => []
  end.

Definition walkLeaves (node : json) (prefix : bytes) : list (bytes * bytes) :=
  if 128 <=? Zlen prefix then [] else walkLeavesImpl 128 prefix node.

(** [collectChanges]: every changed leaf of a patch, deletions as empty values. *)
Fixpoint collectChanges (pathSize : Z) (path : bytes) (node : json) {struct node} : list (bytes * bytes) :=
  match node with
  | JNode _ l =>
      (fix each (l : kids) (idx : Z) {struct l} : list (bytes * bytes) :=
        match l with
        | [] => []
        | (nm, item) :: rest =>
            let p := join_path path (default (sdec idx) nm) in
            (if pathSize <=? Zlen p then []
             else
               match item with
               | JNull => [(p, [])]
               | JNode false _ => collectChanges pathSize p item
               | JNode true _ => [(p, [])]
               | JStr s => [(p, s)]
               | JNum v => [(p, sdec v)]
               | _ => []
               end) ++ each rest (idx + 1)
        end) l 0
  | _ => []
  end.

End Tree.
End Tree.
Import Tree.

Module Ops.

Inductive cfg_type_t := CFG_INT | CFG_STR.

#[export] Instance cfg_type_eq_dec : EqDecision cfg_type_t.
Proof. solve_decision. Defined.

Definition INT32_MIN : Z := - 2 ^ 31.

(** The digit loop of [inferType]: the accumulator, kept negative; C division
    truncates. *)
Fixpoint inferLoop (p : bytes) (acc : Z) : option Z :=
  match p with
  | [] => Some acc
  | c :: p' =>
      if (c <? 48) || (57 <? c) then None
      else
        let d := c - 48 in
        if acc <? Z.quot (INT32_MIN + d) 10 then None else inferLoop p' (acc * 10 - d)
  end.

Definition inferType (val : bytes) : cfg_type_t :=
  match val with
  | [] => CFG_STR
  | c :: rest =>
      let neg := c =? chr "-" in
      let p := if neg then rest else val in
      match p with
      | [] => CFG_STR
      | _ =>
          match inferLoop p 0 with
          | None => CFG_STR
          | Some acc => if negb neg && (acc =? INT32_MIN) then CFG_STR else CFG_INT
          end
      end
  end.

Definition OP_F_SILENT : Z := 1.

(** The encoders: the bytes each appends. Pointers are 4 bytes. *)
Definition opPutStr (s : bytes) : bytes := s ++ [0].
Definition opPutU32 (v : Z) : bytes := wr32 v.
Definition opPutPtr (p : Z) : bytes := wr32 p.

Definition opAppendKVInt (opcode : Z) (key : bytes) (val : Z) : bytes :=
  [opcode] ++ opPutStr key ++ [chr "I"] ++ wr32 val.

Definition opAppendKV (opcode : Z) (key val : bytes) : bytes :=
  match inferType val with
  | CFG_INT => [opcode] ++ opPutStr key ++ [chr "I"] ++ wr32 (atoi val)
  | CFG_STR => [opcode] ++ opPutStr key ++ [chr "S"] ++ opPutU32 (Zlen val) ++ val
  end.

Definition opAppendKVJson (opcode : Z) (key js : bytes) : bytes :=
  [opcode] ++ opPutStr key ++ [chr "J"] ++ opPutU32 (Zlen js) ++ js.

Definition opAppendDelete (key : bytes) : bytes := [chr "D"] ++ opPutStr key.

(** The messages of the subscription calls and of [storageSave]. *)
Definition subOp (onStorageTask : bool) (scope : bytes) (cb : Z) : bytes :=
  [if onStorageTask then chr "#" else chr "+"] ++ opPutStr scope ++ opPutPtr cb.
Definition unsubOp (scope : bytes) (cb : Z) : bytes := [chr "-"] ++ opPutStr scope ++ opPutPtr cb.
Definition saveOp (sem : Z) : bytes := [chr "W"] ++ opPutPtr sem.

Record parsed_op := { p_op : Z; p_key : bytes; p_val : option json; p_ptr : Z }.

Definition to_s32 (v : Z) : Z := if v <? 2 ^ 31 then v else v - 2 ^ 32.

(** What parsing comes to: a value, a malformed list, or a read outside the list. *)
Inductive pres (A : Type) := POk (a : A) | PBad | PUb.
Arguments POk {A} a.
Arguments PBad {A}.
Arguments PUb {A}.

Definition pbind {A B} (r : pres A) (f : A -> pres B) : pres B :=
  match r with POk a => f a | PBad => PBad | PUb => PUb end.

(** A NUL-terminated string, and a [memcpy] of four bytes, at the cursor. *)
Definition takeStr (p : bytes) : pres (bytes * bytes) :=
  match strchr p 0 with Some r => POk r | None => PBad end.
Definition take32 (p : bytes) : pres (Z * bytes) :=
  if Zlen p <? 4 then PBad else POk (le_val (take 4 p), drop 4 p).

Section Parse.
Context `{CJ : CJson}.

(** The value of a SET or DEFAULT op in a list of [len] bytes. [pos + vl] is a
    32-bit sum. *)
Definition parseValue (len : Z) (p : bytes) : pres (option json * bytes) :=
  match p with
  | [] => PBad
  | vt :: p =>
      if vt =? chr "I" then pbind (take32 p) (fun '(v, p) => POk (Some (JNum (to_s32 v)), p))
      else if (vt =? chr "S") || (vt =? chr "J") then
        pbind (take32 p) (fun '(vl, p) =>
          let pos := len - Zlen p in
          if len <? wrap32 (pos + vl) then PBad
          else if Zlen p <? vl then PUb
          else
            let s := take (Z.to_nat vl) p in
            POk (if vt =? chr "S" then Some (JStr (c_str s)) else cJSON_ParseWithLength s, drop (Z.to_nat vl) p))
      else PBad
  end.

(** One op at the cursor; a save carries only its semaphore. *)
Definition parseOne (len op : Z) (p : bytes) : pres ((parsed_op + Z) * bytes) :=
  if (op =? chr "S") || (op =? chr "d") || (op =? chr "D") then
    pbind (takeStr p) (fun '(key, p) =>
      if op =? chr "D" then POk (inl {| p_op := op; p_key := key; p_val := None; p_ptr := 0 |}, p)
      else pbind (parseValue len p) (fun '(v, p) =>
        POk (inl {| p_op := op; p_key := key; p_val := v; p_ptr := 0 |}, p)))
  else if (op =? chr "+") || (op =? chr "#") || (op =? chr "-") then
    pbind (takeStr p) (fun '(sc, p) => pbind (take32 p) (fun '(cb, p) =>
      POk (inl {| p_op := op; p_key := sc; p_val := None; p_ptr := cb |}, p)))
  else if op =? chr "W" then
    pbind (take32 p) (fun '(sem, p) => POk (inr sem, p))
  else PBad.

(** Pass 1: whether the list is bad, the ops and the saves read before that; [None]
    for a read outside the list. *)
Fixpoint parseOps (fuel : nat) (len : Z) (p : bytes) : option (bool * list parsed_op * list Z) :=
  match p, fuel with
  | [], _ => Some (false, [], [])
  | _, O => None
  | op :: p, S f =>
      match parseOne len op p with
      | PUb => None
      | PBad => Some (true, [], [])
      | POk (r, p) =>
          '(bad, ops, saves) ← parseOps f len p;
          Some (match r with
                | inl o => (bad, o :: ops, saves)
                | inr s => (bad, ops, s :: saves)
                end)
      end
  end.

End Parse.
End Ops.
Import Ops.

Module Subs.

(** A row of the table; a [None] task is the null handle. *)
Record storage_sub_t := { s_task : option Z; s_cb : Z; s_scope : bytes; s_direct : bool }.

#[export] Instance sub_eq_dec : EqDecision storage_sub_t.
Proof. solve_decision. Defined.

Definition STORAGE_MAX_SUBS : Z := 256.

(** [subDrop]: the last row takes the place of row [i]. *)
Definition subDrop (subs : list storage_sub_t) (i : nat) : list storage_sub_t :=
  match last subs with
  | None => subs
  | Some l => take (pred (length subs)) (<[i := l]> subs)
  end.

(** The scan of [subReap] and [subRemove], from row [i]. *)
Fixpoint dropWhere (fuel : nat) (match' : storage_sub_t -> bool) (subs : list storage_sub_t) (i : nat)
    : list storage_sub_t :=
  match subs !! i, fuel with
  | None, _ => subs
  | _, O => subs
  | Some r, S f => if match' r then dropWhere f match' (subDrop subs i) i else dropWhere f match' subs (S i)
  end.

Definition is_dead (r : storage_sub_t) : bool := negb (s_direct r) && bool_decide (s_task r = None).

Definition subReap (subs : list storage_sub_t) : list storage_sub_t :=
  dropWhere (length subs) is_dead subs 0.

Definition subAdd (subs : list storage_sub_t) (task : option Z) (cb : Z) (scope : bytes) (direct : bool)
    : list storage_sub_t :=
  let subs := subReap subs in
  let row := {| s_task := task; s_cb := cb; s_scope := scope; s_direct := direct |} in
  if existsb (fun r => bool_decide (r = row)) subs then subs
  else if STORAGE_MAX_SUBS <=? Zlen subs then subs
  else subs ++ [row].

(** [cb = 0] is the null callback. *)
Definition sub_matches (task : option Z) (cb : Z) (scope : bytes) (r : storage_sub_t) : bool :=
  (if s_direct r then negb (cb =? 0) else bool_decide (s_task r = task)) &&
  streq (s_scope r) scope && ((cb =? 0) || (s_cb r =? cb)).

Definition subRemove (subs : list storage_sub_t) (task : option Z) (cb : Z) (scope : bytes) : list storage_sub_t :=
  dropWhere (length subs) (sub_matches task cb scope) subs 0.

Definition storageOnTaskDeath (subs : list storage_sub_t) (dead : Z) : list storage_sub_t :=
  map (fun r => if bool_decide (s_task r = Some dead)
                then {| s_task := None; s_cb := s_cb r; s_scope := s_scope r; s_direct := s_direct r |} else r) subs.

Definition STORAGE_NOTIFY_VAL_MAX : Z := 512.

(** A call made inline, or the message built for another task. *)
Inductive notify :=
| Call (cb : Z) (key val : bytes)
| Send (task : Z) (buf : bytes).

(** The CHANGED message: callback, key, the value cut short. *)
Definition changedMsg (cb : Z) (key val : bytes) : bytes :=
  let vlen := if STORAGE_NOTIFY_VAL_MAX <? Zlen val then STORAGE_NOTIFY_VAL_MAX else Zlen val in
  wr32 cb ++ key ++ [0] ++ take (Z.to_nat vlen) val ++ [0].

Definition notifyRow (storageHandle : option Z) (key val : bytes) (r : storage_sub_t) : list notify :=
  if is_dead r then []
  else if negb (Zlen (s_scope r) =? 0) && negb (has_prefix (s_scope r) key) then []
  else if s_direct r || bool_decide (s_task r = storageHandle) then
    if s_cb r =? 0 then [] else [Call (s_cb r) key val]
  else match s_task r with
       | Some t => [Send t (changedMsg (s_cb r) key val)]
       | None => []
       end.

(** [notifyChange], every buffer allocated: the calls and the messages queued. *)
Definition notifyChange (storageHandle : option Z) (subs : list storage_sub_t) (key val : bytes) : list notify :=
  concat (map (notifyRow storageHandle key val) subs).

(** [storageChangeDispatch] on the receiving task: the call it makes. *)
Definition storageChangeDispatch (data : bytes) : option (Z * bytes * bytes) :=
  if Zlen data <? 4 + 2 then None
  else
    let cb := le_val (take 4 data) in
    let r := drop 4 data in
    match strchr r 0 with
    | None => None
    | Some (key, val) => if Zlen val =? 0 then None else if cb =? 0 then None else Some (cb, key, c_str val)
    end.

End Subs.
Import Subs.

Module Actor.

Record external_t := { e_prefix : bytes; e_path : bytes; e_dirty : bool; e_pendingDelete : bool }.

(** The state the actor owns. [db] is the structured stores. *)
Record cfg_st (D : Type) := {
  cfgRoot : kids; externals : list external_t; rootDirty : bool; savePending : bool;
  saveDelay : Z; subs : list storage_sub_t; pendingSaveSems : list Z; db : D
}.
Arguments cfgRoot {D}. Arguments externals {D}. Arguments rootDirty {D}. Arguments savePending {D}.
Arguments saveDelay {D}. Arguments subs {D}. Arguments pendingSaveSems {D}. Arguments db {D}.

(** The routing to the structured stores: [None] when the key belongs to none;
    otherwise the stores, the changes, and whether a file must be written. *)
Class SdbRouter (D : Type) := {
  sdbApplyOpLocked : D -> Z -> bytes -> bytes -> bool -> option (D * list (bytes * bytes) * bool);
  sdbGetLocked : D -> bytes -> option bytes;
  sdbExistsLocked : D -> bytes -> option bool
}.

Section Actor.
Context {D : Type} `{CJ : CJson} `{SR : SdbRouter D}.
Notation cfg := (cfg_st D).

Definition root (c : cfg) : json := JNode false (cfgRoot c).

Definition with_root (c : cfg) (r : kids) : cfg :=
  {| cfgRoot := r; externals := externals c; rootDirty := rootDirty c; savePending := savePending c;
     saveDelay := saveDelay c; subs := subs c; pendingSaveSems := pendingSaveSems c; db := db c |}.
Definition with_files (c : cfg) (ext : list external_t) (rd : bool) : cfg :=
  {| cfgRoot := cfgRoot c; externals := ext; rootDirty := rd; savePending := savePending c;
     saveDelay := saveDelay c; subs := subs c; pendingSaveSems := pendingSaveSems c; db := db c |}.
Definition with_timer (c : cfg) (sp : bool) (dl : Z) : cfg :=
  {| cfgRoot := cfgRoot c; externals := externals c; rootDirty := rootDirty c; savePending := sp;
     saveDelay := dl; subs := subs c; pendingSaveSems := pendingSaveSems c; db := db c |}.
Definition with_subs (c : cfg) (sb : list storage_sub_t) : cfg :=
  {| cfgRoot := cfgRoot c; externals := externals c; rootDirty := rootDirty c; savePending := savePending c;
     saveDelay := saveDelay c; subs := sb; pendingSaveSems := pendingSaveSems c; db := db c |}.
Definition with_db (c : cfg) (d : D) : cfg :=
  {| cfgRoot := cfgRoot c; externals := externals c; rootDirty := rootDirty c; savePending := savePending c;
     saveDelay := saveDelay c; subs := subs c; pendingSaveSems := pendingSaveSems c; db := d |}.
Definition with_sems (c : cfg) (l : list Z) : cfg :=
  {| cfgRoot := cfgRoot c; externals := externals c; rootDirty := rootDirty c; savePending := savePending c;
     saveDelay := saveDelay c; subs := subs c; pendingSaveSems := l; db := db c |}.

(** ** Readers (no provider registered for the key) *)

Definition resolveKey (c : cfg) (key : bytes) : option json := navigatePath (root c) key.

Definition is_leaf (n : json) : bool := negb (cJSON_IsObject n) && negb (cJSON_IsArray n).

Definition storageExists (c : cfg) (key : bytes) : bool :=
  match sdbExistsLocked (db c) key with
  | Some e => e
  | None => match resolveKey c key with Some n => is_leaf n | None => false end
  end.

Definition storageGetInt (c : cfg) (key : bytes) (def : Z) : Z :=
  match sdbGetLocked (db c) key with
  | Some sv => atoi (c_str sv)
  | None =>
      match resolveKey c key with
      | Some (JNum v) => v
      | Some (JStr s) => atoi s
      | _ => def
      end
  end.

(** [storageGetStr] into a buffer of [outLen] bytes. *)
Definition storageGetStr (c : cfg) (key : bytes) (outLen : nat) (def : bytes) : bytes :=
  match sdbGetLocked (db c) key with
  | Some sv => trunc outLen (c_str sv)
  | None =>
      match resolveKey c key with
      | Some (JStr s) => trunc outLen s
      | Some (JNum v) => trunc outLen (sdec v)
      | _ => trunc outLen def
      end
  end.

(** The [std::string] overload. *)
Definition storageGetString (c : cfg) (key def : bytes) : bytes :=
  match sdbGetLocked (db c) key with
  | Some sv => sv
  | None =>
      match resolveKey c key with
      | Some (JStr s) => s
      | Some (JNum v) => sdec v
      | _ => def
      end
  end.

Definition storageGetType (c : cfg) (key : bytes) : cfg_type_t :=
  match resolveKey c key with Some (JNum _) => CFG_INT | _ => CFG_STR end.

(** Counting the keys 0, 1, ... of an object. *)
Fixpoint countLoop (fuel : nat) (n : json) (count : Z) : Z :=
  match fuel with
  | O => count
  | S f =>
      match cJSON_GetObjectItem n (trunc 12 (sdec count)) with
      | None => count
      | Some _ => countLoop f n (count + 1)
      end
  end.

Definition storageArrayCount (c : cfg) (prefix : bytes) : Z :=
  match navigatePath (root c) (stripDots prefix) with
  | None => 0
  | Some (JNode true l) => Zlen l
  | Some (JNode false l as n) => countLoop (S (length l)) n 0
  | Some _ => 0
  end.

(** ** Files *)

Definition markExternalsDeletedUnder (ext : list external_t) (keyOrPrefix : bytes) : list external_t :=
  let arg := stripDots keyOrPrefix in
  if Zlen arg =? 0 then ext
  else
    map (fun e => if streq (e_prefix e) arg || has_prefix (arg ++ [chr "."]) (e_prefix e)
                  then {| e_prefix := e_prefix e; e_path := e_path e; e_dirty := e_dirty e; e_pendingDelete := true |}
                  else e) ext.

(** The first external whose prefix is [path] marked dirty. *)
Fixpoint markDirty (ext : list external_t) (path : bytes) : option (list external_t) :=
  match ext with
  | [] => None
  | e :: rest =>
      if streq (e_prefix e) path
      then Some ({| e_prefix := e_prefix e; e_path := e_path e; e_dirty := true;
                    e_pendingDelete := e_pendingDelete e |} :: rest)
      else option_map (cons e) (markDirty rest path)
  end.

Fixpoint routePatchDirty (cap : Z) (path : bytes) (node : json) (st : list external_t * bool) {struct node}
    : list external_t * bool :=
  match (if 0 <? Zlen path then markDirty st.1 path else None) with
  | Some ext => (ext, st.2)
  | None =>
      match node with
      | JNode false l =>
          (fix each (l : kids) (st : list external_t * bool) {struct l} : list external_t * bool :=
            match l with
            | [] => st
            | (None, _) :: rest => each rest st
            | (Some name, child) :: rest =>
                let p := join_path path name in
                each rest (if cap <=? Zlen p then st else routePatchDirty cap p child st)
            end) l st
      | _ =>
          (st.1, st.2 || ((0 <? Zlen path) && (has_prefix ($ "s.") path || has_prefix ($ "secrets.") path)))
      end
  end.

Definition startSaveTimer (c : cfg) : cfg :=
  if savePending c then c
  else
    let d := storageGetInt c ($ "s.storage.flash_delay") 60 in
    with_timer c true (if d <? 1 then 1 else d).

(** ** Pass 2 *)

(** The string form of an op's value, for the structured stores. *)
Definition opString (o : parsed_op) : bytes :=
  if p_op o =? chr "D" then []
  else match p_val o with
       | None => []
       | Some (JStr s) => s
       | Some (JNum v) => sdec v
       | Some j => default [] (cJSON_PrintUnformatted j)
       end.

Definition same_value (cur val : json) : bool :=
  match val, cur with
  | JStr a, JStr b => streq b a
  | JNum a, JNum b => b =? a
  | _, _ => false
  end.

(** Pass 2 accumulates the patch, the changes, and whether a routed store is dirty. *)
Record pass2 := { p2_cfg : cfg; p2_patch : kids; p2_changes : list (bytes * bytes); p2_dirty : bool }.

Definition put_leaf (v : json) (l : kids) (leaf : bytes) : kids :=
  cJSON_AddItemToObject (cJSON_DeleteItemFromObject l leaf) leaf v.

Definition applyTree (st : pass2) (o : parsed_op) : pass2 :=
  let c := p2_cfg st in
  let put v := {| p2_cfg := c; p2_patch := (navigateOrCreate (p2_patch st) (p_key o) (put_leaf v)).1;
                  p2_changes := p2_changes st; p2_dirty := p2_dirty st |} in
  if p_op o =? chr "D" then
    let st := put JNull in
    {| p2_cfg := with_files c (markExternalsDeletedUnder (externals c) (p_key o)) (rootDirty c);
       p2_patch := p2_patch st; p2_changes := p2_changes st; p2_dirty := p2_dirty st |}
  else
    match p_val o with
    | None => st
    | Some v =>
        match navigatePath (root c) (p_key o) with
        | Some cur =>
            if (if p_op o =? chr "d" then is_leaf cur else same_value cur v) then st else put v
        | None => put v
        end
    end.

Definition is_sub_op (o : parsed_op) : bool :=
  (p_op o =? chr "+") || (p_op o =? chr "#") || (p_op o =? chr "-").

Definition applyOne (silent : bool) (st : pass2) (o : parsed_op) : pass2 :=
  if is_sub_op o then st
  else
    match sdbApplyOpLocked (db (p2_cfg st)) (p_op o) (p_key o) (opString o) silent with
    | Some (d, ch, dirty) =>
        {| p2_cfg := with_db (p2_cfg st) d; p2_patch := p2_patch st;
           p2_changes := p2_changes st ++ ch; p2_dirty := p2_dirty st || dirty |}
    | None => applyTree st o
    end.

Definition applySub (sender : option Z) (sb : list storage_sub_t) (o : parsed_op) : list storage_sub_t :=
  if p_op o =? chr "+" then subAdd sb sender (p_ptr o) (p_key o) false
  else if p_op o =? chr "#" then subAdd sb None (p_ptr o) (p_key o) true
  else if p_op o =? chr "-" then subRemove sb sender (p_ptr o) (p_key o)
  else sb.

(** What follows the loop of pass 2: the merge, the changes, the dirty marks and the
    save timer, the subscription ops, the notifications in order. *)
Definition finishOps (st : pass2) (silent : bool) (ops : list parsed_op) (sender storageHandle : option Z)
    : cfg * list notify :=
  let patch := JNode false (p2_patch st) in
  let c := with_root (p2_cfg st) (deepMerge patch (cfgRoot (p2_cfg st))) in
  let changes := p2_changes st ++ (if silent then [] else collectChanges 128 [] patch) in
  let c :=
    match cJSON_GetObjectItem patch ($ "s"), cJSON_GetObjectItem patch ($ "secrets") with
    | None, None => c
    | _, _ =>
        let '(ext, rd) := routePatchDirty 128 [] patch (externals c, rootDirty c) in
        startSaveTimer (with_files c ext rd)
    end in
  let c := if p2_dirty st then startSaveTimer c else c in
  let c := with_subs c (foldl (applySub sender) (subs c) ops) in
  (c, concat (map (fun ch => notifyChange storageHandle (subs c) ch.1 ch.2) changes)).

(** [storageApplyOps]: the new state, the notifications and, for a rejected list, the
    semaphores given at once; [None] for a read outside the list. *)
Definition storageApplyOps (c : cfg) (p : bytes) (sender storageHandle : option Z)
    : option (cfg * list notify * list Z) :=
  match p with
  | [] => Some (c, [], [])
  | flags :: body =>
      let silent := negb (Z.land flags OP_F_SILENT =? 0) in
      '(bad, ops, saves) ← parseOps (length body) (Zlen p) body;
      if bad : bool then Some (c, [], saves)
      else
        let st := foldl (applyOne silent) {| p2_cfg := c; p2_patch := []; p2_changes := []; p2_dirty := false |} ops in
        let '(c, notes) := finishOps st silent ops sender storageHandle in
        Some (with_sems c (pendingSaveSems c ++ saves), notes, [])
  end.

(** One bracket ([storageBegin]...[storageEnd]) or one single write: the op list is
    applied whole; an empty bracket sends nothing. *)
Definition commit (c : cfg) (silent : bool) (ops : list bytes) (sender storageHandle : option Z)
    : option (cfg * list notify) :=
  match concat ops with
  | [] => Some (c, [])
  | body =>
      '(c, n, _) ← storageApplyOps c ((if silent then OP_F_SILENT else 0) :: body) sender storageHandle;
      Some (c, n)
  end.

(** ** Defaults *)

Definition pathPresent (c : cfg) (key : bytes) : bool :=
  match navigatePath (root c) key with Some _ => true | None => false end.

(** [storageDefault] inside a bracket: the op it emits, and whether the key was unset. *)
Definition storageDefault (c : cfg) (key val : bytes) : list bytes * bool :=
  ([opAppendKV (chr "d") key val], negb (storageExists c key)).

(** [storageSetTree] inside a bracket. *)
Definition storageSetTree (key : bytes) (val : json) : list bytes :=
  match cJSON_PrintUnformatted val with
  | None => []
  | Some js => [opAppendKVJson (chr "S") key js]
  end.

(** [defaultTreeImpl]: the ops it emits into the open bracket, and its result. *)
Fixpoint defaultTreeImpl (c : cfg) (fullKey : bytes) (node : json) (atRoot : bool) {struct node} : list bytes * bool :=
  match node with
  | JNull | JBool _ => ([], false)
  | JNode false l =>
      (fix each (l : kids) {struct l} : list bytes * bool :=
        match l with
        | [] => ([], false)
        | (None, _) :: rest => each rest
        | (Some name, item) :: rest =>
            let childKey := trunc 128 (if atRoot then name else fullKey ++ [chr "."] ++ name) in
            let '(ops, w) := defaultTreeImpl c childKey item false in
            let '(ops', w') := each rest in
            (ops ++ ops', w || w')
        end) l
  | JNode true _ =>
      if atRoot then ([], false)
      else if pathPresent c fullKey then ([], false)
      else (storageSetTree fullKey (cJSON_Duplicate (None, node)).2, true)
  | JStr s => if atRoot then ([], false) else storageDefault c fullKey s
  | JNum v => if atRoot then ([], false) else storageDefault c fullKey (trunc 16 (sdec v))
  end.

(** [storageDefaultTree] inside an open bracket. *)
Definition storageDefaultTree (c : cfg) (prefix : bytes) (js : json) : list bytes * bool :=
  defaultTreeImpl c prefix js (Zlen prefix =? 0).

End Actor.
End Actor.
