(* ===== verification/ConfigTree.v ===== *)
(** * storage: what merging a patch means

    The laws of cJSON that the module relies on; the value of every key of an object
    and of every element of an array after [deepMerge]; reading along a path. *)

From stdpp Require Import gmap.
From S2P Require Import Prelude CLib Config.
Import Tree.
Open Scope Z_scope.
Open Scope spangap_scope.

(** ** cJSON *)

(** The value under the first child whose name matches. *)
Fixpoint kget (same : bytes -> bytes -> bool) (l : kids) (k : bytes) : option json :=
  match l with
  | [] => None
  | (Some n, v) :: r => if same n k then Some v else kget same r k
  | (None, _) :: r => kget same r k
  end.

Fixpoint kpos (same : bytes -> bytes -> bool) (l : kids) (k : bytes) : option nat :=
  match l with
  | [] => None
  | (Some n, v) :: r => if same n k then Some O else option_map S (kpos same r k)
  | (None, _) :: r => option_map S (kpos same r k)
  end.

(** Names are compared without regard to case, so that a string of digits matches only
    itself; adding appends, deleting unlinks the first match, a duplicate is the same
    item, name included. *)
Class CJsonLaws (CJ : CJson) := {
  cj_same : bytes -> bytes -> bool;
  cj_refl : forall a, cj_same a a = true;
  cj_sym : forall a b, cj_same a b = cj_same b a;
  cj_trans : forall a b c, cj_same a b = true -> cj_same b c = true -> cj_same a c = true;
  cj_digits : forall a b, isAllDigits a = true -> cj_same a b = true -> b = a;
  cj_find : forall l k, cJSON_find l k = kpos cj_same l k;
  cj_add : forall l k v, cJSON_AddItemToObject l k v = l ++ [(Some k, v)];
  cj_del : forall l k, cJSON_DeleteItemFromObject l k =
    match kpos cj_same l k with Some i => delete i l | None => l end;
  cj_arr_add : forall l c, cJSON_AddItemToArray l c = l ++ [c];
  cj_arr_del : forall l i, 0 <= i -> cJSON_DeleteItemFromArray l i = delete (Z.to_nat i) l;
  cj_arr_rep : forall l i c, 0 <= i < Zlen l -> cJSON_ReplaceItemInArray l i c = <[Z.to_nat i := c]> l;
  cj_dup : forall c, cJSON_Duplicate c = c
}.

Section Laws.
Context `{CJ : CJson} `{L : !CJsonLaws CJ}.
Notation oget := (kget cj_same).
Notation same := cj_same.

Lemma kpos_Some l k i : kpos same l k = Some i ->
  exists n v, l !! i = Some (Some n, v) /\ same n k = true /\ oget l k = Some v.
Proof.
  revert i. induction l as [|[[n|] v] l IH]; intros i; cbn [kpos kget]; [done| |].
  - destruct (same n k) eqn:E; [intros [= <-]; by exists n, v|].
    destruct (kpos same l k) as [j|]; [|done]. cbn. intros [= <-]. apply (IH j eq_refl).
  - destruct (kpos same l k) as [j|]; [|done]. cbn. intros [= <-]. apply (IH j eq_refl).
Qed.

Lemma kpos_None l k : kpos same l k = None -> oget l k = None.
Proof.
  induction l as [|[[n|] v] l IH]; cbn [kpos kget]; [done| |].
  - destruct (same n k); [done|]. destruct (kpos same l k); [done|]. by intros _; apply IH.
  - destruct (kpos same l k); [done|]. by intros _; apply IH.
Qed.

Lemma same_subst a b k : same a b = true -> same a k = same b k.
Proof.
  intros H. destruct (same a k) eqn:Ea, (same b k) eqn:Eb; try done.
  - rewrite cj_sym in H. by rewrite (cj_trans _ _ _ H Ea) in Eb.
  - by rewrite (cj_trans _ _ _ H Eb) in Ea.
Qed.

Lemma oget_same l k k' : same k k' = true -> oget l k = oget l k'.
Proof.
  intros H. induction l as [|[[n|] v] l IH]; cbn [kget]; [done| |done].
  rewrite (cj_sym n k), (cj_sym n k'), (same_subst _ _ n H). by destruct (same k' n).
Qed.

Lemma GetObjectItem_oget b l k : cJSON_GetObjectItem (JNode b l) k = oget l k.
Proof.
  unfold cJSON_GetObjectItem. rewrite cj_find. destruct (kpos same l k) as [i|] eqn:E.
  - destruct (kpos_Some _ _ _ E) as (n & v & Hl & _ & Ho). cbn. by rewrite Hl, Ho.
  - cbn. by rewrite (kpos_None _ _ E).
Qed.

(** Names pairwise different: an object as a map. *)
Fixpoint uniq (l : kids) : Prop :=
  match l with
  | [] => True
  | (Some n, _) :: r => oget r n = None /\ uniq r
  | (None, _) :: r => uniq r
  end.

Lemma oget_app l r k : oget (l ++ r) k = match oget l k with Some v => Some v | None => oget r k end.
Proof. induction l as [|[[n|] v] l IH]; cbn [kget app]; [done| |done]. by destruct (same n k). Qed.

Lemma uniq_snoc l k v : uniq l -> oget l k = None -> uniq (l ++ [(Some k, v)]).
Proof.
  induction l as [|[[n|] w] l IH]; cbn [uniq kget app]; [done| |done].
  intros [H1 H2]. destruct (same n k) eqn:E; [done|]. intros H3. split; [|by apply IH].
  rewrite oget_app, H1. cbn [kget]. rewrite cj_sym, E. done.
Qed.

Lemma oget_set l k i n v w k' : kpos same l k = Some i -> l !! i = Some (n, v) ->
  oget (<[i := (n, w)]> l) k' = if same k k' then Some w else oget l k'.
Proof.
  revert i. induction l as [|[[m|] x] l IH]; intros i; cbn [kpos]; [done| |].
  - destruct (same m k) eqn:E.
    + intros [= <-]. cbn. intros [= <- <-]. cbn [kget]. rewrite (same_subst _ _ k' E). by destruct (same k k').
    + destruct (kpos same l k) as [j|] eqn:Ej; [|done]. cbn. intros [= <-] Hl.
      change (<[S j := (n, w)]> ((Some m, x) :: l)) with ((Some m, x) :: <[j := (n, w)]> l). cbn [kget].
      rewrite (IH j eq_refl Hl). destruct (same k k') eqn:E'; [|done].
      rewrite (cj_sym m k'), <- (same_subst _ _ m E'), cj_sym, E. done.
  - destruct (kpos same l k) as [j|] eqn:Ej; [|done]. cbn. intros [= <-] Hl. by apply (IH j).
Qed.

Lemma oget_delete l k i k' : uniq l -> kpos same l k = Some i ->
  oget (delete i l) k' = if same k k' then None else oget l k'.
Proof.
  revert i. induction l as [|[[m|] x] l IH]; intros i; cbn [kpos uniq]; [done| |].
  - intros [H1 H2]. destruct (same m k) eqn:E.
    + intros [= <-]. cbn [delete list_delete kget]. rewrite (same_subst _ _ k' E).
      destruct (same k k') eqn:E'; [|done]. rewrite <- (oget_same l m k'); [done|]. by apply cj_trans with k.
    + destruct (kpos same l k) as [j|] eqn:Ej; [|done]. cbn [option_map]. intros [= <-].
      change (delete (S j) ((Some m, x) :: l)) with ((Some m, x) :: delete j l). cbn [kget].
      rewrite (IH j H2 eq_refl). destruct (same k k') eqn:E'; [|done].
      rewrite (cj_sym m k'), <- (same_subst _ _ m E'), cj_sym, E. done.
  - intros H2. destruct (kpos same l k) as [j|] eqn:Ej; [|done]. cbn. intros [= <-]. by apply IH.
Qed.

Lemma uniq_set l i n v w : uniq l -> l !! i = Some (n, v) -> uniq (<[i := (n, w)]> l).
Proof.
  assert (forall l i n v w k, l !! i = Some (n, v) -> oget l k = None -> oget (<[i := (n, w)]> l) k = None) as Hn.
  { clear. induction l as [|[[m|] x] l IH]; intros i n v w k; [done| |]; destruct i as [|i]; cbn.
    - intros [= <- <-]. by destruct (same m k).
    - intros Hl. destruct (same m k); [done|]. by apply IH with v.
    - by intros [= <- <-].
    - by apply IH. }
  revert i. induction l as [|[[m|] x] l IH]; intros i; [done| |]; destruct i as [|i]; cbn.
  - intros [H1 H2] [= <- <-]. done.
  - intros [H1 H2] Hl. split; [by apply Hn with v|by apply IH].
  - intros H2 [= <- <-]. done.
  - intros H2 Hl. by apply IH.
Qed.

Lemma uniq_delete l i : uniq l -> uniq (delete i l).
Proof.
  assert (forall l i k, oget l k = None -> oget (delete i l) k = None) as Hn.
  { clear. induction l as [|[[m|] x] l IH]; intros i k; [by destruct i| |]; destruct i as [|i]; cbn.
    - by destruct (same m k).
    - destruct (same m k); [done|]. apply IH.
    - done.
    - apply IH. }
  revert i. induction l as [|[[m|] x] l IH]; intros i; [by destruct i| |]; destruct i as [|i]; cbn.
  - by intros [_ H].
  - intros [H1 H2]. split; [by apply Hn|by apply IH].
  - done.
  - apply IH.
Qed.

Lemma del_spec l k : uniq l ->
  (forall k', oget (cJSON_DeleteItemFromObject l k) k' = if same k k' then None else oget l k') /\
  uniq (cJSON_DeleteItemFromObject l k).
Proof.
  intros Hu. rewrite cj_del. destruct (kpos same l k) as [i|] eqn:E.
  - split; [intros k'; by apply oget_delete|by apply uniq_delete].
  - split; [|done]. intros k'. destruct (same k k') eqn:Es; [|done]. rewrite <- (oget_same _ _ _ Es). by apply kpos_None.
Qed.

Lemma replace_spec l k v : uniq l ->
  let l' := cJSON_AddItemToObject (cJSON_DeleteItemFromObject l k) k v in
  (forall k', oget l' k' = if same k k' then Some v else oget l k') /\ uniq l'.
Proof.
  intros Hu. destruct (del_spec l k Hu) as [Hd Hu']. cbn zeta. rewrite cj_add. split.
  - intros k'. rewrite oget_app, Hd. cbn [kget]. destruct (same k k'); [done|]. by destruct (oget l k').
  - apply uniq_snoc; [done|]. by rewrite Hd, cj_refl.
Qed.

(** ** One level of the merge *)

(** What becomes of the value under a name when the patch holds [item] for it. *)
Definition merge1 (dm : json -> kids -> kids) (item : json) (old : option json) : option json :=
  match item with
  | JNull => None
  | JNode false sub =>
      match old with
      | Some (JNode false cl) => Some (JNode false (dm item cl))
      | Some (JNode true cl) =>
          if allNumericKeys item then Some (JNode true (deepMergeIntoArray dm cl sub)) else Some item
      | _ => Some item
      end
  | _ => Some item
  end.

Lemma item_step_spec dm dl name item : uniq dl ->
  (forall k, oget (item_step dm dl (Some name, item)) k =
    if same name k then merge1 dm item (oget dl name) else oget dl k) /\
  uniq (item_step dm dl (Some name, item)).
Proof.
  intros Hu. pose proof (replace_spec dl name item Hu) as Hrep. cbn zeta in Hrep. pose proof (del_spec dl name Hu) as Hdel.
  unfold item_step. rewrite !cj_dup. cbn [snd].
  destruct item as [|b|v|s|[|] sub]; cbn [merge1]; try exact Hrep; [exact Hdel|].
  rewrite cj_find. destruct (kpos same dl name) as [i|] eqn:Ep.
  - destruct (kpos_Some _ _ _ Ep) as (n & v & Hl & Hs & Ho). rewrite Hl, Ho.
    destruct v as [|b|x|x|[|] cl]; try exact Hrep.
    + destruct (allNumericKeys (JNode false sub)); [|exact Hrep].
      split; [intros k; by apply (oget_set _ _ _ _ _ _ _ Ep Hl)|by apply uniq_set with (JNode true cl)].
    + split; [intros k; by apply (oget_set _ _ _ _ _ _ _ Ep Hl)|by apply uniq_set with (JNode false cl)].
  - pose proof (kpos_None _ _ Ep) as Ho. rewrite Ho, cj_add. split; [|by apply uniq_snoc].
    intros k. rewrite oget_app. cbn [kget]. destruct (same name k) eqn:E; [|by destruct (oget dl k)].
    by rewrite <- (oget_same _ _ _ E), Ho.
Qed.

Lemma items_spec dm sl dl : uniq sl -> uniq dl ->
  (forall k, oget (fold_left (item_step dm) sl dl) k =
    match oget sl k with None => oget dl k | Some item => merge1 dm item (oget dl k) end) /\
  uniq (fold_left (item_step dm) sl dl).
Proof.
  revert dl. induction sl as [|[[n|] v] sl IH]; intros dl Hs Hd; cbn [fold_left kget uniq] in *; [done| |by apply IH].
  destruct Hs as [Hn Hs]. destruct (item_step_spec dm dl n v Hd) as [E Hu]. destruct (IH _ Hs Hu) as [E' Hu'].
  split; [|done]. intros k. rewrite E', E. destruct (same n k) eqn:En; [|done].
  rewrite <- (oget_same sl _ _ En), Hn. by rewrite (oget_same dl _ _ En).
Qed.

Lemma merge_spec b sl dl : uniq sl -> uniq dl ->
  (forall k, oget (deepMerge (JNode b sl) dl) k =
    match oget sl k with None => oget dl k | Some item => merge1 deepMerge item (oget dl k) end) /\
  uniq (deepMerge (JNode b sl) dl).
Proof. apply items_spec. Qed.

(** ** Arrays *)

Definition aval (l : kids) (i : Z) : option json := if i <? 0 then None else snd <$> l !! Z.to_nat i.

Definition emerge (dm : json -> kids -> kids) (it : json) (old : option json) : json :=
  match it, old with
  | JNode false _, Some (JNode false ecl) => JNode false (dm it ecl)
  | _, _ => it
  end.

Lemma padNulls_ok al idx : padNulls al idx = al ++ replicate (Z.to_nat (idx - Zlen al)) (None, JNull).
Proof.
  unfold padNulls. generalize (Z.to_nat (idx - Zlen al)) as n. induction n as [|n IH]; [by rewrite app_nil_r|].
  rewrite Nat.iter_succ, IH, cj_arr_add, <- app_assoc.
  change [(@None bytes, JNull)] with (replicate 1 (@None bytes, JNull)). rewrite <- replicate_add.
  f_equal. f_equal. lia.
Qed.

Lemma aval_insert al i c j : 0 <= i < Zlen al ->
  aval (<[Z.to_nat i := c]> al) j = if j =? i then Some c.2 else aval al j.
Proof.
  intros Hi. unfold aval. destruct (Z.ltb_spec j 0) as [Hj|Hj].
  - rewrite (proj2 (Z.eqb_neq _ _)); [done|lia].
  - destruct (Z.eqb_spec j i) as [->|Hne].
    + rewrite list_lookup_insert_eq; [done|]. unfold Zlen in Hi. lia.
    + rewrite list_lookup_insert_ne by lia. done.
Qed.

Lemma elem_step_spec dm al nm it : it <> JNull -> 0 <= atoi (default [] nm) ->
  let idx := atoi (default [] nm) in
  let al' := elem_step dm al (nm, it) in
  Zlen al' = Z.max (Zlen al) (idx + 1) /\
  forall j, 0 <= j -> aval al' j =
    if j =? idx then Some (emerge dm it (aval al idx))
    else match aval al j with Some v => Some v | None => if j <? idx then Some JNull else None end.
Proof.
  intros Hn Hi. cbn zeta. set (idx := atoi (default [] nm)) in *.
  assert (elem_step dm al (nm, it) = if idx <? Zlen al then
        match it, al !! Z.to_nat idx with
        | JNode false _, Some (en, JNode false ecl) => <[Z.to_nat idx := (en, JNode false (dm it ecl))]> al
        | _, _ => <[Z.to_nat idx := (nm, it)]> al
        end else (al ++ replicate (Z.to_nat (idx - Zlen al)) (None, JNull)) ++ [(nm, it)]) as ->.
  { unfold elem_step. destruct it as [|b|v|s|[|] sub]; [done|..]; fold idx; rewrite !cj_dup, padNulls_ok, cj_arr_add;
      (destruct (Z.ltb_spec idx (Zlen al)); [by rewrite ?cj_arr_rep by lia|done]). }
  destruct (Z.ltb_spec idx (Zlen al)) as [Hlt|Hge].
  - assert (exists c, (match it, al !! Z.to_nat idx with
        | JNode false _, Some (en, JNode false ecl) => <[Z.to_nat idx := (en, JNode false (dm it ecl))]> al
        | _, _ => <[Z.to_nat idx := (nm, it)]> al end) = <[Z.to_nat idx := c]> al /\ c.2 = emerge dm it (aval al idx)) as (c & -> & Hc).
    { unfold emerge, aval. rewrite (proj2 (Z.ltb_ge idx 0)) by lia.
      destruct (al !! Z.to_nat idx) as [[en e]|]; cbn [fmap option_fmap option_map snd].
      - destruct it as [| | | |[|] ?]; try (eexists; split; [done|done]).
        destruct e as [| | | |[|] ?]; eexists; split; done.
      - destruct it as [| | | |[|] ?]; eexists; split; done. }
    split; [unfold Zlen in *; rewrite length_insert; lia|]. intros j Hj. rewrite aval_insert, Hc by lia.
    destruct (Z.eqb_spec j idx); [done|]. unfold aval. rewrite (proj2 (Z.ltb_ge j 0)) by lia.
    destruct (al !! Z.to_nat j) eqn:Ej; [done|]. apply lookup_ge_None_1 in Ej. cbn.
    rewrite (proj2 (Z.ltb_ge _ _)); [done|]. unfold Zlen in *. lia.
  - assert (aval al idx = None) as Ha.
    { unfold aval. rewrite (proj2 (Z.ltb_ge idx 0)) by lia. rewrite lookup_ge_None_2; [done|]. unfold Zlen in *. lia. }
    rewrite !Zlen_app, Zlen_replicate, Zlen_cons, Zlen_nil. split; [lia|]. intros j Hj. rewrite Ha.
    assert (emerge dm it None = it) as -> by (by destruct it as [| | | |[|] ?]).
    unfold aval. rewrite (proj2 (Z.ltb_ge j 0)) by lia. rewrite <- app_assoc.
    destruct (decide (Z.to_nat j < length al)%nat) as [Hjl|Hjl].
    { rewrite lookup_app_l by done. rewrite (proj2 (Z.eqb_neq _ _)) by (unfold Zlen in *; lia).
      destruct (lookup_lt_is_Some_2 al _ Hjl) as [c ->]. done. }
    rewrite lookup_app_r by lia. rewrite (lookup_ge_None_2 al) by lia. cbn [fmap option_fmap option_map].
    destruct (Z.ltb_spec j idx) as [Hji|Hji].
    + rewrite lookup_app_l by (rewrite length_replicate; unfold Zlen in *; lia).
      rewrite lookup_replicate_2 by (unfold Zlen in *; lia). by rewrite (proj2 (Z.eqb_neq _ _)) by lia.
    + rewrite lookup_app_r by (rewrite length_replicate; unfold Zlen in *; lia). rewrite length_replicate.
      destruct (Z.eqb_spec j idx) as [->|Hne].
      * replace (Z.to_nat idx - length al - Z.to_nat (idx - Zlen al))%nat with 0%nat by (unfold Zlen in *; lia). done.
      * rewrite lookup_ge_None_2; [done|]. cbn [length]. unfold Zlen in *. lia.
Qed.

(** The patch's element for index [j]. *)
Fixpoint pidx (sub : kids) (j : Z) : option json :=
  match sub with
  | [] => None
  | c :: r => if child_index c =? j then Some c.2 else pidx r j
  end.

(** A patch for an array: indices apart, nothing deleted. *)
Fixpoint arr_patch (sub : kids) : Prop :=
  match sub with
  | [] => True
  | c :: r => c.2 <> JNull /\ 0 <= child_index c /\ pidx r (child_index c) = None /\ arr_patch r
  end.

Lemma no_deletions sub al : arr_patch sub -> applyDeletions al (deletions sub) = al.
Proof.
  intros H. assert (List.filter (fun c : option bytes * json => is_null c.2) sub = []) as E.
  { induction sub as [|c r IH]; [done|]. destruct H as (Hn & _ & _ & H). cbn. destruct (is_null c.2) eqn:E; [|by apply IH].
    by destruct c.2. }
  unfold deletions. by rewrite E.
Qed.

Lemma emerge_leaf dm it v : (forall l, v <> JNode false l) -> emerge dm it (Some v) = emerge dm it None.
Proof. intros H. destruct it as [| | | |[|] ?]; try done. destruct v as [| | | |[|] l]; try done. by destruct (H l). Qed.

Lemma elems_spec dm sub al : arr_patch sub -> forall j, 0 <= j ->
  match pidx sub j with
  | Some it => aval (fold_left (elem_step dm) sub al) j = Some (emerge dm it (aval al j))
  | None => match aval al j with
            | Some v => aval (fold_left (elem_step dm) sub al) j = Some v
            | None => aval (fold_left (elem_step dm) sub al) j = None \/ aval (fold_left (elem_step dm) sub al) j = Some JNull
            end
  end.
Proof.
  revert al. induction sub as [|[nm it] sub IH]; intros al Hp j Hj; cbn [pidx fold_left].
  - destruct (aval al j); auto.
  - destruct Hp as (Hn & Hi & Hd & Hp). cbn [snd child_index fst] in *. unfold child_index in Hi, Hd |- *. cbn [fst] in *.
    destruct (elem_step_spec dm al nm it Hn Hi) as [_ E]. specialize (IH (elem_step dm al (nm, it)) Hp j Hj).
    specialize (E j Hj). destruct (Z.eqb_spec (atoi (default [] nm)) j) as [<-|Hne].
    + rewrite Hd in IH. rewrite Z.eqb_refl in E. by rewrite E in IH.
    + rewrite (proj2 (Z.eqb_neq _ _)) in E by lia.
      destruct (pidx sub j) as [it'|]; [|destruct (aval al j) as [v|]; rewrite E in IH; [done|destruct (j <? _); auto]].
      rewrite IH, E. destruct (aval al j) as [v|]; [done|]. destruct (j <? _); [|done]. by rewrite emerge_leaf.
Qed.

(** ** Reading along a path *)

Definition step (n : json) (s : bytes) : option json :=
  if cJSON_IsArray n && isAllDigits s then cJSON_GetArrayItem n (atoi s) else cJSON_GetObjectItem n s.

Fixpoint navS (n : option json) (ss : list bytes) : option json :=
  match ss with
  | [] => n
  | s :: r => navS (n ← n; step n s) r
  end.

Lemma navS_None ss : navS None ss = None.
Proof. induction ss; [done|]. cbn. done. Qed.

Lemma step_object l s : step (JNode false l) s = oget l s.
Proof. unfold step. cbn [cJSON_IsArray andb]. apply GetObjectItem_oget. Qed.

Lemma step_array l s : step (JNode true l) s = if isAllDigits s then aval l (atoi s) else oget l s.
Proof. unfold step. cbn [cJSON_IsArray andb]. destruct (isAllDigits s); [done|apply GetObjectItem_oget]. Qed.

(** Trees: names in objects apart, elements of arrays unnamed or named by digits. *)
Fixpoint wfj (n : json) : Prop :=
  match n with
  | JNode b l =>
      (if b then Forall (fun c => match c.1 with Some s => isAllDigits s = true | None => True end) l else uniq l) /\
      (fix all (l : kids) : Prop := match l with [] => True | c :: r => wfj c.2 /\ all r end) l
  | _ => True
  end.

(** The value a patch holds at a path. *)
Fixpoint plook (item : json) (ss : list bytes) : option json :=
  match ss with
  | [] => Some item
  | s :: r => match item with JNode false l => it ← oget l s; plook it r | _ => None end
  end.

(** A patch to be merged: objects with names apart; one with only numeric names is a
    patch for an array too. *)
Fixpoint pok (n : json) : Prop :=
  match n with
  | JNode false l =>
      uniq l /\ (allNumericKeys n = true -> arr_patch l) /\
      (fix all (l : kids) : Prop := match l with [] => True | c :: r => pok c.2 /\ all r end) l
  | _ => True
  end.

Lemma all_oget (P : json -> Prop) l k v :
  (fix all (l : kids) : Prop := match l with [] => True | c :: r => P c.2 /\ all r end) l -> oget l k = Some v -> P v.
Proof.
  induction l as [|[[n|] w] l IH]; cbn [kget]; [done| |]; intros [H1 H2]; [|by apply IH].
  destruct (same n k); [by intros [= <-]|by apply IH].
Qed.

Lemma pok_oget l k v : pok (JNode false l) -> oget l k = Some v -> pok v.
Proof. intros (_ & _ & H). by apply all_oget. Qed.

Lemma wfj_oget l k v : wfj (JNode false l) -> oget l k = Some v -> wfj v.
Proof. intros [_ H]. by apply all_oget. Qed.

Lemma wfj_aval l j v : wfj (JNode true l) -> aval l j = Some v -> wfj v.
Proof.
  intros [_ H] Hv. unfold aval in Hv. destruct (j <? 0); [done|]. revert Hv. generalize (Z.to_nat j). clear j.
  induction l as [|c l IH]; [done|]. destruct H as [H1 H2]. intros [|i]; cbn; [by intros [= <-]|by apply IH].
Qed.

(** Under an all-numeric patch, a name and its index are the same key. *)
Lemma pidx_oget l s : allNumericKeys (JNode false l) = true -> arr_patch l ->
  forall v, oget l s = Some v -> isAllDigits s = true /\ pidx l (atoi s) = Some v.
Proof.
  intros Hn Hp v. assert (forallb numericName l = true) as Hall
    by (destruct l; [done|exact Hn]).
  clear Hn. revert Hall Hp. induction l as [|[[n|] w] l IH]; [done| |done].
  cbn [forallb]. unfold numericName at 1. cbn [fst]. intros [Hd Hn]%andb_true_iff (_ & _ & Hx & Hp). cbn [kget pidx child_index fst default] in *.
  unfold child_index in *. cbn [fst default from_option] in *.
  destruct (same n s) eqn:E; [intros [= <-]|].
  - pose proof (cj_digits _ _ Hd E) as ->. by rewrite Z.eqb_refl.
  - intros Ho. destruct (IH Hn Hp Ho) as [H1 H2]. split; [done|].
    destruct (Z.eqb_spec (atoi (id n)) (atoi s)) as [Ee|]; [|done]. rewrite Ee, H2 in Hx. done.
Qed.

Definition is_prim (v : json) : Prop := match v with JNum _ | JStr _ | JBool _ => True | _ => False end.

Lemma plook_nav item ss v : plook item ss = Some v -> navS (Some item) ss = Some v.
Proof.
  revert item. induction ss as [|s r IH]; intros item; cbn [plook navS]; [done|].
  destruct item as [| | | |[|] l]; try done. cbn [mbind option_bind]. rewrite step_object.
  destruct (oget l s) as [it|]; [|done]. apply IH.
Qed.

(** What a patch holds at a path is what the merged tree holds there. *)
Lemma merge_holds ss : forall item old v, pok item -> match old with Some o => wfj o | None => True end ->
  plook item ss = Some v -> is_prim v ->
  navS (merge1 deepMerge item old) ss = Some v /\ navS (Some (emerge deepMerge item old)) ss = Some v.
Proof.
  induction ss as [|s r IH]; intros item old v Hp Ho Hl Hv.
  - cbn in Hl. injection Hl as ->. by destruct v.
  - pose proof (plook_nav _ _ _ Hl) as Hself. cbn [plook] in Hl. destruct item as [| | | |[|] sub]; try done.
    destruct (oget sub s) as [it|] eqn:Eo; [|done]. cbn [mbind option_bind] in Hl. pose proof (pok_oget _ _ _ Hp Eo) as Hpi.
    destruct Hp as (Hu & Ha & _).
    assert (forall cl, wfj (JNode false cl) -> navS (Some (JNode false (deepMerge (JNode false sub) cl))) (s :: r) = Some v) as Hobj.
    { intros cl Hcl. cbn [navS mbind option_bind]. rewrite step_object.
      destruct (merge_spec false sub cl Hu) as [E _]; [apply Hcl|]. rewrite E, Eo.
      apply IH; try done. destruct (oget cl s) eqn:Es; [|done]. by apply (wfj_oget cl s). }
    destruct old as [[| | | |[|] cl]|]; cbn [merge1 emerge]; try (split; exact Hself); [|split; by apply Hobj].
    split; [|exact Hself]. destruct (allNumericKeys (JNode false sub)) eqn:En; [|exact Hself].
    specialize (Ha eq_refl). destruct (pidx_oget sub s En Ha it Eo) as [Hd Hx].
    cbn [navS mbind option_bind]. rewrite step_array, Hd. unfold deepMergeIntoArray. rewrite no_deletions by done.
    assert (0 <= atoi s) as Hs.
    { clear -Hx Ha. induction sub as [|c l IH]; [done|]. destruct Ha as (_ & H0 & _ & Ha). cbn [pidx] in Hx.
      destruct (Z.eqb_spec (child_index c) (atoi s)) as [<-|]; [done|by apply IH]. }
    pose proof (elems_spec deepMerge sub cl Ha (atoi s) Hs) as E. rewrite Hx in E. rewrite E.
    apply IH; try done. destruct (aval cl (atoi s)) eqn:Es; [|done]. by apply (wfj_aval cl (atoi s)).
Qed.

(** ** What a patch does not touch *)

(** The string a reader gets. *)
Definition lval (n : option json) : option bytes :=
  match n with Some (JStr s) => Some s | Some (JNum v) => Some (sdec v) | _ => None end.

(** The patch leaves the path alone: somewhere along it the patch has no such key. An
    array on the way is patched element by element. *)
Fixpoint pfree (item : json) (old : option json) (ss : list bytes) : Prop :=
  match ss, item with
  | s :: r, JNode false sub =>
      match old with
      | Some (JNode true cl) =>
          allNumericKeys item = true /\
          (if isAllDigits s then
             match pidx sub (atoi s) with
             | None => True
             | Some it => (match aval cl (atoi s) with Some (JNode true _) => False | _ => True end) /\
                          pfree it (aval cl (atoi s)) r
             end
           else True)
      | Some (JNode false cl) => match oget sub s with None => True | Some it => pfree it (oget cl s) r end
      | _ => match oget sub s with None => True | Some it => pfree it None r end
      end
  | _, _ => False
  end.

Definition digit_names (l : kids) : Prop :=
  Forall (fun c => match c.1 with Some s => isAllDigits s = true | None => True end) l.

Lemma oget_digit_names l s : digit_names l -> isAllDigits s = false -> oget l s = None.
Proof.
  intros H Hs. induction H as [|[[n|] v] l Hn _ IH]; cbn [kget]; [done| |done].
  destruct (same n s) eqn:E; [|done]. cbn in Hn. rewrite (cj_digits _ _ Hn E) in Hs. congruence.
Qed.

Lemma elems_digit_names dm sub al : forallb numericName sub = true -> arr_patch sub -> digit_names al ->
  digit_names (fold_left (elem_step dm) sub al).
Proof.
  revert al. induction sub as [|[nm it] sub IH]; intros al Hn Hp Ha; [done|]. cbn [fold_left forallb] in *.
  apply andb_true_iff in Hn as [Hd Hn]. destruct Hp as (Hnn & Hi & _ & Hp). apply IH; [done|done|].
  unfold numericName in Hd. cbn [fst snd] in *. unfold child_index in Hi. cbn [fst] in Hi.
  destruct nm as [n|]; [|done]. assert (match Some n with Some s => isAllDigits s = true | None => True end) as Hc by exact Hd.
  assert (forall i c, match c.1 with Some s => isAllDigits s = true | None => True end -> digit_names (<[i := c]> al)) as Hins
    by (intros i c H; by apply Forall_insert).
  unfold elem_step. destruct it as [|b|v|s|[|] l]; [done|..]; cbn [default from_option] in *;
    (destruct (Z.ltb_spec (atoi (id n)) (Zlen al));
      [|rewrite cj_dup, padNulls_ok, cj_arr_add; apply Forall_app; split;
         [apply Forall_app; split; [done|by apply Forall_replicate]|by constructor]]);
    rewrite ?cj_dup, ?cj_arr_rep by lia; try (by apply Hins).
  destruct (al !! Z.to_nat (atoi (id n))) as [[en e]|] eqn:E; [|by apply Hins].
  assert (match en with Some s => isAllDigits s = true | None => True end) as He
    by (exact (proj1 (Forall_lookup _ _) Ha _ _ E)).
  destruct e as [| | | |[|] ?]; apply Hins; done.
Qed.

Lemma lval_nav_leaf n s r : (forall b l, n <> Some (JNode b l)) -> lval (navS n (s :: r)) = None.
Proof.
  intros H. assert ((x ← n; step x s) = None) as E.
  { destruct n as [[| | | |b l]|]; try done. by destruct (H b l). }
  cbn [navS]. by rewrite E, navS_None.
Qed.

Lemma merge_frame ss : forall item old, pok item -> match old with Some o => wfj o | None => True end ->
  pfree item old ss ->
  lval (navS (merge1 deepMerge item old) ss) = lval (navS old ss) /\
  ((forall l, old <> Some (JNode true l)) -> lval (navS (Some (emerge deepMerge item old)) ss) = lval (navS old ss)).
Proof.
  induction ss as [|s r IH]; intros item old Hp Ho Hf; [done|].
  cbn [pfree] in Hf. destruct item as [| | | |[|] sub]; try done. pose proof Hp as (Hu & Ha & _).
  assert ((forall b l, old <> Some (JNode b l)) -> match oget sub s with None => True | Some it => pfree it None r end ->
    lval (navS (Some (JNode false sub)) (s :: r)) = lval (navS old (s :: r))) as Hnew.
  { intros Hl Hf'. rewrite (lval_nav_leaf old) by done. cbn [navS mbind option_bind]. rewrite step_object.
    destruct (oget sub s) as [it|] eqn:Eo; [|by rewrite navS_None].
    destruct (IH it None (pok_oget _ _ _ Hp Eo) I Hf') as [H1 _]. rewrite navS_None in H1.
    assert (merge1 deepMerge it None = Some it) as E.
    { destruct r, it as [| | | |[|] ?]; done. }
    by rewrite E in H1. }
  destruct old as [[| | | |[|] cl]|]; cbn [merge1 emerge]; try (split; [|intros _]; by apply Hnew).
  - destruct Hf as [Hn Hf]. rewrite Hn. split; [|intros Hx; by destruct (Hx cl)]. specialize (Ha Hn). unfold deepMergeIntoArray.
    rewrite no_deletions by done. cbn [navS mbind option_bind]. rewrite !step_array.
    destruct (isAllDigits s) eqn:Hd.
    + destruct (Z.leb_spec 0 (atoi s)) as [Hs|Hs].
      2: { unfold aval. rewrite (proj2 (Z.ltb_lt _ _)) by lia. done. }
      pose proof (elems_spec deepMerge sub cl Ha (atoi s) Hs) as E. destruct (pidx sub (atoi s)) as [it|] eqn:Ei.
      * rewrite E. destruct Hf as [Hna Hf]. apply IH; [|destruct (aval cl (atoi s)) eqn:Ea; [by apply (wfj_aval cl (atoi s))|done]|done|].
        { clear -Ei Hp. destruct Hp as (_ & _ & H). induction sub as [|c l IHl]; [done|]. destruct H as [H1 H2]. cbn [pidx] in Ei.
          destruct (_ =? _); [by injection Ei as <-|by apply IHl]. }
        intros l El. by rewrite El in Hna.
      * destruct (aval cl (atoi s)) as [v|]; [by rewrite E|]. rewrite navS_None. destruct E as [->| ->]; [by rewrite navS_None|].
        destruct r; [done|]. by rewrite (lval_nav_leaf (Some JNull)).
    + assert (forallb numericName sub = true) as Hall by (destruct sub; [done|exact Hn]).
      destruct Ho as [Hdn _]. rewrite !oget_digit_names; [done|done|done| |done]. by apply elems_digit_names.
  - assert (lval (navS (Some (JNode false (deepMerge (JNode false sub) cl))) (s :: r)) = lval (navS (Some (JNode false cl)) (s :: r))) as H.
    { cbn [navS mbind option_bind]. rewrite !step_object. destruct (merge_spec false sub cl Hu) as [E _]; [apply Ho|]. rewrite E.
      destruct (oget sub s) as [it|] eqn:Eo; [|done]. apply IH; [by apply (pok_oget sub s)| |done].
      destruct (oget cl s) eqn:Es; [|done]. by apply (wfj_oget cl s). }
    by split.
Qed.
End Laws.
