(* ===== verification/ConfigOps.v ===== *)
(** * storage: op lists, types of values, and the subscription table *)

From stdpp Require Import gmap.
From S2P Require Import Prelude CLib Config.
Import Tree Ops Subs.
Open Scope Z_scope.
Open Scope spangap_scope.

(** ** Type inference *)

Definition dfold (p : bytes) (a : Z) : Z := fold_left (fun a c => a * 10 + (c - 48)) p a.

Lemma dval_dfold p : dval p = dfold p 0.
Proof. done. Qed.

Lemma isdigit_range c : isdigit c = true <-> 48 <= c <= 57.
Proof. unfold isdigit. rewrite andb_true_iff, !Z.leb_le. done. Qed.

Lemma dfold_ge p a : 0 <= a -> Forall (fun c => isdigit c = true) p -> a <= dfold p a.
Proof.
  intros Ha H. revert a Ha. induction H as [|c p Hc _ IH]; intros a Ha; [unfold dfold; cbn; lia|].
  apply isdigit_range in Hc. change (dfold (c :: p) a) with (dfold p (a * 10 + (c - 48))).
  specialize (IH (a * 10 + (c - 48)) ltac:(lia)). lia.
Qed.

Lemma inferLoop_ok p acc a : INT32_MIN <= acc <= 0 ->
  inferLoop p acc = Some a <->
  Forall (fun c => isdigit c = true) p /\ a = - dfold p (- acc) /\ INT32_MIN <= a.
Proof.
  unfold INT32_MIN. revert acc. induction p as [|c p IH]; intros acc Ha; cbn [inferLoop].
  - change (dfold [] (- acc)) with (- acc). split; [intros [= <-]; split; [constructor|lia]|]. intros (_ & -> & _). f_equal. lia.
  - change (dfold (c :: p) (- acc)) with (dfold p (- acc * 10 + (c - 48))). unfold INT32_MIN.
    destruct (isdigit c) eqn:Hc.
    + apply isdigit_range in Hc. rewrite (proj2 (Z.ltb_ge c 48)), (proj2 (Z.ltb_ge 57 c)) by lia. cbn [orb].
      assert (acc < (- 2 ^ 31 + (c - 48)) ÷ 10 <-> acc * 10 - (c - 48) < - 2 ^ 31) as Hq.
      { rewrite <- (Z.opp_involutive (- 2 ^ 31 + (c - 48))), Z.quot_opp_l by lia. rewrite Z.quot_div_nonneg by lia.
        Z.to_euclidean_division_equations. lia. }
      destruct (Z.ltb_spec acc ((- 2 ^ 31 + (c - 48)) ÷ 10)) as [Hlt|Hge].
      * split; [done|]. intros (Hd & -> & Hr). apply Forall_cons in Hd as [_ Hd].
        pose proof (dfold_ge p (- acc * 10 + (c - 48)) ltac:(lia) Hd). lia.
      * rewrite IH by lia. replace (- (acc * 10 - (c - 48))) with (- acc * 10 + (c - 48)) by lia.
        rewrite Forall_cons. rewrite isdigit_range. naive_solver.
    + assert ((c <? 48) || (57 <? c) = true) as ->.
      { destruct (Z.ltb_spec c 48), (Z.ltb_spec 57 c); try done. rewrite (proj2 (isdigit_range c)) in Hc; [done|lia]. }
      split; [done|]. intros (Hd & _). apply Forall_cons in Hd as [Hd _]. congruence.
Qed.

(** The text of an integer: an optional minus sign and digits. *)
Definition int_text (neg : bool) (ds : bytes) : bytes := (if neg then [45] else []) ++ ds.
Definition int_value (neg : bool) (ds : bytes) : Z := if neg then - dval ds else dval ds.

Lemma inferType_int neg ds : ds <> [] -> Forall (fun c => isdigit c = true) ds ->
  inferType (int_text neg ds) = CFG_INT <-> - 2 ^ 31 <= int_value neg ds <= 2 ^ 31 - 1.
Proof.
  intros Hne Hd. destruct ds as [|c ds]; [done|]. pose proof Hd as Hc. apply Forall_cons in Hc as [Hc _].
  apply isdigit_range in Hc.
  assert (inferType (int_text neg (c :: ds)) =
    match inferLoop (c :: ds) 0 with
    | None => CFG_STR
    | Some acc => if negb neg && (acc =? INT32_MIN) then CFG_STR else CFG_INT
    end) as ->.
  { destruct neg; [done|]. unfold int_text, inferType. cbn [app]. change (chr "-") with 45.
    rewrite (proj2 (Z.eqb_neq c 45)) by lia. done. }
  pose proof (dfold_ge (c :: ds) 0 ltac:(lia) Hd) as Hge. unfold int_value. rewrite dval_dfold.
  pose proof (inferLoop_ok (c :: ds) 0 (- dfold (c :: ds) 0)) as Hok. unfold INT32_MIN in *. change (- 0) with 0 in Hok.
  destruct (inferLoop (c :: ds) 0) as [a|] eqn:E.
  - pose proof (proj1 (inferLoop_ok (c :: ds) 0 a ltac:(unfold INT32_MIN; lia)) E) as (_ & -> & Ha). change (- 0) with 0.
    unfold INT32_MIN in Ha. change (- 0) with 0 in Ha.
    destruct neg; cbn [negb andb]; [split; [lia|done]|].
    destruct (Z.eqb_spec (- dfold (c :: ds) 0) (- 2 ^ 31)); split; try done; lia.
  - split; [done|]. intros Hr. destruct Hok as [_ Hok]; [lia|].
    assert (None = Some (- dfold (c :: ds) 0)); [apply Hok|done]. split; [done|]. destruct neg; lia.
Qed.

Lemma atoi_int neg ds : ds <> [] -> Forall (fun c => isdigit c = true) ds ->
  - 2 ^ 31 <= int_value neg ds <= 2 ^ 31 - 1 -> atoi (int_text neg ds) = int_value neg ds.
Proof.
  intros Hne Hd Hr. unfold atoi, strtol_w.
  assert (strto_parts (int_text neg ds) = (neg, ds)) as ->.
  { destruct neg.
    - unfold int_text, strto_parts. cbn. f_equal. rewrite <- (app_nil_r ds) at 1. 
      pose proof (strto_parts_digits ds [] Hne Hd I) as H. unfold strto_parts in H. rewrite app_nil_r in *.
      clear -Hd. induction Hd as [|c ds Hc _ IH]; [done|]. cbn. rewrite Hc. by f_equal.
    - unfold int_text. cbn [app]. rewrite <- (app_nil_r ds) at 1. by apply strto_parts_digits. }
  unfold int_value in Hr. unfold clamp, int_value. destruct neg; lia.
Qed.

(** A value is stored as an integer exactly when it is an optional minus sign
    followed by digits whose value fits an int32, and then it is that value: nothing
    is ever clamped. *)
Theorem inferType_exact val :
  inferType val = CFG_INT <->
  exists neg ds, val = int_text neg ds /\ ds <> [] /\ Forall (fun c => isdigit c = true) ds /\
    - 2 ^ 31 <= int_value neg ds <= 2 ^ 31 - 1 /\ atoi val = int_value neg ds.
Proof.
  split.
  - intros H. assert (exists neg ds, val = int_text neg ds /\ ds <> [] /\ Forall (fun c => isdigit c = true) ds)
      as (neg & ds & -> & Hne & Hd).
    { destruct val as [|c rest]; [done|]. unfold inferType in H. change (chr "-") with 45 in H.
      destruct (Z.eqb_spec c 45) as [->|Hc].
      - destruct rest as [|c rest]; [done|]. destruct (inferLoop (c :: rest) 0) as [a|] eqn:E; [|done].
        apply inferLoop_ok in E as [Hd _]; [|unfold INT32_MIN; lia]. by exists true, (c :: rest).
      - destruct (inferLoop (c :: rest) 0) as [a|] eqn:E; [|done].
        apply inferLoop_ok in E as [Hd _]; [|unfold INT32_MIN; lia]. by exists false, (c :: rest). }
    pose proof (proj1 (inferType_int neg ds Hne Hd) H) as Hr. exists neg, ds. split_and!; try done; try lia. by apply atoi_int.
  - intros (neg & ds & -> & Hne & Hd & Hr & _). by apply inferType_int.
Qed.

(** What a value reads back as once stored. *)
Definition stored_form (val : bytes) : bytes :=
  match inferType val with CFG_INT => sdec (atoi val) | CFG_STR => val end.

(** A value with leading zeros does not survive: "007" (a PIN, a password, a code)
    is stored as the integer 7 and reads back "7". *)
Theorem inferType_drops_leading_zeros : stored_form ($ "007") = $ "7" /\ stored_form ($ "-0") = $ "0".
Proof. split; vm_compute; reflexivity. Qed.

(** ** Op lists *)

(** The ops the module's encoders produce. *)
Inductive aop :=
| A_int (op : Z) (key : bytes) (v : Z)
| A_str (op : Z) (key val : bytes)
| A_json (op : Z) (key js : bytes)
| A_del (key : bytes)
| A_sub (op : Z) (scope : bytes) (cb : Z)
| A_save (sem : Z).

Definition encode_op (a : aop) : bytes :=
  match a with
  | A_int op key v => opAppendKVInt op key v
  | A_str op key val => [op] ++ opPutStr key ++ [chr "S"] ++ opPutU32 (Zlen val) ++ val
  | A_json op key js => opAppendKVJson op key js
  | A_del key => opAppendDelete key
  | A_sub op scope cb => [op] ++ opPutStr scope ++ opPutPtr cb
  | A_save sem => saveOp sem
  end.

Lemma opAppendKV_encode op key val :
  opAppendKV op key val =
  encode_op (match inferType val with CFG_INT => A_int op key (atoi val) | CFG_STR => A_str op key val end).
Proof. unfold opAppendKV. by destruct (inferType val). Qed.

Definition kv_op (op : Z) : Prop := op = chr "S" \/ op = chr "d".

Definition aop_ok (a : aop) : Prop :=
  match a with
  | A_int op key v => kv_op op /\ (0 ∉ key) /\ - 2 ^ 31 <= v < 2 ^ 31
  | A_str op key val => kv_op op /\ 0 ∉ key
  | A_json op key js => kv_op op /\ 0 ∉ key
  | A_del key => 0 ∉ key
  | A_sub op scope cb => (op = chr "+" \/ op = chr "#" \/ op = chr "-") /\ (0 ∉ scope) /\ 0 <= cb < 2 ^ 32
  | A_save sem => 0 <= sem < 2 ^ 32
  end.

Section Parse.
Context `{CJ : CJson}.

Definition op_of (a : aop) : parsed_op + Z :=
  match a with
  | A_int op key v => inl {| p_op := op; p_key := key; p_val := Some (JNum v); p_ptr := 0 |}
  | A_str op key val => inl {| p_op := op; p_key := key; p_val := Some (JStr (c_str val)); p_ptr := 0 |}
  | A_json op key js => inl {| p_op := op; p_key := key; p_val := cJSON_ParseWithLength js; p_ptr := 0 |}
  | A_del key => inl {| p_op := chr "D"; p_key := key; p_val := None; p_ptr := 0 |}
  | A_sub op scope cb => inl {| p_op := op; p_key := scope; p_val := None; p_ptr := cb |}
  | A_save sem => inr sem
  end.

Fixpoint lefts {A B} (l : list (A + B)) : list A :=
  match l with [] => [] | inl a :: r => a :: lefts r | inr _ :: r => lefts r end.
Fixpoint rights {A B} (l : list (A + B)) : list B :=
  match l with [] => [] | inr b :: r => b :: rights r | inl _ :: r => rights r end.

Lemma takeStr_ok s rest : 0 ∉ s -> takeStr (opPutStr s ++ rest) = POk (s, rest).
Proof. intros H. unfold takeStr, opPutStr. rewrite <- app_assoc. cbn [app]. by rewrite strchr_app. Qed.

Lemma take32_ok v rest : take32 (wr32 v ++ rest) = POk (wrap32 v, rest).
Proof.
  unfold take32. rewrite Zlen_app. pose proof (Zlen_nonneg rest). rewrite (proj2 (Z.ltb_ge _ _)); [|unfold wr32; rewrite Zlen_le_bytes; lia].
  rewrite take_app_length' by done. rewrite drop_app_length' by done. unfold wr32 at 1. by rewrite le_val_le_bytes.
Qed.

Lemma take_run v (s rest : bytes) : Zlen s < 2 ^ 32 -> v = wrap32 (Zlen s) ->
  take (Z.to_nat v) (s ++ rest) = s /\ drop (Z.to_nat v) (s ++ rest) = rest /\ v = Zlen s.
Proof.
  intros Hl ->. pose proof (Zlen_nonneg s). unfold wrap32. rewrite Z.mod_small by lia. unfold Zlen. rewrite Nat2Z.id.
  by rewrite take_app_length, drop_app_length.
Qed.

Lemma parseValue_run vt s rest len : (vt = chr "S" \/ vt = chr "J") ->
  1 + 4 + Zlen s + Zlen rest <= len < 2 ^ 32 ->
  parseValue len ([vt] ++ opPutU32 (Zlen s) ++ s ++ rest) =
  POk (if vt =? chr "S" then Some (JStr (c_str s)) else cJSON_ParseWithLength s, rest).
Proof.
  intros Hv Hl. pose proof (Zlen_nonneg s). pose proof (Zlen_nonneg rest). unfold parseValue. cbn [app].
  assert ((vt =? chr "I") = false /\ (vt =? chr "S") || (vt =? chr "J") = true) as [-> ->] by (by destruct Hv as [-> | ->]).
  unfold opPutU32. rewrite take32_ok. cbn [pbind].
  destruct (take_run (wrap32 (Zlen s)) s rest) as (-> & -> & Ev); [lia|done|]. rewrite Ev, Zlen_app.
  rewrite (proj2 (Z.ltb_ge len _)) by (unfold wrap32; rewrite Z.mod_small; lia).
  by rewrite (proj2 (Z.ltb_ge (Zlen s + Zlen rest) _)) by lia.
Qed.

Lemma parseOne_ok a rest len : aop_ok a -> Zlen (encode_op a) + Zlen rest < len < 2 ^ 32 ->
  match encode_op a with
  | [] => False
  | op :: body => parseOne len op (body ++ rest) = POk (op_of a, rest)
  end.
Proof.
  intros Ha Hl. destruct a as [op key v|op key val|op key js|key|op sc cb|sem]; cbn [encode_op aop_ok] in *;
    unfold opAppendKVInt, opAppendKVJson, opAppendDelete, saveOp in *; cbn [app] in *.
  - destruct Ha as (Hop & Hk & Hv). unfold parseOne. rewrite <- app_assoc.
    assert ((op =? chr "S") || (op =? chr "d") || (op =? chr "D") = true /\ (op =? chr "D") = false) as [-> ->]
      by (by destruct Hop as [-> | ->]).
    rewrite takeStr_ok by done. cbn [pbind app parseValue].
    change (chr "I" =? chr "I") with true. cbn [pbind]. rewrite take32_ok. cbn [pbind op_of]. do 4 f_equal.
    unfold to_s32, wrap32. destruct (Z.ltb_spec v 0).
    + rewrite <- (Z_mod_plus_full v 1), Z.mul_1_l, Z.mod_small by lia. rewrite (proj2 (Z.ltb_ge _ _)) by lia. do 2 f_equal. lia.
    + rewrite Z.mod_small by lia. rewrite (proj2 (Z.ltb_lt _ _)) by lia. done.
  - destruct Ha as (Hop & Hk). unfold parseOne. rewrite <- app_assoc.
    assert ((op =? chr "S") || (op =? chr "d") || (op =? chr "D") = true /\ (op =? chr "D") = false) as [-> ->]
      by (by destruct Hop as [-> | ->]).
    rewrite takeStr_ok by done. cbn [pbind].
    pose proof (Zlen_nonneg key).
    assert ((chr "S" :: opPutU32 (Zlen val) ++ val) ++ rest = [chr "S"] ++ opPutU32 (Zlen val) ++ val ++ rest) as ->
      by (cbn [app]; by rewrite <- app_assoc).
    rewrite parseValue_run; [|by left|].
    + change (chr "S" =? chr "S") with true. done.
    + unfold opPutStr, opPutU32, wr32 in Hl. autorewrite with zlen in Hl. lia.
  - destruct Ha as (Hop & Hk). unfold parseOne. rewrite <- app_assoc.
    assert ((op =? chr "S") || (op =? chr "d") || (op =? chr "D") = true /\ (op =? chr "D") = false) as [-> ->]
      by (by destruct Hop as [-> | ->]).
    rewrite takeStr_ok by done. cbn [pbind].
    pose proof (Zlen_nonneg key).
    assert ((chr "J" :: opPutU32 (Zlen js) ++ js) ++ rest = [chr "J"] ++ opPutU32 (Zlen js) ++ js ++ rest) as ->
      by (cbn [app]; by rewrite <- app_assoc).
    rewrite parseValue_run; [done|by right|].
    unfold opPutStr, opPutU32, wr32 in Hl. autorewrite with zlen in Hl. lia.
  - unfold parseOne. change ((chr "D" =? chr "S") || (chr "D" =? chr "d") || (chr "D" =? chr "D")) with true.
    rewrite takeStr_ok by done. done.
  - destruct Ha as (Hop & Hk & Hv). unfold parseOne. rewrite <- app_assoc.
    assert ((op =? chr "S") || (op =? chr "d") || (op =? chr "D") = false /\
      (op =? chr "+") || (op =? chr "#") || (op =? chr "-") = true) as [-> ->] by (by destruct Hop as [-> |[-> | ->]]).
    rewrite takeStr_ok by done. cbn [pbind]. unfold opPutPtr. rewrite take32_ok. cbn [pbind op_of].
    unfold wrap32. by rewrite Z.mod_small.
  - unfold parseOne. change ((chr "W" =? chr "S") || (chr "W" =? chr "d") || (chr "W" =? chr "D")) with false.
    change ((chr "W" =? chr "+") || (chr "W" =? chr "#") || (chr "W" =? chr "-")) with false.
    change (chr "W" =? chr "W") with true. unfold opPutPtr. rewrite take32_ok. cbn [pbind op_of]. unfold wrap32. by rewrite Z.mod_small.
Qed.

Lemma parseOps_ok l fuel len : Forall aop_ok l -> Zlen (concat (map encode_op l)) < len < 2 ^ 32 ->
  (length l <= fuel)%nat ->
  parseOps fuel len (concat (map encode_op l)) = Some (false, lefts (map op_of l), rights (map op_of l)).
Proof.
  intros H. revert fuel. induction H as [|a l Ha _ IH]; intros fuel Hl Hf; [by destruct fuel|].
  cbn [map concat] in *. rewrite Zlen_app in Hl. pose proof (Zlen_nonneg (encode_op a)).
  pose proof (parseOne_ok a (concat (map encode_op l)) len Ha ltac:(lia)) as Hp.
  destruct (encode_op a) as [|op body] eqn:Ee; [done|].
  change ((op :: body) ++ concat (map encode_op l)) with (op :: (body ++ concat (map encode_op l))).
  destruct fuel as [|f]; [cbn in Hf; lia|]. cbn [parseOps]. rewrite Hp, IH by (lia || (cbn in Hf; lia)). cbn [mbind option_bind].
  by destruct (op_of a).
Qed.

Lemma encode_op_length a : (1 <= length (encode_op a))%nat.
Proof. destruct a; cbn; lia. Qed.

Lemma encodes_length l : (length l <= length (concat (map encode_op l)))%nat.
Proof. induction l as [|a l IH]; [done|]. cbn [map concat length]. rewrite length_app. pose proof (encode_op_length a). lia. Qed.

(** An op list read back is the list that was written: every op the encoders
    produce is parsed as itself, in order, the saves apart, and the whole list is
    accepted, whatever bytes its keys and values hold (a string ends at its NUL). *)
Theorem op_list_roundtrip l :
  Forall aop_ok l -> Zlen (concat (map encode_op l)) < 2 ^ 32 - 1 ->
  parseOps (length (concat (map encode_op l))) (1 + Zlen (concat (map encode_op l))) (concat (map encode_op l)) =
  Some (false, lefts (map op_of l), rights (map op_of l)).
Proof. intros H Hl. apply parseOps_ok; [done|pose proof (Zlen_nonneg (concat (map encode_op l))); lia|apply encodes_length]. Qed.
End Parse.

(** ** The subscription table *)

Lemma subDrop_perm l i : (i < length l)%nat -> subDrop l i ≡ₚ delete i l.
Proof.
  intros Hi. destruct l as [|x0 l0] using rev_ind; [cbn in Hi; lia|]. clear IHl0.
  unfold subDrop. rewrite last_snoc, length_app. cbn [length]. replace (pred (length l0 + 1)) with (length l0) by lia.
  rewrite length_app in Hi. cbn [length] in Hi.
  destruct (decide (i = length l0)) as [->|Hne].
  - rewrite insert_app_r_alt, Nat.sub_diag by lia. rewrite take_app_length' by done.
    rewrite delete_take_drop. rewrite take_app_length' by done. rewrite drop_ge; [by rewrite app_nil_r|]. rewrite length_app. cbn. lia.
  - destruct (lookup_lt_is_Some_2 l0 i) as [y Hy]; [lia|].
    rewrite insert_app_l by lia. rewrite take_app_length' by (by rewrite length_insert).
    rewrite (insert_take_drop l0) by lia. rewrite !delete_take_drop, take_app_le, drop_app_le by lia.
    rewrite app_assoc, <- Permutation_cons_append. symmetry. apply Permutation_middle.
Qed.

Lemma filter_delete (f : storage_sub_t -> bool) l i r : l !! i = Some r -> f r = false ->
  List.filter f (delete i l) = List.filter f l.
Proof.
  intros Hi Hf. rewrite <- (take_drop_middle l i r Hi) at 2. rewrite delete_take_drop, !List.filter_app. cbn [List.filter].
  by rewrite Hf.
Qed.

Lemma filter_perm (f : storage_sub_t -> bool) l l' : l ≡ₚ l' -> List.filter f l ≡ₚ List.filter f l'.
Proof. induction 1; cbn; repeat case_match; try constructor; try done; by etransitivity. Qed.

Lemma subDrop_length l i : (i < length l)%nat -> length (subDrop l i) = pred (length l).
Proof. intros H. rewrite (Permutation_length (subDrop_perm l i H)), length_delete; [lia|by apply lookup_lt_is_Some_2]. Qed.

Lemma subDrop_take l i : (i < length l)%nat -> take i (subDrop l i) = take i l.
Proof.
  intros H. unfold subDrop. destruct (last l) as [x|] eqn:E; [|done].
  rewrite take_take, Nat.min_l by lia. rewrite take_insert_ge by lia. done.
Qed.

(** The scan drops exactly the rows that match. *)
Lemma dropWhere_perm (f : storage_sub_t -> bool) fuel l i :
  (length l - i <= fuel)%nat -> Forall (fun r => f r = false) (take i l) ->
  dropWhere fuel f l i ≡ₚ List.filter (fun r => negb (f r)) l.
Proof.
  revert l i. induction fuel as [|n IH]; intros l i Hf Hp.
  - cbn [dropWhere]. assert (take i l = l) as E by (apply take_ge; lia). rewrite E in Hp.
    assert (List.filter (fun r => negb (f r)) l = l) as ->.
    { clear -Hp. induction Hp as [|r l Hr _ IH]; [done|]. cbn. rewrite Hr. cbn. by rewrite IH. }
    by destruct (l !! i).
  - cbn [dropWhere]. destruct (l !! i) as [r|] eqn:Er.
    + pose proof (lookup_lt_Some _ _ _ Er) as Hi. destruct (f r) eqn:Efr.
      * rewrite IH; [|rewrite subDrop_length by done; lia|by rewrite subDrop_take].
        rewrite (filter_perm _ _ _ (subDrop_perm l i Hi)). erewrite filter_delete; [done|exact Er|]. by rewrite Efr.
      * apply IH; [lia|]. rewrite (take_S_r _ _ _ Er). apply Forall_app. split; [done|]. by constructor.
    + apply lookup_ge_None_1 in Er. rewrite take_ge in Hp by lia.
      assert (List.filter (fun r => negb (f r)) l = l) as ->; [|done].
      clear -Hp. induction Hp as [|r l Hr _ IH]; [done|]. cbn. rewrite Hr. cbn. by rewrite IH.
Qed.

Lemma subReap_perm l : subReap l ≡ₚ List.filter (fun r => negb (is_dead r)) l.
Proof. apply dropWhere_perm; [lia|constructor]. Qed.

Definition live_rows (l : list storage_sub_t) : list storage_sub_t := List.filter (fun r => negb (is_dead r)) l.

(** Unsubscribing removes exactly the rows that match the task, callback and scope
    (direct rows only by an explicit callback); every other row stays, in some order. *)
Theorem subRemove_exact subs task cb scope :
  subRemove subs task cb scope ≡ₚ List.filter (fun r => negb (sub_matches task cb scope r)) subs.
Proof. apply dropWhere_perm; [lia|constructor]. Qed.

(** Subscribing keeps every live row and frees those of dead tasks; the new row is
    there afterwards unless the table already holds 256 live rows, the table never
    exceeds 256 rows, and subscribing again changes nothing but their order. *)
Theorem subAdd_table subs task cb scope direct :
  Zlen subs <= STORAGE_MAX_SUBS -> task <> None \/ direct = true ->
  let row := {| s_task := task; s_cb := cb; s_scope := scope; s_direct := direct |} in
  let subs' := subAdd subs task cb scope direct in
  Zlen subs' <= STORAGE_MAX_SUBS /\ Forall (fun r => is_dead r = false) subs' /\
  (row ∈ subs' \/ Zlen (live_rows subs) = STORAGE_MAX_SUBS) /\
  (subs' ≡ₚ live_rows subs \/ subs' ≡ₚ live_rows subs ++ [row]) /\
  subAdd subs' task cb scope direct ≡ₚ subs'.
Proof.
  intros Hl Hrow row subs'. pose proof (subReap_perm subs) as Hp. fold (live_rows subs) in Hp.
  assert (Forall (fun r => is_dead r = false) (live_rows subs)) as Hlive.
  { apply Forall_forall. intros r Hr. apply list_elem_of_In, filter_In in Hr as [_ Hr]. by destruct (is_dead r). }
  assert (is_dead row = false) as Hnd.
  { unfold is_dead, row. cbn. destruct Hrow as [H| ->]; [|done]. rewrite bool_decide_false by done. by rewrite andb_false_r. }
  assert (Zlen (live_rows subs) <= Zlen subs) as Hle.
  { unfold live_rows. clear. induction subs as [|r l IH]; [done|]. cbn. destruct (negb (is_dead r)); rewrite ?Zlen_cons; lia. }
  assert (Zlen (subReap subs) = Zlen (live_rows subs)) as Er by (unfold Zlen; by rewrite (Permutation_length Hp)).
  assert (forall l, Forall (fun r => is_dead r = false) l -> subReap l ≡ₚ l) as Hre.
  { intros l H. rewrite subReap_perm. assert (List.filter (fun r => negb (is_dead r)) l = l) as ->; [|done].
    clear -H. induction H as [|r l Hr _ IH]; [done|]. cbn. rewrite Hr. cbn. by rewrite IH. }
  assert (Forall (fun r => is_dead r = false) (subReap subs)) as Hlr by (by rewrite Hp).
  assert (forall l, existsb (fun r => bool_decide (r = row)) l = true <-> row ∈ l) as Hex.
  { intros l. rewrite existsb_exists, list_elem_of_In. split.
    - intros (x & Hx & ->%bool_decide_eq_true). done.
    - intros Hx. exists row. split; [done|]. by apply bool_decide_eq_true. }
  assert (subs' = if existsb (fun r => bool_decide (r = row)) (subReap subs) then subReap subs
          else if STORAGE_MAX_SUBS <=? Zlen (subReap subs) then subReap subs else subReap subs ++ [row]) as Es by done.
  assert (forall l, Forall (fun r => is_dead r = false) l -> row ∈ l \/ STORAGE_MAX_SUBS <= Zlen l -> subAdd l task cb scope direct ≡ₚ l) as Hagain.
  { intros l Hll Hor. unfold subAdd. fold row. pose proof (Hre l Hll) as Hrl.
    destruct (existsb _ (subReap l)) eqn:Ex; [done|]. destruct (Z.leb_spec STORAGE_MAX_SUBS (Zlen (subReap l))) as [|Hlt]; [done|].
    exfalso. destruct Hor as [Hin|Hge].
    - assert (existsb (fun r => bool_decide (r = row)) (subReap l) = true) by (apply Hex; by rewrite Hrl). congruence.
    - unfold Zlen in Hlt, Hge. rewrite (Permutation_length Hrl) in Hlt. lia. }
  destruct (existsb _ (subReap subs)) eqn:Ex.
  - apply Hex in Ex. rewrite Es. split; [lia|]. split; [done|]. split; [by left|]. split; [by left|]. apply Hagain; [done|by left].
  - destruct (Z.leb_spec STORAGE_MAX_SUBS (Zlen (subReap subs))) as [Hfull|Hroom].
    + rewrite Es. split; [lia|]. split; [done|]. split; [right; lia|]. split; [by left|]. apply Hagain; [done|by right].
    + rewrite Es. split; [rewrite Zlen_app; change (Zlen [row]) with 1; lia|].
      assert (Forall (fun r => is_dead r = false) (subReap subs ++ [row])) as Hf by (apply Forall_app; split; [done|by constructor]).
      assert (row ∈ subReap subs ++ [row]) as Hin by (apply elem_of_app; right; by apply list_elem_of_singleton).
      split; [done|]. split; [by left|]. split; [right; by rewrite Hp|]. apply Hagain; [done|by left].
Qed.

Lemma subAdd_table_witness :
  let subs := [{| s_task := None; s_cb := 5; s_scope := []; s_direct := false |};
               {| s_task := Some 3; s_cb := 7; s_scope := $ "s."; s_direct := false |}] in
  Zlen (subAdd subs (Some 4) 9 ($ "wifi") false) <= STORAGE_MAX_SUBS.
Proof.
  intros subs. apply (subAdd_table subs (Some 4) 9 ($ "wifi") false); [vm_compute; discriminate|left; discriminate].
Defined.

(** ** Notifications *)

(** The message built for a subscriber on another task is taken apart there into
    the same callback, key and value, the value cut to 512 bytes. *)
Theorem changed_message_roundtrip cb key val :
  0 < cb < 2 ^ 32 -> 0 ∉ key -> 0 ∉ val ->
  storageChangeDispatch (changedMsg cb key val) = Some (cb, key, take (Z.to_nat STORAGE_NOTIFY_VAL_MAX) val).
Proof.
  intros Hc Hk Hv. unfold changedMsg. set (vlen := if _ <? _ then _ else _).
  assert (take (Z.to_nat vlen) val = take (Z.to_nat STORAGE_NOTIFY_VAL_MAX) val) as ->.
  { unfold vlen. destruct (Z.ltb_spec STORAGE_NOTIFY_VAL_MAX (Zlen val)); [done|]. rewrite !take_ge; [done| |]; unfold Zlen in *; lia. }
  set (v := take (Z.to_nat STORAGE_NOTIFY_VAL_MAX) val).
  assert (0 ∉ v) as Hv' by (intros Hin; apply Hv; by eapply subseteq_take).
  unfold storageChangeDispatch. pose proof (Zlen_nonneg key). pose proof (Zlen_nonneg v).
  rewrite (proj2 (Z.ltb_ge _ _)) by (unfold wr32; autorewrite with zlen; lia).
  rewrite take_app_length' by done. rewrite drop_app_length' by done. unfold wr32. rewrite le_val_le_bytes, Z.mod_small by (cbn; lia).
  change (key ++ [0] ++ v ++ [0]) with (key ++ 0 :: (v ++ [0])). rewrite strchr_app by done. rewrite Zlen_app. change (Zlen [0]) with 1. rewrite (proj2 (Z.eqb_neq _ 0)) by lia.
  rewrite (proj2 (Z.eqb_neq cb 0)) by lia. do 2 f_equal.
  change (v ++ [0]) with (v ++ 0 :: []). unfold c_str. by rewrite strchr_app.
Qed.

Lemma changed_message_roundtrip_witness :
  storageChangeDispatch (changedMsg 1073741824 ($ "s.a") ($ "on")) = Some (1073741824, $ "s.a", $ "on").
Proof.
  apply (changed_message_roundtrip 1073741824 ($ "s.a") ($ "on")); [lia| |]; apply (bool_decide_unpack _); vm_compute; done.
Defined.
