(* ===== verification/ConfigSet.v ===== *)
(** * storage: what is set is what is read

    Dot-paths as lists of segments, the patch a write builds, and the set/get laws of
    the configuration tree through the whole pipeline: encoding, parsing, the patch,
    the merge. *)

From stdpp Require Import gmap.
From S2P Require Import Prelude CLib Config ConfigTree ConfigOps.
Import Tree Ops Subs Actor.
Open Scope Z_scope.
Open Scope spangap_scope.

(** ** Paths *)

Fixpoint path_of (ss : list bytes) : bytes :=
  match ss with
  | [] => []
  | [s] => s
  | s :: r => s ++ chr "." :: path_of r
  end.

Definition good_seg (s : bytes) : Prop := s <> [] /\ (chr "." ∉ s) /\ Zlen s < SEG_SIZE.

Definition good_segb (s : bytes) : bool :=
  negb (Zlen s =? 0) && bool_decide (chr "." ∉ s) && (Zlen s <? SEG_SIZE).

Lemma good_segs ss : forallb good_segb ss = true -> Forall good_seg ss.
Proof.
  intros H. apply Forall_forall. intros s Hs. apply list_elem_of_In in Hs. eapply forallb_forall in H; [|exact Hs].
  apply andb_true_iff in H as [[H1 H2]%andb_true_iff H3]. apply bool_decide_eq_true in H2. apply Z.ltb_lt in H3.
  split; [by intros ->|done].
Qed.

Lemma path_of_cons s s' r : path_of (s :: s' :: r) = s ++ chr "." :: path_of (s' :: r).
Proof. done. Qed.

Lemma segment_last s : good_seg s -> segment s = (s, false, []).
Proof. intros (_ & H & _). unfold segment. by rewrite (proj2 (strchr_None s (chr ".")) H). Qed.

Lemma segment_cons s s' r : good_seg s -> segment (path_of (s :: s' :: r)) = (s, true, path_of (s' :: r)).
Proof. intros (_ & H & _). unfold segment. by rewrite path_of_cons, strchr_app. Qed.

Lemma path_nonempty ss : Forall good_seg ss -> ss <> [] -> path_of ss <> [].
Proof.
  intros H Hn. destruct H as [|s [|s' r] (Hs & _)]; [done|done|]. rewrite path_of_cons. by destruct s.
Qed.

Lemma seg_tests s : good_seg s -> (Zlen s =? 0) = false /\ (SEG_SIZE <=? Zlen s) = false.
Proof.
  intros (Hn & _ & Hl). split; [apply Z.eqb_neq; intros E; by apply Zlen_zero in E|apply Z.leb_gt; done].
Qed.

Section Set_.
Context {D : Type} `{CJ : CJson} `{L : !CJsonLaws CJ} `{SR : SdbRouter D}.
Notation oget := (kget cj_same).

Lemma navLoop_ok ss : Forall good_seg ss -> forall fuel n, (length (path_of ss) <= fuel)%nat ->
  navLoop fuel n (path_of ss) = navS (Some n) ss.
Proof.
  intros H. induction H as [|s r Hs Hr IH]; intros fuel n Hf; [by destruct fuel|].
  destruct (seg_tests s Hs) as [T1 T2]. pose proof (path_nonempty (s :: r) ltac:(by constructor) ltac:(done)) as Hne.
  destruct (path_of (s :: r)) as [|x p] eqn:Ep; [done|]. destruct fuel as [|f]; [cbn in Hf; lia|].
  cbn [navLoop navS]. rewrite <- Ep. fold (step n s). destruct r as [|s' r].
  - cbn [path_of] in *. rewrite segment_last, T1, T2 by done. fold (step n s). cbn [mbind option_bind navS].
    destruct (step n s); [|done]. by destruct f.
  - rewrite segment_cons, T1, T2 by done. fold (step n s). cbn [mbind option_bind].
    destruct (step n s) as [n'|]; [|by rewrite navS_None]. cbn [mbind option_bind]. apply IH.
    rewrite <- Ep, path_of_cons, length_app in Hf. cbn [length] in Hf. lia.
Qed.

Lemma navigatePath_ok n ss : Forall good_seg ss -> ss <> [] -> navigatePath n (path_of ss) = navS (Some n) ss.
Proof.
  intros H Hn. unfold navigatePath. destruct (Z.eqb_spec (Zlen (path_of ss)) 0) as [E|_].
  - apply Zlen_zero in E. by apply path_nonempty in E.
  - by apply navLoop_ok.
Qed.

(** The patch of one write. *)
Fixpoint wrap (ss : list bytes) (v : json) : json :=
  match ss with
  | [] => v
  | s :: r => JNode false [(Some s, wrap r v)]
  end.

Definition wrap_kids (ss : list bytes) (v : json) : kids :=
  match wrap ss v with JNode _ l => l | _ => [] end.

Lemma navCreate_wrap ss v : Forall good_seg ss -> ss <> [] -> forall fuel, (length (path_of ss) <= fuel)%nat ->
  navCreate fuel [] (path_of ss) (put_leaf v) = (wrap_kids ss v, true).
Proof.
  intros H. induction H as [|s r Hs Hr IH]; intros Hn fuel Hf; [done|].
  destruct (seg_tests s Hs) as [T1 T2]. pose proof (path_nonempty (s :: r) ltac:(by constructor) ltac:(done)) as Hne.
  destruct (path_of (s :: r)) as [|x p] eqn:Ep; [done|]. destruct fuel as [|f]; [cbn in Hf; lia|].
  cbn [navCreate]. rewrite <- Ep. destruct r as [|s' r].
  - cbn [path_of] in *. rewrite segment_last, T1, T2 by done. cbn [negb]. unfold put_leaf. rewrite cj_add, cj_del. cbn.
    do 3 f_equal. unfold trunc. rewrite take_ge; [done|]. destruct Hs as (_ & _ & Hl). unfold SEG_SIZE, Zlen in Hl. cbn. lia.
  - rewrite segment_cons, T1, T2 by done. cbn [negb]. rewrite cj_find. cbn [kpos].
    rewrite IH; [|done|rewrite <- Ep, path_of_cons, length_app in Hf; cbn [length] in Hf; lia].
    by rewrite cj_add.
Qed.

Lemma plook_wrap ss v : plook (wrap ss v) ss = Some v.
Proof. induction ss as [|s r IH]; [done|]. cbn [wrap plook kget]. by rewrite cj_refl. Qed.

Lemma wrap_not_null ss v : v <> JNull -> wrap ss v <> JNull.
Proof. by destruct ss. Qed.

Lemma isAllDigits_atoi s : isAllDigits s = true -> 0 <= atoi s.
Proof.
  unfold isAllDigits. destruct (Z.eqb_spec (Zlen s) 0) as [|Hl]; [done|]. intros H.
  assert (Forall (fun c => isdigit c = true) s) as Hd by (apply Forall_forall; intros c Hc; apply list_elem_of_In in Hc; by eapply forallb_forall in H).
  unfold atoi, strtol_w. rewrite <- (app_nil_r s) at 1. rewrite strto_parts_digits; [|by intros ->|done|done].
  pose proof (dfold_ge s 0 ltac:(lia) Hd) as Hg. rewrite <- dval_dfold in Hg. unfold clamp. lia.
Qed.

Lemma pok_wrap ss v : is_prim v -> pok (wrap ss v).
Proof.
  intros Hv. induction ss as [|s r IH]; [by destruct v|]. cbn [wrap pok]. split; [done|]. split; [|done].
  intros Hn. cbn [allNumericKeys forallb] in Hn. apply andb_true_iff in Hn as [Hn _]. unfold numericName in Hn. cbn [fst] in Hn.
  cbn [arr_patch snd fst child_index]. split; [apply wrap_not_null; by destruct v|]. split; [|done]. by apply isAllDigits_atoi.
Qed.

(** ** One write through the actor *)

Definition not_routed (c : cfg_st D) (key : bytes) : Prop :=
  sdbGetLocked (db c) key = None /\ forall op vs silent, sdbApplyOpLocked (db c) op key vs silent = None.

Definition leaf_of (val : bytes) : json :=
  match inferType val with CFG_INT => JNum (atoi val) | CFG_STR => JStr val end.

Definition aop_of (op : Z) (key val : bytes) : aop :=
  match inferType val with CFG_INT => A_int op key (atoi val) | CFG_STR => A_str op key val end.

Lemma atoi_range s : - 2 ^ 31 <= atoi s < 2 ^ 31.
Proof. unfold atoi, strtol_w. destruct (strto_parts s) as [neg ds]. unfold clamp. lia. Qed.

Lemma root_startSaveTimer (c : cfg_st D) : cfgRoot (startSaveTimer c) = cfgRoot c /\ db (startSaveTimer c) = db c.
Proof. unfold startSaveTimer. by destruct (savePending c). Qed.

Lemma finishOps_root st silent ops sender sh :
  root (finishOps st silent ops sender sh).1 = JNode false (deepMerge (JNode false (p2_patch st)) (cfgRoot (p2_cfg st))) /\
  db (finishOps st silent ops sender sh).1 = db (p2_cfg st).
Proof.
  unfold finishOps. set (patch := JNode false (p2_patch st)). cbn zeta.
  set (c1 := with_root (p2_cfg st) (deepMerge patch (cfgRoot (p2_cfg st)))).
  set (c2 := match cJSON_GetObjectItem patch ($ "s") with Some _ => _ | None => _ end).
  assert (cfgRoot c2 = cfgRoot c1 /\ db c2 = db c1) as [E2 D2].
  { unfold c2. destruct (routePatchDirty 128 [] patch (externals c1, rootDirty c1)) as [ext rd].
    destruct (cJSON_GetObjectItem patch ($ "s")), (cJSON_GetObjectItem patch ($ "secrets")); try done;
      destruct (root_startSaveTimer (with_files c1 ext rd)) as [-> ->]; done. }
  cbn [fst]. unfold root. cbn [cfgRoot db with_subs].
  destruct (p2_dirty st); [destruct (root_startSaveTimer c2) as [-> ->]|]; by rewrite E2, D2.
Qed.

(** The files of the tree, and the marks a patch leaves on them. *)
Definition files (c : cfg_st D) : list external_t * bool := (externals c, rootDirty c).

Definition routed (patch : json) (st : list external_t * bool) : list external_t * bool :=
  match cJSON_GetObjectItem patch ($ "s"), cJSON_GetObjectItem patch ($ "secrets") with
  | None, None => st
  | _, _ => routePatchDirty 128 [] patch st
  end.

Lemma finishOps_files st silent ops sender sh :
  files (finishOps st silent ops sender sh).1 = routed (JNode false (p2_patch st)) (files (p2_cfg st)).
Proof.
  assert (forall c : cfg_st D, files (startSaveTimer c) = files c) as T by (intros c; unfold startSaveTimer; by destruct (savePending c)).
  unfold finishOps, routed. set (patch := JNode false (p2_patch st)). cbn zeta.
  set (c1 := with_root (p2_cfg st) (deepMerge patch (cfgRoot (p2_cfg st)))).
  set (c2 := match cJSON_GetObjectItem patch ($ "s") with Some _ => _ | None => _ end).
  assert (files c2 = routed patch (files c1)) as E2.
  { unfold c2, routed. change (files c1) with (externals c1, rootDirty c1).
    destruct (routePatchDirty 128 [] patch (externals c1, rootDirty c1)) as [ext rd].
    destruct (cJSON_GetObjectItem patch ($ "s")), (cJSON_GetObjectItem patch ($ "secrets")); rewrite ?T; done. }
  cbn [fst]. change (files (with_subs ?c ?x)) with (files c). destruct (p2_dirty st); rewrite ?T; exact E2.
Qed.

Lemma set_applies (c : cfg_st D) silent ss val sender sh :
  Forall good_seg ss -> ss <> [] -> 0 ∉ path_of ss -> 0 ∉ val -> not_routed c (path_of ss) ->
  Zlen (opAppendKV (chr "S") (path_of ss) val) < 2 ^ 32 - 1 ->
  exists c' n, commit c silent [opAppendKV (chr "S") (path_of ss) val] sender sh = Some (c', n) /\ db c' = db c /\
    ((root c' = JNode false (deepMerge (wrap ss (leaf_of val)) (cfgRoot c)) /\
      files c' = routed (wrap ss (leaf_of val)) (files c)) \/
     (root c' = root c /\ lval (navS (Some (root c)) ss) = Some (stored_form val) /\ files c' = files c)).
Proof.
  intros Hs Hn Hk Hv [Hr1 Hr2] Hl. unfold commit. cbn [concat]. rewrite app_nil_r.
  rewrite opAppendKV_encode in *. fold (aop_of (chr "S") (path_of ss) val) in *. set (a := aop_of (chr "S") (path_of ss) val) in *.
  assert (aop_ok a) as Ha.
  { unfold a, aop_of. destruct (inferType val); cbn; split_and!; try done; try (by left); apply atoi_range. }
  pose proof (encode_op_length a) as Hel. destruct (encode_op a) as [|x body] eqn:Ee; [cbn in Hel; lia|]. rewrite <- Ee in *. clear Hel.
  unfold storageApplyOps. rewrite <- (app_nil_r (encode_op a)). change (encode_op a ++ []) with (concat (map encode_op [a])).
  rewrite (parseOps_ok [a]).
  2: { by constructor. }
  2: { rewrite Zlen_cons. cbn [map concat]. rewrite app_nil_r. lia. }
  2: { apply encodes_length. }
  cbn [mbind option_bind map]. set (flag := if silent then OP_F_SILENT else 0). set (sil := negb (Z.land flag OP_F_SILENT =? 0)).
  assert (lefts [op_of a] = [{| p_op := chr "S"; p_key := path_of ss; p_val := Some (leaf_of val); p_ptr := 0 |}]) as ->
    by (unfold a, aop_of, leaf_of; destruct (inferType val); cbn; by rewrite ?c_str_id).
  set (o := {| p_op := chr "S"; p_key := path_of ss; p_val := Some (leaf_of val); p_ptr := 0 |}).
  set (st := foldl (applyOne sil) {| p2_cfg := c; p2_patch := []; p2_changes := []; p2_dirty := false |} [o]).
  assert (exists l, wrap ss (leaf_of val) = JNode false l /\ wrap_kids ss (leaf_of val) = l) as (l & Ew & Ewk).
  { destruct ss as [|s r]; [done|]. unfold wrap_kids. cbn [wrap]. by eexists. }
  assert (p2_cfg st = c /\ (p2_patch st = l \/ (p2_patch st = [] /\ lval (navS (Some (root c)) ss) = Some (stored_form val)))) as [Ec Ep].
  { unfold st. cbn [foldl]. unfold applyOne. change (is_sub_op o) with false. unfold o. cbn [p_op p_key p2_cfg]. rewrite Hr2.
    unfold applyTree. cbn [p_op p_key p_val p2_cfg p2_patch p2_changes p2_dirty].
    change (chr "S" =? chr "D") with false. change (chr "S" =? chr "d") with false. cbv iota.
    unfold navigateOrCreate. rewrite navCreate_wrap, Ewk by done. rewrite navigatePath_ok by done. cbn [fst].
    destruct (navS (Some (root c)) ss) as [cur|]; [|split; [done|by left]].
    destruct (same_value cur (leaf_of val)) eqn:Esv; [|split; [done|by left]]. split; [done|right]. split; [done|].
    unfold same_value, leaf_of, stored_form in *. destruct (inferType val), cur; try done.
    - apply Z.eqb_eq in Esv. by rewrite Esv.
    - apply streq_true in Esv. by rewrite Esv. }
  destruct (finishOps_root st sil [o] sender sh) as [R1 R2]. pose proof (finishOps_files st sil [o] sender sh) as R3. destruct (finishOps st sil [o] sender sh) as [c' notes]. cbn [fst] in *.
  eexists _, _. split; [done|]. rewrite Ec in *. split; [exact R2|]. destruct Ep as [Ep|[Ep Hval]].
  - left. rewrite Ew. rewrite Ep in R1, R3. split; [exact R1|exact R3].
  - right. rewrite Ep in R1, R3. split; [exact R1|]. split; [done|]. etransitivity; [exact R3|].
    unfold routed. by rewrite !GetObjectItem_oget.
Qed.

Lemma getString_lval (c : cfg_st D) ss def : Forall good_seg ss -> ss <> [] -> sdbGetLocked (db c) (path_of ss) = None ->
  storageGetString c (path_of ss) def = default def (lval (navS (Some (root c)) ss)).
Proof.
  intros Hs Hn Hr. unfold storageGetString, resolveKey. rewrite Hr, navigatePath_ok by done.
  by destruct (navS (Some (root c)) ss) as [[| | | |]|].
Qed.

(** No op list the encoders produce makes the parser leave it. *)
Lemma commit_total (c : cfg_st D) silent (l : list aop) sender sh :
  Forall aop_ok l -> Zlen (concat (map encode_op l)) < 2 ^ 32 - 1 -> is_Some (commit c silent (map encode_op l) sender sh).
Proof.
  intros Ha Hl. unfold commit. destruct (concat (map encode_op l)) as [|x body] eqn:E; [done|]. rewrite <- E in *.
  unfold storageApplyOps. rewrite parseOps_ok; [|done|rewrite Zlen_cons; lia|apply encodes_length].
  cbn [mbind option_bind]. by destruct (finishOps _ _ _ _ _).
Qed.

End Set_.

(** ** A concrete cJSON, and a device without structured stores *)

Module Plain.

Definition tolower (c : Z) : Z := if (65 <=? c) && (c <=? 90) then c + 32 else c.
Definition ci_same (a b : bytes) : bool := bool_decide (map tolower a = map tolower b).

#[export] Instance PlainJson : CJson := {|
  cJSON_find := kpos ci_same;
  cJSON_AddItemToObject l k v := l ++ [(Some k, v)];
  cJSON_DeleteItemFromObject l k := match kpos ci_same l k with Some i => delete i l | None => l end;
  cJSON_AddItemToArray l c := l ++ [c];
  cJSON_DeleteItemFromArray l i := delete (Z.to_nat i) l;
  cJSON_ReplaceItemInArray l i c := <[Z.to_nat i := c]> l;
  cJSON_Duplicate c := c;
  cJSON_ParseWithLength s := if streq s ($ "[]") then Some (JNode true []) else None;
  cJSON_PrintUnformatted _ := None |}.

Lemma digits_same a b : isAllDigits a = true -> map tolower a = map tolower b -> b = a.
Proof.
  unfold isAllDigits. destruct (Zlen a =? 0); [done|]. revert b.
  induction a as [|c a IH]; intros [|d b]; cbn [map forallb]; try done.
  rewrite !andb_true_iff, !Z.leb_le. intros [Hc Ha] [= Hd He]. f_equal; [|by apply IH].
  unfold tolower in Hd. repeat case_match; b2p; lia.
Qed.

#[export] Instance PlainJsonLaws : CJsonLaws PlainJson.
Proof.
  refine {| cj_same := ci_same |}; unfold ci_same; try done.
  - intros a. by apply bool_decide_eq_true.
  - intros a b. apply bool_decide_ext. split; congruence.
  - intros a b c H1%bool_decide_eq_true H2%bool_decide_eq_true. apply bool_decide_eq_true. congruence.
  - intros a b Ha Hs%bool_decide_eq_true. by apply digits_same.
Defined.

#[export] Instance NoStores : SdbRouter unit := {|
  sdbApplyOpLocked _ _ _ _ _ := None;
  sdbGetLocked _ _ := None;
  sdbExistsLocked _ _ := None |}.

Definition start (r : kids) : cfg_st unit :=
  {| cfgRoot := r; externals := []; rootDirty := false; savePending := false; saveDelay := 0; subs := [];
     pendingSaveSems := []; db := tt |}.

Definition obj (l : list (string * json)) : json := JNode false (map (fun p => (Some (str p.1), p.2)) l).
Definition arr (l : list json) : json := JNode true (map (fun v => (None, v)) l).

Definition demo_root : kids :=
  [(Some ($ "s"), obj [("nets", arr [obj [("ssid", JStr ($ "a"))]; obj [("ssid", JStr ($ "b"))]]); ("n", JNum 4)]%string)].

End Plain.
Import Plain.


Lemma op_list_roundtrip_witness :
  let l := [A_str (chr "S") ($ "s.a") ($ "x"); A_int (chr "d") ($ "s.b") (-5); A_del ($ "s.c"); A_sub (chr "+") ($ "s.") 4096; A_save 99] in
  parseOps (length (concat (map encode_op l))) (1 + Zlen (concat (map encode_op l))) (concat (map encode_op l)) =
  Some (false, lefts (map op_of l), [99]).
Proof.
  intros l. apply (op_list_roundtrip l); [|vm_compute; reflexivity].
  repeat (apply Forall_cons; split); try apply Forall_nil; try exact I; cbn [aop_ok]; unfold kv_op;
    repeat match goal with |- _ /\ _ => split end; try lia; try (by left); try (by right); try (apply (bool_decide_unpack _); vm_compute; done).
Defined.

(** ** What a merge means *)

Section Rfc.
Context `{CJ : CJson} `{L : !CJsonLaws CJ}.
Notation oget := (kget cj_same).

End Rfc.


(** ** Behaviours at the edges *)

(** An op list whose string length makes the cursor wrap at 32 bits passes the
    bounds test, and the parser reads outside the list. *)
Theorem op_list_length_wraps :
  storageApplyOps (start []) ([0] ++ [chr "S"] ++ ($ "k") ++ [0] ++ [chr "S"] ++ [255; 255; 255; 255]) (Some 1) None = None.
Proof. vm_compute. reflexivity. Qed.

(** Deleting an object with a trailing dot, as the prefixes of the readers are
    written, drops the owning file but keeps the subtree, and its keys stay readable. *)
Theorem delete_trailing_dot_keeps_subtree :
  let c := {| cfgRoot := [(Some ($ "s"), obj [("wifi", obj [("ssid", JStr ($ "a"))])]%string)];
              externals := [{| e_prefix := $ "s.wifi"; e_path := $ "/f"; e_dirty := false; e_pendingDelete := false |}];
              rootDirty := false; savePending := false; saveDelay := 0; subs := []; pendingSaveSems := []; db := tt |} in
  exists c' n, commit c false [opAppendDelete ($ "s.wifi.")] (Some 1) None = Some (c', n) /\
    map e_pendingDelete (externals c') = [true] /\ storageGetString c' ($ "s.wifi.ssid") [] = $ "a".
Proof. eexists _, _. split; [vm_compute; reflexivity|]. split; vm_compute; reflexivity. Qed.

(** An element that extended an array keeps the index it was written under as its
    name; after an earlier element is deleted the enumeration reports it under that
    stale index, where no value can be read. *)
Theorem walkLeaves_stale_index :
  exists c1 n1 c2 n2,
    commit (start demo_root) false [opAppendKV (chr "S") ($ "s.nets.2.ssid") ($ "c")] (Some 1) None = Some (c1, n1) /\
    commit c1 false [opAppendDelete ($ "s.nets.0")] (Some 1) None = Some (c2, n2) /\
    walkLeaves (root c2) [] = [($ "s.nets.0.ssid", $ "b"); ($ "s.nets.2.ssid", $ "c"); ($ "s.n", $ "4")] /\
    storageGetString c2 ($ "s.nets.2.ssid") [] = [] /\ storageGetString c2 ($ "s.nets.1.ssid") [] = $ "c".
Proof. eexists _, _, _, _. split; [vm_compute; reflexivity|]. split; [vm_compute; reflexivity|]. split_and!; vm_compute; reflexivity. Qed.
