(* ===== verification/Auth.v ===== *)
(** * auth: realms, passwords and session cookies (src/esp-idf/src/auth.cpp)

    The module keeps no copy of its data: everything is read from and written to the
    configuration tree (Config), whose operations it calls. SHA-256 is third-party
    code, a parameter; random bytes, the clocks and the build option
    CONFIG_SPANGAP_AUTH_OPEN are arguments. *)

From stdpp Require Import gmap.
From S2P Require Import Prelude CLib StorageDb Config.
Import Hex Tree Ops Subs Actor.
Open Scope Z_scope.
Open Scope spangap_scope.

Class Sha256 := { sha256 : bytes -> bytes }.

Inductive auth_err_t :=
| AUTH_OK | AUTH_NO_SUCH_REALM | AUTH_WRONG_PASSWORD | AUTH_SAME_AS_OTHER_REALM | AUTH_RATE_LIMITED.

#[export] Instance auth_err_eq_dec : EqDecision auth_err_t.
Proof. solve_decision. Defined.

Definition MAX_COOKIES : Z := 16.
Definition COOKIE_EXPIRY_S : Z := 60 * 24 * 3600.
Definition MAX_BACKOFF_S : Z := 300.

Module Password.
Section Password.
Context `{SH : Sha256}.

(** [snprintf "%02x"] of each byte. *)
Definition toHex (data : bytes) : bytes := hexEncodeBytes data.

(** [sscanf(s, "%2x", &v)]: white space, then at most two characters that make a
    hexadecimal number, sign and 0x included. *)
Definition sscanf2x (s : bytes) : option Z :=
  match skip_while isspace s with
  | c :: rest =>
      if (c =? 43) || (c =? 45) then
        match rest with
        | d :: _ => v ← hexNib d; Some (if c =? 45 then wrap32 (- v) else v)
        | [] => None
        end
      else
        hi ← hexNib c;
        match rest with
        | d :: _ =>
            match hexNib d with
            | Some lo => Some (hi * 16 + lo)
            | None => if (hi =? 0) && ((d =? 120) || (d =? 88)) then None else Some hi
            end
        | [] => Some hi
        end
  | [] => None
  end.

Fixpoint fromHex (hex : bytes) (outLen : nat) : option bytes :=
  match outLen with
  | O => Some []
  | S n => v ← sscanf2x hex; rest ← fromHex (drop 2 hex) n; Some (wrap8 v :: rest)
  end.

Definition hashPassword (password salt : bytes) : bytes :=
  toHex salt ++ [chr ":"] ++ toHex (sha256 (salt ++ password)).

Definition verifyPassword (password stored : bytes) : bool :=
  match strchr stored (chr ":") with
  | None => false
  | Some (pre, _) =>
      if negb (Zlen pre =? 32) then false
      else match fromHex stored 16 with
           | None => false
           | Some salt => streq (hashPassword password salt) stored
           end
  end.

End Password.
End Password.
Import Password.

Module Session.
Section Session.
Context {D : Type} `{CJ : CJson} `{SR : SdbRouter D} `{SH : Sha256}.

(** [auth_open]: CONFIG_SPANGAP_AUTH_OPEN. [me]: the calling task; [storageTask]: the
    storage task. *)
Variables (auth_open : bool) (me storageTask : option Z).

Record auth_st := { cfg : cfg_st D; lastFailMs : Z; failCount : Z }.

Definition with_cfg (a : auth_st) (c : cfg_st D) : auth_st :=
  {| cfg := c; lastFailMs := lastFailMs a; failCount := failCount a |}.
Definition with_fail (a : auth_st) (ms n : Z) : auth_st :=
  {| cfg := cfg a; lastFailMs := ms; failCount := n |}.

(** A bracket of writes. *)
Definition write (a : auth_st) (ops : list bytes) : option auth_st :=
  '(c, _) ← commit (cfg a) false ops me storageTask;
  Some (with_cfg a c).

(** The key buffers hold any index. *)
Definition realmKey (i : Z) (field : bytes) : bytes := ($ "secrets.auth.realms.") ++ sdec i ++ [chr "."] ++ field.
Definition cookieKey (i : Z) (field : bytes) : bytes := ($ "secrets.auth.cookies.") ++ sdec i ++ [chr "."] ++ field.

(** ** Realms *)

Definition realmCount (a : auth_st) : Z := storageArrayCount (cfg a) ($ "secrets.auth.realms.").

Definition realmGet (a : auth_st) (idx : Z) : option (bytes * bytes) :=
  let name := storageGetStr (cfg a) (realmKey idx ($ "name")) 32 [] in
  if Zlen name =? 0 then None
  else Some (name, storageGetStr (cfg a) (realmKey idx ($ "hash")) 128 []).

(** The loop over realms [i], ..., [count - 1]: the first that [p] accepts. *)
Fixpoint firstIndex (n : nat) (i : Z) (p : Z -> bool) : option Z :=
  match n with
  | O => None
  | S n' => if p i then Some i else firstIndex n' (i + 1) p
  end.

Definition realmFind (a : auth_st) (realm : bytes) : option Z :=
  firstIndex (Z.to_nat (realmCount a)) 0
    (fun i => match realmGet a i with Some (name, _) => streq name realm | None => false end).

Definition realmHash (a : auth_st) (i : Z) : bytes := storageGetStr (cfg a) (realmKey i ($ "hash")) 128 [].

Definition LOCKED : bytes := $ "--".

(** Whether some other realm has this password. *)
Definition sameAsOther (a : auth_st) (idx : Z) (newPw : bytes) : bool :=
  match firstIndex (Z.to_nat (realmCount a)) 0
    (fun i => if i =? idx then false
              else let h := realmHash a i in
                   if (Zlen h =? 0) || streq h LOCKED then false else verifyPassword newPw h) with
  | Some _ => true
  | None => false
  end.

(** The write at the end of both setters; [salt] is what [randomBytes] returns. *)
Definition setHash (a : auth_st) (idx : Z) (realm newPw salt : bytes) : option auth_st :=
  write a [opAppendKV (chr "S") (realmKey idx ($ "name")) realm;
           opAppendKV (chr "S") (realmKey idx ($ "hash")) (hashPassword newPw salt)].

Definition authForceSetPassword (a : auth_st) (realm newPw salt : bytes) : option (auth_st * auth_err_t) :=
  if Zlen newPw =? 0 then Some (a, AUTH_WRONG_PASSWORD)
  else
    match realmFind a realm with
    | None => Some (a, AUTH_NO_SUCH_REALM)
    | Some idx =>
        if sameAsOther a idx newPw then Some (a, AUTH_SAME_AS_OTHER_REALM)
        else a ← setHash a idx realm newPw salt; Some (a, AUTH_OK)
    end.

Definition authEnabled (a : auth_st) : bool :=
  if auth_open then false else storageGetInt (cfg a) ($ "secrets.auth.enable") 0 =? 1.

Definition authRealmUnset (a : auth_st) (realm : bytes) : bool :=
  if auth_open then false
  else match realmFind a realm with
       | None => false
       | Some idx => Zlen (realmHash a idx) =? 0
       end.

Definition authPasswd (a : auth_st) (realm oldPw newPw salt : bytes) : option (auth_st * auth_err_t) :=
  match realmFind a realm with
  | None => Some (a, AUTH_NO_SUCH_REALM)
  | Some idx =>
      let hash := realmHash a idx in
      let unset := Zlen hash =? 0 in
      let locked := streq hash LOCKED in
      if auth_open && (Zlen oldPw =? 0) && (Zlen newPw =? 0) then Some (a, AUTH_WRONG_PASSWORD)
      else
        let answer :=
          if unset || locked then
            if negb (Zlen oldPw =? 0) then Some AUTH_WRONG_PASSWORD
            else if Zlen newPw =? 0 then Some AUTH_OK else None
          else if negb (verifyPassword oldPw hash) then Some AUTH_WRONG_PASSWORD
          else if Zlen newPw =? 0 then Some AUTH_WRONG_PASSWORD else None in
        match answer with
        | Some e => Some (a, e)
        | None =>
            if sameAsOther a idx newPw then Some (a, AUTH_SAME_AS_OTHER_REALM)
            else a ← setHash a idx realm newPw salt; Some (a, AUTH_OK)
        end
  end.

(** ** Cookies *)

Definition cookieCount (a : auth_st) : Z := storageArrayCount (cfg a) ($ "secrets.auth.cookies.").

Definition cookieFields : list bytes := [$ "cookie"; $ "expires"; $ "realm"].

(** The copies of slots [i + 1] onto [i], [n] of them. *)
Fixpoint shiftOps (a : auth_st) (n : nat) (i : Z) : list bytes :=
  match n with
  | O => []
  | S n' =>
      map (fun f => opAppendKV (chr "S") (cookieKey i f) (storageGetStr (cfg a) (cookieKey (i + 1) f) 128 [])) cookieFields ++
      shiftOps a n' (i + 1)
  end.

Definition cookieRemove (a : auth_st) (idx : Z) : option auth_st :=
  let count := cookieCount a in
  write a (shiftOps a (Z.to_nat (count - 1 - idx)) idx ++
           map (fun f => opAppendDelete (cookieKey (count - 1) f)) cookieFields).

Definition cookieExpires (a : auth_st) (i : Z) (size : nat) : Z :=
  strtoll (storageGetStr (cfg a) (cookieKey i ($ "expires")) size []).

(** The search for the oldest, from slot [i]: [oldest], [oldestIdx]. *)
Fixpoint oldestLoop (a : auth_st) (n : nat) (i oldest oldestIdx : Z) : Z :=
  match n with
  | O => oldestIdx
  | S n' =>
      let exp := cookieExpires a i 32 in
      if (oldest =? 0) || (exp <? oldest) then oldestLoop a n' (i + 1) exp i
      else oldestLoop a n' (i + 1) oldest oldestIdx
  end.

Definition cookieAdd (a : auth_st) (token realm : bytes) (expires : Z) : option auth_st :=
  let count := cookieCount a in
  '(a, count) ← (if MAX_COOKIES <=? count then
                   a ← cookieRemove a (oldestLoop a (Z.to_nat count) 0 0 0); Some (a, count - 1)
                 else Some (a, count));
  write a [opAppendKV (chr "S") (cookieKey count ($ "cookie")) token;
           opAppendKV (chr "S") (cookieKey count ($ "realm")) realm;
           opAppendKV (chr "S") (cookieKey count ($ "expires")) (trunc 24 (sdec expires))].

(** ** Backoff *)

Fixpoint backoffLoop (fuel : nat) (i n delaySec : Z) : Z :=
  match fuel with
  | O => delaySec
  | S f => if (i <? n) && (delaySec <? MAX_BACKOFF_S) then backoffLoop f (i + 1) n (delaySec * 2) else delaySec
  end.

(** The delay doubles from 1 and stops past 300, so ten rounds are enough. *)
Definition backoffSec (n : Z) : Z :=
  let d := backoffLoop 10 1 n 1 in if MAX_BACKOFF_S <? d then MAX_BACKOFF_S else d.

Definition isRateLimited (a : auth_st) (millis : Z) : bool :=
  if failCount a =? 0 then false
  else wrap32 (millis - lastFailMs a) <? backoffSec (failCount a) * 1000.

(** ** Sessions *)

(** Whether the loop of [authLogin] stops at realm [i]. *)
Definition loginAccepts (a : auth_st) (password tryRealm : bytes) (i : Z) : bool :=
  match realmGet a i with
  | None => false
  | Some (name, hash) =>
      (streq tryRealm [] || streq name tryRealm) && negb ((Zlen hash =? 0) || streq hash LOCKED) &&
      verifyPassword password hash
  end.

(** [authLogin] at [millis] and [now], with [rnd] from [randomBytes]: the error, the
    realm and the cookie. *)
Definition authLogin (a : auth_st) (password tryRealm rnd : bytes) (now millis : Z)
    : option (auth_st * auth_err_t * bytes * bytes) :=
  if isRateLimited a millis then Some (a, AUTH_RATE_LIMITED, [], [])
  else
    match firstIndex (Z.to_nat (realmCount a)) 0 (loginAccepts a password tryRealm) with
    | None => Some (with_fail a millis (failCount a + 1), AUTH_WRONG_PASSWORD, [], [])
    | Some i =>
        let name := default [] (fst <$> realmGet a i) in
        a ← cookieAdd (with_fail a (lastFailMs a) 0) (toHex rnd) name (now + COOKIE_EXPIRY_S);
        Some (a, AUTH_OK, name, toHex rnd)
    end.

(** The first slot that holds [cookie]. *)
Definition cookieFind (a : auth_st) (cookie : bytes) : option Z :=
  firstIndex (Z.to_nat (cookieCount a)) 0
    (fun i => streq (storageGetStr (cfg a) (cookieKey i ($ "cookie")) 64 []) cookie).

Definition authLogout (a : auth_st) (cookie : bytes) : option (auth_st * bool) :=
  if Zlen cookie =? 0 then Some (a, false)
  else
    match cookieFind a cookie with
    | None => Some (a, false)
    | Some i => a ← cookieRemove a i; Some (a, true)
    end.

Definition CLOCK_VALID : Z := 1700000000.

Definition authCheck (a : auth_st) (cookie : bytes) (now : Z) : option (auth_st * bytes) :=
  if Zlen cookie =? 0 then Some (a, [])
  else
    match cookieFind a cookie with
    | None => Some (a, [])
    | Some i =>
        let exp := cookieExpires a i 24 in
        if (CLOCK_VALID <? now) && (CLOCK_VALID <? exp) && (exp <? now)
        then a ← cookieRemove a i; Some (a, [])
        else Some (a, storageGetStr (cfg a) (cookieKey i ($ "realm")) 32 [])
    end.

(** ** Start-up *)

Definition AUTH_VERSION : Z := 1.

(** The literal of [authInit], as [cJSON_Parse] reads it. *)
Definition authDefaults : json :=
  JNode false
    [(Some ($ "enable"), JNum 1);
     (Some ($ "realms"), JNode true [(None, JNode false [(Some ($ "name"), JStr ($ "admin")); (Some ($ "hash"), JStr [])])]);
     (Some ($ "cookies"), JNode true [])].

(** The sweep of expired cookies, from slot [n - 1] down. *)
Fixpoint sweepLoop (a : auth_st) (n : nat) (now : Z) : option auth_st :=
  match n with
  | O => Some a
  | S n' =>
      let i := Z.of_nat n' in
      let exp := cookieExpires a i 32 in
      a ← (if (CLOCK_VALID <? exp) && (exp <? now) then cookieRemove a i else Some a);
      sweepLoop a n' now
  end.

Definition authInit (a : auth_st) (now : Z) : option auth_st :=
  a ← (if storageGetInt (cfg a) ($ "secrets.auth.version") 0 <? AUTH_VERSION
       then write a ((storageDefaultTree (cfg a) ($ "secrets.auth") authDefaults).1 ++
                     [opAppendKVInt (chr "S") ($ "secrets.auth.version") AUTH_VERSION])
       else Some a);
  if CLOCK_VALID <=? now then sweepLoop a (Z.to_nat (cookieCount a)) now else Some a.

End Session.
End Session.
