(* ===== verification/AuthProofs.v ===== *)
(** * auth: what the module guarantees

    Password hashes verify exactly the password they were made from (up to SHA-256
    collisions); the backoff is exact; a login succeeds only for a password of an
    enabled realm; what setting a password changes. *)

From stdpp Require Import gmap.
From S2P Require Import Prelude CLib StorageDb StorageDbValues Config ConfigTree ConfigOps ConfigSet Auth.
Import Hex Tree Ops Subs Actor Password Session.
Open Scope Z_scope.
Open Scope spangap_scope.

(** ** Hashes *)

Lemma hexDigit_char n : 0 <= n < 16 -> 48 <= hexDigit n <= 57 \/ 97 <= hexDigit n <= 102.
Proof. intros H. unfold hexDigit. destruct (Z.ltb_spec n 10); lia. Qed.

Lemma toHex_no_char p c : bytes_ok p -> ~ (48 <= c <= 57 \/ 97 <= c <= 102) -> c ∉ toHex p.
Proof.
  intros H Hc. unfold toHex. induction H as [|b p Hb _ IH]; [apply not_elem_of_nil|]. cbn [hexEncodeBytes].
  destruct (nibbles b Hb) as (N1 & N2 & _). pose proof (hexDigit_char _ N1). pose proof (hexDigit_char _ N2).
  rewrite !not_elem_of_cons. split_and!; [intros ->; auto|intros ->; auto|exact IH].
Qed.

Lemma sscanf2x_digits b rest : is_byte b ->
  sscanf2x (hexDigit (Z.shiftr b 4) :: hexDigit (Z.land b 0xf) :: rest) = Some b.
Proof.
  intros Hb. destruct (nibbles b Hb) as (N1 & N2 & N3). unfold sscanf2x.
  set (hi := Z.shiftr b 4) in *. set (lo := Z.land b 0xf) in *.
  pose proof (hexDigit_char _ N1) as Hc.
  assert (isspace (hexDigit hi) = false) as Hsp by (unfold isspace; repeat case_match; b2p; try done; lia).
  cbn [skip_while]. rewrite Hsp. rewrite !(proj2 (Z.eqb_neq _ _)) by lia. cbn [orb].
  rewrite !hexNib_digit by done. cbn [mbind option_bind]. f_equal.
  unfold hi, lo. change 0xf with (Z.ones 4). rewrite Z.land_ones, Z.shiftr_div_pow2 by lia.
  change (2 ^ 4) with 16. pose proof (Z.div_mod b 16). lia.
Qed.

Lemma fromHex_toHex salt rest : bytes_ok salt -> fromHex (toHex salt ++ rest) (length salt) = Some salt.
Proof.
  intros H. unfold toHex. induction H as [|b p Hb _ IH]; [done|]. cbn [hexEncodeBytes length app fromHex].
  rewrite sscanf2x_digits by done. cbn [mbind option_bind].
  change (drop 2 (hexDigit (Z.shiftr b 4) :: hexDigit (Z.land b 15) :: hexEncodeBytes p ++ rest)) with (hexEncodeBytes p ++ rest).
  rewrite IH. cbn [mbind option_bind]. unfold wrap8, is_byte in *. by rewrite Z.mod_small.
Qed.

Lemma fromHex_shape hex n salt : fromHex hex n = Some salt -> bytes_ok salt /\ length salt = n.
Proof.
  revert hex salt. induction n as [|n IH]; intros hex salt; cbn [fromHex]; [intros [= <-]; split; [constructor|done]|].
  destruct (sscanf2x hex) as [v|]; [|done]. cbn [mbind option_bind].
  destruct (fromHex (drop 2 hex) n) as [r|] eqn:E; [|done]. cbn [mbind option_bind]. intros [= <-].
  destruct (IH _ _ E) as [H1 H2]. split; [constructor; [unfold wrap8, is_byte; apply Z.mod_pos_bound; lia|done]|by cbn; f_equal].
Qed.

Section Hash.
Context `{SH : Sha256}.

Lemma verify_hash pw salt : bytes_ok salt -> length salt = 16%nat -> verifyPassword pw (hashPassword pw salt) = true.
Proof.
  intros Hb Hl. unfold verifyPassword, hashPassword. cbn [app].
  rewrite strchr_app by (apply toHex_no_char; [done|change (chr ":") with 58; lia]).
  unfold toHex at 1. rewrite Zlen_hexEncode. unfold Zlen. rewrite Hl. cbn [negb Z.eqb].
  change (negb (2 * Z.of_nat 16 =? 32)) with false. cbv iota.
  rewrite <- Hl, fromHex_toHex by done. by apply streq_true.
Qed.

(** A stored hash accepts a password exactly when it is the hash of that very
    password under some 16-byte salt; so two passwords accepted by one hash have the
    same SHA-256 after that salt, and nothing malformed is ever accepted. *)
Theorem verifyPassword_exact pw stored :
  verifyPassword pw stored = true <->
  exists salt, bytes_ok salt /\ length salt = 16%nat /\ stored = hashPassword pw salt.
Proof.
  split.
  - unfold verifyPassword. destruct (strchr stored (chr ":")) as [[pre post]|]; [|done].
    destruct (Zlen pre =? 32); [|done]. cbn [negb]. destruct (fromHex stored 16) as [salt|] eqn:E; [|done].
    intros H%streq_true. destruct (fromHex_shape _ _ _ E). by exists salt.
  - intros (salt & Hb & Hl & ->). by apply verify_hash.
Qed.
End Hash.

(** ** Backoff *)

Lemma backoffSec_exact n : 1 <= n -> backoffSec n = Z.min MAX_BACKOFF_S (2 ^ (n - 1)).
Proof.
  intros Hn. unfold MAX_BACKOFF_S.
  assert (n = 1 \/ n = 2 \/ n = 3 \/ n = 4 \/ n = 5 \/ n = 6 \/ n = 7 \/ n = 8 \/ n = 9 \/ 10 <= n) as Hc by lia.
  repeat (destruct Hc as [->|Hc]; [vm_compute; reflexivity|]).
  unfold backoffSec, MAX_BACKOFF_S. assert (backoffLoop 10 1 n 1 = 512) as ->.
  { assert (forall f i d, i < n -> d < 300 -> backoffLoop (S f) i n d = backoffLoop f (i + 1) n (d * 2)) as Hs.
    { intros f i d Hi Hd. cbn [backoffLoop]. unfold MAX_BACKOFF_S. by rewrite !(proj2 (Z.ltb_lt _ _)) by lia. }
    do 9 (rewrite Hs by lia). cbn [backoffLoop]. unfold MAX_BACKOFF_S. rewrite (proj2 (Z.ltb_ge _ 300)) by lia.
    by rewrite andb_false_r. }
  rewrite (proj2 (Z.ltb_lt 300 512)) by lia. rewrite Z.min_l; [done|].
  transitivity (2 ^ 9); [lia|]. apply Z.pow_le_mono_r; lia.
Qed.

(** ** The search loops *)

Lemma firstIndex_Some n i p j : firstIndex n i p = Some j ->
  i <= j < i + Z.of_nat n /\ p j = true /\ forall k, i <= k < j -> p k = false.
Proof.
  revert i. induction n as [|n IH]; intros i; cbn [firstIndex]; [done|]. destruct (p i) eqn:E.
  - intros [= <-]. split; [lia|]. split; [done|]. intros k Hk. lia.
  - intros H. destruct (IH _ H) as (H1 & H2 & H3). split; [lia|]. split; [done|]. intros k Hk.
    destruct (decide (k = i)) as [->|]; [done|]. apply H3. lia.
Qed.

Lemma firstIndex_None n i p : firstIndex n i p = None -> forall k, i <= k < i + Z.of_nat n -> p k = false.
Proof.
  revert i. induction n as [|n IH]; intros i; cbn [firstIndex]; [intros _ k Hk; lia|]. destruct (p i) eqn:E; [done|].
  intros H k Hk. destruct (decide (k = i)) as [->|]; [done|]. apply (IH _ H). lia.
Qed.

Section Login.
Context {D : Type} `{CJ : CJson} `{SR : SdbRouter D} `{SH : Sha256}.
Variables (me storageTask : option Z).
Implicit Types (a : auth_st (D := D)).

(** The password is that of an enabled realm the caller asks for. *)
Definition credential a (password tryRealm name hash : bytes) (i : Z) : Prop :=
  0 <= i < realmCount a /\ realmGet a i = Some (name, hash) /\ (tryRealm = [] \/ name = tryRealm) /\
  hash <> [] /\ hash <> LOCKED /\ verifyPassword password hash = true.

Lemma loginAccepts_ok a password tryRealm i : 0 <= i < realmCount a ->
  loginAccepts a password tryRealm i = true <-> exists name hash, credential a password tryRealm name hash i.
Proof.
  intros Hi. unfold loginAccepts, credential. split.
  - destruct (realmGet a i) as [[name hash]|] eqn:E; [|done]. intros Ha.
    apply andb_true_iff in Ha as [[H1 H2]%andb_true_iff H3]. apply negb_true_iff, orb_false_iff in H2 as [H2 H2'].
    exists name, hash. split; [done|]. split; [done|]. split; [|split; [|split; [by apply streq_false|done]]].
    + apply orb_true_iff in H1 as [H1|H1]; apply streq_true in H1; auto.
    + intros ->. done.
  - intros (name & hash & _ & -> & Ht & Hh & Hl & ->). rewrite andb_true_r. apply andb_true_iff. split.
    + apply orb_true_iff. destruct Ht as [->| ->]; [left|right]; by apply streq_true.
    + apply negb_true_iff, orb_false_iff. split; [|by apply streq_false]. apply Z.eqb_neq. intros E. by apply Zlen_zero in E.
Qed.

Lemma write_failCount a ops a' : write me storageTask a ops = Some a' -> failCount a' = failCount a.
Proof. unfold write. destruct (commit _ _ _ _ _) as [[c n]|]; [|done]. cbn [mbind option_bind]. intros H. by injection H as <-. Qed.

Lemma cookieRemove_failCount a idx a' : cookieRemove me storageTask a idx = Some a' -> failCount a' = failCount a.
Proof. unfold cookieRemove. apply write_failCount. Qed.

Lemma cookieAdd_failCount a token realm exp a' : cookieAdd me storageTask a token realm exp = Some a' -> failCount a' = failCount a.
Proof.
  unfold cookieAdd. intros ([b c] & Eb & Ec)%bind_Some. apply write_failCount in Ec. rewrite Ec.
  destruct (MAX_COOKIES <=? cookieCount a).
  - apply bind_Some in Eb as (b' & Eb & [= -> _]). by apply cookieRemove_failCount in Eb.
  - injection Eb as <- _. reflexivity.
Qed.

(** ** The brackets always go through *)

Lemma sdec_chars i c : 0 <= i -> isdigit c = false -> c ∉ sdec i.
Proof. intros Hi Hc. unfold sdec. rewrite (proj2 (Z.ltb_ge i 0)) by lia. by apply udec_no_char. Qed.

Lemma Zlen_sdec i : Zlen (sdec i) <= 21.
Proof.
  unfold sdec, udec. assert (forall v, Zlen (udec_aux 20 v []) <= 20) as H.
  { intros v. unfold Zlen. pose proof (length_udec_aux 20 v). lia. }
  destruct (i <? 0); [rewrite Zlen_cons|]; pose proof (H i); pose proof (H (- i)); lia.
Qed.

Lemma cookieKey_ok i f : 0 <= i -> f ∈ cookieFields -> (0 ∉ cookieKey i f) /\ Zlen (cookieKey i f) <= 60.
Proof.
  intros Hi Hf. assert ((0 ∉ f) /\ Zlen f <= 7) as [F1 F2].
  { unfold cookieFields in Hf. apply list_elem_of_In in Hf. cbn in Hf.
    destruct Hf as [<-|[<-|[<-|[]]]]; (split; [apply (bool_decide_unpack _); vm_compute; done|vm_compute; discriminate]). }
  unfold cookieKey. split.
  - rewrite !not_elem_of_app. split_and!; [apply (bool_decide_unpack _); vm_compute; done|by apply sdec_chars|
      apply (bool_decide_unpack _); vm_compute; done|done].
  - rewrite !Zlen_app. pose proof (Zlen_sdec i). change (Zlen ($ "secrets.auth.cookies.")) with 21. change (Zlen [chr "."]) with 1. lia.
Qed.

Definition kv (k v : bytes) : aop := aop_of (chr "S") k v.

Lemma kv_encode k v : opAppendKV (chr "S") k v = encode_op (kv k v).
Proof. apply opAppendKV_encode. Qed.

Lemma kv_ok k v : 0 ∉ k -> aop_ok (kv k v).
Proof. intros Hk. unfold kv, aop_of. destruct (inferType v); cbn; split_and!; try done; try (by left); apply atoi_range. Qed.

Lemma kv_size k v : Zlen (encode_op (kv k v)) <= Zlen k + Zlen v + 7.
Proof.
  pose proof (Zlen_nonneg v). unfold kv, aop_of. destruct (inferType v); cbn [encode_op];
    unfold opAppendKVInt, opPutStr, opPutU32, wr32; autorewrite with zlen; lia.
Qed.

Lemma write_total a l : Forall aop_ok l -> Zlen (concat (map encode_op l)) < 2 ^ 32 - 1 ->
  exists a', write me storageTask a (map encode_op l) = Some a'.
Proof.
  intros Ha Hl. destruct (commit_total (cfg a) false l me storageTask Ha Hl) as [[c n] E].
  unfold write. rewrite E. cbn [mbind option_bind]. eauto.
Qed.

Lemma Zlen_getStr (c : cfg_st D) k n : Zlen (storageGetStr c k n []) <= Z.of_nat n.
Proof. unfold storageGetStr. repeat case_match; match goal with |- Zlen (trunc ?n ?s) <= _ => pose proof (Zlen_trunc n s); lia end. Qed.

Definition shift_aops a (n : nat) (i : Z) : list aop :=
  concat (map (fun j => map (fun f => kv (cookieKey (i + Z.of_nat j) f) (storageGetStr (cfg a) (cookieKey (i + Z.of_nat j + 1) f) 128 [])) cookieFields)
    (seq 0 n)).

Lemma shiftOps_aops a n i : shiftOps a n i = map encode_op (shift_aops a n i).
Proof.
  unfold shift_aops. revert i. induction n as [|n IH]; intros i; [done|]. cbn [shiftOps seq map concat]. rewrite map_app. f_equal.
  - rewrite map_map. apply map_ext. intros f. by rewrite kv_encode, Z.add_0_r.
  - rewrite IH, <- seq_shift, map_map. apply (f_equal (map encode_op)), (f_equal (@concat aop)), map_ext. intros j.
    replace (i + Z.of_nat (S j)) with (i + 1 + Z.of_nat j) by lia. reflexivity.
Qed.

Lemma aops_size (l : list aop) m : Forall (fun x => Zlen (encode_op x) <= m) l -> Zlen (concat (map encode_op l)) <= m * Zlen l.
Proof.
  induction 1 as [|x l Hx _ IH]; [cbn [map concat]; rewrite !Zlen_nil, Z.mul_0_r; done|]. cbn [map concat]. rewrite Zlen_app, Zlen_cons. lia.
Qed.

Lemma Zlen_concat_map {A B} (f : A -> list B) m l : (forall x, Zlen (f x) = m) -> Zlen (concat (map f l)) = m * Zlen l.
Proof.
  intros Hf. induction l as [|x l IH]; [change (0 = m * 0); lia|]. cbn [map concat].
  rewrite Zlen_app, Zlen_cons, Hf, IH. lia.
Qed.

Lemma shift_aops_ok a n i : 0 <= i ->
  Forall aop_ok (shift_aops a n i) /\ Forall (fun x => Zlen (encode_op x) <= 200) (shift_aops a n i) /\
  Zlen (shift_aops a n i) = 3 * Z.of_nat n.
Proof.
  intros Hi. unfold shift_aops. split; [|split].
  - apply Forall_concat, Forall_map, Forall_forall. intros j _. apply Forall_map, Forall_forall. intros f Hf.
    apply kv_ok. apply cookieKey_ok; [lia|done].
  - apply Forall_concat, Forall_map, Forall_forall. intros j _. apply Forall_map, Forall_forall. intros f Hf. unfold compose.
    etransitivity; [apply kv_size|]. destruct (cookieKey_ok (i + Z.of_nat j) f ltac:(lia) Hf) as [_ H].
    pose proof (Zlen_getStr (cfg a) (cookieKey (i + Z.of_nat j + 1) f) 128). lia.
  - rewrite (Zlen_concat_map _ 3); [unfold Zlen; rewrite length_seq; reflexivity|]. intros j. apply Zlen_map.
Qed.

Lemma cookieRemove_total a idx : 0 <= idx -> 0 < cookieCount a <= 2 ^ 16 -> exists a', cookieRemove me storageTask a idx = Some a'.
Proof.
  intros Hi Hc. unfold cookieRemove. rewrite shiftOps_aops.
  set (n := Z.to_nat (cookieCount a - 1 - idx)). set (dels := map (fun f => A_del (cookieKey (cookieCount a - 1) f)) cookieFields).
  assert (map (fun f => opAppendDelete (cookieKey (cookieCount a - 1) f)) cookieFields = map encode_op dels) as ->
    by (unfold dels; by rewrite map_map).
  rewrite <- map_app. destruct (shift_aops_ok a n idx Hi) as (S1 & S2 & S3).
  assert (forall f, f ∈ cookieFields -> (0 ∉ cookieKey (cookieCount a - 1) f) /\ Zlen (cookieKey (cookieCount a - 1) f) <= 60) as Hk
    by (intros f Hf; apply cookieKey_ok; [lia|done]).
  apply write_total.
  - apply Forall_app. split; [done|]. apply Forall_map, Forall_forall. intros f Hf. by apply Hk.
  - assert (Forall (fun x => Zlen (encode_op x) <= 200) (shift_aops a n idx ++ dels)) as Hall.
    { apply Forall_app. split; [done|]. apply Forall_map, Forall_forall. intros f Hf. unfold compose. cbn [encode_op].
      unfold opAppendDelete, opPutStr. autorewrite with zlen. pose proof (proj2 (Hk f Hf)). lia. }
    apply aops_size in Hall. rewrite Zlen_app, S3 in Hall. change (Zlen dels) with 3 in Hall.
    assert (Z.of_nat n <= 2 ^ 16) by lia. lia.
Qed.

Lemma oldestLoop_range a n i o oi : 0 <= i -> 0 <= oi -> 0 <= oldestLoop a n i o oi.
Proof. revert i o oi. induction n as [|n IH]; intros i o oi Hi Ho; cbn [oldestLoop]; [done|]. case_match; apply IH; lia. Qed.

Lemma cookieAdd_total a token realm exp : 0 <= cookieCount a <= 2 ^ 16 -> Zlen token <= 64 -> Zlen realm <= 64 ->
  exists a', cookieAdd me storageTask a token realm exp = Some a'.
Proof.
  intros Hc Ht Hr. unfold cookieAdd.
  assert (forall b c, 0 <= c -> exists b', write me storageTask b [opAppendKV (chr "S") (cookieKey c ($ "cookie")) token;
     opAppendKV (chr "S") (cookieKey c ($ "realm")) realm; opAppendKV (chr "S") (cookieKey c ($ "expires")) (trunc 24 (sdec exp))] = Some b') as Hw.
  { intros b c Hc0. rewrite !kv_encode.
    destruct (cookieKey_ok c ($ "cookie") Hc0) as [K1 L1]; [apply list_elem_of_In; cbn; auto|].
    destruct (cookieKey_ok c ($ "realm") Hc0) as [K2 L2]; [apply list_elem_of_In; cbn; auto|].
    destruct (cookieKey_ok c ($ "expires") Hc0) as [K3 L3]; [apply list_elem_of_In; cbn; auto|].
    apply (write_total b [_; _; _]); [repeat constructor; by apply kv_ok|]. cbn [map concat]. rewrite !Zlen_app, Zlen_nil.
    pose proof (kv_size (cookieKey c ($ "cookie")) token). pose proof (kv_size (cookieKey c ($ "realm")) realm).
    pose proof (kv_size (cookieKey c ($ "expires")) (trunc 24 (sdec exp))). pose proof (Zlen_trunc 24 (sdec exp)). lia. }
  destruct (Z.leb_spec MAX_COOKIES (cookieCount a)) as [Hge|Hlt]; unfold MAX_COOKIES in *.
  - destruct (cookieRemove_total a (oldestLoop a (Z.to_nat (cookieCount a)) 0 0 0)) as [b ->]; [apply oldestLoop_range; lia|lia|].
    cbn [mbind option_bind]. apply Hw. lia.
  - cbn [mbind option_bind]. apply Hw. lia.
Qed.

Lemma cookieCount_with_fail a ms n : cookieCount (with_fail a ms n) = cookieCount a.
Proof. unfold cookieCount. replace (cfg (with_fail a ms n)) with (cfg a) by reflexivity. reflexivity. Qed.

(** The backoff runs: min(300, 2^(n-1)) seconds after the n-th failure in a row, by the
    32-bit millisecond clock. *)
Definition backing_off (a : auth_st (D := D)) (millis : Z) : Prop :=
  0 < failCount a /\ wrap32 (millis - lastFailMs a) < 1000 * Z.min MAX_BACKOFF_S (2 ^ (failCount a - 1)).

Lemma isRateLimited_exact a millis : 0 <= failCount a -> isRateLimited a millis = true <-> backing_off a millis.
Proof.
  intros Hf. unfold isRateLimited, backing_off. destruct (Z.eqb_spec (failCount a) 0) as [|Hn]; [split; [done|lia]|].
  rewrite backoffSec_exact, Z.ltb_lt by lia. split; [intros H; split; lia|intros [_ H]; lia].
Qed.

(** C25: a login is refused unseen, with the failures as they were, exactly while the backoff
    runs (min(300, 2^(n-1)) seconds after the n-th failure in a row, by the 32-bit
    millisecond clock); otherwise it fails, counting one more failure, exactly when no
    enabled realm the caller asks for has the password; a success clears the count and
    names such a realm. *)
Theorem authLogin_decides a password tryRealm rnd now millis :
  0 <= failCount a -> length rnd = 16%nat -> 0 <= cookieCount a <= 2 ^ 16 ->
  match authLogin me storageTask a password tryRealm rnd now millis with
  | Some (a', AUTH_RATE_LIMITED, _, _) => a' = a /\ backing_off a millis
  | Some (a', AUTH_WRONG_PASSWORD, _, _) =>
      ~ backing_off a millis /\ a' = with_fail a millis (failCount a + 1) /\
      forall i name hash, ~ credential a password tryRealm name hash i
  | Some (a', AUTH_OK, realm, cookie) =>
      ~ backing_off a millis /\ failCount a' = 0 /\ cookie = toHex rnd /\ exists i hash, credential a password tryRealm realm hash i
  | _ => False
  end.
Proof.
  intros Hf Hrnd Hcc. unfold authLogin. pose proof (isRateLimited_exact a millis Hf) as Hb. destruct (isRateLimited a millis) eqn:El.
  { split; [done|]. by apply Hb. }
  assert (~ backing_off a millis) as Nb by (intros H; apply Hb in H; congruence).
  destruct (firstIndex _ 0 (loginAccepts a password tryRealm)) as [i|] eqn:Ei.
  - apply firstIndex_Some in Ei as (Hi & Ha & _). apply loginAccepts_ok in Ha as (name & hash & Hc); [|lia].
    pose proof Hc as (_ & E & _). rewrite E. change (default [] (fst <$> Some (name, hash))) with name.
    destruct (cookieAdd_total (with_fail a (lastFailMs a) 0) (toHex rnd) name (now + COOKIE_EXPIRY_S)) as [a' Ec].
    { rewrite cookieCount_with_fail. exact Hcc. }
    { unfold toHex. rewrite Zlen_hexEncode. unfold Zlen. lia. }
    { clear -E. unfold realmGet in E. destruct (_ =? 0); [done|]. injection E as E _. rewrite <- E.
      pose proof (Zlen_getStr (cfg a) (realmKey i ($ "name")) 32). lia. }
    rewrite Ec. cbn [mbind option_bind].
    split; [done|]. split; [by rewrite (cookieAdd_failCount _ _ _ _ _ Ec)|]. split; [done|by exists i, hash].
  - split; [done|]. split; [done|]. intros i name hash Hc.
    pose proof Hc as (Hi & _). pose proof (firstIndex_None _ _ _ Ei i ltac:(lia)) as Hno.
    rewrite (proj2 (loginAccepts_ok a password tryRealm i Hi)) in Hno; [done|by exists name, hash].
Qed.
End Login.

(** ** A device with one realm *)

Module Demo.
Import Plain.

(** Any 32-byte digest serves: here the first bytes of the input. *)
#[export] Instance ToySha : Sha256 := {| sha256 s := take 32 (s ++ replicate 32 0) |}.

Definition salt : bytes := replicate 16 7.
Definition pw : bytes := $ "spangap".

Definition device (cookies : list json) : auth_st (D := unit) :=
  {| cfg := start [(Some ($ "secrets"), obj [("auth",
       obj [("realms", arr [obj [("name", JStr ($ "admin")); ("hash", JStr (hashPassword pw salt))]]);
            ("cookies", arr cookies)])])]%string;
     lastFailMs := 0; failCount := 0 |}.

End Demo.
Import Plain Demo.

Lemma authLogin_decides_witness :
  match authLogin (Some 1) None (device []) pw [] (replicate 16 3) 0 0 with
  | Some (a', AUTH_OK, realm, cookie) => failCount a' = 0 /\ realm = $ "admin" /\ cookie = toHex (replicate 16 3)
  | _ => False
  end.
Proof.
  pose proof (authLogin_decides (Some 1) None (device []) pw [] (replicate 16 3) 0 0) as H.
  specialize (H ltac:(vm_compute; discriminate) eq_refl ltac:(vm_compute; split; discriminate)).
  assert (exists a, authLogin (Some 1) None (device []) pw [] (replicate 16 3) 0 0 = Some (a, AUTH_OK, $ "admin", toHex (replicate 16 3)))
    as [a E] by (eexists; vm_compute; reflexivity).
  rewrite E in H |- *. cbv iota beta in H |- *. destruct H as (_ & H1 & H2 & _).
  split; [exact H1|]. split; [reflexivity|exact H2].
Defined.

(** The sixteen sessions of a full table, the one that expires first in slot 0. *)
Definition full : list json :=
  map (fun n => obj [("cookie", JStr (chr "c" :: sdec (Z.of_nat n))); ("realm", JStr ($ "admin"));
                     ("expires", JStr (sdec (1800000000 + Z.of_nat n)))]%string) (seq 0 16).

Definition first_user : bytes := $ "c0".
Definition logged_in (a : auth_st (D := unit)) (cookie : bytes) : bool :=
  match authCheck (Some 1) None a cookie 0 with Some (_, realm) => negb (bool_decide (realm = [])) | None => false end.

(** Signing out leaves an empty slot at the end of the cookie array, and the search
    for the session to evict starts over after an empty slot: on a full table, after two
    users have signed out, the second of the next two logins evicts the session of the
    first one, made a moment before, and the session that expires first stays. *)
Theorem cookieAdd_evicts_newest :
  ('(a, _) ← authLogout (Some 1) None (device full) ($ "c3");
   '(a, _) ← authLogout (Some 1) None a ($ "c4");
   '(a, _, _, newest) ← authLogin (Some 1) None a pw [] (replicate 16 1) 1800001000 0;
   '(a', _, _, _) ← authLogin (Some 1) None a pw [] (replicate 16 2) 1800002000 0;
   Some (logged_in a newest, logged_in a' newest, logged_in a' first_user)) = Some (true, false, true).
Proof. vm_compute. reflexivity. Qed.
