(* ===== verification/Rtos.v ===== *)
(** * FreeRTOS objects

    The stream buffers and queues of FreeRTOS that the sources use, as interfaces: the
    operations, without waiting, and the documented behaviour the code relies on. A
    binary semaphore is a token, present or not. *)

From S2P Require Import Prelude.
Open Scope Z_scope.

(** [xStreamBufferCreateStatic(n, ..)], [xStreamBufferSend(.., 0)] with the count it
    returns, [xStreamBufferReceive(.., n, 0)], [xStreamBufferReset] and the two
    counts. *)
Class StreamBuf (SB : Type) := {
  xStreamBufferCreate : Z -> SB;
  xStreamBufferSend : SB -> bytes -> SB * Z;
  xStreamBufferReceive : SB -> Z -> SB * bytes;
  xStreamBufferReset : SB -> SB;
  xStreamBufferBytesAvailable : SB -> Z;
  xStreamBufferSpacesAvailable : SB -> Z
}.

(** [xQueueCreateStatic(n, ..)], [xQueueSend(.., 0)] ([None]: full) and
    [xQueueReceive(.., 0)] ([None]: empty). *)
Class RtosQueue (Q M : Type) := {
  xQueueCreate : Z -> Q;
  xQueueSend : Q -> M -> option Q;
  xQueueReceive : Q -> option (M * Q)
}.

(** A stream buffer is a byte fifo; created with [n] bytes of storage it holds one byte
    less. A send writes what fits, a receive takes what is there. *)
Class StreamBufLaws (SB : Type) `{StreamBuf SB} := {
  sb_bytes : SB -> bytes;
  sb_cap : SB -> Z;
  sb_create_spec : forall n, sb_bytes (xStreamBufferCreate n) = [] /\ (1 <= n -> sb_cap (xStreamBufferCreate n) = n - 1);
  sb_fill : forall b, Zlen (sb_bytes b) <= sb_cap b;
  sb_send_spec : forall b d,
    let n := Z.min (Zlen d) (sb_cap b - Zlen (sb_bytes b)) in
    (xStreamBufferSend b d).2 = n /\
    sb_bytes (xStreamBufferSend b d).1 = sb_bytes b ++ take (Z.to_nat n) d /\
    sb_cap (xStreamBufferSend b d).1 = sb_cap b;
  sb_receive_spec : forall b n, 0 <= n ->
    (xStreamBufferReceive b n).2 = take (Z.to_nat n) (sb_bytes b) /\
    sb_bytes (xStreamBufferReceive b n).1 = drop (Z.to_nat n) (sb_bytes b) /\
    sb_cap (xStreamBufferReceive b n).1 = sb_cap b;
  sb_reset_spec : forall b, sb_bytes (xStreamBufferReset b) = [] /\ sb_cap (xStreamBufferReset b) = sb_cap b;
  sb_available : forall b, xStreamBufferBytesAvailable b = Zlen (sb_bytes b);
  sb_spaces : forall b, xStreamBufferSpacesAvailable b = sb_cap b - Zlen (sb_bytes b)
}.

(** A queue is a bounded fifo of messages. *)
Class RtosQueueLaws (Q M : Type) `{RtosQueue Q M} := {
  q_items : Q -> list M;
  q_depth : Q -> Z;
  q_create_spec : forall n, q_items (xQueueCreate n) = [] /\ q_depth (xQueueCreate n) = n;
  q_send_spec : forall q m,
    match xQueueSend q m with
    | Some q' => q_items q' = q_items q ++ [m] /\ q_depth q' = q_depth q
    | None => q_depth q <= Zlen (q_items q)
    end;
  q_receive_spec : forall q,
    match xQueueReceive q with
    | Some (m, q') => q_items q = m :: q_items q' /\ q_depth q' = q_depth q
    | None => q_items q = []
    end
}.

(** ** The lists themselves are such objects. *)
Module ListRtos.

(** The bytes, and the capacity; bytes past it do not count. *)
Definition list_sb : Type := bytes * Z.
Definition lcap (b : list_sb) : Z := Z.max 0 b.2.
Definition lbytes (b : list_sb) : bytes := take (Z.to_nat (lcap b)) b.1.

#[export] Instance ListStreamBuf : StreamBuf list_sb := {|
  xStreamBufferCreate n := ([], n - 1);
  xStreamBufferSend b d :=
    let n := Z.min (Zlen d) (lcap b - Zlen (lbytes b)) in ((lbytes b ++ take (Z.to_nat n) d, b.2), n);
  xStreamBufferReceive b n := ((drop (Z.to_nat n) (lbytes b), b.2), take (Z.to_nat n) (lbytes b));
  xStreamBufferReset b := ([], b.2);
  xStreamBufferBytesAvailable b := Zlen (lbytes b);
  xStreamBufferSpacesAvailable b := lcap b - Zlen (lbytes b) |}.

Lemma lbytes_fits (l : bytes) c : Zlen l <= Z.max 0 c -> lbytes (l, c) = l.
Proof. intros H. unfold lbytes, lcap. cbn [fst snd]. apply take_ge. unfold Zlen in H. lia. Qed.

Lemma lbytes_fill b : Zlen (lbytes b) <= lcap b.
Proof. unfold lbytes. rewrite Zlen_take. unfold lcap. lia. Qed.

#[export] Instance ListStreamBufLaws : StreamBufLaws list_sb.
Proof.
  refine {| sb_bytes := lbytes; sb_cap := lcap; sb_fill := lbytes_fill |}; try done.
  - intros n. split; [by apply lbytes_fits; rewrite Zlen_nil; lia|]. intros Hn. change (Z.max 0 (n - 1) = n - 1). lia.
  - intros b d n. cbn. split; [done|]. split; [|done]. apply lbytes_fits.
    pose proof (lbytes_fill b). unfold n, lcap in *. zlia.
  - intros b n Hn. cbn. split; [done|]. split; [|done]. apply lbytes_fits.
    pose proof (lbytes_fill b). unfold lcap in *. zlia.
  - intros b. split; [|done]. apply lbytes_fits. rewrite Zlen_nil. lia.
Defined.

#[export] Instance ListRtosQueue (M : Type) : RtosQueue (list M * Z) M := {|
  xQueueCreate n := ([], n);
  xQueueSend q m := if Zlen q.1 <? q.2 then Some (q.1 ++ [m], q.2) else None;
  xQueueReceive q := match q.1 with [] => None | m :: l => Some (m, (l, q.2)) end |}.

#[export] Instance ListRtosQueueLaws (M : Type) : RtosQueueLaws (list M * Z) M.
Proof.
  refine {| q_items := fst; q_depth := snd |}; [done|..].
  - intros [l n] m. cbn. destruct (Z.ltb_spec (Zlen l) n); [done|lia].
  - intros [[|m l] n]; done.
Defined.

End ListRtos.
