(* ===== verification/Its.v ===== *)
(** * its: inter-task streaming (esp-idf/src/its.cpp, esp-idf/include/its.h)

    The tables of the transport (stream-buffer pool, packet links, connections, tasks),
    the payload heap with its ownership counters, and every operation as a function of
    the calling task and the state. One call is one step, apart from the waits: a
    waiting loop is given the [wake]s it sees, what the other tasks did meanwhile and
    the tick count, and answers [None] while it still waits. The application's
    callbacks are the parameter [app]; a callback runs to its end inside the call.
    Freeing a block that is not live, or reading outside one, sets [bad]; using a
    stream buffer or an inbox that does not exist sets [stale]. *)

From stdpp Require Import gmap.
From S2P Require Import Prelude CLib Rtos.
Open Scope Z_scope.
Open Scope spangap_scope.

(** The first position whose element satisfies [p]. *)
Fixpoint find_idx {A} (p : A -> bool) (l : list A) : option nat :=
  match l with
  | [] => None
  | x :: l => if p x then Some O else S <$> find_idx p l
  end.

Definition count_if {A} (p : A -> bool) (l : list A) : Z := Zlen (List.filter p l).

Definition is_some {A} (o : option A) : bool := match o with Some _ => true | None => false end.

(** A store to an [int8_t]. *)
Definition to_s8 (v : Z) : Z := let u := wrap8 v in if u <? 128 then u else u - 256.

Module Data.

Inductive its_port_kind_t := ITS_STREAM | ITS_PACKET_LEGACY | ITS_PACKET.
#[export] Instance its_port_kind_eq_dec : EqDecision its_port_kind_t.
Proof. solve_decision. Defined.

Inductive its_kind_t :=
| ITS_K_CONNECT | ITS_K_DISC_FROM_CLIENT | ITS_K_DISC_FROM_SERVER
| ITS_K_FORWARD | ITS_K_AUX | ITS_K_CONNECT_CANCEL.
#[export] Instance its_kind_eq_dec : EqDecision its_kind_t.
Proof. solve_decision. Defined.

Definition ITS_MAX_POOL : Z := 128.
Definition ITS_MAX_LINKS : Z := 256.
Definition ITS_MAX_CONNS : Z := 128.
Definition ITS_MAX_TASKS : Z := 48.
Definition ITS_MAX_PORTS : Z := 8.
Definition ITS_MAX_MSG_DATA : Z := 320.
Definition CONFIG_SPANGAP_ITS_INBOX_DEPTH : Z := 32.
Definition CONFIG_SPANGAP_ITS_INBOX_MSG_MAX : Z := 4096.
Definition CONFIG_SPANGAP_ITS_PKT_DEPTH : Z := 16.
Definition CONFIG_SPANGAP_ITS_MSG_MAX : Z := 65536.
Definition portMAX_DELAY : Z := UINT32_MAX.
Definition DESC_SIZE : Z := 8.

(** [its_ctr_t]: [size_t] counters. *)
Record its_ctr := { liveBlocks : Z; liveBytes : Z; hwBlocks : Z; hwBytes : Z }.

(** [its_msg]; [m_pickup] is the flag ITS_F_PICKUP, [m_payload] an address or 0. *)
Record its_msg := {
  m_kind : its_kind_t; m_pickup : bool; m_port : Z; m_handle : Z; m_ref : Z; m_nonce : Z;
  m_sender : Z; m_cb : option Z; m_len : Z; m_payload : Z
}.

Record its_conn := {
  active : bool; packetBased : bool; kind : its_port_kind_t; noPool : bool;
  clientTask : option Z; serverTask : option Z;
  toPoolIdx : Z; fromPoolIdx : Z; toLinkIdx : Z; fromLinkIdx : Z;
  itsPort : Z; clientRef : Z; serverRef : Z; connectNonce : Z;
  cliRecvCb : option Z; cliDisconnectCb : option Z
}.

Record its_aux_entry := { a_port : Z; a_cb : Z }.

Record its_server_port := {
  sp_active : bool; sp_packetBased : bool; sp_kind : its_port_kind_t; sp_port : Z; maxHandles : Z;
  toSize : Z; fromSize : Z; sp_depth : Z; sp_maxMsg : Z;
  onConnect : option Z; onBusy : option Z; onDisconnect : option Z; onRecv : option Z
}.

Section Tables.
Context {SB Q : Type}.

(** [its_pool_entry_t]; the control block and the ring storage come and go with the
    handle. *)
Record its_pool_entry := {
  p_handle : option SB; p_size : Z; p_pooled : bool; triggerLevel : Z; p_inUse : bool;
  p_freeNotify : Z; p_spaceFreedSem : option bool
}.

Record its_link := {
  ring : option SB; depth : Z; byteCap : Z; maxMsg : Z; outstanding : Z;
  l_freeNotify : Z; l_spaceFreedSem : option bool; l_inUse : bool
}.

(** [its_task_t], with the task's [s_pendingPay]. The arrays [serverPorts] and
    [auxCallbacks] are their used prefixes. *)
Record its_task := {
  task : option Z; serverPorts : list its_server_port; maxConns : Z;
  ackSem : option bool; ackHandle : Z; ackNonce : Z; connectGen : Z; pickupSem : option bool;
  auxCallbacks : list its_aux_entry; inbox : option Q; inboxMsgMax : Z; inboxDepth : Z;
  isServer : bool; isClient : bool; no_pool : bool; pendingPay : Z
}.

(** [heap]: the live payload blocks by address. [notified]: the tasks given a
    notification, latest first. *)
Record its := {
  itsPool : list its_pool_entry; itsLinks : list its_link;
  connTable : list its_conn; connCounter : Z; s_tasks : list its_task;
  heap : gmap Z bytes; hdrCtr : its_ctr; payCtr : its_ctr; notified : list Z; bad : bool; stale : bool
}.

Definition with_pool (s : its) (v : list its_pool_entry) : its :=
  {| itsPool := v; itsLinks := itsLinks s; connTable := connTable s; connCounter := connCounter s; s_tasks := s_tasks s;
     heap := heap s; hdrCtr := hdrCtr s; payCtr := payCtr s; notified := notified s; bad := bad s; stale := stale s |}.
Definition with_links (s : its) (v : list its_link) : its :=
  {| itsPool := itsPool s; itsLinks := v; connTable := connTable s; connCounter := connCounter s; s_tasks := s_tasks s;
     heap := heap s; hdrCtr := hdrCtr s; payCtr := payCtr s; notified := notified s; bad := bad s; stale := stale s |}.
Definition with_conns (s : its) (v : list its_conn) (n : Z) : its :=
  {| itsPool := itsPool s; itsLinks := itsLinks s; connTable := v; connCounter := n; s_tasks := s_tasks s;
     heap := heap s; hdrCtr := hdrCtr s; payCtr := payCtr s; notified := notified s; bad := bad s; stale := stale s |}.
Definition with_tasks (s : its) (v : list its_task) : its :=
  {| itsPool := itsPool s; itsLinks := itsLinks s; connTable := connTable s; connCounter := connCounter s; s_tasks := v;
     heap := heap s; hdrCtr := hdrCtr s; payCtr := payCtr s; notified := notified s; bad := bad s; stale := stale s |}.
Definition with_heap (s : its) (v : gmap Z bytes) (h p : its_ctr) (b : bool) : its :=
  {| itsPool := itsPool s; itsLinks := itsLinks s; connTable := connTable s; connCounter := connCounter s; s_tasks := s_tasks s;
     heap := v; hdrCtr := h; payCtr := p; notified := notified s; bad := b; stale := stale s |}.

(** [xTaskNotifyGive]. *)
Definition notifyGive (s : its) (t : option Z) : its :=
  match t with
  | None => s
  | Some t => {| itsPool := itsPool s; itsLinks := itsLinks s; connTable := connTable s; connCounter := connCounter s;
                 s_tasks := s_tasks s; heap := heap s; hdrCtr := hdrCtr s; payCtr := payCtr s;
                 notified := t :: notified s; bad := bad s; stale := stale s |}
  end.

Definition set_bad (s : its) : its := with_heap s (heap s) (hdrCtr s) (payCtr s) true.
Definition set_stale (s : its) : its :=
  {| itsPool := itsPool s; itsLinks := itsLinks s; connTable := connTable s; connCounter := connCounter s; s_tasks := s_tasks s;
     heap := heap s; hdrCtr := hdrCtr s; payCtr := payCtr s; notified := notified s; bad := bad s; stale := true |}.

Definition upd_pool (s : its) (i : nat) (f : its_pool_entry -> its_pool_entry) : its := with_pool s (alter f i (itsPool s)).
Definition upd_link (s : its) (i : nat) (f : its_link -> its_link) : its := with_links s (alter f i (itsLinks s)).
Definition upd_conn (s : its) (h : Z) (f : its_conn -> its_conn) : its :=
  with_conns s (alter f (Z.to_nat h) (connTable s)) (connCounter s).
Definition upd_task (s : its) (i : nat) (f : its_task -> its_task) : its := with_tasks s (alter f i (s_tasks s)).

End Tables.

(** [xSemaphoreGive] on a binary semaphore that may be NULL. *)
Definition sem_give (o : option bool) : option bool := match o with Some _ => Some true | None => None end.
Definition sem_clear (o : option bool) : option bool := match o with Some _ => Some false | None => None end.

End Data.
Import Data.

(** What the allocator answers during a call: buffers, semaphores, headers. *)
Record avail := { av_buf : bool; av_sem : bool; av_hdr : bool }.

Module Tables.
Section Tables.
Context {SB Q : Type} `{SBI : StreamBuf SB} `{RQ : RtosQueue Q its_msg}.

(** [malloc h n]: the address of a new block of [n] bytes, 0 when there is none. *)
Variable malloc : gmap Z bytes -> Z -> Z.

(** [room]: what the other tasks do while a send waits for room in a full inbox. *)
Variable room : its (SB := SB) (Q := Q) -> its (SB := SB) (Q := Q).

#[local] Abbreviation its := (its (SB := SB) (Q := Q)).
Implicit Types (s : its).

(** ** The stream-buffer pool *)

Definition pool_free_match (size : Z) (e : its_pool_entry (SB := SB)) : bool :=
  negb (p_inUse e) && p_pooled e && is_some (p_handle e) && (p_size e =? size).
Definition pool_empty (e : its_pool_entry (SB := SB)) : bool := negb (p_inUse e) && negb (is_some (p_handle e)).

Definition pool_reuse (e : its_pool_entry (SB := SB)) : its_pool_entry :=
  {| p_handle := xStreamBufferReset <$> p_handle e; p_size := p_size e; p_pooled := p_pooled e; triggerLevel := 1;
     p_inUse := true; p_freeNotify := p_freeNotify e; p_spaceFreedSem := p_spaceFreedSem e |}.

(** A fresh entry in a slot whose semaphore may already exist; the code leaves it
    marked in use when an allocation fails. *)
Definition pool_fresh (size : Z) (noPool : bool) (av : avail) (sem : option bool) : its_pool_entry (SB := SB) :=
  {| p_handle := if av_buf av then Some (xStreamBufferCreate size) else None; p_size := size; p_pooled := negb noPool;
     triggerLevel := 1; p_inUse := true; p_freeNotify := 0;
     p_spaceFreedSem := match sem with Some t => Some t | None => if av_sem av then Some false else None end |}.

Definition entry_ok (e : its_pool_entry (SB := SB)) : bool := is_some (p_handle e) && is_some (p_spaceFreedSem e).

Definition poolGet s (size : Z) (noPool : bool) (av : avail) : its * Z :=
  if size =? 0 then (s, -1)
  else
    match (if noPool then None else find_idx (pool_free_match size) (itsPool s)) with
    | Some i => (upd_pool s i pool_reuse, Z.of_nat i)
    | None =>
        match find_idx pool_empty (itsPool s) with
        | Some i =>
            let e := pool_fresh size noPool av (match itsPool s !! i with Some e => p_spaceFreedSem e | None => None end) in
            (with_pool s (<[i := e]> (itsPool s)), if entry_ok e then Z.of_nat i else -1)
        | None =>
            if ITS_MAX_POOL <=? Zlen (itsPool s) then (s, -1)
            else
              let e := pool_fresh size noPool av None in
              (with_pool s (itsPool s ++ [e]), if entry_ok e then Zlen (itsPool s) else -1)
        end
    end.

Definition in_table {A} (idx : Z) (l : list A) : bool := (0 <=? idx) && (idx <? Zlen l).

Definition pool_release (e : its_pool_entry (SB := SB)) : its_pool_entry :=
  if p_pooled e then
    {| p_handle := xStreamBufferReset <$> p_handle e; p_size := p_size e; p_pooled := true; triggerLevel := 1;
       p_inUse := false; p_freeNotify := p_freeNotify e; p_spaceFreedSem := sem_give (p_spaceFreedSem e) |}
  else
    {| p_handle := None; p_size := 0; p_pooled := false; triggerLevel := 1; p_inUse := false; p_freeNotify := 0;
       p_spaceFreedSem := sem_give (p_spaceFreedSem e) |}.

Definition poolFree s (idx : Z) : its := if in_table idx (itsPool s) then upd_pool s (Z.to_nat idx) pool_release else s.

Definition pool_retain (e : its_pool_entry (SB := SB)) : its_pool_entry :=
  {| p_handle := p_handle e; p_size := p_size e; p_pooled := true; triggerLevel := triggerLevel e;
     p_inUse := p_inUse e; p_freeNotify := p_freeNotify e; p_spaceFreedSem := p_spaceFreedSem e |}.
Definition poolRetainOnFree s (idx : Z) : its :=
  if in_table idx (itsPool s) then upd_pool s (Z.to_nat idx) pool_retain else s.

Definition pool_at s (idx : Z) : option its_pool_entry := if in_table idx (itsPool s) then itsPool s !! Z.to_nat idx else None.
Definition poolHandle s (idx : Z) : option SB := e ← pool_at s idx; p_handle e.

(** ** The ownership counters and the payload heap *)

Definition ctrAdd (c : its_ctr) (n : Z) : its_ctr :=
  let lb := wrap32 (liveBlocks c + 1) in
  let by' := wrap32 (liveBytes c + n) in
  {| liveBlocks := lb; liveBytes := by'; hwBlocks := Z.max (hwBlocks c) lb; hwBytes := Z.max (hwBytes c) by' |}.
Definition ctrSub (c : its_ctr) (n : Z) : its_ctr :=
  {| liveBlocks := wrap32 (liveBlocks c - 1); liveBytes := wrap32 (liveBytes c - n); hwBlocks := hwBlocks c; hwBytes := hwBytes c |}.

Definition with_pay s (h : gmap Z bytes) (p : its_ctr) : its := with_heap s h (hdrCtr s) p (bad s).
Definition with_hdr s (h : its_ctr) : its := with_heap s (heap s) h (payCtr s) (bad s).

(** [payAlloc] and the copy of [data] into the block: its address, 0 for none. *)
Definition payAlloc s (data : bytes) : its * Z :=
  if Zlen data =? 0 then (s, 0)
  else
    let p := malloc (heap s) (Zlen data) in
    if p =? 0 then (s, 0) else (with_pay s (<[p := data]> (heap s)) (ctrAdd (payCtr s) (Zlen data)), p).

Definition payAdopt s (len : Z) : its := with_pay s (heap s) (ctrAdd (payCtr s) len).
Definition payHandoff s (len : Z) : its := with_pay s (heap s) (ctrSub (payCtr s) len).

(** [free]: of a block that is live. *)
Definition mem_free s (p : Z) : its :=
  if is_some (heap s !! p) then with_pay s (delete p (heap s)) (payCtr s) else set_bad s.

Definition payDrop s (p len : Z) : its := if p =? 0 then s else payHandoff (mem_free s p) len.

(** ** Packet links *)

Definition desc_bytes (len p : Z) : bytes := wr32 len ++ wr32 p.
Definition desc_len (d : bytes) : Z := default 0 (rd32 d 0).
Definition desc_ptr (d : bytes) : Z := default 0 (rd32 d 4).

Definition link_free_match (d : Z) (L : its_link (SB := SB)) : bool := negb (l_inUse L) && is_some (ring L) && (depth L =? d).
Definition link_empty (L : its_link (SB := SB)) : bool := negb (l_inUse L) && negb (is_some (ring L)).

Definition link_fresh (d cap mx : Z) (av : avail) (sem : option bool) : its_link (SB := SB) :=
  {| ring := if av_buf av then Some (xStreamBufferCreate (wrap32 ((d + 1) * DESC_SIZE))) else None; depth := d; byteCap := cap;
     maxMsg := mx; outstanding := 0; l_freeNotify := 0;
     l_spaceFreedSem := match sem with Some t => Some t | None => if av_sem av then Some false else None end; l_inUse := true |}.
Definition link_reuse (cap mx : Z) (L : its_link (SB := SB)) : its_link :=
  {| ring := xStreamBufferReset <$> ring L; depth := depth L; byteCap := cap; maxMsg := mx; outstanding := 0;
     l_freeNotify := 0; l_spaceFreedSem := l_spaceFreedSem L; l_inUse := true |}.
Definition link_ok (L : its_link (SB := SB)) : bool := is_some (ring L) && is_some (l_spaceFreedSem L).

Definition linkAcquire s (d cap mx : Z) (av : avail) : its * Z :=
  let d := if d =? 0 then 1 else d in
  match find_idx (link_free_match d) (itsLinks s) with
  | Some i => (upd_link s i (link_reuse cap mx), Z.of_nat i)
  | None =>
      match find_idx link_empty (itsLinks s) with
      | Some i =>
          let L := link_fresh d cap mx av (match itsLinks s !! i with Some L => l_spaceFreedSem L | None => None end) in
          (with_links s (<[i := L]> (itsLinks s)), if link_ok L then Z.of_nat i else -1)
      | None =>
          if ITS_MAX_LINKS <=? Zlen (itsLinks s) then (s, -1)
          else
            let L := link_fresh d cap mx av None in
            (with_links s (itsLinks s ++ [L]), if link_ok L then Zlen (itsLinks s) else -1)
      end
  end.

Definition linkAt s (idx : Z) : option its_link := if in_table idx (itsLinks s) then itsLinks s !! Z.to_nat idx else None.

Definition link_ring (r : SB) (L : its_link (SB := SB)) : its_link :=
  {| ring := Some r; depth := depth L; byteCap := byteCap L; maxMsg := maxMsg L; outstanding := outstanding L;
     l_freeNotify := l_freeNotify L; l_spaceFreedSem := l_spaceFreedSem L; l_inUse := l_inUse L |}.

(** The drain of a link: every descriptor taken, its payload dropped. *)
Fixpoint linkDrainLoop (fuel : nat) s (idx : Z) : its :=
  match fuel, linkAt s idx ≫= ring with
  | S f, Some r =>
      if DESC_SIZE <=? xStreamBufferBytesAvailable r then
        let '(r', d) := xStreamBufferReceive r DESC_SIZE in
        let s := upd_link s (Z.to_nat idx) (link_ring r') in
        if Zlen d =? DESC_SIZE then linkDrainLoop f (payDrop s (desc_ptr d) (desc_len d)) idx else s
      else s
  | _, _ => s
  end.

(** As many rounds as the ring holds descriptors. *)
Definition linkDrain s (idx : Z) : its :=
  match linkAt s idx ≫= ring with
  | Some r =>
      let s := linkDrainLoop (Z.to_nat (xStreamBufferBytesAvailable r / DESC_SIZE)) s idx in
      upd_link s (Z.to_nat idx) (fun L => match ring L with Some r => link_ring (xStreamBufferReset r) L | None => L end)
  | None => s
  end.

Definition link_idle (inuse : bool) (fn : Z -> Z) (L : its_link (SB := SB)) : its_link :=
  {| ring := ring L; depth := depth L; byteCap := byteCap L; maxMsg := maxMsg L; outstanding := 0;
     l_freeNotify := fn (l_freeNotify L); l_spaceFreedSem := sem_give (l_spaceFreedSem L); l_inUse := inuse && l_inUse L |}.

Definition linkFree s (idx : Z) : its :=
  if in_table idx (itsLinks s) then upd_link (linkDrain s idx) (Z.to_nat idx) (link_idle false (fun _ => 0)) else s.

Definition linkPurge s (idx : Z) : its :=
  match linkAt s idx ≫= ring with
  | Some _ => upd_link (linkDrain s idx) (Z.to_nat idx) (link_idle true (fun n => n))
  | None => s
  end.

(** ** Connections *)

Definition conn0 : its_conn :=
  {| active := false; packetBased := false; kind := ITS_STREAM; noPool := false; clientTask := None; serverTask := None;
     toPoolIdx := -1; fromPoolIdx := -1; toLinkIdx := -1; fromLinkIdx := -1; itsPort := 0; clientRef := 0; serverRef := 0;
     connectNonce := 0; cliRecvCb := None; cliDisconnectCb := None |}.
Definition conn_new : its_conn :=
  {| active := true; packetBased := false; kind := ITS_STREAM; noPool := false; clientTask := None; serverTask := None;
     toPoolIdx := -1; fromPoolIdx := -1; toLinkIdx := -1; fromLinkIdx := -1; itsPort := 0; clientRef := -1; serverRef := -1;
     connectNonce := 0; cliRecvCb := None; cliDisconnectCb := None |}.

Definition conn_at s (h : Z) : option its_conn := if in_table h (connTable s) then connTable s !! Z.to_nat h else None.

(** The search of [connAlloc]: offset [i] from [connCounter], [n] slots left. *)
Fixpoint connAllocLoop (n : nat) s (i : Z) : option Z :=
  match n with
  | O => None
  | S n' =>
      let idx := (connCounter s + i) mod ITS_MAX_CONNS in
      match conn_at s idx with
      | Some c => if active c then connAllocLoop n' s (i + 1) else Some idx
      | None => None
      end
  end.

Definition connAlloc s : its * Z :=
  match connAllocLoop (Z.to_nat ITS_MAX_CONNS) s 0 with
  | Some idx => (with_conns s (<[Z.to_nat idx := conn_new]> (connTable s)) ((idx + 1) mod ITS_MAX_CONNS), idx)
  | None => (s, -1)
  end.

Definition connFree s (h : Z) : its :=
  match conn_at s h with
  | None => s
  | Some c =>
      let s := with_conns s (<[Z.to_nat h := conn0]> (connTable s)) (connCounter s) in
      linkFree (linkFree (poolFree (poolFree s (toPoolIdx c)) (fromPoolIdx c)) (toLinkIdx c)) (fromLinkIdx c)
  end.

Definition conn s (h : Z) : option its_conn :=
  match conn_at s h with Some c => if active c then Some c else None | None => None end.

(** ** Messages, tasks and inboxes *)

(** [sizeof(its_msg)], pointers of 4 bytes. *)
Definition HDR_SIZE : Z := 28.

Definition msgAlloc s (av : avail) : its * option its_msg :=
  if av_hdr av then
    (with_hdr s (ctrAdd (hdrCtr s) HDR_SIZE),
     Some {| m_kind := ITS_K_CONNECT; m_pickup := false; m_port := 0; m_handle := -1; m_ref := -1; m_nonce := 0;
             m_sender := 0; m_cb := None; m_len := 0; m_payload := 0 |})
  else (s, None).

Definition msgFree s (m : its_msg) : its :=
  let s := payDrop s (m_payload m) (m_len m) in with_hdr s (ctrSub (hdrCtr s) HDR_SIZE).

Definition is_task (t : Z) (e : its_task (Q := Q)) : bool := bool_decide (task e = Some t).
Definition taskFind s (t : Z) : option nat := find_idx (is_task t) (s_tasks s).

Definition taskFindOrCreate s (me inboxMaxMsgLen inboxDepth : Z) (av : avail) : its * option nat :=
  match taskFind s me with
  | Some i => (s, Some i)
  | None =>
      if ITS_MAX_TASKS <=? Zlen (s_tasks s) then (s, None)
      else
        let guard := if 0 <? inboxMaxMsgLen then inboxMaxMsgLen else CONFIG_SPANGAP_ITS_INBOX_MSG_MAX in
        let guard := if guard <? ITS_MAX_MSG_DATA then ITS_MAX_MSG_DATA else guard in
        let d := if 0 <? inboxDepth then inboxDepth else CONFIG_SPANGAP_ITS_INBOX_DEPTH in
        let e := {| task := Some me; serverPorts := []; maxConns := 0; ackSem := None; ackHandle := -1; ackNonce := 0;
                    connectGen := 0; pickupSem := if av_sem av then Some false else None; auxCallbacks := [];
                    inbox := if av_buf av then Some (xQueueCreate d) else None; inboxMsgMax := guard;
                    Data.inboxDepth := d; isServer := false; isClient := false; no_pool := false; pendingPay := 0 |} in
        (with_tasks s (s_tasks s ++ [e]), Some (length (s_tasks s)))
  end.

Definition set_task (e : its_task (Q := Q)) (t : option Z) : its_task :=
  {| task := t; serverPorts := serverPorts e; maxConns := maxConns e; ackSem := ackSem e; ackHandle := ackHandle e;
     ackNonce := ackNonce e; connectGen := connectGen e; pickupSem := pickupSem e; auxCallbacks := auxCallbacks e;
     inbox := inbox e; inboxMsgMax := inboxMsgMax e; Data.inboxDepth := Data.inboxDepth e; isServer := isServer e;
     isClient := isClient e; no_pool := no_pool e; pendingPay := pendingPay e |}.

(** The death of a task: its slot stays, its handle is cleared. *)
Definition vTaskPreDeletionHook s (dead : Z) : its :=
  match taskFind s dead with Some i => upd_task s i (fun e => set_task e None) | None => s end.

Definition is_port (port : Z) (sp : its_server_port) : bool := sp_active sp && (sp_port sp =? port).
Definition portFind s (ti : nat) (port : Z) : option nat := t ← s_tasks s !! ti; find_idx (is_port port) (serverPorts t).
Definition port_at s (ti pi : nat) : option its_server_port := t ← s_tasks s !! ti; serverPorts t !! pi.

Definition set_inbox (q : Q) (n : Z) (e : its_task (Q := Q)) : its_task :=
  {| task := task e; serverPorts := serverPorts e; maxConns := maxConns e; ackSem := ackSem e; ackHandle := ackHandle e;
     ackNonce := ackNonce e; connectGen := connectGen e; pickupSem := pickupSem e; auxCallbacks := auxCallbacks e;
     inbox := Some q; inboxMsgMax := inboxMsgMax e; Data.inboxDepth := Data.inboxDepth e; isServer := isServer e;
     isClient := isClient e; no_pool := no_pool e; pendingPay := n |}.

Definition msg_pay (m : its_msg) : Z := if m_payload m =? 0 then 0 else m_len m.

Definition inboxTry s (ti : nat) (m : its_msg) : its * bool :=
  match s_tasks s !! ti with
  | Some e =>
      match inbox e with
      | Some q =>
          match xQueueSend q m with
          | Some q' =>
              let s := upd_task s ti (set_inbox q' (wrap32 (pendingPay e + msg_pay m))) in
              (match task e with Some t => notifyGive s (Some t) | None => set_stale s end, true)
          | None => (s, false)
          end
      | None => (s, false)
      end
  | None => (s, false)
  end.

Definition has_inbox s (ti : nat) : bool := is_some (e ← s_tasks s !! ti; inbox e).

Definition inboxEnqueue s (ti : nat) (m : its_msg) (timeout : Z) : its * bool :=
  match inboxTry s ti m with
  | (s, true) => (s, true)
  | (s, false) => if (timeout =? 0) || negb (has_inbox s ti) then (s, false) else inboxTry (room s) ti m
  end.

(** [buildCopyMsg], sent by [me] to the task in slot [ti]. *)
Definition buildCopyMsg s (me : Z) (k : its_kind_t) (port handle : Z) (data : bytes) (ti : nat) (av : avail)
    : its * option its_msg :=
  match s_tasks s !! ti with
  | None => (s, None)
  | Some te =>
      if inboxMsgMax te <? Zlen data then (s, None)
      else
        match msgAlloc s av with
        | (s, None) => (s, None)
        | (s, Some m) =>
            let m := {| m_kind := k; m_pickup := false; m_port := port; m_handle := handle; m_ref := m_ref m;
                        m_nonce := m_nonce m; m_sender := me; m_cb := None; m_len := Zlen data; m_payload := 0 |} in
            if 0 <? Zlen data then
              let '(s, p) := payAlloc s data in
              if p =? 0 then (msgFree s m, None)
              else (s, Some {| m_kind := k; m_pickup := false; m_port := port; m_handle := handle; m_ref := m_ref m;
                               m_nonce := m_nonce m; m_sender := me; m_cb := None; m_len := Zlen data; m_payload := p |})
            else (s, Some m)
        end
  end.

(** ** Handle resolution, for the task [me] *)

Definition is_me (me : Z) (t : option Z) : bool := bool_decide (t = Some me).

Definition sendIdx s (me h : Z) : Z :=
  match conn s h with
  | Some c => if is_me me (clientTask c) then toPoolIdx c else if is_me me (serverTask c) then fromPoolIdx c else -1
  | None => -1
  end.
Definition recvIdx s (me h : Z) : Z :=
  match conn s h with
  | Some c => if is_me me (clientTask c) then fromPoolIdx c else if is_me me (serverTask c) then toPoolIdx c else -1
  | None => -1
  end.

(** [sendBufWithPool] and [recvBufWithPool]: the entry's index and its buffer. *)
Definition bufWithPool s (idx : Z) : option (nat * SB) :=
  match poolHandle s idx with Some b => Some (Z.to_nat idx, b) | None => None end.
Definition sendBufWithPool s (me h : Z) : option (nat * SB) := bufWithPool s (sendIdx s me h).
Definition recvBufWithPool s (me h : Z) : option (nat * SB) := bufWithPool s (recvIdx s me h).

Definition remoteOf s (me h : Z) : option Z :=
  match conn s h with
  | Some c => if is_me me (clientTask c) then serverTask c else if is_me me (serverTask c) then clientTask c else None
  | None => None
  end.

(** The link's index. *)
Definition linkIdx s (idx : Z) : option nat := if is_some (linkAt s idx) then Some (Z.to_nat idx) else None.
Definition sendLink s (me h : Z) : option nat :=
  match conn s h with
  | Some c =>
      if bool_decide (kind c = ITS_PACKET) then
        if is_me me (clientTask c) then linkIdx s (toLinkIdx c)
        else if is_me me (serverTask c) then linkIdx s (fromLinkIdx c) else None
      else None
  | None => None
  end.
Definition recvLink s (me h : Z) : option nat :=
  match conn s h with
  | Some c =>
      if bool_decide (kind c = ITS_PACKET) then
        if is_me me (clientTask c) then linkIdx s (fromLinkIdx c)
        else if is_me me (serverTask c) then linkIdx s (toLinkIdx c) else None
      else None
  | None => None
  end.

End Tables.
End Tables.
Import Tables.
