(* ===== verification/ItsFlow.v ===== *)
(** * its: sending and receiving

    The data operations of its.cpp: packet links with their window, framed packets and
    byte streams over stream buffers, the waits for room and for data. *)

From stdpp Require Import gmap.
From S2P Require Import Prelude CLib Rtos Its.
Import Data Tables.
Open Scope Z_scope.
Open Scope spangap_scope.

(** ** Sending and receiving *)
Module Flow.
Section Flow.
Context {SB Q : Type} `{SBI : StreamBuf SB} `{RQ : RtosQueue Q its_msg}.
Variable malloc : gmap Z bytes -> Z -> Z.

#[local] Abbreviation its := (its (SB := SB) (Q := Q)).
Implicit Types (s : its) (L : its_link (SB := SB)).

(** One return from a wait: what the other tasks did, and the tick count then. *)
Record wake := { w_env : its -> its; w_tick : Z }.

Definition link_set_notify (n : Z) (clear : bool) L : its_link :=
  {| ring := ring L; depth := depth L; byteCap := byteCap L; maxMsg := maxMsg L; outstanding := outstanding L;
     l_freeNotify := n; l_spaceFreedSem := if clear then sem_clear (l_spaceFreedSem L) else l_spaceFreedSem L;
     l_inUse := l_inUse L |}.
Definition link_set_sem (o : option bool) L : its_link :=
  {| ring := ring L; depth := depth L; byteCap := byteCap L; maxMsg := maxMsg L; outstanding := outstanding L;
     l_freeNotify := l_freeNotify L; l_spaceFreedSem := o; l_inUse := l_inUse L |}.
Definition link_set_out (n : Z) L : its_link :=
  {| ring := ring L; depth := depth L; byteCap := byteCap L; maxMsg := maxMsg L; outstanding := n;
     l_freeNotify := l_freeNotify L; l_spaceFreedSem := l_spaceFreedSem L; l_inUse := l_inUse L |}.

Definition linkWakeSender s (me h : Z) (li : nat) : its :=
  notifyGive (upd_link s li (fun L => link_set_sem (sem_give (l_spaceFreedSem L)) L)) (remoteOf s me h).

(** A free descriptor slot. *)
Definition slot_free L : bool := match ring L with Some r => DESC_SIZE <=? xStreamBufferSpacesAvailable r | None => false end.

Definition linkSendSpace L : Z :=
  if negb (slot_free L) then 0
  else if outstanding L =? 0 then maxMsg L
  else if outstanding L <? byteCap L then byteCap L - outstanding L else 0.

Definition linkCanSend L (len : Z) : bool :=
  slot_free L && ((outstanding L =? 0) || (wrap32 (outstanding L + len) <=? byteCap L)).

Definition link_can s (li : nat) (len : Z) : bool :=
  match itsLinks s !! li with Some L => linkCanSend L len | None => false end.

(** [xSemaphoreTake] of the link's semaphore after the wait: whether the token was
    there. *)
Definition link_take s (li : nat) : its * bool :=
  match itsLinks s !! li with
  | Some L => (upd_link s li (link_set_sem (sem_clear (l_spaceFreedSem L))), bool_decide (l_spaceFreedSem L = Some true))
  | None => (s, false)
  end.

(** The loop of [linkWaitForSpace]: [None] while it waits. *)
Fixpoint linkWaitLoop (ws : list wake) s (h : Z) (li : nat) (len start timeout : Z) : its * option bool :=
  let s := upd_link s li (link_set_notify len true) in
  let stop s b := (upd_link s li (link_set_notify 0 false), Some b) in
  if link_can s li len then stop s true
  else
    match ws with
    | [] => (s, None)
    | w :: ws =>
        let '(s, got) := link_take (w_env w s) li in
        if negb (is_some (conn s h)) then stop s false
        else if got && link_can s li len then stop s true
        else if negb (timeout =? portMAX_DELAY) && (timeout <=? wrap32 (w_tick w - start)) then stop s false
        else linkWaitLoop ws s h li len start timeout
    end.

Definition linkWaitForSpace (ws : list wake) s (h : Z) (li : nat) (len now timeout : Z) : its * option bool :=
  if link_can s li len then (s, Some true)
  else if timeout =? 0 then (s, Some false)
  else linkWaitLoop ws s h li len now timeout.

Definition linkEnqueue s (me h : Z) (li : nat) (p len : Z) : its :=
  let s := upd_link s li (fun L =>
             let L := link_set_out (wrap32 (outstanding L + len)) L in
             match ring L with
             | Some r => link_ring (xStreamBufferSend r (desc_bytes len p)).1 L
             | None => L
             end) in
  notifyGive s (remoteOf s me h).

Definition desc_avail s (li : nat) : bool :=
  match itsLinks s !! li with
  | Some L => match ring L with Some r => DESC_SIZE <=? xStreamBufferBytesAvailable r | None => false end
  | None => false
  end.

(** The wait of [linkDequeue] for a descriptor. *)
Fixpoint dequeueWait (ws : list wake) s (h : Z) (li : nat) (remaining start timeout : Z) : its * option bool :=
  if desc_avail s li then (s, Some true)
  else if remaining =? 0 then (s, Some false)
  else
    match ws with
    | [] => (s, None)
    | w :: ws =>
        let s := w_env w s in
        if negb (is_some (conn s h)) then (s, Some false)
        else if desc_avail s li then (s, Some true)
        else
          let elapsed := wrap32 (w_tick w - start) in
          let remaining := if timeout =? portMAX_DELAY then remaining else if timeout <=? elapsed then 0 else timeout - elapsed in
          dequeueWait ws s h li remaining start timeout
    end.

(** Taking one descriptor: (length, address). *)
Definition linkPop s (me h : Z) (li : nat) : its * option (Z * Z) :=
  match itsLinks s !! li with
  | Some L =>
      match ring L with
      | Some r =>
          let '(r', d) := xStreamBufferReceive r DESC_SIZE in
          let s := upd_link s li (link_ring r') in
          if Zlen d =? DESC_SIZE then
            let s := upd_link s li (fun L => link_set_out (wrap32 (outstanding L - desc_len d)) L) in
            (linkWakeSender s me h li, Some (desc_len d, desc_ptr d))
          else (s, None)
      | None => (s, None)
      end
  | None => (s, None)
  end.

(** [None]: still waiting; [Some None]: returns false. *)
Definition linkDequeue (ws : list wake) s (me h : Z) (li : nat) (now timeout : Z) : its * option (option (Z * Z)) :=
  match dequeueWait ws s h li timeout now timeout with
  | (s, None) => (s, None)
  | (s, Some false) => (s, Some None)
  | (s, Some true) => let '(s, d) := linkPop s me h li in (s, Some d)
  end.

(** What is sent: bytes to copy, or a block of the caller to adopt. *)
Inductive its_src := SrcCopy (data : bytes) | SrcOwned (p len : Z).
Definition src_len (x : its_src) : Z := match x with SrcCopy d => Zlen d | SrcOwned _ len => len end.

(** [itsSendPacket]: [None] while it waits. *)
Definition itsSendPacket (ws : list wake) s (me h : Z) (li : nat) (x : its_src) (now timeout : Z) : its * option Z :=
  let len := src_len x in
  let mx := match itsLinks s !! li with Some L => maxMsg L | None => 0 end in
  if (len =? 0) || (mx <? len) then (s, Some 0)
  else
    match linkWaitForSpace ws s h li len now timeout with
    | (s, None) => (s, None)
    | (s, Some false) => (s, Some 0)
    | (s, Some true) =>
        match x with
        | SrcOwned p len => (linkEnqueue (payAdopt s len) me h li p len, Some len)
        | SrcCopy data =>
            let '(s, p) := payAlloc malloc s data in
            if p =? 0 then (s, Some 0) else (linkEnqueue s me h li p len, Some len)
        end
    end.

Definition itsSendOwned (ws : list wake) s (me h p len now timeout : Z) : its * option Z :=
  match sendLink s me h with
  | None => (s, Some 0)
  | Some li => itsSendPacket ws s me h li (SrcOwned p len) now timeout
  end.

(** ** Stream buffers: waiting for room, framed packets, bytes *)

Definition pool_set_notify (n : Z) (clear : bool) (e : its_pool_entry (SB := SB)) : its_pool_entry :=
  {| p_handle := p_handle e; p_size := p_size e; p_pooled := p_pooled e; triggerLevel := triggerLevel e; p_inUse := p_inUse e;
     p_freeNotify := n; p_spaceFreedSem := if clear then sem_clear (p_spaceFreedSem e) else p_spaceFreedSem e |}.
Definition pool_set_sem (o : option bool) (e : its_pool_entry (SB := SB)) : its_pool_entry :=
  {| p_handle := p_handle e; p_size := p_size e; p_pooled := p_pooled e; triggerLevel := triggerLevel e; p_inUse := p_inUse e;
     p_freeNotify := p_freeNotify e; p_spaceFreedSem := o |}.
Definition pool_set_buf (b : SB) (e : its_pool_entry (SB := SB)) : its_pool_entry :=
  {| p_handle := Some b; p_size := p_size e; p_pooled := p_pooled e; triggerLevel := triggerLevel e; p_inUse := p_inUse e;
     p_freeNotify := p_freeNotify e; p_spaceFreedSem := p_spaceFreedSem e |}.

(** The buffer of pool slot [i], held by a caller since before a wait: [None] when it
    was deleted meanwhile. *)
Definition buf_of s (i : nat) : option SB := e ← itsPool s !! i; p_handle e.
Definition pool_has_room s (i : nat) (n : Z) : bool :=
  match buf_of s i with Some b => n <=? xStreamBufferSpacesAvailable b | None => false end.
Definition pool_take s (i : nat) : its * bool :=
  match itsPool s !! i with
  | Some e => (upd_pool s i (pool_set_sem (sem_clear (p_spaceFreedSem e))), bool_decide (p_spaceFreedSem e = Some true))
  | None => (s, false)
  end.

Fixpoint waitForSpaceLoop (ws : list wake) s (h : Z) (i : nat) (n start timeout : Z) : its * option bool :=
  let s := upd_pool s i (pool_set_notify n true) in
  let stop s b := (upd_pool s i (pool_set_notify 0 false), Some b) in
  if pool_has_room s i n then stop s true
  else
    match ws with
    | [] => (s, None)
    | w :: ws =>
        let '(s, got) := pool_take (w_env w s) i in
        if negb (is_some (conn s h)) then stop s false
        else if negb got then stop s false
        else if pool_has_room s i n then stop s true
        else if negb (timeout =? portMAX_DELAY) && (timeout <=? wrap32 (w_tick w - start)) then stop s false
        else waitForSpaceLoop ws s h i n start timeout
    end.

Definition itsWaitForSpace (ws : list wake) s (me h n now timeout : Z) : its * option bool :=
  if n =? 0 then (s, Some true)
  else
    match sendLink s me h with
    | Some li => linkWaitForSpace ws s h li n now timeout
    | None =>
        match sendBufWithPool s me h with
        | None => (s, Some false)
        | Some (i, b) =>
            if n <=? xStreamBufferSpacesAvailable b then (s, Some true)
            else if timeout =? 0 then (s, Some false)
            else waitForSpaceLoop ws s h i n now timeout
        end
    end.

(** [xStreamBufferSend] into slot [i]: the count. *)
Definition pool_send s (i : nat) (d : bytes) : its * Z :=
  match buf_of s i with
  | Some b => let '(b', n) := xStreamBufferSend b d in (upd_pool s i (pool_set_buf b'), n)
  | None => (set_stale s, 0)
  end.
Definition pool_receive s (i : nat) (n : Z) : its * bytes :=
  match buf_of s i with
  | Some b => let '(b', d) := xStreamBufferReceive b n in (upd_pool s i (pool_set_buf b'), d)
  | None => (set_stale s, [])
  end.

Definition frameHdr (len : Z) : bytes :=
  [0; Z.land (Z.shiftr len 16) 0xFF; Z.land (Z.shiftr len 8) 0xFF; Z.land len 0xFF].

(** The framed packet of [itsSend] on a legacy packet port, slot [i]. *)
Definition sendFrame (ws : list wake) s (me h : Z) (i : nat) (data : bytes) (now timeout : Z) : its * option Z :=
  let len := Zlen data in
  if (len =? 0) || (0xFFFFFF <? len) then (s, Some 0)
  else if match itsPool s !! i with Some e => p_size e | None => 0 end <? 4 + len then (s, Some 0)
  else
    match itsWaitForSpace ws s me h (4 + len) now timeout with
    | (s, None) => (s, None)
    | (s, Some false) => (s, Some 0)
    | (s, Some true) =>
        let '(s, n) := pool_send s i (frameHdr len) in
        if negb (n =? 4) then (s, Some 0)
        else
          let '(s, n) := pool_send s i data in
          if negb (n =? len) then (s, Some 0) else (notifyGive s (remoteOf s me h), Some len)
    end.

(** The end of a stream-mode send by [remote]'s peer: notify at the trigger level. *)
Definition notifyAtTrigger s (i : nat) (sent : Z) (remote : option Z) : its :=
  if 0 <? sent then
    match itsPool s !! i with
    | Some e =>
        let fill := match p_handle e with Some b => xStreamBufferBytesAvailable b | None => 0 end in
        let trigger := if triggerLevel e =? 0 then 1 else triggerLevel e in
        if trigger <=? fill then notifyGive s remote else s
    | None => s
    end
  else s.

(** What the others do while a FreeRTOS call with a timeout blocks. *)
Definition blocked (ws : list wake) s (timeout : Z) : its :=
  if timeout =? 0 then s else match ws with w :: _ => w_env w s | [] => s end.

Definition itsSend (ws : list wake) s (me h : Z) (data : bytes) (now timeout : Z) : its * option Z :=
  match conn s h with
  | None => (s, Some 0)
  | Some c =>
      if bool_decide (kind c = ITS_PACKET) then
        match sendLink s me h with
        | None => (s, Some 0)
        | Some li => itsSendPacket ws s me h li (SrcCopy data) now timeout
        end
      else
        match sendBufWithPool s me h with
        | None => (s, Some 0)
        | Some (i, _) =>
            if packetBased c then sendFrame ws s me h i data now timeout
            else
              let '(s, sent) := pool_send (blocked ws s timeout) i data in
              (notifyAtTrigger s i sent (remoteOf s me h), Some sent)
        end
  end.

Definition wakeSenderIfReady s (me h : Z) (i : nat) : its :=
  match itsPool s !! i with
  | Some e =>
      if p_freeNotify e =? 0 then s
      else if negb (pool_has_room s i (p_freeNotify e)) then s
      else
        let s := upd_pool s i (fun e => pool_set_sem (sem_give (p_spaceFreedSem e)) (pool_set_notify 0 false e)) in
        notifyGive s (remoteOf s me h)
  | None => s
  end.

Definition buf_over4 s (i : nat) : bool :=
  match buf_of s i with Some b => 4 <? xStreamBufferBytesAvailable b | None => false end.

(** The wait of [itsRecv] for a framed packet: more than a header is there. *)
Fixpoint recvWait (ws : list wake) s (i : nat) (remaining start timeout : Z) : its * option bool :=
  if buf_over4 s i then (s, Some true)
  else if remaining =? 0 then (s, Some false)
  else
    match ws with
    | [] => (s, None)
    | w :: ws =>
        let s := w_env w s in
        if buf_over4 s i then (s, Some true)
        else
          let elapsed := wrap32 (w_tick w - start) in
          let remaining := if timeout =? portMAX_DELAY then remaining else if timeout <=? elapsed then 0 else timeout - elapsed in
          recvWait ws s i remaining start timeout
    end.

(** A body too long for the caller is read through a 64-byte scratch buffer. *)
Fixpoint dropBody (fuel : nat) s (i : nat) (left : Z) : its :=
  match fuel with
  | O => s
  | S f =>
      if left <=? 0 then s
      else
        let '(s, d) := pool_receive s i (if 64 <? left then 64 else left) in
        if Zlen d =? 0 then s else dropBody f s i (left - Zlen d)
  end.

Definition recvFrame s (me h : Z) (i : nat) (maxLen : Z) : its * bytes :=
  let '(s, hdr) := pool_receive s i 4 in
  match hdr with
  | [_; a; b; c] =>
      let bodyLen := Z.lor (Z.lor (Z.shiftl a 16) (Z.shiftl b 8)) c in
      let '(s, got) :=
        if maxLen <? bodyLen then (dropBody (Z.to_nat bodyLen) s i bodyLen, [])
        else pool_receive s i bodyLen in
      (wakeSenderIfReady s me h i, got)
  | _ => (s, [])
  end.

(** The bytes read from block [p], [None] when it is not live or too short. *)
Definition block_read s (p len : Z) : option bytes := b ← heap s !! p; mem_slice b 0 len.

(** [itsRecv]: the bytes copied to the caller; [None] while it waits. *)
Definition itsRecv (ws : list wake) s (me h maxLen now timeout : Z) : its * option bytes :=
  match conn s h with
  | None => (s, Some [])
  | Some c =>
      if bool_decide (kind c = ITS_PACKET) then
        match recvLink s me h with
        | None => (s, Some [])
        | Some li =>
            match linkDequeue ws s me h li now timeout with
            | (s, None) => (s, None)
            | (s, Some None) => (s, Some [])
            | (s, Some (Some (len, p))) =>
                if maxLen <? len then (payDrop s p len, Some [])
                else
                  match block_read s p len with
                  | Some d => (payDrop s p len, Some d)
                  | None => (set_bad s, Some [])
                  end
            end
        end
      else
        match recvBufWithPool s me h with
        | None => (s, Some [])
        | Some (i, _) =>
            if packetBased c then
              match recvWait ws s i timeout now timeout with
              | (s, None) => (s, None)
              | (s, Some false) => (s, Some [])
              | (s, Some true) => let '(s, d) := recvFrame s me h i maxLen in (s, Some d)
              end
            else
              let '(s, d) := pool_receive (blocked ws s timeout) i maxLen in
              ((if 0 <? Zlen d then wakeSenderIfReady s me h i else s), Some d)
        end
  end.

(** [itsRecvRef]: the block handed to the caller, (address, length). *)
Definition itsRecvRef (ws : list wake) s (me h now timeout : Z) : its * option (option (Z * Z)) :=
  match recvLink s me h with
  | None => (s, Some None)
  | Some li =>
      match linkDequeue ws s me h li now timeout with
      | (s, None) => (s, None)
      | (s, Some None) => (s, Some None)
      | (s, Some (Some (len, p))) => (payHandoff s len, Some (Some (p, len)))
      end
  end.

Definition itsInject (ws : list wake) s (h : Z) (asServer : bool) (data : bytes) (timeout : Z) : its * Z :=
  match conn s h with
  | None => (s, 0)
  | Some c =>
      if bool_decide (kind c = ITS_PACKET) then (s, 0)
      else
        match bufWithPool s (if asServer then fromPoolIdx c else toPoolIdx c) with
        | None => (s, 0)
        | Some (i, _) =>
            let '(s, sent) := pool_send (blocked ws s timeout) i data in
            (notifyAtTrigger s i sent (c ← conn_at s h; if asServer then clientTask c else serverTask c), sent)
        end
  end.

(** ** Queries and settings *)

Definition link_of s (li : nat) : option its_link := itsLinks s !! li.

Definition itsConnected s (h : Z) : bool := is_some (conn s h).

Definition itsBytesAvailable s (me h : Z) : Z :=
  match recvLink s me h ≫= link_of s with
  | Some L => outstanding L
  | None => match recvBufWithPool s me h with Some (_, b) => xStreamBufferBytesAvailable b | None => 0 end
  end.

Definition itsSpacesAvailable s (me h : Z) : Z :=
  match sendLink s me h ≫= link_of s with
  | Some L => linkSendSpace L
  | None =>
      match sendBufWithPool s me h with
      | None => 0
      | Some (_, b) =>
          let spaces := xStreamBufferSpacesAvailable b in
          match conn s h with
          | Some c => if packetBased c then if 4 <? spaces then spaces - 4 else 0 else spaces
          | None => spaces
          end
      end
  end.

Definition buf_size s (l : option nat) (b : option (nat * SB)) : Z :=
  match l ≫= link_of s with
  | Some L => maxMsg L
  | None => match b with Some (i, _) => match itsPool s !! i with Some e => p_size e | None => 0 end | None => 0 end
  end.
Definition itsRecvBufSize s (me h : Z) : Z := buf_size s (recvLink s me h) (recvBufWithPool s me h).
Definition itsSendBufSize s (me h : Z) : Z := buf_size s (sendLink s me h) (sendBufWithPool s me h).

Definition pool_set_trigger (n : Z) (e : its_pool_entry (SB := SB)) : its_pool_entry :=
  {| p_handle := p_handle e; p_size := p_size e; p_pooled := p_pooled e; triggerLevel := n; p_inUse := p_inUse e;
     p_freeNotify := p_freeNotify e; p_spaceFreedSem := p_spaceFreedSem e |}.

Definition itsSetTriggerLevel s (me h level : Z) : its * bool :=
  if is_some (sendLink s me h) || is_some (recvLink s me h) then (s, false)
  else
    match recvBufWithPool s me h with
    | None => (s, false)
    | Some (i, _) =>
        let level := if level =? 0 then 1 else level in
        (upd_pool s i (pool_set_trigger level), match itsPool s !! i with Some e => level <=? p_size e | None => false end)
    end.

Definition itsSetFreeNotify s (me h n : Z) : its * bool :=
  match sendLink s me h with
  | Some li =>
      let s := upd_link s li (link_set_notify n true) in
      match link_of s li with
      | Some L =>
          if (0 <? n) && (n <=? linkSendSpace L)
          then (notifyGive (upd_link s li (fun L => link_set_sem (sem_give (l_spaceFreedSem L)) (link_set_notify 0 false L))) (Some me), true)
          else (s, true)
      | None => (s, true)
      end
  | None =>
      match sendBufWithPool s me h with
      | None => (s, false)
      | Some (i, b) =>
          let s := upd_pool s i (pool_set_notify n true) in
          if (0 <? n) && (n <=? xStreamBufferSpacesAvailable b)
          then (notifyGive (upd_pool s i (fun e => pool_set_sem (sem_give (p_spaceFreedSem e)) (pool_set_notify 0 false e))) (Some me), true)
          else (s, true)
      end
  end.

Definition itsIsEmpty s (me h : Z) : bool :=
  match recvLink s me h with
  | Some li => negb (desc_avail s li)
  | None => match recvBufWithPool s me h with Some (_, b) => xStreamBufferBytesAvailable b =? 0 | None => true end
  end.

Definition itsIsFull s (me h : Z) : bool :=
  match sendLink s me h ≫= link_of s with
  | Some L => linkSendSpace L =? 0
  | None => match sendBufWithPool s me h with Some (_, b) => xStreamBufferSpacesAvailable b =? 0 | None => true end
  end.

Definition itsSendIsEmpty s (me h : Z) : bool :=
  match sendLink s me h with
  | Some li => negb (desc_avail s li) && match link_of s li with Some L => outstanding L =? 0 | None => true end
  | None => match sendBufWithPool s me h with Some (_, b) => xStreamBufferBytesAvailable b =? 0 | None => true end
  end.

(** [itsSendDrain]: [None] while it waits; [now] is the tick count at each test. *)
Fixpoint itsSendDrain (ws : list wake) s (me h now deadline : Z) : its * option bool :=
  if itsSendIsEmpty s me h then (s, Some true)
  else if negb (itsConnected s h) then (s, Some false)
  else if deadline <=? now then (s, Some false)
  else match ws with [] => (s, None) | w :: ws => itsSendDrain ws (w_env w s) me h (w_tick w) deadline end.

Definition itsRemoteTask s (me h : Z) : option Z := remoteOf s me h.

Definition pool_reset s (o : option (nat * SB)) : its :=
  match o with Some (i, b) => upd_pool s i (pool_set_buf (xStreamBufferReset b)) | None => s end.

Definition itsReset s (me h : Z) : its :=
  match conn s h with
  | Some c =>
      if bool_decide (kind c = ITS_PACKET) then linkPurge (linkPurge s (toLinkIdx c)) (fromLinkIdx c)
      else let s := pool_reset s (recvBufWithPool s me h) in pool_reset s (sendBufWithPool s me h)
  | None => s
  end.

Definition itsRef s (me h : Z) : Z :=
  match conn s h with
  | Some c => if is_me me (serverTask c) then serverRef c else if is_me me (clientTask c) then clientRef c else -1
  | None => -1
  end.

Definition itsServerPort s (me h : Z) : Z :=
  match conn s h with
  | Some c => if is_me me (serverTask c) then itsPort c else -1
  | None => -1
  end.

End Flow.
Arguments wake : clear implicits.
End Flow.
Import Flow.
