(* ===== verification/ItsServer.v ===== *)
(** * its: connections, dispatch, registration

    The rest of its.cpp: connect, accept, cancel, disconnect, forward, aux messages, the
    inbox dispatch and [itsPoll]. *)

From stdpp Require Import gmap.
From S2P Require Import Prelude CLib Rtos Its ItsFlow.
Import Data Tables Flow.
Open Scope Z_scope.
Open Scope spangap_scope.

(** ** Connections between tasks *)
Module Server.
Section Server.
Context {SB Q : Type} `{SBI : StreamBuf SB} `{RQ : RtosQueue Q its_msg}.
Variable malloc : gmap Z bytes -> Z -> Z.
Variable room : its (SB := SB) (Q := Q) -> its (SB := SB) (Q := Q).

#[local] Abbreviation its := (its (SB := SB) (Q := Q)).
Implicit Types (s : its).

(** The calls into the application, with the address of the borrowed payload. *)
Inductive call :=
| CConnect (handle p len : Z)
| CBusy (p len : Z)
| CDisconnect (ref : Z)
| CRecv (handle avail : Z)
| CAux (sender p len : Z).

(** [app me cb c]: what callback [cb] does when task [me] makes the call [c], and the
    value it returns. *)
Variable app : Z -> Z -> call -> its -> its * Z.

Definition serverPortActiveCount s (t : option Z) (port : Z) : Z :=
  count_if (fun c => active c && bool_decide (serverTask c = t) && (itsPort c =? port)) (connTable s).

(** ** Disconnect *)

Definition opt_msg s (k : its_kind_t) (me h port ref : Z) (cb : option Z) (av : avail) : its * option its_msg :=
  match msgAlloc s av with
  | (s, None) => (s, None)
  | (s, Some m) =>
      (s, Some {| m_kind := k; m_pickup := false; m_port := port; m_handle := h; m_ref := ref; m_nonce := m_nonce m;
                  m_sender := me; m_cb := cb; m_len := m_len m; m_payload := m_payload m |})
  end.

(** The message to the peer of a closed connection; whether it went out. *)
Definition tellPeer s (me h : Z) (peer : option Z) (k : its_kind_t) (port ref : Z) (cb : option Z) (av : avail) : its * bool :=
  match peer ≫= taskFind s with
  | None => (s, false)
  | Some ti =>
      match opt_msg s k me h port ref cb av with
      | (s, None) => (s, false)
      | (s, Some m) =>
          match inboxEnqueue room s ti m 100 with
          | (s, true) => (s, true)
          | (s, false) => (msgFree s m, false)
          end
      end
  end.

(** One end closes: free now, or for a no_pool connection leave that to the peer
    unless it cannot be told. *)
Definition closeEnd s (me h : Z) (c : its_conn) (peer : option Z) (k : its_kind_t) (ref : Z) (cb : option Z) (av : avail) : its :=
  let noPool := noPool c && negb (bool_decide (kind c = ITS_PACKET)) in
  let s := if noPool then s else connFree s h in
  let '(s, notified) := tellPeer s me h peer k (itsPort c) ref cb av in
  if noPool && negb notified
  then connFree (poolRetainOnFree (poolRetainOnFree s (toPoolIdx c)) (fromPoolIdx c)) h
  else s.

Definition disconnect1 s (me h : Z) (av : avail) : its :=
  match conn s h with
  | None => s
  | Some c =>
      if is_me me (serverTask c) then closeEnd s me h c (clientTask c) ITS_K_DISC_FROM_SERVER (clientRef c) (cliDisconnectCb c) av
      else if is_me me (clientTask c) then closeEnd s me h c (serverTask c) ITS_K_DISC_FROM_CLIENT (serverRef c) None av
      else s
  end.

(** The connections of [me] from handle [h] on. *)
Fixpoint disconnectAll (n : nat) s (me h : Z) (av : avail) : its :=
  match n with
  | O => s
  | S n' =>
      let s := match conn s h with
               | Some c => if is_me me (serverTask c) || is_me me (clientTask c) then disconnect1 s me h av else s
               | None => s
               end in
      disconnectAll n' s me (h + 1) av
  end.

Definition itsDisconnect s (me h : Z) (av : avail) : its :=
  if h =? -1 then disconnectAll (Z.to_nat ITS_MAX_CONNS) s me 0 av else disconnect1 s me h av.

(** ** Dispatch *)

Definition task_ack (h nonce : Z) (e : its_task (Q := Q)) : its_task :=
  {| task := task e; serverPorts := serverPorts e; maxConns := maxConns e; ackSem := sem_give (ackSem e); ackHandle := h;
     ackNonce := nonce; connectGen := connectGen e; pickupSem := pickupSem e; auxCallbacks := auxCallbacks e;
     inbox := inbox e; inboxMsgMax := inboxMsgMax e; Data.inboxDepth := Data.inboxDepth e; isServer := isServer e;
     isClient := isClient e; no_pool := no_pool e; pendingPay := pendingPay e |}.

Definition ack s (ci : option nat) (h nonce : Z) : its :=
  match ci with Some i => upd_task s i (task_ack h nonce) | None => s end.

Definition conn_set_ends (cl sv : option Z) (port nonce : Z) (k : its_port_kind_t) (pb np : bool) (c : its_conn) : its_conn :=
  {| active := active c; packetBased := pb; kind := k; noPool := np; clientTask := cl; serverTask := sv;
     toPoolIdx := toPoolIdx c; fromPoolIdx := fromPoolIdx c; toLinkIdx := toLinkIdx c; fromLinkIdx := fromLinkIdx c;
     itsPort := port; clientRef := clientRef c; serverRef := serverRef c; connectNonce := nonce;
     cliRecvCb := cliRecvCb c; cliDisconnectCb := cliDisconnectCb c |}.
Definition conn_set_bufs (tp fp tl fl : Z) (c : its_conn) : its_conn :=
  {| active := active c; packetBased := packetBased c; kind := kind c; noPool := noPool c; clientTask := clientTask c;
     serverTask := serverTask c; toPoolIdx := tp; fromPoolIdx := fp; toLinkIdx := tl; fromLinkIdx := fl;
     itsPort := itsPort c; clientRef := clientRef c; serverRef := serverRef c; connectNonce := connectNonce c;
     cliRecvCb := cliRecvCb c; cliDisconnectCb := cliDisconnectCb c |}.
Definition conn_set_ref (r : Z) (c : its_conn) : its_conn :=
  {| active := active c; packetBased := packetBased c; kind := kind c; noPool := noPool c; clientTask := clientTask c;
     serverTask := serverTask c; toPoolIdx := toPoolIdx c; fromPoolIdx := fromPoolIdx c; toLinkIdx := toLinkIdx c;
     fromLinkIdx := fromLinkIdx c; itsPort := itsPort c; clientRef := clientRef c; serverRef := r;
     connectNonce := connectNonce c; cliRecvCb := cliRecvCb c; cliDisconnectCb := cliDisconnectCb c |}.

(** The buffers of a new connection: whether all were had. *)
Definition acquireBufs s (h : Z) (sp : its_server_port) (np : bool) (a1 a2 : avail) : its * bool :=
  if bool_decide (sp_kind sp = ITS_PACKET) then
    let '(s, tl) := if 0 <? toSize sp then linkAcquire s (sp_depth sp) (toSize sp) (sp_maxMsg sp) a1 else (s, -1) in
    let s := upd_conn s h (conn_set_bufs (-1) (-1) tl (-1)) in
    if (0 <? toSize sp) && (tl <? 0) then (s, false)
    else if 0 <? fromSize sp then
      let '(s, fl) := linkAcquire s (sp_depth sp) (fromSize sp) (sp_maxMsg sp) a2 in
      (upd_conn s h (conn_set_bufs (-1) (-1) tl fl), 0 <=? fl)
    else (s, true)
  else
    let '(s, tp) := if 0 <? toSize sp then poolGet s (toSize sp) np a1 else (s, -1) in
    let s := upd_conn s h (conn_set_bufs tp (-1) (-1) (-1)) in
    let '(s, fp) := if 0 <? fromSize sp then poolGet s (fromSize sp) np a2 else (s, -1) in
    (upd_conn s h (conn_set_bufs tp fp (-1) (-1)), negb ((0 <? toSize sp) && (tp <? 0)) && negb ((0 <? fromSize sp) && (fp <? 0))).

(** From the allocated handle [h] on: whether the connection is accepted. *)
Definition acceptConn s (me : Z) (ti pi : nat) (h : Z) (m : its_msg) (a1 a2 : avail) : its * bool :=
  match port_at s ti pi, s_tasks s !! ti with
  | Some sp, Some e =>
      let s := upd_conn s h (conn_set_ends (Some (m_sender m)) (task e) (m_port m) (m_nonce m) (sp_kind sp) (sp_packetBased sp) (no_pool e)) in
      let '(s, buffersOk) := acquireBufs s h sp (no_pool e) a1 a2 in
      let '(s, accepted) :=
        if negb buffersOk then (s, false)
        else
          match onConnect sp with
          | None => (s, true)
          | Some cb =>
              let '(s, sRef) := app me cb (CConnect h (m_payload m) (m_len m)) s in
              if 0 <=? sRef then (upd_conn s h (conn_set_ref (to_s8 sRef)), true) else (s, false)
          end in
      (if accepted then s else connFree s h, accepted)
  | _, _ => (s, false)
  end.

Definition port_full s (ti pi : nat) (port : Z) : bool :=
  match port_at s ti pi, s_tasks s !! ti with
  | Some sp, Some e => maxHandles sp <=? serverPortActiveCount s (task e) port
  | _, _ => true
  end.

Definition procConnect s (me : Z) (ti : nat) (m : its_msg) (a1 a2 : avail) : its :=
  match portFind s ti (m_port m) with
  | None => ack s (taskFind s (m_sender m)) (-1) (m_nonce m)
  | Some pi =>
      let full := port_full s ti pi (m_port m) in
      let '(s, full) :=
        match full, (port_at s ti pi) ≫= onBusy with
        | true, Some cb =>
            let '(s, r) := app me cb (CBusy (m_payload m) (m_len m)) s in
            (s, if r =? 0 then port_full s ti pi (m_port m) else true)
        | _, _ => (s, full)
        end in
      let cli := taskFind s (m_sender m) in
      let '(s, h) := if negb full && is_some cli then connAlloc s else (s, -1) in
      let '(s, accepted) := if 0 <=? h then acceptConn s me ti pi h m a1 a2 else (s, false) in
      ack s cli (if accepted then h else -1) (m_nonce m)
  end.

Definition call_disconnect s (me : Z) (cb : option Z) (ref : Z) : its :=
  match cb with Some cb => if 0 <=? ref then (app me cb (CDisconnect ref) s).1 else s | None => s end.

Definition is_orphan (me : Z) (m : its_msg) (c : its_conn) : bool :=
  active c && is_me me (serverTask c) && bool_decide (clientTask c = Some (m_sender m)) &&
  (connectNonce c =? m_nonce m) && negb (m_nonce m =? 0).

Definition procCancel s (me : Z) (ti : nat) (m : its_msg) : its :=
  match find_idx (is_orphan me m) (connTable s) with
  | Some i =>
      match connTable s !! i with
      | Some c =>
          let cb := pi ← portFind s ti (itsPort c); sp ← port_at s ti pi; onDisconnect sp in
          call_disconnect (connFree s (Z.of_nat i)) me cb (serverRef c)
      | None => s
      end
  | None => s
  end.

Definition procDiscFromClient s (me : Z) (ti : nat) (m : its_msg) : its :=
  let '(s, ref, port) :=
    match conn s (m_handle m) with
    | Some c =>
        if is_me me (serverTask c) && bool_decide (clientTask c = Some (m_sender m))
        then (connFree s (m_handle m), serverRef c, itsPort c) else (s, m_ref m, m_port m)
    | None => (s, m_ref m, m_port m)
    end in
  call_disconnect s me (pi ← portFind s ti port; sp ← port_at s ti pi; onDisconnect sp) ref.

Definition procDiscFromServer s (me : Z) (m : its_msg) : its :=
  let '(s, ref, cb) :=
    match conn s (m_handle m) with
    | Some c =>
        if is_me me (clientTask c) && bool_decide (serverTask c = Some (m_sender m))
        then (connFree s (m_handle m), clientRef c, cliDisconnectCb c) else (s, m_ref m, m_cb m)
    | None => (s, m_ref m, m_cb m)
    end in
  call_disconnect s me cb ref.

Definition conn_set_kind (k : its_port_kind_t) (pb : bool) (c : its_conn) : its_conn :=
  conn_set_ends (clientTask c) (serverTask c) (itsPort c) (connectNonce c) k pb (noPool c) c.

Definition procForward s (me : Z) (ti : nat) (m : its_msg) (a1 : avail) : its :=
  match conn s (m_handle m) with
  | Some c =>
      if is_me me (serverTask c) then
        match pi ← portFind s ti (m_port m); port_at s ti pi with
        | None => itsDisconnect s me (m_handle m) a1
        | Some sp =>
            let s := upd_conn s (m_handle m) (conn_set_kind (sp_kind sp) (sp_packetBased sp)) in
            match onConnect sp with
            | Some cb =>
                let '(s, r) := app me cb (CConnect (m_handle m) (m_payload m) (m_len m)) s in
                if r <? 0 then itsDisconnect s me (m_handle m) a1 else s
            | None => s
            end
        end
      else s
  | None => s
  end.

Definition auxFind s (ti : nat) (port : Z) : option Z :=
  t ← s_tasks s !! ti;
  i ← find_idx (fun e => a_port e =? port) (auxCallbacks t);
  e ← auxCallbacks t !! i; Some (a_cb e).

Definition procAux s (me : Z) (ti : nat) (m : its_msg) : its :=
  match auxFind s ti (m_port m) with
  | Some cb => (app me cb (CAux (m_sender m) (m_payload m) (m_len m)) s).1
  | None => s
  end.

Definition task_is_server s (ti : nat) : bool := match s_tasks s !! ti with Some e => isServer e | None => false end.

Definition task_pickup (e : its_task (Q := Q)) (sem : option bool) (pend : Z) : its_task :=
  {| task := task e; serverPorts := serverPorts e; maxConns := maxConns e; ackSem := ackSem e; ackHandle := ackHandle e;
     ackNonce := ackNonce e; connectGen := connectGen e; pickupSem := sem; auxCallbacks := auxCallbacks e;
     inbox := inbox e; inboxMsgMax := inboxMsgMax e; Data.inboxDepth := Data.inboxDepth e; isServer := isServer e;
     isClient := isClient e; no_pool := no_pool e; pendingPay := pend |}.

(** After the dispatch: release a sender that waits for it, then free the message. *)
Definition finishMsg s (ti : nat) (m : its_msg) : its :=
  let s := if m_pickup m then
             match taskFind s (m_sender m) with
             | Some i => upd_task s i (fun e => task_pickup e (sem_give (pickupSem e)) (pendingPay e))
             | None => s
             end
           else s in
  let s := upd_task s ti (fun e => task_pickup e (pickupSem e) (wrap32 (pendingPay e - msg_pay m))) in
  msgFree s m.

Definition processInboxMsg s (me : Z) (ti : nat) (m : its_msg) (a1 a2 : avail) : its :=
  let s :=
    match m_kind m with
    | ITS_K_CONNECT => if task_is_server s ti then procConnect s me ti m a1 a2 else s
    | ITS_K_CONNECT_CANCEL => if task_is_server s ti then procCancel s me ti m else s
    | ITS_K_DISC_FROM_CLIENT => procDiscFromClient s me ti m
    | ITS_K_DISC_FROM_SERVER => procDiscFromServer s me m
    | ITS_K_FORWARD => if task_is_server s ti then procForward s me ti m a1 else s
    | ITS_K_AUX => procAux s me ti m
    end in
  finishMsg s ti m.

(** ** Receive callbacks *)

(** Whether the callback of connection [i] made progress. *)
Definition dispatch1 s (me : Z) (ti : nat) (i : Z) : its * bool :=
  match conn s i with
  | None => (s, false)
  | Some c =>
      let isSrv := is_me me (serverTask c) in
      if negb isSrv && negb (is_me me (clientTask c)) then (s, false)
      else
        match (if isSrv then pi ← portFind s ti (itsPort c); sp ← port_at s ti pi; onRecv sp else cliRecvCb c) with
        | None => (s, false)
        | Some cb =>
            if bool_decide (kind c = ITS_PACKET) then
              match L ← linkAt s (if isSrv then toLinkIdx c else fromLinkIdx c); r ← ring L; Some (L, r) with
              | None => (s, false)
              | Some (L, r) =>
                  let cnt := xStreamBufferBytesAvailable r / DESC_SIZE in
                  if 0 <? cnt then
                    let s := (app me cb (CRecv i (outstanding L)) s).1 in
                    let left := match L ← linkAt s (if isSrv then toLinkIdx c else fromLinkIdx c); ring L with
                                | Some r => xStreamBufferBytesAvailable r / DESC_SIZE
                                | None => 0
                                end in
                    (s, negb (is_some (conn s i)) || (left <? cnt))
                  else (s, false)
              end
            else
              let idx := if isSrv then toPoolIdx c else fromPoolIdx c in
              match poolHandle s idx with
              | None => (s, false)
              | Some b =>
                  let n := xStreamBufferBytesAvailable b in
                  if (if packetBased c then 4 else 0) <? n then
                    let s := (app me cb (CRecv i n) s).1 in
                    if negb (is_some (conn s i)) then (s, true)
                    else
                      match poolHandle s idx with
                      | Some b => (s, xStreamBufferBytesAvailable b <? n)
                      | None => (set_stale s, false)
                      end
                  else (s, false)
              end
        end
  end.

Fixpoint dispatchLoop (n : nat) s (me : Z) (ti : nat) (i : Z) (any : bool) : its * bool :=
  match n with
  | O => (s, any)
  | S n' => let '(s, p) := dispatch1 s me ti i in dispatchLoop n' s me ti (i + 1) (any || p)
  end.

Definition dispatchRecvCallbacks s (me : Z) (ti : nat) : its * bool :=
  dispatchLoop (Z.to_nat ITS_MAX_CONNS) s me ti 0 false.

(** One message of the inbox, if there is one. *)
Definition pollInbox s (me : Z) (ti : nat) (a1 a2 : avail) : its * bool :=
  match e ← s_tasks s !! ti; inbox e with
  | None => (set_stale s, false)
  | Some q =>
      match xQueueReceive q with
      | None => (s, false)
      | Some (m, q') =>
          let s := upd_task s ti (fun e => set_inbox q' (pendingPay e) e) in
          (processInboxMsg s me ti m a1 a2, true)
      end
  end.

Definition pollOnce s (me : Z) (ti : nat) (a1 a2 : avail) : its * bool :=
  let '(s, any) := pollInbox s me ti a1 a2 in
  let '(s, any') := dispatchRecvCallbacks s me ti in (s, any || any').

(** [itsPoll]: a second round after the wait if the first did nothing. *)
Definition itsPoll (ws : list (wake SB Q)) s (me timeout : Z) (a1 a2 : avail) : its * bool :=
  match taskFind s me with
  | None => (blocked ws s timeout, false)
  | Some ti =>
      let '(s, any) := pollOnce s me ti a1 a2 in
      if any then (s, true)
      else if timeout =? 0 then (s, false)
      else pollOnce (blocked ws s timeout) me ti a1 a2
  end.

(** ** Registration *)

Definition task_server (np : bool) (e : its_task (Q := Q)) : its_task :=
  {| task := task e; serverPorts := serverPorts e; maxConns := maxConns e; ackSem := ackSem e; ackHandle := ackHandle e;
     ackNonce := ackNonce e; connectGen := connectGen e; pickupSem := pickupSem e; auxCallbacks := auxCallbacks e;
     inbox := inbox e; inboxMsgMax := inboxMsgMax e; Data.inboxDepth := Data.inboxDepth e; isServer := true;
     isClient := isClient e; no_pool := np; pendingPay := pendingPay e |}.
Definition task_client (n : Z) (sem : option bool) (e : its_task (Q := Q)) : its_task :=
  {| task := task e; serverPorts := serverPorts e; maxConns := n; ackSem := sem; ackHandle := -1;
     ackNonce := ackNonce e; connectGen := connectGen e; pickupSem := pickupSem e; auxCallbacks := auxCallbacks e;
     inbox := inbox e; inboxMsgMax := inboxMsgMax e; Data.inboxDepth := Data.inboxDepth e; isServer := isServer e;
     isClient := true; no_pool := no_pool e; pendingPay := pendingPay e |}.
Definition task_tables (ports : list its_server_port) (aux : list its_aux_entry) (e : its_task (Q := Q)) : its_task :=
  {| task := task e; serverPorts := ports; maxConns := maxConns e; ackSem := ackSem e; ackHandle := ackHandle e;
     ackNonce := ackNonce e; connectGen := connectGen e; pickupSem := pickupSem e; auxCallbacks := aux;
     inbox := inbox e; inboxMsgMax := inboxMsgMax e; Data.inboxDepth := Data.inboxDepth e; isServer := isServer e;
     isClient := isClient e; no_pool := no_pool e; pendingPay := pendingPay e |}.

Definition itsServerInit s (me maxMsgLen d : Z) (np : bool) (av : avail) : its * bool :=
  match taskFindOrCreate s me maxMsgLen d av with
  | (s, Some ti) => if task_is_server s ti then (s, false) else (upd_task s ti (task_server np), true)
  | (s, None) => (s, false)
  end.

Definition itsClientInit s (me n maxMsgLen d : Z) (av : avail) : its :=
  match taskFindOrCreate s me maxMsgLen d av with
  | (s, Some ti) =>
      match s_tasks s !! ti with
      | Some e => if isClient e then s else upd_task s ti (task_client n (if av_sem av then Some false else None))
      | None => s
      end
  | (s, None) => s
  end.

Definition port_open (k : its_port_kind_t) (n toC fromC d mx : Z) (sp : its_server_port) : its_server_port :=
  {| sp_active := sp_active sp; sp_packetBased := bool_decide (k = ITS_PACKET_LEGACY); sp_kind := k; sp_port := sp_port sp;
     maxHandles := n; toSize := toC; fromSize := fromC; sp_depth := d; sp_maxMsg := mx;
     onConnect := onConnect sp; onBusy := onBusy sp; onDisconnect := onDisconnect sp; onRecv := onRecv sp |}.
Definition port_new (port : Z) : its_server_port :=
  {| sp_active := true; sp_packetBased := false; sp_kind := ITS_STREAM; sp_port := port; maxHandles := 0; toSize := 0;
     fromSize := 0; sp_depth := 0; sp_maxMsg := 0; onConnect := None; onBusy := None; onDisconnect := None; onRecv := None |}.

(** The slot for [port]: the one it has, a free one, a new one. *)
Definition port_slot (ports : list its_server_port) (port : Z) : option (list its_server_port * nat) :=
  match find_idx (is_port port) ports with
  | Some i => Some (ports, i)
  | None =>
      match find_idx (fun sp => negb (sp_active sp)) ports with
      | Some i => Some (<[i := port_new port]> ports, i)
      | None => if Zlen ports <? ITS_MAX_PORTS then Some (ports ++ [port_new port], length ports) else None
      end
  end.

Definition itsServerPortOpen s (me port : Z) (k : its_port_kind_t) (n toC fromC d mx : Z) : its * bool :=
  match taskFind s me with
  | None => (s, false)
  | Some ti =>
      match s_tasks s !! ti with
      | None => (s, false)
      | Some e =>
          if negb (isServer e) then (s, false)
          else
            let pk := bool_decide (k = ITS_PACKET) in
            let d := if pk && (d =? 0) then CONFIG_SPANGAP_ITS_PKT_DEPTH else d in
            let mx := if pk && (mx =? 0) then CONFIG_SPANGAP_ITS_MSG_MAX else mx in
            match port_slot (serverPorts e) port with
            | None => (s, false)
            | Some (ports, i) =>
                (upd_task s ti (task_tables (alter (port_open k n toC fromC d mx) i ports) (auxCallbacks e)), true)
            end
      end
  end.

Definition port_close (sp : its_server_port) : its_server_port :=
  {| sp_active := false; sp_packetBased := sp_packetBased sp; sp_kind := sp_kind sp; sp_port := sp_port sp;
     maxHandles := maxHandles sp; toSize := toSize sp; fromSize := fromSize sp; sp_depth := sp_depth sp;
     sp_maxMsg := sp_maxMsg sp; onConnect := None; onBusy := None; onDisconnect := None; onRecv := None |}.

Definition upd_port s (ti pi : nat) (f : its_server_port -> its_server_port) : its :=
  upd_task s ti (fun e => task_tables (alter f pi (serverPorts e)) (auxCallbacks e) e).

Fixpoint closePortConns (n : nat) s (me port h : Z) (av : avail) : its :=
  match n with
  | O => s
  | S n' =>
      let s := match conn s h with
               | Some c => if is_me me (serverTask c) && (itsPort c =? port) then itsDisconnect s me h av else s
               | None => s
               end in
      closePortConns n' s me port (h + 1) av
  end.

Definition itsServerPortClose s (me port : Z) (av : avail) : its :=
  match ti ← taskFind s me; pi ← portFind s ti port; Some (ti, pi) with
  | None => s
  | Some (ti, pi) => upd_port (closePortConns (Z.to_nat ITS_MAX_CONNS) s me port 0 av) ti pi port_close
  end.

(** [itsServerOnConnect], [OnBusy], [OnDisconnect], [OnRecv]. *)
Inductive server_cb := OnConnect | OnBusy | OnDisconnect | OnRecv.
Definition port_set_cb (w : server_cb) (cb : option Z) (sp : its_server_port) : its_server_port :=
  {| sp_active := sp_active sp; sp_packetBased := sp_packetBased sp; sp_kind := sp_kind sp; sp_port := sp_port sp;
     maxHandles := maxHandles sp; toSize := toSize sp; fromSize := fromSize sp; sp_depth := sp_depth sp; sp_maxMsg := sp_maxMsg sp;
     onConnect := match w with OnConnect => cb | _ => onConnect sp end; onBusy := match w with OnBusy => cb | _ => onBusy sp end;
     onDisconnect := match w with OnDisconnect => cb | _ => onDisconnect sp end;
     onRecv := match w with OnRecv => cb | _ => onRecv sp end |}.
Definition itsServerOn s (me port : Z) (w : server_cb) (cb : option Z) : its :=
  match ti ← taskFind s me; pi ← portFind s ti port; Some (ti, pi) with
  | None => s
  | Some (ti, pi) => upd_port s ti pi (port_set_cb w cb)
  end.

Definition itsOnAux s (me port cb : Z) (av : avail) : its :=
  match taskFindOrCreate s me 0 0 av with
  | (s, None) => s
  | (s, Some ti) =>
      match s_tasks s !! ti with
      | None => s
      | Some e =>
          let aux := auxCallbacks e in
          match find_idx (fun x => a_port x =? port) aux with
          | Some i => upd_task s ti (task_tables (serverPorts e) (<[i := {| a_port := port; a_cb := cb |}]> aux))
          | None =>
              if ITS_MAX_PORTS <=? Zlen aux then s
              else upd_task s ti (task_tables (serverPorts e) (aux ++ [{| a_port := port; a_cb := cb |}]))
          end
      end
  end.

Definition itsServerActive s (me port : Z) : Z :=
  match taskFind s me with
  | None => 0
  | Some _ => count_if (fun c => active c && is_me me (serverTask c) && ((port <? 0) || (itsPort c =? wrap16 port))) (connTable s)
  end.

Definition itsActiveTotal s : Z := count_if active (connTable s).

(** ** Handing a connection to another server *)

Definition itsServerForwardByTaskHandle s (me h target port : Z) (data : bytes) (av : avail) : its * Z :=
  match conn s h with
  | None => (s, -1)
  | Some c =>
      if negb (is_me me (serverTask c)) then (s, -1)
      else
        match taskFind s target with
        | None => (s, -1)
        | Some ti =>
            if negb (task_is_server s ti) then (s, -1)
            else
              match portFind s ti port with
              | None => (s, -1)
              | Some pi =>
                  let '(s, refused) :=
                    match port_full s ti pi port, (port_at s ti pi) ≫= onBusy with
                    | true, Some cb =>
                        let '(s, r) := app me cb (CBusy 0 (Zlen data)) s in
                        (s, if r =? 0 then port_full s ti pi port else true)
                    | _, _ => (s, false)
                    end in
                  if refused then (s, -1)
                  else
                    let s := match port_at s ti pi with
                             | Some sp => upd_conn s h (fun c => conn_set_ends (clientTask c) (Some target) port (connectNonce c)
                                                                   (sp_kind sp) (sp_packetBased sp) (noPool c) c)
                             | None => s
                             end in
                    match buildCopyMsg malloc s me ITS_K_FORWARD port h data ti av with
                    | (s, None) => (s, -1)
                    | (s, Some m) =>
                        match inboxEnqueue room s ti m 100 with
                        | (s, true) => (s, h)
                        | (s, false) => (msgFree s m, -1)
                        end
                    end
              end
        end
  end.

(** ** The client side *)

Definition task_gen (e : its_task (Q := Q)) (gen : Z) (sem : option bool) (h : Z) : its_task :=
  {| task := task e; serverPorts := serverPorts e; maxConns := maxConns e; ackSem := sem; ackHandle := h;
     ackNonce := ackNonce e; connectGen := gen; pickupSem := pickupSem e; auxCallbacks := auxCallbacks e;
     inbox := inbox e; inboxMsgMax := inboxMsgMax e; Data.inboxDepth := Data.inboxDepth e; isServer := isServer e;
     isClient := isClient e; no_pool := no_pool e; pendingPay := pendingPay e |}.

Definition msg_set_nonce (m : its_msg) (n : Z) : its_msg :=
  {| m_kind := m_kind m; m_pickup := m_pickup m; m_port := m_port m; m_handle := m_handle m; m_ref := m_ref m; m_nonce := n;
     m_sender := m_sender m; m_cb := m_cb m; m_len := m_len m; m_payload := m_payload m |}.

Definition nextNonce (gen : Z) : Z := let n := wrap32 (gen + 1) in if n =? 0 then 1 else n.

(** The caller's slot, when it is a client with a connection to spare. *)
Definition connectAllowed s (me : Z) : option nat :=
  mi ← taskFind s me; e ← s_tasks s !! mi;
  if negb (isClient e) then None
  else if maxConns e <=? count_if (fun c => active c && is_me me (clientTask c)) (connTable s) then None else Some mi.

(** The wait for the target to serve the port: [None] while it waits, [Some None] when
    the time is up, else the server's slot with the tick count and the wakes left. *)
Fixpoint serverWait (ws : list (wake SB Q)) s (server port start now timeout : Z) : its * option (option (nat * Z * list (wake SB Q))) :=
  match si ← taskFind s server; if task_is_server s si && is_some (portFind s si port) then Some si else None with
  | Some si => (s, Some (Some (si, now, ws)))
  | None =>
      if negb (timeout =? portMAX_DELAY) && ((timeout =? 0) || (timeout <=? wrap32 (now - start))) then (s, Some None)
      else match ws with [] => (s, None) | w :: ws => serverWait ws (w_env w s) server port start (w_tick w) timeout end
  end.

Definition remainingTime (start now timeout : Z) : Z :=
  if timeout =? portMAX_DELAY then portMAX_DELAY
  else let elapsed := wrap32 (now - start) in if elapsed <? timeout then timeout - elapsed else 0.

(** The handshake message to the server's slot [si]: its nonce, [None] for an error. *)
Definition connectPost s (me : Z) (mi si : nat) (port : Z) (data : bytes) (remaining : Z) (av : avail) : its * option Z :=
  match s_tasks s !! mi with
  | None => (s, None)
  | Some e =>
      let nonce := nextNonce (connectGen e) in
      let s := upd_task s mi (fun e => task_gen e nonce (sem_clear (ackSem e)) (-1)) in
      match buildCopyMsg malloc s me ITS_K_CONNECT port (-1) data si av with
      | (s, None) => (s, None)
      | (s, Some m) =>
          let m := msg_set_nonce m nonce in
          match inboxEnqueue room s si m remaining with
          | (s, true) => (s, Some nonce)
          | (s, false) => (msgFree s m, None)
          end
      end
  end.

(** The message that names an abandoned connect, to the server's slot [si]. *)
Definition sendCancel s (me : Z) (si : nat) (port nonce : Z) (av : avail) : its :=
  match buildCopyMsg malloc s me ITS_K_CONNECT_CANCEL port (-1) [] si av with
  | (s, None) => s
  | (s, Some m) =>
      let m := msg_set_nonce m nonce in
      match inboxEnqueue room s si m 50 with (s, true) => s | (s, false) => msgFree s m end
  end.

(** [xSemaphoreTake(me->ackSem)] after the wait. *)
Definition ack_take s (mi : nat) : its * bool :=
  match s_tasks s !! mi with
  | Some e => (upd_task s mi (fun e => task_gen e (connectGen e) (sem_clear (ackSem e)) (ackHandle e)), bool_decide (ackSem e = Some true))
  | None => (s, false)
  end.

Definition conn_set_client (ref : Z) (rcv dis : option Z) (c : its_conn) : its_conn :=
  {| active := active c; packetBased := packetBased c; kind := kind c; noPool := noPool c; clientTask := clientTask c;
     serverTask := serverTask c; toPoolIdx := toPoolIdx c; fromPoolIdx := fromPoolIdx c; toLinkIdx := toLinkIdx c;
     fromLinkIdx := fromLinkIdx c; itsPort := itsPort c; clientRef := if 0 <=? ref then to_s8 ref else clientRef c;
     serverRef := serverRef c; connectNonce := connectNonce c;
     cliRecvCb := match rcv with Some _ => rcv | None => cliRecvCb c end;
     cliDisconnectCb := match dis with Some _ => dis | None => cliDisconnectCb c end |}.

(** The wait for the ack of the connect with this nonce: the handle, -1 for an error,
    [None] while it waits. *)
Fixpoint connectWait (ws : list (wake SB Q)) s (me : Z) (si : nat) (port nonce ref : Z) (rcv dis : option Z) (mi : nat) (av : avail) : its * option Z :=
  match ws with
  | [] => (s, None)
  | w :: ws =>
      let '(s, got) := ack_take (w_env w s) mi in
      if negb got then (sendCancel s me si port nonce av, Some (-1))
      else
        match s_tasks s !! mi with
        | Some e =>
            if ackNonce e =? nonce then
              if ackHandle e <? 0 then (s, Some (-1))
              else (upd_conn s (ackHandle e) (conn_set_client ref rcv dis), Some (ackHandle e))
            else connectWait ws s me si port nonce ref rcv dis mi av
        | None => (s, Some (-1))
        end
  end.

Definition itsConnectByTaskHandle (ws : list (wake SB Q)) s (me server port : Z) (data : bytes) (now timeout ref : Z)
    (rcv dis : option Z) (av1 av2 : avail) : its * option Z :=
  match connectAllowed s me with
  | None => (s, Some (-1))
  | Some mi =>
      match serverWait ws s server port now now timeout with
      | (s, None) => (s, None)
      | (s, Some None) => (s, Some (-1))
      | (s, Some (Some (si, t, ws))) =>
          match connectPost s me mi si port data (remainingTime now t timeout) av1 with
          | (s, None) => (s, Some (-1))
          | (s, Some nonce) => connectWait ws s me si port nonce ref rcv dis mi av2
          end
      end
  end.

(** ** Aux messages *)

Definition auxRegistered s (ti : nat) (port : Z) : bool := is_some (auxFind s ti port).

Definition msg_set_pickup (m : its_msg) (p : bool) : its_msg :=
  {| m_kind := m_kind m; m_pickup := p; m_port := m_port m; m_handle := m_handle m; m_ref := m_ref m; m_nonce := m_nonce m;
     m_sender := m_sender m; m_cb := m_cb m; m_len := m_len m; m_payload := m_payload m |}.

(** [pickupArm]: the caller's slot if it will wait, [None] on failure. *)
Definition pickupArm s (me : Z) (pickup : bool) (av : avail) : its * option (option nat) :=
  if negb pickup then (s, Some None)
  else
    match taskFindOrCreate s me 0 0 av with
    | (s, None) => (s, None)
    | (s, Some mi) =>
        match e ← s_tasks s !! mi; pickupSem e with
        | None => (s, None)
        | Some _ => (upd_task s mi (fun e => task_pickup e (sem_clear (pickupSem e)) (pendingPay e)), Some (Some mi))
        end
    end.

(** [xSemaphoreTake(me->pickupSem, timeout)]. *)
Definition pickupWait (ws : list (wake SB Q)) s (mi : nat) (timeout : Z) : its * bool :=
  let s := blocked ws s timeout in
  match s_tasks s !! mi with
  | Some e => (upd_task s mi (fun e => task_pickup e (sem_clear (pickupSem e)) (pendingPay e)), bool_decide (pickupSem e = Some true))
  | None => (s, false)
  end.

Definition itsSendAux (ws : list (wake SB Q)) s (me target port : Z) (data : bytes) (timeout : Z) (pickup : bool) (av : avail) : its * bool :=
  match taskFind s target with
  | None => (s, false)
  | Some ti =>
      if negb (auxRegistered s ti port) then (s, false)
      else
        match pickupArm s me pickup av with
        | (s, None) => (s, false)
        | (s, Some mi) =>
            match buildCopyMsg malloc s me ITS_K_AUX port (-1) data ti av with
            | (s, None) => (s, false)
            | (s, Some m) =>
                let m := msg_set_pickup m pickup in
                match inboxEnqueue room s ti m timeout with
                | (s, false) => (msgFree s m, false)
                | (s, true) => match mi with Some mi => pickupWait ws s mi timeout | None => (s, true) end
                end
            end
        end
  end.

Definition itsSendAuxOwnedByTaskHandle (ws : list (wake SB Q)) s (me target port p len timeout : Z) (pickup : bool) (av : avail) : its * bool :=
  match taskFind s target with
  | None => (s, false)
  | Some ti =>
      if negb (auxRegistered s ti port) then (s, false)
      else if match s_tasks s !! ti with Some e => inboxMsgMax e | None => 0 end <? len then (s, false)
      else
        match pickupArm s me pickup av with
        | (s, None) => (s, false)
        | (s, Some mi) =>
            match msgAlloc s av with
            | (s, None) => (s, false)
            | (s, Some m0) =>
                let m := {| m_kind := ITS_K_AUX; m_pickup := pickup; m_port := port; m_handle := m_handle m0; m_ref := m_ref m0;
                            m_nonce := m_nonce m0; m_sender := me; m_cb := m_cb m0; m_len := len; m_payload := p |} in
                let s := payAdopt s len in
                match inboxEnqueue room s ti m timeout with
                | (s, false) =>
                    let m := {| m_kind := ITS_K_AUX; m_pickup := pickup; m_port := port; m_handle := m_handle m0; m_ref := m_ref m0;
                                m_nonce := m_nonce m0; m_sender := me; m_cb := m_cb m0; m_len := len; m_payload := 0 |} in
                    (msgFree (payHandoff s len) m, false)
                | (s, true) =>
                    match mi with Some mi => ((pickupWait ws s mi timeout).1, true) | None => (s, true) end
                end
            end
        end
  end.

End Server.
End Server.
Import Server.

(** ** The state at start-up: empty tables, 128 free connection slots. (In the zeroed
    memory a slot that was never used has index 0 for its buffers, not -1; [connFree],
    the only reader of the indices of an inactive slot, is only called on handles that
    were allocated.) *)
Definition its_start {SB Q : Type} : its (SB := SB) (Q := Q) :=
  let c0 := {| liveBlocks := 0; liveBytes := 0; hwBlocks := 0; hwBytes := 0 |} in
  {| itsPool := []; itsLinks := [];
     connTable := replicate (Z.to_nat ITS_MAX_CONNS) conn0; connCounter := 0; s_tasks := []; heap := ∅; hdrCtr := c0;
     payCtr := c0; notified := []; bad := false; stale := false |}.
