(* ===== verification/ItsInv.v ===== *)
(** * its: the invariant of the tables

    Every buffer slot and link a connection refers to is in use and referred to once;
    every payload block that sits in an inbox or in a link is live, queued once and
    counted, and the two ownership counters count exactly the messages and blocks the
    transport holds. The predicates, and that the table operations keep them. *)

From stdpp Require Import gmap.
From S2P Require Import Prelude CLib Rtos Its ItsFlow ItsServer.
Import Data Tables Flow Server.
Open Scope Z_scope.
Open Scope spangap_scope.

(** ** Lists with positions *)

Lemma find_idx_Some {A} (p : A -> bool) l i : find_idx p l = Some i -> exists x, l !! i = Some x /\ p x = true.
Proof.
  revert i. induction l as [|y l IH]; intros i; cbn [find_idx]; [done|]. destruct (p y) eqn:E; [intros [= <-]; by exists y|].
  intros (j & Hj & ->)%fmap_Some. exact (IH _ Hj).
Qed.

Lemma map_alter_same {A B} (g : A -> B) (f : A -> A) i (l : list A) :
  (forall x, l !! i = Some x -> g (f x) = g x) -> map g (alter f i l) = map g l.
Proof.
  intros H. apply list_eq. intros j. rewrite !list_lookup_fmap.
  destruct (decide (i = j)) as [->|Hne]; [|by rewrite list_lookup_alter_ne].
  rewrite list_lookup_alter_eq. destruct (l !! j) as [x|] eqn:E; [|done]. cbn. f_equal. by apply H.
Qed.

Lemma map_alter_insert {A B} (g : A -> B) (f : A -> A) i (l : list A) x :
  l !! i = Some x -> map g (alter f i l) = <[i := g (f x)]> (map g l).
Proof.
  intros H. rewrite <- list_fmap_insert. f_equal. rewrite <- (list_insert_id l i x) at 2 by done.
  rewrite list_insert_insert_eq. apply list_eq. intros j. destruct (decide (i = j)) as [->|].
  - rewrite list_lookup_alter_eq, H, list_lookup_insert_eq; [done|]. by apply lookup_lt_Some in H.
  - by rewrite list_lookup_alter_ne, list_lookup_insert_ne.
Qed.

Lemma delete_insert_same {A} (l : list A) i x : delete i (<[i := x]> l) = delete i l.
Proof. revert i. induction l as [|y l IH]; intros [|i]; cbn; [done..|]. f_equal. apply IH. Qed.

Lemma flat_map_split {A B} (f : A -> list B) l i x : l !! i = Some x -> flat_map f l ≡ₚ f x ++ flat_map f (delete i l).
Proof.
  revert i. induction l as [|y l IH]; intros [|i] H; cbn in *; [done..|by simplify_eq|]. rewrite (IH i H). by rewrite Permutation_app_swap_app.
Qed.

Lemma flat_map_insert {A B} (f : A -> list B) l i x y :
  l !! i = Some x -> flat_map f (<[i := y]> l) ≡ₚ f y ++ flat_map f (delete i l).
Proof.
  intros H. rewrite (flat_map_split f _ i y); [by rewrite delete_insert_same|].
  apply list_lookup_insert_eq. by apply lookup_lt_Some in H.
Qed.

Lemma in_table_lookup {A} idx (l : list A) : in_table idx l = true -> 0 <= idx /\ exists x, l !! Z.to_nat idx = Some x.
Proof.
  unfold in_table. intros H. b2p. split; [lia|]. apply lookup_lt_is_Some_2. unfold Zlen in *. lia.
Qed.

(** ** Blocks and their ledger *)

(** A block the transport holds: its length and its address. *)
Abbreviation blk := (Z * Z)%type.

Definition blk_desc (b : blk) : bytes := desc_bytes b.1 b.2.
Definition blk_len (bl : list blk) : Z := foldr (fun b n => b.1 + n) 0 bl.
Definition blk_live (h : gmap Z bytes) (b : blk) : Prop :=
  exists d, h !! b.2 = Some d /\ 0 <= b.1 <= Zlen d /\ b.1 < 2 ^ 32 /\ 0 < b.2 < 2 ^ 32.

Definition pay_of (m : its_msg) : list blk := if m_payload m =? 0 then [] else [(m_len m, m_payload m)].

(** The transport holds [bl] and counts them in [pc]; its callers hold [ob]. *)
Definition ledger (h : gmap Z bytes) (pc : its_ctr) (bl ob : list blk) : Prop :=
  NoDup (map snd (bl ++ ob)) /\ Forall (blk_live h) (bl ++ ob) /\
  liveBlocks pc = wrap32 (Zlen bl) /\ liveBytes pc = wrap32 (blk_len bl).

Lemma blk_len_app l1 l2 : blk_len (l1 ++ l2) = blk_len l1 + blk_len l2.
Proof. unfold blk_len. induction l1 as [|b l IH]; cbn [foldr app]; lia. Qed.

#[export] Instance blk_len_perm : Proper ((≡ₚ) ==> eq) blk_len.
Proof. intros l1 l2 H. unfold blk_len. induction H; cbn [foldr]; lia. Qed.

#[export] Instance Zlen_perm {A} : Proper ((≡ₚ) ==> eq) (@Zlen A).
Proof. intros l1 l2 H. unfold Zlen. by rewrite H. Qed.

#[export] Instance map_perm {A B} (f : A -> B) : Proper ((≡ₚ) ==> (≡ₚ)) (map f).
Proof. intros l1 l2 H. by apply Permutation_map. Qed.

#[export] Instance ledger_perm h pc : Proper ((≡ₚ) ==> (≡ₚ) ==> iff) (ledger h pc).
Proof.
  intros l1 l2 H k1 k2 K. unfold ledger. rewrite (Zlen_perm _ _ H), (blk_len_perm _ _ H).
  assert (l1 ++ k1 ≡ₚ l2 ++ k2) as E by (by apply Permutation_app). by rewrite E.
Qed.

Lemma ctrAdd_ledger c n k by' : liveBlocks c = wrap32 k -> liveBytes c = wrap32 by' ->
  liveBlocks (ctrAdd c n) = wrap32 (k + 1) /\ liveBytes (ctrAdd c n) = wrap32 (by' + n).
Proof. intros H1 H2. cbn. rewrite H1, H2. unfold wrap32. by rewrite !Zplus_mod_idemp_l. Qed.

Lemma ctrSub_ledger c n k by' : liveBlocks c = wrap32 k -> liveBytes c = wrap32 by' ->
  liveBlocks (ctrSub c n) = wrap32 (k - 1) /\ liveBytes (ctrSub c n) = wrap32 (by' - n).
Proof. intros H1 H2. cbn. rewrite H1, H2. unfold wrap32. by rewrite !Zminus_mod_idemp_l. Qed.

Lemma blk_live_delete h p b : b.2 <> p -> blk_live h b -> blk_live (delete p h) b.
Proof. intros Hp (d & H & ?). exists d. by rewrite lookup_delete_ne. Qed.

Lemma blk_live_insert h p d b : h !! p = None -> blk_live h b -> blk_live (<[p := d]> h) b.
Proof. intros Hp (d' & H & ?). exists d'. rewrite lookup_insert_ne by congruence. done. Qed.

Lemma ledger_handoff h pc b bl ob : ledger h pc (b :: bl) ob -> ledger h (ctrSub pc b.1) bl (b :: ob).
Proof.
  intros (ND & FL & H1 & H2). split; [|split].
  - by rewrite <- Permutation_middle.
  - by rewrite <- Permutation_middle.
  - destruct (ctrSub_ledger pc b.1 _ _ H1 H2) as [-> ->]. unfold blk_len. cbn. rewrite Zlen_cons. split; f_equal; lia.
Qed.

Lemma ledger_adopt h pc b bl ob : ledger h pc bl (b :: ob) -> ledger h (ctrAdd pc b.1) (b :: bl) ob.
Proof.
  intros (ND & FL & H1 & H2). split; [|split].
  - rewrite <- Permutation_middle in ND. done.
  - rewrite <- Permutation_middle in FL. done.
  - destruct (ctrAdd_ledger pc b.1 _ _ H1 H2) as [-> ->]. unfold blk_len. cbn. rewrite Zlen_cons. split; f_equal; lia.
Qed.

(** A caller forgets a block, frees it, or allocates one. *)
Lemma ledger_forget h pc b bl ob : ledger h pc bl (b :: ob) -> ledger h pc bl ob.
Proof.
  intros (ND & FL & H). rewrite <- Permutation_middle in ND, FL. cbn in ND. inversion ND. inversion FL. done.
Qed.

Lemma ledger_release h pc b bl ob : ledger h pc bl (b :: ob) -> ledger (delete b.2 h) pc bl ob /\ is_some (h !! b.2) = true.
Proof.
  intros (ND & FL & H). rewrite <- Permutation_middle in ND, FL. cbn in ND. apply NoDup_cons in ND as [NI ND].
  apply Forall_cons in FL as [(d & Hd & _) FL]. rewrite Hd. split; [|done]. split; [done|]. split; [|done].
  apply Forall_forall. intros x Hx. apply blk_live_delete; [|by rewrite Forall_forall in FL; apply FL].
  intros E. apply NI. rewrite <- E. apply list_elem_of_fmap. by exists x.
Qed.

Lemma ledger_fresh h pc bl ob p d :
  ledger h pc bl ob -> h !! p = None -> 0 < p < 2 ^ 32 -> Zlen d < 2 ^ 32 -> ledger (<[p := d]> h) pc bl ((Zlen d, p) :: ob).
Proof.
  intros (ND & FL & H) Hp Hr Hd. split; [|split; [|done]]; rewrite <- Permutation_middle.
  - cbn. apply NoDup_cons. split; [|done]. intros (x & -> & Hx)%list_elem_of_fmap.
    rewrite Forall_forall in FL. destruct (FL x Hx) as (d' & E & _). congruence.
  - constructor.
    + exists d. cbn. rewrite lookup_insert_eq. pose proof (Zlen_nonneg d). done || (split_and!; [done|lia..]).
    + eapply Forall_impl; [exact FL|]. intros x. by apply blk_live_insert.
Qed.

Section Inv.
Context {SB Q : Type} {SBI : StreamBuf SB} {SBL : StreamBufLaws SB} {RQI : RtosQueue Q its_msg} {RQL : RtosQueueLaws Q its_msg}.
#[local] Abbreviation its := (its (SB := SB) (Q := Q)).
Implicit Types (s : its).

(** What the invariant sees of each table. *)
Definition cview (c : its_conn) : bool * list Z * list Z := (active c, [toPoolIdx c; fromPoolIdx c], [toLinkIdx c; fromLinkIdx c]).
Definition lview (L : its_link (SB := SB)) : option SB * Z * bool := (ring L, outstanding L, l_inUse L).

Definition nonneg (i : Z) : bool := 0 <=? i.
Definition pool_refs (cv : list (bool * list Z * list Z)) : list Z := flat_map (fun c => List.filter nonneg c.1.2) cv.
Definition link_refs (cv : list (bool * list Z * list Z)) : list Z := flat_map (fun c => List.filter nonneg c.2) cv.

Definition idle_ok (c : bool * list Z * list Z) : Prop := c.1.1 = false -> c.1.2 = [-1; -1] /\ c.2 = [-1; -1].

Definition refs_ok (refs : list Z) (used : list bool) : Prop := NoDup refs /\ Forall (fun i => used !! Z.to_nat i = Some true) refs.

Definition box_msgs (o : option Q) : list its_msg := match o with Some q => q_items q | None => [] end.
Definition box_pays (o : option Q) : list blk := flat_map pay_of (box_msgs o).

(** The descriptors in a ring. *)
Definition link_holds (v : option SB * Z * bool) (ds : list blk) : Prop :=
  match v.1.1 with
  | None => ds = []
  | Some r => sb_bytes r = flat_map blk_desc ds
  end /\ v.1.2 = wrap32 (blk_len ds) /\ (v.2 = false -> ds = []).

(** [hm] headers and the blocks [hb] are held by a call in progress, the blocks [ob] by
    its caller. *)
Definition own (hm : Z) (hb ob : list blk) (lv : list (option SB * Z * bool)) (bx : list (option Q)) (h : gmap Z bytes)
    (hc pc : its_ctr) (b : bool) : Prop :=
  exists dss, Forall2 link_holds lv dss /\ ledger h pc (flat_map box_pays bx ++ concat dss ++ hb) ob /\
    liveBlocks hc = wrap32 (Zlen (flat_map box_msgs bx) + hm) /\
    liveBytes hc = wrap32 (HDR_SIZE * (Zlen (flat_map box_msgs bx) + hm)) /\ b = false.

Definition slots (cv : list (bool * list Z * list Z)) (pu lu : list bool) : Prop :=
  Zlen cv = ITS_MAX_CONNS /\ Forall idle_ok cv /\ refs_ok (pool_refs cv) pu /\ refs_ok (link_refs cv) lu.

Definition slots_of s : Prop := slots (map cview (connTable s)) (map p_inUse (itsPool s)) (map l_inUse (itsLinks s)).
Definition own_of hm hb ob s : Prop :=
  own hm hb ob (map lview (itsLinks s)) (map inbox (s_tasks s)) (heap s) (hdrCtr s) (payCtr s) (bad s).

Definition inv (hm : Z) (hb ob : list blk) s : Prop := slots_of s /\ own_of hm hb ob s.

Definition keeps hm hb ob (f : its -> its) : Prop := forall s, inv hm hb ob s -> inv hm hb ob (f s).

(** ** Changes the invariant does not see *)

Lemma inv_same hm hb ob s s' :
  map cview (connTable s') = map cview (connTable s) -> map p_inUse (itsPool s') = map p_inUse (itsPool s) ->
  map lview (itsLinks s') = map lview (itsLinks s) -> map inbox (s_tasks s') = map inbox (s_tasks s) ->
  heap s' = heap s -> hdrCtr s' = hdrCtr s -> payCtr s' = payCtr s -> bad s' = bad s -> inv hm hb ob s -> inv hm hb ob s'.
Proof.
  intros E1 E2 E3 E4 E5 E6 E7 E8. unfold inv, slots_of, own_of. rewrite E1, E2, E3, E4, E5, E6, E7, E8.
  assert (map l_inUse (itsLinks s') = map l_inUse (itsLinks s)) as ->; [|done].
  assert (forall l, map l_inUse l = map snd (map lview l)) as Hm by (intros l; by rewrite map_map).
  by rewrite !Hm, E3.
Qed.

Lemma inv_notify hm hb ob s t : inv hm hb ob s -> inv hm hb ob (notifyGive s t).
Proof. destruct t; [by apply inv_same|done]. Qed.

Lemma inv_stale hm hb ob s : inv hm hb ob s -> inv hm hb ob (set_stale s).
Proof. by apply inv_same. Qed.

Lemma inv_task hm hb ob s i f : (forall e, inbox (f e) = inbox e) -> inv hm hb ob s -> inv hm hb ob (upd_task s i f).
Proof. intros Hf. apply inv_same; try done. apply map_alter_same. intros e _. apply Hf. Qed.

Lemma inv_pool hm hb ob s i f : (forall e, p_inUse (f e) = p_inUse e) -> inv hm hb ob s -> inv hm hb ob (upd_pool s i f).
Proof. intros Hf. apply inv_same; try done. apply map_alter_same. intros e _. apply Hf. Qed.

Lemma inv_link hm hb ob s i f : (forall L, lview (f L) = lview L) -> inv hm hb ob s -> inv hm hb ob (upd_link s i f).
Proof. intros Hf. apply inv_same; try done. apply map_alter_same. intros e _. apply Hf. Qed.

Lemma inv_conn hm hb ob s h f : (forall c, cview (f c) = cview c) -> inv hm hb ob s -> inv hm hb ob (upd_conn s h f).
Proof. intros Hf. apply inv_same; try done. apply map_alter_same. intros e _. apply Hf. Qed.

(** ** Changes of ownership *)

Lemma own_ledger hm hb ob hb' ob' lv bx h h' hc pc pc' b :
  own hm hb ob lv bx h hc pc b ->
  (forall bl, ledger h pc (bl ++ hb) ob -> ledger h' pc' (bl ++ hb') ob') -> own hm hb' ob' lv bx h' hc pc' b.
Proof.
  intros (dss & H1 & H2 & H3) K. exists dss. split; [done|]. split; [|done]. rewrite app_assoc in *. by apply K.
Qed.

Lemma concat_flat_map_id {A} (dss : list (list A)) : concat dss = flat_map (fun x => x) dss.
Proof. induction dss as [|d l IH]; cbn; [done|]. by rewrite IH. Qed.

Lemma concat_split {A} (dss : list (list A)) i ds : dss !! i = Some ds -> concat dss ≡ₚ ds ++ concat (delete i dss).
Proof. rewrite !concat_flat_map_id. apply (flat_map_split (fun x => x)). Qed.

(** One link's content changes, and what the call holds. *)
Lemma own_link hm hb ob lv bx h hc pc b i v :
  own hm hb ob lv bx h hc pc b -> lv !! i = Some v ->
  exists ds bl, link_holds v ds /\ ledger h pc (bl ++ ds ++ hb) ob /\
    forall v' ds' hb' ob' h' pc', link_holds v' ds' -> ledger h' pc' (bl ++ ds' ++ hb') ob' ->
      own hm hb' ob' (<[i := v']> lv) bx h' hc pc' b.
Proof.
  intros (dss & H1 & H2 & H3) Hi. destruct (Forall2_lookup_l _ _ _ _ _ H1 Hi) as (ds & Hd & Hv).
  assert (forall X hb', flat_map box_pays bx ++ (X ++ concat (delete i dss)) ++ hb' ≡ₚ
            (flat_map box_pays bx ++ concat (delete i dss)) ++ X ++ hb') as P.
  { intros X hb'. rewrite (Permutation_app_comm X). by rewrite <- !app_assoc. }
  rewrite (concat_split _ _ _ Hd), P in H2. exists ds, (flat_map box_pays bx ++ concat (delete i dss)). split_and!; [done..|].
  intros v' ds' hb' ob' h' pc' Hv' K. exists (<[i := ds']> dss). split; [by apply Forall2_insert|]. split; [|done].
  rewrite (concat_split (<[i := ds']> dss) i ds'), delete_insert_same, P; [done|].
  apply list_lookup_insert_eq. by apply lookup_lt_Some in Hd.
Qed.

(** One inbox changes: messages go from or to the call. *)
Lemma own_box hm hb ob lv bx h hc pc b i o o' hm' hb' :
  own hm hb ob lv bx h hc pc b -> bx !! i = Some o ->
  Zlen (box_msgs o') + hm' = Zlen (box_msgs o) + hm -> box_pays o' ++ hb' ≡ₚ box_pays o ++ hb ->
  own hm' hb' ob lv (<[i := o']> bx) h hc pc b.
Proof.
  intros (dss & H1 & H2 & H3 & H4 & H5) Hi Hn Hp. exists dss. split; [done|].
  assert (Zlen (flat_map box_msgs (<[i := o']> bx)) + hm' = Zlen (flat_map box_msgs bx) + hm) as ->.
  { rewrite (flat_map_insert _ _ _ _ _ Hi), (flat_map_split _ _ _ _ Hi), !Zlen_app. lia. }
  split; [|done]. rewrite (flat_map_insert _ _ _ _ _ Hi). rewrite (flat_map_split _ _ _ _ Hi) in H2.
  assert (forall X hb', (X ++ flat_map box_pays (delete i bx)) ++ concat dss ++ hb' ≡ₚ
            (flat_map box_pays (delete i bx) ++ concat dss) ++ X ++ hb') as P.
  { intros X Y. rewrite (Permutation_app_comm X). rewrite <- !app_assoc. apply Permutation_app_head. by rewrite Permutation_app_swap_app. }
  rewrite P, Hp, <- P. done.
Qed.

(** ** Slots: acquired, referred to, released *)

Definition nonnegs (refs : list Z) : Prop := Forall (fun i => 0 <= i) refs.

Lemma filter_nonnegs l : nonnegs (List.filter nonneg l).
Proof. apply Forall_forall. intros x Hx. apply list_elem_of_In, filter_In in Hx as [_ Hx]. unfold nonneg in Hx. lia. Qed.

Lemma flat_nonnegs {A} (f : A -> list Z) l : (forall x, nonnegs (f x)) -> nonnegs (flat_map f l).
Proof. intros H. induction l as [|x l IH]; cbn; [constructor|]. apply Forall_app. split; [apply H|exact IH]. Qed.

Lemma pool_refs_nonneg cv : nonnegs (pool_refs cv).
Proof. apply flat_nonnegs. intros. apply filter_nonnegs. Qed.
Lemma link_refs_nonneg cv : nonnegs (link_refs cv).
Proof. apply flat_nonnegs. intros. apply filter_nonnegs. Qed.

Lemma refs_used refs used i : refs_ok refs used -> i ∈ refs -> used !! Z.to_nat i = Some true.
Proof. intros [_ F] Hi. rewrite Forall_forall in F. by apply F. Qed.

Lemma refs_set refs used i b : nonnegs refs -> refs_ok refs used -> 0 <= i -> i ∉ refs -> refs_ok refs (<[Z.to_nat i := b]> used).
Proof.
  intros Hn [ND F] Hi HI. split; [done|]. rewrite Forall_forall in *. intros x Hx.
  rewrite list_lookup_insert_ne; [by apply F|]. intros E.
  assert (0 <= x) by (unfold nonnegs in Hn; rewrite Forall_forall in Hn; by apply Hn). assert (i = x) by lia. by subst.
Qed.

Lemma refs_snoc refs used b : refs_ok refs used -> refs_ok refs (used ++ [b]).
Proof. intros [ND F]. split; [done|]. eapply Forall_impl; [exact F|]. intros x Hx. by apply lookup_app_l_Some. Qed.

Lemma refs_free refs used i b : refs_ok refs used -> used !! Z.to_nat i = Some b -> b = false -> i ∉ refs.
Proof. intros H E -> Hi. apply (refs_used _ _ _ H) in Hi. congruence. Qed.

Lemma refs_past refs used i : refs_ok refs used -> used !! Z.to_nat i = None -> i ∉ refs.
Proof. intros H E Hi. apply (refs_used _ _ _ H) in Hi. congruence. Qed.

(** Slot [i] is in use, and no connection refers to it. *)
Definition mine (refs : list Z) (used : list bool) (i : Z) : Prop := 0 <= i -> (i ∉ refs) /\ used !! Z.to_nat i = Some true.

Lemma mine_minus1 refs used : mine refs used (-1).
Proof. intros H. lia. Qed.

Lemma refs_take refs used (i : nat) :
  nonnegs refs -> refs_ok refs used -> used !! i = Some false ->
  refs_ok refs (<[i := true]> used) /\ mine refs (<[i := true]> used) (Z.of_nat i).
Proof.
  intros Hn H E. assert (Z.of_nat i ∉ refs) as HI by (eapply refs_free; [exact H|by rewrite Nat2Z.id|done]).
  rewrite <- (Nat2Z.id i) at 1. split; [apply refs_set; [done..|lia|done]|]. intros _. split; [done|].
  rewrite Nat2Z.id. apply list_lookup_insert_eq. by apply lookup_lt_Some in E.
Qed.

Lemma refs_grow refs used :
  refs_ok refs used -> refs_ok refs (used ++ [true]) /\ mine refs (used ++ [true]) (Zlen used).
Proof.
  intros H. split; [by apply refs_snoc|]. intros _. unfold Zlen. split.
  - eapply refs_past; [exact H|]. rewrite Nat2Z.id. by apply lookup_ge_None.
  - rewrite Nat2Z.id. by apply list_lookup_middle.
Qed.

Lemma map_lookup {A B} (f : A -> B) l i x : l !! i = Some x -> map f l !! i = Some (f x).
Proof. intros H. change (map f l) with (f <$> l). by rewrite list_lookup_fmap, H. Qed.

Abbreviation cviews s := (map cview (connTable s)).

Lemma poolGet_ok hm hb ob s n np av s' i :
  inv hm hb ob s -> poolGet s n np av = (s', i) ->
  inv hm hb ob s' /\ connTable s' = connTable s /\ itsLinks s' = itsLinks s /\
  mine (pool_refs (cviews s')) (map p_inUse (itsPool s')) i.
Proof.
  intros [(S1 & S2 & S3 & S4) O]. unfold poolGet.
  assert (forall v, refs_ok (pool_refs (cviews s)) (map p_inUse v) -> inv hm hb ob (with_pool s v)) as K
    by (intros v Hv; split; [exact (conj S1 (conj S2 (conj Hv S4)))|exact O]).
  pose proof (pool_refs_nonneg (cviews s)) as N.
  destruct (n =? 0). { intros [= <- <-]. split_and!; [by split|done..|apply mine_minus1]. }
  destruct (if np then None else _) as [j|] eqn:E1.
  { destruct np; [done|]. apply find_idx_Some in E1 as (e & He & Hp). intros [= <- <-].
    unfold pool_free_match in Hp. b2p. destruct (p_inUse e) eqn:Eu; [done|].
    destruct (refs_take _ _ j N S3) as [R M]; [by rewrite (map_lookup _ _ _ _ He), Eu|].
    assert (map p_inUse (itsPool (upd_pool s j pool_reuse)) = <[j := true]> (map p_inUse (itsPool s))) as E
      by (unfold upd_pool; cbn [itsPool with_pool]; by rewrite (map_alter_insert _ _ _ _ _ He)).
    split_and!; [apply K; unfold upd_pool in E; cbn [itsPool with_pool] in E; by rewrite E|done..|by rewrite E]. }
  destruct (find_idx pool_empty (itsPool s)) as [j|] eqn:E2.
  { apply find_idx_Some in E2 as (e & He & Hp). intros [= <- <-]. unfold pool_empty in Hp. b2p. destruct (p_inUse e) eqn:Eu; [done|].
    destruct (refs_take _ _ j N S3) as [R M]; [by rewrite (map_lookup _ _ _ _ He), Eu|].
    cbn [itsPool with_pool connTable itsLinks]. rewrite list_fmap_insert. split_and!; [apply K; by rewrite list_fmap_insert|done..|].
    destruct (entry_ok _); [done|apply mine_minus1]. }
  destruct (ITS_MAX_POOL <=? _). { intros [= <- <-]. split_and!; [by split|done..|apply mine_minus1]. }
  intros [= <- <-]. destruct (refs_grow _ _ S3) as [R M]. cbn [itsPool with_pool connTable itsLinks].
  rewrite map_app. split_and!; [apply K; by rewrite map_app|done..|].
  destruct (entry_ok _); [|apply mine_minus1]. unfold Zlen in *. by rewrite length_map in M.
Qed.

Lemma new_link_holds r : sb_bytes r = [] -> link_holds (Some r, 0, true) [].
Proof. done. Qed.

(** An idle link taken into use again, and a new one. *)
Lemma own_reuse hm hb ob lv bx h hc pc b i v v' :
  own hm hb ob lv bx h hc pc b -> lv !! i = Some v -> v.2 = false -> link_holds v' [] -> own hm hb ob (<[i := v']> lv) bx h hc pc b.
Proof.
  intros O Hi Hu Hv'. destruct (own_link _ _ _ _ _ _ _ _ _ _ _ O Hi) as (ds & bl & (_ & _ & Hd) & HL & K). rewrite (Hd Hu) in HL.
  by apply (K v' []).
Qed.

Lemma own_new_link hm hb ob lv bx h hc pc b v : own hm hb ob lv bx h hc pc b -> link_holds v [] -> own hm hb ob (lv ++ [v]) bx h hc pc b.
Proof.
  intros (dss & H1 & H2) Hv. exists (dss ++ [[]]). split; [apply Forall2_app; [done|by constructor]|].
  rewrite concat_app. cbn [concat]. by rewrite !app_nil_r.
Qed.

Lemma link_fresh_holds d cap mx av sem : link_holds (lview (link_fresh d cap mx av sem)) [].
Proof.
  unfold lview, link_fresh. cbn [ring outstanding l_inUse]. destruct (av_buf av); [|done]. apply new_link_holds, sb_create_spec.
Qed.

Lemma link_reuse_holds cap mx L : link_holds (lview (link_reuse cap mx L)) [].
Proof.
  unfold lview, link_reuse. cbn [ring outstanding l_inUse]. destruct (ring L) as [r|]; [|done]. cbn. apply new_link_holds, sb_reset_spec.
Qed.

Lemma linkAcquire_ok hm hb ob s d cap mx av s' i :
  inv hm hb ob s -> linkAcquire s d cap mx av = (s', i) ->
  inv hm hb ob s' /\ connTable s' = connTable s /\ itsPool s' = itsPool s /\
  mine (link_refs (cviews s')) (map l_inUse (itsLinks s')) i.
Proof.
  intros [(S1 & S2 & S3 & S4) O]. unfold linkAcquire. set (d' := if d =? 0 then 1 else d).
  assert (forall v, refs_ok (link_refs (cviews s)) (map l_inUse v) ->
            own hm hb ob (map lview v) (map inbox (s_tasks s)) (heap s) (hdrCtr s) (payCtr s) (bad s) -> inv hm hb ob (with_links s v)) as K
    by (intros v Hv Ho; split; [exact (conj S1 (conj S2 (conj S3 Hv)))|exact Ho]).
  pose proof (link_refs_nonneg (cviews s)) as N.
  destruct (find_idx (link_free_match d') (itsLinks s)) as [j|] eqn:E1.
  { apply find_idx_Some in E1 as (L & HL & Hp). intros [= <- <-].
    unfold link_free_match in Hp. b2p. destruct (l_inUse L) eqn:Eu; [done|].
    destruct (refs_take _ _ j N S4) as [R M]; [by rewrite (map_lookup _ _ _ _ HL), Eu|].
    unfold upd_link. cbn [itsLinks with_links connTable itsPool]. rewrite (map_alter_insert _ _ _ _ _ HL).
    split_and!; [|done..]. apply K; rewrite (map_alter_insert _ _ _ _ _ HL); [done|].
    eapply own_reuse; [exact O|exact (map_lookup lview _ _ _ HL)|done|apply link_reuse_holds]. }
  destruct (find_idx link_empty (itsLinks s)) as [j|] eqn:E2.
  { apply find_idx_Some in E2 as (L & HL & Hp). intros [= <- <-]. unfold link_empty in Hp. b2p. destruct (l_inUse L) eqn:Eu; [done|].
    destruct (refs_take _ _ j N S4) as [R M]; [by rewrite (map_lookup _ _ _ _ HL), Eu|].
    cbn [itsPool with_links connTable itsLinks]. rewrite list_fmap_insert. split_and!; [|done..|destruct (link_ok _); [done|apply mine_minus1]].
    apply K; rewrite list_fmap_insert; [done|].
    eapply own_reuse; [exact O|exact (map_lookup lview _ _ _ HL)|done|apply link_fresh_holds]. }
  destruct (ITS_MAX_LINKS <=? _). { intros [= <- <-]. split_and!; [by split|done..|apply mine_minus1]. }
  intros [= <- <-]. destruct (refs_grow _ _ S4) as [R M]. cbn [itsPool with_links connTable itsLinks]. rewrite map_app.
  split_and!; [|done..|destruct (link_ok _); [|apply mine_minus1]; unfold Zlen in *; by rewrite length_map in M].
  apply K; rewrite map_app; [done|]. apply own_new_link; [exact O|apply link_fresh_holds].
Qed.

(** ** Draining a link *)

Lemma Zlen_alter {A} (f : A -> A) i (l : list A) : Zlen (alter f i l) = Zlen l.
Proof. unfold Zlen. by rewrite length_alter. Qed.


Definition drop_list s (ds : list blk) : its := foldl (fun s b => payDrop s b.2 b.1) s ds.
Definition drop_heap (h : gmap Z bytes) (ds : list blk) : gmap Z bytes := foldl (fun h b => delete b.2 h) h ds.
Definition drop_ctr (c : its_ctr) (ds : list blk) : its_ctr := foldl (fun c b => ctrSub c b.1) c ds.

Lemma ledger_free h pc b bl ob : ledger h pc (b :: bl) ob -> ledger (delete b.2 h) (ctrSub pc b.1) bl ob.
Proof. intros H. apply ledger_handoff in H. by apply ledger_release in H as [H _]. Qed.

Lemma ledger_drops bl ds hb h pc ob :
  ledger h pc (bl ++ ds ++ hb) ob -> ledger (drop_heap h ds) (drop_ctr pc ds) (bl ++ hb) ob.
Proof.
  revert h pc. induction ds as [|b ds IH]; intros h pc H; [done|]. cbn [drop_heap drop_ctr foldl]. apply IH.
  rewrite <- app_comm_cons, <- Permutation_middle in H. by apply ledger_free in H.
Qed.

Lemma ledger_live h pc b bl ob : ledger h pc (b :: bl) ob -> blk_live h b.
Proof. intros (_ & F & _). by apply Forall_cons in F as [F _]. Qed.

Lemma payDrop_live s b : blk_live (heap s) b ->
  payDrop s b.2 b.1 = with_heap s (delete b.2 (heap s)) (hdrCtr s) (ctrSub (payCtr s) b.1) (bad s).
Proof.
  intros (d & Hd & _ & _ & Hb). unfold payDrop. destruct (Z.eqb_spec b.2 0); [lia|]. unfold mem_free. by rewrite Hd.
Qed.

Lemma drop_list_live ds s bl hb ob :
  ledger (heap s) (payCtr s) (bl ++ ds ++ hb) ob ->
  drop_list s ds = with_heap s (drop_heap (heap s) ds) (hdrCtr s) (drop_ctr (payCtr s) ds) (bad s).
Proof.
  revert s. induction ds as [|b ds IH]; intros s H; [by destruct s|]. cbn [drop_list foldl]. rewrite <- app_comm_cons, <- Permutation_middle in H.
  pose proof (ledger_live _ _ _ _ _ H) as HL. rewrite (payDrop_live _ _ HL). change (foldl _ ?x ds) with (drop_list x ds).
  rewrite IH; [done|]. by apply ledger_free in H.
Qed.

Lemma drop_list_link ds s i f : drop_list (upd_link s i f) ds = upd_link (drop_list s ds) i f.
Proof.
  revert s. induction ds as [|b ds IH]; intros s; [done|]. cbn.
  change (foldl _ ?x ds) with (drop_list x ds). rewrite <- IH. f_equal. unfold payDrop, mem_free. destruct (_ =? 0); [done|].
  cbn [heap upd_link with_links]. by destruct (is_some _).
Qed.

Lemma upd_link_twice s i f g : upd_link (upd_link s i f) i g = upd_link s i (fun L => g (f L)).
Proof.
  unfold upd_link, with_links. cbn. f_equal. apply list_eq. intros j. destruct (decide (i = j)) as [->|].
  - rewrite !list_lookup_alter_eq. by destruct (_ !! j).
  - by rewrite !list_lookup_alter_ne.
Qed.

Lemma upd_link_ext s i f g : (forall L, itsLinks s !! i = Some L -> f L = g L) -> upd_link s i f = upd_link s i g.
Proof.
  intros H. unfold upd_link. f_equal. apply list_eq. intros j. destruct (decide (i = j)) as [->|].
  - rewrite !list_lookup_alter_eq. destruct (_ !! j) eqn:E; [|done]. cbn. f_equal. by apply H.
  - by rewrite !list_lookup_alter_ne.
Qed.

Lemma links_drop_list ds s : itsLinks (drop_list s ds) = itsLinks s.
Proof.
  revert s. induction ds as [|b ds IH]; intros s; [done|]. cbn. change (foldl _ ?x ds) with (drop_list x ds). rewrite IH.
  unfold payDrop, mem_free. destruct (_ =? 0); [done|]. by destruct (is_some _).
Qed.

Definition blk_fits (b : blk) : Prop := 0 <= b.1 < 2 ^ 32 /\ 0 <= b.2 < 2 ^ 32.

Lemma desc_decode b rest : blk_fits b -> desc_len (take 8 (blk_desc b ++ rest)) = b.1 /\ desc_ptr (take 8 (blk_desc b ++ rest)) = b.2.
Proof.
  intros [H1 H2]. unfold blk_desc. rewrite take_app_le by done. rewrite take_ge by done. unfold desc_len, desc_ptr, desc_bytes. split.
  - pose proof (rd32_mid [] (wr32 b.2) b.1 0 eq_refl) as E. cbn [app] in E. rewrite E. cbn. unfold wrap32. rewrite Z.mod_small; lia.
  - pose proof (rd32_mid (wr32 b.1) [] b.2 4 eq_refl) as E. rewrite app_nil_r in E. rewrite E. cbn. unfold wrap32. rewrite Z.mod_small; lia.
Qed.

Lemma descs_length ds : Zlen (flat_map blk_desc ds) = DESC_SIZE * Zlen ds.
Proof. induction ds as [|b ds IH]; [done|]. cbn [flat_map]. rewrite Zlen_app, IH, Zlen_cons. change (Zlen (blk_desc b)) with 8. unfold DESC_SIZE. lia. Qed.

(** One descriptor taken from a ring. *)
Lemma ring_pop r b ds : blk_fits b -> sb_bytes r = flat_map blk_desc (b :: ds) ->
  exists r' d, xStreamBufferReceive r DESC_SIZE = (r', d) /\ sb_bytes r' = flat_map blk_desc ds /\ sb_cap r' = sb_cap r /\
    Zlen d = DESC_SIZE /\ desc_len d = b.1 /\ desc_ptr d = b.2.
Proof.
  intros Hb Hr. destruct (sb_receive_spec r DESC_SIZE) as (E1 & E2 & E3); [done|]. destruct (xStreamBufferReceive r DESC_SIZE) as [r' d].
  cbn [fst snd] in *. rewrite Hr in E1, E2. cbn [flat_map] in E1, E2. change (Z.to_nat DESC_SIZE) with 8%nat in *.
  exists r', d. rewrite drop_app_ge in E2 by done. rewrite E1. destruct (desc_decode b (flat_map blk_desc ds) Hb) as [-> ->].
  split_and!; [done|by rewrite E2|done| |done..]. rewrite take_app_le by done. done.
Qed.

Lemma linkDrainLoop_eq ds s idx L r :
  linkAt s idx = Some L -> ring L = Some r -> Forall blk_fits ds -> sb_bytes r = flat_map blk_desc ds ->
  exists r', sb_bytes r' = [] /\ linkDrainLoop (length ds) s idx = upd_link (drop_list s ds) (Z.to_nat idx) (link_ring r').
Proof.
  revert s L r. induction ds as [|b ds IH]; intros s L r HL HR HF HB.
  - exists r. split; [done|]. cbn. unfold linkAt in HL. destruct (in_table _ _); [|done]. symmetry.
    unfold upd_link. transitivity (with_links s (itsLinks s)); [|by destruct s]. f_equal. apply list_eq. intros j.
    destruct (decide (Z.to_nat idx = j)) as [<-|]; [|by rewrite list_lookup_alter_ne].
    rewrite list_lookup_alter_eq, HL. cbn. f_equal. unfold link_ring. rewrite <- HR. by destruct L.
  - apply Forall_cons in HF as [Hb HF]. destruct (ring_pop r b ds Hb HB) as (r1 & d & E & B1 & _ & Ld & El & Ep).
    cbn [linkDrainLoop length]. rewrite HL. cbn [mbind option_bind]. rewrite HR, sb_available, HB, descs_length, Zlen_cons.
    destruct (Z.leb_spec DESC_SIZE (DESC_SIZE * (1 + Zlen ds))) as [_|Hc]; [|pose proof (Zlen_nonneg ds); unfold DESC_SIZE in Hc; lia].
    rewrite E, Ld, Z.eqb_refl, El, Ep. set (s1 := upd_link s (Z.to_nat idx) (link_ring r1)).
    assert (linkAt (payDrop s1 b.2 b.1) idx = Some (link_ring r1 L)) as H1.
    { change (payDrop s1 b.2 b.1) with (drop_list s1 [b]). unfold linkAt in *. rewrite links_drop_list. unfold s1, upd_link, in_table in *.
      cbn [itsLinks with_links]. rewrite Zlen_alter. destruct (_ && _); [|done]. by rewrite list_lookup_alter_eq, HL. }
    destruct (IH (payDrop s1 b.2 b.1) _ r1 H1 eq_refl HF B1) as (r' & B' & ->). exists r'. split; [done|].
    change (payDrop s1 b.2 b.1) with (drop_list s1 [b]). unfold s1. rewrite !drop_list_link, upd_link_twice.
    change (drop_list (drop_list s [b]) ds) with (drop_list s (b :: ds)). by apply upd_link_ext.
Qed.

Lemma live_fits h bl : Forall (blk_live h) bl -> Forall blk_fits bl.
Proof. intros F. eapply Forall_impl; [exact F|]. intros b (d & _ & ? & ? & ?). split; lia. Qed.

Lemma ledger_fits h pc bl ds hb ob : ledger h pc (bl ++ ds ++ hb) ob -> Forall blk_fits ds.
Proof.
  intros (_ & F & _). apply live_fits in F. apply Forall_app in F as [F _]. apply Forall_app in F as [_ F].
  by apply Forall_app in F as [F _].
Qed.

Lemma linkAt_table s idx L : linkAt s idx = Some L -> itsLinks s !! Z.to_nat idx = Some L /\ in_table idx (itsLinks s) = true.
Proof. unfold linkAt. by destruct (in_table _ _). Qed.

Lemma table_linkAt s idx : in_table idx (itsLinks s) = true -> exists L, linkAt s idx = Some L.
Proof. intros H. unfold linkAt. rewrite H. by apply in_table_lookup in H as [_ H]. Qed.

(** A drained link: what its ring held is freed. *)
Lemma drain_own hm hb ob s idx L k u :
  own_of hm hb ob s -> linkAt s idx = Some L -> (forall L, lview (k L) = (ring L, 0, u && l_inUse L)) ->
  exists h' pc' L', upd_link (linkDrain s idx) (Z.to_nat idx) k =
      with_links (with_heap s h' (hdrCtr s) pc' (bad s)) (<[Z.to_nat idx := L']> (itsLinks s)) /\
    l_inUse L' = (u && l_inUse L) /\
    own hm hb ob (map lview (<[Z.to_nat idx := L']> (itsLinks s))) (map inbox (s_tasks s)) h' (hdrCtr s) pc' (bad s).
Proof.
  intros O HL Hk. destruct (linkAt_table _ _ _ HL) as [Hi Ht].
  destruct (own_link _ _ _ _ _ _ _ _ _ _ _ O (map_lookup lview _ _ _ Hi)) as (ds & bl & (V1 & V2 & V3) & Hl & K).
  assert (forall h pc f, upd_link (with_heap s h (hdrCtr s) pc (bad s)) (Z.to_nat idx) f =
            with_links (with_heap s h (hdrCtr s) pc (bad s)) (<[Z.to_nat idx := f L]> (itsLinks s))) as U.
  { intros h pc f. unfold upd_link. f_equal. cbn [itsLinks with_heap]. apply list_eq. intros j. destruct (decide (Z.to_nat idx = j)) as [<-|].
    - rewrite list_lookup_alter_eq, Hi, list_lookup_insert_eq; [done|]. by apply lookup_lt_Some in Hi.
    - by rewrite list_lookup_alter_ne, list_lookup_insert_ne. }
  cbn [lview fst snd] in V1. unfold linkDrain. rewrite HL. cbn [mbind option_bind]. destruct (ring L) as [r|] eqn:ER.
  - rewrite sb_available, V1, descs_length, Z.mul_comm, Z.div_mul by done. unfold Zlen. rewrite Nat2Z.id.
    destruct (linkDrainLoop_eq ds s idx L r HL ER (ledger_fits _ _ _ _ _ _ Hl) V1) as (r' & B' & ->).
    rewrite (drop_list_live _ _ _ _ _ Hl), !upd_link_twice, U.
    exists (drop_heap (heap s) ds), (drop_ctr (payCtr s) ds). eexists. split; [done|].
    cbn [ring link_ring]. set (Lk := link_ring _ _). pose proof (Hk Lk) as E. split; [by injection E|].
    rewrite list_fmap_insert. apply (K _ []); [|by apply ledger_drops]. rewrite E. split_and!; [|done..]. apply sb_reset_spec.
  - subst ds. exists (heap s), (payCtr s), (k L). split; [|split].
    + rewrite <- U. by destruct s.
    + pose proof (Hk L) as E. by injection E.
    + rewrite list_fmap_insert. apply (K _ []); [|done]. rewrite Hk. split_and!; [|done..]. cbn [fst snd]. by rewrite ER.
Qed.

(** Releasing slots that no connection refers to. *)
Lemma linkFree_ok hm hb ob s idx :
  inv hm hb ob s -> idx ∉ link_refs (cviews s) ->
  inv hm hb ob (linkFree s idx) /\ connTable (linkFree s idx) = connTable s /\ itsPool (linkFree s idx) = itsPool s.
Proof.
  intros [(S1 & S2 & S3 & S4) O] Hn. unfold linkFree. destruct (in_table idx (itsLinks s)) eqn:Ht; [|by split].
  destruct (table_linkAt _ _ Ht) as [L HL].
  destruct (drain_own _ _ _ s idx L (link_idle false (fun _ => 0)) false O HL) as (h' & pc' & L' & -> & EL & O'); [done|].
  split; [|done]. split; [|exact O']. split_and!; [done..|]. cbn [itsLinks with_links connTable with_heap].
  rewrite list_fmap_insert. apply refs_set; [apply link_refs_nonneg|done| |done]. exact (proj1 (in_table_lookup _ _ Ht)).
Qed.

Lemma linkPurge_ok hm hb ob s idx : inv hm hb ob s -> inv hm hb ob (linkPurge s idx).
Proof.
  intros [(S1 & S2 & S3 & S4) O]. unfold linkPurge. destruct (linkAt s idx) as [L|] eqn:HL; [|by split].
  cbn [mbind option_bind]. destruct (ring L); [|by split].
  destruct (drain_own _ _ _ s idx L (link_idle true (fun n => n)) true O HL) as (h' & pc' & L' & -> & EL & O'); [done|].
  split; [|exact O']. split_and!; [done..|]. cbn [itsLinks with_links connTable with_heap].
  rewrite list_fmap_insert, EL, list_insert_id; [done|]. destruct (linkAt_table _ _ _ HL) as [Hi _]. exact (map_lookup l_inUse _ _ _ Hi).
Qed.

Lemma poolFree_ok hm hb ob s idx :
  inv hm hb ob s -> idx ∉ pool_refs (cviews s) ->
  inv hm hb ob (poolFree s idx) /\ connTable (poolFree s idx) = connTable s /\ itsLinks (poolFree s idx) = itsLinks s.
Proof.
  intros [(S1 & S2 & S3 & S4) O] Hn. unfold poolFree. destruct (in_table idx (itsPool s)) eqn:Ht; [|by split].
  destruct (in_table_lookup _ _ Ht) as (H0 & e & He). split; [|done]. split; [|exact O]. split_and!; [done..| |done].
  unfold upd_pool. cbn [itsPool with_pool connTable]. rewrite (map_alter_insert _ _ _ _ _ He).
  apply refs_set; [apply pool_refs_nonneg|done..].
Qed.

(** ** Connections *)

#[local] Instance refs_ok_perm : Proper ((≡ₚ) ==> eq ==> iff) refs_ok.
Proof. intros l1 l2 H u _ <-. unfold refs_ok. by rewrite H. Qed.

Section Rows.
Context (f : bool * list Z * list Z -> list Z) (used : list bool) (cv : list (bool * list Z * list Z)) (i : nat) (c : bool * list Z * list Z).
Hypothesis Hc : cv !! i = Some c.
Hypothesis Hok : refs_ok (flat_map f cv) used.

Lemma refs_drop c' : f c' = [] ->
  refs_ok (flat_map f (<[i := c']> cv)) used /\ forall x, x ∈ f c -> x ∉ flat_map f (<[i := c']> cv).
Proof.
  intros Hf. rewrite (flat_map_insert f _ _ _ c' Hc), Hf. cbn [app]. rewrite (flat_map_split f _ _ _ Hc) in Hok.
  destruct Hok as [ND F]. apply NoDup_app in ND as (_ & N2 & N3). apply Forall_app in F as [_ F]. split; [done|]. intros x Hx.
  rewrite (flat_map_insert f _ _ _ c' Hc), Hf. by apply N2.
Qed.

Lemma refs_keep c' : f c' = f c -> refs_ok (flat_map f (<[i := c']> cv)) used.
Proof. intros Hf. rewrite (flat_map_insert f _ _ _ c' Hc), Hf, <- (flat_map_split f _ _ _ Hc). done. Qed.

Lemma refs_add c' x : mine (flat_map f cv) used x -> f c' ≡ₚ List.filter nonneg [x] ++ f c -> refs_ok (flat_map f (<[i := c']> cv)) used.
Proof.
  intros Hm Hf. rewrite (flat_map_insert f _ _ _ c' Hc), Hf, <- app_assoc, <- (flat_map_split f _ _ _ Hc).
  cbn [List.filter]. unfold nonneg. destruct (Z.leb_spec 0 x) as [Hx|]; [|done]. destruct (Hm Hx) as [Hni Hu]. destruct Hok as [ND F].
  split; [by constructor|]. by constructor.
Qed.
End Rows.

Lemma cview_insert (t : list its_conn) h c : map cview (<[h := c]> t) = <[h := cview c]> (map cview t).
Proof. apply list_fmap_insert. Qed.

Lemma conn_at_table s h c : conn_at s h = Some c -> connTable s !! Z.to_nat h = Some c /\ 0 <= h.
Proof. unfold conn_at. destruct (in_table h (connTable s)) eqn:E; [|done]. by apply in_table_lookup in E as [? _]. Qed.

Lemma conn_some s h c : conn s h = Some c -> conn_at s h = Some c /\ active c = true.
Proof. unfold conn. destruct (conn_at s h) as [c'|]; [|done]. destruct (active c') eqn:E; [|done]. by intros [= <-]. Qed.

Lemma neg_not_ref (refs : list Z) i : nonnegs refs -> i < 0 -> i ∉ refs.
Proof. intros H Hi HI. unfold nonnegs in H. rewrite Forall_forall in H. apply H in HI. lia. Qed.

Lemma row_out (refs l : list Z) i : nonnegs refs -> i ∈ l -> (forall x, x ∈ List.filter nonneg l -> x ∉ refs) -> i ∉ refs.
Proof.
  intros Hn Hi H. destruct (Z.leb_spec 0 i); [|by apply neg_not_ref]. apply H. apply list_elem_of_In, filter_In. split; [by apply list_elem_of_In|].
  unfold nonneg. lia.
Qed.

Ltac by_row D := eapply row_out; [done| |exact D]; apply list_elem_of_In; cbn; auto.

Lemma connFree_ok hm hb ob s h : inv hm hb ob s -> inv hm hb ob (connFree s h).
Proof.
  intros [(S1 & S2 & S3 & S4) O]. unfold connFree. destruct (conn_at s h) as [c|] eqn:E; [|by split].
  destruct (conn_at_table _ _ _ E) as [Hc H0]. apply (map_lookup cview) in Hc.
  set (s0 := with_conns s _ _).
  destruct (refs_drop _ _ _ _ _ Hc S3 (cview conn0) eq_refl) as [R3 D3]. destruct (refs_drop _ _ _ _ _ Hc S4 (cview conn0) eq_refl) as [R4 D4].
  assert (cviews s0 = <[Z.to_nat h := cview conn0]> (cviews s)) as EC by apply cview_insert.
  assert (inv hm hb ob s0) as I0.
  { split; [|exact O]. unfold slots_of. rewrite EC. split_and!; [unfold Zlen in *; by rewrite length_insert| |exact R3|exact R4].
    apply Forall_insert; [done|]. by intros _. }
  pose proof (pool_refs_nonneg (cviews s0)) as N3. pose proof (link_refs_nonneg (cviews s0)) as N4. fold (pool_refs (<[Z.to_nat h := cview conn0]> (cviews s))) in D3. fold (link_refs (<[Z.to_nat h := cview conn0]> (cviews s))) in D4. rewrite <- EC in D3, D4.
  cbn [cview fst snd] in D3, D4.
  destruct (poolFree_ok _ _ _ s0 (toPoolIdx c) I0) as (I1 & C1 & L1); [by_row D3|].
  destruct (poolFree_ok _ _ _ _ (fromPoolIdx c) I1) as (I2 & C2 & L2); [rewrite C1; by_row D3|].
  destruct (linkFree_ok _ _ _ _ (toLinkIdx c) I2) as (I3 & C3 & _); [rewrite C2, C1; by_row D4|].
  apply (linkFree_ok _ _ _ _ (fromLinkIdx c) I3). rewrite C3, C2, C1. by_row D4.
Qed.

Lemma connAllocLoop_idle n s i idx : connAllocLoop n s i = Some idx -> exists c, conn_at s idx = Some c /\ active c = false.
Proof.
  revert i. induction n as [|n IH]; intros i; [done|]. cbn [connAllocLoop].
  destruct (conn_at s ((connCounter s + i) mod ITS_MAX_CONNS)) as [c|] eqn:E; [|done].
  destruct (active c) eqn:Ea; [apply IH|]. intros [= <-]. eauto.
Qed.

Lemma connAlloc_ok hm hb ob s s' h :
  inv hm hb ob s -> connAlloc s = (s', h) -> inv hm hb ob s' /\ (0 <= h -> conn_at s' h = Some conn_new).
Proof.
  intros [(S1 & S2 & S3 & S4) O]. unfold connAlloc. destruct (connAllocLoop _ s 0) as [idx|] eqn:E.
  2: { intros [= <- <-]. split; [by split|lia]. }
  apply connAllocLoop_idle in E as (c & Hc & Ha). destruct (conn_at_table _ _ _ Hc) as [Hl H0]. intros [= <- <-].
  pose proof (map_lookup cview _ _ _ Hl) as Hv.
  assert (idle_ok (cview c)) as Hi by (rewrite Forall_forall in S2; apply S2; by eapply list_elem_of_lookup_2).
  destruct (Hi Ha) as [E1 E2]. cbn [cview fst snd] in E1, E2. split.
  - split; [|exact O]. unfold slots_of. cbn [connTable with_conns]. rewrite cview_insert.
    split_and!; [unfold Zlen in *; by rewrite length_insert|by apply Forall_insert| |].
    + eapply refs_keep; [exact Hv|exact S3|]. cbn [cview fst snd]. by rewrite E1.
    + eapply refs_keep; [exact Hv|exact S4|]. cbn [cview fst snd]. by rewrite E2.
  - intros _. unfold conn_at in *. cbn [connTable with_conns]. unfold in_table in *. unfold Zlen in *. rewrite length_insert.
    destruct (_ && _); [|done]. apply list_lookup_insert_eq. by apply lookup_lt_Some in Hl.
Qed.

End Inv.
