(* ===== verification/ItsOwn.v ===== *)
(** * its: every call keeps the invariant

    Allocation, hand-over and release of headers and payloads; inbox and link transfers;
    then the calls of the API, under what the other tasks and the callbacks are relied on
    to do: they keep the invariant too, and leave alone what the call holds. *)

From stdpp Require Import gmap.
From S2P Require Import Prelude CLib Rtos Its ItsFlow ItsServer ItsInv.
Import Data Tables Flow Server.
Open Scope Z_scope.
Open Scope spangap_scope.

Section Own.
Context {SB Q : Type} {SBI : StreamBuf SB} {SBL : StreamBufLaws SB} {RQI : RtosQueue Q its_msg} {RQL : RtosQueueLaws Q its_msg}.
#[local] Abbreviation its := (its (SB := SB) (Q := Q)).
Implicit Types (s : its) (hm : Z) (hb ob : list blk).

(** ** Headers and payloads *)

Lemma inv_pay hm hb ob hb' ob' s h' pc' :
  inv hm hb ob s -> (forall bl, ledger (heap s) (payCtr s) (bl ++ hb) ob -> ledger h' pc' (bl ++ hb') ob') ->
  inv hm hb' ob' (with_heap s h' (hdrCtr s) pc' (bad s)).
Proof. intros [S O] K. split; [exact S|]. exact (own_ledger _ _ _ _ _ _ _ _ _ _ _ _ _ O K). Qed.

Lemma inv_hdr hm hb ob s hc' hm' :
  (forall n, liveBlocks (hdrCtr s) = wrap32 (n + hm) -> liveBytes (hdrCtr s) = wrap32 (HDR_SIZE * (n + hm)) ->
             liveBlocks hc' = wrap32 (n + hm') /\ liveBytes hc' = wrap32 (HDR_SIZE * (n + hm'))) ->
  inv hm hb ob s -> inv hm' hb ob (with_hdr s hc').
Proof.
  intros K [S (dss & H1 & H2 & H3 & H4 & H5)]. split; [exact S|]. exists dss. split; [done|]. split; [done|].
  destruct (K _ H3 H4) as [E1 E2]. exact (conj E1 (conj E2 H5)).
Qed.

Lemma inv_hdr_add hm hb ob s : inv hm hb ob s -> inv (hm + 1) hb ob (with_hdr s (ctrAdd (hdrCtr s) HDR_SIZE)).
Proof.
  apply inv_hdr. intros n H1 H2. destruct (ctrAdd_ledger _ HDR_SIZE _ _ H1 H2) as [-> ->]. split; f_equal; lia.
Qed.

Lemma inv_hdr_sub hm hb ob s : inv (hm + 1) hb ob s -> inv hm hb ob (with_hdr s (ctrSub (hdrCtr s) HDR_SIZE)).
Proof.
  apply inv_hdr. intros n H1 H2. destruct (ctrSub_ledger _ HDR_SIZE _ _ H1 H2) as [-> ->]. split; f_equal; lia.
Qed.

Lemma inv_live hm hb ob b s : inv hm (b :: hb) ob s -> blk_live (heap s) b.
Proof.
  intros [_ (dss & _ & H & _)]. rewrite app_assoc, <- Permutation_middle in H. by apply ledger_live in H.
Qed.

Lemma payDrop_ok hm hb ob p n s : inv hm ((n, p) :: hb) ob s -> inv hm hb ob (payDrop s p n).
Proof.
  intros H. pose proof (inv_live _ _ _ _ _ H) as L. pose proof (payDrop_live s (n, p) L) as E. cbn [fst snd] in E. rewrite E. eapply inv_pay; [exact H|].
  intros bl. rewrite <- Permutation_middle. apply ledger_free.
Qed.

Lemma payHandoff_ok hm hb ob p n s : inv hm ((n, p) :: hb) ob s -> inv hm hb ((n, p) :: ob) (payHandoff s n).
Proof. intros H. eapply inv_pay; [exact H|]. intros bl. rewrite <- Permutation_middle. apply ledger_handoff. Qed.

Lemma payAdopt_ok hm hb ob p n s : inv hm hb ((n, p) :: ob) s -> inv hm ((n, p) :: hb) ob (payAdopt s n).
Proof. intros H. eapply inv_pay; [exact H|]. intros bl Hl. rewrite <- Permutation_middle. by apply ledger_adopt in Hl. Qed.

Lemma inv_forget hm hb ob b s : inv hm hb (b :: ob) s -> inv hm hb ob s.
Proof.
  intros H. replace s with (with_heap s (heap s) (hdrCtr s) (payCtr s) (bad s)) by (by destruct s).
  eapply inv_pay; [exact H|]. intros bl. apply ledger_forget.
Qed.

Lemma msgFree_ok hm hb ob m s : inv (hm + 1) (pay_of m ++ hb) ob s -> inv hm hb ob (msgFree s m).
Proof.
  intros H. unfold msgFree. apply inv_hdr_sub. unfold pay_of in H. destruct (Z.eqb_spec (m_payload m) 0) as [E|E].
  - unfold payDrop. rewrite E. exact H.
  - by apply payDrop_ok.
Qed.

Lemma msgAlloc_ok hm hb ob s av s' om :
  inv hm hb ob s -> msgAlloc s av = (s', om) ->
  match om with
  | Some m => inv (hm + 1) hb ob s' /\ m_payload m = 0
  | None => inv hm hb ob s'
  end.
Proof. intros H. unfold msgAlloc. destruct (av_hdr av); intros [= <- <-]; [|done]. split; [|done]. by apply inv_hdr_add. Qed.

(** ** Inboxes *)

Lemma inbox_change hm hb ob s ti e f o' hm' hb' :
  inv hm hb ob s -> s_tasks s !! ti = Some e -> inbox (f e) = o' ->
  Zlen (box_msgs o') + hm' = Zlen (box_msgs (inbox e)) + hm -> box_pays o' ++ hb' ≡ₚ box_pays (inbox e) ++ hb ->
  inv hm' hb' ob (upd_task s ti f).
Proof.
  intros [S O] He Hf Hn Hp. split; [exact S|]. unfold own_of, upd_task. cbn [s_tasks with_tasks itsLinks heap hdrCtr payCtr bad].
  rewrite (map_alter_insert _ _ _ _ _ He), Hf. eapply own_box; [exact O|exact (map_lookup inbox _ _ _ He)|done..].
Qed.

Lemma inboxTry_ok hm hb ob m s ti s' r :
  inv (hm + 1) (pay_of m ++ hb) ob s -> inboxTry s ti m = (s', r) -> if r then inv hm hb ob s' else s' = s.
Proof.
  intros H. unfold inboxTry. destruct (s_tasks s !! ti) as [e|] eqn:He; [|by intros [= <- <-]].
  destruct (inbox e) as [q|] eqn:Eq; [|by intros [= <- <-]].
  pose proof (q_send_spec q m) as Hq. destruct (xQueueSend q m) as [q'|]; [|by intros [= <- <-]]. intros [= <- <-].
  destruct Hq as [Eq' _]. assert (inv hm hb ob (upd_task s ti (set_inbox q' (wrap32 (pendingPay e + msg_pay m))))) as K; [|destruct (task e) as [t|]; [exact (inv_notify _ _ _ _ (Some t) K)|exact (inv_stale _ _ _ _ K)]].
  eapply (inbox_change _ _ _ _ _ _ _ (Some q')); [exact H|exact He|done|..]; rewrite Eq; unfold box_pays; cbn [box_msgs]; rewrite Eq'.
  - rewrite Zlen_app. change (Zlen [m]) with 1. lia.
  - rewrite flat_map_app. cbn [flat_map]. rewrite app_nil_r, <- app_assoc. done.
Qed.

Section Room.
Context (room : its -> its) (ob : list blk).
Hypothesis room_keeps : forall hm hb, keeps hm hb ob room.

Lemma inboxEnqueue_ok hm hb m s ti timeout s' r :
  inv (hm + 1) (pay_of m ++ hb) ob s -> inboxEnqueue room s ti m timeout = (s', r) ->
  if r then inv hm hb ob s' else inv (hm + 1) (pay_of m ++ hb) ob s'.
Proof.
  intros H. unfold inboxEnqueue. destruct (inboxTry s ti m) as [s1 r1] eqn:E1. pose proof (inboxTry_ok _ _ _ _ _ _ _ _ H E1) as H1.
  destruct r1; [by intros [= <- <-]|]. subst s1. destruct (_ || _); [by intros [= <- <-]|]. intros E2.
  apply room_keeps in H. pose proof (inboxTry_ok _ _ _ _ _ _ _ _ H E2) as H2. destruct r; [done|by subst].
Qed.

(** A message that does not go out is freed. *)
Lemma enqueue_or_free hm hb m s ti timeout :
  inv (hm + 1) (pay_of m ++ hb) ob s ->
  inv hm hb ob (match inboxEnqueue room s ti m timeout with (s, true) => s | (s, false) => msgFree s m end).
Proof.
  intros H. destruct (inboxEnqueue room s ti m timeout) as [s' r] eqn:E. pose proof (inboxEnqueue_ok _ _ _ _ _ _ _ _ H E) as K.
  destruct r; [done|by apply msgFree_ok].
Qed.

End Room.

Section Malloc.
Context (malloc : gmap Z bytes -> Z -> Z).
Hypothesis malloc_fresh : forall h n, 0 < n -> malloc h n <> 0 -> h !! malloc h n = None /\ 0 < malloc h n < 2 ^ 32.

Lemma payAlloc_ok hm hb ob s data s' p :
  inv hm hb ob s -> Zlen data < 2 ^ 32 -> payAlloc malloc s data = (s', p) ->
  (p = 0 /\ s' = s) \/ (p <> 0 /\ inv hm ((Zlen data, p) :: hb) ob s' /\ heap s' !! p = Some data).
Proof.
  intros H Hd. unfold payAlloc. destruct (Z.eqb_spec (Zlen data) 0) as [|Hz]; [intros [= <- <-]; by left|].
  destruct (Z.eqb_spec (malloc (heap s) (Zlen data)) 0) as [|Hp]; [intros [= <- <-]; by left|].
  intros [= <- <-]. right. pose proof (Zlen_nonneg data). destruct (malloc_fresh (heap s) (Zlen data)) as [Hn Hr]; [lia|done|].
  split; [done|]. split; [|apply lookup_insert_eq]. eapply inv_pay; [exact H|]. intros bl Hl. rewrite <- Permutation_middle.
  apply (ledger_adopt _ _ (Zlen data, _)). by apply ledger_fresh.
Qed.

Lemma buildCopyMsg_ok hm hb ob s me k port h data ti av s' om :
  inv hm hb ob s -> Zlen data < 2 ^ 32 -> buildCopyMsg malloc s me k port h data ti av = (s', om) ->
  match om with Some m => inv (hm + 1) (pay_of m ++ hb) ob s' | None => inv hm hb ob s' end.
Proof.
  intros H Hd. unfold buildCopyMsg. destruct (s_tasks s !! ti); [|by intros [= <- <-]]. destruct (_ <? _); [by intros [= <- <-]|].
  destruct (msgAlloc s av) as [s1 [m|]] eqn:E1; pose proof (msgAlloc_ok _ _ _ _ _ _ _ H E1) as H1; cbn in H1; [|by intros [= <- <-]].
  destruct H1 as [H1 _]. destruct (0 <? Zlen data); [|by intros [= <- <-]].
  destruct (payAlloc malloc s1 data) as [s2 p] eqn:E2. destruct (payAlloc_ok _ _ _ _ _ _ _ H1 Hd E2) as [[-> ->]|(Hp & H2 & _)].
  - intros [= <- <-]. by apply msgFree_ok.
  - destruct (Z.eqb_spec p 0); [done|]. intros [= <- <-]. unfold pay_of. cbn [m_payload m_len]. by destruct (Z.eqb_spec p 0).
Qed.

End Malloc.
(** ** Links *)

Lemma upd_link_lookup s i f L : itsLinks s !! i = Some L -> itsLinks (upd_link s i f) !! i = Some (f L).
Proof. intros H. unfold upd_link. cbn [itsLinks with_links]. by rewrite list_lookup_alter_eq, H. Qed.

(** One link's view changes, with what the call holds. *)
Lemma link_change hm hb ob s i L :
  inv hm hb ob s -> itsLinks s !! i = Some L ->
  exists ds bl, link_holds (lview L) ds /\ ledger (heap s) (payCtr s) (bl ++ ds ++ hb) ob /\
    forall f ds' hb', link_holds (lview (f L)) ds' -> l_inUse (f L) = l_inUse L -> bl ++ ds' ++ hb' ≡ₚ bl ++ ds ++ hb ->
      inv hm hb' ob (upd_link s i f).
Proof.
  intros [(S1 & S2 & S3 & S4) O] HL.
  destruct (own_link _ _ _ _ _ _ _ _ _ _ _ O (map_lookup lview _ _ _ HL)) as (ds & bl & Hv & Hl & K).
  exists ds, bl. split_and!; [done..|]. intros f ds' hb' Hv' Hu Hp. split.
  - split_and!; [done..|]. unfold upd_link. cbn [itsLinks with_links connTable].
    rewrite (map_alter_insert _ _ _ _ _ HL), Hu, list_insert_id; [done|]. exact (map_lookup l_inUse _ _ _ HL).
  - unfold own_of, upd_link. cbn [s_tasks with_links itsLinks heap hdrCtr payCtr bad]. rewrite (map_alter_insert _ _ _ _ _ HL).
    apply (K _ ds'); [done|]. by rewrite Hp.
Qed.

Lemma slot_free_room r : (DESC_SIZE <=? xStreamBufferSpacesAvailable r) = true -> Zlen (sb_bytes r) + 8 <= sb_cap r.
Proof. rewrite sb_spaces. unfold DESC_SIZE. intros H. lia. Qed.

Lemma ring_push r b : Zlen (sb_bytes r) + 8 <= sb_cap r ->
  sb_bytes (xStreamBufferSend r (blk_desc b)).1 = sb_bytes r ++ blk_desc b /\ sb_cap (xStreamBufferSend r (blk_desc b)).1 = sb_cap r.
Proof.
  intros H. destruct (sb_send_spec r (blk_desc b)) as (_ & E & C). split; [|done]. rewrite E. f_equal. apply take_ge.
  change (length (blk_desc b)) with 8%nat. change (Zlen (blk_desc b)) with 8. lia.
Qed.

Definition link_used s (li : nat) : Prop := exists L, itsLinks s !! li = Some L /\ l_inUse L = true.

Lemma link_can_room s li len : link_can s li len = true ->
  exists L r, itsLinks s !! li = Some L /\ ring L = Some r /\ Zlen (sb_bytes r) + 8 <= sb_cap r.
Proof.
  unfold link_can. destruct (itsLinks s !! li) as [L|]; [|done]. unfold linkCanSend, slot_free. destruct (ring L) as [r|] eqn:ER; [|done].
  intros H. apply andb_prop in H as [H _]. exists L, r. split_and!; [done..|]. by apply slot_free_room.
Qed.

Lemma linkEnqueue_ok hm hb ob s me h li p len :
  inv hm ((len, p) :: hb) ob s -> link_used s li -> link_can s li len = true -> inv hm hb ob (linkEnqueue s me h li p len).
Proof.
  intros H (L & HL & Hu) Hc. destruct (link_can_room _ _ _ Hc) as (L' & r & HL' & ER & Hr). rewrite HL in HL'. injection HL' as <-.
  destruct (link_change _ _ _ _ _ _ H HL) as (ds & bl & (V1 & V2 & V3) & Hl & K). unfold linkEnqueue. apply inv_notify.
  apply (K _ (ds ++ [(len, p)])).
  - cbn [ring link_set_out]. rewrite ER. destruct (ring_push r (len, p) Hr) as [B _]. cbn [lview fst snd] in V1. rewrite ER in V1.
    split_and!; cbn [lview fst snd ring link_ring outstanding link_set_out l_inUse].
    + rewrite flat_map_app. cbn [flat_map]. rewrite app_nil_r, <- V1. exact B.
    + cbn [lview fst snd] in V2. rewrite V2, blk_len_app. cbn [blk_len foldr fst]. unfold wrap32. rewrite Zplus_mod_idemp_l. f_equal. lia.
    + rewrite Hu. done.
  - cbn [ring link_set_out]. rewrite ER. done.
  - apply Permutation_app_head. rewrite <- app_assoc. done.
Qed.

Lemma desc_avail_ring s li : desc_avail s li = true -> exists L r, itsLinks s !! li = Some L /\ ring L = Some r /\ 8 <= Zlen (sb_bytes r).
Proof.
  unfold desc_avail. destruct (itsLinks s !! li) as [L|]; [|done]. destruct (ring L) as [r|] eqn:ER; [|done]. rewrite sb_available.
  unfold DESC_SIZE. intros H. exists L, r. split_and!; [done..|lia].
Qed.

Lemma linkPop_ok hm hb ob s me h li s' d :
  inv hm hb ob s -> desc_avail s li = true -> linkPop s me h li = (s', d) ->
  exists len p, d = Some (len, p) /\ inv hm ((len, p) :: hb) ob s'.
Proof.
  intros H Ha. destruct (desc_avail_ring _ _ Ha) as (L & r & HL & ER & Hr).
  destruct (link_change _ _ _ _ _ _ H HL) as (ds & bl & (V1 & V2 & V3) & Hl & K). unfold lview in V1, V2, V3. cbn [fst snd] in V1, V2, V3.
  rewrite ER in V1. destruct ds as [|b ds]; [exfalso; rewrite V1 in Hr; cbn in Hr; unfold Zlen in Hr; cbn in Hr; lia|].
  destruct (ring_pop r b ds) as (r' & dd & E & B & _ & Ld & El & Ep); [|done|].
  { apply ledger_fits in Hl. by apply Forall_cons in Hl as [Hl _]. }
  unfold linkPop. rewrite HL, ER, E, Ld. intros [= <- <-]. exists b.1, b.2. rewrite El, Ep. split; [done|].
  unfold linkWakeSender. apply inv_notify, inv_link; [done|]. rewrite upd_link_twice. rewrite <- (surjective_pairing b).
  apply (K _ ds); [|done|].
  - split_and!; cbn [lview fst snd ring link_ring outstanding link_set_out l_inUse]; [done| |].
    + rewrite V2. cbn [blk_len foldr]. unfold wrap32. rewrite Zminus_mod_idemp_l. f_equal. unfold blk_len. lia.
    + intros Hu. apply V3 in Hu. done.
  - apply Permutation_app_head. cbn [app]. by rewrite Permutation_middle.
Qed.

(** ** The waits *)

(** What a sleeping call relies on: the others keep the invariant with what it holds, and
    as long as its handle is open they do not give its link away. *)
Definition link_wake hm hb ob (h : Z) (li : nat) (w : wake SB Q) : Prop :=
  forall s, inv hm hb ob s ->
    inv hm hb ob (w_env w s) /\ (link_used s li -> is_some (conn (w_env w s) h) = true -> link_used (w_env w s) li).

Lemma link_used_upd s li f : (forall L, l_inUse (f L) = l_inUse L) -> link_used (upd_link s li f) li <-> link_used s li.
Proof.
  intros Hf. unfold link_used, upd_link. cbn [itsLinks with_links]. rewrite list_lookup_alter_eq. split.
  - intros (L & HL & Hu). apply fmap_Some in HL as (L0 & -> & ->). exists L0. by rewrite <- Hf.
  - intros (L & -> & Hu). exists (f L). cbn. by rewrite Hf.
Qed.

Lemma link_can_upd s li f n : (forall L, linkCanSend (f L) n = linkCanSend L n) -> link_can (upd_link s li f) li n = link_can s li n.
Proof. intros Hf. unfold link_can, upd_link. cbn [itsLinks with_links]. rewrite list_lookup_alter_eq. destruct (_ !! li); [|done]. cbn. apply Hf. Qed.

Definition wait_post hm hb ob (li : nat) (len : Z) (x : its * option bool) : Prop :=
  inv hm hb ob x.1 /\ (x.2 = Some true -> link_used x.1 li /\ link_can x.1 li len = true).

Lemma wait_stop hm hb ob li len s b :
  inv hm hb ob s -> (b = true -> link_used s li /\ link_can s li len = true) ->
  wait_post hm hb ob li len (upd_link s li (link_set_notify 0 false), Some b).
Proof.
  intros H Hb. split; [by apply inv_link|]. cbn [fst snd]. intros [= ->]. destruct (Hb eq_refl) as [H1 H2].
  split; [by apply link_used_upd|by rewrite link_can_upd].
Qed.

Lemma linkWaitLoop_ok hm hb ob ws s h li len start timeout :
  Forall (link_wake hm hb ob h li) ws -> inv hm hb ob s -> link_used s li ->
  wait_post hm hb ob li len (linkWaitLoop ws s h li len start timeout).
Proof.
  intros Hws. revert s. induction Hws as [|w ws Hw Hws IH]; intros s H Hu; cbn [linkWaitLoop]; set (s1 := upd_link s li (link_set_notify len true)).
  all: assert (inv hm hb ob s1) as H1 by (by apply inv_link).
  all: assert (link_used s1 li) as U1 by (by apply link_used_upd).
  all: destruct (link_can s1 li len) eqn:C1; [by apply wait_stop|].
  { by split. }
  destruct (Hw s1 H1) as [H2 U2]. specialize (U2 U1). destruct (link_take (w_env w s1) li) as [s3 got] eqn:E3.
  assert (inv hm hb ob s3 /\ (is_some (conn s3 h) = true -> link_used s3 li)) as [H3 U3].
  { unfold link_take in E3. destruct (itsLinks (w_env w s1) !! li) as [L|] eqn:EL; injection E3 as <- _; [|done].
    split; [|intros Hc; by apply link_used_upd, U2]. apply (inv_same _ _ _ (w_env w s1)); try done. apply map_alter_same. intros L' HL'. by simplify_eq. }
  destruct (is_some (conn s3 h)) eqn:EC; cbn [negb]; [|by apply wait_stop]. specialize (U3 eq_refl).
  destruct (got && link_can s3 li len) eqn:EG; [apply wait_stop; [done|]; apply andb_prop in EG as [_ EG]; done|].
  destruct (negb (timeout =? portMAX_DELAY) && _); [by apply wait_stop|]. by apply IH.
Qed.

Lemma linkWaitForSpace_ok hm hb ob ws s h li len now timeout :
  Forall (link_wake hm hb ob h li) ws -> inv hm hb ob s -> link_used s li ->
  wait_post hm hb ob li len (linkWaitForSpace ws s h li len now timeout).
Proof.
  intros Hws H Hu. unfold linkWaitForSpace. destruct (link_can s li len) eqn:E; [by split|].
  destruct (timeout =? 0); [by split|]. by apply linkWaitLoop_ok.
Qed.

Definition env_wake hm hb ob (w : wake SB Q) : Prop := keeps hm hb ob (w_env w).

Lemma link_wake_env hm hb ob h li w : link_wake hm hb ob h li w -> env_wake hm hb ob w.
Proof. intros H s Hs. by apply H. Qed.

Lemma dequeueWait_ok hm hb ob ws s h li rem start timeout s' r :
  Forall (env_wake hm hb ob) ws -> inv hm hb ob s -> dequeueWait ws s h li rem start timeout = (s', r) ->
  inv hm hb ob s' /\ (r = Some true -> desc_avail s' li = true).
Proof.
  intros Hws. revert s rem. induction Hws as [|w ws Hw Hws IH]; intros s rem H; cbn [dequeueWait];
    (destruct (desc_avail s li) eqn:E; [by intros [= <- <-]|]); (destruct (rem =? 0); [by intros [= <- <-]|]).
  { by intros [= <- <-]. }
  apply Hw in H. destruct (negb _); [by intros [= <- <-]|]. destruct (desc_avail (w_env w s) li) eqn:E'; [by intros [= <- <-]|].
  by apply IH.
Qed.

Lemma linkDequeue_ok hm hb ob ws s me h li now timeout s' r :
  Forall (env_wake hm hb ob) ws -> inv hm hb ob s -> linkDequeue ws s me h li now timeout = (s', r) ->
  match r with Some (Some (len, p)) => inv hm ((len, p) :: hb) ob s' | _ => inv hm hb ob s' end.
Proof.
  intros Hws H. unfold linkDequeue. destruct (dequeueWait ws s h li timeout now timeout) as [s1 r1] eqn:E1.
  destruct (dequeueWait_ok _ _ _ _ _ _ _ _ _ _ _ _ Hws H E1) as [H1 A1]. destruct r1 as [[|]|]; [|by intros [= <- <-]..].
  destruct (linkPop s1 me h li) as [s2 d] eqn:E2. destruct (linkPop_ok _ _ _ _ _ _ _ _ _ H1 (A1 eq_refl) E2) as (len & p & -> & H2).
  by intros [= <- <-].
Qed.

(** ** Links in use *)

Lemma ref_link_used hm hb ob s h c idx li :
  inv hm hb ob s -> conn s h = Some c -> idx ∈ [toLinkIdx c; fromLinkIdx c] -> linkIdx s idx = Some li -> link_used s li.
Proof.
  intros [(_ & _ & _ & S4) _] Hc Hi. apply conn_some in Hc as [Hc _]. apply conn_at_table in Hc as [Hc _].
  unfold linkIdx. destruct (linkAt s idx) as [L|] eqn:EL; [|done]. intros [= <-]. destruct (linkAt_table _ _ _ EL) as [Hl Ht].
  apply in_table_lookup in Ht as [H0 _]. exists L. split; [done|]. apply (map_lookup cview) in Hc.
  assert (idx ∈ link_refs (map cview (connTable s))) as HI.
  { unfold link_refs. rewrite (flat_map_split _ _ _ _ Hc). apply elem_of_app. left. apply list_elem_of_In, filter_In.
    split; [by apply list_elem_of_In|]. unfold nonneg. lia. }
  apply (refs_used _ _ _ S4) in HI. rewrite (map_lookup l_inUse _ _ _ Hl) in HI. by injection HI.
Qed.

Lemma sendLink_used hm hb ob s me h li : inv hm hb ob s -> sendLink s me h = Some li -> link_used s li.
Proof.
  intros H. unfold sendLink. destruct (conn s h) as [c|] eqn:Hc; [|done]. destruct (bool_decide _); [|done].
  destruct (is_me me (clientTask c)); [|destruct (is_me me (serverTask c)); [|done]];
    (eapply ref_link_used; [exact H|exact Hc|]; apply list_elem_of_In; cbn; auto).
Qed.

(** ** Stream buffers: nothing the invariant sees *)

Lemma pool_send_ok hm hb ob s i d : inv hm hb ob s -> inv hm hb ob (pool_send s i d).1.
Proof. intros H. unfold pool_send. destruct (buf_of s i) as [b|]; [|by apply inv_stale]. destruct (xStreamBufferSend b d). by apply inv_pool. Qed.

Lemma pool_receive_ok hm hb ob s i n : inv hm hb ob s -> inv hm hb ob (pool_receive s i n).1.
Proof. intros H. unfold pool_receive. destruct (buf_of s i) as [b|]; [|by apply inv_stale]. destruct (xStreamBufferReceive b n). by apply inv_pool. Qed.

Lemma pool_take_ok hm hb ob s i : inv hm hb ob s -> inv hm hb ob (pool_take s i).1.
Proof. intros H. unfold pool_take. destruct (itsPool s !! i); [by apply inv_pool|done]. Qed.

Lemma wakeSenderIfReady_ok hm hb ob s me h i : inv hm hb ob s -> inv hm hb ob (wakeSenderIfReady s me h i).
Proof.
  intros H. unfold wakeSenderIfReady. destruct (itsPool s !! i); [|done]. destruct (_ =? 0); [done|]. destruct (negb _); [done|].
  by apply inv_notify, inv_pool.
Qed.

Lemma notifyAtTrigger_ok hm hb ob s i n r : inv hm hb ob s -> inv hm hb ob (notifyAtTrigger s i n r).
Proof.
  intros H. unfold notifyAtTrigger. destruct (0 <? n); [|done]. destruct (itsPool s !! i); [|done]. destruct (_ <=? _); [by apply inv_notify|done].
Qed.

Lemma blocked_ok hm hb ob ws s timeout : Forall (env_wake hm hb ob) ws -> inv hm hb ob s -> inv hm hb ob (blocked ws s timeout).
Proof. intros Hw H. unfold blocked. destruct (timeout =? 0); [done|]. destruct Hw as [|w ws Hw _]; [done|by apply Hw]. Qed.

Lemma waitForSpaceLoop_ok hm hb ob ws s h i n start timeout :
  Forall (env_wake hm hb ob) ws -> inv hm hb ob s -> inv hm hb ob (waitForSpaceLoop ws s h i n start timeout).1.
Proof.
  intros Hws. revert s. induction Hws as [|w ws Hw Hws IH]; intros s H; cbn [waitForSpaceLoop]; set (s1 := upd_pool s i (pool_set_notify n true)).
  all: assert (inv hm hb ob s1) as H1 by (by apply inv_pool).
  all: destruct (pool_has_room s1 i n); [by apply inv_pool|].
  { done. }
  pose proof (pool_take_ok _ _ _ _ i (Hw _ H1)) as H2. destruct (pool_take (w_env w s1) i) as [s3 got]. cbn [fst] in H2.
  destruct (negb (is_some (conn s3 h))); [by apply inv_pool|]. destruct (negb got); [by apply inv_pool|].
  destruct (pool_has_room s3 i n); [by apply inv_pool|]. destruct (_ && _); [by apply inv_pool|by apply IH].
Qed.

(** The wakes of a call of [me] on handle [h]. *)
Definition wakes_ok hm hb ob s (me h : Z) (ws : list (wake SB Q)) : Prop :=
  Forall (env_wake hm hb ob) ws /\ forall li, sendLink s me h = Some li -> Forall (link_wake hm hb ob h li) ws.

Lemma itsWaitForSpace_ok hm hb ob ws s me h n now timeout :
  wakes_ok hm hb ob s me h ws -> inv hm hb ob s -> inv hm hb ob (itsWaitForSpace ws s me h n now timeout).1.
Proof.
  intros [Hw Hl] H. unfold itsWaitForSpace. destruct (n =? 0); [done|]. destruct (sendLink s me h) as [li|] eqn:E.
  - apply linkWaitForSpace_ok; [by apply Hl|done|by eapply sendLink_used].
  - destruct (sendBufWithPool s me h) as [[i b]|]; [|done]. destruct (_ <=? _); [done|]. destruct (timeout =? 0); [done|].
    by apply waitForSpaceLoop_ok.
Qed.

Lemma sendFrame_ok hm hb ob ws s me h i data now timeout :
  wakes_ok hm hb ob s me h ws -> inv hm hb ob s -> inv hm hb ob (sendFrame ws s me h i data now timeout).1.
Proof.
  intros Hw H. unfold sendFrame. destruct (_ || _); [done|]. destruct (_ <? _); [done|].
  pose proof (itsWaitForSpace_ok _ _ _ _ _ _ _ (4 + Zlen data) now timeout Hw H) as H1.
  destruct (itsWaitForSpace ws s me h (4 + Zlen data) now timeout) as [s1 [[|]|]]; [|done..]. cbn [fst] in H1.
  pose proof (pool_send_ok _ _ _ _ i (frameHdr (Zlen data)) H1) as H2. destruct (pool_send s1 i _) as [s2 n2]. cbn [fst] in H2.
  destruct (negb _); [done|]. pose proof (pool_send_ok _ _ _ _ i data H2) as H3. destruct (pool_send s2 i _) as [s3 n3].
  destruct (negb _); [done|by apply inv_notify].
Qed.

Lemma dropBody_ok hm hb ob n s i left : inv hm hb ob s -> inv hm hb ob (dropBody n s i left).
Proof.
  revert s left. induction n as [|n IH]; intros s left H; cbn [dropBody]; [done|]. destruct (left <=? 0); [done|].
  pose proof (pool_receive_ok _ _ _ _ i (if 64 <? left then 64 else left) H) as H1. destruct (pool_receive s i _) as [s1 d].
  destruct (_ =? 0); [done|by apply IH].
Qed.

Lemma recvFrame_ok hm hb ob s me h i mx : inv hm hb ob s -> inv hm hb ob (recvFrame s me h i mx).1.
Proof.
  intros H. unfold recvFrame. pose proof (pool_receive_ok _ _ _ _ i 4 H) as H1. destruct (pool_receive s i 4) as [s1 d]. cbn [fst] in H1.
  destruct d as [|z [|a [|b [|c [|? ?]]]]]; try done. destruct (mx <? _).
  - by apply wakeSenderIfReady_ok, dropBody_ok.
  - set (n := Z.lor _ c). pose proof (pool_receive_ok _ _ _ _ i n H1) as H2. destruct (pool_receive s1 i n). by apply wakeSenderIfReady_ok.
Qed.

Lemma recvWait_ok hm hb ob ws s i rem start timeout :
  Forall (env_wake hm hb ob) ws -> inv hm hb ob s -> inv hm hb ob (recvWait ws s i rem start timeout).1.
Proof.
  intros Hws. revert s rem. induction Hws as [|w ws Hw Hws IH]; intros s rem H; cbn [recvWait];
    (destruct (buf_over4 s i); [done|]); (destruct (rem =? 0); [done|]); [done|].
  apply Hw in H. destruct (buf_over4 _ i); [done|]. by apply IH.
Qed.

(** ** Sending and receiving *)

Section Calls.
Context (malloc : gmap Z bytes -> Z -> Z).
Hypothesis malloc_fresh : forall h n, 0 < n -> malloc h n <> 0 -> h !! malloc h n = None /\ 0 < malloc h n < 2 ^ 32.

Lemma link_used_same s s' li : itsLinks s' = itsLinks s -> link_used s' li <-> link_used s li.
Proof. intros E. unfold link_used. by rewrite E. Qed.
Lemma link_can_same s s' li n : itsLinks s' = itsLinks s -> link_can s' li n = link_can s li n.
Proof. intros E. unfold link_can. by rewrite E. Qed.

Lemma payAlloc_links s data s' p : payAlloc malloc s data = (s', p) -> itsLinks s' = itsLinks s.
Proof. unfold payAlloc. destruct (_ =? 0); [by intros [= <- _]|]. destruct (_ =? 0); by intros [= <- _]. Qed.

(** A copying send: whatever happens, the transport owns what it made. *)
Lemma sendCopy_ok hm hb ob ws s me h li data now timeout :
  Forall (link_wake hm hb ob h li) ws -> inv hm hb ob s -> link_used s li -> Zlen data < 2 ^ 32 ->
  inv hm hb ob (itsSendPacket malloc ws s me h li (SrcCopy data) now timeout).1.
Proof.
  intros Hw H Hu Hd. unfold itsSendPacket. destruct (_ || _); [done|]. cbn [src_len].
  destruct (linkWaitForSpace_ok _ _ _ _ _ h li (Zlen data) now timeout Hw H Hu) as [H1 U1].
  destruct (linkWaitForSpace ws s h li (Zlen data) now timeout) as [s1 [[|]|]]; [|done..]. cbn [fst snd] in *. destruct (U1 eq_refl) as [U C].
  destruct (payAlloc malloc s1 data) as [s2 p] eqn:E2. destruct (payAlloc_ok _ malloc_fresh _ _ _ _ _ _ _ H1 Hd E2) as [[-> ->]|(Hp & H2 & _)]; [done|].
  destruct (Z.eqb_spec p 0); [done|]. apply payAlloc_links in E2. cbn [fst].
  apply linkEnqueue_ok; [done|by apply (link_used_same s1)|by rewrite (link_can_same s1)].
Qed.

(** An owning send: the block is the transport's when the send succeeds, the caller's
    otherwise. *)
Lemma sendOwned_ok hm hb ob ws s me h li p len now timeout s' r :
  Forall (link_wake hm hb ((len, p) :: ob) h li) ws -> inv hm hb ((len, p) :: ob) s -> link_used s li ->
  itsSendPacket malloc ws s me h li (SrcOwned p len) now timeout = (s', r) ->
  (r = Some len /\ len <> 0 /\ inv hm hb ob s') \/ ((r = None \/ r = Some 0) /\ inv hm hb ((len, p) :: ob) s').
Proof.
  intros Hw H Hu. unfold itsSendPacket. cbn [src_len].
  destruct (Z.eqb_spec len 0) as [->|Hz]; cbn [orb]; [intros [= <- <-]; right; split; [by right|done]|].
  destruct (_ <? len); [intros [= <- <-]; right; split; [by right|done]|].
  destruct (linkWaitForSpace_ok _ _ _ _ _ h li len now timeout Hw H Hu) as [H1 U1].
  destruct (linkWaitForSpace ws s h li len now timeout) as [s1 [[|]|]]; cbn [fst snd] in *.
  - destruct (U1 eq_refl) as [U C]. intros [= <- <-]. left. split_and!; [done..|]. apply linkEnqueue_ok; [by apply payAdopt_ok|done..].
  - intros [= <- <-]. right. split; [by right|done].
  - intros [= <- <-]. right. split; [by left|done].
Qed.

Lemma itsSend_ok hm hb ob ws s me h data now timeout :
  wakes_ok hm hb ob s me h ws -> inv hm hb ob s -> Zlen data < 2 ^ 32 ->
  inv hm hb ob (itsSend malloc ws s me h data now timeout).1.
Proof.
  intros Hw H Hd. unfold itsSend. destruct (conn s h) as [c|] eqn:Hc; [|done]. destruct (bool_decide _).
  - destruct (sendLink s me h) as [li|] eqn:E; [|done]. apply sendCopy_ok; [by apply Hw|done|by eapply sendLink_used|done].
  - destruct (sendBufWithPool s me h) as [[i b]|]; [|done]. destruct (packetBased c); [by apply sendFrame_ok|].
    pose proof (pool_send_ok _ _ _ _ i data (blocked_ok _ _ _ ws s timeout (proj1 Hw) H)) as H1.
    destruct (pool_send _ i data). by apply notifyAtTrigger_ok.
Qed.

Lemma block_read_live s hm hb ob p len : inv hm ((len, p) :: hb) ob s -> is_some (block_read s p len) = true.
Proof.
  intros H. apply inv_live in H as (d & Hd & Hn & _). cbn [fst snd] in *. unfold block_read. rewrite Hd. cbn [mbind option_bind].
  unfold mem_slice. destruct (_ && _) eqn:E; [done|]. lia.
Qed.

Lemma itsRecv_ok hm hb ob ws s me h mx now timeout :
  Forall (env_wake hm hb ob) ws -> inv hm hb ob s -> inv hm hb ob (itsRecv ws s me h mx now timeout).1.
Proof.
  intros Hw H. unfold itsRecv. destruct (conn s h) as [c|] eqn:Hc; [|done]. destruct (bool_decide _).
  - destruct (recvLink s me h) as [li|] eqn:E; [|done]. destruct (linkDequeue ws s me h li now timeout) as [s1 r] eqn:ED.
    pose proof (linkDequeue_ok _ _ _ _ _ _ _ _ _ _ _ _ Hw H ED) as H1. destruct r as [[[len p]|]|]; [|done..].
    destruct (mx <? len); [by apply payDrop_ok|]. pose proof (block_read_live _ _ _ _ _ _ H1) as HR.
    destruct (block_read s1 p len); [by apply payDrop_ok|done].
  - destruct (recvBufWithPool s me h) as [[i b]|]; [|done]. destruct (packetBased c).
    + pose proof (recvWait_ok _ _ _ ws s i timeout now timeout Hw H) as H1. destruct (recvWait _ _ _ _ _ _) as [s1 [[|]|]]; [|done..].
      cbn [fst] in H1. pose proof (recvFrame_ok _ _ _ _ me h i mx H1) as H2. by destruct (recvFrame s1 me h i mx).
    + pose proof (pool_receive_ok _ _ _ _ i mx (blocked_ok _ _ _ ws s timeout Hw H)) as H1. destruct (pool_receive _ i mx) as [s1 d].
      cbn [fst] in *. destruct (0 <? Zlen d); [by apply wakeSenderIfReady_ok|done].
Qed.

(** A receive by reference: the block is the caller's. *)
Lemma itsRecvRef_ok hm hb ob ws s me h now timeout s' r :
  Forall (env_wake hm hb ob) ws -> inv hm hb ob s -> itsRecvRef ws s me h now timeout = (s', r) ->
  match r with Some (Some (p, len)) => inv hm hb ((len, p) :: ob) s' | _ => inv hm hb ob s' end.
Proof.
  intros Hw H. unfold itsRecvRef. destruct (recvLink s me h) as [li|]; [|by intros [= <- <-]].
  destruct (linkDequeue ws s me h li now timeout) as [s1 r1] eqn:ED. pose proof (linkDequeue_ok _ _ _ _ _ _ _ _ _ _ _ _ Hw H ED) as H1.
  destruct r1 as [[[len p]|]|]; intros [= <- <-]; [by apply payHandoff_ok|done..].
Qed.

End Calls.

End Own.
