(* ===== verification/ItsStep.v ===== *)
(** * its: connections, dispatch and the rest of the API keep the invariant

    The calls of ItsServer.v, and all calls that transfer no block as one type. Then the step
    relation over all calls, and what holds in every state it reaches. *)

From stdpp Require Import gmap.
From S2P Require Import Prelude CLib Rtos Its ItsFlow ItsServer ItsInv ItsOwn.
Import Data Tables Flow Server.
Open Scope Z_scope.
Open Scope spangap_scope.

Section Step.
Context {SB Q : Type} {SBI : StreamBuf SB} {SBL : StreamBufLaws SB} {RQI : RtosQueue Q its_msg} {RQL : RtosQueueLaws Q its_msg}.
#[local] Abbreviation its := (its (SB := SB) (Q := Q)).
Implicit Types (s : its) (hm : Z) (hb : list blk).

Context (malloc : gmap Z bytes -> Z -> Z) (room : its -> its) (app : Z -> Z -> call -> its -> its * Z) (ob : list blk).
Hypothesis malloc_fresh : forall h n, 0 < n -> malloc h n <> 0 -> h !! malloc h n = None /\ 0 < malloc h n < 2 ^ 32.
Hypothesis room_keeps : forall hm hb, keeps hm hb ob room.
Hypothesis app_keeps : forall hm hb me cb c, keeps hm hb ob (fun s => (app me cb c s).1).

(** ** Disconnect *)

Lemma opt_msg_ok hm hb s k me h port ref cb av s' om :
  inv hm hb ob s -> opt_msg s k me h port ref cb av = (s', om) ->
  match om with Some m => inv (hm + 1) (pay_of m ++ hb) ob s' | None => inv hm hb ob s' end.
Proof.
  intros H. unfold opt_msg. destruct (msgAlloc s av) as [s1 [m|]] eqn:E; pose proof (msgAlloc_ok _ _ _ _ _ _ _ H E) as H1; intros [= <- <-]; [|done].
  destruct H1 as [H1 Hp]. unfold pay_of. cbn [m_payload m_len]. by rewrite Hp.
Qed.

Lemma tellPeer_ok hm hb s me h peer k port ref cb av : inv hm hb ob s -> inv hm hb ob (tellPeer room s me h peer k port ref cb av).1.
Proof.
  intros H. unfold tellPeer. destruct (peer ≫= taskFind s) as [ti|]; [|done].
  destruct (opt_msg s k me h port ref cb av) as [s1 [m|]] eqn:E; pose proof (opt_msg_ok _ _ _ _ _ _ _ _ _ _ _ _ H E) as H1; [|done].
  pose proof (enqueue_or_free _ _ room_keeps _ _ m s1 ti 100 H1) as H2. by destruct (inboxEnqueue room s1 ti m 100) as [s2 [|]].
Qed.

Lemma poolRetainOnFree_ok hm hb s idx : inv hm hb ob s -> inv hm hb ob (poolRetainOnFree s idx).
Proof. intros H. unfold poolRetainOnFree. destruct (in_table _ _); [by apply inv_pool|done]. Qed.

Lemma closeEnd_ok hm hb s me h c peer k ref cb av : inv hm hb ob s -> inv hm hb ob (closeEnd room s me h c peer k ref cb av).
Proof.
  intros H. unfold closeEnd. set (np := noPool c && _).
  assert (inv hm hb ob (if np then s else connFree s h)) as H1 by (destruct np; [done|by apply connFree_ok]).
  pose proof (tellPeer_ok _ _ _ me h peer k (itsPort c) ref cb av H1) as H2. destruct (tellPeer _ _ _ _ _ _ _ _ _ _) as [s2 n]. cbn [fst] in H2.
  destruct (np && negb n); [|done]. by apply connFree_ok, poolRetainOnFree_ok, poolRetainOnFree_ok.
Qed.

Lemma disconnect1_ok hm hb s me h av : inv hm hb ob s -> inv hm hb ob (disconnect1 room s me h av).
Proof.
  intros H. unfold disconnect1. destruct (conn s h); [|done]. destruct (is_me _ _); [by apply closeEnd_ok|]. destruct (is_me _ _); [by apply closeEnd_ok|done].
Qed.

Lemma disconnectAll_ok hm hb n s me h av : inv hm hb ob s -> inv hm hb ob (disconnectAll room n s me h av).
Proof.
  revert s h. induction n as [|n IH]; intros s h H; cbn [disconnectAll]; [done|]. apply IH. destruct (conn s h); [|done].
  destruct (_ || _); [by apply disconnect1_ok|done].
Qed.

Lemma itsDisconnect_ok hm hb s me h av : inv hm hb ob s -> inv hm hb ob (itsDisconnect room s me h av).
Proof. intros H. unfold itsDisconnect. destruct (h =? -1); [by apply disconnectAll_ok|by apply disconnect1_ok]. Qed.

(** ** Accepting a connection *)

Lemma ack_ok hm hb s ci h n : inv hm hb ob s -> inv hm hb ob (ack s ci h n).
Proof. intros H. unfold ack. destruct ci; [by apply inv_task|done]. Qed.

Definition view_is s (h : Z) (v : bool * list Z * list Z) : Prop := 0 <= h /\ map cview (connTable s) !! Z.to_nat h = Some v.

Lemma view_same s s' h v : connTable s' = connTable s -> view_is s h v -> view_is s' h v.
Proof. intros E. unfold view_is. by rewrite E. Qed.

Lemma set_bufs_view s h v tp fp tl fl : view_is s h v ->
  map cview (connTable (upd_conn s h (conn_set_bufs tp fp tl fl))) =
    <[Z.to_nat h := (v.1.1, [tp; fp], [tl; fl])]> (map cview (connTable s)).
Proof.
  intros [H0 Hv]. change (map cview (connTable s)) with (cview <$> connTable s) in Hv. rewrite list_lookup_fmap in Hv.
  apply fmap_Some in Hv as (c & Hc & ->). unfold upd_conn. cbn [connTable with_conns]. by rewrite (map_alter_insert _ _ _ _ _ Hc).
Qed.

(** One more slot referred to from a row of the table. *)
Lemma set_bufs_ok hm hb s h tp fp tl fl tp' fp' tl' fl' :
  inv hm hb ob s -> view_is s h (true, [tp; fp], [tl; fl]) ->
  refs_ok (pool_refs (<[Z.to_nat h := (true, [tp'; fp'], [tl'; fl'])]> (map cview (connTable s)))) (map p_inUse (itsPool s)) ->
  refs_ok (link_refs (<[Z.to_nat h := (true, [tp'; fp'], [tl'; fl'])]> (map cview (connTable s)))) (map l_inUse (itsLinks s)) ->
  inv hm hb ob (upd_conn s h (conn_set_bufs tp' fp' tl' fl')) /\ view_is (upd_conn s h (conn_set_bufs tp' fp' tl' fl')) h (true, [tp'; fp'], [tl'; fl']).
Proof.
  intros [(S1 & S2 & S3 & S4) O] Hv R3 R4. pose proof (set_bufs_view _ _ _ tp' fp' tl' fl' Hv) as E. cbn [fst] in E. split.
  - split; [|exact O]. unfold slots_of. rewrite E. split_and!; [unfold Zlen in *; by rewrite length_insert| |exact R3|exact R4].
    by apply Forall_insert.
  - destruct Hv as [H0 Hv]. split; [done|]. rewrite E. apply list_lookup_insert_eq. by apply lookup_lt_Some in Hv.
Qed.

Lemma row_first a : List.filter nonneg [a; -1] ≡ₚ List.filter nonneg [a] ++ List.filter nonneg [-1; -1].
Proof. cbn. by destruct (nonneg a). Qed.
Lemma row_second a b : List.filter nonneg [a; b] ≡ₚ List.filter nonneg [b] ++ List.filter nonneg [a; -1].
Proof. cbn. destruct (nonneg a), (nonneg b); try done. cbn. constructor. Qed.

Lemma add_links hm hb s h tp fp tl fl tl' fl' x :
  inv hm hb ob s -> view_is s h (true, [tp; fp], [tl; fl]) ->
  mine (link_refs (map cview (connTable s))) (map l_inUse (itsLinks s)) x ->
  List.filter nonneg [tl'; fl'] ≡ₚ List.filter nonneg [x] ++ List.filter nonneg [tl; fl] ->
  inv hm hb ob (upd_conn s h (conn_set_bufs tp fp tl' fl')) /\
  view_is (upd_conn s h (conn_set_bufs tp fp tl' fl')) h (true, [tp; fp], [tl'; fl']).
Proof.
  intros H Hv Hm Hp. pose proof H as [(_ & _ & S3 & S4) _]. eapply set_bufs_ok; [exact H|exact Hv|..].
  - eapply refs_keep; [exact (proj2 Hv)|exact S3|done].
  - eapply refs_add; [exact (proj2 Hv)|exact S4|exact Hm|exact Hp].
Qed.

Lemma add_pools hm hb s h tp fp tl fl tp' fp' x :
  inv hm hb ob s -> view_is s h (true, [tp; fp], [tl; fl]) ->
  mine (pool_refs (map cview (connTable s))) (map p_inUse (itsPool s)) x ->
  List.filter nonneg [tp'; fp'] ≡ₚ List.filter nonneg [x] ++ List.filter nonneg [tp; fp] ->
  inv hm hb ob (upd_conn s h (conn_set_bufs tp' fp' tl fl)) /\
  view_is (upd_conn s h (conn_set_bufs tp' fp' tl fl)) h (true, [tp'; fp'], [tl; fl]).
Proof.
  intros H Hv Hm Hp. pose proof H as [(_ & _ & S3 & S4) _]. eapply set_bufs_ok; [exact H|exact Hv|..].
  - eapply refs_add; [exact (proj2 Hv)|exact S3|exact Hm|exact Hp].
  - eapply refs_keep; [exact (proj2 Hv)|exact S4|done].
Qed.

Lemma maybe_link hm hb s (b : bool) d cap mx av s' i :
  inv hm hb ob s -> (if b then linkAcquire s d cap mx av else (s, -1)) = (s', i) ->
  inv hm hb ob s' /\ connTable s' = connTable s /\ mine (link_refs (map cview (connTable s'))) (map l_inUse (itsLinks s')) i.
Proof.
  intros H. destruct b; [|intros [= <- <-]; split_and!; [done..|apply mine_minus1]].
  intros E. destruct (linkAcquire_ok _ _ _ _ _ _ _ _ _ _ H E) as (? & ? & _ & ?). done.
Qed.

Lemma maybe_pool hm hb s (b : bool) n np av s' i :
  inv hm hb ob s -> (if b then poolGet s n np av else (s, -1)) = (s', i) ->
  inv hm hb ob s' /\ connTable s' = connTable s /\ mine (pool_refs (map cview (connTable s'))) (map p_inUse (itsPool s')) i.
Proof.
  intros H. destruct b; [|intros [= <- <-]; split_and!; [done..|apply mine_minus1]].
  intros E. destruct (poolGet_ok _ _ _ _ _ _ _ _ _ H E) as (? & ? & _ & ?). done.
Qed.

Lemma acquireBufs_ok hm hb s h sp np a1 a2 :
  inv hm hb ob s -> view_is s h (true, [-1; -1], [-1; -1]) -> inv hm hb ob (acquireBufs s h sp np a1 a2).1.
Proof.
  intros H Hv. unfold acquireBufs. destruct (bool_decide _).
  - destruct (if 0 <? toSize sp then _ else _) as [s1 tl] eqn:E1. destruct (maybe_link _ _ _ _ _ _ _ _ _ _ H E1) as (H1 & C1 & M1).
    destruct (add_links _ _ _ h _ _ _ _ tl (-1) tl H1 (view_same _ _ _ _ C1 Hv) M1 (row_first tl)) as [H2 V2].
    destruct (_ && _); [done|]. destruct (0 <? fromSize sp); [|done].
    destruct (linkAcquire (upd_conn s1 h _) _ _ _ a2) as [s3 fl] eqn:E3. destruct (linkAcquire_ok _ _ _ _ _ _ _ _ _ _ H2 E3) as (H3 & C3 & _ & M3).
    apply (add_links _ _ _ h _ _ _ _ tl fl fl H3 (view_same _ _ _ _ C3 V2) M3 (row_second tl fl)).
  - destruct (if 0 <? toSize sp then _ else _) as [s1 tp] eqn:E1. destruct (maybe_pool _ _ _ _ _ _ _ _ _ H E1) as (H1 & C1 & M1).
    destruct (add_pools _ _ _ h _ _ _ _ tp (-1) tp H1 (view_same _ _ _ _ C1 Hv) M1 (row_first tp)) as [H2 V2].
    destruct (if 0 <? fromSize sp then _ else _) as [s3 fp] eqn:E3. destruct (maybe_pool _ _ _ _ _ _ _ _ _ H2 E3) as (H3 & C3 & M3).
    apply (add_pools _ _ _ h _ _ _ _ tp fp fp H3 (view_same _ _ _ _ C3 V2) M3 (row_second tp fp)).
Qed.

Lemma acceptConn_ok hm hb s me ti pi h m a1 a2 :
  inv hm hb ob s -> conn_at s h = Some conn_new -> inv hm hb ob (acceptConn app s me ti pi h m a1 a2).1.
Proof.
  intros H Hc. unfold acceptConn. destruct (port_at s ti pi) as [sp|]; [|done]. destruct (s_tasks s !! ti) as [e|]; [|done].
  set (s1 := upd_conn s h _). assert (inv hm hb ob s1) as H1 by (by apply inv_conn).
  assert (view_is s1 h (true, [-1; -1], [-1; -1])) as V1.
  { apply conn_at_table in Hc as [Hc H0]. split; [done|]. unfold s1, upd_conn. cbn [connTable with_conns].
    rewrite (map_alter_insert _ _ _ _ _ Hc). apply list_lookup_insert_eq. rewrite length_map. by apply lookup_lt_Some in Hc. }
  pose proof (acquireBufs_ok _ _ _ _ sp (no_pool e) a1 a2 H1 V1) as H2. destruct (acquireBufs s1 h sp (no_pool e) a1 a2) as [s2 ok]. cbn [fst] in H2.
  destruct (negb ok); [by apply connFree_ok|]. destruct (onConnect sp) as [cb|]; [|done].
  pose proof (app_keeps _ _ me cb (CConnect h (m_payload m) (m_len m)) s2 H2) as H3. cbn beta in H3.
  destruct (app me cb _ s2) as [s3 r]. cbn [fst] in H3. destruct (0 <=? r); [by apply inv_conn|by apply connFree_ok].
Qed.

Lemma procConnect_ok hm hb s me ti m a1 a2 : inv hm hb ob s -> inv hm hb ob (procConnect app s me ti m a1 a2).
Proof.
  intros H. unfold procConnect. destruct (portFind s ti (m_port m)) as [pi|]; [|by apply ack_ok].
  destruct (match port_full s ti pi (m_port m) with true => _ | false => _ end) as [s1 full] eqn:E1.
  assert (inv hm hb ob s1) as H1.
  { destruct (port_full s ti pi (m_port m)); [|by injection E1 as <- _]. destruct (_ ≫= onBusy) as [cb|]; [|by injection E1 as <- _].
    pose proof (app_keeps _ _ me cb (CBusy (m_payload m) (m_len m)) s H) as K. cbn beta in K. destruct (app me cb _ s). by injection E1 as <- _. }
  destruct (if negb full && _ then _ else _) as [s2 h] eqn:E2.
  assert (inv hm hb ob s2 /\ (0 <= h -> conn_at s2 h = Some conn_new)) as [H2 C2].
  { destruct (negb full && _); [by eapply connAlloc_ok|]. injection E2 as <- <-. split; [done|lia]. }
  destruct (Z.leb_spec 0 h).
  - pose proof (acceptConn_ok _ _ _ me ti pi h m a1 a2 H2 (C2 ltac:(done))) as H3. destruct (acceptConn app s2 me ti pi h m a1 a2). by apply ack_ok.
  - by apply ack_ok.
Qed.

(** ** The other messages *)

Lemma app_ok hm hb me cb c s : inv hm hb ob s -> inv hm hb ob (app me cb c s).1.
Proof. exact (app_keeps hm hb me cb c s). Qed.

Lemma call_disconnect_ok hm hb s me cb ref : inv hm hb ob s -> inv hm hb ob (call_disconnect app s me cb ref).
Proof. intros H. unfold call_disconnect. destruct cb; [|done]. destruct (0 <=? ref); [by apply app_ok|done]. Qed.

Lemma procCancel_ok hm hb s me ti m : inv hm hb ob s -> inv hm hb ob (procCancel app s me ti m).
Proof.
  intros H. unfold procCancel. destruct (find_idx _ _) as [i|]; [|done]. destruct (connTable s !! i); [|done].
  by apply call_disconnect_ok, connFree_ok.
Qed.

Lemma procDiscFromClient_ok hm hb s me ti m : inv hm hb ob s -> inv hm hb ob (procDiscFromClient app s me ti m).
Proof.
  intros H. unfold procDiscFromClient. destruct (conn s (m_handle m)); [destruct (_ && _)|]; apply call_disconnect_ok; [by apply connFree_ok|done..].
Qed.

Lemma procDiscFromServer_ok hm hb s me m : inv hm hb ob s -> inv hm hb ob (procDiscFromServer app s me m).
Proof.
  intros H. unfold procDiscFromServer. destruct (conn s (m_handle m)); [destruct (_ && _)|]; apply call_disconnect_ok; [by apply connFree_ok|done..].
Qed.

Lemma procForward_ok hm hb s me ti m a1 : inv hm hb ob s -> inv hm hb ob (procForward room app s me ti m a1).
Proof.
  intros H. unfold procForward. destruct (conn s (m_handle m)) as [c|]; [|done]. destruct (is_me _ _); [|done].
  destruct (portFind s ti (m_port m) ≫= _) as [sp|]; [|by apply itsDisconnect_ok]. set (s1 := upd_conn s _ _).
  assert (inv hm hb ob s1) as H1 by (by apply inv_conn). destruct (onConnect sp) as [cb|]; [|done].
  pose proof (app_ok _ _ me cb (CConnect (m_handle m) (m_payload m) (m_len m)) _ H1) as H2. destruct (app me cb _ s1) as [s2 r]. cbn [fst] in H2.
  destruct (r <? 0); [by apply itsDisconnect_ok|done].
Qed.

Lemma procAux_ok hm hb s me ti m : inv hm hb ob s -> inv hm hb ob (procAux app s me ti m).
Proof. intros H. unfold procAux. destruct (auxFind s ti (m_port m)); [by apply app_ok|done]. Qed.

Lemma finishMsg_ok hm hb s ti m : inv (hm + 1) (pay_of m ++ hb) ob s -> inv hm hb ob (finishMsg s ti m).
Proof.
  intros H. unfold finishMsg. apply msgFree_ok, inv_task; [done|]. destruct (m_pickup m); [|done].
  destruct (taskFind s (m_sender m)); [by apply inv_task|done].
Qed.

Lemma processInboxMsg_ok hm hb s me ti m a1 a2 :
  inv (hm + 1) (pay_of m ++ hb) ob s -> inv hm hb ob (processInboxMsg room app s me ti m a1 a2).
Proof.
  intros H. unfold processInboxMsg. apply finishMsg_ok. destruct (m_kind m); [| | | |by apply procAux_ok|].
  - destruct (task_is_server s ti); [by apply procConnect_ok|done].
  - by apply procDiscFromClient_ok.
  - by apply procDiscFromServer_ok.
  - destruct (task_is_server s ti); [by apply procForward_ok|done].
  - destruct (task_is_server s ti); [by apply procCancel_ok|done].
Qed.

(** ** Polling *)

Lemma dispatch1_ok hm hb s me ti i : inv hm hb ob s -> inv hm hb ob (dispatch1 app s me ti i).1.
Proof.
  intros H. unfold dispatch1. destruct (conn s i) as [c|]; [|done]. destruct (negb _ && negb _); [done|].
  destruct (if is_me me (serverTask c) then _ else cliRecvCb c) as [cb|]; [|done]. destruct (bool_decide _).
  - destruct (linkAt s _ ≫= _) as [[L r]|]; [|done]. destruct (0 <? _); [by apply app_ok|done].
  - destruct (poolHandle s _) as [b|]; [|done]. destruct (_ <? _); [|done].
    pose proof (app_ok _ _ me cb (CRecv i (xStreamBufferBytesAvailable b)) _ H) as H1. destruct (negb _); [done|].
    destruct (poolHandle _ _); [done|by apply inv_stale].
Qed.

Lemma dispatchLoop_ok hm hb n s me ti i any : inv hm hb ob s -> inv hm hb ob (dispatchLoop app n s me ti i any).1.
Proof.
  revert s i any. induction n as [|n IH]; intros s i any H; cbn [dispatchLoop]; [done|].
  pose proof (dispatch1_ok _ _ _ me ti i H) as H1. destruct (dispatch1 app s me ti i). by apply IH.
Qed.

Lemma pollInbox_ok hm hb s me ti a1 a2 : inv hm hb ob s -> inv hm hb ob (pollInbox room app s me ti a1 a2).1.
Proof.
  intros H. unfold pollInbox. destruct (s_tasks s !! ti) as [e|] eqn:He; cbn [mbind option_bind]; [|by apply inv_stale].
  destruct (inbox e) as [q|] eqn:Eq; [|by apply inv_stale]. pose proof (q_receive_spec q) as Hq.
  destruct (xQueueReceive q) as [[m q']|]; [|done]. destruct Hq as [Eq' _]. apply processInboxMsg_ok.
  eapply (inbox_change _ _ _ _ _ _ _ (Some q')); [exact H|exact He|done|..]; rewrite Eq; unfold box_pays; cbn [box_msgs]; rewrite Eq'.
  - rewrite Zlen_cons. lia.
  - cbn [flat_map]. rewrite <- app_assoc. by rewrite Permutation_app_swap_app.
Qed.

Lemma pollOnce_ok hm hb s me ti a1 a2 : inv hm hb ob s -> inv hm hb ob (pollOnce room app s me ti a1 a2).1.
Proof.
  intros H. unfold pollOnce. pose proof (pollInbox_ok _ _ _ me ti a1 a2 H) as H1. destruct (pollInbox _ _ _ _ _ _ _) as [s1 any]. cbn [fst] in H1.
  unfold dispatchRecvCallbacks. pose proof (dispatchLoop_ok _ _ (Z.to_nat ITS_MAX_CONNS) _ me ti 0 false H1) as H2.
  by destruct (dispatchLoop _ _ _ _ _ _ _).
Qed.

Lemma itsPoll_ok hm hb ws s me timeout a1 a2 :
  Forall (env_wake hm hb ob) ws -> inv hm hb ob s -> inv hm hb ob (itsPoll room app ws s me timeout a1 a2).1.
Proof.
  intros Hw H. unfold itsPoll. destruct (taskFind s me) as [ti|]; [|by apply blocked_ok].
  pose proof (pollOnce_ok _ _ _ me ti a1 a2 H) as H1. destruct (pollOnce _ _ s me ti a1 a2) as [s1 any]. cbn [fst] in H1.
  destruct any; [done|]. destruct (timeout =? 0); [done|]. by apply pollOnce_ok, blocked_ok.
Qed.

(** ** Registration *)

Lemma taskFindOrCreate_ok hm hb s me mx d av : inv hm hb ob s -> inv hm hb ob (taskFindOrCreate s me mx d av).1.
Proof.
  intros H. unfold taskFindOrCreate. destruct (taskFind s me); [done|]. destruct (_ <=? _); [done|]. cbn [fst].
  destruct H as [S (dss & H1 & H2 & H3)]. split; [exact S|]. exists dss. cbn [itsLinks s_tasks with_tasks heap hdrCtr payCtr bad].
  set (e := {| task := Some me |}). assert (box_msgs (inbox e) = []) as E.
  { unfold e. cbn [inbox]. destruct (av_buf av); [|done]. apply q_create_spec. }
  rewrite map_app, !flat_map_app. cbn [map flat_map]. unfold box_pays at 2. rewrite E, !app_nil_r. done.
Qed.

Lemma task_pre_delete_ok hm hb s t : inv hm hb ob s -> inv hm hb ob (vTaskPreDeletionHook s t).
Proof. intros H. unfold vTaskPreDeletionHook. destruct (taskFind s t); [by apply inv_task|done]. Qed.

Ltac with_task H := match goal with |- context [taskFindOrCreate ?s ?me ?mx ?d ?av] =>
  let H1 := fresh "H1" in pose proof (taskFindOrCreate_ok _ _ s me mx d av H) as H1;
  destruct (taskFindOrCreate s me mx d av) as [? [?|]]; cbn [fst] in H1; [|done] end.

Lemma itsServerInit_ok hm hb s me mx d np av : inv hm hb ob s -> inv hm hb ob (itsServerInit s me mx d np av).1.
Proof. intros H. unfold itsServerInit. with_task H. destruct (task_is_server _ _); [done|by apply inv_task]. Qed.

Lemma itsClientInit_ok hm hb s me n mx d av : inv hm hb ob s -> inv hm hb ob (itsClientInit s me n mx d av).
Proof. intros H. unfold itsClientInit. with_task H. destruct (_ !! _) as [e|]; [|done]. destruct (isClient e); [done|by apply inv_task]. Qed.

Lemma itsServerPortOpen_ok hm hb s me port k n tc fc d mx : inv hm hb ob s -> inv hm hb ob (itsServerPortOpen s me port k n tc fc d mx).1.
Proof.
  intros H. unfold itsServerPortOpen. destruct (taskFind s me) as [ti|]; [|done]. destruct (s_tasks s !! ti) as [e|]; [|done].
  destruct (negb _); [done|]. destruct (port_slot _ _) as [[ports i]|]; [by apply inv_task|done].
Qed.

Lemma closePortConns_ok hm hb n s me port h av : inv hm hb ob s -> inv hm hb ob (closePortConns room n s me port h av).
Proof.
  revert s h. induction n as [|n IH]; intros s h H; cbn [closePortConns]; [done|]. apply IH. destruct (conn s h); [|done].
  destruct (_ && _); [by apply itsDisconnect_ok|done].
Qed.

Lemma itsServerPortClose_ok hm hb s me port av : inv hm hb ob s -> inv hm hb ob (itsServerPortClose room s me port av).
Proof.
  intros H. unfold itsServerPortClose. destruct (taskFind s me ≫= _) as [[ti pi]|]; [|done]. by apply inv_task, closePortConns_ok.
Qed.

Lemma itsServerOn_ok hm hb s me port w cb : inv hm hb ob s -> inv hm hb ob (itsServerOn s me port w cb).
Proof. intros H. unfold itsServerOn. destruct (taskFind s me ≫= _) as [[ti pi]|]; [by apply inv_task|done]. Qed.

Lemma itsOnAux_ok hm hb s me port cb av : inv hm hb ob s -> inv hm hb ob (itsOnAux s me port cb av).
Proof.
  intros H. unfold itsOnAux. with_task H. destruct (_ !! _) as [e|]; [|done]. destruct (find_idx _ _); [by apply inv_task|].
  destruct (_ <=? _); [done|by apply inv_task].
Qed.

(** ** Forward, connect, aux *)

Lemma itsServerForward_ok hm hb s me h target port data av :
  Zlen data < 2 ^ 32 -> inv hm hb ob s -> inv hm hb ob (itsServerForwardByTaskHandle malloc room app s me h target port data av).1.
Proof.
  intros Hd H. unfold itsServerForwardByTaskHandle. destruct (conn s h) as [c|]; [|done]. destruct (negb _); [done|].
  destruct (taskFind s target) as [ti|]; [|done]. destruct (negb _); [done|]. destruct (portFind s ti port) as [pi|]; [|done].
  destruct (match port_full s ti pi port with true => _ | false => _ end) as [s1 refused] eqn:E1.
  assert (inv hm hb ob s1) as H1.
  { destruct (port_full s ti pi port); [|by injection E1 as <- _]. destruct (_ ≫= onBusy) as [cb|]; [|by injection E1 as <- _].
    pose proof (app_ok _ _ me cb (CBusy 0 (Zlen data)) _ H) as K. destruct (app me cb _ s). by injection E1 as <- _. }
  destruct refused; [done|]. set (s2 := match port_at s1 ti pi with Some _ => _ | None => _ end).
  assert (inv hm hb ob s2) as H2 by (unfold s2; destruct (port_at s1 ti pi); [by apply inv_conn|done]).
  destruct (buildCopyMsg malloc s2 me ITS_K_FORWARD port h data ti av) as [s3 [m|]] eqn:E3;
    pose proof (buildCopyMsg_ok _ malloc_fresh _ _ _ _ _ _ _ _ _ _ _ _ _ H2 Hd E3) as H3; [|done].
  pose proof (enqueue_or_free _ _ room_keeps _ _ m s3 ti 100 H3) as H4. by destruct (inboxEnqueue room s3 ti m 100) as [s4 [|]].
Qed.

Lemma sendCancel_ok hm hb s me si port nonce av : inv hm hb ob s -> inv hm hb ob (sendCancel malloc room s me si port nonce av).
Proof.
  intros H. assert (Zlen (@nil Z) < 2 ^ 32) as Hd by done. unfold sendCancel. destruct (buildCopyMsg malloc s me _ port (-1) [] si av) as [s1 [m|]] eqn:E1;
    pose proof (buildCopyMsg_ok _ malloc_fresh _ _ _ _ _ _ _ _ _ _ _ _ _ H Hd E1) as H1; [|done].
  exact (enqueue_or_free _ _ room_keeps _ _ (msg_set_nonce m nonce) s1 si 50 H1).
Qed.

Lemma connectPost_ok hm hb s me mi si port data rem av :
  Zlen data < 2 ^ 32 -> inv hm hb ob s -> inv hm hb ob (connectPost malloc room s me mi si port data rem av).1.
Proof.
  intros Hd H. unfold connectPost. destruct (s_tasks s !! mi) as [e|]; [|done].
  set (s1 := upd_task s mi _). assert (inv hm hb ob s1) as H1 by (by apply inv_task).
  destruct (buildCopyMsg malloc s1 me _ port (-1) data si av) as [s2 [m|]] eqn:E2;
    pose proof (buildCopyMsg_ok _ malloc_fresh _ _ _ _ _ _ _ _ _ _ _ _ _ H1 Hd E2) as H2; [|done].
  pose proof (enqueue_or_free _ _ room_keeps _ _ (msg_set_nonce m (nextNonce (connectGen e))) s2 si rem H2) as H3.
  by destruct (inboxEnqueue room s2 si _ rem) as [s3 [|]].
Qed.

Lemma serverWait_ok hm hb ws s server port start now timeout s' r :
  Forall (env_wake hm hb ob) ws -> inv hm hb ob s -> serverWait ws s server port start now timeout = (s', r) ->
  inv hm hb ob s' /\ match r with Some (Some (_, _, ws')) => Forall (env_wake hm hb ob) ws' | _ => True end.
Proof.
  intros Hws. revert s now. induction Hws as [|w ws Hw Hws IH]; intros s now H; cbn [serverWait];
    (destruct (taskFind s server ≫= _); [intros [= <- <-]; split; [done|by constructor]|]);
    (destruct (negb _ && _); [by intros [= <- <-]|]).
  - by intros [= <- <-].
  - apply IH. by apply Hw.
Qed.

Lemma connectWait_ok hm hb ws s me si port nonce ref rcv dis mi av :
  Forall (env_wake hm hb ob) ws -> inv hm hb ob s -> inv hm hb ob (connectWait malloc room ws s me si port nonce ref rcv dis mi av).1.
Proof.
  intros Hws. revert s. induction Hws as [|w ws Hw Hws IH]; intros s H; cbn [connectWait]; [done|]. apply Hw in H.
  assert (inv hm hb ob (ack_take (w_env w s) mi).1) as H1 by (unfold ack_take; destruct (_ !! mi); [by apply inv_task|done]).
  destruct (ack_take (w_env w s) mi) as [s1 got]. cbn [fst] in H1. destruct (negb got); [by apply sendCancel_ok|].
  destruct (s_tasks s1 !! mi) as [e|]; [|done]. destruct (_ =? nonce); [|by apply IH]. destruct (_ <? 0); [done|by apply inv_conn].
Qed.

Lemma itsConnect_ok hm hb ws s me server port data now timeout ref rcv dis a1 a2 :
  Zlen data < 2 ^ 32 -> Forall (env_wake hm hb ob) ws -> inv hm hb ob s ->
  inv hm hb ob (itsConnectByTaskHandle malloc room ws s me server port data now timeout ref rcv dis a1 a2).1.
Proof.
  intros Hd Hw H. unfold itsConnectByTaskHandle. destruct (connectAllowed s me) as [mi|]; [|done].
  destruct (serverWait ws s server port now now timeout) as [s1 r] eqn:E. destruct (serverWait_ok _ _ _ _ _ _ _ _ _ _ _ Hw H E) as [H1 W1].
  destruct r as [[[[si t] ws']|]|]; [|done..]. pose proof (connectPost_ok _ _ _ me mi si port data (remainingTime now t timeout) a1 Hd H1) as H2.
  destruct (connectPost _ _ _ _ _ _ _ _ _ _) as [s2 [nonce|]]; [by apply connectWait_ok|done].
Qed.

Lemma pickupArm_ok hm hb s me pk av : inv hm hb ob s -> inv hm hb ob (pickupArm s me pk av).1.
Proof.
  intros H. unfold pickupArm. destruct (negb pk); [done|]. with_task H. destruct (_ ≫= _); [by apply inv_task|done].
Qed.

Lemma pickupWait_ok hm hb ws s mi timeout : Forall (env_wake hm hb ob) ws -> inv hm hb ob s -> inv hm hb ob (pickupWait ws s mi timeout).1.
Proof.
  intros Hw H. unfold pickupWait. pose proof (blocked_ok _ _ _ ws s timeout Hw H) as H1. destruct (_ !! mi); [by apply inv_task|done].
Qed.

Lemma itsSendAux_ok hm hb ws s me target port data timeout pk av :
  Zlen data < 2 ^ 32 -> Forall (env_wake hm hb ob) ws -> inv hm hb ob s ->
  inv hm hb ob (itsSendAux malloc room ws s me target port data timeout pk av).1.
Proof.
  intros Hd Hw H. unfold itsSendAux. destruct (taskFind s target) as [ti|]; [|done]. destruct (negb _); [done|].
  pose proof (pickupArm_ok _ _ _ me pk av H) as H1. destruct (pickupArm s me pk av) as [s1 [mi|]]; [|done]. cbn [fst] in H1.
  destruct (buildCopyMsg malloc s1 me ITS_K_AUX port (-1) data ti av) as [s2 [m|]] eqn:E2;
    pose proof (buildCopyMsg_ok _ malloc_fresh _ _ _ _ _ _ _ _ _ _ _ _ _ H1 Hd E2) as H2; [|done].
  pose proof (enqueue_or_free _ _ room_keeps _ _ (msg_set_pickup m pk) s2 ti timeout H2) as H3.
  destruct (inboxEnqueue room s2 ti _ timeout) as [s3 [|]]; [|done]. destruct mi; [by apply pickupWait_ok|done].
Qed.

Lemma itsSetTriggerLevel_ok hm hb s me h n : inv hm hb ob s -> inv hm hb ob (itsSetTriggerLevel s me h n).1.
Proof. intros H. unfold itsSetTriggerLevel. destruct (_ || _); [done|]. destruct (recvBufWithPool s me h) as [[i b]|]; [by apply inv_pool|done]. Qed.

Lemma itsSetFreeNotify_ok hm hb s me h n : inv hm hb ob s -> inv hm hb ob (itsSetFreeNotify s me h n).1.
Proof.
  intros H. unfold itsSetFreeNotify. destruct (sendLink s me h) as [li|].
  - set (s1 := upd_link s li _). assert (inv hm hb ob s1) as H1 by (by apply inv_link). destruct (link_of s1 li); [|done].
    destruct (_ && _); [by apply inv_notify, inv_link|done].
  - destruct (sendBufWithPool s me h) as [[i b]|]; [|done]. set (s1 := upd_pool s i _). assert (inv hm hb ob s1) as H1 by (by apply inv_pool).
    destruct (_ && _); [by apply inv_notify, inv_pool|done].
Qed.

Lemma itsReset_ok hm hb s me h : inv hm hb ob s -> inv hm hb ob (itsReset s me h).
Proof.
  intros H. unfold itsReset. destruct (conn s h) as [c|]; [|done]. destruct (bool_decide _); [by apply linkPurge_ok, linkPurge_ok|].
  assert (forall s o, inv hm hb ob s -> inv hm hb ob (pool_reset s o)) as K by (intros s1 [[i b]|] H1; [by apply inv_pool|done]).
  by apply K, K.
Qed.

Lemma itsInject_ok hm hb ws s h srv d timeout : Forall (env_wake hm hb ob) ws -> inv hm hb ob s -> inv hm hb ob (itsInject ws s h srv d timeout).1.
Proof.
  intros Hw H. unfold itsInject. destruct (conn s h) as [c|]; [|done]. destruct (bool_decide _); [done|].
  destruct (bufWithPool s _) as [[i b]|]; [|done]. pose proof (pool_send_ok _ _ _ _ i d (blocked_ok _ _ _ ws s timeout Hw H)) as H1.
  destruct (pool_send _ i d). by apply notifyAtTrigger_ok.
Qed.

(** ** The calls that transfer no block, in one type *)

Inductive request :=
| Q_taskDeleted (t : Z)
| Q_serverInit (me mx d : Z) (np : bool) (av : avail)
| Q_clientInit (me n mx d : Z) (av : avail)
| Q_portOpen (me port : Z) (k : its_port_kind_t) (n tc fc d mx : Z)
| Q_portClose (me port : Z) (av : avail)
| Q_serverOn (me port : Z) (w : server_cb) (cb : option Z)
| Q_onAux (me port cb : Z) (av : avail)
| Q_connect (ws : list (wake SB Q)) (me server port : Z) (data : bytes) (now timeout ref : Z) (rcv dis : option Z) (a1 a2 : avail)
| Q_disconnect (me h : Z) (av : avail)
| Q_forward (me h target port : Z) (data : bytes) (av : avail)
| Q_poll (ws : list (wake SB Q)) (me timeout : Z) (a1 a2 : avail)
| Q_sendAux (ws : list (wake SB Q)) (me target port : Z) (data : bytes) (timeout : Z) (pk : bool) (av : avail)
| Q_send (ws : list (wake SB Q)) (me h : Z) (data : bytes) (now timeout : Z)
| Q_recv (ws : list (wake SB Q)) (me h mx now timeout : Z)
| Q_inject (ws : list (wake SB Q)) (h : Z) (srv : bool) (data : bytes) (timeout : Z)
| Q_waitForSpace (ws : list (wake SB Q)) (me h n now timeout : Z)
| Q_setTriggerLevel (me h n : Z)
| Q_setFreeNotify (me h n : Z)
| Q_reset (me h : Z).

Definition serve (r : request) s : its :=
  match r with
  | Q_taskDeleted t => vTaskPreDeletionHook s t
  | Q_serverInit me mx d np av => (itsServerInit s me mx d np av).1
  | Q_clientInit me n mx d av => itsClientInit s me n mx d av
  | Q_portOpen me port k n tc fc d mx => (itsServerPortOpen s me port k n tc fc d mx).1
  | Q_portClose me port av => itsServerPortClose room s me port av
  | Q_serverOn me port w cb => itsServerOn s me port w cb
  | Q_onAux me port cb av => itsOnAux s me port cb av
  | Q_connect ws me server port data now timeout ref rcv dis a1 a2 =>
      (itsConnectByTaskHandle malloc room ws s me server port data now timeout ref rcv dis a1 a2).1
  | Q_disconnect me h av => itsDisconnect room s me h av
  | Q_forward me h target port data av => (itsServerForwardByTaskHandle malloc room app s me h target port data av).1
  | Q_poll ws me timeout a1 a2 => (itsPoll room app ws s me timeout a1 a2).1
  | Q_sendAux ws me target port data timeout pk av => (itsSendAux malloc room ws s me target port data timeout pk av).1
  | Q_send ws me h data now timeout => (itsSend malloc ws s me h data now timeout).1
  | Q_recv ws me h mx now timeout => (itsRecv ws s me h mx now timeout).1
  | Q_inject ws h srv data timeout => (itsInject ws s h srv data timeout).1
  | Q_waitForSpace ws me h n now timeout => (itsWaitForSpace ws s me h n now timeout).1
  | Q_setTriggerLevel me h n => (itsSetTriggerLevel s me h n).1
  | Q_setFreeNotify me h n => (itsSetFreeNotify s me h n).1
  | Q_reset me h => itsReset s me h
  end.

(** Lengths are [size_t]s, and the others behave while a call sleeps. *)
Definition request_ok hm hb (r : request) s : Prop :=
  match r with
  | Q_connect ws _ _ _ data _ _ _ _ _ _ _ => Zlen data < 2 ^ 32 /\ Forall (env_wake hm hb ob) ws
  | Q_forward _ _ _ _ data _ => Zlen data < 2 ^ 32
  | Q_poll ws _ _ _ _ => Forall (env_wake hm hb ob) ws
  | Q_sendAux ws _ _ _ data _ _ _ => Zlen data < 2 ^ 32 /\ Forall (env_wake hm hb ob) ws
  | Q_send ws me h data _ _ => Zlen data < 2 ^ 32 /\ wakes_ok hm hb ob s me h ws
  | Q_recv ws _ _ _ _ _ => Forall (env_wake hm hb ob) ws
  | Q_inject ws _ _ _ _ => Forall (env_wake hm hb ob) ws
  | Q_waitForSpace ws me h _ _ _ => wakes_ok hm hb ob s me h ws
  | _ => True
  end.

Lemma serve_ok hm hb r s : request_ok hm hb r s -> inv hm hb ob s -> inv hm hb ob (serve r s).
Proof.
  intros Hr H. destruct r; cbn [serve request_ok] in *.
  - by apply task_pre_delete_ok.
  - by apply itsServerInit_ok.
  - by apply itsClientInit_ok.
  - by apply itsServerPortOpen_ok.
  - by apply itsServerPortClose_ok.
  - by apply itsServerOn_ok.
  - by apply itsOnAux_ok.
  - destruct Hr. by apply itsConnect_ok.
  - by apply itsDisconnect_ok.
  - by apply itsServerForward_ok.
  - by apply itsPoll_ok.
  - destruct Hr. by apply itsSendAux_ok.
  - destruct Hr. by apply itsSend_ok.
  - by apply itsRecv_ok.
  - by apply itsInject_ok.
  - by apply itsWaitForSpace_ok.
  - by apply itsSetTriggerLevel_ok.
  - by apply itsSetFreeNotify_ok.
  - by apply itsReset_ok.
Qed.

End Step.

Arguments request : clear implicits.

(** ** Reachable states *)

Import Data Tables Flow Server.

Section Reach.
Context {SB Q : Type} {SBI : StreamBuf SB} {SBL : StreamBufLaws SB} {RQI : RtosQueue Q its_msg} {RQL : RtosQueueLaws Q its_msg}.
#[local] Abbreviation its := (its (SB := SB) (Q := Q)).
Implicit Types (s : its) (hm : Z) (hb ob : list blk).

(** [heap_caps_malloc] returns 0 or an address that is not in use. *)
Definition malloc_fresh (malloc : gmap Z bytes -> Z -> Z) : Prop :=
  forall h n, 0 < n -> malloc h n <> 0 -> h !! malloc h n = None /\ 0 < malloc h n < 2 ^ 32.

Context (malloc : gmap Z bytes -> Z -> Z) (room : its -> its) (app : Z -> Z -> call -> its -> its * Z).

(** ** Aux messages that carry the caller's block *)

Lemma itsSendAuxOwned_ok hm hb ob ws s me target port p len timeout pk av s' r :
  (forall hm hb, keeps hm hb ob room) -> Forall (env_wake hm hb ob) ws -> inv hm hb ((len, p) :: ob) s ->
  itsSendAuxOwnedByTaskHandle room ws s me target port p len timeout pk av = (s', r) ->
  if r then inv hm hb ob s' else inv hm hb ((len, p) :: ob) s'.
Proof.
  intros HR Hw H. unfold itsSendAuxOwnedByTaskHandle. destruct (taskFind s target) as [ti|]; [|by intros [= <- <-]].
  destruct (negb _); [by intros [= <- <-]|]. destruct (_ <? len); [by intros [= <- <-]|].
  pose proof (pickupArm_ok ((len, p) :: ob) _ _ _ me pk av H) as H1. destruct (pickupArm s me pk av) as [s1 [mi|]]; [|by intros [= <- <-]]. cbn [fst] in H1.
  destruct (msgAlloc s1 av) as [s2 [m0|]] eqn:E2; pose proof (msgAlloc_ok _ _ _ _ _ _ _ H1 E2) as H2; [|by intros [= <- <-]]. destruct H2 as [H2 _].
  assert (0 < p) as Hp.
  { destruct H as [_ (dss & _ & (_ & F & _) & _)]. apply Forall_app in F as [_ F]. apply Forall_cons in F as [(d & _ & _ & _ & Hp) _]. cbn in Hp. lia. }
  apply payAdopt_ok in H2. set (m := {| m_kind := ITS_K_AUX; m_len := len; m_payload := p |}).
  assert (pay_of m = [(len, p)]) as EM by (unfold pay_of; cbn [m_payload m_len m]; destruct (Z.eqb_spec p 0); [lia|done]).
  destruct (inboxEnqueue room (payAdopt s2 len) ti m timeout) as [s3 [|]] eqn:E3.
  - pose proof (inboxEnqueue_ok room ob HR hm hb m (payAdopt s2 len) ti timeout s3 true) as K. rewrite EM in K. specialize (K H2 E3). cbn in K.
    destruct mi as [mi|]; intros [= <- <-]; [by apply pickupWait_ok|done].
  - pose proof (inboxEnqueue_ok room ob HR hm hb m (payAdopt s2 len) ti timeout s3 false) as K. rewrite EM in K. specialize (K H2 E3). cbn in K.
    intros [= <- <-]. apply msgFree_ok. by apply payHandoff_ok in K.
Qed.

(** ** Any sequence of calls *)

(** [reach ob s]: after some calls the state is [s] and the application owns [ob]. *)
Inductive reach : list blk -> its -> Prop :=
| R_start : reach [] its_start
| R_forget b ob s : reach (b :: ob) s -> reach ob s
| R_alloc ob s p d :
    heap s !! p = None -> 0 < p < 2 ^ 32 -> Zlen d < 2 ^ 32 -> reach ob s ->
    reach ((Zlen d, p) :: ob) (with_pay s (<[p := d]> (heap s)) (payCtr s))
| R_free ob s n p : reach ((n, p) :: ob) s -> reach ob (with_pay s (delete p (heap s)) (payCtr s))
| R_call ob s r :
    (forall hm hb, keeps hm hb ob room) -> (forall hm hb me cb c, keeps hm hb ob (fun s => (app me cb c s).1)) ->
    request_ok ob 0 [] r s -> reach ob s -> reach ob (serve malloc room app r s)
| R_sendOwned ob s ws me h p len now timeout :
    wakes_ok 0 [] ((len, p) :: ob) s me h ws -> reach ((len, p) :: ob) s ->
    reach (if bool_decide ((itsSendOwned malloc ws s me h p len now timeout).2 = Some len) && negb (len =? 0) then ob else (len, p) :: ob)
      (itsSendOwned malloc ws s me h p len now timeout).1
| R_sendAuxOwned ob s ws me target port p len timeout pk av :
    (forall hm hb, keeps hm hb ob room) -> Forall (env_wake 0 [] ob) ws -> reach ((len, p) :: ob) s ->
    reach (if (itsSendAuxOwnedByTaskHandle room ws s me target port p len timeout pk av).2 then ob else (len, p) :: ob)
      (itsSendAuxOwnedByTaskHandle room ws s me target port p len timeout pk av).1
| R_recvRef ob s ws me h now timeout :
    Forall (env_wake 0 [] ob) ws -> reach ob s ->
    reach (match (itsRecvRef ws s me h now timeout).2 with Some (Some (p, len)) => (len, p) :: ob | _ => ob end)
      (itsRecvRef ws s me h now timeout).1.

Lemma start_inv : inv 0 [] [] its_start.
Proof.
  split.
  - assert (forall n, pool_refs (replicate n (cview conn0)) = [] /\ link_refs (replicate n (cview conn0)) = []) as K
      by (induction n as [|n [IH1 IH2]]; [done|]; cbn; done).
    unfold slots_of, its_start. cbn [connTable itsPool itsLinks]. change (map cview ?l) with (cview <$> l). rewrite fmap_replicate.
    destruct (K (Z.to_nat ITS_MAX_CONNS)) as [E1 E2]. unfold slots. rewrite E1, E2. split_and!; [done| |by split; constructor..].
    apply Forall_replicate. done.
  - exists []. split_and!; [constructor| |done..]. split_and!; [constructor|constructor|done..].
Qed.

Lemma reach_inv ob s : malloc_fresh malloc -> reach ob s -> inv 0 [] ob s.
Proof.
  intros HM. induction 1 as [|b ob s R IH|ob s p d Hp Hr Hd R IH|ob s n p R IH|ob s r HR HA Hq R IH|ob s ws me h p len now timeout Hw R IH
    |ob s ws me target port p len timeout pk av HR Hw R IH|ob s ws me h now timeout Hw R IH].
  - apply start_inv.
  - by eapply inv_forget.
  - eapply inv_pay; [exact IH|]. intros bl Hl. by apply ledger_fresh.
  - eapply inv_pay; [exact IH|]. intros bl Hl. by apply (ledger_release _ _ (n, p)) in Hl as [Hl _].
  - by apply serve_ok.
  - unfold itsSendOwned. destruct (sendLink s me h) as [li|] eqn:EL.
    2: { cbn [fst snd]. destruct (bool_decide_reflect (Some 0 = Some len)) as [[= <-]|]; done. }
    destruct (itsSendPacket _ _ _ _ _ _ _ _ _) as [s' r] eqn:E.
    destruct (sendOwned_ok malloc _ _ _ _ _ _ _ _ _ _ _ _ _ _ (proj2 Hw _ EL) IH (sendLink_used _ _ _ _ _ _ _ IH EL) E)
      as [(-> & Hz & K)|[Hr K]]; cbn [fst snd].
    + rewrite bool_decide_true by done. by destruct (Z.eqb_spec len 0).
    + destruct (bool_decide_reflect (r = Some len)) as [->|]; [|done]. destruct Hr as [[=]|[= ->]]. done.
  - destruct (itsSendAuxOwnedByTaskHandle _ _ _ _ _ _ _ _ _ _ _) as [s' r] eqn:E. pose proof (itsSendAuxOwned_ok _ _ _ _ _ _ _ _ _ _ _ _ _ _ _ HR Hw IH E) as K.
    by destruct r.
  - destruct (itsRecvRef ws s me h now timeout) as [s' r] eqn:E. pose proof (itsRecvRef_ok _ _ _ _ _ _ _ _ _ _ _ Hw IH E) as K.
    by destruct r as [[[p len]|]|].
Qed.

(** ** What holds in every reachable state *)

(** The payloads in the inboxes and in the links. *)
Definition queues_hold s (bl : list blk) : Prop :=
  exists dss, Forall2 link_holds (map lview (itsLinks s)) dss /\ bl = flat_map box_pays (map inbox (s_tasks s)) ++ concat dss.

(** C2: after any sequence of calls, no block was freed twice or read after it was gone
    ([bad] is false), every payload that waits in an inbox or in a packet link is a live
    block at least as long as its descriptor says, and no block is queued twice or
    queued while the application owns it. *)
Theorem its_memory_safe ob s : malloc_fresh malloc -> reach ob s ->
  bad s = false /\ exists bl, queues_hold s bl /\ NoDup (map snd (bl ++ ob)) /\ Forall (blk_live (heap s)) (bl ++ ob).
Proof.
  intros HM R. destruct (reach_inv _ _ HM R) as [_ (dss & H1 & (H2 & H3 & _) & _ & _ & H4)]. split; [done|].
  rewrite app_nil_r in H2, H3. eexists. split; [by exists dss|]. done.
Qed.

(** C20: after any sequence of calls the ownership counters are exact: [payCtr] counts
    the queued payload blocks and their bytes, [hdrCtr] the queued messages, modulo the
    width of [size_t]; so they are zero when nothing is queued. *)
Theorem its_counters_exact ob s : malloc_fresh malloc -> reach ob s ->
  exists bl, queues_hold s bl /\
    liveBlocks (payCtr s) = wrap32 (Zlen bl) /\ liveBytes (payCtr s) = wrap32 (blk_len bl) /\
    liveBlocks (hdrCtr s) = wrap32 (Zlen (flat_map box_msgs (map inbox (s_tasks s)))) /\
    liveBytes (hdrCtr s) = wrap32 (HDR_SIZE * Zlen (flat_map box_msgs (map inbox (s_tasks s)))).
Proof.
  intros HM R. destruct (reach_inv _ _ HM R) as [_ (dss & H1 & (_ & _ & H2 & H3) & H4 & H5 & _)].
  rewrite app_nil_r in H2, H3. rewrite Z.add_0_r in H4, H5. eexists. split; [by exists dss|]. done.
Qed.

Lemma row_apart {A B} (f : A -> list B) cv i j ci cj x :
  NoDup (flat_map f cv) -> cv !! i = Some ci -> cv !! j = Some cj -> i <> j -> x ∈ f ci -> x ∈ f cj -> False.
Proof.
  intros ND Hi Hj Hne Hx Hy. rewrite (flat_map_split f _ _ _ Hi) in ND. apply NoDup_app in ND as (_ & ND & _). apply (ND x Hx).
  assert (cj ∈ delete i cv) as Hd.
  { destruct (decide (j < i)%nat).
    - apply (list_elem_of_lookup_2 _ j). by rewrite list_lookup_delete_lt.
    - apply (list_elem_of_lookup_2 _ (pred j)). rewrite list_lookup_delete_ge by lia. by rewrite Nat.succ_pred by lia. }
  apply list_elem_of_In, in_flat_map. exists cj. split; by apply list_elem_of_In.
Qed.

(** Two open connections never share a stream buffer or a packet link, the two
    directions of one connection use different ones, and what they use is marked in
    use. *)
Theorem its_buffers_exclusive ob s h1 h2 c1 c2 : malloc_fresh malloc -> reach ob s ->
  conn s h1 = Some c1 -> conn s h2 = Some c2 -> h1 <> h2 ->
  (forall i, 0 <= i -> i ∈ [toPoolIdx c1; fromPoolIdx c1] -> i ∉ [toPoolIdx c2; fromPoolIdx c2]) /\
  (forall i, 0 <= i -> i ∈ [toLinkIdx c1; fromLinkIdx c1] -> i ∉ [toLinkIdx c2; fromLinkIdx c2]) /\
  (0 <= toLinkIdx c1 -> toLinkIdx c1 <> fromLinkIdx c1 /\ link_used s (Z.to_nat (toLinkIdx c1))) /\
  (0 <= toPoolIdx c1 -> toPoolIdx c1 <> fromPoolIdx c1).
Proof.
  intros HM R H1 H2 Hne. destruct (reach_inv _ _ HM R) as [(_ & _ & [N3 _] & S4) _]. pose proof S4 as [N4 _].
  apply conn_some in H1 as [H1 _]. apply conn_some in H2 as [H2 _]. apply conn_at_table in H1 as [H1 G1]. apply conn_at_table in H2 as [H2 G2].
  apply (map_lookup cview) in H1, H2. assert (Z.to_nat h1 <> Z.to_nat h2) as Hn by lia.
  assert (forall i l, 0 <= i -> i ∈ l -> i ∈ List.filter nonneg l) as K.
  { intros i l Hi Hl. apply list_elem_of_In, filter_In. split; [by apply list_elem_of_In|]. unfold nonneg. lia. }
  split_and!.
  - intros i Hi A B. exact (row_apart _ _ _ _ _ _ i N3 H1 H2 Hn (K _ _ Hi A) (K _ _ Hi B)).
  - intros i Hi A B. exact (row_apart _ _ _ _ _ _ i N4 H1 H2 Hn (K _ _ Hi A) (K _ _ Hi B)).
  - intros Hi. unfold link_refs in *. rewrite (flat_map_split _ _ _ _ H1) in N4. apply NoDup_app in N4 as (N & _ & _). split.
    + intros E. cbn [cview fst snd List.filter] in N. unfold nonneg in N. rewrite <- E in N. destruct (Z.leb_spec 0 (toLinkIdx c1)); [|lia].
      apply NoDup_cons in N as [N _]. apply N. by left.
    + assert (toLinkIdx c1 ∈ link_refs (map cview (connTable s))) as HI.
      { unfold link_refs. rewrite (flat_map_split _ _ _ _ H1). apply elem_of_app. left. apply K; [done|]. by left. }
      apply (refs_used _ _ _ S4) in HI. change (map l_inUse ?l) with (l_inUse <$> l) in HI. rewrite list_lookup_fmap in HI.
      apply fmap_Some in HI as (L & HL & Hu). by exists L.
  - intros Hi E. unfold pool_refs in *. rewrite (flat_map_split _ _ _ _ H1) in N3. apply NoDup_app in N3 as (N & _ & _).
    cbn [cview fst snd List.filter] in N. unfold nonneg in N. rewrite <- E in N. destruct (Z.leb_spec 0 (toPoolIdx c1)); [|lia].
    apply NoDup_cons in N as [N _]. apply N. by left.
Qed.

End Reach.
