(* ===== verification/ItsPacket.v ===== *)
(** * its: a packet link is a bounded fifo of messages

    The contract of an ITS_PACKET port, one direction: a queue of whole messages with a
    bounded number of slots, a window on the queued bytes (one message of any admissible
    size fits an empty queue) and a guard on the message size. [itsSend] and [itsRecv] on
    a connection refine it, and leave every other link alone. Then the framed packets of a
    port that keeps a stream buffer. *)

From stdpp Require Import gmap.
From S2P Require Import Prelude CLib Rtos Its ItsFlow ItsServer ItsInv ItsOwn ItsStep.
Import Data Tables Flow Server.
Open Scope Z_scope.
Open Scope spangap_scope.

(** ** The contract *)
Module PacketSpec.

Record chan := { c_queue : list bytes; c_slots : Z; c_window : Z; c_biggest : Z }.

Definition total (q : list bytes) : Z := foldr (fun m n => Zlen m + n) 0 q.

Definition admits (c : chan) (m : bytes) : bool :=
  (0 <? Zlen m) && (Zlen m <=? c_biggest c) && (Zlen (c_queue c) <? c_slots c) &&
  ((total (c_queue c) =? 0) || (total (c_queue c) + Zlen m <=? c_window c)).

Definition with_queue (c : chan) (q : list bytes) : chan :=
  {| c_queue := q; c_slots := c_slots c; c_window := c_window c; c_biggest := c_biggest c |}.

Definition push (c : chan) (m : bytes) : chan := with_queue c (c_queue c ++ [m]).
Definition pop (c : chan) : chan := with_queue c (tail (c_queue c)).

Definition chan_ok (c : chan) : Prop :=
  0 <= c_window c /\ 0 <= c_biggest c /\ Z.max (c_window c) (c_biggest c) + c_biggest c < 2 ^ 32 /\
  total (c_queue c) <= Z.max (c_window c) (c_biggest c) /\ Forall (fun m => 0 < Zlen m) (c_queue c).

Lemma total_app q1 q2 : total (q1 ++ q2) = total q1 + total q2.
Proof. unfold total. induction q1 as [|m q IH]; cbn [foldr app]; lia. Qed.

Lemma total_nonneg q : 0 <= total q.
Proof. unfold total. induction q as [|m q IH]; cbn [foldr]; [lia|]. pose proof (Zlen_nonneg m). lia. Qed.

Lemma push_ok c m : chan_ok c -> admits c m = true -> chan_ok (push c m).
Proof.
  intros (H1 & H2 & H3 & H4 & H5) Ha. unfold admits in Ha. pose proof (total_nonneg (c_queue c)).
  assert (0 < Zlen m <= c_biggest c /\ (total (c_queue c) = 0 \/ total (c_queue c) + Zlen m <= c_window c)) as [Hm Hw] by lia.
  split_and!; [done..| |]; cbn [push with_queue c_queue c_window c_biggest].
  - rewrite total_app. unfold total at 2. cbn [foldr]. lia.
  - apply Forall_app. split; [done|]. constructor; [lia|done].
Qed.

Lemma pop_ok c : chan_ok c -> chan_ok (pop c).
Proof.
  intros (H1 & H2 & H3 & H4 & H5). split_and!; [done..| |]; cbn [pop with_queue c_queue c_window c_biggest].
  - destruct (c_queue c) as [|m q]; [done|]. cbn [tail]. unfold total in *. cbn [foldr] in H4. pose proof (Zlen_nonneg m). lia.
  - destruct H5; done.
Qed.

End PacketSpec.
Import PacketSpec.

Section Packet.
Context {SB Q : Type} {SBI : StreamBuf SB} {SBL : StreamBufLaws SB} {RQI : RtosQueue Q its_msg} {RQL : RtosQueueLaws Q its_msg}.
#[local] Abbreviation its := (its (SB := SB) (Q := Q)).
Implicit Types (s : its) (hm : Z) (hb ob : list blk).

(** Descriptor [b] stands for message [m]. *)
Definition blk_is (h : gmap Z bytes) (b : blk) (m : bytes) : Prop :=
  exists d, h !! b.2 = Some d /\ mem_slice d 0 b.1 = Some m.

(** Link [li] implements channel [c], with the descriptors [ds]. *)
Definition link_descs s (li : nat) (c : chan) (ds : list blk) : Prop :=
  exists L r, itsLinks s !! li = Some L /\ ring L = Some r /\ sb_bytes r = flat_map blk_desc ds /\
    outstanding L = total (c_queue c) /\ byteCap L = c_window c /\ maxMsg L = c_biggest c /\ sb_cap r / DESC_SIZE = c_slots c.

Definition implements s (li : nat) (c : chan) : Prop :=
  chan_ok c /\ exists ds, link_descs s li c ds /\ Forall blk_fits ds /\ Forall2 (blk_is (heap s)) ds (c_queue c).

Lemma descs_inj ds1 ds2 : Forall blk_fits ds1 -> Forall blk_fits ds2 -> flat_map blk_desc ds1 = flat_map blk_desc ds2 -> ds1 = ds2.
Proof.
  intros F1. revert ds2. induction F1 as [|b1 ds1 H1 F1 IH]; intros [|b2 ds2] F2 E; [done..|]. apply Forall_cons in F2 as [H2 F2].
  cbn [flat_map] in E. destruct (desc_decode b1 (flat_map blk_desc ds1) H1) as [L1 P1], (desc_decode b2 (flat_map blk_desc ds2) H2) as [L2 P2].
  rewrite E in L1, P1. assert (b1 = b2) as -> by (rewrite (surjective_pairing b1), (surjective_pairing b2); congruence).
  f_equal. apply IH; [done|]. by apply app_inv_head in E.
Qed.

(** The descriptors the invariant sees are these. *)
Lemma inv_dss hm hb ob s : inv hm hb ob s ->
  exists dss, NoDup (map snd (concat dss)) /\
    forall li c ds, link_descs s li c ds -> Forall blk_fits ds -> dss !! li = Some ds.
Proof.
  intros [_ (dss & H1 & (H2 & H3 & _) & _)]. exists dss.
  rewrite !map_app in H2. apply NoDup_app in H2 as (H2 & _ & _). apply NoDup_app in H2 as (_ & _ & H2). apply NoDup_app in H2 as (H2 & _ & _).
  split; [done|]. apply Forall_app in H3 as [H3 _]. apply Forall_app in H3 as [_ H3]. apply Forall_app in H3 as [H3 _].
  intros li c ds (L & r & HL & ER & B & _) F.
  destruct (Forall2_lookup_l _ _ _ _ _ H1 (map_lookup lview _ _ _ HL)) as (ds' & Hd & (V1 & _)). cbn [lview fst snd] in V1. rewrite ER in V1.
  rewrite Hd. f_equal. apply descs_inj; [|done|by rewrite <- V1].
  rewrite (concat_split _ _ _ Hd) in H3. apply Forall_app in H3 as [H3 _]. by apply live_fits in H3.
Qed.

Lemma blk_is_insert h p d b m : h !! p = None -> blk_is h b m -> blk_is (<[p := d]> h) b m.
Proof. intros Hp (d' & H & E). exists d'. rewrite lookup_insert_ne by congruence. done. Qed.
Lemma blk_is_delete h p b m : b.2 <> p -> blk_is h b m -> blk_is (delete p h) b m.
Proof. intros Hp (d' & H & E). exists d'. by rewrite lookup_delete_ne. Qed.

Lemma blk_is_len h b m : 0 <= b.1 -> blk_is h b m -> Zlen m = b.1.
Proof. intros Hb (d & _ & E). unfold mem_slice in E. destruct (_ && _) eqn:C; [|done]. injection E as <-. zlia. Qed.

Lemma queue_len h ds q : Forall blk_fits ds -> Forall2 (blk_is h) ds q -> total q = blk_len ds.
Proof.
  intros F H. unfold total, blk_len. induction H as [|b m ds q H1 H2 IH]; [done|]. apply Forall_cons in F as [[F1 _] F].
  cbn [foldr]. rewrite IH by done. rewrite (blk_is_len _ _ _ (proj1 F1) H1). done.
Qed.

Lemma Forall2_mono_in {A B} (P R : A -> B -> Prop) l k : (forall a b, a ∈ l -> P a b -> R a b) -> Forall2 P l k -> Forall2 R l k.
Proof.
  intros H F. induction F as [|a b l k Hab F IH]; [constructor|]. constructor; [apply H; [by left|done]|]. apply IH. intros. apply H; [by right|done].
Qed.

(** Links that are not touched, in a heap that keeps their blocks. *)
Lemma implements_frame s s' li c :
  (forall L, itsLinks s !! li = Some L -> exists L', itsLinks s' !! li = Some L' /\ ring L' = ring L /\ outstanding L' = outstanding L /\ byteCap L' = byteCap L /\ maxMsg L' = maxMsg L) ->
  (forall ds, link_descs s li c ds -> Forall blk_fits ds -> forall b m, b ∈ ds -> blk_is (heap s) b m -> blk_is (heap s') b m) ->
  implements s li c -> implements s' li c.
Proof.
  intros HL HH (Hc & ds & D & F & H2). split; [done|]. exists ds. pose proof (HH _ D F) as K. split_and!; [|done|].
  - destruct D as (L & r & EL & ER & D). destruct (HL _ EL) as (L' & EL' & E1 & E2 & E3 & E4). exists L', r. rewrite E1, E2, E3, E4. done.
  - by apply (Forall2_mono_in _ _ _ _ K).
Qed.

Lemma used_room n c : 0 <= n -> 0 <= c -> (DESC_SIZE <=? c - DESC_SIZE * n) = (n <? c / DESC_SIZE).
Proof.
  intros Hn Hc. unfold DESC_SIZE. pose proof (Z.div_mod c 8 ltac:(lia)). pose proof (Z.mod_pos_bound c 8 ltac:(lia)).
  destruct (Z.ltb_spec n (c / 8)), (Z.leb_spec 8 (c - 8 * n)); try done; lia.
Qed.

(** The code's admission test is the contract's. *)
Lemma admits_can s li c m ds :
  chan_ok c -> link_descs s li c ds -> Forall2 (blk_is (heap s)) ds (c_queue c) -> 0 < Zlen m -> Zlen m <= c_biggest c ->
  link_can s li (Zlen m) = admits c m.
Proof.
  intros (K1 & K2 & K3 & K4 & _) (L & r & HL & ER & B & Ho & Hcap & Hmx & Hs) F Hm Hb. unfold link_can, linkCanSend, slot_free, admits.
  rewrite HL, ER, sb_spaces, B, descs_length, Ho, Hcap.
  pose proof (sb_fill r) as Hf. rewrite B, descs_length in Hf. pose proof (Zlen_nonneg ds). pose proof (total_nonneg (c_queue c)).
  rewrite used_room by (unfold DESC_SIZE in *; lia). rewrite Hs.
  assert (Zlen ds = Zlen (c_queue c)) as -> by (unfold Zlen; f_equal; by eapply Forall2_length).
  unfold wrap32. rewrite Z.mod_small by lia.
  destruct (Z.ltb_spec 0 (Zlen m)); [|lia]. destruct (Z.leb_spec (Zlen m) (c_biggest c)); [|lia]. done.
Qed.

Lemma itsLinks_notify s t : itsLinks (notifyGive s t) = itsLinks s.
Proof. by destruct t. Qed.
Lemma heap_notify s t : heap (notifyGive s t) = heap s.
Proof. by destruct t. Qed.

(** A link after [linkEnqueue] of a block that is message [m]. *)
Lemma enqueue_implements s me h li c p m :
  implements s li c -> admits c m = true -> 0 < p < 2 ^ 32 -> heap s !! p = Some m ->
  implements (linkEnqueue s me h li p (Zlen m)) li (push c m).
Proof.
  intros (Hc & ds & D & F & H2) Ha Hp Hm. split; [by apply push_ok|].
  assert (0 < Zlen m /\ Zlen m <= c_biggest c) as [M1 M2] by (unfold admits in Ha; lia).
  rewrite <- (admits_can s li c m ds Hc D H2 M1 M2) in Ha. destruct (link_can_room _ _ _ Ha) as (L' & r' & HL' & ER' & Hr).
  destruct D as (L & r & HL & ER & B & Ho & Hcap & Hmx & Hs). rewrite HL in HL'. injection HL' as <-. rewrite ER in ER'. injection ER' as <-.
  destruct (ring_push r (Zlen m, p) Hr) as [B' C']. destruct Hc as (K1 & K2 & K3 & K4 & K5).
  exists (ds ++ [(Zlen m, p)]). unfold linkEnqueue. rewrite heap_notify. split_and!.
  - unfold link_descs. rewrite itsLinks_notify, (upd_link_lookup _ _ _ _ HL). cbn [ring link_set_out]. rewrite ER. eexists _, _. split_and!; [done..| | |done|done|].
    + rewrite flat_map_app. cbn [flat_map]. rewrite app_nil_r, <- B. exact B'.
    + cbn [outstanding link_ring link_set_out push with_queue c_queue]. rewrite Ho, total_app. unfold total at 3. cbn [foldr].
      unfold wrap32. rewrite Z.mod_small; [lia|]. pose proof (total_nonneg (c_queue c)).
      destruct (link_can s li (Zlen m)) eqn:E; [|done]. lia.
    + cbn [push with_queue c_slots]. rewrite <- Hs, <- C'. done.
  - apply Forall_app. split; [done|]. constructor; [|done]. split; cbn [fst snd]; lia.
  - cbn [upd_link with_links heap push with_queue c_queue]. apply Forall2_app; [done|]. constructor; [|done]. exists m. split; [done|].
    pose proof (mem_slice_mid [] m [] 0 (Zlen m) eq_refl eq_refl) as E. cbn [app] in E. by rewrite app_nil_r in E.
Qed.

Lemma flat_map_map_snd (dss : list (list blk)) : map snd (concat dss) = flat_map (map snd) dss.
Proof. induction dss as [|d l IH]; [done|]. cbn. by rewrite map_app, IH. Qed.

(** A link after [linkPop] and the release of the block. *)
Lemma pop_implements hm hb ob s me h li c m q s' d :
  inv hm hb ob s -> implements s li c -> c_queue c = m :: q -> linkPop s me h li = (s', d) ->
  exists p, d = Some (Zlen m, p) /\ block_read s' p (Zlen m) = Some m /\ inv hm ((Zlen m, p) :: hb) ob s' /\
    implements (payDrop s' p (Zlen m)) li (pop c) /\
    forall li' c', li' <> li -> implements s li' c' -> implements (payDrop s' p (Zlen m)) li' c'.
Proof.
  intros I (Hc & ds & D & F & H2) Eq. rewrite Eq in H2. inversion H2 as [|b ? ds' ? Hb H2' E1 E2]; subst ds. clear H2.
  destruct (inv_dss _ _ _ _ I) as (dss & ND & Hdss). pose proof (Hdss _ _ _ D F) as Hd. apply Forall_cons in F as [Fb F].
  pose proof (blk_is_len _ _ _ (proj1 (proj1 Fb)) Hb) as Lm. pose proof D as (L & r & HL & ER & B & Ho & Hcap & Hmx & Hs).
  destruct (ring_pop r b ds' Fb B) as (r' & dd & E & B' & C' & Ld & El & Ep). intros EP.
  assert (desc_avail s li = true) as Ha.
  { unfold desc_avail. rewrite HL, ER, sb_available, B, descs_length, Zlen_cons. pose proof (Zlen_nonneg ds'). unfold DESC_SIZE. lia. }
  destruct (linkPop_ok _ _ _ _ _ _ _ _ _ I Ha EP) as (len & p & -> & I').
  unfold linkPop in EP. rewrite HL, ER, E, Ld in EP. cbn [Z.eqb DESC_SIZE] in EP. injection EP as <- <- <-. rewrite El, Ep in *. rewrite Lm in *.
  set (s1 := linkWakeSender _ _ _ _) in *.
  assert (heap s1 = heap s) as Eh by (unfold s1, linkWakeSender; by rewrite heap_notify).
  assert (itsLinks s1 !! li = Some (link_set_sem (sem_give (l_spaceFreedSem L)) (link_set_out (wrap32 (outstanding L - b.1)) (link_ring r' L)))) as El1.
  { unfold s1, linkWakeSender. rewrite itsLinks_notify, !upd_link_twice. rewrite (upd_link_lookup _ _ _ _ HL). by rewrite <- El. }
  assert (itsLinks (payDrop s1 b.2 b.1) = itsLinks s1) as El2 by exact (links_drop_list [b] s1).
  assert (heap (payDrop s1 b.2 b.1) = delete b.2 (heap s)) as Eh2.
  { rewrite <- Eh. by rewrite (payDrop_live s1 b (inv_live _ _ _ _ _ I')). }
  exists b.2. split_and!; [done| |done| |].
  - destruct Hb as (dm & Hdm & Hs'). unfold block_read. rewrite Eh, Hdm. exact Hs'.
  - split; [by apply pop_ok|]. exists ds'. split_and!; [|done|].
    + eexists _, r'. rewrite El2, El1. split_and!; [done..| |done|done|by rewrite C'].
      cbn [outstanding link_set_sem link_set_out pop with_queue c_queue]. rewrite Ho, Eq. cbn [tail]. destruct Hc as (K1 & K2 & K3 & K4 & _).
      rewrite Eq in K4. pose proof (total_nonneg q). pose proof (blk_is_len _ _ _ (proj1 (proj1 Fb)) Hb). unfold total in *. cbn [foldr] in *. pose proof (Zlen_nonneg m). unfold wrap32. rewrite Z.mod_small; lia.
    + rewrite Eh2. cbn [pop with_queue c_queue]. rewrite Eq. cbn [tail]. eapply Forall2_mono_in; [|exact H2']. intros b' m' Hin. apply blk_is_delete.
      intros Eb. rewrite (concat_split _ _ _ Hd) in ND. cbn [map app] in ND. apply NoDup_cons in ND as [ND _]. apply ND. rewrite <- Eb, map_app.
      apply elem_of_app. left. apply list_elem_of_fmap. by exists b'.
  - intros li' c' Hne. apply implements_frame.
    + intros L' HL'. exists L'. rewrite El2. split; [|done]. unfold s1, linkWakeSender. rewrite itsLinks_notify, !upd_link_twice. unfold upd_link.
      cbn [itsLinks with_links]. by rewrite list_lookup_alter_ne.
    + intros ds2 D2 F2 b' m' Hin. rewrite Eh2. apply blk_is_delete. intros Eb.
      apply (row_apart (map snd) dss li li' (b :: ds') ds2 b.2); [by rewrite <- flat_map_map_snd|done|by eapply Hdss|done| |].
      * by left.
      * rewrite <- Eb. apply list_elem_of_fmap. by exists b'.
Qed.

Lemma sendLink_packet s me h li : sendLink s me h = Some li -> exists c, conn s h = Some c /\ kind c = ITS_PACKET.
Proof. unfold sendLink. destruct (conn s h) as [c|]; [|done]. destruct (bool_decide_reflect (kind c = ITS_PACKET)); [eauto|done]. Qed.

Lemma recvLink_packet s me h li : recvLink s me h = Some li -> exists c, conn s h = Some c /\ kind c = ITS_PACKET.
Proof. unfold recvLink. destruct (conn s h) as [c|]; [|done]. destruct (bool_decide_reflect (kind c = ITS_PACKET)); [eauto|done]. Qed.

Context (malloc : gmap Z bytes -> Z -> Z) (room : its -> its) (app : Z -> Z -> call -> its -> its * Z).

Lemma payAlloc_frame s data p :
  malloc_fresh malloc -> payAlloc malloc s data = (with_pay s (<[p := data]> (heap s)) (ctrAdd (payCtr s) (Zlen data)), p) -> heap s !! p = None ->
  forall li c, implements s li c -> implements (payAlloc malloc s data).1 li c.
Proof.
  intros HM E Hp li c. rewrite E. apply implements_frame; [intros L HL; exists L; done|]. intros ds _ _ b m _. by apply blk_is_insert.
Qed.

Lemma enqueue_frame s me h li p n li' c : li' <> li -> implements s li' c -> implements (linkEnqueue s me h li p n) li' c.
Proof.
  intros Hne. unfold linkEnqueue. apply implements_frame.
  - intros L HL. exists L. split; [|done]. rewrite itsLinks_notify. unfold upd_link. cbn [itsLinks with_links]. by rewrite list_lookup_alter_ne.
  - intros ds _ _ b m _. by rewrite heap_notify.
Qed.

(** C6: on a packet connection [itsSend] refines the push of a bounded fifo: a message
    the contract admits is queued whole, behind the others, and its length returned
    (there being memory for the copy); one it does not admit is refused by a send that
    may not wait, with nothing changed. Every other link keeps its messages. *)
Theorem itsSend_refines ob s me h li c data ws now timeout s' r :
  malloc_fresh malloc -> reach malloc room app ob s -> sendLink s me h = Some li -> implements s li c ->
  itsSend malloc ws s me h data now timeout = (s', r) ->
  (admits c data = true -> malloc (heap s) (Zlen data) <> 0 ->
     r = Some (Zlen data) /\ implements s' li (push c data) /\ forall li' c', li' <> li -> implements s li' c' -> implements s' li' c') /\
  (admits c data = false -> timeout = 0 -> r = Some 0 /\ s' = s).
Proof.
  intros HM R HL HI. pose proof HI as (Hc & ds & D & F & H2). destruct (sendLink_packet _ _ _ _ HL) as (cn & Hcn & Hk).
  unfold itsSend. rewrite Hcn, bool_decide_true, HL by done. unfold itsSendPacket. cbn [src_len].
  pose proof D as (L & r0 & EL & _ & _ & _ & _ & Hmx & _). rewrite EL, Hmx. pose proof (Zlen_nonneg data) as Hn.
  destruct (Z.eqb_spec (Zlen data) 0) as [Hz|Hz]; cbn [orb].
  { intros [= <- <-]. split; [|done]. unfold admits. rewrite Hz. done. }
  destruct (Z.ltb_spec (c_biggest c) (Zlen data)) as [Hb|Hb].
  { intros [= <- <-]. split; [|done]. intros Ha. unfold admits in Ha. lia. }
  unfold linkWaitForSpace. rewrite (admits_can _ _ _ _ _ Hc D H2) by lia. intros E. split.
  - intros Ha Hp. rewrite Ha in E. destruct (HM (heap s) (Zlen data)) as [Hf Hr]; [lia|done|]. set (p := malloc (heap s) (Zlen data)) in *.
    assert (payAlloc malloc s data = (with_pay s (<[p := data]> (heap s)) (ctrAdd (payCtr s) (Zlen data)), p)) as EA.
    { unfold payAlloc. fold p. destruct (Z.eqb_spec (Zlen data) 0); [done|]. by destruct (Z.eqb_spec p 0). }
    pose proof (payAlloc_frame s data p HM EA Hf) as FR. rewrite EA in E, FR. cbn [fst] in FR. destruct (Z.eqb_spec p 0); [done|].
    injection E as <- <-. split; [done|]. split; [apply enqueue_implements; [by apply FR|done..|apply lookup_insert_eq]|].
    intros li' c' Hne Hi. by apply enqueue_frame, FR.
  - intros Ha ->. rewrite Ha in E. by injection E as <- <-.
Qed.

(** C22: on a packet connection [itsRecv] refines the pop of the fifo: it returns the
    oldest message whole (or nothing, when it does not fit the caller's buffer: it is
    then dropped whole) and leaves the rest; every other link keeps its messages. From
    an empty queue a receive that may not wait returns nothing, with nothing changed. *)
Theorem itsRecv_refines ob s me h li c mx ws now timeout s' r :
  malloc_fresh malloc -> reach malloc room app ob s -> recvLink s me h = Some li -> implements s li c ->
  itsRecv ws s me h mx now timeout = (s', r) ->
  match c_queue c with
  | m :: _ => r = Some (if mx <? Zlen m then [] else m) /\ implements s' li (pop c) /\
              forall li' c', li' <> li -> implements s li' c' -> implements s' li' c'
  | [] => timeout = 0 -> r = Some [] /\ s' = s
  end.
Proof.
  intros HM R HL HI. pose proof (reach_inv _ _ _ _ _ HM R) as I. pose proof HI as (Hc & ds & (L & r0 & EL & ER & B & _) & F & H2).
  destruct (recvLink_packet _ _ _ _ HL) as (cn & Hcn & Hk). unfold itsRecv. rewrite Hcn, bool_decide_true, HL by done. unfold linkDequeue.
  assert (desc_avail s li = (0 <? Zlen (c_queue c))) as Ha.
  { unfold desc_avail. rewrite EL, ER, sb_available, B, descs_length. assert (Zlen ds = Zlen (c_queue c)) as -> by (unfold Zlen; f_equal; by eapply Forall2_length).
    unfold DESC_SIZE. pose proof (Zlen_nonneg (c_queue c)). lia. }
  destruct (c_queue c) as [|m q] eqn:Eq.
  - intros E ->. destruct ws; cbn [dequeueWait] in E; rewrite Ha in E; by injection E as <- <-.
  - assert (dequeueWait ws s h li timeout now timeout = (s, Some true)) as ->.
    { rewrite Zlen_cons in Ha. pose proof (Zlen_nonneg q). destruct (Z.ltb_spec 0 (1 + Zlen q)); [|lia]. destruct ws; cbn [dequeueWait]; by rewrite Ha. }
    destruct (linkPop s me h li) as [s1 d] eqn:EP. destruct (pop_implements _ _ _ _ _ _ _ _ _ _ _ _ I HI Eq EP) as (p & -> & HR & _ & HP & HF).
    rewrite HR. destruct (mx <? Zlen m); intros [= <- <-]; done.
Qed.

End Packet.

(** ** Framed packets on a stream link *)

Import Data Tables Flow Server.

Definition frame (m : bytes) : bytes := frameHdr (Zlen m) ++ m.
Definition frames (ms : list bytes) : bytes := flat_map frame ms.
Definition frame_ok (m : bytes) : Prop := 0 < Zlen m <= 0xFFFFFF.

Lemma lor_shift_add x y n : 0 <= n -> 0 <= y < 2 ^ n -> Z.lor (Z.shiftl x n) y = x * 2 ^ n + y.
Proof.
  intros Hn Hy. rewrite <- Z.lxor_lor; [rewrite <- Z.add_nocarry_lxor|].
  1: by rewrite Z.shiftl_mul_pow2 by lia.
  all: apply Z.bits_inj'; intros k Hk; rewrite Z.land_spec, Z.bits_0; destruct (Z.ltb_spec k n); [by rewrite Z.shiftl_spec_low by lia|].
  all: replace y with (y mod 2 ^ n) by (apply Z.mod_small; lia); rewrite Z.mod_pow2_bits_high by lia; apply andb_false_r.
Qed.

Lemma land_ff x : Z.land x 0xFF = x mod 256.
Proof. change 0xFF with (Z.ones 8). by rewrite Z.land_ones. Qed.

(** The length read back from the header. *)
Lemma frameHdr_decode n : 0 <= n <= 0xFFFFFF ->
  Z.lor (Z.lor (Z.shiftl (Z.land (Z.shiftr n 16) 0xFF) 16) (Z.shiftl (Z.land (Z.shiftr n 8) 0xFF) 8)) (Z.land n 0xFF) = n.
Proof.
  intros Hn. rewrite !land_ff, !Z.shiftr_div_pow2 by lia. change (2 ^ 16) with 65536. change (2 ^ 8) with 256.
  set (a := (n / 65536) mod 256). set (b := (n / 256) mod 256). set (c := n mod 256).
  assert (0 <= a < 256 /\ 0 <= b < 256 /\ 0 <= c < 256) as (Ha & Hb & Hc) by (unfold a, b, c; split_and!; apply Z.mod_pos_bound; lia).
  rewrite (Z.shiftl_mul_pow2 b) by lia. rewrite (lor_shift_add a) by (change (2 ^ 16) with 65536; change (2 ^ 8) with 256; lia).
  replace (a * 2 ^ 16 + b * 2 ^ 8) with (Z.shiftl (a * 256 + b) 8) by (rewrite Z.shiftl_mul_pow2 by lia; lia).
  rewrite lor_shift_add by (change (2 ^ 8) with 256; lia). change (2 ^ 8) with 256. unfold a, b, c.
  pose proof (Z.div_mod n 256 ltac:(lia)). pose proof (Z.div_mod (n / 256) 256 ltac:(lia)).
  rewrite Z.div_div in * by lia. change (256 * 256) with 65536 in *. rewrite (Z.mod_small (n / 65536)); [lia|].
  split; [apply Z.div_pos; lia|]. apply Z.div_lt_upper_bound; lia.
Qed.

Section Stream.
Context {SB Q : Type} {SBI : StreamBuf SB} {SBL : StreamBufLaws SB} {RQI : RtosQueue Q its_msg}.
#[local] Abbreviation its := (its (SB := SB) (Q := Q)).
Implicit Types (s : its).

(** Slot [i] holds the bytes [d]; its buffer is unchanged otherwise. *)
Definition slot_bytes s (i : nat) (d : bytes) (cap : Z) : Prop :=
  exists b, buf_of s i = Some b /\ sb_bytes b = d /\ sb_cap b = cap.

Lemma buf_of_set s i b b' : buf_of s i = Some b -> buf_of (upd_pool s i (pool_set_buf b')) i = Some b'.
Proof.
  unfold buf_of, upd_pool. cbn [itsPool with_pool]. rewrite list_lookup_alter_eq. by destruct (itsPool s !! i).
Qed.

Lemma pool_send_bytes s i d cap x : slot_bytes s i d cap -> Zlen d + Zlen x <= cap ->
  exists s', pool_send s i x = (s', Zlen x) /\ slot_bytes s' i (d ++ x) cap.
Proof.
  intros (b & Hb & Hd & Hc) Hr. unfold pool_send. rewrite Hb. destruct (sb_send_spec b x) as (E1 & E2 & E3).
  destruct (xStreamBufferSend b x) as [b' n]. cbn [fst snd] in *. subst d cap.
  assert (Z.min (Zlen x) (sb_cap b - Zlen (sb_bytes b)) = Zlen x) as E by lia. rewrite E in *. rewrite <- E1. eexists. split; [done|].
  exists b'. split_and!; [by eapply buf_of_set| |done]. rewrite E2. f_equal. apply take_ge. unfold Zlen. lia.
Qed.

Lemma pool_receive_bytes s i x d cap : slot_bytes s i (x ++ d) cap ->
  exists s', pool_receive s i (Zlen x) = (s', x) /\ slot_bytes s' i d cap.
Proof.
  intros (b & Hb & Hd & Hc). unfold pool_receive. rewrite Hb. destruct (sb_receive_spec b (Zlen x)) as (E1 & E2 & E3); [apply Zlen_nonneg|].
  destruct (xStreamBufferReceive b (Zlen x)) as [b' r]. cbn [fst snd] in *. rewrite Hd in *.
  assert (Z.to_nat (Zlen x) = length x) as En by (unfold Zlen; lia). rewrite En in *. rewrite take_app_length in E1. rewrite drop_app_length in E2. subst r.
  eexists. split; [done|]. exists b'. split_and!; [by eapply buf_of_set|done|congruence].
Qed.

(** An oversized body is skipped exactly. *)
Lemma dropBody_bytes x fuel s i d cap : slot_bytes s i (x ++ d) cap -> (length x <= fuel)%nat -> slot_bytes (dropBody fuel s i (Zlen x)) i d cap.
Proof.
  revert x s. induction fuel as [|f IH]; intros x s H Hf; cbn [dropBody].
  { destruct x; [done|cbn in Hf; lia]. }
  destruct (Z.leb_spec (Zlen x) 0) as [H0|H0]. { destruct x; [done|]. rewrite Zlen_cons in H0. pose proof (Zlen_nonneg x). lia. }
  set (n := if 64 <? Zlen x then 64 else Zlen x). assert (0 < n <= Zlen x) as Hn by (unfold n; destruct (Z.ltb_spec 64 (Zlen x)); lia).
  set (y := take (Z.to_nat n) x). assert (Zlen y = n) as Hy by (unfold y; zlia).
  assert (x = y ++ drop (Z.to_nat n) x) as Ex by (symmetry; apply take_drop). rewrite Ex, <- app_assoc in H.
  destruct (pool_receive_bytes _ _ _ _ _ H) as (s' & E & H'). rewrite Hy in E. rewrite E, Hy. destruct (Z.eqb_spec n 0); [lia|].
  replace (Zlen x - n) with (Zlen (drop (Z.to_nat n) x)) by zlia. apply IH; [done|]. rewrite length_drop. lia.
Qed.

Lemma slot_bytes_wake s me h i i' d cap : slot_bytes s i d cap -> slot_bytes (wakeSenderIfReady s me h i') i d cap.
Proof.
  intros (b & Hb & Hd). exists b. split; [|done]. unfold wakeSenderIfReady. destruct (itsPool s !! i') as [e|]; [|done]. destruct (_ =? 0); [done|].
  destruct (negb _); [done|]. unfold buf_of in *. destruct (remoteOf _ _ _); cbn [notifyGive itsPool]; unfold upd_pool; cbn [itsPool with_pool];
    (destruct (decide (i' = i)) as [->|]; [rewrite list_lookup_alter_eq; by destruct (itsPool s !! i)|by rewrite list_lookup_alter_ne]).
Qed.

Lemma recvFrame_bytes s me h i m ms mx cap :
  slot_bytes s i (frames (m :: ms)) cap -> frame_ok m ->
  exists s', recvFrame s me h i mx = (s', if mx <? Zlen m then [] else m) /\ slot_bytes s' i (frames ms) cap.
Proof.
  intros H Hm. unfold recvFrame. cbn [frames flat_map] in H. unfold frame in H at 1. rewrite <- app_assoc in H.
  destruct (pool_receive_bytes _ _ _ _ _ H) as (s1 & E1 & H1). change (Zlen (frameHdr (Zlen m))) with 4 in E1. rewrite E1. unfold frameHdr.
  rewrite frameHdr_decode by (unfold frame_ok in Hm; lia). destruct (mx <? Zlen m).
  - eexists. split; [done|]. apply slot_bytes_wake, dropBody_bytes; [exact H1|]. unfold Zlen. lia.
  - destruct (pool_receive_bytes _ _ _ _ _ H1) as (s2 & E2 & H2). rewrite E2. eexists. split; [done|]. by apply slot_bytes_wake.
Qed.

Lemma frames_len ms : Zlen (frames ms) = foldr (fun m n => 4 + Zlen m + n) 0 ms.
Proof. unfold frames. induction ms as [|m ms IH]; [done|]. cbn [flat_map foldr]. rewrite Zlen_app, IH. unfold frame. rewrite Zlen_app. change (Zlen (frameHdr (Zlen m))) with 4. lia. Qed.

Lemma frames_app ms m : frames (ms ++ [m]) = (frames ms ++ frameHdr (Zlen m)) ++ m.
Proof. unfold frames. rewrite flat_map_app. cbn [flat_map]. unfold frame. by rewrite app_nil_r, app_assoc. Qed.

Lemma bufWithPool_buf s idx i b : bufWithPool s idx = Some (i, b) -> buf_of s i = Some b.
Proof.
  unfold bufWithPool, poolHandle, pool_at, buf_of. destruct (in_table _ _); [|done]. destruct (itsPool s !! Z.to_nat idx) as [e|] eqn:E; [|done].
  cbn [mbind option_bind]. destruct (p_handle e) eqn:Eh; [|done]. intros [= <- <-]. rewrite E. done.
Qed.

Lemma sendLink_none s me h c : conn s h = Some c -> kind c <> ITS_PACKET -> sendLink s me h = None.
Proof. intros Hc Hk. unfold sendLink. rewrite Hc. by rewrite bool_decide_false. Qed.

(** The guards of the code, and the room. *)
Definition frame_fits (e : its_pool_entry (SB := SB)) (ms : list bytes) (cap : Z) (m : bytes) : Prop :=
  frame_ok m /\ 4 + Zlen m <= p_size e /\ Zlen (frames ms) + 4 + Zlen m <= cap.

Section Framed.
Context (malloc : gmap Z bytes -> Z -> Z) (s : its) (me h : Z) (c : its_conn) (i : nat) (cap : Z) (ms : list bytes).
Hypothesis Hc : conn s h = Some c.
Hypothesis Hk : kind c <> ITS_PACKET.
Hypothesis Hp : packetBased c = true.
Hypothesis Hms : Forall frame_ok ms.
Hypothesis Hs : slot_bytes s i (frames ms) cap.

(** On a legacy packet port a send writes a whole frame, behind the others, when it
    fits the free space and the code's size guards; otherwise a send that may not wait
    writes nothing. *)
Theorem itsSend_framed e b data ws now timeout s' r :
  sendBufWithPool s me h = Some (i, b) -> itsPool s !! i = Some e -> itsSend malloc ws s me h data now timeout = (s', r) ->
  (frame_fits e ms cap data -> r = Some (Zlen data) /\ slot_bytes s' i (frames (ms ++ [data])) cap) /\
  (~ frame_fits e ms cap data -> timeout = 0 -> r = Some 0 /\ s' = s).
Proof.
  intros Hb He. pose proof (bufWithPool_buf _ _ _ _ Hb) as Hbuf. pose proof Hs as (b' & Hb' & Ebytes & Ecap). rewrite Hbuf in Hb'. injection Hb' as <-.
  unfold itsSend. rewrite Hc, bool_decide_false, Hb, Hp by done. unfold sendFrame. rewrite He. pose proof (Zlen_nonneg data) as Hn.
  destruct ((Zlen data =? 0) || (0xFFFFFF <? Zlen data)) eqn:E1.
  { intros E. injection E as <- <-. split; [|done]. intros ([F1 F2] & _). lia. }
  destruct (Z.ltb_spec (p_size e) (4 + Zlen data)) as [H2|H2].
  { intros E. injection E as <- <-. split; [|done]. intros (_ & F & _). lia. }
  unfold itsWaitForSpace. destruct (Z.eqb_spec (4 + Zlen data) 0); [lia|]. rewrite (sendLink_none _ me _ _ Hc Hk), Hb, sb_spaces, Ebytes, Ecap.
  destruct (Z.leb_spec (4 + Zlen data) (cap - Zlen (frames ms))) as [H3|H3]; intros E.
  - split; [|intros Hf; exfalso; apply Hf; unfold frame_fits, frame_ok; lia]. intros _.
    destruct (pool_send_bytes _ _ _ _ (frameHdr (Zlen data)) Hs) as (s1 & P1 & S1); [change (Zlen (frameHdr (Zlen data))) with 4; lia|].
    rewrite P1 in E. change (Zlen (frameHdr (Zlen data)) =? 4) with true in E. cbn [negb] in E.
    destruct (pool_send_bytes _ _ _ _ data S1) as (s2 & P2 & S2); [rewrite Zlen_app; change (Zlen (frameHdr (Zlen data))) with 4; lia|].
    rewrite P2, Z.eqb_refl in E. cbn [negb] in E. injection E as <- <-. split; [done|]. rewrite frames_app.
    destruct (remoteOf s2 me h); exact S2.
  - split; [intros (_ & _ & F); lia|]. intros _ ->. by injection E as <- <-.
Qed.

(** On a legacy packet port a receive takes the oldest frame: it returns the body
    whole, or drops it whole when the caller's buffer is too small, and the next frame is
    then at the head. With no frame there a receive that may not wait changes nothing. *)
Theorem itsRecv_framed b mx ws now timeout s' r :
  recvBufWithPool s me h = Some (i, b) -> itsRecv ws s me h mx now timeout = (s', r) ->
  match ms with
  | m :: ms' => r = Some (if mx <? Zlen m then [] else m) /\ slot_bytes s' i (frames ms') cap
  | [] => timeout = 0 -> r = Some [] /\ s' = s
  end.
Proof.
  intros Hb. unfold itsRecv. rewrite Hc, bool_decide_false, Hb, Hp by done. pose proof Hs as (b' & Hb' & Ebytes & Ecap).
  assert (buf_over4 s i = (4 <? Zlen (frames ms))) as Ho by (unfold buf_over4; by rewrite Hb', sb_available, Ebytes).
  destruct ms as [|m ms'] eqn:Em.
  - intros E ->. destruct ws; cbn [recvWait] in E; rewrite Ho in E; by injection E as <- <-.
  - apply Forall_cons in Hms as [Hm _]. assert (recvWait ws s i timeout now timeout = (s, Some true)) as ->.
    { assert (buf_over4 s i = true) as Ht; [|destruct ws; cbn [recvWait]; by rewrite Ht]. rewrite Ho, frames_len. cbn [foldr]. rewrite <- frames_len.
      pose proof (Zlen_nonneg (frames ms')). unfold frame_ok in Hm. lia. }
    destruct (recvFrame_bytes _ me h _ _ _ mx _ Hs Hm) as (s1 & E1 & S1). rewrite E1. intros [= <- <-]. done.
Qed.

End Framed.
End Stream.
