(* ===== verification/ItsConn.v ===== *)
(** * its: an abandoned connect leaves no connection

    A client that gives up sends CONNECT_CANCEL with the nonce of its CONNECT, behind it
    in the server's inbox: when the server has dispatched both, no connection with that
    nonce is left. *)

From stdpp Require Import gmap.
From S2P Require Import Prelude CLib Rtos Its ItsFlow ItsServer ItsInv.
Import Data Tables Flow Server.
Open Scope Z_scope.
Open Scope spangap_scope.

Section Conn.
Context {SB Q : Type} {SBI : StreamBuf SB} {RQI : RtosQueue Q its_msg}.
#[local] Abbreviation its := (its (SB := SB) (Q := Q)).
Implicit Types (s : its).

(** ** What the connection table sees *)

Lemma conns_payDrop s p n : connTable (payDrop s p n) = connTable s.
Proof. unfold payDrop, mem_free. destruct (p =? 0); [done|]. by destruct (is_some _). Qed.

Lemma conns_linkDrainLoop n s idx : connTable (linkDrainLoop n s idx) = connTable s.
Proof.
  revert s. induction n as [|n IH]; intros s; cbn [linkDrainLoop]; [done|]. destruct (linkAt s idx ≫= ring) as [r|]; [|done].
  destruct (_ <=? _); [|done]. destruct (xStreamBufferReceive r DESC_SIZE) as [r' d]. destruct (_ =? _); [|done]. rewrite IH. by rewrite conns_payDrop.
Qed.

Lemma conns_linkFree s idx : connTable (linkFree s idx) = connTable s.
Proof.
  unfold linkFree. destruct (in_table _ _); [|done]. cbn [upd_link with_links connTable]. unfold linkDrain. destruct (linkAt s idx ≫= ring); [|done].
  cbn [upd_link with_links connTable]. apply conns_linkDrainLoop.
Qed.

Lemma conns_poolFree s idx : connTable (poolFree s idx) = connTable s.
Proof. unfold poolFree. by destruct (in_table _ _). Qed.

Lemma conns_connFree s h c : conn_at s h = Some c -> connTable (connFree s h) = <[Z.to_nat h := conn0]> (connTable s).
Proof. intros H. unfold connFree. rewrite H. by rewrite !conns_linkFree, !conns_poolFree. Qed.

Lemma conns_ack s ci h n : connTable (ack s ci h n) = connTable s.
Proof. by destruct ci. Qed.

Lemma conns_poolGet s n np av : connTable (poolGet s n np av).1 = connTable s.
Proof.
  unfold poolGet. destruct (n =? 0); [done|]. destruct (if np then None else _); [done|]. destruct (find_idx _ _); [done|]. by destruct (_ <=? _).
Qed.

Lemma conns_linkAcquire s d cap mx av : connTable (linkAcquire s d cap mx av).1 = connTable s.
Proof.
  unfold linkAcquire. destruct (find_idx _ _); [done|]. destruct (find_idx _ _); [done|]. by destruct (_ <=? _).
Qed.

(** Two tables that differ at most at handle [h]. *)
Definition same_but (h : Z) (t t' : list its_conn) : Prop := forall j, j <> Z.to_nat h -> t' !! j = t !! j.

Lemma same_but_refl h t : same_but h t t.
Proof. done. Qed.
Lemma same_but_trans h t1 t2 t3 : same_but h t1 t2 -> same_but h t2 t3 -> same_but h t1 t3.
Proof. intros H1 H2 j Hj. by rewrite H2, H1. Qed.
Lemma same_but_eq h t s s' : connTable s' = connTable s -> same_but h t (connTable s) -> same_but h t (connTable s').
Proof. by intros ->. Qed.
Lemma same_but_upd h t s f : same_but h t (connTable s) -> same_but h t (connTable (upd_conn s h f)).
Proof. intros H j Hj. unfold upd_conn. cbn [connTable with_conns]. rewrite list_lookup_alter_ne by done. by apply H. Qed.
Lemma same_but_free h t s : same_but h t (connTable s) -> same_but h t (connTable (connFree s h)).
Proof.
  intros H. destruct (conn_at s h) as [c|] eqn:E; [|unfold connFree; by rewrite E]. rewrite (conns_connFree _ _ _ E).
  intros j Hj. rewrite list_lookup_insert_ne by done. by apply H.
Qed.

Lemma same_but_acquire h t s sp np a1 a2 : same_but h t (connTable s) -> same_but h t (connTable (acquireBufs s h sp np a1 a2).1).
Proof.
  intros H. unfold acquireBufs. destruct (bool_decide _).
  - assert (same_but h t (connTable (if 0 <? toSize sp then linkAcquire s (sp_depth sp) (toSize sp) (sp_maxMsg sp) a1 else (s, -1)).1)) as H1
      by (destruct (0 <? toSize sp); [by rewrite conns_linkAcquire|done]).
    destruct (if 0 <? toSize sp then _ else _) as [s1 tl]. cbn [fst] in H1. pose proof (same_but_upd h t s1 (conn_set_bufs (-1) (-1) tl (-1)) H1) as H2.
    destruct (_ && _); [done|]. destruct (0 <? fromSize sp); [|done].
    pose proof (conns_linkAcquire (upd_conn s1 h (conn_set_bufs (-1) (-1) tl (-1))) (sp_depth sp) (fromSize sp) (sp_maxMsg sp) a2) as E.
    destruct (linkAcquire _ _ _ _ a2) as [s3 fl]. cbn [fst] in *. apply same_but_upd. by rewrite E.
  - assert (same_but h t (connTable (if 0 <? toSize sp then poolGet s (toSize sp) np a1 else (s, -1)).1)) as H1
      by (destruct (0 <? toSize sp); [by rewrite conns_poolGet|done]).
    destruct (if 0 <? toSize sp then _ else _) as [s1 tp]. cbn [fst] in H1. pose proof (same_but_upd h t s1 (conn_set_bufs tp (-1) (-1) (-1)) H1) as H2.
    assert (same_but h t (connTable (if 0 <? fromSize sp then poolGet (upd_conn s1 h (conn_set_bufs tp (-1) (-1) (-1))) (fromSize sp) np a2
              else (upd_conn s1 h (conn_set_bufs tp (-1) (-1) (-1)), -1)).1)) as H3
      by (destruct (0 <? fromSize sp); [by rewrite conns_poolGet|done]).
    destruct (if 0 <? fromSize sp then _ else _) as [s3 fp]. by apply same_but_upd.
Qed.

(** ** Connect, then cancel *)

Lemma connAlloc_table s s' h : connAlloc s = (s', h) -> same_but h (connTable s) (connTable s').
Proof.
  unfold connAlloc. destruct (connAllocLoop _ s 0) as [idx|]; intros [= <- <-]; [|done]. intros j Hj. cbn [connTable with_conns].
  by rewrite list_lookup_insert_ne.
Qed.

Lemma conns_finish s ti m : connTable (finishMsg s ti m) = connTable s.
Proof.
  unfold finishMsg, msgFree. set (s1 := upd_task _ ti _). change (connTable (payDrop s1 (m_payload m) (m_len m)) = connTable s).
  rewrite conns_payDrop. unfold s1. cbn [upd_task with_tasks connTable]. destruct (m_pickup m); [|done]. by destruct (taskFind _ _).
Qed.

Lemma find_idx_None {A} (p : A -> bool) l i x : find_idx p l = None -> l !! i = Some x -> p x = false.
Proof.
  revert i. induction l as [|y l IH]; intros i; cbn [find_idx]; [by rewrite lookup_nil|]. destruct (p y) eqn:E; [done|].
  intros H%fmap_None. destruct i as [|i]; cbn; [by intros [= <-]|by apply IH].
Qed.

(** The server [srv] and the message of the client that gave up. *)
Context (srv : Z) (cancel : its_msg).

(** No connection of the server with that client and nonce, or at most the one with
    handle [h]. *)
Definition no_orphan s : Prop := forall i c, connTable s !! i = Some c -> is_orphan srv cancel c = false.
Definition only (h : Z) (t : list its_conn) : Prop := forall i c, t !! i = Some c -> is_orphan srv cancel c = true -> i = Z.to_nat h.

Lemma only_none h s : no_orphan s -> only h (connTable s).
Proof. intros H i c Hc Ho. rewrite (H i c Hc) in Ho. done. Qed.

Lemma only_same h t t' : only h t -> same_but h t t' -> only h t'.
Proof. intros H S i c Hc Ho. destruct (decide (i = Z.to_nat h)); [done|]. rewrite S in Hc by done. by apply (H i c). Qed.

(** Callbacks may open, close and hand on connections; none makes one of the server with
    that client and nonce out of another. *)
Context (app : Z -> Z -> call -> its -> its * Z).
Definition makes_no_orphan : Prop := forall me cb c s i x, connTable (app me cb c s).1 !! i = Some x -> is_orphan srv cancel x = true ->
  exists y, connTable s !! i = Some y /\ is_orphan srv cancel y = true.
Hypothesis app_orphan : makes_no_orphan.

Lemma only_app h me cb c s : only h (connTable s) -> only h (connTable (app me cb c s).1).
Proof. intros H i x Hx Ho. destruct (app_orphan _ _ _ _ _ _ Hx Ho) as (y & Hy & Oy). by apply (H i y). Qed.

Lemma none_app me cb c s : no_orphan s -> no_orphan (app me cb c s).1.
Proof.
  intros H i x Hx. apply not_true_is_false. intros Ho. destruct (app_orphan _ _ _ _ _ _ Hx Ho) as (y & Hy & Oy).
  rewrite (H i y Hy) in Oy. done.
Qed.

Lemma only_accept h s me ti pi m a1 a2 : only h (connTable s) -> only h (connTable (acceptConn app s me ti pi h m a1 a2).1).
Proof.
  intros H. unfold acceptConn. destruct (port_at s ti pi) as [sp|]; [|done]. destruct (s_tasks s !! ti) as [e|]; [|done].
  set (s1 := upd_conn s h _). assert (same_but h (connTable s) (connTable s1)) as H1 by (by apply same_but_upd).
  pose proof (same_but_acquire h _ s1 sp (no_pool e) a1 a2 H1) as H2. destruct (acquireBufs s1 h sp (no_pool e) a1 a2) as [s2 ok]. cbn [fst] in H2.
  apply (only_same h _ _ H) in H2. clear H H1. destruct (negb ok); [apply (only_same h _ _ H2); by apply same_but_free|].
  destruct (onConnect sp) as [cb|]; [|done].
  pose proof (only_app h me cb (CConnect h (m_payload m) (m_len m)) s2 H2) as H3. destruct (app me cb _ s2) as [s3 r]. cbn [fst] in H3.
  destruct (0 <=? r); apply (only_same h _ _ H3); [by apply same_but_upd|by apply same_but_free].
Qed.

Lemma procConnect_only s me ti m a1 a2 : no_orphan s -> exists h, only h (connTable (procConnect app s me ti m a1 a2)).
Proof.
  intros H. unfold procConnect. destruct (portFind s ti (m_port m)) as [pi|]; [|exists 0; rewrite conns_ack; by apply only_none].
  destruct (match port_full s ti pi (m_port m) with true => _ | false => _ end) as [s1 full] eqn:E1.
  assert (no_orphan s1) as H1.
  { destruct (port_full s ti pi (m_port m)); [|by injection E1 as <- _]. destruct (_ ≫= onBusy) as [cb|]; [|by injection E1 as <- _].
    pose proof (none_app me cb (CBusy (m_payload m) (m_len m)) s H) as K. destruct (app me cb _ s). by injection E1 as <- _. }
  destruct (if negb full && _ then _ else _) as [s2 h] eqn:E2. exists h.
  assert (only h (connTable s2)) as H2.
  { apply (only_same h (connTable s1)); [by apply only_none|]. destruct (negb full && _); [by apply connAlloc_table|]. by injection E2 as <- _. }
  destruct (0 <=? h); [|by rewrite conns_ack]. pose proof (only_accept h s2 me ti pi m a1 a2 H2) as H3.
  destruct (acceptConn app s2 me ti pi h m a1 a2). by rewrite conns_ack.
Qed.

Lemma none_call_disconnect s me cb ref : no_orphan s -> no_orphan (call_disconnect app s me cb ref).
Proof. intros H. unfold call_disconnect. destruct cb; [|done]. destruct (0 <=? ref); [by apply none_app|done]. Qed.

Lemma procCancel_clears s ti h : only h (connTable s) -> no_orphan (procCancel app s srv ti cancel).
Proof.
  intros H. unfold procCancel. destruct (find_idx (is_orphan srv cancel) (connTable s)) as [i|] eqn:E.
  - destruct (find_idx_Some _ _ _ E) as (c & Hc & Ho). rewrite Hc. apply none_call_disconnect. intros j cj.
    pose proof (H i c Hc Ho) as Ei. assert (conn_at s (Z.of_nat i) = Some c) as Hat.
    { unfold conn_at, in_table. rewrite Nat2Z.id, Hc. apply lookup_lt_Some in Hc. unfold Zlen. destruct (Z.leb_spec 0 (Z.of_nat i)), (Z.ltb_spec (Z.of_nat i) (Z.of_nat (length (connTable s)))); try done; lia. }
    rewrite (conns_connFree _ _ _ Hat), Nat2Z.id. destruct (decide (j = i)) as [->|Hne].
    + rewrite list_lookup_insert_eq; [by intros [= <-]|]. by apply lookup_lt_Some in Hc.
    + rewrite list_lookup_insert_ne by done. intros Hj. apply not_true_is_false. intros Oj. pose proof (H j cj Hj Oj). congruence.
  - intros j cj. by apply find_idx_None.
Qed.

Context (room : its -> its).

(** C35: when the server has dispatched a CONNECT and, behind it, the CONNECT_CANCEL of the
    client that gave up on it, the server has no connection with that client and nonce
    left, whether or not the connect had been accepted. Callbacks may disconnect a victim or
    forward the new connection to another server, which then has it; they only must not
    make a connection of this server with that client and nonce themselves. *)
Theorem connect_cancel_no_orphan s ti m1 a1 a2 :
  m_kind m1 = ITS_K_CONNECT -> m_kind cancel = ITS_K_CONNECT_CANCEL -> no_orphan s ->
  let s1 := processInboxMsg room app s srv ti m1 a1 a2 in
  task_is_server s1 ti = true -> no_orphan (processInboxMsg room app s1 srv ti cancel a1 a2).
Proof.
  intros K1 K2 H0 s1 Hsrv. assert (exists h, only h (connTable s1)) as [h Hs].
  { unfold s1, processInboxMsg. rewrite K1. destruct (task_is_server s ti); [|exists 0; rewrite conns_finish; by apply only_none].
    destruct (procConnect_only s srv ti m1 a1 a2 H0) as [h Hh]. exists h. by rewrite conns_finish. }
  unfold processInboxMsg. rewrite K2, Hsrv. unfold no_orphan. rewrite conns_finish. by eapply procCancel_clears.
Qed.

End Conn.
