(* ===== verification/ItsDemo.v ===== *)
(** * its: the theorems on a running transport

    A server and two clients on the lists of Rtos.v: the hypotheses of the theorems of
    ItsStep.v, ItsPacket.v and ItsConn.v hold there. Then inputs on which the
    code does not do what its comments say. *)

From stdpp Require Import gmap.
From S2P Require Import Prelude CLib Rtos Its ItsFlow ItsServer ItsInv ItsOwn ItsStep ItsPacket ItsConn.
Import Data Tables Flow Server PacketSpec ListRtos.
Open Scope Z_scope.
Open Scope spangap_scope.

Module ItsDemo.

#[local] Abbreviation SB := list_sb.
#[local] Abbreviation Q := (list its_msg * Z)%type.
#[local] Abbreviation its := (its (SB := SB) (Q := Q)).

(** The first of the addresses 1 to 16 that is free. *)
Definition malloc16 (h : gmap Z bytes) (n : Z) : Z :=
  match List.find (fun p => negb (is_some (h !! p))) (seqZ 1 16) with Some p => p | None => 0 end.

Lemma malloc16_fresh : malloc_fresh malloc16.
Proof.
  intros h n _. unfold malloc16. destruct (List.find _ _) as [p|] eqn:E; [|done]. intros _. apply find_some in E as [Hin Hp].
  split; [by destruct (h !! p)|]. apply list_elem_of_In, elem_of_seqZ in Hin. lia.
Qed.

Definition room0 (s : its) : its := s.
Definition app0 (me cb : Z) (c : call) (s : its) : its * Z := (s, 0).
Definition all_ok : avail := {| av_buf := true; av_sem := true; av_hdr := true |}.

(** Task 1, the server, polls. *)
Definition server_polls : wake SB Q := {| w_env := fun s => (itsPoll room0 app0 [] s 1 0 all_ok all_ok).1; w_tick := 0 |}.

Abbreviation do_ r := (serve malloc16 room0 app0 r).

Definition setup : its :=
  do_ (Q_clientInit 2 4 0 0 all_ok) (do_ (Q_portOpen 1 7 ITS_PACKET 4 100 100 4 50) (do_ (Q_serverInit 1 0 0 false all_ok) its_start)).

Definition connect_ : request SB Q := Q_connect [server_polls] 2 1 7 [5; 6] 0 0 0 None None all_ok all_ok.

(** Two connections between the same tasks, handles 0 and 1. *)
Definition connected : its := do_ connect_ (do_ connect_ setup).

Definition send_ (me h : Z) (d : bytes) : request SB Q := Q_send [] me h d 0 0.

(** Two messages on their way on handle 0, one on handle 1. *)
Definition busy : its := do_ (send_ 2 1 [9]) (do_ (send_ 2 0 [4; 5]) (do_ (send_ 2 0 [1; 2; 3]) connected)).

Lemma polls_keep hm hb ob : env_wake hm hb ob server_polls.
Proof. intros s H. apply itsPoll_ok; [by intros ? ? ? ?|by intros ? ? ? ? ? ? ?|constructor|done]. Qed.

Lemma call_reach ob s r : request_ok ob 0 [] r s -> reach malloc16 room0 app0 ob s -> reach malloc16 room0 app0 ob (do_ r s).
Proof. intros Hr R. apply R_call; [by intros ? ? ? ?|by intros ? ? ? ? ? ? ?|done|done]. Qed.

Lemma setup_reach : reach malloc16 room0 app0 [] setup.
Proof. apply call_reach; [done|]. apply call_reach; [done|]. apply call_reach; [done|]. apply R_start. Qed.

Lemma connect_ok_demo s : request_ok [] 0 [] connect_ s.
Proof. split; [done|]. constructor; [apply polls_keep|constructor]. Qed.

Lemma connected_reach : reach malloc16 room0 app0 [] connected.
Proof. apply call_reach; [apply connect_ok_demo|]. apply call_reach; [apply connect_ok_demo|]. apply setup_reach. Qed.

Lemma send_ok_demo s me h d : Zlen d < 2 ^ 32 -> request_ok [] 0 [] (send_ me h d) s.
Proof. intros Hd. split; [done|]. split; constructor. Qed.

Lemma busy_reach : reach malloc16 room0 app0 [] busy.
Proof. unfold busy. do 3 (apply call_reach; [by apply send_ok_demo|]). apply connected_reach. Qed.

Example busy_counters : (liveBlocks (payCtr busy), liveBytes (payCtr busy), itsActiveTotal busy) = (3, 6, 2).
Proof. vm_compute. reflexivity. Qed.

Lemma its_memory_safe_witness :
  bad busy = false /\ exists bl, queues_hold busy bl /\ NoDup (map snd (bl ++ [])) /\ Forall (blk_live (heap busy)) (bl ++ []).
Proof. apply (its_memory_safe malloc16 room0 app0); [exact malloc16_fresh|exact busy_reach]. Defined.

Lemma its_counters_exact_witness : exists bl, queues_hold busy bl /\
    liveBlocks (payCtr busy) = wrap32 (Zlen bl) /\ liveBytes (payCtr busy) = wrap32 (blk_len bl) /\
    liveBlocks (hdrCtr busy) = wrap32 (Zlen (flat_map box_msgs (map inbox (s_tasks busy)))) /\
    liveBytes (hdrCtr busy) = wrap32 (HDR_SIZE * Zlen (flat_map box_msgs (map inbox (s_tasks busy)))).
Proof. apply (its_counters_exact malloc16 room0 app0 []); [exact malloc16_fresh|exact busy_reach]. Defined.

Definition demo_conn (tl fl nonce : Z) : its_conn :=
  {| active := true; packetBased := false; kind := ITS_PACKET; noPool := false; clientTask := Some 2; serverTask := Some 1;
     toPoolIdx := -1; fromPoolIdx := -1; toLinkIdx := tl; fromLinkIdx := fl; itsPort := 7; clientRef := 0; serverRef := -1;
     connectNonce := nonce; cliRecvCb := None; cliDisconnectCb := None |}.

Lemma its_buffers_exclusive_witness :
  (forall i, 0 <= i -> i ∈ [-1; -1] -> i ∉ [-1; -1]) /\ (forall i, 0 <= i -> i ∈ [0; 1] -> i ∉ [2; 3]) /\
  (0 <= 0 -> 0 <> 1 /\ link_used busy 0) /\ (0 <= -1 -> -1 <> -1).
Proof.
  apply (its_buffers_exclusive malloc16 room0 app0 [] busy 0 1 (demo_conn 0 1 1) (demo_conn 2 3 2));
    [exact malloc16_fresh|exact busy_reach|vm_compute; reflexivity|vm_compute; reflexivity|lia].
Defined.

Definition demo_chan (q : list bytes) : chan := {| c_queue := q; c_slots := 4; c_window := 100; c_biggest := 50 |}.

Definition demo_link (d : bytes) (n : Z) : its_link (SB := SB) :=
  {| ring := Some (d, 39); depth := 4; byteCap := 100; maxMsg := 50; outstanding := n; l_freeNotify := 0;
     l_spaceFreedSem := Some false; l_inUse := true |}.

Lemma connected_implements : implements connected 0 (demo_chan []).
Proof.
  split; [split_and!; done|]. exists []. split_and!; [|constructor..]. exists (demo_link [] 0), ([], 39).
  split_and!; [vm_compute|..]; reflexivity.
Qed.

Lemma busy_implements : implements busy 0 (demo_chan [[1; 2; 3]; [4; 5]]).
Proof.
  split; [split_and!; [done..|]; by repeat constructor|]. exists [(3, 1); (2, 2)]. split_and!.
  - exists (demo_link [3; 0; 0; 0; 1; 0; 0; 0; 2; 0; 0; 0; 2; 0; 0; 0] 5), ([3; 0; 0; 0; 1; 0; 0; 0; 2; 0; 0; 0; 2; 0; 0; 0], 39).
    split_and!; [vm_compute|..]; reflexivity.
  - by repeat constructor.
  - repeat constructor; [exists [1; 2; 3]|exists [4; 5]]; (split; [vm_compute|]; reflexivity).
Qed.

Lemma itsSend_refines_witness :
  (admits (demo_chan []) [1; 2; 3] = true -> malloc16 (heap connected) (Zlen [1; 2; 3]) <> 0 ->
     (itsSend malloc16 [] connected 2 0 [1; 2; 3] 0 0).2 = Some (Zlen [1; 2; 3]) /\
     implements (itsSend malloc16 [] connected 2 0 [1; 2; 3] 0 0).1 0 (push (demo_chan []) [1; 2; 3]) /\
     forall li' c', li' <> 0%nat -> implements connected li' c' -> implements (itsSend malloc16 [] connected 2 0 [1; 2; 3] 0 0).1 li' c') /\
  (admits (demo_chan []) [1; 2; 3] = false -> 0 = 0 ->
     (itsSend malloc16 [] connected 2 0 [1; 2; 3] 0 0).2 = Some 0 /\ (itsSend malloc16 [] connected 2 0 [1; 2; 3] 0 0).1 = connected).
Proof.
  apply (itsSend_refines malloc16 room0 app0 [] connected 2 0 0 (demo_chan []) [1; 2; 3] [] 0 0);
    [exact malloc16_fresh|exact connected_reach|vm_compute; reflexivity|exact connected_implements|apply surjective_pairing].
Defined.

Lemma itsRecv_refines_witness :
  (itsRecv [] busy 1 0 10 0 0).2 = Some [1; 2; 3] /\ implements (itsRecv [] busy 1 0 10 0 0).1 0 (demo_chan [[4; 5]]) /\
  forall li' c', li' <> 0%nat -> implements busy li' c' -> implements (itsRecv [] busy 1 0 10 0 0).1 li' c'.
Proof.
  apply (itsRecv_refines malloc16 room0 app0 [] busy 1 0 0 (demo_chan [[1; 2; 3]; [4; 5]]) 10 [] 0 0);
    [exact malloc16_fresh|exact busy_reach|vm_compute; reflexivity|exact busy_implements|apply surjective_pairing].
Defined.

(** ** A legacy packet port *)

(** Port 8 of task 1: framed packets, 64 bytes each way; handle 0. *)
Definition legacy : its :=
  do_ (Q_connect [server_polls] 2 1 8 [] 0 0 0 None None all_ok all_ok) (do_ (Q_portOpen 1 8 ITS_PACKET_LEGACY 4 64 64 0 0) setup).

Definition legacy_conn : its_conn :=
  {| active := true; packetBased := true; kind := ITS_PACKET_LEGACY; noPool := false; clientTask := Some 2; serverTask := Some 1;
     toPoolIdx := 0; fromPoolIdx := 1; toLinkIdx := -1; fromLinkIdx := -1; itsPort := 8; clientRef := 0; serverRef := -1;
     connectNonce := 1; cliRecvCb := None; cliDisconnectCb := None |}.

Definition legacy_entry (d : bytes) : its_pool_entry (SB := SB) :=
  {| p_handle := Some (d, 63); p_size := 64; p_pooled := true; triggerLevel := 1; p_inUse := true; p_freeNotify := 0;
     p_spaceFreedSem := Some false |}.

Lemma itsSend_framed_witness :
  (frame_fits (legacy_entry []) [] 63 [7; 8] ->
     (itsSend malloc16 [] legacy 2 0 [7; 8] 0 0).2 = Some (Zlen [7; 8]) /\
     slot_bytes (itsSend malloc16 [] legacy 2 0 [7; 8] 0 0).1 0 (frames ([] ++ [[7; 8]])) 63) /\
  (~ frame_fits (legacy_entry []) [] 63 [7; 8] -> 0 = 0 ->
     (itsSend malloc16 [] legacy 2 0 [7; 8] 0 0).2 = Some 0 /\ (itsSend malloc16 [] legacy 2 0 [7; 8] 0 0).1 = legacy).
Proof.
  apply (itsSend_framed malloc16 legacy 2 0 legacy_conn 0 63 []) with (b := ([], 63)) (ws := []) (now := 0).
  - vm_compute. reflexivity.
  - done.
  - done.
  - exists ([], 63). split_and!; [vm_compute|..]; reflexivity.
  - vm_compute. reflexivity.
  - vm_compute. reflexivity.
  - apply surjective_pairing.
Defined.

Definition legacy_busy : its := do_ (send_ 2 0 [9]) (do_ (send_ 2 0 [7; 8]) legacy).

Lemma itsRecv_framed_witness :
  (itsRecv [] legacy_busy 1 0 10 0 0).2 = Some [7; 8] /\ slot_bytes (itsRecv [] legacy_busy 1 0 10 0 0).1 0 (frames [[9]]) 63.
Proof.
  apply (itsRecv_framed legacy_busy 1 0 legacy_conn 0 63 [[7; 8]; [9]]) with (b := ([0; 0; 0; 2; 7; 8; 0; 0; 0; 1; 9], 63)) (mx := 10) (ws := []) (now := 0) (timeout := 0).
  - vm_compute. reflexivity.
  - done.
  - done.
  - by repeat constructor.
  - exists ([0; 0; 0; 2; 7; 8; 0; 0; 0; 1; 9], 63). split_and!; [vm_compute|..]; reflexivity.
  - vm_compute. reflexivity.
  - apply surjective_pairing.
Defined.

(** ** Connect and cancel *)

Definition demo_msg (k : its_kind_t) : its_msg :=
  {| m_kind := k; m_pickup := false; m_port := 7; m_handle := -1; m_ref := -1; m_nonce := 3; m_sender := 2; m_cb := None; m_len := 0; m_payload := 0 |}.

Example demo_connects : itsActiveTotal (processInboxMsg room0 app0 setup 1 0 (demo_msg ITS_K_CONNECT) all_ok all_ok) = 1.
Proof. vm_compute. reflexivity. Qed.

(** A busy callback that closes connection 0 to make room. *)
Definition evicts (me cb : Z) (c : call) (s : its) : its * Z :=
  match c with CBusy _ _ => (connFree s 0, 0) | _ => (s, 0) end.

Lemma evicts_no_orphan srv m : makes_no_orphan srv m evicts.
Proof.
  intros me cb c s i x. unfold evicts. destruct c; cbn [fst]; try (intros H1 H2; by exists x).
  destruct (conn_at s 0) as [c|] eqn:E; [|unfold connFree; rewrite E; intros H1 H2; by exists x].
  rewrite (conns_connFree _ _ _ E). destruct (decide (i = Z.to_nat 0)) as [->|Hne]; [|rewrite list_lookup_insert_ne by done; intros H1 H2; by exists x].
  intros [(_ & <- & _)|[? _]]%list_lookup_insert_Some; done.
Qed.

Lemma connect_cancel_no_orphan_witness :
  no_orphan 1 (demo_msg ITS_K_CONNECT_CANCEL)
    (processInboxMsg room0 evicts (processInboxMsg room0 evicts setup 1 0 (demo_msg ITS_K_CONNECT) all_ok all_ok) 1 0
      (demo_msg ITS_K_CONNECT_CANCEL) all_ok all_ok).
Proof.
  apply (connect_cancel_no_orphan 1 (demo_msg ITS_K_CONNECT_CANCEL) evicts).
  - apply evicts_no_orphan.
  - done.
  - done.
  - assert (connTable setup = replicate 128 conn0) as E by (vm_compute; reflexivity). intros i c Hc. rewrite E in Hc.
    by apply lookup_replicate in Hc as [-> _].
  - vm_compute. reflexivity.
Defined.

(** ** What the code does where its comments say otherwise *)

Definition no_memory : avail := {| av_buf := false; av_sem := true; av_hdr := true |}.

(** A stream buffer that cannot be allocated leaves its pool slot marked in use, with
    no connection to release it: after 128 failures there is no slot left, and
    [poolGet] fails though there is memory again. *)
Theorem poolGet_failures_exhaust :
  (poolGet (Nat.iter 128 (fun s => (poolGet s 64 false no_memory).1) (@its_start SB Q)) 64 false all_ok).2 = -1 /\
  (poolGet (@its_start SB Q) 64 false all_ok).2 = 0.
Proof. vm_compute. split; reflexivity. Qed.

(** A second server, task 3, whose port 9 takes one connection. *)
Definition two_servers : its :=
  do_ connect_ (do_ connect_ (do_ (Q_portOpen 3 9 ITS_PACKET 1 100 100 4 50) (do_ (Q_serverInit 3 0 0 false all_ok) setup))).

(** A forward to a port that is full and has no busy callback goes through: the
    port's [maxHandles] is exceeded (here 2 connections on a port for 1). *)
Theorem forward_ignores_maxHandles :
  let s1 := itsServerForwardByTaskHandle malloc16 room0 app0 two_servers 1 0 3 9 [] all_ok in
  let s2 := itsServerForwardByTaskHandle malloc16 room0 app0 s1.1 1 1 3 9 [] all_ok in
  s1.2 = 0 /\ s2.2 = 1 /\ itsServerActive s2.1 3 9 = 2.
Proof. vm_compute. split_and!; reflexivity. Qed.

(** A forward that cannot allocate its message returns -1 after the connection was
    given to the target: the caller no longer serves it and the target is not told. *)
Theorem forward_failure_reassigns :
  let r := itsServerForwardByTaskHandle malloc16 room0 app0 two_servers 1 0 3 9 [] {| av_buf := true; av_sem := true; av_hdr := false |} in
  r.2 = -1 /\ (serverTask <$> conn r.1 0) = Some (Some 3) /\ itsServerPort r.1 1 0 = -1 /\
  map (fun e => box_msgs (inbox e)) (s_tasks r.1) = map (fun e => box_msgs (inbox e)) (s_tasks two_servers).
Proof. vm_compute. split_and!; reflexivity. Qed.

(** [itsSpacesAvailable] on a packet link can report more than a send may carry: with
    3 of 100 bytes queued it reports 97, and a message of 60 bytes is refused because
    the port's guard is 50. *)
Theorem spaces_beyond_maxMsg :
  let s := do_ (send_ 2 0 [1; 2; 3]) connected in
  itsSpacesAvailable s 2 0 = 97 /\ (itsSend malloc16 [] s 2 0 (replicate 60 0) 0 0).2 = Some 0.
Proof. vm_compute. split; reflexivity. Qed.

(** The size guard of a legacy port lets a frame of exactly the buffer's size through,
    which never fits, the buffer holding one byte less: to the empty buffer of 64 bytes
    a body of 60 is refused without waiting, and a send that may wait for ever is still
    waiting after the buffer was found empty again; a body of 59 is sent. *)
Theorem legacy_full_frame_never_fits :
  let freed := {| w_env := fun s => upd_pool s 0 (pool_set_sem (Some true)); w_tick := 1 |} in
  (itsSend malloc16 [] legacy 2 0 (replicate 60 1) 0 0).2 = Some 0 /\
  (itsSend malloc16 [freed; freed; freed] legacy 2 0 (replicate 60 1) 0 portMAX_DELAY).2 = None /\
  (itsSend malloc16 [] legacy 2 0 (replicate 59 1) 0 0).2 = Some 59.
Proof. vm_compute. split_and!; reflexivity. Qed.

End ItsDemo.
