(* ===== verification/CliPath.v ===== *)
(** * cli: paths (cli.cpp, compat.h)

    [cliCollapseAbsolute] normalises an absolute path in two 256-byte buffers. The
    specification is the usual one on the list of components: empty ones and [.] are
    dropped, [..] removes the one before it and does nothing at the root. *)

From S2P Require Import Prelude CLib.
Open Scope Z_scope.
Open Scope spangap_scope.

Definition SLASH : Z := 47.
Definition is_slash (c : Z) : bool := c =? SLASH.
Definition DOT : bytes := $ ".".
Definition DOTDOT : bytes := $ "..".

(** [safeStrncpy] into [n] bytes: what the buffer then holds as a C string. *)
Definition safeStrncpy (src : bytes) (n : nat) : bytes :=
  if Z.of_nat n <=? Zlen src then take (pred n) src else src.

(** [while (olen > 1 && out[olen - 1] != '/') olen--], on the reversed buffer. *)
Fixpoint popName (r : bytes) : bytes :=
  match r with
  | c :: ((_ :: _) as r') => if is_slash c then r else popName r'
  | _ => r
  end.

(** The [..] branch on the first [olen] bytes of [out]. *)
Definition popDir (out : bytes) : bytes :=
  if Zlen out <=? 1 then out
  else
    let r := popName (tail (rev out)) in
    rev (if 1 <? Zlen r then tail r else r).

(** The scan of [work] from [p]; [None]: the result does not fit [out[256]]. *)
Fixpoint collapseLoop (fuel : nat) (p out : bytes) : option bytes :=
  match fuel with
  | O => None
  | S f =>
      match p with
      | [] => Some out
      | _ =>
          let tok := take_while (fun c => negb (is_slash c)) p in
          let p := skip_while is_slash (drop (length tok) p) in
          if Zlen tok =? 0 then collapseLoop f p out
          else if streq tok DOT then collapseLoop f p out
          else if streq tok DOTDOT then collapseLoop f p (popDir out)
          else if (1 <? Zlen out) && (256 <=? Zlen out + 1) then None
          else
            let out := if 1 <? Zlen out then out ++ [SLASH] else out in
            if 256 <=? Zlen out + Zlen tok + 1 then None
            else collapseLoop f p (out ++ tok)
      end
  end.

(** The new contents of [path], or [None] where the function returns false. A round of
    the scan consumes a byte, so the length is fuel enough. *)
Definition cliCollapseAbsolute (path : bytes) (cap : Z) : option bytes :=
  match path with
  | [] => None
  | c :: _ =>
      if negb (is_slash c) || (cap <=? Zlen path) then None
      else
        let work := safeStrncpy path 256 in
        out ← collapseLoop (S (length work)) (tail work) [SLASH];
        if cap <? Zlen out + 1 then None else Some out
  end.

(** ** The specification *)

(** The components of a string: what lies between slashes. *)
Fixpoint split (s : bytes) : list bytes :=
  match s with
  | [] => [[]]
  | c :: s' =>
      if is_slash c then [] :: split s'
      else match split s' with t :: ts => (c :: t) :: ts | [] => [[c]] end
  end.

Definition enter (st : list bytes) (t : bytes) : list bytes :=
  if streq t [] || streq t DOT then st
  else if streq t DOTDOT then take (pred (length st)) st
  else st ++ [t].

Definition resolve (s : bytes) : list bytes := foldl enter [] (split s).

(** An absolute path from its components. *)
Definition show (st : list bytes) : bytes :=
  match st with
  | [] => [SLASH]
  | _ => concat (map (cons SLASH) st)
  end.

Definition normal (path : bytes) : bytes := show (resolve (tail path)).

(** A component a path can keep. *)
Definition name_ok (t : bytes) : Prop := t <> [] /\ t <> DOT /\ t <> DOTDOT /\ SLASH ∉ t.

(** ** Lemmas *)

Lemma safeStrncpy_trunc src n : safeStrncpy src n = trunc n src.
Proof.
  unfold safeStrncpy, trunc. destruct (Z.leb_spec (Z.of_nat n) (Zlen src)); [done|].
  rewrite take_ge; [done|]. unfold Zlen in *. lia.
Qed.

Lemma is_slash_spec c : is_slash c = true <-> c = SLASH.
Proof. apply Z.eqb_eq. Qed.

Lemma split_nonempty s : split s <> [].
Proof. destruct s as [|c s]; simpl; [done|]. destruct (is_slash c); [done|]. by destruct (split s). Qed.

Lemma split_names s : Forall (fun t => SLASH ∉ t) (split s).
Proof.
  induction s as [|c s IH]; simpl.
  - constructor; [apply not_elem_of_nil|constructor].
  - destruct (is_slash c) eqn:E; [constructor; [apply not_elem_of_nil|done]|].
    assert (c <> SLASH) by (intros ->; by rewrite (proj2 (is_slash_spec SLASH)) in E).
    destruct (split s) as [|t ts]; constructor.
    + by apply not_elem_of_cons; split; [congruence|apply not_elem_of_nil].
    + constructor.
    + inversion IH; subst. by apply not_elem_of_cons; split; [congruence|].
    + by inversion IH.
Qed.

Lemma split_component t s : SLASH ∉ t -> split (t ++ SLASH :: s) = t :: split s.
Proof.
  induction t as [|c t IH]; intros H; simpl; [done|].
  apply not_elem_of_cons in H as [Hc H]. rewrite (IH H).
  destruct (is_slash c) eqn:E; [apply is_slash_spec in E; congruence|done].
Qed.

Lemma split_name t : SLASH ∉ t -> split t = [t].
Proof.
  induction t as [|c t IH]; intros H; simpl; [done|].
  apply not_elem_of_cons in H as [Hc H]. rewrite (IH H).
  destruct (is_slash c) eqn:E; [apply is_slash_spec in E; congruence|done].
Qed.

Lemma enter_keeps st t : SLASH ∉ t -> Forall name_ok st -> Forall name_ok (enter st t).
Proof.
  intros Ht H. unfold enter. destruct (streq t []) eqn:E1; [done|]. destruct (streq t DOT) eqn:E2; [done|].
  destruct (streq t DOTDOT) eqn:E3; [by apply Forall_take|].
  apply streq_false in E1, E2, E3. apply Forall_app. split; [done|]. by repeat constructor.
Qed.

Lemma resolve_ok s : Forall name_ok (resolve s).
Proof.
  unfold resolve. pose proof (split_names s) as H. assert (Forall name_ok []) as HA by constructor.
  revert HA. generalize (@nil bytes) as st. induction H as [|t ts Ht _ IH]; intros st Hst; simpl; [done|].
  apply IH. by apply enter_keeps.
Qed.

Lemma enter_name st t : name_ok t -> enter st t = st ++ [t].
Proof.
  intros (H1 & H2 & H3 & _). unfold enter.
  by rewrite (proj2 (streq_false t []) H1), (proj2 (streq_false t DOT) H2), (proj2 (streq_false t DOTDOT) H3).
Qed.

Lemma foldl_enter_names st ts : Forall name_ok ts -> foldl enter st ts = st ++ ts.
Proof.
  intros H. revert st. induction H as [|t ts Ht _ IH]; intros st; simpl; [by rewrite app_nil_r|].
  by rewrite enter_name, IH, <- app_assoc.
Qed.

Lemma split_show t ts : Forall name_ok (t :: ts) -> split (tail (show (t :: ts))) = t :: ts.
Proof.
  unfold show. simpl. revert t. induction ts as [|u us IH]; intros t H; inversion H as [|?? Ht Hr]; subst; simpl.
  - rewrite app_nil_r. apply split_name. apply Ht.
  - rewrite split_component by apply Ht. f_equal. by apply IH.
Qed.

(** Normalising a normal path changes nothing. *)
Lemma resolve_show st : Forall name_ok st -> resolve (tail (show st)) = st.
Proof.
  intros H. destruct st as [|t ts]; [done|]. unfold resolve. rewrite split_show by done.
  by rewrite foldl_enter_names.
Qed.

Lemma show_snoc st t : show (st ++ [t]) = (if bool_decide (st = []) then [SLASH] else show st ++ [SLASH]) ++ t.
Proof.
  unfold show. destruct (st ++ [t]) eqn:E; [by apply app_nil in E as []|]. rewrite <- E. clear E.
  destruct st as [|u us]; simpl; [by rewrite app_nil_r|].
  rewrite map_app, concat_app. simpl. rewrite app_nil_r, <- !app_assoc. done.
Qed.

Lemma Zlen_show st : 1 <= Zlen (show st).
Proof. destruct st; simpl; zlia. Qed.

Lemma Zlen_show_names st : Forall name_ok st -> (1 <? Zlen (show st)) = negb (bool_decide (st = [])).
Proof.
  destruct st as [|t ts]; [done|]. intros H. inversion H as [|?? (Ht & _) _]; subst. simpl.
  destruct t; [done|]. apply Z.ltb_lt. zlia.
Qed.

(** *** The [..] branch drops the last component *)

Lemma popName_name t r : SLASH ∉ t -> popName (t ++ SLASH :: r) = SLASH :: r.
Proof.
  induction t as [|c t IH]; intros H; simpl.
  - by destruct r.
  - apply not_elem_of_cons in H as [Hc H]. destruct (t ++ SLASH :: r) eqn:E; [by destruct t|].
    destruct (is_slash c) eqn:E'; [apply is_slash_spec in E'; congruence|].
    rewrite <- (IH H). done.
Qed.

Lemma popDir_show st : Forall name_ok st -> popDir (show st) = show (take (pred (length st)) st).
Proof.
  intros H. destruct st as [|t st _] using rev_ind; [done|].
  rewrite length_app, Nat.add_1_r. simpl. rewrite take_app_length.
  apply Forall_app in H as [H (H1 & H2 & H3 & H4)%Forall_singleton]. unfold popDir.
  pose proof (Zlen_show_names (st ++ [t])) as E. rewrite bool_decide_eq_false_2 in E by (by intros []%app_nil).
  rewrite (proj2 (Z.leb_gt _ _)).
  2: { apply Z.ltb_lt. rewrite E; [done|]. apply Forall_app; split; [done|]. by repeat constructor. }
  rewrite show_snoc, rev_app_distr.
  destruct t as [|c t _] using rev_ind; [done|]. rewrite rev_app_distr. simpl.
  rewrite elem_of_app in H4.
  assert (SLASH ∉ rev t) as Ht by (rewrite list_elem_of_In, <- in_rev, <- list_elem_of_In; tauto).
  destruct (decide (st = [])) as [->|Hst].
  - rewrite bool_decide_eq_true_2 by done. simpl. rewrite popName_name by done. done.
  - rewrite bool_decide_eq_false_2 by done. rewrite rev_app_distr. simpl. rewrite popName_name by done.
    rewrite Zlen_cons, Zlen_rev. pose proof (Zlen_show st). rewrite (proj2 (Z.ltb_lt _ _)) by lia.
    simpl. by rewrite rev_involutive.
Qed.

(** *** The scan *)

Lemma split_token p :
  let tok := take_while (fun c => negb (is_slash c)) p in
  SLASH ∉ tok /\ ((p = tok) \/ exists r, p = tok ++ SLASH :: r).
Proof.
  induction p as [|c p IH]; simpl; [split; [apply not_elem_of_nil|by left]|].
  destruct (is_slash c) eqn:E; simpl.
  - apply is_slash_spec in E as ->. split; [apply not_elem_of_nil|right; by exists p].
  - destruct IH as [IH1 IH2]. split.
    + apply not_elem_of_cons. split; [|done]. intros <-. by rewrite (proj2 (is_slash_spec _)) in E.
    + destruct IH2 as [E2|[r E2]]; [left; by rewrite <- E2|right; exists r; by rewrite E2 at 1].
Qed.

Lemma foldl_skip_slash st p : foldl enter st (split (skip_while is_slash p)) = foldl enter st (split p).
Proof.
  induction p as [|c p IH]; simpl; [done|]. destruct (is_slash c) eqn:E; [simpl; by rewrite IH|].
  simpl. by rewrite E.
Qed.

(** One round: the token, the rest after its slashes, and what they mean. *)
Lemma split_round p (tok := take_while (fun c => negb (is_slash c)) p)
    (r := skip_while is_slash (drop (length tok) p)) st :
  p <> [] ->
  SLASH ∉ tok /\ (length r < length p)%nat /\ (foldl enter st (split p) = foldl enter (enter st tok) (split r)) /\
  Zlen tok + Zlen r + (if bool_decide (r = []) then 0 else 1) <= Zlen p.
Proof.
  intros Hp. destruct (split_token p) as [Ht E]. fold tok in Ht, E. unfold r. clear r. clearbody tok.
  destruct E as [->|[q ->]].
  - rewrite drop_all. simpl. split; [done|]. split; [by destruct tok; [|simpl; lia]|].
    rewrite split_name by done. split; [done|]. zlia.
  - rewrite drop_app_length. simpl. split; [done|]. pose proof (Zlen_skip_while is_slash q) as Hq.
    split; [|split].
    + unfold Zlen in Hq. rewrite length_app. simpl. lia.
    + rewrite split_component by done. simpl. by rewrite foldl_skip_slash.
    + case_bool_decide; zlia.
Qed.

(** What the scan has room for: [out] and the rest of the input, with a slash between. *)
Definition room (st : list bytes) (p : bytes) : Z :=
  Zlen (show st) + Zlen p + (if bool_decide (st = []) || bool_decide (p = []) then 0 else 1).

Lemma Zlen_show_pop st : Zlen (show (take (pred (length st)) st)) <= Zlen (show st).
Proof.
  destruct st as [|t st _] using rev_ind; [done|]. rewrite length_app, Nat.add_1_r. simpl.
  rewrite take_app_length, show_snoc. case_bool_decide; subst; [|zlia]. change (Zlen (show [])) with 1. zlia.
Qed.

Lemma collapseLoop_ok f p st :
  (length p < f)%nat -> Forall name_ok st -> room st p <= 255 -> Zlen (show st) <= 254 ->
  collapseLoop f p (show st) =
    (if Zlen (show (foldl enter st (split p))) <=? 254 then Some (show (foldl enter st (split p))) else None).
Proof.
  revert p st. induction f as [|f IH]; intros p st Hf Hst Hr Hl; [lia|].
  cbn [collapseLoop]. destruct p as [|c p'] eqn:Ep.
  { simpl. unfold enter at 1. simpl. by rewrite (proj2 (Z.leb_le _ _)). }
  rewrite <- Ep in *. assert (p <> []) as Hp by congruence. clear Ep c p'.
  destruct (split_round p st Hp) as (Ht & Hlt & -> & Hz).
  set (tok := take_while (fun c => negb (is_slash c)) p) in *.
  set (r := skip_while is_slash (drop (length tok) p)) in *. clearbody r tok.
  unfold room in Hr. rewrite (bool_decide_eq_false_2 (p = [])), orb_false_r in Hr by done.
  assert (forall st', Zlen (show st') <= Zlen (show st) -> st' = st \/ 2 <= Zlen tok -> room st' r <= 255) as HR.
  { intros st' H1 [->|H2]; unfold room; [|destruct (_ || _); repeat case_bool_decide; zlia].
    unfold Zlen in *. destruct (bool_decide (st = [])); simpl in *; case_bool_decide; lia. }
  destruct (Z.eqb_spec (Zlen tok) 0) as [E0|E0].
  { apply Zlen_zero in E0. subst tok. change (enter st []) with st. apply IH; try done; [lia|]. apply HR; [done|by left]. }
  destruct (streq tok DOT) eqn:E1.
  { apply streq_true in E1. subst tok. change (enter st DOT) with st. apply IH; try done; [lia|]. apply HR; [done|by left]. }
  destruct (streq tok DOTDOT) eqn:E2.
  { apply streq_true in E2. subst tok. change (enter st DOTDOT) with (take (pred (length st)) st).
    pose proof (Zlen_show_pop st). rewrite popDir_show by done.
    apply IH; [lia|by apply Forall_take| |lia]. apply HR; [done|by right]. }
  apply streq_false in E1, E2.
  assert (tok <> []) as E3 by (intros ->; by apply E0).
  assert (name_ok tok) as Hn by (unfold name_ok; tauto).
  rewrite (enter_name st tok Hn), (Zlen_show_names st) by done.
  rewrite (proj2 (Z.leb_gt 256 (Zlen (show st) + 1))), andb_false_r by lia.
  assert ((if negb (bool_decide (st = [])) then show st ++ [SLASH] else show st) ++ tok = show (st ++ [tok])) as Es.
  { rewrite show_snoc. by destruct (decide (st = [])) as [->|?];
      [|rewrite !(bool_decide_eq_false_2 (st = [])) by done]. }
  assert (room (st ++ [tok]) r <= 255) as HR'.
  { unfold room. rewrite show_snoc. rewrite (bool_decide_eq_false_2 (st ++ [tok] = [])) by (by intros []%app_nil).
    simpl. destruct (bool_decide (st = [])) eqn:Eb; [apply bool_decide_eq_true in Eb; subst st;
      change (Zlen (show [])) with 1 in Hr|]; destruct (bool_decide (r = [])); zlia. }
  replace (Zlen (if negb (bool_decide (st = [])) then show st ++ [SLASH] else show st) + Zlen tok)
    with (Zlen (show (st ++ [tok]))) by (by rewrite <- Es, Zlen_app).
  rewrite Es. destruct (Z.leb_spec 256 (Zlen (show (st ++ [tok])) + 1)) as [Hb|Hb].
  - assert (r = []) as ->.
    { apply Zlen_zero. unfold room in HR'. destruct (_ || _); zlia. }
    simpl. change (enter (st ++ [tok]) []) with (st ++ [tok]). by rewrite (proj2 (Z.leb_gt _ _)) by lia.
  - apply IH; [lia| |done|lia]. apply Forall_app. split; [done|]. by constructor.
Qed.

(** A path of fewer than 256 bytes: the result is the normal form, refused only at 255. *)
Lemma collapse_normal path cap :
  256 <= cap -> Zlen path <= 255 -> head path = Some SLASH ->
  cliCollapseAbsolute path cap = if Zlen (normal path) <=? 254 then Some (normal path) else None.
Proof.
  intros Hc Hl Hh. destruct path as [|c p]; [done|]. injection Hh as ->. unfold cliCollapseAbsolute.
  rewrite (proj2 (is_slash_spec SLASH)) by done. rewrite (proj2 (Z.leb_gt _ _)) by lia. simpl orb.
  rewrite safeStrncpy_trunc. unfold trunc. rewrite take_ge by (unfold Zlen in Hl; lia). cbn [tail].
  change [SLASH] with (show []). rewrite collapseLoop_ok; [|simpl; lia|constructor| |done].
  - unfold normal, resolve. cbn [tail]. case_match eqn:E; [|done]. b2p. cbn.
    by rewrite (proj2 (Z.ltb_ge _ _)) by lia.
  - unfold room. simpl. change (Zlen [SLASH]) with 1. rewrite Zlen_cons in Hl. lia.
Qed.

(** Any longer path is cut at 255 bytes first. *)
Lemma collapse_cut path cap :
  256 <= cap -> Zlen path < cap -> cliCollapseAbsolute path cap = cliCollapseAbsolute (take 255 path) cap.
Proof.
  intros Hc Hl. destruct path as [|c p]; [done|]. unfold cliCollapseAbsolute. cbn [take].
  rewrite (proj2 (Z.leb_gt _ _)) by lia. rewrite (proj2 (Z.leb_gt cap _)) by zlia.
  rewrite !safeStrncpy_trunc. unfold trunc. cbn [take pred]. rewrite take_take.
  change (254 `min` 254)%nat with 254%nat. done.
Qed.

Lemma collapse_Some path cap out :
  256 <= cap -> cliCollapseAbsolute path cap = Some out ->
  exists st, out = show st /\ Forall name_ok st /\ Zlen out <= 254.
Proof.
  intros Hc E. assert (Zlen path < cap /\ head path = Some SLASH) as [Hl Hh].
  { destruct path as [|c p]; [done|]. unfold cliCollapseAbsolute in E. case_match eqn:Eb; [done|]. b2p.
    split; [lia|]. simpl. apply is_slash_spec in H. by subst. }
  rewrite collapse_cut, collapse_normal in E; [|done|zlia|by destruct path|done|done].
  case_match eqn:Eb; [|done]. injection E as <-. b2p. exists (resolve (tail (take 255 path))).
  split; [done|]. split; [apply resolve_ok|done].
Qed.

(** An absolute path that fits the 256-byte buffers is replaced by its normal form, whose
    components are neither empty nor [.] nor [..] and which normalises to itself; only a
    normal form of exactly 255 bytes is refused. *)
Theorem collapse_exact path cap :
  256 <= cap -> Zlen path <= 255 -> head path = Some SLASH ->
  cliCollapseAbsolute path cap = (if Zlen (normal path) <=? 254 then Some (normal path) else None) /\
  Forall name_ok (resolve (tail path)) /\ normal (normal path) = normal path.
Proof.
  intros Hc Hl Hh. split; [by apply collapse_normal|]. split; [apply resolve_ok|].
  unfold normal. by rewrite (resolve_show _ (resolve_ok (tail path))).
Qed.

Lemma collapse_exact_witness :
  cliCollapseAbsolute ($ "/sdcard/../state//./log/") 320 = Some ($ "/state/log").
Proof.
  destruct (collapse_exact ($ "/sdcard/../state//./log/") 320) as (E & _ & _).
  - done.
  - vm_compute. discriminate.
  - reflexivity.
  - rewrite E. vm_compute. reflexivity.
Defined.

(** A path between 256 and 319 bytes is accepted and cut at 255 before it is normalised: here
    [/./.../x] becomes the root instead of [/x]. *)
Theorem collapse_drops_tail :
  let path := SLASH :: concat (replicate 130 ($ "./")) ++ $ "x" in
  Zlen path = 262 /\ normal path = $ "/x" /\ cliCollapseAbsolute path 320 = Some ($ "/").
Proof. vm_compute. done. Qed.
