(* ===== verification/Cli.v ===== *)
(** * cli: the command line (cli.cpp, cli.h)

    Sessions of the CLI task: the command registry and its dispatcher, the line editor,
    the password gate, scripts and the pass of the task's loop over its slots. What the task calls in other
    modules (its, storage, fs, auth, log) is the interface [CliEnv] on a state [W]; a
    command's callback is [run], which gets the whole state, the CLI's own included.

    [char] is unsigned on the target. A write to a slot outside [cliSlots] sets [bad]. *)

From S2P Require Import Prelude CLib CliPath.
Open Scope Z_scope.
Open Scope spangap_scope.

(** ** What the module calls *)

Class CliEnv (W : Type) := {
  itsSend : Z -> bytes -> W -> Z * W;              (* up to 200 ms; how much was taken *)
  itsRecv : Z -> Z -> W -> bytes * W;              (* does not wait *)
  itsConnected : Z -> W -> bool;
  itsSendIsEmpty : Z -> W -> bool;
  itsDisconnect : Z -> W -> W;
  storageExists : bytes -> W -> bool;
  storageGetStr : bytes -> nat -> bytes -> W -> bytes;
  storageSet : bytes -> bytes -> W -> W;
  storageUnset : bytes -> W -> W;
  storageForEach : bytes -> W -> list (bytes * bytes);
  fs_isdir : bytes -> W -> bool;                   (* fs_stat() == 0 && S_ISDIR *)
  fs_listdir : bytes -> Z -> W -> list bytes;      (* the names *)
  fs_open : bytes -> W -> Z * W;
  fs_read : Z -> Z -> W -> bytes * W;
  fs_close : Z -> W -> W;
  authLogin : bytes -> bytes -> W -> bool * W;     (* whether it answers AUTH_OK *)
  info : bytes -> W -> W;
  warn : bytes -> W -> W;
  humanDetected : W -> W;
  fw_hostname : bytes                              (* CONFIG_SPANGAP_FW_HOSTNAME *)
}.

(** ** Data *)

(** Callbacks are told apart by a number. *)
Record cli_cmd_entry_t := { cmd : bytes; cb : Z; cmdLen : Z }.

Inductive cli_write_fn := W_itsCliWrite | W_cronCliWrite.

Record cli_edit := {
  buf : bytes; saved : bytes; cursor : Z; escState : Z; escParam : Z; histIdx : Z; savedValid : bool }.

Definition edit0 : cli_edit :=
  {| buf := []; saved := []; cursor := 0; escState := 0; escParam := 0; histIdx := -1; savedValid := false |}.

Definition CLI_ANSI : Z := 0.
Definition CLI_LINE : Z := 1.
Definition CLI_LINE_MAX : Z := 4096.
Definition CLI_MAX_CLIENTS : nat := 10.
Definition HIST_SIZE : Z := 20.
Definition CLI_HELP_COL : Z := 23.

Record cli_slot_t := {
  itsHandle : Z; edit : cli_edit; mode : Z; usbSerial : bool; color : bool; noPrompt : bool;
  lineBuf : bytes; cols : Z; rows : Z; cwd : bytes; pendingClose : bool;
  loginRequired : bool; authed : bool; pwTries : Z; pwBuf : bytes }.

(** [cliSlots[i] = {}; cliSlots[i].itsHandle = -1]. *)
Definition slot0 : cli_slot_t :=
  {| itsHandle := -1; edit := edit0; mode := 0; usbSerial := false; color := false; noPrompt := false;
     lineBuf := []; cols := 0; rows := 0; cwd := []; pendingClose := false;
     loginRequired := false; authed := false; pwTries := 0; pwBuf := [] |}.

Record cli_st (W : Type) := {
  cmds : list cli_cmd_entry_t; histDq : list bytes; cliSlots : list cli_slot_t; cliUsbPersistCwd : bytes;
  cliUsbSerialAutoResumeLog : bool; cliActiveSlot : Z; serialInCli : bool; cliOut : option cli_write_fn;
  bad : bool; world : W }.
Arguments cmds {W}. Arguments histDq {W}. Arguments cliSlots {W}. Arguments cliUsbPersistCwd {W}.
Arguments cliUsbSerialAutoResumeLog {W}. Arguments cliActiveSlot {W}. Arguments serialInCli {W}.
Arguments cliOut {W}. Arguments bad {W}. Arguments world {W}.

(** *** Assignments *)

Definition ed_line (e : cli_edit) (b : bytes) (c : Z) : cli_edit :=
  {| buf := b; saved := saved e; cursor := c; escState := escState e; escParam := escParam e;
     histIdx := histIdx e; savedValid := savedValid e |}.
Definition ed_esc (e : cli_edit) (s p : Z) : cli_edit :=
  {| buf := buf e; saved := saved e; cursor := cursor e; escState := s; escParam := p;
     histIdx := histIdx e; savedValid := savedValid e |}.
Definition ed_hist (e : cli_edit) (sv : bytes) (i : Z) (v : bool) : cli_edit :=
  {| buf := buf e; saved := sv; cursor := cursor e; escState := escState e; escParam := escParam e;
     histIdx := i; savedValid := v |}.

Definition sl_edit (c : cli_slot_t) (e : cli_edit) : cli_slot_t :=
  {| itsHandle := itsHandle c; edit := e; mode := mode c; usbSerial := usbSerial c; color := color c;
     noPrompt := noPrompt c; lineBuf := lineBuf c; cols := cols c; rows := rows c; cwd := cwd c;
     pendingClose := pendingClose c; loginRequired := loginRequired c; authed := authed c;
     pwTries := pwTries c; pwBuf := pwBuf c |}.
Definition sl_handle (c : cli_slot_t) (h : Z) : cli_slot_t :=
  {| itsHandle := h; edit := edit c; mode := mode c; usbSerial := usbSerial c; color := color c;
     noPrompt := noPrompt c; lineBuf := lineBuf c; cols := cols c; rows := rows c; cwd := cwd c;
     pendingClose := pendingClose c; loginRequired := loginRequired c; authed := authed c;
     pwTries := pwTries c; pwBuf := pwBuf c |}.
Definition sl_line (c : cli_slot_t) (l : bytes) : cli_slot_t :=
  {| itsHandle := itsHandle c; edit := edit c; mode := mode c; usbSerial := usbSerial c; color := color c;
     noPrompt := noPrompt c; lineBuf := l; cols := cols c; rows := rows c; cwd := cwd c;
     pendingClose := pendingClose c; loginRequired := loginRequired c; authed := authed c;
     pwTries := pwTries c; pwBuf := pwBuf c |}.
Definition sl_cwd (c : cli_slot_t) (d : bytes) : cli_slot_t :=
  {| itsHandle := itsHandle c; edit := edit c; mode := mode c; usbSerial := usbSerial c; color := color c;
     noPrompt := noPrompt c; lineBuf := lineBuf c; cols := cols c; rows := rows c; cwd := d;
     pendingClose := pendingClose c; loginRequired := loginRequired c; authed := authed c;
     pwTries := pwTries c; pwBuf := pwBuf c |}.
Definition sl_close (c : cli_slot_t) (p : bool) : cli_slot_t :=
  {| itsHandle := itsHandle c; edit := edit c; mode := mode c; usbSerial := usbSerial c; color := color c;
     noPrompt := noPrompt c; lineBuf := lineBuf c; cols := cols c; rows := rows c; cwd := cwd c;
     pendingClose := p; loginRequired := loginRequired c; authed := authed c;
     pwTries := pwTries c; pwBuf := pwBuf c |}.
Definition sl_login (c : cli_slot_t) (a : bool) (n : Z) (pw : bytes) : cli_slot_t :=
  {| itsHandle := itsHandle c; edit := edit c; mode := mode c; usbSerial := usbSerial c; color := color c;
     noPrompt := noPrompt c; lineBuf := lineBuf c; cols := cols c; rows := rows c; cwd := cwd c;
     pendingClose := pendingClose c; loginRequired := loginRequired c; authed := a;
     pwTries := n; pwBuf := pw |}.

Section State.
Context {W : Type}.
Notation st := (cli_st W).

Definition with_world (s : st) (w : W) : st :=
  {| cmds := cmds s; histDq := histDq s; cliSlots := cliSlots s; cliUsbPersistCwd := cliUsbPersistCwd s;
     cliUsbSerialAutoResumeLog := cliUsbSerialAutoResumeLog s; cliActiveSlot := cliActiveSlot s;
     serialInCli := serialInCli s; cliOut := cliOut s; bad := bad s; world := w |}.
Definition with_cmds (s : st) (c : list cli_cmd_entry_t) : st :=
  {| cmds := c; histDq := histDq s; cliSlots := cliSlots s; cliUsbPersistCwd := cliUsbPersistCwd s;
     cliUsbSerialAutoResumeLog := cliUsbSerialAutoResumeLog s; cliActiveSlot := cliActiveSlot s;
     serialInCli := serialInCli s; cliOut := cliOut s; bad := bad s; world := world s |}.
Definition with_hist (s : st) (h : list bytes) : st :=
  {| cmds := cmds s; histDq := h; cliSlots := cliSlots s; cliUsbPersistCwd := cliUsbPersistCwd s;
     cliUsbSerialAutoResumeLog := cliUsbSerialAutoResumeLog s; cliActiveSlot := cliActiveSlot s;
     serialInCli := serialInCli s; cliOut := cliOut s; bad := bad s; world := world s |}.
Definition with_slots (s : st) (l : list cli_slot_t) (b : bool) : st :=
  {| cmds := cmds s; histDq := histDq s; cliSlots := l; cliUsbPersistCwd := cliUsbPersistCwd s;
     cliUsbSerialAutoResumeLog := cliUsbSerialAutoResumeLog s; cliActiveSlot := cliActiveSlot s;
     serialInCli := serialInCli s; cliOut := cliOut s; bad := b; world := world s |}.
Definition with_usbcwd (s : st) (d : bytes) : st :=
  {| cmds := cmds s; histDq := histDq s; cliSlots := cliSlots s; cliUsbPersistCwd := d;
     cliUsbSerialAutoResumeLog := cliUsbSerialAutoResumeLog s; cliActiveSlot := cliActiveSlot s;
     serialInCli := serialInCli s; cliOut := cliOut s; bad := bad s; world := world s |}.
Definition with_active (s : st) (i : Z) : st :=
  {| cmds := cmds s; histDq := histDq s; cliSlots := cliSlots s; cliUsbPersistCwd := cliUsbPersistCwd s;
     cliUsbSerialAutoResumeLog := cliUsbSerialAutoResumeLog s; cliActiveSlot := i;
     serialInCli := serialInCli s; cliOut := cliOut s; bad := bad s; world := world s |}.
Definition with_serial (s : st) (resume inCli : bool) : st :=
  {| cmds := cmds s; histDq := histDq s; cliSlots := cliSlots s; cliUsbPersistCwd := cliUsbPersistCwd s;
     cliUsbSerialAutoResumeLog := resume; cliActiveSlot := cliActiveSlot s;
     serialInCli := inCli; cliOut := cliOut s; bad := bad s; world := world s |}.
Definition with_out (s : st) (o : option cli_write_fn) : st :=
  {| cmds := cmds s; histDq := histDq s; cliSlots := cliSlots s; cliUsbPersistCwd := cliUsbPersistCwd s;
     cliUsbSerialAutoResumeLog := cliUsbSerialAutoResumeLog s; cliActiveSlot := cliActiveSlot s;
     serialInCli := serialInCli s; cliOut := o; bad := bad s; world := world s |}.

(** [cliSlots[i]], and an assignment through it. *)
Definition slot (s : st) (i : Z) : cli_slot_t :=
  if 0 <=? i then default slot0 (cliSlots s !! Z.to_nat i) else slot0.

Definition upd (s : st) (i : Z) (f : cli_slot_t -> cli_slot_t) : st :=
  if (0 <=? i) && (i <? Zlen (cliSlots s))
  then with_slots s (alter f (Z.to_nat i) (cliSlots s)) (bad s)
  else with_slots s (cliSlots s) true.

(** The edit state of slot [i], and an assignment to it. *)
Definition ed (s : st) (i : Z) : cli_edit := edit (slot s i).
Definition upd_ed (s : st) (i : Z) (f : cli_edit -> cli_edit) : st := upd s i (fun c => sl_edit c (f (edit c))).

End State.

(** ** The registry *)

Definition cliWantsHelp (args : bytes) : bool :=
  streq args ($ "help") || streq args ($ "-h") || streq args ($ "--help").

Definition cliVerbIs (tok full : bytes) (minLen : Z) : bool :=
  (minLen <=? Zlen tok) && (Zlen tok <=? Zlen full) && has_prefix tok full.

Fixpoint insertCmd (e : cli_cmd_entry_t) (l : list cli_cmd_entry_t) : list cli_cmd_entry_t :=
  match l with
  | x :: l' => match strcmp (cmd x) (cmd e) with Lt => x :: insertCmd e l' | _ => e :: l end
  | [] => [e]
  end.

Definition cliRegisterCmd {W} (s : cli_st W) (name : bytes) (f : Z) : cli_st W :=
  with_cmds s (insertCmd {| cmd := name; cb := f; cmdLen := Zlen name |} (cmds s)).

(** [strncmp(line, e.cmd, e.cmdLen) == 0] and the word ends there. *)
Definition matches (line : bytes) (e : cli_cmd_entry_t) : bool :=
  has_prefix (cmd e) line &&
  match drop (Z.to_nat (cmdLen e)) line with [] => true | c :: _ => c =? 32 end.

(** The loop over the registry: [bestIdx], [bestLen]. *)
Fixpoint bestMatch (line : bytes) (l : list cli_cmd_entry_t) (i bestIdx bestLen : Z) : Z * Z :=
  match l with
  | [] => (bestIdx, bestLen)
  | e :: l' =>
      if matches line e && (bestLen <? cmdLen e) then bestMatch line l' (i + 1) i (cmdLen e)
      else bestMatch line l' (i + 1) bestIdx bestLen
  end.

Definition is_space (c : Z) : bool := c =? 32.

Definition cliLongestCmdMatch (l : list cli_cmd_entry_t) (line : bytes) : Z * Z :=
  bestMatch (skip_while is_space line) l 0 (-1) 0.

(** ** History *)

Definition histAdd (h : list bytes) (c : bytes) : list bytes :=
  if match h with x :: _ => streq x c | [] => false end then h
  else
    let h := c :: h in
    if HIST_SIZE <? Zlen h then take (pred (length h)) h else h.

Definition histGet (h : list bytes) (i : Z) : option bytes :=
  if (i <? 0) || (Zlen h <=? i) then None else h !! Z.to_nat i.

(** ** Output *)

Definition ESC : Z := 27.
Definition CRLF : bytes := [13; 10].
Definition CYAN : bytes := ESC :: $ "[36m".
Definition RESET : bytes := ESC :: $ "[0m".
Definition CLI_C_HOST : bytes := ESC :: $ "[1;32m".
Definition CLI_C_RESET : bytes := ESC :: $ "[0m".
Definition CLEAR : bytes := ESC :: $ "[J".
Definition CURSOR_BAR : bytes := ESC :: $ "[2 q".
Definition CURSOR_DEFAULT : bytes := ESC :: $ "[0 q".

(** The runs [itsCliWrite] sends where it adds carriage returns: [prev] is the byte before
    [data], [run] what lies between [start] and it. *)
Fixpoint crlfRuns (prev : option Z) (run data : bytes) : list bytes :=
  match data with
  | [] => if Zlen run =? 0 then [] else [run]
  | c :: data' =>
      if negb (c =? 10) then crlfRuns (Some c) (run ++ [c]) data'
      else if bool_decide (prev = Some 13) then crlfRuns (Some c) (run ++ [c]) data'
      else (if Zlen run =? 0 then [] else [run]) ++ [CRLF] ++ crlfRuns (Some c) [] data'
  end.

Section Output.
Context {W : Type} `{E : CliEnv W}.
Notation st := (cli_st W).

(** Each round takes a byte or is one of 151 stalls in a row, so [152 * (len + 1)] rounds
    are enough. *)
Fixpoint sendLoop (fuel : nat) (h : Z) (data : bytes) (stalls : Z) (w : W) : W :=
  match fuel with
  | O => w
  | S f =>
      if Zlen data =? 0 then w
      else
        let '(sent, w) := itsSend h data w in
        if sent =? 0 then
          if negb (itsConnected h w) then w
          else if 150 <? stalls + 1 then w
          else sendLoop f h data (stalls + 1) w
        else sendLoop f h (drop (Z.to_nat sent) data) 0 w
  end.

Definition itsSendAll (h : Z) (data : bytes) (w : W) : W := sendLoop (152 * S (length data)) h data 0 w.

Definition itsCliWrite (data : bytes) (s : st) : st :=
  if cliActiveSlot s <? 0 then s
  else
    let cl := slot s (cliActiveSlot s) in
    let h := itsHandle cl in
    if h <? 0 then s
    else if (mode cl =? CLI_ANSI) && negb (usbSerial cl)
    then with_world s (foldl (fun w r => itsSendAll h r w) (world s) (crlfRuns None [] data))
    else with_world s (itsSendAll h data (world s)).

Definition cronCliWrite (data : bytes) (s : st) : st := with_world s (info (($ "cron: ") ++ data) (world s)).

(** A call through a [cli_write_fn]. *)
Definition put (wr : cli_write_fn) (data : bytes) (s : st) : st :=
  match wr with W_itsCliWrite => itsCliWrite data s | W_cronCliWrite => cronCliWrite data s end.

(** [cliPrintf] of the formatted text: past 4095 bytes it is cut, with a warning. *)
Definition cliPrintf (text : bytes) (s : st) : st :=
  match cliOut s with
  | None => s
  | Some wr =>
      let '(text, s) :=
        if 4096 <? Zlen text + 1
        then (take 4095 text, with_world s (warn ($ "cli: output over 4096 B truncated") (world s)))
        else (text, s) in
      if 0 <? Zlen text then put wr text s else s
  end.

Fixpoint writeChunks (fuel : nat) (wr : cli_write_fn) (data : bytes) (s : st) : st :=
  match fuel with
  | O => s
  | S f => if Zlen data =? 0 then s else writeChunks f wr (drop 512 data) (put wr (take 512 data) s)
  end.

Definition cliWrite (data : bytes) (s : st) : st :=
  match cliOut s with
  | None => s
  | Some wr => writeChunks (length data) wr data s
  end.

Definition cliIsAnsi (s : st) : bool := (0 <=? cliActiveSlot s) && (mode (slot s (cliActiveSlot s)) =? CLI_ANSI).
Definition cliWantsColor (s : st) : bool := cliIsAnsi s && color (slot s (cliActiveSlot s)).
Definition cliColorWrite (wr : cli_write_fn) (q : bytes) (s : st) : st := if cliWantsColor s then put wr q s else s.

Definition active_usb (s : st) : bool := (0 <=? cliActiveSlot s) && usbSerial (slot s (cliActiveSlot s)).

Definition cliRequestSessionEnd (s : st) : st :=
  if 0 <=? cliActiveSlot s then upd s (cliActiveSlot s) (fun c => sl_close c true) else s.

Definition RETURNING : bytes := CRLF ++ CRLF ++ ($ "Returning to log") ++ CRLF.

Definition cliReturnToLog (wr : cli_write_fn) (s : st) : st := put wr RETURNING (cliColorWrite wr RESET s).

(** [cliTermSize], and the width the cursor arithmetic uses. *)
Definition cliTermSize (s : st) : Z * Z :=
  let c := slot s (cliActiveSlot s) in
  if (0 <=? cliActiveSlot s) && (cliActiveSlot s <? Z.of_nat CLI_MAX_CLIENTS)
  then (if 0 <? cols c then cols c else 80, if 0 <? rows c then rows c else 24)
  else (80, 24).

Definition cliTermWidth (s : st) : Z :=
  let c := cols (slot s (cliActiveSlot s)) in
  if (0 <=? cliActiveSlot s) && (0 <? c) then c else 80.

(** [host[48]] and the separator fit the callers' 64 bytes. *)
Definition cliPromptBuild (s : st) : bytes :=
  let host := storageGetStr ($ "s.net.hostname") 48 fw_hostname (world s) in
  (if Zlen host =? 0 then safeStrncpy fw_hostname 48 else host) ++ $ " $ ".

Definition cliPromptLen (s : st) : Z := Zlen (cliPromptBuild s).

Definition cliWritePrompt (wr : cli_write_fn) (s : st) : st :=
  let b := cliPromptBuild s in
  let n := Zlen b in
  let hostLen := if 3 <? n then n - 3 else n in
  let s := cliColorWrite wr CLI_C_HOST s in
  let s := put wr (take (Z.to_nat hostLen) b) s in
  let s := cliColorWrite wr CLI_C_RESET s in
  if hostLen <? n then put wr (drop (Z.to_nat hostLen) b) s else s.

(** Both sequences fit [buf[24]] for every line that fits memory. *)
Definition moveSeq (w p fromPos toPos : Z) : bytes :=
  let frRow := (p + fromPos) / w in
  let toRow := (p + toPos) / w in
  let toCol := (p + toPos) mod w in
  (if toRow <? frRow then ESC :: ($ "[") ++ sdec (frRow - toRow) ++ $ "A"
   else if frRow <? toRow then ESC :: ($ "[") ++ sdec (toRow - frRow) ++ $ "B" else []) ++
  ESC :: ($ "[") ++ sdec (toCol + 1) ++ $ "G".

Definition cliMoveCursor (fromPos toPos : Z) (wr : cli_write_fn) (s : st) : st :=
  if fromPos =? toPos then s
  else
    let w := cliTermWidth s in
    let w := if w <? 1 then 80 else w in
    put wr (moveSeq w (cliPromptLen s) fromPos toPos) s.

End Output.

(** ** Working directories, the dispatcher, aliases and scripts *)

(** ** Working directories *)

Section Paths.
Context {W : Type} `{E : CliEnv W}.
Notation st := (cli_st W).

Definition ROOT : bytes := [SLASH].
Definition starts_slash (d : bytes) : bool := match d with c :: _ => is_slash c | [] => false end.

Definition cliResolvedStartDir (s : st) (outLen : nat) : bytes :=
  let d := storageGetStr ($ "s.cli.start_dir") 256 ROOT (world s) in
  let d := if starts_slash d then d else safeStrncpy ROOT 256 in
  let tmp := safeStrncpy d 256 in
  let tmp := default (safeStrncpy ROOT 256) (cliCollapseAbsolute tmp 256) in
  let tmp := if fs_isdir tmp (world s) then tmp else safeStrncpy ROOT 256 in
  safeStrncpy tmp outLen.

Definition cliApplyStartDir (i : Z) (s : st) : st := upd s i (fun c => sl_cwd c (cliResolvedStartDir s 256)).

Definition no_session (s : st) : bool :=
  (cliActiveSlot s <? 0) || (Z.of_nat CLI_MAX_CLIENTS <=? cliActiveSlot s).

(** The copy of the working directory the USB sessions keep. *)
Definition keepUsbCwd (i : Z) (s : st) : st :=
  if usbSerial (slot s i) then with_usbcwd s (safeStrncpy (cwd (slot s i)) 256) else s.

Definition cliCdToStartDir (s : st) : st :=
  if no_session s then s else keepUsbCwd (cliActiveSlot s) (cliApplyStartDir (cliActiveSlot s) s).

Definition cliGetCwd (s : st) (outLen : nat) : bytes :=
  let c := slot s (cliActiveSlot s) in
  if negb (no_session s) && (0 <=? itsHandle c) && starts_slash (cwd c) then safeStrncpy (cwd c) outLen
  else cliResolvedStartDir s outLen.

Definition cliSetCwd (absolutePath : bytes) (s : st) : st * bool :=
  if no_session s then (s, false)
  else
    let tmp := safeStrncpy absolutePath 256 in
    if negb (starts_slash tmp) then (s, false)
    else
      match cliCollapseAbsolute tmp 256 with
      | None => (s, false)
      | Some tmp =>
          if streq tmp ROOT || fs_isdir tmp (world s)
          then (keepUsbCwd (cliActiveSlot s) (upd s (cliActiveSlot s) (fun c => sl_cwd c (safeStrncpy tmp 256))), true)
          else (s, false)
      end.

Definition cliResolveFsPath (userPath : bytes) (outLen : nat) (s : st) : option bytes :=
  let cwd := cliGetCwd s 256 in
  if Zlen userPath =? 0 then Some (safeStrncpy cwd outLen)
  else
    let work := if starts_slash userPath then userPath else cwd ++ [SLASH] ++ userPath in
    if 320 <=? Zlen work then None
    else
      work ← cliCollapseAbsolute work 320;
      if Z.of_nat outLen <=? Zlen work then None else Some (safeStrncpy work outLen).

End Paths.

(** ** The dispatcher *)

Definition is_blank (c : Z) : bool := (c =? 13) || (c =? 10) || (c =? 32) || (c =? 9).
Definition trimEnd (p : Z -> bool) (l : bytes) : bytes := rev (skip_while p (rev l)).
Definition SEMI : Z := 59.
Definition HASH : Z := 35.

Definition cliLineEndsWithSemicolon (line : bytes) : bool :=
  match rev (trimEnd (fun c => (c =? 32) || (c =? 9)) line) with c :: _ => c =? SEMI | [] => false end.

Definition CLI_ALIAS_PREFIX : bytes := $ "s.cli.aliases.".
Definition not_space (c : Z) : bool := negb (c =? 32).

(** [snprintf] of the key of an alias into [key[80]]; [None]: it does not fit. *)
Definition aliasKey (name : bytes) : option bytes :=
  let key := CLI_ALIAS_PREFIX ++ name in
  if Zlen key <? 80 then Some key else None.

Section Dispatch.
Context {W : Type} `{E : CliEnv W}.
Notation st := (cli_st W).

(** What a command's callback does with its arguments. *)
Variable run : Z -> bytes -> st -> st.

(** The alias expansion, once. *)
Definition expandAlias (line : bytes) (s : st) : bytes :=
  let word := take_while not_space line in
  let sp := drop (length word) line in
  if Zlen word =? 0 then line
  else
    match aliasKey word with
    | None => line
    | Some key =>
        if storageExists key (world s)
        then trunc 384 (storageGetStr key 192 [] (world s) ++ sp)
        else line
    end.

(** Longest match first. *)
Definition dispatch (line : bytes) (s : st) : st :=
  let '(bestIdx, bestLen) := bestMatch line (cmds s) 0 (-1) 0 in
  match (if 0 <=? bestIdx then cmds s !! Z.to_nat bestIdx else None) with
  | Some e => run (cb e) (skip_while is_space (drop (Z.to_nat bestLen) line)) s
  | None =>
      if Zlen line =? 0 then s
      else cliPrintf (line ++ ($ ": unknown command. Type ") ++ [34] ++ ($ "help") ++ [34] ++ ($ " for help.") ++ [10]) s
  end.

(** Each part is shorter than the line, so its length bounds the recursion. *)
Fixpoint process (fuel : nat) (line : bytes) (s : st) : st :=
  match fuel with
  | O => s
  | S f =>
      let line := trimEnd is_blank (skip_while is_space line) in
      match line with
      | [] => s
      | c :: _ =>
          if c =? HASH then s
          else
            match strchr line SEMI with
            | Some (part, rest) => process f rest (process f part s)
            | None => dispatch (expandAlias line s) s
            end
      end
  end.

Definition cliProcess (line : bytes) (s : st) : st := process (S (length line)) line s.

(** ** Its own commands *)

(** [%-*s description] with CLI_HELP_COL. *)
Definition helpLine (usage text : bytes) : bytes :=
  usage ++ replicate (Z.to_nat CLI_HELP_COL - length usage) 32 ++ [32] ++ text ++ [10].

Definition aliasName (key : bytes) : bytes :=
  if has_prefix CLI_ALIAS_PREFIX key then drop (length CLI_ALIAS_PREFIX) key else key.

Definition cliAliasPrint (s : st) (kv : bytes * bytes) : st :=
  cliPrintf (($ "alias ") ++ aliasName kv.1 ++ [32] ++ kv.2 ++ [10]) s.

Definition cmdAlias (a : bytes) (s : st) : st :=
  if cliWantsHelp a then cliPrintf (helpLine ($ "alias [<name> <cmd>]") ($ "define/list command aliases")) s
  else if Zlen a =? 0 then
    match storageForEach CLI_ALIAS_PREFIX (world s) with
    | [] => cliPrintf (($ "(no aliases)") ++ [10]) s
    | l => foldl cliAliasPrint s l
    end
  else
    let name := take_while not_space a in
    let sp := skip_while is_space (drop (length name) a) in
    if bool_decide (chr "." ∈ name) then cliPrintf (($ "alias: name may not contain '.'") ++ [10]) s
    else
      match (if Zlen name =? 0 then None else aliasKey name) with
      | None => cliPrintf (($ "alias: bad name") ++ [10]) s
      | Some key =>
          if Zlen sp =? 0 then
            if storageExists key (world s)
            then cliPrintf (($ "alias ") ++ name ++ [32] ++ storageGetStr key 192 [] (world s) ++ [10]) s
            else cliPrintf (($ "alias: ") ++ name ++ ($ " not set") ++ [10]) s
          else with_world s (storageSet key sp (world s))
      end.

Definition cmdUnalias (a : bytes) (s : st) : st :=
  if cliWantsHelp a then cliPrintf (helpLine ($ "unalias <name>") ($ "remove a command alias")) s
  else
    let name := take_while not_space a in
    match (if Zlen name =? 0 then None else aliasKey name) with
    | None => cliPrintf (($ "usage: unalias <name>") ++ [10]) s
    | Some key =>
        if negb (storageExists key (world s)) then cliPrintf (($ "unalias: ") ++ name ++ ($ " not set") ++ [10]) s
        else with_world s (storageUnset key (world s))
    end.

(** [cliReturnToLog(cliOut)] is only reached from a running session, where it is set. *)
Definition cmdExit (a : bytes) (s : st) : st :=
  if cliWantsHelp a then cliPrintf (helpLine ($ "exit") ($ "end this CLI session")) s
  else
    let s := if active_usb s then match cliOut s with Some wr => cliReturnToLog wr s | None => s end else s in
    cliRequestSessionEnd s.

Definition cmdHelp (a : bytes) (s : st) : st :=
  if streq a ($ "help") then cliPrintf (helpLine ($ "help [<cmd>]") ($ "list commands")) s
  else if negb (Zlen a =? 0) && negb (streq a ($ "-h")) && negb (streq a ($ "--help")) then
    match list_find (fun e => cmd e = a) (cmds s) with
    | Some (_, e) => run (cb e) ($ "-h") s
    | None => cliPrintf (($ "unknown command: ") ++ a ++ [10]) s
    end
  else
    let s := cliPrintf (($ "Type '<command> -h' for more on any command.") ++ [10; 10]) s in
    foldl (fun s e => run (cb e) ($ "help") s) s (cmds s).

(** ** Scripts *)

Definition is_eol (c : Z) : bool := (c =? 10) || (c =? 13).

(** A line of the script: logged unless blank or a comment, then processed. *)
Definition runLine (ln : bytes) (s : st) : st :=
  let ln := c_str ln in
  let s :=
    match skip_while is_space ln with
    | [] => s
    | (c :: _) as l => if c =? HASH then s else with_world s (info (($ "cli: ") ++ l ++ [10]) (world s))
    end in
  cliProcess ln s.

(** The complete lines of [buf], from [start] on ([cur] is what lies between [start] and the
    scan); what is left over is the partial line. *)
Fixpoint runLines (cur buf : bytes) (s : st) : bytes * st :=
  match buf with
  | [] => (cur, s)
  | c :: buf' =>
      if is_eol c then runLines [] buf' (if Zlen cur =? 0 then s else runLine cur s)
      else runLines (cur ++ [c]) buf' s
  end.

(** The reads into [char buf[128]] after the [part] kept from the round before. A round
    reads a byte, or is the last. *)
Fixpoint scriptLoop (fuel : nat) (f : Z) (part : bytes) (s : st) : option st :=
  match fuel with
  | O => None
  | S fu =>
      let '(data, w) := fs_read f (128 - Zlen part - 1) (world s) in
      let s := with_world s w in
      if (Zlen data =? 0) && (Zlen part =? 0) then Some s
      else
        let '(part, s) := runLines [] (part ++ data) s in
        if Zlen data =? 0 then Some (if 0 <? Zlen part then runLine part s else s)
        else scriptLoop fu f part s
  end.

Definition cliRunFile (fuel : nat) (path : bytes) (s : st) : option st :=
  let '(f, w) := fs_open path (world s) in
  let s := with_world s w in
  if f <? 0 then Some s
  else
    let s := with_world s (info (($ "cli: run ") ++ path ++ [10]) (world s)) in
    s ← scriptLoop fuel f [] s;
    let s := with_world s (fs_close f (world s)) in
    Some (with_world s (info (($ "cli: end ") ++ path ++ [10]) (world s))).

End Dispatch.
