(* ===== verification/CliEditor.v ===== *)
(** * cli: the line editor (cli.cpp)

    The operations work on the edit state of slot [i] ([cli_edit& e]); what they write goes
    to the active slot, as in the code. *)

From S2P Require Import Prelude CLib CliPath Cli.
Open Scope Z_scope.
Open Scope spangap_scope.

Section Editor.
Context {W : Type} `{E : CliEnv W}.
Notation st := (cli_st W).
Variable run : Z -> bytes -> st -> st.

Definition insert_at (i : Z) (x b : bytes) : bytes := take (Z.to_nat i) b ++ x ++ drop (Z.to_nat i) b.
Definition erase_at (i : Z) (b : bytes) : bytes := take (Z.to_nat i) b ++ drop (S (Z.to_nat i)) b.

Definition cliEditRefresh (i : Z) (from : Z) (wr : cli_write_fn) (s : st) : st :=
  let s := cliMoveCursor from 0 wr s in
  let s := put wr CLEAR s in
  let e := ed s i in
  let s := if Zlen (buf e) =? 0 then s else put wr (buf e) s in
  cliMoveCursor (Zlen (buf e)) (cursor e) wr s.

Definition cliEditReplace (i : Z) (text : bytes) (wr : cli_write_fn) (s : st) : st :=
  let ansi := cliIsAnsi s in
  let s := cliMoveCursor (cursor (ed s i)) 0 wr s in
  let s := put wr CLEAR s in
  let s := upd_ed s i (fun e => ed_line e text (Zlen text)) in
  if Zlen text =? 0 then (if ansi then cliColorWrite wr RESET s else s)
  else put wr text (if ansi then cliColorWrite wr CYAN s else s).

(** ** Tab completion *)

Definition cliCmdWantsFileArgs (l : list cli_cmd_entry_t) (cmdIdx : Z) : bool :=
  if cmdIdx <? 0 then false
  else
    match l !! Z.to_nat cmdIdx with
    | None => false
    | Some e => existsb (streq (cmd e))
        [$ "ls"; $ "cd"; $ "mkdir"; $ "rm"; $ "cat"; $ "df"; $ "run"; $ "logfile"]
    end.

(** The word that ends at the cursor: what follows the last space before it. *)
Definition wordBefore (b : bytes) (cur : Z) : bytes :=
  rev (take_while not_space (rev (take (Z.to_nat cur) b))).

(** [word] cut at its last slash: what is before it and after it. *)
Definition cutSlash (word : bytes) : option (bytes * bytes) :=
  match strchr (rev word) SLASH with
  | Some (post, pre) => Some (rev pre, rev post)
  | None => None
  end.

Fixpoint commonPrefix (a b : bytes) : bytes :=
  match a, b with
  | x :: a', y :: b' => if x =? y then x :: commonPrefix a' b' else []
  | _, _ => []
  end.

(** The loop over the listing: [match] after the names that start with [prefix]. *)
Definition matchName (prefix : bytes) (m : option bytes) (name : bytes) : option bytes :=
  if has_prefix prefix name then
    match m with
    | None => Some (safeStrncpy name 128)
    | Some m => Some (commonPrefix m name)
    end
  else m.

(** The directory to list and the prefix of the name; [None]: an early return. *)
Definition tabTarget (word : bytes) (s : st) : option (bytes * bytes) :=
  match cutSlash word with
  | Some (dirSeg, prefix) =>
      if 256 <=? Zlen dirSeg then None
      else
        dirPath ← cliResolveFsPath (if Zlen dirSeg =? 0 then DOT else dirSeg) 256 s;
        if 128 <=? Zlen prefix then None else Some (dirPath, prefix)
  | None => if 128 <=? Zlen word then None else Some (cliGetCwd s 256, word)
  end.

Definition cliTabComplete (i : Z) (wr : cli_write_fn) (s : st) : st :=
  let e := ed s i in
  let word := wordBefore (buf e) (cursor e) in
  let line0 := skip_while is_space (buf e) in
  let '(cmdIdx, cmdLen) := cliLongestCmdMatch (cmds s) line0 in
  let cmdEndIdx := Zlen (buf e) - Zlen line0 + cmdLen in
  if negb (cliCmdWantsFileArgs (cmds s) cmdIdx) || (cursor e <=? cmdEndIdx) ||
     match word with c :: _ => c =? 45 | [] => false end then s
  else
    match tabTarget word s with
    | None => s
    | Some (dirPath, prefix) =>
        match foldl (matchName prefix) None (fs_listdir dirPath 128 (world s)) with
        | None => s
        | Some m =>
            if Zlen m <=? Zlen prefix then s
            else
              let suffix := drop (length prefix) m in
              let s := upd_ed s i (fun e => ed_line e (insert_at (cursor e) suffix (buf e)) (cursor e + Zlen suffix)) in
              cliEditRefresh i (cursor (ed s i) - Zlen suffix) wr s
        end
    end.

(** ** Keys *)

Definition cliEditGoto (i : Z) (to : Z) (wr : cli_write_fn) (s : st) : st :=
  if to =? cursor (ed s i) then s
  else
    let s := cliMoveCursor (cursor (ed s i)) to wr s in
    let s := upd_ed s i (fun e => ed_line e (buf e) to) in
    put wr (if to <? Zlen (buf (ed s i)) then CURSOR_BAR else CURSOR_DEFAULT) s.

(** Up, down, DEL. *)
Definition keyUp (i : Z) (wr : cli_write_fn) (s : st) : st :=
  let e := ed s i in
  let next := histIdx e + 1 in
  match histGet (histDq s) next with
  | None => s
  | Some h =>
      let s := upd_ed s i (fun e => if histIdx e <? 0 then ed_hist e (buf e) next true
                                    else ed_hist e (saved e) next (savedValid e)) in
      cliEditReplace i h wr s
  end.

Definition keyDown (i : Z) (wr : cli_write_fn) (s : st) : st :=
  let e := ed s i in
  if 0 <? histIdx e then
    let s := upd_ed s i (fun e => ed_hist e (saved e) (histIdx e - 1) (savedValid e)) in
    match histGet (histDq s) (histIdx e - 1) with
    | None => s
    | Some h => cliEditReplace i h wr s
    end
  else if histIdx e =? 0 then
    let s := upd_ed s i (fun e => ed_hist e (saved e) (-1) (savedValid e)) in
    let s := cliEditReplace i (if savedValid e then saved e else []) wr s in
    upd_ed s i (fun e => ed_hist e (saved e) (histIdx e) false)
  else s.

Definition keyDel (i : Z) (wr : cli_write_fn) (s : st) : st :=
  let ansi := cliIsAnsi s in
  let s := upd_ed s i (fun e => ed_line e (erase_at (cursor e) (buf e)) (cursor e)) in
  let e := ed s i in
  if (Zlen (buf e) =? 0) && ansi
  then put wr CURSOR_DEFAULT (put wr CLEAR (cliColorWrite wr RESET s))
  else
    let s := cliEditRefresh i (cursor e) wr s in
    if cursor e =? Zlen (buf e) then put wr CURSOR_DEFAULT s else s.

Definition cliEditEscKey (i : Z) (final param : Z) (wr : cli_write_fn) (s : st) : st :=
  let e := ed s i in
  let len := Zlen (buf e) in
  if final =? chr "D" then (if 0 <? cursor e then cliEditGoto i (cursor e - 1) wr s else s)
  else if final =? chr "C" then (if cursor e <? len then cliEditGoto i (cursor e + 1) wr s else s)
  else if final =? chr "A" then keyUp i wr s
  else if final =? chr "B" then keyDown i wr s
  else if final =? chr "H" then cliEditGoto i 0 wr s
  else if final =? chr "F" then cliEditGoto i len wr s
  else if final =? chr "~" then
    if (param =? 3) && (cursor e <? len) then keyDel i wr s
    else if (param =? 1) || (param =? 7) then cliEditGoto i 0 wr s
    else if (param =? 4) || (param =? 8) then cliEditGoto i len wr s
    else s
  else s.

(** *** Characters *)

(** Enter on a line that is not empty. *)
Definition enterLine (i : Z) (ansi : bool) (wr : cli_write_fn) (s : st) : st :=
  let lineCopy := buf (ed s i) in
  let s := with_hist s (histAdd (histDq s) lineCopy) in
  let s := upd_ed s i (fun e => ed_hist (ed_line e [] 0) (saved e) (-1) false) in
  let ends := (0 <=? cliActiveSlot s) && cliLineEndsWithSemicolon lineCopy in
  let resumeLog := ends && active_usb s in
  let itsHangup := ends && negb (active_usb s) in
  let s := put wr CRLF s in
  let s := if resumeLog
           then (let s := cliReturnToLog wr s in with_serial s (cliUsbSerialAutoResumeLog s) false) else s in
  let s := with_out s (Some wr) in
  let s := cliProcess run lineCopy s in
  let stayCli := negb ends && negb ((0 <=? cliActiveSlot s) && pendingClose (slot s (cliActiveSlot s))) in
  if stayCli then
    let s := if ansi then cliWritePrompt wr (cliColorWrite wr RESET s) else s in
    put wr CURSOR_DEFAULT s
  else
    let s := cliColorWrite wr RESET s in
    let s := if resumeLog then with_serial s true (serialInCli s) else s in
    if itsHangup then upd s (cliActiveSlot s) (fun c => sl_close c true) else s.

Definition enterEmpty (ansi : bool) (wr : cli_write_fn) (s : st) : st :=
  if active_usb s then cliRequestSessionEnd (cliReturnToLog wr s)
  else if ansi then put wr CURSOR_DEFAULT (cliWritePrompt wr (put wr CRLF s))
  else s.

Definition backspace (i : Z) (ansi : bool) (wr : cli_write_fn) (s : st) : st :=
  if 0 <? cursor (ed s i) then
    let s := upd_ed s i (fun e => ed_line e (erase_at (cursor e - 1) (buf e)) (cursor e - 1)) in
    let e := ed s i in
    if (Zlen (buf e) =? 0) && ansi
    then put wr CURSOR_DEFAULT (put wr CLEAR (cliColorWrite wr RESET (cliMoveCursor (cursor e + 1) 0 wr s)))
    else cliEditRefresh i (cursor e + 1) wr s
  else s.

Definition typeChar (i : Z) (c : Z) (ansi : bool) (wr : cli_write_fn) (s : st) : st :=
  let e := ed s i in
  let atEnd := cursor e =? Zlen (buf e) in
  let s := if (Zlen (buf e) =? 0) && ansi then cliColorWrite wr CYAN s else s in
  let s := upd_ed s i (fun e => ed_line e (insert_at (cursor e) [c] (buf e)) (cursor e + 1)) in
  if atEnd then put wr [c] s else cliEditRefresh i (cursor (ed s i) - 1) wr s.

Definition in_range (lo hi c : Z) : bool := (lo <=? c) && (c <=? hi).

(** The escape-sequence states 2 and 4: inside a CSI sequence. *)
Definition csiByte (i : Z) (c : Z) (wr : cli_write_fn) (s : st) : st :=
  let e := ed s i in
  if in_range 48 63 c then
    if escState e =? 2 then
      if in_range 48 57 c then
        (if escParam e <? 10000 then upd_ed s i (fun e => ed_esc e (escState e) (escParam e * 10 + (c - 48))) else s)
      else upd_ed s i (fun e => ed_esc e 4 (escParam e))
    else s
  else if in_range 32 47 c then s
  else
    let s := upd_ed s i (fun e => ed_esc e 0 (escParam e)) in
    if in_range 64 126 c then cliEditEscKey i c (escParam e) wr s else s.

Definition cliEditChar (i : Z) (c : Z) (wr : cli_write_fn) (s : st) : st :=
  let ansi := cliIsAnsi s in
  let e := ed s i in
  if escState e =? 1 then
    upd_ed s i (fun e => ed_esc e (if c =? chr "[" then 2 else if c =? chr "O" then 3 else 0) 0)
  else if (escState e =? 2) || (escState e =? 4) then csiByte i c wr s
  else if escState e =? 3 then
    cliEditEscKey i c 0 wr (upd_ed s i (fun e => ed_esc e 0 (escParam e)))
  else if c =? ESC then upd_ed s i (fun e => ed_esc e 1 (escParam e))
  else if c =? 4 then
    cliRequestSessionEnd
      (if active_usb s then cliReturnToLog wr s else if ansi then put wr CRLF s else s)
  else if c =? 1 then cliEditGoto i 0 wr s
  else if c =? 5 then cliEditGoto i (Zlen (buf e)) wr s
  else if c =? 9 then cliTabComplete i wr s
  else if (c =? 10) || (c =? 13) then
    (if Zlen (buf e) =? 0 then enterEmpty ansi wr s else enterLine i ansi wr s)
  else if (c =? 127) || (c =? 8) then backspace i ansi wr s
  else if (32 <=? c) && (Zlen (buf e) <? 4096) then typeChar i c ansi wr s
  else s.

End Editor.
