(* ===== verification/CliTask.v ===== *)
(** * cli: sessions, the password gate and the task's loop (cli.cpp)

    [itsPoll] hands the task connects and disconnects, here the [events] of a poll; the
    other events are what other tasks did meanwhile. A pass of the loop is a poll, one read
    per slot, the sweep of closing slots and the cron commands. *)

From S2P Require Import Prelude CLib CliPath Cli CliEditor.
Open Scope Z_scope.
Open Scope spangap_scope.

(** ** Connect payloads *)

(** [%d] of [sscanf]: the value and what follows it. *)
Definition scan_int (s : bytes) : option (Z * bytes) :=
  let s := skip_while isspace s in
  let '(neg, t) := match s with
                   | c :: t => if c =? 45 then (true, t) else if c =? 43 then (false, t) else (false, s)
                   | [] => (false, s)
                   end in
  let ds := take_while isdigit t in
  if Zlen ds =? 0 then None
  else Some (clamp (- 2 ^ 31) (2 ^ 31 - 1) (if neg : bool then - dval ds else dval ds), drop (length ds) t).

(** [sscanf(b, "%dx%d", &cc, &rr) == 2]. *)
Definition scan_size (b : bytes) : option (Z * Z) :=
  '(cc, t) ← scan_int b;
  match t with
  | c :: t => if c =? chr "x" then '(rr, _) ← scan_int t; Some (cc, rr) else None
  | [] => None
  end.

(** [sizeof(cli_connect_t)]: five bytes, in this order. *)
Definition CONNECT_SIZE : Z := 5.
Definition byte_at (data : bytes) (i : nat) : Z := default 0 (data !! i).

Section Task.
Context {W : Type} `{E : CliEnv W}.
Notation st := (cli_st W).
Variable run : Z -> bytes -> st -> st.

(** ** Sessions *)

Fixpoint firstFree (l : list cli_slot_t) (i : Z) : Z :=
  match l with
  | [] => -1
  | c :: l' => if itsHandle c <? 0 then i else firstFree l' (i + 1)
  end.

Definition cliAllocSlot (handle : Z) (s : st) : st * Z :=
  let i := firstFree (cliSlots s) 0 in
  if i <? 0 then (s, -1) else (upd s i (fun c => sl_handle c handle), i).

Definition PASSWORD_PROMPT : bytes := $ "Enter admin password: ".
Definition AUTH_FAILED : bytes := ($ "Authentication failed.") ++ CRLF.

(** Writes of [cliInitSlot]: the new slot is active for them, and none after. *)
Definition asActive (i : Z) (f : st -> st) (s : st) : st := with_active (f (with_active s i)) (-1).

Definition cliInitSlot (i : Z) (s : st) : st :=
  let cl := slot s i in
  let s :=
    if usbSerial cl then
      let p := cliUsbPersistCwd s in
      let s := if starts_slash p && (streq p ROOT || fs_isdir p (world s))
               then upd s i (fun c => sl_cwd c (safeStrncpy p 256)) else cliApplyStartDir i s in
      with_usbcwd s (safeStrncpy (cwd (slot s i)) 256)
    else cliApplyStartDir i s in
  if loginRequired cl && negb (authed cl) then asActive i (itsCliWrite PASSWORD_PROMPT) s
  else if (mode cl =? CLI_ANSI) && negb (usbSerial cl) then
    asActive i (fun s => itsCliWrite CURSOR_DEFAULT (cliWritePrompt W_itsCliWrite s)) s
  else if (mode cl =? CLI_LINE) && negb (usbSerial cl) && negb (noPrompt cl) then
    asActive i (cliWritePrompt W_itsCliWrite) s
  else s.

(** The slot [cliTcpConnect] leaves for [cliInitSlot]. *)
Definition tcpSlot (c : cli_slot_t) (data : bytes) : cli_slot_t :=
  let full := Zlen data =? CONNECT_SIZE in
  let login := full && negb (byte_at data 4 =? 0) in
  {| itsHandle := itsHandle c; edit := edit0;
     mode := if full || ((1 <=? Zlen data) && (Zlen data <? CONNECT_SIZE)) then byte_at data 0 else CLI_LINE;
     usbSerial := full && negb (byte_at data 1 =? 0);
     color := if full then byte_at data 2 =? 0 else true;
     noPrompt := full && negb (byte_at data 3 =? 0);
     lineBuf := []; cols := cols c; rows := rows c; cwd := cwd c; pendingClose := pendingClose c;
     loginRequired := login; authed := negb login; pwTries := 0; pwBuf := [] |}.

Definition cliTcpConnect (handle : Z) (data : bytes) (s : st) : st * Z :=
  let '(s, i) := cliAllocSlot handle s in
  if i <? 0 then (s, -1) else (cliInitSlot i (upd s i (fun c => tcpSlot c data)), i).

(** The terminal size of the payload, where it has one. *)
Definition dcSize (data : bytes) : Z * Z :=
  if (0 <? Zlen data) && (Zlen data <? 16) then
    match scan_size (c_str data) with
    | Some (cc, rr) => if (0 <? cc) && (0 <? rr) then (cc, rr) else (80, 24)
    | None => (80, 24)
    end
  else (80, 24).

Definition dcSlot (c : cli_slot_t) (data : bytes) : cli_slot_t :=
  {| itsHandle := itsHandle c; edit := edit0; mode := CLI_ANSI; usbSerial := false; color := true;
     noPrompt := false; lineBuf := []; cols := (dcSize data).1; rows := (dcSize data).2; cwd := cwd c;
     pendingClose := pendingClose c; loginRequired := false; authed := true; pwTries := 0; pwBuf := [] |}.

Definition cliDcConnect (handle : Z) (data : bytes) (s : st) : st * Z :=
  let '(s, i) := cliAllocSlot handle s in
  if i <? 0 then (s, -1) else (cliInitSlot i (upd s i (fun c => dcSlot c data)), i).

Definition cliOnDisconnect (ref : Z) (s : st) : st :=
  if (0 <=? ref) && (ref <? Z.of_nat CLI_MAX_CLIENTS) then upd s ref (fun _ => slot0) else s.

Inductive event :=
  | EvTcp (handle : Z) (data : bytes)
  | EvDc (handle : Z) (data : bytes)
  | EvDisconnect (ref : Z)
  | EvOther (f : W -> W).

Definition deliver (s : st) (e : event) : st :=
  match e with
  | EvTcp h d => (cliTcpConnect h d s).1
  | EvDc h d => (cliDcConnect h d s).1
  | EvDisconnect r => cliOnDisconnect r s
  | EvOther f => with_world s (f (world s))
  end.

Definition poll (es : list event) (s : st) : st := foldl deliver s es.

(** ** Blocking reads inside a command *)

Inductive cli_echo_t := CLI_ECHO | CLI_ECHO_STARS | CLI_ECHO_NONE.

(** The bytes of one receive: the line so far and the escape state, or the answer
    ([None]: -1). *)
Fixpoint readBytes (outLen : Z) (echo : cli_echo_t) (rb out : bytes) (esc : Z) (s : st)
    : st * (bytes * Z + option bytes) :=
  match rb with
  | [] => (s, inl (out, esc))
  | c :: rb =>
      if esc =? 1 then readBytes outLen echo rb out (if (c =? chr "[") || (c =? chr "O") then 2 else 0) s
      else if esc =? 2 then readBytes outLen echo rb out (if in_range 64 126 c then 0 else 2) s
      else if c =? ESC then readBytes outLen echo rb out 1 s
      else if is_eol c then (cliWrite CRLF s, inr (Some out))
      else if c =? 3 then (cliWrite CRLF s, inr None)
      else if c =? 4 then
        if Zlen out =? 0 then (s, inr None) else readBytes outLen echo rb out esc s
      else if (c =? 127) || (c =? 8) then
        if 0 <? Zlen out then
          readBytes outLen echo rb (take (pred (length out)) out) esc
            (match echo with CLI_ECHO_NONE => s | _ => cliWrite [8; 32; 8] s end)
        else readBytes outLen echo rb out esc s
      else if c <? 32 then readBytes outLen echo rb out esc s
      else if Zlen out <? outLen - 1 then
        readBytes outLen echo rb (out ++ [c]) esc
          (match echo with
           | CLI_ECHO => cliWrite [c] s
           | CLI_ECHO_STARS => cliWrite ($ "*") s
           | CLI_ECHO_NONE => s
           end)
      else readBytes outLen echo rb out esc s
  end.

(** A round of the wait: whether the 90 s are over, what the poll before the receive
    delivers and what the poll that sleeps delivers. *)
Record round := { expired : bool; polled : list event; slept : list event }.

Fixpoint readRounds (rs : list round) (h outLen : Z) (echo : cli_echo_t) (out : bytes) (esc : Z) (s : st)
    : option (st * option bytes) :=
  match rs with
  | [] => None
  | r :: rs =>
      if expired r then Some (s, None)
      else
        let s := poll (polled r) s in
        let '(rb, w) := itsRecv h 128 (world s) in
        let s := with_world s w in
        if Zlen rb =? 0 then
          if negb (itsConnected h (world s)) then Some (s, None)
          else readRounds rs h outLen echo out esc (poll (slept r) s)
        else
          match readBytes outLen echo rb out esc s with
          | (s, inl (out, esc)) => readRounds rs h outLen echo out esc s
          | (s, inr a) => Some (s, a)
          end
  end.

Definition cliReadLine (rs : list round) (outLen : Z) (echo : cli_echo_t) (s : st) : option (st * option bytes) :=
  if outLen =? 0 then Some (s, None)
  else if no_session s then Some (s, None)
  else
    let h := itsHandle (slot s (cliActiveSlot s)) in
    if h <? 0 then Some (s, None) else readRounds rs h outLen echo [] 0 s.

(** [r]: the polls before the first receive and before the second. [None]: -1. *)
Definition cliReadRaw (r : round) (outLen : Z) (s : st) : st * option bytes :=
  if outLen =? 0 then (s, None)
  else if no_session s then (s, None)
  else
    let h := itsHandle (slot s (cliActiveSlot s)) in
    if h <? 0 then (s, None)
    else
      let s := poll (polled r) s in
      let '(n, w) := itsRecv h outLen (world s) in
      let s := with_world s w in
      let '(n, s) :=
        if Zlen n =? 0 then
          let s := poll (slept r) s in
          let '(n, w) := itsRecv h outLen (world s) in (n, with_world s w)
        else (n, s) in
      if Zlen n =? 0 then (s, if itsConnected h (world s) then Some [] else None) else (s, Some n).

(** ** The password gate *)

Definition CLI_LOGIN_MAX_TRIES : Z := 3.
Definition ADMIN : bytes := $ "admin".

Fixpoint loginBytes (i : Z) (ansi : bool) (rb : bytes) (s : st) : st :=
  match rb with
  | [] => s
  | c :: rb =>
      let cl := slot s i in
      if (c =? 3) || (c =? 4) then
        upd (itsCliWrite CRLF s) i (fun c => sl_login (sl_close c true) (authed c) (pwTries c) [])
      else if (c =? 13) || (c =? 10) then
        let pw := pwBuf cl in
        let s := upd s i (fun c => sl_login c (authed c) (pwTries c) []) in
        let s := if ansi then itsCliWrite CRLF s else s in
        let '(ok, w) := authLogin pw ADMIN (world s) in
        let s := with_world s w in
        if ok : bool then
          let s := upd s i (fun c => sl_login c true (pwTries c) (pwBuf c)) in
          let s := cliWritePrompt W_itsCliWrite s in
          if ansi then itsCliWrite CURSOR_DEFAULT s else s
        else
          let s := upd s i (fun c => sl_login c (authed c) (pwTries c + 1) (pwBuf c)) in
          if CLI_LOGIN_MAX_TRIES <=? pwTries (slot s i) then
            upd (itsCliWrite AUTH_FAILED s) i (fun c => sl_close c true)
          else loginBytes i ansi rb (itsCliWrite PASSWORD_PROMPT s)
      else if (c =? 8) || (c =? 127) then
        if Zlen (pwBuf cl) =? 0 then loginBytes i ansi rb s
        else
          let s := upd s i (fun c => sl_login c (authed c) (pwTries c) (take (pred (length (pwBuf c))) (pwBuf c))) in
          loginBytes i ansi rb (if ansi then itsCliWrite [8; 32; 8] s else s)
      else if c <? 32 then loginBytes i ansi rb s
      else if Zlen (pwBuf cl) <? 128 then
        let s := upd s i (fun k => sl_login k (authed k) (pwTries k) (pwBuf k ++ [c])) in
        loginBytes i ansi rb (if ansi then itsCliWrite ($ "*") s else s)
      else loginBytes i ansi rb s
  end.

Definition cliHandleLoginInput (i : Z) (rb : bytes) (s : st) : st :=
  loginBytes i (mode (slot s i) =? CLI_ANSI) rb s.

(** ** The loop of the task *)

(** LINE mode: the bytes of one receive, and whether to hang up. *)
Fixpoint lineBytes (i : Z) (rb : bytes) (s : st) : st * bool :=
  match rb with
  | [] => (s, false)
  | c :: rb =>
      if c =? 4 then (s, true)
      else if is_eol c then
        let line := c_str (lineBuf (slot s i)) in
        let hangup := cliLineEndsWithSemicolon line in
        let s := if Zlen (lineBuf (slot s i)) =? 0 then s
                 else cliProcess run line (with_out s (Some W_itsCliWrite)) in
        let s := upd s i (fun c => sl_line c []) in
        if hangup then (s, true) else lineBytes i rb (cliWritePrompt W_itsCliWrite s)
      else if Zlen (lineBuf (slot s i)) <? CLI_LINE_MAX + 1 then
        lineBytes i rb (upd s i (fun k => sl_line k (lineBuf k ++ [c])))
      else lineBytes i rb s
  end.

(** What arrived on slot [i]. *)
Definition input (i : Z) (rb : bytes) (s : st) : st :=
  let s := with_active (with_world s (humanDetected (world s))) i in
  let cl := slot s i in
  let s :=
    if loginRequired cl && negb (authed cl) then cliHandleLoginInput i rb s
    else if mode cl =? CLI_ANSI then foldl (fun s c => cliEditChar run i c W_itsCliWrite s) s rb
    else
      let '(s, hangup) := lineBytes i rb s in
      if hangup : bool then upd s i (fun c => sl_close c true) else s in
  with_active s (-1).

Definition serve (s : st) (i : Z) : st :=
  let h := itsHandle (slot s i) in
  if (h <? 0) || negb (itsConnected h (world s)) then s
  else
    let '(rb, w) := itsRecv h 128 (world s) in
    let s := with_world s w in
    if Zlen rb =? 0 then s else input i rb s.

Definition sweep (s : st) (i : Z) : st :=
  if negb (pendingClose (slot s i)) then s
  else
    let h := itsHandle (slot s i) in
    if h <? 0 then upd s i (fun c => sl_close c false)
    else if itsSendIsEmpty h (world s)
    then upd (with_world s (itsDisconnect h (world s))) i (fun _ => slot0)
    else s.

Definition slotIds : list Z := map Z.of_nat (seq 0 CLI_MAX_CLIENTS).

(** [crons]: the lines [cronDrainCommands] takes from its buffer. *)
Definition pass (es : list event) (crons : list bytes) (s : st) : st :=
  let s := poll es s in
  let s := foldl serve s slotIds in
  let s := foldl sweep s slotIds in
  let s := with_out s (Some W_cronCliWrite) in
  foldl (fun s l => cliProcess run l (with_world s (info (($ "cli: ") ++ l ++ [10]) (world s)))) s crons.

(** The state the task starts from. *)
Definition cliStart (reg : list cli_cmd_entry_t) (w : W) : st :=
  {| cmds := reg; histDq := []; cliSlots := replicate CLI_MAX_CLIENTS slot0; cliUsbPersistCwd := [];
     cliUsbSerialAutoResumeLog := false; cliActiveSlot := -1; serialInCli := false; cliOut := None;
     bad := false; world := w |}.

End Task.
