(* ===== verification/CliEditSpec.v ===== *)
(** * cli: the line editor implements a line with a cursor

    Everything the editor prints leaves the CLI's own state alone ([quiet]), so a byte acts
    on the edit state as a function of it and of the history ([editByte]). The abstract editor has the
    text before and after the cursor and the history entry shown; each key of it, in each of
    its encodings, is what the decoder makes of the bytes. *)

From S2P Require Import Prelude CLib CliPath Cli CliEditor.
Open Scope Z_scope.
Open Scope spangap_scope.

(** ** What output does to the state *)

Section Quiet.
Context {W : Type} `{E : CliEnv W}.
Notation st := (cli_st W).

(** [s'] differs from [s] in the state of the other modules only. *)
Definition quiet (s s' : st) : Prop := s' = with_world s (world s').

Lemma quiet_refl s : quiet s s.
Proof. by destruct s. Qed.

Lemma quiet_trans s1 s2 s3 : quiet s1 s2 -> quiet s2 s3 -> quiet s1 s3.
Proof. unfold quiet. intros -> ->. done. Qed.

Lemma quiet_world s w : quiet s (with_world s w).
Proof. done. Qed.

Lemma quiet_upd s s' i f : quiet s s' -> quiet (upd s i f) (upd s' i f).
Proof. unfold quiet. intros ->. unfold upd. simpl. by case_match. Qed.

Lemma quiet_slot s s' i : quiet s s' -> slot s' i = slot s i.
Proof. unfold quiet. by intros ->. Qed.

Lemma quiet_ed s s' i : quiet s s' -> ed s' i = ed s i.
Proof. intros H. unfold ed. by rewrite (quiet_slot s s'). Qed.

Lemma quiet_fields s s' :
  quiet s s' ->
  cmds s' = cmds s /\ histDq s' = histDq s /\ cliSlots s' = cliSlots s /\ cliActiveSlot s' = cliActiveSlot s /\
  bad s' = bad s /\ cliOut s' = cliOut s.
Proof. unfold quiet. intros ->. done. Qed.

Lemma quiet_put wr d s s' : quiet s s' -> quiet s (put wr d s').
Proof.
  intros H. eapply quiet_trans; [exact H|]. destruct wr; simpl; [|apply quiet_world].
  unfold itsCliWrite. repeat case_match; first [apply quiet_world|apply quiet_refl].
Qed.

Lemma quiet_its d s s' : quiet s s' -> quiet s (itsCliWrite d s').
Proof. apply (quiet_put W_itsCliWrite). Qed.

Lemma quiet_color wr q s s' : quiet s s' -> quiet s (cliColorWrite wr q s').
Proof. intros H. unfold cliColorWrite. case_match; [by apply quiet_put|done]. Qed.

Lemma quiet_move a b wr s s' : quiet s s' -> quiet s (cliMoveCursor a b wr s').
Proof. intros H. unfold cliMoveCursor. case_match; [done|by apply quiet_put]. Qed.

Lemma quiet_prompt wr s s' : quiet s s' -> quiet s (cliWritePrompt wr s').
Proof.
  intros H. unfold cliWritePrompt. set (a := _ <? _). clearbody a.
  destruct a; repeat (apply quiet_put || apply quiet_color); done.
Qed.

Lemma quiet_return wr s s' : quiet s s' -> quiet s (cliReturnToLog wr s').
Proof. intros H. unfold cliReturnToLog. apply quiet_put. by apply quiet_color. Qed.

Lemma quiet_printf t s s' : quiet s s' -> quiet s (cliPrintf t s').
Proof.
  intros H. unfold cliPrintf. destruct (cliOut s'); [|done].
  destruct (4096 <? Zlen t + 1); (destruct (0 <? _); [apply quiet_put|]); try done.
  - eapply quiet_trans; [exact H|]. apply quiet_world.
  - eapply quiet_trans; [exact H|]. apply quiet_world.
Qed.

Lemma quiet_chunks f wr d s s' : quiet s s' -> quiet s (writeChunks f wr d s').
Proof.
  revert d s'. induction f as [|f IH]; intros d s' H; simpl; [done|]. case_match; [done|].
  apply IH. by apply quiet_put.
Qed.

Lemma quiet_write d s s' : quiet s s' -> quiet s (cliWrite d s').
Proof. intros H. unfold cliWrite. destruct (cliOut s'); [by apply quiet_chunks|done]. Qed.

Lemma quiet_refresh i from wr s s' : quiet s s' -> quiet s (cliEditRefresh i from wr s').
Proof.
  intros H. unfold cliEditRefresh. apply quiet_move. case_match; [|apply quiet_put]; apply quiet_put;
    by apply quiet_move.
Qed.

End Quiet.

(** Peel output off the second state. *)
Ltac quiet :=
  repeat match goal with
  | |- quiet ?s ?s => apply quiet_refl
  | |- quiet _ (if ?b then _ else _) => destruct b
  | |- quiet _ (put _ _ _) => apply quiet_put
  | |- quiet _ (itsCliWrite _ _) => apply quiet_its
  | |- quiet _ (cliColorWrite _ _ _) => apply quiet_color
  | |- quiet _ (cliMoveCursor _ _ _ _) => apply quiet_move
  | |- quiet _ (cliWritePrompt _ _) => apply quiet_prompt
  | |- quiet _ (cliReturnToLog _ _) => apply quiet_return
  | |- quiet _ (cliPrintf _ _) => apply quiet_printf
  | |- quiet _ (cliWrite _ _) => apply quiet_write
  | |- quiet _ (cliEditRefresh _ _ _ _) => apply quiet_refresh
  | |- quiet _ (with_world ?s _) => apply (quiet_trans _ s); [|apply quiet_world]
  | H : quiet ?s ?s' |- quiet ?s ?s' => exact H
  | |- quiet _ (upd_ed _ _ _) => apply quiet_refl
  end.

(** ** The edit state as a function of the bytes *)

Section Pure.

Definition pReplace (text : bytes) (e : cli_edit) : cli_edit := ed_line e text (Zlen text).
Definition pGoto (to : Z) (e : cli_edit) : cli_edit := ed_line e (buf e) to.

Definition pUp (h : list bytes) (e : cli_edit) : cli_edit :=
  match histGet h (histIdx e + 1) with
  | None => e
  | Some t => pReplace t (if histIdx e <? 0 then ed_hist e (buf e) (histIdx e + 1) true
                          else ed_hist e (saved e) (histIdx e + 1) (savedValid e))
  end.

Definition pDown (h : list bytes) (e : cli_edit) : cli_edit :=
  if 0 <? histIdx e then
    let e1 := ed_hist e (saved e) (histIdx e - 1) (savedValid e) in
    match histGet h (histIdx e - 1) with None => e1 | Some t => pReplace t e1 end
  else if histIdx e =? 0 then
    ed_hist (pReplace (if savedValid e then saved e else []) e) (saved e) (-1) false
  else e.

Definition pKey (h : list bytes) (final param : Z) (e : cli_edit) : cli_edit :=
  let len := Zlen (buf e) in
  if final =? chr "D" then (if 0 <? cursor e then pGoto (cursor e - 1) e else e)
  else if final =? chr "C" then (if cursor e <? len then pGoto (cursor e + 1) e else e)
  else if final =? chr "A" then pUp h e
  else if final =? chr "B" then pDown h e
  else if final =? chr "H" then pGoto 0 e
  else if final =? chr "F" then pGoto len e
  else if final =? chr "~" then
    if (param =? 3) && (cursor e <? len) then ed_line e (erase_at (cursor e) (buf e)) (cursor e)
    else if (param =? 1) || (param =? 7) then pGoto 0 e
    else if (param =? 4) || (param =? 8) then pGoto len e
    else e
  else e.

Definition pCsi (h : list bytes) (c : Z) (e : cli_edit) : cli_edit :=
  if in_range 48 63 c then
    if escState e =? 2 then
      if in_range 48 57 c then
        (if escParam e <? 10000 then ed_esc e (escState e) (escParam e * 10 + (c - 48)) else e)
      else ed_esc e 4 (escParam e)
    else e
  else if in_range 32 47 c then e
  else
    let e1 := ed_esc e 0 (escParam e) in
    if in_range 64 126 c then pKey h c (escParam e) e1 else e1.

Definition editByte (h : list bytes) (c : Z) (e : cli_edit) : cli_edit :=
  if escState e =? 1 then ed_esc e (if c =? chr "[" then 2 else if c =? chr "O" then 3 else 0) 0
  else if (escState e =? 2) || (escState e =? 4) then pCsi h c e
  else if escState e =? 3 then pKey h c 0 (ed_esc e 0 (escParam e))
  else if c =? ESC then ed_esc e 1 (escParam e)
  else if c =? 1 then pGoto 0 e
  else if c =? 5 then pGoto (Zlen (buf e)) e
  else if (c =? 127) || (c =? 8) then
    (if 0 <? cursor e then ed_line e (erase_at (cursor e - 1) (buf e)) (cursor e - 1) else e)
  else if (32 <=? c) && (Zlen (buf e) <? 4096) then
    ed_line e (insert_at (cursor e) [c] (buf e)) (cursor e + 1)
  else e.

(** The bytes that do more than edit: ^D, Tab and Enter outside an escape sequence. *)
Definition plain_byte (c : Z) (e : cli_edit) : bool :=
  negb (escState e =? 0) || negb ((c =? 4) || (c =? 9) || is_eol c).

End Pure.

Section Edits.
Context {W : Type} `{E : CliEnv W}.
Notation st := (cli_st W).

Definition live (s : st) (i : Z) : Prop := 0 <= i < Zlen (cliSlots s).

Lemma upd_live (s : st) i f : live s i -> upd s i f = with_slots s (alter f (Z.to_nat i) (cliSlots s)) (bad s).
Proof. intros [??]. unfold upd. by rewrite (proj2 (Z.leb_le _ _)), (proj2 (Z.ltb_lt _ _)) by done. Qed.

Lemma live_upd (s : st) i j f : live s i -> live (upd s j f) i.
Proof. intros H. unfold live, upd. case_match; simpl; [|done]. unfold Zlen. by rewrite length_alter. Qed.

Lemma slot_upd (s : st) i f : live s i -> slot (upd s i f) i = f (slot s i).
Proof.
  intros H. rewrite upd_live by done. destruct H as [H1 H2]. unfold slot. rewrite (proj2 (Z.leb_le _ _)) by done.
  simpl. rewrite list_lookup_alter_eq.
  destruct (lookup_lt_is_Some_2 (cliSlots s) (Z.to_nat i)) as [c ->]; [unfold Zlen in H2; lia|done].
Qed.

Lemma slot_upd_ne (s : st) i j f : i <> j -> slot (upd s j f) i = slot s i.
Proof.
  intros H. unfold slot, upd. destruct (Z.leb_spec 0 i); [|done]. destruct (_ && _) eqn:Eb; simpl; [|done].
  b2p. rewrite list_lookup_alter_ne; [done|]. lia.
Qed.

Lemma ed_upd (s : st) i f : live s i -> ed (upd_ed s i f) i = f (ed s i).
Proof. intros H. unfold ed, upd_ed. by rewrite slot_upd. Qed.

Lemma alter_alter {A} (f g : A -> A) n (l : list A) : alter f n (alter g n l) = alter (f ∘ g) n l.
Proof. revert n. induction l as [|x l IH]; intros [|n]; simpl; try done. f_equal. apply IH. Qed.

Lemma upd_upd (s : st) i f g : upd (upd s i f) i g = upd s i (g ∘ f).
Proof.
  unfold upd. destruct ((0 <=? i) && (i <? Zlen (cliSlots s))) eqn:Eb; simpl; [|by rewrite Eb].
  unfold Zlen in *. rewrite length_alter, Eb. unfold with_slots. simpl. by rewrite alter_alter.
Qed.

Lemma alter_ext {A} (f g : A -> A) n (l : list A) x :
  l !! n = Some x -> f x = g x -> alter f n l = alter g n l.
Proof. revert n. induction l as [|y l IH]; intros [|n]; simpl; try done; [intros [= ->] ->; done|]. intros. f_equal. by apply IH. Qed.

(** Two updates that agree on the slot are equal. *)
Lemma upd_ext (s : st) i f g : live s i -> f (slot s i) = g (slot s i) -> upd s i f = upd s i g.
Proof.
  intros H Hfg. rewrite !upd_live by done. unfold slot in Hfg. destruct H as [H1 H2].
  rewrite (proj2 (Z.leb_le _ _)) in Hfg by done.
  destruct (lookup_lt_is_Some_2 (cliSlots s) (Z.to_nat i)) as [c Hc]; [unfold Zlen in H2; lia|].
  rewrite Hc in Hfg. simpl in Hfg. by rewrite (alter_ext f g _ _ c).
Qed.

Lemma upd_id (s : st) i f : live s i -> f (slot s i) = slot s i -> upd s i f = s.
Proof.
  intros H Hf. rewrite (upd_ext s i f id) by done. rewrite upd_live by done.
  rewrite list_alter_id by done. by destruct s.
Qed.

Lemma sl_edit_id c : sl_edit c (edit c) = c.
Proof. by destruct c. Qed.

(** *** One update of the edit state, and output around it *)

Definition edits (s : st) (i : Z) (e : cli_edit) (s' : st) : Prop := quiet (upd_ed s i (fun _ => e)) s'.

Lemma edits_nil s s' i : live s i -> quiet s s' -> edits s i (ed s i) s'.
Proof. intros H Q. unfold edits, upd_ed. rewrite upd_id; [done|done|]. apply sl_edit_id. Qed.

Lemma edits_upd s s' i f : live s i -> quiet s s' -> edits s i (f (ed s i)) (upd_ed s' i f).
Proof.
  intros H Q. unfold edits, upd_ed. rewrite (upd_ext s i _ (fun c => sl_edit c (f (edit c)))); [by apply quiet_upd|done|done].
Qed.

Lemma edits_quiet s i e s1 s2 : edits s i e s1 -> quiet s1 s2 -> edits s i e s2.
Proof. intros H1 H2. unfold edits. by eapply quiet_trans. Qed.

(** Output, an update of the edit state, output. *)
Lemma edits_mid s i f s0 s' :
  live s i -> quiet (upd_ed s0 i f) s' -> quiet s s0 -> edits s i (f (ed s i)) s'.
Proof. intros H Q1 Q0. eapply edits_quiet; [|exact Q1]. by apply edits_upd. Qed.

Lemma edits_ed s i e s' : live s i -> edits s i e s' -> ed s' i = e.
Proof. intros H Q. rewrite (quiet_ed _ _ _ Q). by apply ed_upd. Qed.

Lemma edits_live s i e s' j : live s j -> edits s i e s' -> live s' j.
Proof.
  intros H Q. apply quiet_fields in Q as (_ & _ & Q & _). unfold live. rewrite Q. by apply live_upd.
Qed.

Lemma edits_trans s1 s2 s3 i e2 e3 : edits s1 i e2 s2 -> edits s2 i e3 s3 -> edits s1 i e3 s3.
Proof.
  intros H1 H2. unfold edits in *. eapply quiet_trans; [|exact H2].
  apply (quiet_upd _ _ i (fun c => sl_edit c e3)) in H1. unfold upd_ed in *. by rewrite upd_upd in H1.
Qed.

(** *** The keys *)

Lemma edits_replace s s' i text wr : live s i -> quiet s s' ->
  edits s i (pReplace text (ed s i)) (cliEditReplace i text wr s').
Proof.
  intros H Q. unfold cliEditReplace.
  eapply (edits_mid s i (fun e => ed_line e text (Zlen text))); [done|quiet|quiet].
Qed.

Lemma pGoto_cursor e : pGoto (cursor e) e = e.
Proof. by destruct e. Qed.

Lemma edits_goto (s : st) i to wr : live s i -> edits s i (pGoto to (ed s i)) (cliEditGoto i to wr s).
Proof.
  intros H. unfold cliEditGoto. case_match eqn:Eb; b2p.
  - subst to. rewrite pGoto_cursor. apply edits_nil; [done|apply quiet_refl].
  - eapply (edits_mid s i (fun e => ed_line e (buf e) to)); [done|quiet|quiet].
Qed.

(** A change of the edit state followed by an operation. *)
Lemma edits_then s i f e s' :
  live s i -> edits (upd_ed s i f) i e s' -> edits s i e s'.
Proof. intros H. apply edits_trans with (e2 := f (ed s i)). apply edits_upd; [done|apply quiet_refl]. Qed.

Lemma edits_up s i wr : live s i -> edits s i (pUp (histDq s) (ed s i)) (keyUp i wr s).
Proof.
  intros H. unfold keyUp, pUp. destruct (histGet _ _) as [t|]; [|apply edits_nil; [done|apply quiet_refl]].
  eapply edits_then; [done|]. eapply edits_trans; [apply edits_nil; [by apply live_upd|apply quiet_refl]|].
  pose proof (edits_replace (upd_ed s i (fun e => if histIdx e <? 0 then ed_hist e (buf e) (histIdx (ed s i) + 1) true
    else ed_hist e (saved e) (histIdx (ed s i) + 1) (savedValid e))) _ i t wr (live_upd _ _ _ _ H) (quiet_refl _)) as R.
  rewrite ed_upd in R by done. exact R.
Qed.

Lemma hist_upd (s : st) i f : histDq (upd s i f) = histDq s.
Proof. unfold upd. by case_match. Qed.

Lemma edits_down s i wr : live s i -> edits s i (pDown (histDq s) (ed s i)) (keyDown i wr s).
Proof.
  intros H. unfold keyDown, pDown. destruct (0 <? histIdx (ed s i)).
  - eapply edits_then; [done|]. unfold upd_ed at 2. rewrite hist_upd.
    set (f := fun e => ed_hist e (saved e) (histIdx e - 1) (savedValid e)).
    change (ed_hist (ed s i) (saved (ed s i)) (histIdx (ed s i) - 1) (savedValid (ed s i))) with (f (ed s i)).
    rewrite <- (ed_upd s i f) by done.
    destruct (histGet _ _) as [t|]; [apply edits_replace|apply edits_nil]; try apply quiet_refl; by apply live_upd.
  - destruct (histIdx (ed s i) =? 0); [|apply edits_nil; [done|apply quiet_refl]].
    eapply edits_then; [done|].
    set (f := fun e => ed_hist e (saved e) (-1) (savedValid e)).
    set (t := if savedValid (ed s i) then saved (ed s i) else []).
    assert (live (upd_ed s i f) i) as L by (by apply live_upd).
    eapply edits_trans; [eapply (edits_replace _ _ i t wr L); apply quiet_refl|].
    pose proof (edits_replace (upd_ed s i f) _ i t wr L (quiet_refl _)) as R.
    assert (live (cliEditReplace i t wr (upd_ed s i f)) i) as L' by (by eapply edits_live).
    pose proof (edits_upd _ _ i (fun e => ed_hist e (saved e) (histIdx e) false) L' (quiet_refl _)) as Q.
    rewrite (edits_ed _ _ _ _ L R), ed_upd in Q by done. exact Q.
Qed.

Lemma edits_del s i wr : live s i ->
  edits s i (ed_line (ed s i) (erase_at (cursor (ed s i)) (buf (ed s i))) (cursor (ed s i))) (keyDel i wr s).
Proof.
  intros H. unfold keyDel.
  eapply (edits_mid s i (fun e => ed_line e (erase_at (cursor e) (buf e)) (cursor e))); [done|quiet|quiet].
Qed.

Lemma edits_key s i final param wr : live s i ->
  edits s i (pKey (histDq s) final param (ed s i)) (cliEditEscKey i final param wr s).
Proof.
  intros H. assert (edits s i (ed s i) s) as N by (apply edits_nil; [done|apply quiet_refl]).
  unfold cliEditEscKey, pKey.
  repeat match goal with
  | |- edits _ _ (if ?b then _ else _) (if ?b then _ else _) => destruct b
  end; try done; first [by apply edits_goto|by apply edits_up|by apply edits_down|by apply edits_del].
Qed.

Lemma edits_csi s i c wr : live s i -> edits s i (pCsi (histDq s) c (ed s i)) (csiByte i c wr s).
Proof.
  intros H. assert (edits s i (ed s i) s) as N by (apply edits_nil; [done|apply quiet_refl]).
  assert (forall f, edits s i (f (ed s i)) (upd_ed s i f)) as U by (intros f; apply edits_upd; [done|apply quiet_refl]).
  unfold csiByte, pCsi.
  repeat match goal with
  | |- edits _ _ (if ?b then _ else _) (if ?b then _ else _) => destruct b
  end; try done; try apply (U (fun e => ed_esc e _ _)).
  eapply edits_then; [done|].
  pose proof (edits_key (upd_ed s i (fun e => ed_esc e 0 (escParam e))) i c (escParam (ed s i)) wr (live_upd _ _ _ _ H)) as K.
  unfold upd_ed in K at 2. by rewrite hist_upd, ed_upd in K.
Qed.

Lemma edits_backspace s i ansi wr : live s i ->
  edits s i (if 0 <? cursor (ed s i)
             then ed_line (ed s i) (erase_at (cursor (ed s i) - 1) (buf (ed s i))) (cursor (ed s i) - 1) else ed s i)
    (backspace i ansi wr s).
Proof.
  intros H. unfold backspace. case_match; [|apply edits_nil; [done|apply quiet_refl]].
  eapply (edits_mid s i (fun e => ed_line e (erase_at (cursor e - 1) (buf e)) (cursor e - 1))); [done|quiet|quiet].
Qed.

Lemma edits_type s i c ansi wr : live s i ->
  edits s i (ed_line (ed s i) (insert_at (cursor (ed s i)) [c] (buf (ed s i))) (cursor (ed s i) + 1))
    (typeChar i c ansi wr s).
Proof.
  intros H. unfold typeChar.
  eapply (edits_mid s i (fun e => ed_line e (insert_at (cursor e) [c] (buf e)) (cursor e + 1))); [done|quiet|quiet].
Qed.

Variable run : Z -> bytes -> st -> st.

(** A byte that only edits changes the edit state by [editByte] and nothing else. *)
Lemma edits_char s i c wr :
  live s i -> 0 <= escState (ed s i) <= 4 -> plain_byte c (ed s i) = true ->
  edits s i (editByte (histDq s) c (ed s i)) (cliEditChar run i c wr s).
Proof.
  intros H He Hp. assert (edits s i (ed s i) s) as N by (apply edits_nil; [done|apply quiet_refl]).
  assert (forall f, edits s i (f (ed s i)) (upd_ed s i f)) as U by (intros f; apply edits_upd; [done|apply quiet_refl]).
  unfold cliEditChar, editByte, plain_byte in *.
  destruct (Z.eqb_spec (escState (ed s i)) 1); [apply (U (fun e => ed_esc e _ 0))|].
  destruct ((escState (ed s i) =? 2) || (escState (ed s i) =? 4)) eqn:E24; [by apply edits_csi|]. rewrite orb_false_iff, !Z.eqb_neq in E24.
  destruct (Z.eqb_spec (escState (ed s i)) 3).
  { eapply edits_then; [done|].
    pose proof (edits_key (upd_ed s i (fun e => ed_esc e 0 (escParam e))) i c 0 wr (live_upd _ _ _ _ H)) as K.
    unfold upd_ed in K at 2. by rewrite hist_upd, ed_upd in K. }
  assert (escState (ed s i) = 0) as E0 by lia. rewrite E0 in Hp. simpl in Hp. b2p.
  destruct (c =? ESC); [apply (U (fun e => ed_esc e 1 _))|].
  rewrite (proj2 (Z.eqb_neq c 4)), (proj2 (Z.eqb_neq c 9)) by tauto.
  destruct (c =? 1); [by apply edits_goto|]. destruct (c =? 5); [by apply edits_goto|].
  unfold is_eol in *. match goal with E : (c =? 10) || (c =? 13) = false |- _ => rewrite E end.
  destruct ((c =? 127) || (c =? 8)); [by apply edits_backspace|].
  destruct ((32 <=? c) && _); [by apply edits_type|done].
Qed.

(** The other bytes, outside an escape sequence. *)
Lemma char_special (s : st) i c wr :
  plain_byte c (ed s i) = false ->
  escState (ed s i) = 0 /\
  (cliEditChar run i c wr s =
     cliRequestSessionEnd (if active_usb s then cliReturnToLog wr s else if cliIsAnsi s then put wr CRLF s else s) \/
   cliEditChar run i c wr s = cliTabComplete i wr s \/
   cliEditChar run i c wr s =
     if Zlen (buf (ed s i)) =? 0 then enterEmpty (cliIsAnsi s) wr s else enterLine run i (cliIsAnsi s) wr s).
Proof.
  intros Ep. unfold plain_byte, is_eol in Ep. rewrite orb_false_iff, !negb_false_iff, !orb_true_iff, !Z.eqb_eq in Ep.
  destruct Ep as [E0 Hc]. split; [done|]. unfold cliEditChar. rewrite E0. change (0 =? 1) with false.
  change ((0 =? 2) || (0 =? 4)) with false. change (0 =? 3) with false. cbn iota.
  rewrite (proj2 (Z.eqb_neq c ESC)) by (unfold ESC; lia).
  destruct (Z.eqb_spec c 4); [by left|]. right.
  rewrite (proj2 (Z.eqb_neq c 1)), (proj2 (Z.eqb_neq c 5)) by lia.
  destruct (Z.eqb_spec c 9); [by left|]. right.
  by replace ((c =? 10) || (c =? 13)) with true by (symmetry; rewrite orb_true_iff, !Z.eqb_eq; lia).
Qed.

End Edits.

(** ** The abstract editor *)

Inductive key := KChar (c : Z) | KBack | KDel | KLeft | KRight | KHome | KEnd | KUp | KDown.

(** The text before and after the cursor, and while browsing the index of the entry and the line
    set aside. *)
Record line := { lleft : bytes; lright : bytes; browsing : option (Z * bytes) }.

Definition text (l : line) (a b : bytes) : line := {| lleft := a; lright := b; browsing := browsing l |}.
Definition but_last {A} (l : list A) : list A := take (pred (length l)) l.

Definition zstep (h : list bytes) (l : line) (k : key) : line :=
  let a := lleft l in
  let b := lright l in
  match k with
  | KChar c => if Zlen a + Zlen b <? 4096 then text l (a ++ [c]) b else l
  | KBack => text l (but_last a) b
  | KDel => text l a (tail b)
  | KLeft => text l (but_last a) (drop (pred (length a)) a ++ b)
  | KRight => text l (a ++ take 1 b) (drop 1 b)
  | KHome => text l [] (a ++ b)
  | KEnd => text l (a ++ b) []
  | KUp =>
      let '(n, sv) := default (-1, a ++ b) (browsing l) in
      match h !! Z.to_nat (n + 1) with
      | Some t => {| lleft := t; lright := []; browsing := Some (n + 1, sv) |}
      | None => l
      end
  | KDown =>
      match browsing l with
      | None => l
      | Some (n, sv) =>
          if 0 <? n then {| lleft := default [] (h !! Z.to_nat (n - 1)); lright := []; browsing := Some (n - 1, sv) |}
          else {| lleft := sv; lright := []; browsing := None |}
      end
  end.

(** What terminals send for a key: cursor keys as CSI with any parameters or SS3, the
    keypad forms, and the control characters. *)
Inductive letter : key -> Z -> Prop :=
  | l_left : letter KLeft (chr "D")
  | l_right : letter KRight (chr "C")
  | l_up : letter KUp (chr "A")
  | l_down : letter KDown (chr "B")
  | l_home : letter KHome (chr "H")
  | l_end : letter KEnd (chr "F").

Inductive keypad : key -> Z -> Prop :=
  | p_del : keypad KDel (chr "3")
  | p_home1 : keypad KHome (chr "1")
  | p_home7 : keypad KHome (chr "7")
  | p_end4 : keypad KEnd (chr "4")
  | p_end8 : keypad KEnd (chr "8").

Inductive encodes : key -> bytes -> Prop :=
  | enc_char c : 32 <= c -> c <> 127 -> encodes (KChar c) [c]
  | enc_bs : encodes KBack [8]
  | enc_del : encodes KBack [127]
  | enc_ctrl_a : encodes KHome [1]
  | enc_ctrl_e : encodes KEnd [5]
  | enc_csi k f ps : letter k f -> Forall (fun c => 32 <= c <= 63) ps -> encodes k (ESC :: chr "[" :: ps ++ [f])
  | enc_ss3 k f : letter k f -> encodes k [ESC; chr "O"; f]
  | enc_tilde k d : keypad k d -> encodes k [ESC; chr "["; d; chr "~"].

Definition abs (e : cli_edit) : line :=
  {| lleft := take (Z.to_nat (cursor e)) (buf e); lright := drop (Z.to_nat (cursor e)) (buf e);
     browsing := if histIdx e <? 0 then None else Some (histIdx e, saved e) |}.

(** The edit state between keys. *)
Record edit_ok (h : list bytes) (e : cli_edit) : Prop := {
  ok_cursor : 0 <= cursor e <= Zlen (buf e);
  ok_esc : escState e = 0;
  ok_hist : -1 <= histIdx e < Zlen h;
  ok_saved : 0 <= histIdx e -> savedValid e = true }.

Lemma edit0_ok h : edit_ok h edit0.
Proof. split; simpl; first [zlia|done]. Qed.

Lemma abs_esc e a b : abs (ed_esc e a b) = abs e.
Proof. done. Qed.

Lemma esc_ok h e b : edit_ok h e -> edit_ok h (ed_esc e 0 b).
Proof. intros []. by split. Qed.

(** *** The pure operations against the abstract ones *)

Lemma abs_goto e to :
  abs (pGoto to e) = text (abs e) (take (Z.to_nat to) (buf e)) (drop (Z.to_nat to) (buf e)).
Proof. done. Qed.

Lemma ok_goto h e to : edit_ok h e -> 0 <= to <= Zlen (buf e) -> edit_ok h (pGoto to e).
Proof. intros [] ?. by split. Qed.

Lemma abs_text e : lleft (abs e) ++ lright (abs e) = buf e.
Proof. apply take_drop. Qed.

Lemma length_lleft h e : edit_ok h e -> length (lleft (abs e)) = Z.to_nat (cursor e).
Proof. intros [[??] _ _ _]. simpl. rewrite length_take. unfold Zlen in *. lia. Qed.

Lemma step_goto h e to k :
  edit_ok h e -> 0 <= to <= Zlen (buf e) ->
  zstep h (abs e) k = text (abs e) (take (Z.to_nat to) (buf e)) (drop (Z.to_nat to) (buf e)) ->
  edit_ok h (pGoto to e) /\ abs (pGoto to e) = zstep h (abs e) k.
Proof. intros H Ht E. split; [by apply ok_goto|]. by rewrite abs_goto, E. Qed.

Lemma step_home h e : edit_ok h e -> edit_ok h (pGoto 0 e) /\ abs (pGoto 0 e) = zstep h (abs e) KHome.
Proof. intros H. apply step_goto; [done|zlia|]. unfold zstep. by rewrite abs_text. Qed.

Lemma step_end h e :
  edit_ok h e -> edit_ok h (pGoto (Zlen (buf e)) e) /\ abs (pGoto (Zlen (buf e)) e) = zstep h (abs e) KEnd.
Proof.
  intros H. apply step_goto; [done|zlia|]. unfold zstep. rewrite abs_text. unfold Zlen.
  by rewrite Nat2Z.id, take_ge, drop_ge.
Qed.

Lemma text_id l : text l (lleft l) (lright l) = l.
Proof. by destruct l. Qed.

Lemma step_left h e (e' := if 0 <? cursor e then pGoto (cursor e - 1) e else e) :
  edit_ok h e -> edit_ok h e' /\ abs e' = zstep h (abs e) KLeft.
Proof.
  intros H. pose proof (length_lleft h e H) as L. pose proof H as [[H1 H2] ???]. unfold e'. clear e'.
  destruct (Z.ltb_spec 0 (cursor e)).
  - apply step_goto; [done|lia|]. unfold zstep, but_last. rewrite L. simpl. f_equal.
    + rewrite take_take. f_equal. lia.
    + rewrite drop_take_drop by lia. f_equal. lia.
  - assert (cursor e = 0) as E0 by lia. split; [done|]. unfold zstep, but_last. rewrite L, E0.
    change (pred (Z.to_nat 0)) with 0%nat. rewrite take_0, drop_0. unfold abs. simpl. rewrite E0. done.
Qed.

Lemma step_right h e (e' := if cursor e <? Zlen (buf e) then pGoto (cursor e + 1) e else e) :
  edit_ok h e -> edit_ok h e' /\ abs e' = zstep h (abs e) KRight.
Proof.
  intros H. pose proof H as [[H1 H2] ???]. unfold e'. clear e'.
  destruct (Z.ltb_spec (cursor e) (Zlen (buf e))).
  - apply step_goto; [done|lia|]. unfold zstep. simpl. rewrite drop_drop. f_equal.
    + rewrite take_take_drop. f_equal. lia.
    + f_equal. lia.
  - split; [done|]. unfold zstep. simpl. rewrite (drop_ge (buf e)) by (unfold Zlen in *; lia). simpl.
    rewrite app_nil_r. unfold text, abs. simpl. by rewrite (drop_ge (buf e)) by (unfold Zlen in *; lia).
Qed.

Lemma histGet_lookup h i : 0 <= i -> histGet h i = h !! Z.to_nat i.
Proof.
  intros H. unfold histGet. rewrite (proj2 (Z.ltb_ge _ _)) by done. simpl.
  destruct (Z.leb_spec (Zlen h) i); [|done]. symmetry. apply lookup_ge_None_2. unfold Zlen in *. lia.
Qed.

Lemma abs_pReplace t e :
  abs (pReplace t e) = {| lleft := t; lright := []; browsing := browsing (abs e) |}.
Proof.
  unfold abs, pReplace. simpl. unfold Zlen. by rewrite Nat2Z.id, take_ge, drop_ge.
Qed.

Lemma lookup_bound {A} (h : list A) i t : h !! Z.to_nat i = Some t -> i < Zlen h.
Proof. intros E. apply lookup_lt_Some in E. unfold Zlen. lia. Qed.

Lemma step_up h e : edit_ok h e -> edit_ok h (pUp h e) /\ abs (pUp h e) = zstep h (abs e) KUp.
Proof.
  intros H. pose proof H as [Hc He Hh Hs]. unfold pUp. rewrite histGet_lookup by lia. unfold zstep. rewrite abs_text.
  assert (default (-1, buf e) (browsing (abs e)) =
          (histIdx e, if histIdx e <? 0 then buf e else saved e)) as ->.
  { unfold abs. simpl. destruct (Z.ltb_spec (histIdx e) 0); simpl; [f_equal; lia|done]. }
  destruct (h !! Z.to_nat (histIdx e + 1)) as [t|] eqn:E; [|done]. apply lookup_bound in E.
  rewrite abs_pReplace. split.
  - split; simpl; [zlia|by destruct (histIdx e <? 0)| |].
    + destruct (histIdx e <? 0); simpl; lia.
    + destruct (Z.ltb_spec (histIdx e) 0); simpl; [done|]. intros _. by apply Hs.
  - f_equal. unfold abs. destruct (histIdx e <? 0); simpl; rewrite (proj2 (Z.ltb_ge _ _)) by lia; done.
Qed.

Lemma step_down h e : edit_ok h e -> edit_ok h (pDown h e) /\ abs (pDown h e) = zstep h (abs e) KDown.
Proof.
  intros H. pose proof H as [Hc He Hh Hs]. unfold pDown, zstep.
  destruct (Z.ltb_spec 0 (histIdx e)) as [H0|H0].
  - rewrite histGet_lookup by lia. destruct (lookup_lt_is_Some_2 h (Z.to_nat (histIdx e - 1))) as [t E];
      [unfold Zlen in *; lia|]. rewrite E, abs_pReplace. split.
    + split; simpl; [zlia|done|lia|]. intros _. apply Hs. lia.
    + unfold abs. simpl. rewrite !(proj2 (Z.ltb_ge _ _)) by lia. by rewrite (proj2 (Z.ltb_lt _ _)), E by done.
  - destruct (Z.eqb_spec (histIdx e) 0) as [E0|E0].
    + rewrite Hs by lia. split.
      * split; simpl; [zlia|done|lia|done].
      * unfold abs. simpl. rewrite E0. simpl. unfold Zlen. by rewrite Nat2Z.id, take_ge, drop_ge.
    + split; [done|]. unfold abs. simpl. by rewrite (proj2 (Z.ltb_lt (histIdx e) 0)) by lia.
Qed.

Lemma tail_drop {A} n (l : list A) : tail (drop n l) = drop (S n) l.
Proof. revert l. induction n as [|n IH]; intros [|x l]; try done. apply IH. Qed.

Lemma step_del h e (e' := if cursor e <? Zlen (buf e) then ed_line e (erase_at (cursor e) (buf e)) (cursor e) else e) :
  edit_ok h e -> edit_ok h e' /\ abs e' = zstep h (abs e) KDel.
Proof.
  intros H. pose proof H as [[H1 H2] He Hh Hs]. unfold e'. clear e'. unfold erase_at.
  assert (length (take (Z.to_nat (cursor e)) (buf e)) = Z.to_nat (cursor e)) as L
    by (rewrite length_take; unfold Zlen in *; lia).
  destruct (Z.ltb_spec (cursor e) (Zlen (buf e))).
  - split; [split; simpl; [|done..]|].
    + zlia.
    + unfold abs, zstep, text. simpl. rewrite take_app_le, drop_app_ge, L, Nat.sub_diag, drop_0 by lia.
      rewrite take_take, Nat.min_id. f_equal. by rewrite tail_drop.
  - split; [done|]. unfold zstep. simpl. rewrite (drop_ge (buf e)) by (unfold Zlen in *; lia).
    unfold text, abs. simpl. by rewrite (drop_ge (buf e)) by (unfold Zlen in *; lia).
Qed.

Lemma step_back h e
    (e' := if 0 <? cursor e then ed_line e (erase_at (cursor e - 1) (buf e)) (cursor e - 1) else e) :
  edit_ok h e -> edit_ok h e' /\ abs e' = zstep h (abs e) KBack.
Proof.
  intros H. pose proof (length_lleft h e H) as L. pose proof H as [[H1 H2] He Hh Hs]. unfold e'. clear e'.
  unfold erase_at. unfold zstep, but_last. rewrite L. destruct (Z.ltb_spec 0 (cursor e)).
  - assert (length (take (Z.to_nat (cursor e - 1)) (buf e)) = Z.to_nat (cursor e - 1)) as L'
      by (rewrite length_take; unfold Zlen in *; lia).
    split; [split; simpl; [|done..]|].
    + zlia.
    + unfold abs, text. simpl. rewrite take_app_le, drop_app_ge, L', Nat.sub_diag, drop_0 by lia.
      rewrite !take_take. f_equal; f_equal; lia.
  - assert (cursor e = 0) as E0 by lia. split; [done|]. unfold abs, text. simpl. by rewrite E0.
Qed.

Lemma step_char h e c
    (e' := if Zlen (buf e) <? 4096 then ed_line e (insert_at (cursor e) [c] (buf e)) (cursor e + 1) else e) :
  edit_ok h e -> edit_ok h e' /\ abs e' = zstep h (abs e) (KChar c).
Proof.
  intros H. pose proof H as [[H1 H2] He Hh Hs]. unfold e'. clear e'. unfold zstep, insert_at.
  rewrite <- Zlen_app, abs_text. destruct (Z.ltb_spec (Zlen (buf e)) 4096); [|done].
  assert (length (take (Z.to_nat (cursor e)) (buf e)) = Z.to_nat (cursor e)) as L
    by (rewrite length_take; unfold Zlen in *; lia).
  split; [split; simpl; [|done..]|].
  - zlia.
  - unfold abs, text. simpl. rewrite (cons_middle c). rewrite app_assoc.
    rewrite take_app_length', drop_app_length'; [done|rewrite length_app, L; simpl; lia..].
Qed.

(** *** Decoding *)

Definition editBytes (h : list bytes) (bs : bytes) (e : cli_edit) : cli_edit :=
  foldl (fun e c => editByte h c e) e bs.

Fixpoint plain_run (h : list bytes) (bs : bytes) (e : cli_edit) : bool :=
  match bs with
  | [] => true
  | c :: bs => plain_byte c e && bool_decide (0 <= escState e <= 4) && plain_run h bs (editByte h c e)
  end.

Lemma letter_key h k f p e :
  letter k f -> edit_ok h e -> edit_ok h (pKey h f p e) /\ abs (pKey h f p e) = zstep h (abs e) k.
Proof.
  intros [] H; [by apply step_left|by apply step_right|by apply step_up|by apply step_down|
    by apply step_home|by apply step_end].
Qed.

Lemma keypad_key h k d e :
  keypad k d -> edit_ok h e -> edit_ok h (pKey h (chr "~") (d - 48) e) /\ abs (pKey h (chr "~") (d - 48) e) = zstep h (abs e) k.
Proof.
  intros K H; destruct K; [|by apply step_home|by apply step_home|by apply step_end|by apply step_end].
  pose proof (step_del h e H) as S. unfold pKey.
  change ((chr "3" - 48 =? 3)) with true. simpl.
  by destruct (cursor e <? Zlen (buf e)).
Qed.

(** The bytes between [ [] and the final one change only how the sequence is read. *)
Lemma csi_params h ps e q p :
  Forall (fun c => 32 <= c <= 63) ps -> q = 2 \/ q = 4 ->
  plain_run h ps (ed_esc e q p) = true /\
  exists q' p', (q' = 2 \/ q' = 4) /\ editBytes h ps (ed_esc e q p) = ed_esc e q' p'.
Proof.
  intros Hps. revert q p. induction Hps as [|c ps Hc Hps IH]; intros q p Hq; [split; [done|by exists q, p]|].
  assert (exists q' p', (q' = 2 \/ q' = 4) /\ editByte h c (ed_esc e q p) = ed_esc e q' p') as (q1 & p1 & Hq1 & E1).
  { unfold editByte. simpl. rewrite (proj2 (Z.eqb_neq q 1)) by lia.
    replace ((q =? 2) || (q =? 4)) with true by (destruct Hq; by subst).
    unfold pCsi, in_range. simpl. destruct (Z.leb_spec 48 c); simpl.
    - rewrite (proj2 (Z.leb_le c 63)) by lia. destruct (q =? 2) eqn:E2; [|by exists q, p].
      destruct (c <=? 57); [destruct (p <? 10000); [|by exists q, p]|]; eexists _, _; (split; [|reflexivity]); auto.
    - rewrite (proj2 (Z.leb_le 32 c)), (proj2 (Z.leb_le c 47)) by lia. by exists q, p. }
  destruct (IH q1 p1 Hq1) as (IH1 & q' & p' & Hq' & E').
  split; [|exists q', p'; split; [done|]; cbn; by rewrite E1].
  cbn [plain_run]. rewrite E1, IH1. unfold plain_byte. simpl.
  rewrite (proj2 (Z.eqb_neq q 0)) by lia. simpl. rewrite bool_decide_eq_true_2 by lia. done.
Qed.

Lemma plain_esc0 h c e : edit_ok h e -> plain_byte c e = negb ((c =? 4) || (c =? 9) || is_eol c).
Proof. intros [_ He _ _]. unfold plain_byte. by rewrite He. Qed.

Lemma plain_run_app h a b e : plain_run h (a ++ b) e = plain_run h a e && plain_run h b (editBytes h a e).
Proof. revert e. induction a as [|c a IH]; intros e; simpl; [done|]. by rewrite IH, andb_assoc. Qed.

Lemma single_byte h c e k :
  edit_ok h e -> negb ((c =? 4) || (c =? 9) || is_eol c) = true ->
  edit_ok h (editByte h c e) /\ abs (editByte h c e) = zstep h (abs e) k ->
  plain_run h [c] e = true /\ edit_ok h (editBytes h [c] e) /\ abs (editBytes h [c] e) = zstep h (abs e) k.
Proof.
  intros H Hp K. split; [|done]. cbn [plain_run]. rewrite (plain_esc0 h) by done. rewrite Hp.
  destruct H as [_ -> _ _]. done.
Qed.

Lemma esc_first h e : edit_ok h e -> escState (editByte h ESC e) = 1.
Proof. intros [_ He _ _]. unfold editByte. by rewrite He. Qed.

Lemma key_run h e k bs :
  edit_ok h e -> encodes k bs ->
  plain_run h bs e = true /\ edit_ok h (editBytes h bs e) /\ abs (editBytes h bs e) = zstep h (abs e) k.
Proof.
  intros H K. pose proof H as [_ He _ _]. destruct K as [c Hc Hd| | | | |k f ps L P|k f L|k d D].
  - assert (forall n, n < 32 -> (c =? n) = false) as X by (intros; apply Z.eqb_neq; lia).
    apply single_byte; [done|unfold is_eol; by rewrite !X|].
    pose proof (step_char h e c H) as S. unfold editByte. rewrite He. simpl.
    unfold ESC. rewrite (X 27), (X 1), (X 5), (X 8), (proj2 (Z.eqb_neq c 127)), (proj2 (Z.leb_le 32 c)) by lia. exact S.
  - apply single_byte; [done|done|]. pose proof (step_back h e H) as S. unfold editByte. by rewrite He.
  - apply single_byte; [done|done|]. pose proof (step_back h e H) as S. unfold editByte. by rewrite He.
  - apply single_byte; [done|done|]. pose proof (step_home h e H) as S. unfold editByte. by rewrite He.
  - apply single_byte; [done|done|]. pose proof (step_end h e H) as S. unfold editByte. by rewrite He.
  - assert (editBytes h [ESC; chr "["] e = ed_esc e 2 0) as E1 by (unfold editBytes, editByte; simpl; by rewrite He).
    destruct (csi_params h ps e 2 0 P) as (P1 & q & p & Hq & E2); [by left|].
    assert (editByte h f (ed_esc e q p) = pKey h f p (ed_esc e 0 p)) as E3.
    { unfold editByte. simpl. rewrite (proj2 (Z.eqb_neq q 1)) by lia.
      replace ((q =? 2) || (q =? 4)) with true by (destruct Hq; by subst). by destruct L. }
    change (ESC :: chr "[" :: ps ++ [f]) with ([ESC; chr "["] ++ ps ++ [f]).
    rewrite plain_run_app, plain_run_app, E1, P1, E2. unfold editBytes. rewrite !foldl_app.
    change (foldl _ e [ESC; chr "["]) with (editBytes h [ESC; chr "["] e). rewrite E1.
    change (foldl _ (ed_esc e 2 0) ps) with (editBytes h ps (ed_esc e 2 0)). rewrite E2. cbn [foldl]. rewrite E3.
    split; [|exact (letter_key h k f p (ed_esc e 0 p) L (esc_ok h e p H))].
    cbn [plain_run]. unfold plain_byte at 3. cbn [ed_esc escState]. rewrite (proj2 (Z.eqb_neq q 0)) by lia.
    rewrite (bool_decide_eq_true_2 (0 <= q <= 4)) by lia. unfold plain_byte.
    rewrite (esc_first h e H). by rewrite He.
  - assert (editBytes h [ESC; chr "O"] e = ed_esc e 3 0) as E1 by (unfold editBytes, editByte; simpl; by rewrite He).
    change [ESC; chr "O"; f] with ([ESC; chr "O"] ++ [f]). rewrite plain_run_app, E1. unfold editBytes.
    rewrite foldl_app. change (foldl _ e [ESC; chr "O"]) with (editBytes h [ESC; chr "O"] e). rewrite E1. cbn [foldl].
    split; [|exact (letter_key h k f 0 (ed_esc e 0 0) L (esc_ok h e 0 H))].
    cbn [plain_run]. unfold plain_byte. rewrite (esc_first h e H).
    by rewrite He.
  - assert (editBytes h [ESC; chr "["; d] e = ed_esc e 2 (d - 48)) as E1.
    { unfold editBytes, editByte. simpl. rewrite He. by destruct D. }
    change [ESC; chr "["; d; chr "~"] with ([ESC; chr "["; d] ++ [chr "~"]). rewrite plain_run_app, E1. unfold editBytes.
    rewrite foldl_app. change (foldl _ e [ESC; chr "["; d]) with (editBytes h [ESC; chr "["; d] e). rewrite E1. cbn [foldl].
    split; [|exact (keypad_key h k d (ed_esc e 0 (d - 48)) D (esc_ok h e (d - 48) H))].
    cbn [plain_run]. unfold plain_byte. pose proof (esc_first h e H) as E2.
    assert (escState (editByte h (chr "[") (editByte h ESC e)) = 2) as -> by (unfold editByte at 1; by rewrite E2).
    by rewrite E2, He.
Qed.

(** ** The editor on the state *)

Section Editing.
Context {W : Type} `{E : CliEnv W}.
Notation st := (cli_st W).
Variable run : Z -> bytes -> st -> st.

Definition editInput (i : Z) (wr : cli_write_fn) (bs : bytes) (s : st) : st :=
  foldl (fun s c => cliEditChar run i c wr s) s bs.

Lemma edits_bytes s i wr bs :
  live s i -> plain_run (histDq s) bs (ed s i) = true ->
  edits s i (editBytes (histDq s) bs (ed s i)) (editInput i wr bs s).
Proof.
  revert s. induction bs as [|c bs IH]; intros s H P; [apply edits_nil; [done|apply quiet_refl]|].
  cbn [plain_run] in P. b2p. match goal with B : bool_decide _ = true |- _ => apply bool_decide_eq_true in B end.
  assert (edits s i (editByte (histDq s) c (ed s i)) (cliEditChar run i c wr s)) as C by (by apply edits_char).
  pose proof (edits_live _ _ _ _ _ H C) as L. pose proof (edits_ed _ _ _ _ H C) as Ee.
  assert (histDq (cliEditChar run i c wr s) = histDq s) as Eh.
  { apply quiet_fields in C as (_ & C & _). rewrite C. apply hist_upd. }
  specialize (IH _ L). rewrite Eh, Ee in IH. eapply edits_trans; [exact C|]. by apply IH.
Qed.

Lemma keys_run s i wr ks bss :
  live s i -> edit_ok (histDq s) (ed s i) -> Forall2 encodes ks bss ->
  let s' := editInput i wr (concat bss) s in
  quiet (upd_ed s i (fun _ => ed s' i)) s' /\ edit_ok (histDq s) (ed s' i) /\
  abs (ed s' i) = foldl (zstep (histDq s)) (abs (ed s i)) ks.
Proof.
  intros H Ho F. cbn zeta. revert s H Ho. induction F as [|k bs ks bss K F IH]; intros s H Ho.
  { split_and!; [|done|done]. by apply (edits_nil s s i H), quiet_refl. }
  destruct (key_run _ _ _ _ Ho K) as (P & Ho' & Ea).
  pose proof (edits_bytes s i wr bs H P) as C. set (s1 := editInput i wr bs s) in *.
  pose proof (edits_live _ _ _ _ _ H C) as L. pose proof (edits_ed _ _ _ _ H C) as Ee.
  assert (histDq s1 = histDq s) as Eh by (apply quiet_fields in C as (_ & C & _); rewrite C; apply hist_upd).
  rewrite <- Ee in Ho'. rewrite <- Eh in Ho'. destruct (IH s1 L Ho') as (I1 & I2 & I3).
  assert (editInput i wr (concat (bs :: bss)) s = editInput i wr (concat bss) s1) as ->.
  { unfold s1, editInput. cbn [concat]. by rewrite foldl_app. }
  rewrite Eh in I2, I3. split_and!; [|done|].
  - eapply (edits_trans s s1); [exact C|exact I1].
  - rewrite I3. cbn [foldl]. by rewrite Ee, Ea.
Qed.


(** *** Browsing the history and back *)

Lemma ups h l t n :
  browsing l = None -> lleft l ++ lright l = t -> (S n <= length h)%nat ->
  foldl (zstep h) l (replicate (S n) KUp) =
    {| lleft := default [] (h !! n); lright := []; browsing := Some (Z.of_nat n, t) |}.
Proof.
  intros Hb Ht. induction n as [|n IH]; intros Hn.
  - simpl. rewrite Hb, Ht. simpl. destruct h as [|x h]; [simpl in Hn; lia|]. done.
  - rewrite replicate_S_end, foldl_app, IH by lia. simpl.
    replace (Z.to_nat (Z.of_nat n + 1)) with (S n) by lia.
    destruct (lookup_lt_is_Some_2 h (S n)) as [x Hx]; [lia|]. rewrite Hx. simpl. do 3 f_equal. lia.
Qed.

Lemma downs h n t a :
  foldl (zstep h) {| lleft := a; lright := []; browsing := Some (Z.of_nat n, t) |} (replicate (S n) KDown) =
    {| lleft := t; lright := []; browsing := None |}.
Proof.
  revert a. induction n as [|n IH]; intros a; [done|].
  change (replicate (S (S n)) KDown) with (KDown :: replicate (S n) KDown). cbn [foldl].
  assert (exists b, zstep h {| lleft := a; lright := []; browsing := Some (Z.of_nat (S n), t) |} KDown =
            {| lleft := b; lright := []; browsing := Some (Z.of_nat n, t) |}) as [b ->]; [|apply IH].
  unfold zstep. cbn [browsing]. rewrite (proj2 (Z.ltb_lt _ _)) by lia.
  replace (Z.of_nat (S n) - 1) with (Z.of_nat n) by lia. by eexists.
Qed.

(** C27: The line editor implements a line with a cursor: for any keys in any of their
    encodings the text before and after the cursor, and the history entry shown, are what
    the abstract editor makes of the keys, and nothing of the CLI's state changes but the edit
    state. *)
Theorem editor_refines_line s i wr ks bss :
  live s i -> edit_ok (histDq s) (ed s i) -> Forall2 encodes ks bss ->
  let s' := editInput i wr (concat bss) s in
  abs (ed s' i) = foldl (zstep (histDq s)) (abs (ed s i)) ks /\ edit_ok (histDq s) (ed s' i) /\
  quiet (upd_ed s i (fun _ => ed s' i)) s'.
Proof. intros L O F. by destruct (keys_run s i wr ks bss L O F) as (Q & O' & A). Qed.

(** Going [n] entries up in the history and [n] down again gives back the line, with the cursor at its
    end. *)
Theorem history_roundtrip s i wr n bss :
  live s i -> edit_ok (histDq s) (ed s i) -> histIdx (ed s i) = -1 -> (S n <= length (histDq s))%nat ->
  Forall2 encodes (replicate (S n) KUp ++ replicate (S n) KDown) bss ->
  let e := ed (editInput i wr (concat bss) s) i in
  buf e = buf (ed s i) /\ cursor e = Zlen (buf (ed s i)) /\ histIdx e = -1.
Proof.
  intros L O Hi Hn F e. destruct (keys_run s i wr _ bss L O F) as (_ & O' & A). fold e in O', A.
  rewrite foldl_app, (ups _ (abs (ed s i)) (buf (ed s i))), downs in A; [| |apply abs_text|done].
  2: { unfold abs. simpl. by rewrite Hi. }
  pose proof (abs_text e) as Et. pose proof (length_lleft _ _ O') as El. rewrite A in Et, El. simpl in *.
  rewrite app_nil_r in Et. split; [done|]. pose proof O' as [[Hc _] _ [Hh _] _].
  assert (browsing (abs e) = None) as Eb by (by rewrite A). unfold abs in Eb. simpl in Eb.
  destruct (Z.ltb_spec (histIdx e) 0); [|done]. split; [unfold Zlen; lia|lia].
Qed.

End Editing.
