(* ===== verification/CliShell.v ===== *)
(** * cli: what a line runs

    A line is the list of its commands: the parts between semicolons without the
    blanks around them, up to the first that is a comment. The registry is sorted and a
    command goes to the longest entry it names. *)

From Stdlib Require Import Sorting.Sorted.
From S2P Require Import Prelude CLib CliPath Cli CliEditor CliEditSpec.
Open Scope Z_scope.
Open Scope spangap_scope.

(** ** The commands of a line *)

Fixpoint parts (s : bytes) : list bytes :=
  match s with
  | [] => [[]]
  | c :: s' =>
      if c =? SEMI then [] :: parts s'
      else match parts s' with t :: ts => (c :: t) :: ts | [] => [[c]] end
  end.

Definition trim (s : bytes) : bytes := trimEnd is_blank (skip_while is_space s).

Fixpoint upto_comment (l : list bytes) : list bytes :=
  match l with
  | [] => []
  | t :: ts =>
      match trim t with
      | [] => upto_comment ts
      | (c :: _) as t' => if c =? HASH then [] else t' :: upto_comment ts
      end
  end.

Definition commands (l : bytes) : list bytes := upto_comment (parts l).

Lemma parts_app a r : SEMI ∉ a -> parts (a ++ SEMI :: r) = a :: parts r.
Proof.
  induction a as [|c a IH]; intros H; simpl; [done|]. apply not_elem_of_cons in H as [Hc H].
  rewrite (IH H), (proj2 (Z.eqb_neq c SEMI)) by congruence. done.
Qed.

Lemma parts_one a : SEMI ∉ a -> parts a = [a].
Proof.
  induction a as [|c a IH]; intros H; simpl; [done|]. apply not_elem_of_cons in H as [Hc H].
  rewrite (IH H), (proj2 (Z.eqb_neq c SEMI)) by congruence. done.
Qed.

Lemma skip_while_all p (a b : bytes) : Forall (fun c => p c = true) a -> skip_while p (a ++ b) = skip_while p b.
Proof. induction 1 as [|c a Hc _ IH]; simpl; [done|]. by rewrite Hc. Qed.

Lemma skip_while_split p (a : bytes) :
  exists b, a = b ++ skip_while p a /\ Forall (fun c => p c = true) b /\
    match skip_while p a with [] => True | c :: _ => p c = false end.
Proof.
  induction a as [|c a (b & E & Hb & Hh)]; simpl; [by exists []|].
  destruct (p c) eqn:Ec; [|by exists []]. exists (c :: b). split; [simpl; by f_equal|]. split; [by constructor|done].
Qed.

Lemma trimEnd_split p (a : bytes) :
  exists b, a = trimEnd p a ++ b /\ Forall (fun c => p c = true) b.
Proof.
  destruct (skip_while_split p (rev a)) as (b & E & Hb & _). exists (rev b).
  split; [|by apply Forall_rev]. unfold trimEnd. rewrite <- rev_app_distr, <- E. by rewrite rev_involutive.
Qed.

Lemma trimEnd_app p (a b : bytes) : Forall (fun c => p c = true) b -> trimEnd p (a ++ b) = trimEnd p a.
Proof. intros H. unfold trimEnd. rewrite rev_app_distr, skip_while_all; [done|]. by apply Forall_rev. Qed.

Lemma trimEnd_all p (b : bytes) : Forall (fun c => p c = true) b -> trimEnd p b = [].
Proof. intros H. by apply (trimEnd_app p []). Qed.

Lemma skip_while_nil p (a : bytes) : skip_while p a = [] -> Forall (fun c => p c = true) a.
Proof. intros H. destruct (skip_while_split p a) as (b & E & Hb & _). rewrite H, app_nil_r in E. by subst. Qed.

Lemma skip_while_app_ne p (a b : bytes) : skip_while p a <> [] -> skip_while p (a ++ b) = skip_while p a ++ b.
Proof. induction a as [|c a IH]; simpl; [done|]. by destruct (p c). Qed.

Lemma space_blank (b : bytes) : Forall (fun c => is_space c = true) b -> Forall (fun c => is_blank c = true) b.
Proof. intros H. eapply Forall_impl; [exact H|]. intros c Hc. unfold is_blank, is_space in *. simpl in Hc. by rewrite Hc, orb_true_r. Qed.

Lemma trim_front a t : Forall (fun c => is_space c = true) a -> trim (a ++ t) = trim t.
Proof. intros H. unfold trim. by rewrite skip_while_all. Qed.

Lemma trim_back t b : Forall (fun c => is_blank c = true) b -> trim (t ++ b) = trim t.
Proof.
  intros H. unfold trim. destruct (decide (skip_while is_space t = [])) as [E|E].
  - rewrite E. pose proof (skip_while_nil _ _ E) as Ht. rewrite skip_while_all by done.
    destruct (skip_while_split is_space b) as (c & Eb & _ & _). rewrite Eb in H. apply Forall_app in H as [_ H].
    by rewrite trimEnd_all.
  - rewrite skip_while_app_ne by done. by apply trimEnd_app.
Qed.

(** [trim s] and the blanks it took off. *)
Lemma trim_split s :
  exists a b, s = a ++ trim s ++ b /\ Forall (fun c => is_space c = true) a /\ Forall (fun c => is_blank c = true) b.
Proof.
  destruct (skip_while_split is_space s) as (a & E & Ha & _).
  destruct (trimEnd_split is_blank (skip_while is_space s)) as (b & E' & Hb).
  exists a, b. split; [|done]. unfold trim. by rewrite <- E'.
Qed.

Lemma trim_trim s : trim (trim s) = trim s.
Proof.
  destruct (trim_split s) as (a & b & E & Ha & Hb). rewrite E at 2. rewrite trim_front, trim_back by done. done.
Qed.

Lemma blank_no_semi (b : bytes) : Forall (fun c => is_blank c = true) b -> SEMI ∉ b.
Proof. intros H Hin. rewrite Forall_forall in H. by specialize (H _ Hin). Qed.

Lemma commands_semi a r :
  SEMI ∉ a ->
  commands (a ++ SEMI :: r) =
    match trim a with
    | [] => commands r
    | (c :: _) as t => if c =? HASH then [] else t :: commands r
    end.
Proof. intros H. unfold commands. by rewrite parts_app. Qed.

Lemma commands_one a :
  SEMI ∉ a -> commands a = match trim a with [] => [] | (c :: _) as t => if c =? HASH then [] else [t] end.
Proof. intros H. unfold commands. by rewrite parts_one. Qed.

Lemma commands_back s b : Forall (fun c => is_blank c = true) b -> commands (s ++ b) = commands s.
Proof.
  intros Hb. pose proof (blank_no_semi b Hb) as Hs. remember (length s) as n eqn:En.
  revert s En. induction n as [n IH] using lt_wf_ind. intros s ->.
  destruct (strchr s SEMI) as [[a r]|] eqn:Ec.
  - apply strchr_Some in Ec as [-> Ha]. rewrite <- app_assoc. simpl. rewrite !commands_semi by done.
    rewrite (IH (length r)); [done| |done]. rewrite length_app. simpl. lia.
  - apply strchr_None in Ec. rewrite !commands_one; [by rewrite trim_back|done|]. rewrite elem_of_app. tauto.
Qed.

Lemma commands_front a s : Forall (fun c => is_space c = true) a -> commands (a ++ s) = commands s.
Proof.
  intros Ha. pose proof (blank_no_semi a (space_blank a Ha)) as Hs. destruct (strchr s SEMI) as [[t r]|] eqn:Ec.
  - apply strchr_Some in Ec as [-> Ht]. rewrite app_assoc, !commands_semi; [by rewrite trim_front|done|].
    rewrite elem_of_app. tauto.
  - apply strchr_None in Ec. rewrite !commands_one; [by rewrite trim_front|done|]. rewrite elem_of_app. tauto.
Qed.

Lemma commands_trim s : commands (trim s) = commands s.
Proof.
  destruct (trim_split s) as (a & b & E & Ha & Hb). rewrite E at 2.
  rewrite commands_front, commands_back by done. done.
Qed.

(** What trimming does to the first character. *)
Lemma trim_cons c t : is_space c = false -> trim (c :: t) = [] \/ exists t', trim (c :: t) = c :: t'.
Proof.
  intros Hs. unfold trim. simpl. rewrite Hs. destruct (trimEnd_split is_blank (c :: t)) as (b & E & _).
  destruct (trimEnd is_blank (c :: t)) as [|x t']; [by left|]. right. simpl in E. injection E as <- _. by exists t'.
Qed.

Lemma trim_hash t : exists t', trim (HASH :: t) = HASH :: t'.
Proof.
  destruct (trim_cons HASH t eq_refl) as [E|]; [|done].
  destruct (trim_split (HASH :: t)) as (a & b & Es & Ha & Hb). rewrite E in Es. simpl in Es.
  assert (Forall (fun c => is_blank c = true) (HASH :: t)) as X.
  { rewrite Es. apply Forall_app. split; [by apply space_blank|done]. }
  by inversion X.
Qed.

Lemma trim_no_space s c t : trim s = c :: t -> is_space c = false.
Proof.
  unfold trim. intros E. destruct (trimEnd_split is_blank (skip_while is_space s)) as (b & Eb & _).
  rewrite E in Eb. destruct (skip_while_split is_space s) as (a & _ & _ & Hh). rewrite Eb in Hh. done.
Qed.

Section Process.
Context {W : Type} `{E : CliEnv W}.
Notation st := (cli_st W).
Variable run : Z -> bytes -> st -> st.

Definition exec (s : st) (c : bytes) : st := dispatch run (expandAlias c s) s.

Lemma process_commands f line s :
  (length line < f)%nat -> process run f line s = foldl exec s (commands line).
Proof.
  revert line s. induction f as [|f IH]; intros line s Hf; [lia|]. cbn [process]. fold (trim line).
  rewrite <- (commands_trim line).
  assert (length (trim line) <= length line)%nat as Hl.
  { destruct (trim_split line) as (a & b & El & _). rewrite El at 2. rewrite !length_app. lia. }
  pose proof (trim_trim line) as Ht. set (l := trim line) in *. clearbody l.
  destruct l as [|c l'] eqn:El; [done|]. rewrite <- El in *.
  destruct (Z.eqb_spec c HASH) as [->|Hc].
  { destruct (strchr l SEMI) as [[a r]|] eqn:Ec.
    - apply strchr_Some in Ec as [Ea Ha]. rewrite Ea, commands_semi by done.
      destruct a as [|x a]; [rewrite El in Ea; discriminate|]. assert (x = HASH) as -> by (rewrite El in Ea; simpl in Ea; congruence).
      by destruct (trim_hash a) as [t' ->].
    - apply strchr_None in Ec. rewrite commands_one, Ht, El by done. done. }
  destruct (strchr l SEMI) as [[a r]|] eqn:Ec.
  - apply strchr_Some in Ec as [Ea Ha].
    assert (length l = length a + S (length r))%nat as Hn by (rewrite Ea, length_app; done).
    rewrite !IH by lia. rewrite Ea, commands_semi, commands_one, <- foldl_app by done. f_equal.
    destruct (trim a) as [|x t] eqn:Et; [done|]. destruct (Z.eqb_spec x HASH) as [->|]; [|done].
    destruct a as [|y a]; [done|]. exfalso. apply Hc. rewrite El in Ea. simpl in Ea. injection Ea as <- _.
    destruct (trim_cons c a) as [|[t' ?]]; [|congruence|congruence]. apply (trim_no_space l c l'). congruence.
  - apply strchr_None in Ec. rewrite commands_one, Ht, El by done. by rewrite (proj2 (Z.eqb_neq c HASH)) by done.
Qed.

(** ** Longest match *)

Definition reg_ok (l : list cli_cmd_entry_t) : Prop := Forall (fun e => cmdLen e = Zlen (cmd e)) l.

(** [e] is the first entry of greatest length that [line] names. *)
Lemma bestMatch_spec line l i bi bl :
  reg_ok l -> 0 <= i ->
  let r := bestMatch line l i bi bl in
  (r = (bi, bl) /\ forall e, e ∈ l -> matches line e = true -> cmdLen e <= bl) \/
  (exists k e, r = (i + Z.of_nat k, cmdLen e) /\ l !! k = Some e /\ matches line e = true /\ bl < cmdLen e /\
     forall e', e' ∈ l -> matches line e' = true -> cmdLen e' <= cmdLen e).
Proof.
  cbn zeta. revert i bi bl. induction l as [|x l IH]; intros i bi bl R Hi; simpl.
  { left. split; [done|]. intros e He. by apply elem_of_nil in He. }
  inversion R as [|?? Rx Rl]; subst. destruct (matches line x && (bl <? cmdLen x)) eqn:Eb.
  - b2p. right. destruct (IH (i + 1) i (cmdLen x) Rl) as [[E1 H1]|(k & e & E1 & E2 & E3 & E4 & E5)]; [lia| |].
    + exists 0%nat, x. split_and!; [rewrite E1; f_equal; lia|done|done|done|].
      intros e' [->|He]%elem_of_cons M; [lia|by apply H1].
    + exists (S k), e. split_and!; [rewrite E1; f_equal; lia|done|done|lia|].
      intros e' [->|He]%elem_of_cons M; [lia|by apply E5].
  - assert (matches line x = true -> cmdLen x <= bl) as Hx.
    { intros M. rewrite M in Eb. simpl in Eb. b2p. lia. }
    destruct (IH (i + 1) bi bl Rl) as [[E1 H1]|(k & e & E1 & E2 & E3 & E4 & E5)]; [lia| |].
    + left. split; [done|]. intros e' [->|He]%elem_of_cons M; [by apply Hx|by apply H1].
    + right. exists (S k), e. split_and!; [rewrite E1; f_equal; lia|done|done|done|].
      intros e' [->|He]%elem_of_cons M; [specialize (Hx M); lia|by apply E5].
Qed.

Lemma matches_spec line e :
  cmdLen e = Zlen (cmd e) ->
  matches line e = true <-> exists r, line = cmd e ++ r /\ (r = [] \/ exists r', r = 32 :: r').
Proof.
  intros El. unfold matches. rewrite El. unfold Zlen. rewrite Nat2Z.id, andb_true_iff, has_prefix_true. split.
  - intros [[r ->] H]. rewrite drop_app_length in H. exists r. split; [done|]. destruct r as [|c r]; [by left|].
    right. b2p. subst. by exists r.
  - intros (r & -> & H). rewrite drop_app_length. split; [by exists r|]. by destruct H as [->|[r' ->]].
Qed.

(** A line that names a command of a positive length runs the longest of them. *)
Lemma dispatch_longest line s :
  reg_ok (cmds s) -> Forall (fun e => cmd e <> []) (cmds s) ->
  (exists e r, e ∈ cmds s /\ line = cmd e ++ r /\ (r = [] \/ exists r', r = 32 :: r') /\
     (forall e', e' ∈ cmds s -> matches line e' = true -> cmdLen e' <= cmdLen e) /\
     dispatch run line s = run (cb e) (skip_while is_space r) s) \/
  ((forall e, e ∈ cmds s -> matches line e = false) /\
   dispatch run line s =
     if Zlen line =? 0 then s
     else cliPrintf (line ++ ($ ": unknown command. Type ") ++ [34] ++ ($ "help") ++ [34] ++ ($ " for help.") ++ [10]) s).
Proof.
  intros R N. unfold dispatch.
  destruct (bestMatch_spec line (cmds s) 0 (-1) 0 R) as [[-> H]|(k & e & -> & Ek & M & Hl & H)]; [done| |].
  - right. simpl. split; [|done]. intros e He. destruct (matches line e) eqn:M; [|done]. exfalso.
    specialize (H e He M). unfold reg_ok in R. rewrite Forall_forall in R, N. rewrite (R e He) in H. apply (N e He). apply Zlen_zero. zlia.
  - left. assert (e ∈ cmds s) as He by (by apply list_elem_of_lookup_2 in Ek).
    unfold reg_ok in R. rewrite Forall_forall in R. pose proof (R e He) as El.
    apply matches_spec in M as (r & Er & Hr); [|done]. exists e, r. split_and!; [done|done|done|done|].
    rewrite (proj2 (Z.leb_le _ _)) by lia. rewrite Z.add_0_l, Nat2Z.id, Ek. do 2 f_equal.
    rewrite El, Er. unfold Zlen. by rewrite Nat2Z.id, drop_app_length.
Qed.

(** C31: A line runs its commands, in order: the parts between semicolons, trimmed, up to the
    first comment, each after alias expansion. A command whose line names registered
    commands goes to one of the longest of them, with what follows as
    its arguments; any other is reported. *)
Theorem line_runs_commands line s c :
  reg_ok (cmds s) -> Forall (fun e => cmd e <> []) (cmds s) ->
  cliProcess run line s = foldl (fun s c => dispatch run (expandAlias c s) s) s (commands line) /\
  ((exists e r, e ∈ cmds s /\ c = cmd e ++ r /\ (r = [] \/ exists r', r = 32 :: r') /\
      (forall e', e' ∈ cmds s -> matches c e' = true -> cmdLen e' <= cmdLen e) /\
      dispatch run c s = run (cb e) (skip_while is_space r) s) \/
   ((forall e, e ∈ cmds s -> matches c e = false) /\
    dispatch run c s =
      if Zlen c =? 0 then s
      else cliPrintf (c ++ ($ ": unknown command. Type ") ++ [34] ++ ($ "help") ++ [34] ++ ($ " for help.") ++ [10]) s)).
Proof. intros R N. split; [unfold cliProcess; rewrite process_commands by lia; done|by apply dispatch_longest]. Qed.

End Process.

(** ** Registration keeps the registry sorted *)

Definition cmd_le (a b : cli_cmd_entry_t) : Prop := strcmp (cmd a) (cmd b) <> Gt.

Lemma insertCmd_sorted e l : Sorted cmd_le l -> Sorted cmd_le (insertCmd e l).
Proof.
  induction l as [|x l IH]; intros H; simpl; [by repeat constructor|].
  destruct (strcmp (cmd x) (cmd e)) eqn:Ec.
  - constructor; [done|]. constructor. unfold cmd_le. by rewrite strcmp_antisym, Ec.
  - inversion H as [|?? Hl Hh]; subst. constructor; [by apply IH|].
    destruct l as [|y l]; simpl; [constructor; unfold cmd_le; by rewrite Ec|].
    destruct (strcmp (cmd y) (cmd e)); constructor; unfold cmd_le; try (by rewrite Ec); by inversion Hh.
  - constructor; [done|]. constructor. unfold cmd_le. by rewrite strcmp_antisym, Ec.
Qed.

Lemma insertCmd_perm e l : insertCmd e l ≡ₚ e :: l.
Proof.
  induction l as [|x l IH]; simpl; [done|]. destruct (strcmp _ _); [done| |done].
  rewrite IH. apply perm_swap.
Qed.

(** Registration in any order gives a sorted registry with exactly the entries registered. *)
Theorem registry_sorted {W} (s : cli_st W) (l : list (bytes * Z)) :
  cmds s = [] ->
  let s' := foldl (fun s e => cliRegisterCmd s e.1 e.2) s l in
  Sorted cmd_le (cmds s') /\ reg_ok (cmds s') /\
  cmds s' ≡ₚ map (fun e => {| cmd := e.1; cb := e.2; cmdLen := Zlen e.1 |}) l.
Proof.
  intros E0. cbn zeta.
  assert (forall l (s : cli_st W), Sorted cmd_le (cmds s) -> reg_ok (cmds s) ->
    let s' := foldl (fun s e => cliRegisterCmd s e.1 e.2) s l in
    Sorted cmd_le (cmds s') /\ reg_ok (cmds s') /\
    cmds s' ≡ₚ cmds s ++ map (fun e : bytes * Z => {| cmd := e.1; cb := e.2; cmdLen := Zlen e.1 |}) l) as K.
  { clear s E0 l. induction l as [|e l IH]; intros s S R; simpl; [by rewrite app_nil_r|].
    destruct (IH (cliRegisterCmd s e.1 e.2)) as (I1 & I2 & I3).
    - by apply insertCmd_sorted.
    - unfold reg_ok. cbn. rewrite insertCmd_perm. by constructor.
    - split_and!; [done|done|]. rewrite I3. cbn. rewrite insertCmd_perm. by rewrite <- Permutation_middle. }
  destruct (K l s) as (K1 & K2 & K3); [rewrite E0; constructor|rewrite E0; constructor|]. rewrite E0 in K3. done.
Qed.

(** ** Scripts *)

(** The lines of a text: what lies between line ends. *)
Fixpoint pieces (s : bytes) : list bytes :=
  match s with
  | [] => [[]]
  | c :: s' =>
      if is_eol c then [] :: pieces s'
      else match pieces s' with t :: ts => (c :: t) :: ts | [] => [[c]] end
  end.

Definition filled (l : list bytes) : list bytes := filter (fun t => t <> []) l.
Definition no_eol (s : bytes) : Prop := Forall (fun c => is_eol c = false) s.
Definition last_piece (s : bytes) : bytes := default [] (last (pieces s)).

Lemma pieces_nonempty s : pieces s <> [].
Proof. destruct s as [|c s]; simpl; [done|]. destruct (is_eol c); [done|]. by destruct (pieces s). Qed.

Lemma pieces_app_eol a c s : no_eol a -> is_eol c = true -> pieces (a ++ c :: s) = a :: pieces s.
Proof. intros Ha Hc. induction Ha as [|x a Hx _ IH]; simpl; [by rewrite Hc|]. by rewrite Hx, IH. Qed.

Lemma pieces_line a : no_eol a -> pieces a = [a].
Proof. induction 1 as [|x a Hx _ IH]; simpl; [done|]. by rewrite Hx, IH. Qed.

Lemma but_last_cons {A} (x : A) l : l <> [] -> but_last (x :: l) = x :: but_last l.
Proof. destruct l as [|y l]; [done|]. done. Qed.

Lemma last_cons_ne {A} (x : A) l : l <> [] -> last (x :: l) = last l.
Proof. by destruct l. Qed.

Lemma last_piece_no_eol s : no_eol (last_piece s).
Proof.
  unfold last_piece. induction s as [|c s IH]; simpl; [constructor|].
  pose proof (pieces_nonempty s) as N. destruct (is_eol c) eqn:Ec; [by rewrite last_cons_ne|].
  destruct (pieces s) as [|t [|u ts]]; [done| |done]. simpl in *. by constructor.
Qed.

(** Cutting a text in two: the complete lines of the first part, then the rest of it. *)
Lemma pieces_split x y : pieces (x ++ y) = but_last (pieces x) ++ pieces (last_piece x ++ y).
Proof.
  induction x as [|c x IH]; simpl; [done|]. pose proof (pieces_nonempty x) as N.
  unfold last_piece in *. simpl. destruct (is_eol c) eqn:Ec.
  - rewrite but_last_cons, last_cons_ne by done. simpl. by f_equal.
  - rewrite IH. destruct (pieces x) as [|t [|u ts]] eqn:Ep; [done| |done].
    simpl. rewrite Ec. done.
Qed.

Lemma filled_app a b : filled (a ++ b) = filled a ++ filled b.
Proof. apply filter_app. Qed.

Section Script.
Context {W : Type} `{E : CliEnv W}.
Notation st := (cli_st W).
Variable run : Z -> bytes -> st -> st.

Abbreviation run_all := (foldl (fun s l => runLine run l s)).

Lemma runLines_pieces cur b s :
  no_eol cur ->
  runLines run cur b s = (last_piece (cur ++ b), run_all s (filled (but_last (pieces (cur ++ b))))).
Proof.
  revert cur s. induction b as [|c b IH]; intros cur s Hc; simpl.
  - rewrite app_nil_r. unfold last_piece. by rewrite pieces_line.
  - destruct (is_eol c) eqn:Ec.
    + unfold last_piece. rewrite (pieces_app_eol cur) by done. pose proof (pieces_nonempty b) as N.
      rewrite but_last_cons, last_cons_ne by done. rewrite (IH []) by constructor. cbn [app]. unfold last_piece. f_equal.
      unfold filled. destruct (Z.eqb_spec (Zlen cur) 0) as [E0|E0].
      * apply Zlen_zero in E0. subst cur. done.
      * rewrite filter_cons_True; [done|]. by intros ->.
    + rewrite IH by (apply Forall_app; split; [done|by constructor]). by rewrite <- app_assoc.
Qed.

(** The file read by [f]: [rest] is what is not read yet, and reading [k] bytes of it is a
    change [adv k] that the lines run in between neither see nor undo. *)
Variables (f : Z) (rest : W -> bytes) (adv : nat -> W -> W).

Definition advance (k : nat) (s : st) : st := with_world s (adv k (world s)).

Record reads_file : Prop := {
  rf_read : forall k w, 0 <= k -> fs_read f k w = (take (Z.to_nat k) (rest w), adv (length (take (Z.to_nat k) (rest w))) w);
  rf_rest : forall k w, rest (adv k w) = drop k (rest w);
  rf_adv : forall a b w, adv a (adv b w) = adv (b + a) w;
  rf_zero : forall w, adv 0 w = w;
  rf_run : forall l k s, runLine run l (advance k s) = advance k (runLine run l s);
  rf_run_rest : forall l s, rest (world (runLine run l s)) = rest (world s) }.

Hypothesis RF : reads_file.

Lemma run_all_advance ls k s : run_all (advance k s) ls = advance k (run_all s ls).
Proof. revert s. induction ls as [|l ls IH]; intros s; simpl; [done|]. by rewrite (rf_run RF), IH. Qed.

Lemma run_all_rest ls s : rest (world (run_all s ls)) = rest (world s).
Proof. revert s. induction ls as [|l ls IH]; intros s; simpl; [done|]. by rewrite IH, (rf_run_rest RF). Qed.

Lemma advance_advance a b s : advance a (advance b s) = advance (b + a) s.
Proof. unfold advance. simpl. by rewrite (rf_adv RF). Qed.

Lemma advance_zero s : advance 0 s = s.
Proof. unfold advance. rewrite (rf_zero RF). by destruct s. Qed.

Definition short (n : Z) (t : bytes) : Prop := Forall (fun l => Zlen l <= n) (pieces t).

Lemma short_prefix n a y : no_eol a -> short n (a ++ y) -> Zlen a <= n.
Proof.
  intros Ha H. unfold short in H.
  assert (exists t ts, pieces (a ++ y) = (a ++ t) :: ts) as (t & ts & E').
  { clear H. induction Ha as [|c a Hc _ (t & ts & IH)]; simpl.
    - destruct (pieces y) as [|t ts] eqn:Ep; [by apply pieces_nonempty in Ep|]. by exists t, ts.
    - exists t, ts. by rewrite Hc, IH. }
  rewrite E' in H. inversion H as [|?? H1 _]; subst. zlia.
Qed.

Lemma scriptLoop_run fu part s :
  (length (rest (world s)) + 1 < fu)%nat -> no_eol part -> short 126 (part ++ rest (world s)) ->
  scriptLoop run fu f part s =
    Some (advance (length (rest (world s))) (run_all s (filled (pieces (part ++ rest (world s)))))).
Proof.
  revert part s. induction fu as [|fu IH]; intros part s Hf Hp Hs; [lia|]. cbn [scriptLoop].
  pose proof (short_prefix 126 part _ Hp Hs) as Hl. pose proof (Zlen_nonneg part).
  rewrite (rf_read RF) by lia. set (k := Z.to_nat (128 - Zlen part - 1)).
  assert (0 < k)%nat as Hk by lia. set (r := rest (world s)) in *.
  change (with_world s (adv (length (take k r)) (world s))) with (advance (length (take k r)) s).
  destruct (Z.eqb_spec (Zlen (take k r)) 0) as [Ez|Ez].
  - apply Zlen_zero in Ez. assert (r = []) as Er by (destruct r; [done|]; by destruct k; [lia|]).
    rewrite Er, take_nil, app_nil_r. simpl length. rewrite !advance_zero, pieces_line by done. cbn [andb].
    unfold filled. destruct (Z.eqb_spec (Zlen part) 0) as [E0|E0].
    + apply Zlen_zero in E0. by subst part.
    + rewrite runLines_pieces by constructor. cbn [app]. unfold last_piece. rewrite pieces_line by done.
      change (default [] (last [part])) with part. change (but_last [part]) with (@nil bytes).
      rewrite (proj2 (Z.ltb_lt 0 (Zlen part))) by lia. rewrite filter_cons_True; [done|]. by intros ->.
  - cbn [andb]. rewrite runLines_pieces by constructor. cbn [app]. cbn iota. rewrite run_all_advance.
    set (x := part ++ take k r) in *. set (ls := filled (but_last (pieces x))).
    assert (Zlen (take k r) <> 0) as Hn by done.
    set (s1 := advance (length (take k r)) (run_all s ls)).
    assert (rest (world s1) = drop k r) as E1.
    { unfold s1, advance. simpl. rewrite (rf_rest RF), run_all_rest. fold r. rewrite length_take.
      destruct (le_lt_dec k (length r)); [by rewrite Nat.min_l|]. rewrite Nat.min_r by lia. by rewrite !drop_ge by lia. }
    assert (part ++ r = x ++ drop k r) as Ex by (unfold x; by rewrite <- app_assoc, take_drop).
    unfold short in Hs. rewrite Ex, pieces_split in Hs. apply Forall_app in Hs as [_ Hs].
    rewrite IH; rewrite ?E1; [|unfold Zlen in Hn; rewrite length_take in Hn; rewrite length_drop; lia|apply last_piece_no_eol|exact Hs].
    f_equal. unfold s1. rewrite run_all_advance, advance_advance. f_equal.
    + rewrite length_take, length_drop. lia.
    + rewrite Ex, (pieces_split x), filled_app, foldl_app. done.
Qed.

(** A script whose lines have at most 126 bytes runs every line of it that is not empty, in order, and returns:
    a round per byte of the file and two more are enough. *)
Theorem script_runs_lines fuel path s w1 :
  fs_open path (world s) = (f, w1) -> 0 <= f ->
  let s2 := with_world s (info (($ "cli: run ") ++ path ++ [10]) w1) in
  let text := rest (world s2) in
  short 126 text -> (length text + 1 < fuel)%nat ->
  let s3 := advance (length text) (run_all s2 (filled (pieces text))) in
  let s4 := with_world s3 (fs_close f (world s3)) in
  cliRunFile run fuel path s = Some (with_world s4 (info (($ "cli: end ") ++ path ++ [10]) (world s4))).
Proof.
  intros Eo Hf s2 text Hs Hfu s3 s4. unfold cliRunFile. rewrite Eo.
  rewrite (proj2 (Z.ltb_ge f 0)) by done. cbn [world]. change (with_world (with_world s w1) _) with s2.
  rewrite (scriptLoop_run fuel [] s2); [done|done|constructor|done].
Qed.

End Script.

(** ** Aliases *)

(** The value [v] is stored under [k], as the expansion reads it. *)
Definition stored {W} `{E : CliEnv W} (k v : bytes) (w : W) : Prop :=
  storageExists k w = true /\ storageGetStr k 192 [] w = trunc 192 v.

(** A word that can name an alias. *)
Record alias_word (n : bytes) : Prop := {
  aw_ne : n <> [];
  aw_size : Zlen n <= 65;
  aw_chars : Forall (fun c => is_blank c = false /\ c <> SEMI /\ c <> chr ".") n;
  aw_first : head n <> Some HASH }.

Section Alias.
Context {W : Type} `{E : CliEnv W}.
Notation st := (cli_st W).
Variable run : Z -> bytes -> st -> st.

Lemma nonblank_not_space c : is_blank c = false -> not_space c = true.
Proof. unfold is_blank, not_space. intros H. b2p. rewrite negb_true_iff, Z.eqb_neq. tauto. Qed.

Lemma word_not_space n : alias_word n -> Forall (fun c => not_space c = true) n.
Proof.
  intros [_ _ H _]. eapply Forall_impl; [exact H|]. intros c (Hc & _). by apply nonblank_not_space.
Qed.

Lemma take_word n r : alias_word n -> r = [] \/ (exists r', r = 32 :: r') -> take_while not_space (n ++ r) = n.
Proof.
  intros H. pose proof (word_not_space n H) as Hn. intros [->|[r' ->]].
  - rewrite app_nil_r. by apply take_while_all.
  - by apply take_while_app.
Qed.

Lemma aliasKey_word n : alias_word n -> aliasKey n = Some (CLI_ALIAS_PREFIX ++ n).
Proof.
  intros [_ H _ _]. unfold aliasKey. rewrite (proj2 (Z.ltb_lt _ _)); [done|]. rewrite Zlen_app.
  change (Zlen CLI_ALIAS_PREFIX) with 14. lia.
Qed.

Lemma Zlen_word n : alias_word n -> (Zlen n =? 0) = false.
Proof. intros [H _ _ _]. apply Z.eqb_neq. intros E0. by apply Zlen_zero in E0. Qed.

Lemma streq_space a (b : bytes) : 32 ∈ a -> 32 ∉ b -> streq a b = false.
Proof. intros H1 H2. apply streq_false. by intros ->. Qed.

(** [alias n v] stores [v]. *)
Lemma cmdAlias_sets n v s :
  alias_word n -> v <> [] -> head v <> Some 32 ->
  cmdAlias (n ++ 32 :: v) s = with_world s (storageSet (CLI_ALIAS_PREFIX ++ n) v (world s)).
Proof.
  intros Hn Hv Hh. unfold cmdAlias.
  assert (32 ∈ n ++ 32 :: v) as Hin by (rewrite elem_of_app, elem_of_cons; auto).
  assert (cliWantsHelp (n ++ 32 :: v) = false) as ->.
  { unfold cliWantsHelp. rewrite !streq_space; try done; apply (bool_decide_unpack (32 ∉ _)); vm_compute; exact I. }
  rewrite (take_word n) by eauto. rewrite drop_app_length. cbn [skip_while]. unfold is_space at 1. rewrite Z.eqb_refl.
  assert (skip_while is_space v = v) as ->.
  { destruct v as [|c v]; [done|]. simpl. unfold is_space. destruct (Z.eqb_spec c 32); [subst; by destruct Hh|done]. }
  rewrite (proj2 (Z.eqb_neq (Zlen (n ++ 32 :: v)) 0)) by zlia.
  rewrite bool_decide_eq_false_2.
  2: { intros Hd. destruct Hn as [_ _ Hc _]. rewrite Forall_forall in Hc. by destruct (Hc _ Hd) as (_ & _ & []). }
  rewrite (Zlen_word n), aliasKey_word by done. destruct (Z.eqb_spec (Zlen v) 0) as [E0|]; [by apply Zlen_zero in E0|done].
Qed.

Lemma trimEnd_keep n r : Forall (fun c => is_blank c = false) n -> n <> [] -> trimEnd is_blank (n ++ r) = n ++ trimEnd is_blank r.
Proof.
  intros H Hne. unfold trimEnd. rewrite rev_app_distr.
  assert (forall x y : bytes, match y with [] => False | c :: _ => is_blank c = false end ->
    skip_while is_blank (x ++ y) = skip_while is_blank x ++ y) as K.
  { intros x y Hy. induction x as [|c x IH]; simpl; [destruct y; [done|]; simpl; by rewrite Hy|].
    by destruct (is_blank c). }
  rewrite K, rev_app_distr, rev_involutive; [done|].
  apply Forall_rev in H. destruct (rev n) as [|c l] eqn:Er; [|by inversion H].
  apply Hne. rewrite <- (rev_involutive n), Er. done.
Qed.

Lemma trimEnd_args r : r = [] \/ (exists r', r = 32 :: r') ->
  trimEnd is_blank r = [] \/ exists r', trimEnd is_blank r = 32 :: r'.
Proof.
  intros [->|[r' ->]]; [by left|]. destruct (trimEnd_split is_blank (32 :: r')) as (b & E' & _).
  destruct (trimEnd is_blank (32 :: r')) as [|c t]; [by left|]. right. simpl in E'. injection E' as <- _. by exists t.
Qed.

(** A line that starts with the word runs the value with the arguments after it. *)
Lemma alias_expands n v r s :
  alias_word n -> Zlen v <= 191 -> Zlen v + Zlen r <= 383 -> SEMI ∉ r -> r = [] \/ (exists r', r = 32 :: r') ->
  stored (CLI_ALIAS_PREFIX ++ n) v (world s) ->
  cliProcess run (n ++ r) s = dispatch run (v ++ trimEnd is_blank r) s.
Proof.
  intros Hn Hv Hl Hr Hsp [Hw1 Hw2]. unfold cliProcess. rewrite process_commands by lia.
  pose proof Hn as [Hne Hsz Hc Hf].
  assert (Forall (fun c => is_blank c = false) n) as Hb by (eapply Forall_impl; [exact Hc|]; naive_solver).
  assert (trim (n ++ r) = n ++ trimEnd is_blank r) as Ht.
  { unfold trim. destruct n as [|c n]; [done|]. simpl. inversion Hb as [|?? Hc0 _]; subst.
    pose proof (nonblank_not_space _ Hc0) as Hs. unfold not_space in Hs. apply negb_true_iff in Hs.
    unfold is_space. rewrite Hs. by apply (trimEnd_keep (c :: n)). }
  rewrite commands_one, Ht.
  2: { rewrite elem_of_app. intros [Hi|Hi]; [|done]. rewrite Forall_forall in Hc. naive_solver. }
  destruct (n ++ trimEnd is_blank r) as [|c l] eqn:El; [by destruct n|].
  assert (c <> HASH) as Hh by (destruct n; [done|]; simpl in El; injection El as -> _; naive_solver).
  rewrite (proj2 (Z.eqb_neq c HASH)) by done. cbn [foldl]. unfold exec. f_equal. rewrite <- El.
  unfold expandAlias. rewrite (take_word n) by (try done; by apply trimEnd_args).
  rewrite drop_app_length, Zlen_word, aliasKey_word, Hw1, Hw2 by done.
  unfold trunc. rewrite (take_ge v) by (unfold Zlen in Hv; lia). rewrite take_ge; [done|].
  destruct (trimEnd_split is_blank r) as (b & Eb & _). rewrite length_app. unfold Zlen in Hl. rewrite Eb, length_app in Hl. lia.
Qed.
(** An alias that was defined expands: [alias n v] stores the value, and afterwards the word
    followed by arguments dispatches the value followed by them. *)
Theorem alias_roundtrip n v r s :
  alias_word n -> v <> [] -> head v <> Some 32 -> Zlen v <= 191 -> Zlen v + Zlen r <= 383 ->
  SEMI ∉ r -> r = [] \/ (exists r', r = 32 :: r') ->
  stored (CLI_ALIAS_PREFIX ++ n) v (storageSet (CLI_ALIAS_PREFIX ++ n) v (world s)) ->
  let s' := cmdAlias (n ++ 32 :: v) s in
  s' = with_world s (storageSet (CLI_ALIAS_PREFIX ++ n) v (world s)) /\
  cliProcess run (n ++ r) s' = dispatch run (v ++ trimEnd is_blank r) s'.
Proof.
  intros Hn Hv Hh H1 H2 Hr Hs St s'. assert (s' = with_world s (storageSet (CLI_ALIAS_PREFIX ++ n) v (world s))) as Es
    by (by apply cmdAlias_sets).
  split; [done|]. apply alias_expands; try done. by rewrite Es.
Qed.

End Alias.

(** ** History *)

Fixpoint no_repeat (h : list bytes) : Prop :=
  match h with
  | x :: ((y :: _) as h') => x <> y /\ no_repeat h'
  | _ => True
  end.

Lemma no_repeat_take n h : no_repeat h -> no_repeat (take n h).
Proof.
  revert n. induction h as [|x h IH]; intros [|n] H; try done. destruct h as [|y h]; [by destruct n|].
  destruct H as [H1 H2]. destruct n as [|n]; [done|]. split; [done|]. by apply (IH (S n)).
Qed.

Lemma histAdd_head h c : head (histAdd h c) = Some c.
Proof.
  unfold histAdd. destruct h as [|x h]; simpl; [done|]. destruct (streq x c) eqn:Ec; [apply streq_true in Ec; by subst|].
  by case_match.
Qed.

Lemma histAdd_ok h c :
  Zlen h <= HIST_SIZE -> no_repeat h -> Zlen (histAdd h c) <= HIST_SIZE /\ no_repeat (histAdd h c).
Proof.
  intros Hl Hr. unfold histAdd. destruct (match h with x :: _ => streq x c | [] => false end) eqn:Ed; [done|].
  assert (no_repeat (c :: h)) as Hn.
  { destruct h as [|x h]; [done|]. split; [|done]. apply streq_false in Ed. congruence. }
  destruct (Z.ltb_spec HIST_SIZE (Zlen (c :: h))).
  - split; [|by apply no_repeat_take]. rewrite Zlen_take, Zlen_cons. simpl. unfold Zlen in *. lia.
  - done.
Qed.
