(* ===== verification/CliInv.v ===== *)
(** * cli: what every pass of the task keeps

    The invariant bounds what a session holds (cursor, escape state, history index, line
    and password buffers, working directory), the history and the active slot, and
    says that no write left [cliSlots]. Every operation keeps it if the commands do. *)

From S2P Require Import Prelude CLib CliPath Cli CliEditor CliTask CliEditSpec CliShell.
Open Scope Z_scope.
Open Scope spangap_scope.

(** ** The invariant *)

(** The edit state inside an escape sequence or between keys. *)
Definition edit_wf (h : list bytes) (e : cli_edit) : Prop := edit_ok h (ed_esc e 0 0) /\ 0 <= escState e <= 4.

Record slot_ok (h : list bytes) (c : cli_slot_t) : Prop := {
  so_edit : edit_wf h (edit c);
  so_line : Zlen (lineBuf c) <= CLI_LINE_MAX + 1;
  so_pw : Zlen (pwBuf c) <= 128 /\ Forall (fun x => 32 <= x) (pwBuf c);
  so_cwd : Zlen (cwd c) <= 255 }.

Record cli_inv {W} (s : cli_st W) : Prop := {
  ci_slots : length (cliSlots s) = CLI_MAX_CLIENTS;
  ci_ok : Forall (slot_ok (histDq s)) (cliSlots s);
  ci_hist : Zlen (histDq s) <= HIST_SIZE;
  ci_active : -1 <= cliActiveSlot s < Z.of_nat CLI_MAX_CLIENTS;
  ci_bad : bad s = false }.

Lemma edit_ok_esc h e a b : edit_ok h (ed_esc e 0 a) -> edit_ok h (ed_esc e 0 b).
Proof. intros []. by split. Qed.

Lemma edit_ok_wf h e : edit_ok h e -> edit_wf h e.
Proof. intros H. split; [|destruct H; lia]. destruct H. by split. Qed.

Lemma edit_ok_mono h h' e : Zlen h <= Zlen h' -> edit_ok h e -> edit_ok h' e.
Proof. intros Hl []. split; [done|done|lia|done]. Qed.

Lemma slot_ok_mono h h' c : Zlen h <= Zlen h' -> slot_ok h c -> slot_ok h' c.
Proof. intros Hl [[] ???]. split; [split; [by eapply edit_ok_mono|done]|done..]. Qed.

Lemma slot0_ok h : slot_ok h slot0.
Proof. split; simpl; [apply edit_ok_wf, edit0_ok|done|done|done]. Qed.

Lemma wf_esc h e a b : edit_wf h e -> 0 <= a <= 4 -> edit_wf h (ed_esc e a b).
Proof. intros [[] _] Ha. split; [by split|done]. Qed.

Lemma pKey_ok h f p e : edit_ok h e -> edit_ok h (pKey h f p e).
Proof.
  intros H. unfold pKey.
  destruct (f =? chr "D"); [by apply step_left|]. destruct (f =? chr "C"); [by apply step_right|].
  destruct (f =? chr "A"); [by apply step_up|]. destruct (f =? chr "B"); [by apply step_down|].
  destruct (f =? chr "H"); [by apply step_home|]. destruct (f =? chr "F"); [by apply step_end|].
  destruct (f =? chr "~"); [|done]. pose proof (step_del h e H) as [D _].
  destruct (p =? 3); simpl; [destruct (cursor e <? Zlen (buf e)); [done|]|];
    (destruct ((p =? 1) || (p =? 7)); [by apply step_home|]; destruct ((p =? 4) || (p =? 8)); [by apply step_end|done]).
Qed.

Lemma editByte_wf h c e : edit_wf h e -> edit_wf h (editByte h c e).
Proof.
  intros H. pose proof H as [Ho Hr]. unfold editByte.
  destruct (Z.eqb_spec (escState e) 1).
  { apply wf_esc; [done|]. repeat case_match; lia. }
  destruct ((escState e =? 2) || (escState e =? 4)) eqn:E24.
  { unfold pCsi. destruct (in_range 48 63 c).
    - destruct (escState e =? 2); [|done]. destruct (in_range 48 57 c); [|apply wf_esc; [done|lia]].
      destruct (escParam e <? 10000); [apply wf_esc; [done|lia]|done].
    - destruct (in_range 32 47 c); [done|]. destruct (in_range 64 126 c); [|apply wf_esc; [done|lia]].
      apply edit_ok_wf, pKey_ok. by eapply edit_ok_esc. }
  destruct (Z.eqb_spec (escState e) 3); [apply edit_ok_wf, pKey_ok; by eapply edit_ok_esc|].
  destruct (Z.eqb_spec (escState e) 0) as [E0|]; [|b2p; lia].
  assert (edit_ok h e) as He by (destruct Ho; split; done).
  destruct (c =? ESC); [apply wf_esc; [done|lia]|].
  apply edit_ok_wf. destruct (c =? 1); [by apply step_home|]. destruct (c =? 5); [by apply step_end|].
  destruct ((c =? 127) || (c =? 8)); [by apply step_back|].
  pose proof (step_char h e c He) as [S _]. destruct (32 <=? c); simpl; [|done].
  by destruct (Zlen (buf e) <? 4096).
Qed.

Section Keep.
Context {W : Type} `{E : CliEnv W}.
Notation st := (cli_st W).

Definition slot_id (i : Z) : Prop := 0 <= i < Z.of_nat CLI_MAX_CLIENTS.

(** The invariant with slot [a] active. *)
Definition inv_on (a : Z) (s : st) : Prop := cli_inv s /\ cliActiveSlot s = a.

Lemma inv_slot_live (s : st) i : cli_inv s -> slot_id i -> live s i.
Proof. intros [H _ _ _ _] Hi. unfold live, Zlen. by rewrite H. Qed.

Lemma inv_quiet a s s' : quiet s s' -> inv_on a s -> inv_on a s'.
Proof.
  intros (E1 & E2 & E3 & E4 & E5 & E6)%quiet_fields [[] Ha]. split; [|congruence].
  split; rewrite ?E2, ?E3, ?E4, ?E5; done.
Qed.

Lemma inv_upd a s i f :
  slot_id i -> (forall c, slot_ok (histDq s) c -> slot_ok (histDq s) (f c)) -> inv_on a s -> inv_on a (upd s i f).
Proof.
  intros Hi Hf [H Ha]. pose proof (inv_slot_live s i H Hi) as L. rewrite upd_live by done. destruct H as [H1 H2 H3 H4 H5].
  split; [|done]. split; simpl; [by rewrite length_alter| |done|done|done].
  apply Forall_alter; [done|]. intros x Hx _. apply Hf. by rewrite Forall_lookup in H2; eapply H2.
Qed.

Lemma inv_slot (s : st) i : cli_inv s -> slot_ok (histDq s) (slot s i).
Proof.
  intros [_ H _ _ _]. unfold slot. destruct (0 <=? i); [|apply slot0_ok].
  destruct (cliSlots s !! Z.to_nat i) eqn:El; [|apply slot0_ok]. rewrite Forall_lookup in H. by eapply H.
Qed.

Lemma inv_edits a s i e s' :
  slot_id i -> edits s i e s' -> edit_wf (histDq s) e -> inv_on a s -> inv_on a s'.
Proof.
  intros Hi Q He H. eapply inv_quiet; [exact Q|]. apply inv_upd; [done| |done]. intros c []. by split.
Qed.

Lemma inv_fields a s s' :
  cliSlots s' = cliSlots s -> histDq s' = histDq s -> bad s' = bad s -> cliActiveSlot s' = cliActiveSlot s ->
  inv_on a s -> inv_on a s'.
Proof. intros E1 E2 E3 E4 [[] Ha]. split; [split; rewrite ?E1, ?E2, ?E3, ?E4; done|congruence]. Qed.

Lemma inv_active a b s : -1 <= b < Z.of_nat CLI_MAX_CLIENTS -> inv_on a s -> inv_on b (with_active s b).
Proof. intros Hb [[] _]. by split; [split|]. Qed.

Lemma Zlen_histAdd_ge h c : Zlen h <= HIST_SIZE -> Zlen h <= Zlen (histAdd h c).
Proof.
  intros H. unfold histAdd. destruct (match h with x :: _ => streq x c | [] => false end); [done|].
  destruct (Z.ltb_spec HIST_SIZE (Zlen (c :: h))); [|zlia].
  rewrite Zlen_take. rewrite Zlen_cons in *. simpl length. unfold Zlen in *. lia.
Qed.

Lemma inv_hist a s c : inv_on a s -> inv_on a (with_hist s (histAdd (histDq s) c)).
Proof.
  intros [[H1 H2 H3 H4 H5] Ha]. split; [|done]. split; simpl; [done| | |done|done].
  - eapply Forall_impl; [exact H2|]. intros x. apply slot_ok_mono. by apply Zlen_histAdd_ge.
  - unfold histAdd. destruct (match histDq s with x :: _ => streq x c | [] => false end); [done|].
    destruct (Z.ltb_spec HIST_SIZE (Zlen (c :: histDq s))); [|done]. rewrite Zlen_take. rewrite Zlen_cons in *.
    simpl length. unfold Zlen in *. lia.
Qed.

(** Updates of a slot that keep it well formed. *)
Lemma ok_close h c b : slot_ok h c -> slot_ok h (sl_close c b).
Proof. intros []. by split. Qed.
Lemma ok_handle h c b : slot_ok h c -> slot_ok h (sl_handle c b).
Proof. intros []. by split. Qed.
Lemma ok_line h c l : Zlen l <= CLI_LINE_MAX + 1 -> slot_ok h c -> slot_ok h (sl_line c l).
Proof. intros ? []. by split. Qed.
Lemma ok_cwd h c d : Zlen d <= 255 -> slot_ok h c -> slot_ok h (sl_cwd c d).
Proof. intros ? []. by split. Qed.
Lemma ok_login h c b n pw : Zlen pw <= 128 /\ Forall (fun x => 32 <= x) pw -> slot_ok h c -> slot_ok h (sl_login c b n pw).
Proof. intros ? []. by split. Qed.

Variable run : Z -> bytes -> st -> st.
Hypothesis run_inv : forall a f x s, inv_on a s -> inv_on a (run f x s).

Lemma inv_exec a s c : inv_on a s -> inv_on a (exec run s c).
Proof.
  intros H. unfold exec, dispatch. destruct (bestMatch _ _ _ _ _) as [bi bl].
  destruct (if 0 <=? bi then _ else _); [by apply run_inv|]. destruct (_ =? 0); [done|].
  eapply inv_quiet; [|exact H]. quiet.
Qed.

Lemma inv_process a l s : inv_on a s -> inv_on a (cliProcess run l s).
Proof.
  intros H. unfold cliProcess. rewrite process_commands by lia. revert s H.
  induction (commands l) as [|c cs IH]; intros s H; simpl; [done|]. apply IH. by apply inv_exec.
Qed.

Lemma inv_end a s : inv_on a s -> inv_on a (cliRequestSessionEnd s).
Proof.
  intros H. unfold cliRequestSessionEnd. case_match eqn:E0; [|done]. b2p.
  apply inv_upd; [|intros; by apply ok_close|done]. destruct H as [[_ _ _ Ha _] _]. split; [done|]. apply Ha.
Qed.

(** *** Bytes of a session in ANSI mode *)

Lemma inv_enterLine a i ansi wr s : slot_id i -> inv_on a s -> inv_on a (enterLine run i ansi wr s).
Proof.
  intros Hi H. unfold enterLine. set (l := buf (ed s i)).
  set (s1 := upd_ed (with_hist s (histAdd (histDq s) l)) i _).
  assert (inv_on a s1) as H1.
  { apply inv_upd; [done| |by apply inv_hist]. intros c []. split; [|done..]. simpl. destruct so_edit0 as [[] ?].
    split; [split; simpl; [zlia|done|zlia|lia]|done]. }
  clearbody s1. set (ends := (0 <=? cliActiveSlot s1) && _).
  set (s2 := with_out _ _). assert (inv_on a s2) as H2.
  { unfold s2. case_match.
    - eapply (inv_fields a (cliReturnToLog wr (put wr CRLF s1))); [done..|]. eapply inv_quiet; [|exact H1]. quiet.
    - eapply (inv_fields a (put wr CRLF s1)); [done..|]. eapply inv_quiet; [|exact H1]. quiet. }
  clearbody s2. set (s3 := cliProcess run l s2). assert (inv_on a s3) as H3 by (by apply inv_process). clearbody s3.
  case_match; [eapply inv_quiet; [|exact H3]; quiet|].
  set (s4 := if ends && active_usb s1 then _ else _). assert (inv_on a s4) as H4.
  { unfold s4. case_match; [eapply (inv_fields a (cliColorWrite wr RESET s3)); [done..|]|]; (eapply inv_quiet; [|exact H3]; quiet). }
  destruct (ends && negb (active_usb s1)) eqn:Eh; [|done]. unfold ends in Eh. b2p.
  apply inv_upd; [|intros; by apply ok_close|done]. destruct H1 as [[_ _ _ B1 _] A1], H4 as [_ A4].
  rewrite A4, <- A1. split; [done|]. apply B1.
Qed.

Lemma inv_enterEmpty a ansi wr s : inv_on a s -> inv_on a (enterEmpty ansi wr s).
Proof.
  intros H. unfold enterEmpty. case_match; [apply inv_end|case_match; [|done]]; (eapply inv_quiet; [|exact H]; quiet).
Qed.

Lemma insert_at_ok h e x :
  edit_ok h e -> edit_ok h (ed_line e (insert_at (cursor e) x (buf e)) (cursor e + Zlen x)).
Proof.
  intros [[H1 H2] He Hh Hs]. split; simpl; [|done..]. unfold insert_at. zlia.
Qed.

Lemma inv_tab a i wr s :
  slot_id i -> escState (ed s i) = 0 -> inv_on a s -> inv_on a (cliTabComplete i wr s).
Proof.
  intros Hi He H. unfold cliTabComplete. destruct (cliLongestCmdMatch _ _) as [ci cl].
  destruct (negb _ || _ || _); [done|]. destruct (tabTarget _ s) as [[dp pre]|]; [|done].
  destruct (foldl _ _ _) as [m|]; [|done]. destruct (Zlen m <=? Zlen pre); [done|].
  set (x := drop (length pre) m).
  assert (live s i) as L by (by apply inv_slot_live; [apply H|]).
  eapply (inv_edits a s i); [done| | |exact H].
  - eapply (edits_mid s i (fun e => ed_line e (insert_at (cursor e) x (buf e)) (cursor e + Zlen x))); [done|quiet|quiet].
  - apply edit_ok_wf, insert_at_ok. pose proof (inv_slot s i (proj1 H)) as [[Ho _] _ _ _].
    unfold ed in *. destruct Ho. by split.
Qed.

Lemma inv_char a i c wr s : slot_id i -> inv_on a s -> inv_on a (cliEditChar run i c wr s).
Proof.
  intros Hi H. pose proof (inv_slot s i (proj1 H)) as [Hw _ _ _]. fold (ed s i) in Hw. pose proof Hw as [_ Hr].
  assert (live s i) as L by (by apply inv_slot_live; [apply H|]).
  destruct (plain_byte c (ed s i)) eqn:Ep.
  { eapply inv_edits; [done|by apply edits_char|by apply editByte_wf|done]. }
  destruct (char_special run s i c wr Ep) as (E0 & [->|[->| ->]]).
  - apply inv_end. eapply inv_quiet; [|exact H]. quiet.
  - by apply inv_tab.
  - destruct (_ =? 0); [by apply inv_enterEmpty|by apply inv_enterLine].
Qed.

(** *** Bytes of the other sessions *)

Lemma inv_upd1 a (s : st) i f : slot_id i -> slot_ok (histDq s) (f (slot s i)) -> inv_on a s -> inv_on a (upd s i f).
Proof.
  intros Hi Hf H. rewrite (upd_ext s i f (fun _ => f (slot s i))); [by apply inv_upd| |done].
  apply inv_slot_live; [apply H|done].
Qed.

Lemma inv_lineBytes a i rb s : slot_id i -> inv_on a s -> inv_on a (lineBytes run i rb s).1.
Proof.
  intros Hi. revert s. induction rb as [|c rb IH]; intros s H; simpl; [done|].
  destruct (c =? 4); [done|]. destruct (is_eol c).
  - set (s1 := upd _ i _). assert (inv_on a s1) as H1.
    { apply inv_upd; [done|intros; by apply ok_line|]. destruct (_ =? 0); [done|]. apply inv_process.
      by apply (inv_fields a s). }
    clearbody s1. destruct (cliLineEndsWithSemicolon _); [done|]. apply IH. eapply inv_quiet; [|exact H1]. quiet.
  - destruct (Z.ltb_spec (Zlen (lineBuf (slot s i))) (CLI_LINE_MAX + 1)); [|by apply IH].
    apply IH. apply inv_upd1; [done| |done]. apply ok_line; [zlia|]. apply inv_slot, H.
Qed.

Lemma inv_login a i ansi rb s : slot_id i -> inv_on a s -> inv_on a (loginBytes i ansi rb s).
Proof.
  intros Hi. revert s. induction rb as [|c rb IH]; intros s H; simpl; [done|].
  assert (forall d (s : st), inv_on a s -> inv_on a (itsCliWrite d s)) as Q by (intros d x Hx; eapply inv_quiet; [|exact Hx]; quiet).
  assert (forall d (s : st), inv_on a s -> inv_on a (if ansi then itsCliWrite d s else s)) as Qa
    by (intros d x Hx; destruct ansi; [by apply Q|done]).
  destruct (_ || _).
  { apply inv_upd; [done|intros; apply ok_login; [done|by apply ok_close]|by apply Q]. }
  destruct (_ || _).
  { set (s1 := if ansi then _ else _). assert (inv_on a s1) as H1.
    { apply Qa, inv_upd; [done|intros; by apply ok_login|done]. }
    clearbody s1. destruct (authLogin _ _ _) as [ok w].
    assert (inv_on a (with_world s1 w)) as H2 by (eapply inv_quiet; [|exact H1]; quiet).
    destruct ok.
    - apply Qa. eapply inv_quiet; [apply quiet_prompt, quiet_refl|].
      apply inv_upd; [done|intros ? K; apply ok_login; [by destruct K|done]|done].
    - set (s2 := upd _ i _). assert (inv_on a s2) as H3.
      { apply inv_upd; [done|intros ? K; apply ok_login; [by destruct K|done]|done]. }
      clearbody s2. destruct (_ <=? _); [|by apply IH, Q]. apply inv_upd; [done|intros; by apply ok_close|by apply Q]. }
  destruct (_ || _).
  { destruct (_ =? 0); [by apply IH|]. apply IH, Qa. apply inv_upd; [done| |done].
    intros k K. apply ok_login; [|done]. destruct K as [_ _ [K1 K2] _]. split; [zlia|by apply Forall_take]. }
  destruct (Z.ltb_spec c 32); [by apply IH|].
  destruct (Z.ltb_spec (Zlen (pwBuf (slot s i))) 128); [|by apply IH]. apply IH, Qa. apply inv_upd1; [done| |done].
  pose proof (inv_slot s i (proj1 H)) as K. apply ok_login; [|done]. destruct K as [_ _ [K1 K2] _].
  split; [zlia|]. apply Forall_app. split; [done|]. constructor; [lia|constructor].
Qed.

(** *** Connects and disconnects *)

Lemma Zlen_safeStrncpy d n : (0 < n)%nat -> Zlen (safeStrncpy d n) <= Z.of_nat n - 1.
Proof. intros H. rewrite safeStrncpy_trunc. unfold trunc. rewrite Zlen_take. lia. Qed.

Lemma inv_startDir a i s : slot_id i -> inv_on a s -> inv_on a (cliApplyStartDir i s).
Proof.
  intros Hi H. apply inv_upd; [done| |done]. intros c. apply ok_cwd. unfold cliResolvedStartDir.
  apply (Zlen_safeStrncpy _ 256). lia.
Qed.

Lemma inv_asActive a i f s :
  slot_id i -> (forall s : st, quiet s (f s)) -> inv_on a s -> inv_on (-1) (asActive i f s).
Proof.
  intros Hi Hf H. unfold asActive. apply (inv_active i); [done|]. eapply inv_quiet; [apply Hf|].
  apply (inv_active a); [|done]. destruct Hi. lia.
Qed.

Lemma inv_init i s : slot_id i -> inv_on (-1) s -> inv_on (-1) (cliInitSlot i s).
Proof.
  intros Hi H. unfold cliInitSlot. set (s1 := if usbSerial (slot s i) then _ else _).
  assert (inv_on (-1) s1) as H1.
  { unfold s1. destruct (usbSerial _); [|by apply inv_startDir].
    set (s2 := if starts_slash _ && _ then _ else _). assert (inv_on (-1) s2) as H2.
    { unfold s2. destruct (_ && _); [|by apply inv_startDir]. apply inv_upd; [done| |done].
      intros c. apply ok_cwd. apply (Zlen_safeStrncpy _ 256). lia. }
    by apply (inv_fields (-1) s2). }
  clearbody s1. repeat match goal with |- inv_on _ (if ?b then _ else _) => destruct b end; try done;
    (apply (inv_asActive (-1)); [done|intros; quiet|done]).
Qed.

Lemma firstFree_range l i : firstFree l i = -1 \/ i <= firstFree l i < i + Zlen l.
Proof.
  revert i. induction l as [|c l IH]; intros i; simpl; [by left|]. destruct (itsHandle c <? 0); [right; zlia|].
  destruct (IH (i + 1)) as [|]; [by left|right; zlia].
Qed.

Lemma inv_alloc h s : inv_on (-1) s ->
  inv_on (-1) (cliAllocSlot h s).1 /\ ((cliAllocSlot h s).2 < 0 \/ slot_id (cliAllocSlot h s).2).
Proof.
  intros H. unfold cliAllocSlot. destruct (firstFree_range (cliSlots s) 0) as [E0|R]; [rewrite E0; simpl; auto with lia|].
  assert (slot_id (firstFree (cliSlots s) 0)) as Hi.
  { destruct H as [[Hl _ _ _ _] _]. unfold slot_id. unfold Zlen in R. rewrite Hl in R. lia. }
  rewrite (proj2 (Z.ltb_ge _ _)) by lia. simpl. split; [|by right].
  apply inv_upd; [done|intros; by apply ok_handle|done].
Qed.

Lemma tcpSlot_ok h c d : slot_ok h c -> slot_ok h (tcpSlot c d).
Proof. intros []. split; simpl; [apply edit_ok_wf, edit0_ok|done|done|done]. Qed.
Lemma dcSlot_ok h c d : slot_ok h c -> slot_ok h (dcSlot c d).
Proof. intros []. split; simpl; [apply edit_ok_wf, edit0_ok|done|done|done]. Qed.

Lemma inv_deliver s e : inv_on (-1) s -> inv_on (-1) (deliver s e).
Proof.
  intros H. destruct e as [h d|h d|r|f]; simpl.
  - unfold cliTcpConnect. destruct (inv_alloc h s H) as [H1 Hi]. destruct (cliAllocSlot h s) as [s1 i]. simpl in *.
    destruct (Z.ltb_spec i 0); [done|]. destruct Hi as [|Hi]; [lia|]. apply inv_init; [done|].
    apply inv_upd; [done|intros; by apply tcpSlot_ok|done].
  - unfold cliDcConnect. destruct (inv_alloc h s H) as [H1 Hi]. destruct (cliAllocSlot h s) as [s1 i]. simpl in *.
    destruct (Z.ltb_spec i 0); [done|]. destruct Hi as [|Hi]; [lia|]. apply inv_init; [done|].
    apply inv_upd; [done|intros; by apply dcSlot_ok|done].
  - unfold cliOnDisconnect. destruct (_ && _) eqn:Eb; [|done]. b2p.
    apply inv_upd; [by split|intros; apply slot0_ok|done].
  - eapply inv_quiet; [apply quiet_world|done].
Qed.

(** *** The loop *)

Lemma inv_input i rb s : slot_id i -> inv_on (-1) s -> inv_on (-1) (input run i rb s).
Proof.
  intros Hi H. unfold input. set (s1 := with_active _ i).
  assert (inv_on i s1) as H1.
  { apply (inv_active (-1)); [destruct Hi; lia|]. eapply inv_quiet; [apply quiet_world|done]. }
  clearbody s1. apply (inv_active i); [done|].
  destruct (_ && _); [by apply inv_login|]. destruct (_ =? _).
  - clear H. revert s1 H1. induction rb as [|c rb IH]; intros s1 H1; simpl; [done|]. apply IH. by apply inv_char.
  - pose proof (inv_lineBytes i i rb s1 Hi H1) as HL. destruct (lineBytes run i rb s1) as [s2 hang]. simpl in HL.
    destruct hang; [|done]. apply inv_upd; [done|intros; by apply ok_close|done].
Qed.

Lemma inv_serve i s : slot_id i -> inv_on (-1) s -> inv_on (-1) (CliTask.serve run s i).
Proof.
  intros Hi H. unfold CliTask.serve. destruct (_ || _); [done|]. destruct (itsRecv _ _ _) as [rb w].
  assert (inv_on (-1) (with_world s w)) as H1 by (eapply inv_quiet; [apply quiet_world|done]).
  destruct (_ =? 0); [done|]. by apply inv_input.
Qed.

Lemma inv_sweep i s : slot_id i -> inv_on (-1) s -> inv_on (-1) (sweep s i).
Proof.
  intros Hi H. unfold sweep. destruct (negb _); [done|].
  destruct (_ <? 0); [apply inv_upd; [done|intros; by apply ok_close|done]|].
  destruct (itsSendIsEmpty _ _); [|done]. apply inv_upd; [done|intros; apply slot0_ok|].
  eapply inv_quiet; [apply quiet_world|done].
Qed.

End Keep.

Lemma slotIds_id i : i ∈ slotIds -> slot_id i.
Proof.
  intros H. unfold slotIds in H. apply list_elem_of_fmap in H as (n & -> & Hn). apply elem_of_seq in Hn.
  unfold slot_id. lia.
Qed.

Lemma cliStart_inv {W} `{E : CliEnv W} reg (w : W) : inv_on (-1) (cliStart reg w).
Proof.
  split; [|done]. split; [done| |done|done|done]. change (Forall (slot_ok []) (replicate CLI_MAX_CLIENTS slot0)). apply Forall_replicate, slot0_ok.
Qed.

(** C28: From the start of the task on, whatever connects, disconnects and arrives and whatever
    cron queues, every pass keeps the bounds of every session and of the history and writes only
    into [cliSlots], as long as the commands do and leave the active slot as it was. A command
    that waits in [cliReadLine] while a client connects does not: the connect takes the
    active slot away from it. *)
Theorem passes_keep_invariant {W} `{E : CliEnv W} (run : Z -> bytes -> cli_st W -> cli_st W) reg (w : W)
    (ps : list (list event * list bytes)) :
  (forall a f x s, inv_on a s -> inv_on a (run f x s)) ->
  cli_inv (foldl (fun s p => pass run p.1 p.2 s) (cliStart reg w) ps).
Proof.
  intros R. apply (foldl_inv (inv_on (-1))); [|apply cliStart_inv]. intros s [es crons] _ H. simpl. unfold pass.
  apply (foldl_inv (inv_on (-1))).
  { intros s' l _ H'. apply inv_process; [done|]. eapply inv_quiet; [apply quiet_world|done]. }
  set (s1 := foldl sweep _ _). apply (inv_fields (-1) s1); [done..|]. unfold s1.
  apply foldl_inv; [intros; by apply inv_sweep; [apply slotIds_id|]|].
  apply foldl_inv; [intros; by apply inv_serve; [|apply slotIds_id|]|].
  unfold poll. apply foldl_inv; [intros; by apply inv_deliver|done].
Qed.
