(* ===== verification/CliLogin.v ===== *)
(** * cli: the password gate

    A session that asked for a login is [gated] until [authLogin] accepts. Whatever arrives
    on it meanwhile goes to the gate, which runs no command; nothing the task does for other
    sessions opens it. *)

From S2P Require Import Prelude CLib CliPath Cli CliEditor CliTask CliEditSpec CliShell CliInv.
Open Scope Z_scope.
Open Scope spangap_scope.

Section Gate.
Context {W : Type} `{E : CliEnv W}.
Notation st := (cli_st W).

(** An open session that still has to give the password. *)
Definition gated_slot (c : cli_slot_t) : Prop := 0 <= itsHandle c /\ loginRequired c = true /\ authed c = false.
Definition gated (s : st) (j : Z) : Prop := gated_slot (slot s j).

(** The line typed so far, [pw] being what was there before the bytes [rb]: a newline starts
    a new one, backspace and delete take its last byte, other control bytes and what
    exceeds 128 bytes are ignored. *)
Fixpoint entered (pw rb : bytes) : bytes :=
  match rb with
  | [] => pw
  | c :: rb =>
      if (c =? 13) || (c =? 10) then entered [] rb
      else if (c =? 8) || (c =? 127) then entered (take (pred (length pw)) pw) rb
      else if (c <? 32) || (128 <=? Zlen pw) then entered pw rb
      else entered (pw ++ [c]) rb
  end.

(** The world in which the gate asks for the password of slot [j]. *)
Definition asking (j : Z) (ansi : bool) (s : st) : W :=
  world (if ansi then itsCliWrite CRLF (upd s j (fun c => sl_login c (authed c) (pwTries c) []))
         else upd s j (fun c => sl_login c (authed c) (pwTries c) [])).

(** Among the bytes [rb] that arrive on the gated slot [j] is the end of a line that
    [authLogin] accepts, there and then, for the realm admin: the line typed on this
    slot. The bytes before it leave the session gated. *)
Definition accepts (j : Z) (ansi : bool) (rb : bytes) (s : st) : Prop :=
  exists pre c rest, rb = pre ++ c :: rest /\ (c = 13 \/ c = 10) /\ gated (loginBytes j ansi pre s) j /\
    (authLogin (entered (pwBuf (slot s j)) pre) ADMIN (asking j ansi (loginBytes j ansi pre s))).1 = true.

(** Serving slot [j] receives such bytes. *)
Definition opens (s : st) (j : Z) : Prop :=
  let '(rb, w) := itsRecv (itsHandle (slot s j)) 128 (world s) in
  accepts j (mode (slot s j) =? CLI_ANSI) rb (with_active (with_world (with_world s w) (humanDetected w)) j).

(** Where a step from [s] to [s'] leaves a gated session: gated, ended, or, if the step
    served that session and its bytes were accepted, authenticated. *)
Definition held (run : Z -> bytes -> st -> st) (s s' : st) (j : Z) : Prop :=
  gated s' j \/ slot s' j = slot0 \/ (authed (slot s' j) = true /\ s' = CliTask.serve run s j /\ opens s j).

Section Other.
Variable j : Z.
Hypothesis Hj : slot_id j.

Definition keeps (s s' : st) : Prop := gated s j -> gated s' j.

Lemma keeps_slots s s' : cliSlots s' = cliSlots s -> keeps s s'.
Proof. intros H. unfold keeps, gated, slot. by rewrite H. Qed.

Lemma keeps_quiet s s' : quiet s s' -> keeps s s'.
Proof. intros (_ & _ & H & _)%quiet_fields. by apply keeps_slots. Qed.

Lemma keeps_trans s1 s2 s3 : keeps s1 s2 -> keeps s2 s3 -> keeps s1 s3.
Proof. unfold keeps. auto. Qed.

Lemma keeps_upd (s : st) i f :
  (forall c, itsHandle (f c) = itsHandle c /\ loginRequired (f c) = loginRequired c /\ authed (f c) = authed c) ->
  keeps s (upd s i f).
Proof.
  intros Hf G. unfold gated in *. destruct (decide (i = j)) as [->|Hne]; [|by rewrite slot_upd_ne].
  unfold upd. destruct (_ && _) eqn:Eb; [|done]. b2p.
  assert (live s j) as L by done. pose proof (slot_upd s j f L) as Es. rewrite upd_live in Es by done. rewrite Es.
  unfold gated_slot in *. by destruct (Hf (slot s j)) as (-> & -> & ->).
Qed.

Lemma keeps_other (s : st) i f : i <> j -> keeps s (upd s i f).
Proof. intros Hne G. unfold gated. by rewrite slot_upd_ne by congruence. Qed.

Variable run : Z -> bytes -> st -> st.
Hypothesis run_keeps : forall f x s, keeps s (run f x s).

Lemma keeps_exec s c : keeps s (exec run s c).
Proof.
  unfold exec, dispatch. destruct (bestMatch _ _ _ _ _) as [bi bl].
  destruct (if 0 <=? bi then _ else _); [apply run_keeps|]. destruct (_ =? 0); [by apply keeps_slots|].
  apply keeps_quiet. quiet.
Qed.

Lemma keeps_process l s : keeps s (cliProcess run l s).
Proof.
  unfold cliProcess. rewrite process_commands by lia. revert s.
  induction (commands l) as [|c cs IH]; intros s; simpl; [by apply keeps_slots|].
  eapply keeps_trans; [apply keeps_exec|apply IH].
Qed.

Lemma keeps_end s : keeps s (cliRequestSessionEnd s).
Proof. unfold cliRequestSessionEnd. destruct (_ <=? _); [by apply keeps_upd|by apply keeps_slots]. Qed.

Lemma keeps_edits s i e s' : edits s i e s' -> keeps s s'.
Proof. intros Q. eapply keeps_trans; [|apply keeps_quiet; exact Q]. by apply keeps_upd. Qed.

Lemma keeps_enterLine i ansi wr s : keeps s (enterLine run i ansi wr s).
Proof.
  unfold enterLine. set (l := buf (ed s i)). set (s1 := upd_ed _ i _).
  assert (keeps s s1) as K1. { eapply keeps_trans; [|by apply keeps_upd]. by apply keeps_slots. }
  eapply keeps_trans; [exact K1|]. clearbody s1 l. clear K1 s.
  set (ends := (0 <=? cliActiveSlot s1) && _). set (s2 := with_out _ _).
  assert (keeps s1 s2) as K2.
  { unfold s2. destruct (ends && active_usb s1).
    - eapply (keeps_trans _ (cliReturnToLog wr (put wr CRLF s1))); [apply keeps_quiet; quiet|by apply keeps_slots].
    - eapply (keeps_trans _ (put wr CRLF s1)); [apply keeps_quiet; quiet|by apply keeps_slots]. }
  eapply keeps_trans; [exact K2|]. eapply keeps_trans; [apply (keeps_process l)|]. generalize (cliProcess run l s2). intros s3.
  destruct (negb ends && _); [apply keeps_quiet; quiet|].
  eapply (keeps_trans _ (cliColorWrite wr RESET s3)); [apply keeps_quiet; quiet|].
  destruct (ends && negb _); [|destruct (ends && active_usb s1); by apply keeps_slots].
  eapply keeps_trans; [|by apply keeps_upd]. destruct (ends && active_usb s1); by apply keeps_slots.
Qed.

Lemma keeps_tab i wr s : live s i -> keeps s (cliTabComplete i wr s).
Proof.
  intros L. unfold cliTabComplete. destruct (cliLongestCmdMatch _ _) as [ci cl].
  destruct (negb _ || _ || _); [by apply keeps_slots|]. destruct (tabTarget _ s) as [[dp pre]|]; [|by apply keeps_slots].
  destruct (foldl _ _ _) as [m|]; [|by apply keeps_slots]. destruct (Zlen m <=? Zlen pre); [by apply keeps_slots|].
  eapply (keeps_edits s i). eapply (edits_mid s i (fun e => ed_line e (insert_at (cursor e) (drop (length pre) m) (buf e))
    (cursor e + Zlen (drop (length pre) m)))); [done|quiet|quiet].
Qed.

Lemma keeps_char i c wr s : live s i -> 0 <= escState (ed s i) <= 4 -> keeps s (cliEditChar run i c wr s).
Proof.
  intros L Hr. destruct (plain_byte c (ed s i)) eqn:Ep; [eapply keeps_edits; by apply edits_char|].
  destruct (char_special run s i c wr Ep) as (E0 & [->|[->| ->]]).
  - eapply keeps_trans; [|apply keeps_end]. apply keeps_quiet. quiet.
  - by apply keeps_tab.
  - destruct (_ =? 0); [|apply keeps_enterLine]. unfold enterEmpty.
    destruct (active_usb s); [eapply keeps_trans; [|apply keeps_end]|]; apply keeps_quiet; quiet.
Qed.

Lemma keeps_lineBytes i rb s : keeps s (lineBytes run i rb s).1.
Proof.
  revert s. induction rb as [|c rb IH]; intros s; simpl; [by apply keeps_slots|].
  destruct (c =? 4); [by apply keeps_slots|]. destruct (is_eol c).
  - set (s1 := upd _ i _). assert (keeps s s1) as K.
    { eapply keeps_trans; [|by apply keeps_upd]. destruct (_ =? 0); [by apply keeps_slots|].
      eapply keeps_trans; [|apply keeps_process]. by apply keeps_slots. }
    clearbody s1. destruct (cliLineEndsWithSemicolon _); [done|].
    eapply keeps_trans; [exact K|]. eapply keeps_trans; [|apply IH]. apply keeps_quiet. quiet.
  - destruct (_ <? _); [|apply IH]. eapply keeps_trans; [|apply IH]. by apply keeps_upd.
Qed.

(** *** Other slots' logins, connects and closes *)

Lemma keeps_login i ansi rb s : i <> j -> keeps s (loginBytes i ansi rb s).
Proof.
  intros Hi. revert s. induction rb as [|c rb IH]; intros s; simpl; [by apply keeps_slots|].
  assert (forall d (s : st), keeps s (if ansi then itsCliWrite d s else s)) as Qa
    by (intros d x; apply keeps_quiet; quiet).
  assert (forall d (s : st), keeps s (itsCliWrite d s)) as Q by (intros d x; apply keeps_quiet; quiet).
  destruct (_ || _). { eapply keeps_trans; [apply Q|by apply keeps_other]. }
  destruct (_ || _).
  { set (s1 := if ansi then _ else _). assert (keeps s s1) as K by (eapply keeps_trans; [by apply keeps_other|apply Qa]).
    eapply keeps_trans; [exact K|]. clearbody s1. destruct (authLogin _ _ _) as [ok w].
    eapply (keeps_trans _ (with_world s1 w)); [by apply keeps_slots|]. destruct ok.
    - eapply keeps_trans; [|apply Qa]. eapply keeps_trans; [|apply keeps_quiet, quiet_prompt, quiet_refl]. by apply keeps_other.
    - set (s2 := upd _ i _). assert (keeps (with_world s1 w) s2) as K2 by (by apply keeps_other).
      eapply keeps_trans; [exact K2|]. clearbody s2. destruct (_ <=? _).
      + eapply keeps_trans; [apply Q|by apply keeps_other].
      + eapply keeps_trans; [apply Q|apply IH]. }
  destruct (_ || _).
  { destruct (_ =? 0); [apply IH|]. eapply keeps_trans; [|apply IH]. eapply keeps_trans; [|apply Qa]. by apply keeps_other. }
  destruct (c <? 32); [apply IH|]. destruct (_ <? _); [|apply IH].
  eapply keeps_trans; [|apply IH]. eapply keeps_trans; [|apply Qa]. by apply keeps_other.
Qed.

Lemma keeps_asActive i (f : st -> st) s : (forall s, quiet s (f s)) -> keeps s (asActive i f s).
Proof.
  intros Hf. unfold asActive. eapply (keeps_trans _ (with_active s i)); [by apply keeps_slots|].
  eapply keeps_trans; [apply keeps_quiet, Hf|]. by apply keeps_slots.
Qed.

Lemma keeps_init i s : i <> j -> keeps s (cliInitSlot i s).
Proof.
  intros Hi. unfold cliInitSlot. set (s1 := if usbSerial (slot s i) then _ else _).
  assert (keeps s s1) as K1.
  { unfold s1. destruct (usbSerial _); [|by apply keeps_other].
    set (s2 := if starts_slash _ && _ then _ else _). eapply (keeps_trans _ s2); [|by apply keeps_slots].
    unfold s2. destruct (_ && _); by apply keeps_other. }
  eapply keeps_trans; [exact K1|]. clearbody s1.
  repeat match goal with |- keeps _ (if ?b then _ else _) => destruct b end;
    first [by apply keeps_slots|apply keeps_asActive; intros; quiet].
Qed.

Lemma firstFree_free l i k : firstFree l i = k -> 0 <= i -> 0 <= k ->
  exists c, l !! Z.to_nat (k - i) = Some c /\ itsHandle c < 0 /\ i <= k.
Proof.
  revert i. induction l as [|c l IH]; intros i; simpl; [lia|]. destruct (Z.ltb_spec (itsHandle c) 0).
  - intros <- _ _. exists c. by rewrite Z.sub_diag.
  - intros E1 Hi Hk. destruct (IH _ E1) as (d & Hd & Hh & Hle); [lia|done|]. exists d.
    replace (Z.to_nat (k - i)) with (S (Z.to_nat (k - (i + 1)))) by lia. split_and!; [done|done|lia].
Qed.

(** A connect takes a free slot, so not a gated one. *)
Lemma keeps_connect h (f : cli_slot_t -> cli_slot_t) s :
  gated s j ->
  let '(s1, i) := cliAllocSlot h s in gated (if i <? 0 then s1 else cliInitSlot i (upd s1 i f)) j.
Proof.
  intros G. unfold cliAllocSlot. set (i := firstFree (cliSlots s) 0).
  destruct (Z.ltb_spec i 0) as [Hi|Hi]; [done|]. rewrite (proj2 (Z.ltb_ge i 0)) by done.
  destruct (firstFree_free (cliSlots s) 0 i eq_refl) as (c & Hc & Hh & _); [lia|done|].
  assert (i <> j) as Hne.
  { intros ->. unfold gated, slot in G. rewrite (proj2 (Z.leb_le _ _)) in G by done. rewrite Z.sub_0_r in Hc.
    rewrite Hc in G. destruct G as (G & _). simpl in G. lia. }
  apply keeps_init; [done|]. apply keeps_other; [done|]. by apply keeps_other.
Qed.

Lemma held_deliver s e : gated s j -> gated (deliver s e) j \/ slot (deliver s e) j = slot0.
Proof.
  intros G. destruct e as [h d|h d|r|f]; simpl.
  - left. pose proof (keeps_connect h (fun c => tcpSlot c d) s G) as K. unfold cliTcpConnect.
    destruct (cliAllocSlot h s) as [s1 i]. by destruct (i <? 0).
  - left. pose proof (keeps_connect h (fun c => dcSlot c d) s G) as K. unfold cliDcConnect.
    destruct (cliAllocSlot h s) as [s1 i]. by destruct (i <? 0).
  - unfold cliOnDisconnect. destruct (_ && _); [|by left]. destruct (decide (r = j)) as [->|Hne].
    + destruct (decide (live s j)) as [L|L]; [right; by rewrite slot_upd|]. left.
      unfold gated, upd in *. unfold live in L. destruct (_ && _) eqn:Eb; [b2p; lia|done].
    + left. by apply keeps_other.
  - left. by apply (keeps_slots s).
Qed.

(** *** The gate *)

(** A byte that the gate only remembers. *)
Lemma accepts_cons ansi c rb s s1 :
  (forall rb', loginBytes j ansi (c :: rb') s = loginBytes j ansi rb' s1) ->
  (forall rb', entered (pwBuf (slot s j)) (c :: rb') = entered (pwBuf (slot s1 j)) rb') ->
  accepts j ansi rb s1 -> accepts j ansi (c :: rb) s.
Proof.
  intros Hl He (pre & d & rest & -> & Hd & G & A). exists (c :: pre), d, rest. by rewrite Hl, He.
Qed.

Lemma gate_bytes ansi rb s :
  live s j -> gated s j ->
  let s' := loginBytes j ansi rb s in gated s' j \/ (authed (slot s' j) = true /\ accepts j ansi rb s).
Proof.
  cbn zeta. revert s. induction rb as [|c rb IH]; intros s L G; [by left|].
  assert (forall f d, live (if ansi then itsCliWrite d (upd s j f) else upd s j f) j /\
            slot (if ansi then itsCliWrite d (upd s j f) else upd s j f) j = f (slot s j)) as QU.
  { intros f d. assert (quiet (upd s j f) (if ansi then itsCliWrite d (upd s j f) else upd s j f)) as Hq by quiet.
    rewrite (quiet_slot _ _ _ Hq), slot_upd by done. split; [|done].
    apply quiet_fields in Hq as (_ & _ & Hq & _). unfold live. rewrite Hq. by apply live_upd. }
  assert (forall s1, live s1 j -> gated s1 j -> (forall rb', loginBytes j ansi (c :: rb') s = loginBytes j ansi rb' s1) ->
    (forall rb', entered (pwBuf (slot s j)) (c :: rb') = entered (pwBuf (slot s1 j)) rb') ->
    gated (loginBytes j ansi (c :: rb) s) j \/ (authed (slot (loginBytes j ansi (c :: rb) s) j) = true /\ accepts j ansi (c :: rb) s)) as Go.
  { intros s1 L1 G1 E1 E2. rewrite E1. destruct (IH s1 L1 G1) as [?|[? ?]]; [by left|]. right. split; [done|]. by apply (accepts_cons ansi c rb s s1). }
  destruct ((c =? 3) || (c =? 4)) eqn:Ec.
  { cbn [loginBytes]. rewrite Ec. left. apply keeps_upd; [done|]. apply (keeps_quiet s); [quiet|done]. }
  destruct ((c =? 13) || (c =? 10)) eqn:En.
  { destruct (QU (fun c => sl_login c (authed c) (pwTries c) []) CRLF) as [L1 E1].
    destruct (authLogin (pwBuf (slot s j)) ADMIN (asking j ansi s)) as [ok w] eqn:Ea. destruct ok.
    - right. split.
      + cbn [loginBytes]. rewrite Ec, En. unfold asking in Ea. rewrite Ea. set (s2 := upd _ j _).
        assert (quiet s2 (if ansi then itsCliWrite CURSOR_DEFAULT (cliWritePrompt W_itsCliWrite s2) else cliWritePrompt W_itsCliWrite s2))
          as Hq by quiet.
        rewrite (quiet_slot _ _ _ Hq). unfold s2. by rewrite slot_upd.
      + exists [], c, rb. split; [done|]. split; [b2p; tauto|]. split; [done|]. cbn [entered loginBytes]. by rewrite Ea.
    - set (s1 := if ansi then itsCliWrite CRLF _ else _) in *. set (s2 := upd (with_world s1 w) j (fun c => sl_login c (authed c) (pwTries c + 1) (pwBuf c))).
      assert (forall rb', loginBytes j ansi (c :: rb') s =
        if CLI_LOGIN_MAX_TRIES <=? pwTries (slot s2 j) then upd (itsCliWrite AUTH_FAILED s2) j (fun c => sl_close c true)
        else loginBytes j ansi rb' (itsCliWrite PASSWORD_PROMPT s2)) as El
        by (intros rb'; cbn [loginBytes]; rewrite Ec, En; unfold asking in Ea; fold s1 in Ea |- *; by rewrite Ea).
      assert (gated s1 j) as G1 by (unfold gated; rewrite E1; exact G).
      assert (gated s2 j) as G2 by (by apply keeps_upd). assert (live s2 j) as L2 by (by apply live_upd).
      assert (pwBuf (slot s2 j) = []) as P2.
      { unfold s2. rewrite slot_upd by done. simpl. by rewrite (quiet_slot s1), E1 by apply quiet_world. }
      clearbody s2. destruct (CLI_LOGIN_MAX_TRIES <=? _).
      { rewrite El. left. apply keeps_upd; [done|]. apply (keeps_quiet s2); [quiet|done]. }
      assert (quiet s2 (itsCliWrite PASSWORD_PROMPT s2)) as Hq by quiet. apply (Go (itsCliWrite PASSWORD_PROMPT s2)); [|by apply (keeps_quiet s2)|done|].
      + apply quiet_fields in Hq as (_ & _ & Hq & _). unfold live. by rewrite Hq.
      + intros rb'. cbn [entered]. by rewrite En, (quiet_slot _ _ _ Hq), P2. }
  destruct ((c =? 8) || (c =? 127)) eqn:Eb.
  { destruct (Z.eqb_spec (Zlen (pwBuf (slot s j))) 0) as [Hz|Hz].
    - apply (Go s); [done|done|intros rb'; cbn [loginBytes]; by rewrite Ec, En, Eb, Hz|].
      intros rb'. cbn [entered]. rewrite En, Eb. apply Zlen_zero in Hz. by rewrite Hz.
    - destruct (QU (fun c => sl_login c (authed c) (pwTries c) (take (pred (length (pwBuf c))) (pwBuf c))) [8; 32; 8]) as [L1 E1].
      eapply Go; [exact L1|unfold gated; rewrite E1; exact G| |].
      + intros rb'. cbn [loginBytes]. by rewrite Ec, En, Eb, (proj2 (Z.eqb_neq _ _) Hz).
      + intros rb'. cbn [entered]. by rewrite En, Eb, E1. }
  destruct (Z.ltb_spec c 32) as [H32|H32].
  { apply (Go s); [done|done|intros rb'; cbn [loginBytes]; by rewrite Ec, En, Eb, (proj2 (Z.ltb_lt _ _) H32)|].
    intros rb'. cbn [entered]. by rewrite En, Eb, (proj2 (Z.ltb_lt _ _) H32). }
  destruct (Z.ltb_spec (Zlen (pwBuf (slot s j))) 128) as [Hl|Hl].
  - destruct (QU (fun k => sl_login k (authed k) (pwTries k) (pwBuf k ++ [c])) ($ "*")) as [L1 E1].
    eapply Go; [exact L1|unfold gated; rewrite E1; exact G| |].
    + intros rb'. cbn [loginBytes]. by rewrite Ec, En, Eb, (proj2 (Z.ltb_ge _ _) H32), (proj2 (Z.ltb_lt _ _) Hl).
    + intros rb'. cbn [entered]. by rewrite En, Eb, (proj2 (Z.ltb_ge _ _) H32), (proj2 (Z.leb_gt _ _) Hl), E1.
  - apply (Go s); [done|done|intros rb'; cbn [loginBytes]; by rewrite Ec, En, Eb, (proj2 (Z.ltb_ge _ _) H32), (proj2 (Z.ltb_ge _ _) Hl)|].
    intros rb'. cbn [entered]. by rewrite En, Eb, (proj2 (Z.ltb_ge _ _) H32), (proj2 (Z.leb_le _ _) Hl).
Qed.

(** *** The loop *)

Hypothesis run_inv : forall a f x s, inv_on a s -> inv_on a (run f x s).

Lemma keeps_ansi i rb s a :
  slot_id i -> inv_on a s -> gated s j -> gated (foldl (fun s c => cliEditChar run i c W_itsCliWrite s) s rb) j.
Proof.
  intros Hi. revert s. induction rb as [|c rb IH]; intros s H G; simpl; [done|].
  apply IH; [by apply inv_char|]. apply keeps_char; [by apply inv_slot_live; [apply H|]| |done].
  pose proof (inv_slot s i (proj1 H)) as [[_ Hr] _ _ _]. exact Hr.
Qed.

(** What arrives on a slot opens a gated one only through its own gate. *)
Lemma held_input i rb s : slot_id i -> inv_on (-1) s -> gated s j ->
  gated (input run i rb s) j \/
  (i = j /\ authed (slot (input run i rb s) j) = true /\
   accepts j (mode (slot s j) =? CLI_ANSI) rb (with_active (with_world s (humanDetected (world s))) j)).
Proof.
  intros Hi H G. unfold input. set (s1 := with_active _ i).
  assert (inv_on i s1) as H1.
  { apply (inv_active (-1)); [destruct Hi; lia|]. eapply inv_quiet; [apply quiet_world|done]. }
  assert (gated s1 j) as G1 by (by apply (keeps_slots s)).
  assert (forall x : st, gated x j -> gated (with_active x (-1)) j) as K by (intros x Gx; by apply (keeps_slots x)).
  destruct (loginRequired (slot s1 i) && negb (authed (slot s1 i))) eqn:El.
  - destruct (decide (i = j)) as [->|Hne]; [|left; by apply K, keeps_login].
    unfold cliHandleLoginInput. change (slot s1 j) with (slot s j). set (ansi := mode _ =? _).
    destruct (gate_bytes ansi rb s1) as [Gx|[Ax Bx]]; [by apply inv_slot_live; [apply H1|]|done|left; by apply K|].
    right. split; [done|]. split; [exact Ax|exact Bx].
  - assert (i <> j) as Hne.
    { intros ->. destruct G1 as (_ & G2 & G3). by rewrite G2, G3 in El. }
    left. destruct (_ =? _); [apply K; by eapply keeps_ansi|].
    pose proof (keeps_lineBytes i rb s1 G1) as GL. destruct (lineBytes run i rb s1) as [s2 hang]. simpl in GL.
    apply K. destruct hang; [by apply keeps_other|done].
Qed.

Lemma held_serve i s : slot_id i -> inv_on (-1) s -> gated s j -> held run s (CliTask.serve run s i) j.
Proof.
  intros Hi H G. unfold held.
  assert (gated (CliTask.serve run s i) j \/ (i = j /\ authed (slot (CliTask.serve run s i) j) = true /\ opens s j)) as [?|(-> & ? & ?)];
    [|by left|right; right; by split_and!].
  unfold CliTask.serve, opens. destruct ((itsHandle (slot s i) <? 0) || _); [by left|]. destruct (itsRecv (itsHandle (slot s i)) 128 (world s)) as [rb w] eqn:Er.
  assert (gated (with_world s w) j) as G1 by (by apply (keeps_slots s)). destruct (_ =? 0); [by left|].
  destruct (held_input i rb (with_world s w)) as [?|(-> & ? & Hx)]; [done| |done|by left|].
  - eapply inv_quiet; [apply quiet_world|done].
  - right. split; [done|]. split; [done|]. rewrite Er. exact Hx.
Qed.

Lemma held_sweep i s : slot_id i -> inv_on (-1) s -> gated s j -> gated (sweep s i) j \/ slot (sweep s i) j = slot0.
Proof.
  intros Hi H G. unfold sweep. destruct (negb _); [by left|].
  destruct (_ <? 0); [left; by apply keeps_upd|]. destruct (itsSendIsEmpty _ _); [|by left].
  set (s1 := with_world s _). assert (gated s1 j) as G1 by (by apply (keeps_slots s)).
  destruct (decide (i = j)) as [->|Hne]; [|left; by apply keeps_other].
  right. rewrite slot_upd; [done|]. apply (inv_slot_live s); [apply H|done].
Qed.

End Other.

(** What the task does, one piece at a time. *)
Inductive step (run : Z -> bytes -> st -> st) : st -> st -> Prop :=
  | step_event s e : step run s (deliver s e)
  | step_serve s i : slot_id i -> step run s (CliTask.serve run s i)
  | step_sweep s i : slot_id i -> step run s (sweep s i)
  | step_cron s l : step run s (cliProcess run l (with_out s (Some W_cronCliWrite))).

(** What arrives on a gated session does not reach a command. *)
Lemma gated_serve run run' s j : gated s j -> CliTask.serve run s j = CliTask.serve run' s j.
Proof.
  intros G. unfold CliTask.serve. destruct (_ || _); [done|]. destruct (itsRecv _ _ _) as [rb w].
  destruct (_ =? 0); [done|]. unfold input. set (s1 := with_active _ j).
  assert (gated s1 j) as (_ & G2 & G3) by (by apply (keeps_slots j s)).
  rewrite G2, G3. cbn [andb negb]. reflexivity.
Qed.

End Gate.

(** C26: a session that asked for a login runs no command before the password. What arrives on
    it is handled without the commands, and every step of the task, for this session or
    another, leaves it waiting for the password, ends it, or authenticates it: the latter
    only when the step serves this session and [authLogin] accepts, for the realm admin and
    in the state at that moment, the line that was typed on it. Commands that other sessions
    run are arbitrary but for two things: they keep the task's invariant and they do not
    touch a gated session. *)
Theorem login_gate {W} `{E : CliEnv W} (run : Z -> bytes -> cli_st W -> cli_st W) j (s s' : cli_st W) :
  (forall a f x s, inv_on a s -> inv_on a (run f x s)) -> (forall f x s, gated s j -> gated (run f x s) j) ->
  slot_id j -> inv_on (-1) s -> gated s j -> step run s s' ->
  held run s s' j /\ forall run', CliTask.serve run s j = CliTask.serve run' s j.
Proof.
  intros R K Hj H G St. split; [|intros run'; by apply gated_serve].
  destruct St as [s e|s i Hi|s i Hi|s l].
  - destruct (held_deliver j s e G); [by left|right; by left].
  - by apply held_serve.
  - destruct (held_sweep j i s) as [?|?]; [done|done|done|by left|right; by left].
  - left. apply keeps_process; [done|]. by apply (keeps_slots j s).
Qed.
