(* ===== verification/CliDemo.v ===== *)
(** * cli: a device with one password

    The environment of the CLI built from the models of storage (Config.v) and auth
    (Auth.v), with sessions, one file and a log as lists. It runs the scenarios that show
    the hypotheses of the theorems can hold, and the defects. *)

From stdpp Require Import gmap.
From S2P Require Import Prelude CLib StorageDb Config Auth AuthProofs ConfigSet.
Import Ops Actor.
From S2P Require Import CliPath Cli CliEditor CliTask CliEditSpec CliShell CliInv CliLogin.
Import Plain Demo.
Open Scope Z_scope.
Open Scope spangap_scope.

Module CliDemo.

(** [inq]: what each handle has to read, one receive each; [outq]: what was sent; [drained]:
    whether the peers have read it; [fpos]: the position in the file. *)
Record dev := {
  sys : Session.auth_st (D := unit); clock : Z; inq : list (Z * bytes); outq : list (Z * bytes); drained : bool;
  dirs : list bytes; names : bytes -> list bytes; fileText : bytes; fpos : nat; logs : list bytes;
  ran : list (Z * bytes) }.

Definition set_sys (w : dev) a := {| sys := a; clock := clock w; inq := inq w; outq := outq w; drained := drained w;
  dirs := dirs w; names := names w; fileText := fileText w; fpos := fpos w; logs := logs w; ran := ran w |}.
Definition set_clock (t : Z) (w : dev) := {| sys := sys w; clock := t; inq := inq w; outq := outq w; drained := drained w;
  dirs := dirs w; names := names w; fileText := fileText w; fpos := fpos w; logs := logs w; ran := ran w |}.
Definition set_in (l : list (Z * bytes)) (w : dev) := {| sys := sys w; clock := clock w; inq := l; outq := outq w; drained := drained w;
  dirs := dirs w; names := names w; fileText := fileText w; fpos := fpos w; logs := logs w; ran := ran w |}.
Definition set_out (l : list (Z * bytes)) (w : dev) := {| sys := sys w; clock := clock w; inq := inq w; outq := l; drained := drained w;
  dirs := dirs w; names := names w; fileText := fileText w; fpos := fpos w; logs := logs w; ran := ran w |}.
Definition set_fpos (n : nat) (w : dev) := {| sys := sys w; clock := clock w; inq := inq w; outq := outq w; drained := drained w;
  dirs := dirs w; names := names w; fileText := fileText w; fpos := n; logs := logs w; ran := ran w |}.
Definition set_logs (l : list bytes) (w : dev) := {| sys := sys w; clock := clock w; inq := inq w; outq := outq w; drained := drained w;
  dirs := dirs w; names := names w; fileText := fileText w; fpos := fpos w; logs := l; ran := ran w |}.
Definition set_ran (l : list (Z * bytes)) (w : dev) := {| sys := sys w; clock := clock w; inq := inq w; outq := outq w; drained := drained w;
  dirs := dirs w; names := names w; fileText := fileText w; fpos := fpos w; logs := logs w; ran := l |}.

Definition cfg_of (w : dev) : cfg_st unit := Session.cfg (sys w).
Definition commitTo (w : dev) (op : bytes) : dev :=
  match Actor.commit (cfg_of w) false [op] (Some 1) None with
  | Some (c, _) => set_sys w (Session.with_cfg (sys w) c)
  | None => w
  end.

Fixpoint recvFrom (h : Z) (l : list (Z * bytes)) : bytes * list (Z * bytes) :=
  match l with
  | [] => ([], [])
  | (k, d) :: l' => if k =? h then (d, l') else let '(b, r) := recvFrom h l' in (b, (k, d) :: r)
  end.

#[export] Instance DevEnv : CliEnv dev := {|
  itsSend h d w := (Zlen d, set_out (outq w ++ [(h, d)]) w);
  itsRecv h n w := let '(b, l) := recvFrom h (inq w) in (b, set_in l w);
  itsConnected h w := 0 <=? h;
  itsSendIsEmpty h w := drained w;
  itsDisconnect h w := w;
  storageExists k w := Actor.storageExists (cfg_of w) k;
  storageGetStr k n d w := Actor.storageGetStr (cfg_of w) k n d;
  storageSet k v w := commitTo w (opAppendKV (chr "S") k v);
  storageUnset k w := commitTo w (opAppendDelete k);
  storageForEach p w := [];
  fs_isdir d w := bool_decide (d ∈ dirs w);
  fs_listdir d n w := names w d;
  fs_open p w := (3, set_fpos 0 w);
  fs_read f n w :=
    let d := take (Z.to_nat n) (drop (fpos w) (fileText w)) in (d, set_fpos (fpos w + length d) w);
  fs_close f w := w;
  authLogin pw realm w :=
    match Session.authLogin (Some 1) None (sys w) pw realm (replicate 16 9) 0 (clock w) with
    | Some (a, AUTH_OK, _, _) => (true, set_sys w a)
    | Some (a, _, _, _) => (false, set_sys w a)
    | None => (false, w)
    end;
  info t w := set_logs (logs w ++ [t]) w;
  warn t w := set_logs (logs w ++ [t]) w;
  humanDetected w := w;
  fw_hostname := $ "spangap" |}.

Definition dev0 : dev := {|
  sys := Demo.device []; clock := 0; inq := []; outq := []; drained := false; dirs := [$ "/sdcard"; $ "/state"];
  names d := if streq d ($ "/") then [$ "sdcard"; $ "state"] else if streq d ($ "/sdcard") then [$ "stale.log"] else [];
  fileText := []; fpos := 0; logs := []; ran := [] |}.

(** Every command is recorded. *)
Definition record (f : Z) (x : bytes) (s : cli_st dev) : cli_st dev :=
  with_world s (set_ran (ran (world s) ++ [(f, x)]) (world s)).

Definition reg : list cli_cmd_entry_t :=
  cmds (foldl (fun s e => cliRegisterCmd s e.1 e.2) (cliStart [] dev0)
    [($ "reboot", 1); ($ "log", 2); ($ "log level", 3); ($ "cd", 4); ($ "ask", 5)]).

Definition begin : cli_st dev := cliStart reg dev0.

End CliDemo.
Import CliDemo.

Definition CR : bytes := [13].
Definition LF : bytes := [10].
Definition later (t : Z) (l : list (Z * bytes)) : list event := [EvOther (fun w => set_in l (set_clock t w))].

(** A browser session in slot 0. *)
Definition browser : cli_st dev := pass record [EvDc 5 ($ "40x20")] [] begin.

Lemma browser_edit : ed browser 0 = edit0.
Proof. vm_compute. reflexivity. Qed.

Lemma browser_live : live browser 0.
Proof. split; vm_compute; [discriminate|reflexivity]. Qed.

(** ** The hypotheses can hold *)

(** "lo", left, "x", backspace, control-right, "g", home, delete. *)
Definition keys : list bytes :=
  [[108]; [111]; [ESC; chr "["; chr "D"]; [120]; [127]; [ESC; chr "["; chr "1"; chr ";"; chr "5"; chr "C"]; [103]; [1];
   [ESC; chr "["; chr "3"; chr "~"]].

Lemma editor_refines_line_witness :
  buf (ed (editInput record 0 W_itsCliWrite (concat keys) browser) 0) = $ "og".
Proof.
  destruct (editor_refines_line record browser 0 W_itsCliWrite
    [KChar 108; KChar 111; KLeft; KChar 120; KBack; KRight; KChar 103; KHome; KDel] keys browser_live) as (A & _ & _).
  - rewrite browser_edit. apply edit0_ok.
  - repeat apply Forall2_cons_2; try apply Forall2_nil_2; try (apply enc_char; lia); try constructor; try constructor.
    + apply (enc_csi KLeft (chr "D") []); constructor.
    + apply (enc_csi KRight (chr "C") ($ "1;5")); [constructor|].
      apply (bool_decide_unpack _). vm_compute. exact I.
  - rewrite <- abs_text, A. vm_compute. reflexivity.
Defined.

(** The same session after two lines. *)
Definition typed : cli_st dev := pass record (later 0 [(5, ($ "log") ++ CR ++ ($ "reboot") ++ CR ++ ($ "dr"))]) [] browser.

Lemma history_roundtrip_witness :
  let e := ed (editInput record 0 W_itsCliWrite
    (concat ([[ESC; chr "["; chr "A"]; [ESC; chr "O"; chr "A"]; [ESC; chr "["; chr "B"]; [ESC; chr "O"; chr "B"]])) typed) 0 in
  buf e = $ "dr" /\ cursor e = 2 /\ histIdx e = -1.
Proof.
  cbn zeta. apply (history_roundtrip record typed 0 W_itsCliWrite 1).
  - split; vm_compute; [discriminate|reflexivity].
  - split; vm_compute; done.
  - vm_compute. reflexivity.
  - vm_compute. lia.
  - repeat constructor.
    + apply (enc_csi KUp (chr "A") []); constructor.
    + apply (enc_csi KDown (chr "B") []); constructor.
Defined.

Lemma line_runs_commands_witness :
  ran (world (cliProcess record ($ " log level 3 ;; log  a; # log b; reboot") begin)) = [(3, $ "3"); (2, $ "a")].
Proof.
  destruct (line_runs_commands record ($ " log level 3 ;; log  a; # log b; reboot") begin ($ "log level 3")) as [E _].
  - apply (bool_decide_unpack _). vm_compute. exact I.
  - apply (bool_decide_unpack _). vm_compute. exact I.
  - rewrite E. vm_compute. reflexivity.
Defined.

Lemma registry_sorted_witness :
  cmds begin ≡ₚ map (fun e => {| cmd := e.1; cb := e.2; cmdLen := Zlen e.1 |})
    [($ "reboot", 1); ($ "log", 2); ($ "log level", 3); ($ "cd", 4); ($ "ask", 5)].
Proof.
  apply (registry_sorted (cliStart [] dev0) [($ "reboot", 1); ($ "log", 2); ($ "log level", 3); ($ "cd", 4); ($ "ask", 5)]).
  reflexivity.
Defined.

(** Storage is the configuration tree, so the value read back is the tree's. *)
Lemma alias_roundtrip_witness :
  ran (world (cliProcess record ($ "ll 5 ") (cmdAlias ($ "ll log  level") begin))) = [(2, $ "level 5")].
Proof.
  destruct (alias_roundtrip record ($ "ll") ($ "log  level") ($ " 5 ") begin) as (E1 & E2).
  - split; vm_compute; try done. repeat constructor; discriminate.
  - discriminate.
  - vm_compute. discriminate.
  - vm_compute. discriminate.
  - vm_compute. discriminate.
  - apply (bool_decide_unpack _). vm_compute. exact I.
  - right. by eexists.
  - split; vm_compute; reflexivity.
  - change ($ "ll 5 ") with (($ "ll") ++ $ " 5 "). change ($ "ll log  level") with (($ "ll") ++ 32 :: $ "log  level").
    rewrite E2. vm_compute. reflexivity.
Defined.

(** *** A script *)

Definition adv (k : nat) (w : dev) : dev := set_fpos (fpos w + k) w.
Definition unread (w : dev) : bytes := drop (fpos w) (fileText w).

Lemma sendLoop_adv fu h d n k w : sendLoop fu h d n (adv k w) = adv k (sendLoop fu h d n w).
Proof.
  revert d n w. induction fu as [|fu IH]; intros d n w; [done|]. cbn [sendLoop]. destruct (Zlen d =? 0); [done|].
  cbn [itsSend DevEnv].
  change (set_out (outq (adv k w) ++ [(h, d)]) (adv k w)) with (adv k (set_out (outq w ++ [(h, d)]) w)).
  destruct (Zlen d =? 0); [|apply IH]. destruct (negb _); [done|]. destruct (150 <? n + 1); [done|apply IH].
Qed.

Lemma sendRuns_adv h l k w :
  foldl (fun w r => itsSendAll h r w) (adv k w) l = adv k (foldl (fun w r => itsSendAll h r w) w l).
Proof.
  revert w. induction l as [|r l IH]; intros w; simpl; [done|]. rewrite <- IH. unfold itsSendAll. by rewrite sendLoop_adv.
Qed.

Lemma put_adv wr d k (s : cli_st dev) : put wr d (advance adv k s) = advance adv k (put wr d s).
Proof.
  destruct wr; [|done]. cbn [put]. unfold itsCliWrite. change (cliActiveSlot (advance adv k s)) with (cliActiveSlot s).
  destruct (cliActiveSlot s <? 0); [done|]. change (slot (advance adv k s) (cliActiveSlot s)) with (slot s (cliActiveSlot s)).
  destruct (itsHandle _ <? 0); [done|]. change (world (advance adv k s)) with (adv k (world s)).
  destruct (_ && _); [by rewrite sendRuns_adv|]. unfold itsSendAll. by rewrite sendLoop_adv.
Qed.

Lemma printf_adv t k (s : cli_st dev) : cliPrintf t (advance adv k s) = advance adv k (cliPrintf t s).
Proof.
  unfold cliPrintf. change (cliOut (advance adv k s)) with (cliOut s). destruct (cliOut s) as [wr|]; [|done].
  destruct (4096 <? Zlen t + 1); (destruct (0 <? _); [|done]).
  - exact (put_adv wr _ k (with_world s (warn _ (world s)))).
  - apply put_adv.
Qed.

Lemma runLine_adv l k s : runLine record l (advance adv k s) = advance adv k (runLine record l s).
Proof.
  unfold runLine, cliProcess. rewrite !process_commands by lia.
  assert (forall cs s, foldl (exec record) (advance adv k s) cs = advance adv k (foldl (exec record) s cs)) as K.
  { intros cs. induction cs as [|c cs IH]; intros s'; simpl; [done|]. rewrite <- IH. f_equal.
    unfold exec, dispatch. change (cmds (advance adv k s')) with (cmds s').
    change (expandAlias c (advance adv k s')) with (expandAlias c s').
    destruct (bestMatch _ _ _ _ _) as [bi bl]. destruct (if 0 <=? bi then _ else _); [done|].
    destruct (_ =? 0); [done|apply printf_adv]. }
  rewrite <- K. f_equal. destruct (skip_while is_space (c_str l)) as [|c t]; [done|]. by destruct (c =? HASH).
Qed.

Definition device_with (text : bytes) : cli_st dev :=
  cliStart reg {| sys := Demo.device []; clock := 0; inq := []; outq := []; drained := false; dirs := []; names _ := [];
                  fileText := text; fpos := 0; logs := []; ran := [] |}.

Lemma dispatch_fpos c (s : cli_st dev) : unread (world (exec record s c)) = unread (world s).
Proof.
  unfold exec, dispatch. destruct (bestMatch _ _ _ _ _) as [bi bl]. destruct (if 0 <=? bi then _ else _); [done|].
  destruct (_ =? 0); [done|]. set (t := _ ++ _). clearbody t.
  assert (forall fu h d n w, unread (sendLoop fu h d n w) = unread w) as S.
  { intros fu. induction fu as [|fu IH]; intros h d n w; [done|]. cbn [sendLoop]. destruct (Zlen d =? 0); [done|].
    cbn [itsSend DevEnv]. destruct (Zlen d =? 0); [|by rewrite IH]. destruct (negb _); [done|].
    destruct (150 <? n + 1); [done|by rewrite IH]. }
  assert (forall wr d (s : cli_st dev), unread (world (put wr d s)) = unread (world s)) as P.
  { intros [] d x; [|done]. cbn [put]. unfold itsCliWrite. destruct (_ <? 0); [done|]. destruct (_ <? 0); [done|].
    destruct (_ && _); cbn [world with_world]; [|apply S]. generalize (crlfRuns None [] d) (world x). intros l.
    induction l as [|r l IH]; intros w; simpl; [done|]. rewrite IH. apply S. }
  unfold cliPrintf. destruct (cliOut s) as [wr|]; [|done].
  destruct (4096 <? Zlen t + 1); (destruct (0 <? _); [|done]); by rewrite P.
Qed.

Lemma demo_reads : reads_file record 3 unread adv.
Proof.
  split.
  - intros k w Hk. done.
  - intros k w. unfold unread, adv. cbn. by rewrite drop_drop.
  - intros a b w. unfold adv. cbn. unfold set_fpos. cbn. f_equal. lia.
  - intros w. unfold adv. rewrite Nat.add_0_r. by destruct w.
  - intros l k s. apply runLine_adv.
  - intros l s. unfold runLine, cliProcess. rewrite process_commands by lia.
    assert (forall cs s, unread (world (foldl (exec record) s cs)) = unread (world s)) as K.
    { intros cs. induction cs as [|c cs IH]; intros s'; simpl; [done|]. by rewrite IH, dispatch_fpos. }
    rewrite K. destruct (skip_while is_space (c_str l)) as [|c t]; [done|]. by destruct (c =? HASH).
Qed.

Definition script : bytes := ($ "# at boot") ++ LF ++ LF ++ ($ "log level 3") ++ CRLF ++ $ "reboot".

Lemma script_runs_lines_witness :
  (fun s => ran (world s)) <$> cliRunFile record 40 ($ "/state/boot") (device_with script) = Some [(3, $ "3"); (1, [])].
Proof.
  pose proof (script_runs_lines record 3 unread adv demo_reads 40 ($ "/state/boot") (device_with script)
    (set_fpos 0 (world (device_with script))) eq_refl) as T.
  cbn zeta in T. rewrite T.
  - vm_compute. reflexivity.
  - lia.
  - apply (bool_decide_unpack _). vm_compute. exact I.
  - vm_compute. lia.
Defined.

(** *** Sessions *)

Lemma record_inv a f x s : inv_on a s -> inv_on a (record f x s).
Proof. apply inv_quiet, quiet_world. Qed.

Lemma record_gated j f x s : gated s j -> gated (record f x s) j.
Proof. done. Qed.

Lemma passes_keep_invariant_witness : cli_inv typed.
Proof.
  exact (passes_keep_invariant record reg dev0
    [([EvDc 5 ($ "40x20")], []); (later 0 [(5, ($ "log") ++ CR ++ ($ "reboot") ++ CR ++ ($ "dr"))], [])] record_inv).
Defined.

(** A client that asks for the login and sends a wrong password and then a command. *)
Definition knock : cli_st dev :=
  foldl deliver begin [EvTcp 5 [0; 0; 0; 0; 1]; EvOther (set_in [(5, ($ "a") ++ LF ++ ($ "reboot") ++ LF)])].

Lemma knock_inv : inv_on (-1) knock.
Proof. unfold knock. apply foldl_inv; [intros; by apply inv_deliver|apply cliStart_inv]. Qed.

Lemma login_gate_witness : held record knock (CliTask.serve record knock 0) 0 /\ ran (world (CliTask.serve record knock 0)) = [].
Proof.
  assert (slot_id 0) as I0 by (split; vm_compute; [discriminate|reflexivity]).
  split; [|vm_compute; reflexivity].
  apply (login_gate record 0 knock (CliTask.serve record knock 0)).
  - apply record_inv.
  - apply record_gated.
  - exact I0.
  - apply knock_inv.
  - split; [vm_compute; discriminate|]. split; vm_compute; reflexivity.
  - by apply step_serve.
Defined.

(** ** Defects *)

(** The limit of three tries is not enforced while the closing session drains: a peer that
    does not read keeps the slot, every further password is checked, and the right one
    authenticates the session after five failures; its commands run. *)
Theorem login_tries_unbounded :
  let s1 := pass record [EvTcp 5 [0; 0; 0; 0; 1]; EvOther (set_in [(5, ($ "a") ++ LF ++ ($ "b") ++ LF ++ ($ "c") ++ LF)])] [] begin in
  let s2 := pass record (later 10000 [(5, ($ "d") ++ LF)]) [] s1 in
  let s3 := pass record (later 20000 [(5, ($ "e") ++ LF)]) [] s2 in
  let s4 := pass record (later 60000 [(5, Demo.pw ++ LF)]) [] s3 in
  let s5 := pass record (later 60000 [(5, ($ "reboot") ++ CR)]) [] s4 in
  pendingClose (slot s1 0) = true /\ pwTries (slot s1 0) = CLI_LOGIN_MAX_TRIES /\
  pwTries (slot s3 0) = 5 /\ authed (slot s4 0) = true /\ ran (world s5) = [(1, [])].
Proof. vm_compute. done. Qed.

(** A command that waits for a line while another session connects is left without an active
    slot; after a line that ends with [;] the task writes to [cliSlots[-1]]. *)
Definition ask (f : Z) (x : bytes) (s : cli_st dev) : cli_st dev :=
  if f =? 5 then
    match cliReadLine [{| expired := false; polled := [EvDc 6 []]; slept := [] |}] 32 CLI_ECHO s with
    | Some (s, _) => s
    | None => s
    end
  else s.

Theorem connect_during_prompt_writes_out_of_bounds :
  let s := pass ask [EvDc 5 []; EvOther (set_in [(5, ($ "ask;") ++ CR); (5, ($ "yes") ++ CR)])] [] begin in
  bad s = true.
Proof. vm_compute. reflexivity. Qed.

(** A script line of 127 bytes or more ends the script: the read of no bytes that follows is
    taken for the end of the file, so the line runs cut and the rest is dropped. *)
Theorem script_stops_at_long_line :
  let long := ($ "log ") ++ replicate 130 (chr "x") in
  (fun s => ran (world s)) <$> cliRunFile record 400 ($ "/state/boot") (device_with (long ++ LF ++ $ "reboot")) =
    Some [(2, replicate 123 (chr "x"))].
Proof. vm_compute. reflexivity. Qed.

(** Completing a name in the root lists the working directory: [cd /st] with Tab completes to
    a file of [/sdcard] although [/state] is the only match in the root. *)
Theorem tab_in_root_lists_cwd :
  let s := (cliSetCwd ($ "/sdcard") (with_active browser 0)).1 in
  buf (ed (editInput record 0 W_itsCliWrite (($ "cd /st") ++ [9]) s) 0) = $ "cd /stale.log".
Proof. vm_compute. reflexivity. Qed.
