(* ===== verification/LogRing.v ===== *)
(** * log: the input ring (log.cpp, logRingWrite, logRingRead)

    Any task writes log bytes under a spinlock; the log task alone reads, and takes no
    lock. [head] and [tail] are 32-bit counters that run freely, a byte lives at its
    counter modulo the ring's size. The two routines are given whole, and as the steps
    they consist of, so that a writer on one core and the reader on the other interleave
    at every load and every byte (accesses are sequentially consistent). The ring refines
    a queue of at most [LOG_RING_SIZE] bytes, the wrap of both counters included. *)

From S2P Require Import Prelude CLib.
Open Scope Z_scope.
Open Scope spangap_scope.

Definition LOG_RING_SIZE : Z := 8192.

Record ring := { logRing : bytes; logRingHead : Z; logRingTail : Z; logRingDropped : Z }.

Definition ring0 : ring :=
  {| logRing := replicate (Z.to_nat LOG_RING_SIZE) 0; logRingHead := 0; logRingTail := 0; logRingDropped := 0 |}.

(** ** The routines *)

(** [logRing[k % LOG_RING_SIZE]], read and written. *)
Definition cell (m : bytes) (k : Z) : Z := default 0 (m !! Z.to_nat (k mod LOG_RING_SIZE)).
Definition put (m : bytes) (k c : Z) : bytes := <[Z.to_nat (k mod LOG_RING_SIZE) := c]> m.

Fixpoint copyIn (m : bytes) (h i : Z) (data : bytes) : bytes :=
  match data with
  | [] => m
  | c :: data' => copyIn (put m (wrap32 (h + i)) c) h (i + 1) data'
  end.

Fixpoint copyOut (m : bytes) (t i : Z) (n : nat) : bytes :=
  match n with
  | O => []
  | S n' => cell m (wrap32 (t + i)) :: copyOut m t (i + 1) n'
  end.

(** [LOG_RING_SIZE - (h - t)], and what a write may take of it. *)
Definition ringFree (h t : Z) : Z := wrap32 (LOG_RING_SIZE - wrap32 (h - t)).
Definition accepted (data : bytes) (free : Z) : bytes := take (Z.to_nat free) data.
Definition dropCount (d : Z) (data : bytes) (free : Z) : Z :=
  if free <? Zlen data then wrap32 (d + wrap32 (Zlen data - free)) else d.

Definition logRingWrite (data : bytes) (r : ring) : Z * ring :=
  let h := logRingHead r in
  let t := logRingTail r in
  let free := ringFree h t in
  let data' := accepted data free in
  (Zlen data',
   {| logRing := copyIn (logRing r) h 0 data'; logRingHead := wrap32 (h + Zlen data'); logRingTail := t;
      logRingDropped := dropCount (logRingDropped r) data free |}).

Definition logRingRead (maxLen : Z) (r : ring) : bytes * ring :=
  let h := logRingHead r in
  let t := logRingTail r in
  let avail := wrap32 (h - t) in
  if avail =? 0 then ([], r)
  else
    let avail := if maxLen <? avail then maxLen else avail in
    (copyOut (logRing r) t 0 (Z.to_nat avail),
     {| logRing := logRing r; logRingHead := h; logRingTail := wrap32 (t + avail);
        logRingDropped := logRingDropped r |}).

(** ** The routines, access by access

    [WHead]: in the critical section, [h] loaded. [WCopy]: [t] loaded and the length
    settled, [fin] of the bytes stored. [RHead]: [h] loaded. [RCopy]: [t] loaded too,
    [got] of [avail] bytes copied. *)
Inductive wphase := WIdle | WHead (data : bytes) (h : Z) | WCopy (h : Z) (fin todo : bytes).
Inductive rphase := RIdle | RHead (maxLen h : Z) | RCopy (t avail : Z) (got : bytes).

Record sys := { r_ring : ring; r_wr : wphase; r_rd : rphase }.

(** What the outside sees: a writer settles how much it may store, its bytes are
    published, a read begins, a read returns its bytes, the log task claims the count of
    lost bytes (inside the spinlock, so no writer is). *)
Inductive label := Tau | Reserve (data : bytes) | Publish | Begin (maxLen : Z) | Return (out : bytes) | Claim (lost : Z).

Definition set_mem (r : ring) (m : bytes) : ring :=
  {| logRing := m; logRingHead := logRingHead r; logRingTail := logRingTail r; logRingDropped := logRingDropped r |}.
Definition set_head (r : ring) (h : Z) : ring :=
  {| logRing := logRing r; logRingHead := h; logRingTail := logRingTail r; logRingDropped := logRingDropped r |}.
Definition set_tail (r : ring) (t : Z) : ring :=
  {| logRing := logRing r; logRingHead := logRingHead r; logRingTail := t; logRingDropped := logRingDropped r |}.
Definition set_dropped (r : ring) (d : Z) : ring :=
  {| logRing := logRing r; logRingHead := logRingHead r; logRingTail := logRingTail r; logRingDropped := d |}.

Inductive step : sys -> label -> sys -> Prop :=
| s_enter data r rd :
    step {| r_ring := r; r_wr := WIdle; r_rd := rd |} Tau
         {| r_ring := r; r_wr := WHead data (logRingHead r); r_rd := rd |}
| s_settle data h r rd :
    let free := ringFree h (logRingTail r) in
    step {| r_ring := r; r_wr := WHead data h; r_rd := rd |} (Reserve data)
         {| r_ring := set_dropped r (dropCount (logRingDropped r) data free);
            r_wr := WCopy h [] (accepted data free); r_rd := rd |}
| s_store h fin c todo r rd :
    step {| r_ring := r; r_wr := WCopy h fin (c :: todo); r_rd := rd |} Tau
         {| r_ring := set_mem r (put (logRing r) (wrap32 (h + Zlen fin)) c);
            r_wr := WCopy h (fin ++ [c]) todo; r_rd := rd |}
| s_leave h fin r rd :
    step {| r_ring := r; r_wr := WCopy h fin []; r_rd := rd |} Publish
         {| r_ring := set_head r (wrap32 (h + Zlen fin)); r_wr := WIdle; r_rd := rd |}
| s_begin maxLen r wr :
    0 < maxLen ->
    step {| r_ring := r; r_wr := wr; r_rd := RIdle |} (Begin maxLen)
         {| r_ring := r; r_wr := wr; r_rd := RHead maxLen (logRingHead r) |}
| s_empty maxLen h r wr :
    wrap32 (h - logRingTail r) = 0 ->
    step {| r_ring := r; r_wr := wr; r_rd := RHead maxLen h |} (Return [])
         {| r_ring := r; r_wr := wr; r_rd := RIdle |}
| s_some maxLen h r wr :
    let avail := wrap32 (h - logRingTail r) in
    avail <> 0 ->
    step {| r_ring := r; r_wr := wr; r_rd := RHead maxLen h |} Tau
         {| r_ring := r; r_wr := wr;
            r_rd := RCopy (logRingTail r) (if maxLen <? avail then maxLen else avail) [] |}
| s_fetch t avail got r wr :
    Zlen got < avail ->
    step {| r_ring := r; r_wr := wr; r_rd := RCopy t avail got |} Tau
         {| r_ring := r; r_wr := wr; r_rd := RCopy t avail (got ++ [cell (logRing r) (wrap32 (t + Zlen got))]) |}
| s_return t avail got r wr :
    Zlen got = avail ->
    step {| r_ring := r; r_wr := wr; r_rd := RCopy t avail got |} (Return got)
         {| r_ring := set_tail r (wrap32 (t + avail)); r_wr := wr; r_rd := RIdle |}
| s_claim r rd :
    step {| r_ring := r; r_wr := WIdle; r_rd := rd |} (Claim (logRingDropped r))
         {| r_ring := set_dropped r 0; r_wr := WIdle; r_rd := rd |}.

Inductive run : sys -> list label -> sys -> Prop :=
| run_nil s : run s [] s
| run_cons s l s' ls s'' : step s l s' -> run s' ls s'' -> run s (l :: ls) s''.

(** ** The queue it implements

    [pending]: bytes reserved and not yet visible. [begun]: the limit of the read under way
    and how many bytes were there when it began. Bytes that find no room are counted, modulo
    2^32. *)
Record queue := { q_bytes : bytes; q_pending : option bytes; q_begun : option (Z * Z); q_dropped : Z }.

Definition queue0 : queue := {| q_bytes := []; q_pending := None; q_begun := None; q_dropped := 0 |}.

(** What fits of [data], and what of it is lost. *)
Definition room (q : bytes) : Z := LOG_RING_SIZE - Zlen q.
Definition fits (q data : bytes) : bytes := take (Z.to_nat (room q)) data.

Inductive qstep : queue -> label -> queue -> Prop :=
| q_tau q : qstep q Tau q
| q_reserve b g d data :
    qstep {| q_bytes := b; q_pending := None; q_begun := g; q_dropped := d |} (Reserve data)
          {| q_bytes := b; q_pending := Some (fits b data); q_begun := g;
             q_dropped := wrap32 (d + (Zlen data - Zlen (fits b data))) |}
| q_publish b p g d :
    qstep {| q_bytes := b; q_pending := Some p; q_begun := g; q_dropped := d |} Publish
          {| q_bytes := b ++ p; q_pending := None; q_begun := g; q_dropped := d |}
| q_begin b p d maxLen :
    qstep {| q_bytes := b; q_pending := p; q_begun := None; q_dropped := d |} (Begin maxLen)
          {| q_bytes := b; q_pending := p; q_begun := Some (maxLen, Zlen b); q_dropped := d |}
| q_return b p d maxLen n :
    let k := Z.to_nat (Z.min maxLen n) in
    qstep {| q_bytes := b; q_pending := p; q_begun := Some (maxLen, n); q_dropped := d |} (Return (take k b))
          {| q_bytes := drop k b; q_pending := p; q_begun := None; q_dropped := d |}
| q_claim b g d :
    qstep {| q_bytes := b; q_pending := None; q_begun := g; q_dropped := d |} (Claim d)
          {| q_bytes := b; q_pending := None; q_begun := g; q_dropped := 0 |}.

Inductive qrun : queue -> list label -> queue -> Prop :=
| qrun_nil q : qrun q [] q
| qrun_cons q l q' ls q'' : qstep q l q' -> qrun q' ls q'' -> qrun q (l :: ls) q''.

#[local] Arguments cell : simpl never.
#[local] Arguments put : simpl never.
#[local] Arguments wrap32 : simpl never.
#[local] Arguments Zlen : simpl never.

(** ** Cells and windows of the ring

    [window m T n]: the [n] bytes from counter [T] on, [T] not wrapped. *)
Definition window (m : bytes) (T n : Z) : bytes := map (cell m) (seqZ T n).

#[local] Arguments window : simpl never.

Lemma wrap32_range v : 0 <= wrap32 v < 2 ^ 32.
Proof. apply Z.mod_pos_bound. lia. Qed.

Lemma wrap32_small v : 0 <= v < 2 ^ 32 -> wrap32 v = v.
Proof. apply Z.mod_small. Qed.

Lemma wrap32_add_l a b : wrap32 (wrap32 a + b) = wrap32 (a + b).
Proof. unfold wrap32. apply Zplus_mod_idemp_l. Qed.

Lemma wrap32_sub a b : wrap32 (wrap32 a - wrap32 b) = wrap32 (a - b).
Proof. unfold wrap32. symmetry. apply Zminus_mod. Qed.

Lemma wrap32_mod_size k : wrap32 k mod LOG_RING_SIZE = k mod LOG_RING_SIZE.
Proof.
  unfold wrap32, LOG_RING_SIZE. change (2 ^ 32) with (8192 * 524288).
  rewrite Z.rem_mul_r by lia. rewrite Z.mul_comm, Z.mod_add by lia. by rewrite Z.mod_mod by lia.
Qed.

Lemma cell_wrap m k : cell m (wrap32 k) = cell m k.
Proof. unfold cell. by rewrite wrap32_mod_size. Qed.

Lemma put_wrap m k c : put m (wrap32 k) c = put m k c.
Proof. unfold put. by rewrite wrap32_mod_size. Qed.

Lemma put_length m k c : length (put m k c) = length m.
Proof. apply length_insert. Qed.

Lemma cell_put_same m k c : Zlen m = LOG_RING_SIZE -> cell (put m k c) k = c.
Proof.
  intros L. unfold cell, put. rewrite list_lookup_insert_eq; [done|].
  pose proof (Z.mod_pos_bound k LOG_RING_SIZE). unfold Zlen, LOG_RING_SIZE in *. lia.
Qed.

(** Two counters less than a ring apart are different cells. *)
Lemma cell_put_other m k c j : j < k < j + LOG_RING_SIZE -> cell (put m k c) j = cell m j.
Proof.
  intros B. unfold cell, put. rewrite list_lookup_insert_ne; [done|]. intros E.
  pose proof (Z.mod_pos_bound k LOG_RING_SIZE). pose proof (Z.mod_pos_bound j LOG_RING_SIZE).
  unfold LOG_RING_SIZE in *. assert (E' : k mod 8192 = j mod 8192) by lia.
  pose proof (Z.div_mod k 8192). pose proof (Z.div_mod j 8192). lia.
Qed.

Lemma window_length m T n : Zlen (window m T n) = Z.max 0 n.
Proof. unfold window, Zlen. rewrite length_map, length_seqZ. lia. Qed.

Lemma window_snoc m T n : 0 <= n -> window m T (n + 1) = window m T n ++ [cell m (T + n)].
Proof.
  intros H. unfold window. rewrite seqZ_app by lia. by rewrite map_app.
Qed.

Lemma window_app m T a b : 0 <= a -> 0 <= b -> window m T (a + b) = window m T a ++ window m (T + a) b.
Proof. intros. unfold window. rewrite seqZ_app by lia. by rewrite map_app. Qed.

Lemma window_put m T n k c : T + n <= k < T + LOG_RING_SIZE -> window (put m k c) T n = window m T n.
Proof.
  intros B. apply map_ext_in. intros j Hj. apply cell_put_other.
  apply list_elem_of_In, elem_of_seqZ in Hj. lia.
Qed.

Lemma window_take m T n k : 0 <= k <= n -> take (Z.to_nat k) (window m T n) = window m T k.
Proof.
  intros B. replace n with (k + (n - k)) by lia. rewrite window_app by lia. apply take_app_length'.
  pose proof (window_length m T k). unfold Zlen in *. lia.
Qed.

Lemma window_drop m T n k : 0 <= k <= n -> drop (Z.to_nat k) (window m T n) = window m (T + k) (n - k).
Proof.
  intros B. replace n with (k + (n - k)) at 1 by lia. rewrite window_app by lia. apply drop_app_length'.
  pose proof (window_length m T k). unfold Zlen in *. lia.
Qed.
#[export] Hint Rewrite window_length : zlen.

(** ** The simulation

    [H] and [T] are the counters without their wrap. *)
Definition sim_wr (m : bytes) (H T : Z) (wr : wphase) (p : option bytes) : Prop :=
  match wr with
  | WIdle => p = None
  | WHead _ h => p = None /\ h = wrap32 H
  | WCopy h fin todo =>
      p = Some (fin ++ todo) /\ h = wrap32 H /\ window m H (Zlen fin) = fin /\
      (H - T) + Zlen fin + Zlen todo <= LOG_RING_SIZE
  end.

Definition sim_rd (m : bytes) (H T : Z) (rd : rphase) (g : option (Z * Z)) : Prop :=
  match rd with
  | RIdle => g = None
  | RHead mx h => exists n, g = Some (mx, n) /\ h = wrap32 (T + n) /\ 0 <= n <= H - T /\ 0 < mx
  | RCopy t avail got =>
      exists mx n, g = Some (mx, n) /\ t = wrap32 T /\ avail = Z.min mx n /\ 0 < avail /\ n <= H - T /\
        Zlen got <= avail /\ got = window m T (Zlen got)
  end.

Definition sim_ring (r : ring) (H T : Z) (q : queue) : Prop :=
  Zlen (logRing r) = LOG_RING_SIZE /\ logRingHead r = wrap32 H /\ logRingTail r = wrap32 T /\
  0 <= H - T <= LOG_RING_SIZE /\ q_bytes q = window (logRing r) T (H - T) /\
  q_dropped q = logRingDropped r /\ 0 <= logRingDropped r < 2 ^ 32.

Definition sim (s : sys) (q : queue) : Prop :=
  exists H T, sim_ring (r_ring s) H T q /\
    sim_wr (logRing (r_ring s)) H T (r_wr s) (q_pending q) /\
    sim_rd (logRing (r_ring s)) H T (r_rd s) (q_begun q).

(** The free space the code computes is the room of the queue. *)
Lemma ringFree_room H T m :
  0 <= H - T <= LOG_RING_SIZE -> ringFree (wrap32 H) (wrap32 T) = room (window m T (H - T)).
Proof.
  intros B. unfold ringFree, room. rewrite wrap32_sub, window_length.
  unfold LOG_RING_SIZE in *. rewrite (wrap32_small (H - T)) by lia. rewrite wrap32_small by lia. lia.
Qed.

Lemma dropCount_fits d q data :
  0 <= d < 2 ^ 32 -> Zlen q <= LOG_RING_SIZE ->
  dropCount d data (room q) = wrap32 (d + (Zlen data - Zlen (fits q data))).
Proof.
  intros D B. unfold dropCount, fits, room, LOG_RING_SIZE in *. rewrite Zlen_take.
  pose proof (Zlen_nonneg q). pose proof (Zlen_nonneg data).
  destruct (Z.ltb_spec (8192 - Zlen q) (Zlen data)).
  - unfold wrap32. rewrite Zplus_mod_idemp_r. f_equal. lia.
  - rewrite wrap32_small by lia. lia.
Qed.

(** A byte stored past the head changes neither what is queued nor what was fetched. *)
Lemma sim_rd_put m H T k c rd g :
  H <= k < T + LOG_RING_SIZE -> sim_rd m H T rd g -> sim_rd (put m k c) H T rd g.
Proof.
  intros B. destruct rd as [| |t avail got]; [done|done|]. cbn.
  intros (mx & n & G & Ht & A & P & N & L & W). exists mx, n.
  repeat (split; [done|]). rewrite window_put by lia. exact W.
Qed.

(** [H] growing keeps the reader's facts. *)
Lemma sim_rd_head m H H' T rd g : H <= H' -> sim_rd m H T rd g -> sim_rd m H' T rd g.
Proof.
  intros B. destruct rd; cbn; [done|..].
  - intros (n & G & Hh & N & M). exists n. split_and!; [done..|lia|lia|done].
  - intros (mx & n & G & Ht & A & P & N & L & W). exists mx, n. split_and!; [done..|lia|done|done].
Qed.

Lemma sim_wr_tail m H T T' wr p : T <= T' -> sim_wr m H T wr p -> sim_wr m H T' wr p.
Proof.
  intros B. destruct wr; cbn; [done|done|]. intros (? & ? & ? & ?). split_and!; [done..|lia].
Qed.

Ltac start_sim :=
  intros (H & T & (L & Hh & Ht & B & Q & D & DR) & W & R);
  match goal with q : queue |- _ => destruct q as [qb qp qg qd] end; cbn in *.

Section Steps.
Variables (r : ring) (wr : wphase) (rd : rphase) (q : queue).
Notation at_ w d := {| r_ring := r; r_wr := w; r_rd := d |}.

Lemma sim_enter data : sim (at_ WIdle rd) q -> sim (at_ (WHead data (logRingHead r)) rd) q.
Proof. start_sim. exists H, T. by split_and!. Qed.

Lemma sim_settle data h :
  let free := ringFree h (logRingTail r) in
  sim (at_ (WHead data h) rd) q ->
  exists q', qstep q (Reserve data) q' /\
    sim {| r_ring := set_dropped r (dropCount (logRingDropped r) data free);
           r_wr := WCopy h [] (accepted data free); r_rd := rd |} q'.
Proof.
  intros free. start_sim. destruct W as [-> ->]. subst free. rewrite Ht, (ringFree_room H T (logRing r)) by done.
  rewrite <- Q. eexists. split; [apply q_reserve|]. exists H, T; unfold sim_ring; cbn.
  assert (LB : Zlen qb = H - T) by (rewrite Q, window_length; lia).
  rewrite dropCount_fits by lia. rewrite D. pose proof (wrap32_range (logRingDropped r + (Zlen data - Zlen (fits qb data)))).
  split_and!; try done; try lia. unfold accepted, room. rewrite Zlen_take, Zlen_nil. lia.
Qed.

Lemma sim_store h fin c todo :
  sim (at_ (WCopy h fin (c :: todo)) rd) q ->
  sim {| r_ring := set_mem r (put (logRing r) (wrap32 (h + Zlen fin)) c);
         r_wr := WCopy h (fin ++ [c]) todo; r_rd := rd |} q.
Proof.
  start_sim. destruct W as (-> & -> & W & F). rewrite Zlen_cons in F.
  pose proof (Zlen_nonneg fin). pose proof (Zlen_nonneg todo).
  exists H, T; unfold sim_ring; cbn. rewrite wrap32_add_l, put_wrap. split_and!; try done; try lia.
  - unfold Zlen in *. by rewrite put_length.
  - by rewrite window_put by lia.
  - by rewrite <- app_assoc.
  - rewrite Zlen_app, Zlen_cons, Zlen_nil, Z.add_0_r, window_snoc by lia.
    rewrite window_put, cell_put_same by (try done; lia). by rewrite W.
  - zlia.
  - apply sim_rd_put; [lia|done].
Qed.

Lemma sim_leave h fin :
  sim (at_ (WCopy h fin []) rd) q ->
  exists q', qstep q Publish q' /\
    sim {| r_ring := set_head r (wrap32 (h + Zlen fin)); r_wr := WIdle; r_rd := rd |} q'.
Proof.
  start_sim. destruct W as (-> & -> & W & F). eexists. split; [apply q_publish|].
  pose proof (Zlen_nonneg fin). rewrite Zlen_nil in F.
  exists (H + Zlen fin), T; unfold sim_ring; cbn. rewrite wrap32_add_l, app_nil_r. split_and!; try done; try lia.
  - replace (H + Zlen fin - T) with ((H - T) + Zlen fin) by lia. rewrite window_app by lia.
    replace (T + (H - T)) with H by lia. by rewrite Q, W.
  - eapply sim_rd_head; [|done]. lia.
Qed.

Lemma sim_begin maxLen :
  0 < maxLen -> sim (at_ wr RIdle) q ->
  exists q', qstep q (Begin maxLen) q' /\ sim (at_ wr (RHead maxLen (logRingHead r))) q'.
Proof.
  intros M. start_sim. subst qg. eexists. split; [apply q_begin|]. exists H, T; unfold sim_ring; cbn.
  split_and!; try done; try lia. exists (H - T). rewrite Q, window_length, Hh.
  split_and!; try lia; [|f_equal; lia]. f_equal. f_equal. lia.
Qed.

(** The bytes available to a read that began with [n] in the queue. *)
Lemma avail_begun H T n : 0 <= n <= H - T -> H - T <= LOG_RING_SIZE -> wrap32 (wrap32 (T + n) - wrap32 T) = n.
Proof. intros. rewrite wrap32_sub. replace (T + n - T) with n by lia. apply wrap32_small. unfold LOG_RING_SIZE in *. lia. Qed.

Lemma sim_empty maxLen h :
  wrap32 (h - logRingTail r) = 0 -> sim (at_ wr (RHead maxLen h)) q ->
  exists q', qstep q (Return []) q' /\ sim (at_ wr RIdle) q'.
Proof.
  intros E. start_sim. destruct R as (n & -> & -> & N & M). rewrite Ht, (avail_begun H) in E by lia. subst n.
  eexists. split.
  - pose proof (q_return qb qp qd maxLen 0) as X. rewrite Z.min_r in X by lia. exact X.
  - exists H, T; unfold sim_ring; cbn. by split_and!; try lia.
Qed.

Lemma sim_some maxLen h :
  let avail := wrap32 (h - logRingTail r) in
  avail <> 0 -> sim (at_ wr (RHead maxLen h)) q ->
  sim (at_ wr (RCopy (logRingTail r) (if maxLen <? avail then maxLen else avail) [])) q.
Proof.
  intros avail E. start_sim. destruct R as (n & -> & -> & N & M). subst avail. rewrite Ht, (avail_begun H) in * by lia.
  exists H, T; unfold sim_ring; cbn. split_and!; try done; try lia. exists maxLen, n.
  destruct (Z.ltb_spec maxLen n); split_and!; try done; try lia; unfold Zlen; cbn; lia.
Qed.

Lemma sim_fetch t avail got :
  Zlen got < avail -> sim (at_ wr (RCopy t avail got)) q ->
  sim (at_ wr (RCopy t avail (got ++ [cell (logRing r) (wrap32 (t + Zlen got))]))) q.
Proof.
  intros E. start_sim. destruct R as (mx & n & -> & -> & A & P & N & LE & G).
  exists H, T; unfold sim_ring; cbn. split_and!; try done; try lia. exists mx, n.
  rewrite wrap32_add_l, cell_wrap, Zlen_app. change (Zlen [_]) with 1. split_and!; try done; try lia.
  rewrite window_snoc by apply Zlen_nonneg. by rewrite <- G.
Qed.

Lemma sim_return t avail got :
  Zlen got = avail -> sim (at_ wr (RCopy t avail got)) q ->
  exists q', qstep q (Return got) q' /\
    sim {| r_ring := set_tail r (wrap32 (t + avail)); r_wr := wr; r_rd := RIdle |} q'.
Proof.
  intros E. start_sim. destruct R as (mx & n & -> & -> & A & P & N & _ & G).
  assert (G' : got = take (Z.to_nat (Z.min mx n)) qb) by (rewrite Q, window_take, <- A, <- E by lia; exact G).
  eexists. split.
  - rewrite G'. apply q_return.
  - exists H, (T + avail); unfold sim_ring; cbn. rewrite wrap32_add_l. split_and!; try done; try lia.
    + rewrite Q, <- A, window_drop by lia. f_equal. lia.
    + eapply sim_wr_tail; [|done]. lia.
Qed.

Lemma sim_claim :
  sim (at_ WIdle rd) q ->
  exists q', qstep q (Claim (logRingDropped r)) q' /\ sim {| r_ring := set_dropped r 0; r_wr := WIdle; r_rd := rd |} q'.
Proof.
  start_sim. subst qp qd. eexists. split; [apply q_claim|]. exists H, T; unfold sim_ring; cbn. split_and!; try done; lia.
Qed.

End Steps.

Lemma sim_step s l s' q : step s l s' -> sim s q -> exists q', qstep q l q' /\ sim s' q'.
Proof.
  destruct 1; intros S; eauto using sim_settle, sim_leave, sim_begin, sim_empty, sim_return, sim_claim.
  - exists q. split; [constructor|]. by apply sim_enter.
  - exists q. split; [constructor|]. by apply sim_store.
  - exists q. split; [constructor|]. by apply sim_some.
  - exists q. split; [constructor|]. by apply sim_fetch.
Qed.

Lemma sim_run s ls s' q : run s ls s' -> sim s q -> exists q', qrun q ls q' /\ sim s' q'.
Proof.
  intros R. revert q. induction R as [s0|s0 l s1 ls s2 St _ IH]; intros q0 S.
  - exists q0. split; [constructor|done].
  - destruct (sim_step _ _ _ _ St S) as (q1 & Q1 & S1). destruct (IH q1 S1) as (q2 & Q2 & S2).
    exists q2. split; [by econstructor|done].
Qed.

Lemma sim0 : sim {| r_ring := ring0; r_wr := WIdle; r_rd := RIdle |} queue0.
Proof. exists 0, 0. by vm_compute. Qed.

Lemma copyOut_window m T n : copyOut m (wrap32 T) 0 n = window m T (Z.of_nat n).
Proof.
  assert (G : forall n i, copyOut m (wrap32 T) i n = window m (T + i) (Z.of_nat n)).
  { clear n. induction n as [|n IH]; intros i; [done|]. cbn [copyOut]. rewrite IH, wrap32_add_l, cell_wrap.
    unfold window. rewrite (seqZ_cons (T + i)) by lia. cbn [map]. f_equal. f_equal. f_equal; lia. }
  rewrite G. f_equal. lia.
Qed.

(** The ring with nothing in it and its counters at [k]; the code starts at 0. *)
Definition ringAt (k : Z) : ring :=
  {| logRing := logRing ring0; logRingHead := k; logRingTail := k; logRingDropped := 0 |}.
Definition idle (r : ring) : sys := {| r_ring := r; r_wr := WIdle; r_rd := RIdle |}.

Lemma sim_at k : 0 <= k < 2 ^ 32 -> sim (idle (ringAt k)) queue0.
Proof.
  intros K. exists k, k. unfold sim_ring. cbn [idle ringAt r_ring r_wr r_rd logRing logRingHead logRingTail].
  rewrite wrap32_small, Z.sub_diag by done. split_and!; try done; lia.
Qed.

(** C18: Every run of the ring, writers and reader interleaved at each access and wherever the
    counters stand, is a run of the bounded queue with the same labels: a write takes what fits
    of its data when it settles, its bytes appear at once and in order behind those of earlier
    writes, a read returns the oldest bytes, as many as were there when it began, up to its
    limit, and every byte that found no room is in a count that is claimed. The ring then holds
    exactly the queue's bytes. *)
Theorem ring_refines_queue k ls r :
  0 <= k < 2 ^ 32 -> run (idle (ringAt k)) ls (idle r) ->
  exists q, qrun queue0 ls q /\ q_pending q = None /\ q_begun q = None /\
    Zlen (q_bytes q) = wrap32 (logRingHead r - logRingTail r) /\
    q_bytes q = copyOut (logRing r) (logRingTail r) 0 (length (q_bytes q)) /\ q_dropped q = logRingDropped r.
Proof.
  intros K R. destruct (sim_run _ _ _ _ R (sim_at k K)) as (q & Q & S). exists q. split; [done|].
  destruct S as (H & T & (L & Hh & Ht & B & QB & D & DR) & W & G). cbn in L, Hh, Ht, QB, D, W, G.
  split_and!; try done.
  - rewrite Hh, Ht, wrap32_sub, QB, window_length. unfold LOG_RING_SIZE in *. rewrite wrap32_small by lia. lia.
  - rewrite Ht, copyOut_window. change (Z.of_nat (length (q_bytes q))) with (Zlen (q_bytes q)).
    rewrite QB at 2. rewrite window_length, Z.max_r by lia. exact QB.
Qed.

(** ** The routines as wholes

    Each routine is a run of the steps, so what holds of every interleaving holds of it. *)

Lemma run_app s ls s' ls' s'' : run s ls s' -> run s' ls' s'' -> run s (ls ++ ls') s''.
Proof. induction 1; [done|]. intros. econstructor; eauto. Qed.

Lemma copyIn_run r rd h fin todo :
  run {| r_ring := r; r_wr := WCopy h fin todo; r_rd := rd |} (replicate (length todo) Tau)
      {| r_ring := set_mem r (copyIn (logRing r) h (Zlen fin) todo); r_wr := WCopy h (fin ++ todo) []; r_rd := rd |}.
Proof.
  revert r fin. induction todo as [|c todo IH]; intros r fin; cbn [length replicate copyIn].
  - rewrite app_nil_r. destruct r. constructor.
  - econstructor; [apply s_store|]. specialize (IH (set_mem r (put (logRing r) (wrap32 (h + Zlen fin)) c)) (fin ++ [c])).
    rewrite <- app_assoc, Zlen_app in IH. exact IH.
Qed.

Lemma logRingWrite_run data r rd :
  exists n, run {| r_ring := r; r_wr := WIdle; r_rd := rd |} ([Tau; Reserve data] ++ replicate n Tau ++ [Publish])
                 {| r_ring := (logRingWrite data r).2; r_wr := WIdle; r_rd := rd |}.
Proof.
  eexists. eapply run_app; [econstructor; [apply (s_enter data)|]; econstructor; [apply s_settle|]; constructor|].
  eapply run_app; [apply copyIn_run|]. econstructor; [apply s_leave|]. constructor.
Qed.

Lemma copyOut_run r wr t n got avail :
  Zlen got + Z.of_nat n = avail ->
  run {| r_ring := r; r_wr := wr; r_rd := RCopy t avail got |} (replicate n Tau)
      {| r_ring := r; r_wr := wr; r_rd := RCopy t avail (got ++ copyOut (logRing r) t (Zlen got) n) |}.
Proof.
  revert got. induction n as [|n IH]; intros got E; cbn [replicate copyOut].
  - rewrite app_nil_r. constructor.
  - econstructor; [apply s_fetch; lia|].
    specialize (IH (got ++ [cell (logRing r) (wrap32 (t + Zlen got))])). rewrite <- app_assoc, Zlen_app in IH.
    apply IH. change (Zlen [_]) with 1. lia.
Qed.

Lemma copyOut_length m t i n : Zlen (copyOut m t i n) = Z.of_nat n.
Proof. revert i. induction n as [|n IH]; intros i; cbn [copyOut]; [done|]. rewrite Zlen_cons, IH. lia. Qed.

Lemma logRingRead_run maxLen r wr :
  0 < maxLen ->
  exists n, run {| r_ring := r; r_wr := wr; r_rd := RIdle |} (Begin maxLen :: replicate n Tau ++ [Return (logRingRead maxLen r).1])
                 {| r_ring := (logRingRead maxLen r).2; r_wr := wr; r_rd := RIdle |}.
Proof.
  intros M. unfold logRingRead. destruct (Z.eqb_spec (wrap32 (logRingHead r - logRingTail r)) 0) as [E|E]; cbn [fst snd].
  - exists 0%nat. econstructor; [by apply s_begin|]. econstructor; [by apply s_empty|]. constructor.
  - set (avail := if maxLen <? _ then maxLen else _).
    assert (0 <= avail) by (subst avail; case_match; [lia|apply wrap32_range]).
    exists (S (Z.to_nat avail)). econstructor; [by apply s_begin|].
    econstructor; [by apply s_some|]. fold avail. eapply run_app.
    + apply (copyOut_run r wr (logRingTail r) (Z.to_nat avail) [] avail). change (Zlen []) with 0. lia.
    + econstructor; [|constructor]. apply s_return. cbn [app]. rewrite copyOut_length. lia.
Qed.

(** A ring that holds the bytes [b] and has lost [d]. *)
Definition holds (r : ring) (b : bytes) (d : Z) : Prop :=
  sim {| r_ring := r; r_wr := WIdle; r_rd := RIdle |}
      {| q_bytes := b; q_pending := None; q_begun := None; q_dropped := d |}.

Lemma ring0_holds : holds ring0 [] 0.
Proof. exact sim0. Qed.

Lemma qrun_taus q n ls q' : qrun q (replicate n Tau ++ ls) q' -> qrun q ls q'.
Proof.
  induction n as [|n IH]; [done|]. cbn [replicate app]. intros R.
  inversion R as [|? ? q1 ? ? S R']; subst. inversion S; subst. auto.
Qed.

Lemma qrun_one q l q' : qrun q [l] q' -> qstep q l q'.
Proof. inversion 1 as [|? ? q1 ? ? S R]; subst. by inversion R; subst. Qed.

Lemma fits_writes data r b d :
  holds r b d -> (logRingWrite data r).1 = Zlen (fits b data).
Proof.
  intros (H & T & (_ & Hh & Ht & B & Q & _) & _). unfold logRingWrite. cbn [fst r_ring q_bytes] in *.
  unfold accepted. rewrite Hh, Ht, (ringFree_room H T (logRing r)) by done. by rewrite <- Q.
Qed.

(** A write appends what fits and counts the rest. *)
Lemma logRingWrite_holds data r b d :
  holds r b d ->
  holds (logRingWrite data r).2 (b ++ fits b data) (wrap32 (d + (Zlen data - Zlen (fits b data)))).
Proof.
  intros S. destruct (logRingWrite_run data r RIdle) as (n & R). destruct (sim_run _ _ _ _ R S) as (q & Q & S').
  inversion Q as [|? ? q1 ? ? A Q1]; subst. inversion A; subst. cbn [app] in Q1.
  inversion Q1 as [|? ? q2 ? ? A2 Q2]; subst. inversion A2; subst.
  apply qrun_taus, qrun_one in Q2. by inversion Q2; subst.
Qed.

(** A read returns the oldest bytes, up to its limit. *)
Lemma logRingRead_holds maxLen r b d :
  0 < maxLen -> holds r b d ->
  (logRingRead maxLen r).1 = take (Z.to_nat maxLen) b /\ holds (logRingRead maxLen r).2 (drop (Z.to_nat maxLen) b) d.
Proof.
  intros M S. destruct (logRingRead_run maxLen r WIdle M) as (n & R). destruct (sim_run _ _ _ _ R S) as (q & Q & S').
  inversion Q as [|? ? q1 ? ? A Q1]; subst. inversion A; subst. apply qrun_taus, qrun_one in Q1.
  inversion Q1 as [| | | |? ? ? ? ? k E|]; subst. subst k.
  assert (X : take (Z.to_nat (Z.min maxLen (Zlen b))) b = take (Z.to_nat maxLen) b /\
              drop (Z.to_nat (Z.min maxLen (Zlen b))) b = drop (Z.to_nat maxLen) b).
  { destruct (Z.min_spec maxLen (Zlen b)) as [[C ->]|[C ->]]; [done|]. unfold Zlen in *.
    rewrite Nat2Z.id, !take_ge, !drop_ge by lia. done. }
  destruct X as [X1 X2]. split; [congruence|]. by rewrite <- X2.
Qed.

Lemma holds_bound r b d : holds r b d -> Zlen b <= LOG_RING_SIZE /\ 0 <= d < 2 ^ 32 /\ logRingDropped r = d.
Proof.
  intros (H & T & (_ & _ & _ & B & Q & D & DR) & _). cbn [r_ring q_bytes q_dropped] in *. subst.
  rewrite window_length. lia.
Qed.

Lemma holds_claim r b d : holds r b d -> holds (set_dropped r 0) b 0.
Proof.
  intros (H & T & (L & Hh & Ht & B & Q & D & DR) & W & R). exists H, T. unfold sim_ring in *. cbn in *.
  split_and!; try done; lia.
Qed.

Lemma holds_used r b d : holds r b d -> wrap32 (logRingHead r - logRingTail r) = Zlen b.
Proof.
  intros (H & T & (_ & Hh & Ht & B & Q & _) & _). cbn [r_ring q_bytes] in *.
  rewrite Hh, Ht, wrap32_sub, Q, window_length. unfold LOG_RING_SIZE in *. rewrite wrap32_small by lia. lia.
Qed.

(** A write and a read that overlap while both counters wrap: the read begins before the
    write is published and finds the queue empty; the next one gets the bytes. *)
Lemma ring_refines_queue_witness :
  exists ls r q, run (idle (ringAt (2 ^ 32 - 1))) ls (idle r) /\ qrun queue0 ls q /\
    ls = [Tau; Begin 511; Reserve ($ "ab"); Tau; Tau; Publish; Return []; Begin 1; Tau; Tau; Return ($ "a")] /\
    logRingHead r = 1 /\ logRingTail r = 0 /\ q_bytes q = $ "b".
Proof.
  assert (R : exists r, run (idle (ringAt (2 ^ 32 - 1)))
    [Tau; Begin 511; Reserve ($ "ab"); Tau; Tau; Publish; Return []; Begin 1; Tau; Tau; Return ($ "a")] (idle r) /\
    logRingHead r = 1 /\ logRingTail r = 0 /\ copyOut (logRing r) (logRingTail r) 0 1 = $ "b").
  { eexists. split; [|split; [|split]].
    - econstructor; [apply (s_enter ($ "ab"))|]. econstructor; [by apply s_begin|].
      econstructor; [apply s_settle|]. econstructor; [apply s_store|]. econstructor; [apply s_store|].
      econstructor; [apply s_leave|]. econstructor; [by apply s_empty|]. econstructor; [by apply s_begin|].
      econstructor; [apply s_some; by vm_compute|]. econstructor; [by apply s_fetch|].
      econstructor; [apply (s_return _ 1 [97])|]; [by vm_compute|]. constructor.
    - by vm_compute.
    - by vm_compute.
    - by vm_compute. }
  destruct R as (r & R & Hh & Ht & Hc).
  destruct (ring_refines_queue (2 ^ 32 - 1) _ r ltac:(lia) R) as (q & Q & _ & _ & L & B & _).
  eexists _, r, q. split; [exact R|]. split; [exact Q|]. split; [done|]. split; [done|]. split; [done|].
  assert (N : length (q_bytes q) = 1%nat) by (rewrite Hh, Ht in L; unfold Zlen in L; change (wrap32 (1 - 0)) with 1 in L; lia).
  rewrite B, N. exact Hc.
Defined.
