(* ===== verification/LogText.v ===== *)
(** * log: levels, colours and the rewriting of a line (log.cpp, compat.h)

    The functions on text: the level of a line, the colour escapes and their removal, the
    prefix rules, and [logReformat], which turns an ESP-IDF line into the one every sink
    shows. [snprintf] returns the length of the whole text, so a function that ends in one
    gives that whole text here and its caller cuts it to the buffer. *)

From S2P Require Import Prelude CLib Cron.
Import NextRun.
Open Scope Z_scope.
Open Scope spangap_scope.

Definition ESC : Z := 27.

(** ** Levels *)

Definition ESP_LOG_NONE : Z := 0.
Definition ESP_LOG_ERROR : Z := 1.
Definition ESP_LOG_WARN : Z := 2.
Definition ESP_LOG_INFO : Z := 3.
Definition ESP_LOG_DEBUG : Z := 4.
Definition ESP_LOG_VERBOSE : Z := 5.

Definition levelCharToNum (c : Z) : Z :=
  if c =? chr "E" then 0 else if c =? chr "W" then 1 else if c =? chr "I" then 2
  else if c =? chr "D" then 3 else if c =? chr "V" then 4 else 2.

Definition upper (c : Z) : Z := if (97 <=? c) && (c <=? 122) then c - 32 else c.
Definition lower (c : Z) : Z := if (65 <=? c) && (c <=? 90) then c + 32 else c.
Definition first (s : bytes) : Z := match s with c :: _ => c | [] => 0 end.

Definition parseLevelNum (s : bytes) : Z :=
  let c := upper (first s) in
  if (c =? chr "E") || (c =? chr "N") then 0 else if c =? chr "W" then 1 else if c =? chr "I" then 2
  else if c =? chr "D" then 3 else if c =? chr "V" then 4 else 4.

Definition strcaseeq (a b : bytes) : bool := streq (map lower a) (map lower b).

Definition levelNames : list bytes :=
  [$ "none"; $ "error"; $ "warn"; $ "info"; $ "debug"; $ "verbose"].

Definition isLevelArg (s : bytes) : bool :=
  match s with
  | [] => false
  | [c] => bool_decide (c ∈ $ "newidvNEWIDV") || existsb (strcaseeq s) levelNames
  | _ => existsb (strcaseeq s) levelNames
  end.

(** The character is one of E, W, I, D, V. *)
Definition isLevel (c : Z) : bool :=
  (c =? chr "E") || (c =? chr "W") || (c =? chr "I") || (c =? chr "D") || (c =? chr "V").

(** [i == 0 || line[i - 1] == ' ']. *)
Definition leftOk (prev : option Z) : bool := match prev with None => true | Some c => c =? 32 end.

Fixpoint lineLevelLoop (prev : option Z) (line : bytes) : Z :=
  match line with
  | c :: ((d :: _) as line') =>
      if c =? 10 then chr "I"
      else if isLevel c && leftOk prev && (d =? 32) then c else lineLevelLoop (Some c) line'
  | _ => chr "I"
  end.

Definition lineLevel (line : bytes) : Z := lineLevelLoop None line.

Fixpoint findLevelLoop (prev : option Z) (line : bytes) (i : nat) : option nat :=
  match line with
  | c :: ((d :: _) as line') =>
      if isLevel c && leftOk prev && (d =? 32) then Some i else findLevelLoop (Some c) line' (S i)
  | _ => None
  end.

(** [None] is (size_t)-1. *)
Definition findLevelCharPos (line : bytes) : option nat := findLevelLoop None line 0.

Definition levelOfChar (c : Z) : Z :=
  if c =? chr "E" then ESP_LOG_ERROR else if c =? chr "W" then ESP_LOG_WARN
  else if c =? chr "I" then ESP_LOG_INFO else if c =? chr "D" then ESP_LOG_DEBUG
  else if c =? chr "V" then ESP_LOG_VERBOSE else ESP_LOG_NONE.

Definition parseEspLevel (val : bytes) : Z :=
  let c := lower (first val) in
  if c =? chr "n" then ESP_LOG_NONE else if c =? chr "e" then ESP_LOG_ERROR
  else if c =? chr "w" then ESP_LOG_WARN else if c =? chr "i" then ESP_LOG_INFO
  else if c =? chr "d" then ESP_LOG_DEBUG else if c =? chr "v" then ESP_LOG_VERBOSE else ESP_LOG_INFO.

(** ** Colours *)

(** [logColors], E W I D V and the timestamp's; each has 16 bytes. *)
Definition colorAt (colors : list bytes) (i : nat) : bytes := nth i colors [].

Definition logColor (colors : list bytes) (level : Z) : bytes :=
  if level =? chr "E" then colorAt colors 0 else if level =? chr "W" then colorAt colors 1
  else if level =? chr "I" then colorAt colors 2 else if level =? chr "D" then colorAt colors 3
  else if level =? chr "V" then colorAt colors 4 else colorAt colors 2.

(** "\033[%sm" and "\033[0m". *)
Definition sgr (color : bytes) : bytes := [ESC; chr "["] ++ color ++ [chr "m"].
Definition sgr0 : bytes := sgr ($ "0").

Fixpoint containsAnsi (buf : bytes) : bool :=
  match buf with
  | c :: ((d :: _) as buf') => ((c =? ESC) && (d =? chr "[")) || containsAnsi buf'
  | _ => false
  end.

(** The loop of [stripAnsi], in an escape or not. *)
Fixpoint stripLoop (esc : bool) (buf : bytes) : bytes :=
  match buf with
  | [] => []
  | c :: buf' =>
      if esc then stripLoop (negb (c =? chr "m")) buf'
      else match buf' with
           | d :: buf'' => if (c =? ESC) && (d =? chr "[") then stripLoop true buf'' else c :: stripLoop false buf'
           | [] => [c]
           end
  end.

Definition stripAnsi (buf : bytes) : bytes := stripLoop false buf.

Definition is_nl (c : Z) : bool := (c =? 10) || (c =? 13).
Definition trimNl (s : bytes) : bytes := rev (skip_while is_nl (rev s)).
Definition is_sp (c : Z) : bool := c =? 32.
Definition trimSp (s : bytes) : bytes := rev (skip_while is_sp (rev s)).

(** "%.*s" stops at a NUL. *)
Definition colorizePreformatted (colors : list bytes) (inp : bytes) : bytes :=
  let inp := trimNl inp in
  match findLevelCharPos inp with
  | None => c_str inp ++ [10]
  | Some lp =>
      let level := default 0 (inp !! lp) in
      let prefix := trimSp (take lp inp) in
      if Zlen prefix =? 0 then sgr (logColor colors level) ++ c_str (drop lp inp) ++ sgr0 ++ [10]
      else sgr (colorAt colors 5) ++ c_str prefix ++ sgr0 ++ [32] ++
           sgr (logColor colors level) ++ c_str (drop lp inp) ++ sgr0 ++ [10]
  end.

(** ** Rules *)

Record LogRule := { prefix : bytes; tagLen : Z; level : Z }.
Definition LOG_RULES_MAX : Z := 12.

(** The remainder of a "tag: body" rule, one space after the colon skipped. *)
Definition ruleBody (r : LogRule) : bytes :=
  match drop (Z.to_nat (tagLen r) + 1) (prefix r) with
  | c :: rem => if c =? 32 then rem else c :: rem
  | [] => []
  end.

Definition ruleMatches (r : LogRule) (msg : bytes) (tag : option bytes) : bool :=
  if tagLen r =? 0 then has_prefix (prefix r) msg
  else match tag with
       | Some t => streq t (take (Z.to_nat (tagLen r)) (prefix r)) && has_prefix (ruleBody r) msg
       | None => false
       end.

(** [None] drops the line. *)
Fixpoint logRuleApply (rules : list LogRule) (esp_log_level_get : option bytes -> Z)
    (msg : bytes) (tag : option bytes) (cur : Z) : option Z :=
  match rules with
  | [] => Some cur
  | r :: rules' =>
      if ruleMatches r msg tag then
        if level r =? chr "N" then None
        else if esp_log_level_get tag <? levelOfChar (level r) then None
        else Some (level r)
      else logRuleApply rules' esp_log_level_get msg tag cur
  end.

(** ** The wall clock (compat.h) *)

Definition monthNames : list bytes :=
  [$ "Jan"; $ "Feb"; $ "Mar"; $ "Apr"; $ "May"; $ "Jun"; $ "Jul"; $ "Aug"; $ "Sep"; $ "Oct"; $ "Nov"; $ "Dec"].

(** "%0nd" of a value that is not negative. *)
Definition zpad (n : nat) (v : Z) : bytes := let d := udec v in replicate (n - length d) 48 ++ d.

(** "%b %d %H:%M:%S" and the milliseconds. [strftime] reads the fields as [localtime_r]
    leaves them, in range. *)
Definition fmtWallClock `{Calendar} (len : nat) (sec usec : Z) : bytes :=
  let t := localtime sec in
  trunc len (nth (Z.to_nat (tm_mon t)) monthNames [] ++ [32] ++ zpad 2 (tm_mday t) ++ [32] ++
    zpad 2 (tm_hour t) ++ [chr ":"] ++ zpad 2 (tm_min t) ++ [chr ":"] ++ zpad 2 (tm_sec t) ++
    [chr "."] ++ zpad 3 (usec / 1000)).

(** ** logReformat *)

(** What it reads of the module's state and of the system: the rules, the threshold of a
    tag, the colours, the calling task's name, whether timestamps are on, the wall clock. *)
Record fmt_env := {
  f_rules : list LogRule; f_get : option bytes -> Z; f_colors : list bytes; f_task : bytes;
  f_showTs : bool; f_clock : bytes }.

Definition isParam (c : Z) : bool := isdigit c || (c =? chr ";").

(** The escapes at the start of the line. *)
Fixpoint skipAnsi (fuel : nat) (p : bytes) : bytes :=
  match fuel, p with
  | S f, a :: b :: p' =>
      if (a =? ESC) && (b =? chr "[") then
        match skip_while isParam p' with
        | c :: p'' => skipAnsi f (if c =? chr "m" then p'' else c :: p'')
        | [] => []
        end
      else p
  | _, _ => p
  end.

(** [msgStart[i]], in the line it is part of: [off + i] is computed in 32 bits. The byte at
    the line's length is its NUL. *)
Definition at_ (src : bytes) (off i : Z) : Z := default 0 (src !! Z.to_nat (wrap32 (off + i))).

(** The scan back for the ESC. *)
Fixpoint escScan (fuel : nat) (src : bytes) (off i : Z) : Z :=
  match fuel with
  | O => i
  | S f =>
      if (0 <? i) && (isParam (at_ src off i) || (at_ src off i =? chr "[")) then escScan f src off (i - 1) else i
  end.

(** The loop that takes escapes off the end; [i] is a [size_t]. *)
Fixpoint trailAnsi (fuel : nat) (src : bytes) (off msgLen : Z) : Z :=
  match fuel with
  | O => msgLen
  | S f =>
      if msgLen <=? 0 then msgLen
      else if at_ src off (msgLen - 1) =? chr "m" then
        let i := escScan (length src) src off (wrap32 (msgLen - 2)) in
        if at_ src off i =? ESC then trailAnsi f src off i else msgLen
      else msgLen
  end.

Definition is_white (c : Z) : bool := (c =? 32) || (c =? 9).

(** The message of a continuation line: its newlines and one "\033[0m" taken off. *)
Definition contMsg (p : bytes) : bytes :=
  let m := trimNl p in
  let n := length m in
  if (4 <? n)%nat && (default 0 (m !! (n - 1)%nat) =? chr "m") && (default 0 (m !! (n - 4)%nat) =? ESC)
  then take (n - 4) m else m.

(** "task: task: text" *)
Fixpoint stripTask (fuel : nat) (task m : bytes) : bytes :=
  match fuel with
  | O => m
  | S f =>
      if (Zlen task + 1 <? Zlen m) && has_prefix (task ++ [chr ":"]) m
      then stripTask f task (skip_while is_white (drop (length task + 1) m))
      else m
  end.

Definition fmtColor (e : fmt_env) (ansi : bool) (lvl : Z) : bytes * bytes :=
  if ansi then (trunc 24 (sgr (logColor (f_colors e) lvl)), sgr0) else ([], []).

Definition fmtStamp (e : fmt_env) (ansi : bool) : bytes :=
  if f_showTs e then
    if ansi then trunc 48 (sgr (colorAt (f_colors e) 5) ++ f_clock e ++ sgr0 ++ [32])
    else trunc 48 (f_clock e ++ [32])
  else [].

(** "%s%s%c [%s] %.*s%s\n", with or without the tag. *)
Definition fmtLine (e : fmt_env) (ansi : bool) (lvl : Z) (tag msg : bytes) : bytes :=
  let '(color, reset) := fmtColor e ansi lvl in
  fmtStamp e ansi ++ color ++ [lvl] ++ ($ " [") ++ f_task e ++ ($ "] ") ++
  (if Zlen tag =? 0 then [] else tag ++ $ ": ") ++ msg ++ reset ++ [10].

(** A continuation line keeps the level of the line before. *)
Definition logContinue (e : fmt_env) (p : bytes) (ansi : bool) (lastLevel : Z) : bytes * Z :=
  let m := contMsg p in
  let ck := skip_while is_white m in
  if Zlen ck =? 0 then ([], lastLevel)
  else match logRuleApply (f_rules e) (f_get e) ck None lastLevel with
       | None => ([], lastLevel)
       | Some lvl => (fmtLine e ansi lvl [] m, lvl)
       end.

(** "(12345) " skipped. *)
Definition skipStamp (p : bytes) : bytes :=
  let a := skip_while is_sp (drop 1 p) in
  if first a =? chr "(" then
    skip_while is_sp (match strchr a (chr ")") with Some (_, post) => post | None => drop 1 p end)
  else a.

(** The tag, and where the message starts. *)
Definition splitTag (a : bytes) : bytes * bytes :=
  match strchr a (chr ":") with
  | Some (tag, post) =>
      if (Zlen tag <? 32) && (0 <? Zlen tag)
      then (tag, match post with c :: post' => if c =? 32 then post' else post | [] => [] end)
      else ([], a)
  | None => ([], a)
  end.

Definition TASK_UNKNOWN : bytes := $ "?".

(** The text and [lastLevel] after it; no text is a return of 0. *)
Definition logReformat (e : fmt_env) (src : bytes) (ansi : bool) (lastLevel : Z) : bytes * Z :=
  let p := skipAnsi (length src) src in
  let lvl := first p in
  let validLevel := isLevel lvl && (first (skip_while is_sp (drop 1 p)) =? chr "(") in
  if negb validLevel then logContinue e p ansi lastLevel
  else
    let '(tag, msgStart) := splitTag (skipStamp p) in
    let off := Zlen src - Zlen msgStart in
    let n := trailAnsi (length src) src off (Zlen (trimNl msgStart)) in
    let m := take (Z.to_nat n) msgStart in
    if forallb is_white m then ([], lvl)
    else
      let same := negb (Zlen tag =? 0) && streq tag (f_task e) in
      let m := if same && negb (streq (f_task e) TASK_UNKNOWN) then stripTask (length m) (f_task e) m else m in
      if same && negb (streq (f_task e) TASK_UNKNOWN) && (Zlen m =? 0) then ([], lvl)
      else match logRuleApply (f_rules e) (f_get e) m (if Zlen tag =? 0 then None else Some tag) lvl with
           | None => ([], lvl)
           | Some lvl' => (fmtLine e ansi lvl' (if same then [] else tag) m, lvl')
           end.

(** The controls that carry terminal state become dots. *)
Definition scrubByte (c : Z) : Z :=
  if (c =? 9) || (c =? 10) || (c =? 13) || (c =? ESC) then c
  else if (c <? 32) || (c =? 127) then chr "." else c.

(** ** Names of dated log files *)

Definition isLogDateFile (name : bytes) : bool :=
  if Zlen name =? 12 then forallb isdigit (take 8 name) && streq (drop 8 name) ($ ".log") else false.

(** Asked of names that [isLogDateFile] accepts, so the three conversions read digits. *)
Definition logDateToTime `{Calendar} (name : bytes) : Z :=
  let t := {| tm_sec := 0; tm_min := 0; tm_hour := 0; tm_mday := dval (take 2 (drop 6 name));
              tm_mon := dval (take 2 (drop 4 name)) - 1; tm_year := dval (take 4 name) - 1900;
              tm_wday := 0; tm_isdst := 0 |} in
  match mktime t with Some (s, _) => s | None => -1 end.

Definition logDateName `{Calendar} (now : Z) : bytes :=
  let t := localtime now in
  zpad 4 (tm_year t + 1900) ++ zpad 2 (tm_mon t + 1) ++ zpad 2 (tm_mday t) ++ $ ".log".
