(* ===== verification/Log.v ===== *)
(** * log: the state, the vprintf hook and the log file (log.cpp)

    The module's variables are [log_st]; what it calls in other modules (its, storage, fs,
    pm, the console) and in ESP-IDF is the interface [LogEnv] on a state [W]. A byte read
    or written outside its object sets [bad]. [logVprintf] runs on whichever task logs; the
    rest of this file on the log task. *)

From stdpp Require Import gmap.
From S2P Require Import Prelude CLib Cron Config LogRing LogText.
Import NextRun.
Open Scope Z_scope.
Open Scope spangap_scope.

Class LogEnv (W : Type) := {
  log_calendar :: Calendar;
  itsSend : Z -> bytes -> W -> Z * W;                 (* how much was taken *)
  itsRecv : Z -> Z -> W -> bytes * W;                 (* does not wait *)
  itsConnected : Z -> W -> bool;
  itsServerActive : W -> Z;
  itsDisconnect : Z -> W -> W;
  storageExists : bytes -> W -> bool;
  storageGetStr : bytes -> nat -> bytes -> W -> bytes;
  storageGetInt : bytes -> Z -> W -> Z;
  storageSet : bytes -> bytes -> W -> W;
  storageForEach : bytes -> W -> list (bytes * bytes);
  storageDefault : bytes -> bytes -> W -> W;
  storageDefaultTree : bytes -> json -> W -> W;
  fs_open_stream : bytes -> W -> Z * W;               (* "a", 16384, 4096 *)
  fs_stream_sync : Z -> W -> W;
  fs_open : bytes -> W -> Z * W;                      (* "r" *)
  fs_seek_end : Z -> W -> W;
  fs_seek_set : Z -> Z -> W -> W;
  fs_tell : Z -> W -> Z;
  fs_read : Z -> Z -> W -> bytes * W;
  fs_close : Z -> W -> W;
  fs_mkdirp : bytes -> W -> W;
  fs_listdir : bytes -> Z -> W -> list bytes;
  fs_remove : bytes -> W -> Z * W;
  sdAvailable : W -> bool;
  esp_timer_get_time : W -> Z;
  gettimeofday : W -> Z * Z;
  esp_log_level_get : option bytes -> W -> Z;
  esp_log_level_set : bytes -> Z -> W -> W;
  esp_log_text : Z -> bytes -> bytes -> W -> bytes;   (* the line ESP_LOGx renders: level letter, tag, text *)
  esp_vprintf : bytes -> W -> W;                      (* where lines go with no hook *)
  heap_alloc : Z -> W -> bool;                        (* whether that much can be had *)
  consoleEmitRaw : bytes -> W -> W;
  consoleWriteLock : W -> W;
  consoleWriteUnlock : W -> W;
  consoleOnCdc : W -> bool;
  consoleWriteDead : W -> bool;
  serialInCli : W -> bool;
  serialInHandler : W -> bool;
  pmUsbAttached : W -> bool;
  pmPollUsb : W -> W;
  xTaskNotifyGive : W -> W;                           (* to the log task *)
  cliPrintf : bytes -> W -> W
}.

(** ** The state *)

(** The log file: the stream's handle or -1, and what goes with it; [warned] is the static
    of [logFileOpen]. *)
Record file_st := {
  logFile : Z; logFilePath : bytes; lastFlushUs : Z; logFileLevelMax : Z; logFileIntervalMs : Z;
  logFileDirty : bool; warned : bool }.

(** A consumer: [lineBuf] up to [lineLen]. *)
Record log_slot := {
  itsHandle : Z; ansi : Z; lineBuf : bytes; truncated : bool; pastePending : bool; pasteBacklog : Z }.

Definition LOG_ANSI : Z := 0.
Definition LOG_NO_ANSI : Z := 1.
Definition LOG_MAX_CONSUMERS : nat := 5.
Definition LOG_INBOUND_BUF : Z := 512.

(** What [logVprintf] looks at before it works, and the static [sinkWas]. *)
Record gate_st := { logSuppressed : Z; logDrainWanted : bool; logSinkLive : bool; sinkWas : bool }.

Record TagDefault := { tag : bytes; td_level : Z }.

Record log_st (W : Type) := {
  logInited : bool; hooked : bool; logTaskHandle : bool; logIn : ring; gate : gate_st; file : file_st;
  logColors : list bytes; logRules : list LogRule; lastLevel : Z; logSlots : list log_slot;
  s_tagDefaults : list TagDefault; currentLogLevel : Z; bad : bool; world : W }.
Arguments logInited {W}. Arguments hooked {W}. Arguments logTaskHandle {W}. Arguments logIn {W}.
Arguments gate {W}. Arguments file {W}. Arguments logColors {W}. Arguments logRules {W}.
Arguments lastLevel {W}. Arguments logSlots {W}. Arguments s_tagDefaults {W}.
Arguments currentLogLevel {W}. Arguments bad {W}. Arguments world {W}.

Definition slot0 : log_slot :=
  {| itsHandle := 0; ansi := 0; lineBuf := []; truncated := false; pastePending := false; pasteBacklog := 0 |}.

Definition LOG_DEBUG : Z := 3.
Definition LOG_INFO : Z := 2.
Definition LOG_ERROR : Z := 0.

(** The variables as they are initialised. *)
Definition log0 {W} (w : W) : log_st W := {|
  logInited := false; hooked := false; logTaskHandle := false; logIn := ring0;
  gate := {| logSuppressed := 0; logDrainWanted := true; logSinkLive := true; sinkWas := true |};
  file := {| logFile := -1; logFilePath := []; lastFlushUs := 0; logFileLevelMax := 4; logFileIntervalMs := 5000;
             logFileDirty := false; warned := false |};
  logColors := replicate 6 []; logRules := []; lastLevel := chr "I"; logSlots := replicate LOG_MAX_CONSUMERS slot0;
  s_tagDefaults := []; currentLogLevel := LOG_DEBUG; bad := false; world := w |}.

(** *** Assignments *)

Section State.
Context {W : Type}.
Abbreviation st := (log_st W).

Definition with_init (s : st) (i h t : bool) : st :=
  {| logInited := i; hooked := h; logTaskHandle := t; logIn := logIn s; gate := gate s; file := file s;
     logColors := logColors s; logRules := logRules s; lastLevel := lastLevel s; logSlots := logSlots s;
     s_tagDefaults := s_tagDefaults s; currentLogLevel := currentLogLevel s; bad := bad s; world := world s |}.
Definition with_ring (s : st) (r : ring) : st :=
  {| logInited := logInited s; hooked := hooked s; logTaskHandle := logTaskHandle s; logIn := r; gate := gate s;
     file := file s; logColors := logColors s; logRules := logRules s; lastLevel := lastLevel s; logSlots := logSlots s;
     s_tagDefaults := s_tagDefaults s; currentLogLevel := currentLogLevel s; bad := bad s; world := world s |}.
Definition with_gate (s : st) (g : gate_st) : st :=
  {| logInited := logInited s; hooked := hooked s; logTaskHandle := logTaskHandle s; logIn := logIn s; gate := g;
     file := file s; logColors := logColors s; logRules := logRules s; lastLevel := lastLevel s; logSlots := logSlots s;
     s_tagDefaults := s_tagDefaults s; currentLogLevel := currentLogLevel s; bad := bad s; world := world s |}.
Definition with_file (s : st) (f : file_st) : st :=
  {| logInited := logInited s; hooked := hooked s; logTaskHandle := logTaskHandle s; logIn := logIn s; gate := gate s;
     file := f; logColors := logColors s; logRules := logRules s; lastLevel := lastLevel s; logSlots := logSlots s;
     s_tagDefaults := s_tagDefaults s; currentLogLevel := currentLogLevel s; bad := bad s; world := world s |}.
Definition with_colors (s : st) (c : list bytes) : st :=
  {| logInited := logInited s; hooked := hooked s; logTaskHandle := logTaskHandle s; logIn := logIn s; gate := gate s;
     file := file s; logColors := c; logRules := logRules s; lastLevel := lastLevel s; logSlots := logSlots s;
     s_tagDefaults := s_tagDefaults s; currentLogLevel := currentLogLevel s; bad := bad s; world := world s |}.
Definition with_rules (s : st) (r : list LogRule) : st :=
  {| logInited := logInited s; hooked := hooked s; logTaskHandle := logTaskHandle s; logIn := logIn s; gate := gate s;
     file := file s; logColors := logColors s; logRules := r; lastLevel := lastLevel s; logSlots := logSlots s;
     s_tagDefaults := s_tagDefaults s; currentLogLevel := currentLogLevel s; bad := bad s; world := world s |}.
Definition with_last (s : st) (c : Z) : st :=
  {| logInited := logInited s; hooked := hooked s; logTaskHandle := logTaskHandle s; logIn := logIn s; gate := gate s;
     file := file s; logColors := logColors s; logRules := logRules s; lastLevel := c; logSlots := logSlots s;
     s_tagDefaults := s_tagDefaults s; currentLogLevel := currentLogLevel s; bad := bad s; world := world s |}.
Definition with_slots (s : st) (l : list log_slot) : st :=
  {| logInited := logInited s; hooked := hooked s; logTaskHandle := logTaskHandle s; logIn := logIn s; gate := gate s;
     file := file s; logColors := logColors s; logRules := logRules s; lastLevel := lastLevel s; logSlots := l;
     s_tagDefaults := s_tagDefaults s; currentLogLevel := currentLogLevel s; bad := bad s; world := world s |}.
Definition with_levels (s : st) (t : list TagDefault) (c : Z) : st :=
  {| logInited := logInited s; hooked := hooked s; logTaskHandle := logTaskHandle s; logIn := logIn s; gate := gate s;
     file := file s; logColors := logColors s; logRules := logRules s; lastLevel := lastLevel s; logSlots := logSlots s;
     s_tagDefaults := t; currentLogLevel := c; bad := bad s; world := world s |}.
Definition with_bad (s : st) (b : bool) : st :=
  {| logInited := logInited s; hooked := hooked s; logTaskHandle := logTaskHandle s; logIn := logIn s; gate := gate s;
     file := file s; logColors := logColors s; logRules := logRules s; lastLevel := lastLevel s; logSlots := logSlots s;
     s_tagDefaults := s_tagDefaults s; currentLogLevel := currentLogLevel s; bad := b; world := world s |}.
Definition with_world (s : st) (w : W) : st :=
  {| logInited := logInited s; hooked := hooked s; logTaskHandle := logTaskHandle s; logIn := logIn s; gate := gate s;
     file := file s; logColors := logColors s; logRules := logRules s; lastLevel := lastLevel s; logSlots := logSlots s;
     s_tagDefaults := s_tagDefaults s; currentLogLevel := currentLogLevel s; bad := bad s; world := w |}.
Definition on_world (f : W -> W) (s : st) : st := with_world s (f (world s)).

Definition with_suppressed (s : st) (n : Z) : st :=
  with_gate s {| logSuppressed := n; logDrainWanted := logDrainWanted (gate s); logSinkLive := logSinkLive (gate s);
                 sinkWas := sinkWas (gate s) |}.
Definition with_dirty (s : st) (d : bool) : st :=
  with_file s {| logFile := logFile (file s); logFilePath := logFilePath (file s); lastFlushUs := lastFlushUs (file s);
                 logFileLevelMax := logFileLevelMax (file s); logFileIntervalMs := logFileIntervalMs (file s);
                 logFileDirty := d; warned := warned (file s) |}.

End State.

(** ** The hook *)

Section Hook.
Context {W : Type} `{ENV : LogEnv W}.
Abbreviation st := (log_st W).

Definition LOG_RAW_MAX : nat := 1024.
Definition LOG_FMT_MAX : nat := 1056.

Definition logWireLive (w : W) : bool := consoleOnCdc w || pmUsbAttached w.

Definition logNowhereToGo (s : st) : bool :=
  if logSinkLive (gate s) then false
  else LOG_RING_SIZE <=? wrap32 (logRingHead (logIn s) - logRingTail (logIn s)).

Definition wallClock (w : W) : bytes := let '(sec, usec) := gettimeofday w in fmtWallClock 24 sec usec.

(** What [logReformat] reads, for a line of the task [task]. *)
Definition fmtEnv (task : bytes) (s : st) : fmt_env := {|
  f_rules := logRules s; f_get := fun t => esp_log_level_get t (world s); f_colors := logColors s; f_task := task;
  f_showTs := negb (storageGetInt ($ "s.log.timestamp") 0 (world s) =? 0); f_clock := wallClock (world s) |}.

(** The bytes [0 .. fmtLen) of [formatted], which has [LOG_FMT_MAX] bytes and holds the cut
    text and its NUL; whether they are all inside it. *)
Definition formattedBytes (text : bytes) : bytes * bool :=
  if (length text <? LOG_FMT_MAX)%nat then (text, true)
  else (trunc LOG_FMT_MAX text ++ [0], (length text <=? LOG_FMT_MAX)%nat).

(** [text]: what the format and its arguments render to. *)
Definition logVprintf (task text : bytes) (s : st) : Z * st :=
  if negb (logInited s) then (0, s)
  else if logNowhereToGo s then (0, with_suppressed s (wrap32 (logSuppressed (gate s) + 1)))
  else if negb (heap_alloc (Z.of_nat (LOG_RAW_MAX + LOG_FMT_MAX)) (world s)) then (0, s)
  else if Zlen text =? 0 then (0, s)
  else
    let buf := c_str (trunc LOG_RAW_MAX text) in
    let '(line, last) := logReformat (fmtEnv task s) buf true (lastLevel s) in
    let s := with_last s last in
    if Zlen line =? 0 then (Zlen text, s)
    else
      let '(formatted, inside) := formattedBytes line in
      let s := if inside then s else with_bad s true in
      let formatted := map scrubByte formatted in
      let s := with_ring s (logRingWrite formatted (logIn s)).2 in
      let s := if logTaskHandle s && logDrainWanted (gate s) then on_world xTaskNotifyGive s else s in
      let s :=
        if logWireLive (world s) && negb (serialInCli (world s)) && negb (serialInHandler (world s)) &&
           negb (consoleWriteDead (world s))
        then on_world (fun w => consoleWriteUnlock (consoleEmitRaw formatted (consoleWriteLock w))) s
        else s in
      (Zlen text, s).

(** ESP_LOGx, for a tag that is the calling task's name (log.h: err, warn, info, dbg). *)
Definition espLog (c : Z) (task msg : bytes) (s : st) : st :=
  if levelOfChar c <=? esp_log_level_get (Some task) (world s) then
    let text := esp_log_text c task msg (world s) in
    if hooked s then (logVprintf task text s).2 else on_world (esp_vprintf text) s
  else s.

Definition warn (task msg : bytes) (s : st) : st := espLog (chr "W") task msg s.
Definition dbg (task msg : bytes) (s : st) : st := espLog (chr "D") task msg s.

Definition LOG_TASK : bytes := $ "log".

(** [task]: the caller. The letter is stored as it is after the conversion to upper case. *)
Definition logRule (task pre : bytes) (lvl : Z) (s : st) : st :=
  if Zlen pre =? 0 then s
  else
    let lvl := upper lvl in
    if negb (lvl =? chr "N") && (levelOfChar lvl =? ESP_LOG_NONE)
    then warn task (($ "log: rule '") ++ pre ++ ($ "' has no level '") ++ [lvl] ++ ($ "'") ++ [10]) s
    else if LOG_RULES_MAX <=? Zlen (logRules s)
    then warn task (($ "log: rule list full, '") ++ pre ++ ($ "' left as-is") ++ [10]) s
    else with_rules s (logRules s ++
           [{| prefix := pre; tagLen := match strchr pre (chr ":") with Some (t, _) => Zlen t | None => 0 end;
               level := lvl |}]).

(** ** Colours and the log file *)

Definition logLoadColors (s : st) : st :=
  with_colors s (map (fun kd => storageGetStr kd.1 16 kd.2 (world s))
    [($ "s.log.colors.error", $ "0;31"); ($ "s.log.colors.warn", $ "0;33"); ($ "s.log.colors.info", $ "0;32");
     ($ "s.log.colors.debug", $ "0;37"); ($ "s.log.colors.verbose", $ "0;90"); ($ "s.log.colors.timestamp", $ "0;90")]).

Definition fileSend (data : bytes) (s : st) : st :=
  with_dirty (with_world s (itsSend (logFile (file s)) data (world s)).2) true.

Definition logFileMsg (msg : bytes) (s : st) : st :=
  if logFile (file s) <? 0 then s
  else fileSend (trunc 256 (wallClock (world s) ++ ($ " I [log] ") ++ msg ++ [10])) s.

Definition logFileClose (s : st) : st :=
  if logFile (file s) <? 0 then s
  else
    let s := logFileMsg ($ "log file closed") s in
    let s := with_world s (itsDisconnect (logFile (file s)) (world s)) in
    let f := file s in
    with_file s {| logFile := -1; logFilePath := []; lastFlushUs := lastFlushUs f; logFileLevelMax := logFileLevelMax f;
                   logFileIntervalMs := logFileIntervalMs f; logFileDirty := logFileDirty f; warned := warned f |}.

Definition SDCARD : bytes := $ "/sdcard/".

Definition logFileOpen (path : bytes) (s : st) : st :=
  let s := logFileClose s in
  if Zlen path =? 0 then s
  else if has_prefix SDCARD path && negb (sdAvailable (world s)) then
    if warned (file s) then s
    else
      let s := warn LOG_TASK (($ "logfile: no SD card, log file disabled") ++ [10]) s in
      let f := file s in
      with_file s {| logFile := logFile f; logFilePath := logFilePath f; lastFlushUs := lastFlushUs f;
                     logFileLevelMax := logFileLevelMax f; logFileIntervalMs := logFileIntervalMs f;
                     logFileDirty := logFileDirty f; warned := true |}
  else
    let '(h, w) := fs_open_stream path (world s) in
    let s := with_world s w in
    if h <? 0 then s
    else
      let f := file s in
      let s := with_file s {| logFile := h; logFilePath := trunc 128 path; lastFlushUs := esp_timer_get_time w;
                     logFileLevelMax := logFileLevelMax f; logFileIntervalMs := logFileIntervalMs f;
                     logFileDirty := logFileDirty f; warned := warned f |} in
      logFileMsg ($ "log file opened") s.

(** The line at the start of [data], its newline included, and the rest. *)
Definition cutLine (data : bytes) : bytes * bytes :=
  match strchr data 10 with Some (l, rest) => (l ++ [10], rest) | None => (data, []) end.

Fixpoint fileLines (fuel : nat) (data : bytes) (s : st) : st :=
  match fuel with
  | O => s
  | S f =>
      if Zlen data =? 0 then s
      else
        let '(line, rest) := cutLine data in
        let s := if levelCharToNum (lineLevel line) <=? logFileLevelMax (file s) then fileSend line s else s in
        fileLines f rest s
  end.

Definition logFileWrite (data : bytes) (s : st) : st :=
  if logFile (file s) <? 0 then s else fileLines (length data) data s.

Definition logFileFlush (s : st) : st :=
  let f := file s in
  if (logFile f <? 0) || (logFileIntervalMs f <=? 0) || negb (logFileDirty f) then s
  else
    let now := esp_timer_get_time (world s) in
    if now - lastFlushUs f <? logFileIntervalMs f * 1000 then s
    else
      let s := with_file s {| logFile := logFile f; logFilePath := logFilePath f; lastFlushUs := now;
                     logFileLevelMax := logFileLevelMax f; logFileIntervalMs := logFileIntervalMs f;
                     logFileDirty := false; warned := warned f |} in
      on_world (fs_stream_sync (logFile f)) s.

End Hook.
