(* ===== verification/LogTask.v ===== *)
(** * log: the consumers and the log task (log.cpp)

    Paste-back, the connect callbacks, inbound lines and a pass of [logTaskFn]'s loop. What
    happens inside [itsPoll], and what other tasks log meanwhile, is a list of events. Then levels and the commands. *)

From stdpp Require Import gmap.
From S2P Require Import Prelude CLib Cron Config LogRing LogText Log.
Open Scope Z_scope.
Open Scope spangap_scope.

Section Task.
Context {W : Type} `{ENV : LogEnv W}.
Abbreviation st := (log_st W).

(** ** Slots *)

Definition slotAt (s : st) (i : nat) : log_slot := default slot0 (logSlots s !! i).
Definition updSlot (s : st) (i : nat) (f : log_slot -> log_slot) : st := with_slots s (alter f i (logSlots s)).

Definition setHandle (h : Z) (c : log_slot) : log_slot :=
  {| itsHandle := h; ansi := ansi c; lineBuf := lineBuf c; truncated := truncated c;
     pastePending := pastePending c; pasteBacklog := pasteBacklog c |}.
Definition setLine (l : bytes) (t : bool) (c : log_slot) : log_slot :=
  {| itsHandle := itsHandle c; ansi := ansi c; lineBuf := l; truncated := t;
     pastePending := pastePending c; pasteBacklog := pasteBacklog c |}.
Definition setAnsi (a : Z) (c : log_slot) : log_slot :=
  {| itsHandle := itsHandle c; ansi := a; lineBuf := lineBuf c; truncated := truncated c;
     pastePending := pastePending c; pasteBacklog := pasteBacklog c |}.
Definition setPaste (p : bool) (n : Z) (c : log_slot) : log_slot :=
  {| itsHandle := itsHandle c; ansi := ansi c; lineBuf := lineBuf c; truncated := truncated c;
     pastePending := p; pasteBacklog := n |}.

Fixpoint freeSlot (l : list log_slot) (i : nat) : option nat :=
  match l with
  | [] => None
  | c :: l' => if itsHandle c <? 0 then Some i else freeSlot l' (S i)
  end.

Definition logAllocSlot (h : Z) (s : st) : option nat * st :=
  match freeSlot (logSlots s) 0 with
  | Some i => (Some i, updSlot s i (fun c => setLine [] false (setHandle h c)))
  | None => (None, s)
  end.

(** ** Paste-back *)

(** The position of the level in "... X [task] ...", from [i] on; [prev] is [line[i - 1]]. *)
Fixpoint pasteLevel (prev : Z) (line : bytes) (i : nat) : option nat :=
  match line with
  | c :: ((d :: _) as line') =>
      if c =? 10 then None
      else if (c =? 32) && (d =? chr "[") && isLevel prev then Some (i - 1)%nat
      else pasteLevel c line' (S i)
  | _ => None
  end.

Definition pasteLvlPos (line : bytes) : option nat :=
  match line with c :: line' => pasteLevel c line' 1 | [] => None end.

(** What a line becomes. *)
Definition pasteLine (colors : list bytes) (useAnsi : bool) (line : bytes) : bytes :=
  match pasteLvlPos line with
  | Some (S k) =>
      if useAnsi then
        trunc 24 (sgr (colorAt colors 5)) ++ take (S k) line ++
        sgr (logColor colors (default 0 (line !! S k))) ++ drop (S k) line ++ sgr0
      else line
  | _ => line
  end.

Fixpoint pasteLines (fuel : nat) (colors : list bytes) (useAnsi : bool) (data : bytes) : bytes :=
  match fuel with
  | O => []
  | S f =>
      if Zlen data =? 0 then []
      else let '(line, rest) := cutLine data in pasteLine colors useAnsi line ++ pasteLines f colors useAnsi rest
  end.

Definition PASTE_CHUNK : Z := 1500.

(** The size of the next packet of [out]. *)
Definition pasteTake (out : bytes) : nat :=
  if PASTE_CHUNK <? Zlen out then
    let nl := length (skip_while (fun c => negb (c =? 10)) (rev (take (Z.to_nat PASTE_CHUNK) out))) in
    if (0 <? nl)%nat then nl else Z.to_nat PASTE_CHUNK
  else length out.

Fixpoint pasteSend (fuel : nat) (h : Z) (out : bytes) (w : W) : W :=
  match fuel with
  | O => w
  | S f =>
      if Zlen out =? 0 then w
      else
        let k := pasteTake out in
        let '(n, w) := itsSend h (take k out) w in
        if n =? Z.of_nat k then pasteSend f h (drop k out) w else w
  end.

(** The text that is sent for the [got] bytes read at [offset]. *)
Definition pasteText (colors : list bytes) (useAnsi : bool) (offset : Z) (got : bytes) : bytes :=
  let body := if 0 <? offset then match strchr got 10 with Some (_, rest) => rest | None => [] end else got in
  pasteLines (length body) colors useAnsi body.

(** The lines are built in a block of [got * 2 + 64] bytes. *)
Definition pasteSize (got : bytes) : Z := Zlen got * 2 + 64.

Definition logPasteBack (handle backlogBytes : Z) (useAnsi : bool) (s : st) : st :=
  let kb := storageGetInt ($ "s.log.file.paste") 48 (world s) in
  if negb (0 <? backlogBytes) && (kb <=? 0) then s
  else
    let readSize := if 0 <? backlogBytes then backlogBytes else Ops.to_s32 (wrap32 (kb * 1024)) in
    if Zlen (logFilePath (file s)) =? 0 then s
    else
      let s := if 0 <=? logFile (file s) then on_world (fs_stream_sync (logFile (file s))) s else s in
      let '(f, w) := fs_open (logFilePath (file s)) (world s) in
      let s := with_world s w in
      if f <? 0 then s
      else
        let w := fs_seek_end f w in
        let fileSize := fs_tell f w in
        let offset := if readSize <? fileSize then fileSize - readSize else 0 in
        let want := fileSize - offset in
        let w := fs_seek_set f offset w in
        if negb (heap_alloc (want + 1) w) then with_world s (fs_close f w)
        else
          let '(got, w) := fs_read f want w in
          let w := fs_close f w in
          if Zlen got =? 0 then with_world s w
          else if negb (heap_alloc (pasteSize got) w) then with_world s w
          else
            let out := pasteText (logColors s) useAnsi offset got in
            let s := if pasteSize got <? Zlen out then with_bad s true else s in
            with_world s (pasteSend (length out) handle out w).

(** ** Connections *)

(** [None]: the connection is refused. *)
Definition logTcpConnect (handle : Z) (data : bytes) (s : st) : option nat * st :=
  let '(r, s) := logAllocSlot handle s in
  match r with
  | None => (None, s)
  | Some i => (Some i, updSlot s i (setAnsi (match data with a :: _ => a | [] => LOG_NO_ANSI end)))
  end.

(** [strstr]: what follows the first occurrence of [key]. *)
Fixpoint strstr (key s : bytes) : option bytes :=
  if has_prefix key s then Some (drop (length key) s)
  else match s with _ :: s' => strstr key s' | [] => None end.

(** The number after the colon that follows the key. *)
Definition protoLong (key proto : bytes) : option Z :=
  match strstr ([34] ++ key ++ [34]) proto with
  | Some p => match strchr p (chr ":") with Some (_, v) => Some (atoi v) | None => None end
  | None => None
  end.

Definition logDcConnect (handle : Z) (data : bytes) (s : st) : option nat * st :=
  let '(r, s) := logAllocSlot handle s in
  match r with
  | None => (None, s)
  | Some i =>
      let proto := if (0 <? Zlen data) && (Zlen data <? 128) then c_str data else [] in
      let backlog := default 0 (protoLong ($ "backlog") proto) in
      let plain := match protoLong ($ "ansi") proto with Some v => v =? 0 | None => false end in
      (Some i, updSlot s i (fun c =>
         setPaste true backlog (setAnsi (if plain then LOG_NO_ANSI else LOG_ANSI) c)))
  end.

Definition logOnDisconnect (ref : Z) (s : st) : st :=
  if (0 <=? ref) && (ref <? Z.of_nat LOG_MAX_CONSUMERS)
  then updSlot s (Z.to_nat ref) (fun c => setPaste false (pasteBacklog c) (setLine [] false (setHandle (-1) c)))
  else s.

(** ** Inbound lines *)

Definition CUT_MARK : bytes := $ " ...[cut]".

(** The line without its escapes, as the file and the plain consumers get it. [plain] has
    [LOG_INBOUND_BUF + 8] bytes. *)
Definition inboundPlain (line : bytes) : bytes :=
  stripAnsi (take (Z.to_nat (LOG_INBOUND_BUF + 6)) line) ++ [10].

(** The line for the consumers that take colours, and whether it stays in [ansi], which has
    [LOG_INBOUND_BUF + 64] bytes. *)
Definition inboundAnsi (colors : list bytes) (line : bytes) : bytes * bool :=
  if containsAnsi line then (take (Z.to_nat (LOG_INBOUND_BUF + 62)) line ++ [10], true)
  else
    let out := colorizePreformatted colors line in
    (out, Zlen out <? LOG_INBOUND_BUF + 64).

(** [ensureAnsi] and a send of its result. *)
Definition useInboundAnsi (line : bytes) (send : bytes -> W -> W) (s : st) : st :=
  let '(t, inside) := inboundAnsi (logColors s) line in
  let s := if inside then s else with_bad s true in
  if 0 <? Zlen t then on_world (send t) s else s.

Definition inboundTo (srcSlot : nat) (line : bytes) (s : st) (i : nat) : st :=
  if bool_decide (i = srcSlot) then s
  else
    let h := itsHandle (slotAt s i) in
    if (h <? 0) || negb (itsConnected h (world s)) then s
    else if ansi (slotAt s i) =? LOG_ANSI
    then useInboundAnsi line (fun d w => (itsSend h d w).2) s
    else on_world (fun w => (itsSend h (inboundPlain line) w).2) s.

Definition slotIds : list nat := seq 0 LOG_MAX_CONSUMERS.

Definition logInboundLineOut (srcSlot : nat) (line : bytes) (s : st) : st :=
  if Zlen line =? 0 then s
  else
    let s := dbg LOG_TASK (($ "inbound from slot ") ++ sdec (Z.of_nat srcSlot) ++ ($ " (") ++ udec (Zlen line) ++
                           ($ " bytes)") ++ [10]) s in
    let s := if 0 <=? logFile (file s) then logFileWrite (inboundPlain line) s else s in
    let s := foldl (inboundTo srcSlot line) s slotIds in
    if negb (serialInCli (world s)) && negb (serialInHandler (world s)) && negb (consoleWriteDead (world s))
    then useInboundAnsi line consoleEmitRaw s
    else s.

(** A byte of the stream; [lineBuf] has [LOG_INBOUND_BUF] bytes. *)
Definition inboundByte (slot : nat) (s : st) (c : Z) : st :=
  let sl := slotAt s slot in
  if c =? 13 then s
  else if c =? 10 then updSlot (logInboundLineOut slot (lineBuf sl) s) slot (setLine [] false)
  else if Zlen (lineBuf sl) + 1 <? LOG_INBOUND_BUF
  then updSlot s slot (fun x => setLine (lineBuf x ++ [c]) (truncated x) x)
  else if truncated sl then s
  else updSlot s slot (fun x =>
         setLine (if Zlen CUT_MARK <=? Zlen (lineBuf x)
                  then take (length (lineBuf x) - length CUT_MARK) (lineBuf x) ++ CUT_MARK
                  else lineBuf x) true x).

Definition logSlotDrainInbound (s : st) (slot : nat) : st :=
  let h := itsHandle (slotAt s slot) in
  if (h <? 0) || negb (itsConnected h (world s)) then s
  else
    let '(tmp, w) := itsRecv h 2048 (world s) in
    foldl (inboundByte slot) (with_world s w) tmp.

(** ** The task *)

Definition logDir (w : W) : bytes := storageGetStr ($ "s.log.dir") 64 ($ "/sdcard/log") w.

(** Open the file [name] of the log directory. *)
Definition openNamed (name : bytes) (s : st) : st :=
  let dir := logDir (world s) in
  let s := if negb (has_prefix SDCARD dir) || sdAvailable (world s) then on_world (fs_mkdirp dir) s else s in
  logFileOpen (trunc 128 (dir ++ [chr "/"] ++ name)) s.

Definition setFileLevel (v : Z) (s : st) : st :=
  let f := file s in
  with_file s {| logFile := logFile f; logFilePath := logFilePath f; lastFlushUs := lastFlushUs f;
                 logFileLevelMax := v; logFileIntervalMs := logFileIntervalMs f;
                 logFileDirty := logFileDirty f; warned := warned f |}.
Definition setFileInterval (v : Z) (s : st) : st :=
  let f := file s in
  with_file s {| logFile := logFile f; logFilePath := logFilePath f; lastFlushUs := lastFlushUs f;
                 logFileLevelMax := logFileLevelMax f; logFileIntervalMs := v;
                 logFileDirty := logFileDirty f; warned := warned f |}.

(** [logTaskFn] up to its loop. *)
Definition logTaskStart (s : st) : st :=
  let s := with_slots s (map (setHandle (-1)) (logSlots s)) in
  let s := logLoadColors s in
  let s := setFileLevel (parseLevelNum (storageGetStr ($ "s.log.file.level") 16 ($ "verbose") (world s))) s in
  let s := setFileInterval (Ops.to_s32 (wrap32 (storageGetInt ($ "s.log.file.interval") 5 (world s) * 1000))) s in
  let name := storageGetStr ($ "s.log.file.name") 64 [] (world s) in
  if Zlen name =? 0 then s else openNamed name s.

(** The subscriptions. *)
Definition onFileName (val : bytes) (s : st) : st :=
  let s := logFileClose s in
  if Zlen val =? 0 then s else openNamed val s.
Definition onFileLevel (val : bytes) (s : st) : st := setFileLevel (parseLevelNum val) s.
Definition onFileInterval (val : bytes) (s : st) : st := setFileInterval (Ops.to_s32 (wrap32 (atoi val * 1000))) s.

Inductive event :=
| EvTcp (handle : Z) (data : bytes)
| EvDc (handle : Z) (data : bytes)
| EvDisconnect (ref : Z)
| EvColors
| EvFileName (val : bytes)
| EvFileLevel (val : bytes)
| EvFileInterval (val : bytes)
| EvLog (task text : bytes)
| EvOther (f : W -> W).

Definition deliver (s : st) (e : event) : st :=
  match e with
  | EvTcp h d => (logTcpConnect h d s).2
  | EvDc h d => (logDcConnect h d s).2
  | EvDisconnect r => logOnDisconnect r s
  | EvColors => logLoadColors s
  | EvFileName v => onFileName v s
  | EvFileLevel v => onFileLevel v s
  | EvFileInterval v => onFileInterval v s
  | EvLog t x => (logVprintf t x s).2
  | EvOther f => on_world f s
  end.

Definition pasteSlot (s : st) (i : nat) : st :=
  let c := slotAt s i in
  if pastePending c && (0 <=? itsHandle c) then
    logPasteBack (itsHandle c) (pasteBacklog c) (ansi c =? LOG_ANSI) (updSlot s i (setPaste false (pasteBacklog c)))
  else s.

(** A consumer's share of a chunk of the ring. *)
Definition fanTo (buf : bytes) (s : st) (i : nat) : st :=
  let h := itsHandle (slotAt s i) in
  if (h <? 0) || negb (itsConnected h (world s)) then s
  else on_world (fun w => (itsSend h (if ansi (slotAt s i) =? LOG_ANSI then buf else stripAnsi buf) w).2) s.

Definition fanOut (hasConsumer hasFile : bool) (buf : bytes) (s : st) : st :=
  let s := if hasFile then logFileWrite (stripAnsi buf) s else s in
  if hasConsumer then foldl (fanTo buf) s slotIds else s.

Definition DRAIN_CHUNK : Z := 511.

Fixpoint drainRing (fuel : nat) (hasConsumer hasFile : bool) (s : st) : st :=
  match fuel with
  | O => s
  | S f =>
      let '(buf, r) := logRingRead DRAIN_CHUNK (logIn s) in
      if Zlen buf =? 0 then s
      else drainRing f hasConsumer hasFile (fanOut hasConsumer hasFile buf (with_ring s r))
  end.

(** A ring holds no more than [LOG_RING_SIZE] bytes and each round takes some. *)
Definition drainFuel : nat := Z.to_nat (LOG_RING_SIZE + 1).

Definition overflowMark (s : st) : st :=
  let d := logRingDropped (logIn s) in
  let s := with_ring s (set_dropped (logIn s) 0) in
  with_ring s (logRingWrite (trunc 64 ([10] ++ ($ "W [log] ring overflow: ") ++ udec d ++ ($ " bytes dropped") ++ [10]))
                 (logIn s)).2.

Definition suppressedNote (s : st) : st :=
  let n := logSuppressed (gate s) in
  warn LOG_TASK (udec n ++ ($ " lines not recorded: nothing was listening") ++ [10]) (with_suppressed s 0).

(** One pass of the loop: what [itsPoll] handles is [evs]. *)
Definition logPass (evs : list event) (s : st) : st :=
  let s := on_world pmPollUsb s in
  let s := foldl deliver s evs in
  let s := foldl pasteSlot s slotIds in
  let hasConsumer := 0 <? itsServerActive (world s) in
  let hasFile := 0 <=? logFile (file s) in
  let drainWanted := hasConsumer || hasFile in
  let sinkLive := drainWanted || logWireLive (world s) in
  let sinkArrived := sinkLive && negb (sinkWas (gate s)) in
  let s := with_gate s {| logSuppressed := logSuppressed (gate s); logDrainWanted := drainWanted;
                          logSinkLive := sinkLive; sinkWas := sinkLive |} in
  let s := if hasConsumer then foldl logSlotDrainInbound s slotIds else s in
  let s := if drainWanted then drainRing drainFuel hasConsumer hasFile s else s in
  let s := if negb (logRingDropped (logIn s) =? 0) && drainWanted then overflowMark s else s in
  let s := if sinkArrived && negb (logSuppressed (gate s) =? 0) then suppressedNote s else s in
  logFileFlush s.

(** ** Start-up *)

Definition LOG_VERSION : Z := 2.

(** The literal of [logInstallDefaults], as cJSON reads it. *)
Definition logDefaults : json :=
  JNode false
    [(Some ($ "level"), JStr ($ "info")); (Some ($ "timestamp"), JNum 1); (Some ($ "dir"), JStr ($ "/sdcard/log"));
     (Some ($ "file"), JNode false [(Some ($ "name"), JStr []); (Some ($ "level"), JStr ($ "verbose"));
                                    (Some ($ "interval"), JNum 5); (Some ($ "paste"), JNum 48)]);
     (Some ($ "colors"), JNode false [(Some ($ "error"), JStr ($ "0;31")); (Some ($ "warn"), JStr ($ "0;33"));
                                      (Some ($ "info"), JStr ($ "0;32")); (Some ($ "debug"), JStr ($ "0;37"));
                                      (Some ($ "verbose"), JStr ($ "0;90")); (Some ($ "timestamp"), JStr ($ "0;90"))])].

Definition logInstallDefaults (w : W) : W :=
  if LOG_VERSION <=? storageGetInt ($ "s.log.version") 0 w then w
  else
    let w := storageDefaultTree ($ "s.log") logDefaults w in
    let w := storageDefault ($ "s.cron.tab.logrotate") ($ "0 0 * * * A logrotate 7") w in
    storageSet ($ "s.log.version") (sdec LOG_VERSION) w.

(** [logInit] waits for the task to have its ports; the rest of the task's start, up to its
    loop, is taken as done with it. *)
Definition logInit (s : st) : st :=
  if logInited s then s
  else
    let s := with_init s true (hooked s) (logTaskHandle s) in
    let s := on_world logInstallDefaults s in
    let s := on_world (esp_log_level_set ($ "*") ESP_LOG_INFO) s in
    let s := with_init s true true (logTaskHandle s) in
    logTaskStart (with_init s true true true).

End Task.

(** ** Levels and the commands *)

Section Cmds.
Context {W : Type} `{ENV : LogEnv W}.
Abbreviation st := (log_st W).

(** ** Levels *)

Definition TAG_DEFAULTS_MAX : Z := 16.

Fixpoint tagDefaultLevel (l : list TagDefault) (t : bytes) (global : Z) : Z :=
  match l with
  | [] => global
  | d :: l' => if streq (tag d) t then td_level d else tagDefaultLevel l' t global
  end.

(** [None]: the table is full. *)
Fixpoint tagDefaultSet (l : list TagDefault) (t : bytes) (lvl : Z) (i : Z) : option (list TagDefault) :=
  match l with
  | d :: l' =>
      if streq (tag d) t then Some ({| tag := t; td_level := lvl |} :: l')
      else cons d <$> tagDefaultSet l' t lvl (i + 1)
  | [] => if TAG_DEFAULTS_MAX <=? i then None else Some [{| tag := t; td_level := lvl |}]
  end.

Definition logTagDefault (t lvl : bytes) (s : st) : st :=
  let l := parseEspLevel lvl in
  match tagDefaultSet (s_tagDefaults s) t l 0 with
  | None => s
  | Some ds => on_world (esp_log_level_set t l) (with_levels s ds (currentLogLevel s))
  end.

Definition globalLevel (w : W) : Z := parseEspLevel (storageGetStr ($ "s.log.level") 16 ($ "info") w).

Definition TAG_PREFIX : bytes := $ "s.log.tag.".

(** What the settings say of one tag. *)
Definition applyTag (ds : list TagDefault) (w : W) (kv : bytes * bytes) : W :=
  let t := drop (length TAG_PREFIX) kv.1 in
  if first kv.2 =? chr "-" then esp_log_level_set t (tagDefaultLevel ds t (globalLevel w)) w
  else esp_log_level_set t (parseEspLevel kv.2) w.

Definition applyDefault (w : W) (d : TagDefault) : W := esp_log_level_set (tag d) (td_level d) w.

Definition logApplyLevels (s : st) : st :=
  let global := globalLevel (world s) in
  let s := on_world (esp_log_level_set ($ "*") global) s in
  let s := with_world s (foldl applyDefault (world s) (s_tagDefaults s)) in
  let s := with_levels s (s_tagDefaults s)
             (if ESP_LOG_DEBUG <=? global then LOG_DEBUG else if ESP_LOG_INFO <=? global then LOG_INFO else LOG_ERROR) in
  with_world s (foldl (applyTag (s_tagDefaults s)) (world s) (storageForEach TAG_PREFIX (world s))).

Definition logSetGlobal (lvl : bytes) (s : st) : st :=
  logApplyLevels (on_world (storageSet ($ "s.log.level") lvl) s).

Definition tagKey (t : bytes) : bytes := trunc 32 (TAG_PREFIX ++ take 19 t).

Definition logSetTag (t lvl : bytes) (s : st) : st := logApplyLevels (on_world (storageSet (tagKey t) lvl) s).

Definition logIsDebug (s : st) : bool := LOG_DEBUG <=? currentLogLevel s.
Definition logIsDebugTag (t : bytes) (w : W) : bool := ESP_LOG_DEBUG <=? esp_log_level_get (Some t) w.
Definition logIsVerbose (t : bytes) (w : W) : bool := ESP_LOG_VERBOSE <=? esp_log_level_get (Some t) w.

Definition cfd (fd : Z) (s : st) : bytes :=
  if negb (logIsDebug s) then [] else trunc 12 ([chr "{"] ++ sdec fd ++ $ "} ").

(** ** Commands *)

Definition wantsHelp (a : bytes) : bool := streq a ($ "help") || streq a ($ "-h") || streq a ($ "--help").

(** "%-*s text\n" with CLI_HELP_COL. *)
Definition helpLine (usage text : bytes) : bytes :=
  usage ++ replicate (23 - length usage) 32 ++ [32] ++ text ++ [10].

(** The first word of the arguments, at most 23 bytes of it, and what follows. *)
Definition notSp (c : Z) : bool := negb (c =? 32).
Definition firstWord (a : bytes) : bytes * bytes :=
  let w := take_while notSp (take 23 a) in (w, skip_while is_sp (drop (length w) a)).

Definition fileLevelStr (w : W) : bytes := storageGetStr ($ "s.log.file.level") 16 ($ "verbose") w.
Definition fileNameStr (w : W) : bytes := storageGetStr ($ "s.log.file.name") 64 [] w.

Definition logfileStatus (w : W) : bytes :=
  let name := fileNameStr w in
  if Zlen name =? 0 then ($ "off (level=") ++ fileLevelStr w ++ ($ " when on)") ++ [10]
  else logDir w ++ [chr "/"] ++ name ++ ($ " (") ++ fileLevelStr w ++ ($ ")") ++ [10].

(** [logfile boot]: [None] leaves everything as it is. *)
Definition bootAction (w : W) : option bytes :=
  if storageExists ($ "s.log.file.name") w then
    let cur := fileNameStr w in
    if Zlen cur =? 0 then None else if negb (isLogDateFile cur) then None else Some ($ "on")
  else Some ($ "on").

(** What follows the last slash. *)
Fixpoint baseName (s acc : bytes) : bytes :=
  match s with
  | [] => acc
  | c :: s' => if c =? chr "/" then baseName s' s' else baseName s' acc
  end.

Definition logfileAction (action : bytes) (w : W) : W :=
  if streq action ($ "off") then cliPrintf (($ "off") ++ [10]) (storageSet ($ "s.log.file.name") [] w)
  else
    let name := if streq action ($ "on") then logDateName (gettimeofday w).1
                else trunc 64 (baseName action action) in
    let w := storageSet ($ "s.log.file.name") name w in
    cliPrintf (logDir w ++ [chr "/"] ++ name ++ ($ " (") ++ fileLevelStr w ++ ($ ")") ++ [10]) w.

Definition cmdLogfile (a : bytes) (w : W) : W :=
  if streq a ($ "help") then cliPrintf (helpLine ($ "logfile [<level>] [on|off|<name>]") ($ "log-file status/control")) w
  else if wantsHelp a then
    foldl (fun w t => cliPrintf t w) w
      [helpLine ($ "logfile") ($ "show current log-file status");
       helpLine ($ "logfile on") ($ "enable, today's YYYYMMDD.log");
       helpLine ($ "logfile off") ($ "disable");
       helpLine ($ "logfile <name>") ($ "use given filename");
       helpLine ($ "logfile <level> <name|on|off>") ($ "as above, with level (error/warn/info/debug/verbose)")]
  else if Zlen a =? 0 then cliPrintf (logfileStatus w) w
  else
    let '(word, rest) := firstWord a in
    let hasLevel := isLevelArg word && (0 <? Zlen rest) in
    let w := if hasLevel then storageSet ($ "s.log.file.level") word w else w in
    let action := if hasLevel then rest else a in
    if streq action ($ "boot") then
      match bootAction w with None => w | Some act => logfileAction act w end
    else logfileAction action w.

(** The file [name] of [dir] is deleted when its date is before [cutoff]. *)
Definition rotatePath (dir name : bytes) : bytes := trunc 80 (take 63 dir ++ [chr "/"] ++ take 12 name).
Definition expired (cutoff : Z) (name : bytes) : bool :=
  if isLogDateFile name then let ft := logDateToTime name in (0 <? ft) && (ft <? cutoff) else false.
Definition rotateFile (dir : bytes) (cutoff : Z) (acc : W * Z) (name : bytes) : W * Z :=
  if expired cutoff name then
    let '(r, w) := fs_remove (rotatePath dir name) acc.1 in
    (w, if r =? 0 then acc.2 + 1 else acc.2)
  else acc.

Definition rotateMax : Z := 256.
Definition listingSize : Z := rotateMax * 88.

Definition cmdLogrotate (a : bytes) (w : W) : W :=
  if wantsHelp a then cliPrintf (helpLine ($ "logrotate [days]") ($ "rotate log, delete old files")) w
  else
    let dir := logDir w in
    let curName := fileNameStr w in
    if negb (Zlen curName =? 0) && negb (isLogDateFile curName)
    then cliPrintf (($ "logrotate: current log file is not a date-format log") ++ [10]) w
    else
      let now := (gettimeofday w).1 in
      let w := if Zlen curName =? 0 then w else storageSet ($ "s.log.file.name") (logDateName now) w in
      let days := if Zlen a =? 0 then 0 else atoi a in
      if days <=? 0 then w
      else
        let cutoff := now - days * 86400 in
        if negb (heap_alloc listingSize w) then w
        else
          let '(w, deleted) := foldl (rotateFile dir cutoff) (w, 0) (fs_listdir dir rotateMax w) in
          if deleted =? 0 then w
          else cliPrintf (($ "deleted ") ++ sdec deleted ++ ($ " old log file") ++
                          (if 1 <? deleted then $ "s" else []) ++ [10]) w.

Definition cmdLog (a : bytes) (s : st) : st :=
  if streq a ($ "help") then on_world (cliPrintf (helpLine ($ "log [tag] [level]") ($ "show/set log level"))) s
  else if wantsHelp a then
    on_world (fun w => cliPrintf (helpLine ($ "log [no]timestamp") ($ "toggle timestamps"))
                         (cliPrintf (helpLine ($ "log [tag] [level]") ($ "show/set log level")) w)) s
  else if streq a ($ "timestamp") then on_world (storageSet ($ "s.log.timestamp") ($ "1")) s
  else if streq a ($ "notimestamp") then on_world (storageSet ($ "s.log.timestamp") ($ "0")) s
  else if Zlen a =? 0 then
    on_world (fun w => cliPrintf (storageGetStr ($ "s.log.level") 16 ($ "info") w ++ [10]) w) s
  else
    let '(word, rest) := firstWord a in
    (* the code tests the first word without the check that it is not empty *)
    let isLvl := isLevelArg word || (Zlen word =? 0) in
    if isLvl && (Zlen rest =? 0) then logSetGlobal word s
    else if Zlen rest =? 0 then
      on_world (fun w =>
        let val := storageGetStr (tagKey word) 16 ($ "-") w in
        cliPrintf (word ++ ($ ": ") ++ (if first val =? chr "-" then $ "(default)" else val) ++ [10]) w) s
    else logSetTag word rest s.

End Cmds.
