(* ===== verification/LogTextProofs.v ===== *)
(** * log: the rewriting of lines, proved

    Removing the colours, finding a line's level again, and what [logReformat] makes of a
    line as ESP-IDF prints it. *)

From S2P Require Import Prelude CLib Cron LogText.
Import NextRun.
Open Scope Z_scope.
Open Scope spangap_scope.

(** ** Removing colours *)

Lemma strip_plain_app l r : ESC ∉ l -> stripAnsi (l ++ r) = l ++ stripAnsi r.
Proof.
  unfold stripAnsi. induction l as [|c l IH]; [done|]. intros N. apply not_elem_of_cons in N as [Hc N].
  cbn [app stripLoop]. rewrite <- (IH N). destruct (l ++ r) as [|d t]; [done|].
  by rewrite (proj2 (Z.eqb_neq c ESC)) by congruence.
Qed.

Lemma strip_plain l : ESC ∉ l -> stripAnsi l = l.
Proof. intros N. rewrite <- (app_nil_r l) at 1. rewrite strip_plain_app by done. apply app_nil_r. Qed.

Lemma stripLoop_esc col r : chr "m" ∉ col -> stripLoop true (col ++ [chr "m"] ++ r) = stripLoop false r.
Proof.
  induction col as [|c col IH]; intros N; cbn [app stripLoop]; [done|].
  apply not_elem_of_cons in N as [Hc N]. rewrite (proj2 (Z.eqb_neq c (chr "m"))) by congruence. by apply IH.
Qed.

Lemma strip_sgr col r : chr "m" ∉ col -> stripAnsi (sgr col ++ r) = stripAnsi r.
Proof.
  intros N. unfold stripAnsi, sgr. rewrite <- !app_assoc.
  change (stripLoop true (col ++ [chr "m"] ++ r) = stripLoop false r). by apply stripLoop_esc.
Qed.

Lemma strip_sgr0 r : stripAnsi (sgr0 ++ r) = stripAnsi r.
Proof. apply strip_sgr. apply (bool_decide_unpack _). vm_compute. exact I. Qed.

(** The result has no escapes that [containsAnsi] finds, unless the removal made one. *)
Lemma strip_shorter esc l : (length (stripLoop esc l) <= length l)%nat.
Proof.
  enough (H : forall n l esc, (length l <= n)%nat -> (length (stripLoop esc l) <= length l)%nat) by eauto.
  clear. intros n. induction n as [|n IH]; intros [|c l] esc L; cbn [length] in L; try (cbn; lia).
  cbn [stripLoop]. destruct esc.
  - specialize (IH l (negb (c =? chr "m")) ltac:(lia)). cbn [length]. lia.
  - destruct l as [|d l]; [cbn; lia|]. case_match; cbn [length] in *.
    + specialize (IH l true ltac:(lia)). lia.
    + specialize (IH (d :: l) false ltac:(cbn; lia)). cbn [length] in IH. lia.
Qed.

(** ** The scrub *)

(** A byte that leaves a terminal's state alone: printable, high, framing or ESC. *)
Definition safe_byte (c : Z) : Prop := c = 9 \/ c = 10 \/ c = 13 \/ c = ESC \/ (32 <= c /\ c <> 127).

Lemma scrub_safe c : safe_byte (scrubByte c).
Proof.
  unfold scrubByte, safe_byte. destruct ((c =? 9) || (c =? 10) || (c =? 13) || (c =? ESC)) eqn:E.
  - rewrite !orb_true_iff, !Z.eqb_eq in E. tauto.
  - destruct ((c <? 32) || (c =? 127)) eqn:F.
    + change (chr ".") with 46. lia.
    + rewrite orb_false_iff, Z.ltb_ge, Z.eqb_neq in F. lia.
Qed.

Lemma scrub_id c : safe_byte c -> scrubByte c = c.
Proof.
  unfold scrubByte, safe_byte. intros H. destruct ((c =? 9) || (c =? 10) || (c =? 13) || (c =? ESC)) eqn:E; [done|].
  rewrite !orb_false_iff, !Z.eqb_neq in E. rewrite (proj2 (Z.ltb_ge c 32)), (proj2 (Z.eqb_neq c 127)) by lia. done.
Qed.

(** A byte that decides something downstream is kept, and none is made. *)
Lemma scrub_keeps c k : safe_byte k -> k <> chr "." -> (scrubByte c =? k) = (c =? k).
Proof.
  intros K D. destruct (Z.eqb_spec c k) as [->|N]; [rewrite scrub_id by done; apply Z.eqb_refl|].
  apply Z.eqb_neq. unfold scrubByte. destruct ((c =? 9) || (c =? 10) || (c =? 13) || (c =? ESC)); [done|].
  destruct ((c <? 32) || (c =? 127)); congruence.
Qed.

Ltac keeps := rewrite !scrub_keeps by (unfold safe_byte; vm_compute; intuition discriminate).

Lemma strip_scrub esc l : stripLoop esc (map scrubByte l) = map scrubByte (stripLoop esc l).
Proof.
  enough (H : forall n l esc, (length l <= n)%nat -> stripLoop esc (map scrubByte l) = map scrubByte (stripLoop esc l)) by eauto.
  clear. intros n. induction n as [|n IH]; intros [|c l] esc L; try done; cbn [length] in L; [lia|].
  cbn [map stripLoop]. destruct esc; [keeps; apply IH; lia|].
  destruct l as [|d l]; [done|]. cbn [map length] in *. keeps.
  destruct ((c =? ESC) && (d =? chr "[")); [apply IH; lia|]. cbn [map]. f_equal. apply (IH (d :: l) false). cbn; lia.
Qed.

Lemma isLevel_scrub c : isLevel (scrubByte c) = isLevel c.
Proof. unfold isLevel. by keeps. Qed.

Lemma isLevel_safe c : isLevel c = true -> scrubByte c = c.
Proof.
  intros H. apply scrub_id. unfold isLevel in H. rewrite !orb_true_iff, !Z.eqb_eq in H.
  do 4 right. change (chr "E") with 69 in H. change (chr "W") with 87 in H. change (chr "I") with 73 in H.
  change (chr "D") with 68 in H. change (chr "V") with 86 in H. lia.
Qed.

Lemma lineLevelLoop_cons prev c d l :
  lineLevelLoop prev (c :: d :: l) =
  if c =? 10 then chr "I"
  else if isLevel c && leftOk prev && (d =? 32) then c else lineLevelLoop (Some c) (d :: l).
Proof. reflexivity. Qed.

Lemma lineLevel_scrub prev l :
  lineLevelLoop (scrubByte <$> prev) (map scrubByte l) = lineLevelLoop prev l.
Proof.
  revert prev. induction l as [|c l IH]; intros prev; [done|]. destruct l as [|d l]; [done|].
  specialize (IH (Some c)). change (scrubByte <$> Some c) with (Some (scrubByte c)) in IH. cbn [map] in IH |- *.
  rewrite !lineLevelLoop_cons, isLevel_scrub. keeps. destruct (c =? 10); [done|].
  replace (leftOk (scrubByte <$> prev)) with (leftOk prev) by (destruct prev; [unfold leftOk; cbn [fmap option_fmap option_map]; by keeps|done]).
  destruct (isLevel c && leftOk prev && (d =? 32)) eqn:E; [|exact IH].
  apply isLevel_safe. by destruct (isLevel c).
Qed.

(** ** Formatted lines *)

Definition color_ok (c : bytes) : Prop := (chr "m" ∉ c) /\ Zlen c <= 15.

(** What the state and the system provide: colours as [logLoadColors] reads them, a clock
    and a task name without escapes. *)
Definition fmt_ok (e : fmt_env) : Prop :=
  Forall color_ok (f_colors e) /\ (ESC ∉ f_clock e) /\ Zlen (f_clock e) <= 23 /\ (ESC ∉ f_task e).

Lemma colorAt_ok l i : Forall color_ok l -> color_ok (colorAt l i).
Proof.
  intros F. unfold colorAt. destruct (nth_in_or_default i l []) as [H| ->].
  - rewrite Forall_forall in F. by apply F, list_elem_of_In.
  - split; [apply not_elem_of_nil|done].
Qed.

Lemma logColor_ok l c : Forall color_ok l -> color_ok (logColor l c).
Proof. intros F. unfold logColor. repeat case_match; by apply colorAt_ok. Qed.

Lemma Zlen_sgr c : Zlen (sgr c) = Zlen c + 3.
Proof. unfold sgr. zlia. Qed.

Lemma trunc_id n s : (length s < n)%nat -> trunc n s = s.
Proof. intros L. apply take_ge. lia. Qed.

Lemma fmtColor_ok e lvl : fmt_ok e -> fmtColor e true lvl = (sgr (logColor (f_colors e) lvl), sgr0).
Proof.
  intros [F _]. unfold fmtColor. rewrite trunc_id; [done|]. pose proof (logColor_ok _ lvl F) as [_ L].
  pose proof (Zlen_sgr (logColor (f_colors e) lvl)). unfold Zlen in *. lia.
Qed.

Lemma fmtStamp_ok e : fmt_ok e ->
  fmtStamp e true = (if f_showTs e then sgr (colorAt (f_colors e) 5) ++ f_clock e ++ sgr0 ++ [32] else []) /\
  fmtStamp e false = (if f_showTs e then f_clock e ++ [32] else []).
Proof.
  intros (F & _ & C & _). unfold fmtStamp. pose proof (colorAt_ok _ 5 F) as [_ L].
  pose proof (Zlen_sgr (colorAt (f_colors e) 5)). destruct (f_showTs e); [|done].
  unfold Zlen in *. split; apply trunc_id; rewrite !length_app; change (length sgr0) with 4%nat; cbn [length]; lia.
Qed.

(** Without its colours a formatted line is the line formatted without colours. *)
Lemma strip_fmtLine e lvl t msg :
  fmt_ok e -> lvl <> ESC -> ESC ∉ t -> ESC ∉ msg ->
  stripAnsi (fmtLine e true lvl t msg) = fmtLine e false lvl t msg.
Proof.
  intros OK Hl Ht Hm. unfold fmtLine. rewrite fmtColor_ok by done. cbn [fmtColor].
  destruct (fmtStamp_ok e OK) as [-> ->]. destruct OK as (F & Hc & _ & Hk).
  assert (B : stripAnsi ([lvl] ++ ($ " [") ++ f_task e ++ ($ "] ") ++ (if Zlen t =? 0 then [] else t ++ $ ": ") ++ msg ++ sgr0 ++ [10]) =
    [lvl] ++ ($ " [") ++ f_task e ++ ($ "] ") ++ (if Zlen t =? 0 then [] else t ++ $ ": ") ++ msg ++ [] ++ [10]).
  { assert (ESC ∉ [lvl]) by (by apply not_elem_of_cons; split; [|apply not_elem_of_nil]).
    assert ((ESC ∉ $ " [") /\ (ESC ∉ $ "] ") /\ (ESC ∉ $ ": ")) as (? & ? & ?)
      by (split_and!; apply (bool_decide_unpack _); vm_compute; exact I).
    rewrite !strip_plain_app by first [done|case_match; [apply not_elem_of_nil|by apply not_elem_of_app]].
    by rewrite strip_sgr0. }
  destruct (f_showTs e); rewrite <- ?app_assoc.
  - rewrite strip_sgr by apply (colorAt_ok _ 5 F). rewrite strip_plain_app by done. rewrite strip_sgr0.
    rewrite (strip_plain_app [32]) by (apply (bool_decide_unpack _); vm_compute; exact I).
    rewrite strip_sgr by apply (logColor_ok _ lvl F). by rewrite B.
  - rewrite !app_nil_l. rewrite strip_sgr by apply (logColor_ok _ lvl F). by rewrite B.
Qed.

(** No level letter before a space, the end counting as one. *)
Fixpoint noLevelSp (l : bytes) : bool :=
  match l with
  | [] => true
  | [c] => negb (isLevel c)
  | c :: ((d :: _) as l') => negb (isLevel c && (d =? 32)) && noLevelSp l'
  end.

Lemma lineLevel_skip prev l c r :
  noLevelSp l = true -> 10 ∉ l -> isLevel c = true ->
  lineLevelLoop prev (l ++ [32; c; 32] ++ r) = c.
Proof.
  revert prev. induction l as [|x l IH]; intros prev N NL C.
  - cbn [app]. rewrite lineLevelLoop_cons. cbn [Z.eqb isLevel andb]. rewrite lineLevelLoop_cons, C. cbn.
    destruct (Z.eqb_spec c 10) as [->|]; [done|]. done.
  - apply not_elem_of_cons in NL as [Hx NL].
    assert (E : exists d t, l ++ [32; c; 32] ++ r = d :: t /\ isLevel x && (d =? 32) = false).
    { destruct l as [|d l]; cbn [noLevelSp] in N.
      - exists 32, ([c; 32] ++ r). split; [done|]. apply negb_true_iff in N. by rewrite N.
      - exists d, (l ++ [32; c; 32] ++ r). split; [done|]. apply andb_true_iff in N as [N _]. by apply negb_true_iff in N. }
    assert (N' : noLevelSp l = true) by (destruct l; [done|]; by apply andb_true_iff in N as [_ ?]).
    specialize (IH (Some x) N' NL C). destruct E as (d & t & E & X). cbn [app] in E, IH |- *. rewrite E in *.
    rewrite lineLevelLoop_cons, (proj2 (Z.eqb_neq x 10)) by congruence.
    replace (isLevel x && leftOk prev && (d =? 32)) with false; [exact IH|].
    destruct (isLevel x), (d =? 32), (leftOk prev); done.
Qed.

(** The level found again in a formatted line is the one it was formatted with. *)
Lemma lineLevel_fmtLine e lvl t msg :
  fmt_ok e -> noLevelSp (f_clock e) = true -> 10 ∉ f_clock e -> isLevel lvl = true ->
  lineLevel (fmtLine e false lvl t msg) = lvl.
Proof.
  intros OK N NL L. unfold lineLevel, fmtLine. cbn [fmtColor]. destruct (fmtStamp_ok e OK) as [_ ->].
  destruct (f_showTs e).
  - rewrite <- !app_assoc. apply (lineLevel_skip None (f_clock e) lvl _ N NL L).
  - rewrite !app_nil_l. cbn [app str map String.list_ascii_of_string]. 
    change ($ " [" ++ ?x) with (32 :: chr "[" :: x). rewrite lineLevelLoop_cons, L.
    destruct (Z.eqb_spec lvl 10) as [->|]; done.
Qed.

(** ** logReformat on the lines of ESP-IDF *)

(** An escape, or none. *)
Definition ansiOpt (o : option bytes) : bytes := match o with Some p => sgr p | None => [] end.
Definition params (o : option bytes) : Prop := match o with Some p => Forall (fun c => isParam c = true) p | None => True end.

(** "\033[0;32mI (12345) tag: msg\033[0m\n" *)
Definition idfLine (pre : option bytes) (lvl : Z) (ts tag msg : bytes) (post : option bytes) : bytes :=
  ansiOpt pre ++ [lvl] ++ ($ " (") ++ ts ++ ($ ") ") ++ tag ++ ($ ": ") ++ msg ++ ansiOpt post ++ [10].

(** The parts are those of a line: the time has no parenthesis, the tag is not empty, no
    longer than the formatter takes and has no colon, the message has something to show, no
    escape of its own and no newline at its end. *)
Record idf_ok (pre : option bytes) (lvl : Z) (ts tag msg : bytes) (post : option bytes) : Prop := {
  ok_pre : params pre;
  ok_post : params post;
  ok_lvl : isLevel lvl = true;
  ok_ts : chr ")" ∉ ts;
  ok_tag : 0 < Zlen tag < 32;
  ok_tag_sp : first tag <> 32;
  ok_tag_colon : chr ":" ∉ tag;
  ok_msg : forallb is_white msg = false;
  ok_msg_esc : ESC ∉ msg;
  ok_msg_nl : forall m c, msg = m ++ [c] -> is_nl c = false }.

Lemma isLevel_values c : isLevel c = true -> c = 69 \/ c = 87 \/ c = 73 \/ c = 68 \/ c = 86.
Proof. unfold isLevel. rewrite !orb_true_iff, !Z.eqb_eq. vm_compute. tauto. Qed.

Lemma skipAnsi_pre pre r n :
  params pre -> (match r with c :: _ => c <> ESC | [] => True end) -> (length (ansiOpt pre ++ r) <= n)%nat ->
  skipAnsi n (ansiOpt pre ++ r) = r.
Proof.
  intros P R L.
  assert (base : forall n, skipAnsi n r = r).
  { intros [|k]; [by destruct r|]. destruct r as [|a [|b r]]; [done..|]. cbn [skipAnsi].
    by rewrite (proj2 (Z.eqb_neq a ESC)) by done. }
  destruct pre as [p|]; [|apply base]. cbn [ansiOpt params] in *.
  destruct n as [|n]; [cbn in L; lia|].
  change (skipAnsi (S n) (ESC :: chr "[" :: (p ++ [chr "m"]) ++ r) = r). rewrite <- app_assoc. cbn [skipAnsi].
  rewrite !Z.eqb_refl. cbn [andb].
  assert (skip_while isParam (p ++ [chr "m"] ++ r) = chr "m" :: r) as -> by (apply skip_while_app; done).
  rewrite Z.eqb_refl. apply base.
Qed.

(** Bytes of the message by their place in the line. *)
Lemma at_mid (a m b : bytes) i :
  0 <= i < Zlen m -> Zlen (a ++ m ++ b) < 2 ^ 32 -> at_ (a ++ m ++ b) (Zlen a) i = default 0 (m !! Z.to_nat i).
Proof.
  intros I L. unfold at_. rewrite !Zlen_app in L. pose proof (Zlen_nonneg a). pose proof (Zlen_nonneg b).
  unfold wrap32. rewrite Z.mod_small by lia. unfold Zlen in *.
  rewrite lookup_app_r by lia. rewrite lookup_app_l by lia. do 2 f_equal. lia.
Qed.

Lemma at_before (a m : bytes) x i :
  i = 2 ^ 32 - 1 -> Zlen (a ++ [x] ++ m) < 2 ^ 32 -> at_ (a ++ [x] ++ m) (Zlen (a ++ [x])) i = x.
Proof.
  intros -> L. unfold at_. rewrite !Zlen_app in L. pose proof (Zlen_nonneg a). pose proof (Zlen_nonneg m).
  rewrite Zlen_app. change (Zlen [x]) with 1 in *. unfold wrap32.
  replace (Zlen a + 1 + (2 ^ 32 - 1)) with (Zlen a + 1 * 2 ^ 32) by lia. rewrite Z.mod_add, Z.mod_small by lia.
  unfold Zlen. rewrite Nat2Z.id, lookup_app_r by lia. by rewrite Nat.sub_diag.
Qed.

Lemma escScan_range n src off i : 0 <= i -> 0 <= escScan n src off i <= i.
Proof.
  revert i. induction n as [|n IH]; intros i I; cbn [escScan]; [lia|].
  destruct (Z.ltb_spec 0 i); cbn [andb]; [|lia]. case_match; [|lia]. specialize (IH (i - 1) ltac:(lia)). lia.
Qed.

(** A message with no escape keeps its length, also the one-byte "m", whose scan starts at
    the byte before it. *)
Lemma trailAnsi_plain n a x msg b :
  ESC ∉ msg -> x <> ESC -> isParam x = false -> x <> chr "[" -> Zlen (a ++ [x] ++ msg ++ b) < 2 ^ 32 ->
  trailAnsi n (a ++ [x] ++ msg ++ b) (Zlen (a ++ [x])) (Zlen msg) = Zlen msg.
Proof.
  intros NE XE XP XB L. destruct n as [|n]; [done|]. cbn [trailAnsi].
  set (src := a ++ [x] ++ msg ++ b) in *. set (off := Zlen (a ++ [x])).
  destruct (Z.leb_spec (Zlen msg) 0); [done|]. case_match; [|done].
  assert (Hat : at_ src off (escScan (length src) src off (wrap32 (Zlen msg - 2))) <> ESC).
  { destruct (Z.eqb_spec (Zlen msg) 1) as [E|E].
    - rewrite E. change (wrap32 (1 - 2)) with (2 ^ 32 - 1).
      assert (B : at_ src off (2 ^ 32 - 1) = x) by (apply at_before; [done|exact L]).
      assert (escScan (length src) src off (2 ^ 32 - 1) = 2 ^ 32 - 1) as ->; [|by rewrite B].
      destruct (length src); [done|]. cbn [escScan]. rewrite B, XP, (proj2 (Z.eqb_neq x (chr "["))) by done. done.
    - assert (W : wrap32 (Zlen msg - 2) = Zlen msg - 2).
      { unfold wrap32. apply Z.mod_small. unfold src in L. rewrite !Zlen_app in L.
        pose proof (Zlen_nonneg a). pose proof (Zlen_nonneg b). change (Zlen [x]) with 1 in L. lia. }
      rewrite W. pose proof (escScan_range (length src) src off (Zlen msg - 2) ltac:(lia)) as R.
      set (i := escScan _ _ _ _) in *. assert (S : src = (a ++ [x]) ++ msg ++ b) by (unfold src; by rewrite <- app_assoc).
      rewrite S in *. rewrite at_mid by (try exact L; lia). intros E2. apply NE.
      destruct (msg !! Z.to_nat i) as [y|] eqn:Y; [|vm_compute in E2; discriminate]. cbn in E2. subst y.
      by apply list_elem_of_lookup_2 in Y. }
  by rewrite (proj2 (Z.eqb_neq _ _)) by done.
Qed.

(** The scan goes back over an escape's parameters to its ESC. *)
Lemma escScan_sgr n a m q b i :
  Forall (fun c => isParam c = true) q -> 0 < Zlen m -> Zlen (a ++ (m ++ sgr q) ++ b) < 2 ^ 32 ->
  Zlen m <= i <= Zlen m + 1 + Zlen q -> i - Zlen m <= Z.of_nat n ->
  escScan n (a ++ (m ++ sgr q) ++ b) (Zlen a) i = Zlen m.
Proof.
  intros Q M L. revert i. induction n as [|n IH]; intros i I F; cbn [escScan]; [lia|].
  pose proof (Zlen_nonneg q). pose proof (Zlen_sgr q).
  rewrite at_mid by (try done; rewrite Zlen_app; lia).
  destruct (Z.eqb_spec i (Zlen m)) as [->|N].
  - assert (default 0 ((m ++ sgr q) !! Z.to_nat (Zlen m)) = ESC) as ->; [|by rewrite andb_false_r].
    unfold Zlen. by rewrite Nat2Z.id, lookup_app_r, Nat.sub_diag by lia.
  - rewrite (proj2 (Z.ltb_lt 0 i)) by lia. cbn [andb].
    assert (X : isParam (default 0 ((m ++ sgr q) !! Z.to_nat i)) || (default 0 ((m ++ sgr q) !! Z.to_nat i) =? chr "[") = true).
    { unfold Zlen in *. rewrite lookup_app_r by lia. destruct (Z.to_nat i - length m)%nat as [|[|k]] eqn:K; [lia|done|].
      change (sgr q !! S (S k)) with ((q ++ [chr "m"]) !! k).
      rewrite lookup_app_l by lia. destruct (lookup_lt_is_Some_2 q k ltac:(lia)) as [y Y]. rewrite Y. change (default 0 (Some y)) with y.
      rewrite Forall_forall in Q. rewrite (Q y) by (by eapply list_elem_of_lookup_2). done. }
    rewrite X. apply IH; lia.
Qed.

Lemma trailAnsi_post n a x msg post :
  params post -> ESC ∉ msg -> 0 < Zlen msg -> x <> ESC -> isParam x = false -> x <> chr "[" ->
  (0 < n)%nat -> Zlen (a ++ [x] ++ msg ++ ansiOpt post ++ [10]) < 2 ^ 32 ->
  trailAnsi n (a ++ [x] ++ msg ++ ansiOpt post ++ [10]) (Zlen (a ++ [x])) (Zlen (msg ++ ansiOpt post)) = Zlen msg.
Proof.
  intros P NE M XE XP XB N L. destruct post as [q|]; cbn [ansiOpt params] in *.
  - destruct n as [|n]; [lia|]. cbn [trailAnsi].
    assert (S : a ++ [x] ++ msg ++ sgr q ++ [10] = (a ++ [x]) ++ (msg ++ sgr q) ++ [10]) by (by rewrite <- !app_assoc).
    pose proof (Zlen_nonneg q). pose proof (Zlen_sgr q) as ZS. pose proof L as L'.
    rewrite S in L'. assert (B : Zlen (msg ++ sgr q) = Zlen msg + Zlen q + 3) by (rewrite Zlen_app; lia).
    rewrite B. rewrite (proj2 (Z.leb_gt _ _)) by lia.
    assert (A1 : at_ (a ++ [x] ++ msg ++ sgr q ++ [10]) (Zlen (a ++ [x])) (Zlen msg + Zlen q + 3 - 1) = chr "m").
    { rewrite S, at_mid by (try exact L'; lia). unfold Zlen in *. rewrite lookup_app_r by lia.
      change (sgr q) with ([ESC; chr "["] ++ q ++ [chr "m"]). rewrite lookup_app_r by (cbn; lia).
      rewrite lookup_app_r by (cbn; lia). cbn [length]. replace (_ - _ - _ - _)%nat with 0%nat by lia. done. }
    rewrite A1, Z.eqb_refl. rewrite !Zlen_app in L'.
    assert (W : wrap32 (Zlen msg + Zlen q + 3 - 2) = Zlen msg + 1 + Zlen q).
    { unfold wrap32. rewrite Z.mod_small; [lia|]. pose proof (Zlen_nonneg a). pose proof (Zlen_nonneg [x]). pose proof (Zlen_nonneg [10]). lia. }
    rewrite W.
    pose proof (escScan_sgr (length (a ++ [x] ++ msg ++ sgr q ++ [10])) (a ++ [x]) msg q [10] (Zlen msg + 1 + Zlen q) P M) as ES.
    rewrite <- S in ES. rewrite ES; [|done|lia|rewrite !length_app; unfold Zlen in *; lia].
    assert (A2 : at_ (a ++ [x] ++ msg ++ sgr q ++ [10]) (Zlen (a ++ [x])) (Zlen msg) = ESC).
    { rewrite S, at_mid by (rewrite ?Zlen_app; lia). unfold Zlen. rewrite Nat2Z.id, lookup_app_r, Nat.sub_diag by lia. done. }
    rewrite A2, Z.eqb_refl. by apply trailAnsi_plain.
  - rewrite !app_nil_r, app_nil_l in *. by apply trailAnsi_plain.
Qed.

Lemma trimNl_line m c : is_nl c = false -> trimNl (m ++ [c] ++ [10]) = m ++ [c].
Proof.
  intros H. unfold trimNl. rewrite !rev_app_distr. cbn [rev app skip_while]. change (is_nl 10) with true. cbn [skip_while].
  rewrite H. cbn [rev]. by rewrite rev_involutive.
Qed.

Lemma ends_with (l : bytes) : l <> [] -> exists m c, l = m ++ [c].
Proof. intros H. destruct (exists_last H) as (m & c & ->). eauto. Qed.

Lemma trimNl_idf msg post :
  0 < Zlen msg -> (forall m c, msg = m ++ [c] -> is_nl c = false) ->
  trimNl (msg ++ ansiOpt post ++ [10]) = msg ++ ansiOpt post.
Proof.
  intros M N. destruct post as [q|]; cbn [ansiOpt].
  - change (sgr q) with ([ESC; chr "["] ++ q ++ [chr "m"]).
    replace (msg ++ ([ESC; chr "["] ++ q ++ [chr "m"]) ++ [10]) with ((msg ++ [ESC; chr "["] ++ q) ++ [chr "m"] ++ [10])
      by (by rewrite <- !app_assoc).
    rewrite trimNl_line by done. by rewrite <- !app_assoc.
  - destruct (ends_with msg) as (m & c & E); [intros ->; done|]. rewrite app_nil_r, app_nil_l.
    rewrite E, <- app_assoc. apply trimNl_line. by eapply N.
Qed.

Section Idf.
Variables (pre : option bytes) (lvl : Z) (ts tg msg : bytes) (post : option bytes).
Hypothesis OK : idf_ok pre lvl ts tg msg post.

Let tail : bytes := msg ++ ansiOpt post ++ [10].

Lemma msg_pos : 0 < Zlen msg.
Proof using OK. pose proof (ok_msg _ _ _ _ _ _ OK). destruct msg; [done|]. zlia. Qed.

Lemma skip_open r : skip_while is_sp (drop 1 ([lvl] ++ ($ " (") ++ r)) = chr "(" :: r.
Proof. reflexivity. Qed.

Lemma skipStamp_idf : skipStamp ([lvl] ++ ($ " (") ++ ts ++ ($ ") ") ++ tg ++ ($ ": ") ++ tail) = tg ++ ($ ": ") ++ tail.
Proof using OK.
  unfold skipStamp. rewrite skip_open. cbn [first]. rewrite Z.eqb_refl.
  change ($ ") " ++ ?r) with (chr ")" :: 32 :: r).
  change (chr "(" :: ts ++ ?r) with ((chr "(" :: ts) ++ r).
  rewrite strchr_app by (apply not_elem_of_cons; split; [by vm_compute|apply (ok_ts _ _ _ _ _ _ OK)]).
  cbn [skip_while]. change (is_sp 32) with true. cbn iota. pose proof (ok_tag_sp _ _ _ _ _ _ OK) as H.
  pose proof (ok_tag _ _ _ _ _ _ OK). destruct tg as [|c t]; [unfold Zlen in *; cbn in *; lia|]. cbn [first] in H.
  cbn [app skip_while]. unfold is_sp. by rewrite (proj2 (Z.eqb_neq c 32)) by done.
Qed.

Lemma splitTag_idf : splitTag (tg ++ ($ ": ") ++ tail) = (tg, tail).
Proof using OK.
  unfold splitTag. change ($ ": " ++ ?r) with (chr ":" :: 32 :: r).
  rewrite strchr_app by apply (ok_tag_colon _ _ _ _ _ _ OK). pose proof (ok_tag _ _ _ _ _ _ OK).
  rewrite !(proj2 (Z.ltb_lt _ _)) by lia. done.
Qed.

(** What is taken as the message. *)
Lemma message_idf src :
  src = idfLine pre lvl ts tg msg post -> Zlen src < 2 ^ 32 ->
  take (Z.to_nat (trailAnsi (length src) src (Zlen src - Zlen tail) (Zlen (trimNl tail)))) tail = msg.
Proof using OK.
  intros -> L. pose proof msg_pos. unfold tail at 2. rewrite trimNl_idf by (try done; apply (ok_msg_nl _ _ _ _ _ _ OK)).
  set (a := ansiOpt pre ++ [lvl] ++ ($ " (") ++ ts ++ ($ ") ") ++ tg ++ [chr ":"]).
  assert (S : idfLine pre lvl ts tg msg post = a ++ [32] ++ msg ++ ansiOpt post ++ [10]).
  { unfold idfLine, a. change ($ ": ") with ([chr ":"] ++ [32]). by rewrite <- !app_assoc. }
  assert (O : Zlen (idfLine pre lvl ts tg msg post) - Zlen tail = Zlen (a ++ [32])).
  { rewrite S. unfold tail. rewrite !Zlen_app. lia. }
  rewrite O. rewrite S in L |- *. rewrite trailAnsi_post; try done.
  - unfold tail, Zlen. rewrite Nat2Z.id. apply take_app_length.
  - apply (ok_post _ _ _ _ _ _ OK).
  - apply (ok_msg_esc _ _ _ _ _ _ OK).
  - rewrite !length_app. cbn. lia.
Qed.

(** The line is dropped or given a level by the rules; then it is the time, the level, the
    task, the tag when it is not the task's name, and the message. *)
Lemma logReformat_idf e useAnsi last :
  Zlen (idfLine pre lvl ts tg msg post) < 2 ^ 32 ->
  (tg = f_task e -> has_prefix (f_task e ++ [chr ":"]) msg = false) ->
  logReformat e (idfLine pre lvl ts tg msg post) useAnsi last =
  match logRuleApply (f_rules e) (f_get e) msg (Some tg) lvl with
  | Some l => (fmtLine e useAnsi l (if streq tg (f_task e) then [] else tg) msg, l)
  | None => ([], lvl)
  end.
Proof using OK.
  intros L T. unfold logReformat. pose proof (isLevel_values _ (ok_lvl _ _ _ _ _ _ OK)) as LV.
  pose proof (message_idf _ eq_refl L) as M. set (src := idfLine _ _ _ _ _ _) in *.
  assert (P : skipAnsi (length src) src = [lvl] ++ ($ " (") ++ ts ++ ($ ") ") ++ tg ++ ($ ": ") ++ tail).
  { apply skipAnsi_pre; [apply (ok_pre _ _ _ _ _ _ OK)|cbn; unfold ESC; lia|done]. }
  rewrite P. change (first ([lvl] ++ ?r)) with lvl. rewrite (ok_lvl _ _ _ _ _ _ OK).
  rewrite skip_open. cbn [first]. rewrite Z.eqb_refl. cbn [andb negb]. rewrite skipStamp_idf, splitTag_idf.
  rewrite M. rewrite (ok_msg _ _ _ _ _ _ OK). pose proof (ok_tag _ _ _ _ _ _ OK). pose proof msg_pos.
  rewrite (proj2 (Z.eqb_neq (Zlen tg) 0)) by lia. cbn [negb andb].
  destruct (streq tg (f_task e)) eqn:E; cbn [andb].
  - apply streq_true in E. specialize (T E).
    assert (ST : stripTask (length msg) (f_task e) msg = msg).
    { destruct (length msg); [done|]. cbn [stripTask]. by rewrite T, andb_false_r. }
    rewrite ST. destruct (negb (streq (f_task e) TASK_UNKNOWN)); cbn [andb]; [|done].
    by rewrite (proj2 (Z.eqb_neq (Zlen msg) 0)) by lia.
  - done.
Qed.

End Idf.

(** ** The wall clock *)

Lemma udec_aux_width fuel n v :
  (0 < n)%nat -> 0 <= v < 10 ^ Z.of_nat n -> (length (udec_aux fuel v []) <= n)%nat.
Proof.
  revert n v. induction fuel as [|f IH]; intros n v N V; cbn [udec_aux]; [cbn; lia|].
  destruct (Z.ltb_spec v 10); [cbn; lia|]. rewrite udec_aux_app, length_app. cbn [length].
  destruct n as [|n]; [lia|]. rewrite Nat2Z.inj_succ, Z.pow_succ_r in V by lia.
  destruct n as [|n]; [change (10 ^ Z.of_nat 0) with 1 in V; lia|].
  specialize (IH (S n) (v / 10) ltac:(lia)). enough (length (udec_aux f (v / 10) []) <= S n)%nat by lia.
  apply IH. split; [apply Z.div_pos; lia|]. apply Z.div_lt_upper_bound; lia.
Qed.

Lemma zpad_length n v : (0 < n)%nat -> 0 <= v < 10 ^ Z.of_nat n -> length (zpad n v) = n.
Proof.
  intros N V. unfold zpad. pose proof (udec_aux_width 20 n v N V). fold (udec v) in *.
  rewrite length_app, length_replicate. lia.
Qed.

Lemma zpad_digits n v : 0 <= v -> Forall (fun c => isdigit c = true) (zpad n v).
Proof.
  intros V. apply Forall_app. split; [|by apply udec_digits].
  apply Forall_forall. intros c C. apply elem_of_replicate in C as [-> _]. done.
Qed.

Lemma zpad_value n v : 0 <= v < 10 ^ 20 -> dval (zpad n v) = v.
Proof.
  intros V. unfold zpad. set (k := (n - length (udec v))%nat). clearbody k.
  assert (G : forall l, dval (replicate k 48 ++ l) = dval l).
  { intros l. unfold dval. rewrite fold_left_app. f_equal. induction k; [done|]. cbn. done. }
  rewrite G. by apply dval_udec.
Qed.

(** [localtime_r] gives fields in range. *)
Record tm_ok (t : tm) : Prop := {
  ok_mon : 0 <= tm_mon t < 12; ok_mday : 0 <= tm_mday t < 100; ok_hour : 0 <= tm_hour t < 100;
  ok_min : 0 <= tm_min t < 100; ok_sec : 0 <= tm_sec t < 100 }.

(** Letters of a month, digits, separators. *)
Definition clockChar (c : Z) : bool := isdigit c || bool_decide (c ∈ $ " :.") || bool_decide (c ∈ concat monthNames).

Lemma noLevelSp_cons c l : isLevel c = false -> noLevelSp l = true -> noLevelSp (c :: l) = true.
Proof. intros C L. destruct l as [|d l]; cbn [noLevelSp]; by rewrite C. Qed.

Lemma noLevelSp_app a b : noLevelSp a = true -> noLevelSp b = true -> noLevelSp (a ++ b) = true.
Proof.
  intros A B. induction a as [|c a IH]; [done|]. destruct a as [|d a].
  - cbn in A. apply noLevelSp_cons; [by apply negb_true_iff|done].
  - cbn [noLevelSp] in A. apply andb_true_iff in A as [A1 A2]. cbn [app]. cbn [noLevelSp].
    apply andb_true_iff. split; [done|]. by apply IH.
Qed.

Lemma noLevelSp_digits l : Forall (fun c => isdigit c = true) l -> noLevelSp l = true.
Proof.
  induction 1 as [|c l C _ IH]; [done|]. apply noLevelSp_cons; [|done].
  destruct (isLevel c) eqn:E; [|done]. apply isLevel_values in E. unfold isdigit in C. b2p. lia.
Qed.

Lemma month_facts m : 0 <= m < 12 ->
  noLevelSp (nth (Z.to_nat m) monthNames []) = true /\ length (nth (Z.to_nat m) monthNames []) = 3%nat /\
  Forall (fun c => clockChar c = true) (nth (Z.to_nat m) monthNames []).
Proof.
  intros M. assert (H : Forall (fun n => noLevelSp (nth n monthNames []) = true /\ length (nth n monthNames []) = 3%nat /\
    Forall (fun c => clockChar c = true) (nth n monthNames [])) (seq 0 12)).
  { apply (bool_decide_unpack _). vm_compute. exact I. }
  rewrite Forall_forall in H. apply H, elem_of_seq. lia.
Qed.

Lemma digits_clockChar l : Forall (fun c => isdigit c = true) l -> Forall (fun c => clockChar c = true) l.
Proof. intros F. eapply Forall_impl; [exact F|]. intros c C. unfold clockChar. by rewrite C. Qed.

Lemma fmtWallClock_facts `{Calendar} sec usec :
  tm_ok (localtime sec) -> 0 <= usec < 1000000 ->
  let s := fmtWallClock 24 sec usec in
  noLevelSp s = true /\ length s = 19%nat /\ Forall (fun c => clockChar c = true) s.
Proof.
  intros [A B C D E] U. unfold fmtWallClock. destruct (month_facts (tm_mon (localtime sec)) A) as (M1 & M2 & M3).
  assert (U' : 0 <= usec / 1000 < 1000) by (split; [apply Z.div_pos; lia|apply Z.div_lt_upper_bound; lia]).
  assert (Z2 : forall v, 0 <= v < 100 -> length (zpad 2 v) = 2%nat) by (intros; by apply zpad_length; [lia|]).
  assert (Z3 : length (zpad 3 (usec / 1000)) = 3%nat) by (by apply zpad_length; [lia|]).
  rewrite trunc_id by (rewrite !length_app, M2, Z3, !Z2 by done; cbn; lia).
  cbn zeta. split_and!.
  - repeat (apply noLevelSp_app; [first [exact M1|reflexivity|apply noLevelSp_digits, zpad_digits; lia]|]).
    apply noLevelSp_digits, zpad_digits; lia.
  - rewrite !length_app, M2, Z3, !Z2 by done. done.
  - rewrite !Forall_app. split_and!; first [done|apply digits_clockChar, zpad_digits; lia|by repeat constructor].
Qed.

Lemma clockChar_plain l : Forall (fun c => clockChar c = true) l -> (ESC ∉ l) /\ (10 ∉ l) /\ Forall safe_byte l.
Proof.
  intros F. rewrite Forall_forall in F. split_and!.
  - intros X. apply F in X. vm_compute in X. discriminate.
  - intros X. apply F in X. vm_compute in X. discriminate.
  - apply Forall_forall. intros c C. apply F in C. clear F. unfold clockChar in C. rewrite !orb_true_iff, !bool_decide_eq_true in C.
    destruct C as [[C|C]|C].
    + unfold isdigit in C. b2p. do 4 right. lia.
    + do 4 right. revert c C. apply Forall_forall. apply (bool_decide_unpack _). vm_compute. exact I.
    + do 4 right. revert c C. apply Forall_forall. apply (bool_decide_unpack _). vm_compute. exact I.
Qed.
