(* ===== verification/LogInv.v ===== *)
(** * log: what every run keeps

    The ring is a queue of harmless bytes, the tables stay inside their arrays, no routine
    leaves its buffers; for every sequence of passes, connections, settings and lines logged
    by other tasks. *)

From stdpp Require Import gmap.
From S2P Require Import Prelude CLib Cron Config LogRing LogText LogTextProofs Log LogTask.
Import NextRun.
Open Scope Z_scope.
Open Scope spangap_scope.

(** What the module relies on: [storageGetStr] stays in the buffer it is given, ESP-IDF adds
    its time and colours to a line, the calendar's fields are in range, task names are at
    most 15 bytes (configMAX_TASK_NAME_LEN is 16). *)
Class LogEnvLaws (W : Type) `{LogEnv W} := {
  law_getStr k n d w : Zlen (storageGetStr k (S n) d w) <= Z.of_nat n;
  law_text c t m w : Zlen (esp_log_text c t m w) <= Zlen t + Zlen m + 64;
  law_time sec : tm_ok (localtime sec);
  law_usec w : 0 <= (gettimeofday w).2 < 1000000
}.

(** ** Lengths of formatted lines *)

Lemma fmtLine_bound e u lvl t m :
  Zlen (fmtLine e u lvl t m) <= 47 + 23 + 13 + Zlen (f_task e) + Zlen t + Zlen m.
Proof.
  unfold fmtLine, fmtColor, fmtStamp.
  assert (S : Zlen (if f_showTs e then if u then trunc 48 (sgr (colorAt (f_colors e) 5) ++ f_clock e ++ sgr0 ++ [32])
    else trunc 48 (f_clock e ++ [32]) else []) <= 47).
  { destruct (f_showTs e), u; first [done|apply (proj1 (Zlen_trunc 48 _))]. }
  assert (T : Zlen (if Zlen t =? 0 then [] else t ++ $ ": ") <= Zlen t + 2).
  { pose proof (Zlen_nonneg t). destruct (Zlen t =? 0); [change (Zlen (@nil Z)) with 0; lia|]. rewrite Zlen_app. change (Zlen ($ ": ")) with 2. lia. }
  destruct u; rewrite !Zlen_app; change (Zlen [lvl]) with 1; change (Zlen ($ " [")) with 2; change (Zlen ($ "] ")) with 2;
    change (Zlen [10]) with 1; change (Zlen sgr0) with 4; change (Zlen (@nil Z)) with 0.
  - pose proof (proj1 (Zlen_trunc 24 (sgr (logColor (f_colors e) lvl)))) as C. cbn [pred Z.of_nat] in C. lia.
  - lia.
Qed.

Lemma skipAnsi_length n p : (length (skipAnsi n p) <= length p)%nat.
Proof.
  revert p. induction n as [|n IH]; intros p; [by destruct p|]. destruct p as [|a [|b p]]; [done..|]. cbn [skipAnsi].
  case_match; [|done]. pose proof (length_skip_while isParam p). destruct (skip_while isParam p) as [|c q]; [cbn; lia|].
  specialize (IH (if c =? chr "m" then q else c :: q)). cbn [length] in *. destruct (c =? chr "m"); cbn [length] in *; lia.
Qed.

Lemma trimNl_length s : (length (trimNl s) <= length s)%nat.
Proof. unfold trimNl. rewrite length_rev. pose proof (length_skip_while is_nl (rev s)). rewrite length_rev in *. lia. Qed.

Lemma contMsg_length p : (length (contMsg p) <= length p)%nat.
Proof. unfold contMsg. pose proof (trimNl_length p). case_match; [rewrite length_take; lia|done]. Qed.

Lemma strchr_length s c a b : strchr s c = Some (a, b) -> (length s = length a + S (length b))%nat.
Proof. intros [-> _]%strchr_Some. by rewrite length_app. Qed.

Lemma skipStamp_length p : (length (skipStamp p) <= length p)%nat.
Proof.
  unfold skipStamp. pose proof (length_skip_while is_sp (drop 1 p)) as A. set (a := skip_while is_sp (drop 1 p)) in *.
  rewrite length_drop in A. case_match; [|lia]. etransitivity; [apply length_skip_while|].
  destruct (strchr a (chr ")")) as [[x y]|] eqn:E; [apply strchr_length in E; lia|]. rewrite length_drop. lia.
Qed.

Lemma splitTag_length a : (length (splitTag a).1 + length (splitTag a).2 <= length a)%nat.
Proof.
  unfold splitTag. destruct (strchr a (chr ":")) as [[t q]|] eqn:E; [|cbn; lia]. apply strchr_length in E.
  case_match; [|cbn; lia]. cbn [fst snd]. destruct q as [|c q]; [cbn in *; lia|]. cbn [length] in E. case_match; cbn [length]; lia.
Qed.

Lemma stripTask_length n t m : (length (stripTask n t m) <= length m)%nat.
Proof.
  revert m. induction n as [|n IH]; intros m; cbn [stripTask]; [done|]. case_match; [|done].
  etransitivity; [apply IH|]. etransitivity; [apply length_skip_while|]. rewrite length_drop. lia.
Qed.

(** A line grows by no more than the time, the colours, the task's name and the brackets. *)
Lemma logReformat_bound e src u last :
  Zlen (logReformat e src u last).1 <= 83 + Zlen (f_task e) + Zlen src.
Proof.
  pose proof (Zlen_nonneg (f_task e)) as NT. unfold logReformat. pose proof (skipAnsi_length (length src) src) as P.
  set (p := skipAnsi (length src) src) in *.
  assert (Z0 : Zlen (@nil Z) <= 83 + Zlen (f_task e) + Zlen src) by (change (Zlen (@nil Z)) with 0; pose proof (Zlen_nonneg src); lia).
  destruct (isLevel (first p) && _); cbn [negb].
  - pose proof (skipStamp_length p) as Q. pose proof (splitTag_length (skipStamp p)) as T.
    destruct (splitTag (skipStamp p)) as [t ms]. cbn [fst snd] in T. set (n := trailAnsi _ _ _ _). set (m := take (Z.to_nat n) ms).
    assert (M : (length m <= length ms)%nat) by (unfold m; rewrite length_take; lia). clearbody m.
    destruct (forallb is_white m); [exact Z0|]. set (same := negb (Zlen t =? 0) && streq t (f_task e)).
    set (m' := if same && _ then _ else _).
    assert (M' : (length m' <= length m)%nat) by (unfold m'; case_match; [apply stripTask_length|done]). clearbody m'.
    destruct (same && _ && _); [exact Z0|]. destruct (logRuleApply _ _ _ _ _) as [l|]; [|exact Z0]. cbn [fst].
    etransitivity; [apply fmtLine_bound|]. assert (Zlen (if same then [] else t) <= Zlen t) by (destruct same; [change (Zlen (@nil Z)) with 0; apply Zlen_nonneg|done]).
    unfold Zlen in *. lia.
  - unfold logContinue. destruct (Zlen _ =? 0); [exact Z0|]. destruct (logRuleApply _ _ _ _ _) as [l|]; [|exact Z0].
    cbn [fst]. etransitivity; [apply fmtLine_bound|]. pose proof (contMsg_length p). change (Zlen (@nil Z)) with 0. unfold Zlen in *. lia.
Qed.

(** ** Buffers of the inbound path and of paste-back *)

Definition short_colors (colors : list bytes) : Prop := Forall (fun c => Zlen c <= 15) colors.

Lemma colorAt_short colors i : short_colors colors -> Zlen (colorAt colors i) <= 15.
Proof.
  intros F. unfold colorAt. destruct (nth_in_or_default i colors []) as [H| ->]; [|done].
  unfold short_colors in F. rewrite Forall_forall in F. by apply F, list_elem_of_In.
Qed.

Lemma logColor_short colors c : short_colors colors -> Zlen (logColor colors c) <= 15.
Proof. intros F. unfold logColor. repeat case_match; by apply colorAt_short. Qed.

Lemma c_str_length s : (length (c_str s) <= length s)%nat.
Proof. unfold c_str. destruct (strchr s 0) as [[a b]|] eqn:E; [|done]. apply strchr_length in E. lia. Qed.

Lemma trimSp_length s : (length (trimSp s) <= length s)%nat.
Proof. unfold trimSp. rewrite length_rev. pose proof (length_skip_while is_sp (rev s)). rewrite length_rev in *. lia. Qed.

Lemma colorize_bound colors line : short_colors colors -> Zlen (colorizePreformatted colors line) <= Zlen line + 46.
Proof.
  intros F. unfold colorizePreformatted. pose proof (trimNl_length line) as T. set (l := trimNl line) in *.
  destruct (findLevelCharPos l) as [lp|].
  - pose proof (colorAt_short colors 5 F). pose proof (logColor_short colors (default 0 (l !! lp)) F).
    pose proof (c_str_length (drop lp l)). pose proof (c_str_length (trimSp (take lp l))). pose proof (trimSp_length (take lp l)).
    rewrite length_take, length_drop in *. case_match; rewrite !Zlen_app, !Zlen_sgr; change (Zlen sgr0) with 4;
      change (Zlen [10]) with 1; change (Zlen [32]) with 1; unfold Zlen in *; lia.
  - rewrite Zlen_app. change (Zlen [10]) with 1. pose proof (c_str_length l). unfold Zlen in *. lia.
Qed.

Lemma inboundAnsi_inside colors line :
  short_colors colors -> Zlen line < LOG_INBOUND_BUF -> (inboundAnsi colors line).2 = true.
Proof.
  intros F L. unfold inboundAnsi. case_match; [done|]. cbn [snd]. apply Z.ltb_lt.
  pose proof (colorize_bound colors line F). unfold LOG_INBOUND_BUF in *. lia.
Qed.

(** Every line of the data but the last is long enough to pay for its colours, or has none. *)
Fixpoint longLines (fuel : nat) (data : bytes) : bool :=
  match fuel with
  | O => true
  | S f =>
      let '(line, rest) := cutLine data in
      ((Zlen rest =? 0) || (40 <=? Zlen line) || match pasteLvlPos line with Some (S _) => false | _ => true end) &&
      longLines f rest
  end.

(** What a paste-back of a file may show: the data from its start, or from its first newline. *)
Definition longFile (got : bytes) : bool :=
  longLines (length got) got && match strchr got 10 with Some (_, b) => longLines (length b) b | None => true end.

Lemma cutLine_app data line rest : cutLine data = (line, rest) -> data = line ++ rest.
Proof.
  unfold cutLine. destruct (strchr data 10) as [[a b]|] eqn:E; intros [= <- <-]; [|by rewrite app_nil_r].
  apply strchr_Some in E as [-> _]. by rewrite <- app_assoc.
Qed.

Lemma cutLine_pos data line rest : cutLine data = (line, rest) -> data <> [] -> line <> [].
Proof.
  unfold cutLine. destruct (strchr data 10) as [[a b]|] eqn:E; intros [= <- <-]; [|done]. by destruct a.
Qed.

Lemma pasteLine_bound colors u line : short_colors colors ->
  Zlen (pasteLine colors u line) <= Zlen line + (match pasteLvlPos line with Some (S _) => 40 | _ => 0 end).
Proof.
  intros F. unfold pasteLine. destruct (pasteLvlPos line) as [[|k]|]; [lia| |lia]. destruct u; [|lia].
  rewrite !Zlen_app, Zlen_sgr, Zlen_take, Zlen_drop. change (Zlen sgr0) with 4.
  pose proof (proj2 (Zlen_trunc 24 (sgr (colorAt colors 5)))) as T. rewrite Zlen_sgr in T.
  pose proof (colorAt_short colors 5 F). pose proof (logColor_short colors (default 0 (line !! S k)) F).
  pose proof (Zlen_nonneg line). lia.
Qed.

Lemma pasteLines_nil n colors u : pasteLines n colors u [] = [].
Proof. by destruct n. Qed.

Lemma pasteLines_bound n colors u data : short_colors colors -> (length data <= n)%nat -> longLines n data = true ->
  Zlen (pasteLines n colors u data) <= 2 * Zlen data + 40.
Proof.
  intros F. revert data. induction n as [|n IH]; intros data L G; [cbn; zlia|]. cbn [pasteLines longLines] in *.
  destruct (Z.eqb_spec (Zlen data) 0); [change (Zlen (@nil Z)) with 0; lia|].
  destruct (cutLine data) as [line rest] eqn:E. pose proof (cutLine_app _ _ _ E) as ->.
  assert (line <> []) by (eapply cutLine_pos; [done|]; intros H; rewrite H in *; done).
  apply andb_true_iff in G as [G G']. rewrite length_app in L. rewrite Zlen_app.
  pose proof (pasteLine_bound colors u line F) as P. pose proof (Zlen_nonneg line). pose proof (Zlen_nonneg rest).
  assert (0 < length line)%nat by (destruct line; [done|cbn; lia]).
  rewrite !orb_true_iff, Z.eqb_eq, Z.leb_le in G. rewrite (Zlen_app line rest).
  destruct G as [[G|G]|G].
  - apply Zlen_zero in G. subst rest. rewrite pasteLines_nil. change (Zlen (@nil Z)) with 0.
    destruct (pasteLvlPos line) as [[|k]|]; lia.
  - specialize (IH rest ltac:(lia) G'). destruct (pasteLvlPos line) as [[|k]|]; lia.
  - specialize (IH rest ltac:(lia) G'). destruct (pasteLvlPos line) as [[|k]|]; [lia|done|lia].
Qed.

Lemma pasteText_fits colors u off got : short_colors colors -> longFile got = true ->
  Zlen (pasteText colors u off got) <= pasteSize got.
Proof.
  intros F [G1 G2]%andb_true_iff. unfold pasteText, pasteSize. destruct (0 <? off).
  - destruct (strchr got 10) as [[a b]|] eqn:E; [|cbn; zlia].
    pose proof (pasteLines_bound (length b) colors u b F ltac:(lia) G2). apply strchr_length in E. unfold Zlen in *. lia.
  - pose proof (pasteLines_bound (length got) colors u got F ltac:(lia) G1). lia.
Qed.

(** ** The invariant *)

Definition line_ok (c : log_slot) : Prop := Zlen (lineBuf c) < LOG_INBOUND_BUF.

(** Some read of a file gives lines too short for the block of a paste-back. *)
Definition short_read {W} `{LogEnv W} : Prop := exists f n w, longFile (fs_read f n w).1 = false.

Record log_inv {W} `{LogEnv W} (s : log_st W) : Prop := {
  i_ring : exists b d, holds (logIn s) b d /\ Forall safe_byte b;
  i_slots : length (logSlots s) = LOG_MAX_CONSUMERS;
  i_lines : Forall line_ok (logSlots s);
  i_colors : short_colors (logColors s);
  i_rules : Zlen (logRules s) <= LOG_RULES_MAX;
  i_tags : Zlen (s_tagDefaults s) <= TAG_DEFAULTS_MAX;
  i_bad : bad s = true -> short_read }.

(** The longest text that is sure to fit when it is formatted. *)
Definition TEXT_MAX : Z := 958.
Definition TASK_NAME_MAX : Z := 15.

Section Inv.
Context {W : Type} `{LAWS : LogEnvLaws W}.
Abbreviation st := (log_st W).
Implicit Types s : st.

Lemma log0_inv (w : W) : log_inv (log0 w).
Proof using.
  constructor; try done.
  - exists [], 0. split; [apply ring0_holds|constructor].
  - repeat constructor.
  - repeat constructor; done.
Qed.

(** Assignments to the rest of the state. *)
Lemma log_inv_same s s' :
  logIn s' = logIn s -> logSlots s' = logSlots s -> logColors s' = logColors s -> logRules s' = logRules s ->
  s_tagDefaults s' = s_tagDefaults s -> bad s' = bad s -> log_inv s -> log_inv s'.
Proof using. intros E1 E2 E3 E4 E5 E6 []. constructor; by rewrite ?E1, ?E2, ?E3, ?E4, ?E5, ?E6. Qed.

Lemma inv_world f s : log_inv s -> log_inv (on_world f s).
Proof using. by apply log_inv_same. Qed.
Lemma inv_with_world s (w : W) : log_inv s -> log_inv (with_world s w).
Proof using. by apply log_inv_same. Qed.
Lemma inv_file s f : log_inv s -> log_inv (with_file s f).
Proof using. by apply log_inv_same. Qed.
Lemma inv_gate s g : log_inv s -> log_inv (with_gate s g).
Proof using. by apply log_inv_same. Qed.
Lemma inv_last s c : log_inv s -> log_inv (with_last s c).
Proof using. by apply log_inv_same. Qed.
Lemma inv_with_init s a b c : log_inv s -> log_inv (with_init s a b c).
Proof using. by apply log_inv_same. Qed.
Lemma inv_levels s l c : Zlen l <= TAG_DEFAULTS_MAX -> log_inv s -> log_inv (with_levels s l c).
Proof using. intros L []. by constructor. Qed.
Lemma inv_colors s c : short_colors c -> log_inv s -> log_inv (with_colors s c).
Proof using. intros L []. by constructor. Qed.

(** Writes to the ring. *)
Lemma inv_ring_write s data :
  Forall safe_byte data -> log_inv s -> log_inv (with_ring s (logRingWrite data (logIn s)).2).
Proof using.
  intros D [(b & d & Hb & S) ? ? ? ? ? ?]. constructor; try done. eexists _, _. split; [by apply logRingWrite_holds|].
  apply Forall_app. split; [done|]. unfold fits. by apply Forall_take.
Qed.

Lemma inv_ring_read s n : 0 < n -> log_inv s -> log_inv (with_ring s (logRingRead n (logIn s)).2).
Proof using.
  intros N [(b & d & Hb & S) ? ? ? ? ? ?]. constructor; try done. eexists _, _. split; [by apply (logRingRead_holds n _ b d)|].
  by apply Forall_drop.
Qed.

Lemma scrub_all l : Forall safe_byte (map scrubByte l).
Proof using. induction l; constructor; auto using scrub_safe. Qed.

Lemma formatted_inside text : Zlen text <= Z.of_nat LOG_FMT_MAX -> (formattedBytes text).2 = true.
Proof using.
  intros L. unfold formattedBytes. case_match; [done|]. cbn [snd]. apply Nat.leb_le. unfold Zlen in L. lia.
Qed.

Lemma inv_vprintf task text s :
  Zlen task <= TASK_NAME_MAX -> Zlen text <= TEXT_MAX -> log_inv s -> log_inv (logVprintf task text s).2.
Proof using.
  intros T X I. unfold logVprintf. do 4 (case_match; [done || by apply inv_gate|]).
  pose proof (logReformat_bound (fmtEnv task s) (c_str (trunc LOG_RAW_MAX text)) true (lastLevel s)) as B.
  destruct (logReformat _ _ _ _) as [line last]. cbn [fst] in B.
  assert (L : Zlen line <= Z.of_nat LOG_FMT_MAX).
  { pose proof (c_str_length (trunc LOG_RAW_MAX text)) as C. pose proof (proj2 (Zlen_trunc LOG_RAW_MAX text)).
    change (Z.of_nat LOG_FMT_MAX) with 1056. unfold TASK_NAME_MAX, TEXT_MAX in *. change (f_task (fmtEnv task s)) with task in B.
    unfold Zlen in *. lia. }
  case_match; [by apply inv_last|]. pose proof (formatted_inside line L) as F.
  destruct (formattedBytes line) as [fm inside]. cbn [snd] in F. subst inside. cbn [snd].
  repeat first [case_match | apply inv_world | by apply inv_ring_write; [apply scrub_all|apply inv_last]].
Qed.

Lemma inv_espLog c task msg s :
  Zlen task <= TASK_NAME_MAX -> Zlen msg <= TEXT_MAX - 79 -> log_inv s -> log_inv (espLog c task msg s).
Proof using LAWS.
  intros T M I. unfold espLog. case_match; [|done]. case_match; [|by apply inv_world].
  apply inv_vprintf; [done| |done]. pose proof (law_text c task msg (world s)). unfold TASK_NAME_MAX in *. lia.
Qed.

Lemma udec_length v : Zlen (udec v) <= 20.
Proof using. unfold Zlen. pose proof (length_udec_aux 20 v). unfold udec. lia. Qed.

Lemma sdec_length v : Zlen (sdec v) <= 21.
Proof using. unfold sdec. case_match; [rewrite Zlen_cons|]; pose proof (udec_length (- v)); pose proof (udec_length v); lia. Qed.

Lemma inv_loadColors s : log_inv s -> log_inv (logLoadColors s).
Proof using LAWS.
  apply inv_colors. apply Forall_forall. intros c C. apply list_elem_of_In, in_map_iff in C as (kd & <- & _).
  apply (law_getStr kd.1 15).
Qed.

(** *** The log file *)

Lemma inv_fileSend data s : log_inv s -> log_inv (fileSend data s).
Proof using. intros I. by apply inv_file, inv_with_world. Qed.

Lemma inv_fileMsg msg s : log_inv s -> log_inv (logFileMsg msg s).
Proof using. intros I. unfold logFileMsg. case_match; [done|by apply inv_fileSend]. Qed.

Lemma inv_fileClose s : log_inv s -> log_inv (logFileClose s).
Proof using. intros I. unfold logFileClose. case_match; [done|]. by apply inv_file, inv_with_world, inv_fileMsg. Qed.

Lemma inv_fileOpen path s : log_inv s -> log_inv (logFileOpen path s).
Proof using LAWS.
  intros I. unfold logFileOpen. apply inv_fileClose in I. case_match; [done|]. case_match.
  - case_match; [done|]. apply inv_file. by apply inv_espLog.
  - destruct (fs_open_stream _ _) as [h w]. case_match; [by apply inv_with_world|].
    by apply inv_fileMsg, inv_file, inv_with_world.
Qed.

Lemma inv_fileLines n data s : log_inv s -> log_inv (fileLines n data s).
Proof using.
  revert data s. induction n as [|n IH]; intros data s I; [done|]. cbn [fileLines]. case_match; [done|].
  destruct (cutLine data) as [l r]. apply IH. case_match; [by apply inv_fileSend|done].
Qed.

Lemma inv_fileWrite data s : log_inv s -> log_inv (logFileWrite data s).
Proof using. intros I. unfold logFileWrite. case_match; [done|by apply inv_fileLines]. Qed.

Lemma inv_fileFlush s : log_inv s -> log_inv (logFileFlush s).
Proof using. intros I. unfold logFileFlush. repeat (case_match; [done|]). by apply inv_world, inv_file. Qed.

(** *** Consumers *)

Lemma inv_updSlot i f s :
  (forall c, logSlots s !! i = Some c -> line_ok c -> line_ok (f c)) -> log_inv s -> log_inv (updSlot s i f).
Proof using.
  intros F [R S L C U T B]. constructor; try done.
  - cbn. by rewrite length_alter.
  - cbn. rewrite Forall_lookup in L |- *. intros j c Hc. destruct (decide (j = i)) as [->|N].
    + rewrite list_lookup_alter_eq in Hc. apply fmap_Some in Hc as (x & X & ->). apply F; [done|by eapply L].
    + rewrite list_lookup_alter_ne in Hc by done. by eapply L.
Qed.

Lemma inv_allocSlot h s : log_inv s -> log_inv (logAllocSlot h s).2.
Proof using. intros I. unfold logAllocSlot. case_match; [|done]. by apply inv_updSlot. Qed.

Lemma inv_tcp h d s : log_inv s -> log_inv (logTcpConnect h d s).2.
Proof using.
  intros I. unfold logTcpConnect. apply (inv_allocSlot h) in I. destruct (logAllocSlot h s) as [[i|] s']; [|done].
  by apply inv_updSlot.
Qed.

Lemma inv_dc h d s : log_inv s -> log_inv (logDcConnect h d s).2.
Proof using.
  intros I. unfold logDcConnect. apply (inv_allocSlot h) in I. destruct (logAllocSlot h s) as [[i|] s']; [|done].
  by apply inv_updSlot.
Qed.

Lemma inv_disconnect r s : log_inv s -> log_inv (logOnDisconnect r s).
Proof using. intros I. unfold logOnDisconnect. case_match; [|done]. by apply inv_updSlot. Qed.

(** The test a routine starts with. *)
Ltac branch := match goal with |- log_inv (if ?b then _ else _) => destruct b end.

Lemma inv_paste h n u s : log_inv s -> log_inv (logPasteBack h n u s).
Proof using.
  intros I. unfold logPasteBack. cbv zeta. do 2 (branch; [done|]).
  match goal with |- context [fs_open _ (world ?x)] => set (s1 := x) end.
  assert (I1 : log_inv s1) by (unfold s1; branch; [by apply inv_world|done]). clearbody s1.
  destruct (fs_open _ _) as [f w]. branch; [by apply inv_with_world|]. branch; [by do 2 apply inv_with_world|].
  match goal with |- context [fs_read ?f ?n ?w] => assert (G : longFile (fs_read f n w).1 = false -> short_read) by (by exists f, n, w);
    destruct (fs_read f n w) as [got w'] end.
  cbn [fst] in G. do 2 (branch; [by do 2 apply inv_with_world|]). apply inv_with_world. destruct (longFile got) eqn:L.
  - rewrite (proj2 (Z.ltb_ge _ _)) by (apply pasteText_fits; [apply (i_colors _ I1)|done]). by apply inv_with_world.
  - branch; [|by apply inv_with_world]. destruct I1. constructor; try done. intros _. by apply G.
Qed.

Lemma inv_pasteSlot s i : log_inv s -> log_inv (pasteSlot s i).
Proof using. intros I. unfold pasteSlot. case_match; [|done]. apply inv_paste. by apply inv_updSlot. Qed.

(** *** Inbound lines *)

Lemma inv_useAnsi line send s :
  Zlen line < LOG_INBOUND_BUF -> log_inv s -> log_inv (useInboundAnsi line send s).
Proof using.
  intros L I. unfold useInboundAnsi. pose proof (inboundAnsi_inside (logColors s) line (i_colors _ I) L) as E.
  destruct (inboundAnsi _ _) as [t inside]. cbn [snd] in E. subst inside. case_match; [by apply inv_world|done].
Qed.

Lemma inv_inboundTo src line s i : Zlen line < LOG_INBOUND_BUF -> log_inv s -> log_inv (inboundTo src line s i).
Proof using.
  intros L I. unfold inboundTo. do 2 (case_match; [done|]). case_match; [by apply inv_useAnsi|by apply inv_world].
Qed.

Lemma inv_lineOut src line s : Zlen line < LOG_INBOUND_BUF -> log_inv s -> log_inv (logInboundLineOut src line s).
Proof using LAWS.
  intros L I. unfold logInboundLineOut. case_match; [done|].
  match goal with |- context [dbg ?t ?m s] => assert (I1 : log_inv (dbg t m s)); [|set (s1 := dbg t m s) in *] end.
  { apply inv_espLog; [done| |done]. rewrite !Zlen_app. pose proof (sdec_length (Z.of_nat src)). pose proof (udec_length (Zlen line)).
    change (Zlen ($ "inbound from slot ")) with 18. change (Zlen ($ " (")) with 2. change (Zlen ($ " bytes)")) with 7.
    change (Zlen [10]) with 1. unfold TEXT_MAX. lia. }
  clearbody s1. match goal with |- context [foldl _ ?x _] => assert (I2 : log_inv x) by (case_match; [by apply inv_fileWrite|done]); set (s2 := x) in * end.
  clearbody s2. assert (I3 : log_inv (foldl (inboundTo src line) s2 slotIds)) by (apply foldl_inv; [intros; by apply inv_inboundTo|done]).
  case_match; [by apply inv_useAnsi|done].
Qed.

Lemma slotAt_ok s i : log_inv s -> line_ok (slotAt s i).
Proof using.
  intros I. unfold slotAt. destruct (logSlots s !! i) as [c|] eqn:E; [|done]. cbn.
  pose proof (i_lines _ I) as F. rewrite Forall_forall in F. apply F. by eapply list_elem_of_lookup_2.
Qed.

Lemma inv_inboundByte slot s c : log_inv s -> log_inv (inboundByte slot s c).
Proof using LAWS.
  intros I. pose proof (slotAt_ok s slot I) as L. unfold inboundByte. case_match; [done|]. case_match.
  - apply inv_updSlot; [done|]. by apply inv_lineOut.
  - case_match eqn:E.
    + apply Z.ltb_lt in E. apply inv_updSlot; [|done]. intros x X _. unfold slotAt in E. rewrite X in E.
      unfold line_ok. cbn [lineBuf setLine]. rewrite Zlen_app. exact E.
    + case_match; [done|]. apply inv_updSlot; [|done]. intros x _ Hx. unfold line_ok in *. cbn [lineBuf setLine].
      destruct (Z.leb_spec (Zlen CUT_MARK) (Zlen (lineBuf x))) as [Q|Q]; [|done]. rewrite Zlen_app, Zlen_take. unfold Zlen in *. lia.
Qed.

Lemma inv_drainInbound s i : log_inv s -> log_inv (logSlotDrainInbound s i).
Proof using LAWS.
  intros I. unfold logSlotDrainInbound. case_match; [done|]. destruct (itsRecv _ _ _) as [tmp w].
  apply foldl_inv; [intros; by apply inv_inboundByte|by apply inv_with_world].
Qed.

(** *** The task *)

Lemma inv_openNamed name s : log_inv s -> log_inv (openNamed name s).
Proof using LAWS. intros I. unfold openNamed. apply inv_fileOpen. branch; [by apply inv_world|done]. Qed.

Lemma inv_fanOut hc hf buf s : log_inv s -> log_inv (fanOut hc hf buf s).
Proof using.
  intros I. unfold fanOut. assert (I1 : log_inv (if hf then logFileWrite (stripAnsi buf) s else s))
    by (branch; [by apply inv_fileWrite|done]).
  branch; [|done]. apply foldl_inv; [|done]. intros s' i _ I'. unfold fanTo. branch; [done|by apply inv_world].
Qed.

Lemma inv_drainRing n hc hf s : log_inv s -> log_inv (drainRing n hc hf s).
Proof using.
  revert s. induction n as [|n IH]; intros s I; [done|]. cbn [drainRing].
  pose proof (inv_ring_read s DRAIN_CHUNK ltac:(done) I) as R. destruct (logRingRead DRAIN_CHUNK (logIn s)) as [buf r].
  branch; [done|]. by apply IH, inv_fanOut.
Qed.

Definition printable (c : Z) : Prop := c = 10 \/ (32 <= c /\ c <> 127).

Lemma udec_printable v : 0 <= v -> Forall printable (udec v).
Proof using.
  intros V. eapply Forall_impl; [by apply udec_digits|]. intros c C. unfold isdigit in C. b2p. right. lia.
Qed.

Lemma mark_printable d : 0 <= d ->
  Forall printable ([10] ++ ($ "W [log] ring overflow: ") ++ udec d ++ ($ " bytes dropped") ++ [10]).
Proof using.
  intros D. rewrite !Forall_app. split_and!; try (by apply udec_printable);
    (eapply (Forall_impl (fun c => c = 10 \/ 32 <= c < 127)); [apply (bool_decide_unpack _); vm_compute; exact I|]);
    intros c C; unfold printable; lia.
Qed.

Lemma inv_overflowMark s : log_inv s -> log_inv (overflowMark s).
Proof using.
  intros I. unfold overflowMark. apply inv_ring_write.
  - destruct (i_ring _ I) as (b & d & Hb & _). pose proof (holds_bound _ _ _ Hb) as (_ & D & <-).
    unfold trunc. apply Forall_take. eapply Forall_impl; [apply mark_printable; lia|].
    intros c [->|[? ?]]; unfold safe_byte; tauto.
  - destruct I as [(b & d & Hb & S) ? ? ? ? ? ?]. constructor; try done. exists b, 0. split; [by eapply holds_claim|done].
Qed.

Lemma inv_suppressedNote s : log_inv s -> log_inv (suppressedNote s).
Proof using LAWS.
  intros I. unfold suppressedNote. apply inv_espLog; [done| |by apply inv_gate]. rewrite !Zlen_app.
  pose proof (udec_length (logSuppressed (gate s))). change (Zlen ($ " lines not recorded: nothing was listening")) with 42.
  change (Zlen [10]) with 1. unfold TEXT_MAX. lia.
Qed.

(** Other tasks' names and lines are of the size the buffers are made for. *)
Definition event_ok (e : event (W := W)) : Prop :=
  match e with EvLog task text => Zlen task <= TASK_NAME_MAX /\ Zlen text <= TEXT_MAX | _ => True end.

Lemma inv_log_event s (e : event (W := W)) : event_ok e -> log_inv s -> log_inv (deliver s e).
Proof using LAWS.
  intros E I. destruct e; cbn [deliver] in *.
  - by apply inv_tcp.
  - by apply inv_dc.
  - by apply inv_disconnect.
  - by apply inv_loadColors.
  - unfold onFileName. branch; [by apply inv_fileClose|by apply inv_openNamed, inv_fileClose].
  - by apply inv_file.
  - by apply inv_file.
  - destruct E. by apply inv_vprintf.
  - by apply inv_world.
Qed.

Lemma inv_deliver_all (evs : list (event (W := W))) s : Forall event_ok evs -> log_inv s -> log_inv (foldl deliver s evs).
Proof using LAWS. intros F. revert s. induction F as [|e evs E _ IH]; intros s I; [done|]. by apply IH, inv_log_event. Qed.

Lemma inv_pass (evs : list (event (W := W))) s : Forall event_ok evs -> log_inv s -> log_inv (logPass evs s).
Proof using LAWS.
  intros F I. unfold logPass. cbv zeta. apply inv_fileFlush.
  apply (inv_world pmPollUsb), (inv_deliver_all evs) in I; [|done].
  apply (foldl_inv log_inv pasteSlot slotIds) in I; [|intros; by apply inv_pasteSlot].
  set (s1 := foldl pasteSlot _ slotIds) in *. clearbody s1.
  match goal with |- context [with_gate s1 ?g] => assert (I2 : log_inv (with_gate s1 g)) by (by apply inv_gate); set (s2 := with_gate s1 g) in * end.
  clearbody s2. set (hc := 0 <? itsServerActive (world s1)). set (hf := 0 <=? logFile (file s1)).
  match goal with |- context [drainRing drainFuel hc hf ?x] =>
    assert (I3 : log_inv x) by (branch; [apply foldl_inv; [intros; by apply inv_drainInbound|done]|done]); set (s3 := x) in * end.
  clearbody s3.
  match goal with |- context [overflowMark ?x] => assert (I4 : log_inv x) by (branch; [by apply inv_drainRing|done]); set (s4 := x) in * end.
  clearbody s4.
  match goal with |- context [suppressedNote ?x] => assert (I5 : log_inv x) by (branch; [by apply inv_overflowMark|done]); set (s5 := x) in * end.
  branch; [by apply inv_suppressedNote|done].
Qed.

Lemma inv_taskStart s : log_inv s -> log_inv (logTaskStart s).
Proof using LAWS.
  intros I. unfold logTaskStart. cbv zeta.
  assert (I1 : log_inv (with_slots s (map (setHandle (-1)) (logSlots s)))).
  { destruct I as [R S L C U T B]. constructor; try done; cbn; [by rewrite length_map|].
    apply Forall_map. eapply Forall_impl; [exact L|]. done. }
  branch; [|apply inv_openNamed]; by apply inv_file, inv_file, inv_loadColors.
Qed.

Lemma inv_logInit s : log_inv s -> log_inv (logInit s).
Proof using LAWS. intros I. unfold logInit. branch; [done|]. by apply inv_taskStart, inv_with_init, inv_with_init, inv_world, inv_world, inv_with_init. Qed.

(** *** Calls by other tasks *)

Lemma inv_rule task pre lvl s : Zlen task <= TASK_NAME_MAX -> Zlen pre <= 800 -> log_inv s -> log_inv (logRule task pre lvl s).
Proof using LAWS.
  intros T P I. unfold logRule. cbv zeta. branch; [done|]. branch.
  - apply inv_espLog; [done| |done]. rewrite !Zlen_app. change (Zlen ($ "log: rule '")) with 11.
    change (Zlen ($ "' has no level '")) with 16. change (Zlen [upper lvl]) with 1. change (Zlen ($ "'")) with 1. change (Zlen [10]) with 1.
    unfold TEXT_MAX. lia.
  - match goal with |- log_inv (if ?b then _ else _) => destruct b eqn:E end.
    + apply inv_espLog; [done| |done]. rewrite !Zlen_app. change (Zlen ($ "log: rule list full, '")) with 22.
      change (Zlen ($ "' left as-is")) with 12. change (Zlen [10]) with 1. unfold TEXT_MAX. lia.
    + apply Z.leb_gt in E. destruct I. constructor; try done. cbn [logRules with_rules]. rewrite Zlen_app. change (Zlen [_]) with 1. lia.
Qed.

Lemma tagDefaultSet_length l t lvl i l' :
  0 <= i -> i + Zlen l <= TAG_DEFAULTS_MAX -> tagDefaultSet l t lvl i = Some l' -> i + Zlen l' <= TAG_DEFAULTS_MAX.
Proof using.
  revert i l'. induction l as [|d l IH]; intros i l' P B; cbn [tagDefaultSet].
  - destruct (Z.leb_spec TAG_DEFAULTS_MAX i); [done|]. intros [= <-]. change (Zlen [_]) with 1. lia.
  - rewrite Zlen_cons in B. case_match; [intros [= <-]; rewrite Zlen_cons; lia|]. intros (x & X & ->)%fmap_Some.
    apply IH in X; [|lia..]. rewrite Zlen_cons. lia.
Qed.

Lemma inv_tagDefault t lvl s : log_inv s -> log_inv (logTagDefault t lvl s).
Proof using.
  intros I. unfold logTagDefault. cbv zeta. destruct (tagDefaultSet _ _ _ _) as [l|] eqn:E; [|done]. apply inv_world, inv_levels; [|done].
  apply tagDefaultSet_length in E; [lia|lia|]. apply (i_tags _ I).
Qed.

Lemma inv_applyLevels s : log_inv s -> log_inv (logApplyLevels s).
Proof using.
  intros I. unfold logApplyLevels. cbv zeta. apply inv_with_world, inv_levels; [apply (i_tags _ I)|].
  by apply inv_with_world, inv_world.
Qed.

Lemma inv_cmdLog a s : log_inv s -> log_inv (cmdLog a s).
Proof using.
  intros I. unfold cmdLog. do 5 (branch; [by apply inv_world|]). destruct (firstWord a) as [w r]. cbv zeta.
  branch; [by apply inv_applyLevels, inv_world|]. branch; [by apply inv_world|by apply inv_applyLevels, inv_world].
Qed.

(** What can happen to the module once [logInit] has run. *)
Inductive action :=
| APass (evs : list (event (W := W)))
| ALog (task text : bytes)
| ARule (task pre : bytes) (lvl : Z)
| ATagDefault (t lvl : bytes)
| AApplyLevels
| ACmdLog (a : bytes)
| ACmdFile (a : bytes)
| ACmdRotate (a : bytes).

Definition act (s : st) (a : action) : st :=
  match a with
  | APass evs => logPass evs s
  | ALog task text => (logVprintf task text s).2
  | ARule task pre lvl => logRule task pre lvl s
  | ATagDefault t lvl => logTagDefault t lvl s
  | AApplyLevels => logApplyLevels s
  | ACmdLog a => cmdLog a s
  | ACmdFile a => on_world (cmdLogfile a) s
  | ACmdRotate a => on_world (cmdLogrotate a) s
  end.

Definition action_ok (a : action) : Prop :=
  match a with
  | APass evs => Forall event_ok evs
  | ALog task text => Zlen task <= TASK_NAME_MAX /\ Zlen text <= TEXT_MAX
  | ARule task pre _ => Zlen task <= TASK_NAME_MAX /\ Zlen pre <= 800
  | _ => True
  end.

Lemma inv_act s a : action_ok a -> log_inv s -> log_inv (act s a).
Proof using LAWS.
  destruct a; cbn [act action_ok]; intros A I.
  - by apply inv_pass.
  - destruct A. by apply inv_vprintf.
  - destruct A. by apply inv_rule.
  - by apply inv_tagDefault.
  - by apply inv_applyLevels.
  - by apply inv_cmdLog.
  - by apply inv_world.
  - by apply inv_world.
Qed.


End Inv.
