(* ===== verification/LogFlow.v ===== *)
(** * log: where lines go

    From the hook to the ring, from the ring to the consumers and the file, from a consumer's
    stream to lines, from the file back to a new consumer. *)

From stdpp Require Import gmap.
From S2P Require Import Prelude CLib Cron Config LogRing LogText LogTextProofs Log LogTask LogInv.
Import NextRun.
Open Scope Z_scope.
Open Scope spangap_scope.

(** ** A line on its way into the ring *)

Section Line.
Context {W : Type} `{LAWS : LogEnvLaws W}.
Abbreviation st := (log_st W).
Implicit Types s : st.

Lemma fmtEnv_ok task s : Forall color_ok (logColors s) -> ESC ∉ task ->
  fmt_ok (fmtEnv task s) /\ noLevelSp (f_clock (fmtEnv task s)) = true /\ (10 ∉ f_clock (fmtEnv task s)).
Proof using LAWS.
  intros C T. unfold fmt_ok. cbn [f_colors f_clock f_task fmtEnv]. unfold wallClock. pose proof (law_usec (world s)) as U.
  destruct (gettimeofday (world s)) as [sec usec].
  destruct (fmtWallClock_facts sec usec (law_time sec) U) as (N & L & F).
  destruct (clockChar_plain _ F) as (E1 & E2 & _). split_and!; try done. unfold Zlen. rewrite L. lia.
Qed.

(** The gates of [logVprintf] are open. *)
Definition listening s : Prop :=
  logInited s = true /\ logNowhereToGo s = false /\ heap_alloc (Z.of_nat (LOG_RAW_MAX + LOG_FMT_MAX)) (world s) = true.

(** What becomes of a text that is formatted to [line]. *)
Lemma logVprintf_line task text s line last b d :
  listening s -> 0 < Zlen text ->
  logReformat (fmtEnv task s) (c_str (trunc LOG_RAW_MAX text)) true (lastLevel s) = (line, last) ->
  0 < Zlen line < Z.of_nat LOG_FMT_MAX -> holds (logIn s) b d ->
  let s' := (logVprintf task text s).2 in
  (logVprintf task text s).1 = Zlen text /\ bad s' = bad s /\ lastLevel s' = last /\
  holds (logIn s') (b ++ fits b (map scrubByte line)) (wrap32 (d + (Zlen line - Zlen (fits b (map scrubByte line))))).
Proof using.
  intros (I & N & A) T R L B. unfold logVprintf. rewrite I, N, A. cbn [negb]. rewrite (proj2 (Z.eqb_neq (Zlen text) 0)) by lia.
  rewrite R, (proj2 (Z.eqb_neq (Zlen line) 0)) by lia.
  assert (F : formattedBytes line = (line, true)).
  { unfold formattedBytes. rewrite (proj2 (Nat.ltb_lt _ _)); [done|]. unfold Zlen in L. lia. }
  rewrite F. cbv zeta. pose proof (logRingWrite_holds (map scrubByte line) (logIn s) b d B) as H'. rewrite Zlen_map in H'.
  cbn [snd fst]. repeat case_match; done.
Qed.

(** C29: An ESP-IDF line of level [lvl] that no rule touches goes into the ring, as far as it
    fits, as "time level [task] tag: message" in colour, the tag left out when it is the
    task's name, control bytes dotted; without its colours it is the same line formatted
    plainly, and the level the file's filter reads off it is [lvl]. *)
Theorem log_line_recorded pre lvl ts tg msg post task s b d :
  let text := idfLine pre lvl ts tg msg post in
  let e := fmtEnv task s in
  let shown := if streq tg task then [] else tg in
  listening s -> Forall color_ok (logColors s) -> ESC ∉ task -> ESC ∉ tg ->
  idf_ok pre lvl ts tg msg post -> 0 ∉ text -> Zlen text < Z.of_nat LOG_RAW_MAX ->
  (tg = task -> has_prefix (task ++ [chr ":"]) msg = false) ->
  logRuleApply (logRules s) (fun t => esp_log_level_get t (world s)) msg (Some tg) lvl = Some lvl ->
  Zlen tg + Zlen msg + Zlen task <= 970 -> holds (logIn s) b d ->
  let s' := (logVprintf task text s).2 in
  let out := map scrubByte (fmtLine e true lvl shown msg) in
  (logVprintf task text s).1 = Zlen text /\ bad s' = bad s /\
  holds (logIn s') (b ++ fits b out) (wrap32 (d + (Zlen out - Zlen (fits b out)))) /\
  stripAnsi out = map scrubByte (fmtLine e false lvl shown msg) /\
  lineLevel (stripAnsi out) = lvl.
Proof using LAWS.
  intros text e shown LS C ET EG OK NZ LT RP RU SZ B. cbv zeta.
  destruct (fmtEnv_ok task s C ET) as (FO & NL & CL). fold e in FO, NL, CL.
  assert (SRC : c_str (trunc LOG_RAW_MAX text) = text).
  { rewrite trunc_id by (unfold Zlen in LT; lia). by apply c_str_id. }
  assert (R : logReformat e (c_str (trunc LOG_RAW_MAX text)) true (lastLevel s) = (fmtLine e true lvl shown msg, lvl)).
  { rewrite SRC. unfold text. rewrite (logReformat_idf _ _ _ _ _ _ OK); [|unfold text in LT; change (Z.of_nat LOG_RAW_MAX) with 1024 in LT; lia|exact RP].
    unfold e at 1 2. cbn [f_rules f_get fmtEnv]. by rewrite RU. }
  assert (LE : lvl <> ESC) by (pose proof (isLevel_values _ (ok_lvl _ _ _ _ _ _ OK)); unfold ESC; lia).
  assert (SH : ESC ∉ shown) by (unfold shown; case_match; [apply not_elem_of_nil|done]).
  assert (LB : 0 < Zlen (fmtLine e true lvl shown msg) < Z.of_nat LOG_FMT_MAX).
  { split.
    - unfold fmtLine. destruct (fmtColor e true lvl). rewrite !Zlen_app. change (Zlen [lvl]) with 1. zlen_facts. lia.
    - pose proof (fmtLine_bound e true lvl shown msg) as X. change (f_task e) with task in X. change (Z.of_nat LOG_FMT_MAX) with 1056.
      assert (Zlen shown <= Zlen tg) by (unfold shown; case_match; [change (Zlen (@nil Z)) with 0; apply Zlen_nonneg|done]). lia. }
  assert (LP : 0 < Zlen text) by (unfold text, idfLine; rewrite !Zlen_app; change (Zlen [lvl]) with 1; zlen_facts; lia).
  destruct (logVprintf_line task text s _ _ b d LS LP R LB B) as (V1 & V2 & _ & V3). rewrite Zlen_map.
  assert (ST : stripAnsi (map scrubByte (fmtLine e true lvl shown msg)) = map scrubByte (fmtLine e false lvl shown msg)).
  { unfold stripAnsi. rewrite strip_scrub. f_equal. apply strip_fmtLine; try done. apply (ok_msg_esc _ _ _ _ _ _ OK). }
  split_and!; try done. rewrite ST. unfold lineLevel. rewrite (lineLevel_scrub None).
  apply lineLevel_fmtLine; try done. apply (ok_lvl _ _ _ _ _ _ OK).
Qed.

End Line.

(** ** What is sent

    [offers]: every call of [itsSend] in order, with its handle and its data (a call may take
    less, when the peer's buffer is full). Other calls send nothing; no call made while
    lines are distributed changes who is connected. *)
Class LogTrace (W : Type) `{LogEnv W} := {
  offers : W -> list (Z * bytes);
  offers_send h d w : offers (itsSend h d w).2 = offers w ++ [(h, d)];
  offers_notify w : offers (xTaskNotifyGive w) = offers w;
  offers_emit d w : offers (consoleEmitRaw d w) = offers w;
  offers_lock w : offers (consoleWriteLock w) = offers w;
  offers_unlock w : offers (consoleWriteUnlock w) = offers w;
  offers_vprintf d w : offers (esp_vprintf d w) = offers w;
  conn_send h h' d w : itsConnected h (itsSend h' d w).2 = itsConnected h w;
  conn_notify h w : itsConnected h (xTaskNotifyGive w) = itsConnected h w;
  conn_emit h d w : itsConnected h (consoleEmitRaw d w) = itsConnected h w;
  conn_lock h w : itsConnected h (consoleWriteLock w) = itsConnected h w;
  conn_unlock h w : itsConnected h (consoleWriteUnlock w) = itsConnected h w;
  conn_vprintf h d w : itsConnected h (esp_vprintf d w) = itsConnected h w
}.
Create Rewrite HintDb logtrace.
#[export] Hint Rewrite @offers_send @offers_notify @offers_emit @offers_lock @offers_unlock @offers_vprintf
  @conn_send @conn_notify @conn_emit @conn_lock @conn_unlock @conn_vprintf : logtrace.

Section Flow.
Context {W : Type} `{TR : LogTrace W}.
Abbreviation st := (log_st W).
Implicit Types s : st.

(** Who is connected, and how they want their lines. *)
Definition peers s : list (Z * Z) := map (fun c => (itsHandle c, ansi c)) (logSlots s).

(** [s'] comes from [s] by sending [l]: same consumers, colours and file. *)
Definition sends s (l : list (Z * bytes)) s' : Prop :=
  offers (world s') = offers (world s) ++ l /\
  (forall h, itsConnected h (world s') = itsConnected h (world s)) /\
  peers s' = peers s /\ logColors s' = logColors s /\ logFile (file s') = logFile (file s) /\
  logFileLevelMax (file s') = logFileLevelMax (file s).

Lemma sends_refl s : sends s [] s.
Proof using. unfold sends. by rewrite app_nil_r. Qed.

Lemma sends_trans s l s' l' s'' : sends s l s' -> sends s' l' s'' -> sends s (l ++ l') s''.
Proof using.
  intros (A1 & A2 & A3 & A4 & A5 & A6) (B1 & B2 & B3 & B4 & B5 & B6). unfold sends.
  rewrite B1, A1, <- app_assoc, B3, B4, B5, B6. split_and!; try done. intros h. by rewrite B2.
Qed.

Lemma sends_send h d s : sends s [(h, d)] (on_world (fun w => (itsSend h d w).2) s).
Proof using. unfold sends. cbn. split_and!; try done; [apply offers_send|intros; apply conn_send]. Qed.

Lemma sends_quiet f s :
  offers (f (world s)) = offers (world s) -> (forall h, itsConnected h (f (world s)) = itsConnected h (world s)) ->
  sends s [] (on_world f s).
Proof using. intros A B. unfold sends. cbn. by rewrite app_nil_r. Qed.

Lemma sends_same s s' :
  world s' = world s -> logSlots s' = logSlots s -> logColors s' = logColors s -> file s' = file s -> sends s [] s'.
Proof using. intros A B C D. unfold sends, peers. rewrite A, B, C, D, app_nil_r. done. Qed.

Lemma sends_if (b : bool) f s s1 :
  offers (f (world s1)) = offers (world s1) -> (forall h, itsConnected h (f (world s1)) = itsConnected h (world s1)) ->
  sends s [] s1 -> sends s [] (if b then on_world f s1 else s1).
Proof using. intros A B S. destruct b; [|done]. apply (sends_trans s [] s1 []); [done|]. by apply sends_quiet. Qed.

Lemma sends_vprintf task text s : sends s [] (logVprintf task text s).2.
Proof using.
  unfold logVprintf. do 4 (case_match; [by apply sends_same|]). destruct (logReformat _ _ _ _) as [line last].
  case_match; [by apply sends_same|]. destruct (formattedBytes line) as [fm inside]. cbv zeta. cbn [snd].
  do 2 (apply sends_if; [by autorewrite with logtrace|intros; by autorewrite with logtrace|]).
  destruct inside; by apply sends_same.
Qed.

Lemma sends_espLog c task msg s : sends s [] (espLog c task msg s).
Proof using.
  unfold espLog. case_match; [|apply sends_refl]. case_match; [apply sends_vprintf|].
  apply sends_quiet; intros; autorewrite with logtrace; done.
Qed.

(** *** The file *)

(** The lines of a piece of text. *)
Fixpoint linesOf (fuel : nat) (data : bytes) : list bytes :=
  match fuel with
  | O => []
  | S f => if Zlen data =? 0 then [] else let '(line, rest) := cutLine data in line :: linesOf f rest
  end.

Lemma linesOf_concat n data : (length data <= n)%nat -> concat (linesOf n data) = data.
Proof using.
  revert data. induction n as [|n IH]; intros data L; [by destruct data; [|cbn in L; lia]|]. cbn [linesOf].
  destruct (Z.eqb_spec (Zlen data) 0) as [E|E]; [by apply Zlen_zero in E as ->|].
  destruct (cutLine data) as [line rest] eqn:C. pose proof (cutLine_app _ _ _ C) as ->.
  assert (line <> []) by (eapply cutLine_pos; [done|]; intros X; rewrite X in *; done).
  cbn [concat]. rewrite IH; [done|]. rewrite length_app in L. destruct line; [done|]. cbn in L. lia.
Qed.

(** What the filter lets through. *)
Definition passes (max : Z) (line : bytes) : bool := levelCharToNum (lineLevel line) <=? max.

Lemma sends_fileLines n data s :
  sends s (map (pair (logFile (file s))) (List.filter (passes (logFileLevelMax (file s))) (linesOf n data))) (fileLines n data s).
Proof using.
  revert data s. induction n as [|n IH]; intros data s; [apply sends_refl|]. cbn [fileLines linesOf].
  case_match; [apply sends_refl|]. destruct (cutLine data) as [line rest]. cbn [List.filter].
  unfold passes at 1. destruct (levelCharToNum (lineLevel line) <=? logFileLevelMax (file s)).
  - cbn [map]. apply (sends_trans _ [_] (fileSend line s)); [|exact (IH rest (fileSend line s))].
    unfold sends. cbn. split_and!; try done; [apply offers_send|intros; apply conn_send].
  - exact (IH rest s).
Qed.

Definition fileOffers s (data : bytes) : list (Z * bytes) :=
  if logFile (file s) <? 0 then []
  else map (pair (logFile (file s))) (List.filter (passes (logFileLevelMax (file s))) (linesOf (length data) data)).

Lemma sends_fileWrite data s : sends s (fileOffers s data) (logFileWrite data s).
Proof using. unfold logFileWrite, fileOffers. case_match; [apply sends_refl|apply sends_fileLines]. Qed.

(** *** Chunks of the ring *)

(** A slot takes part when it has a connected handle. *)
Definition live s (i : nat) : bool :=
  negb (itsHandle (slotAt s i) <? 0) && itsConnected (itsHandle (slotAt s i)) (world s).

Definition chunkFor s (buf : bytes) (i : nat) : Z * bytes :=
  (itsHandle (slotAt s i), if ansi (slotAt s i) =? LOG_ANSI then buf else stripAnsi buf).

Lemma peers_at s s' i : peers s' = peers s ->
  itsHandle (slotAt s' i) = itsHandle (slotAt s i) /\ ansi (slotAt s' i) = ansi (slotAt s i).
Proof using.
  intros P. apply (f_equal (lookup i)) in P. unfold peers in P. rewrite !list_lookup_fmap in P. unfold slotAt.
  destruct (logSlots s !! i), (logSlots s' !! i); cbn in *; by simplify_eq.
Qed.

Lemma live_sends s l s' i : sends s l s' ->
  live s' i = live s i /\ itsHandle (slotAt s' i) = itsHandle (slotAt s i) /\ ansi (slotAt s' i) = ansi (slotAt s i).
Proof using. intros (_ & C & S & _). destruct (peers_at _ _ i S) as [E1 E2]. unfold live. by rewrite E1, C. Qed.

Lemma sends_foldl (f : st -> nat -> st) (one : nat -> list (Z * bytes)) s ids :
  (forall s0 l i, sends s l s0 -> sends s0 (one i) (f s0 i)) -> sends s (flat_map one ids) (foldl f s ids).
Proof using.
  intros F. enough (G : forall s0 l0, sends s l0 s0 -> sends s (l0 ++ flat_map one ids) (foldl f s0 ids)).
  { apply (G s []). apply sends_refl. }
  induction ids as [|i ids IH]; intros s0 l0 S; cbn [flat_map foldl]; [by rewrite app_nil_r|].
  rewrite app_assoc. apply IH. eapply sends_trans; [done|]. by eapply F.
Qed.

Lemma sends_fanOut (hc hf : bool) buf s :
  sends s ((if hf then fileOffers s (stripAnsi buf) else []) ++
           (if hc then flat_map (fun i => if live s i then [chunkFor s buf i] else []) slotIds else []))
        (fanOut hc hf buf s).
Proof using.
  unfold fanOut. eapply sends_trans.
  - instantiate (1 := if hf then logFileWrite (stripAnsi buf) s else s). destruct hf; [apply sends_fileWrite|apply sends_refl].
  - set (s1 := if hf then logFileWrite (stripAnsi buf) s else s). assert (S1 : sends s (if hf then fileOffers s (stripAnsi buf) else []) s1)
      by (unfold s1; destruct hf; [apply sends_fileWrite|apply sends_refl]).
    destruct hc; [|apply sends_refl].
    assert (E : flat_map (fun i => if live s i then [chunkFor s buf i] else []) slotIds =
                flat_map (fun i => if live s1 i then [chunkFor s1 buf i] else []) slotIds).
    { apply flat_map_ext. intros i. destruct (live_sends _ _ _ i S1) as (E1 & E2 & E3). unfold chunkFor. by rewrite E1, E2, E3. }
    rewrite E. apply sends_foldl. intros s0 l i S. destruct (live_sends _ _ _ i S) as (L1 & L2 & L3). rewrite <- L1. unfold chunkFor.
    rewrite <- L2, <- L3. unfold fanTo, live. destruct (itsHandle (slotAt s0 i) <? 0); [apply sends_refl|]. cbn [orb negb andb].
    destruct (itsConnected _ _); [|apply sends_refl]. cbn [negb]. apply sends_send.
Qed.

(** *** A drain of the ring *)

Fixpoint chunks (fuel : nat) (b : bytes) : list bytes :=
  match fuel with
  | O => []
  | S f => if Zlen b =? 0 then [] else take (Z.to_nat DRAIN_CHUNK) b :: chunks f (drop (Z.to_nat DRAIN_CHUNK) b)
  end.

Lemma chunks_concat n b : (length b <= n)%nat -> concat (chunks n b) = b.
Proof using.
  revert b. induction n as [|n IH]; intros b L; [by destruct b; [|cbn in L; lia]|]. cbn [chunks].
  destruct (Z.eqb_spec (Zlen b) 0) as [E|E]; [by apply Zlen_zero in E as ->|]. cbn [concat].
  rewrite IH; [apply take_drop|]. rewrite length_drop. unfold Zlen in E. change (Z.to_nat DRAIN_CHUNK) with 511%nat. lia.
Qed.

Definition fanOffers (hc hf : bool) s (buf : bytes) : list (Z * bytes) :=
  (if hf then fileOffers s (stripAnsi buf) else []) ++
  (if hc then flat_map (fun i => if live s i then [chunkFor s buf i] else []) slotIds else []).

Lemma fanOffers_sends hc hf s l s' buf : sends s l s' -> fanOffers hc hf s' buf = fanOffers hc hf s buf.
Proof using.
  intros S. unfold fanOffers. f_equal.
  - destruct hf; [|done]. destruct S as (_ & _ & _ & _ & F & M). unfold fileOffers. by rewrite F, M.
  - destruct hc; [|done]. apply flat_map_ext. intros i. destruct (live_sends _ _ _ i S) as (E1 & E2 & E3). unfold chunkFor. by rewrite E1, E2, E3.
Qed.

Lemma sends_ring s r : sends s [] (with_ring s r).
Proof using. by apply sends_same. Qed.

Lemma fanOut_ring hc hf buf s : logIn (fanOut hc hf buf s) = logIn s.
Proof using.
  assert (L : forall n data s, logIn (fileLines n data s) = logIn s).
  { clear. induction n as [|n IH]; intros data s; [done|]. cbn [fileLines]. case_match; [done|].
    destruct (cutLine data). rewrite IH. by case_match. }
  assert (F : forall ids s, logIn (foldl (fanTo buf) s ids) = logIn s).
  { clear. induction ids as [|i ids IH]; intros s; [done|]. cbn [foldl]. rewrite IH. unfold fanTo. by case_match. }
  unfold fanOut. destruct hc; rewrite ?F; destruct hf; try done; unfold logFileWrite; case_match; done || apply L.
Qed.

Lemma drainRing_sends n hc hf s b d :
  holds (logIn s) b d -> (length b < n)%nat ->
  sends s (flat_map (fanOffers hc hf s) (chunks n b)) (drainRing n hc hf s) /\
  holds (logIn (drainRing n hc hf s)) [] d.
Proof using.
  revert s b. induction n as [|n IH]; intros s b B L; [lia|]. cbn [drainRing chunks].
  destruct (logRingRead_holds DRAIN_CHUNK (logIn s) b d ltac:(done) B) as [R1 R2].
  destruct (logRingRead DRAIN_CHUNK (logIn s)) as [buf r]. cbn [fst snd] in R1, R2. subst buf.
  change (Z.to_nat DRAIN_CHUNK) with 511%nat in *.
  destruct b as [|c b]; [split; [apply sends_refl|done]|].
  change (take 511 (c :: b)) with (c :: take 510 b) in *. change (Zlen (c :: ?l) =? 0) with (Z.of_nat (S (length l)) =? 0).
  rewrite !(proj2 (Z.eqb_neq (Z.of_nat (S _)) 0)) by lia. cbn [flat_map].
  pose proof (sends_ring s r) as S0. pose proof (sends_fanOut hc hf (c :: take 510 b) (with_ring s r)) as S1.
  set (s1 := fanOut hc hf (c :: take 510 b) (with_ring s r)) in *.
  assert (I1 : logIn s1 = r) by (unfold s1; by rewrite fanOut_ring).
  destruct (IH s1 (drop 511 (c :: b))) as [X1 X2]; [by rewrite I1|cbn [length] in L; rewrite length_drop; cbn; lia|].
  split; [|done]. pose proof (sends_trans _ _ _ _ _ S0 S1) as S2.
  assert (E : flat_map (fanOffers hc hf s) (chunks n (drop 511 (c :: b))) = flat_map (fanOffers hc hf s1) (chunks n (drop 511 (c :: b)))).
  { apply flat_map_ext. intros x. symmetry. by eapply fanOffers_sends. }
  rewrite E. eapply sends_trans; [|exact X1]. rewrite <- (fanOffers_sends hc hf s [] (with_ring s r)) by done. exact S1.
Qed.

(** What a peer is offered, put together. *)
Definition sentTo (h : Z) (l : list (Z * bytes)) : bytes := concat (map snd (List.filter (fun x => x.1 =? h) l)).

Lemma sentTo_app h a b : sentTo h (a ++ b) = sentTo h a ++ sentTo h b.
Proof using. unfold sentTo. by rewrite List.filter_app, map_app, concat_app. Qed.

Lemma sentTo_other h k l : k <> h -> sentTo h (map (pair k) l) = [].
Proof using.
  intros N. unfold sentTo. induction l as [|x l IH]; [done|]. cbn. by rewrite (proj2 (Z.eqb_neq k h)) by done.
Qed.

Lemma sentTo_same h l : sentTo h (map (pair h) l) = concat l.
Proof using. unfold sentTo. induction l as [|x l IH]; [done|]. cbn. rewrite Z.eqb_refl. cbn. by f_equal. Qed.

Lemma sentTo_flat_map {A} h (f : A -> list (Z * bytes)) l : sentTo h (flat_map f l) = concat (map (fun x => sentTo h (f x)) l).
Proof using. induction l as [|x l IH]; [done|]. cbn [flat_map map concat]. by rewrite sentTo_app, IH. Qed.

(** The consumer in slot [i] has handle [h] to itself. *)
Definition alone s (i : nat) (h : Z) : Prop :=
  (i < LOG_MAX_CONSUMERS)%nat /\ itsHandle (slotAt s i) = h /\ live s i = true /\ logFile (file s) <> h /\
  (forall j, j <> i -> itsHandle (slotAt s j) <> h).

Definition viewOf s (i : nat) (buf : bytes) : bytes := if ansi (slotAt s i) =? LOG_ANSI then buf else stripAnsi buf.

Lemma sentTo_slots s i h buf ids :
  alone s i h -> NoDup ids -> i ∈ ids ->
  sentTo h (flat_map (fun i => if live s i then [chunkFor s buf i] else []) ids) = viewOf s i buf.
Proof using.
  intros (_ & A & L & _ & O) ND IN.
  assert (Z : forall j, j <> i -> sentTo h (if live s j then [chunkFor s buf j] else []) = []).
  { intros j N. destruct (live s j); [|done]. unfold sentTo. cbn. by rewrite (proj2 (Z.eqb_neq _ h)) by (by apply O). }
  assert (O' : forall ids, i ∉ ids -> sentTo h (flat_map (fun i => if live s i then [chunkFor s buf i] else []) ids) = []).
  { clear - Z. induction ids as [|j ids IH]; intros N; [done|]. cbn [flat_map]. apply not_elem_of_cons in N as [N1 N2].
    by rewrite sentTo_app, Z, IH by congruence. }
  induction ND as [|j ids N ND IH]; [by apply not_elem_of_nil in IN|]. cbn [flat_map]. rewrite sentTo_app.
  destruct (decide (j = i)) as [->|E].
  - rewrite O', app_nil_r by done. rewrite L. unfold sentTo, chunkFor, viewOf. cbn [List.filter fst]. rewrite A, Z.eqb_refl. cbn [map snd concat]. apply app_nil_r.
  - rewrite Z by done. apply IH. apply elem_of_cons in IN as [?|?]; [congruence|done].
Qed.

Lemma sentTo_fan s i h hf buf : alone s i h -> sentTo h (fanOffers true hf s buf) = viewOf s i buf.
Proof using.
  intros A. unfold fanOffers. rewrite sentTo_app.
  assert (F : sentTo h (if hf then fileOffers s (stripAnsi buf) else []) = []).
  { destruct hf; [|done]. unfold fileOffers. case_match; [done|]. apply sentTo_other. apply A. }
  rewrite F. apply sentTo_slots; [done|apply NoDup_seq|]. apply elem_of_seq. destruct A as [? _]. lia.
Qed.

(** C32: A drain empties the ring into every connected consumer: one that takes colours is
    offered exactly the bytes that were in the ring, one that does not each 511-byte piece
    without its escapes, whatever is written to the file. *)
Theorem drain_delivers s b d i h hf :
  holds (logIn s) b d -> alone s i h ->
  let s' := drainRing drainFuel true hf s in
  holds (logIn s') [] d /\
  exists l, offers (world s') = offers (world s) ++ l /\
    sentTo h l = if ansi (slotAt s i) =? LOG_ANSI then b else concat (map stripAnsi (chunks drainFuel b)).
Proof using.
  intros B A. cbv zeta. pose proof (holds_bound _ _ _ B) as (LB & _).
  assert (F : (length b < drainFuel)%nat) by (unfold drainFuel, Zlen, LOG_RING_SIZE in *; lia).
  destruct (drainRing_sends drainFuel true hf s b d B F) as [S R]. split; [done|].
  eexists. split; [apply S|]. rewrite sentTo_flat_map. rewrite (map_ext _ (viewOf s i)) by (intros; by apply sentTo_fan).
  unfold viewOf. destruct (ansi (slotAt s i) =? LOG_ANSI); [|done]. rewrite map_id. apply chunks_concat. lia.
Qed.

End Flow.
