(* ===== verification/LogInbound.v ===== *)
(** * log: lines sent to the log by its consumers

    A consumer's bytes arrive in whatever pieces the transport makes; what the others get
    depends only on the lines they spell. *)

From stdpp Require Import gmap.
From S2P Require Import Prelude CLib Cron Config LogRing LogText LogTextProofs Log LogTask LogInv LogFlow.
Open Scope Z_scope.
Open Scope spangap_scope.

(** ** The lines of a stream *)

(** A line too long for the accumulator: its start and the mark. *)
Definition cutTo (l : bytes) : bytes :=
  if Zlen l <? LOG_INBOUND_BUF then l else take (Z.to_nat (LOG_INBOUND_BUF - 1 - Zlen CUT_MARK)) l ++ CUT_MARK.
Definition isCut (l : bytes) : bool := LOG_INBOUND_BUF <=? Zlen l.

(** Carriage returns are left out, a newline ends a line; [p] is what came before. *)
Fixpoint splitStream (p : bytes) (stream : bytes) : list bytes * bytes :=
  match stream with
  | [] => ([], p)
  | c :: r =>
      if c =? 13 then splitStream p r
      else if c =? 10 then let '(ls, rest) := splitStream [] r in (p :: ls, rest)
      else splitStream (p ++ [c]) r
  end.

Definition noCr (l : bytes) : bytes := List.filter (fun c => negb (c =? 13)) l.

Lemma splitStream_spec p stream ls rest :
  10 ∉ p -> splitStream p stream = (ls, rest) ->
  p ++ noCr stream = concat (map (fun l => l ++ [10]) ls) ++ rest /\ Forall (fun l => 10 ∉ l) ls /\ (10 ∉ rest).
Proof.
  revert p ls rest. induction stream as [|c r IH]; intros p ls rest P; cbn [splitStream].
  - intros [= <- <-]. cbn. by rewrite app_nil_r.
  - unfold noCr. cbn [List.filter]. fold (noCr r). destruct (c =? 13) eqn:C; cbn [negb]; [by apply IH|].
    destruct (Z.eqb_spec c 10) as [->|N].
    + destruct (splitStream [] r) as [ls' rest'] eqn:E. intros [= <- <-]. destruct (IH [] _ _ (not_elem_of_nil _) E) as (A & B & D).
      cbn [map concat]. cbn [app] in A. rewrite A, <- !app_assoc. split_and!; [done|by constructor|done].
    + intros E. assert (P' : 10 ∉ p ++ [c]).
      { rewrite not_elem_of_app. split; [done|]. apply not_elem_of_cons. split; [congruence|apply not_elem_of_nil]. }
      destruct (IH _ _ _ P' E) as (A & B & D). rewrite <- app_assoc in A. split_and!; done.
Qed.

Lemma cutTo_length l : Zlen (cutTo l) < LOG_INBOUND_BUF.
Proof.
  unfold cutTo. destruct (Z.ltb_spec (Zlen l) LOG_INBOUND_BUF); [done|]. rewrite Zlen_app, Zlen_take.
  change (Zlen CUT_MARK) with 9. unfold LOG_INBOUND_BUF in *. lia.
Qed.

Lemma cutTo_snoc_short l c : Zlen l + 1 < LOG_INBOUND_BUF -> cutTo (l ++ [c]) = l ++ [c] /\ isCut (l ++ [c]) = false.
Proof.
  intros L. unfold cutTo, isCut. rewrite Zlen_app. change (Zlen [c]) with 1.
  by rewrite (proj2 (Z.ltb_lt _ _)), (proj2 (Z.leb_gt _ _)) by lia.
Qed.

Lemma cutTo_snoc_long l c : LOG_INBOUND_BUF <= Zlen l -> cutTo (l ++ [c]) = cutTo l /\ isCut (l ++ [c]) = true.
Proof.
  intros L. unfold cutTo, isCut. rewrite Zlen_app. change (Zlen [c]) with 1.
  rewrite !(proj2 (Z.ltb_ge _ _)), (proj2 (Z.leb_le _ _)) by lia. split; [|done]. f_equal.
  rewrite take_app_le; [done|]. change (Zlen CUT_MARK) with 9. unfold Zlen, LOG_INBOUND_BUF in *. lia.
Qed.

(** The byte that finds the accumulator full. *)
Lemma cutTo_snoc_full l c : Zlen l = LOG_INBOUND_BUF - 1 ->
  cutTo (l ++ [c]) = take (length l - length CUT_MARK) l ++ CUT_MARK /\ isCut (l ++ [c]) = true.
Proof.
  intros L. unfold cutTo, isCut. rewrite Zlen_app. change (Zlen [c]) with 1.
  rewrite (proj2 (Z.ltb_ge _ _)), (proj2 (Z.leb_le _ _)) by lia. split; [|done]. f_equal.
  change (Zlen CUT_MARK) with 9. change (length CUT_MARK) with 9%nat. unfold Zlen, LOG_INBOUND_BUF in *.
  rewrite take_app_le by lia. f_equal. lia.
Qed.

Section Inbound.
Context {W : Type} `{ENV : LogEnv W}.
Abbreviation st := (log_st W).
Implicit Types s : st.

(** The accumulator of [slot] after the bytes [p] of a line. *)
Definition setAcc (slot : nat) (p : bytes) s : st := updSlot s slot (setLine (cutTo p) (isCut p)).

(** A complete line: out it goes. *)
Definition emit (slot : nat) s (l : bytes) : st := logInboundLineOut slot (cutTo l) (setAcc slot l s).

Lemma updSlot_twice s i f g : updSlot (updSlot s i f) i g = updSlot s i (g ∘ f).
Proof using.
  unfold updSlot, with_slots. cbn. f_equal. apply list_eq. intros j. destruct (decide (j = i)) as [->|N].
  - rewrite !list_lookup_alter_eq. by destruct (logSlots s !! i).
  - by rewrite !list_lookup_alter_ne by done.
Qed.

Lemma setAcc_twice slot p q s : setAcc slot q (setAcc slot p s) = setAcc slot q s.
Proof using. unfold setAcc. rewrite updSlot_twice. done. Qed.

Lemma setAcc_at slot p s : (slot < length (logSlots s))%nat ->
  lineBuf (slotAt (setAcc slot p s) slot) = cutTo p /\ truncated (slotAt (setAcc slot p s) slot) = isCut p.
Proof using.
  intros L. unfold slotAt, setAcc, updSlot. cbn. rewrite list_lookup_alter_eq.
  destruct (lookup_lt_is_Some_2 _ _ L) as [c ->]. done.
Qed.

Lemma updSlot_ext s i f g :
  (forall c, logSlots s !! i = Some c -> f c = g c) -> updSlot s i f = updSlot s i g.
Proof using.
  intros E. unfold updSlot, with_slots. f_equal. apply list_eq. intros j. destruct (decide (j = i)) as [->|N].
  - rewrite !list_lookup_alter_eq. destruct (logSlots s !! i) as [c|] eqn:X; [|done]. cbn. by rewrite E.
  - by rewrite !list_lookup_alter_ne by done.
Qed.

Lemma updSlot_id s i f : (forall c, logSlots s !! i = Some c -> f c = c) -> updSlot s i f = s.
Proof using.
  intros E. unfold updSlot. transitivity (with_slots s (logSlots s)); [|by destruct s]. f_equal. apply list_eq. intros j.
  destruct (decide (j = i)) as [->|N]; [|by rewrite list_lookup_alter_ne].
  rewrite list_lookup_alter_eq. destruct (logSlots s !! i) as [c|] eqn:X; [|done]. cbn. by rewrite E.
Qed.

(** One byte of a line. *)
Lemma inboundByte_char slot p c s :
  (slot < length (logSlots s))%nat -> c <> 13 -> c <> 10 ->
  inboundByte slot (setAcc slot p s) c = setAcc slot (p ++ [c]) s.
Proof using.
  intros L N1 N2. destruct (setAcc_at slot p s L) as [A1 A2]. unfold inboundByte. rewrite A1, A2.
  rewrite (proj2 (Z.eqb_neq c 13)), (proj2 (Z.eqb_neq c 10)) by done.
  assert (S : forall f, (forall x, f (setLine (cutTo p) (isCut p) x) = setLine (cutTo (p ++ [c])) (isCut (p ++ [c])) x) ->
    updSlot (setAcc slot p s) slot f = setAcc slot (p ++ [c]) s).
  { intros f F. unfold setAcc. rewrite updSlot_twice. apply updSlot_ext. intros x _. apply F. }
  destruct (Z.ltb_spec (Zlen p + 1) LOG_INBOUND_BUF) as [B|B].
  - destruct (cutTo_snoc_short p c B) as [C1 C2].
    assert (cutTo p = p /\ isCut p = false) as [P1 P2].
    { unfold cutTo, isCut. by rewrite (proj2 (Z.ltb_lt _ _)), (proj2 (Z.leb_gt _ _)) by lia. }
    rewrite P1 in *. rewrite (proj2 (Z.ltb_lt _ _)) by done. apply S. intros x. rewrite C1, C2, P2. done.
  - assert (X : LOG_INBOUND_BUF - 1 <= Zlen (cutTo p)).
    { unfold cutTo. destruct (Z.ltb_spec (Zlen p) LOG_INBOUND_BUF); [lia|]. rewrite Zlen_app, Zlen_take.
      change (Zlen CUT_MARK) with 9. unfold LOG_INBOUND_BUF in *. lia. }
    rewrite (proj2 (Z.ltb_ge _ _)) by lia. unfold isCut at 1. destruct (Z.leb_spec LOG_INBOUND_BUF (Zlen p)) as [Q|Q].
    + destruct (cutTo_snoc_long p c Q) as [C1 C2]. unfold setAcc. rewrite C1, C2. unfold isCut. by rewrite (proj2 (Z.leb_le _ _)) by done.
    + destruct (cutTo_snoc_full p c) as [C1 C2]; [lia|].
      assert (P1 : cutTo p = p) by (unfold cutTo; by rewrite (proj2 (Z.ltb_lt _ _)) by done).
      apply S. intros x. cbn [lineBuf setLine]. rewrite P1, C1, C2.
      rewrite (proj2 (Z.leb_le _ _)); [done|]. change (Zlen CUT_MARK) with 9. unfold LOG_INBOUND_BUF in *. lia.
Qed.

(** The end of a line; a line out leaves the number of slots. *)
Lemma inboundByte_nl slot p s : (slot < length (logSlots s))%nat ->
  inboundByte slot (setAcc slot p s) 10 = setAcc slot [] (emit slot s p).
Proof using. intros L. destruct (setAcc_at slot p s L) as [A1 A2]. unfold inboundByte. by rewrite A1. Qed.

End Inbound.

(** ** Who gets a line *)

Section FanOut.
Context {W : Type} `{TR : LogTrace W}.
Abbreviation st := (log_st W).
Implicit Types s : st.

(** The line as the consumer in slot [i] gets it. *)
Definition inboundView s (i : nat) (line : bytes) : bytes :=
  if ansi (slotAt s i) =? LOG_ANSI then (inboundAnsi (logColors s) line).1 else inboundPlain line.

Definition inboundOffers (src : nat) s (line : bytes) (i : nat) : list (Z * bytes) :=
  if bool_decide (i = src) then [] else if live s i then [(itsHandle (slotAt s i), inboundView s i line)] else [].

Lemma inboundAnsi_nonempty colors line : 0 < Zlen (inboundAnsi colors line).1.
Proof using.
  unfold inboundAnsi, colorizePreformatted. cbv zeta. repeat case_match; cbn [fst]; rewrite !Zlen_app;
    change (Zlen [10]) with 1; zlen_facts; lia.
Qed.

Lemma sends_useAnsi line send s h :
  (forall t, sends s [(h, t)] (on_world (send t) s)) ->
  sends s [(h, (inboundAnsi (logColors s) line).1)] (useInboundAnsi line send s).
Proof using.
  intros F. unfold useInboundAnsi. pose proof (inboundAnsi_nonempty (logColors s) line) as P.
  destruct (inboundAnsi _ _) as [t inside]. cbn [fst] in *. rewrite (proj2 (Z.ltb_lt _ _)) by done.
  destruct inside; [apply F|]. destruct (F t) as (A & B & C & D & E & G). by split_and!.
Qed.

Lemma sends_inboundTo src line s i : sends s (inboundOffers src s line i) (inboundTo src line s i).
Proof using.
  unfold inboundTo, inboundOffers, inboundView, live. case_match; [apply sends_refl|].
  destruct (itsHandle (slotAt s i) <? 0); [apply sends_refl|]. cbn [orb negb andb].
  destruct (itsConnected _ _); [|apply sends_refl]. cbn [negb].
  destruct (ansi (slotAt s i) =? LOG_ANSI); [|apply sends_send]. apply sends_useAnsi. intros t. apply sends_send.
Qed.

Lemma sends_console line s : sends s [] (useInboundAnsi line consoleEmitRaw s).
Proof using.
  unfold useInboundAnsi. destruct (inboundAnsi _ _) as [t inside]. set (s1 := if inside then s else with_bad s true).
  assert (S : sends s [] s1) by (unfold s1; destruct inside; by apply sends_same).
  apply sends_if; [by autorewrite with logtrace|intros; by autorewrite with logtrace|done].
Qed.

Lemma inboundOffers_sends src s l s' line i : sends s l s' -> inboundOffers src s' line i = inboundOffers src s line i.
Proof using.
  intros S. destruct (live_sends _ _ _ i S) as (E1 & E2 & E3). unfold inboundOffers, inboundView. rewrite E1, E2, E3.
  destruct S as (_ & _ & _ & C & _). by rewrite C.
Qed.

Lemma sends_lineOut src line s : 0 < Zlen line ->
  sends s (fileOffers s (inboundPlain line) ++ flat_map (inboundOffers src s line) slotIds) (logInboundLineOut src line s).
Proof using.
  intros L. unfold logInboundLineOut. rewrite (proj2 (Z.eqb_neq (Zlen line) 0)) by lia. cbv zeta.
  match goal with |- context [dbg ?t ?m s] => pose proof (sends_espLog (chr "D") t m s : sends s [] (dbg t m s)) as S1; set (s1 := dbg t m s) in * end.
  match goal with |- context [foldl _ ?x _] => assert (S2 : sends s (fileOffers s (inboundPlain line)) x) end.
  { assert (E : fileOffers s (inboundPlain line) = fileOffers s1 (inboundPlain line)).
    { destruct S1 as (_ & _ & _ & _ & F & M). unfold fileOffers. by rewrite F, M. }
    rewrite E. apply (sends_trans s [] s1); [done|]. destruct (Z.leb_spec 0 (logFile (file s1))); [apply sends_fileWrite|].
    unfold fileOffers. rewrite (proj2 (Z.ltb_lt _ _)) by lia. apply sends_refl. }
  match type of S2 with sends _ _ ?x => set (s2 := x) in * end. clearbody s2.
  assert (S3 : sends s2 (flat_map (inboundOffers src s line) slotIds) (foldl (inboundTo src line) s2 slotIds)).
  { apply sends_foldl. intros s0 l i S0. rewrite <- (inboundOffers_sends src s _ s0 line i (sends_trans _ _ _ _ _ S2 S0)).
    apply sends_inboundTo. }
  pose proof (sends_trans _ _ _ _ _ S2 S3) as S4. case_match; [|done].
  rewrite <- (app_nil_r (_ ++ _)). eapply sends_trans; [exact S4|apply sends_console].
Qed.

Lemma sends_updSlot i f s :
  (forall c, itsHandle (f c) = itsHandle c /\ ansi (f c) = ansi c) -> sends s [] (updSlot s i f).
Proof using.
  intros F. unfold sends. cbn. rewrite app_nil_r. split_and!; try done. unfold peers. cbn. apply list_eq. intros j.
  rewrite !list_lookup_fmap. destruct (decide (j = i)) as [->|N].
  - rewrite list_lookup_alter_eq. destruct (logSlots s !! i) as [c|]; [|done]. cbn. by destruct (F c) as [-> ->].
  - by rewrite list_lookup_alter_ne.
Qed.

Lemma alone_sends s l s' i h : sends s l s' -> alone s i h -> alone s' i h.
Proof using.
  intros S (A & B & C & D & E). destruct (live_sends _ _ _ i S) as (E1 & E2 & _).
  split_and!; [done|congruence|congruence|destruct S as (_ & _ & _ & _ & F & _); congruence|].
  intros j N. destruct (live_sends _ _ _ j S) as (_ & -> & _). by apply E.
Qed.

Lemma inboundView_sends s l s' i line : sends s l s' -> inboundView s' i line = inboundView s i line.
Proof using.
  intros S. unfold inboundView. destruct (live_sends _ _ _ i S) as (_ & _ & ->). destruct S as (_ & _ & _ & C & _). by rewrite C.
Qed.

(** One line, for one consumer. *)
Lemma sentTo_lineOut src s line i h : alone s i h ->
  sentTo h (fileOffers s (inboundPlain line) ++ flat_map (inboundOffers src s line) slotIds) =
  if bool_decide (i = src) then [] else inboundView s i line.
Proof using.
  intros (I & A & L & F & O). rewrite sentTo_app.
  assert (FF : sentTo h (fileOffers s (inboundPlain line)) = []).
  { unfold fileOffers. case_match; [done|]. by apply sentTo_other. }
  rewrite FF. cbn [app].
  assert (Z : forall j, j <> i -> sentTo h (inboundOffers src s line j) = []).
  { intros j N. unfold inboundOffers. case_match; [done|]. destruct (live s j); [|done]. unfold sentTo. cbn [List.filter fst].
    by rewrite (proj2 (Z.eqb_neq _ h)) by (by apply O). }
  assert (Y : sentTo h (inboundOffers src s line i) = if bool_decide (i = src) then [] else inboundView s i line).
  { unfold inboundOffers. case_match; [done|]. rewrite L. unfold sentTo. cbn [List.filter fst]. rewrite A, Z.eqb_refl.
    cbn [map snd concat]. apply app_nil_r. }
  assert (G : forall ids, NoDup ids -> sentTo h (flat_map (inboundOffers src s line) ids) =
    if bool_decide (i ∈ ids) then sentTo h (inboundOffers src s line i) else []).
  { clear - Z. intros ids ND. induction ND as [|j ids N ND IH]; [done|]. cbn [flat_map]. rewrite sentTo_app, IH.
    destruct (decide (j = i)) as [->|E].
    - rewrite (bool_decide_false (i ∈ ids)), (bool_decide_true (i ∈ i :: ids)) by (done || by apply elem_of_cons; left). apply app_nil_r.
    - rewrite Z by done. cbn [app]. destruct (decide (i ∈ ids)) as [X|X].
      + by rewrite !bool_decide_true by (done || by apply elem_of_cons; right).
      + rewrite !bool_decide_false; [done| |done]. by rewrite elem_of_cons; intros [?|?]. }
  rewrite G by apply NoDup_seq. rewrite bool_decide_true; [done|]. apply elem_of_seq. lia.
Qed.

(** What consumer [i] is offered for the lines [ls] of the consumer [src]. *)
Definition shown s (i : nat) (ls : list bytes) : bytes :=
  concat (map (fun l => inboundView s i (cutTo l)) (List.filter (fun l => 0 <? Zlen l) ls)).

Lemma cutTo_empty l : (0 <? Zlen (cutTo l)) = (0 <? Zlen l).
Proof using.
  unfold cutTo. destruct (Z.ltb_spec (Zlen l) LOG_INBOUND_BUF) as [H'|H']; [done|]. rewrite Zlen_app. change (Zlen CUT_MARK) with 9.
  unfold LOG_INBOUND_BUF in *. rewrite !(proj2 (Z.ltb_lt _ _)) by (zlen_facts; lia). done.
Qed.

Lemma length_peers s : length (peers s) = length (logSlots s).
Proof using. apply length_map. Qed.

(** The lines one after the other. *)
Lemma emit_all src ls s :
  exists l, sends s l (foldl (emit src) s ls) /\
    (forall i h, alone s i h -> sentTo h l = if bool_decide (i = src) then [] else shown s i ls).
Proof using.
  revert s. induction ls as [|x ls IH]; intros s; cbn [foldl].
  - exists []. split; [apply sends_refl|]. intros. by case_match.
  - assert (S1 : sends s [] (setAcc src x s)) by (by apply sends_updSlot).
    assert (E : exists l, sends s l (emit src s x) /\ forall i h, alone s i h ->
      sentTo h l = if bool_decide (i = src) then [] else if 0 <? Zlen x then inboundView s i (cutTo x) else []).
    { unfold emit. destruct (0 <? Zlen x) eqn:P; rewrite <- (cutTo_empty x) in P.
      - apply Z.ltb_lt in P. eexists. split; [exact (sends_trans _ _ _ _ _ S1 (sends_lineOut src (cutTo x) _ P))|].
        intros i h A. rewrite app_nil_l, (sentTo_lineOut src (setAcc src x s) (cutTo x) i h) by (by eapply alone_sends).
        by rewrite (inboundView_sends _ _ _ _ _ S1).
      - exists []. split; [|intros; by case_match]. apply Z.ltb_ge in P. unfold logInboundLineOut.
        rewrite (proj2 (Z.eqb_eq _ 0)) by (zlen_facts; lia). done. }
    destruct E as (l1 & S2 & E1). destruct (IH (emit src s x)) as (l2 & S3 & E2). exists (l1 ++ l2).
    split; [by eapply sends_trans|]. intros i h A. rewrite sentTo_app, (E1 i h A), (E2 i h) by (by eapply alone_sends).
    destruct (bool_decide (i = src)); [done|]. unfold shown at 2. cbn [List.filter]. destruct (0 <? Zlen x); cbn [map concat app]; [f_equal|];
      (unfold shown; f_equal; apply map_ext; intros; by eapply inboundView_sends).
Qed.

(** A stream, byte by byte. *)
Lemma inbound_stream src s p stream ls rest :
  (src < length (logSlots s))%nat -> splitStream p stream = (ls, rest) ->
  foldl (inboundByte src) (setAcc src p s) stream = setAcc src rest (foldl (emit src) s ls).
Proof using TR.
  revert s p ls rest. induction stream as [|c r IH]; intros s p ls rest L; cbn [splitStream foldl].
  - by intros [= <- <-].
  - destruct (Z.eqb_spec c 13) as [->|N1]; [by apply IH|]. destruct (Z.eqb_spec c 10) as [->|N2].
    + destruct (splitStream [] r) as [ls' rest'] eqn:E. intros [= <- <-]. rewrite inboundByte_nl by done. cbn [foldl]. apply (IH _ [] _ _); [|done].
      destruct (emit_all src [p] s) as (l & S & _). cbn [foldl] in S. destruct S as (_ & _ & S & _).
      by rewrite <- length_peers, S, length_peers.
    + intros E. rewrite inboundByte_char by done. by apply IH.
Qed.

(** Whatever pieces a consumer's bytes arrive in: they are read as lines, carriage returns
    left out; every other consumer is offered exactly the lines that are not empty, in order,
    coloured or stripped as it wants them, one longer than 511 bytes cut and marked; the
    sender is offered nothing; what follows the last newline waits. *)
Theorem inbound_delivers src s pieces :
  (src < length (logSlots s))%nat -> lineBuf (slotAt s src) = [] -> truncated (slotAt s src) = false ->
  let s' := foldl (foldl (inboundByte src)) s pieces in
  exists ls rest l,
    noCr (concat pieces) = concat (map (fun x => x ++ [10]) ls) ++ rest /\ Forall (fun x => 10 ∉ x) ls /\ (10 ∉ rest) /\
    lineBuf (slotAt s' src) = cutTo rest /\ offers (world s') = offers (world s) ++ l /\
    (forall i h, alone s i h -> i <> src -> sentTo h l = shown s i ls) /\
    (forall h, alone s src h -> sentTo h l = []).
Proof using TR.
  intros L B T. cbv zeta. assert (S0 : setAcc src [] s = s).
  { apply updSlot_id. intros c Hc. unfold slotAt in B, T. rewrite Hc in B, T. cbn in B, T.
    destruct c; cbn in *; subst. done. }
  assert (F : forall s0, foldl (foldl (inboundByte src)) s0 pieces = foldl (inboundByte src) s0 (concat pieces)).
  { clear. induction pieces as [|a l IH]; intros s0; [done|]. cbn [foldl concat]. by rewrite IH, foldl_app. }
  destruct (splitStream [] (concat pieces)) as [ls rest] eqn:E. destruct (splitStream_spec [] _ _ _ (not_elem_of_nil _) E) as (P1 & P2 & P3).
  rewrite F, <- S0, (inbound_stream src s [] _ _ _ L E), S0. destruct (emit_all src ls s) as (l & S & G).
  exists ls, rest, l. assert (L' : (src < length (logSlots (foldl (emit src) s ls)))%nat).
  { destruct S as (_ & _ & S & _). by rewrite <- length_peers, S, length_peers. }
  destruct (setAcc_at src rest _ L') as [A _]. split_and!; try done; [apply S|..].
  - intros i h Hi N. rewrite (G i h Hi). by rewrite bool_decide_false.
  - intros h Hi. rewrite (G src h Hi). by rewrite bool_decide_true.
Qed.

End FanOut.
