(* ===== verification/LogAdmin.v ===== *)
(** * log: levels, rotation and paste-back, proved *)

From stdpp Require Import gmap.
From S2P Require Import Prelude CLib Cron Config LogRing LogText LogTextProofs Log LogTask LogInv LogFlow.
Import NextRun.
Open Scope Z_scope.
Open Scope spangap_scope.

(** ** Levels

    ESP-IDF's table of levels: setting "*" sets every tag and forgets the tags' own levels,
    setting a tag sets that tag. The settings store is not concerned. *)
Definition STAR : bytes := $ "*".

Class LogLevels (W : Type) `{LogEnv W} := {
  get_all t l w : esp_log_level_get (Some t) (esp_log_level_set STAR l w) = l;
  get_same t l w : t <> STAR -> esp_log_level_get (Some t) (esp_log_level_set t l w) = l;
  get_other t t' l w : t <> t' -> t' <> STAR ->
    esp_log_level_get (Some t) (esp_log_level_set t' l w) = esp_log_level_get (Some t) w;
  set_getStr k n d t l w : storageGetStr k n d (esp_log_level_set t l w) = storageGetStr k n d w;
  set_forEach p t l w : storageForEach p (esp_log_level_set t l w) = storageForEach p w
}.

Section Levels.
Context {W : Type} `{LV : LogLevels W}.
Abbreviation st := (log_st W).
Implicit Types s : st.

(** The tag of a setting, and the setting of a tag. *)
Definition tagOf (kv : bytes * bytes) : bytes := drop (length TAG_PREFIX) kv.1.
Definition settingOf (l : list (bytes * bytes)) (t : bytes) : option bytes :=
  snd <$> List.find (fun kv => streq (tagOf kv) t) l.

(** The level in force for a tag: what is set for it, unless that is "-" (inherit), then the
    component's default, then the global level. *)
Definition effective (l : list (bytes * bytes)) (ds : list TagDefault) (global : Z) (t : bytes) : Z :=
  match settingOf l t with
  | Some v => if first v =? chr "-" then tagDefaultLevel ds t global else parseEspLevel v
  | None => tagDefaultLevel ds t global
  end.

Lemma globalLevel_set t l (w : W) : globalLevel (esp_log_level_set t l w) = globalLevel w.
Proof using LV. unfold globalLevel. by rewrite set_getStr. Qed.

Lemma defaults_get ds t (w : W) g :
  NoDup (map tag ds) -> Forall (fun d => tag d <> STAR) ds -> t <> STAR -> esp_log_level_get (Some t) w = g ->
  esp_log_level_get (Some t) (foldl applyDefault w ds) = tagDefaultLevel ds t g /\
  globalLevel (foldl applyDefault w ds) = globalLevel w /\
  storageForEach TAG_PREFIX (foldl applyDefault w ds) = storageForEach TAG_PREFIX w.
Proof using LV.
  intros ND F T. revert w g. induction F as [|d ds D F IH]; intros w g G; [done|]. cbn [foldl tagDefaultLevel map] in *.
  apply NoDup_cons in ND as [N ND].
  assert (E : globalLevel (applyDefault w d) = globalLevel w /\ storageForEach TAG_PREFIX (applyDefault w d) = storageForEach TAG_PREFIX w)
    by (unfold applyDefault; by rewrite globalLevel_set, set_forEach).
  destruct (streq (tag d) t) eqn:S.
  - apply streq_true in S. subst t. destruct (IH ND (applyDefault w d) (td_level d)) as (A & B & C); [by apply get_same|].
    rewrite A, B, C. split; [|done]. assert (X : forall l g, (tag d ∉ map tag l) -> tagDefaultLevel l (tag d) g = g).
    { clear. induction l as [|x l IH]; intros g N; [done|]. cbn in *. apply not_elem_of_cons in N as [N1 N2].
      rewrite (proj2 (streq_false _ _)) by congruence. by apply IH. }
    by apply X.
  - apply streq_false in S. destruct (IH ND (applyDefault w d) g) as (A & B & C); [by unfold applyDefault; rewrite get_other by congruence|].
    rewrite A, B, C. done.
Qed.

Lemma settings_get ds l t (w : W) g :
  NoDup (map tagOf l) -> Forall (fun kv => tagOf kv <> STAR) l -> t <> STAR ->
  esp_log_level_get (Some t) w = g ->
  esp_log_level_get (Some t) (foldl (applyTag ds) w l) =
  match settingOf l t with
  | Some v => if first v =? chr "-" then tagDefaultLevel ds t (globalLevel w) else parseEspLevel v
  | None => g
  end.
Proof using LV.
  intros ND F T. revert w g. induction F as [|kv l D F IH]; intros w g G; [done|]. cbn [foldl map] in *.
  apply NoDup_cons in ND as [N ND].
  assert (GL : globalLevel (applyTag ds w kv) = globalLevel w) by (unfold applyTag; destruct (first kv.2 =? chr "-"); by rewrite globalLevel_set).
  unfold settingOf. cbn [List.find]. destruct (streq (tagOf kv) t) eqn:S.
  - apply streq_true in S. assert (G1 : esp_log_level_get (Some t) (applyTag ds w kv) =
      if first kv.2 =? chr "-" then tagDefaultLevel ds t (globalLevel w) else parseEspLevel kv.2).
    { unfold applyTag. fold (tagOf kv). rewrite S. destruct (first kv.2 =? chr "-"); by apply get_same. }
    rewrite (IH ND _ _ G1). assert (settingOf l t = None) as ->; [|done].
    unfold settingOf. destruct (List.find _ l) as [x|] eqn:X; [|done]. apply find_some in X as [X1 X2]. apply streq_true in X2.
    exfalso. apply N. rewrite S, <- X2. apply list_elem_of_In, in_map, X1.
  - apply streq_false in S. assert (G1 : esp_log_level_get (Some t) (applyTag ds w kv) = g).
    { unfold applyTag. fold (tagOf kv). destruct (first kv.2 =? chr "-"); by rewrite get_other by congruence. }
    rewrite (IH ND _ _ G1), GL. done.
Qed.

(** After [logApplyLevels] every tag's level is the operator's setting for it, else the
    component's own default, else the global level; "-" stands for no setting. *)
Theorem level_precedence s t :
  let l := storageForEach TAG_PREFIX (world s) in
  let ds := s_tagDefaults s in
  NoDup (map tagOf l) -> Forall (fun kv => tagOf kv <> STAR) l ->
  NoDup (map tag ds) -> Forall (fun d => tag d <> STAR) ds -> t <> STAR ->
  esp_log_level_get (Some t) (world (logApplyLevels s)) = effective l ds (globalLevel (world s)) t.
Proof using LV.
  intros l ds N1 F1 N2 F2 T. unfold logApplyLevels. cbv zeta. cbn [world with_world with_levels on_world s_tagDefaults]. fold ds.
  set (w1 := esp_log_level_set ($ "*") (globalLevel (world s)) (world s)).
  destruct (defaults_get ds t w1 (globalLevel (world s)) N2 F2 T) as (A & B & C); [apply get_all|].
  assert (E : storageForEach TAG_PREFIX (foldl applyDefault w1 ds) = l) by (rewrite C; unfold w1; by rewrite set_forEach).
  rewrite E, (settings_get ds l t _ _ N1 F1 T A), B. unfold w1. rewrite globalLevel_set. unfold effective. done.
Qed.

End Levels.

(** ** Rotation *)

(** A trace of what is removed and what is stored. *)
Class LogStoreTrace (W : Type) `{LogEnv W} := {
  removed : W -> list bytes;
  stored : W -> list (bytes * bytes);
  removed_remove p w : removed (fs_remove p w).2 = removed w ++ [p];
  removed_set k v w : removed (storageSet k v w) = removed w;
  removed_print d w : removed (cliPrintf d w) = removed w;
  stored_remove p w : stored (fs_remove p w).2 = stored w;
  stored_set k v w : stored (storageSet k v w) = stored w ++ [(k, v)];
  stored_print d w : stored (cliPrintf d w) = stored w
}.

(** The local day of [now] begins within the 24 hours before it (no DST). *)
Class Midnight `{Calendar} := {
  midnight now : 0 <= now < 2 ^ 32 -> exists t b,
    mktime {| tm_sec := 0; tm_min := 0; tm_hour := 0; tm_mday := tm_mday (localtime now);
              tm_mon := tm_mon (localtime now); tm_year := tm_year (localtime now); tm_wday := 0; tm_isdst := 0 |} =
    Some (t, b) /\ now - 86400 < t <= now;
  date_range now : 0 <= now < 2 ^ 32 -> 0 <= tm_year (localtime now) + 1900 < 10000 /\ 0 <= tm_mon (localtime now) < 12 /\
    0 <= tm_mday (localtime now) < 100
}.

Lemma drop_app_len {A} n (a b : list A) : length a = n -> drop n (a ++ b) = b.
Proof. intros <-. apply drop_app_length. Qed.
Lemma take_app_len {A} n (a b : list A) : length a = n -> take n (a ++ b) = a.
Proof. intros <-. apply take_app_length. Qed.

Lemma logDateName_shape `{Midnight} now : 0 <= now < 2 ^ 32 ->
  exists y m d, logDateName now = y ++ m ++ d ++ ($ ".log") /\ length y = 4%nat /\ length m = 2%nat /\ length d = 2%nat /\
    Forall (fun c => isdigit c = true) (y ++ m ++ d) /\
    dval y = tm_year (localtime now) + 1900 /\ dval m = tm_mon (localtime now) + 1 /\ dval d = tm_mday (localtime now).
Proof.
  intros N. destruct (date_range now N) as (A & B & C). unfold logDateName. eexists _, _, _. split; [done|].
  rewrite !zpad_length by (try lia; change (10 ^ Z.of_nat 4) with 10000; change (10 ^ Z.of_nat 2) with 100; lia).
  rewrite !zpad_value by lia. split_and!; try done. rewrite !Forall_app. split_and!; apply zpad_digits; lia.
Qed.

(** The name rotation gives today's file is a dated name, and its date is today's. *)
Lemma today_named `{Midnight} now : 0 <= now < 2 ^ 32 ->
  isLogDateFile (logDateName now) = true /\ now - 86400 < logDateToTime (logDateName now) <= now.
Proof.
  intros N. destruct (logDateName_shape now N) as (y & m & d & -> & Ly & Lm & Ld & F & Vy & Vm & Vd). split.
  - unfold isLogDateFile. assert (L : Zlen (y ++ m ++ d ++ $ ".log") = 12).
    { unfold Zlen. rewrite !length_app, Ly, Lm, Ld. done. }
    rewrite L. cbn [Z.eqb]. change (12 =? 12) with true. cbn iota. replace (y ++ m ++ d ++ $ ".log") with ((y ++ m ++ d) ++ $ ".log") by (by rewrite <- !app_assoc).
    rewrite take_app_len, drop_app_len by (rewrite !length_app; lia). assert (forallb isdigit (y ++ m ++ d) = true) as ->; [|done].
    apply forallb_forall. intros c C. rewrite Forall_forall in F. apply F. by apply list_elem_of_In.
  - unfold logDateToTime. rewrite (take_app_len 4) by done.
    replace (drop 4 (y ++ m ++ d ++ $ ".log")) with (m ++ d ++ $ ".log") by (by rewrite drop_app_len).
    rewrite (take_app_len 2) by done.
    replace (drop 6 (y ++ m ++ d ++ $ ".log")) with (d ++ $ ".log").
    2: { rewrite app_assoc. rewrite drop_app_len; [done|]. rewrite length_app. lia. }
    rewrite (take_app_len 2) by done. rewrite Vy, Vm, Vd.
    replace (tm_mon (localtime now) + 1 - 1) with (tm_mon (localtime now)) by lia.
    replace (tm_year (localtime now) + 1900 - 1900) with (tm_year (localtime now)) by lia.
    destruct (midnight now N) as (t & b & -> & B). done.
Qed.

Section Rotate.
Context {W : Type} `{ST : LogStoreTrace W}.

Lemma rotate_all dir cutoff l (w : W) k :
  let r := foldl (rotateFile dir cutoff) (w, k) l in
  removed r.1 = removed w ++ map (rotatePath dir) (List.filter (expired cutoff) l) /\ stored r.1 = stored w.
Proof using ST.
  revert w k. induction l as [|x l IH]; intros w k; cbn [foldl List.filter map]; [by rewrite app_nil_r|].
  destruct (expired cutoff x) eqn:X.
  - destruct (fs_remove (rotatePath dir x) w) as [r w'] eqn:E.
    assert (S0 : rotateFile dir cutoff (w, k) x = (w', if r =? 0 then k + 1 else k)).
    { unfold rotateFile. rewrite X. cbn [fst snd]. by rewrite E. }
    rewrite S0. destruct (IH w' (if r =? 0 then k + 1 else k)) as [A B]. cbn [map].
    pose proof (removed_remove (rotatePath dir x) w) as R. pose proof (stored_remove (rotatePath dir x) w) as S.
    rewrite E in R, S. cbn [snd] in R, S. rewrite A, B, R, S, <- app_assoc. done.
  - assert (S0 : rotateFile dir cutoff (w, k) x = (w, k)) by (unfold rotateFile; by rewrite X). rewrite S0. apply IH.
Qed.

(** What is written and removed by [logrotate]: with a fixed file name nothing at all; else
    the name in force becomes today's, only if there was one (logging that is off stays off),
    and exactly the dated files whose day began before the cut-off are removed, which never
    include today's. *)
Theorem logrotate_exact a (w : W) :
  wantsHelp a = false ->
  let w' := cmdLogrotate a w in
  let cur := fileNameStr w in
  let now := (gettimeofday w).1 in
  let days := if Zlen a =? 0 then 0 else atoi a in
  let w1 := if Zlen cur =? 0 then w else storageSet ($ "s.log.file.name") (logDateName now) w in
  (cur <> [] -> isLogDateFile cur = false -> removed w' = removed w /\ stored w' = stored w) /\
  (cur = [] \/ isLogDateFile cur = true ->
   stored w' = stored w ++ (if Zlen cur =? 0 then [] else [($ "s.log.file.name", logDateName now)]) /\
   (heap_alloc listingSize w1 = true -> removed w' = removed w ++
      if days <=? 0 then []
      else map (rotatePath (logDir w)) (List.filter (expired (now - days * 86400)) (fs_listdir (logDir w) rotateMax w1)))) /\
  (@Midnight log_calendar -> 0 <= now < 2 ^ 32 -> 0 < days -> expired (now - days * 86400) (logDateName now) = false).
Proof using ST.
  intros HH. cbv zeta. unfold cmdLogrotate. rewrite HH. cbv zeta. split_and!.
  - intros C D. rewrite (proj2 (Z.eqb_neq (Zlen (fileNameStr w)) 0)) by (intros E; by apply Zlen_zero in E). rewrite D. cbn [negb andb].
    by rewrite removed_print, stored_print.
  - intros C.
    assert (G : negb (Zlen (fileNameStr w) =? 0) && negb (isLogDateFile (fileNameStr w)) = false).
    { destruct C as [->| ->]; [done|apply andb_false_r]. }
    rewrite G. set (w1 := if Zlen (fileNameStr w) =? 0 then w else _).
    assert (S1 : stored w1 = stored w ++ (if Zlen (fileNameStr w) =? 0 then [] else [($ "s.log.file.name", logDateName (gettimeofday w).1)]) /\
                 removed w1 = removed w).
    { unfold w1. destruct (Zlen (fileNameStr w) =? 0); [by rewrite app_nil_r|]. by rewrite stored_set, removed_set. }
    destruct S1 as [S1 R1]. set (days := if Zlen a =? 0 then 0 else atoi a). destruct (days <=? 0); [by rewrite R1, app_nil_r|].
    destruct (heap_alloc listingSize w1); cbn [negb]; [|split; [done|discriminate]].
    destruct (rotate_all (logDir w) ((gettimeofday w).1 - days * 86400) (fs_listdir (logDir w) rotateMax w1) w1 0) as [A B].
    destruct (foldl _ _ _) as [w2 del]. cbn [fst] in A, B. rewrite S1 in B. rewrite R1 in A.
    destruct (del =? 0); rewrite ?removed_print, ?stored_print; done.
  - intros MN N D. destruct (today_named (gettimeofday w).1 N) as [_ T]. unfold expired.
    destruct (isLogDateFile _); [|done]. rewrite (proj2 (Z.ltb_ge _ (_ - _ * _))) by nia. by rewrite andb_false_r.
Qed.

End Rotate.

(** ** Paste-back *)

(** The file system as paste-back uses it: the text of a file, read from where it is put;
    none of it sends anything. *)
Class LogFs (W : Type) `{LogTrace W} := {
  fileAt : bytes -> W -> bytes;
  fs_size path w f w' : fs_open path w = (f, w') -> 0 <= f -> fs_tell f (fs_seek_end f w') = Zlen (fileAt path w);
  fs_text path w f w' off n : fs_open path w = (f, w') -> 0 <= f -> 0 <= off -> 0 <= n ->
    (fs_read f n (fs_seek_set f off (fs_seek_end f w'))).1 = take (Z.to_nat n) (drop (Z.to_nat off) (fileAt path w));
  offers_sync f w : offers (fs_stream_sync f w) = offers w;
  offers_open p w : offers (fs_open p w).2 = offers w;
  offers_seek_end f w : offers (fs_seek_end f w) = offers w;
  offers_seek_set f n w : offers (fs_seek_set f n w) = offers w;
  offers_read f n w : offers (fs_read f n w).2 = offers w;
  offers_close f w : offers (fs_close f w) = offers w
}.

(** The last [n] bytes of a text, less the line they begin in. *)
Definition afterNl (l : bytes) : bytes := match strchr l 10 with Some (_, r) => r | None => [] end.
Definition tailLines (n : Z) (text : bytes) : bytes :=
  if n <? Zlen text then afterNl (drop (Z.to_nat (Zlen text - n)) text) else text.

Lemma strip_pasteLine colors line r : Forall color_ok colors -> ESC ∉ line ->
  stripAnsi (pasteLine colors true line ++ r) = line ++ stripAnsi r.
Proof.
  intros F N. unfold pasteLine. destruct (pasteLvlPos line) as [[|k]|]; try (by apply strip_plain_app).
  pose proof (colorAt_ok _ 5 F) as [C1 C2]. pose proof (logColor_ok _ (default 0 (line !! S k)) F) as [C3 _].
  rewrite trunc_id by (pose proof (Zlen_sgr (colorAt colors 5)); unfold Zlen in *; lia).
  assert (N1 : ESC ∉ take (S k) line) by (intros X; apply N; by eapply elem_of_take in X as (? & ? & _); eapply list_elem_of_lookup_2).
  assert (N2 : ESC ∉ drop (S k) line).
  { intros X. apply N. rewrite <- (take_drop (S k) line). apply elem_of_app. by right. }
  rewrite <- !app_assoc, strip_sgr, strip_plain_app, strip_sgr, strip_plain_app, strip_sgr0 by done.
  by rewrite app_assoc, take_drop.
Qed.

Lemma strip_pasteLines n colors data : Forall color_ok colors -> ESC ∉ data -> (length data <= n)%nat ->
  stripAnsi (pasteLines n colors true data) = data.
Proof.
  intros F. revert data. induction n as [|n IH]; intros data N L; [by destruct data; [|cbn in L; lia]|]. cbn [pasteLines].
  destruct (Z.eqb_spec (Zlen data) 0) as [E|E]; [by apply Zlen_zero in E as ->|].
  destruct (cutLine data) as [line rest] eqn:C. pose proof (cutLine_app _ _ _ C) as ->.
  assert (line <> []) by (eapply cutLine_pos; [done|]; intros X; rewrite X in *; done).
  apply not_elem_of_app in N as [N1 N2]. rewrite strip_pasteLine by done. rewrite IH; [done|done|].
  rewrite length_app in L. destruct line; [done|]. cbn in L. lia.
Qed.

Lemma plain_pasteLines n colors data : (length data <= n)%nat -> pasteLines n colors false data = data.
Proof.
  revert data. induction n as [|n IH]; intros data L; [by destruct data; [|cbn in L; lia]|]. cbn [pasteLines].
  destruct (Z.eqb_spec (Zlen data) 0) as [E|E]; [by apply Zlen_zero in E as ->|].
  destruct (cutLine data) as [line rest] eqn:C. pose proof (cutLine_app _ _ _ C) as ->.
  assert (line <> []) by (eapply cutLine_pos; [done|]; intros X; rewrite X in *; done).
  assert (pasteLine colors false line = line) as -> by (unfold pasteLine; by destruct (pasteLvlPos line) as [[|]|]).
  rewrite IH; [done|]. rewrite length_app in L. destruct line; [done|]. cbn in L. lia.
Qed.

Lemma pasteTake_bound out : out <> [] -> (0 < pasteTake out <= length out)%nat /\ Z.of_nat (pasteTake out) <= PASTE_CHUNK.
Proof.
  intros N. unfold pasteTake. destruct (Z.ltb_spec PASTE_CHUNK (Zlen out)) as [L|L].
  - set (nl := length (skip_while _ _)). assert (B : (nl <= Z.to_nat PASTE_CHUNK)%nat).
    { unfold nl. etransitivity; [apply length_skip_while|]. rewrite length_rev, length_take. lia. }
    unfold PASTE_CHUNK, Zlen in *. destruct (Nat.ltb_spec 0 nl); lia.
  - unfold PASTE_CHUNK, Zlen in *. destruct out; [done|]. cbn [length] in *. lia.
Qed.

Section Paste.
Context {W : Type} `{FS : LogFs W}.
Abbreviation st := (log_st W).
Implicit Types s : st.

Lemma pasteSend_packets n h out (w : W) :
  (forall d w, (itsSend h d w).1 = Zlen d) -> (length out <= n)%nat ->
  exists packets, offers (pasteSend n h out w) = offers w ++ map (pair h) packets /\ concat packets = out /\
    Forall (fun p => 0 < Zlen p <= PASTE_CHUNK) packets.
Proof using FS.
  intros A. revert out w. induction n as [|n IH]; intros out w L.
  - destruct out; [|cbn in L; lia]. exists []. cbn. by rewrite app_nil_r.
  - cbn [pasteSend]. destruct (Z.eqb_spec (Zlen out) 0) as [E|E].
    { apply Zlen_zero in E as ->. exists []. cbn. by rewrite app_nil_r. }
    assert (N : out <> []) by (intros ->; done). destruct (pasteTake_bound out N) as [B1 B2].
    pose proof (A (take (pasteTake out) out) w) as A1. pose proof (offers_send h (take (pasteTake out) out) w) as O.
    destruct (itsSend h (take (pasteTake out) out) w) as [k w1]. cbn [fst snd] in A1, O. rewrite Zlen_take in A1.
    rewrite (proj2 (Z.eqb_eq _ _)) by (unfold Zlen in *; lia).
    destruct (IH (drop (pasteTake out) out) w1) as (ps & P1 & P2 & P3); [rewrite length_drop; lia|].
    exists (take (pasteTake out) out :: ps). cbn [map concat]. rewrite P1, O, P2, take_drop, <- app_assoc. split_and!; try done.
    constructor; [|done]. rewrite Zlen_take. unfold Zlen in *. lia.
Qed.

(** A new consumer is sent the file's last [n] bytes from the first whole line on, in packets
    of at most 1500 bytes, with nothing but colours added. *)
Theorem paste_back_tail h n u s :
  let path := logFilePath (file s) in
  let w1 := if 0 <=? logFile (file s) then fs_stream_sync (logFile (file s)) (world s) else world s in
  let text := fileAt path w1 in
  0 < n -> path <> [] -> text <> [] -> ESC ∉ text -> Forall color_ok (logColors s) -> 0 <= (fs_open path w1).1 ->
  (forall n w, heap_alloc n w = true) -> (forall d w, (itsSend h d w).1 = Zlen d) ->
  exists packets,
    offers (world (logPasteBack h n u s)) = offers (world s) ++ map (pair h) packets /\
    Forall (fun p => 0 < Zlen p <= PASTE_CHUNK) packets /\
    (if u then stripAnsi (concat packets) else concat packets) = tailLines n text.
Proof using FS.
  intros path w1 text N P T E C F HA SA. unfold logPasteBack. cbv zeta. rewrite (proj2 (Z.ltb_lt 0 n)) by done. cbn [negb andb].
  fold path. rewrite (proj2 (Z.eqb_neq (Zlen path) 0)) by (intros X; by apply Zlen_zero in X).
  set (s1 := if 0 <=? logFile (file s) then on_world _ s else s).
  assert (Q : world s1 = w1 /\ file s1 = file s /\ logColors s1 = logColors s) by (unfold s1, w1; by case_match).
  destruct Q as (Q1 & Q2 & Q3). rewrite Q1, Q2. fold path.
  assert (O1 : offers w1 = offers (world s)) by (unfold w1; case_match; [apply offers_sync|done]).
  pose proof (offers_open path w1) as O2. destruct (fs_open path w1) as [f w2] eqn:FO. cbn [fst snd] in F, O2.
  rewrite (proj2 (Z.ltb_ge f 0)) by done. rewrite (fs_size path w1 f w2 FO F). fold text. rewrite !HA. cbn [negb].
  set (off := if n <? Zlen text then Zlen text - n else 0).
  assert (OB : 0 <= off <= Zlen text) by (unfold off; pose proof (Zlen_nonneg text); destruct (Z.ltb_spec n (Zlen text)); lia).
  pose proof (fs_text path w1 f w2 off (Zlen text - off) FO F ltac:(lia) ltac:(lia)) as G. fold text in G.
  pose proof (offers_read f (Zlen text - off) (fs_seek_set f off (fs_seek_end f w2))) as O3.
  destruct (fs_read f (Zlen text - off) (fs_seek_set f off (fs_seek_end f w2))) as [got w3]. cbn [fst snd] in G, O3.
  assert (G' : got = drop (Z.to_nat off) text).
  { rewrite G. apply take_ge. rewrite length_drop. unfold Zlen. lia. }
  assert (GN : 0 < Zlen got).
  { rewrite G', Zlen_drop. assert (0 < Zlen text) by (destruct text; [done|zlia]). unfold off. destruct (Z.ltb_spec n (Zlen text)); lia. }
  rewrite (proj2 (Z.eqb_neq (Zlen got) 0)), HA by lia. cbn [negb].
  set (out := pasteText _ u off got). cbn [world with_world]. change (logColors (with_world s1 w2)) with (logColors s1) in out.
  destruct (pasteSend_packets (length out) h out (fs_close f w3) SA ltac:(lia)) as (ps & P1 & P2 & P3).
  exists ps. split_and!; [|done|].
  - by rewrite P1, offers_close, O3, offers_seek_set, offers_seek_end, O2, O1.
  - rewrite P2. unfold out, pasteText. rewrite Q3.
    set (body := if 0 <? off then _ else got).
    assert (B : body = tailLines n text).
    { unfold body, tailLines, off in *. rewrite G'. destruct (Z.ltb_spec n (Zlen text)); [|done].
      by rewrite (proj2 (Z.ltb_lt 0 _)) by lia. }
    assert (EB : ESC ∉ body).
    { intros X. apply E. assert (ESC ∈ got).
      { unfold body in X. destruct (0 <? off); [|done]. destruct (strchr got 10) as [[a b]|] eqn:SC; [|by apply not_elem_of_nil in X].
        apply strchr_Some in SC as [-> _]. apply elem_of_app. right. by apply elem_of_cons; right. }
      rewrite <- (take_drop (Z.to_nat off) text), <- G'. apply elem_of_app. by right. }
    rewrite <- B. destruct u; [by apply strip_pasteLines|by apply plain_pasteLines].
Qed.

End Paste.
