(* ===== verification/LogDemo.v ===== *)
(** * log: a device

    An environment of the log with its settings, peers, console, files and level table as
    lists, in UTC. It satisfies every law the theorems assume, so their hypotheses can hold,
    and runs the scenarios that show what the code does not do. *)

From stdpp Require Import gmap.
From S2P Require Import Prelude CLib Cron CronNextRun Config LogRing LogText LogTextProofs Log LogTask.
From S2P Require Import LogInv LogFlow LogInbound LogAdmin.
Import NextRun Utc.
Open Scope Z_scope.
Open Scope spangap_scope.

Module LogDemo.

(** [inq]: what each handle has to read; [outq]: what was sent; [levels]: the tags' own levels
    over [glob]; [pos]: where the open file is read. *)
Record dev := {
  settings : list (bytes * bytes); writes : list (bytes * bytes); conns : list Z; inq : list (Z * bytes);
  outq : list (Z * bytes); console : list bytes; wire : bool; glob : Z; levels : list (bytes * Z);
  files : list (bytes * bytes); pos : nat; gone : list bytes; printed : list bytes; sec : Z }.

Definition set_settings (w : dev) s wr := {| settings := s; writes := wr; conns := conns w; inq := inq w; outq := outq w;
  console := console w; wire := wire w; glob := glob w; levels := levels w; files := files w; pos := pos w; gone := gone w;
  printed := printed w; sec := sec w |}.
Definition set_io (w : dev) c i o := {| settings := settings w; writes := writes w; conns := c; inq := i; outq := o;
  console := console w; wire := wire w; glob := glob w; levels := levels w; files := files w; pos := pos w; gone := gone w;
  printed := printed w; sec := sec w |}.
Definition set_console (w : dev) c := {| settings := settings w; writes := writes w; conns := conns w; inq := inq w; outq := outq w;
  console := c; wire := wire w; glob := glob w; levels := levels w; files := files w; pos := pos w; gone := gone w;
  printed := printed w; sec := sec w |}.
Definition set_levels (w : dev) g l := {| settings := settings w; writes := writes w; conns := conns w; inq := inq w; outq := outq w;
  console := console w; wire := wire w; glob := g; levels := l; files := files w; pos := pos w; gone := gone w;
  printed := printed w; sec := sec w |}.
Definition set_files (w : dev) f p g := {| settings := settings w; writes := writes w; conns := conns w; inq := inq w; outq := outq w;
  console := console w; wire := wire w; glob := glob w; levels := levels w; files := f; pos := p; gone := g;
  printed := printed w; sec := sec w |}.
Definition set_printed (w : dev) p := {| settings := settings w; writes := writes w; conns := conns w; inq := inq w; outq := outq w;
  console := console w; wire := wire w; glob := glob w; levels := levels w; files := files w; pos := pos w; gone := gone w;
  printed := p; sec := sec w |}.

Definition assoc {A} (k : bytes) (l : list (bytes * A)) : option A := snd <$> List.find (fun e => streq e.1 k) l.
Definition without {A} (k : bytes) (l : list (bytes * A)) : list (bytes * A) := List.filter (fun e => negb (streq e.1 k)) l.

Fixpoint recvFrom (h : Z) (l : list (Z * bytes)) : bytes * list (Z * bytes) :=
  match l with
  | [] => ([], [])
  | (k, d) :: l' => if k =? h then (d, l') else let '(b, r) := recvFrom h l' in (b, (k, d) :: r)
  end.

(** The file being read is the last one opened; handle 9 reads, handle 8 is the log's stream. *)
Definition readText (w : dev) : bytes := match files w with (_, t) :: _ => t | [] => [] end.
Definition openText (p : bytes) (w : dev) : bytes := default [] (assoc p (files w)).

#[export] Instance DevEnv : LogEnv dev := {|
  log_calendar := UtcCalendar;
  itsSend h d w := (Zlen d, set_io w (conns w) (inq w) (outq w ++ [(h, d)]));
  itsRecv h n w := let '(b, l) := recvFrom h (inq w) in (b, set_io w (conns w) l (outq w));
  itsConnected h w := bool_decide (h ∈ conns w);
  itsServerActive w := Zlen (conns w);
  itsDisconnect h w := w;
  storageExists k w := match assoc k (settings w) with Some _ => true | None => false end;
  storageGetStr k n d w := trunc n (default d (assoc k (settings w)));
  storageGetInt k d w := match assoc k (settings w) with Some v => atoi v | None => d end;
  storageSet k v w := set_settings w (without k (settings w) ++ [(k, v)]) (writes w ++ [(k, v)]);
  storageForEach p w := List.filter (fun e => has_prefix p e.1) (settings w);
  storageDefault k v w := w;
  storageDefaultTree k j w := w;
  fs_open_stream p w := (8, w);
  fs_stream_sync f w := w;
  fs_open p w := (9, set_files w ((p, openText p w) :: files w) 0 (gone w));
  fs_seek_end f w := set_files w (files w) (length (readText w)) (gone w);
  fs_seek_set f n w := set_files w (files w) (Z.to_nat n) (gone w);
  fs_tell f w := Z.of_nat (pos w);
  fs_read f n w := (take (Z.to_nat n) (drop (pos w) (readText w)), w);
  fs_close f w := w;
  fs_mkdirp d w := w;
  fs_listdir d n w := map fst (files w);
  fs_remove p w := (0, set_files w (files w) (pos w) (gone w ++ [p]));
  sdAvailable w := true;
  esp_timer_get_time w := 0;
  gettimeofday w := (sec w, 342000);
  esp_log_level_get t w := match t with Some t => default (glob w) (assoc t (levels w)) | None => glob w end;
  esp_log_level_set t l w := if streq t STAR then set_levels w l [] else set_levels w (glob w) ((t, l) :: levels w);
  esp_log_text c t m w := [c] ++ ($ " (123) ") ++ t ++ ($ ": ") ++ m ++ [10];
  esp_vprintf d w := w;
  heap_alloc n w := true;
  consoleEmitRaw d w := set_console w (console w ++ [d]);
  consoleWriteLock w := w;
  consoleWriteUnlock w := w;
  consoleOnCdc w := false;
  consoleWriteDead w := false;
  serialInCli w := false;
  serialInHandler w := false;
  pmUsbAttached w := wire w;
  pmPollUsb w := w;
  xTaskNotifyGive w := w;
  cliPrintf d w := set_printed w (printed w ++ [d]) |}.

End LogDemo.
Import LogDemo.

(** ** The laws *)

Lemma civil_mday d : 1 <= dt_mday (civil d) <= 31 /\ 0 <= dt_mon (civil d) < 12 /\ 1970 <= dt_year (civil d).
Proof.
  unfold civil. induction (Z.to_N d) as [|n IH] using N.peano_ind; [cbn; lia|]. rewrite N.iter_succ.
  set (x := N.iter n next_date (mk_date 1970 0 1 4)) in *. clearbody x. destruct x as [y m md wd]. cbn [dt_mday dt_mon dt_year] in IH.
  assert (L : month_len y m <= 31).
  { unfold month_len, days_before_month. assert (m = 0 \/ m = 1 \/ m = 2 \/ m = 3 \/ m = 4 \/ m = 5 \/ m = 6 \/ m = 7 \/ m = 8 \/ m = 9 \/ m = 10 \/ m = 11) as C by lia.
    destruct (is_leap y); naive_solver lia. }
  unfold next_date. cbn [dt_mday dt_mon dt_year]. destruct (Z.ltb_spec md (month_len y m)); [cbn; lia|].
  destruct (Z.ltb_spec m 11); cbn; lia.
Qed.

#[export] Instance DevLaws : LogEnvLaws dev.
Proof.
  constructor.
  - intros k n d w. cbn. unfold trunc. rewrite Zlen_take. lia.
  - intros c t m w. cbn [esp_log_text DevEnv]. rewrite !Zlen_app. change (Zlen [c]) with 1. change (Zlen ($ " (123) ")) with 7.
    change (Zlen ($ ": ")) with 2. change (Zlen [10]) with 1. lia.
  - intros s. pose proof (civil_mday (s / 86400)) as (A & B & _). cbn. unfold utc_localtime. constructor; cbn; try lia;
      Z.to_euclidean_division_equations; lia.
  - intros w. cbn. lia.
Qed.

#[export] Instance DevTrace : LogTrace dev.
Proof. refine {| offers := outq |}; done. Defined.

Lemma assoc_cons_ne {A} (k k' : bytes) (v : A) l : k <> k' -> assoc k ((k', v) :: l) = assoc k l.
Proof. intros N. unfold assoc. cbn [List.find fst]. by rewrite (proj2 (streq_false k' k)) by congruence. Qed.

#[export] Instance DevLevels : LogLevels dev.
Proof.
  constructor.
  - done.
  - intros t l w N. cbn [esp_log_level_get esp_log_level_set DevEnv]. rewrite (proj2 (streq_false t STAR)) by done.
    unfold assoc. cbn [levels set_levels List.find fst]. by rewrite (proj2 (streq_true t t)).
  - intros t t' l w N N'. cbn [esp_log_level_get esp_log_level_set DevEnv]. rewrite (proj2 (streq_false t' STAR)) by done.
    cbn [levels glob set_levels]. by rewrite assoc_cons_ne.
  - intros k n d t l w. cbn [esp_log_level_set DevEnv]. by destruct (streq t STAR).
  - intros p t l w. cbn [esp_log_level_set DevEnv]. by destruct (streq t STAR).
Qed.

#[export] Instance DevStore : LogStoreTrace dev.
Proof. refine {| removed := gone; stored := writes |}; done. Defined.

#[export] Instance DevFs : LogFs dev.
Proof.
  refine {| fileAt := openText |}; try done.
  - by intros path w f w' [= <- <-] F.
  - by intros path w f w' off n [= <- <-] F O N.
Defined.

#[export] Instance UtcMidnight : Midnight.
Proof.
  constructor.
  - intros now N. pose proof (civil_ok (now / 86400) ltac:(apply Z.div_pos; lia)) as [_ E].
    exists (86400 * (now / 86400)). eexists. split.
    + cbn [mktime UtcCalendar]. unfold utc_mktime. cbn [tm_year tm_mon tm_mday tm_hour tm_min tm_sec localtime UtcCalendar utc_localtime at_time date_tm].
      replace (dt_year (civil (now / 86400)) - 1900 + 1900) with (dt_year (civil (now / 86400))) by lia. rewrite E.
      replace (60 * (1440 * (now / 86400) + 60 * 0 + 0) + 0) with (86400 * (now / 86400)) by lia.
      pose proof (Z.div_pos now 86400 ltac:(lia) ltac:(lia)). rewrite (proj2 (Z.ltb_ge _ 0)) by lia. done.
    + Z.to_euclidean_division_equations. lia.
  - intros now N. pose proof (civil_mday (now / 86400)) as (A & B & C).
    pose proof (civil_ok (now / 86400) ltac:(apply Z.div_pos; lia)) as [_ E].
    cbn [localtime UtcCalendar utc_localtime at_time date_tm tm_year tm_mon tm_mday]. split_and!; try lia.
    unfold days_of, days_before_year in E. assert (0 <= days_before_month (dt_year (civil (now / 86400))) (dt_mon (civil (now / 86400)))).
    { unfold days_before_month. assert (forall n, 0 <= nth n [0; 31; 59; 90; 120; 151; 181; 212; 243; 273; 304; 334; 365] 0).
      { intros n. do 13 (destruct n as [|n]; [cbn; lia|]). by destruct n. }
      specialize (H (Z.to_nat (dt_mon (civil (now / 86400))))). case_match; lia. }
    assert (now / 86400 < 50000) by (apply Z.div_lt_upper_bound; lia).
    set (y := dt_year (civil (now / 86400))) in *. Z.to_euclidean_division_equations. lia.
Qed.

(** ** The device after start-up *)

Definition dev0 : dev := {|
  settings := [($ "s.log.timestamp", $ "1")]; writes := []; conns := []; inq := []; outq := []; console := []; wire := false;
  glob := ESP_LOG_INFO; levels := []; files := []; pos := 0; gone := []; printed := []; sec := 1711556595 |}.

Definition started : log_st dev := logInit (log0 dev0).

(** A text of ESP-IDF, and a ring that holds one. *)
Definition upLine : bytes := idfLine None (chr "I") ($ "123") ($ "wifi") ($ "up") None.

Lemma started_ring : logIn started = ring0.
Proof. reflexivity. Qed.

Ltac decide_it := apply (bool_decide_unpack _); vm_compute; exact I.

Lemma log_line_recorded_witness :
  exists b d, holds (logIn (logVprintf ($ "net") upLine started).2) b d /\
    stripAnsi b = ($ "Mar 27 16:23:15.342 I [net] wifi: up") ++ [10] /\ lineLevel (stripAnsi b) = chr "I".
Proof.
  assert (OK : idf_ok None (chr "I") ($ "123") ($ "wifi") ($ "up") None).
  { constructor; try done; try decide_it.
    intros m c E. apply (f_equal last) in E. rewrite last_snoc in E. vm_compute in E. injection E as <-. reflexivity. }
  assert (H1 : listening started) by (split_and!; vm_compute; reflexivity).
  assert (H2 : Forall color_ok (logColors started)) by (change (logColors started) with
    [$ "0;31"; $ "0;33"; $ "0;32"; $ "0;37"; $ "0;90"; $ "0;90"]; repeat constructor; decide_it).
  assert (H3 : ESC ∉ $ "net") by decide_it. assert (H4 : ESC ∉ $ "wifi") by decide_it.
  assert (H5 : 0 ∉ upLine) by decide_it. assert (H6 : Zlen upLine < Z.of_nat LOG_RAW_MAX) by (vm_compute; reflexivity).
  assert (H7 : $ "wifi" = $ "net" -> has_prefix (($ "net") ++ [chr ":"]) ($ "up") = false) by (vm_compute; discriminate).
  assert (H8 : logRuleApply (logRules started) (fun t => esp_log_level_get t (world started)) ($ "up") (Some ($ "wifi")) (chr "I") = Some (chr "I"))
    by (vm_compute; reflexivity).
  assert (H9 : Zlen ($ "wifi") + Zlen ($ "up") + Zlen ($ "net") <= 970) by (vm_compute; discriminate).
  assert (HA : holds (logIn started) [] 0) by (rewrite started_ring; apply ring0_holds).
  destruct (log_line_recorded _ _ _ _ _ _ _ started [] 0 H1 H2 H3 H4 OK H5 H6 H7 H8 H9 HA) as (_ & _ & R & S & L).
  eexists _, _. split; [exact R|]. split; vm_compute; reflexivity.
Defined.

(** *** Consumers *)

Definition LF : bytes := [10].
Definition connect (hs : list Z) (w : dev) : dev := set_io w hs (inq w) (outq w).

(** A pipe in slot 0 and a browser in slot 1. *)
Definition two : log_st dev :=
  foldl deliver (on_world (connect [5; 6]) started) [EvTcp 5 []; EvDc 6 []].

Definition hello : bytes := sgr ($ "0;32") ++ ($ "I [net] hello") ++ sgr0 ++ LF.
Definition twoLoaded : log_st dev := with_ring two (logRingWrite hello ring0).2.

Lemma hello_holds : holds (logIn twoLoaded) hello 0.
Proof. exact (logRingWrite_holds hello ring0 [] 0 ring0_holds). Qed.

Lemma alone_two s i h :
  logSlots s = logSlots two -> logFile (file s) = -1 -> live s i = true -> (i < 2)%nat -> h = Z.of_nat i + 5 -> alone s i h.
Proof.
  intros S F L I ->. split_and!; [unfold LOG_MAX_CONSUMERS; lia| |done|rewrite F; lia|]; unfold slotAt; rewrite S.
  - destruct i as [|[|i]]; [reflexivity..|lia].
  - intros j N. destruct i as [|[|i]], j as [|[|[|[|[|j]]]]]; try lia; vm_compute; discriminate.
Qed.

Lemma drain_delivers_witness :
  exists s l l', offers (world s) = offers (world twoLoaded) ++ l /\ offers (world s) = offers (world twoLoaded) ++ l' /\
    sentTo 6 l = hello /\ sentTo 5 l' = ($ "I [net] hello") ++ LF.
Proof.
  assert (A : forall i, (i < 2)%nat -> alone twoLoaded i (Z.of_nat i + 5)).
  { intros i I. apply alone_two; [reflexivity|vm_compute; reflexivity| |exact I|reflexivity].
    destruct i as [|[|i]]; [vm_compute; reflexivity..|lia]. }
  destruct (drain_delivers twoLoaded hello 0 1 6 false hello_holds (A 1%nat ltac:(lia))) as (_ & l & O & S).
  destruct (drain_delivers twoLoaded hello 0 0 5 false hello_holds (A 0%nat ltac:(lia))) as (_ & l' & O' & S').
  exists (drainRing drainFuel true false twoLoaded), l, l'. split_and!; [exact O|exact O'| |].
  - rewrite S. reflexivity.
  - rewrite S'. vm_compute. reflexivity.
Defined.

Lemma inbound_delivers_witness :
  exists l, offers (world (foldl (foldl (inboundByte 0)) two [($ "12:00 E Brow"); ($ "ser: no") ++ [13; 10]; $ "mor"])) =
      offers (world two) ++ l /\
    sentTo 6 l = sgr ($ "0;90") ++ ($ "12:00") ++ sgr0 ++ [32] ++ sgr ($ "0;31") ++ ($ "E Browser: no") ++ sgr0 ++ LF /\
    sentTo 5 l = [].
Proof.
  destruct (inbound_delivers 0 two [($ "12:00 E Brow"); ($ "ser: no") ++ [13; 10]; $ "mor"]) as (ls & rest & l & P & F & R & _ & O & G & N);
    [vm_compute; lia|reflexivity|reflexivity|].
  exists l. split; [exact O|].
  assert (A : forall i, (i < 2)%nat -> alone two i (Z.of_nat i + 5)).
  { intros i I. apply alone_two; [reflexivity|vm_compute; reflexivity| |exact I|reflexivity].
    destruct i as [|[|i]]; [vm_compute; reflexivity..|lia]. }
  split; [|apply N, (A 0%nat); lia]. rewrite (G 1%nat 6); [|apply (A 1%nat); lia|discriminate].
  assert (E : ls = [$ "12:00 E Browser: no"]); [|rewrite E; vm_compute; reflexivity].
  assert (P' : ($ "12:00 E Browser: no") ++ LF ++ ($ "mor") = concat (map (fun x => x ++ [10]) ls) ++ rest) by (etransitivity; [|exact P]; reflexivity).
  clear - P' F R. destruct ls as [|x ls]; cbn [map concat app] in P'.
  - exfalso. apply R. rewrite <- P'. decide_it.
  - inversion F as [|? ? Fx Fs]; subst. rewrite <- !app_assoc in P'.
    assert (X : strchr (x ++ [10] ++ concat (map (fun x => x ++ [10]) ls) ++ rest) 10 = Some (x, concat (map (fun x => x ++ [10]) ls) ++ rest))
      by (by apply strchr_app).
    cbn [app] in P', X. rewrite <- P' in X. vm_compute (strchr _ _) in X. injection X as <- X.
    destruct ls as [|y ls]; [done|]. exfalso. assert (10 ∉ $ "mor") as Q by decide_it. apply Q.
    change ($ "mor") with [109; 111; 114]. rewrite X. cbn [map concat]. rewrite <- !app_assoc. apply elem_of_app. right. by apply elem_of_cons; left.
Defined.

(** *** Levels, rotation, paste-back *)

Definition tuned : log_st dev :=
  logTagDefault ($ "rnsd") ($ "error") (on_world (fun w => set_settings w
    [($ "s.log.level", $ "warn"); ($ "s.log.tag.wifi", $ "debug"); ($ "s.log.tag.rnsd", $ "-")] []) started).

Lemma level_precedence_witness :
  map (fun t => esp_log_level_get (Some t) (world (logApplyLevels tuned))) [$ "wifi"; $ "rnsd"; $ "other"] =
  [ESP_LOG_DEBUG; ESP_LOG_ERROR; ESP_LOG_WARN].
Proof.
  cbn [map]. rewrite !(level_precedence tuned) by decide_it. vm_compute. reflexivity.
Defined.

Definition dated : dev :=
  set_files (set_settings dev0 [($ "s.log.file.name", $ "20240326.log")] [])
    [($ "20240101.log", []); ($ "20240326.log", []); ($ "20240327.log", []); ($ "notes.txt", [])] 0 [].

Lemma logrotate_exact_witness :
  removed (cmdLogrotate ($ "7") dated) = [$ "/sdcard/log/20240101.log"] /\
  stored (cmdLogrotate ($ "7") dated) = [($ "s.log.file.name", $ "20240327.log")] /\
  stored (cmdLogrotate ($ "7") (set_settings dated [($ "s.log.file.name", [])] [])) = [].
Proof.
  destruct (logrotate_exact ($ "7") dated) as (_ & A & _); [vm_compute; reflexivity|].
  destruct A as [A1 A2]; [right; vm_compute; reflexivity|].
  destruct (logrotate_exact ($ "7") (set_settings dated [($ "s.log.file.name", [])] [])) as (_ & B & _); [vm_compute; reflexivity|].
  destruct B as [B1 _]; [left; vm_compute; reflexivity|].
  split; [|split].
  - etransitivity; [exact (A2 eq_refl)|vm_compute; reflexivity].
  - etransitivity; [exact A1|vm_compute; reflexivity].
  - etransitivity; [exact B1|vm_compute; reflexivity].
Defined.

Definition pasteFrom (text : bytes) : log_st dev :=
  let s := on_world (fun w => set_files w [($ "/log", text)] 0 []) started in
  with_file s {| logFile := 8; logFilePath := $ "/log"; lastFlushUs := 0; logFileLevelMax := 4; logFileIntervalMs := 5000;
                 logFileDirty := false; warned := false |}.

Definition oldLines : bytes := ($ "cut short") ++ LF ++ ($ "12:00 I [net] up") ++ LF ++ ($ "12:01 E [net] down") ++ LF.

Lemma paste_back_tail_witness :
  exists packets, outq (world (logPasteBack 6 40 true (pasteFrom oldLines))) = map (pair 6) packets /\
    stripAnsi (concat packets) = ($ "12:00 I [net] up") ++ LF ++ ($ "12:01 E [net] down") ++ LF.
Proof.
  assert (C : Forall color_ok (logColors (pasteFrom oldLines))) by (change (logColors _) with
    [$ "0;31"; $ "0;33"; $ "0;32"; $ "0;37"; $ "0;90"; $ "0;90"]; repeat constructor; decide_it).
  destruct (paste_back_tail 6 40 true (pasteFrom oldLines)) as (ps & O & _ & S); [done|vm_compute; discriminate|
    vm_compute; discriminate|decide_it|exact C|vm_compute; discriminate|done|done|].
  exists ps. split; [exact O|]. etransitivity; [exact S|]. vm_compute. reflexivity.
Defined.

(** *** The invariant *)


(** ** What the code does not do *)

(** A line of 1023 bytes, formatted with its time and colours, is longer than the block it is
    formatted in, and bytes past the block are scrubbed and written to the ring. *)
Definition longText : bytes := ($ "I (1) a: ") ++ replicate 1014 (chr "x").

Theorem long_line_leaves_block : Zlen longText = 1023 /\ bad (logVprintf ($ "main") longText started).2 = true.
Proof. split; vm_compute; reflexivity. Qed.

(** Ten lines of five bytes, sent by a consumer and read back with colours, do not fit the
    block of twice their size and 64 bytes. *)
Definition shortLines : bytes := concat (replicate 10 (($ "x E [") ++ LF)).

Theorem paste_back_overflows : bad (logPasteBack 6 1000 true (pasteFrom shortLines)) = true.
Proof. vm_compute. reflexivity. Qed.

(** A file that takes only warnings and errors: an error that the 511-byte piece of the ring
    cuts in two is written as far as the cut; the rest, with no level in it, counts as
    information and is left out. *)
Definition filler : bytes := ($ "D [net] ") ++ replicate 494 (chr "x") ++ LF.
Definition errorLine : bytes := ($ "E [net] something went wrong") ++ LF.
Definition warnFile (data : bytes) : log_st dev :=
  let s := with_ring started (logRingWrite data ring0).2 in
  with_file s {| logFile := 8; logFilePath := $ "/log"; lastFlushUs := 0; logFileLevelMax := 1; logFileIntervalMs := 5000;
                 logFileDirty := false; warned := false |}.

Theorem file_filter_cuts_lines :
  outq (world (drainRing drainFuel false true (warnFile (filler ++ errorLine)))) = [(8, $ "E [net] ")].
Proof. vm_compute. reflexivity. Qed.

(** The same cut inside a colour: a consumer that takes no colours gets part of the escape. *)
Definition almost : bytes := replicate 505 (chr "x") ++ LF ++ sgr ($ "0;31") ++ ($ "E [net] no") ++ sgr0 ++ LF.

Theorem plain_consumer_gets_escape :
  outq (world (drainRing drainFuel true false (with_ring two (logRingWrite almost ring0).2))) !! 2%nat =
  Some (5, ($ "1mE [net] no") ++ LF).
Proof. vm_compute. reflexivity. Qed.

(** Two lines that are in the ring together reach a browser as one message. *)
Theorem one_message_two_lines :
  exists m, In (6, m) (outq (world (drainRing drainFuel true false (with_ring two (logRingWrite (hello ++ hello) ring0).2)))) /\
    m = hello ++ hello.
Proof. eexists. split; [|reflexivity]. vm_compute. tauto. Qed.

(** A level set for a tag of more than 19 bytes does not reach that tag. *)
Definition longTag : bytes := $ "esp_netif_lwip_handlers".

Theorem long_tag_keeps_level :
  let s := cmdLog (longTag ++ ($ " debug")) started in
  esp_log_level_get (Some longTag) (world s) = ESP_LOG_INFO /\
  esp_log_level_get (Some (take 19 longTag)) (world s) = ESP_LOG_DEBUG.
Proof. vm_compute. split; reflexivity. Qed.

(** What is said about lines that nobody could hear: with the ring full and no sink, a line
    is counted; when the cable is plugged in, the pass reports it on the wire. *)
Definition plug (b : bool) (w : dev) : dev := {| settings := settings w; writes := writes w; conns := conns w; inq := inq w;
  outq := outq w; console := console w; wire := b; glob := glob w; levels := levels w; files := files w; pos := pos w;
  gone := gone w; printed := printed w; sec := sec w |}.
Definition deaf : log_st dev := (logVprintf ($ "net") upLine (with_ring (logPass [] started) (logRingWrite (replicate (Z.to_nat LOG_RING_SIZE) (chr "x")) ring0).2)).2.

Theorem suppressed_are_reported :
  logSuppressed (gate deaf) = 1 /\ console (world deaf) = [] /\
  map stripAnsi (console (world (logPass [EvOther (plug true)] deaf))) =
  [($ "Mar 27 16:23:15.342 W [log] 1 lines not recorded: nothing was listening") ++ LF].
Proof. vm_compute. tauto. Qed.
