(* ===== verification/Vfs.v ===== *)
(** * fs: files by path, and what a power cut leaves (src/esp-idf/src/fs.cpp)

    The C library's file calls as the fs worker makes them are the class [Vfs], what is
    relied on of them [VfsLaws]. A routine that changes files is an [io] computation: it
    yields its result, the file system it leaves, and every file system it passes
    through, one after each call that changes something; a power cut leaves one of
    those. [crashes] is the logic of such computations. Of fs.cpp the file has the staged
    writes to the SD card, the path operations, and the rename that replaces its target
    on a file system that refuses to. *)

From stdpp Require Import gmap.
From S2P Require Import Prelude CLib.
Open Scope Z_scope.
Open Scope spangap_scope.

(** ** Computations that leave a trail *)

Section Io.
Context {F : Type}.

Definition io (A : Type) : Type := F -> A * F * list F.

Definition ret {A} (a : A) : io A := fun fs => (a, fs, []).
Definition bind {A B} (m : io A) (k : A -> io B) : io B := fun fs =>
  let '(a, fs1, t1) := m fs in
  let '(b, fs2, t2) := k a fs1 in
  (b, fs2, t1 ++ t2).

(** A call that only looks, and one that changes the files. *)
Definition look {A} (f : F -> A) : io A := fun fs => (f fs, fs, []).
Definition change {A} (f : F -> A * F) : io A := fun fs => let '(a, fs1) := f fs in (a, fs1, [fs1]).
Definition change_ (f : F -> F) : io unit := change (fun fs => (tt, f fs)).

Definition result {A} (m : io A) (fs : F) : A := (m fs).1.1.
Definition after {A} (m : io A) (fs : F) : F := (m fs).1.2.
Definition trail {A} (m : io A) (fs : F) : list F := (m fs).2.

(** From [fs], [m] ends in [Q] and passes only through file systems in [C]. *)
Definition crashes {A} (C : F -> Prop) (m : io A) (Q : A -> F -> Prop) (fs : F) : Prop :=
  Forall C (trail m fs) /\ Q (result m fs) (after m fs).

Lemma crashes_ret {A} C (a : A) (Q : A -> F -> Prop) fs : Q a fs -> crashes C (ret a) Q fs.
Proof. intros H. split; [constructor|done]. Qed.

Lemma crashes_look {A} C (f : F -> A) (Q : A -> F -> Prop) fs : Q (f fs) fs -> crashes C (look f) Q fs.
Proof. intros H. split; [constructor|done]. Qed.

Lemma crashes_change {A} C (f : F -> A * F) (Q : A -> F -> Prop) fs :
  C (f fs).2 -> Q (f fs).1 (f fs).2 -> crashes C (change f) Q fs.
Proof. intros H K. unfold crashes, trail, result, after, change. destruct (f fs). split; [by repeat constructor|done]. Qed.

Lemma crashes_bind {A B} C (m : io A) (k : A -> io B) (Q : B -> F -> Prop) fs :
  crashes C m (fun a => crashes C (k a) Q) fs -> crashes C (bind m k) Q fs.
Proof.
  unfold crashes, trail, result, after, bind. destruct (m fs) as [[a fs1] t1]. cbn.
  destruct (k a fs1) as [[b fs2] t2]. cbn. intros (H1 & H2 & H3). split; [by apply Forall_app|done].
Qed.

Lemma result_bind {A B} (m : io A) (k : A -> io B) fs : result (bind m k) fs = result (k (result m fs)) (after m fs).
Proof. unfold result, after, bind. destruct (m fs) as [[a fs1] t1]. cbn. by destruct (k a fs1) as [[b fs2] t2]. Qed.

Lemma after_bind {A B} (m : io A) (k : A -> io B) fs : after (bind m k) fs = after (k (result m fs)) (after m fs).
Proof. unfold result, after, bind. destruct (m fs) as [[a fs1] t1]. cbn. by destruct (k a fs1) as [[b fs2] t2]. Qed.

Lemma trail_bind {A B} (m : io A) (k : A -> io B) fs : trail (bind m k) fs = trail m fs ++ trail (k (result m fs)) (after m fs).
Proof. unfold result, after, trail, bind. destruct (m fs) as [[a fs1] t1]. cbn. by destruct (k a fs1) as [[b fs2] t2]. Qed.

Lemma crashes_mono {A} (C C' : F -> Prop) (m : io A) (Q Q' : A -> F -> Prop) fs :
  crashes C m Q fs -> (forall g, C g -> C' g) -> (forall a g, Q a g -> Q' a g) -> crashes C' m Q' fs.
Proof. intros (H1 & H2) HC HQ. split; [by eapply Forall_impl|by apply HQ]. Qed.

End Io.
Arguments io : clear implicits.

Notation "'let*' x := m 'in' k" := (bind m (fun x => k))
  (at level 10, x binder, m at level 200, k at level 200) : spangap_scope.

(** ** The C library *)

Class Vfs (F : Type) := {
  vfs_stat : F -> bytes -> option Z;              (** the size *)
  vfs_fopen_rb : F -> bytes -> bool;
  vfs_fread : F -> bytes -> Z -> bytes;           (** from the start of the file *)
  vfs_fopen_w : F -> bytes -> bool * F;
  vfs_fwrite : F -> bytes -> bytes -> Z * F;      (** appended to a file opened to write *)
  vfs_rename : F -> bytes -> bytes -> bool * F;
  vfs_remove : F -> bytes -> F;
  vfs_mkdir : F -> bytes -> F;
  vfs_readdir : F -> bytes -> option (list bytes) (** the names [readdir] yields *)
}.

Definition FS_SDCARD : bytes := $ "/sdcard".
Definition FS_SD_SECTOR_BYTES : Z := 512.

Section Fs.
Context {F : Type} `{V : Vfs F}.

Definition fsIsSdPath (p : bytes) : bool := has_prefix (FS_SDCARD ++ [chr "/"]) p.

(** The loop of [fsSdFwrite] for elements of one byte; each round takes at least one. *)
Fixpoint sdLoop (fuel : nat) (p buf : bytes) (done_ : Z) : io F Z :=
  if Zlen buf =? 0 then ret done_
  else
    match fuel with
    | O => ret done_
    | S f =>
        let n := if FS_SD_SECTOR_BYTES <=? Zlen buf then FS_SD_SECTOR_BYTES / 2 else Zlen buf in
        let* w := change (fun fs => vfs_fwrite fs p (take (Z.to_nat n) buf)) in
        if w <? n then ret (done_ + w)
        else sdLoop f p (drop (Z.to_nat n) buf) (done_ + w)
    end.

Definition fsSdFwrite (p buf : bytes) (sd : bool) : io F Z :=
  if negb sd then change (fun fs => vfs_fwrite fs p buf) else sdLoop (length buf) p buf 0.

Definition fs_write (p buf : bytes) : io F Z := fsSdFwrite p buf (fsIsSdPath p).

(** The worker's STAT: the root directory, which is no mount, is answered without a call. *)
Definition fs_stat (fs : F) (p : bytes) : option Z :=
  if streq p [chr "/"] || (Zlen p =? 0) then Some 0 else vfs_stat fs p.

(** The worker's RENAME. *)
Definition fs_rename (from to : bytes) : io F bool :=
  let* ok := change (fun fs => vfs_rename fs from to) in
  if ok : bool then ret true
  else
    let* st := look (fun fs => vfs_stat fs to) in
    match st with
    | None => ret false
    | Some _ =>
        let* _ := change_ (fun fs => vfs_remove fs to) in
        change (fun fs => vfs_rename fs from to)
    end.

Definition fs_open_w (p : bytes) : io F bool := change (fun fs => vfs_fopen_w fs p).
Definition fs_remove (p : bytes) : io F unit := change_ (fun fs => vfs_remove fs p).
Definition fs_mkdir (p : bytes) : io F unit := change_ (fun fs => vfs_mkdir fs p).

(** [for (char* p = tmp + 1; *p; p++)]: the directory before each slash, then the whole. *)
Fixpoint mkdirLoop (seen rest : bytes) : io F unit :=
  match rest with
  | [] => ret tt
  | c :: rest' =>
      if c =? chr "/" then let* _ := fs_mkdir seen in mkdirLoop (seen ++ [c]) rest'
      else mkdirLoop (seen ++ [c]) rest'
  end.

Definition fs_mkdirp (path : bytes) : io F unit :=
  let tmp := trunc 128 path in
  let* _ := mkdirLoop (take 1 tmp) (drop 1 tmp) in fs_mkdir tmp.

(** [fs_opendir] and [fs_readdir] to the end: the names, each cut to its 64-byte field. *)
Definition fs_dir (fs : F) (path : bytes) : option (list bytes) :=
  option_map (map (trunc 64)) (vfs_readdir fs path).

End Fs.

(** ** What is relied on

    [file fs p] is the contents of the file at [p]. A write may be short and may fail; so
    may a rename, which then changes nothing. *)
Class VfsLaws (F : Type) `{V : Vfs F} := {
  file : F -> bytes -> option bytes;
  stat_file fs p c : file fs p = Some c -> vfs_stat fs p = Some (Zlen c);
  stat_none fs p n : file fs p = None -> vfs_stat fs p = Some n -> n <= 0;
  rb_file fs p c : file fs p = Some c -> vfs_fopen_rb fs p = true;
  read_file fs p c : file fs p = Some c -> vfs_fread fs p (Zlen c) = c;
  open_file fs p ok fs' : vfs_fopen_w fs p = (ok, fs') ->
    (forall q, q <> p -> file fs' q = file fs q) /\ (if ok then file fs' p = Some [] else file fs' p = file fs p);
  write_file fs p b n fs' c : vfs_fwrite fs p b = (n, fs') -> file fs p = Some c ->
    0 <= n <= Zlen b /\ (forall q, q <> p -> file fs' q = file fs q) /\ file fs' p = Some (c ++ take (Z.to_nat n) b);
  rename_file fs p q ok fs' : vfs_rename fs p q = (ok, fs') -> p <> q ->
    (forall r, r <> p -> r <> q -> file fs' r = file fs r) /\
    (if ok then file fs' q = file fs p /\ file fs' p = None /\ is_Some (file fs p)
     else file fs' p = file fs p /\ file fs' q = file fs q);
  remove_file fs p : (forall q, q <> p -> file (vfs_remove fs p) q = file fs q) /\
    (file (vfs_remove fs p) p = None \/ file (vfs_remove fs p) p = file fs p);
  mkdir_file fs p q : file (vfs_mkdir fs p) q = file fs q;
  dir_file fs d ns n : vfs_readdir fs d = Some ns -> is_Some (file fs (d ++ [chr "/"] ++ n)) -> n ∈ ns
}.

(** A file system with room and no faults. [replaces]: [rename] replaces its target, as
    LittleFS does and FAT does not. *)
Class VfsSound (F : Type) (replaces : bool) `{L : VfsLaws F} := {
  open_ok fs p : (vfs_fopen_w fs p).1 = true;
  write_ok fs p b : is_Some (file fs p) -> (vfs_fwrite fs p b).1 = Zlen b;
  rename_ok fs p q : is_Some (file fs p) -> file fs q = None \/ replaces = true -> (vfs_rename fs p q).1 = true;
  remove_ok fs p : file (vfs_remove fs p) p = None;
  readdir_ok fs d n : is_Some (file fs (d ++ [chr "/"] ++ n)) -> is_Some (vfs_readdir fs d)
}.
