(* ===== verification/Persist.v ===== *)
(** * storage: the files of the configuration tree (src/esp-idf/src/storage.cpp)

    [Files]: reading and writing one file, plain or gzip, through a temporary and a rename.
    [Flush]: the persist worker. It runs beside the actor, so it is a machine whose steps
    are its critical sections and its file writes ([saveStep]); [storageApplyOps] and the
    other calls fall between any two of them. [Load]: assembling the tree at start-up.

    Left out: the time stamps and warnings about slow flushes. *)

From stdpp Require Import gmap.
From S2P Require Import Prelude CLib Targz StorageDb Config Vfs.
Import Tree Ops Subs Actor.
Open Scope Z_scope.
Open Scope spangap_scope.

(** [cJSON_Parse] of a C string. *)
Class CJsonParse := { cJSON_Parse : bytes -> option json }.

(** The heap as the files' routines see it: whether [gp_alloc] finds a block, and what a
    block holds before it is written. *)
Class Heap (F : Type) := {
  gp_alloc : F -> Z -> bool;
  gp_junk : F -> Z -> bytes;
  TDEFL_SIZE : Z;
  TINFL_SIZE : Z
}.

Module Files.
Section Files.
Context {F C I : Type} `{V : Vfs F} `{H : Heap F} `{TD : Tdefl C} `{TI : Tinfl I} `{CR : Crc}.

(** The file's bytes; the block is not cleared, and what [fs_read] returns is not looked at. *)
Definition readFileStr (fs : F) (path : bytes) : option bytes :=
  match fs_stat fs path with
  | None => None
  | Some sz =>
      if sz <=? 0 then None
      else if negb (vfs_fopen_rb fs path) then None
      else if negb (gp_alloc fs (sz + 1)) then None
      else
        let got := vfs_fread fs path sz in
        Some (take (Z.to_nat sz) (got ++ drop (length got) (gp_junk fs sz)))
  end.

Definition STORAGE_FLUSH_CHUNK : Z := 8192.

Fixpoint writeLoop (fuel : nat) (p data : bytes) : io F bool :=
  if Zlen data =? 0 then ret true
  else
    match fuel with
    | O => ret false
    | S f =>
        let now := take (Z.to_nat STORAGE_FLUSH_CHUNK) data in
        let* n := fs_write p now in
        if negb (n =? Zlen now) then ret false
        else writeLoop f p (drop (Z.to_nat STORAGE_FLUSH_CHUNK) data)
    end.

Definition atomicWriteFile (path data : bytes) : io F bool :=
  let tmp := path ++ $ ".new" in
  let* opened := fs_open_w tmp in
  if negb (opened : bool) then ret false
  else
    let* ok := writeLoop (length data) tmp data in
    if ok : bool then let* _ := fs_rename tmp path in ret true
    else let* _ := fs_remove tmp in ret false.

(** The same code as [gzDeflateBin] and [gzInflateBin] of storage_db.cpp, which their
    definitions are about; [gzInflate]'s outer [None] is a read outside the stream. *)
Definition gzDeflate (fs : F) (text : bytes) : option bytes :=
  let cap := 10 + 8 + Zlen text + Zlen text / 8 + 192 in
  Gz.gzDeflateBin (gp_alloc fs cap) (gp_alloc fs TDEFL_SIZE) text.

Definition gzInflate (fs : F) (gz : bytes) : option (option bytes) :=
  let isz := le_val (drop (length gz - 4) gz) in
  Gz.gzInflateBin (gp_alloc fs (isz + 1)) (gp_alloc fs TINFL_SIZE) gz.

Definition GZ : bytes := $ ".gz".

Definition readJsonFile (fs : F) (path : bytes) : option (option bytes) :=
  match readFileStr fs (path ++ GZ) with
  | Some raw =>
      text ← gzInflate fs raw;
      match text with
      | Some text => Some (Some (c_str text))
      | None => Some (c_str <$> readFileStr fs path)
      end
  | None => Some (c_str <$> readFileStr fs path)
  end.

Definition atomicWriteJsonGz (path text : bytes) : io F bool :=
  let* gz := look (fun fs => gzDeflate fs text) in
  match gz with
  | Some gz =>
      let* ok := atomicWriteFile (path ++ GZ) gz in
      if ok : bool then let* _ := fs_remove path in ret true else ret false
  | None =>
      let* ok := atomicWriteFile path text in
      if negb (ok : bool) then ret false
      else let* _ := fs_remove (path ++ GZ) in ret true
  end.

End Files.
End Files.
Import Files.

(** ** External sub-trees *)

Module Externals.
Section Externals.
Context `{CJ : CJson}.

(** [navigateLeaf] with the change [k] its caller makes to the children of the parent under
    the leaf name; [None] without a parent. A parent that is a leaf has no children to
    find or take away. *)
Fixpoint navLeaf {A} (fuel : nat) (nd : kids) (p : bytes) (k : kids -> bytes -> kids * A) : option (kids * A) :=
  match fuel with
  | O => None
  | S f =>
      let '(seg, dot, rest) := segment p in
      if Zlen seg =? 0 then None
      else if SEG_SIZE <=? Zlen seg then None
      else if negb (dot : bool) then Some (k nd seg)
      else
        i ← cJSON_find nd seg;
        match nd !! i with
        | Some (nm, JNode b l) =>
            '(c, a) ← navLeaf f l rest k;
            Some (<[i := (nm, JNode b c)]> nd, a)
        | _ => None
        end
  end.

Definition navigateLeaf {A} (root : kids) (dotPath : bytes) (k : kids -> bytes -> kids * A) : option (kids * A) :=
  if Zlen dotPath =? 0 then None else navLeaf (length dotPath) root dotPath k.

Definition cJSON_DetachItemFromObject (l : kids) (leaf : bytes) : kids * option json :=
  match cJSON_find l leaf with
  | Some i => (cJSON_DeleteItemFromObject l leaf, snd <$> l !! i)
  | None => (l, None)
  end.

(** The loop of [withExternalsDetached]: the tree without the sub-trees, and those taken
    out, each with the prefix of its external. *)
Definition detachOne (st : kids * list (bytes * json)) (e : external_t) : kids * list (bytes * json) :=
  if e_pendingDelete e then st
  else
    match navigateLeaf st.1 (e_prefix e) cJSON_DetachItemFromObject with
    | Some (r, Some item) => (r, st.2 ++ [(e_prefix e, item)])
    | _ => st
    end.

Definition detachAll (root : kids) (exts : list external_t) : kids * list (bytes * json) :=
  foldl detachOne (root, []) exts.

(** Each item is added to the parent it was taken from, in reverse order. *)
Definition reattachOne (root : kids) (sv : bytes * json) : kids :=
  match navigateLeaf root sv.1 (fun l leaf => (cJSON_AddItemToObject l leaf sv.2, tt)) with
  | Some (r, _) => r
  | None => root
  end.

Definition reattachAll (root : kids) (saved : list (bytes * json)) : kids := foldl reattachOne root (rev saved).

End Externals.
End Externals.
Import Externals.

(** ** The persist worker *)

Module Flush.

Inductive wphase :=
| W_wait                                            (** in [ulTaskNotifyTake] *)
| W_blobs (jobs : list (bytes * bytes))             (** jobs of [writePendingBlobs] left *)
| W_settings                                        (** entering [writeSettingsFile] *)
| W_ext (i : nat)                                   (** the head of its first loop *)
| W_snap (i : nat) (work : external_t)              (** [writeExternalFile], before the lock *)
| W_file (i : nat) (path text : bytes)              (** with its text, before the write *)
| W_root
| W_rootFile (text : bytes)
| W_rootClear
| W_db
| W_dbFiles (deletes : list bytes) (jobs : list (bytes * bytes))
| W_del                                             (** the head of its last loop *)
| W_delFile (path : bytes)
| W_sems.

(** What the worker shares with the actor, beside the files. *)
Record save_st (D : Type) := {
  cfg : cfg_st D; flushStopped : bool; pendingBlobs : list (bytes * bytes);
  poked : bool; phase : wphase; given : list Z
}.
Arguments cfg {D}. Arguments flushStopped {D}. Arguments pendingBlobs {D}.
Arguments poked {D}. Arguments phase {D}. Arguments given {D}.

(** The locked part of [storageDbFlushDirty]: the stores marked clean, the images of those
    that were dirty with their paths, and the files to delete. *)
Class SdbFiles (D : Type) := { sdbDirtyImages : D -> D * list (bytes * bytes) * list bytes }.

Section Flush.
Context {D F C I : Type} `{CJ : CJson} `{V : Vfs F} `{H : Heap F} `{TD : Tdefl C} `{TI : Tinfl I} `{CR : Crc}.
Context `{SF : SdbFiles D}.
Context (stateDir : bytes).
Notation sv := (save_st D).

Definition set_cfg (s : sv) (c : cfg_st D) : sv :=
  {| cfg := c; flushStopped := flushStopped s; pendingBlobs := pendingBlobs s; poked := poked s;
     phase := phase s; given := given s |}.
Definition set_phase (s : sv) (w : wphase) : sv :=
  {| cfg := cfg s; flushStopped := flushStopped s; pendingBlobs := pendingBlobs s; poked := poked s;
     phase := w; given := given s |}.
Definition set_blobs (s : sv) (l : list (bytes * bytes)) (pk : bool) : sv :=
  {| cfg := cfg s; flushStopped := flushStopped s; pendingBlobs := l; poked := pk;
     phase := phase s; given := given s |}.
Definition set_given (s : sv) (l : list Z) : sv :=
  {| cfg := cfg s; flushStopped := flushStopped s; pendingBlobs := pendingBlobs s; poked := poked s;
     phase := phase s; given := l |}.

Definition fsStatePath (sub : bytes) : bytes := stateDir ++ sub.
Definition ROOT_JSON_PATH : bytes := $ "/storage/root.json".

Definition set_dirty (e : external_t) (d : bool) : external_t :=
  {| e_prefix := e_prefix e; e_path := e_path e; e_dirty := d; e_pendingDelete := e_pendingDelete e |}.

(** The duplicate [writeExternalFile] takes, printed. *)
Definition externalText (c : cfg_st D) (prefix : bytes) : option bytes :=
  match navigatePath (root c) prefix with
  | Some node => cJSON_PrintUnformatted (cJSON_Duplicate (None, node)).2
  | None => None
  end.

(** What [writeSettingsFileOnly] copies out of the tree without its externals. *)
Definition addPart (r : kids) (k : bytes) (out : kids) : kids :=
  match cJSON_GetObjectItem (JNode false r) k with
  | Some n => cJSON_AddItemToObject out k (cJSON_Duplicate (None, n)).2
  | None => out
  end.
Definition rootParts (r : kids) : json := JNode false (addPart r ($ "secrets") (addPart r ($ "s") [])).

(** Its locked section: the text, and the tree with the externals back in place. *)
Definition rootSnapshot (c : cfg_st D) : cfg_st D * option bytes :=
  let '(r, saved) := detachAll (cfgRoot c) (externals c) in
  (with_root c (reattachAll r saved), cJSON_PrintUnformatted (rootParts r)).

(** The first external to be deleted, and the others. *)
Fixpoint takeDeleted (l : list external_t) : option (external_t * list external_t) :=
  match l with
  | [] => None
  | e :: r => if e_pendingDelete e then Some (e, r) else option_map (fun '(x, r) => (x, e :: r)) (takeDeleted r)
  end.

Definition dbWrite (path raw : bytes) : io F unit :=
  let* gz := look (fun fs =>
    Gz.gzDeflateBin (gp_alloc fs (10 + 8 + Zlen raw + Zlen raw / 8 + 192)) (gp_alloc fs TDEFL_SIZE) raw) in
  match gz with
  | None => ret tt
  | Some gz =>
      let tmp := path ++ $ ".new" in
      let* ok := atomicWriteFile tmp gz in
      if ok : bool then let* _ := fs_rename tmp path in ret tt else ret tt
  end.

(** [saveWorkerFn] with the routines it calls, up to the next point where another task may
    run: the end of a critical section or of a file's write. *)
Definition saveStep (s : sv) : io F sv :=
  let c := cfg s in
  match phase s with
  | W_wait =>
      if poked s then ret (set_phase (set_blobs s [] false) (W_blobs (pendingBlobs s))) else ret s
  | W_blobs [] => ret (set_phase s W_settings)
  | W_blobs ((p, data) :: jobs) =>
      let* _ := atomicWriteFile p data in ret (set_phase s (W_blobs jobs))
  | W_settings =>
      if flushStopped s then ret (set_phase s W_sems)
      else ret (set_phase (set_cfg s (with_timer c false (saveDelay c))) (W_ext 0))
  | W_ext i =>
      match externals c !! i with
      | None => ret (set_phase s W_root)
      | Some e =>
          if e_dirty e && negb (e_pendingDelete e) then
            ret (set_phase (set_cfg s (with_files c (<[i := set_dirty e false]> (externals c)) (rootDirty c)))
                           (W_snap (S i) e))
          else ret (set_phase s (W_ext (S i)))
      end
  | W_snap i work =>
      match externalText c (e_prefix work) with
      | Some text => ret (set_phase s (W_file i (e_path work) text))
      | None => ret (set_phase s (W_ext i))
      end
  | W_file i path text =>
      let* _ := atomicWriteJsonGz path text in ret (set_phase s (W_ext i))
  | W_root =>
      if rootDirty c then
        let '(c, text) := rootSnapshot c in
        ret (set_phase (set_cfg s c) (match text with Some t => W_rootFile t | None => W_rootClear end))
      else ret (set_phase s W_db)
  | W_rootFile text =>
      let* _ := atomicWriteJsonGz (fsStatePath ROOT_JSON_PATH) text in ret (set_phase s W_rootClear)
  | W_rootClear => ret (set_phase (set_cfg s (with_files c (externals c) false)) W_db)
  | W_db =>
      let '(d, jobs, deletes) := sdbDirtyImages (db c) in
      ret (set_phase (set_cfg s (with_db c d)) (W_dbFiles deletes jobs))
  | W_dbFiles (p :: deletes) jobs => let* _ := fs_remove p in ret (set_phase s (W_dbFiles deletes jobs))
  | W_dbFiles [] ((p, raw) :: jobs) => let* _ := dbWrite p raw in ret (set_phase s (W_dbFiles [] jobs))
  | W_dbFiles [] [] => ret (set_phase s W_del)
  | W_del =>
      match takeDeleted (externals c) with
      | Some (e, rest) => ret (set_phase (set_cfg s (with_files c rest (rootDirty c))) (W_delFile (e_path e)))
      | None => ret (set_phase s W_sems)
      end
  | W_delFile p =>
      let* _ := fs_remove p in
      let* _ := fs_remove (p ++ GZ) in
      ret (set_phase s W_del)
  | W_sems =>
      ret (set_phase (set_given (set_cfg s (with_sems c [])) (given s ++ pendingSaveSems c)) W_wait)
  end.

(** A flush that nothing interrupts: steps until the worker waits again. *)
Fixpoint flushLoop (fuel : nat) (s : sv) : io F (option sv) :=
  match phase s, fuel with
  | W_wait, _ => ret (Some s)
  | _, O => ret None
  | _, S f => let* s := saveStep s in flushLoop f s
  end.

(** ** The calls of other tasks *)

(** [requestSave], with the worker running. *)
Definition requestSave (s : sv) : sv := set_blobs s (pendingBlobs s) true.

Fixpoint putBlob (l : list (bytes * bytes)) (path data : bytes) : list (bytes * bytes) :=
  match l with
  | [] => [(path, data)]
  | (p, d) :: r => if streq p path then (p, data) :: r else (p, d) :: putBlob r path data
  end.

Definition storagePersistBlob (path data : bytes) (s : sv) : sv :=
  requestSave (set_blobs s (putBlob (pendingBlobs s) path data) (poked s)).

Definition storageStopFlushing (s : sv) : sv :=
  {| cfg := cfg s; flushStopped := true; pendingBlobs := pendingBlobs s; poked := poked s;
     phase := phase s; given := given s |}.

Definition EXTERNAL_DIR : bytes := $ "/storage/external".

Definition externalPath (prefix : bytes) : bytes := stateDir ++ EXTERNAL_DIR ++ [chr "/"] ++ prefix ++ $ ".json".

Fixpoint undelete (l : list external_t) (p : bytes) : option (list external_t) :=
  match l with
  | [] => None
  | e :: r =>
      if streq (e_prefix e) p
      then Some ({| e_prefix := e_prefix e; e_path := e_path e; e_dirty := e_dirty e; e_pendingDelete := false |} :: r)
      else option_map (cons e) (undelete r p)
  end.

Definition storageNewTreeFile (prefix : bytes) (s : sv) : sv :=
  let c := cfg s in
  let p := stripDots prefix in
  if Zlen p =? 0 then s
  else if 64 <=? Zlen p + 8 then s
  else
    match undelete (externals c) p with
    | Some l => set_cfg s (with_files c l (rootDirty c))
    | None =>
        let e := {| e_prefix := p; e_path := externalPath p; e_dirty := false; e_pendingDelete := false |} in
        set_cfg s (with_files c (externals c ++ [e]) (rootDirty c))
    end.

End Flush.
End Flush.
Import Flush.

(** ** Start-up *)

Module Load.
Section Load.
Context {D F C I : Type} `{CJ : CJson} `{CP : CJsonParse} `{V : Vfs F} `{H : Heap F}.
Context `{TD : Tdefl C} `{TI : Tinfl I} `{CR : Crc}.
Context (stateDir : bytes).

Definition attachAtPath (root : kids) (dotPath : bytes) (subtree : json) : kids :=
  (navigateOrCreate root dotPath (put_leaf subtree)).1.

(** The stem of a name in the directory of externals. *)
Definition stemOf (name : bytes) : option bytes :=
  let nl := length name in
  if (8 <? Zlen name) && streq (drop (nl - 8) name) ($ ".json.gz") then Some (take (nl - 8) name)
  else if (5 <? Zlen name) && streq (drop (nl - 5) name) ($ ".json") then Some (take (nl - 5) name)
  else None.

Definition scanDir : bytes := trunc 64 (stateDir ++ EXTERNAL_DIR).

Definition scanOne (l : list external_t) (name : bytes) : list external_t :=
  match stemOf name with
  | None => l
  | Some prefix =>
      if existsb (fun e => streq (e_prefix e) prefix) l then l
      else l ++ [{| e_prefix := prefix; e_path := scanDir ++ [chr "/"] ++ prefix ++ $ ".json";
                    e_dirty := false; e_pendingDelete := false |}]
  end.

(** [std::sort] by length; equal lengths keep their order here. *)
Fixpoint insert_ext (e : external_t) (l : list external_t) : list external_t :=
  match l with
  | [] => [e]
  | x :: r => if Zlen (e_prefix x) <=? Zlen (e_prefix e) then x :: insert_ext e r else e :: l
  end.
Definition sort_ext (l : list external_t) : list external_t := foldl (fun a e => insert_ext e a) [] l.

Definition scanExternals (fs : F) : list external_t :=
  match fs_dir fs scanDir with
  | None => []
  | Some names => sort_ext (foldl scanOne [] names)
  end.

Definition loadOne (fs : F) (r : option kids) (e : external_t) : option kids :=
  r ← r;
  text ← readJsonFile fs (e_path e);
  Some (match t ← text; cJSON_Parse t with
        | Some node => attachAtPath r (e_prefix e) node
        | None => r
        end).

Definition loadExternals (fs : F) (r : kids) (l : list external_t) : option kids := foldl (loadOne fs) (Some r) l.

(** The conversations below an id's [msgs], as [migrateLxmfMonolith] walks them. *)
Definition LXMF : bytes := $ "s.lxmf".

Definition convPrefix (id conv : bytes) : bytes := $ "s.lxmf.id." ++ id ++ $ ".msgs." ++ conv.

Definition splitConv (id : bytes) (l : list external_t) (conv : option bytes * json) : list external_t :=
  match conv with
  | (Some name, JNode _ (_ :: _)) =>
      let prefix := convPrefix id name in
      if (96 <=? Zlen prefix) || (64 <=? Zlen prefix + 8) then l
      else if existsb (fun e => streq (e_prefix e) prefix) l then l
      else l ++ [{| e_prefix := prefix; e_path := externalPath stateDir prefix;
                    e_dirty := true; e_pendingDelete := false |}]
  | _ => l
  end.

Definition splitId (l : list external_t) (id : option bytes * json) : list external_t :=
  match id with
  | (Some name, node) =>
      match cJSON_GetObjectItem node ($ "msgs") with
      | Some (JNode false convs) => foldl (splitConv name) l convs
      | _ => l
      end
  | _ => l
  end.

Fixpoint retire (l : list external_t) : list external_t :=
  match l with
  | [] => []
  | e :: r =>
      if streq (e_prefix e) LXMF
      then {| e_prefix := e_prefix e; e_path := e_path e; e_dirty := false; e_pendingDelete := true |} :: r
      else e :: retire r
  end.

Definition migrateLxmfMonolith (r : kids) (l : list external_t) : list external_t * bool :=
  if negb (existsb (fun e => streq (e_prefix e) LXMF) l) then (l, false)
  else
    let l := match navigatePath (JNode false r) ($ "s.lxmf.id") with
             | Some (JNode false ids) => foldl splitId l ids
             | _ => l
             end in
    (retire l, true).

Definition OVERLAY : bytes := $ "/fixed/additional_state/settings.json".

(** [storageLoad]: the tree, the externals and the root's dirty mark; [None] when a file
    is read outside its bytes or root.json is JSON but no object, which has no place in
    the state. *)
Definition storageLoad (firstBoot : bool) : io F (option (kids * list external_t * bool)) :=
  let* _ := fs_mkdirp (fsStatePath stateDir EXTERNAL_DIR) in
  let* loaded := look (fun fs =>
    text ← readJsonFile fs (fsStatePath stateDir ROOT_JSON_PATH);
    r ← match t ← text; cJSON_Parse t with
        | Some (JNode false l) => Some l
        | Some _ => None
        | None => Some []
        end;
    let l := scanExternals fs in
    r ← loadExternals fs r l;
    let '(l, dirty) := migrateLxmfMonolith r l in
    let r := if firstBoot : bool
             then match t ← readFileStr fs OVERLAY; cJSON_Parse (c_str t) with
                  | Some ov => jsonDeepMerge ov r
                  | None => r
                  end
             else r in
    Some (r, l, dirty)) in
  let* _ := fs_remove (fsStatePath stateDir (ROOT_JSON_PATH ++ $ ".new")) in
  let* _ := fs_remove (fsStatePath stateDir (ROOT_JSON_PATH ++ $ ".gz.new")) in
  ret loaded.

End Load.
End Load.
