(* ===== verification/PersistFiles.v ===== *)
(** * storage: one file through a power cut

    What [atomicWriteJsonGz] leaves at every point of its way on a file system whose
    rename replaces its target. *)

From stdpp Require Import gmap.
From S2P Require Import Prelude CLib Targz TargzRoundtrip StorageDb StorageDbFile Config Vfs Persist.
Import Files.
Open Scope Z_scope.
Open Scope spangap_scope.

(** ** Files other than those named keep their contents *)

Section Writes.
Context {F : Type} `{L : VfsLaws F}.

Definition only (ps : list bytes) (fs g : F) : Prop := forall q, q ∉ ps -> file g q = file fs q.

Lemma only_refl ps fs : only ps fs fs.
Proof. done. Qed.

Lemma only_trans ps fs g h : only ps fs g -> only ps g h -> only ps fs h.
Proof. intros A B q Hq. by rewrite B, A. Qed.

Lemma only_weaken ps qs fs g : only ps fs g -> ps ⊆ qs -> only qs fs g.
Proof. intros A S q Hq. apply A. intros Hp. by apply Hq, S. Qed.

Lemma change_write p b fs c : file fs p = Some c ->
  crashes (only [p] fs) (change (fun g => vfs_fwrite g p b))
    (fun n g => 0 <= n <= Zlen b /\ only [p] fs g /\ file g p = Some (c ++ take (Z.to_nat n) b)) fs.
Proof.
  intros E. destruct (vfs_fwrite fs p b) as [n g] eqn:W. destruct (write_file _ _ _ _ _ _ W E) as (Hn & Ho & Hp).
  assert (only [p] fs g) by (intros q Hq; apply Ho; intros ->; apply Hq; by left).
  apply crashes_change; rewrite W; [done|]. cbn [fst snd]. split; [lia|done].
Qed.

Lemma sdLoop_ok fuel p : forall buf fs c d, file fs p = Some c -> (length buf <= fuel)%nat ->
  crashes (only [p] fs) (sdLoop fuel p buf d)
    (fun n g => d <= n <= d + Zlen buf /\ only [p] fs g /\ file g p = Some (c ++ take (Z.to_nat (n - d)) buf)) fs.
Proof.
  induction fuel as [|f IH]; intros buf fs c d E Hf; cbn [sdLoop].
  - destruct buf; [|cbn in Hf; lia]. apply crashes_ret. rewrite take_nil, app_nil_r. split_and!; [rewrite ?Zlen_nil; lia..|done|done].
  - destruct (Z.eqb_spec (Zlen buf) 0) as [Z0|N0].
    { apply Zlen_zero in Z0 as ->. apply crashes_ret. rewrite take_nil, app_nil_r. split_and!; [rewrite ?Zlen_nil; lia..|done|done]. }
    set (n := if FS_SD_SECTOR_BYTES <=? Zlen buf then FS_SD_SECTOR_BYTES / 2 else Zlen buf).
    pose proof (Zlen_nonneg buf) as P. assert (1 <= n <= Zlen buf) as Hn.
    { unfold n, FS_SD_SECTOR_BYTES. destruct (Z.leb_spec 512 (Zlen buf)); [change (512 / 2) with 256|]; lia. }
    apply crashes_bind. eapply crashes_mono; [apply (change_write _ _ _ _ E)|done|].
    intros w g (Hw & Ho & Hp). rewrite Zlen_take in Hw. cbn beta. rewrite take_take in Hp.
    replace (Z.to_nat w `min` Z.to_nat n)%nat with (Z.to_nat w) in Hp by lia.
    destruct (Z.ltb_spec w n).
    { apply crashes_ret. replace (d + w - d) with w by lia. split_and!; [lia..|done|done]. }
    assert (w = n) as -> by lia.
    eapply crashes_mono; [apply (IH _ _ _ _ Hp)|by intros h; apply only_trans|].
    { rewrite length_drop. lia. }
    intros m h (Hm & Ho' & Hp'). rewrite Zlen_drop in Hm. split; [lia|]. split; [by eapply only_trans|].
    rewrite Hp', <- app_assoc. do 2 f_equal.
    replace (Z.to_nat (m - d)) with (Z.to_nat n + Z.to_nat (m - (d + n)))%nat by lia.
    rewrite <- take_take_drop. done.
Qed.

Lemma fs_write_spec p b fs c : file fs p = Some c ->
  crashes (only [p] fs) (fs_write p b)
    (fun n g => 0 <= n <= Zlen b /\ only [p] fs g /\ file g p = Some (c ++ take (Z.to_nat n) b)) fs.
Proof.
  intros E. unfold fs_write, fsSdFwrite. destruct (fsIsSdPath p); cbn [negb]; [|by apply change_write].
  eapply crashes_mono; [by apply sdLoop_ok|done|]. intros n g (A & B & G). rewrite Z.sub_0_r in G. split_and!; [lia..|done|done].
Qed.

Lemma writeLoop_ok fuel p : forall data fs c, file fs p = Some c -> (length data <= fuel)%nat ->
  crashes (only [p] fs) (writeLoop fuel p data)
    (fun ok g => only [p] fs g /\ is_Some (file g p) /\ (ok = true -> file g p = Some (c ++ data))) fs.
Proof.
  induction fuel as [|f IH]; intros data fs c E Hf; cbn [writeLoop].
  - destruct data; [|cbn in Hf; lia]. apply crashes_ret. rewrite app_nil_r. by split_and!.
  - destruct (Z.eqb_spec (Zlen data) 0) as [Z0|N0].
    { apply Zlen_zero in Z0 as ->. apply crashes_ret. rewrite app_nil_r. by split_and!. }
    apply crashes_bind. eapply crashes_mono; [apply (fs_write_spec _ _ _ _ E)|done|].
    intros n g (Hn & Ho & Hp). cbn beta. set (now := take (Z.to_nat STORAGE_FLUSH_CHUNK) data) in *.
    destruct (Z.eqb_spec n (Zlen now)) as [->|]; cbn [negb].
    2: { apply crashes_ret. split_and!; [done|by rewrite Hp|done]. }
    rewrite (take_ge now) in Hp by (unfold Zlen; lia).
    eapply crashes_mono; [apply (IH _ _ _ Hp)|by intros h; apply only_trans|].
    { rewrite length_drop. destruct data; [done|]. unfold STORAGE_FLUSH_CHUNK. cbn [length] in *. lia. }
    intros ok h (Ho' & HS & Hp'). split_and!; [by eapply only_trans|done|].
    intros K. rewrite (Hp' K), <- app_assoc. unfold now. by rewrite take_drop.
Qed.

End Writes.

(** A whole write succeeds when every call does. *)
Section Sound.
Context {F : Type} {rep : bool} `{L : VfsLaws F} `{S : !VfsSound F rep}.

Lemma vfs_write_all fs p b c : file fs p = Some c -> result (change (fun g => vfs_fwrite g p b)) fs = Zlen b.
Proof using S.
  intros E. unfold result, change. pose proof (write_ok fs p b ltac:(by rewrite E)) as W.
  by destruct (vfs_fwrite fs p b).
Qed.

Lemma sdLoop_all fuel p : forall buf fs c d, file fs p = Some c -> (length buf <= fuel)%nat ->
  result (sdLoop fuel p buf d) fs = d + Zlen buf.
Proof using S.
  induction fuel as [|f IH]; intros buf fs c d E Hf; cbn [sdLoop].
  - destruct buf; [|cbn in Hf; lia]. rewrite Zlen_nil. unfold result; cbn; lia.
  - destruct (Z.eqb_spec (Zlen buf) 0) as [Z0|N0]; [rewrite Z0; unfold result; cbn; lia|].
    set (n := if FS_SD_SECTOR_BYTES <=? Zlen buf then FS_SD_SECTOR_BYTES / 2 else Zlen buf).
    pose proof (Zlen_nonneg buf) as P. assert (1 <= n <= Zlen buf) as Hn.
    { unfold n, FS_SD_SECTOR_BYTES. destruct (Z.leb_spec 512 (Zlen buf)); [change (512 / 2) with 256|]; lia. }
    pose proof (vfs_write_all fs p (take (Z.to_nat n) buf) c E) as W. rewrite Zlen_take in W.
    pose proof (change_write p (take (Z.to_nat n) buf) fs c E) as (_ & _ & _ & Hp).
    unfold result, after, bind in *. destruct (change _ fs) as [[w g] t]. cbn [fst snd] in *.
    rewrite (proj2 (Z.ltb_ge _ _)) by lia.
    specialize (IH (drop (Z.to_nat n) buf) g _ (d + w) Hp ltac:(rewrite length_drop; lia)).
    destruct (sdLoop f p (drop (Z.to_nat n) buf) (d + w) g) as [[m h] t2]. cbn [fst] in *.
    rewrite Zlen_drop in IH. lia.
Qed.

Lemma fs_write_all p b fs c : file fs p = Some c -> result (fs_write p b) fs = Zlen b.
Proof using S.
  intros E. unfold fs_write, fsSdFwrite. destruct (fsIsSdPath p); cbn [negb]; [|by eapply vfs_write_all].
  by erewrite sdLoop_all.
Qed.

Lemma writeLoop_all fuel p : forall data fs c, file fs p = Some c -> (length data <= fuel)%nat ->
  result (writeLoop fuel p data) fs = true.
Proof using S.
  induction fuel as [|f IH]; intros data fs c E Hf; cbn [writeLoop].
  - destruct data; [done|cbn in Hf; lia].
  - destruct (Z.eqb_spec (Zlen data) 0) as [Z0|N0]; [done|].
    set (now := take (Z.to_nat STORAGE_FLUSH_CHUNK) data).
    pose proof (fs_write_all p now fs c E) as W. pose proof (fs_write_spec p now fs c E) as (_ & _ & _ & Hp).
    unfold result, after, bind in *. destruct (fs_write p now fs) as [[w g] t]. cbn [fst snd] in *.
    rewrite W, Z.eqb_refl. cbn [negb].
    specialize (IH (drop (Z.to_nat STORAGE_FLUSH_CHUNK) data) g _ Hp
      ltac:(rewrite length_drop; destruct data; [done|]; unfold STORAGE_FLUSH_CHUNK; cbn [length] in *; lia)).
    by destruct (writeLoop f p (drop _ data) g) as [[m h] t2].
Qed.

End Sound.

(** ** Reading *)

Section Reading.
Context {F C I : Type} `{L : VfsLaws F} `{H : Heap F} `{TI : Tinfl I} `{CR : Crc}.
Context (HA : forall (fs : F) n, gp_alloc fs n = true).

(** A file without bytes reads like none. *)
Definition full (o : option bytes) : option bytes := match o with Some [] => None | _ => o end.

Definition unpack (gz plain : option bytes) : option (option bytes) :=
  match gz with
  | None => Some (c_str <$> plain)
  | Some raw =>
      text ← Gz.gzInflateBin true true raw;
      Some (match text with Some t => Some (c_str t) | None => c_str <$> plain end)
  end.

Lemma readFileStr_file fs p : p <> [] -> p <> [chr "/"] -> readFileStr fs p = full (file fs p).
Proof using HA.
  intros N R. unfold readFileStr, fs_stat.
  rewrite (proj2 (Z.eqb_neq (Zlen p) 0)) by (intros E; by apply Zlen_zero in E).
  destruct (streq p [chr "/"]) eqn:E; [by apply streq_true in E|]. cbn [orb].
  destruct (file fs p) as [c|] eqn:Ef.
  - rewrite (stat_file _ _ _ Ef), (rb_file _ _ _ Ef), (read_file _ _ _ Ef), HA. cbn [negb].
    destruct c as [|x c]; [done|]. rewrite (proj2 (Z.leb_gt _ _)) by (unfold Zlen; cbn [length]; lia).
    cbn [full]. f_equal. unfold Zlen. rewrite Nat2Z.id. apply take_app_length.
  - destruct (vfs_stat fs p) as [n|] eqn:Es; [|done].
    rewrite (proj2 (Z.leb_le _ _)) by (by eapply stat_none). done.
Qed.

(** The path of a JSON file, long enough not to be the root directory's. *)
Definition path_ok (p : bytes) : Prop := 1 < Zlen p.

Lemma path_ok_neq p : path_ok p -> p <> [] /\ p <> [chr "/"].
Proof. unfold path_ok, Zlen. intros P. split; intros ->; cbn in P; lia. Qed.

Lemma readJson_file fs p : path_ok p ->
  readJsonFile fs p = unpack (full (file fs (p ++ GZ))) (full (file fs p)).
Proof using HA.
  intros P. destruct (path_ok_neq p P) as [N R].
  assert (path_ok (p ++ GZ)) as [N' R']%path_ok_neq by (unfold path_ok in *; rewrite Zlen_app; pose proof (Zlen_nonneg GZ); lia).
  unfold readJsonFile, unpack. rewrite !readFileStr_file by done.
  destruct (full (file fs (p ++ GZ))) as [raw|]; [|done]. unfold gzInflate. rewrite !HA.
  destruct (Gz.gzInflateBin true true raw) as [[t|]|]; done.
Qed.

End Reading.

(** ** Writing *)

Section Atomic.
Context {F : Type} `{L : VfsLaws F} `{S : !VfsSound F true}.

Lemma fs_rename_ok from to fs c : from <> to -> file fs from = Some c ->
  crashes (fun g => only [from; to] fs g /\ file g to = Some c) (fs_rename from to)
    (fun _ g => only [from; to] fs g /\ file g to = Some c) fs.
Proof using S.
  intros N E. apply crashes_bind. pose proof (rename_ok fs from to ltac:(by rewrite E) (or_intror eq_refl)) as R.
  destruct (vfs_rename fs from to) as [ok g] eqn:V0. cbn in R. subst ok.
  destruct (rename_file _ _ _ _ _ V0 N) as (Ho & Hq & _). rewrite E in Hq.
  assert (only [from; to] fs g) as O.
  { intros q Hn. apply Ho; intros ->; apply Hn; [by left|by right; left]. }
  apply crashes_change; rewrite V0; [done|]. by apply crashes_ret.
Qed.

Definition tmpOf (path : bytes) : bytes := path ++ $ ".new".

Lemma app_neq (p s : bytes) : s <> [] -> p ++ s <> p.
Proof. intros N E. apply N. rewrite <- (app_nil_r p) in E at 2. by apply app_inv_head in E. Qed.

(** Until the rename only the temporary changes; the rename puts the whole file in place. *)
Lemma atomicWriteFile_ok path data fs :
  crashes (fun g => only [tmpOf path] fs g \/ (only [tmpOf path; path] fs g /\ file g path = Some data))
    (atomicWriteFile path data)
    (fun ok g => ok = true /\ only [tmpOf path; path] fs g /\ file g path = Some data) fs.
Proof using S.
  unfold atomicWriteFile. fold (tmpOf path). apply crashes_bind.
  pose proof (open_ok fs (tmpOf path)) as Ok. destruct (vfs_fopen_w fs (tmpOf path)) as [ok g] eqn:O. cbn in Ok. subst ok.
  destruct (open_file _ _ _ _ O) as [Ho Hp].
  assert (only [tmpOf path] fs g) as O1 by (intros q Hq; apply Ho; intros ->; apply Hq; by left).
  apply crashes_change; rewrite O; cbn [fst snd negb]; [by left|].
  apply crashes_bind. pose proof (writeLoop_all (length data) (tmpOf path) data g [] Hp (le_n _)) as R.
  pose proof (writeLoop_ok (length data) (tmpOf path) data g [] Hp (le_n _)) as (T & O2 & _ & D).
  split.
  { eapply Forall_impl; [exact T|]. intros h Hh. left. by eapply only_trans. }
  rewrite R in *. specialize (D eq_refl). cbn [app] in D. set (g2 := after _ _) in *.
  apply crashes_bind. eapply crashes_mono; [apply (fs_rename_ok _ path _ data); [by apply app_neq|done]| |].
  - intros h [A B]. right. split; [|done]. eapply only_trans; [|exact A]. eapply only_weaken; [by eapply only_trans|]. set_solver.
  - intros _ h [A B]. apply crashes_ret. split_and!; [done| |done]. eapply only_trans; [|exact A].
    eapply only_weaken; [by eapply only_trans|]. set_solver.
Qed.

(** The files that belong to the JSON file at [path]. *)
Definition siblings (path : bytes) : list bytes := [path; path ++ GZ; tmpOf path; tmpOf (path ++ GZ)].

Lemma fs_remove_ok p fs : crashes (fun g => only [p] fs g /\ file g p = None) (fs_remove p)
  (fun _ g => only [p] fs g /\ file g p = None) fs.
Proof using S.
  destruct (remove_file fs p) as [Ho _]. pose proof (remove_ok fs p) as R.
  assert (only [p] fs (vfs_remove fs p)) by (intros q Hq; apply Ho; intros ->; apply Hq; by left).
  apply crashes_change; done.
Qed.

End Atomic.

Section CrashSafe.
Context {F C I : Type} `{L : VfsLaws F} `{S : !VfsSound F true} `{H : Heap F} `{TD : Tdefl C} `{TI : Tinfl I} `{CR : Crc}
        {stream : bytes -> bytes -> Prop} `{!TdeflLaws TD stream} `{!TinflOneShot TI stream} `{!CrcLaws CR}.
Context (HA : forall (fs : F) n, gp_alloc fs n = true).

(** A text the files can carry. *)
Record text_ok (t : bytes) : Prop := {
  to_bytes : bytes_ok t; to_nul : 0 ∉ t; to_some : t <> []; to_size : Zlen t <= 8 * 1024 * 1024
}.

Lemma unpack_gz fs t gz plain : text_ok t -> gzDeflate fs t = Some gz -> unpack (full (Some gz)) plain = Some (Some t).
Proof using All.
  intros [B N _ Z] E. destruct (gzDeflate_stream _ _ _ _ E B) as (d & Hd & ->). cbn [full app GZ_HEADER].
  pose proof (gzInflate_stream d t Hd B Z) as G. unfold GZ_HEADER in G. cbn [app] in G. unfold unpack. rewrite G.
  cbn. by rewrite c_str_id.
Qed.

Lemma full_text t : text_ok t -> c_str <$> full (Some t) = Some t.
Proof. intros [_ N S0 _]. destruct t; [done|]. cbn [full fmap option_fmap option_map]. by rewrite c_str_id. Qed.

Lemma siblings_neq path : path ++ GZ <> path /\ path <> tmpOf path /\ path <> tmpOf (path ++ GZ) /\
  path ++ GZ <> tmpOf path /\ path ++ GZ <> tmpOf (path ++ GZ).
Proof.
  assert (forall a b : bytes, length a <> length b -> a <> b) as N by (intros a b Hl ->; done).
  split_and!; apply N; unfold tmpOf; rewrite ?length_app; cbn; lia.
Qed.

(** At every point of its way a JSON file reads as it did or as the new text, at its end as
    the new text; files that are not its own are left alone. *)
Lemma atomicWriteJsonGz_ok path text fs : path_ok path -> text_ok text ->
  crashes (fun g => only (siblings path) fs g /\
                    (readJsonFile g path = readJsonFile fs path \/ readJsonFile g path = Some (Some text)))
    (atomicWriteJsonGz path text)
    (fun ok g => ok = true /\ only (siblings path) fs g /\ readJsonFile g path = Some (Some text)) fs.
Proof using All.
  intros P T. destruct (siblings_neq path) as (N1 & N2 & N3 & N4 & N5).
  unfold atomicWriteJsonGz. apply crashes_bind, crashes_look.
  destruct (gzDeflate fs text) as [gz|] eqn:E.
  - assert (forall g, file g (path ++ GZ) = Some gz -> readJsonFile g path = Some (Some text)) as New.
    { intros g Hg. rewrite readJson_file, Hg by done. by eapply unpack_gz. }
    apply crashes_bind. eapply crashes_mono; [apply atomicWriteFile_ok| |].
    + intros g [O|[O Hg]]; (split; [eapply only_weaken; [exact O|unfold siblings; set_solver]|]); [left|by right; apply New].
      rewrite !readJson_file by done. by rewrite !O by (unfold not; rewrite ?elem_of_cons, ?elem_of_nil; naive_solver).
    + intros ok g (-> & O & Hg). apply crashes_bind.
      assert (only (siblings path) fs g) as O' by (eapply only_weaken; [exact O|unfold siblings; set_solver]).
      eapply crashes_mono; [apply fs_remove_ok| |].
      * intros h [A B]. split; [eapply only_trans; [exact O'|eapply only_weaken; [exact A|unfold siblings; set_solver]]|].
        right. apply New. rewrite A; [done|]. rewrite elem_of_cons, elem_of_nil. naive_solver.
      * intros _ h [A B]. apply crashes_ret. split_and!; [done| |].
        { eapply only_trans; [exact O'|eapply only_weaken; [exact A|unfold siblings; set_solver]]. }
        apply New. rewrite A; [done|]. rewrite elem_of_cons, elem_of_nil. naive_solver.
  - apply crashes_bind. eapply crashes_mono; [apply atomicWriteFile_ok| |].
    + intros g [O|[O Hg]]; (split; [eapply only_weaken; [exact O|unfold siblings; set_solver]|]).
      * left. rewrite !readJson_file by done. by rewrite !O by (unfold not; rewrite ?elem_of_cons, ?elem_of_nil; naive_solver).
      * rewrite !readJson_file by done. rewrite Hg, O by (unfold not; rewrite ?elem_of_cons, ?elem_of_nil; naive_solver).
        unfold unpack. rewrite full_text by done. destruct (full (file fs (path ++ GZ))) as [raw|]; [|by right].
        destruct (Gz.gzInflateBin true true raw) as [[t|]|]; [by left|by right|by left].
    + intros ok g (-> & O & Hg). cbn [negb]. apply crashes_bind.
      assert (only (siblings path) fs g) as O' by (eapply only_weaken; [exact O|unfold siblings; set_solver]).
      assert (forall h, only [path ++ GZ] g h -> file h (path ++ GZ) = None -> readJsonFile h path = Some (Some text)) as New.
      { intros h A B. rewrite readJson_file, B by done. cbn [full unpack]. rewrite A by (rewrite elem_of_cons, elem_of_nil; naive_solver).
        by rewrite Hg, full_text. }
      eapply crashes_mono; [apply fs_remove_ok| |].
      * intros h [A B]. split; [eapply only_trans; [exact O'|eapply only_weaken; [exact A|unfold siblings; set_solver]]|].
        right. by apply New.
      * intros _ h [A B]. apply crashes_ret. split_and!; [done| |by apply New].
        eapply only_trans; [exact O'|eapply only_weaken; [exact A|unfold siblings; set_solver]].
Qed.

(** Writing one JSON file of the tree, packed or, when packing fails, plain. However the
    power is cut during the write, reading the file afterwards gives its old text or all of
    the new one, and no file but this one's two forms and their temporaries has changed;
    when the write comes to its end it reports success and the file reads as the new text. *)
Theorem json_write_crash_safe path text fs g : path_ok path -> text_ok text -> g ∈ trail (atomicWriteJsonGz path text) fs ->
  (readJsonFile g path = readJsonFile fs path \/ readJsonFile g path = Some (Some text)) /\ only (siblings path) fs g /\
  result (atomicWriteJsonGz path text) fs = true /\ readJsonFile (after (atomicWriteJsonGz path text) fs) path = Some (Some text).
Proof using All.
  intros P T Hg. destruct (atomicWriteJsonGz_ok path text fs P T) as (Tr & Ok & _ & R).
  destruct (proj1 (Forall_forall _ _) Tr g Hg) as [O E]. done.
Qed.

End CrashSafe.
