(* ===== verification/PersistTree.v ===== *)
(** * storage: sub-trees of the configuration tree

    What taking a sub-tree out, putting it back, attaching one and writing a key do to the
    values along every path, and that a tree stays one that prints and parses; then the
    parts that files hold. *)

From stdpp Require Import gmap.
From S2P Require Import Prelude CLib Config ConfigTree ConfigOps ConfigSet Persist.
Import Tree Ops Actor Externals Load.
Open Scope Z_scope.
Open Scope spangap_scope.

(** ** Trees that can be written and read back *)

Definition str_ok (s : bytes) : Prop := bytes_ok s /\ 0 ∉ s.

Definition str_okb (s : bytes) : bool := forallb (fun c => (0 <? c) && (c <? 256)) s.

Lemma str_okb_ok s : str_okb s = true -> str_ok s.
Proof.
  intros H. assert (forall c, c ∈ s -> 0 < c < 256) as K.
  { intros c Hc. apply list_elem_of_In in Hc. eapply forallb_forall in H; [|exact Hc].
    apply andb_true_iff in H as [A%Z.ltb_lt B%Z.ltb_lt]. done. }
  split; [apply Forall_forall; intros c Hc; specialize (K c Hc); unfold is_byte; lia|]. intros H0. specialize (K 0 H0). lia.
Qed.

Definition child_ok (isArray : bool) (c : option bytes * json) : Prop :=
  match c.1 with
  | Some n => if isArray then isAllDigits n = true else str_ok n
  | None => isArray = true
  end.

Section Good.
Context `{CJ : CJson} `{L : !CJsonLaws CJ}.
Notation oget := (kget cj_same).
Notation same := cj_same.

Fixpoint jgood (n : json) : Prop :=
  match n with
  | JNode b l =>
      Forall (child_ok b) l /\ (b = false -> uniq l) /\
      (fix all (l : kids) : Prop := match l with [] => True | c :: r => jgood c.2 /\ all r end) l
  | JStr s => str_ok s
  | JNum v => - 2 ^ 31 <= v < 2 ^ 31
  | _ => True
  end.

Lemma jgood_all l :
  (fix all (l : kids) : Prop := match l with [] => True | c :: r => jgood c.2 /\ all r end) l <->
  Forall (fun c => jgood c.2) l.
Proof.
  induction l as [|c l IH]; [by split|]. rewrite Forall_cons. by rewrite IH.
Qed.

Lemma jgood_node b l : jgood (JNode b l) <-> Forall (child_ok b) l /\ (b = false -> uniq l) /\ Forall (fun c => jgood c.2) l.
Proof. cbn [jgood]. by rewrite jgood_all. Qed.

Lemma json_rect' (P : json -> Prop) :
  P JNull -> (forall b, P (JBool b)) -> (forall v, P (JNum v)) -> (forall s, P (JStr s)) ->
  (forall b l, Forall (fun c => P c.2) l -> P (JNode b l)) -> forall n, P n.
Proof.
  intros P0 P1 P2 P3 P4. fix IH 1. intros [| | | |b l]; [done|apply P1|apply P2|apply P3|]. apply P4.
  induction l as [|c l IHl]; constructor; [apply IH|done].
Qed.

Lemma jgood_wfj n : jgood n -> wfj n.
Proof.
  induction n as [| | | |b l IH] using json_rect'; try done. rewrite jgood_node. intros (N & U & G). cbn [wfj]. split.
  - destruct b; [|by apply U]. eapply Forall_impl; [exact N|]. intros [[n|] v]; done.
  - clear N U. induction l as [|c l IHl]; [done|]. apply Forall_cons in IH as [I1 I2]. apply Forall_cons in G as [G1 G2].
    split; [by apply I1|by apply IHl].
Qed.

(** Changes to the children of a node. *)
Lemma jgood_insert b l i nm v w : jgood (JNode b l) -> l !! i = Some (nm, v) -> jgood w -> jgood (JNode b (<[i := (nm, w)]> l)).
Proof.
  rewrite !jgood_node. intros (N & U & G) E W. split_and!.
  - apply Forall_insert; [done|]. exact (proj1 (Forall_lookup _ _) N _ _ E).
  - intros B. eapply uniq_set; [by apply U|done].
  - by apply Forall_insert.
Qed.

Lemma jgood_delete b l i : jgood (JNode b l) -> jgood (JNode b (delete i l)).
Proof.
  rewrite !jgood_node. intros (N & U & G). split_and!; [by apply Forall_delete|intros B; by apply uniq_delete, U|by apply Forall_delete].
Qed.

Lemma jgood_del l k : jgood (JNode false l) -> jgood (JNode false (cJSON_DeleteItemFromObject l k)).
Proof. intros G. rewrite cj_del. destruct (kpos same l k); [by apply jgood_delete|done]. Qed.

Lemma jgood_snoc l k v : jgood (JNode false l) -> oget l k = None -> str_ok k -> jgood v -> jgood (JNode false (l ++ [(Some k, v)])).
Proof.
  rewrite !jgood_node. intros (N & U & G) O K W. split_and!.
  - apply Forall_app. split; [done|]. by apply Forall_singleton.
  - intros _. apply uniq_snoc; [by apply U|done].
  - apply Forall_app. split; [done|]. by apply Forall_singleton.
Qed.

Lemma jgood_put l k v : jgood (JNode false l) -> str_ok k -> jgood v -> jgood (JNode false (put_leaf v l k)).
Proof.
  intros G K W. unfold put_leaf. rewrite cj_add. apply jgood_snoc; [by apply jgood_del| |done|done].
  apply jgood_node in G as (_ & U & _). destruct (del_spec l k (U eq_refl)) as [D _]. by rewrite D, cj_refl.
Qed.

Lemma jgood_oget b l k v : jgood (JNode b l) -> oget l k = Some v -> jgood v.
Proof.
  rewrite jgood_node. intros (_ & _ & G). induction G as [|[[n|] w] l W _ IH]; cbn [kget]; [done| |done].
  destruct (same n k); [by intros [= <-]|done].
Qed.

Lemma jgood_nav n ss v : jgood n -> navS (Some n) ss = Some v -> jgood v.
Proof.
  revert n. induction ss as [|s ss IH]; intros n G E; [cbn in E; by injection E as <-|].
  cbn [navS mbind option_bind] in E. destruct (step n s) as [m|] eqn:Es; [|by rewrite navS_None in E]. apply (IH m); [|done].
  destruct n as [| | | |[|] l]; try done; [|rewrite step_object in Es; by eapply jgood_oget].
  rewrite step_array in Es. destruct (isAllDigits s); [|by eapply jgood_oget]. unfold aval in Es. destruct (atoi s <? 0); [done|].
  apply jgood_node in G as (_ & _ & G). destruct (l !! Z.to_nat (atoi s)) as [[nm w]|] eqn:El; [|done]. cbn in Es. injection Es as <-.
  exact (proj1 (Forall_lookup _ _) G _ _ El).
Qed.

(** ** Writing a key keeps the tree good *)

Lemma wrap_good ss v : Forall str_ok ss -> jgood v -> jgood (wrap ss v).
Proof.
  intros S W. induction S as [|s r K _ IH]; [done|]. cbn [wrap]. apply jgood_node. split_and!; [by apply Forall_singleton|done|by apply Forall_singleton].
Qed.

Lemma wrap_shape ss v : is_prim v -> is_prim (wrap ss v) \/ exists s r, wrap ss v = JNode false [(Some s, wrap r v)] /\ ss = s :: r.
Proof. destruct ss as [|s r]; [by left|]. intros _. right. by exists s, r. Qed.

Lemma elem_good dm al nm it : jgood (JNode true al) -> isAllDigits nm = true -> jgood it -> it <> JNull ->
  (forall ecl, jgood (JNode false ecl) -> jgood (JNode false (dm it ecl))) -> jgood (JNode true (elem_step dm al (Some nm, it))).
Proof.
  intros G D W N R. pose proof (isAllDigits_atoi nm D) as Hi.
  assert (forall i, jgood (JNode true (<[i := (Some nm, it)]> al))) as Ins.
  { intros i. apply jgood_node in G as (A & U & B). apply jgood_node. split_and!; [by apply Forall_insert|done|by apply Forall_insert]. }
  assert (jgood (JNode true ((al ++ replicate (Z.to_nat (atoi nm - Zlen al)) (None, JNull)) ++ [(Some nm, it)]))) as App.
  { apply jgood_node in G as (A & U & B). apply jgood_node. split_and!; [|done|];
      rewrite !Forall_app; split_and!; try done; try (by apply Forall_replicate); by apply Forall_singleton. }
  unfold elem_step. destruct it as [|b|v|s|b sub]; [done|..]; cbn [default from_option id];
    (destruct (Z.ltb_spec (atoi nm) (Zlen al)); [|rewrite cj_dup, padNulls_ok, cj_arr_add; exact App]);
    rewrite ?cj_dup, ?cj_arr_rep by lia; try apply Ins.
  destruct b; [apply Ins|]. destruct (al !! Z.to_nat (atoi nm)) as [[en e]|] eqn:E; [|apply Ins].
  destruct e as [| | | |[|] ecl]; try apply Ins. eapply jgood_insert; [done|exact E|]. apply R.
  apply jgood_node in G as (_ & _ & B). exact (proj1 (Forall_lookup _ _) B _ _ E).
Qed.

Lemma item_good dm dl s it : jgood (JNode false dl) -> str_ok s -> jgood it -> it <> JNull ->
  (forall cl, jgood (JNode false cl) -> jgood (JNode false (dm it cl))) ->
  (forall cl sub, it = JNode false sub -> allNumericKeys it = true -> jgood (JNode true cl) ->
     jgood (JNode true (deepMergeIntoArray dm cl sub))) ->
  jgood (JNode false (item_step dm dl (Some s, it))).
Proof.
  intros G K W N R A. assert (jgood (JNode false (put_leaf it dl s))) as Put by (by apply jgood_put).
  unfold item_step. rewrite !cj_dup. cbn [snd]. fold (put_leaf it dl s).
  destruct it as [|b|v|x|[|] sub]; try done. rewrite cj_find. destruct (kpos same dl s) as [i|] eqn:Ep.
  - destruct (kpos_Some _ _ _ Ep) as (n & v & Hl & Hs & Ho). rewrite Hl. pose proof (jgood_oget _ _ _ _ G Ho) as Hv.
    destruct v as [|b|x|x|[|] cl]; try exact Put.
    + destruct (allNumericKeys (JNode false sub)) eqn:E; [|exact Put]. eapply jgood_insert; [done|exact Hl|]. by apply A.
    + eapply jgood_insert; [done|exact Hl|]. by apply R.
  - rewrite cj_add. apply jgood_snoc; [done|by apply kpos_None|done|done].
Qed.

Lemma wrap_prim_not_null ss v : is_prim v -> wrap ss v <> JNull.
Proof. intros P. apply wrap_not_null. by destruct v. Qed.

Lemma merge_good ss v : Forall str_ok ss -> jgood v -> is_prim v -> ss <> [] ->
  (forall dl, jgood (JNode false dl) -> jgood (JNode false (deepMerge (wrap ss v) dl))) /\
  (forall sub al, wrap ss v = JNode false sub -> allNumericKeys (wrap ss v) = true -> jgood (JNode true al) ->
     jgood (JNode true (deepMergeIntoArray deepMerge al sub))).
Proof.
  intros S W P. induction S as [|s r K S' IH]; [done|]. intros _.
  assert ((forall cl, jgood (JNode false cl) -> jgood (JNode false (deepMerge (wrap r v) cl))) /\
    (forall cl sub, wrap r v = JNode false sub -> allNumericKeys (wrap r v) = true -> jgood (JNode true cl) ->
       jgood (JNode true (deepMergeIntoArray deepMerge cl sub)))) as [I1 I2].
  { destruct r as [|s' r].
    - cbn [wrap]. split; [|intros cl sub ->; by destruct P]. intros cl Hc. by destruct v.
    - destruct (IH ltac:(done)) as [J1 J2]. split; [done|]. intros cl sub E A G. by apply J2. }
  pose proof (wrap_good r v S' W) as G. pose proof (wrap_prim_not_null r v P) as N. split.
  - intros dl Hd. cbn [wrap deepMerge fold_left]. by apply item_good.
  - intros sub al E D Ha. cbn [wrap] in E, D. injection E as <-. unfold deepMergeIntoArray.
    rewrite no_deletions. 2: { split_and!; [done| |done|done]. cbn [allNumericKeys forallb] in D. apply andb_true_iff in D as [D _].
      by apply isAllDigits_atoi. }
    cbn [fold_left]. apply elem_good; [done| |done|done|exact I1].
    cbn [allNumericKeys forallb] in D. by apply andb_true_iff in D as [D _].
Qed.

Lemma set_good ss v dl : Forall str_ok ss -> ss <> [] -> jgood v -> is_prim v -> jgood (JNode false dl) ->
  jgood (JNode false (deepMerge (wrap ss v) dl)).
Proof. intros S N W P. by apply merge_good. Qed.

End Good.

(** ** Keys as segments *)

Fixpoint segsOf (p : bytes) : list bytes :=
  match p with
  | [] => [[]]
  | c :: p' =>
      if c =? chr "." then [] :: segsOf p'
      else match segsOf p' with s :: r => (c :: s) :: r | [] => [[c]] end
  end.

Lemma segsOf_cons p : exists s r, segsOf p = s :: r.
Proof.
  destruct p as [|c p]; [by exists [], []|]. cbn [segsOf]. destruct (c =? chr "."); [do 2 eexists; reflexivity|].
  destruct (segsOf p); do 2 eexists; reflexivity.
Qed.

Lemma path_of_segsOf p : path_of (segsOf p) = p.
Proof.
  induction p as [|c p IH]; [done|]. cbn [segsOf]. destruct (segsOf_cons p) as (s & r & E). rewrite E in *.
  destruct (Z.eqb_spec c (chr ".")) as [->|N].
  - change (path_of ([] :: s :: r)) with ([] ++ chr "." :: path_of (s :: r)). by rewrite IH.
  - rewrite <- IH. destruct r; done.
Qed.

Lemma segsOf_seg s rest : chr "." ∉ s -> segsOf (s ++ chr "." :: rest) = s :: segsOf rest.
Proof.
  induction s as [|c s IH]; intros N; [done|]. apply not_elem_of_cons in N as [N1 N2]. cbn [app segsOf].
  rewrite (proj2 (Z.eqb_neq _ _)) by done. by rewrite IH.
Qed.

Lemma segsOf_path_of ss : Forall good_seg ss -> ss <> [] -> segsOf (path_of ss) = ss.
Proof.
  intros G. induction G as [|s r (_ & D & _) G' IH]; [done|]. intros _. destruct r as [|s' r].
  - cbn [path_of]. clear G' IH. induction s as [|c s IH]; [done|]. apply not_elem_of_cons in D as [D1 D2]. cbn [segsOf].
    rewrite (proj2 (Z.eqb_neq _ _)) by done. by rewrite IH.
  - rewrite path_of_cons, segsOf_seg by done. by rewrite IH.
Qed.

(** ** Values along paths *)

Section Paths.
Context `{CJ : CJson} `{L : !CJsonLaws CJ}.
Notation oget := (kget cj_same).
Notation same := cj_same.

(** The value of a key in a tree, as the readers see it. *)
Definition leaf (r : kids) (ss : list bytes) : option bytes := lval (navS (Some (JNode false r)) ss).

(** [ss] is [ps] or below it, names compared as cJSON does. *)
Fixpoint under (ps ss : list bytes) : bool :=
  match ps, ss with
  | [], _ => true
  | p :: ps, s :: ss => same p s && under ps ss
  | _ :: _, [] => false
  end.

Definition apart (ps qs : list bytes) : bool := negb (under ps qs) && negb (under qs ps).

Lemma under_refl ps : under ps ps = true.
Proof. induction ps as [|p ps IH]; [done|]. cbn. by rewrite cj_refl. Qed.

Lemma apart_sym ps qs : apart ps qs = apart qs ps.
Proof. unfold apart. apply andb_comm. Qed.

Lemma under_trans a b c : under a b = true -> under b c = true -> under a c = true.
Proof.
  revert b c. induction a as [|x a IH]; intros [|y b] [|z c]; cbn; try done.
  rewrite !andb_true_iff. intros [A1 A2] [B1 B2]. split; [by eapply cj_trans|by eapply IH].
Qed.

(** Two ways to the same place are comparable. *)
Lemma under_both a b c : under a c = true -> under b c = true -> under a b = true \/ under b a = true.
Proof.
  revert b c. induction a as [|x a IH]; intros [|y b] [|z c]; cbn; try auto; try done.
  rewrite !andb_true_iff. intros [A1 A2] [B1 B2]. assert (same x y = true) as X by (eapply cj_trans; [exact A1|by rewrite cj_sym]).
  rewrite (cj_sym y x), X. destruct (IH b c A2 B2); auto.
Qed.

Lemma apart_under a b c : apart a b = true -> under a c = true -> under b c = false.
Proof.
  unfold apart. rewrite andb_true_iff, !negb_true_iff. intros [A B] U. destruct (under b c) eqn:E; [|done].
  destruct (under_both a b c U E); congruence.
Qed.

Lemma under_drop ps ss : under ps ss = true -> exists pre, ss = pre ++ drop (length ps) ss /\ length pre = length ps.
Proof.
  intros U. exists (take (length ps) ss). split; [by rewrite take_drop|]. rewrite length_take.
  revert ss U. induction ps as [|p ps IH]; intros [|s ss]; cbn; try done; try lia.
  rewrite andb_true_iff. intros [_ U]. specialize (IH _ U). lia.
Qed.

(** The nodes above [ps] are objects, as far as they exist. *)
Fixpoint objpath (l : kids) (ps : list bytes) : Prop :=
  match ps with
  | s :: ((_ :: _) as ps') =>
      match oget l s with
      | None => True
      | Some (JNode false l') => objpath l' ps'
      | _ => False
      end
  | _ => True
  end.

(** [l'] is [l] with [w] under [s]. *)
Definition oset (l l' : kids) (s : bytes) (w : option json) : Prop :=
  forall k, oget l' k = if same s k then w else oget l k.

Lemma navS_cons b l s r : b = false -> navS (Some (JNode b l)) (s :: r) = navS (oget l s) r.
Proof. intros ->. cbn [navS mbind option_bind]. by rewrite step_object. Qed.

Lemma oset_nav l l' s w k r : oset l l' s w ->
  navS (Some (JNode false l')) (k :: r) = if same s k then navS w r else navS (Some (JNode false l)) (k :: r).
Proof. intros O. rewrite !navS_cons by done. rewrite O. by destruct (same s k). Qed.

(** ** Going to a parent and changing it *)

Fixpoint alterAt {A} (ps : list bytes) (l : kids) (k : kids -> bytes -> kids * A) : option (kids * A) :=
  match ps with
  | [] => None
  | [s] => Some (k l s)
  | s :: ps' =>
      i ← kpos same l s;
      match l !! i with
      | Some (nm, JNode b c) => '(c', a) ← alterAt ps' c k; Some (<[i := (nm, JNode b c')]> l, a)
      | _ => None
      end
  end.

Lemma alterAt_cons {A} s s' ps l (k : kids -> bytes -> kids * A) : alterAt (s :: s' :: ps) l k =
  (i ← kpos same l s;
   match l !! i with
   | Some (nm, JNode b c) => '(c', a) ← alterAt (s' :: ps) c k; Some (<[i := (nm, JNode b c')]> l, a)
   | _ => None
   end).
Proof. done. Qed.

Lemma navLeaf_alter {A} ps (k : kids -> bytes -> kids * A) : Forall good_seg ps -> ps <> [] -> forall fuel l,
  (length (path_of ps) <= fuel)%nat -> navLeaf fuel l (path_of ps) k = alterAt ps l k.
Proof.
  intros G. induction G as [|s r Hs Hr IH]; [done|]. intros _ fuel l Hf.
  destruct (seg_tests s Hs) as [T1 T2]. pose proof (path_nonempty (s :: r) ltac:(by constructor) ltac:(done)) as Hne.
  destruct fuel as [|f]; [destruct (path_of (s :: r)); [done|cbn in Hf; lia]|]. cbn [navLeaf]. destruct r as [|s' r].
  - cbn [path_of]. by rewrite segment_last, T1, T2.
  - rewrite segment_cons, T1, T2 by done. cbn [negb alterAt]. rewrite cj_find.
    destruct (kpos same l s) as [i|]; [|done]. cbn [mbind option_bind]. destruct (l !! i) as [[nm [| | | |b c]]|]; try done.
    rewrite IH; [done|done|]. rewrite path_of_cons, length_app in Hf. cbn [length] in Hf. lia.
Qed.

Lemma navigateLeaf_alter {A} ps (k : kids -> bytes -> kids * A) l : Forall good_seg ps -> ps <> [] ->
  navigateLeaf l (path_of ps) k = alterAt ps l k.
Proof.
  intros G N. unfold navigateLeaf. rewrite (proj2 (Z.eqb_neq _ _)); [by apply navLeaf_alter|].
  intros E. apply Zlen_zero in E. by apply path_nonempty in E.
Qed.

(** What is at the end of a path, contents aside: trees that agree on it hold the same
    values in some order. *)
Definition shape (n : option json) : option json :=
  match n with Some (JNode b _) => Some (JNode b []) | _ => n end.

Definition kind_at (l : kids) (ss : list bytes) : option json := shape (navS (Some (JNode false l)) ss).

Definition teq (l r : kids) : Prop := forall ss, kind_at l ss = kind_at r ss.

Lemma leaf_at l ss : leaf l ss = lval (kind_at l ss).
Proof. unfold leaf, kind_at. by destruct (navS _ ss) as [[| | | |]|]. Qed.

Lemma teq_leaf l r ss : teq l r -> leaf l ss = leaf r ss.
Proof. intros T. by rewrite !leaf_at, T. Qed.

Lemma at_cons l s ss : kind_at l (s :: ss) = shape (navS (oget l s) ss).
Proof. unfold kind_at. by rewrite navS_cons. Qed.

Lemma teq_oget l r s : teq l r -> forall ss, shape (navS (oget l s) ss) = shape (navS (oget r s) ss).
Proof. intros T ss. rewrite <- !at_cons. apply T. Qed.

(** Names that cJSON takes for the same lead to the same node. *)
Lemma step_same n a b : same a b = true -> step n a = step n b.
Proof.
  intros S. assert (isAllDigits a = isAllDigits b) as D.
  { destruct (isAllDigits a) eqn:Da; [by rewrite (cj_digits _ _ Da S)|]. destruct (isAllDigits b) eqn:Db; [|done].
    rewrite cj_sym in S. rewrite (cj_digits _ _ Db S) in Da. congruence. }
  unfold step. rewrite D. destruct (cJSON_IsArray n && isAllDigits b) eqn:E.
  - apply andb_true_iff in E as [_ E]. rewrite cj_sym in S. by rewrite (cj_digits _ _ E S).
  - destruct n as [| | | |c l]; try done. rewrite !GetObjectItem_oget. by apply oget_same.
Qed.

Lemma navS_app n ss rr : navS n (ss ++ rr) = navS (navS n ss) rr.
Proof. revert n. induction ss as [|s ss IH]; intros n; [done|]. cbn [navS app]. apply IH. Qed.

Lemma navS_under n ps ss : under ps ss = true -> navS n ss = navS (navS n ps) (drop (length ps) ss).
Proof.
  revert n ss. induction ps as [|p ps IH]; intros n [|s ss]; cbn [under]; try done.
  rewrite andb_true_iff. intros [S U]. cbn [navS length drop]. rewrite <- (IH _ _ U).
  destruct n as [n|]; [|done]. cbn [mbind option_bind]. by rewrite (step_same n _ _ S).
Qed.

(** What a change under the last name, [oset] by [w], means along every path. *)
Lemma alterAt_at {A} ps (k : kids -> bytes -> kids * A) w l r a :
  (forall c s, uniq c -> oset c (k c s).1 s (w c s)) -> wfj (JNode false l) -> objpath l ps ->
  alterAt ps l k = Some (r, a) ->
  exists c s, a = (k c s).2 /\ wfj (JNode false c) /\ navS (Some (JNode false l)) ps = oget c s /\
    (forall ss, under ps ss = true -> navS (Some (JNode false r)) ss = navS (w c s) (drop (length ps) ss)) /\
    (forall ss, under ps ss = false -> kind_at r ss = kind_at l ss).
Proof.
  intros K. revert l r. induction ps as [|s ps IH]; intros l r W O E; [done|]. destruct ps as [|s' ps].
  - cbn [alterAt] in E. injection E as E. destruct (k l s) as [l' a'] eqn:Ek. injection E as <- <-.
    pose proof (K l s (proj1 W)) as Os. rewrite Ek in Os. cbn [fst] in Os.
    exists l, s. rewrite Ek. split_and!; [done|done|by rewrite navS_cons|..].
    + intros [|x ss]; [done|]. cbn [under]. rewrite andb_true_r. intros X. rewrite (oset_nav _ _ _ _ _ _ Os), X. done.
    + unfold kind_at. intros [|x ss]; [done|]. cbn [under]. rewrite andb_true_r. intros X. by rewrite (oset_nav _ _ _ _ _ _ Os), X.
  - rewrite alterAt_cons in E. destruct (kpos same l s) as [i|] eqn:Ei; [|done]. cbn [mbind option_bind] in E.
    destruct (kpos_Some _ _ _ Ei) as (n & v & Hl & Hs & Ho). rewrite Hl in E. cbn [objpath] in O. rewrite Ho in O.
    destruct v as [| | | |[|] c]; try done.
    destruct (alterAt (s' :: ps) c k) as [[c' a']|] eqn:Ec; cbn [mbind option_bind] in E; [|done].
    injection E as <- <-. pose proof (wfj_oget _ _ _ W Ho) as Wc.
    destruct (IH c c' Wc O Ec) as (pc & ps' & A1 & A2 & A3 & A4 & A5).
    assert (oset l (<[i := (Some n, JNode false c')]> l) s (Some (JNode false c'))) as Os
      by (intros x; by apply (oget_set _ _ _ _ _ _ _ Ei Hl)).
    exists pc, ps'. split_and!; [done|done|by rewrite navS_cons, Ho|..].
    + intros [|x ss]; [done|]. cbn [under]. rewrite andb_true_iff. intros [X U]. rewrite (oset_nav _ _ _ _ _ _ Os), X. by apply A4.
    + intros [|x ss]; [done|]. cbn [under]. intros X. unfold kind_at at 1. rewrite (oset_nav _ _ _ _ _ _ Os).
      destruct (same s x) eqn:Sx; [|done]. cbn [andb] in X. rewrite at_cons, <- (oget_same _ _ _ Sx), Ho. by apply A5.
Qed.

(** Without a parent there is nothing below. *)
Lemma alterAt_none {A} ps (k : kids -> bytes -> kids * A) l : ps <> [] -> objpath l ps -> alterAt ps l k = None ->
  navS (Some (JNode false l)) ps = None.
Proof.
  revert l. induction ps as [|s ps IH]; intros l N O E; [done|]. destruct ps as [|s' ps]; [done|].
  rewrite alterAt_cons in E. rewrite navS_cons by done. destruct (kpos same l s) as [i|] eqn:Ei.
  - destruct (kpos_Some _ _ _ Ei) as (n & v & Hl & Hs & Ho). cbn [mbind option_bind] in E. rewrite Hl in E. cbn [objpath] in O.
    rewrite Ho in O |- *. destruct v as [| | | |[|] c]; try done. apply (IH c ltac:(done) O).
    destruct (alterAt (s' :: ps) c k) as [[c' a']|]; done.
  - by rewrite (kpos_None _ _ Ei), navS_None.
Qed.

(** There is a parent. *)
Fixpoint hasParent (l : kids) (ps : list bytes) : Prop :=
  match ps with
  | [] => False
  | [_] => True
  | s :: ps' => match oget l s with Some (JNode false c) => hasParent c ps' | _ => False end
  end.

Lemma hasParent_cons l s s' ps : hasParent l (s :: s' :: ps) =
  match oget l s with Some (JNode false c) => hasParent c (s' :: ps) | _ => False end.
Proof. done. Qed.

Lemma teq_child l r s c : teq l r -> oget l s = Some (JNode false c) -> exists d, oget r s = Some (JNode false d) /\ teq c d.
Proof.
  intros T E. pose proof (teq_oget l r s T) as O. rewrite E in O. pose proof (O []) as O0. cbn in O0.
  destruct (oget r s) as [[| | | |[|] d]|]; try done. exists d. split; [done|]. exact O.
Qed.

Lemma teq_sym l r : teq l r -> teq r l.
Proof. intros T ss. by rewrite T. Qed.

Lemma hasParent_teq l r ps : teq l r -> hasParent l ps -> hasParent r ps.
Proof.
  revert l r. induction ps as [|s ps IH]; intros l r T; [done|]. destruct ps as [|s' ps]; [done|].
  rewrite !hasParent_cons. destruct (oget l s) as [[| | | |[|] c]|] eqn:E; try done.
  destruct (teq_child _ _ _ _ T E) as (d & -> & T'). by apply IH.
Qed.

Lemma objpath_teq l r ps : teq l r -> objpath l ps -> objpath r ps.
Proof.
  revert l r. induction ps as [|s ps IH]; intros l r T O; [done|]. destruct ps as [|s' ps]; [done|].
  cbn [objpath] in *. pose proof (teq_oget l r s T []) as O0. cbn in O0.
  destruct (oget l s) as [[| | | |[|] c]|] eqn:E; try done.
  - destruct (teq_child _ _ _ _ T E) as (d & -> & T'). by apply (IH c).
  - by destruct (oget r s) as [[| | | |]|].
Qed.

Lemma alterAt_parent {A} ps (k : kids -> bytes -> kids * A) l : hasParent l ps <-> objpath l ps /\ is_Some (alterAt ps l k).
Proof.
  revert l. induction ps as [|s ps IH]; intros l; [by split; [|intros [_ []]]|].
  destruct ps as [|s' ps]; [split; [by eauto|done]|]. rewrite hasParent_cons, alterAt_cons. cbn [objpath].
  destruct (kpos same l s) as [i|] eqn:Ei.
  - destruct (kpos_Some _ _ _ Ei) as (n & v & Hl & Hs & Ho). rewrite Ho. cbn [mbind option_bind]. rewrite Hl.
    destruct v as [| | | |[|] c]; try (split; [done|intros [? ?]; done]). rewrite IH.
    destruct (alterAt (s' :: ps) c k) as [[c' a']|]; cbn [mbind option_bind]; split; intros [X [y Y]]; split; eauto; done.
  - rewrite (kpos_None _ _ Ei). split; [done|]. cbn [mbind option_bind]. intros [_ [y Y]]. done.
Qed.

Lemma alterAt_hasParent {A} ps (k : kids -> bytes -> kids * A) l r a : objpath l ps -> alterAt ps l k = Some (r, a) -> hasParent r ps.
Proof.
  revert l r. induction ps as [|p ps IH]; intros l r O E; [done|]. destruct ps as [|p' ps]; [done|].
  rewrite alterAt_cons in E. destruct (kpos same l p) as [i|] eqn:Ei; [|done]. cbn [mbind option_bind] in E.
  destruct (kpos_Some _ _ _ Ei) as (n & v & Hl & Hs & Ho). rewrite Hl in E. cbn [objpath] in O. rewrite Ho in O.
  destruct v as [| | | |[|] c]; try done.
  destruct (alterAt (p' :: ps) c _) as [[c' a']|] eqn:Ec; cbn [mbind option_bind] in E; [|done]. injection E as <- <-.
  rewrite hasParent_cons, (oget_set _ _ _ _ _ _ _ Ei Hl), cj_refl. by eapply IH.
Qed.

(** A change at [ps] leaves the nodes above a key that is apart as they were. *)
Lemma at_above l ps : objpath l ps <-> forall q rr, ps = q ++ rr -> q <> [] -> rr <> [] -> kind_at l q = None \/ kind_at l q = Some (JNode false []).
Proof.
  revert l. induction ps as [|s ps IH]; intros l.
  { split; [|done]. intros _ q rr E Q. by destruct q. }
  destruct ps as [|s' ps].
  - split; [|done]. intros _ [|x q] rr E Q R; [done|]. injection E as <- E. destruct q; [|done]. cbn in E. by subst rr.
  - cbn [objpath]. split.
    + intros O [|x q] rr E Q R; [done|]. injection E as <- E. rewrite at_cons.
      destruct (oget l s) as [[| | | |[|] c]|] eqn:Eo; try done; [|left; by rewrite navS_None].
      destruct q as [|y q]; [by right|]. apply (proj1 (IH c) O (y :: q) rr E); done.
    + intros K. pose proof (K [s] (s' :: ps) eq_refl ltac:(done) ltac:(done)) as K0. rewrite at_cons in K0. cbn [navS] in K0.
      destruct (oget l s) as [[| | | |[|] c]|] eqn:Eo; cbn in K0; try (by destruct K0); [].
      apply IH. intros q rr E Q R. specialize (K (s :: q) rr ltac:(by rewrite E) ltac:(done) R). by rewrite at_cons, Eo in K.
Qed.

Lemma under_app q rr : under q (q ++ rr) = true.
Proof. induction q as [|x q IH]; [done|]. cbn. by rewrite cj_refl. Qed.

Lemma objpath_apart l r ps qs : (forall ss, under ps ss = false -> kind_at r ss = kind_at l ss) -> under ps qs = false ->
  objpath l qs -> objpath r qs.
Proof.
  intros K A O. apply (at_above r qs). intros q rr E Q R.
  rewrite K; [by eapply (proj1 (at_above l qs))|]. destruct (under ps q) eqn:U; [|done].
  rewrite E in A. by rewrite (under_trans _ _ _ U (under_app q rr)) in A.
Qed.

End Paths.

(** ** Taking sub-trees out and grafting them *)

Import Tree Ops Actor Externals Load.

(** An external whose prefix is a key the tree can hold. *)
Definition segs (e : external_t) : list bytes := segsOf (e_prefix e).

Definition prefix_ok (e : external_t) : Prop := Forall good_seg (segs e) /\ Forall str_ok (segs e).

Lemma segs_path e : e_prefix e = path_of (segs e).
Proof. symmetry. apply path_of_segsOf. Qed.

Lemma segs_ne e : segs e <> [].
Proof. unfold segs. destruct (segsOf_cons (e_prefix e)) as (s & r & ->). done. Qed.

#[export] Instance external_eq_dec : EqDecision external_t.
Proof. solve_decision. Defined.

Section Parts.
Context `{CJ : CJson} `{L : !CJsonLaws CJ}.
Notation oget := (kget cj_same).
Notation same := cj_same.

(** ** Good trees stay good *)

Lemma alterAt_good {A} ps (k : kids -> bytes -> kids * A) l r a :
  (forall c s, jgood (JNode false c) -> navS (Some (JNode false l)) ps = oget c s -> s ∈ ps -> jgood (JNode false (k c s).1)) ->
  jgood (JNode false l) -> objpath l ps -> alterAt ps l k = Some (r, a) -> jgood (JNode false r).
Proof.
  revert l r. induction ps as [|s ps IH]; intros l r K G O E; [done|]. destruct ps as [|s' ps].
  - cbn [alterAt] in E. injection E as E. pose proof (K l s G) as Ks. rewrite E in Ks. apply Ks; [by rewrite navS_cons|by left].
  - rewrite alterAt_cons in E. destruct (kpos same l s) as [i|] eqn:Ei; [|done]. cbn [mbind option_bind] in E.
    destruct (kpos_Some _ _ _ Ei) as (n & v & Hl & Hs & Ho). rewrite Hl in E. cbn [objpath] in O. rewrite Ho in O.
    destruct v as [| | | |[|] c]; try done.
    destruct (alterAt (s' :: ps) c k) as [[c' a']|] eqn:Ec; cbn [mbind option_bind] in E; [|done].
    injection E as <- <-. eapply jgood_insert; [done|exact Hl|]. eapply (IH c c'); [|by eapply jgood_oget|done|done].
    intros c0 s0 G0 N0 I0. apply K; [done| |by right]. rewrite navS_cons, Ho by done. exact N0.
Qed.

(** ** Detaching *)

Definition detach (ps : list bytes) (l : kids) : kids * option json :=
  match alterAt ps l cJSON_DetachItemFromObject with
  | Some (r, Some item) => (r, Some item)
  | _ => (l, None)
  end.

Lemma detach_oset c s : uniq c -> oset c (cJSON_DetachItemFromObject c s).1 s None.
Proof.
  intros U k. unfold cJSON_DetachItemFromObject. rewrite cj_find. destruct (kpos same c s) as [i|] eqn:E.
  - apply (proj1 (del_spec c s U)).
  - cbn [fst]. destruct (same s k) eqn:S; [|done]. rewrite <- (oget_same _ _ _ S). by apply kpos_None.
Qed.

Lemma detach_item c s : (cJSON_DetachItemFromObject c s).2 = oget c s.
Proof.
  unfold cJSON_DetachItemFromObject. rewrite cj_find. destruct (kpos same c s) as [i|] eqn:E.
  - destruct (kpos_Some _ _ _ E) as (n & v & Hl & _ & Ho). cbn [snd]. by rewrite Hl, Ho.
  - by rewrite (kpos_None _ _ E).
Qed.

Lemma at_under l ps ss : under ps ss = true -> kind_at l ss = shape (navS (navS (Some (JNode false l)) ps) (drop (length ps) ss)).
Proof. intros U. unfold kind_at. by rewrite (navS_under _ _ _ U). Qed.

Lemma detach_ok ps l : ps <> [] -> jgood (JNode false l) -> objpath l ps ->
  let '(r, item) := detach ps l in
  item = navS (Some (JNode false l)) ps /\ jgood (JNode false r) /\
  (forall ss, kind_at r ss = if under ps ss then None else kind_at l ss) /\ (is_Some item -> hasParent r ps).
Proof.
  intros N G O. unfold detach. pose proof (jgood_wfj _ G) as W.
  assert (navS (Some (JNode false l)) ps = None -> forall ss, kind_at l ss = if under ps ss then None else kind_at l ss) as Nil.
  { intros E ss. destruct (under ps ss) eqn:U; [|done]. by rewrite (at_under _ _ _ U), E, navS_None. }
  destruct (alterAt ps l cJSON_DetachItemFromObject) as [[r a]|] eqn:E.
  - destruct (alterAt_at ps _ (fun _ _ => None) l r a detach_oset W O E) as (c & s & A1 & A2 & A3 & A4 & A5).
    rewrite detach_item, <- A3 in A1. destruct a as [item|].
    + split_and!; [done| | |].
      * eapply alterAt_good; [|exact G|exact O|exact E]. intros c0 s0 G0 _ _. unfold cJSON_DetachItemFromObject.
        destruct (cJSON_find c0 s0); [by apply jgood_del|done].
      * intros ss. destruct (under ps ss) eqn:U; [|by apply A5]. unfold kind_at. by rewrite A4, navS_None.
      * intros _. by eapply alterAt_hasParent.
    + split_and!; [done|done|by apply Nil|by intros []].
  - pose proof (alterAt_none _ _ _ N O E) as E0. split_and!; [done|done|by apply Nil|by intros []].
Qed.

(** ** Reattaching *)

Definition reattach (ps : list bytes) (l : kids) (item : json) : option (kids * unit) :=
  alterAt ps l (fun c leaf => (cJSON_AddItemToObject c leaf item, tt)).

Lemma reattach_ok ps l item : ps <> [] -> jgood (JNode false l) -> hasParent l ps -> kind_at l ps = None -> jgood item -> Forall str_ok ps ->
  exists r, reattach ps l item = Some (r, tt) /\ jgood (JNode false r) /\
    (forall ss, kind_at r ss = if under ps ss then shape (navS (Some item) (drop (length ps) ss)) else kind_at l ss).
Proof.
  intros N G P A Gi S. apply (alterAt_parent ps (fun c leaf => (cJSON_AddItemToObject c leaf item, tt))) in P as [O [[r []] E]].
  exists r. split; [exact E|].
  assert (navS (Some (JNode false l)) ps = None) as A' by (unfold kind_at in A; destruct (navS _ ps) as [[| | | |]|]; done).
  split.
  - eapply alterAt_good; [|exact G|exact O|exact E]. intros c s Gc Nc Is. cbn [fst]. rewrite cj_add.
    apply jgood_snoc; [done|by rewrite <- Nc|by apply (proj1 (Forall_forall _ _) S)|done].
  - destruct (alterAt_at ps (fun c leaf => (cJSON_AddItemToObject c leaf item, tt))
      (fun c s => match oget c s with Some v => Some v | None => Some item end) l r tt) as (c & s & _ & _ & A3 & A4 & A5).
    + intros c s U k. cbn [fst]. rewrite cj_add, oget_app. cbn [kget]. destruct (same s k) eqn:Sk.
      * rewrite <- (oget_same _ _ _ Sk). by destruct (oget c s).
      * by destruct (oget c k).
    + by apply jgood_wfj.
    + done.
    + exact E.
    + rewrite A' in A3. rewrite <- A3 in A4. intros ss. destruct (under ps ss) eqn:U; [|by apply A5]. unfold kind_at. by rewrite A4.
Qed.

(** ** All the externals of a tree *)

Fixpoint all_apart (exts : list external_t) : Prop :=
  match exts with
  | [] => True
  | e :: r => Forall (fun f => apart (segs e) (segs f) = true) r /\ all_apart r
  end.

Definition covers (exts : list external_t) (ss : list bytes) : bool :=
  existsb (fun e => negb (e_pendingDelete e) && under (segs e) ss) exts.

Lemma detachOne_detach l acc e : prefix_ok e -> detachOne (l, acc) e =
  if e_pendingDelete e then (l, acc)
  else match detach (segs e) l with (r, Some it) => (r, acc ++ [(e_prefix e, it)]) | (_, None) => (l, acc) end.
Proof.
  intros [G _]. unfold detachOne, detach. cbn [fst snd]. rewrite (segs_path e) at 1. rewrite navigateLeaf_alter by (done || apply segs_ne).
  destruct (e_pendingDelete e); [done|]. by destruct (alterAt (segs e) l _) as [[r [it|]]|].
Qed.

Lemma detach_acc exts : Forall prefix_ok exts -> forall l acc,
  foldl detachOne (l, acc) exts = let '(r, sv) := foldl detachOne (l, []) exts in (r, acc ++ sv).
Proof.
  intros P. induction P as [|e exts P1 P2 IH]; intros l acc; cbn [foldl]; [by rewrite app_nil_r|].
  rewrite !detachOne_detach by done. destruct (e_pendingDelete e); [apply IH|].
  destruct (detach (segs e) l) as [r [it|]]; [|apply IH]. cbn [app]. rewrite IH, (IH r [_]).
  destruct (foldl detachOne (r, []) exts) as [r' sv]. by rewrite app_assoc.
Qed.

Lemma reattachOne_reattach l e it : prefix_ok e ->
  reattachOne l (e_prefix e, it) = match reattach (segs e) l it with Some (r, _) => r | None => l end.
Proof.
  intros [G _]. unfold reattachOne, reattach. cbn [fst snd]. rewrite (segs_path e) at 1. by rewrite navigateLeaf_alter by (done || apply segs_ne).
Qed.

Lemma detachAll_ok exts : Forall prefix_ok exts -> all_apart exts -> forall l, jgood (JNode false l) ->
  Forall (fun e => objpath l (segs e)) exts ->
  let '(r, sv) := detachAll l exts in
  jgood (JNode false r) /\ (forall ss, kind_at r ss = if covers exts ss then None else kind_at l ss) /\
  (forall R, jgood (JNode false R) -> teq R r -> jgood (JNode false (reattachAll R sv)) /\ teq (reattachAll R sv) l).
Proof.
  intros P. unfold detachAll, reattachAll. induction P as [|e exts P1 P2 IH]; intros A l G O; [by split_and!|].
  destruct A as [A1 A2]. apply Forall_cons in O as [O1 O2]. cbn [foldl covers existsb].
  rewrite detachOne_detach by done. destruct (e_pendingDelete e) eqn:D; cbn [negb andb orb]; [by apply IH|].
  pose proof (detach_ok (segs e) l (segs_ne e) G O1) as K. destruct (detach (segs e) l) as [l1 it]. destruct K as (K1 & K2 & K3 & K4).
  destruct it as [it|].
  - assert (Forall (fun f => objpath l1 (segs f)) exts) as O'.
    { apply Forall_forall. intros f Hf. eapply (objpath_apart l).
      - intros ss U. by rewrite K3, U.
      - pose proof (proj1 (Forall_forall _ _) A1 f Hf) as Af. cbn beta in Af. unfold apart in Af. apply andb_true_iff in Af as [Af _].
        by apply negb_true_iff in Af.
      - by apply (proj1 (Forall_forall _ _) O2). }
    specialize (IH A2 l1 K2 O'). cbn [app]. rewrite detach_acc by done. destruct (foldl detachOne (l1, []) exts) as [r sv].
    destruct IH as (I1 & I2 & I3). split_and!; [done| |].
    + intros ss. rewrite I2, K3. fold (covers exts ss). by destruct (covers exts ss), (under (segs e) ss).
    + intros R GR TR. cbn [app]. change ((e_prefix e, it) :: sv) with ([(e_prefix e, it)] ++ sv). rewrite rev_app_distr, foldl_app. cbn [rev app foldl].
      destruct (I3 R GR TR) as [J1 J2]. set (R1 := foldl reattachOne R (rev sv)) in *.
      rewrite reattachOne_reattach by done.
      destruct (reattach_ok (segs e) R1 it (segs_ne e) J1) as (R2 & E2 & G2 & T2).
      * eapply hasParent_teq; [by apply teq_sym|]. by apply K4.
      * by rewrite J2, K3, under_refl.
      * eapply jgood_nav; [exact G|by symmetry].
      * apply P1.
      * rewrite E2. split; [done|]. intros ss. rewrite T2. destruct (under (segs e) ss) eqn:U.
        -- rewrite (at_under l _ _ U), <- K1. done.
        -- by rewrite J2, K3, U.
  - specialize (IH A2 l G O2). destruct (foldl detachOne (l, []) exts) as [r sv]. destruct IH as (I1 & I2 & I3).
    split_and!; [done| |done]. intros ss. rewrite I2. fold (covers exts ss). destruct (under (segs e) ss) eqn:U; [|done]. cbn [orb].
    rewrite (at_under l _ _ U), <- K1, navS_None. by destruct (covers exts ss).
Qed.

(** ** Attaching a sub-tree where it belongs *)

Fixpoint graft (ps : list bytes) (l : kids) (v : json) : kids :=
  match ps with
  | [] => l
  | [s] => put_leaf v l s
  | s :: ps' =>
      match kpos same l s with
      | None => l ++ [(Some s, JNode false (graft ps' [] v))]
      | Some i =>
          match l !! i with
          | Some (nm, JNode b c) => <[i := (nm, JNode b (graft ps' c v))]> l
          | _ => put_leaf (JNode false (graft ps' [] v)) l s
          end
      end
  end.

Lemma graft_cons s s' ps l v : graft (s :: s' :: ps) l v =
  match kpos same l s with
  | None => l ++ [(Some s, JNode false (graft (s' :: ps) [] v))]
  | Some i =>
      match l !! i with
      | Some (nm, JNode b c) => <[i := (nm, JNode b (graft (s' :: ps) c v))]> l
      | _ => put_leaf (JNode false (graft (s' :: ps) [] v)) l s
      end
  end.
Proof. done. Qed.

Lemma navCreate_graft ps v : Forall good_seg ps -> ps <> [] -> forall fuel l, (length (path_of ps) <= fuel)%nat ->
  navCreate fuel l (path_of ps) (put_leaf v) = (graft ps l v, true).
Proof.
  intros G. induction G as [|s r Hs Hr IH]; [done|]. intros _ fuel l Hf.
  destruct (seg_tests s Hs) as [T1 T2]. pose proof (path_nonempty (s :: r) ltac:(by constructor) ltac:(done)) as Hne.
  destruct (path_of (s :: r)) as [|x p] eqn:Ep; [done|]. destruct fuel as [|f]; [cbn in Hf; lia|].
  cbn [navCreate]. rewrite <- Ep. destruct r as [|s' r].
  - cbn [path_of] in *. rewrite segment_last, T1, T2 by done. cbn [negb graft]. do 2 f_equal.
    unfold trunc. rewrite take_ge; [done|]. destruct Hs as (_ & _ & Hl). unfold SEG_SIZE, Zlen in Hl. cbn. lia.
  - rewrite segment_cons, T1, T2 by done. cbn [negb]. rewrite cj_find, graft_cons.
    assert (length (path_of (s' :: r)) <= f)%nat as Hf' by (rewrite <- Ep, path_of_cons, length_app in Hf; cbn [length] in Hf; lia).
    destruct (kpos same l s) as [i|].
    + destruct (l !! i) as [[nm [| | | |b c]]|]; rewrite IH by done; done.
    + rewrite IH by done. by rewrite cj_add.
Qed.

Lemma attachAtPath_graft ps l v : Forall good_seg ps -> ps <> [] -> attachAtPath l (path_of ps) v = graft ps l v.
Proof. intros G N. unfold attachAtPath, navigateOrCreate. by rewrite navCreate_graft. Qed.

Lemma put_oset l s v : uniq l -> oset l (put_leaf v l s) s (Some v).
Proof. intros U k. unfold put_leaf. apply (proj1 (replace_spec l s v U)). Qed.

(** Along [ps] the sub-tree, elsewhere what was there, but for the objects made on the way. *)
Lemma graft_ok ps v : Forall str_ok ps -> ps <> [] -> jgood v -> forall l, jgood (JNode false l) -> objpath l ps ->
  jgood (JNode false (graft ps l v)) /\
  (forall ss, under ps ss = true -> kind_at (graft ps l v) ss = shape (navS (Some v) (drop (length ps) ss))) /\
  (forall ss, under ps ss = false -> kind_at (graft ps l v) ss = kind_at l ss \/
     (kind_at l ss = None /\ kind_at (graft ps l v) ss = Some (JNode false []))).
Proof.
  intros S. induction S as [|s ps K S IH]; [done|]. intros _ Gv l G O. pose proof (proj1 (proj2 (proj1 (jgood_node _ _) G)) eq_refl) as U.
  destruct ps as [|s' ps].
  - cbn [graft]. split_and!; [by apply jgood_put|..]; (intros [|x ss]; [try done; by left|]); cbn [under]; rewrite andb_true_r; intros X;
      unfold kind_at; rewrite (oset_nav _ _ _ _ _ _ (put_oset l s v U)), X; [done|by left].
  - rewrite graft_cons. assert (forall c, objpath c (s' :: ps) -> jgood (JNode false c) ->
      forall l', oset l l' s (Some (JNode false (graft (s' :: ps) c v))) -> jgood (JNode false l') ->
      (forall ss, kind_at c ss = shape (navS (oget l s) ss) \/ (ss <> [] /\ oget l s = None /\ c = []) \/ (ss = [] /\ oget l s = None)) ->
      jgood (JNode false l') /\
      (forall ss, under (s :: s' :: ps) ss = true -> kind_at l' ss = shape (navS (Some v) (drop (length (s :: s' :: ps)) ss))) /\
      (forall ss, under (s :: s' :: ps) ss = false -> kind_at l' ss = kind_at l ss \/ (kind_at l ss = None /\ kind_at l' ss = Some (JNode false [])))) as Main.
    { intros c Oc Gc l' Os G' C. destruct (IH ltac:(done) Gv c Gc Oc) as (I1 & I2 & I3). split_and!; [done|..].
      - intros [|x ss]; [done|]. cbn [under]. fold (under (s' :: ps) ss). rewrite andb_true_iff. intros [X U'].
        unfold kind_at at 1. rewrite (oset_nav _ _ _ _ _ _ Os), X. by apply I2.
      - intros [|x ss] X; [by left|]. assert (kind_at l' (x :: ss) = if same s x then kind_at (graft (s' :: ps) c v) ss else kind_at l (x :: ss)) as ->.
        { unfold kind_at. rewrite (oset_nav _ _ _ _ _ _ Os). by destruct (same s x). }
        change (same s x && under (s' :: ps) ss = false) in X.
        destruct (same s x) eqn:Sx; [|by left]. cbn [andb] in X. rewrite at_cons, <- (oget_same _ _ _ Sx). destruct (C ss) as [E|[(Q & E & ->)|[-> E]]].
        + rewrite <- E. by apply I3.
        + rewrite E, navS_None. destruct (I3 ss X) as [J|[J1 J2]]; [left|by right].
          rewrite J. destruct ss as [|y ss]; [done|]. rewrite at_cons. cbn [kget]. by rewrite navS_None.
        + right. rewrite E. done. }
    cbn [objpath] in O. destruct (kpos same l s) as [i|] eqn:Ei.
    + destruct (kpos_Some _ _ _ Ei) as (n & w & Hl & Hs & Ho). rewrite Hl. rewrite Ho in O.
      destruct w as [| | | |[|] c]; try done. pose proof (jgood_oget _ _ _ _ G Ho) as Gc. apply (Main c); [done|done| | |].
      * intros x. by apply (oget_set _ _ _ _ _ _ _ Ei Hl).
      * eapply jgood_insert; [done|exact Hl|]. by apply IH.
      * intros ss. left. by rewrite Ho.
    + pose proof (kpos_None _ _ Ei) as Ho. assert (objpath [] (s' :: ps)) as O0 by (by destruct ps).
      assert (jgood (JNode false [])) as G0 by done. apply (Main []); [done|done| | |].
      * intros x. rewrite oget_app. cbn [kget]. destruct (same s x) eqn:Sx; [|by destruct (oget l x)].
        by rewrite <- (oget_same _ _ _ Sx), Ho.
      * apply jgood_snoc; [done|done|done|]. by apply IH.
      * intros [|y ss]; [by right; right|]. right. left. done.
Qed.

Lemma graft_leaf ps v l ss : Forall str_ok ps -> ps <> [] -> jgood v -> jgood (JNode false l) -> objpath l ps ->
  leaf (graft ps l v) ss = if under ps ss then lval (navS (Some v) (drop (length ps) ss)) else leaf l ss.
Proof.
  intros S N Gv G O. destruct (graft_ok ps v S N Gv l G O) as (_ & A & B). rewrite !leaf_at. destruct (under ps ss) eqn:U.
  - rewrite (A ss U). by destruct (navS _ (drop _ ss)) as [[| | | |]|].
  - destruct (B ss U) as [->|[-> ->]]; done.
Qed.

Lemma graft_objpath ps v l qs : Forall str_ok ps -> ps <> [] -> jgood v -> jgood (JNode false l) -> objpath l ps ->
  under ps qs = false -> objpath l qs -> objpath (graft ps l v) qs.
Proof.
  intros S N Gv G O A Oq. destruct (graft_ok ps v S N Gv l G O) as (_ & _ & B). apply at_above. intros q rr E Q R.
  assert (under ps q = false) as Uq.
  { destruct (under ps q) eqn:U; [|done]. rewrite E in A. by rewrite (under_trans _ _ _ U (under_app q rr)) in A. }
  destruct (B q Uq) as [->|[_ ->]]; [|by right]. by eapply (proj1 (at_above l qs)).
Qed.

End Parts.
