(* ===== verification/PersistSet.v ===== *)
(** * storage: which file a write belongs to

    A committed write changes values only at its key, and marks dirty the external that
    key lies in, or the root file. Then what it means that a file holds a part. *)

From stdpp Require Import gmap.
From S2P Require Import Prelude CLib Config ConfigTree ConfigOps ConfigSet Persist PersistTree.
Import Tree Ops Actor Externals Flush.
Open Scope Z_scope.
Open Scope spangap_scope.

Section Writes.
Context `{CJ : CJson} `{L : !CJsonLaws CJ}.
Notation oget := (kget cj_same).
Notation same := cj_same.

(** ** Values *)

(** Two keys part where every node above is an object. *)
Definition parted (ps ss tt : list bytes) : bool := under ps tt && apart ps ss || under ps ss && apart ps tt.

Lemma parted_cons p ps ss tt : parted (p :: ps) ss tt = true ->
  exists s ss' t tt', ss = s :: ss' /\ tt = t :: tt' /\
    (same s t = true -> same p t = true /\ ps <> [] /\ parted ps ss' tt' = true).
Proof.
  unfold parted, apart. destruct ss as [|s ss'], tt as [|t tt']; cbn [under negb andb orb]; rewrite ?andb_false_r, ?orb_false_r; try done.
  intros H. exists s, ss', t, tt'. split_and!; [done|done|]. intros Sst. rewrite (cj_sym s p), (cj_sym t p) in H.
  assert (same p s = same p t) as E.
  { rewrite (cj_sym p s), (cj_sym p t). by apply same_subst. }
  rewrite E in H. destruct (same p t) eqn:Pt; cbn [andb negb orb] in H; [|done]. split; [done|]. split; [|done].
  intros ->. cbn [under negb andb orb] in H. rewrite ?andb_false_r in H; done.
Qed.

Lemma wrap_cons s ss v : wrap (s :: ss) v = JNode false [(Some s, wrap ss v)].
Proof. done. Qed.

Lemma pfree_none ps ss tt v : parted ps ss tt = true -> forall old, (forall b l, old <> Some (JNode b l)) -> pfree (wrap ss v) old tt.
Proof.
  revert ss tt. induction ps as [|p ps IH]; intros ss tt H old N.
  { unfold parted, apart in H. cbn [under negb andb] in H. rewrite ?andb_false_r in H; done. }
  destruct (parted_cons _ _ _ _ H) as (s & ss' & t & tt' & -> & -> & K). rewrite wrap_cons. cbn [pfree].
  assert (match oget [(Some s, wrap ss' v)] t with None => True | Some it => pfree it None tt' end) as G.
  { cbn [kget]. destruct (same s t) eqn:S; [|done]. destruct (K eq_refl) as (_ & _ & K'). by apply (IH _ _ K'). }
  destruct old as [[| | | |b l]|]; try exact G. by destruct (N b l).
Qed.

Lemma pfree_parted ps ss tt v : parted ps ss tt = true -> forall l, objpath l ps -> pfree (wrap ss v) (Some (JNode false l)) tt.
Proof.
  revert ss tt. induction ps as [|p ps IH]; intros ss tt H l O.
  { unfold parted, apart in H. cbn [under negb andb] in H. rewrite ?andb_false_r in H; done. }
  destruct (parted_cons _ _ _ _ H) as (s & ss' & t & tt' & -> & -> & K). rewrite wrap_cons. cbn [pfree kget].
  destruct (same s t) eqn:S; [|done]. destruct (K eq_refl) as (Pt & N & K'). destruct ps as [|p' ps]; [done|].
  cbn [objpath] in O. rewrite (oget_same _ _ _ Pt) in O.
  destruct (oget l t) as [[| | | |[|] c]|]; try done; [by apply (IH _ _ K')|]. by apply (pfree_none _ _ _ _ K').
Qed.

Definition setRoot (l : kids) (ss : list bytes) (v : json) : kids := deepMerge (wrap ss v) l.

Lemma merge1_setRoot ss v l : ss <> [] -> merge1 deepMerge (wrap ss v) (Some (JNode false l)) = Some (JNode false (setRoot l ss v)).
Proof. destruct ss; done. Qed.

Lemma set_leaf_parted ps ss tt v l : is_prim v -> ss <> [] -> wfj (JNode false l) -> objpath l ps -> parted ps ss tt = true ->
  leaf (setRoot l ss v) tt = leaf l tt.
Proof.
  intros P N W O H. destruct (merge_frame tt (wrap ss v) (Some (JNode false l)) (pok_wrap ss v P) W (pfree_parted _ _ _ v H _ O)) as [M _].
  rewrite merge1_setRoot in M by done. exact M.
Qed.

Lemma set_leaf_self ss v l : is_prim v -> ss <> [] -> wfj (JNode false l) -> leaf (setRoot l ss v) ss = lval (Some v).
Proof.
  intros P N W. destruct (merge_holds ss (wrap ss v) (Some (JNode false l)) v (pok_wrap ss v P) W (plook_wrap _ _) P) as [M _].
  rewrite merge1_setRoot in M by done. unfold leaf. by rewrite M.
Qed.

(** ** Nodes above *)

(** [ss] ends above [ps]. *)
Definition above (ss ps : list bytes) : bool := under ss ps && negb (under ps ss).

Lemma above_cons s ss p ps : same s p = true -> above (s :: ss) (p :: ps) = above ss ps.
Proof. intros S. unfold above. cbn [under]. by rewrite S, (cj_sym p s), S. Qed.

Lemma objpath_wrap ps : forall ss v, above ss ps = false -> ss <> [] -> is_prim v ->
  match wrap ss v with JNode false l => objpath l ps | _ => False end.
Proof.
  induction ps as [|p ps IH]; intros ss v A N P; destruct ss as [|s ss]; try done. rewrite wrap_cons. destruct ps as [|p' ps]; [done|].
  cbn [objpath kget]. destruct (same s p) eqn:S; [|done]. rewrite above_cons in A by done. destruct ss as [|s' ss].
  - unfold above in A. cbn in A. done.
  - specialize (IH (s' :: ss) v A ltac:(done) P). by destruct (wrap (s' :: ss) v) as [| | | |[|] ?].
Qed.

Lemma set_objpath ps : forall ss v l, above ss ps = false -> ss <> [] -> is_prim v -> wfj (JNode false l) -> objpath l ps ->
  objpath (setRoot l ss v) ps.
Proof.
  induction ps as [|p ps IH]; intros ss v l A N P W O; [done|]. destruct ss as [|s ss]; [done|]. destruct ps as [|p' ps]; [done|].
  unfold setRoot. rewrite wrap_cons. destruct (merge_spec false [(Some s, wrap ss v)] l) as [M _]; [done|apply W|].
  cbn [objpath] in O |- *. rewrite M. cbn [kget]. destruct (same s p) eqn:S; [|done]. rewrite above_cons in A by done.
  destruct ss as [|s' ss]; [unfold above in A; by cbn in A|].
  pose proof (objpath_wrap (p' :: ps) (s' :: ss) v A ltac:(done) P) as Ow.
  destruct (oget l p) as [[| | | |[|] c]|] eqn:Eo; rewrite ?wrap_cons in *; cbn [merge1]; try done.
  apply (IH (s' :: ss)); [done|done|done|by eapply wfj_oget|done].
Qed.

(** ** The mark *)

Lemma markDirty_none exts p : (forall e, e ∈ exts -> e_prefix e <> p) -> markDirty exts p = None.
Proof.
  induction exts as [|e exts IH]; intros N; [done|]. cbn [markDirty].
  rewrite (proj2 (streq_false _ _)) by (apply N; by left). by rewrite IH by (intros f Hf; apply N; by right).
Qed.

Lemma apart_irrefl ps : apart ps ps = false.
Proof. unfold apart. by rewrite under_refl. Qed.

Lemma markDirty_at exts i e : all_apart exts -> exts !! i = Some e -> markDirty exts (e_prefix e) = Some (<[i := set_dirty e true]> exts).
Proof.
  revert i. induction exts as [|f exts IH]; intros i A E; [done|]. destruct A as [A1 A2]. cbn [markDirty]. destruct i as [|i].
  - cbn in E. injection E as ->. by rewrite (proj2 (streq_true _ _) eq_refl).
  - cbn in E. rewrite (proj2 (streq_false _ _)); [by rewrite (IH i)|].
    intros Eq. apply list_elem_of_lookup_2 in E as Hin. pose proof (proj1 (Forall_forall _ _) A1 e Hin) as Ap. cbn beta in Ap.
    unfold segs in Ap. rewrite Eq in Ap. by rewrite apart_irrefl in Ap.
Qed.

Lemma path_of_snoc qs s : Forall good_seg qs -> join_path (path_of qs) s = path_of (qs ++ [s]).
Proof.
  intros G. destruct qs as [|q qs]; [done|]. unfold join_path. rewrite (proj2 (Z.eqb_neq _ _)).
  2: { intros E. apply Zlen_zero in E. by apply path_nonempty in E. }
  clear G. revert q. induction qs as [|q' qs IH]; intros q; [done|]. rewrite path_of_cons, <- !app_assoc. cbn [app]. rewrite path_of_cons.
  f_equal. f_equal. apply (IH q').
Qed.

Lemma path_of_app_len qs rr : Zlen (path_of qs) <= Zlen (path_of (qs ++ rr)).
Proof.
  revert rr. induction qs as [|q qs IH]; intros rr; [cbn [path_of]; rewrite Zlen_nil; apply Zlen_nonneg|].
  destruct qs as [|q' qs].
  - destruct rr as [|r rr]; [done|]. cbn [app]. rewrite path_of_cons, Zlen_app. change (path_of [q]) with q. pose proof (Zlen_nonneg (chr "." :: path_of (r :: rr))). lia.
  - cbn [app]. rewrite !path_of_cons, !Zlen_app, !Zlen_cons. specialize (IH rr). cbn [app] in IH. lia.
Qed.

Definition persisted (p : bytes) : bool := (0 <? Zlen p) && (has_prefix ($ "s.") p || has_prefix ($ "secrets.") p).

Lemma route_step dn s rest v exts rd : Forall good_seg dn -> Zlen (path_of (dn ++ [s])) < 128 ->
  (if 0 <? Zlen (path_of dn) then markDirty exts (path_of dn) else None) = None ->
  routePatchDirty 128 (path_of dn) (wrap (s :: rest) v) (exts, rd) = routePatchDirty 128 (path_of (dn ++ [s])) (wrap rest v) (exts, rd).
Proof.
  intros G Z M. rewrite wrap_cons. cbn [routePatchDirty fst]. rewrite M, path_of_snoc by done.
  rewrite (proj2 (Z.leb_gt _ _)) by done. done.
Qed.

(** The key lies in external [i]. *)
Lemma route_external exts rd i e rest v : all_apart exts -> Forall prefix_ok exts -> exts !! i = Some e -> Zlen (path_of (segs e ++ rest)) < 128 ->
  routePatchDirty 128 [] (wrap (segs e ++ rest) v) (exts, rd) = (<[i := set_dirty e true]> exts, rd).
Proof.
  intros A P E Z. apply list_elem_of_lookup_2 in E as Hin. pose proof (proj1 (Forall_forall _ _) P e Hin) as [G _].
  assert (forall dn r1, segs e = dn ++ r1 -> r1 <> [] -> dn <> [] -> markDirty exts (path_of dn) = None) as No.
  { intros dn r1 Es N1 N2. apply markDirty_none. intros f Hf Ep.
    assert (segs f = dn) as Ef.
    { unfold segs. rewrite Ep. apply segsOf_path_of; [|done]. rewrite Es in G. by apply Forall_app in G as [G _]. }
    assert (under (segs f) (segs e) = true) as U by (rewrite Ef, Es; apply under_app).
    assert (e <> f) as Nf.
    { intros <-. rewrite Ef in Es. apply (f_equal length) in Es. rewrite length_app in Es. destruct r1; [done|]. cbn in Es. lia. }
    apply list_elem_of_lookup_1 in Hf as [j Hj]. clear -A E Hj Nf U L. revert i j E Hj.
    induction exts as [|x exts IH]; intros i j E Hj; [done|]. destruct A as [A1 A2]. destruct i as [|i], j as [|j]; cbn in E, Hj.
    - congruence.
    - injection E as ->. apply list_elem_of_lookup_2 in Hj. pose proof (proj1 (Forall_forall _ _) A1 f Hj) as Ap. cbn beta in Ap.
      unfold apart in Ap. rewrite U, andb_false_r in Ap. done.
    - injection Hj as ->. apply list_elem_of_lookup_2 in E. pose proof (proj1 (Forall_forall _ _) A1 e E) as Ap. cbn beta in Ap.
      unfold apart in Ap. rewrite U in Ap. done.
    - by apply (IH A2 i j). }
  assert (forall r1 dn, segs e = dn ++ r1 ->
    routePatchDirty 128 (path_of dn) (wrap (r1 ++ rest) v) (exts, rd) = (<[i := set_dirty e true]> exts, rd)) as Main.
  { induction r1 as [|s r1 IH]; intros dn Es.
    - rewrite app_nil_r in Es. subst dn. pose proof (path_nonempty _ G (segs_ne e)) as Np.
      assert ((if 0 <? Zlen (path_of (segs e)) then markDirty exts (path_of (segs e)) else None) = Some (<[i := set_dirty e true]> exts)) as M.
      { rewrite (proj2 (Z.ltb_lt _ _)); [rewrite <- (segs_path e); by apply markDirty_at|].
        destruct (path_of (segs e)); [done|]. unfold Zlen. cbn [length]. lia. }
      destruct (wrap ([] ++ rest) v) as [| | | |[|] ?]; cbn [routePatchDirty fst snd]; by rewrite M.
    - assert (Zlen (path_of (dn ++ [s])) < 128) as Z'.
      { pose proof (path_of_app_len (dn ++ [s]) (r1 ++ rest)) as Q. rewrite Es in Z. rewrite <- !app_assoc in Q, Z. cbn [app] in Q, Z. lia. }
      cbn [app]. rewrite route_step; [|rewrite Es in G; by apply Forall_app in G as [G _]|done|].
      + apply IH. by rewrite Es, <- app_assoc.
      + destruct dn as [|d dn]; [done|]. rewrite (No (d :: dn) (s :: r1) Es ltac:(done) ltac:(done)). by destruct (0 <? _). }
  apply (Main (segs e) []). done.
Qed.

(** The key lies in none. *)
Lemma route_root exts rd ss v : is_prim v -> Forall good_seg ss -> Zlen (path_of ss) < 128 ->
  (forall e, e ∈ exts -> under (segs e) ss = false) ->
  routePatchDirty 128 [] (wrap ss v) (exts, rd) = (exts, rd || persisted (path_of ss)).
Proof.
  intros P G Z N.
  assert (forall dn r1, ss = dn ++ r1 -> (if 0 <? Zlen (path_of dn) then markDirty exts (path_of dn) else None) = None) as No.
  { intros dn r1 Es. destruct (0 <? Zlen (path_of dn)) eqn:Zd; [|done]. apply markDirty_none. intros e He Ep.
    assert (dn <> []) by (by intros ->). assert (segs e = dn) as Ed.
    { unfold segs. rewrite Ep. apply segsOf_path_of; [|done]. rewrite Es in G. by apply Forall_app in G as [G _]. }
    pose proof (N e He) as U. by rewrite Ed, Es, under_app in U. }
  assert (forall r1 dn, ss = dn ++ r1 ->
    routePatchDirty 128 (path_of dn) (wrap r1 v) (exts, rd) = (exts, rd || persisted (path_of ss))) as Main.
  { induction r1 as [|s r1 IH]; intros dn Es.
    - rewrite app_nil_r in Es. subst dn. pose proof (No ss [] ltac:(by rewrite app_nil_r)) as M.
      cbn [wrap]. destruct v; try done; cbn [routePatchDirty fst snd]; by rewrite M.
    - rewrite route_step; [|rewrite Es in G; by apply Forall_app in G as [G _]| |by eapply No].
      + apply IH. by rewrite Es, <- app_assoc.
      + pose proof (path_of_app_len (dn ++ [s]) r1) as Q. rewrite <- app_assoc in Q. cbn [app] in Q. rewrite <- Es in Q. lia. }
  apply (Main ss []). done.
Qed.

End Writes.

(** ** What files hold *)

From S2P Require Import Targz TargzRoundtrip StorageDb StorageDbFile.
From S2P Require Import Vfs PersistFiles.
Import Tree Ops Actor Files Externals Flush Load.

(** ** Printing and parsing *)

(** What parsing a printed tree gives: the elements of arrays lose their names. *)
Fixpoint norm (n : json) : json :=
  match n with
  | JNode b l => JNode b (map (fun c => (if b then None else c.1, norm c.2)) l)
  | _ => n
  end.

Class CJsonText (CJ : CJson) (CP : CJsonParse) `{!CJsonLaws CJ} := {
  cj_print_parse j t : jgood j -> cJSON_PrintUnformatted j = Some t ->
    bytes_ok t /\ (0 ∉ t) /\ t <> [] /\ cJSON_Parse t = Some (norm j);
  cj_parts : cj_same ($ "s") ($ "secrets") = false
}.

Section Norm.
Context `{CJ : CJson} `{L : !CJsonLaws CJ}.
Notation oget := (kget cj_same).

Lemma oget_norm l k : oget (map (fun c => (c.1, norm c.2)) l) k = norm <$> oget l k.
Proof. induction l as [|[[n|] v] l IH]; cbn [map kget fst snd]; [done| |done]. by destruct (cj_same n k). Qed.

Lemma oget_unnamed {A} (f : A -> json) l k : oget (map (fun c => (None, f c)) l) k = None.
Proof. by induction l. Qed.

Lemma norm_good n : jgood n -> jgood (norm n).
Proof.
  induction n as [| | | |b l IH] using json_rect'; try done. cbn [norm]. rewrite !jgood_node. intros (N & U & G). split_and!.
  - apply Forall_map. destruct b; [by apply Forall_true|]. eapply Forall_impl; [exact N|]. intros [[n|] v]; done.
  - intros ->. specialize (U eq_refl). clear -U L. induction l as [|[[n|] v] l IH]; cbn [map uniq fst snd] in *; [done| |by apply IH].
    destruct U as [U1 U2]. split; [|by apply IH]. by rewrite oget_norm, U1.
  - apply Forall_map. clear N U. induction l as [|c l IHl]; [constructor|]. apply Forall_cons in IH as [I1 I2]. apply Forall_cons in G as [G1 G2].
    constructor; [by apply I1|by apply IHl].
Qed.

Lemma norm_step n s : jgood n -> step (norm n) s = norm <$> step n s.
Proof.
  destruct n as [| | | |[|] l]; try done; cbn [norm]; intros G.
  - rewrite !step_array. apply jgood_node in G as (N & _ & _). destruct (isAllDigits s) eqn:D.
    + unfold aval. destruct (atoi s <? 0); [done|]. rewrite list_lookup_fmap. by destruct (l !! Z.to_nat (atoi s)) as [[nm v]|].
    + rewrite (oget_unnamed (fun c => norm c.2)). rewrite oget_digit_names; [done| |done].
      eapply Forall_impl; [exact N|]. intros [[n|] v]; done.
  - rewrite !step_object. apply oget_norm.
Qed.

Lemma navS_norm ss : forall n, match n with Some n => jgood n | None => True end -> navS (norm <$> n) ss = norm <$> navS n ss.
Proof.
  induction ss as [|s ss IH]; intros n G; [done|]. cbn [navS]. destruct n as [n|]; [|by rewrite !navS_None].
  cbn [fmap option_fmap option_map mbind option_bind]. rewrite norm_step by done. rewrite <- IH; [done|].
  destruct (step n s) as [m|] eqn:E; [|done]. apply (jgood_nav n [s]); [done|]. cbn [navS mbind option_bind]. done.
Qed.

Lemma lval_norm n ss : jgood n -> lval (navS (Some (norm n)) ss) = lval (navS (Some n) ss).
Proof.
  intros G. pose proof (navS_norm ss (Some n) G) as E. cbn [fmap option_fmap option_map] in E. rewrite E.
  by destruct (navS (Some n) ss) as [[| | | |]|].
Qed.

Lemma objpath_norm ps : forall l, jgood (JNode false l) -> objpath l ps -> objpath (map (fun c => (c.1, norm c.2)) l) ps.
Proof.
  induction ps as [|s ps IH]; intros l G O; [done|]. destruct ps as [|s' ps]; [done|]. cbn [objpath] in *. rewrite oget_norm.
  destruct (oget l s) as [[| | | |[|] c]|] eqn:E; try done. cbn. apply (IH c); [by eapply jgood_oget|done].
Qed.

End Norm.

(** ** The files *)

Section Names.
Context (stateDir : bytes).

Definition rootPath : bytes := fsStatePath stateDir ROOT_JSON_PATH.

(** The JSON files of the tree, by their base paths. *)
Definition base (b : bytes) : Prop := b = rootPath \/ exists p, b = externalPath stateDir p.

Lemma root_not_external p x y : rootPath ++ x <> externalPath stateDir p ++ y.
Proof.
  unfold rootPath, fsStatePath, externalPath. rewrite <- !app_assoc. intros E. apply app_inv_head in E.
  apply (f_equal (fun l => nth 9 l 0)) in E. vm_compute in E. discriminate.
Qed.

Lemma externalPath_inj p q : externalPath stateDir p = externalPath stateDir q -> p = q.
Proof. unfold externalPath. intros E. do 3 apply app_inv_head in E. by apply app_inv_tail in E. Qed.

(** The two forms a JSON file may have, and that they are not another's. *)
Definition forms (b : bytes) : list bytes := [b; b ++ GZ].

Lemma base_end b : base b -> exists b', b = b' ++ [110].
Proof.
  intros [->|[p ->]].
  - exists (stateDir ++ $ "/storage/root.jso"). unfold rootPath, fsStatePath. rewrite <- app_assoc. done.
  - exists (stateDir ++ EXTERNAL_DIR ++ [chr "/"] ++ p ++ $ ".jso"). unfold externalPath. rewrite <- !app_assoc. done.
Qed.

Lemma snoc_neq (a b : bytes) x y : x <> y -> a ++ [x] <> b ++ [y].
Proof. intros N E. apply app_inj_tail in E as [_ E]. done. Qed.

Lemma base_gz_neq b b' : base b -> base b' -> b' ++ GZ <> b /\ (b <> b' -> b' ++ GZ <> b ++ GZ).
Proof.
  intros B B'. destruct (base_end b B) as [c ->]. split.
  - change GZ with ([46; 103] ++ [122]). rewrite app_assoc. by apply snoc_neq.
  - intros N E. apply app_inv_tail in E. congruence.
Qed.

Lemma forms_siblings b b' q : base b -> base b' -> b <> b' -> q ∈ forms b' -> q ∉ siblings b.
Proof.
  intros B B' N. destruct (base_gz_neq b b' B B') as [G1 G2]. destruct (base_gz_neq b' b B' B) as [G3 _].
  destruct (base_end b' B') as [c Ec].
  assert (forall x y, y ++ $ ".new" <> x ++ [110] /\ y ++ $ ".new" <> x ++ GZ) as W.
  { intros x y. change ($ ".new") with ([46; 110; 101] ++ [119]). change GZ with ([46; 103] ++ [122]).
    rewrite !app_assoc. split; by apply snoc_neq. }
  unfold forms, siblings, tmpOf. rewrite !elem_of_cons, !elem_of_nil. intros [->|[->|[]]] [E|[E|[E|[E|[]]]]]; try congruence.
  - by rewrite Ec in E; destruct (W c b).
  - by rewrite Ec in E; destruct (W c (b ++ GZ)).
  - by apply G2.
  - by destruct (W b' b).
  - by destruct (W b' (b ++ GZ)).
Qed.

(** A path whose writes do not touch them. *)
Definition foreign (p : bytes) : Prop :=
  forall b q, base b -> q ∈ [p; tmpOf p; tmpOf (tmpOf p)] -> q ∉ forms b.

End Names.

Section Disk.
Context {F C I : Type} `{L : VfsLaws F} `{H : Heap F} `{TI : Tinfl I} `{CR : Crc}.
Context `{CJ : CJson} `{JL : !CJsonLaws CJ} `{CP : CJsonParse}.
Context (HA : forall (fs : F) n, gp_alloc fs n = true).

Definition textJson (t : option (option bytes)) : option json := t ← mjoin t; cJSON_Parse t.
Definition fileJson (fs : F) (path : bytes) : option json := textJson (readJsonFile fs path).

Lemma base_ok stateDir b : base stateDir b -> path_ok b.
Proof.
  intros [->|[p ->]]; unfold path_ok, rootPath, fsStatePath, externalPath; rewrite !Zlen_app; pose proof (Zlen_nonneg stateDir).
  - change (Zlen ROOT_JSON_PATH) with 18. lia.
  - change (Zlen EXTERNAL_DIR) with 17. pose proof (Zlen_nonneg p). pose proof (Zlen_nonneg ($ ".json")). change (Zlen [chr "/"]) with 1. lia.
Qed.

Lemma readJson_only stateDir ps fs g b : base stateDir b -> only ps fs g -> (forall q, q ∈ forms b -> q ∉ ps) ->
  readJsonFile g b = readJsonFile fs b.
Proof using HA.
  intros B O N. pose proof (base_ok _ _ B) as P. rewrite !readJson_file by done. unfold forms in N.
  rewrite !O; [done|apply N; by left|apply N; right; by left].
Qed.

(** A document with exactly these values. *)
Definition holds_values (j : option json) (f : list bytes -> option bytes) : Prop :=
  match j with
  | Some j => jgood j /\ forall ss, lval (navS (Some j) ss) = f ss
  | None => forall ss, f ss = None
  end.

Lemma holds_values_ext j f g : holds_values j f -> (forall ss, f ss = g ss) -> holds_values j g.
Proof. destruct j as [j|]; cbn; [intros [A B] E; split; [done|]; intros ss; by rewrite B|intros A E ss; by rewrite <- E]. Qed.

End Disk.
