(* ===== verification/PersistFlush.v ===== *)
(** * storage: no write is forgotten

    [covered]: the tree's values are in the files, or a mark or the worker's hands say that
    they will be. Every step of the worker and every write of the actor keeps it, in any
    interleaving, but for one window ([open_window]). *)

From stdpp Require Import gmap.
From S2P Require Import Prelude CLib Targz TargzRoundtrip StorageDb StorageDbFile Config ConfigTree ConfigOps ConfigSet.
From S2P Require Import Vfs Persist PersistFiles PersistTree PersistSet.
Import Tree Ops Actor Files Externals Flush Load.
Open Scope Z_scope.
Open Scope spangap_scope.

Section Flush.
Context {D F C I : Type} `{L : VfsLaws F} `{S : !VfsSound F true} `{H : Heap F} `{TD : Tdefl C} `{TI : Tinfl I} `{CR : Crc}
        {stream : bytes -> bytes -> Prop} `{!TdeflLaws TD stream} `{!TinflOneShot TI stream} `{!CrcLaws CR}.
Context `{CJ : CJson} `{JL : !CJsonLaws CJ} `{CP : CJsonParse} `{JT : !CJsonText CJ CP}.
Context `{SR : SdbRouter D} `{SF : SdbFiles D}.
Context (stateDir : bytes).
Context (HA : forall (fs : F) n, gp_alloc fs n = true).
Notation oget := (kget cj_same).
Notation same := cj_same.
Notation sv := (save_st D).
Notation tree s := (cfgRoot (cfg s)).
Notation exts s := (externals (cfg s)).

(** ** Covered *)

Definition live (e : external_t) : Prop := e_pendingDelete e = false.

(** Keys that are saved at all. *)
Definition saved (ss : list bytes) : bool :=
  match ss with x :: _ => same ($ "s") x || same ($ "secrets") x | [] => false end.

(** The values of an external and of the root file. *)
Definition ext_values (c : cfg_st D) (e : external_t) (ss : list bytes) : option bytes := leaf (cfgRoot c) (segs e ++ ss).
Definition root_values (c : cfg_st D) (ss : list bytes) : option bytes :=
  if saved ss && negb (covers (externals c) ss) then leaf (cfgRoot c) ss else None.

(** A document for the root file: an object, with objects above the externals. *)
Definition root_doc (c : cfg_st D) (j : option json) : Prop :=
  holds_values j (root_values c) /\
  match j with
  | Some (JNode false l) => Forall (fun e => objpath l (segs e)) (externals c)
  | Some _ => False
  | None => True
  end.

Definition snapping (s : sv) (e : external_t) : Prop := exists i w, phase s = W_snap i w /\ e_prefix w = e_prefix e.

Definition synced (c : cfg_st D) (fs : F) (e : external_t) : Prop := holds_values (fileJson fs (e_path e)) (ext_values c e).

Definition ext_covered (s : sv) (fs : F) (e : external_t) : Prop :=
  e_dirty e = true \/
  match phase s with
  | W_snap _ w => e_prefix w = e_prefix e \/ synced (cfg s) fs e
  | W_file _ p t => (p = e_path e /\ holds_values (cJSON_Parse t) (ext_values (cfg s) e)) \/ (p <> e_path e /\ synced (cfg s) fs e)
  | _ => synced (cfg s) fs e
  end.

Definition root_covered (s : sv) (fs : F) : Prop :=
  match phase s with
  | W_rootFile t => root_doc (cfg s) (cJSON_Parse t)
  | W_rootClear => root_doc (cfg s) (fileJson fs (rootPath stateDir))
  | _ => rootDirty (cfg s) = true \/ root_doc (cfg s) (fileJson fs (rootPath stateDir))
  end.

(** What the worker holds in its hands. *)
Definition phase_ok (s : sv) : Prop :=
  match phase s with
  | W_blobs jobs => Forall (fun j => foreign stateDir j.1) jobs
  | W_snap _ w => exists e, e ∈ exts s /\ live e /\ e_prefix w = e_prefix e /\ e_path w = e_path e
  | W_file _ p t => text_ok t /\ exists e, e ∈ exts s /\ live e /\ p = e_path e
  | W_rootFile t => text_ok t
  | W_dbFiles ds js => Forall (foreign stateDir) ds /\ Forall (fun j => foreign stateDir j.1) js
  | W_delFile p => exists q, p = externalPath stateDir q /\ forall e, e ∈ exts s -> e_prefix e <> q
  | _ => True
  end.

Definition ext_ok (e : external_t) : Prop :=
  prefix_ok e /\ (saved (segs e) = true /\ Zlen (e_prefix e) < 56) /\ e_path e = externalPath stateDir (e_prefix e).

Record covered (s : sv) (fs : F) : Prop := {
  cv_good : jgood (JNode false (tree s));
  cv_exts : Forall ext_ok (exts s);
  cv_apart : all_apart (exts s);
  cv_obj : Forall (fun e => objpath (tree s) (segs e)) (exts s);
  cv_read : forall b, base stateDir b -> readJsonFile fs b <> None;
  cv_stale : forall p, fileJson fs (externalPath stateDir p) <> None ->
    (exists e, e ∈ exts s /\ e_prefix e = p) \/ phase s = W_delFile (externalPath stateDir p);
  cv_dirty : forall e, e ∈ exts s -> live e -> e_dirty e = true \/ snapping s e -> exists ss, ext_values (cfg s) e ss <> None;
  cv_ext : forall e, e ∈ exts s -> live e -> ext_covered s fs e;
  cv_root : root_covered s fs;
  cv_phase : phase_ok s;
  cv_blobs : Forall (fun j => foreign stateDir j.1) (pendingBlobs s)
}.

(** ** Small facts *)

Lemma prefix_inj e f l : all_apart l -> e ∈ l -> f ∈ l -> e_prefix e = e_prefix f -> e = f.
Proof using JL.
  induction l as [|x l IH]; intros A He Hf E; [by apply not_elem_of_nil in He|]. destruct A as [A1 A2].
  assert (forall g, g ∈ l -> e_prefix x <> e_prefix g) as N.
  { intros g Hg Eg. pose proof (proj1 (Forall_forall _ _) A1 g Hg) as Ap. cbn beta in Ap. unfold segs in Ap. by rewrite Eg, apart_irrefl in Ap. }
  apply elem_of_cons in He as [->|He], Hf as [->|Hf]; [done|by apply N in Hf|symmetry in E; by apply N in He|by apply IH].
Qed.

Lemma ext_prefix_ok l : Forall ext_ok l -> Forall prefix_ok l.
Proof. intros E. eapply Forall_impl; [exact E|]. by intros e []. Qed.

Lemma ext_base e : ext_ok e -> base stateDir (e_path e).
Proof. intros (_ & _ & ->). right. by eexists. Qed.

Lemma root_base : base stateDir (rootPath stateDir).
Proof. by left. Qed.

Lemma root_path_neq e : ext_ok e -> rootPath stateDir <> e_path e.
Proof.
  intros (_ & _ & ->) E. apply (root_not_external stateDir (e_prefix e) [] []). by rewrite !app_nil_r.
Qed.

Lemma path_neq e f l : all_apart l -> Forall ext_ok l -> e ∈ l -> f ∈ l -> e <> f -> e_path e <> e_path f.
Proof using JL.
  intros A X He Hf N E. pose proof (proj1 (Forall_forall _ _) X e He) as (_ & _ & P). pose proof (proj1 (Forall_forall _ _) X f Hf) as (_ & _ & Q).
  rewrite P, Q in E. apply externalPath_inj in E. apply N. by eapply prefix_inj.
Qed.

Lemma covers_under l e ss : e ∈ l -> live e -> under (segs e) ss = true -> covers l ss = true.
Proof.
  intros He Vl U. apply existsb_exists. exists e. split; [by apply list_elem_of_In|]. by rewrite Vl, U.
Qed.

Lemma covers_false l e ss : covers l ss = false -> e ∈ l -> live e -> under (segs e) ss = false.
Proof. intros K He Vl. destruct (under (segs e) ss) eqn:U; [|done]. by rewrite (covers_under _ _ _ He Vl U) in K. Qed.

(** A step that leaves tree, externals, dirty marks and files alone only has to answer for
    what the worker holds. *)
Definition quiet_phase (w : wphase) : Prop :=
  match w with W_snap _ _ | W_file _ _ _ | W_rootFile _ | W_rootClear | W_delFile _ => False | _ => True end.

Lemma ext_covered_quiet s fs s' fs' e : quiet_phase (phase s) -> quiet_phase (phase s') -> cfgRoot (cfg s') = cfgRoot (cfg s) ->
  fileJson fs' (e_path e) = fileJson fs (e_path e) -> ext_covered s fs e -> ext_covered s' fs' e.
Proof.
  intros Q Q' T E [A|A]; [by left|]. assert (synced (cfg s) fs e) as Y by (by destruct (phase s)). clear A.
  assert (synced (cfg s') fs' e) as Y' by (unfold synced, ext_values in *; by rewrite E, T). right. by destruct (phase s').
Qed.

Lemma covered_quiet s fs s' fs' :
  covered s fs -> quiet_phase (phase s) -> quiet_phase (phase s') -> phase_ok s' ->
  cfgRoot (cfg s') = cfgRoot (cfg s) -> exts s' = exts s -> rootDirty (cfg s') = rootDirty (cfg s) ->
  Forall (fun j => foreign stateDir j.1) (pendingBlobs s') ->
  (forall b, base stateDir b -> readJsonFile fs' b = readJsonFile fs b) -> covered s' fs'.
Proof.
  intros K Q Q' P T E R B Fs. destruct K.
  assert (forall b, base stateDir b -> fileJson fs' b = fileJson fs b) as FJ by (intros b Hb; unfold fileJson; by rewrite Fs).
  constructor; rewrite ?T, ?E; try done.
  - intros b Hb. rewrite Fs by done. by apply cv_read0.
  - intros p N. rewrite FJ in N by (right; by eexists). destruct (cv_stale0 p N) as [?|W]; [by left|by rewrite W in Q].
  - intros e He Vl Dt. unfold ext_values. rewrite T. apply (cv_dirty0 e He Vl). left.
    destruct Dt as [?|(i & w & W & _)]; [done|by rewrite W in Q'].
  - intros e He Vl. eapply ext_covered_quiet; [exact Q|exact Q'|done|apply FJ|by apply cv_ext0].
    apply ext_base. by eapply (proj1 (Forall_forall _ _)).
  - unfold root_covered in *.
    assert (forall j, root_doc (cfg s) j -> root_doc (cfg s') j) as RD.
    { intros j [A O]. split; [|by rewrite E]. eapply holds_values_ext; [exact A|]. intros ss. unfold root_values. by rewrite T, E. }
    destruct (phase s), (phase s'); try done; rewrite R, FJ by apply root_base; (destruct cv_root0 as [?|?]; [by left|right; by apply RD]).
Qed.

(** ** Lists of externals that differ in dirty marks only *)

Definition same_ext (e f : external_t) : Prop :=
  e_prefix e = e_prefix f /\ e_path e = e_path f /\ e_pendingDelete e = e_pendingDelete f.

Definition same_exts : list external_t -> list external_t -> Prop := Forall2 same_ext.

Lemma same_ext_trans e f g : same_ext e f -> same_ext f g -> same_ext e g.
Proof. intros (A1 & A2 & A3) (B1 & B2 & B3). split_and!; congruence. Qed.

Lemma same_exts_refl l : same_exts l l.
Proof. induction l; constructor; done. Qed.

Lemma same_exts_insert l i e d : l !! i = Some e -> same_exts l (<[i := set_dirty e d]> l).
Proof.
  revert i. induction l as [|x l IH]; intros [|i] E; try done; cbn in E.
  - injection E as ->. constructor; [done|apply same_exts_refl].
  - constructor; [done|by apply IH].
Qed.

Lemma same_exts_elem l l' f : same_exts l l' -> f ∈ l' -> exists e, e ∈ l /\ same_ext e f.
Proof.
  induction 1 as [|x y l l' Sx _ IH]; intros Hf; [by apply not_elem_of_nil in Hf|].
  apply elem_of_cons in Hf as [->|Hf]; [exists x; split; [by left|done]|]. destruct (IH Hf) as (e & He & Se). exists e. split; [by right|done].
Qed.

Lemma same_exts_Forall (P : external_t -> Prop) l l' : (forall e f, same_ext e f -> P e -> P f) -> same_exts l l' -> Forall P l -> Forall P l'.
Proof.
  intros R SE Fl. apply Forall_forall. intros f Hf. destruct (same_exts_elem _ _ _ SE Hf) as (e & He & Se).
  eapply R; [exact Se|]. by apply (proj1 (Forall_forall _ _) Fl).
Qed.

Lemma same_segs e f : same_ext e f -> segs e = segs f.
Proof. intros (E & _). unfold segs. by rewrite E. Qed.

Lemma same_exts_apart l l' : same_exts l l' -> all_apart l -> all_apart l'.
Proof.
  induction 1 as [|x y l l' Sx SE IH]; intros A; [done|]. destruct A as [A1 A2]. split; [|by apply IH].
  rewrite <- (same_segs _ _ Sx). eapply same_exts_Forall; [|exact SE|exact A1]. intros e f Sf. cbn. by rewrite (same_segs _ _ Sf).
Qed.

Lemma same_exts_covers l l' ss : same_exts l l' -> covers l ss = covers l' ss.
Proof.
  induction 1 as [|x y l l' Sx SE IH]; [done|]. cbn [covers existsb]. fold (covers l ss) (covers l' ss).
  destruct Sx as (E1 & E2 & E3) eqn:?. by rewrite (same_segs x y Sx), E3, IH.
Qed.

Lemma same_ext_ok e f : same_ext e f -> ext_ok e -> ext_ok f.
Proof.
  intros (E1 & E2 & E3) (A & B & X). unfold ext_ok, prefix_ok, segs in *. by rewrite <- E1, <- E2.
Qed.

(** ** The worker's quiet steps *)

Definition printable (j : json) : Prop := exists t, cJSON_PrintUnformatted j = Some t /\ Zlen t <= 8 * 1024 * 1024.

(** The text the next step prints exists and can be read back. *)
Definition prints_ok (s : sv) : Prop :=
  match phase s with
  | W_snap _ w => forall n, navigatePath (root (cfg s)) (e_prefix w) = Some n -> printable n
  | W_root => printable (rootParts (detachAll (tree s) (exts s)).1)
  | _ => True
  end.

Context (DB : forall d, let '(_, jobs, deletes) := sdbDirtyImages d in
  Forall (foreign stateDir) deletes /\ Forall (fun j => foreign stateDir j.1) jobs).

Lemma foreign_reads p ps fs g b : foreign stateDir p -> base stateDir b -> only ps fs g -> ps ⊆ [p; tmpOf p; tmpOf (tmpOf p)] ->
  readJsonFile g b = readJsonFile fs b.
Proof using HA.
  intros Fp B O Sub. eapply readJson_only; [done|exact B|exact O|]. intros q Hq Hp. exact (Fp b q B (Sub _ Hp) Hq).
Qed.

Lemma dbWrite_only p raw fs : only [p; tmpOf p; tmpOf (tmpOf p)] fs (after (dbWrite p raw) fs).
Proof using All.
  unfold dbWrite. rewrite after_bind. change (after (look ?f) fs) with fs.
  destruct (result _ fs) as [gz|]; [|apply only_refl]. fold (tmpOf p). rewrite after_bind.
  destruct (atomicWriteFile_ok (tmpOf p) gz fs) as (_ & -> & O & E). set (g := after (atomicWriteFile (tmpOf p) gz) fs) in *.
  rewrite after_bind. destruct (fs_rename_ok (tmpOf p) p g gz ltac:(by apply app_neq) E) as (_ & O2 & _).
  change (after (ret tt) ?x) with x. eapply only_trans; eapply only_weaken; [exact O|set_solver|exact O2|set_solver].
Qed.

Lemma fs_remove_only p fs : only [p] fs (after (fs_remove p) fs) /\ file (after (fs_remove p) fs) p = None.
Proof using S. destruct (fs_remove_ok p fs) as (_ & O & E). done. Qed.

Ltac quiet K :=
  apply (covered_quiet _ _ _ _ K); cbn [phase set_phase set_cfg set_blobs set_given cfg pendingBlobs cfgRoot externals rootDirty
    with_timer with_db with_sems]; try done.

Lemma worker_quiet s fs : covered s fs ->
  match phase s with
  | W_snap _ _ | W_file _ _ _ | W_root | W_rootFile _ | W_rootClear | W_delFile _ | W_del | W_ext _ => True
  | _ => covered (result (saveStep stateDir s) fs) (after (saveStep stateDir s) fs)
  end.
Proof using All.
  intros K. pose proof (cv_phase _ _ K) as P. pose proof (cv_blobs _ _ K) as B. unfold saveStep, phase_ok in *.
  destruct (phase s) as [|[|[p d] jobs]| | | | | | | | |[|p ds] [|[q raw] js]| | |] eqn:Ep; try done.
  - destruct (poked s); [|exact K]. quiet K; rewrite ?Ep; done.
  - quiet K; rewrite ?Ep; done.
  - apply Forall_cons in P as [P1 P2]. rewrite result_bind, after_bind. destruct (atomicWriteFile_ok p d fs) as (_ & _ & O & _).
    quiet K; rewrite ?Ep; try done. intros b Hb. eapply foreign_reads; [exact P1|exact Hb|exact O|]. set_solver.
  - destruct (flushStopped s); quiet K; rewrite ?Ep; done.
  - pose proof (DB (db (cfg s))) as Q. destruct (sdbDirtyImages (db (cfg s))) as [[d jobs] deletes]. quiet K; rewrite ?Ep; done.
  - quiet K; rewrite ?Ep; done.
  - destruct P as [_ P]. apply Forall_cons in P as [P1 P2]. rewrite result_bind, after_bind.
    quiet K; rewrite ?Ep; try done; try (by split). intros b Hb. eapply foreign_reads; [exact P1|exact Hb|apply dbWrite_only|done].
  - destruct P as [P1 P2]. apply Forall_cons in P1 as [P0 P1]. rewrite result_bind, after_bind.
    quiet K; rewrite ?Ep; try done; try (by split). intros b Hb. eapply foreign_reads; [exact P0|exact Hb|apply fs_remove_only|]. set_solver.
  - destruct P as [P1 P2]. apply Forall_cons in P1 as [P0 P1]. rewrite result_bind, after_bind.
    quiet K; rewrite ?Ep; try done; try (by split). intros b Hb. eapply foreign_reads; [exact P0|exact Hb|apply fs_remove_only|]. set_solver.
  - quiet K; rewrite ?Ep; done.
Qed.

(** ** Its other steps *)

Lemma root_doc_same c c' j : same_exts (externals c) (externals c') -> (forall ss, leaf (cfgRoot c') ss = leaf (cfgRoot c) ss) ->
  root_doc c j -> root_doc c' j.
Proof.
  intros SE T [A O]. split.
  - eapply holds_values_ext; [exact A|]. intros ss. unfold root_values. by rewrite <- (same_exts_covers _ _ ss SE), T.
  - destruct j as [[| | | |[|] l]|]; try done. eapply same_exts_Forall; [|exact SE|exact O]. intros e f Sf. cbn. by rewrite (same_segs _ _ Sf).
Qed.

Lemma worker_ext s fs i : covered s fs -> phase s = W_ext i ->
  covered (result (saveStep stateDir s) fs) (after (saveStep stateDir s) fs).
Proof using All.
  intros K Ep. unfold saveStep. rewrite Ep. destruct (exts s !! i) as [e|] eqn:Ei; [|quiet K; rewrite ?Ep; done || apply K].
  destruct (e_dirty e && negb (e_pendingDelete e)) eqn:Ed; [|quiet K; rewrite ?Ep; done || apply K].
  apply andb_true_iff in Ed as [Ed Vl]. apply negb_true_iff in Vl. apply list_elem_of_lookup_2 in Ei as He.
  pose proof (same_exts_insert (exts s) i e false Ei) as SE. set (l' := <[i := set_dirty e false]> (exts s)) in *.
  assert (forall f, f ∈ l' -> e_prefix f = e_prefix e \/ f ∈ exts s) as El.
  { intros f Hf. apply list_elem_of_lookup_1 in Hf as [j Hj]. unfold l' in Hj.
    apply list_lookup_insert_Some in Hj as [(-> & <- & _)|[_ Hj]]; [by left|right; by eapply list_elem_of_lookup_2]. }
  change (result (ret ?x) fs) with x. change (after (ret ?x) fs) with fs. destruct K.
  constructor; cbn [cfg set_phase set_cfg phase pendingBlobs cfgRoot externals with_files]; fold l'; try done.
  - eapply same_exts_Forall; [|exact SE|exact cv_exts0]. intros ? ?. apply same_ext_ok.
  - by eapply same_exts_apart.
  - eapply same_exts_Forall; [|exact SE|exact cv_obj0]. intros x f Sf. cbn. by rewrite (same_segs _ _ Sf).
  - intros p N. destruct (cv_stale0 p N) as [(f & Hf & Pf)|W]; [left|by rewrite Ep in W].
    apply list_elem_of_lookup_1 in Hf as [j Hj]. destruct (Forall2_lookup_l _ _ _ _ _ SE Hj) as (g & Hg & (Sg & _)).
    exists g. split; [by eapply list_elem_of_lookup_2|]. by rewrite <- Sg.
  - intros f Hf Vf Df. unfold ext_values. cbn [cfg set_phase set_cfg cfgRoot with_files].
    assert (e_prefix f = e_prefix e \/ (f ∈ exts s /\ e_dirty f = true)) as [Pf|[Hf' Df']].
    { destruct (El f Hf) as [?|Hf']; [by left|]. destruct Df as [Df|(j & w & W & Pw)]; [by right|]. cbn in W. injection W as <- <-. by left. }
    + destruct (cv_dirty0 e He Vl ltac:(by left)) as [ss Hs]. exists ss. unfold ext_values, segs in *. by rewrite Pf.
    + apply (cv_dirty0 f Hf' Vf). by left.
  - intros f Hf Vf. destruct (El f Hf) as [Pf|Hf']; [right; cbn; by left|].
    destruct (cv_ext0 f Hf' Vf) as [Df|Y]; [by left|]. right. rewrite Ep in Y. cbn. right. exact Y.
  - unfold root_covered in *. rewrite Ep in cv_root0. cbn. destruct cv_root0 as [?|R]; [by left|right].
    by refine (root_doc_same (cfg s) (with_files (cfg s) l' (rootDirty (cfg s))) _ SE _ R).
  - unfold phase_ok. cbn. exists (set_dirty e false). split; [|done]. apply list_elem_of_lookup. exists i.
    apply list_lookup_insert_eq. by eapply lookup_lt_Some.
Qed.

Lemma text_of j t : jgood j -> cJSON_PrintUnformatted j = Some t -> Zlen t <= 8 * 1024 * 1024 ->
  text_ok t /\ cJSON_Parse t = Some (norm j).
Proof. intros G E Z. destruct (cj_print_parse j t G E) as (A & B & N & P). split; [by constructor|done]. Qed.

Lemma ext_node (s : sv) e : jgood (JNode false (tree s)) -> ext_ok e -> navigatePath (root (cfg s)) (e_prefix e) = navS (Some (JNode false (tree s))) (segs e).
Proof. intros G (P & _). rewrite (segs_path e) at 1. apply navigatePath_ok; [apply P|apply segs_ne]. Qed.

Lemma worker_snap s fs i w : covered s fs -> prints_ok s -> phase s = W_snap i w ->
  covered (result (saveStep stateDir s) fs) (after (saveStep stateDir s) fs).
Proof using All.
  intros K PR Ep. pose proof (cv_phase _ _ K) as P. unfold phase_ok, prints_ok in *. rewrite Ep in P, PR. destruct P as (e & He & Vl & Pw & Qw).
  pose proof (proj1 (Forall_forall _ _) (cv_exts _ _ K) e He) as X.
  destruct (cv_dirty _ _ K e He Vl ltac:(right; by exists i, w)) as [s0 Hs].
  pose proof (ext_node s e (cv_good _ _ K) X) as Nv. unfold ext_values, leaf in Hs. rewrite navS_app in Hs.
  rewrite Pw, Nv in PR. destruct (navS (Some (JNode false (tree s))) (segs e)) as [n|] eqn:En; [|by rewrite navS_None in Hs].
  destruct (PR n eq_refl) as (t & Et & Zt). pose proof (jgood_nav _ _ _ (cv_good _ _ K) En) as Gn.
  destruct (text_of n t Gn Et Zt) as [T1 T2].
  unfold saveStep. rewrite Ep. unfold externalText. rewrite Pw, Nv, cj_dup. cbn [snd]. rewrite Et.
  change (result (ret ?x) fs) with x. change (after (ret ?x) fs) with fs. rewrite Qw. destruct K.
  constructor; cbn [cfg set_phase phase pendingBlobs]; try done.
  - intros p N. destruct (cv_stale0 p N) as [?|W]; [by left|by rewrite Ep in W].
  - intros f Hf Vf Df. apply (cv_dirty0 f Hf Vf). destruct Df as [?|(j & w' & W & _)]; [by left|done].
  - intros f Hf Vf. destruct (decide (e_path e = e_path f)) as [Pe|Ne].
    + right. cbn. left. split; [done|]. assert (f = e) as ->.
      { eapply prefix_inj; [exact cv_apart0|done|done|]. pose proof (proj1 (Forall_forall _ _) cv_exts0 f Hf) as (_ & _ & Q).
        destruct X as (_ & _ & Q'). rewrite Q, Q' in Pe. symmetry. by eapply externalPath_inj. }
      rewrite T2. split; [by apply norm_good|]. intros ss. rewrite lval_norm by done. unfold ext_values, leaf.
      by rewrite navS_app, En.
    + destruct (cv_ext0 f Hf Vf) as [?|Y]; [by left|]. right. cbn. right. split; [done|]. rewrite Ep in Y.
      destruct Y as [Y|Y]; [|done]. destruct Ne. f_equal. symmetry. eapply prefix_inj; [exact cv_apart0|done|done|]. by rewrite <- Y.
  - unfold root_covered in *. by rewrite Ep in cv_root0.
  - unfold phase_ok. cbn. split; [done|]. by exists e.
Qed.

(** The other JSON files keep their contents while one is written. *)
Lemma write_others b t fs : base stateDir b -> text_ok t ->
  let g := after (atomicWriteJsonGz b t) fs in
  readJsonFile g b = Some (Some t) /\ (forall b', base stateDir b' -> b' <> b -> readJsonFile g b' = readJsonFile fs b').
Proof using All.
  intros B T. cbv zeta. destruct (atomicWriteJsonGz_ok HA b t fs (base_ok _ _ B) T) as (_ & _ & O & R). split; [done|].
  intros b' B' N. eapply readJson_only; [done|exact B'|exact O|]. intros q Hq. by eapply (forms_siblings stateDir b b').
Qed.

Lemma worker_file s fs i p t : covered s fs -> phase s = W_file i p t ->
  covered (result (saveStep stateDir s) fs) (after (saveStep stateDir s) fs).
Proof using All.
  intros K Ep. pose proof (cv_phase _ _ K) as P. unfold phase_ok in P. rewrite Ep in P. destruct P as (T & e & He & Vl & ->).
  pose proof (proj1 (Forall_forall _ _) (cv_exts _ _ K) e He) as X. pose proof (ext_base e X) as B.
  unfold saveStep. rewrite Ep, result_bind, after_bind. change (result (ret ?x) ?g) with x. change (after (ret ?x) ?g) with g.
  destruct (write_others (e_path e) t fs B T) as [R O]. set (g := after _ fs) in *.
  assert (fileJson g (e_path e) = cJSON_Parse t) as FJ by (unfold fileJson; by rewrite R).
  assert (forall b, base stateDir b -> b <> e_path e -> fileJson g b = fileJson fs b) as FO by (intros b Hb Nb; unfold fileJson; by rewrite O).
  destruct K. constructor; cbn [cfg set_phase phase pendingBlobs]; try done.
  - intros b Hb. destruct (decide (b = e_path e)) as [->|N]; [by rewrite R|]. rewrite O by done. by apply cv_read0.
  - intros q N. left. destruct (decide (externalPath stateDir q = e_path e)) as [Eq|Nq].
    + exists e. split; [done|]. destruct X as (_ & _ & Q). rewrite Q in Eq. symmetry. by eapply externalPath_inj.
    + rewrite FO in N by (done || right; by eexists). destruct (cv_stale0 q N) as [?|W]; [done|by rewrite Ep in W].
  - intros f Hf Vf Df. apply (cv_dirty0 f Hf Vf). destruct Df as [?|(j & w' & W & _)]; [by left|done].
  - intros f Hf Vf. destruct (cv_ext0 f Hf Vf) as [?|Y]; [by left|]. right. rewrite Ep in Y. cbn. unfold synced.
    destruct Y as [[Pf Y]|[Nf Y]]; [by rewrite <- Pf, FJ|]. rewrite FO; [done| |done].
    apply ext_base. by eapply (proj1 (Forall_forall _ _)).
  - unfold root_covered in *. rewrite Ep in cv_root0. cbn. rewrite FO; [done|apply root_base|by apply root_path_neq].
Qed.

Lemma worker_rootFile s fs t : covered s fs -> phase s = W_rootFile t ->
  covered (result (saveStep stateDir s) fs) (after (saveStep stateDir s) fs).
Proof using All.
  intros K Ep. pose proof (cv_phase _ _ K) as T. unfold phase_ok in T. rewrite Ep in T.
  unfold saveStep. rewrite Ep, result_bind, after_bind. change (result (ret ?x) ?g) with x. change (after (ret ?x) ?g) with g.
  fold (rootPath stateDir). destruct (write_others (rootPath stateDir) t fs root_base T) as [R O]. set (g := after _ fs) in *.
  assert (fileJson g (rootPath stateDir) = cJSON_Parse t) as FJ by (unfold fileJson; by rewrite R).
  assert (forall b, base stateDir b -> b <> rootPath stateDir -> fileJson g b = fileJson fs b) as FO by (intros b Hb Nb; unfold fileJson; by rewrite O).
  assert (forall q, externalPath stateDir q <> rootPath stateDir) as NR.
  { intros q E. apply (root_not_external stateDir q [] []). by rewrite !app_nil_r. }
  destruct K. constructor; cbn [cfg set_phase phase pendingBlobs]; try done.
  - intros b Hb. destruct (decide (b = rootPath stateDir)) as [->|N]; [by rewrite R|]. rewrite O by done. by apply cv_read0.
  - intros q N. left. rewrite FO in N by (done || right; by eexists). destruct (cv_stale0 q N) as [?|W]; [done|by rewrite Ep in W].
  - intros f Hf Vf Df. apply (cv_dirty0 f Hf Vf). destruct Df as [?|(j & w' & W & _)]; [by left|done].
  - intros f Hf Vf. destruct (cv_ext0 f Hf Vf) as [?|Y]; [by left|]. right. rewrite Ep in Y. cbn. unfold synced.
    pose proof (proj1 (Forall_forall _ _) cv_exts0 f Hf) as X. rewrite FO; [done|by apply ext_base|by apply not_eq_sym, root_path_neq].
  - unfold root_covered in *. rewrite Ep in cv_root0. cbn. by rewrite FJ.
Qed.

Lemma worker_rootClear s fs : covered s fs -> phase s = W_rootClear ->
  covered (result (saveStep stateDir s) fs) (after (saveStep stateDir s) fs).
Proof using All.
  intros K Ep. unfold saveStep. rewrite Ep. change (result (ret ?x) ?g) with x. change (after (ret ?x) ?g) with g.
  destruct K. constructor; cbn [cfg set_phase set_cfg phase pendingBlobs cfgRoot externals with_files]; try done.
  - intros q N. destruct (cv_stale0 q N) as [?|W]; [by left|by rewrite Ep in W].
  - intros f Hf Vf Df. apply (cv_dirty0 f Hf Vf). destruct Df as [?|(j & w' & W & _)]; [by left|done].
  - intros f Hf Vf. destruct (cv_ext0 f Hf Vf) as [?|Y]; [by left|]. right. rewrite Ep in Y. exact Y.
  - unfold root_covered in *. rewrite Ep in cv_root0. cbn. by right.
Qed.

(** ** The copy of the root *)

Definition partKids (r : kids) : kids := match rootParts r with JNode _ l => l | _ => [] end.

Lemma rootParts_kids r : rootParts r = JNode false (partKids r).
Proof. done. Qed.

Lemma addPart_oget r k out x : oget (addPart r k out) x =
  match oget out x with Some v => Some v | None => if same k x then oget r k else None end.
Proof using JL.
  unfold addPart. rewrite GetObjectItem_oget. destruct (oget r k) as [n|]; [|by destruct (oget out x); [|destruct (same k x)]].
  rewrite cj_add, cj_dup, oget_app. cbn [kget snd]. by destruct (oget out x), (same k x).
Qed.

Lemma parts_oget r x : oget (partKids r) x = if same ($ "s") x || same ($ "secrets") x then oget r x else None.
Proof using JL.
  unfold partKids, rootParts. rewrite !addPart_oget. cbn [kget].
  destruct (same ($ "s") x) eqn:E1; cbn [orb].
  - rewrite (oget_same r _ _ E1). destruct (oget r x) as [n|] eqn:Er; [done|].
    destruct (same ($ "secrets") x) eqn:E2; [|done]. by rewrite (oget_same r _ _ E2).
  - destruct (same ($ "secrets") x) eqn:E2; [by apply oget_same|done].
Qed.

Lemma parts_good r : jgood (JNode false r) -> jgood (JNode false (partKids r)).
Proof using JL JT.
  intros G. unfold partKids, rootParts.
  assert (forall k out, str_ok k -> jgood (JNode false out) -> oget out k = None -> jgood (JNode false (addPart r k out))) as A.
  { intros k out Sk Go N. unfold addPart. rewrite GetObjectItem_oget. destruct (oget r k) as [n|] eqn:E; [|done].
    rewrite cj_add, cj_dup. apply jgood_snoc; [done|done|done|cbn [snd]; exact (jgood_oget _ _ _ _ G E)]. }
  apply A; [by apply str_okb_ok| |].
  - apply A; [by apply str_okb_ok|done|done].
  - rewrite addPart_oget. cbn [kget]. by rewrite cj_parts.
Qed.

Lemma worker_root s fs : covered s fs -> prints_ok s -> phase s = W_root ->
  covered (result (saveStep stateDir s) fs) (after (saveStep stateDir s) fs).
Proof using All.
  intros K PR Ep. unfold prints_ok in PR. rewrite Ep in PR. unfold saveStep. rewrite Ep.
  destruct (rootDirty (cfg s)) eqn:Ed; [|quiet K; rewrite ?Ep, ?Ed; done || apply K].
  unfold rootSnapshot. pose proof (detachAll_ok (exts s) (ext_prefix_ok _ (cv_exts _ _ K)) (cv_apart _ _ K) (tree s) (cv_good _ _ K) (cv_obj _ _ K)) as DA.
  destruct (detachAll (tree s) (exts s)) as [r svd]. cbn [fst] in PR. destruct DA as (Gr & At & Re).
  destruct (Re r Gr ltac:(done)) as [GR TR]. set (R := reattachAll r svd) in *. destruct PR as (t & Et & Zt). rewrite Et.
  rewrite rootParts_kids in Et. pose proof (parts_good r Gr) as Gp. destruct (text_of _ t Gp Et Zt) as [T1 T2].
  change (result (ret ?x) ?g) with x. change (after (ret ?x) ?g) with g.
  assert (forall ss, leaf R ss = leaf (tree s) ss) as LE by (intros ss; by apply teq_leaf).
  destruct K. constructor; cbn [cfg set_phase set_cfg phase pendingBlobs cfgRoot externals with_root]; try done.
  - eapply Forall_impl; [exact cv_obj0|]. intros e O. eapply objpath_teq; [by apply teq_sym|done].
  - intros q N. destruct (cv_stale0 q N) as [?|W]; [by left|by rewrite Ep in W].
  - intros f Hf Vf Df. unfold ext_values. cbn [cfg set_phase set_cfg cfgRoot with_root]. setoid_rewrite LE. apply (cv_dirty0 f Hf Vf).
    destruct Df as [?|(j & w' & W & _)]; [by left|done].
  - intros f Hf Vf. destruct (cv_ext0 f Hf Vf) as [?|Y]; [by left|]. right. rewrite Ep in Y. cbn.
    eapply holds_values_ext; [exact Y|]. intros ss. unfold ext_values. cbn. by rewrite LE.
  - unfold root_covered. cbn. rewrite T2. cbn [norm]. split.
    + split; [apply (norm_good (JNode false (partKids r)) Gp)|]. intros ss. change (JNode false (map _ (partKids r))) with (norm (JNode false (partKids r))).
      rewrite lval_norm by done. unfold root_values. cbn [externals cfgRoot with_root]. rewrite LE.
      destruct ss as [|x ss]; [done|]. rewrite navS_cons, parts_oget by done. cbn [saved].
      destruct (same ($ "s") x || same ($ "secrets") x); cbn [andb]; [|by rewrite navS_None].
      rewrite <- (navS_cons false r) by done. change (lval _) with (leaf r (x :: ss)). rewrite leaf_at, At, leaf_at.
      by destruct (covers (exts s) (x :: ss)).
    + cbn [externals with_root]. apply Forall_forall. intros e He. apply (objpath_norm (segs e)); [done|].
      pose proof (proj1 (Forall_forall _ _) cv_exts0 e He) as (_ & [Sv _] & _). pose proof (proj1 (Forall_forall _ _) cv_obj0 e He) as O.
      assert (objpath r (segs e)) as Or.
      { apply at_above. intros q rr Eq Nq Nr. rewrite At. destruct (covers (exts s) q); [by left|]. by eapply (proj1 (at_above (tree s) (segs e))). }
      destruct (segs e) as [|x ps]; [done|]. destruct ps as [|y ps]; [done|]. cbn [objpath saved] in Or, Sv |- *. by rewrite parts_oget, Sv.
Qed.

Lemma takeDeleted_spec l e rest : takeDeleted l = Some (e, rest) ->
  exists a b, l = a ++ e :: b /\ rest = a ++ b /\ e_pendingDelete e = true.
Proof.
  revert rest. induction l as [|x l IH]; intros rest E; [done|]. cbn in E. destruct (e_pendingDelete x) eqn:Dx.
  - injection E as <- <-. by exists [], l.
  - destruct (takeDeleted l) as [[y r]|]; [|done]. cbn in E. injection E as <- <-. destruct (IH r eq_refl) as (a & b & -> & -> & Dy).
    by exists (x :: a), b.
Qed.

Lemma all_apart_app a e b : all_apart (a ++ e :: b) -> all_apart (a ++ b) /\ forall f, f ∈ a ++ b -> apart (segs e) (segs f) = true.
Proof.
  induction a as [|x a IH]; cbn [app all_apart].
  - intros [A1 A2]. split; [done|]. intros f Hf. by apply (proj1 (Forall_forall _ _) A1).
  - intros [A1 A2]. destruct (IH A2) as [B1 B2]. apply Forall_app in A1 as [A1 A3]. apply Forall_cons in A3 as [A3 A4]. split.
    + split; [by apply Forall_app|done].
    + intros f Hf. apply elem_of_cons in Hf as [->|Hf]; [by rewrite apart_sym|by apply B2].
Qed.

Lemma apart_of l e f : all_apart l -> e ∈ l -> f ∈ l -> e <> f -> apart (segs e) (segs f) = true.
Proof.
  intros A He Hf N. apply list_elem_of_split in He as (a & b & ->). destruct (all_apart_app a e b A) as [_ AE].
  apply AE. apply elem_of_app in Hf as [?|Hf]; [apply elem_of_app; by left|]. apply elem_of_cons in Hf as [->|Hf]; [done|apply elem_of_app; by right].
Qed.

Lemma index_inj l e i j : all_apart l -> l !! i = Some e -> l !! j = Some e -> i = j.
Proof using JL.
  revert i j. induction l as [|x l IH]; intros i j A Ei Ej; [done|]. destruct A as [A1 A2].
  assert (forall k, l !! k = Some x -> False) as N.
  { intros k Hk. apply list_elem_of_lookup_2 in Hk. pose proof (proj1 (Forall_forall _ _) A1 x Hk) as X. cbn in X. by rewrite apart_irrefl in X. }
  destruct i as [|i], j as [|j]; cbn in Ei, Ej; [done|injection Ei as ->; by destruct (N j)|injection Ej as ->; by destruct (N i)|f_equal; by apply IH].
Qed.

Lemma worker_del s fs : covered s fs -> phase s = W_del ->
  covered (result (saveStep stateDir s) fs) (after (saveStep stateDir s) fs).
Proof using All.
  intros K Ep. unfold saveStep. rewrite Ep. destruct (takeDeleted (exts s)) as [[e rest]|] eqn:Et; [|quiet K; rewrite ?Ep; done || apply K].
  destruct (takeDeleted_spec _ _ _ Et) as (a & b & El & -> & De). change (result (ret ?x) ?g) with x. change (after (ret ?x) ?g) with g.
  assert (forall f, f ∈ a ++ b -> f ∈ exts s) as Sub by (intros f Hf; rewrite El; apply elem_of_app in Hf as [?|?]; apply elem_of_app; [by left|right; by right]).
  assert (e ∈ exts s) as He by (rewrite El; apply elem_of_app; right; by left).
  assert (forall P : external_t -> Prop, Forall P (exts s) -> Forall P (a ++ b)) as FS.
  { intros P0 F0. apply Forall_forall. intros f Hf. apply (proj1 (Forall_forall _ _) F0). by apply Sub. }
  assert (forall ss, covers (a ++ b) ss = covers (exts s) ss) as CV.
  { intros ss. rewrite El. unfold covers. rewrite !existsb_app. cbn [existsb]. by rewrite De. }
  pose proof (cv_apart _ _ K) as AA. rewrite El in AA. destruct (all_apart_app a e b AA) as [AB AE].
  pose proof (proj1 (Forall_forall _ _) (cv_exts _ _ K) e He) as X.
  destruct K. constructor; cbn [cfg set_phase set_cfg phase pendingBlobs cfgRoot externals with_files]; try done; try (by apply FS).
  - intros p N. destruct (cv_stale0 p N) as [(f & Hf & <-)|W]; [|by rewrite Ep in W]. rewrite El in Hf.
    apply elem_of_app in Hf as [Hf|Hf]; [left; exists f; split; [apply elem_of_app; by left|done]|].
    apply elem_of_cons in Hf as [->|Hf]; [right|left; exists f; split; [apply elem_of_app; by right|done]].
    by destruct X as (_ & _ & ->).
  - intros f Hf Vf Df. apply (cv_dirty0 f (Sub f Hf) Vf). destruct Df as [?|(j & w' & W & _)]; [by left|done].
  - intros f Hf Vf. destruct (cv_ext0 f (Sub f Hf) Vf) as [?|Y]; [by left|]. right. rewrite Ep in Y. exact Y.
  - unfold root_covered in *. rewrite Ep in cv_root0. cbn. destruct cv_root0 as [?|[A O]]; [by left|right]. split.
    + eapply holds_values_ext; [exact A|]. intros ss. unfold root_values. cbn [externals cfgRoot with_files]. by rewrite CV.
    + cbn. destruct (fileJson fs (rootPath stateDir)) as [[| | | |[|] l]|]; try done. by apply FS.
  - unfold phase_ok. cbn. exists (e_prefix e). split; [by destruct X as (_ & _ & ->)|]. intros f Hf Ef.
    specialize (AE f Hf). unfold segs in AE. by rewrite Ef, apart_irrefl in AE.
Qed.

Lemma worker_delFile s fs p : covered s fs -> phase s = W_delFile p ->
  covered (result (saveStep stateDir s) fs) (after (saveStep stateDir s) fs).
Proof using All.
  intros K Ep. pose proof (cv_phase _ _ K) as P. unfold phase_ok in P. rewrite Ep in P. destruct P as (q & -> & Nq).
  unfold saveStep. rewrite Ep, !result_bind, !after_bind. change (result (ret ?x) ?g) with x. change (after (ret ?x) ?g) with g.
  set (b := externalPath stateDir q) in *. destruct (fs_remove_only b fs) as [O1 E1]. set (g1 := after (fs_remove b) fs) in *.
  destruct (fs_remove_only (b ++ GZ) g1) as [O2 E2]. set (g := after (fs_remove (b ++ GZ)) g1) in *.
  assert (base stateDir b) as B by (right; by eexists). destruct (siblings_neq b) as (N1 & _).
  assert (only (forms b) fs g) as O.
  { eapply only_trans; eapply only_weaken; [exact O1|unfold forms; set_solver|exact O2|unfold forms; set_solver]. }
  assert (readJsonFile g b = Some None) as R.
  { rewrite (readJson_file HA) by (by eapply base_ok). rewrite E2, O2, E1; [done|]. rewrite elem_of_cons, elem_of_nil. naive_solver. }
  assert (forall b', base stateDir b' -> b' <> b -> readJsonFile g b' = readJsonFile fs b') as RO.
  { intros b' B' N. eapply readJson_only; [done|exact B'|exact O|]. intros x Hx Hy.
    apply (forms_siblings stateDir b b' x B B' (not_eq_sym N) Hx). unfold forms, siblings in *. set_solver. }
  assert (forall b', base stateDir b' -> b' <> b -> fileJson g b' = fileJson fs b') as FO by (intros b' B' N; unfold fileJson; by rewrite RO).
  destruct K. constructor; cbn [cfg set_phase phase pendingBlobs]; try done.
  - intros b' Hb. destruct (decide (b' = b)) as [->|N]; [by rewrite R|]. rewrite RO by done. by apply cv_read0.
  - intros p N. left. destruct (decide (externalPath stateDir p = b)) as [Eq|Np].
    + rewrite Eq in N. unfold fileJson in N. rewrite R in N. done.
    + rewrite FO in N by (done || right; by eexists). destruct (cv_stale0 p N) as [?|W]; [done|]. rewrite Ep in W. injection W as W. by destruct Np.
  - intros f Hf Vf Df. apply (cv_dirty0 f Hf Vf). destruct Df as [?|(j & w' & W & _)]; [by left|done].
  - intros f Hf Vf. destruct (cv_ext0 f Hf Vf) as [?|Y]; [by left|]. right. rewrite Ep in Y. cbn. unfold synced.
    pose proof (proj1 (Forall_forall _ _) cv_exts0 f Hf) as X. rewrite FO; [done|by apply ext_base|].
    destruct X as (_ & _ & ->). intros Eq. apply externalPath_inj in Eq. by apply (Nq f).
  - unfold root_covered in *. rewrite Ep in cv_root0. cbn. rewrite FO; [done|apply root_base|].
    intros E. apply (root_not_external stateDir q [] []). by rewrite !app_nil_r.
Qed.

Lemma worker_covered s fs : covered s fs -> prints_ok s ->
  covered (result (saveStep stateDir s) fs) (after (saveStep stateDir s) fs).
Proof using All.
  intros K PR. pose proof (worker_quiet s fs K) as Q. destruct (phase s) eqn:Ep; try exact Q.
  - by eapply worker_ext.
  - by eapply worker_snap.
  - by eapply worker_file.
  - by eapply worker_root.
  - by eapply worker_rootFile.
  - by eapply worker_rootClear.
  - by eapply worker_del.
  - by eapply worker_delFile.
Qed.

(** ** A write of the actor *)

(** Between its copy of the tree and the end of the root file's write, where it clears the
    mark, the worker does not notice that the mark was set again. *)
Definition open_window (s : sv) : bool := match phase s with W_rootFile _ | W_rootClear => true | _ => false end.

Record set_ok (s : sv) (ss : list bytes) (val : bytes) : Prop := {
  so_segs : Forall good_seg ss;
  so_str : Forall str_ok ss;
  so_ne : ss <> [];
  so_len : Zlen (path_of ss) < 128;
  so_val : str_ok val;
  so_size : Zlen (opAppendKV (chr "S") (path_of ss) val) < 2 ^ 32 - 1;
  so_db : not_routed (cfg s) (path_of ss);
  so_ext : forall e, e ∈ exts s -> apart (segs e) ss = true \/ (live e /\ exists rest, ss = segs e ++ rest);
  so_head : saved ss = true -> persisted (path_of ss) = true;
  so_window : saved ss = true -> (forall e, e ∈ exts s -> apart (segs e) ss = true) -> open_window s = false
}.

Lemma leaf_of_good val : str_ok val -> jgood (leaf_of val) /\ is_prim (leaf_of val) /\ lval (Some (leaf_of val)) <> None.
Proof. intros V0. unfold leaf_of. destruct (inferType val); split_and!; try done. apply atoi_range. Qed.

Lemma str_ok_path ss : Forall str_ok ss -> 0 ∉ path_of ss.
Proof.
  intros A. induction A as [|s r [_ K] _ IH]; [apply not_elem_of_nil|]. destruct r as [|s' r]; [done|]. rewrite path_of_cons.
  rewrite not_elem_of_app, not_elem_of_cons. split_and!; [done|discriminate|done].
Qed.

(** Externals as they were but for marks, each either marked, with a value in it, or with
    the values it had. *)
Lemma covered_write s fs c' : covered s fs -> same_exts (exts s) (externals c') ->
  jgood (JNode false (cfgRoot c')) -> Forall (fun e => objpath (cfgRoot c') (segs e)) (externals c') ->
  (forall f, f ∈ externals c' -> live f ->
     (e_dirty f = true /\ exists ss, ext_values c' f ss <> None) \/ (f ∈ exts s /\ forall ss, ext_values c' f ss = ext_values (cfg s) f ss)) ->
  root_covered (set_cfg s c') fs -> covered (set_cfg s c') fs.
Proof using All.
  intros K SE G O E R. destruct K. constructor; cbn [cfg set_cfg phase pendingBlobs]; try done.
  - eapply same_exts_Forall; [|exact SE|exact cv_exts0]. intros ? ?. apply same_ext_ok.
  - by eapply same_exts_apart.
  - intros p N. destruct (cv_stale0 p N) as [(f & Hf & Pf)|W]; [left|by right].
    apply list_elem_of_lookup_1 in Hf as [j Hj]. destruct (Forall2_lookup_l _ _ _ _ _ SE Hj) as (g & Hg & (Sg & _)).
    exists g. split; [by eapply list_elem_of_lookup_2|]. by rewrite <- Sg.
  - intros f Hf Vf Df. destruct (E f Hf Vf) as [[_ X]|[Hf' X]]; [exact X|]. setoid_rewrite X. apply (cv_dirty0 f Hf' Vf). exact Df.
  - intros f Hf Vf. destruct (E f Hf Vf) as [[X _]|[Hf' X]]; [by left|]. destruct (cv_ext0 f Hf' Vf) as [?|Y]; [by left|]. right.
    assert (forall j, holds_values j (ext_values (cfg s) f) -> holds_values j (ext_values c' f)) as HV
      by (intros j Hj; eapply holds_values_ext; [exact Hj|]; intros ss; by rewrite X).
    assert (synced (cfg s) fs f -> synced c' fs f) as SY by (apply HV).
    cbn [phase set_cfg cfg]. destruct (phase s); try (by apply SY).
    + destruct Y as [?|?]; [by left|right; by apply SY].
    + destruct Y as [[? ?]|[? ?]]; [left; split; [done|by apply HV]|right; split; [done|by apply SY]].
  - unfold phase_ok in *. cbn [phase set_cfg cfg]. destruct (phase s); try done.
    + destruct cv_phase0 as (e & He & Ve & A & B). apply list_elem_of_lookup_1 in He as [j Hj].
      destruct (Forall2_lookup_l _ _ _ _ _ SE Hj) as (g & Hg & (S1 & S2 & S3)). exists g.
      split_and!; [by eapply list_elem_of_lookup_2|unfold live in *; congruence|congruence|congruence].
    + destruct cv_phase0 as (T & e & He & Ve & A). split; [done|]. apply list_elem_of_lookup_1 in He as [j Hj].
      destruct (Forall2_lookup_l _ _ _ _ _ SE Hj) as (g & Hg & (S1 & S2 & S3)). exists g.
      split_and!; [by eapply list_elem_of_lookup_2|unfold live in *; congruence|congruence].
    + destruct cv_phase0 as (q & -> & N). exists q. split; [done|]. intros f Hf. destruct (same_exts_elem _ _ _ SE Hf) as (e & He & (S1 & _)).
      rewrite <- S1. by apply N.
Qed.

Lemma apart_split ps ss : apart ps ss = true -> under ps ss = false /\ under ss ps = false.
Proof. unfold apart. rewrite andb_true_iff, !negb_true_iff. done. Qed.

Lemma parted_apart ps ss tt : apart ps ss = true -> under ps tt = true -> parted ps ss tt = true.
Proof. intros A U. unfold parted. by rewrite U, A. Qed.

Lemma ext_values_apart (c c' : cfg_st D) ss v e : wfj (JNode false (cfgRoot c)) -> objpath (cfgRoot c) (segs e) -> is_prim v -> ss <> [] ->
  cfgRoot c' = setRoot (cfgRoot c) ss v -> apart (segs e) ss = true -> forall tt, ext_values c' e tt = ext_values c e tt.
Proof using JL.
  intros W O P N E A tt. unfold ext_values. rewrite E. eapply set_leaf_parted; [done|done|done|exact O|].
  apply parted_apart; [done|apply under_app].
Qed.

(** A key outside external [e] keeps its value when one inside it is written. *)
Lemma leaf_outside l ps ss tt v : wfj (JNode false l) -> objpath l ps -> is_prim v -> ss <> [] -> under ps ss = true -> under ps tt = false ->
  leaf (setRoot l ss v) tt = leaf l tt.
Proof using JL.
  intros W O P N U T. destruct (under tt ps) eqn:Q.
  - assert (forall l', objpath l' ps -> leaf l' tt = None) as Nn.
    { intros l' O'. destruct tt as [|x tt]; [done|]. rewrite leaf_at. clear -O' Q T JL. revert l' O' Q T. generalize (x :: tt) as qs. clear x tt.
      intros qs. revert ps. induction qs as [|q qs IH]; intros ps l' O' Q T; [done|]. destruct ps as [|p ps]; [done|]. cbn [under] in Q, T.
      apply andb_true_iff in Q as [Q1 Q2]. rewrite cj_sym in Q1. rewrite Q1 in T. cbn [andb] in T. destruct ps as [|p' ps]; [by destruct qs|].
      cbn [objpath] in O'. rewrite at_cons, <- (oget_same _ _ _ Q1). destruct (oget l' p) as [[| | | |[|] c]|]; try done; [|by rewrite navS_None].
      by apply (IH (p' :: ps)). }
    rewrite !Nn; [done|done|]. apply set_objpath; [|done|done|done|done]. unfold above. rewrite U. apply andb_false_r.
  - eapply set_leaf_parted; [done|done|done|exact O|]. unfold parted, apart. rewrite U, T, Q. by rewrite andb_false_r.
Qed.

Lemma root_covered_doc s fs c' : root_covered s fs -> rootDirty c' = rootDirty (cfg s) ->
  (forall j, root_doc (cfg s) j -> root_doc c' j) -> root_covered (set_cfg s c') fs.
Proof.
  intros R Rd RD. unfold root_covered in *. cbn [phase set_cfg cfg].
  destruct (phase s); rewrite ?Rd; try (destruct R as [?|?]; [by left|right; by apply RD]); by apply RD.
Qed.

Lemma saved_same ss tt x y : ss = x :: y -> saved ss = false -> saved tt = true -> apart [x] [] = false ->
  exists z r, tt = z :: r /\ same x z = false.
Proof using JL.
  intros -> A B _. destruct tt as [|z r]; [done|]. exists z, r. split; [done|]. cbn [saved] in *. destruct (same x z) eqn:E; [|done].
  rewrite !(cj_sym _ x), !(same_subst _ _ _ E), !(cj_sym z) in A. congruence.
Qed.

(** A write inside external [i]. *)
Lemma set_inside s fs ss v i e rest c' : covered s fs -> is_prim v -> jgood v -> lval (Some v) <> None -> Forall str_ok ss ->
  exts s !! i = Some e -> live e -> ss = segs e ++ rest ->
  (forall f, f ∈ exts s -> apart (segs f) ss = true \/ (live f /\ exists r, ss = segs f ++ r)) ->
  cfgRoot c' = setRoot (tree s) ss v -> externals c' = <[i := set_dirty e true]> (exts s) -> rootDirty c' = rootDirty (cfg s) ->
  covered (set_cfg s c') fs.
Proof using All.
  intros K P G Nv St Ei Vl Es SO Et Ee Er. pose proof (jgood_wfj _ (cv_good _ _ K)) as W.
  assert (ss <> []) as N by (rewrite Es; pose proof (segs_ne e); by destruct (segs e)).
  apply list_elem_of_lookup_2 in Ei as He. assert (under (segs e) ss = true) as Ue by (rewrite Es; apply under_app).
  assert (forall f, f ∈ exts s -> f = e \/ apart (segs f) ss = true) as Or.
  { intros f Hf. destruct (SO f Hf) as [?|[_ [r Er']]]; [by right|left]. assert (under (segs f) ss = true) as Uf by (rewrite Er'; apply under_app).
    destruct (decide (f = e)) as [|Ne]; [done|]. exfalso.
    pose proof (apart_of _ _ _ (cv_apart _ _ K) Hf He Ne) as A.
    by rewrite (apart_under _ _ _ A Uf) in Ue. }
  assert (same_exts (exts s) (externals c')) as SE by (rewrite Ee; by apply same_exts_insert).
  assert (Forall (fun f => objpath (cfgRoot c') (segs f)) (exts s)) as OB.
  { apply Forall_forall. intros f Hf. rewrite Et. apply set_objpath; [|done|done|done|by apply (proj1 (Forall_forall _ _) (cv_obj _ _ K))].
    unfold above. destruct (Or f Hf) as [->|A]; [rewrite Ue; apply andb_false_r|]. apply apart_split in A as [_ ->]. done. }
  apply covered_write; [done|done| | | |].
  - rewrite Et. by apply set_good; [..|apply K].
  - eapply same_exts_Forall; [|exact SE|exact OB]. intros x f Sf. cbn. by rewrite (same_segs _ _ Sf).
  - intros f Hf Vf. rewrite Ee in Hf. apply list_elem_of_lookup_1 in Hf as [j Hj].
    apply list_lookup_insert_Some in Hj as [(-> & <- & _)|[Nj Hj]].
    + left. split; [done|]. exists rest. unfold ext_values. change (segs (set_dirty e true)) with (segs e). rewrite <- Es, Et.
      by rewrite set_leaf_self.
    + right. apply list_elem_of_lookup_2 in Hj as Hf. split; [done|].
      destruct (Or f Hf) as [->|A].
      * exfalso. apply Nj. eapply index_inj; [apply K|done|done].
      * intros tt. eapply ext_values_apart; [done|by apply (proj1 (Forall_forall _ _) (cv_obj _ _ K))|done|done|exact Et|done].
  - apply root_covered_doc; [apply K|done|]. intros j [A O]. split.
    + eapply holds_values_ext; [exact A|]. intros tt. unfold root_values. rewrite (same_exts_covers _ _ tt SE).
      destruct (saved tt && negb (covers (externals c') tt)) eqn:B; [|done]. apply andb_true_iff in B as [_ B]. apply negb_true_iff in B.
      rewrite <- (same_exts_covers _ _ tt SE) in B. rewrite Et. symmetry. eapply leaf_outside; [done| |done|done|exact Ue|by eapply covers_false].
      by apply (proj1 (Forall_forall _ _) (cv_obj _ _ K)).
    + destruct j as [[| | | |[|] l]|]; try done. eapply same_exts_Forall; [|exact SE|exact O]. intros x f Sf. cbn. by rewrite (same_segs _ _ Sf).
Qed.

(** A write outside all of them. *)
Lemma set_outside s fs ss v c' : covered s fs -> is_prim v -> jgood v -> Forall str_ok ss -> ss <> [] ->
  (forall f, f ∈ exts s -> apart (segs f) ss = true) ->
  cfgRoot c' = setRoot (tree s) ss v -> externals c' = exts s ->
  (saved ss = true -> rootDirty c' = true /\ open_window s = false) -> (saved ss = false -> rootDirty c' = rootDirty (cfg s)) ->
  covered (set_cfg s c') fs.
Proof using All.
  intros K P G St N AP Et Ee R1 R2. pose proof (jgood_wfj _ (cv_good _ _ K)) as W.
  apply covered_write; [done|rewrite Ee; apply same_exts_refl| | | |].
  - rewrite Et. by apply set_good; [..|apply K].
  - rewrite Ee. apply Forall_forall. intros f Hf. rewrite Et. apply set_objpath; [|done|done|done|by apply (proj1 (Forall_forall _ _) (cv_obj _ _ K))].
    unfold above. pose proof (apart_split _ _ (AP f Hf)) as [_ ->]. done.
  - rewrite Ee. intros f Hf Vf. right. split; [done|]. intros tt.
    eapply ext_values_apart; [done|by apply (proj1 (Forall_forall _ _) (cv_obj _ _ K))|done|done|exact Et|by apply AP].
  - destruct (saved ss) eqn:Sv.
    + destruct (R1 eq_refl) as [Rd Ow]. unfold root_covered, open_window in *. cbn [phase set_cfg cfg]. destruct (phase s); try done; by left.
    + apply root_covered_doc; [apply K|by apply R2|]. intros j [A O]. split; [|by rewrite Ee].
      eapply holds_values_ext; [exact A|]. intros tt. unfold root_values. rewrite Ee, Et.
      destruct (saved tt && negb (covers (exts s) tt)) eqn:B; [|done]. apply andb_true_iff in B as [B _].
      destruct ss as [|x ss]; [done|]. destruct (saved_same _ tt x ss eq_refl Sv B eq_refl) as (z & r & -> & Xz).
      symmetry. apply (set_leaf_parted [z]); [done|done|done|done|]. unfold parted, apart. cbn [under]. by rewrite cj_refl, (cj_sym z x), Xz.
Qed.

Lemma covered_same s fs c' : covered s fs -> cfgRoot c' = tree s -> externals c' = exts s -> rootDirty c' = rootDirty (cfg s) ->
  covered (set_cfg s c') fs.
Proof using All.
  intros K Et Ee Er. apply covered_write; rewrite ?Et, ?Ee; [done|apply same_exts_refl|apply K|apply K| |].
  - intros f Hf _. right. split; [done|]. intros ss. unfold ext_values. by rewrite Et.
  - apply root_covered_doc; [apply K|done|]. intros j [A O]. split; [|by rewrite Ee]. eapply holds_values_ext; [exact A|].
    intros tt. unfold root_values. by rewrite Ee, Et.
Qed.

Lemma set_covered s fs ss val silent sender sh c' n : covered s fs -> set_ok s ss val ->
  commit (cfg s) silent [opAppendKV (chr "S") (path_of ss) val] sender sh = Some (c', n) -> covered (set_cfg s c') fs.
Proof using All.
  intros K [] E. destruct (leaf_of_good val so_val0) as (G & P & Nv).
  destruct (set_applies (cfg s) silent ss val sender sh so_segs0 so_ne0 (str_ok_path _ so_str0) (proj2 so_val0) so_db0 so_size0) as (c2 & n2 & E2 & _ & R).
  rewrite E in E2. injection E2 as <- <-. destruct R as [[Rt Rf]|(Rt & _ & Rf)].
  2: { unfold root in Rt. injection Rt as Rt. unfold files in Rf. injection Rf as Re Rd. by apply covered_same. }
  unfold root in Rt. injection Rt as Rt. unfold files, routed in Rf. fold (setRoot (tree s) ss (leaf_of val)) in Rt.
  assert (forall k, cJSON_GetObjectItem (wrap ss (leaf_of val)) k = if match ss with x :: _ => same x k | [] => false end then Some (wrap (tail ss) (leaf_of val)) else None) as GO.
  { intros k. destruct ss as [|x ss]; [done|]. rewrite wrap_cons, GetObjectItem_oget. cbn [kget tail]. by destruct (same x k). }
  rewrite !GO in Rf. destruct (decide (Exists (fun e => apart (segs e) ss = false) (exts s))) as [Ex|Ex].
  - apply Exists_exists in Ex as (e & He & Ae). destruct (so_ext0 e He) as [Ae'|[Ve [rest Es]]]; [congruence|].
    apply list_elem_of_lookup_1 in He as [i Hi]. apply list_elem_of_lookup_2 in Hi as He.
    pose proof (proj1 (Forall_forall _ _) (cv_exts _ _ K) e He) as (Pe & [Sve _] & _).
    assert (saved ss = true) as Sv by (rewrite Es; pose proof (segs_ne e); by destruct (segs e)).
    pose proof (route_external (exts s) (rootDirty (cfg s)) i e rest (leaf_of val) (cv_apart _ _ K) (ext_prefix_ok _ (cv_exts _ _ K)) Hi) as RX.
    rewrite <- Es in RX. rewrite (RX so_len0) in Rf.
    assert ((externals c', rootDirty c') = (<[i:=set_dirty e true]> (exts s), rootDirty (cfg s))) as Rf'.
    { unfold saved in Sv. destruct ss as [|x ss]; [done|]. rewrite (cj_sym _ x), (cj_sym _ x) in Sv.
      destruct (same x ($ "s")), (same x ($ "secrets")); try done. }
    injection Rf' as Re Rd. by eapply set_inside.
  - assert (forall f, f ∈ exts s -> apart (segs f) ss = true) as AP.
    { intros f Hf. destruct (apart (segs f) ss) eqn:A; [done|]. destruct Ex. apply Exists_exists. by exists f. }
    rewrite (route_root (exts s)) in Rf; [|done|done|done|intros f Hf; by pose proof (apart_split _ _ (AP f Hf)) as [-> _]].
    assert (externals c' = exts s /\ rootDirty c' = if saved ss then rootDirty (cfg s) || persisted (path_of ss) else rootDirty (cfg s)) as [Re Rd].
    { unfold saved. destruct ss as [|x ss]; [done|]. rewrite !(cj_sym _ x).
      destruct (same x ($ "s")), (same x ($ "secrets")); cbn [orb]; injection Rf as -> ->; done. }
    eapply set_outside; [done|exact P|done|done|done|done|done|done|..]; intros Sv; rewrite Sv in Rd.
    + rewrite Rd, so_head0 by done. split; [apply orb_true_r|by apply so_window0].
    + done.
Qed.

End Flush.
