(* ===== verification/PersistWork.v ===== *)
(** * storage: the worker among the other tasks

    [istep]: the worker's steps, writes, new tree files, blobs, pokes and the stop, in any
    order. Each keeps [covered]. *)

From stdpp Require Import gmap.
From S2P Require Import Prelude CLib Targz TargzRoundtrip StorageDb StorageDbFile Config ConfigTree ConfigOps ConfigSet.
From S2P Require Import Vfs Persist PersistFiles PersistTree PersistSet PersistFlush.
Import Tree Ops Actor Files Externals Flush Load.
Open Scope Z_scope.
Open Scope spangap_scope.

Section Work.
Context {D F C I : Type} `{L : VfsLaws F} `{S : !VfsSound F true} `{H : Heap F} `{TD : Tdefl C} `{TI : Tinfl I} `{CR : Crc}
        {stream : bytes -> bytes -> Prop} `{!TdeflLaws TD stream} `{!TinflOneShot TI stream} `{!CrcLaws CR}.
Context `{CJ : CJson} `{JL : !CJsonLaws CJ} `{CP : CJsonParse} `{JT : !CJsonText CJ CP}.
Context `{SR : SdbRouter D} `{SF : SdbFiles D}.
Context (stateDir : bytes).
Notation oget := (kget cj_same).
Notation same := cj_same.
Notation sv := (save_st D).
Notation tree s := (cfgRoot (cfg s)).
Notation exts s := (externals (cfg s)).

(** ** A new tree file *)

(** Its place is free in the tree, in the root file (or the text that will become it), and
    among the externals and files. *)
Record new_ok (s : sv) (fs : F) (p : bytes) : Prop := {
  no_len : 0 < Zlen p < 56;
  no_segs : Forall good_seg (segsOf p);
  no_str : Forall str_ok (segsOf p);
  no_saved : saved (segsOf p) = true;
  no_apart : forall e, e ∈ exts s -> apart (segs e) (segsOf p) = true;
  no_obj : objpath (tree s) (segsOf p);
  no_leaf : forall ss, leaf (tree s) (segsOf p ++ ss) = None;
  no_file : phase s <> W_delFile (externalPath stateDir p);
  no_root : match (match phase s with W_rootFile t => cJSON_Parse t | _ => fileJson fs (rootPath stateDir) end) with
            | Some (JNode false l) => objpath l (segsOf p)
            | _ => True
            end
}.

Definition newExternal (p : bytes) : external_t :=
  {| e_prefix := p; e_path := externalPath stateDir p; e_dirty := false; e_pendingDelete := false |}.

Lemma undelete_fresh l p : (forall e, e ∈ l -> e_prefix e <> p) -> undelete l p = None.
Proof.
  induction l as [|e l IH]; intros N; [done|]. cbn. rewrite (proj2 (streq_false _ _)) by (apply N; by left).
  rewrite IH; [done|]. intros f Hf. apply N. by right.
Qed.

Lemma all_apart_snoc l e : all_apart l -> (forall f, f ∈ l -> apart (segs f) (segs e) = true) -> all_apart (l ++ [e]).
Proof.
  induction l as [|x l IH]; intros A N; [by split|]. destruct A as [A1 A2]. cbn [app all_apart]. split.
  - apply Forall_app. split; [done|]. apply Forall_singleton. apply N. by left.
  - apply IH; [done|]. intros f Hf. apply N. by right.
Qed.

Lemma covers_snoc l p ss : covers (l ++ [newExternal p]) ss = covers l ss || under (segsOf p) ss.
Proof. unfold covers. rewrite existsb_app. cbn [existsb newExternal e_pendingDelete negb andb]. by rewrite orb_false_r. Qed.

Lemma leaf_under ps ss l : under ps ss = true -> (forall tt, leaf l (ps ++ tt) = None) -> leaf l ss = None.
Proof using JL.
  intros U N. unfold leaf in *. rewrite (navS_under _ _ _ U), <- navS_app. apply N.
Qed.

Lemma new_root (s : sv) fs p j : new_ok s fs p -> root_doc (cfg s) j ->
  match j with Some (JNode false l) => objpath l (segsOf p) | _ => True end ->
  root_doc (with_files (cfg s) (exts s ++ [newExternal p]) (rootDirty (cfg s))) j.
Proof using JL.
  intros N [A O] Oj. split.
  - eapply holds_values_ext; [exact A|]. intros ss. unfold root_values. cbn [externals cfgRoot with_files]. rewrite covers_snoc.
    destruct (saved ss), (covers (exts s) ss); cbn [negb andb orb]; try done. destruct (under (segsOf p) ss) eqn:U; [|done]. cbn [negb].
    eapply leaf_under; [exact U|apply N].
  - cbn [externals with_files]. destruct j as [[| | | |[|] l]|]; try done. apply Forall_app. split; [done|]. by apply Forall_singleton.
Qed.

Lemma new_covered s fs p : covered stateDir s fs -> new_ok s fs p ->
  covered stateDir (set_cfg s (with_files (cfg s) (exts s ++ [newExternal p]) (rootDirty (cfg s)))) fs.
Proof using All.
  intros K N. pose proof (new_root s fs p) as NR.
  assert (forall f, f ∈ exts s -> e_prefix f <> p) as Np.
  { intros f Hf <-. pose proof (no_apart _ _ _ N f Hf) as A. unfold segs in A. by rewrite apart_irrefl in A. }
  assert (forall f, f ∈ exts s -> e_path f <> externalPath stateDir p) as Nq.
  { intros f Hf E. pose proof (proj1 (Forall_forall _ _) (cv_exts _ _ _ K) f Hf) as (_ & _ & Q). rewrite Q in E. apply externalPath_inj in E.
    by apply (Np f). }
  assert (fileJson fs (externalPath stateDir p) = None) as NF.
  { destruct (fileJson fs (externalPath stateDir p)) eqn:E; [|done]. destruct (cv_stale _ _ _ K p) as [(f & Hf & Pf)|W]; [by rewrite E| |].
    - by destruct (Np f).
    - by destruct (no_file _ _ _ N). }
  pose proof (no_root _ _ _ N) as Rm. destruct K.
  constructor; cbn [cfg set_cfg phase pendingBlobs externals cfgRoot with_files]; try done.
  - apply Forall_app. split; [done|]. apply Forall_singleton. split; [by split; apply N|]. split; [|done]. split; [apply N|]. pose proof (no_len _ _ _ N). cbn. lia.
  - apply all_apart_snoc; [done|apply N].
  - apply Forall_app. split; [done|]. apply Forall_singleton, N.
  - intros q Q. destruct (cv_stale q Q) as [(f & Hf & Pf)|W]; [left; exists f; split; [apply elem_of_app; by left|done]|by right].
  - intros f Hf Vf Df. apply elem_of_app in Hf as [Hf|Hf]; [by apply (cv_dirty f Hf Vf)|].
    apply list_elem_of_singleton in Hf as ->. destruct Df as [?|(i & w & W & Pw)]; [done|]. cbn [set_cfg phase] in W.
    unfold phase_ok in cv_phase. rewrite W in cv_phase. destruct cv_phase as (e & He & _ & Pe & _). destruct (Np e He). by rewrite <- Pe, Pw.
  - intros f Hf Vf. apply elem_of_app in Hf as [Hf|Hf]; [by apply (cv_ext f Hf Vf)|]. apply list_elem_of_singleton in Hf as ->. right.
    assert (synced (cfg s) fs (newExternal p)) as Y by (unfold synced; cbn [newExternal e_path]; rewrite NF; exact (no_leaf _ _ _ N)).
    cbn [phase set_cfg cfg]. unfold phase_ok in cv_phase. destruct (phase s) as [| | | |i w|i q t| | | | | | | |] eqn:Ep; try exact Y; [by right|].
    right. split; [|exact Y]. destruct cv_phase as (_ & e & He & _ & ->). by apply Nq.
  - unfold root_covered in *. cbn [phase set_cfg cfg rootDirty with_files].
    destruct (phase s) eqn:Ep; try (destruct cv_root as [?|R]; [by left|right; by apply NR]); by apply NR.
  - unfold phase_ok in *. cbn [phase set_cfg cfg externals with_files]. pose proof (no_file _ _ _ N) as Nf. destruct (phase s) eqn:Ep; try done.
    + destruct cv_phase as (e & He & R). exists e. split; [apply elem_of_app; by left|done].
    + destruct cv_phase as (T & e & He & R). split; [done|]. exists e. split; [apply elem_of_app; by left|done].
    + destruct cv_phase as (q & -> & R). exists q. split; [done|]. intros f Hf. apply elem_of_app in Hf as [Hf|Hf]; [by apply R|].
      apply list_elem_of_singleton in Hf as ->. cbn. intros ->. by apply Nf.
Qed.

(** ** Any interleaving *)

Inductive istep : sv * F -> sv * F -> Prop :=
| I_worker s fs : prints_ok s -> istep (s, fs) (result (saveStep stateDir s) fs, after (saveStep stateDir s) fs)
| I_set s fs ss val silent sender sh c' n : set_ok s ss val ->
    commit (cfg s) silent [opAppendKV (chr "S") (path_of ss) val] sender sh = Some (c', n) -> istep (s, fs) (set_cfg s c', fs)
| I_new s fs prefix : new_ok s fs (stripDots prefix) -> istep (s, fs) (storageNewTreeFile stateDir prefix s, fs)
| I_blob s fs p d : foreign stateDir p -> istep (s, fs) (storagePersistBlob p d s, fs)
| I_poke s fs : istep (s, fs) (requestSave s, fs)
| I_stop s fs : istep (s, fs) (storageStopFlushing s, fs).

Lemma covered_rest (s s' : sv) fs : covered stateDir s fs -> cfg s' = cfg s -> phase s' = phase s ->
  Forall (fun j => foreign stateDir j.1) (pendingBlobs s') -> covered stateDir s' fs.
Proof.
  intros K Ec Ep B. destruct s as [c b bl pk w g], s' as [c' b' bl' pk' w' g']. cbn in Ec, Ep. subst c' w'. by destruct K.
Qed.

Lemma putBlob_foreign l p d : Forall (fun j => foreign stateDir j.1) l -> foreign stateDir p ->
  Forall (fun j => foreign stateDir j.1) (putBlob l p d).
Proof.
  induction l as [|[q x] l IH]; intros A Fp; cbn [putBlob]; [by apply Forall_singleton|]. apply Forall_cons in A as [A1 A2].
  destruct (streq q p); constructor; try done. by apply IH.
Qed.

Lemma newTreeFile_fresh s fs prefix : new_ok s fs (stripDots prefix) ->
  storageNewTreeFile stateDir prefix s =
  set_cfg s (with_files (cfg s) (exts s ++ [newExternal (stripDots prefix)]) (rootDirty (cfg s))).
Proof using JL.
  intros N. pose proof (no_len _ _ _ N). unfold storageNewTreeFile.
  rewrite (proj2 (Z.eqb_neq _ _)), (proj2 (Z.leb_gt _ _)) by lia. rewrite undelete_fresh; [done|].
  intros e He E. pose proof (no_apart _ _ _ N e He) as A. unfold segs in A. by rewrite E, apart_irrefl in A.
Qed.

(** Where the stores' images go is none of the tree's files, and the heap has room. *)
Definition sdb_elsewhere : Prop := forall d, let '(_, jobs, deletes) := sdbDirtyImages d in
  Forall (foreign stateDir) deletes /\ Forall (fun j => foreign stateDir j.1) jobs.
Definition heap_ok : Prop := forall (fs : F) n, gp_alloc fs n = true.

Lemma istep_covered x y : heap_ok -> sdb_elsewhere -> istep x y -> covered stateDir x.1 x.2 -> covered stateDir y.1 y.2.
Proof using All.
  intros HA DB [s fs PR|s fs ss val silent sender sh c' n SO E|s fs prefix N|s fs p d Fp|s fs|s fs] K; cbn [fst snd] in *.
  - by apply (worker_covered stateDir HA DB).
  - by eapply (set_covered stateDir HA DB).
  - rewrite (newTreeFile_fresh s fs) by done. by apply new_covered.
  - apply (covered_rest s); [done|done|done|]. apply putBlob_foreign; [apply K|done].
  - apply (covered_rest s); [done|done|done|apply K].
  - apply (covered_rest s); [done|done|done|apply K].
Qed.

(** ** The worker comes back to its wait *)

Lemma bind_result {A B} (m : io F A) (k : A -> io F B) fs : result (bind m k) fs = result (k (result m fs)) (after m fs).
Proof. apply result_bind. Qed.

Lemma wait_dec (w : wphase) : w = W_wait \/ w <> W_wait.
Proof. destruct w; [left; reflexivity|right; discriminate..]. Qed.

Definition late (w : wphase) : bool :=
  match w with W_wait | W_dbFiles _ _ | W_del | W_delFile _ | W_sems => true | _ => false end.

Definition late_rank (s : sv) : nat :=
  match phase s with
  | W_dbFiles ds js => 3 + 2 * length (exts s) + length ds + length js
  | W_del => 2 + 2 * length (exts s)
  | W_delFile _ => 3 + 2 * length (exts s)
  | W_sems => 1
  | _ => 0
  end.

Definition early_rank (s : sv) : nat :=
  let n := length (exts s) in
  match phase s with
  | W_blobs jobs => 6 + 3 * n + length jobs
  | W_settings => 5 + 3 * n
  | W_ext i => 4 + 3 * (n - i)
  | W_snap i _ => 6 + 3 * (n - i)
  | W_file i _ _ => 5 + 3 * (n - i)
  | W_root => 3
  | W_rootFile _ => 2
  | W_rootClear => 1
  | _ => 0
  end.

Notation next s fs := (result (saveStep stateDir s) fs).
Notation next_fs s fs := (after (saveStep stateDir s) fs).

Lemma takeDeleted_length l e rest : takeDeleted l = Some (e, rest) -> length l = Datatypes.S (length rest).
Proof. intros E. destruct (takeDeleted_spec _ _ _ E) as (a & b & -> & -> & _). rewrite !length_app. cbn. lia. Qed.

Lemma late_step s fs : late (phase s) = true -> phase s <> W_wait ->
  late (phase (next s fs)) = true /\ (late_rank (next s fs) < late_rank s)%nat.
Proof.
  intros E N. unfold late_rank, saveStep. destruct (phase s) as [| | | | | | | | | |[|p ds] [|[q raw] js]| | |] eqn:Ep; try done;
    rewrite ?bind_result; cbn; try (split; [done|lia]).
  destruct (takeDeleted (exts s)) as [[e rest]|] eqn:Et; cbn; [|split; [done|lia]]. apply takeDeleted_length in Et. split; [done|lia].
Qed.

Lemma early_step s fs : late (phase s) = false ->
  late (phase (next s fs)) = true \/ (early_rank (next s fs) < early_rank s)%nat \/ phase (next s fs) = W_db.
Proof.
  intros E. unfold early_rank, saveStep. destruct (phase s) as [|[|[p d] jobs]| |i|i w|i p t| | | | | | | |] eqn:Ep; try done;
    rewrite ?bind_result; cbn; try (right; left; lia); try (by right; right).
  - destruct (flushStopped s); cbn; [by left|right; left; lia].
  - destruct (exts s !! i) as [e|] eqn:Ei; [|cbn; right; left; lia]. apply lookup_lt_Some in Ei.
    destruct (e_dirty e && negb (e_pendingDelete e)); cbn; rewrite ?length_insert; right; left; lia.
  - destruct (externalText (cfg s) (e_prefix w)); cbn; right; left; lia.
  - destruct (rootDirty (cfg s)); [|cbn; by right; right]. destruct (rootSnapshot (cfg s)) as [c [t|]]; cbn; right; left; lia.
  - destruct (sdbDirtyImages (db (cfg s))) as [[d jobs] deletes]. cbn. by left.
Qed.

(** Reasoning along a flush: what holds of a waiting worker and, for any other, of the
    state before a step when it holds of the one after. *)
Lemma flush_ind (P : sv -> F -> Prop) :
  (forall s fs, phase s = W_wait -> P s fs) -> (forall s fs, phase s <> W_wait -> P (next s fs) (next_fs s fs) -> P s fs) ->
  forall s fs, P s fs.
Proof.
  intros Pw Ps.
  assert (forall n s fs, (late_rank s < n)%nat -> late (phase s) = true -> P s fs) as PL.
  { induction n as [|n IH]; intros s fs R E; [lia|]. destruct (wait_dec (phase s)) as [W|W]; [by apply Pw|].
    destruct (late_step s fs E W) as [E' R']. apply Ps; [done|]. apply IH; [lia|done]. }
  assert (forall s fs, phase s = W_db -> P s fs) as PD.
  { intros s fs E. apply Ps; [by rewrite E|]. apply (PL (Datatypes.S (late_rank (next s fs)))); [lia|]. unfold saveStep. rewrite E.
    by destruct (sdbDirtyImages (db (cfg s))) as [[d jobs] deletes]. }
  assert (forall n s fs, (early_rank s < n)%nat -> late (phase s) = false -> P s fs) as PE.
  { induction n as [|n IH]; intros s fs R E; [lia|]. apply Ps; [by intros W; rewrite W in E|].
    destruct (early_step s fs E) as [E'|[R'|E']]; [by eapply PL, E'; apply Nat.lt_succ_diag_r| |by apply PD].
    destruct (late (phase (next s fs))) eqn:E'; [by eapply PL, E'; apply Nat.lt_succ_diag_r|]. apply IH; [lia|done]. }
  intros s fs. destruct (late (phase s)) eqn:E; [by eapply PL, E; apply Nat.lt_succ_diag_r|by eapply PE, E; apply Nat.lt_succ_diag_r].
Qed.

Lemma flushLoop_wait fuel s fs : phase s = W_wait -> result (flushLoop stateDir fuel s) fs = Some s /\ after (flushLoop stateDir fuel s) fs = fs.
Proof. intros E. destruct fuel; cbn [flushLoop]; by rewrite E. Qed.

Lemma flushLoop_step fuel s fs : phase s <> W_wait ->
  result (flushLoop stateDir (Datatypes.S fuel) s) fs = result (flushLoop stateDir fuel (next s fs)) (next_fs s fs) /\
  after (flushLoop stateDir (Datatypes.S fuel) s) fs = after (flushLoop stateDir fuel (next s fs)) (next_fs s fs).
Proof.
  intros N. cbn [flushLoop]. destruct (phase s) eqn:E; try done; rewrite result_bind, after_bind; done.
Qed.

Lemma flush_ends s fs : exists fuel s', result (flushLoop stateDir fuel s) fs = Some s' /\ phase s' = W_wait.
Proof.
  revert s fs. apply flush_ind.
  - intros s fs E. exists 0%nat, s. split; [by apply flushLoop_wait|done].
  - intros s fs N (fuel & s' & E & W). exists (Datatypes.S fuel), s'. split; [|done]. by rewrite (proj1 (flushLoop_step fuel s fs N)).
Qed.

(** ** A flush that nothing interrupts *)

Definition clean_upto (i : nat) (s : sv) : Prop := forall j e, (j < i)%nat -> exts s !! j = Some e -> live e -> e_dirty e = false.
Definition clean (s : sv) : Prop := forall e, e ∈ exts s -> live e -> e_dirty e = false.

(** Every text the flush will ask for can be printed and read back. *)
Definition all_printable (c : cfg_st D) : Prop :=
  (forall e n, e ∈ externals c -> navigatePath (root c) (e_prefix e) = Some n -> printable n) /\
  printable (rootParts (detachAll (cfgRoot c) (externals c)).1).

(** What is done and what is ahead at each point of it. *)
Definition stage (s : sv) : Prop :=
  match phase s with
  | W_wait => True
  | W_blobs _ | W_settings => all_printable (cfg s) /\ flushStopped s = false
  | W_ext i | W_snap i _ | W_file i _ _ => all_printable (cfg s) /\ clean_upto i s
  | W_root => all_printable (cfg s) /\ clean s
  | W_rootFile _ | W_rootClear => clean s
  | W_db | W_dbFiles _ _ | W_del | W_delFile _ => clean s /\ rootDirty (cfg s) = false
  | W_sems => clean s /\ rootDirty (cfg s) = false /\ Forall live (exts s)
  end.

Lemma stage_prints s fs : covered stateDir s fs -> stage s -> prints_ok s.
Proof.
  intros K G. unfold stage, prints_ok in *. destruct (phase s) eqn:Ep; try done.
  - destruct G as [[A _] _]. pose proof (cv_phase _ _ _ K) as P. unfold phase_ok in P. rewrite Ep in P. destruct P as (e & He & _ & -> & _).
    intros n. by apply A.
  - by destruct G as [[_ A] _].
Qed.

Lemma detachAll_same l l' t : same_exts l l' -> detachAll t l' = detachAll t l.
Proof.
  intros SE. unfold detachAll. generalize (t, @nil (bytes * json)) as st. induction SE as [|x y l l' (E1 & _ & E3) _ IH]; intros st; [done|].
  cbn [foldl]. rewrite IH. f_equal. unfold detachOne. by rewrite E1, E3.
Qed.

Lemma printable_same c c' : cfgRoot c' = cfgRoot c -> same_exts (externals c) (externals c') -> all_printable c -> all_printable c'.
Proof.
  intros T SE [A B]. split.
  - intros f n Hf. destruct (same_exts_elem _ _ _ SE Hf) as (e & He & (E1 & _)). unfold root. rewrite T, <- E1. by apply A.
  - by rewrite T, (detachAll_same _ _ _ SE).
Qed.

Lemma clean_all s i : exts s !! i = None -> clean_upto i s -> clean s.
Proof.
  intros N A e He. apply list_elem_of_lookup_1 in He as [j Hj]. apply (A j); [|done]. apply lookup_lt_Some in Hj. apply lookup_ge_None in N. lia.
Qed.

(** The steps keep it, the values of the tree and what is to be given. *)
Lemma stage_step s fs : covered stateDir s fs -> stage s -> phase s <> W_wait ->
  phase (next s fs) <> W_wait -> stage (next s fs).
Proof.
  intros K G N N'. unfold stage, saveStep in *. destruct (phase s) as [|[|[p d] jobs]| |i|i w|i p t| |t| | |[|p ds] [|[q raw] js]| | |] eqn:Ep; try done;
    rewrite ?bind_result in *; try (by cbn in *).
  - destruct G as [A B]. rewrite B in *. split; [exact A|]. intros j e Hj. lia.
  - destruct G as [A B]. destruct (exts s !! i) as [e|] eqn:Ei; [|split; [exact A|by eapply clean_all]].
    destruct (e_dirty e && negb (e_pendingDelete e)) eqn:Ed.
    + split; [apply (printable_same (cfg s)); [done|cbn [cfg set_phase set_cfg externals with_files]; by apply same_exts_insert|exact A]|]. intros j f Hj Hf Vf.
      cbn [cfg set_phase set_cfg externals with_files] in Hf. apply list_lookup_insert_Some in Hf as [(-> & <- & _)|[Nj Hf]]; [done|].
      apply (B j f); [lia|done|done].
    + split; [exact A|]. intros j f Hj Hf Vf. cbn [cfg set_phase] in Hf. destruct (decide (j = i)) as [->|Nj]; [|apply (B j f); [lia|done|done]].
      assert (Some e = Some f) as [= ->] by (rewrite <- Ei; exact Hf). unfold live in Vf. rewrite Vf in Ed. by rewrite andb_true_r in Ed.
  - destruct (externalText (cfg s) (e_prefix w)); exact G.
  - destruct G as [_ B]. destruct (rootDirty (cfg s)) eqn:Er; [|by split].
    unfold rootSnapshot in *. destruct (detachAll (tree s) (exts s)) as [r svd]. cbn beta iota zeta in *.
    destruct (cJSON_PrintUnformatted (rootParts r)); exact B.
  - destruct G. destruct (sdbDirtyImages (db (cfg s))) as [[d jobs] deletes]. by split.
  - destruct G as [A B]. destruct (takeDeleted (exts s)) as [[e rest]|] eqn:Et.
    + cbn. split; [|done]. intros f Hf Vf. apply A; [|done]. destruct (takeDeleted_spec _ _ _ Et) as (a & b & El & -> & _). rewrite El.
      apply elem_of_app in Hf as [?|?]; apply elem_of_app; [by left|right; by right].
    + cbn. split_and!; [done|done|]. clear -Et. induction (exts s) as [|x l IH]; [done|]. cbn in Et.
      destruct (e_pendingDelete x) eqn:Ex; [done|]. destruct (takeDeleted l) as [[y r]|]; [done|]. constructor; [done|by apply IH].
Qed.

Lemma values_step s fs : covered stateDir s fs -> forall ss, leaf (tree (next s fs)) ss = leaf (tree s) ss.
Proof.
  intros K ss. unfold saveStep. destruct (phase s) as [|[|[p d] jobs]| |i|i w|i p t| |t| | |[|p ds] [|[q raw] js]| | |] eqn:Ep;
    rewrite ?bind_result; try done.
  - by destruct (poked s).
  - by destruct (flushStopped s).
  - destruct (exts s !! i) as [e|]; [|done]. by destruct (e_dirty e && negb (e_pendingDelete e)).
  - by destruct (externalText (cfg s) (e_prefix w)).
  - destruct (rootDirty (cfg s)); [|done]. unfold rootSnapshot.
    pose proof (detachAll_ok (exts s) (ext_prefix_ok _ _ (cv_exts _ _ _ K)) (cv_apart _ _ _ K) (tree s) (cv_good _ _ _ K) (cv_obj _ _ _ K)) as DA.
    destruct (detachAll (tree s) (exts s)) as [r svd]. destruct DA as (Gr & _ & Re). destruct (Re r Gr ltac:(done)) as [_ TR].
    by apply teq_leaf.
  - by destruct (sdbDirtyImages (db (cfg s))) as [[d jobs] deletes].
  - by destruct (takeDeleted (exts s)) as [[e rest]|].
Qed.

Definition settled (s : sv) : Prop := phase s = W_wait /\ clean s /\ rootDirty (cfg s) = false /\ Forall live (exts s).

Lemma settles s fs : phase s <> W_wait -> stage s -> phase (next s fs) = W_wait -> settled (next s fs).
Proof.
  intros N G. unfold settled, stage, saveStep in *. destruct (phase s) as [|[|[p d] jobs]| |i|i w|i p t| |t| | |[|p ds] [|[q raw] js]| | |] eqn:Ep;
    rewrite ?bind_result; try done.
  - by destruct (flushStopped s).
  - destruct (exts s !! i) as [e|]; [|done]. by destruct (e_dirty e && negb (e_pendingDelete e)).
  - by destruct (externalText (cfg s) (e_prefix w)).
  - destruct (rootDirty (cfg s)); [|done]. unfold rootSnapshot. destruct (detachAll (tree s) (exts s)) as [r svd].
    by destruct (cJSON_PrintUnformatted (rootParts r)).
  - by destruct (sdbDirtyImages (db (cfg s))) as [[d jobs] deletes].
  - by destruct (takeDeleted (exts s)) as [[e rest]|].
Qed.

Lemma flush_settles s fs : heap_ok -> sdb_elsewhere -> covered stateDir s fs -> stage s -> phase s <> W_wait ->
  exists fuel s', result (flushLoop stateDir fuel s) fs = Some s' /\ covered stateDir s' (after (flushLoop stateDir fuel s) fs) /\
    settled s' /\ forall ss, leaf (tree s') ss = leaf (tree s) ss.
Proof using All.
  intros HA DB. revert s fs. apply (flush_ind (fun s fs => covered stateDir s fs -> stage s -> phase s <> W_wait -> _)); [done|].
  intros s fs N IH K G _. pose proof (worker_covered stateDir HA DB s fs K (stage_prints s fs K G)) as K'.
  pose proof (values_step s fs K) as Vs.
  destruct (wait_dec (phase (next s fs))) as [W|W].
  - exists 1%nat, (next s fs). destruct (flushLoop_step 0 s fs N) as [-> ->]. destruct (flushLoop_wait 0 (next s fs) (next_fs s fs) W) as [-> ->].
    split_and!; [done|done|by apply settles|done].
  - destruct (IH K' (stage_step s fs K G N W) W) as (fuel & s' & E & K2 & Z & Vt). exists (Datatypes.S fuel), s'.
    destruct (flushLoop_step fuel s fs N) as [-> ->]. split_and!; [done|done|done|]. intros ss. by rewrite Vt.
Qed.

(** The same flush, as steps among which others could have come. *)
Lemma flush_steps s fs : heap_ok -> sdb_elsewhere -> covered stateDir s fs -> stage s -> phase s <> W_wait ->
  exists s' fs', rtc istep (s, fs) (s', fs') /\ settled s' /\ forall ss, leaf (tree s') ss = leaf (tree s) ss.
Proof using All.
  intros HA DB. revert s fs. apply (flush_ind (fun s fs => covered stateDir s fs -> stage s -> phase s <> W_wait -> _)); [done|].
  intros s fs N IH K G _. pose proof (stage_prints s fs K G) as PR. pose proof (worker_covered stateDir HA DB s fs K PR) as K'.
  pose proof (values_step s fs K) as Vs. destruct (wait_dec (phase (next s fs))) as [W|W].
  - exists (next s fs), (next_fs s fs). split_and!; [by apply rtc_once, I_worker|by apply settles|done].
  - destruct (IH K' (stage_step s fs K G N W) W) as (s' & fs' & R & Z & Vt). exists s', fs'. split_and!; [|done|].
    + eapply rtc_l; [by apply I_worker|exact R].
    + intros ss. by rewrite Vt.
Qed.

End Work.
