(* ===== verification/PersistLoad.v ===== *)
(** * storage: what is loaded after a flush

    [storageLoad] finds the externals' files by listing their directory and grafts them on
    the root file, in whatever order: from files that hold the tree, the tree's values. *)

From stdpp Require Import gmap.
From S2P Require Import Prelude CLib Targz TargzRoundtrip StorageDb StorageDbFile Config ConfigTree ConfigOps ConfigSet.
From S2P Require Import Vfs Persist PersistFiles PersistTree PersistSet PersistFlush PersistWork.
Import Tree Ops Actor Files Externals Flush Load.
Open Scope Z_scope.
Open Scope spangap_scope.

Section Scan.
Context (stateDir : bytes) (SD : Zlen (stateDir ++ EXTERNAL_DIR) < 64).

Lemma scanDir_full : scanDir stateDir = stateDir ++ EXTERNAL_DIR.
Proof using SD. unfold scanDir, trunc. apply take_ge. unfold Zlen in SD. lia. Qed.

Lemma stemOf_gz p : 0 < Zlen p -> stemOf (p ++ $ ".json.gz") = Some p.
Proof.
  intros P. unfold stemOf. rewrite Zlen_app, length_app. change (Zlen ($ ".json.gz")) with 8. change (length ($ ".json.gz")) with 8%nat.
  rewrite (proj2 (Z.ltb_lt _ _)) by lia. replace (length p + 8 - 8)%nat with (length p) by lia.
  rewrite drop_app_length, take_app_length, (proj2 (streq_true _ _)) by done. done.
Qed.

Lemma stemOf_plain p : 0 < Zlen p -> stemOf (p ++ $ ".json") = Some p.
Proof.
  intros P. unfold stemOf. rewrite Zlen_app, length_app. change (Zlen ($ ".json")) with 5. change (length ($ ".json")) with 5%nat.
  assert (streq (drop (length p + 5 - 8) (p ++ $ ".json")) ($ ".json.gz") = false) as ->.
  { apply streq_false. intros E. apply (f_equal last) in E. change ($ ".json") with ($ ".jso" ++ [110]) in E. rewrite app_assoc in E.
    rewrite drop_app_le, last_snoc in E by (rewrite length_app; cbn; lia). done. }
  rewrite andb_false_r, (proj2 (Z.ltb_lt _ _)) by lia. replace (length p + 5 - 5)%nat with (length p) by lia.
  rewrite drop_app_length, take_app_length, (proj2 (streq_true _ _)) by done. done.
Qed.

(** What the scan makes of a listing. *)
Lemma scan_paths names l : Forall (fun e => e_path e = externalPath stateDir (e_prefix e)) l ->
  Forall (fun e => e_path e = externalPath stateDir (e_prefix e)) (foldl (scanOne stateDir) l names).
Proof using SD.
  revert l. induction names as [|n names IH]; intros l A; [done|]. cbn [foldl]. apply IH. unfold scanOne. destruct (stemOf n) as [p|]; [|done].
  destruct (existsb _ l); [done|]. apply Forall_app. split; [done|]. apply Forall_singleton. cbn [e_path e_prefix]. rewrite scanDir_full.
  unfold externalPath. by rewrite <- !app_assoc.
Qed.

Lemma scan_keeps names l p : (exists e, e ∈ l /\ e_prefix e = p) -> exists e, e ∈ foldl (scanOne stateDir) l names /\ e_prefix e = p.
Proof.
  revert l. induction names as [|n names IH]; intros l A; [done|]. cbn [foldl]. apply IH. unfold scanOne. destruct (stemOf n) as [q|]; [|done].
  destruct (existsb _ l); [done|]. destruct A as (e & He & E). exists e. split; [apply elem_of_app; by left|done].
Qed.

Lemma scan_finds names n p l : n ∈ names -> stemOf n = Some p -> exists e, e ∈ foldl (scanOne stateDir) l names /\ e_prefix e = p.
Proof.
  revert l. induction names as [|m names IH]; intros l Hn E; [by apply not_elem_of_nil in Hn|]. cbn [foldl].
  apply elem_of_cons in Hn as [<-|Hn]; [|by apply IH]. apply scan_keeps. unfold scanOne. rewrite E.
  destruct (existsb (fun e => streq (e_prefix e) p) l) eqn:X.
  - apply existsb_exists in X as (e & He & Q). apply streq_true in Q. exists e. split; [by apply list_elem_of_In|done].
  - eexists. split; [apply elem_of_app; right; by left|done].
Qed.

Lemma insert_ext_perm e l : insert_ext e l ≡ₚ e :: l.
Proof.
  induction l as [|x l IH]; [done|]. cbn [insert_ext]. destruct (Zlen (e_prefix x) <=? Zlen (e_prefix e)); [|done]. rewrite IH. apply perm_swap.
Qed.

Lemma sort_ext_perm l : sort_ext l ≡ₚ l.
Proof.
  unfold sort_ext. assert (forall a, foldl (fun a e => insert_ext e a) a l ≡ₚ a ++ l) as P; [|apply (P [])].
  induction l as [|e l IH]; intros a; cbn [foldl]; [by rewrite app_nil_r|]. rewrite IH, insert_ext_perm. cbn [app].
  by rewrite Permutation_middle.
Qed.

End Scan.

Section Load.
Context {D F C I : Type} `{L : VfsLaws F} `{S : !VfsSound F true} `{H : Heap F} `{TD : Tdefl C} `{TI : Tinfl I} `{CR : Crc}
        {stream : bytes -> bytes -> Prop} `{!TdeflLaws TD stream} `{!TinflOneShot TI stream} `{!CrcLaws CR}.
Context `{CJ : CJson} `{JL : !CJsonLaws CJ} `{CP : CJsonParse} `{JT : !CJsonText CJ CP}.
Context `{SR : SdbRouter D} `{SF : SdbFiles D}.
Context (stateDir : bytes) (SD : Zlen (stateDir ++ EXTERNAL_DIR) < 64).
Context (HA : heap_ok (F := F)).
Notation oget := (kget cj_same).
Notation same := cj_same.
Notation sv := (save_st D).
Notation tree s := (cfgRoot (cfg s)).
Notation exts s := (externals (cfg s)).

(** A file that can be parsed is found. *)
Lemma scan_complete fs p : 0 < Zlen p < 56 -> fileJson fs (externalPath stateDir p) <> None ->
  exists e, e ∈ scanExternals stateDir fs /\ e_prefix e = p.
Proof using SD HA S.
  intros P N. set (b := externalPath stateDir p) in *.
  assert (path_ok b) as Pb by (apply (base_ok stateDir); right; by eexists).
  assert (exists n, is_Some (file fs ((stateDir ++ EXTERNAL_DIR) ++ [chr "/"] ++ n)) /\ stemOf (trunc 64 n) = Some p) as (n & Hn & Es).
  { unfold fileJson, textJson in N. rewrite (readJson_file HA) in N by done. unfold b in N. unfold externalPath in N.
    assert (forall x, Zlen x <= 8 -> trunc 64 (p ++ x) = p ++ x) as TR.
    { intros x Zx. unfold trunc. apply take_ge. rewrite length_app. unfold Zlen in *. lia. }
    destruct (file fs (externalPath stateDir p ++ GZ)) as [c|] eqn:E1; [|destruct (file fs (externalPath stateDir p)) as [c|] eqn:E2].
    - exists (p ++ $ ".json.gz"). rewrite TR, stemOf_gz by (done || lia). split; [|done]. exists c. rewrite <- E1. f_equal.
      unfold externalPath, GZ. rewrite <- !app_assoc. done.
    - exists (p ++ $ ".json"). rewrite TR, stemOf_plain by (done || lia). split; [|done]. exists c. rewrite <- E2. f_equal.
      unfold externalPath. by rewrite <- !app_assoc.
    - unfold externalPath in E1, E2. by rewrite E1, E2 in N. }
  unfold scanExternals, fs_dir. rewrite scanDir_full by done. destruct (readdir_ok fs _ n Hn) as [ns Ed]. rewrite Ed. cbn [option_map].
  pose proof (dir_file fs _ ns n Ed Hn) as Hin.
  destruct (scan_finds stateDir (map (trunc 64) ns) (trunc 64 n) p []) as (e & He & Ep); [by apply list_elem_of_fmap_2|done|].
  exists e. split; [|done]. by rewrite sort_ext_perm.
Qed.

Lemma scan_paths_ok fs : Forall (fun e => e_path e = externalPath stateDir (e_prefix e)) (scanExternals stateDir fs).
Proof using SD.
  unfold scanExternals. destruct (fs_dir fs (scanDir stateDir)) as [ns|]; [|constructor].
  rewrite sort_ext_perm. by apply scan_paths.
Qed.

(** ** Grafting the externals *)

Lemma under_length ps q : under ps q = true -> (length ps <= length q)%nat.
Proof. revert q. induction ps as [|p ps IH]; intros [|x q] U; cbn in *; [lia|lia|done|]. apply andb_true_iff in U as [_ U]. specialize (IH _ U). lia. Qed.

Lemma graft_objpath_self ps v l : Forall str_ok ps -> ps <> [] -> jgood v -> jgood (JNode false l) -> objpath l ps ->
  objpath (graft ps l v) ps.
Proof using JL.
  intros A N Gv G O. destruct (graft_ok ps v A N Gv l G O) as (_ & _ & B). apply at_above. intros q rr E Q R.
  assert (under ps q = false) as Uq.
  { destruct (under ps q) eqn:U; [|done]. apply under_length in U. rewrite E, length_app in U. destruct rr; [done|cbn in U; lia]. }
  destruct (B q Uq) as [->|[_ ->]]; [|by right]. by eapply (proj1 (at_above l ps)).
Qed.

(** ** What files are loaded as

    [docs E g]: the files of [g] are those of the externals [E], parse, and fit together. *)
Record docs (E : list external_t) (g : F) : Prop := {
  dc_ok : Forall (ext_ok stateDir) E;
  dc_apart : all_apart E;
  dc_read : forall b, base stateDir b -> readJsonFile g b <> None;
  dc_stale : forall p, fileJson g (externalPath stateDir p) <> None -> exists e, e ∈ E /\ e_prefix e = p;
  dc_good : forall e n, e ∈ E -> fileJson g (e_path e) = Some n -> jgood n;
  dc_root : match fileJson g (rootPath stateDir) with
            | None => True
            | Some (JNode false l) => jgood (JNode false l) /\ forall e, e ∈ E -> fileJson g (e_path e) <> None -> objpath l (segs e)
            | Some _ => False
            end
}.

(** The value of a key: in the file of its external, else in the root file. *)
Definition root_leaf (g : F) (ss : list bytes) : option bytes :=
  match fileJson g (rootPath stateDir) with Some n => lval (navS (Some n) ss) | None => None end.

Definition leaf_upto (E l : list external_t) (g : F) (ss : list bytes) : option bytes :=
  match find (fun e => under (segs e) ss) E with
  | Some e =>
      match fileJson g (e_path e) with
      | Some n => if existsb (fun x => streq (e_prefix x) (e_prefix e)) l then lval (navS (Some n) (drop (length (segs e)) ss)) else root_leaf g ss
      | None => root_leaf g ss
      end
  | None => root_leaf g ss
  end.

Definition disk_leaf (E : list external_t) (g : F) (ss : list bytes) : option bytes :=
  match find (fun e => under (segs e) ss) E with
  | Some e =>
      match fileJson g (e_path e) with
      | Some n => lval (navS (Some n) (drop (length (segs e)) ss))
      | None => root_leaf g ss
      end
  | None => root_leaf g ss
  end.

Lemma find_under E e ss : all_apart E -> e ∈ E -> under (segs e) ss = true -> find (fun e => under (segs e) ss) E = Some e.
Proof using JL.
  intros A He U. destruct (find (fun e => under (segs e) ss) E) as [f|] eqn:Ef.
  - apply find_some in Ef as [Hf Uf]. apply list_elem_of_In in Hf. f_equal. destruct (decide (f = e)) as [|N]; [done|].
    pose proof (apart_of _ _ _ A Hf He N) as Ap. by rewrite (apart_under _ _ _ Ap Uf) in U.
  - pose proof (find_none _ _ Ef e (proj1 (list_elem_of_In _ _) He)) as X. cbn in X. congruence.
Qed.

Lemma saved_under ps ss : under ps ss = true -> ps <> [] -> saved ss = saved ps.
Proof using JL.
  destruct ps as [|p ps]; [done|]. destruct ss as [|x ss]; [done|]. cbn [under saved]. rewrite andb_true_iff. intros [E _] _.
  by rewrite !(cj_sym _ x), !(cj_sym _ p), !(same_subst _ _ _ E).
Qed.

Definition partial (E l : list external_t) (g : F) (r : kids) : Prop :=
  jgood (JNode false r) /\ (forall e, e ∈ E -> fileJson g (e_path e) <> None -> objpath r (segs e)) /\
  forall ss, leaf r ss = leaf_upto E l g ss.

Lemma load_one E g l r x : docs E g -> partial E l g r -> e_path x = externalPath stateDir (e_prefix x) ->
  exists r', loadOne g (Some r) x = Some r' /\ partial E (l ++ [x]) g r'.
Proof using All.
  intros K (G & O & Lf) Px. cbn [loadOne mbind option_bind].
  assert (base stateDir (e_path x)) as B by (right; rewrite Px; by eexists).
  pose proof (dc_read _ _ K _ B) as Rd. destruct (readJsonFile g (e_path x)) as [text|] eqn:Er; [|done]. cbn [mbind option_bind].
  assert (fileJson g (e_path x) = t ← text; cJSON_Parse t) as FJ by (unfold fileJson; by rewrite Er).
  rewrite <- FJ. eexists. split; [reflexivity|].
  assert (forall e, e ∈ E -> e_path e = externalPath stateDir (e_prefix e)) as PE
    by (intros e He; by destruct (proj1 (Forall_forall _ _) (dc_ok _ _ K) e He) as (_ & _ & ?)).
  destruct (fileJson g (e_path x)) as [node|] eqn:En.
  - assert (exists e, e ∈ E /\ e_prefix e = e_prefix x) as (e & He & Ee) by (apply (dc_stale _ _ K); by rewrite <- Px, En).
    assert (e_path e = e_path x) as Ex by (by rewrite PE, Ee, <- Px). rewrite <- Ex in En. pose proof (dc_good _ _ K e node He En) as Gn.
    pose proof (proj1 (Forall_forall _ _) (dc_ok _ _ K) e He) as ([Ge Se] & _ & _). assert (objpath r (segs e)) as Oe by (apply O; [done|by rewrite En]).
    rewrite <- Ee, (segs_path e), attachAtPath_graft by (done || apply segs_ne). split_and!; [by apply graft_ok; [|apply segs_ne|..]| |].
    + intros f Hf Nf. destruct (decide (f = e)) as [->|N]; [by apply graft_objpath_self; [|apply segs_ne|..]|].
      apply graft_objpath; [done|apply segs_ne|done|done|done| |by apply O].
      pose proof (apart_of _ _ _ (dc_apart _ _ K) He Hf (not_eq_sym N)) as A. by apply apart_split in A as [A _].
    + intros ss. rewrite graft_leaf by (done || apply segs_ne). destruct (under (segs e) ss) eqn:U.
      * unfold leaf_upto. rewrite (find_under _ _ _ (dc_apart _ _ K) He U), En, existsb_app. cbn [existsb].
        by rewrite Ee, (proj2 (streq_true _ _)), !orb_true_r by done.
      * rewrite Lf. unfold leaf_upto. destruct (find (fun e => under (segs e) ss) E) as [f|] eqn:Ef; [|done].
        destruct (fileJson g (e_path f)); [|done]. rewrite existsb_app. cbn [existsb].
        assert (streq (e_prefix x) (e_prefix f) = false) as ->; [|by rewrite !orb_false_r]. apply find_some in Ef as [Hf Uf]. apply list_elem_of_In in Hf.
        apply streq_false. intros Q. rewrite (prefix_inj f e _ (dc_apart _ _ K) Hf He) in Uf by congruence. congruence.
  - split_and!; [done|done|]. intros ss. rewrite Lf. unfold leaf_upto. destruct (find (fun e => under (segs e) ss) E) as [f|] eqn:Ef; [|done].
    destruct (fileJson g (e_path f)) eqn:Fn; [|done]. rewrite existsb_app. cbn [existsb]. assert (streq (e_prefix x) (e_prefix f) = false) as ->; [|by rewrite !orb_false_r].
    apply streq_false. intros Q. apply find_some in Ef as [Hf _]. apply list_elem_of_In in Hf. rewrite PE, <- Q, <- Px in Fn by done. congruence.
Qed.

Lemma load_all E g l : docs E g -> Forall (fun x => e_path x = externalPath stateDir (e_prefix x)) l ->
  forall l0 r, partial E l0 g r -> exists r', loadExternals g r l = Some r' /\ partial E (l0 ++ l) g r'.
Proof using All.
  intros K A. unfold loadExternals. induction A as [|x l Px _ IH]; intros l0 r P; [exists r; by rewrite app_nil_r|].
  destruct (load_one E g l0 r x K P Px) as (r1 & E1 & P1). destruct (IH _ _ P1) as (r2 & E2 & P2). exists r2. cbn [foldl].
  rewrite E1. split; [done|]. by rewrite <- app_assoc in P2.
Qed.

Lemma partial_root E g : docs E g ->
  exists r, match fileJson g (rootPath stateDir) with Some (JNode false l) => Some l | Some _ => None | None => Some [] end = Some r /\ partial E [] g r.
Proof using All.
  intros K. pose proof (dc_root _ _ K) as R.
  assert (forall ss, leaf_upto E [] g ss = root_leaf g ss) as N.
  { intros ss. unfold leaf_upto. destruct (find _ E) as [e|]; [|done]. by destruct (fileJson g (e_path e)). }
  unfold partial. setoid_rewrite N. unfold root_leaf. destruct (fileJson g (rootPath stateDir)) as [[| | | |[|] l]|]; try done; eexists; (split; [reflexivity|]).
  - destruct R as [G O]. done.
  - split_and!; [done|intros e _ _; by destruct (segs e) as [|? [|]]|]. intros ss. destruct ss as [|x ss]; [done|]. rewrite leaf_at, at_cons. cbn [kget]. by rewrite navS_None.
Qed.

Lemma mkdirp_files path fs q : file (after (fs_mkdirp path) fs) q = file fs q.
Proof.
  unfold fs_mkdirp. rewrite after_bind. unfold fs_mkdir. change (after (change_ ?f) ?g) with (f g). cbn beta. rewrite mkdir_file.
  generalize (take 1 (trunc 128 path)) (drop 1 (trunc 128 path)). intros seen rest. revert seen fs.
  induction rest as [|c rest IH]; intros seen fs; [done|]. cbn [mkdirLoop]. destruct (c =? chr "/"); [|by apply IH].
  rewrite after_bind, IH. change (after (fs_mkdir seen) fs) with (vfs_mkdir fs seen). apply mkdir_file.
Qed.

(** Two file systems in which the tree's files read the same. *)
Definition same_reads (g h : F) : Prop := forall b, base stateDir b -> readJsonFile g b = readJsonFile h b.

Lemma same_fileJson g h b : same_reads g h -> base stateDir b -> fileJson g b = fileJson h b.
Proof. intros E B. unfold fileJson. by rewrite E. Qed.

Lemma ext_base_path E g e : docs E g -> e ∈ E -> base stateDir (e_path e).
Proof. intros K He. destruct (proj1 (Forall_forall _ _) (dc_ok _ _ K) e He) as (_ & _ & ->). right. by eexists. Qed.

Lemma docs_same E g h : same_reads g h -> docs E g -> docs E h.
Proof using All.
  intros SR0 K. assert (forall b, base stateDir b -> fileJson h b = fileJson g b) as FJ by (intros b B; symmetry; by apply same_fileJson).
  assert (forall e, e ∈ E -> fileJson h (e_path e) = fileJson g (e_path e)) as FE by (intros e He; apply FJ; by eapply ext_base_path).
  constructor; try apply K.
  - intros b B. rewrite <- SR0 by done. by apply K.
  - intros p. rewrite FJ by (right; by eexists). apply K.
  - intros e n He. rewrite FE by done. by apply K.
  - rewrite FJ by apply root_base. pose proof (dc_root _ _ K) as R. destruct (fileJson g (rootPath stateDir)) as [[| | | |[|] l]|]; try done.
    destruct R as [G O]. split; [done|]. intros e He. rewrite FE by done. by apply O.
Qed.

Lemma disk_leaf_same E g h ss : same_reads g h -> docs E g -> disk_leaf E h ss = disk_leaf E g ss.
Proof using All.
  intros SR0 K. unfold disk_leaf, root_leaf. rewrite <- (same_fileJson g h _ SR0 (root_base stateDir)).
  destruct (find _ E) as [e|] eqn:Ef; [|done]. apply find_some in Ef as [He _]. apply list_elem_of_In in He.
  by rewrite (same_fileJson g h _ SR0 (ext_base_path E g e K He)).
Qed.

(** ** The whole load *)

Lemma load_docs E fs : docs E fs ->
  exists r l d, result (storageLoad stateDir false) fs = Some (r, l, d) /\ forall ss, leaf r ss = disk_leaf E fs ss.
Proof using All.
  intros K0. unfold storageLoad. rewrite result_bind. set (g := after _ fs).
  assert (same_reads fs g) as SG by (intros b B; unfold g; rewrite !(readJson_file HA) by (by eapply base_ok); by rewrite !mkdirp_files).
  pose proof (docs_same E fs g SG K0) as K. pose proof (fun ss => disk_leaf_same E fs g ss SG K0) as DL. clearbody g.
  setoid_rewrite <- DL. clear K0 SG DL fs.
  rewrite result_bind. change (after (look ?f) g) with g. change (result (look ?f) g) with (f g). cbv beta.
  rewrite !result_bind. change (result (ret ?x) ?y) with x. cbv beta. fold (rootPath stateDir).
  destruct (partial_root E g K) as (r & Er & P). pose proof (dc_read _ _ K _ (root_base stateDir)) as Rd.
  unfold fileJson, textJson in Er. destruct (readJsonFile g (rootPath stateDir)) as [text|]; [|done].
  cbn [mbind option_bind mjoin option_join] in Er |- *. rewrite Er. cbn [mbind option_bind].
  destruct (load_all E g _ K (scan_paths_ok g) [] r P) as (r' & El & (G & O & Lf)). cbn [app] in Lf. rewrite El. cbn [mbind option_bind].
  destruct (migrateLxmfMonolith stateDir r' (scanExternals stateDir g)) as [l d]. exists r', l, d. split; [done|]. intros ss. rewrite Lf.
  unfold leaf_upto, disk_leaf. destruct (find (fun e => under (segs e) ss) E) as [e|] eqn:Ef; [|done]. destruct (fileJson g (e_path e)) as [n|] eqn:En; [|done].
  apply find_some in Ef as [He U]. apply list_elem_of_In in He. pose proof (proj1 (Forall_forall _ _) (dc_ok _ _ K) e He) as ([Ge _] & [_ Ze] & Pe).
  destruct (scan_complete g (e_prefix e)) as (x & Hx & Ex).
  - split; [|done]. rewrite segs_path. pose proof (path_nonempty (segs e) Ge (segs_ne e)) as Np.
    destruct (path_of (segs e)) as [|c b]; [done|rewrite Zlen_cons; pose proof (Zlen_nonneg b); lia].
  - by rewrite <- Pe, En.
  - rewrite (proj2 (existsb_exists _ _)); [done|]. exists x. split; [by apply list_elem_of_In|]. by apply streq_true.
Qed.

(** ** From files that hold the tree *)

Lemma settled_docs (s : sv) fs : covered stateDir s fs -> settled s -> docs (exts s) fs.
Proof using All.
  intros K (W & Cl & Rd & Lv). constructor; try apply K.
  - intros p N. destruct (cv_stale _ _ _ K p N) as [?|W2]; [done|by rewrite W in W2].
  - intros e n He En. pose proof (proj1 (Forall_forall _ _) Lv e He) as Ve. destruct (cv_ext _ _ _ K e He Ve) as [Dt|Y]; [by rewrite (Cl e He Ve) in Dt|].
    rewrite W in Y. unfold synced in Y. rewrite En in Y. by destruct Y.
  - pose proof (cv_root _ _ _ K) as R. unfold root_covered in R. rewrite W in R. destruct R as [?|[A O]]; [congruence|].
    destruct (fileJson fs (rootPath stateDir)) as [[| | | |[|] l]|]; try done. destruct A as [G _]. split; [done|]. intros e He _.
    by apply (proj1 (Forall_forall _ _) O).
Qed.

(** The value a synced external and a current root file give. *)
Lemma synced_leaf (c : cfg_st D) E g e ss : docs E g -> e ∈ E -> under (segs e) ss = true -> holds_values (fileJson g (e_path e)) (ext_values c e) ->
  fileJson g (e_path e) <> None -> disk_leaf E g ss = leaf (cfgRoot c) ss.
Proof using All.
  intros K He U Y N. unfold disk_leaf. rewrite (find_under _ _ _ (dc_apart _ _ K) He U). destruct (fileJson g (e_path e)) as [n|]; [|done].
  destruct Y as [_ Y]. rewrite Y. unfold ext_values, leaf. by rewrite navS_app, <- navS_under.
Qed.

Lemma unsynced_leaf (c : cfg_st D) g e ss : under (segs e) ss = true -> holds_values (fileJson g (e_path e)) (ext_values c e) ->
  fileJson g (e_path e) = None -> leaf (cfgRoot c) ss = None.
Proof using All. intros U Y N. rewrite N in Y. eapply leaf_under; [exact U|exact Y]. Qed.

Lemma root_leaf_doc (c : cfg_st D) g ss : root_doc c (fileJson g (rootPath stateDir)) -> root_leaf g ss = root_values c ss.
Proof.
  intros [A _]. unfold root_leaf. destruct (fileJson g (rootPath stateDir)) as [n|]; [by destruct A as [_ ->]|symmetry; apply A].
Qed.

Lemma ext_saved e ss : ext_ok stateDir e -> under (segs e) ss = true -> saved ss = true.
Proof using JL. intros (_ & [Sv _] & _) U. rewrite (saved_under _ _ U); [done|apply segs_ne]. Qed.

Lemma load_settled (s : sv) fs : covered stateDir s fs -> settled s ->
  exists r l d, result (storageLoad stateDir false) fs = Some (r, l, d) /\
    forall ss, leaf r ss = if saved ss then leaf (tree s) ss else None.
Proof using All.
  intros K Z. pose proof (settled_docs s fs K Z) as Dc. destruct (load_docs _ fs Dc) as (r & l & d & E & Lf). exists r, l, d. split; [done|].
  intros ss. rewrite Lf. destruct Z as (W & Cl & Rd & Lv). pose proof (cv_root _ _ _ K) as R. unfold root_covered in R. rewrite W in R.
  destruct R as [?|R]; [congruence|]. destruct (covers (exts s) ss) eqn:Cv.
  - apply existsb_exists in Cv as (e & He & X). apply list_elem_of_In in He. apply andb_true_iff in X as [Ve U]. apply negb_true_iff in Ve.
    rewrite (ext_saved e ss) by (done || by apply (proj1 (Forall_forall _ _) (cv_exts _ _ _ K))).
    assert (synced (cfg s) fs e) as Y.
    { destruct (cv_ext _ _ _ K e He Ve) as [Dt|Y]; [by rewrite (Cl e He Ve) in Dt|]. by rewrite W in Y. }
    destruct (fileJson fs (e_path e)) eqn:En; [by eapply synced_leaf; [..|rewrite En]|].
    rewrite (unsynced_leaf (cfg s) fs e ss U Y En). unfold disk_leaf. rewrite (find_under _ _ _ (cv_apart _ _ _ K) He U), En, (root_leaf_doc _ _ _ R).
    unfold root_values. by rewrite (covers_under _ _ _ He Ve U), andb_false_r.
  - unfold disk_leaf. destruct (find (fun e => under (segs e) ss) (exts s)) as [e|] eqn:Ef.
    { apply find_some in Ef as [He U]. apply list_elem_of_In in He. pose proof (covers_false _ _ _ Cv He (proj1 (Forall_forall _ _) Lv e He)). congruence. }
    rewrite (root_leaf_doc _ _ _ R). unfold root_values. rewrite Cv, andb_true_r. done.
Qed.

(** ** The worker among the others *)

(** C4: The persist worker and the tasks that write. Start with the tree's values in the
    files or marked to be ([covered]) and let the worker's steps, [storageSet]s, new tree
    files, blobs, pokes and the stop come in any order, as long as no write to the root
    file's part falls between the worker's copy of that part and the end of its write
    ([open_window]). Whenever the worker then waits with no mark set, a restart that loads
    the files finds exactly the tree's saved values. This is for a file system with room
    and no faults whose rename replaces its target ([VfsSound F true]), allocations that
    succeed, values that print, tree files none of which lies inside another, record stores
    elsewhere, writes to keys of the tree under 128 bytes, apart from each tree file's
    part or inside that of one not being deleted ([set_ok]), and new tree files with a
    prefix under 56 bytes that has no file and no values yet ([new_ok]). The code does not
    notice a failed write or rename, and loads nested tree files in the wrong order. *)
Theorem interleaved_writes_survive (s s' : sv) fs fs' : sdb_elsewhere (D := D) stateDir -> covered stateDir s fs ->
  rtc (istep stateDir) (s, fs) (s', fs') ->
  covered stateDir s' fs' /\
  (settled s' -> exists r l d, result (storageLoad stateDir false) fs' = Some (r, l, d) /\
     forall ss, leaf r ss = if saved ss then leaf (tree s') ss else None).
Proof using All.
  intros DB K R. assert (covered stateDir s' fs') as K'; [|split; [done|intros Z; by apply load_settled]].
  change (covered stateDir (s', fs').1 (s', fs').2). change (covered stateDir (s, fs).1 (s, fs).2) in K. revert R K.
  generalize (s, fs) (s', fs'). intros x y R. induction R as [|x y z St _ IH]; intros K; [done|].
  apply IH. by eapply istep_covered.
Qed.

(** C21: One flush. A worker woken with marks in any combination, externals to delete among
    them, comes back to its wait, and then nothing is marked, the tree has the values it
    had, and a restart that loads the files finds its saved values and no others: on a file
    system with room and no faults whose rename replaces its target ([VfsSound F true]),
    with allocations that succeed, values that print, tree files none of which lies inside
    another and record stores elsewhere. *)
Theorem flush_then_reload (s : sv) fs : sdb_elsewhere (D := D) stateDir -> covered stateDir s fs ->
  phase s = W_wait -> poked s = true -> flushStopped s = false -> all_printable (cfg s) ->
  let wake := saveStep stateDir s in
  exists fuel s', result (flushLoop stateDir fuel (result wake fs)) (after wake fs) = Some s' /\ settled s' /\
    (forall ss, leaf (tree s') ss = leaf (tree s) ss) /\
    exists r l d, result (storageLoad stateDir false) (after (flushLoop stateDir fuel (result wake fs)) (after wake fs)) = Some (r, l, d) /\
      forall ss, leaf r ss = if saved ss then leaf (tree s) ss else None.
Proof using All.
  intros DB K W Pk St PA wake. assert (prints_ok s) as PR by (unfold prints_ok; by rewrite W).
  pose proof (worker_covered stateDir HA DB s fs K PR) as K1. pose proof (values_step stateDir s fs K) as V1. fold wake in K1, V1.
  assert (phase (result wake fs) = W_blobs (pendingBlobs s) /\ cfg (result wake fs) = cfg s /\ flushStopped (result wake fs) = false) as (P1 & C1 & F1)
    by (unfold wake, saveStep; rewrite W, Pk; done).
  destruct (flush_settles stateDir (result wake fs) (after wake fs) HA DB K1) as (fuel & s' & E & K2 & Z & V2).
  - unfold stage. rewrite P1, C1. done.
  - by rewrite P1.
  - exists fuel, s'. split_and!; [done|done|intros ss; by rewrite V2, V1|]. destruct (load_settled s' _ K2 Z) as (r & l & d & El & Lf).
    exists r, l, d. split; [done|]. intros ss. by rewrite Lf, V2, V1.
Qed.

End Load.

(** C38: A flush ends, whatever the files do: short or failed writes, refused renames, no
    memory, an unprintable tree. *)
Theorem flush_terminates {D F C : Type} `{CJ : CJson, V : Vfs F, H : Heap F, TD : Tdefl C, CR : Crc, SF : SdbFiles D}
    (stateDir : bytes) (s : save_st D) (fs : F) :
  exists fuel s', result (flushLoop stateDir fuel s) fs = Some s' /\ phase s' = W_wait.
Proof. apply flush_ends. Qed.
