(* ===== verification/PersistCrash.v ===== *)
(** * storage: a power cut during a flush

    Every file system a flush passes through reads like the one before or the one after a
    step of the worker; between steps, each tree file is as it was or done, the root file is
    written only when all of them are, and files are deleted only after that. So a restart
    from any of them finds each key with its old or its new value. *)

From stdpp Require Import gmap.
From S2P Require Import Prelude CLib Targz TargzRoundtrip StorageDb StorageDbFile Config ConfigTree ConfigOps ConfigSet.
From S2P Require Import Vfs Persist PersistFiles PersistTree PersistSet PersistFlush PersistWork PersistLoad.
Import Tree Ops Actor Files Externals Flush Load.
Open Scope Z_scope.
Open Scope spangap_scope.

Section Crash.
Context {D F C I : Type} `{L : VfsLaws F} `{S : !VfsSound F true} `{H : Heap F} `{TD : Tdefl C} `{TI : Tinfl I} `{CR : Crc}
        {stream : bytes -> bytes -> Prop} `{!TdeflLaws TD stream} `{!TinflOneShot TI stream} `{!CrcLaws CR}.
Context `{CJ : CJson} `{JL : !CJsonLaws CJ} `{CP : CJsonParse} `{JT : !CJsonText CJ CP}.
Context `{SR : SdbRouter D} `{SF : SdbFiles D}.
Context (stateDir : bytes) (SD : Zlen (stateDir ++ EXTERNAL_DIR) < 64).
Context (HA : heap_ok (F := F)) (DB : sdb_elsewhere (D := D) stateDir).
Notation sv := (save_st D).
Notation tree s := (cfgRoot (cfg s)).
Notation exts s := (externals (cfg s)).
Notation next s fs := (result (saveStep stateDir s) fs).
Notation next_fs s fs := (after (saveStep stateDir s) fs).
Notation same_reads := (same_reads stateDir).

(** ** Inside a step *)

(** The tree file a step writes or removes. *)
Definition writes (s : sv) : option bytes :=
  match phase s with
  | W_file _ p _ => Some p
  | W_rootFile _ => Some (rootPath stateDir)
  | W_delFile p => Some p
  | _ => None
  end.

Lemma foreign_same p ps fs g : foreign stateDir p -> only ps fs g -> ps ⊆ [p; tmpOf p; tmpOf (tmpOf p)] -> same_reads g fs.
Proof using HA. intros Fp O Sub b B. by eapply (foreign_reads stateDir HA). Qed.

Lemma dbWrite_crashes p raw fs : Forall (fun g => only [p; tmpOf p; tmpOf (tmpOf p)] fs g) (trail (dbWrite p raw) fs).
Proof using All.
  unfold dbWrite. rewrite trail_bind. change (trail (look ?f) fs) with (@nil F). change (after (look ?f) fs) with fs. cbn [app].
  destruct (result _ fs) as [gz|]; [|constructor]. fold (tmpOf p). rewrite trail_bind.
  destruct (atomicWriteFile_ok (tmpOf p) gz fs) as (Tr & -> & O & E). set (g := after (atomicWriteFile (tmpOf p) gz) fs) in *.
  apply Forall_app. split.
  - eapply Forall_impl; [exact Tr|]. intros h [Oh|[Oh _]]; (eapply only_weaken; [exact Oh|set_solver]).
  - rewrite trail_bind. change (trail (ret tt) ?x) with (@nil F). rewrite app_nil_r.
    destruct (fs_rename_ok (tmpOf p) p g gz ltac:(by apply app_neq) E) as (Tr2 & _). eapply Forall_impl; [exact Tr2|].
    intros h [Oh _]. eapply only_trans; eapply only_weaken; [exact O|set_solver|exact Oh|set_solver].
Qed.

Lemma write_reads b t fs : base stateDir b -> text_ok t ->
  let g := after (atomicWriteJsonGz b t) fs in
  Forall (fun h => same_reads h fs \/ same_reads h g) (trail (atomicWriteJsonGz b t) fs).
Proof using All.
  intros B T g. destruct (atomicWriteJsonGz_ok HA b t fs (base_ok _ _ B) T) as (Tr & _ & O & R). fold g in O, R.
  assert (forall h, only (siblings b) fs h -> forall b', base stateDir b' -> b' <> b -> readJsonFile h b' = readJsonFile fs b') as Ot.
  { intros h Oh b' B' N. eapply (readJson_only HA); [exact B'|exact Oh|]. intros q Hq. by eapply (forms_siblings stateDir b b'). }
  eapply Forall_impl; [exact Tr|]. intros h [Oh [E|E]]; [left|right]; intros b' B'; destruct (decide (b' = b)) as [->|N]; try done; try congruence.
  - by apply Ot.
  - by rewrite (Ot h Oh b' B' N), (Ot g O b' B' N).
Qed.

Lemma remove_reads b fs : base stateDir b ->
  let g1 := after (fs_remove b) fs in let g := after (fs_remove (b ++ GZ)) g1 in
  (same_reads g1 fs \/ same_reads g1 g) /\ readJsonFile g b = Some None /\ forall b', base stateDir b' -> b' <> b -> readJsonFile g b' = readJsonFile fs b'.
Proof using All.
  intros B g1 g. destruct (fs_remove_only b fs) as [O1 E1]. fold g1 in O1, E1. destruct (fs_remove_only (b ++ GZ) g1) as [O2 E2]. fold g in O2, E2.
  destruct (siblings_neq b) as (N1 & _).
  assert (forall h, only (forms b) fs h -> forall b', base stateDir b' -> b' <> b -> readJsonFile h b' = readJsonFile fs b') as Ot.
  { intros h Oh b' B' N. eapply (readJson_only HA); [exact B'|exact Oh|]. intros x Hx Hy.
    apply (forms_siblings stateDir b b' x B B' (not_eq_sym N) Hx). unfold forms, siblings in *. set_solver. }
  assert (only (forms b) fs g1) as O1' by (eapply only_weaken; [exact O1|unfold forms; set_solver]).
  assert (only (forms b) fs g) as O by (eapply only_trans; [exact O1'|eapply only_weaken; [exact O2|unfold forms; set_solver]]).
  assert (file g b = None) as Eg by (rewrite O2; [done|rewrite elem_of_cons, elem_of_nil; naive_solver]).
  assert (readJsonFile g b = Some None) as R by (rewrite (readJson_file HA), E2, Eg by (by eapply base_ok); done).
  split; [|split; [done|by apply Ot]].
  assert (file g1 (b ++ GZ) = file fs (b ++ GZ)) as Ez by (apply O1; rewrite elem_of_cons, elem_of_nil; naive_solver).
  assert (readJsonFile g1 b = readJsonFile fs b \/ readJsonFile g1 b = Some None) as [E|E].
  { rewrite !(readJson_file HA) by (by eapply base_ok). rewrite E1, Ez. unfold unpack. destruct (full (file fs (b ++ GZ))) as [raw|]; [|by right].
    destruct (Gz.gzInflateBin true true raw) as [[t|]|]; [by left|by right|by left]. }
  - left. intros b' B'. destruct (decide (b' = b)) as [->|N]; [done|]. by apply Ot.
  - right. intros b' B'. destruct (decide (b' = b)) as [->|N]; [by rewrite E, R|]. by rewrite (Ot g1 O1' b' B' N), (Ot g O b' B' N).
Qed.

(** Wherever the power is cut in a step, the files read as before it or as after it. *)
Lemma step_crash s fs : covered stateDir s fs ->
  Forall (fun g => same_reads g fs \/ same_reads g (next_fs s fs)) (trail (saveStep stateDir s) fs).
Proof using All.
  intros K. pose proof (cv_phase _ _ _ K) as P. unfold phase_ok in P. unfold saveStep.
  destruct (phase s) as [|[|[p d] jobs]| |i|i w|i p t| |t| | |[|p ds] [|[q raw] js]| |p|] eqn:Ep;
    rewrite ?trail_bind, ?after_bind; change (trail (ret ?x) ?y) with (@nil F); rewrite ?app_nil_r; try (by constructor).
  - destruct (poked s); constructor.
  - apply Forall_cons in P as [P1 P2]. destruct (atomicWriteFile_ok p d fs) as (Tr & _). eapply Forall_impl; [exact Tr|].
    intros g Og. left. destruct Og as [Og|[Og _]]; (eapply foreign_same; [exact P1|exact Og|set_solver]).
  - destruct (flushStopped s); constructor.
  - destruct (exts s !! i) as [e|]; [|constructor]. destruct (e_dirty e && negb (e_pendingDelete e)); constructor.
  - destruct (externalText (cfg s) (e_prefix w)); constructor.
  - destruct P as (T & e & He & _ & ->). apply write_reads; [|done]. apply ext_base. by apply (proj1 (Forall_forall _ _) (cv_exts _ _ _ K)).
  - destruct (rootDirty (cfg s)); [|constructor]. destruct (rootSnapshot (cfg s)) as [c [t|]]; constructor.
  - apply write_reads; [apply root_base|done].
  - destruct (sdbDirtyImages (db (cfg s))) as [[d jobs] deletes]. constructor.
  - destruct P as [_ P]. apply Forall_cons in P as [P1 P2]. eapply Forall_impl; [apply dbWrite_crashes|].
    intros g Og. left. eapply foreign_same; [exact P1|exact Og|done].
  - destruct P as [P _]. apply Forall_cons in P as [P1 _]. destruct (fs_remove_ok p fs) as (Tr & _). eapply Forall_impl; [exact Tr|].
    intros g [Og _]. left. eapply foreign_same; [exact P1|exact Og|set_solver].
  - destruct P as [P _]. apply Forall_cons in P as [P1 _]. destruct (fs_remove_ok p fs) as (Tr & _). eapply Forall_impl; [exact Tr|].
    intros g [Og _]. left. eapply foreign_same; [exact P1|exact Og|set_solver].
  - destruct (takeDeleted (exts s)) as [[e rest]|]; constructor.
  - destruct P as (q & -> & _). destruct (remove_reads (externalPath stateDir q) fs) as (A & _); [right; by eexists|].
    cbv zeta in A. change (after (ret ?x) ?y) with y.
    change (trail (fs_remove ?p) ?g) with [after (fs_remove p) g]. apply Forall_app. split; apply Forall_singleton; [exact A|by right].
Qed.

Lemma step_others s fs b : covered stateDir s fs -> base stateDir b -> writes s <> Some b -> readJsonFile (next_fs s fs) b = readJsonFile fs b.
Proof using All.
  intros K B Wr. pose proof (cv_phase _ _ _ K) as P. unfold phase_ok in P. unfold writes in Wr. unfold saveStep.
  destruct (phase s) as [|[|[p d] jobs]| |i|i w|i p t| |t| | |[|p ds] [|[q raw] js]| |p|] eqn:Ep;
    rewrite ?after_bind; change (after (ret ?x) ?y) with y; try done.
  - by destruct (poked s).
  - apply Forall_cons in P as [P1 P2]. destruct (atomicWriteFile_ok p d fs) as (_ & _ & O & _). eapply foreign_same; [exact P1|exact O|set_solver|done].
  - by destruct (flushStopped s).
  - destruct (exts s !! i) as [e|]; [|done]. by destruct (e_dirty e && negb (e_pendingDelete e)).
  - by destruct (externalText (cfg s) (e_prefix w)).
  - destruct P as (T & e & He & _ & ->).
    destruct (write_others stateDir HA DB (e_path e) t fs) as [_ O]; [apply ext_base; by apply (proj1 (Forall_forall _ _) (cv_exts _ _ _ K))|done|].
    apply O; [done|congruence].
  - destruct (rootDirty (cfg s)); [|done]. by destruct (rootSnapshot (cfg s)) as [c [t|]].
  - destruct (write_others stateDir HA DB (rootPath stateDir) t fs (root_base _) P) as [_ O]. apply O; [done|congruence].
  - by destruct (sdbDirtyImages (db (cfg s))) as [[d jobs] deletes].
  - destruct P as [_ P]. apply Forall_cons in P as [P1 P2]. eapply foreign_same; [exact P1|apply (dbWrite_only stateDir HA DB)|done|done].
  - destruct P as [P _]. apply Forall_cons in P as [P1 _]. eapply foreign_same; [exact P1|apply fs_remove_only|set_solver|done].
  - destruct P as [P _]. apply Forall_cons in P as [P1 _]. eapply foreign_same; [exact P1|apply fs_remove_only|set_solver|done].
  - by destruct (takeDeleted (exts s)) as [[e rest]|].
  - destruct P as (q & -> & _). destruct (remove_reads (externalPath stateDir q) fs) as (_ & _ & O); [right; by eexists|]. apply O; [done|congruence].
Qed.

(** ** Between steps *)

Section From.
Context (s0 : sv) (fs0 : F).
Notation kept fs b := (readJsonFile fs b = readJsonFile fs0 b).

Definition holding (s : sv) (e : external_t) : Prop :=
  match phase s with W_snap _ w => e_prefix w = e_prefix e | W_file _ p _ => p = e_path e | _ => False end.

(** Still before the root file's write; among the deletions. *)
Definition before_root (w : wphase) : bool :=
  match w with W_blobs _ | W_settings | W_ext _ | W_snap _ _ | W_file _ _ _ | W_root | W_rootFile _ => true | _ => false end.
Definition deleting (w : wphase) : bool := match w with W_del | W_delFile _ | W_sems | W_wait => true | _ => false end.

(** What the worker has in its hands is a document, or a file of the externals there were. *)
Definition hand_ok (w : wphase) : Prop :=
  match w with
  | W_file _ _ t => cJSON_Parse t <> None
  | W_delFile p => exists e, e ∈ exts s0 /\ e_path e = p
  | _ => True
  end.

(** The root file has objects above each of them. *)
Definition roomy (fs : F) : Prop :=
  match fileJson fs (rootPath stateDir) with Some (JNode false l) => forall e, e ∈ exts s0 -> objpath l (segs e) | _ => True end.

Record mid (s : sv) (fs : F) : Prop := {
  md_tree : forall ss, leaf (tree s) ss = leaf (tree s0) ss;
  md_from : forall f, f ∈ exts s -> exists e, e ∈ exts s0 /\ same_ext e f;
  md_live : forall e, e ∈ exts s0 -> live e \/ deleting (phase s) = false -> exists f, f ∈ exts s /\ same_ext e f;
  md_todo : forall f, f ∈ exts s -> live f -> e_dirty f = true \/ holding s f -> kept fs (e_path f);
  md_hand : forall f, f ∈ exts s -> holding s f -> e_dirty f = false;
  md_some : forall f, f ∈ exts s -> live f -> kept fs (e_path f) \/ fileJson fs (e_path f) <> None;
  md_text : hand_ok (phase s);
  md_room : roomy fs;
  md_root : before_root (phase s) = true -> kept fs (rootPath stateDir);
  md_del : forall e, e ∈ exts s0 -> e_pendingDelete e = true -> kept fs (e_path e) \/ (deleting (phase s) = true /\ fileJson fs (e_path e) = None)
}.

Lemma mid_keep s fs s' fs' : mid s fs -> (forall b, base stateDir b -> readJsonFile fs' b = readJsonFile fs b) -> Forall (ext_ok stateDir) (exts s0) ->
  covered stateDir s fs ->
  (forall ss, leaf (tree s') ss = leaf (tree s) ss) -> exts s' = exts s -> (forall f, f ∈ exts s -> holding s' f -> holding s f) ->
  hand_ok (phase s') ->
  (before_root (phase s') = true -> before_root (phase s) = true) -> (deleting (phase s) = true -> deleting (phase s') = true) -> mid s' fs'.
Proof using All.
  intros M Rd X0 K T E Hd Tx Br De.
  assert (forall b, base stateDir b -> fileJson fs' b = fileJson fs b) as FJ by (intros b B; unfold fileJson; by rewrite Rd).
  assert (forall f, f ∈ exts s -> base stateDir (e_path f)) as Bs
    by (intros f Hf; apply ext_base; by apply (proj1 (Forall_forall _ _) (cv_exts _ _ _ K))).
  destruct M. constructor; rewrite ?E; try done.
  - intros ss. by rewrite T.
  - intros e He Q. apply md_live0; [done|]. destruct Q as [?|Q]; [by left|right]. destruct (deleting (phase s)); [by rewrite De in Q|done].
  - intros f Hf Vf Td. rewrite Rd by (by apply Bs). apply md_todo0; [done|done|]. destruct Td as [?|?]; [by left|right; by apply Hd].
  - intros f Hf Hh. apply md_hand0; [done|by apply Hd].
  - intros f Hf Vf. rewrite Rd, FJ by (by apply Bs). by apply md_some0.
  - unfold roomy in *. by rewrite FJ by apply root_base.
  - intros B. rewrite Rd by apply root_base. apply md_root0. by apply Br.
  - intros e He Pe. rewrite Rd, FJ by (apply ext_base; by apply (proj1 (Forall_forall _ _) X0)).
    destruct (md_del0 e He Pe) as [?|[? ?]]; [by left|right; split; [by apply De|done]].
Qed.

Lemma mid_ext s fs i : mid s fs -> covered stateDir s fs -> Forall (ext_ok stateDir) (exts s0) -> phase s = W_ext i -> mid (next s fs) (next_fs s fs).
Proof using All.
  intros M K X0 Ep. unfold saveStep. rewrite Ep. destruct (exts s !! i) as [e|] eqn:Ei.
  2: { apply (mid_keep s fs); try done; by rewrite ?Ep. }
  destruct (e_dirty e && negb (e_pendingDelete e)) eqn:Ed; [|apply (mid_keep s fs); try done; by rewrite ?Ep].
  apply andb_true_iff in Ed as [Ed Vl]. apply negb_true_iff in Vl. apply list_elem_of_lookup_2 in Ei as He.
  change (result (ret ?x) fs) with x. change (after (ret ?x) fs) with fs. set (l' := <[i := set_dirty e false]> (exts s)).
  assert (forall f, f ∈ l' -> f = set_dirty e false \/ (f ∈ exts s /\ e_prefix f <> e_prefix e)) as El.
  { intros f Hf. apply list_elem_of_lookup_1 in Hf as [j Hj]. unfold l' in Hj. apply list_lookup_insert_Some in Hj as [(-> & <- & _)|[Nj Hj]]; [by left|right].
    apply list_elem_of_lookup_2 in Hj as Hf. split; [done|]. intros E. apply (prefix_inj f e _ (cv_apart _ _ _ K) Hf He) in E. subst f.
    apply Nj. eapply index_inj; [apply K|done|done]. }
  pose proof (same_exts_insert (exts s) i e false Ei) as SE. fold l' in SE.
  destruct M. constructor; cbn [cfg set_phase set_cfg externals with_files cfgRoot phase]; fold l'; try done.
  - intros f Hf. destruct (same_exts_elem _ _ _ SE Hf) as (g & Hg & A). destruct (md_from0 g Hg) as (e0 & He0 & B). exists e0. split; [done|].
    by eapply same_ext_trans.
  - intros e0 He0 _. destruct (md_live0 e0 He0) as (g & Hg & A); [right; by rewrite Ep|]. apply list_elem_of_lookup_1 in Hg as [j Hj].
    destruct (Forall2_lookup_l _ _ _ _ _ SE Hj) as (f & Hf & B). exists f. split; [by eapply list_elem_of_lookup_2|by eapply same_ext_trans].
  - intros f Hf Vf Td. destruct (El f Hf) as [->|[Hf' N]]; [by apply (md_todo0 e); [..|left]|].
    apply (md_todo0 f Hf' Vf). left. destruct Td as [?|Td]; [done|]. unfold holding in Td. cbn in Td. congruence.
  - intros f Hf Hh. destruct (El f Hf) as [->|[Hf' N]]; [done|]. unfold holding in Hh. cbn in Hh. congruence.
  - intros f Hf Vf. destruct (El f Hf) as [->|[Hf' N]]; [by apply (md_some0 e)|by apply md_some0].
  - intros _. apply md_root0. by rewrite Ep.
  - intros e0 He0 P0. destruct (md_del0 e0 He0 P0) as [?|[X _]]; [by left|by rewrite Ep in X].
Qed.

Context (X0 : Forall (ext_ok stateDir) (exts s0)).

(** A step that writes no tree file and keeps the externals. *)
Lemma mid_plain s fs : mid s fs -> covered stateDir s fs -> writes s = None -> exts (next s fs) = exts s ->
  (forall f, f ∈ exts s -> holding (next s fs) f -> holding s f) ->
  hand_ok (phase (next s fs)) ->
  (before_root (phase (next s fs)) = true -> before_root (phase s) = true) -> (deleting (phase s) = true -> deleting (phase (next s fs)) = true) ->
  mid (next s fs) (next_fs s fs).
Proof using All.
  intros M K W E Hd Tx Br De. apply (mid_keep s fs); try done; [|by apply (values_step stateDir)].
  intros b B. apply step_others; [done|done|by rewrite W].
Qed.

Lemma mid_snap s fs i w : mid s fs -> covered stateDir s fs -> prints_ok s -> phase s = W_snap i w -> mid (next s fs) (next_fs s fs).
Proof using All.
  intros M K PR Ep. pose proof (cv_phase _ _ _ K) as P. unfold phase_ok, prints_ok in *. rewrite Ep in P, PR. destruct P as (e & He & Vl & Pw & Qw).
  pose proof (proj1 (Forall_forall _ _) (cv_exts _ _ _ K) e He) as X.
  assert (exists t, externalText (cfg s) (e_prefix w) = Some t /\ cJSON_Parse t <> None) as (t & Et & Pt).
  { destruct (cv_dirty _ _ _ K e He Vl ltac:(right; by exists i, w)) as [ss Hs]. unfold ext_values, leaf in Hs. rewrite navS_app in Hs.
    pose proof (ext_node stateDir s e (cv_good _ _ _ K) X) as Nv. unfold externalText. rewrite Pw in *. rewrite Nv in *.
    destruct (navS (Some (JNode false (tree s))) (segs e)) as [n|] eqn:En; [|by rewrite navS_None in Hs].
    destruct (PR n eq_refl) as (t & Et & Zt). pose proof (jgood_nav _ _ _ (cv_good _ _ _ K) En) as Gn.
    destruct (text_of n t Gn Et Zt) as [_ T2]. exists t. rewrite cj_dup. cbn [snd]. by rewrite T2. }
  apply mid_plain; try done; unfold saveStep; rewrite ?Ep, ?Et; try done.
  - unfold writes. by rewrite Ep.
  - intros f Hf Hh. unfold holding in *. rewrite Ep. cbn in Hh. rewrite Pw. rewrite Qw in Hh.
    destruct (proj1 (Forall_forall _ _) (cv_exts _ _ _ K) f Hf) as (_ & _ & Pf). destruct X as (_ & _ & Pe). rewrite Pf, Pe in Hh. by apply externalPath_inj in Hh.
Qed.

(** A step that writes the tree file [b]. *)
Lemma mid_write s fs b : mid s fs -> covered stateDir s fs -> base stateDir b -> writes s = Some b -> exts (next s fs) = exts s ->
  (forall f, ~ holding (next s fs) f) -> hand_ok (phase (next s fs)) ->
  (forall f, f ∈ exts s -> live f -> e_path f = b -> e_dirty f = false /\ fileJson (next_fs s fs) b <> None) ->
  (before_root (phase (next s fs)) = true -> before_root (phase s) = true /\ rootPath stateDir <> b) ->
  (forall e, e ∈ exts s0 -> e_pendingDelete e = true -> e_path e = b -> deleting (phase s) = true /\ fileJson (next_fs s fs) b = None) ->
  (deleting (phase s) = true -> deleting (phase (next s fs)) = true) -> (b = rootPath stateDir -> roomy (next_fs s fs)) ->
  mid (next s fs) (next_fs s fs).
Proof using All.
  intros M K B W E Nh Tx Lv Br Dl De Rm.
  assert (forall b', base stateDir b' -> b' <> b -> readJsonFile (next_fs s fs) b' = readJsonFile fs b' /\ fileJson (next_fs s fs) b' = fileJson fs b') as Ot.
  { intros b' B' N. assert (readJsonFile (next_fs s fs) b' = readJsonFile fs b') as Rd by (apply step_others; [done|done|rewrite W; congruence]).
    unfold fileJson. by rewrite Rd. }
  assert (forall f, f ∈ exts s -> base stateDir (e_path f)) as Bs
    by (intros f Hf; apply ext_base; by apply (proj1 (Forall_forall _ _) (cv_exts _ _ _ K))).
  pose proof (values_step stateDir s fs K) as Vs. destruct M. constructor; rewrite ?E; try done.
  - intros ss. by rewrite Vs.
  - intros e He Q. apply md_live0; [done|]. destruct Q as [?|Q]; [by left|right]. destruct (deleting (phase s)); [by rewrite De in Q|done].
  - intros f Hf Vf [Df|Hh]; [|by destruct (Nh f)]. destruct (decide (e_path f = b)) as [Eb|N]; [destruct (Lv f Hf Vf Eb); congruence|].
    destruct (Ot (e_path f) (Bs f Hf) N) as [-> _]. apply md_todo0; [done|done|by left].
  - intros f Hf Hh. by destruct (Nh f).
  - intros f Hf Vf. destruct (decide (e_path f = b)) as [Eb|N]; [right; rewrite Eb; by apply (Lv f)|].
    destruct (Ot (e_path f) (Bs f Hf) N) as [-> ->]. by apply md_some0.
  - destruct (decide (b = rootPath stateDir)) as [->|N]; [by apply Rm|]. unfold roomy in *. by destruct (Ot _ (root_base stateDir) (not_eq_sym N)) as [_ ->].
  - intros Bn. destruct (Br Bn) as [Bb Nb]. destruct (Ot _ (root_base stateDir) Nb) as [-> _]. by apply md_root0.
  - intros e He Pe. destruct (decide (e_path e = b)) as [Eb|N]; [right; rewrite Eb; destruct (Dl e He Pe Eb) as [Q R]; split; [by apply De|done]|].
    destruct (Ot (e_path e)) as [-> ->]; [apply ext_base; by apply (proj1 (Forall_forall _ _) X0)|done|].
    destruct (md_del0 e He Pe) as [?|[? ?]]; [by left|right; split; [by apply De|done]].
Qed.

Context (A0 : all_apart (exts s0)).

Lemma mid_file s fs i p t : mid s fs -> covered stateDir s fs -> phase s = W_file i p t -> mid (next s fs) (next_fs s fs).
Proof using All.
  intros M K Ep. pose proof (cv_phase _ _ _ K) as P. unfold phase_ok in P. rewrite Ep in P. destruct P as (T & e & He & Vl & ->).
  pose proof (proj1 (Forall_forall _ _) (cv_exts _ _ _ K) e He) as X. pose proof (ext_base stateDir e X) as B.
  assert (phase (next s fs) = W_ext i /\ exts (next s fs) = exts s) as [Pn En] by (unfold saveStep; rewrite Ep, result_bind; done).
  apply (mid_write s fs (e_path e)); try done; rewrite ?Pn, ?Ep; try done.
  - unfold writes. by rewrite Ep.
  - intros f Hh. unfold holding in Hh. by rewrite Pn in Hh.
  - intros f Hf Vf Ef. split; [apply (md_hand _ _ M f Hf); unfold holding; by rewrite Ep|].
    destruct (write_others stateDir HA DB (e_path e) t fs B T) as [R _]. pose proof (md_text _ _ M) as Tx. rewrite Ep in Tx.
    unfold saveStep. rewrite Ep, after_bind. change (after (ret ?x) ?y) with y. unfold fileJson. by rewrite R.
  - intros _. split; [done|by apply root_path_neq].
  - intros e0 He0 P0 E0. exfalso. destruct (md_from _ _ M e He) as (e1 & He1 & (S1 & S2 & S3)).
    assert (e0 = e1) as ->; [|unfold live in Vl; congruence]. destruct (decide (e0 = e1)) as [|N]; [done|].
    destruct (path_neq stateDir e0 e1 _ A0 X0 He0 He1 N). congruence.
  - intros E. by destruct (root_path_neq stateDir e X).
Qed.

Lemma mid_rootFile s fs t : mid s fs -> covered stateDir s fs -> phase s = W_rootFile t -> mid (next s fs) (next_fs s fs).
Proof using All.
  intros M K Ep. assert (phase (next s fs) = W_rootClear /\ exts (next s fs) = exts s) as [Pn En] by (unfold saveStep; rewrite Ep, result_bind; done).
  apply (mid_write s fs (rootPath stateDir)); try done; rewrite ?Pn, ?Ep; try done.
  - apply root_base.
  - unfold writes. by rewrite Ep.
  - intros f Hh. unfold holding in Hh. by rewrite Pn in Hh.
  - intros f Hf _ E. by destruct (root_path_neq stateDir f (proj1 (Forall_forall _ _) (cv_exts _ _ _ K) f Hf)).
  - intros e He _ E. by destruct (root_path_neq stateDir e (proj1 (Forall_forall _ _) X0 e He)).
  - intros _. pose proof (cv_phase _ _ _ K) as T. pose proof (cv_root _ _ _ K) as R. unfold phase_ok, root_covered in T, R. rewrite Ep in T, R.
    destruct (write_others stateDir HA DB (rootPath stateDir) t fs (root_base _) T) as [Rd _].
    unfold roomy, saveStep. rewrite Ep, after_bind. change (after (ret ?x) ?y) with y. unfold fileJson. fold (rootPath stateDir). rewrite Rd. cbn [textJson mjoin option_join mbind option_bind].
    destruct R as [_ O]. destruct (cJSON_Parse t) as [[| | | |[|] l]|]; try done. intros e He.
    destruct (md_live _ _ M e He) as (f & Hf & (S1 & _)); [right; by rewrite Ep|]. unfold segs. rewrite S1. by apply (proj1 (Forall_forall _ _) O).
Qed.

Lemma mid_delFile s fs p : mid s fs -> covered stateDir s fs -> phase s = W_delFile p -> mid (next s fs) (next_fs s fs).
Proof using All.
  intros M K Ep. pose proof (cv_phase _ _ _ K) as P. unfold phase_ok in P. rewrite Ep in P. destruct P as (q & -> & Nq).
  assert (phase (next s fs) = W_del /\ exts (next s fs) = exts s) as [Pn En] by (unfold saveStep; rewrite Ep, !result_bind; done).
  apply (mid_write s fs (externalPath stateDir q)); try done; rewrite ?Pn, ?Ep; try done.
  - right. by eexists.
  - unfold writes. by rewrite Ep.
  - intros f Hh. unfold holding in Hh. by rewrite Pn in Hh.
  - intros f Hf _ E. destruct (proj1 (Forall_forall _ _) (cv_exts _ _ _ K) f Hf) as (_ & _ & Pf). rewrite Pf in E. apply externalPath_inj in E. by destruct (Nq f).
  - intros e He _ E. split; [done|]. destruct (remove_reads (externalPath stateDir q) fs) as (_ & R & _); [right; by eexists|].
    unfold saveStep. rewrite Ep, !after_bind. change (after (ret ?x) ?y) with y. unfold fileJson. by rewrite R.
  - intros E. destruct (root_not_external stateDir q [] []). by rewrite !app_nil_r.
Qed.

Lemma mid_del s fs : mid s fs -> covered stateDir s fs -> phase s = W_del -> mid (next s fs) (next_fs s fs).
Proof using All.
  intros M K Ep. destruct (takeDeleted (exts s)) as [[e rest]|] eqn:Et.
  2: { apply mid_plain; try done; unfold saveStep, writes; rewrite ?Ep, ?Et; done. }
  unfold saveStep. rewrite Ep, Et. change (result (ret ?x) fs) with x. change (after (ret ?x) fs) with fs.
  destruct (takeDeleted_spec _ _ _ Et) as (a & b & El & -> & De).
  assert (forall f, f ∈ a ++ b -> f ∈ exts s) as Sub by (intros f Hf; rewrite El; apply elem_of_app in Hf as [?|?]; apply elem_of_app; [by left|right; by right]).
  destruct M. constructor; cbn [cfg set_phase set_cfg externals with_files cfgRoot phase]; try done.
  - intros f Hf. by apply md_from0, Sub.
  - intros e0 He0 [V0|?]; [|done]. destruct (md_live0 e0 He0 ltac:(by left)) as (f & Hf & Sf). exists f. split; [|done]. rewrite El in Hf.
    apply elem_of_app in Hf as [?|Hf]; [apply elem_of_app; by left|]. apply elem_of_cons in Hf as [->|?]; [|apply elem_of_app; by right].
    destruct Sf as (_ & _ & Sf). unfold live in V0. congruence.
  - intros f Hf Vf [Df|Hh]; [|done]. apply md_todo0; [by apply Sub|done|by left].
  - intros f Hf Vf. apply md_some0; [by apply Sub|done].
  - destruct (md_from0 e) as (e0 & He0 & (_ & S2 & _)); [rewrite El; apply elem_of_app; right; by left|]. by exists e0.
  - intros e0 He0 P0. destruct (md_del0 e0 He0 P0) as [?|[_ ?]]; [by left|by right].
Qed.

Lemma mid_step s fs : mid s fs -> covered stateDir s fs -> stage s -> phase s <> W_wait -> mid (next s fs) (next_fs s fs).
Proof using All.
  intros M K G N. pose proof (stage_prints stateDir s fs K G) as PR.
  destruct (phase s) as [|[|[p d] jobs]| |i|i w|i p t| |t| | |[|p ds] [|[q raw] js]| |p|] eqn:Ep; try done;
    try (apply mid_plain; try done; unfold saveStep, writes, holding; rewrite ?Ep, ?result_bind; by (done || intros ? _)).
  - apply mid_plain; try done; unfold saveStep, writes, holding; rewrite ?Ep; try done; by destruct (flushStopped s).
  - by eapply mid_ext.
  - by eapply mid_snap.
  - by eapply mid_file.
  - apply mid_plain; try done; unfold saveStep, writes, holding; rewrite ?Ep; try done; (destruct (rootDirty (cfg s)); [|done]);
      unfold rootSnapshot; destruct (detachAll (tree s) (exts s)) as [r svd]; by destruct (cJSON_PrintUnformatted (rootParts r)).
  - by eapply mid_rootFile.
  - apply mid_plain; try done; unfold saveStep, writes, holding; rewrite ?Ep; try done; by destruct (sdbDirtyImages (db (cfg s))) as [[d jobs] deletes].
  - by apply mid_del.
  - by eapply mid_delFile.
Qed.

(** ** What is found then *)

Definition on_the_way (s : sv) : Prop := settled s \/ (phase s <> W_wait /\ stage s).

(** A live external's file is as it was, or done. *)
Lemma way_ext s fs e : mid s fs -> covered stateDir s fs -> e ∈ exts s0 -> live e ->
  kept fs (e_path e) \/ (synced (cfg s) fs e /\ fileJson fs (e_path e) <> None).
Proof using All.
  intros M K He Ve. destruct (md_live _ _ M e He ltac:(by left)) as (f & Hf & (S1 & S2 & S3)).
  assert (live f) as Vf by (unfold live in *; congruence). rewrite S2.
  assert (synced (cfg s) fs f -> synced (cfg s) fs e) as SY by (unfold synced, ext_values, segs; by rewrite S1, S2).
  destruct (cv_ext _ _ _ K f Hf Vf) as [Df|Y]; [left; apply (md_todo _ _ M); [done|done|by left]|].
  assert (holding s f \/ synced (cfg s) fs f) as [Hh|Y'].
  { unfold holding. destruct (phase s); try (by right); [destruct Y as [?|?]; [by left|by right]|destruct Y as [[? _]|[_ ?]]; [by left|by right]]. }
  - left. apply (md_todo _ _ M); [done|done|by right].
  - destruct (md_some _ _ M f Hf Vf) as [?|Ns]; [by left|right]. split; [by apply SY|done].
Qed.

(** So is the root file, and in the second case all of theirs are. *)
Lemma way_root s fs : mid s fs -> covered stateDir s fs -> on_the_way s ->
  kept fs (rootPath stateDir) /\ deleting (phase s) = false \/
  (root_doc (cfg s) (fileJson fs (rootPath stateDir)) /\ forall e, e ∈ exts s0 -> live e -> synced (cfg s) fs e).
Proof using All.
  intros M K W. destruct (before_root (phase s)) eqn:Br; [left; split; [by apply M|by destruct (phase s)]|right].
  assert (clean s /\ (phase s = W_rootClear \/ rootDirty (cfg s) = false)) as [Cl Rd].
  { destruct W as [(Wt & Cl & Rd & _)|[N G]]; [split; [done|by right]|]. unfold stage in G. destruct (phase s); try done;
      repeat match goal with A : _ /\ _ |- _ => destruct A end; (split; [done|]); (by left) || by right. }
  assert (forall f, f ∈ exts s -> live f -> synced (cfg s) fs f) as Sy.
  { intros f Hf Vf. destruct (cv_ext _ _ _ K f Hf Vf) as [Df|Y]; [by rewrite (Cl f Hf Vf) in Df|]. by destruct (phase s). }
  split.
  - pose proof (cv_root _ _ _ K) as R. unfold root_covered in R. destruct Rd as [Ep|Rd]; [by rewrite Ep in R|]. destruct (phase s); try done;
      destruct R as [?|?]; congruence || done.
  - intros e He Ve. destruct (md_live _ _ M e He ltac:(by left)) as (f & Hf & (S1 & S2 & S3)). unfold synced, ext_values, segs. rewrite S1, S2.
    apply (Sy f Hf). unfold live in *. congruence.
Qed.

Lemma way_del s fs e : mid s fs -> covered stateDir s fs -> on_the_way s -> e ∈ exts s0 -> e_pendingDelete e = true ->
  kept fs (e_path e) \/ (fileJson fs (e_path e) = None /\ root_doc (cfg s) (fileJson fs (rootPath stateDir))).
Proof using All.
  intros M K W He Pe. destruct (md_del _ _ M e He Pe) as [?|[De N]]; [by left|right]. split; [done|].
  destruct (way_root s fs M K W) as [[_ X]|[R _]]; [congruence|done].
Qed.

Lemma kept_json fs b : kept fs b -> fileJson fs b = fileJson fs0 b.
Proof. intros E. unfold fileJson. by rewrite E. Qed.

Lemma way_docs s fs : mid s fs -> covered stateDir s fs -> on_the_way s -> docs stateDir (exts s0) fs0 -> docs stateDir (exts s0) fs.
Proof using All.
  intros M K W D0. constructor; try done; try apply K.
  - intros p N. destruct (cv_stale _ _ _ K p N) as [(f & Hf & <-)|Ep].
    + destruct (md_from _ _ M f Hf) as (e & He & (S1 & _)). by exists e.
    + pose proof (md_text _ _ M) as T. rewrite Ep in T. destruct T as (e & He & Ee). exists e. split; [done|].
      destruct (proj1 (Forall_forall _ _) X0 e He) as (_ & _ & Pe). rewrite Pe in Ee. by apply externalPath_inj in Ee.
  - intros e n He En. destruct (e_pendingDelete e) eqn:Pe.
    + destruct (way_del s fs e M K W He Pe) as [Kp|[N _]]; [|congruence]. rewrite (kept_json _ _ Kp) in En. by apply (dc_good _ _ _ D0 e).
    + destruct (way_ext s fs e M K He Pe) as [Kp|[Y _]]; [rewrite (kept_json _ _ Kp) in En; by apply (dc_good _ _ _ D0 e)|].
      unfold synced in Y. rewrite En in Y. by destruct Y.
  - pose proof (md_room _ _ M) as Rm. unfold roomy in Rm. destruct (way_root s fs M K W) as [[Kp _]|[[A O] _]].
    + rewrite (kept_json _ _ Kp) in *. pose proof (dc_root _ _ _ D0) as R. destruct (fileJson fs0 (rootPath stateDir)) as [[| | | |[|] l]|]; try done.
      destruct R as [G _]. split; [done|]. intros e He _. by apply Rm.
    + destruct (fileJson fs (rootPath stateDir)) as [[| | | |[|] l]|]; try done. destruct A as [G _]. split; [done|]. intros e He _. by apply Rm.
Qed.

Lemma way_covers s fs ss : mid s fs -> covers (exts s) ss = covers (exts s0) ss.
Proof using All.
  intros M. apply eq_true_iff_eq. unfold covers. rewrite !existsb_exists. split; intros (e & He & X); apply list_elem_of_In in He; apply andb_true_iff in X as [Ve U].
  - destruct (md_from _ _ M e He) as (f & Hf & Sf). exists f. split; [by apply list_elem_of_In|]. rewrite (same_segs _ _ Sf), U. destruct Sf as (_ & _ & ->). by rewrite Ve.
  - destruct (md_live _ _ M e He) as (f & Hf & Sf); [left; by apply negb_true_iff|]. exists f. split; [by apply list_elem_of_In|].
    rewrite <- (same_segs _ _ Sf), U. destruct Sf as (_ & _ & <-). by rewrite Ve.
Qed.

Lemma way_values s fs ss : mid s fs -> covered stateDir s fs -> on_the_way s -> docs stateDir (exts s0) fs0 ->
  disk_leaf stateDir (exts s0) fs ss = disk_leaf stateDir (exts s0) fs0 ss \/
  disk_leaf stateDir (exts s0) fs ss = if saved ss then leaf (tree s0) ss else None.
Proof using All.
  intros M K W D0. pose proof (way_docs s fs M K W D0) as D1. pose proof (way_root s fs M K W) as R.
  assert (kept fs (rootPath stateDir) -> root_leaf stateDir fs ss = root_leaf stateDir fs0 ss) as RK by (intros Kp; unfold root_leaf; by rewrite (kept_json _ _ Kp)).
  assert (root_doc (cfg s) (fileJson fs (rootPath stateDir)) ->
    root_leaf stateDir fs ss = if saved ss && negb (covers (exts s0) ss) then leaf (tree s0) ss else None) as RN.
  { intros Rd. rewrite (root_leaf_doc stateDir _ _ _ Rd). unfold root_values. by rewrite (way_covers s fs ss M), (md_tree _ _ M). }
  unfold disk_leaf. destruct (find (fun e => under (segs e) ss) (exts s0)) as [e|] eqn:Ef.
  - apply find_some in Ef as [He U]. apply list_elem_of_In in He. pose proof (proj1 (Forall_forall _ _) X0 e He) as Xe.
    rewrite (ext_saved stateDir e ss Xe U) in *. cbn [andb] in RN. destruct (e_pendingDelete e) eqn:Pe.
    + assert (covers (exts s0) ss = false) as Cv.
      { apply not_true_is_false. intros X. apply existsb_exists in X as (f & Hf & X). apply list_elem_of_In in Hf. apply andb_true_iff in X as [Vf Uf].
        assert (Some f = Some e) as [= ->] by (by rewrite <- (find_under _ _ ss A0 Hf Uf), <- (find_under _ _ ss A0 He U)). by rewrite Pe in Vf. }
      rewrite Cv in RN. destruct (way_del s fs e M K W He Pe) as [Kp|[-> Rd]]; [|right; by apply RN]. rewrite (kept_json _ _ Kp).
      destruct (fileJson fs0 (e_path e)); [by left|]. destruct R as [[Kr _]|[Rd _]]; [left; by apply RK|right; by apply RN].
    + rewrite (covers_under _ _ _ He Pe U) in RN. cbn [negb] in RN. destruct (way_ext s fs e M K He Pe) as [Kp|[Y Ns]].
      * rewrite (kept_json _ _ Kp). destruct (fileJson fs0 (e_path e)) eqn:E0; [by left|]. destruct R as [[Kr _]|[Rd Sy]]; [left; by apply RK|right].
        rewrite RN by done. symmetry. rewrite <- (md_tree _ _ M). apply (unsynced_leaf stateDir SD HA (cfg s) fs e ss U (Sy e He Pe)). by rewrite (kept_json _ _ Kp).
      * right. rewrite <- (md_tree _ _ M). rewrite <- (synced_leaf stateDir SD HA (cfg s) (exts s0) fs e ss D1 He U Y Ns). unfold disk_leaf.
        by rewrite (find_under _ _ ss A0 He U).
  - assert (covers (exts s0) ss = false) as Cv.
    { apply not_true_is_false. intros X. apply existsb_exists in X as (f & Hf & X). apply andb_true_iff in X as [_ Uf].
      pose proof (find_none _ _ Ef f Hf) as Y. cbn in Y. congruence. }
    rewrite Cv in RN. cbn [negb] in RN. rewrite andb_true_r in RN. destruct R as [[Kr _]|[Rd _]]; [left; by apply RK|right; by apply RN].
Qed.

(** Every point of a flush reads like one between two steps. *)
Lemma way_trail fuel g : forall s fs, mid s fs -> covered stateDir s fs -> stage s -> phase s <> W_wait -> g ∈ trail (flushLoop stateDir fuel s) fs ->
  exists s' fs', mid s' fs' /\ covered stateDir s' fs' /\ on_the_way s' /\ same_reads g fs'.
Proof using All.
  induction fuel as [|fuel IH]; intros s fs M K G N Hg.
  - cbn [flushLoop] in Hg. destruct (phase s); by apply not_elem_of_nil in Hg.
  - pose proof (worker_covered stateDir HA DB s fs K (stage_prints stateDir s fs K G)) as K'. pose proof (mid_step s fs M K G N) as M'.
    assert (on_the_way (next s fs)) as W'.
    { destruct (wait_dec (phase (next s fs))) as [W|W]; [left; by apply settles|right; split; [done|by apply (stage_step stateDir)]]. }
    assert (trail (flushLoop stateDir (Datatypes.S fuel) s) fs = trail (saveStep stateDir s) fs ++ trail (flushLoop stateDir fuel (next s fs)) (next_fs s fs)) as E
      by (cbn [flushLoop]; destruct (phase s); [done|apply trail_bind..]).
    rewrite E in Hg. apply elem_of_app in Hg as [Hg|Hg].
    + destruct (proj1 (Forall_forall _ _) (step_crash s fs K) g Hg) as [Sg|Sg]; [exists s, fs|exists (next s fs), (next_fs s fs)]; split_and!; try done.
      by right.
    + destruct (wait_dec (phase (next s fs))) as [W|W]; [destruct fuel; cbn [flushLoop] in Hg; rewrite W in Hg; by apply not_elem_of_nil in Hg|].
      destruct W' as [(Wt & _)|[_ G']]; [done|]. by eapply IH.
Qed.

End From.

Lemma mid_start s fs jobs : covered stateDir s fs -> phase s = W_blobs jobs -> roomy s fs -> mid s fs s fs.
Proof using All.
  intros K Ep Rm. constructor; try done; rewrite ?Ep; try done.
  - intros f Hf. exists f. by split.
  - intros e He _. exists e. by split.
  - intros f _ Hh. unfold holding in Hh. by rewrite Ep in Hh.
  - intros f _ _. by left.
  - intros e _ _. by left.
Qed.

(** C3: A power cut during a flush. Let the worker be woken with marks in any combination,
    externals to delete among them, over files that a restart could load. However far the
    flush has come when the power goes, a restart loads the files, and each key then has
    the value it would have had before the flush or, if it is a saved key, the one the tree
    has. This is for a file system with room and no faults whose rename replaces its target
    ([VfsSound F true]: LittleFS, not FAT), allocations that succeed, values that print, tree
    files none of which lies inside another ([all_apart], in [covered]), record stores
    elsewhere, and files that hold objects where the externals go ([docs], [roomy]). On FAT
    a cut between the removal of the target and the rename loses the settings. *)
Theorem flush_crash_safe (s : sv) fs fuel g : covered stateDir s fs -> phase s = W_wait -> poked s = true -> flushStopped s = false ->
  all_printable (cfg s) -> docs stateDir (exts s) fs -> roomy s fs ->
  g ∈ trail (bind (saveStep stateDir s) (flushLoop stateDir fuel)) fs ->
  exists before now l0 d0 l d, result (storageLoad stateDir false) fs = Some (before, l0, d0) /\ result (storageLoad stateDir false) g = Some (now, l, d) /\
    forall ss, leaf now ss = leaf before ss \/ leaf now ss = if saved ss then leaf (tree s) ss else None.
Proof using All.
  intros K W Pk St PA D0 Rm Hg. set (s1 := result (saveStep stateDir s) fs).
  assert (prints_ok s) as PR by (unfold prints_ok; by rewrite W). pose proof (worker_covered stateDir HA DB s fs K PR) as K1. fold s1 in K1.
  assert (phase s1 = W_blobs (pendingBlobs s) /\ cfg s1 = cfg s /\ after (saveStep stateDir s) fs = fs /\ trail (saveStep stateDir s) fs = [] /\ flushStopped s1 = false)
    as (P1 & C1 & F1 & T1 & S1) by (unfold s1, saveStep; rewrite W, Pk; done).
  rewrite F1 in K1. rewrite trail_bind, T1, F1 in Hg. cbn [app] in Hg. fold s1 in Hg.
  assert (Forall (ext_ok stateDir) (exts s1)) as X by apply K1. assert (all_apart (exts s1)) as A by apply K1.
  assert (docs stateDir (exts s1) fs) as D1 by (by rewrite C1).
  destruct (way_trail s1 fs X A fuel g s1 fs) as (s' & fs' & M & K' & Wy & Sr).
  - eapply mid_start; [done|exact P1|unfold roomy in *; by rewrite C1].
  - done.
  - unfold stage. by rewrite P1, C1.
  - by rewrite P1.
  - done.
  - pose proof (way_docs s1 fs X A s' fs' M K' Wy D1) as Dw.
    assert (PersistLoad.same_reads stateDir fs' g) as Sr' by (intros b B; symmetry; by apply Sr).
    pose proof (docs_same stateDir SD HA _ fs' g Sr' Dw) as Dg.
    destruct (load_docs stateDir SD HA _ fs D1) as (r0 & l0 & d0 & E0 & L0). destruct (load_docs stateDir SD HA _ g Dg) as (r & l & d & Er & Lr).
    exists r0, r, l0, d0, l, d. split_and!; [done|done|]. intros ss. rewrite L0, Lr, (disk_leaf_same stateDir SD HA _ fs' g ss Sr' Dw), <- C1.
    by apply (way_values s1 fs X A s' fs').
Qed.

End Crash.
