(* ===== verification/PersistDemo.v ===== *)
(** * storage: the files on a concrete device

    File systems in memory, one whose [rename] replaces its target and one, like FAT, whose
    [rename] refuses to, a text form of JSON, witnesses for the theorems about the files,
    and what goes wrong outside their hypotheses. *)

From stdpp Require Import gmap.
From S2P Require Import Prelude CLib Targz TargzRoundtrip StorageDb StorageDbFile Config ConfigTree ConfigOps ConfigSet.
From S2P Require Import Vfs Persist PersistFiles PersistTree PersistSet PersistFlush PersistWork PersistLoad PersistCrash.
Import Tree Ops Actor Files Externals Flush Load Stored.
Import Plain (ci_same, tolower, digits_same, NoStores).
Open Scope Z_scope.
Open Scope spangap_scope.

(** ** A text form of JSON *)

Module Text.

Fixpoint encS (s : bytes) : bytes := match s with [] => [59] | c :: r => 43 :: c :: encS r end.
Fixpoint encP (p : positive) : bytes := match p with xH => [59] | xO p => 48 :: encP p | xI p => 49 :: encP p end.
Definition encZ (z : Z) : bytes := match z with Z0 => [122] | Zpos p => 43 :: encP p | Zneg p => 45 :: encP p end.

Fixpoint enc (j : json) : bytes :=
  match j with
  | JNull => [110]
  | JBool b => [if b then 116 else 102]
  | JNum z => 35 :: encZ z
  | JStr s => 115 :: encS s
  | JNode b l =>
      (if b then 97 else 111) ::
      concat (map (fun c => 44 :: (if b then [] else encS (default [] c.1)) ++ enc c.2) l) ++ [59]
  end.

Fixpoint decS (t : bytes) : option (bytes * bytes) :=
  match t with
  | c :: r =>
      if c =? 59 then Some ([], r)
      else match r with
           | x :: r' => '(s, u) ← decS r'; Some (x :: s, u)
           | [] => None
           end
  | [] => None
  end.

Fixpoint decP (t : bytes) : option (positive * bytes) :=
  match t with
  | c :: r => if c =? 59 then Some (xH, r) else '(p, u) ← decP r; Some ((if c =? 48 then xO p else xI p), u)
  | [] => None
  end.

Definition decZ (t : bytes) : option (Z * bytes) :=
  match t with
  | c :: r => if c =? 122 then Some (0, r) else '(p, u) ← decP r; Some ((if c =? 43 then Zpos p else Zneg p), u)
  | [] => None
  end.

(** A value, or the rest of a node whose children so far are [acc]. *)
Fixpoint dec (fuel : nat) (node : option (bool * kids)) (t : bytes) : option (json * bytes) :=
  match fuel, t with
  | S f, c :: r =>
      match node with
      | None =>
          if c =? 110 then Some (JNull, r)
          else if c =? 116 then Some (JBool true, r)
          else if c =? 102 then Some (JBool false, r)
          else if c =? 35 then '(z, u) ← decZ r; Some (JNum z, u)
          else if c =? 115 then '(s, u) ← decS r; Some (JStr s, u)
          else dec f (Some (c =? 97, [])) r
      | Some (b, acc) =>
          if c =? 59 then Some (JNode b acc, r)
          else
            '(nm, u) ← (if b : bool then Some (None, r) else '(s, u) ← decS r; Some (Some s, u));
            '(v, w) ← dec f None u;
            dec f (Some (b, acc ++ [(nm, v)])) w
      end
  | _, _ => None
  end.

Lemma decS_enc s r : decS (encS s ++ r) = Some (s, r).
Proof. induction s as [|c s IH]; [done|]. cbn [encS app decS]. change (43 =? 59) with false. cbn iota. by rewrite IH. Qed.

Lemma decP_enc p r : decP (encP p ++ r) = Some (p, r).
Proof. induction p as [p IH|p IH|]; cbn [encP app decP]; [|..|done]; (change (49 =? 59) with false || change (48 =? 59) with false); cbn iota; by rewrite IH. Qed.

Lemma decZ_enc z r : decZ (encZ z ++ r) = Some (z, r).
Proof. destruct z; cbn [encZ app decZ]; [done|..]; (change (43 =? 122) with false || change (45 =? 122) with false); cbn iota; by rewrite decP_enc. Qed.

Definition child (b : bool) (c : option bytes * json) : bytes := 44 :: (if b then [] else encS (default [] c.1)) ++ enc c.2.

Section Codec.
Context `{CJ : CJson} `{L : !CJsonLaws CJ}.

Lemma dec_enc j : jgood j -> forall fuel r, (length (enc j) <= fuel)%nat -> dec fuel None (enc j ++ r) = Some (norm j, r).
Proof.
  induction j as [|b|z|s|b l IH] using json_rect'; intros G fuel r Hf.
  - destruct fuel; [cbn in Hf; lia|done].
  - destruct fuel; [cbn in Hf; lia|]. by destruct b.
  - destruct fuel; [cbn in Hf; lia|]. cbn [enc app dec]. change (dec (S fuel) None (35 :: encZ z ++ r)) with ('(z, u) ← decZ (encZ z ++ r); Some (JNum z, u)).
    by rewrite decZ_enc.
  - destruct fuel; [cbn in Hf; lia|]. change (dec (S fuel) None (enc (JStr s) ++ r)) with ('(z, u) ← decS (encS s ++ r); Some (JStr z, u)).
    by rewrite decS_enc.
  - destruct fuel as [|fuel]; [cbn in Hf; lia|].
    assert (dec (S fuel) None (enc (JNode b l) ++ r) = dec fuel (Some (b, [])) (concat (map (child b) l) ++ [59] ++ r)) as ->.
    { cbn [enc]. rewrite app_assoc. fold (child b). by destruct b. }
    assert (length (concat (map (child b) l)) + 1 <= fuel)%nat as Hl.
    { cbn [enc length] in Hf. rewrite length_app in Hf. unfold child. cbn in Hf |- *. lia. }
    apply jgood_node in G as (Nm & _ & Gl). clear Hf.
    enough (forall acc, dec fuel (Some (b, acc)) (concat (map (child b) l) ++ [59] ++ r) =
      Some (JNode b (acc ++ map (fun c => (if b then None else c.1, norm c.2)) l), r)) as Kids by exact (Kids []).
    revert fuel Hl. induction l as [|c l IHl]; intros fuel Hl acc.
    + destruct fuel; [cbn in Hl; lia|]. cbn [map concat app dec]. rewrite app_nil_r. done.
    + apply Forall_cons in IH as [I1 I2]. apply Forall_cons in Nm as [N1 N2]. apply Forall_cons in Gl as [G1 G2].
      cbn [map concat] in Hl |- *. rewrite length_app in Hl. destruct fuel as [|fuel]; [lia|]. unfold child at 1 in Hl. cbn [length] in Hl. rewrite length_app in Hl.
      unfold child at 1. rewrite <- !app_assoc. cbn [app]. cbn [dec]. change (44 =? 59) with false. cbn iota.
      assert ((if b then Some (None, ((if b then [] else encS (default [] c.1)) ++ enc c.2) ++ concat (map (child b) l) ++ 59 :: r)
               else '(s, u) ← decS (((if b then [] else encS (default [] c.1)) ++ enc c.2) ++ concat (map (child b) l) ++ 59 :: r); Some (Some s, u))
              = Some (if b then None else c.1, enc c.2 ++ concat (map (child b) l) ++ 59 :: r)) as ->.
      { destruct b; [done|]. rewrite <- app_assoc, decS_enc. cbn. by destruct (c.1) as [n|] eqn:E; [|unfold child_ok in N1; rewrite E in N1]. }
      cbn [mbind option_bind]. rewrite I1 by (done || lia). cbn [mbind option_bind]. rewrite (IHl I2 N2 G2 fuel ltac:(lia)).
      by rewrite <- app_assoc.
Qed.

Lemma str_ok_cons c s : 0 < c < 256 -> str_ok s -> str_ok (c :: s).
Proof. intros Hc [B N]. split; [constructor; [unfold is_byte; lia|done]|]. apply not_elem_of_cons. split; [lia|done]. Qed.

Lemma encS_ok s : str_ok s -> str_ok (encS s).
Proof.
  intros [B N]. induction s as [|c s IH]; [by apply str_okb_ok|]. apply Forall_cons in B as [B1 B2]. apply not_elem_of_cons in N as [N1 N2].
  cbn [encS]. apply str_ok_cons; [lia|]. apply str_ok_cons; [unfold is_byte in B1; lia|]. by apply IH.
Qed.

Lemma str_ok_app a b : str_ok a -> str_ok b -> str_ok (a ++ b).
Proof. intros [A1 A2] [B1 B2]. split; [by apply Forall_app|]. by rewrite not_elem_of_app. Qed.

Lemma encP_ok p : str_ok (encP p).
Proof. induction p; cbn [encP]; [by apply str_ok_cons|by apply str_ok_cons|by apply str_okb_ok]. Qed.

Lemma enc_ok j : jgood j -> str_ok (enc j).
Proof.
  induction j as [|b|z|s|b l IH] using json_rect'; intros G.
  - by apply str_okb_ok.
  - destruct b; by apply str_okb_ok.
  - cbn [enc]. apply str_ok_cons; [lia|]. destruct z; cbn [encZ]; [by apply str_okb_ok|apply str_ok_cons, encP_ok; lia..].
  - cbn [enc]. apply str_ok_cons; [lia|]. by apply encS_ok.
  - cbn [enc]. apply str_ok_cons; [by destruct b|]. apply str_ok_app; [|by apply str_okb_ok]. apply jgood_node in G as (Nm & _ & Gl).
    induction l as [|c l IHl]; [by apply str_okb_ok|]. apply Forall_cons in IH as [I1 I2]. apply Forall_cons in Nm as [N1 N2]. apply Forall_cons in Gl as [G1 G2].
    cbn [map concat]. apply str_ok_app; [|by apply IHl]. apply str_ok_cons; [lia|]. apply str_ok_app; [|by apply I1].
    destruct b; [by apply str_okb_ok|]. apply encS_ok. unfold child_ok in N1. destruct c.1 as [n|]; [done|by apply str_okb_ok].
Qed.

End Codec.

Definition parse (t : bytes) : option json := match dec (length t) None t with Some (j, []) => Some j | _ => None end.

#[export] Instance TextJson : CJson := {|
  cJSON_find := kpos ci_same;
  cJSON_AddItemToObject l k v := l ++ [(Some k, v)];
  cJSON_DeleteItemFromObject l k := match kpos ci_same l k with Some i => delete i l | None => l end;
  cJSON_AddItemToArray l c := l ++ [c];
  cJSON_DeleteItemFromArray l i := delete (Z.to_nat i) l;
  cJSON_ReplaceItemInArray l i c := <[Z.to_nat i := c]> l;
  cJSON_Duplicate c := c;
  cJSON_ParseWithLength := parse;
  cJSON_PrintUnformatted j := Some (enc j) |}.

#[export] Instance TextJsonLaws : CJsonLaws TextJson.
Proof.
  refine {| cj_same := ci_same |}; unfold ci_same; try done.
  - intros a. by apply bool_decide_eq_true.
  - intros a b. apply bool_decide_ext. split; congruence.
  - intros a b c H1%bool_decide_eq_true H2%bool_decide_eq_true. apply bool_decide_eq_true. congruence.
  - intros a b Ha Hs%bool_decide_eq_true. by apply digits_same.
Defined.

#[export] Instance TextParse : CJsonParse := {| cJSON_Parse := parse |}.

#[export] Instance TextLaws : CJsonText TextJson TextParse.
Proof.
  split; [|done]. intros j t G [= <-]. destruct (enc_ok j G) as [B N]. split_and!; [done|done|by destruct j|].
  cbn [cJSON_Parse TextParse]. unfold parse. pose proof (dec_enc j G (length (enc j)) [] (Nat.le_refl _)) as E. rewrite app_nil_r in E. by rewrite E.
Qed.

End Text.
Import Text.

(** ** Files in memory *)

Module Disk.

Record disk (replaces : bool) := Disk { contents : gmap bytes bytes }.
Arguments contents {replaces}. Arguments Disk {replaces}.

Definition nameIn (d : bytes) (kv : bytes * bytes) : option bytes :=
  if has_prefix (d ++ [chr "/"]) kv.1 then Some (drop (length (d ++ [chr "/"])) kv.1) else None.

#[export] Instance DiskVfs b : Vfs (disk b) := {|
  vfs_stat fs p := Zlen <$> contents fs !! p;
  vfs_fopen_rb fs p := bool_decide (is_Some (contents fs !! p));
  vfs_fread fs p n := take (Z.to_nat n) (default [] (contents fs !! p));
  vfs_fopen_w fs p := (true, Disk (<[p := []]> (contents fs)));
  vfs_fwrite fs p d := (Zlen d, Disk (<[p := default [] (contents fs !! p) ++ d]> (contents fs)));
  vfs_rename fs p q :=
    match contents fs !! p with
    | Some c => if b || bool_decide (contents fs !! q = None) then (true, Disk (<[q := c]> (delete p (contents fs)))) else (false, fs)
    | None => (false, fs)
    end;
  vfs_remove fs p := Disk (delete p (contents fs));
  vfs_mkdir fs p := fs;
  vfs_readdir fs d := Some (omap (nameIn d) (map_to_list (contents fs))) |}.

#[export] Instance DiskLaws b : VfsLaws (disk b).
Proof.
  refine {| file fs p := contents fs !! p |}; cbn.
  - by intros fs p c ->.
  - by intros fs p n ->.
  - intros fs p c ->. by apply bool_decide_eq_true_2.
  - intros fs p c ->. cbn. apply take_ge. unfold Zlen. lia.
  - intros fs p ok fs' [= <- <-]. cbn. split; [intros q Hq; by rewrite lookup_insert_ne|by rewrite lookup_insert_eq].
  - intros fs p d n fs' c [= <- <-] ->. cbn. pose proof (Zlen_nonneg d). split; [lia|].
    split; [intros q Hq; by rewrite lookup_insert_ne|]. rewrite lookup_insert_eq. rewrite take_ge; [done|unfold Zlen; lia].
  - intros fs p q ok fs' E N. destruct (contents fs !! p) as [c|] eqn:Ep; [|by injection E as <- <-].
    destruct (b || bool_decide (contents fs !! q = None)); injection E as <- <-; [|done]. cbn. split_and!.
    + intros r R1 R2. by rewrite lookup_insert_ne, lookup_delete_ne by done.
    + by rewrite lookup_insert_eq.
    + rewrite lookup_insert_ne by done. apply lookup_delete_eq.
    + done.
  - intros fs p. split; [intros q Hq; by rewrite lookup_delete_ne|left; apply lookup_delete_eq].
  - done.
  - intros fs d ns n [= <-] [c Hc]. apply list_elem_of_omap. exists (d ++ [chr "/"] ++ n, c). split; [by apply elem_of_map_to_list|].
    unfold nameIn. cbn [fst]. rewrite app_assoc, (proj2 (has_prefix_true _ _)) by (by eexists). by rewrite drop_app_length.
Defined.

#[export] Instance DiskSound b : VfsSound (disk b) b.
Proof.
  split; cbn; try done.
  - intros fs p q [c ->] [->|E]; [by rewrite bool_decide_true, orb_true_r|]. by destruct b.
  - intros fs p. apply lookup_delete_eq.
Qed.

#[export] Instance BigHeap b : Heap (disk b) := {|
  gp_alloc _ _ := true; gp_junk _ _ := []; TDEFL_SIZE := 160000; TINFL_SIZE := 11000 |}.

Lemma big_heap b : heap_ok (F := disk b).
Proof. done. Qed.

#[export] Existing Instance NoStores.

#[export] Instance NoImages : SdbFiles unit := {| sdbDirtyImages d := (d, [], []) |}.

End Disk.
Import Disk.

(** ** A device *)

Definition DIR : bytes := $ "/state".

Definition obj (l : list (string * json)) : json := JNode false (map (fun p => (Some (str p.1), p.2)) l).

Definition demo_tree : kids :=
  [(Some ($ "s"), obj [("n", JNum 4); ("mail", obj [("a", JStr ($ "x"))])]%string); (Some ($ "secrets"), obj [("k", JStr ($ "pw"))]%string);
   (Some ($ "wifi"), obj [("up", JNum 1)]%string)].

Definition ext (p : string) (dirty deleted : bool) : external_t :=
  {| e_prefix := str p; e_path := externalPath DIR (str p); e_dirty := dirty; e_pendingDelete := deleted |}.

Definition cfg_with (r : kids) (l : list external_t) (dirty : bool) : cfg_st unit :=
  {| cfgRoot := r; externals := l; rootDirty := dirty; savePending := true; saveDelay := 0; subs := []; pendingSaveSems := [7]; db := tt |}.

Definition idle (c : cfg_st unit) : save_st unit :=
  {| cfg := c; flushStopped := false; pendingBlobs := [($ "/state/blob", [1; 2; 3])]; poked := true; phase := W_wait; given := [] |}.

(** A tree file never written, one to be deleted whose file is there, and the root to be written. *)
Definition demo : save_st unit := idle (cfg_with demo_tree [ext "s.mail" true false; ext "s.old" false true] true).

Definition old_path : bytes := externalPath DIR ($ "s.old").
Definition demo_fs b : disk b := Disk {[ old_path := enc (obj [("z", JNum 9)]%string) ]}.

Ltac json_good :=
  match goal with
  | |- jgood (JNode _ _) => apply jgood_node; split_and!; [|intros _; vm_compute; repeat split|]; json_good
  | |- Forall (child_ok _) _ => repeat (apply Forall_cons; split; [apply str_okb_ok; vm_compute; reflexivity|]); constructor
  | |- Forall _ _ => repeat (apply Forall_cons; split; [cbn [snd]; json_good|]); constructor
  | |- jgood (JStr _) => apply str_okb_ok; vm_compute; reflexivity
  | |- _ => cbn; lia
  end.

Lemma demo_good : jgood (JNode false demo_tree).
Proof. unfold demo_tree, obj. cbn [map]. json_good. Qed.

Lemma foreign_last p c : last p = Some c -> c <> 110 -> c <> 122 -> c <> 0 -> foreign DIR p.
Proof.
  intros Lp N1 N2 N3 b q B Hq Hf. destruct (base_end DIR b B) as [b' Eb].
  assert (last q = Some c \/ last q = Some 119) as Lq.
  { rewrite !elem_of_cons, elem_of_nil in Hq. unfold tmpOf in Hq. change ($ ".new") with ([46; 110; 101] ++ [119]) in Hq. rewrite !app_assoc in Hq.
    destruct Hq as [->|[->|[->|[]]]]; [by left|right; apply last_snoc..]. }
  unfold forms in Hf. rewrite !elem_of_cons, elem_of_nil in Hf. change GZ with ([46; 103] ++ [122]) in Hf. rewrite app_assoc, Eb in Hf.
  destruct Hf as [->|[->|[]]]; rewrite last_snoc in Lq; destruct Lq as [[=]|[=]]; congruence.
Qed.

Lemma disk_reads b p : base DIR p -> readJsonFile (demo_fs b) p = Some (if bool_decide (p = old_path) then Some (enc (obj [("z", JNum 9)]%string)) else None).
Proof.
  intros B. rewrite (readJson_file (big_heap b)) by (by eapply base_ok). cbn [file DiskLaws demo_fs contents].
  rewrite lookup_singleton_ne; [|destruct (base_gz_neq DIR old_path p) as [N _]; [right; by eexists|done|congruence]].
  case_bool_decide as E; [rewrite E, lookup_singleton_eq; vm_compute; reflexivity|]. by rewrite lookup_singleton_ne.
Qed.

Lemma demo_covered b : covered (F := disk b) DIR demo (demo_fs b).
Proof.
  constructor.
  - apply demo_good.
  - repeat (apply Forall_cons; split); [| |constructor]; (split_and!; [split; [apply good_segs; vm_compute; reflexivity|]|vm_compute; reflexivity..|reflexivity]);
      repeat (apply Forall_cons; split; [apply str_okb_ok; vm_compute; reflexivity|]); constructor.
  - repeat split; try constructor; [vm_compute; reflexivity|constructor].
  - repeat (apply Forall_cons; split); [vm_compute; exact Logic.I..|constructor].
  - intros p B. by rewrite disk_reads.
  - intros p N. left. unfold fileJson, textJson in N. rewrite disk_reads in N by (right; by eexists). case_bool_decide as E; [|done].
    apply externalPath_inj in E. exists (ext "s.old" false true). split; [right; by left|done].
  - intros e He Vl Dt. apply elem_of_cons in He as [->|He]; [exists [$ "a"]; vm_compute; discriminate|].
    apply list_elem_of_singleton in He as ->. done.
  - intros e He Vl. apply elem_of_cons in He as [->|He]; [by left|]. apply list_elem_of_singleton in He as ->. done.
  - by left.
  - exact Logic.I.
  - apply Forall_singleton. by apply (foreign_last _ 98).
Qed.

Lemma demo_elsewhere : sdb_elsewhere (D := unit) DIR.
Proof. intros []. split; constructor. Qed.

Definition nine : json := obj [("z", JNum 9)]%string.
Definition ten : json := obj [("z", JNum 10)]%string.
Definition rewrite_old : io (disk true) bool := atomicWriteJsonGz old_path (enc ten).

(** The temporary is half written. *)
Definition cut : disk true := nth 1 (trail rewrite_old (demo_fs true)) (demo_fs true).

Lemma nth_trail {A F} (m : io F A) fs k d : (k <? length (trail m fs))%nat = true -> nth k (trail m fs) d ∈ trail m fs.
Proof. intros E. apply list_elem_of_In, nth_In. by apply Nat.ltb_lt. Qed.

Lemma json_write_crash_safe_witness : (fileJson cut old_path = Some nine \/ fileJson cut old_path = Some ten) /\
  result rewrite_old (demo_fs true) = true /\ fileJson (after rewrite_old (demo_fs true)) old_path = Some ten.
Proof.
  destruct (json_write_crash_safe (F := disk true) (big_heap true) old_path (enc ten) (demo_fs true) cut) as (E & _ & R & A).
  - apply (base_ok DIR). right. by eexists.
  - constructor; [|apply (bool_decide_unpack _); vm_compute; exact Logic.I|discriminate|vm_compute; discriminate].
    apply (str_okb_ok (enc ten)). vm_compute. reflexivity.
  - apply nth_trail. vm_compute. reflexivity.
  - split; [|split; [exact R|unfold fileJson; unfold rewrite_old; rewrite A; vm_compute; reflexivity]].
    destruct E as [E|E]; [left|right]; unfold fileJson; rewrite E; vm_compute; reflexivity.
Defined.

Lemma demo_all_printable : all_printable (cfg demo).
Proof.
  split.
  - intros e n He En. apply elem_of_cons in He as [->|He].
    + vm_compute in En. injection En as <-. eexists. split; [reflexivity|]. vm_compute. discriminate.
    + apply list_elem_of_singleton in He as ->. vm_compute in En. discriminate.
  - eexists. split; [reflexivity|]. vm_compute. discriminate.
Qed.

Lemma flush_then_reload_witness : exists fuel s' r l d,
  let wake := saveStep (F := disk true) DIR demo in
  result (flushLoop DIR fuel (result wake (demo_fs true))) (after wake (demo_fs true)) = Some s' /\ settled s' /\
  result (storageLoad DIR false) (after (flushLoop DIR fuel (result wake (demo_fs true))) (after wake (demo_fs true))) = Some (r, l, d) /\
  leaf r [$ "s"; $ "mail"; $ "a"] = Some ($ "x") /\ leaf r [$ "secrets"; $ "k"] = Some ($ "pw") /\ leaf r [$ "wifi"; $ "up"] = None /\
  leaf r [$ "s"; $ "old"; $ "z"] = None.
Proof.
  destruct (flush_then_reload (F := disk true) DIR eq_refl (big_heap true) demo (demo_fs true))
    as (fuel & s' & E & Z & _ & r & l & d & El & Lf).
  - exact demo_elsewhere.
  - exact (demo_covered true).
  - reflexivity.
  - reflexivity.
  - reflexivity.
  - exact demo_all_printable.
  - exists fuel, s', r, l, d. split; [exact E|]. split; [exact Z|]. split; [exact El|]. rewrite !Lf. vm_compute. repeat split.
Defined.

(** The power goes after the root file's temporary has been opened. *)
Local Notation whole := (bind (saveStep (F := disk true) DIR demo) (flushLoop DIR 40)).
Definition dark : disk true := nth 9 (trail whole (demo_fs true)) (demo_fs true).

Lemma demo_docs : docs DIR (externals (cfg demo)) (demo_fs true).
Proof.
  pose proof (demo_covered true) as K. constructor; try apply K.
  - intros p N. destruct (cv_stale _ _ _ K p N) as [?|E]; [done|discriminate].
  - intros e n He En. apply elem_of_cons in He as [->|He]; [vm_compute in En; discriminate|]. apply list_elem_of_singleton in He as ->.
    vm_compute in En. injection En as <-. change (jgood nine). unfold nine, obj. cbn [map]. json_good.
Qed.

Lemma dark_passed : dark ∈ trail whole (demo_fs true).
Proof. unfold dark. apply (nth_trail whole (demo_fs true) 9 (demo_fs true)). vm_compute. reflexivity. Qed.

Lemma flush_crash_safe_witness : exists now l d, result (storageLoad DIR false) dark = Some (now, l, d) /\
  (leaf now [$ "s"; $ "n"] = None \/ leaf now [$ "s"; $ "n"] = Some ($ "4")) /\
  (leaf now [$ "s"; $ "old"; $ "z"] = Some ($ "9") \/ leaf now [$ "s"; $ "old"; $ "z"] = None).
Proof.
  destruct (flush_crash_safe (F := disk true) DIR eq_refl (big_heap true) demo_elsewhere demo (demo_fs true) 40 dark)
    as (before & now & l0 & d0 & l & d & E0 & E & Or).
  - exact (demo_covered true).
  - reflexivity.
  - reflexivity.
  - reflexivity.
  - exact demo_all_printable.
  - exact demo_docs.
  - vm_compute. exact Logic.I.
  - exact dark_passed.
  - exists now, l, d. split; [exact E|]. vm_compute in E0. injection E0 as <- <- <-. split.
    + destruct (Or [$ "s"; $ "n"]) as [A|A]; [left|right]; rewrite A; vm_compute; reflexivity.
    + destruct (Or [$ "s"; $ "old"; $ "z"]) as [A|A]; [left|right]; rewrite A; vm_compute; reflexivity.
Defined.

(** A write to the tree file that comes while the worker writes blobs. *)
Definition mailA : list bytes := [$ "s"; $ "mail"; $ "a"].
Definition woken : save_st unit := result (saveStep (F := disk true) DIR demo) (demo_fs true).
Definition demo_set : cfg_st unit :=
  match commit (cfg woken) false [opAppendKV (chr "S") (path_of mailA) ($ "y")] (Some 1) None with
  | Some (c, _) => c
  | None => cfg woken
  end.

Lemma demo_set_ok : set_ok woken mailA ($ "y").
Proof.
  constructor; try (vm_compute; reflexivity); try discriminate.
  - apply good_segs. vm_compute. reflexivity.
  - repeat (apply Forall_cons; split; [apply str_okb_ok; vm_compute; reflexivity|]); constructor.
  - apply str_okb_ok. vm_compute. reflexivity.
  - split; done.
  - intros e He. apply elem_of_cons in He as [->|He]; [right; split; [done|]; exists [$ "a"]; vm_compute; reflexivity|].
    apply list_elem_of_singleton in He as ->. left. vm_compute. reflexivity.
Qed.

Lemma interleaved_writes_survive_witness : exists s' fs' r l d,
  rtc (istep (F := disk true) DIR) (demo, demo_fs true) (s', fs') /\ settled s' /\
  result (storageLoad DIR false) fs' = Some (r, l, d) /\
  leaf r mailA = Some ($ "y") /\ leaf r [$ "s"; $ "n"] = Some ($ "4") /\ leaf r [$ "s"; $ "old"; $ "z"] = None.
Proof.
  assert (istep (F := disk true) DIR (demo, demo_fs true) (woken, demo_fs true)) as S1.
  { apply (I_worker (F := disk true) DIR demo (demo_fs true)). exact Logic.I. }
  assert (istep (F := disk true) DIR (woken, demo_fs true) (set_cfg woken demo_set, demo_fs true)) as S2.
  { eapply (I_set DIR woken (demo_fs true) mailA ($ "y") false (Some 1) None); [exact demo_set_ok|]. vm_compute. reflexivity. }
  assert (covered (F := disk true) DIR (set_cfg woken demo_set) (demo_fs true)) as K.
  { apply (istep_covered DIR _ _ (big_heap true) demo_elsewhere S2), (istep_covered DIR _ _ (big_heap true) demo_elsewhere S1), demo_covered. }
  destruct (flush_steps DIR (set_cfg woken demo_set) (demo_fs true) (big_heap true) demo_elsewhere K) as (s' & fs' & R & Z & Vs).
  - split; [|reflexivity]. split.
    + intros e n He En. apply elem_of_cons in He as [->|He].
      * vm_compute in En. injection En as <-. eexists. split; [reflexivity|]. vm_compute. discriminate.
      * apply list_elem_of_singleton in He as ->. vm_compute in En. discriminate.
    + eexists. split; [reflexivity|]. vm_compute. discriminate.
  - vm_compute. discriminate.
  - assert (rtc (istep (F := disk true) DIR) (demo, demo_fs true) (s', fs')) as R' by (eapply rtc_l; [exact S1|]; eapply rtc_l; [exact S2|exact R]).
    destruct (interleaved_writes_survive (F := disk true) DIR eq_refl (big_heap true) demo s' (demo_fs true) fs' demo_elsewhere (demo_covered true) R')
      as [_ Ld].
    destruct (Ld Z) as (r & l & d & El & Lf). exists s', fs', r, l, d. split; [exact R'|]. split; [exact Z|]. split; [exact El|].
    rewrite !Lf, !Vs. vm_compute. repeat split.
Defined.

(** ** Outside the hypotheses *)

Definition flushed {b} (s : save_st unit) (fs : disk b) : option (save_st unit) * disk b :=
  let m := (let* s := saveStep DIR s in flushLoop DIR 40 s) in (result m fs, after m fs).

Definition loaded {b} (fs : disk b) (ss : list bytes) : option bytes :=
  match result (storageLoad DIR false) fs with Some (r, _, _) => leaf r ss | None => None end.

(** The settings are in the file; the same file is written again. *)
Definition card : disk false := (flushed demo (demo_fs false)).2.
Definition again : io (disk false) bool := atomicWriteJsonGz (rootPath DIR) (enc (rootParts demo_tree)).

(** On a file system whose rename refuses an existing target the worker removes the target
    first. A power cut right then leaves the settings in the temporary only, and the next
    start loads none of them and removes the temporary. *)
Theorem fat_cut_loses_settings :
  loaded card [$ "s"; $ "n"] = Some ($ "4") /\
  exists g, g ∈ trail again card /\ loaded g [$ "s"; $ "n"] = None /\
    is_Some (file g (rootPath DIR ++ $ ".gz.new")) /\ file (after (storageLoad DIR false) g) (rootPath DIR ++ $ ".gz.new") = None.
Proof.
  split; [vm_compute; reflexivity|]. exists (nth 3 (trail again card) card).
  split; [apply list_elem_of_In, nth_In; apply Nat.ltb_lt; vm_compute; reflexivity|].
  split; [vm_compute; reflexivity|]. split; [eexists; vm_compute; reflexivity|vm_compute; reflexivity].
Qed.

(** Steps of the worker, with a write of the actor after [k] of them. *)
Fixpoint steps (k : nat) (s : save_st unit) (fs : disk true) : save_st unit * disk true :=
  match k with
  | O => (s, fs)
  | S k => steps k (result (saveStep DIR s) fs) (after (saveStep DIR s) fs)
  end.

Definition set_at (s : save_st unit) (key val : bytes) : save_st unit :=
  match commit (cfg s) false [opAppendKV (chr "S") key val] (Some 1) None with Some (c, _) => set_cfg s c | None => s end.

Definition in_window : save_st unit * disk true := steps 10 demo (demo_fs true).

(** A write to the root file's part while the worker writes its copy: the mark it sets is
    cleared when the write ends. The worker then waits with no mark, the tree has the new
    value, and a restart brings back the old one. *)
Theorem window_write_lost :
  open_window in_window.1 = true /\
  let '(s, fs) := steps 8 (set_at in_window.1 ($ "s.n") ($ "5")) in_window.2 in
  phase s = W_wait /\ rootDirty (cfg s) = false /\ Forall (fun e => e_dirty e = false) (externals (cfg s)) /\
  leaf (cfgRoot (cfg s)) [$ "s"; $ "n"] = Some ($ "5") /\ loaded fs [$ "s"; $ "n"] = Some ($ "4").
Proof. vm_compute. repeat split; repeat constructor. Qed.

(** A tree file inside another's part: writes below it mark the outer one only, and at the
    next start the inner file, loaded last, brings the old value back. *)
Definition nest_tree : kids := [(Some ($ "s"), obj [("a", obj [("b", obj [("c", JNum 1)])])]%string)].
Definition nest : save_st unit := idle (cfg_with nest_tree [ext "s.a" true false; ext "s.a.b" true false] true).

Theorem nested_write_reverted :
  let fs := (flushed nest (Disk (replaces := true) ∅)).2 in
  loaded fs [$ "s"; $ "a"; $ "b"; $ "c"] = Some ($ "1") /\
  match (flushed nest (Disk (replaces := true) ∅)).1 with
  | Some s =>
      let s := set_at s ($ "s.a.b.c") ($ "2") in
      leaf (cfgRoot (cfg s)) [$ "s"; $ "a"; $ "b"; $ "c"] = Some ($ "2") /\
      loaded (flushed (requestSave s) fs).2 [$ "s"; $ "a"; $ "b"; $ "c"] = Some ($ "1")
  | None => False
  end.
Proof. vm_compute. repeat split. Qed.
