(* ===== verification/SdbRoute.v ===== *)
(** * storage: routing dot-paths to the structured stores (src/esp-idf/src/storage.cpp)

    [Route]: the registrations, how a key is matched against their patterns, and the
    instances they own. [Access]: reading, enumerating, writing and dropping through the
    router, the locked part of the flush, and the registration. [SdbInstances]: these as
    the interfaces [SdbRouter] and [SdbFiles] through which the actor and the persist
    worker use them.

    [None] at the outside of a result is a memory fault of the store primitive, or a
    registration index outside the table, which [sdbRoute] never gives. What the
    heap answers while a call runs is an argument of the call, an [oracle]: it differs from
    one call to the next as the caller likes. The order in which an unordered map is walked is that of [gmap]. *)

From stdpp Require Import gmap.
From S2P Require Import Prelude CLib Targz StorageDb Config.
Import Schema Block Store Tree Ops Actor.
Open Scope Z_scope.
Open Scope spangap_scope.

Module Route.

Inductive storage_db_evict := STORAGE_DB_RELOAD | STORAGE_DB_DROP.

(** [insts]: the joined binds of an instance to its store. *)
Record sdb_reg := {
  r_name : bytes; r_pat : list bytes; litPrefix : bytes; filePat : bytes; r_schema : sdb_schema;
  r_persist : bool; evict : storage_db_evict; r_cap : Z; browserMirror : bool;
  insts : gmap bytes sdb_store
}.

(** [g_sdbRegs], [g_sdbPendingDeletes], and the directories [fs_mkdirp] was asked for. *)
Record sdb_db := { g_sdbRegs : list sdb_reg; g_sdbPendingDeletes : list bytes; mkdirs : list bytes }.

Definition with_insts (r : sdb_reg) (m : gmap bytes sdb_store) : sdb_reg :=
  {| r_name := r_name r; r_pat := r_pat r; litPrefix := litPrefix r; filePat := filePat r; r_schema := r_schema r;
     r_persist := r_persist r; evict := evict r; r_cap := r_cap r; browserMirror := browserMirror r; insts := m |}.
Definition with_regs (d : sdb_db) (l : list sdb_reg) : sdb_db :=
  {| g_sdbRegs := l; g_sdbPendingDeletes := g_sdbPendingDeletes d; mkdirs := mkdirs d |}.
Definition with_deletes (d : sdb_db) (l : list bytes) : sdb_db :=
  {| g_sdbRegs := g_sdbRegs d; g_sdbPendingDeletes := l; mkdirs := mkdirs d |}.
Definition with_mkdirs (d : sdb_db) (l : list bytes) : sdb_db :=
  {| g_sdbRegs := g_sdbRegs d; g_sdbPendingDeletes := g_sdbPendingDeletes d; mkdirs := l |}.

Definition DOT : Z := chr ".".
Definition SEP : Z := 0x1f.
Definition WILD : bytes := $ "$".

(** The loop of [splitDots]; each round but the last drops a dot. *)
Fixpoint dotLoop (fuel : nat) (p : bytes) : list bytes :=
  match fuel, p with
  | S f, _ :: _ =>
      match strchr p DOT with
      | None => [p]
      | Some (seg, rest) => seg :: dotLoop f rest
      end
  | _, _ => []
  end.

Definition splitDots (key : bytes) : list bytes :=
  dotLoop (length key) key ++ (if bool_decide (last key = Some DOT) then [[]] else []).

(** [$1]..[$9] are the bound values; one that is not bound is nothing. *)
Fixpoint sdbSubst (p : bytes) (binds : list bytes) : bytes :=
  match p with
  | [] => []
  | c :: rest =>
      match rest with
      | d :: rest' =>
          if (c =? chr "$") && (chr "1" <=? d) && (d <=? chr "9")
          then default [] (binds !! Z.to_nat (d - chr "1")) ++ sdbSubst rest' binds
          else c :: sdbSubst rest binds
      | [] => [c]
      end
  end.

Fixpoint joinBinds (b : list bytes) : bytes :=
  match b with
  | [] => []
  | [x] => x
  | x :: b' => x ++ SEP :: joinBinds b'
  end.

(** The registration by its index in [g_sdbRegs]. *)
Record sdb_match := { m_reg : nat; m_binds : list bytes; m_tail : list bytes }.

(** Pattern segments against key segments: the binds and the segments after. *)
Fixpoint matchPat (pat segs : list bytes) : option (list bytes * list bytes) :=
  match pat, segs with
  | [], _ => Some ([], segs)
  | _ :: _, [] => None
  | p :: pat', s :: segs' =>
      if streq p WILD then '(b, t) ← matchPat pat' segs'; Some (s :: b, t)
      else if streq p s then matchPat pat' segs' else None
  end.

(** [strncmp] over the shorter of the two. *)
Definition candidate (key : bytes) (r : sdb_reg) : bool :=
  let n := Nat.min (length key) (length (litPrefix r)) in
  (Zlen (litPrefix r) =? 0) || streq (take n key) (take n (litPrefix r)).

Fixpoint routeLoop (i : nat) (rs : list sdb_reg) (segs : list bytes) : option sdb_match :=
  match rs with
  | [] => None
  | r :: rs' =>
      match matchPat (r_pat r) segs with
      | Some (b, t) => Some {| m_reg := i; m_binds := b; m_tail := t |}
      | None => routeLoop (S i) rs' segs
      end
  end.

Definition sdbRoute (d : sdb_db) (key : bytes) : option sdb_match :=
  match g_sdbRegs d with
  | [] => None
  | rs => if negb (existsb (candidate key) rs) then None else routeLoop 0 rs (splitDots key)
  end.

Definition sdbRoutes (d : sdb_db) (key : bytes) : bool := bool_decide (is_Some (sdbRoute d key)).

(** The part before the last slash. *)
Fixpoint beforeSlash (p : bytes) : option bytes :=
  match p with
  | [] => None
  | c :: p' =>
      match beforeSlash p' with
      | Some q => Some (c :: q)
      | None => if c =? chr "/" then Some [] else None
      end
  end.

Definition mkdirpParent (filePath : bytes) (d : sdb_db) : sdb_db :=
  match beforeSlash filePath with
  | Some dir => with_mkdirs d (mkdirs d ++ [dir])
  | None => d
  end.

(** The store of an instance that has just been found. *)
Definition newStore (stateDir : bytes) (r : sdb_reg) (binds : list bytes) : sdb_store :=
  {| schema := r_schema r;
     path := if r_persist r then stateDir ++ [chr "/"] ++ sdbSubst (filePat r) binds else [];
     cap_records := match evict r with STORAGE_DB_DROP => r_cap r | STORAGE_DB_RELOAD => 0 end;
     block := []; cap := 0; loaded := false; dirty := false; grow_failed := false; index := ∅ |}.

Definition putInst (d : sdb_db) (i : nat) (binds : list bytes) (st : sdb_store) : sdb_db :=
  with_regs d (alter (fun r => with_insts r (<[joinBinds binds := st]> (insts r))) i (g_sdbRegs d)).

(** [sdbInstance]: find or create. *)
Definition sdbInstance (stateDir : bytes) (d : sdb_db) (i : nat) (binds : list bytes) : option (sdb_db * sdb_store) :=
  r ← g_sdbRegs d !! i;
  match insts r !! joinBinds binds with
  | Some st => Some (d, st)
  | None =>
      let st := newStore stateDir r binds in
      let d := if r_persist r then mkdirpParent (path st) d else d in
      Some (putInst d i binds st, st)
  end.

End Route.
Import Route.

(** The names in a directory, as [fs_opendir] and [fs_readdir] give them. *)
Class DirSys (F : Type) := { fs_names : F -> bytes -> option (list bytes) }.

(** What the allocator answers during one call: to the loads, by path (a call loads each
    file at most once), to the field writes, by record and field, and to the snapshots, by
    path. *)
Record oracle := { o_load : bytes -> load_heap; o_set : heaps; o_snap : bytes -> bool }.

Module Access.
Section Access.
Context {C I F : Type} `{TD : Tdefl C} `{TI : Tinfl I} `{CR : Crc} `{FS : FileSys F} `{DS : DirSys F}.
Context (stateDir : bytes) (legacy : list sdb_legacy) (fs : F) (o : oracle).

(** [sdbInstance], then [sdbLoad] of a store that is not loaded. *)
Definition loadInst (d : sdb_db) (i : nat) (binds : list bytes) : option (sdb_db * sdb_store) :=
  '(d, st) ← sdbInstance stateDir d i binds;
  if loaded st then Some (d, st)
  else
    '(st, _) ← sdbLoad fs legacy st (o_load o (path st));
    Some (putInst d i binds st, st).

Definition sdbResolveLoaded (d : sdb_db) (m : sdb_match) : option (sdb_db * sdb_store) :=
  loadInst d (m_reg m) (m_binds m).

(** ** Reading *)

Definition knows (d : sdb_db) (m : sdb_match) (field : bytes) : option bool :=
  r ← g_sdbRegs d !! m_reg m;
  Some (bool_decide (is_Some (find (r_schema r) field))).

(** The stores after, and the value; inner [None] for [return false]. *)
Definition sdbGetLocked (d : sdb_db) (key : bytes) : option (sdb_db * option bytes) :=
  match sdbRoute d key with
  | None => Some (d, None)
  | Some m =>
      match m_tail m with
      | [rec; field] =>
          k ← knows d m field;
          if negb (k : bool) then Some (d, None)
          else
            '(d, st) ← sdbResolveLoaded d m;
            v ← sdbGetField st rec field;
            Some (d, v)
      | _ => Some (d, None)
      end
  end.

(** Inner [None] for a key that is not routed. *)
Definition sdbExistsLocked (d : sdb_db) (key : bytes) : option (sdb_db * option bool) :=
  match sdbRoute d key with
  | None => Some (d, None)
  | Some m =>
      '(d, st) ← sdbResolveLoaded d m;
      match m_tail m with
      | [rec; field] =>
          k ← knows d m field;
          if negb (k : bool) then Some (d, Some false)
          else v ← sdbGetField st rec field; Some (d, Some (bool_decide (is_Some v)))
      | [rec] => Some (d, Some (sdbHasRecord st rec))
      | _ => Some (d, Some false)
      end
  end.

(** ** Enumerating *)

Definition sdbForEachInstance (st : sdb_store) (fullPrefix : bytes) : option (list (bytes * bytes)) :=
  l ← sdbForEach st;
  Some (map (fun '(rec, field, val) => (fullPrefix ++ DOT :: rec ++ DOT :: field, val)) l).

(** The segments of the key of [insts], cut at the separator: at least one. *)
Fixpoint splitSep (k : bytes) : list bytes :=
  match k with
  | [] => [[]]
  | c :: k' =>
      if c =? SEP then [] :: splitSep k'
      else match splitSep k' with s :: r => (c :: s) :: r | [] => [[c]] end
  end.

(** [std::set<std::string>]: sorted, without duplicates. *)
Fixpoint setInsert (s : bytes) (l : list bytes) : list bytes :=
  match l with
  | [] => [s]
  | x :: l' =>
      match strcmp s x with
      | Lt => s :: l
      | Eq => l
      | Gt => x :: setInsert s l'
      end
  end.

(** The stem of an instance key whose other binds are [binds]. *)
Definition residentStem (binds : list bytes) (ik : bytes) : option bytes :=
  let ib := splitSep ik in
  if (length ib =? S (length binds))%nat && bool_decide (take (length binds) ib = binds) then last ib else None.

Definition DB_GZ : bytes := $ ".db.gz".

Definition fileStem (nm : bytes) : option bytes :=
  if (6 <? Zlen nm) && streq (drop (length nm - 6) nm) DB_GZ then Some (take (length nm - 6) nm) else None.

Definition stems (r : sdb_reg) (binds : list bytes) : list bytes :=
  let resident := omap (residentStem binds) (map fst (map_to_list (insts r))) in
  let ondisk :=
    if r_persist r then
      let dir := stateDir ++ [chr "/"] ++ sdbSubst (filePat r) binds in
      let dir := default dir (beforeSlash dir) in
      match fs_names fs dir with Some names => omap fileStem names | None => [] end
    else [] in
  foldl (fun l s => setInsert s l) [] (resident ++ ondisk).

Fixpoint eachStem (d : sdb_db) (i : nat) (prefix : bytes) (binds ss : list bytes) : option (sdb_db * list (bytes * bytes)) :=
  match ss with
  | [] => Some (d, [])
  | s :: ss' =>
      '(d, st) ← loadInst d i (binds ++ [s]);
      out ← sdbForEachInstance st (prefix ++ DOT :: s);
      '(d, rest) ← eachStem d i prefix binds ss';
      Some (d, out ++ rest)
  end.

Fixpoint joinDots (l : list bytes) : bytes :=
  match l with
  | [] => []
  | [x] => x
  | x :: l' => x ++ DOT :: joinDots l'
  end.

(** The leading pattern segments against a shorter key. *)
Fixpoint matchLead (pat pre : list bytes) : option (list bytes) :=
  match pat, pre with
  | _, [] => Some []
  | [], _ :: _ => None
  | p :: pat', s :: pre' =>
      if streq p WILD then b ← matchLead pat' pre'; Some (s :: b)
      else if streq p s then matchLead pat' pre' else None
  end.

Fixpoint underLoop (d : sdb_db) (prefix : bytes) (pre : list bytes) (i : nat) (rs : list sdb_reg)
    : option (sdb_db * option (list (bytes * bytes))) :=
  match rs with
  | [] => Some (d, None)
  | r :: rs' =>
      if (length (r_pat r) <=? length pre)%nat then
        match sdbRoute d prefix with
        | Some m =>
            if negb (m_reg m =? i)%nat then underLoop d prefix pre (S i) rs'
            else
              '(d, st) ← sdbResolveLoaded d m;
              out ← sdbForEachInstance st (joinDots (take (length (r_pat r)) pre));
              Some (d, Some out)
        | None => underLoop d prefix pre (S i) rs'
        end
      else
        match matchLead (r_pat r) pre with
        | Some binds =>
            if (length pre =? length (r_pat r) - 1)%nat && bool_decide (last (r_pat r) = Some WILD) then
              '(d, out) ← eachStem d i prefix binds (stems r binds);
              Some (d, Some out)
            else underLoop d prefix pre (S i) rs'
        | None => underLoop d prefix pre (S i) rs'
        end
  end.

(** The pairs collected; inner [None] for a prefix no store handles. *)
Definition sdbForEachUnderLocked (d : sdb_db) (prefix : bytes) : option (sdb_db * option (list (bytes * bytes))) :=
  match g_sdbRegs d with
  | [] => Some (d, None)
  | rs => underLoop d prefix (splitDots prefix) 0 rs
  end.

(** ** Writing *)

Definition persists (d : sdb_db) (m : sdb_match) : bool :=
  match g_sdbRegs d !! m_reg m with Some r => r_persist r | None => false end.

Definition changeOf (silent : bool) (key val : bytes) : list (bytes * bytes) := if silent then [] else [(key, val)].

Definition eraseInst (d : sdb_db) (i : nat) (binds : list bytes) : sdb_db :=
  with_regs d (alter (fun r => with_insts r (delete (joinBinds binds) (insts r))) i (g_sdbRegs d)).

(** Inner [None] for an op that is not routed; otherwise the stores, the changes to
    notify, and whether a file must be written. *)
Definition sdbApplyOpLocked (d : sdb_db) (op : Z) (key vs : bytes) (silent : bool)
    : option (option (sdb_db * list (bytes * bytes) * bool)) :=
  match sdbRoute d key with
  | None => Some None
  | Some m =>
      match m_tail m with
      | [rec; field] =>
          k ← knows d m field;
          if negb (k : bool) then Some (Some (d, [], false))
          else
            '(d, st) ← sdbResolveLoaded d m;
            if op =? chr "D" then Some (Some (d, [], false))
            else
              cur ← sdbGetField st rec field;
              let keep := match cur with
                          | Some v => ((op =? chr "d") && negb (Zlen v =? 0)) || streq v vs
                          | None => false
                          end in
              if keep then Some (Some (d, [], false))
              else
                st ← sdbSetField st rec field (c_str vs) (o_set o rec field).1 (o_set o rec field).2;
                let d := putInst d (m_reg m) (m_binds m) st in
                Some (Some (d, changeOf silent key vs, persists d m))
      | [rec] =>
          '(d, st) ← sdbResolveLoaded d m;
          if op =? chr "D" then
            st ← sdbDeleteRecord st rec;
            let d := putInst d (m_reg m) (m_binds m) st in
            Some (Some (d, changeOf silent key [], persists d m))
          else Some (Some (d, [], false))
      | _ =>
          if op =? chr "D" then
            '(d, st) ← sdbInstance stateDir d (m_reg m) (m_binds m);
            let d := if Zlen (path st) =? 0 then d else with_deletes d (g_sdbPendingDeletes d ++ [path st]) in
            let d := eraseInst d (m_reg m) (m_binds m) in
            Some (Some (d, changeOf silent key [], persists d m))
          else Some (Some (d, [], false))
      end
  end.

(** ** The flush *)

(** One instance: the store after, and its image with its path if it has something to write. *)
Definition snapOne (st : sdb_store) : option (sdb_store * list (bytes * bytes)) :=
  if loaded st && dirty st && negb (Zlen (path st) =? 0) then
    '(st, raw) ← sdbSnapshotRaw st (o_snap o (path st));
    Some (with_flags st (loaded st) false, match raw with Some raw => [(path st, raw)] | None => [] end)
  else Some (st, []).

Fixpoint snapInsts (l : list (bytes * sdb_store)) : option (list (bytes * sdb_store) * list (bytes * bytes)) :=
  match l with
  | [] => Some ([], [])
  | (k, st) :: l' =>
      '(st, job) ← snapOne st;
      '(l', jobs) ← snapInsts l';
      Some ((k, st) :: l', job ++ jobs)
  end.

Fixpoint snapRegs (rs : list sdb_reg) : option (list sdb_reg * list (bytes * bytes)) :=
  match rs with
  | [] => Some ([], [])
  | r :: rs' =>
      '(r, jobs) ← (if negb (r_persist r) then Some (r, [])
                    else
                      '(l, jobs) ← snapInsts (map_to_list (insts r));
                      Some (with_insts r (list_to_map l), jobs));
      '(rs', jobs') ← snapRegs rs';
      Some (r :: rs', jobs ++ jobs')
  end.

(** The locked part of [storageDbFlushDirty]. *)
Definition takeDirty (d : sdb_db) : option (sdb_db * list (bytes * bytes) * list bytes) :=
  '(rs, jobs) ← snapRegs (g_sdbRegs d);
  Some (with_deletes (with_regs d rs) [], jobs, g_sdbPendingDeletes d).

Definition storageDbAnyDirty (d : sdb_db) : bool :=
  match g_sdbPendingDeletes d with
  | _ :: _ => true
  | [] => existsb (fun r => r_persist r && existsb (fun ks => dirty ks.2) (map_to_list (insts r))) (g_sdbRegs d)
  end.

End Access.

(** ** Registration *)

Record storage_db_opts := { op_persist : option bytes; op_evict : storage_db_evict; op_cap : Z; op_browserMirror : bool }.

(** The pattern up to the first wildcard, each segment with a dot. *)
Fixpoint litLoop (segs : list bytes) (lit : bytes) : bytes :=
  match segs with
  | [] => lit
  | s :: segs' =>
      if streq s WILD then lit
      else litLoop segs' ((if Zlen lit =? 0 then lit else lit ++ [DOT]) ++ s)
  end.

Definition litOf (pat : list bytes) : bytes :=
  let lit := litLoop pat [] in if Zlen lit =? 0 then lit else lit ++ [DOT].

Definition declare (name keyPattern : bytes) (sc : sdb_schema) (opts : storage_db_opts) : sdb_reg :=
  let pat := splitDots keyPattern in
  {| r_name := name; r_pat := pat; litPrefix := litOf pat;
     filePat := default [] (op_persist opts); r_schema := sc; r_persist := bool_decide (is_Some (op_persist opts));
     evict := op_evict opts; r_cap := op_cap opts; browserMirror := op_browserMirror opts; insts := ∅ |}.

Section Publish.
Context `{CJ : CJson}.

Definition addTo (l : kids) (k : string) (v : json) : kids := cJSON_AddItemToObject l ($ k) v.

Definition fieldDoc (f : sdb_field) : json :=
  JNode false (addTo (addTo (addTo (addTo [] "name" (JStr (c_str (fname f)))) "kind" (JNum (kind f)))
    "off" (JNum (foff f))) "width" (JNum (width f))).

(** The document published under [storage.db.<name>]. *)
Definition declareDoc (keyPattern : bytes) (sc : sdb_schema) (opts : storage_db_opts) : json :=
  let l := addTo [] "pattern" (JStr keyPattern) in
  let l := match op_persist opts with Some p => addTo l "file" (JStr p) | None => l end in
  let l := addTo l "persist" (JNum (if bool_decide (is_Some (op_persist opts)) then 1 else 0)) in
  let l := addTo l "schema_id" (JNum (schema_id sc)) in
  let l := addTo l "schema_ver" (JNum (schema_ver sc)) in
  let l := addTo l "hdr_size" (JNum (hdr_size sc)) in
  JNode false (addTo l "fields"
    (JNode true (foldl (fun a f => cJSON_AddItemToArray a (None, fieldDoc f)) [] (fields sc)))).

(** The stores after, and the op list sent. *)
Definition storageStructuredDB (name keyPattern : bytes) (sc : sdb_schema) (opts : storage_db_opts) (d : sdb_db)
    : sdb_db * list bytes :=
  if existsb (fun r => streq (r_name r) name) (g_sdbRegs d) then (d, [])
  else (with_regs d (g_sdbRegs d ++ [declare name keyPattern sc opts]),
        storageSetTree ($ "storage.db." ++ name) (declareDoc keyPattern sc opts)).

(** The result, and the op list sent. *)
Definition storageDbDropInstance (d : sdb_db) (instancePrefix : bytes) : bool * list bytes :=
  if Zlen instancePrefix =? 0 then (false, [])
  else if negb (sdbRoutes d instancePrefix) then (false, [])
  else (true, [Ops.opAppendDelete instancePrefix]).

End Publish.
End Access.
Import Access.

(** ** What the actor and the persist worker see *)

Module SdbInstances.
Section SdbInstances.
Context {C I F : Type} `{TD : Tdefl C} `{TI : Tinfl I} `{CR : Crc} `{FS : FileSys F} `{DS : DirSys F}.
Context (stateDir : bytes) (legacy : list sdb_legacy) (fs : F) (o : oracle).

(** [None] is a device on which a store has left its memory; no operation revives it. The
    readers of the actor do not return the stores they leave: that a read changes no
    later answer, while there is memory for what is loaded, is [SdbRouteStore.reads_unobserved]. *)
Definition routerOf : SdbRouter (option sdb_db) := {|
  Actor.sdbApplyOpLocked od op key vs silent :=
    match od with
    | None => Some (None, [], false)
    | Some d =>
        match Access.sdbApplyOpLocked stateDir legacy fs o d op key vs silent with
        | None => Some (None, [], false)
        | Some None => None
        | Some (Some (d, ch, dirty)) => Some (Some d, ch, dirty)
        end
    end;
  Actor.sdbGetLocked od key := d ← od; '(_, v) ← Access.sdbGetLocked stateDir legacy fs o d key; v;
  Actor.sdbExistsLocked od key := d ← od; '(_, v) ← Access.sdbExistsLocked stateDir legacy fs o d key; v
|}.

(** [storageForEach], no provider registered for the prefix: the calls it makes. *)
Definition storageForEach `{CJ : CJson} (c : cfg_st (option sdb_db)) (prefix : bytes) : option (list (bytes * bytes)) :=
  let pre := stripDots prefix in
  d ← db c;
  '(_, routed) ← sdbForEachUnderLocked stateDir legacy fs o d pre;
  Some (match routed with
        | Some l => l
        | None =>
            match (if Zlen pre =? 0 then Some (root c) else navigatePath (root c) pre) with
            | None => []
            | Some (JNode _ _ as n) => walkLeaves n pre
            | Some (JStr s) => [(pre, s)]
            | Some (JNum v) => [(pre, trunc 32 (sdec v))]
            | Some _ => []
            end
        end).

(** [storageGetData] into [capacity] bytes: success, the length reported, the bytes. *)
Definition storageGetData `{CJ : CJson} (c : cfg_st (option sdb_db)) (key : bytes) (capacity : Z) : option (bool * Z * bytes) :=
  d ← db c;
  match sdbRoute d key with
  | Some m =>
      match m_tail m with
      | [rec; field] =>
          k ← knows d m field;
          if negb (k : bool) then Some (false, 0, [])
          else
            '(_, st) ← sdbResolveLoaded stateDir legacy fs o d m;
            sdbGetFieldBin st rec field capacity
      | _ => Some (false, 0, [])
      end
  | None =>
      let hex := match resolveKey c key with Some (JStr s) => s | _ => [] end in
      if (Zlen hex =? 0) || negb (Zlen hex mod 2 =? 0) then Some (false, 0, [])
      else
        let need := Zlen hex / 2 in
        if capacity <? need then Some (false, need, [])
        else
          let out := Hex.hexDecodeInto hex (Z.to_nat capacity) in
          Some (Zlen out =? need, Zlen out, out)
  end.

End SdbInstances.
End SdbInstances.
Import SdbInstances.
