(* ===== verification/SdbRouteProofs.v ===== *)
(** * storage: the router finds the store a key belongs to

    Dot-paths as lists of segments, what a pattern matches, and that the quick rejection
    of [sdbRoute] rejects nothing a registration matches. *)

From stdpp Require Import gmap.
From S2P Require Import Prelude CLib StorageDb Config ConfigSet SdbRoute.
Import Route Access.
Open Scope Z_scope.
Open Scope spangap_scope.

(** ** Splitting at the dots *)

Lemma dotLoop_fuel p : forall f g, (length p <= f)%nat -> (length p <= g)%nat -> dotLoop f p = dotLoop g p.
Proof.
  remember (length p) as n eqn:E. assert (length p <= n)%nat as H by lia. clear E. revert p H.
  induction n as [|n IH]; intros p H f g Hf Hg; [by destruct p; [destruct f, g|cbn in H; lia]|].
  destruct p as [|c p]; [by destruct f, g|]. destruct f as [|f]; [lia|]. destruct g as [|g]; [lia|].
  cbn [dotLoop]. destruct (strchr (c :: p) DOT) as [[seg rest]|] eqn:E; [|done].
  apply strchr_Some in E as [E _]. assert (length rest <= n)%nat as L.
  { apply (f_equal length) in E. rewrite length_app in E. cbn [length] in *. lia. }
  f_equal. apply IH; lia.
Qed.

Lemma split_one p : p <> [] -> DOT ∉ p -> splitDots p = [p].
Proof.
  intros Hp H. unfold splitDots. rewrite bool_decide_false.
  - destruct p as [|c p]; [done|]. cbn [length dotLoop]. by rewrite (proj2 (strchr_None _ _) H).
  - intros E. apply H. apply last_Some in E as [l ->]. apply elem_of_app. right. by apply list_elem_of_singleton.
Qed.

Lemma split_cons s rest : DOT ∉ s ->
  splitDots (s ++ DOT :: rest) = s :: (match rest with [] => [[]] | _ => splitDots rest end).
Proof.
  intros H. unfold splitDots. assert (exists n, length (s ++ DOT :: rest) = S n /\ (length rest <= n)%nat) as (n & -> & Hn).
  { rewrite length_app. cbn [length]. exists (length s + length rest)%nat. lia. }
  assert (dotLoop (S n) (s ++ DOT :: rest) = s :: dotLoop n rest) as ->.
  { cbn [dotLoop]. rewrite strchr_app by done. by destruct s. }
  rewrite last_app, last_cons. destruct rest as [|c rest]; [by rewrite bool_decide_true; destruct n|].
  rewrite (dotLoop_fuel (c :: rest) n (length (c :: rest))) by done.
  destruct (last (c :: rest)) as [x|] eqn:E; [done|]. by apply last_None in E.
Qed.

Lemma join_cons a l : joinDots (a :: l) = a ++ concat (map (cons DOT) l).
Proof.
  revert a. induction l as [|b l IH]; intros a; [cbn; by rewrite app_nil_r|].
  change (joinDots (a :: b :: l)) with (a ++ DOT :: joinDots (b :: l)). rewrite IH. done.
Qed.

Lemma join_split key : joinDots (splitDots key) = key.
Proof.
  remember (length key) as n eqn:E. assert (length key <= n)%nat as H by lia. clear E. revert key H.
  induction n as [|n IH]; intros key H; [by destruct key; [|cbn in H; lia]|].
  destruct (strchr key DOT) as [[s rest]|] eqn:E.
  - apply strchr_Some in E as [-> Hs]. rewrite split_cons by done. rewrite length_app in H. cbn [length] in H.
    destruct rest as [|c rest]; [done|]. specialize (IH (c :: rest) ltac:(cbn [length] in *; lia)).
    destruct (splitDots (c :: rest)) as [|x l]; [done|]. cbn [joinDots] in *. by rewrite IH.
  - apply strchr_None in E. destruct key as [|c key]; [done|]. by rewrite split_one.
Qed.

Lemma split_join ss : ss <> [] -> ss <> [[]] -> Forall (fun s => DOT ∉ s) ss -> splitDots (joinDots ss) = ss.
Proof.
  intros Hn Hne H. induction H as [|s r Hs Hr IH]; [done|]. destruct r as [|s' r].
  - cbn [joinDots]. apply split_one; [by intros ->|done].
  - change (joinDots (s :: s' :: r)) with (s ++ DOT :: joinDots (s' :: r)). rewrite split_cons by done.
    destruct (joinDots (s' :: r)) as [|c p] eqn:E; [|f_equal; apply IH; [done|intros [= -> ->]; done]].
    destruct r as [|s2 r]; [cbn in E; by subst|].
    change (joinDots (s' :: s2 :: r)) with (s' ++ DOT :: joinDots (s2 :: r)) in E. by destruct s'.
Qed.

Lemma join_path ss : joinDots ss = path_of ss.
Proof. induction ss as [|s [|s' r] IH]; [done|done|]. cbn [joinDots path_of] in *. by rewrite IH. Qed.

(** ** What a pattern matches *)

Fixpoint fill (pat b : list bytes) : list bytes :=
  match pat with
  | [] => []
  | p :: pat' => if streq p WILD then default [] (head b) :: fill pat' (tail b) else p :: fill pat' b
  end.

Definition wilds (pat : list bytes) : nat := length (List.filter (fun p => streq p WILD) pat).

(** [segs] is the pattern with [b] in place of its wildcards, then [t]. *)
Definition fits (pat b t segs : list bytes) : Prop := length b = wilds pat /\ segs = fill pat b ++ t.

Lemma matchPat_fits pat segs b t : matchPat pat segs = Some (b, t) <-> fits pat b t segs.
Proof.
  unfold fits, wilds. revert segs b. induction pat as [|p pat IH]; intros segs b; cbn [matchPat fill List.filter].
  - split; [intros [= <- <-]; done|]. intros [Hb ->]. by destruct b.
  - destruct (streq p WILD) eqn:Ep; cbn [length]; destruct segs as [|s segs]; try (split; [done|by intros [_ ?]]).
    + split.
      * destruct (matchPat pat segs) as [[b' t']|] eqn:E; cbn [mbind option_bind]; [|done]. intros [= <- <-].
        apply IH in E as [E ->]. cbn. by rewrite E.
      * intros [Hb Hs]. destruct b as [|x b]; [done|]. cbn [length] in Hb. cbn in Hs. injection Hs as -> Hs.
        rewrite (proj2 (IH segs b)); [done|]. split; [lia|done].
    + destruct (streq p s) eqn:Es.
      * apply streq_true in Es as ->. rewrite IH. split; intros [Hb Hs]; (split; [done|]); [by rewrite Hs|by injection Hs].
      * split; [done|]. intros [Hb Hs]. injection Hs as -> _. by rewrite (proj2 (streq_true p p)) in Es.
Qed.

(** The literal segments before the first wildcard. *)
Fixpoint lits (pat : list bytes) : list bytes :=
  match pat with
  | [] => []
  | p :: pat' => if streq p WILD then [] else p :: lits pat'
  end.

Lemma litLoop_app pat lit : lit <> [] -> litLoop pat lit = lit ++ concat (map (cons DOT) (lits pat)).
Proof.
  revert lit. induction pat as [|p pat IH]; intros lit Hl; cbn [litLoop lits]; [by rewrite app_nil_r|].
  destruct (streq p WILD); [by rewrite app_nil_r|]. rewrite (proj2 (Z.eqb_neq _ _)) by (intros E; by apply Zlen_zero in E).
  rewrite IH by (by destruct lit). cbn [map concat]. by rewrite <- !app_assoc.
Qed.

Lemma fill_lits pat b : exists r, fill pat b = lits pat ++ r.
Proof.
  induction pat as [|p pat [r IH]]; [by exists []|]. cbn [fill lits]. destruct (streq p WILD); [by eexists|].
  exists r. by rewrite IH.
Qed.

(** A registration as [storageStructuredDB] makes it, of a pattern that does not begin
    with a dot. *)
Definition declared (r : sdb_reg) : Prop := litPrefix r = litOf (r_pat r) /\ head (r_pat r) <> Some [].

Lemma candidate_sound r key b t : declared r -> fits (r_pat r) b t (splitDots key) -> candidate key r = true.
Proof.
  intros [Hl Hh] [_ Hs]. unfold candidate. rewrite Hl. unfold litOf. cbv zeta. destruct (r_pat r) as [|p pat]; [done|].
  cbn [litLoop]. destruct (streq p WILD) eqn:Ep; [done|].
  change (if Zlen (@nil Z) =? 0 then [] else [] ++ [DOT]) with (@nil Z). cbn [app].
  assert (p <> []) as Hp by (intros ->; done). rewrite litLoop_app by done.
  destruct (fill_lits pat b) as [q Eq]. apply (f_equal joinDots) in Hs. rewrite join_split in Hs.
  cbn [fill] in Hs. rewrite Ep in Hs. cbn [app] in Hs. rewrite join_cons, Eq, <- app_assoc, map_app, concat_app, app_assoc in Hs.
  set (lit := p ++ concat (map (cons DOT) (lits pat))) in *. assert (lit <> []) as Hn by (unfold lit; by destruct p).
  rewrite (proj2 (Z.eqb_neq (Zlen lit) 0)) by (intros E; by apply Zlen_zero in E).
  apply orb_true_iff. right. apply streq_true. subst key. destruct (q ++ t) as [|x l].
  - cbn [map concat]. rewrite app_nil_r, Nat.min_l by (rewrite length_app; lia). by rewrite take_app_length, firstn_all.
  - cbn [map concat app]. set (z := x ++ concat (map (cons DOT) l)).
    change (lit ++ DOT :: z) with (lit ++ [DOT] ++ z). rewrite (app_assoc lit [DOT] z), Nat.min_r by (rewrite !length_app; lia).
    by rewrite take_app_length, firstn_all.
Qed.

(** ** Routing *)

Lemma routeLoop_spec rs segs i m : routeLoop i rs segs = Some m <->
  exists pre r post, rs = pre ++ r :: post /\ m_reg m = (i + length pre)%nat /\
    fits (r_pat r) (m_binds m) (m_tail m) segs /\ forall r' b t, r' ∈ pre -> ~ fits (r_pat r') b t segs.
Proof.
  revert i. induction rs as [|r rs IH]; intros i; cbn [routeLoop].
  - split; [done|]. by intros (pre & r & post & E & _); destruct pre.
  - destruct (matchPat (r_pat r) segs) as [[b t]|] eqn:E.
    + apply matchPat_fits in E. split.
      * intros [= <-]. exists [], r, rs. cbn. split_and!; [done|lia|done|]. intros r' b' t' Hr. by apply elem_of_nil in Hr.
      * intros ([|r0 pre] & r' & post & [= <- ->] & Hi & Hf & Hp).
        -- apply matchPat_fits in E, Hf. rewrite E in Hf. injection Hf as -> ->. destruct m; cbn in *. f_equal. f_equal. lia.
        -- by destruct (Hp r b t); [apply elem_of_cons; left|].
    + rewrite IH. split.
      * intros (pre & r' & post & -> & Hi & Hf & Hp). exists (r :: pre), r', post. cbn [length]. split_and!; [done|lia|done|].
        intros r0 b t [->|Hr]%elem_of_cons; [|by apply Hp]. intros Hx%matchPat_fits. by rewrite Hx in E.
      * intros ([|r0 pre] & r' & post & [= <- ->] & Hi & Hf & Hp); [apply matchPat_fits in Hf; by rewrite Hf in E|].
        exists pre, r', post. cbn [length] in Hi. split_and!; [done|lia|done|]. intros. apply Hp. by apply elem_of_cons; right.
Qed.

Lemma route_slow d key : Forall declared (g_sdbRegs d) -> sdbRoute d key = routeLoop 0 (g_sdbRegs d) (splitDots key).
Proof.
  intros H. unfold sdbRoute. destruct (g_sdbRegs d) as [|r0 rs0] eqn:E; [done|]. rewrite <- E in *. clear E.
  destruct (existsb (candidate key) (g_sdbRegs d)) eqn:Ec; [done|]. cbn [negb].
  destruct (routeLoop 0 (g_sdbRegs d) (splitDots key)) as [m|] eqn:Er; [|done]. apply routeLoop_spec in Er as (pre & r & post & E & _ & Hf & _).
  rewrite E in Ec, H. apply Forall_app in H as [_ H]. apply Forall_cons in H as [H _].
  rewrite existsb_app in Ec. apply orb_false_iff in Ec as [_ Ec]. cbn [existsb] in Ec. by rewrite (candidate_sound r key _ _ H Hf) in Ec.
Qed.

(** C10: A key goes to the first registration whose pattern its leading segments fit, a
    wildcard fitting any one segment, with those segments as binds and the rest as tail;
    a key that fits no pattern is left to the tree. The test that spares other keys the
    split never rejects one that fits. *)
Theorem sdbRoute_exact d key : Forall declared (g_sdbRegs d) ->
  (forall m, sdbRoute d key = Some m <->
     exists pre r post, g_sdbRegs d = pre ++ r :: post /\ m_reg m = length pre /\
       fits (r_pat r) (m_binds m) (m_tail m) (splitDots key) /\
       forall r' b t, r' ∈ pre -> ~ fits (r_pat r') b t (splitDots key)) /\
  (sdbRoute d key = None <-> forall r b t, r ∈ g_sdbRegs d -> ~ fits (r_pat r) b t (splitDots key)).
Proof.
  intros H. rewrite route_slow by done. split; [intros m; apply routeLoop_spec|].
  generalize 0%nat. induction (g_sdbRegs d) as [|r rs IH]; intros i; cbn [routeLoop].
  - split; [|done]. intros _ r b t Hr. by apply elem_of_nil in Hr.
  - apply Forall_cons in H as [_ H]. destruct (matchPat (r_pat r) (splitDots key)) as [[b t]|] eqn:E.
    + split; [done|]. intros Hn. apply matchPat_fits in E. by destruct (Hn r b t); [apply elem_of_cons; left|].
    + rewrite (IH H). split.
      * intros Hn r' b t [->|Hr]%elem_of_cons; [|by apply Hn]. intros Hx%matchPat_fits. by rewrite Hx in E.
      * intros Hn r' b t Hr. apply Hn. by apply elem_of_cons; right.
Qed.
