(* ===== verification/SdbRouteStore.v ===== *)
(** * storage: what a routed write does, and that routed reads change nothing

    [instStore] is the store a key's binds lead to, resident or loaded on the spot. Every
    answer of the router is a function of it ([getView], [existsView]); a read leaves it
    as it was, a write changes it for the one instance written. *)

From stdpp Require Import gmap.
From S2P Require Import Prelude CLib Targz StorageDb StorageDbBlock StorageDbSchema StorageDbSpec StorageDbStore StorageDbValues Config ConfigTree ConfigOps ConfigSet SdbRoute SdbRouteProofs.
Import Schema Block Store Tree Ops Subs Actor Route Access SdbInstances.
Open Scope Z_scope.
Open Scope spangap_scope.

(** ** Registrations without their instances *)

Definition static (d : sdb_db) : list sdb_reg := map (fun r => with_insts r ∅) (g_sdbRegs d).

Lemma route_static d d' key : static d = static d' -> sdbRoute d key = sdbRoute d' key.
Proof.
  unfold static, sdbRoute. intros E.
  assert (forall rs segs i, routeLoop i rs segs = routeLoop i (map (fun r => with_insts r ∅) rs) segs) as R.
  { intros rs segs. induction rs as [|r rs IH]; intros i; [done|]. cbn [routeLoop map r_pat with_insts].
    destruct (matchPat (r_pat r) segs) as [[? ?]|]; [done|apply IH]. }
  assert (forall rs, existsb (candidate key) rs = existsb (candidate key) (map (fun r => with_insts r ∅) rs)) as X.
  { intros rs. induction rs as [|r rs IH]; [done|]. cbn [existsb map]. by rewrite IH. }
  destruct (g_sdbRegs d) as [|r rs], (g_sdbRegs d') as [|r' rs']; try done.
  by rewrite (X (r :: rs)), (X (r' :: rs')), (R (r :: rs)), (R (r' :: rs')), E.
Qed.

Lemma static_lookup d d' i : static d = static d' ->
  (fun r => with_insts r ∅) <$> g_sdbRegs d !! i = (fun r => with_insts r ∅) <$> g_sdbRegs d' !! i.
Proof. unfold static. intros E. apply (f_equal (fun l => l !! i)) in E. by rewrite !list_lookup_fmap in E. Qed.

Lemma static_alter (f : sdb_reg -> gmap bytes sdb_store) d i :
  static (with_regs d (alter (fun r => with_insts r (f r)) i (g_sdbRegs d))) = static d.
Proof.
  unfold static. cbn [g_sdbRegs with_regs]. apply list_eq. intros j. change map with (@fmap list list_fmap). rewrite !list_lookup_fmap.
  destruct (decide (i = j)) as [<-|Hn]; [|by rewrite list_lookup_alter_ne].
  rewrite list_lookup_alter_eq. by destruct (g_sdbRegs d !! i).
Qed.

Lemma knows_static d d' m field : static d = static d' -> knows d m field = knows d' m field.
Proof.
  intros E%(static_lookup _ _ (m_reg m)). unfold knows.
  destruct (g_sdbRegs d !! m_reg m) as [r|], (g_sdbRegs d' !! m_reg m) as [r'|]; try done.
  cbn in E |- *. injection E as E1 E2 E3 E4 E5. by rewrite E5.
Qed.

(** The resident store of an instance. *)
Definition instOf (d : sdb_db) (i : nat) (ik : bytes) : option sdb_store := r ← g_sdbRegs d !! i; insts r !! ik.

(** [d'] is [d] with [st] as the store of an instance. *)
Record puts (d : sdb_db) (i : nat) (b : list bytes) (st : sdb_store) (d' : sdb_db) : Prop := {
  pt_static : static d' = static d;
  pt_deletes : g_sdbPendingDeletes d' = g_sdbPendingDeletes d;
  pt_same : instOf d' i (joinBinds b) = Some st;
  pt_other j k : (j, k) <> (i, joinBinds b) -> instOf d' j k = instOf d j k
}.

Lemma puts_put d i b st : is_Some (g_sdbRegs d !! i) -> puts d i b st (putInst d i b st).
Proof.
  intros [r Hr]. unfold putInst. split; [apply (static_alter (fun r => <[joinBinds b := st]> (insts r)))|done|..];
    unfold instOf; cbn [g_sdbRegs with_regs].
  - rewrite list_lookup_alter_eq, Hr. cbn. by rewrite lookup_insert_eq.
  - intros j k Hn. destruct (decide (i = j)) as [<-|Hj]; [|by rewrite list_lookup_alter_ne].
    rewrite list_lookup_alter_eq, Hr. cbn. rewrite lookup_insert_ne; [done|congruence].
Qed.

Lemma puts_self d i b st : instOf d i (joinBinds b) = Some st -> puts d i b st d.
Proof. by split. Qed.

Lemma puts_trans d d1 d2 i b st st' : puts d i b st d1 -> puts d1 i b st' d2 -> puts d i b st' d2.
Proof.
  intros [A1 A2 A3 A4] [B1 B2 B3 B4]. split; [congruence|congruence|done|]. intros j k H. by rewrite B4, A4.
Qed.

Lemma puts_mkdirs d i b st d' l : puts d i b st d' -> puts (with_mkdirs d l) i b st d'.
Proof. by intros []. Qed.

Lemma puts_reg d i b st d' : puts d i b st d' -> forall j, is_Some (g_sdbRegs d !! j) -> is_Some (g_sdbRegs d' !! j).
Proof.
  intros [H _ _ _] j [r Hr]. apply (static_lookup _ _ j) in H. rewrite Hr in H. destruct (g_sdbRegs d' !! j); [done|discriminate].
Qed.

Section View.
Context {C I F : Type} `{TD : Tdefl C} `{TI : Tinfl I} `{CR : Crc} `{FS : FileSys F} `{DS : DirSys F}.
Context (stateDir : bytes) (legacy : list sdb_legacy) (fs : F) (o : oracle).
Notation loadInst := (loadInst stateDir legacy fs o).

(** A store as the router uses it: loaded if it was not. *)
Definition warm (st : sdb_store) : option sdb_store :=
  if loaded st then Some st else fst <$> sdbLoad fs legacy st (o_load o (path st)).

(** The store the binds lead to. *)
Definition instStore (d : sdb_db) (i : nat) (b : list bytes) : option sdb_store :=
  r ← g_sdbRegs d !! i; warm (default (newStore stateDir r b) (insts r !! joinBinds b)).

Lemma newStore_static d d' i r r' b : static d = static d' -> g_sdbRegs d !! i = Some r -> g_sdbRegs d' !! i = Some r' ->
  newStore stateDir r b = newStore stateDir r' b.
Proof.
  intros E%(static_lookup _ _ i) Hr Hr'. rewrite Hr, Hr' in E. cbn in E. injection E as E1 E2 E3 E4 E5 E6 E7 E8 E9.
  unfold newStore. by rewrite E4, E5, E6, E7, E8.
Qed.

Lemma instStore_ext d d' i b : static d = static d' -> instOf d i (joinBinds b) = instOf d' i (joinBinds b) ->
  instStore d i b = instStore d' i b.
Proof.
  intros Es Ei. unfold instStore, instOf in *. pose proof (static_lookup _ _ i Es) as El. pose proof (newStore_static d d' i) as N.
  destruct (g_sdbRegs d !! i) as [r|], (g_sdbRegs d' !! i) as [r'|]; try done.
  cbn [mbind option_bind] in *. by rewrite Ei, (N r r').
Qed.

Lemma instStore_same d i b st d' : puts d i b st d' -> is_Some (g_sdbRegs d !! i) -> instStore d' i b = warm st.
Proof.
  intros P Hi. destruct (puts_reg _ _ _ _ _ P i Hi) as [r Hr]. pose proof (pt_same _ _ _ _ _ P) as E.
  unfold instStore, instOf in *. rewrite Hr in *. cbn [mbind option_bind] in *. by rewrite E.
Qed.

Lemma instStore_other d i b st d' j b' : puts d i b st d' -> (j, joinBinds b') <> (i, joinBinds b) ->
  instStore d' j b' = instStore d j b'.
Proof. intros P H. apply instStore_ext; [apply P|by apply P]. Qed.

Lemma instance_puts d i b r : g_sdbRegs d !! i = Some r ->
  exists d', sdbInstance stateDir d i b = Some (d', default (newStore stateDir r b) (insts r !! joinBinds b)) /\
    puts d i b (default (newStore stateDir r b) (insts r !! joinBinds b)) d'.
Proof.
  intros Hr. unfold sdbInstance. rewrite Hr. cbn [mbind option_bind].
  destruct (insts r !! joinBinds b) as [st|] eqn:Ei; cbn [default].
  - exists d. split; [done|]. apply puts_self. unfold instOf. by rewrite Hr.
  - eexists. split; [done|]. set (d1 := if r_persist r then _ else _).
    assert (exists l, d1 = with_mkdirs d l) as [l ->].
    { assert (exists l, d = with_mkdirs d l) as X by (exists (mkdirs d); by destruct d).
      unfold d1, mkdirpParent. destruct (r_persist r); [|exact X]. destruct (beforeSlash _); [by eexists|exact X]. }
    pose proof (puts_put (with_mkdirs d l) i b (newStore stateDir r b) ltac:(by eexists)) as P.
    destruct P as [P1 P2 P3 P4]. by split.
Qed.

Lemma loadInst_view d i b :
  match instStore d i b with
  | Some st => exists d', loadInst d i b = Some (d', st) /\ puts d i b st d'
  | None => loadInst d i b = None
  end.
Proof.
  unfold instStore, Access.loadInst. destruct (g_sdbRegs d !! i) as [r|] eqn:Hr; cbn [mbind option_bind].
  - destruct (instance_puts d i b r Hr) as (d1 & -> & P). cbn [mbind option_bind].
    set (st0 := default _ _) in *. unfold warm. destruct (loaded st0); [by exists d1|].
    destruct (sdbLoad fs legacy st0 (o_load o (path st0))) as [[st ok]|]; [|done]. cbn [fmap option_fmap option_map fst mbind option_bind].
    eexists. split; [done|]. eapply puts_trans; [exact P|]. apply puts_put. eapply puts_reg; [exact P|by eexists].
  - unfold sdbInstance. by rewrite Hr.
Qed.

(** ** Answers *)

Definition getView (d : sdb_db) (key : bytes) : option (option bytes) :=
  match sdbRoute d key with
  | None => Some None
  | Some m =>
      match m_tail m with
      | [rec; field] =>
          k ← knows d m field;
          if negb (k : bool) then Some None else st ← instStore d (m_reg m) (m_binds m); sdbGetField st rec field
      | _ => Some None
      end
  end.

Definition existsView (d : sdb_db) (key : bytes) : option (option bool) :=
  match sdbRoute d key with
  | None => Some None
  | Some m =>
      st ← instStore d (m_reg m) (m_binds m);
      match m_tail m with
      | [rec; field] =>
          k ← knows d m field;
          if negb (k : bool) then Some (Some false)
          else v ← sdbGetField st rec field; Some (Some (bool_decide (is_Some v)))
      | [rec] => Some (Some (sdbHasRecord st rec))
      | _ => Some (Some false)
      end
  end.

(** [d'] is [d] with at most the store that [key] leads to brought in. *)
Definition brought (d : sdb_db) (key : bytes) (d' : sdb_db) : Prop :=
  d' = d \/ exists m st, sdbRoute d key = Some m /\ instStore d (m_reg m) (m_binds m) = Some st /\
    puts d (m_reg m) (m_binds m) st d'.

Lemma get_view d key :
  match getView d key with
  | Some v => exists d', Access.sdbGetLocked stateDir legacy fs o d key = Some (d', v) /\ brought d key d'
  | None => Access.sdbGetLocked stateDir legacy fs o d key = None
  end.
Proof.
  assert (brought d key d) as B0 by by left.
  unfold getView, Access.sdbGetLocked, sdbResolveLoaded. destruct (sdbRoute d key) as [m|] eqn:Em; [|by exists d].
  destruct (m_tail m) as [|rec [|field [|]]]; try by exists d.
  destruct (knows d m field) as [[|]|]; cbn [mbind option_bind negb]; [|by exists d|done].
  pose proof (loadInst_view d (m_reg m) (m_binds m)) as L. destruct (instStore d (m_reg m) (m_binds m)) as [st|] eqn:Ei; cbn [mbind option_bind]; [|by rewrite L].
  destruct L as (d' & -> & P). cbn [mbind option_bind]. destruct (sdbGetField st rec field) as [v|]; [|done].
  exists d'. split; [done|]. right. by exists m, st.
Qed.

Lemma get_answer d key : snd <$> Access.sdbGetLocked stateDir legacy fs o d key = getView d key.
Proof. pose proof (get_view d key) as G. destruct (getView d key); [by destruct G as (? & -> & _)|by rewrite G]. Qed.

Lemma exists_view d key :
  match existsView d key with
  | Some v => exists d', Access.sdbExistsLocked stateDir legacy fs o d key = Some (d', v) /\ brought d key d'
  | None => Access.sdbExistsLocked stateDir legacy fs o d key = None
  end.
Proof.
  unfold existsView, Access.sdbExistsLocked, sdbResolveLoaded. destruct (sdbRoute d key) as [m|] eqn:Em; [|exists d; split; [done|by left]].
  pose proof (loadInst_view d (m_reg m) (m_binds m)) as L. destruct (instStore d (m_reg m) (m_binds m)) as [st|] eqn:Ei; cbn [mbind option_bind]; [|by rewrite L].
  destruct L as (d' & -> & P). cbn [mbind option_bind].
  assert (brought d key d') as Br by (right; by exists m, st).
  destruct (m_tail m) as [|rec [|field [|]]]; try by exists d'.
  assert (knows d' m field = knows d m field) as -> by (apply knows_static, P).
  destruct (knows d m field) as [[|]|]; cbn [mbind option_bind negb]; [|by exists d'|done].
  destruct (sdbGetField st rec field) as [v|]; [|done]. by exists d'.
Qed.

Lemma exists_answer d key : snd <$> Access.sdbExistsLocked stateDir legacy fs o d key = existsView d key.
Proof. pose proof (exists_view d key) as G. destruct (existsView d key); [by destruct G as (? & -> & _)|by rewrite G]. Qed.

Lemma answers_ext d d' key : static d = static d' ->
  (forall m, sdbRoute d key = Some m -> instStore d (m_reg m) (m_binds m) = instStore d' (m_reg m) (m_binds m)) ->
  getView d' key = getView d key /\ existsView d' key = existsView d key.
Proof.
  intros Es H. unfold getView, existsView. rewrite <- (route_static d d') by done. destruct (sdbRoute d key) as [m|]; [|done].
  rewrite <- (H m) by done. split; destruct (m_tail m) as [|rec [|field [|]]]; try done; by rewrite (knows_static d d').
Qed.

(** ** Loading again *)

Inductive load_leaf := L_init (r : bool) | L_fail | L_adopt (reader : sdb_schema) (rb : bytes).

(** The way [sdbLoad] goes depends on nothing of the store but its schema and path. *)
Definition leafOf (st0 : sdb_store) (lh : load_heap) : option load_leaf :=
  let p := path st0 in
  if Zlen p =? 0 then Some (L_init true)
  else
    match fs_stat fs p with
    | None => Some (L_init true)
    | Some sz =>
        if sz <=? 0 then Some (L_init true)
        else if negb (fs_open_rb fs p) then Some (L_init true)
        else if negb (a_raw lh) then Some (L_init false)
        else
          blk ← Gz.gzInflateBin (a_out lh) (a_inf lh) (fs_read fs p sz);
          match blk with
          | None => Some (L_init false)
          | Some blk =>
              if (Zlen blk <? SDB_FILE_HDR) || negb (magic_ok blk) then Some L_fail
              else
                rd ← resolveReader st0 legacy blk;
                match rd with
                | None => Some L_fail
                | Some (reader, recStart) =>
                    if negb (a_rb lh) then Some (L_init false)
                    else
                      hd ← mem_slice blk 0 SDB_FILE_HDR;
                      recs ← mem_slice blk recStart (Zlen blk - recStart);
                      Some (L_adopt reader (hd ++ recs))
                end
          end
    end.

Definition runLeaf (st : sdb_store) (lh : load_heap) (lf : load_leaf) : option (sdb_store * bool) :=
  match lf with
  | L_init r => initThen st (a_init lh) r
  | L_fail => sdbLoadFailEmpty st (a_init lh)
  | L_adopt reader rb => adoptImage st reader rb lh
  end.

Lemma load_by_leaf st lh : loaded st = false -> sdbLoad fs legacy st lh = (lf ← leafOf st lh; runLeaf st lh lf).
Proof.
  intros H. unfold sdbLoad, leafOf. rewrite H. cbv zeta.
  destruct (Zlen (path st) =? 0); [done|]. destruct (fs_stat fs (path st)) as [sz|]; [|done].
  destruct (sz <=? 0); [done|]. destruct (negb (fs_open_rb fs (path st))); [done|]. destruct (negb (a_raw lh)); [done|].
  destruct (Gz.gzInflateBin _ _ _) as [[blk|]|]; [|done|done]. cbn [mbind option_bind].
  destruct ((Zlen blk <? SDB_FILE_HDR) || negb (magic_ok blk)); [done|].
  destruct (resolveReader st legacy blk) as [[[rd rs]|]|]; [|done|done]. cbn [mbind option_bind].
  destruct (negb (a_rb lh)); [done|]. destruct (mem_slice blk 0 SDB_FILE_HDR); [|done]. cbn [mbind option_bind].
  by destruct (mem_slice blk rs _).
Qed.

Lemma leafOf_same st st' lh : schema st' = schema st -> path st' = path st -> leafOf st' lh = leafOf st lh.
Proof. intros E1 E2. unfold leafOf, resolveReader. by rewrite E1, E2. Qed.

Lemma init_again st h st' : loaded st = false -> sdbInitEmpty st h = Some st' -> loaded st' = false ->
  sdbInitEmpty st' h = Some st' /\ schema st' = schema st /\ path st' = path st /\ block st' = block st /\ cap st' = cap st /\
  dirty st' = dirty st /\ cap_records st' = cap_records st.
Proof.
  intros H. unfold sdbInitEmpty. rewrite H. unfold ensureCap at 1. cbn [cap with_arena].
  destruct (SDB_FILE_HDR <=? cap st) eqn:Ec; cbn [mbind option_bind negb].
  - destruct (writeFileHeader _ _ 0); cbn [mbind option_bind]; [|done]. by intros [= <-].
  - destruct (growLoop 64 _ SDB_FILE_HDR) as [n|] eqn:Eg; cbn [mbind option_bind]; [|done].
    destruct (grow1 h) eqn:E1; cbn [mbind option_bind negb].
    { destruct (writeFileHeader _ _ 0); cbn [mbind option_bind]; [|done]. by intros [= <-]. }
    destruct (grow2 h) eqn:E2; cbn [mbind option_bind negb].
    { destruct (writeFileHeader _ _ 0); cbn [mbind option_bind]; [|done]. by intros [= <-]. }
    intros [= <-] _. cbn [loaded with_cap with_arena schema path block cap dirty cap_records]. rewrite H.
    unfold ensureCap. cbn [cap with_arena with_cap]. rewrite Ec, Eg. cbn [mbind option_bind]. by rewrite E1, E2.
Qed.

(** [sdbLoadFailEmpty] looks at four fields only. *)
Lemma fail_same st st' h : schema st' = schema st -> path st' = path st -> cap_records st' = cap_records st ->
  dirty st' = dirty st -> sdbLoadFailEmpty st' h = sdbLoadFailEmpty st h.
Proof. destruct st, st'. cbn. by intros -> -> -> ->. Qed.

Lemma fail_again st h st' ok : sdbLoadFailEmpty st h = Some (st', ok) -> loaded st' = false ->
  sdbLoadFailEmpty st' h = Some (st', ok) /\ schema st' = schema st /\ path st' = path st /\ dirty st' = dirty st /\ cap_records st' = cap_records st.
Proof.
  intros H H'. pose proof H as H0. unfold sdbLoadFailEmpty in H. destruct (sdbInitEmpty _ h) as [s2|] eqn:E; [|done].
  cbn [mbind option_bind] in H. injection H as -> <-. pose proof (fun Z => init_again _ _ _ Z E H') as X. destruct (X eq_refl) as (_ & Es & Ep & _ & _ & Ed & Er).
  cbn [schema path dirty cap_records] in *. split; [by rewrite (fail_same st st')|done].
Qed.

Lemma initThen_again st h r st' ok : loaded st = false -> initThen st h r = Some (st', ok) -> loaded st' = false ->
  initThen st' h r = Some (st', ok) /\ schema st' = schema st /\ path st' = path st.
Proof.
  unfold initThen. intros H Hi H'. destruct (sdbInitEmpty st h) as [s2|] eqn:E; [|done].
  cbn [mbind option_bind] in Hi. injection Hi as -> ->. by destruct (init_again _ _ _ H E H') as (-> & Es & Ep & _).
Qed.

Lemma adopt_again st reader rb lh st' ok : loaded st = false -> adoptImage st reader rb lh = Some (st', ok) -> loaded st' = false ->
  adoptImage st' reader rb lh = Some (st', ok) /\ schema st' = schema st /\ path st' = path st.
Proof.
  intros H Hl H'. unfold adoptImage in Hl. destruct (schemaLayoutEqual reader (schema st)) eqn:Ee.
  - unfold rebuildIndex, hs in Hl. cbn [block schema] in Hl.
    destruct (rebuildLoop _ _ _ _ _) as [[good idx]|] eqn:Er; [|done]. cbn [mbind option_bind] in Hl. destruct good; cbn [negb] in Hl.
    { destruct (writeFileHeader _ _ _) as [b|]; cbn [mbind option_bind] in Hl; [|done]. injection Hl as <- <-. done. }
    destruct (fail_again _ _ _ _ Hl H') as (A1 & A2 & A3 & A4 & A5). cbn [schema path dirty cap_records with_arena] in *.
    split; [|done]. unfold adoptImage. rewrite A2, Ee. unfold rebuildIndex, hs. cbn [block schema]. rewrite Er.
    cbn [mbind option_bind negb]. rewrite <- Hl. by apply fail_same.
  - destruct (rebuildIndex _) as [[rs good]|] eqn:Er; [|done]. cbn [mbind option_bind] in Hl. destruct good; cbn [negb] in Hl.
    + destruct (sdbInitEmpty _ (a_init lh)) as [ds|] eqn:Ed; [|done]. cbn [mbind option_bind] in Hl. destruct (loaded ds) eqn:El; cbn [negb] in Hl.
      * destruct (sdbMigrateRecords ds rs (a_mig lh)) as [ds'|]; [|done]. cbn [mbind option_bind] in Hl.
        destruct (writeFileHeader _ _ _); [|done]. cbn [mbind option_bind] in Hl. injection Hl as <- <-. done.
      * destruct (initThen_again _ _ _ _ _ H Hl H') as (A1 & A2 & A3). split; [|done]. unfold adoptImage.
        rewrite A2, A3, Ee, Er. cbn [mbind option_bind negb]. rewrite Ed. cbn [mbind option_bind]. by rewrite El.
    + destruct (fail_again _ _ _ _ Hl H') as (A1 & A2 & A3 & _). split; [|done]. unfold adoptImage. by rewrite A2, Ee, Er.
Qed.

Lemma load_again st lh st' ok : loaded st = false -> sdbLoad fs legacy st lh = Some (st', ok) -> loaded st' = false ->
  sdbLoad fs legacy st' lh = Some (st', ok) /\ path st' = path st.
Proof.
  intros H Hl H'. rewrite load_by_leaf in Hl by done. rewrite (load_by_leaf st') by done.
  destruct (leafOf st lh) as [lf|] eqn:El; [|done]. cbn [mbind option_bind] in Hl.
  enough (runLeaf st' lh lf = Some (st', ok) /\ schema st' = schema st /\ path st' = path st) as (E3 & E1 & E2).
  { split; [|done]. rewrite (leafOf_same st st') by done. by rewrite El. }
  destruct lf as [r| |reader rb]; cbn [runLeaf] in *.
  - by apply initThen_again.
  - by destruct (fail_again _ _ _ _ Hl H') as (? & ? & ? & _).
  - by apply adopt_again.
Qed.

Lemma warm_again st st' : warm st = Some st' -> warm st' = Some st'.
Proof.
  unfold warm. destruct (loaded st) eqn:H; [intros [= <-]; by rewrite H|]. destruct (loaded st') eqn:H'; [done|].
  destruct (sdbLoad fs legacy st _) as [[s2 ok]|] eqn:E; [|done]. intros [= ->].
  destruct (load_again _ _ _ _ H E H') as [E1 E2]. by rewrite E2, E1.
Qed.

(** ** Reading is not seen *)

Lemma join_inj a b : length a = length b -> Forall (fun s => SEP ∉ s) a -> Forall (fun s => SEP ∉ s) b ->
  joinBinds a = joinBinds b -> a = b.
Proof.
  intros Hl Ha. revert b Hl. induction Ha as [|x a Hx Ha IH]; intros [|y b] Hl Hb E; try done.
  apply Forall_cons in Hb as [Hy Hb]. injection Hl as Hl. destruct a as [|x' a], b as [|y' b]; try done; [cbn in E; by subst|].
  change (x ++ SEP :: joinBinds (x' :: a) = y ++ SEP :: joinBinds (y' :: b)) in E.
  pose proof (f_equal (fun z => strchr z SEP) E) as E'. cbv beta in E'. rewrite !strchr_app in E' by done. injection E' as -> E'.
  f_equal. by apply IH.
Qed.

Lemma fill_binds pat b x : length b = wilds pat -> x ∈ b -> x ∈ fill pat b.
Proof.
  unfold wilds. revert b. induction pat as [|p pat IH]; intros b Hl Hx; cbn [fill List.filter] in *.
  - destruct b; [by apply elem_of_nil in Hx|done].
  - destruct (streq p WILD); cbn [length] in Hl; [|apply elem_of_cons; right; by apply IH].
    destruct b as [|y b]; [done|]. cbn. apply elem_of_cons in Hx as [->|Hx]; apply elem_of_cons; [by left|right]. apply IH; [by injection Hl|done].
Qed.

Lemma join_elem x ss : x ∈ ss -> forall c, c ∈ x -> c ∈ joinDots ss.
Proof.
  intros Hx c Hc. induction ss as [|s ss IH]; [by apply elem_of_nil in Hx|]. destruct ss as [|s' ss].
  - apply list_elem_of_singleton in Hx as ->. done.
  - change (c ∈ s ++ DOT :: joinDots (s' :: ss)). apply elem_of_app. apply elem_of_cons in Hx as [->|Hx]; [by left|right].
    apply elem_of_cons. right. by apply IH.
Qed.

(** The binds of a routed key: one per wildcard of its registration, none with the
    separator if the key has none. *)
Lemma route_binds d key m : sdbRoute d key = Some m -> exists r, g_sdbRegs d !! m_reg m = Some r /\
  fits (r_pat r) (m_binds m) (m_tail m) (splitDots key) /\ (SEP ∉ key -> Forall (fun s => SEP ∉ s) (m_binds m)).
Proof.
  intros H. unfold sdbRoute in H. destruct (g_sdbRegs d) as [|r0 rs0] eqn:E; [done|]. rewrite <- E in *. clear E.
  destruct (negb _); [done|]. apply routeLoop_spec in H as (pre & r & post & E & Hi & Hf & _). exists r. split.
  - rewrite E, Hi. by apply list_lookup_middle.
  - split; [done|]. intros HS. apply Forall_forall. intros x Hx Hc. apply HS. rewrite <- (join_split key). destruct Hf as [Hl ->].
    apply (join_elem x); [|done]. apply elem_of_app. left. by apply fill_binds.
Qed.

(** The states that lead the same binds to the same stores. *)
Definition good_binds (d : sdb_db) (i : nat) (b : list bytes) : Prop :=
  Forall (fun s => SEP ∉ s) b /\ exists r, g_sdbRegs d !! i = Some r /\ length b = wilds (r_pat r).

Definition same_view (d d' : sdb_db) : Prop :=
  static d' = static d /\ forall i b, good_binds d i b -> instStore d' i b = instStore d i b.

Lemma good_static d d' i b : static d = static d' -> good_binds d i b -> good_binds d' i b.
Proof.
  intros E%(static_lookup _ _ i) (H & r & Hr & Hl). split; [done|]. rewrite Hr in E.
  destruct (g_sdbRegs d' !! i) as [r'|]; [|done]. cbn in E. injection E as _ E. exists r'. by rewrite <- E.
Qed.

#[export] Instance same_view_preorder : PreOrder same_view.
Proof.
  split; [done|]. intros d1 d2 d3 [S1 V1] [S2 V2]. split; [congruence|]. intros i b G. rewrite V2, V1; [done|done|].
  by apply (good_static d1).
Qed.

Lemma puts_view d i b st d' : good_binds d i b -> instStore d i b = Some st -> puts d i b st d' -> same_view d d'.
Proof.
  intros (Hs & r & Hr & Hl) Ei P. split; [apply P|]. intros j b' (Hs' & r' & Hr' & Hl').
  destruct (decide ((j, joinBinds b') = (i, joinBinds b))) as [E|E]; [|by eapply instStore_other].
  injection E as -> E. rewrite Hr in Hr'. injection Hr' as <-. apply join_inj in E as ->; [|congruence|done|done].
  rewrite (instStore_same _ _ _ _ _ P), Ei by by eexists. unfold instStore in Ei. rewrite Hr in Ei. by apply warm_again in Ei.
Qed.

Lemma route_good d key m : sdbRoute d key = Some m -> SEP ∉ key -> good_binds d (m_reg m) (m_binds m).
Proof. intros R S. destruct (route_binds _ _ _ R) as (r & Hr & [Hl _] & B). split; [by apply B|by exists r]. Qed.

Lemma brought_view d key d' : SEP ∉ key -> brought d key d' -> same_view d d'.
Proof. intros S [->|(m & st & R & Ei & P)]; [done|]. eapply puts_view; [by eapply route_good|done|done]. Qed.

Lemma view_answers d d' key : same_view d d' -> SEP ∉ key -> getView d' key = getView d key /\ existsView d' key = existsView d key.
Proof.
  intros [Es V] S. apply answers_ext; [done|]. intros m R. symmetry. apply V. by eapply route_good.
Qed.

Lemma loadInst_same d i b d' st : good_binds d i b -> loadInst d i b = Some (d', st) -> same_view d d'.
Proof.
  intros G H. pose proof (loadInst_view d i b) as L. destruct (instStore d i b) as [st'|] eqn:Ei; [|congruence].
  destruct L as (d2 & E & P). rewrite E in H. injection H as <- <-. by eapply puts_view.
Qed.

(** ** Enumerating is a read too *)

Hypothesis names_ok : forall dir names, fs_names fs dir = Some names -> Forall (fun n => SEP ∉ n) names.

Lemma splitSep_free k : Forall (fun s => SEP ∉ s) (splitSep k).
Proof.
  induction k as [|c k IH]; [repeat constructor; apply not_elem_of_nil|]. cbn [splitSep]. destruct (Z.eqb_spec c SEP).
  - constructor; [apply not_elem_of_nil|done].
  - destruct (splitSep k) as [|s r]; [repeat constructor|apply Forall_cons in IH as [Hs Hr]; constructor; [|done]];
      apply not_elem_of_cons; (split; [congruence|]); [apply not_elem_of_nil|done].
Qed.

Lemma setInsert_free s l : SEP ∉ s -> Forall (fun s => SEP ∉ s) l -> Forall (fun s => SEP ∉ s) (setInsert s l).
Proof.
  intros Hs. induction 1 as [|x l Hx Hl IH]; [by repeat constructor|]. cbn [setInsert]. destruct (strcmp s x); repeat constructor; done.
Qed.

Lemma stems_free r binds : Forall (fun s => SEP ∉ s) (stems stateDir fs r binds).
Proof.
  unfold stems. set (l := _ ++ _). assert (Forall (fun s => SEP ∉ s) l) as H.
  { apply Forall_app. split.
    - apply Forall_forall. intros s Hs. apply list_elem_of_omap in Hs as (k & _ & Hk). unfold residentStem in Hk.
      destruct (_ && _); [|done]. apply last_Some_elem_of in Hk. pose proof (splitSep_free k) as Q. rewrite Forall_forall in Q. by apply Q.
    - destruct (r_persist r); [|constructor]. destruct (fs_names _ _) as [names|] eqn:E; [|constructor].
      apply names_ok in E. apply Forall_forall. intros s Hs. apply list_elem_of_omap in Hs as (n & Hn & Hs). unfold fileStem in Hs.
      destruct (_ && _); [|done]. injection Hs as <-. rewrite Forall_forall in E. intros Hc. apply (E n Hn).
      rewrite <- (take_drop (length n - 6) n). apply elem_of_app. by left. }
  clearbody l. assert (Forall (fun s : bytes => SEP ∉ s) []) as H0 by constructor. revert H0. generalize (@nil bytes). induction H as [|s l Hs Hl IH]; intros acc H0; [done|].
  cbn [foldl]. apply IH. by apply setInsert_free.
Qed.

Lemma eachStem_same i prefix binds ss : forall d d' out, Forall (fun s => SEP ∉ s) ss ->
  (forall s, SEP ∉ s -> good_binds d i (binds ++ [s])) ->
  eachStem stateDir legacy fs o d i prefix binds ss = Some (d', out) -> same_view d d'.
Proof.
  induction ss as [|s ss IH]; intros d d' out Hs G H; cbn [eachStem] in H; [by injection H as <- _|].
  apply Forall_cons in Hs as [Hx Hs]. destruct (loadInst d i (binds ++ [s])) as [[d1 st]|] eqn:El; [|done]. cbn [mbind option_bind] in H.
  destruct (sdbForEachInstance _ _) as [o1|]; [|done]. cbn [mbind option_bind] in H.
  destruct (eachStem stateDir legacy fs o d1 i prefix binds ss) as [[d2 o2]|] eqn:Ee; [|done]. cbn [mbind option_bind] in H. injection H as <- _.
  pose proof (loadInst_same _ _ _ _ _ (G s Hx) El) as V. etransitivity; [exact V|]. eapply IH; [done| |exact Ee].
  intros s' Hs'. apply (good_static d); [symmetry; apply V|by apply G].
Qed.

Lemma matchLead_binds pat pre b : matchLead pat pre = Some b ->
  length b = wilds (take (length pre) pat) /\ (length pre <= length pat)%nat /\ forall s, s ∈ b -> s ∈ pre.
Proof.
  unfold wilds. revert pre b. induction pat as [|p pat IH]; intros [|s pre] b H; cbn [matchLead] in H; try done;
    try (injection H as <-; cbn; split_and!; [done|lia|done]).
  cbn [length take List.filter]. destruct (streq p WILD); cbn [length].
  - destruct (matchLead pat pre) as [b'|] eqn:E; [|done]. injection H as <-. cbn [length]. apply IH in E as (-> & L & M). split_and!; [done|lia|].
    intros x [->|Hx]%elem_of_cons; apply elem_of_cons; [by left|right; by apply M].
  - destruct (streq p s); [|done]. apply IH in H as (-> & L & M). split_and!; [done|lia|]. intros x Hx. apply elem_of_cons. right. by apply M.
Qed.

Lemma underLoop_same d prefix rs i d' out : SEP ∉ prefix -> (forall j, rs !! j = g_sdbRegs d !! (i + j)%nat) ->
  underLoop stateDir legacy fs o d prefix (splitDots prefix) i rs = Some (d', out) -> same_view d d'.
Proof.
  intros S. revert i. induction rs as [|r rs IH]; intros i Hrs H; cbn [underLoop] in H; [by injection H as <- _|].
  assert (forall j, rs !! j = g_sdbRegs d !! (Datatypes.S i + j)%nat) as Hrs'.
  { intros j. specialize (Hrs (Datatypes.S j)). rewrite Nat.add_succ_r in Hrs. exact Hrs. }
  specialize (IH (Datatypes.S i) Hrs'). specialize (Hrs 0%nat). cbn in Hrs. rewrite Nat.add_0_r in Hrs.
  destruct (Nat.leb_spec (length (r_pat r)) (length (splitDots prefix))).
  - destruct (sdbRoute d prefix) as [m|] eqn:R; [|by apply IH]. destruct (negb _); [by apply IH|].
    unfold sdbResolveLoaded in H. destruct (loadInst d (m_reg m) (m_binds m)) as [[d1 st]|] eqn:El; [|done]. cbn [mbind option_bind] in H.
    destruct (sdbForEachInstance _ _); [|done]. injection H as <- _. eapply loadInst_same; [by eapply route_good|exact El].
  - destruct (matchLead (r_pat r) (splitDots prefix)) as [binds|] eqn:Em; [|by apply IH].
    destruct ((_ =? _)%nat && bool_decide (last (r_pat r) = Some WILD)) eqn:Ec; [|by apply IH].
    apply andb_true_iff in Ec as [Ec1 Ec2]. apply Nat.eqb_eq in Ec1. apply bool_decide_eq_true in Ec2.
    destruct (eachStem _ _ _ _ _ _ _ _ _) as [[d1 o1]|] eqn:Ee; [|done]. injection H as <- _.
    apply matchLead_binds in Em as (Hl & Hle & Hin). eapply eachStem_same; [apply stems_free| |exact Ee].
    intros s Hs. split; [|exists r; split; [done|]].
    + apply Forall_app. split; [|by repeat constructor]. apply Forall_forall. intros x Hx Hc. apply S.
      rewrite <- (join_split prefix). by apply (join_elem x); [apply Hin|].
    + rewrite length_app, Hl. apply last_Some in Ec2 as [l Ec2]. rewrite Ec2 in *. rewrite length_app in *. cbn [length] in *.
      rewrite take_app_le, take_ge by lia. unfold wilds. rewrite List.filter_app, length_app. done.
Qed.

End View.

(** ** The heap at two moments *)

(** A load that gets all the memory it asks for. *)
Definition plenty : load_heap :=
  {| a_raw := true; a_out := true; a_inf := true; a_rb := true;
     a_init := {| grow1 := true; grow2 := true; fresh := true |};
     a_mig := fun _ _ => ({| grow1 := true; grow2 := true; fresh := true |}, {| grow1 := true; grow2 := true; fresh := true |}) |}.

Lemma same_view_plenty {C I F : Type} `{TD : Tdefl C} `{TI : Tinfl I} `{CR : Crc} `{FS : FileSys F} stateDir legacy (fs : F) o0 o d d' :
  (forall p, o_load o0 p = plenty) -> (forall p, o_load o p = plenty) ->
  same_view stateDir legacy fs o0 d d' -> same_view stateDir legacy fs o d d'.
Proof.
  intros H0 H [S V]. split; [done|]. intros i b G. specialize (V i b G). unfold instStore, warm in *.
  destruct (g_sdbRegs d' !! i), (g_sdbRegs d !! i); cbn [mbind option_bind] in *; rewrite ?H0 in V; rewrite ?H; done.
Qed.

(** C16: what a reader returns does not depend on what was read before, while memory lasts. A
    lookup, a test for existence or an enumeration may create instances and load files; if
    its loads got the memory they asked for, then the answer to every later lookup and
    test, at whatever moment its own load gets its memory too, is the one it would have
    given without. *)
Theorem reads_unobserved {C I F : Type} `{TD : Tdefl C} `{TI : Tinfl I} `{CR : Crc} `{FS : FileSys F} `{DS : DirSys F}
    (stateDir : bytes) (legacy : list sdb_legacy) (fs : F) (o0 o : oracle) d d' k0 key :
  (forall p, o_load o0 p = plenty) -> (forall p, o_load o p = plenty) ->
  (forall dir names, fs_names fs dir = Some names -> Forall (fun n => SEP ∉ n) names) -> SEP ∉ k0 -> SEP ∉ key ->
  (exists v, Access.sdbGetLocked stateDir legacy fs o0 d k0 = Some (d', v)) \/
  (exists v, Access.sdbExistsLocked stateDir legacy fs o0 d k0 = Some (d', v)) \/
  (exists v, sdbForEachUnderLocked stateDir legacy fs o0 d k0 = Some (d', v)) ->
  snd <$> Access.sdbGetLocked stateDir legacy fs o d' key = snd <$> Access.sdbGetLocked stateDir legacy fs o d key /\
  snd <$> Access.sdbExistsLocked stateDir legacy fs o d' key = snd <$> Access.sdbExistsLocked stateDir legacy fs o d key.
Proof.
  intros M0 M HN S0 S H. assert (same_view stateDir legacy fs o0 d d') as V0.
  { destruct H as [[v H]|[[v H]|[v H]]].
    - pose proof (get_view stateDir legacy fs o0 d k0) as G. destruct (getView _ _ _ _ d k0); [|congruence].
      destruct G as (d1 & G & B). rewrite G in H. injection H as <- _. by apply (brought_view _ _ _ _ _ k0).
    - pose proof (exists_view stateDir legacy fs o0 d k0) as G. destruct (existsView _ _ _ _ d k0); [|congruence].
      destruct G as (d1 & G & B). rewrite G in H. injection H as <- _. by apply (brought_view _ _ _ _ _ k0).
    - unfold sdbForEachUnderLocked in H. destruct (g_sdbRegs d) as [|r rs] eqn:E; [by injection H as <- _|].
      eapply underLoop_same; [exact HN|exact S0| |exact H]. intros j. by rewrite <- E. }
  pose proof (same_view_plenty _ _ _ _ _ _ _ M0 M V0) as V.
  destruct (view_answers _ _ _ _ _ _ key V S) as [V1 V2].
  by rewrite !get_answer, !exists_answer.
Qed.
