(* ===== verification/SdbRouteSet.v ===== *)
(** * storage: a routed write, a flush and a restart

    A write through the op list to a key of a structured store, and what every reader of
    the configuration returns afterwards; then a flush of every changed store, and what a
    device that starts from the files reads. *)

From stdpp Require Import gmap.
From S2P Require Import Prelude CLib Targz StorageDb StorageDbBlock StorageDbSchema StorageDbSpec StorageDbStore StorageDbValues StorageDbFile Config ConfigTree ConfigOps ConfigSet SdbRoute SdbRouteProofs SdbRouteStore.
Import Schema Block Store Tree Ops Subs Actor Route Access SdbInstances.
Open Scope Z_scope.
Open Scope spangap_scope.

(** ** One write through the actor, for any router *)

Section Commit.
Context {D : Type} `{CJ : CJson} `{L : !CJsonLaws CJ} `{SR : SdbRouter D}.

Lemma startSaveTimer_pending (c : cfg_st D) : savePending (startSaveTimer c) = true /\ subs (startSaveTimer c) = subs c.
Proof. unfold startSaveTimer. by destruct (savePending c) eqn:E. Qed.

Lemma finishOps_routed (c : cfg_st D) ch dirty silent ops sender sh :
  finishOps {| p2_cfg := c; p2_patch := []; p2_changes := ch; p2_dirty := dirty |} silent ops sender sh =
  let c' := if dirty then startSaveTimer c else c in
  let c' := with_subs c' (foldl (applySub sender) (subs c') ops) in
  (c', concat (map (fun x => notifyChange sh (subs c') x.1 x.2) ch)).
Proof.
  unfold finishOps. cbn [p2_patch p2_cfg p2_changes p2_dirty]. rewrite !GetObjectItem_oget. cbn [kget].
  assert (with_root c (deepMerge (JNode false []) (cfgRoot c)) = c) as -> by by destruct c.
  assert ((if silent then [] else collectChanges 128 [] (JNode false [])) = []) as -> by by destruct silent.
  by rewrite app_nil_r.
Qed.

(** A write the router takes leaves the tree and its files alone: the stores, the timer
    and the notifications are the router's. *)
Lemma routed_set_applies (c : cfg_st D) silent key val sender sh d' ch dirty :
  0 ∉ key -> 0 ∉ val -> Zlen (opAppendKV (chr "S") key val) < 2 ^ 32 - 1 ->
  Actor.sdbApplyOpLocked (db c) (chr "S") key (stored_form val) silent = Some (d', ch, dirty) ->
  exists c', commit c silent [opAppendKV (chr "S") key val] sender sh =
      Some (c', concat (map (fun x => notifyChange sh (subs c) x.1 x.2) ch)) /\ db c' = d' /\
    root c' = root c /\ files c' = files c /\ savePending c' = savePending c || dirty /\ subs c' = subs c.
Proof.
  intros Hk Hv Hl HA. unfold commit. cbn [concat]. rewrite app_nil_r.
  rewrite opAppendKV_encode in *. fold (aop_of (chr "S") key val) in *. set (a := aop_of (chr "S") key val) in *.
  assert (aop_ok a) as Ha.
  { unfold a, aop_of. destruct (inferType val); cbn; split_and!; try done; try (by left); apply atoi_range. }
  pose proof (encode_op_length a) as Hel. destruct (encode_op a) as [|x body] eqn:Ee; [cbn in Hel; lia|]. rewrite <- Ee in *. clear Hel.
  unfold storageApplyOps. rewrite <- (app_nil_r (encode_op a)). change (encode_op a ++ []) with (concat (map encode_op [a])).
  rewrite (parseOps_ok [a]).
  2: { by constructor. }
  2: { rewrite Zlen_cons. cbn [map concat]. rewrite app_nil_r. lia. }
  2: { apply encodes_length. }
  cbn [mbind option_bind map]. set (sil := negb _). assert (sil = silent) as -> by (unfold sil; by destruct silent).
  assert (lefts [op_of a] = [{| p_op := chr "S"; p_key := key; p_val := Some (leaf_of val); p_ptr := 0 |}]) as ->
    by (unfold a, aop_of, leaf_of; destruct (inferType val); cbn; by rewrite ?c_str_id).
  set (q := {| p_op := chr "S"; p_key := key; p_val := Some (leaf_of val); p_ptr := 0 |}).
  set (st := foldl (applyOne silent) {| p2_cfg := c; p2_patch := []; p2_changes := []; p2_dirty := false |} [q]).
  assert (st = {| p2_cfg := with_db c d'; p2_patch := []; p2_changes := ch; p2_dirty := dirty |}) as ->.
  { unfold st. cbn [foldl]. unfold applyOne. change (is_sub_op q) with false. cbn [p_op p_key p2_cfg q].
    assert (opString q = stored_form val) as -> by (unfold opString, q, leaf_of, stored_form; by destruct (inferType val)).
    by rewrite HA. }
  rewrite finishOps_routed. cbv zeta. change (foldl (applySub sender) ?x [q]) with x.
  assert (forall c : cfg_st D, cfgRoot (if dirty then startSaveTimer c else c) = cfgRoot c /\ db (if dirty then startSaveTimer c else c) = db c /\
    files (if dirty then startSaveTimer c else c) = files c /\ subs (if dirty then startSaveTimer c else c) = subs c /\
    savePending (if dirty then startSaveTimer c else c) = savePending c || dirty) as T.
  { intros c0. destruct dirty; [|by rewrite orb_false_r]. rewrite orb_true_r. unfold startSaveTimer. by destruct (savePending c0) eqn:E. }
  destruct (T (with_db c d')) as (T1 & T2 & T3 & T4 & T5). cbn [subs with_subs]. rewrite T4. eexists. split; [done|].
  unfold root, files in *. cbn [cfgRoot externals rootDirty with_sems with_subs db savePending subs].
  rewrite T1, T2, T5. split_and!; done.
Qed.
End Commit.

(** ** The structured stores behind the actor *)

Section Routed.
Context {C I F : Type} `{TD : Tdefl C} `{TI : Tinfl I} `{CR : Crc} `{FS : FileSys F} `{DS : DirSys F}.
Context (stateDir : bytes) (legacy : list sdb_legacy) (fs : F) (o : oracle).
Context `{CJ : CJson} `{L : !CJsonLaws CJ}.
Notation instStore := (instStore stateDir legacy fs o).
Notation getView := (getView stateDir legacy fs o).
Notation SR := (routerOf stateDir legacy fs o).

Lemma stored_form_nul val : 0 ∉ val -> 0 ∉ stored_form val.
Proof.
  intros H. unfold stored_form. destruct (inferType val); [|done]. pose proof (atoi_range val). unfold sdec.
  destruct (Z.ltb_spec (atoi val) 0); [apply not_elem_of_cons; split; [done|]|]; apply udec_no_char; (done || lia).
Qed.

Lemma router_get d key : Actor.sdbGetLocked (SdbRouter := SR) (Some d) key = (v ← getView d key; v).
Proof.
  cbn. pose proof (get_view stateDir legacy fs o d key) as G. destruct (getView d key) as [v|]; [|by rewrite G].
  destruct G as (d' & -> & _). done.
Qed.

Lemma router_apply d op key vs silent : Actor.sdbApplyOpLocked (SdbRouter := SR) (Some d) op key vs silent =
  match Access.sdbApplyOpLocked stateDir legacy fs o d op key vs silent with
  | None => Some (None, [], false)
  | Some None => None
  | Some (Some (d, ch, dirty)) => Some (Some d, ch, dirty)
  end.
Proof. done. Qed.

(** A key no pattern fits is the tree's, as [ConfigSet] has it. *)
Lemma unrouted (c : cfg_st (option sdb_db)) d key : db c = Some d -> sdbRoute d key = None -> not_routed (SR := SR) c key.
Proof.
  intros E R. unfold not_routed. rewrite E. split.
  - cbn. unfold Access.sdbGetLocked. by rewrite R.
  - intros op vs silent. cbn. unfold Access.sdbApplyOpLocked. by rewrite R.
Qed.

Lemma getString_view (c : cfg_st (option sdb_db)) d key def : db c = Some d ->
  storageGetString (SR := SR) c key def =
  match getView d key with
  | Some (Some v) => v
  | _ => match resolveKey c key with Some (JStr s) => s | Some (JNum v) => sdec v | _ => def end
  end.
Proof.
  intros E. unfold storageGetString. rewrite E, router_get. by destruct (getView d key) as [[v|]|].
Qed.

Lemma apply_set_view d key vs silent m rec field r fd st cur :
  sdbRoute d key = Some m -> m_tail m = [rec; field] -> g_sdbRegs d !! m_reg m = Some r -> find (r_schema r) field = Some fd ->
  instStore d (m_reg m) (m_binds m) = Some st -> sdbGetField st rec field = Some cur ->
  match (if bool_decide (cur = Some vs) then Some st
         else sdbSetField st rec field (c_str vs) (o_set o rec field).1 (o_set o rec field).2) with
  | None => Access.sdbApplyOpLocked stateDir legacy fs o d (chr "S") key vs silent = None
  | Some st' => exists d', puts d (m_reg m) (m_binds m) st' d' /\
      Access.sdbApplyOpLocked stateDir legacy fs o d (chr "S") key vs silent =
      Some (Some (if bool_decide (cur = Some vs) then (d', [], false) else (d', changeOf silent key vs, r_persist r)))
  end.
Proof.
  intros R T Hr Ef Ei Eg. unfold Access.sdbApplyOpLocked, sdbResolveLoaded, knows. rewrite R, T, Hr. cbn [mbind option_bind].
  rewrite Ef, (bool_decide_true (is_Some (Some fd))) by done. cbn [negb]. pose proof (loadInst_view stateDir legacy fs o d (m_reg m) (m_binds m)) as X.
  rewrite Ei in X. destruct X as (d1 & -> & P). cbn [mbind option_bind].
  change (chr "S" =? chr "D") with false. change (chr "S" =? chr "d") with false. cbn [andb orb]. rewrite Eg. cbn [mbind option_bind].
  assert ((match cur with Some v => streq v vs | None => false end) = bool_decide (cur = Some vs)) as ->.
  { destruct cur as [v|]; [|done]. unfold streq. apply bool_decide_ext. split; congruence. }
  destruct (bool_decide (cur = Some vs)); [by exists d1|].
  destruct (sdbSetField st rec field (c_str vs) _ _) as [st'|]; [|done]. cbn [mbind option_bind].
  assert (puts d (m_reg m) (m_binds m) st' (putInst d1 (m_reg m) (m_binds m) st')) as P'.
  { eapply puts_trans; [exact P|]. apply puts_put. eapply puts_reg; [exact P|by eexists]. }
  eexists. split; [exact P'|]. do 3 f_equal. unfold persists. pose proof (static_lookup _ _ (m_reg m) (pt_static _ _ _ _ _ P')) as Es.
  rewrite Hr in Es. destruct (g_sdbRegs (putInst d1 _ _ st') !! m_reg m) as [r'|]; [|done]. cbn in Es. by injection Es.
Qed.

(** [key'] reads another value than the one written through [m]: it is not routed, leads to
    another instance, or names another field, or another record that the write cannot
    evict. *)
Definition apart (d : sdb_db) (m : sdb_match) (rec field : bytes) (st : sdb_store) (key' : bytes) : Prop :=
  forall m', sdbRoute d key' = Some m' ->
    (m_reg m', joinBinds (m_binds m')) <> (m_reg m, joinBinds (m_binds m)) \/
    (m_binds m' = m_binds m /\ forall rec' field', m_tail m' = [rec'; field'] ->
      (rec' = rec /\ field' <> field /\ sdbHasRecord st rec = true) \/
      (rec' <> rec /\ (cap_records st = 0 \/ sdbHasRecord st rec = true))).

Lemma getView_put d i b st st' d' key : puts d i b st' d' -> is_Some (g_sdbRegs d !! i) -> instStore d i b = Some st ->
  loaded st' = true ->
  (forall m, sdbRoute d key = Some m -> (m_reg m, joinBinds (m_binds m)) <> (i, joinBinds b) \/
     m_reg m = i /\ m_binds m = b /\ forall rec field, m_tail m = [rec; field] -> sdbGetField st' rec field = sdbGetField st rec field) ->
  getView d' key = getView d key.
Proof.
  intros P Hi Ei Hl H. unfold SdbRouteStore.getView. rewrite (route_static d' d) by apply P. destruct (sdbRoute d key) as [m|]; [|done].
  destruct (m_tail m) as [|rec [|field [|]]] eqn:Et; try done. rewrite (knows_static d' d) by apply P.
  destruct (knows d m field) as [[|]|]; [|done..]. cbn [mbind option_bind negb].
  destruct (H m eq_refl) as [Hn|(-> & -> & He)].
  - by rewrite (instStore_other stateDir legacy fs o _ _ _ _ _ _ _ P Hn).
  - rewrite (instStore_same stateDir legacy fs o _ _ _ _ _ P Hi), Ei. unfold warm. rewrite Hl. cbn [mbind option_bind]. by apply He.
Qed.

End Routed.

(** ** A flush and a restart *)

From S2P Require Import TargzRoundtrip Vfs Persist.
Import Schema Gz Block Store Route Access Flush.

(** The stores as the persist worker sees them. *)
Definition filesOf (o : oracle) : SdbFiles (option sdb_db) := {|
  sdbDirtyImages od :=
    match od with
    | None => (None, [], [])
    | Some d =>
        match takeDirty o d with
        | None => (None, [], [])
        | Some (d, jobs, deletes) => (Some d, jobs, deletes)
        end
    end |}.

Section Flush.
Context (o : oracle).
Notation snapOne := (snapOne o).
Notation snapInsts := (snapInsts o).
Notation snapRegs := (snapRegs o).

(** A resident store the flush can deal with: loaded and well formed, or clean. *)
Definition healthy (st : sdb_store) : Prop :=
  if loaded st then path st <> [] /\ exists rs, repr st rs /\ wf_schema (schema st) else dirty st = false.

(** What the flush makes of one store. *)
Record snapped (st st' : sdb_store) (job : list (bytes * bytes)) : Prop := {
  sn_clean : dirty st' = false;
  sn_path : path st' = path st;
  sn_loaded : loaded st' = loaded st;
  sn_keeps A : implements st A -> implements st' A;
  sn_job rs : loaded st = true -> dirty st = true -> o_snap o (path st) = true -> repr st rs ->
    job = [(path st, disk (schema st) (Zlen (lives rs)) (images (lives rs)))]
}.

Lemma repr_unique st rs rs' : repr st rs -> repr st rs' -> Zlen (lives rs) = Zlen (lives rs').
Proof.
  intros H H'. pose proof (recordCount_ok st rs H). pose proof (recordCount_ok st rs' H'). congruence.
Qed.

Lemma snapOne_ok st : healthy st -> exists st' job, snapOne st = Some (st', job) /\ snapped st st' job.
Proof.
  unfold healthy, Access.snapOne. intros H. destruct (loaded st) eqn:El; cbn [andb].
  2: { exists st, []. split; [done|]. split; try done. intros rs Hl. congruence. }
  destruct H as (Hp & rs & Hr & Hsc). destruct (dirty st) eqn:Ed; cbn [andb].
  2: { exists st, []. split; [done|]. split; try done. intros rs' _ Hd. congruence. }
  destruct (Z.eqb_spec (Zlen (path st)) 0) as [E|_]; [by apply Zlen_zero in E|]. cbn [negb].
  unfold sdbSnapshotRaw. rewrite El. cbn [negb]. destruct (compact_ok st rs 0 Hr ltac:(lia)) as (s1 & Ec & R1 & Hm & _ & Eb).
  rewrite Ec. cbn [mbind option_bind]. change (drop (Z.to_nat 0) (lives rs)) with (lives rs) in *. pose proof Hm as (S1 & S2 & S3 & S4 & S5).
  rewrite <- S1 in Eb. rewrite (buildDiskImage_ok _ _ _ (o_snap o (path st)) Eb). cbn [mbind option_bind].
  eexists _, _. split; [done|]. split; [done|exact S2|exact S4|..].
  - intros A (rs2 & R2 & W & _ & <-). destruct (compact_ok st rs2 0 R2 ltac:(lia)) as (s2 & Ec2 & R3 & _). rewrite Ec in Ec2. injection Ec2 as <-.
    exists (lives rs2). cbn [schema loaded with_flags]. rewrite S1, S4, abs_lives. split_and!; [|done..]. by apply repr_flags.
  - intros rs2 _ _ Ho R2. destruct (compact_ok st rs2 0 R2 ltac:(lia)) as (s2 & Ec2 & _ & _ & _ & Eb2). rewrite Ec in Ec2. injection Ec2 as <-.
    change (drop (Z.to_nat 0) (lives rs2)) with (lives rs2) in Eb2. rewrite Ho. cbn [path with_flags]. rewrite S2.
    rewrite S1 in Eb. rewrite Eb, (repr_unique _ _ _ Hr R2) in Eb2. apply app_inv_head in Eb2. by rewrite S1, (repr_unique _ _ _ Hr R2), Eb2.
Qed.

(** Lists of instances with the same keys, each store related to the one before. *)
Lemma snapInsts_ok l : Forall (fun ks => healthy ks.2) l -> exists l' jobs, snapInsts l = Some (l', jobs) /\
  Forall2 (fun x y => y.1 = x.1 /\ exists job, snapped x.2 y.2 job /\ job ⊆ jobs) l l'.
Proof.
  induction 1 as [|[k st] l H _ IH]; [by exists [], []|]. destruct IH as (l' & jobs & E & IH).
  destruct (snapOne_ok st H) as (st' & job & Es & S). cbn [Access.snapInsts]. rewrite Es. cbn [mbind option_bind]. rewrite E.
  eexists _, _. split; [done|]. constructor.
  - split; [done|]. exists job. split; [done|]. set_solver.
  - eapply Forall2_impl; [exact IH|]. intros x y (-> & j & S' & Hj). split; [done|]. exists j. split; [done|]. set_solver.
Qed.

(** [d'] has the stores of [d] after the flush took what there was to write. *)
Definition flushed (r r' : sdb_reg) (jobs : list (bytes * bytes)) : Prop :=
  with_insts r' ∅ = with_insts r ∅ /\
  (r_persist r = true -> forall k, match insts r !! k, insts r' !! k with
     | Some st, Some st' => exists job, snapped st st' job /\ job ⊆ jobs
     | None, None => True
     | _, _ => False
     end) /\ (r_persist r = false -> r' = r).

Lemma snapReg_ok r : (r_persist r = true -> forall k st, insts r !! k = Some st -> healthy st) ->
  exists r' jobs, (if negb (r_persist r) then Some (r, [])
                   else '(l, jobs) ← snapInsts (map_to_list (insts r)); Some (with_insts r (list_to_map l), jobs)) = Some (r', jobs) /\
    flushed r r' jobs.
Proof.
  intros H. destruct (r_persist r) eqn:Ep; cbn [negb]; [|exists r, []; split; [done|]; split; [done|]; split; [congruence|done]].
  destruct (snapInsts_ok (map_to_list (insts r))) as (l' & jobs & E & Fl).
  { apply Forall_forall. intros [k st] Hk. apply elem_of_map_to_list in Hk. cbn. by apply (H eq_refl k). }
  rewrite E. cbn [mbind option_bind]. eexists _, _. split; [done|]. split; [done|]. split; [|congruence]. intros _ k. cbn [insts with_insts].
  assert (l'.*1 = (map_to_list (insts r)).*1) as Ek.
  { clear E. induction Fl as [|x y l l' (Hx & _) _ IH]; [done|]. cbn. by rewrite Hx, IH. }
  assert (NoDup l'.*1) as Hn by (rewrite Ek; apply NoDup_fst_map_to_list).
  destruct (insts r !! k) as [st|] eqn:El.
  - apply elem_of_map_to_list, list_elem_of_lookup_1 in El as [n Hl]. destruct (Forall2_lookup_l _ _ _ _ _ Fl Hl) as ([k' st'] & Hl' & Hk & job & S & Hj).
    cbn in Hk. subst k'. apply list_elem_of_lookup_2, (elem_of_list_to_map _ _ _ Hn) in Hl'. rewrite Hl'. by exists job.
  - destruct (list_to_map l' !! k) as [st'|] eqn:El'; [|done]. apply (elem_of_list_to_map _ _ _ Hn), (list_elem_of_fmap_2 fst) in El'.
    rewrite Ek in El'. apply list_elem_of_fmap in El' as ([k' st] & Hk & Hm). cbn in Hk. subst k'. apply elem_of_map_to_list in Hm. congruence.
Qed.

Lemma snapRegs_ok rs : (forall r k st, r ∈ rs -> r_persist r = true -> insts r !! k = Some st -> healthy st) ->
  exists rs' jobs, snapRegs rs = Some (rs', jobs) /\ Forall2 (fun r r' => exists j, flushed r r' j /\ j ⊆ jobs) rs rs'.
Proof.
  induction rs as [|r rs IH]; intros H; [by exists [], []|]. destruct IH as (rs' & jobs & E & Fl).
  { intros r' k st Hr. apply H. apply elem_of_cons. by right. }
  destruct (snapReg_ok r) as (r' & jobs' & Er & Fr). { intros Hp k st. apply H; [apply elem_of_cons; by left|done]. }
  cbn [Access.snapRegs]. rewrite Er. cbn [mbind option_bind]. rewrite E. cbn [mbind option_bind]. eexists _, _. split; [done|]. constructor.
  - exists jobs'. split; [done|]. set_solver.
  - eapply Forall2_impl; [exact Fl|]. intros x y (j & Fj & Hj). exists j. split; [done|]. set_solver.
Qed.

Lemma takeDirty_ok d : (forall r k st, r ∈ g_sdbRegs d -> r_persist r = true -> insts r !! k = Some st -> healthy st) ->
  exists d1 jobs, takeDirty o d = Some (d1, jobs, g_sdbPendingDeletes d) /\ g_sdbPendingDeletes d1 = [] /\
    Forall2 (fun r r' => exists j, flushed r r' j /\ j ⊆ jobs) (g_sdbRegs d) (g_sdbRegs d1).
Proof.
  intros H. destruct (snapRegs_ok _ H) as (rs' & jobs & E & Fl). unfold takeDirty. rewrite E. by eexists _, _.
Qed.

Lemma flushed_clean d d1 jobs : g_sdbPendingDeletes d1 = [] ->
  Forall2 (fun r r' => exists j, flushed r r' j /\ j ⊆ jobs) (g_sdbRegs d) (g_sdbRegs d1) -> storageDbAnyDirty d1 = false.
Proof.
  intros Ed Fl. unfold storageDbAnyDirty. rewrite Ed. clear Ed. induction Fl as [|r r' rs rs' (j & (Hs & Hp & Hn) & Hj) _ IH]; [done|].
  cbn [existsb]. rewrite IH, orb_false_r. assert (r_persist r' = r_persist r) as Er by (by destruct r, r'; cbn in Hs; injection Hs).
  rewrite Er. destruct (r_persist r); [|done]. cbn [andb]. specialize (Hp eq_refl).
  apply not_true_iff_false. rewrite existsb_exists. intros ([k st'] & Hin & Hd). apply list_elem_of_In, elem_of_map_to_list in Hin.
  specialize (Hp k). rewrite Hin in Hp. destruct (insts r !! k); [|done]. destruct Hp as (job & S & _). cbn in Hd. by rewrite (sn_clean _ _ _ S) in Hd.
Qed.

End Flush.

Section Restart.
Context {C I F : Type} `{TD : Tdefl C} `{TI : Tinfl I} `{CR : Crc} `{FS : FileSys F} {stream : bytes -> bytes -> Prop}
        `{!TdeflLaws TD stream} `{!TinflOneShot TI stream} `{!CrcLaws CR} `{!FsLaws FS}.
Context (stateDir : bytes) (legacy : list sdb_legacy).

(** Two states that lead a key's binds to stores with the same contents answer alike. *)
Lemma same_contents fs fs' o o' d d' i b st st' A : static d' = static d ->
  instStore stateDir legacy fs o d i b = Some st -> implements st A ->
  instStore stateDir legacy fs' o' d' i b = Some st' -> implements st' A ->
  forall key m, sdbRoute d key = Some m -> m_reg m = i -> m_binds m = b ->
    getView stateDir legacy fs' o' d' key = getView stateDir legacy fs o d key.
Proof.
  intros Es Ei (rs & R1 & R2 & R3 & R4) Ei' (rs' & R1' & R2' & R3' & R4') key m R <- <-. unfold getView. rewrite (route_static d' d) by done. rewrite R.
  destruct (m_tail m) as [|rec [|field [|]]]; try done. rewrite (knows_static d' d) by done.
  destruct (knows d m field) as [[|]|]; [|done..]. cbn [mbind option_bind negb]. rewrite Ei, Ei'. cbn [mbind option_bind].
  rewrite (getField_ok st rs), (getField_ok st' rs') by done. by rewrite R4, R4'.
Qed.

End Restart.
