(* ===== verification/SdbRouteDemo.v ===== *)
(** * storage: a message store on a small device

    One registration, the pattern the messages use, on in-memory files and a codec that
    stores. The instances at which the router's theorems are exercised, and what a delete,
    a deep delete, and a load or a snapshot without memory do. *)

From stdpp Require Import gmap.
From S2P Require Import Prelude CLib Targz TargzRoundtrip StorageDb StorageDbBlock StorageDbSchema StorageDbSpec StorageDbStore StorageDbValues StorageDbFile Config ConfigTree ConfigOps ConfigSet SdbRoute SdbRouteProofs SdbRouteStore SdbRouteSet.
Import Stored Schema Gz Block Store Tree Ops Subs Actor Plain Route Access SdbInstances.
Open Scope Z_scope.
Open Scope spangap_scope.

(** The names of the files of [dir]. *)
#[export] Instance MemDir : DirSys (gmap bytes bytes) := {|
  fs_names fs dir := Some (omap (fun pc => if has_prefix (dir ++ [chr "/"]) pc.1 then Some (drop (S (length dir)) pc.1) else None) (map_to_list fs)) |}.

Definition msgs_opts : storage_db_opts :=
  {| op_persist := Some ($ "lxmf/msgs/$1/$2.db.gz"); op_evict := STORAGE_DB_RELOAD; op_cap := 0; op_browserMirror := false |}.

Definition booted : sdb_db :=
  (storageStructuredDB ($ "msgs") ($ "s.lxmf.id.$.msgs.$") demo_schema msgs_opts
     {| g_sdbRegs := []; g_sdbPendingDeletes := []; mkdirs := [] |}).1.

Definition device (d : sdb_db) : cfg_st (option sdb_db) :=
  {| cfgRoot := []; externals := []; rootDirty := false; savePending := false; saveDelay := 0; subs := [];
     pendingSaveSems := []; db := Some d |}.

(** Memory for everything; none for the buffer of a load; none for a snapshot. *)
Definition roomy : oracle := {| o_load _ := load_yes; o_set _ _ := (heap_yes, heap_yes); o_snap _ := true |}.
Definition no_load : oracle :=
  {| o_load _ := {| a_raw := false; a_out := true; a_inf := true; a_rb := true; a_init := heap_yes; a_mig := a_mig load_yes |};
     o_set _ _ := (heap_yes, heap_yes); o_snap _ := true |}.
Definition no_snap : oracle := {| o_load _ := load_yes; o_set _ _ := (heap_yes, heap_yes); o_snap _ := false |}.

Abbreviation ROUTER fs o := (routerOf (I := bytes) ($ "/state") [] (fs : gmap bytes bytes) o).

Definition run (fs : gmap bytes bytes) (o : oracle) (ops : list bytes) (c : cfg_st (option sdb_db)) : option (cfg_st (option sdb_db)) :=
  fst <$> commit (SR := ROUTER fs o) c false ops (Some 1) None.
Definition get (fs : gmap bytes bytes) (c : cfg_st (option sdb_db)) (key : bytes) : bytes :=
  storageGetString (SR := ROUTER fs roomy) c key ($ "-").

(** The worker's part, with nothing failing but the snapshot. *)
Definition flush (o : oracle) (fs : gmap bytes bytes) (c : cfg_st (option sdb_db)) : option (cfg_st (option sdb_db) * gmap bytes bytes) :=
  d ← db c;
  '(d, jobs, deletes) ← takeDirty o d;
  let fs := foldl (fun fs p => delete p fs) fs deletes in
  let fs := foldl (fun fs j => match gzDeflateBin (C := bytes) true true j.2 with Some gz => <[j.1 := gz]> fs | None => fs end) fs jobs in
  Some (with_db c (Some d), fs).

Definition set (key val : string) : bytes := opAppendKV (chr "S") ($ key) ($ val).
Definition K1 : bytes := $ "s.lxmf.id.0.msgs.bob.m1.body".

(** A device with one message from bob, flushed. *)
Definition saved : option (cfg_st (option sdb_db) * gmap bytes bytes) :=
  c ← run ∅ roomy [set "s.lxmf.id.0.msgs.bob.m1.body" "hello"] (device booted); flush roomy ∅ c.
Definition files : gmap bytes bytes := match saved with Some (_, fs) => fs | None => ∅ end.

Example saved_file : map fst (map_to_list files) = [$ "/state/lxmf/msgs/0/bob.db.gz"].
Proof. vm_compute. reflexivity. Qed.

Example saved_reads : get files (device booted) K1 = $ "hello".
Proof. vm_compute. reflexivity. Qed.

(** ** What a delete does before the flush *)

(** A deleted conversation comes back: until the worker has removed the file, a read
    loads it again, and the first message after the delete puts the deleted ones into the
    image that the same flush writes after the removal. *)
Theorem deleted_instance_returns :
  (c1 ← run files roomy [opAppendDelete ($ "s.lxmf.id.0.msgs.bob")] (device booted);
   c2 ← run files roomy [set "s.lxmf.id.0.msgs.bob.m2.body" "new"] c1;
   '(_, fs3) ← flush roomy files c2;
   Some (get files c1 K1, get fs3 (device booted) K1)) = Some ($ "hello", $ "hello").
Proof. vm_compute. reflexivity. Qed.

(** Deleting a key below a field deletes the whole conversation it is in: the branch meant
    for a key without a tail is reached with three segments or more. *)
Theorem deep_delete_drops_instance :
  (c1 ← run files roomy [opAppendDelete (K1 ++ $ ".x")] (device booted);
   '(c2, fs2) ← flush roomy files c1; Some (get fs2 c2 K1)) = Some ($ "-").
Proof. vm_compute. reflexivity. Qed.

(** A load that finds no memory for the file leaves an empty store that counts as loaded:
    the next message overwrites the conversation. *)
Theorem load_without_memory_overwrites :
  (c1 ← run files no_load [set "s.lxmf.id.0.msgs.bob.m2.body" "new"] (device booted);
   '(c2, fs2) ← flush roomy files c1;
   Some (get fs2 (device booted) ($ "s.lxmf.id.0.msgs.bob.m2.body"), get fs2 (device booted) K1)) = Some ($ "new", $ "-").
Proof. vm_compute. reflexivity. Qed.

(** A snapshot that finds no memory is not tried again: the store is marked clean and the
    message is not in the files after the next flush either. *)
Theorem snapshot_without_memory_forgets :
  (c1 ← run ∅ roomy [set "s.lxmf.id.0.msgs.bob.m1.body" "hello"] (device booted);
   '(c2, fs2) ← flush no_snap ∅ c1; '(c3, fs3) ← flush roomy fs2 c2;
   Some (storageDbAnyDirty <$> db c2, get fs3 c3 K1, get fs3 (device booted) K1)) = Some (Some false, $ "hello", $ "-").
Proof. vm_compute. reflexivity. Qed.

(** Deleting what is above the conversations leaves their files and their messages. *)
Theorem delete_above_keeps_instances :
  (c1 ← run files roomy [opAppendDelete ($ "s.lxmf.id.0")] (device booted);
   '(c2, fs2) ← flush roomy files c1; Some (get fs2 c2 K1)) = Some ($ "hello").
Proof. vm_compute. reflexivity. Qed.

(** Enumerating a part of a conversation enumerates all of it. *)
Theorem enumerate_record_gives_instance :
  (c1 ← run files roomy [set "s.lxmf.id.0.msgs.bob.m2.body" "new"] (device booted);
   l ← storageForEach ($ "/state") [] files roomy c1 ($ "s.lxmf.id.0.msgs.bob.m1");
   Some (bool_decide (($ "s.lxmf.id.0.msgs.bob.m2.body", $ "new") ∈ l))) = Some true.
Proof. vm_compute. reflexivity. Qed.

(** ** The theorems at work *)

Lemma booted_declared : Forall declared (g_sdbRegs booted).
Proof. apply Forall_singleton. split; [vm_compute; reflexivity|vm_compute; discriminate]. Qed.

Lemma sdbRoute_exact_witness :
  sdbRoute booted K1 = Some {| m_reg := 0; m_binds := [$ "0"; $ "bob"]; m_tail := [$ "m1"; $ "body"] |}.
Proof.
  apply (proj2 (proj1 (sdbRoute_exact booted K1 booted_declared) _)). eexists [], _, []. split; [reflexivity|]. split; [reflexivity|].
  split; [apply matchPat_fits; vm_compute; reflexivity|]. intros r' b t Hr. by apply elem_of_nil in Hr.
Defined.

Lemma mem_names (fs : gmap bytes bytes) (P : bytes -> Prop) dir names : Forall P (map fst (map_to_list fs)) ->
  (forall p k, P p -> P (drop k p)) -> fs_names fs dir = Some names -> Forall P names.
Proof.
  intros H D [= <-]. apply Forall_forall. intros n Hn. apply list_elem_of_omap in Hn as ([p c] & Hp & Hn). cbn [fst] in Hn.
  destruct (has_prefix _ p); [|done]. injection Hn as <-. apply D. rewrite Forall_forall in H. apply H.
  change p with (p, c).1. by apply list_elem_of_fmap_2.
Qed.

Lemma files_names dir names : fs_names files dir = Some names -> Forall (fun n => SEP ∉ n) names.
Proof.
  apply mem_names.
  - rewrite saved_file. apply Forall_singleton. apply (bool_decide_unpack _). vm_compute. done.
  - intros p k Hp Hc. apply Hp. rewrite <- (take_drop k p). apply elem_of_app. by right.
Qed.

(** A lookup in a conversation that was not resident, then another at another moment. *)
Lemma reads_unobserved_witness :
  match Access.sdbGetLocked (I := bytes) ($ "/state") [] files roomy booted ($ "s.lxmf.id.0.msgs.bob.m1.title") with
  | Some (d', _) => snd <$> Access.sdbGetLocked (I := bytes) ($ "/state") [] files no_snap d' K1 = Some (Some ($ "hello"))
  | None => False
  end.
Proof.
  destruct (Access.sdbGetLocked (I := bytes) ($ "/state") [] files roomy booted ($ "s.lxmf.id.0.msgs.bob.m1.title")) as [[d' v]|] eqn:E.
  - destruct (reads_unobserved (I := bytes) ($ "/state") [] files roomy no_snap booted d' ($ "s.lxmf.id.0.msgs.bob.m1.title") K1
      ltac:(reflexivity) ltac:(reflexivity) files_names) as [H _].
    + apply (bool_decide_unpack _). vm_compute. done.
    + apply (bool_decide_unpack _). vm_compute. done.
    + left. by exists v.
    + rewrite H. vm_compute. reflexivity.
  - apply (f_equal (fun x => bool_decide (is_Some x))) in E. vm_compute in E. discriminate.
Defined.

(** A read that finds no memory for its load is seen by every later one: the store is empty
    and counts as loaded, so that the message is not found although there is memory again. *)
Theorem failed_read_hides_records :
  (d' ← fst <$> Access.sdbGetLocked (I := bytes) ($ "/state") [] files no_load booted K1;
   snd <$> Access.sdbGetLocked (I := bytes) ($ "/state") [] files roomy d' K1) = Some None /\
  snd <$> Access.sdbGetLocked (I := bytes) ($ "/state") [] files roomy booted K1 = Some (Some ($ "hello")).
Proof. vm_compute. split; reflexivity. Qed.

(** A conversation in memory, with something to write. *)
Definition bob : sdb_store := with_flags (store_of demo_schema ($ "/state/lxmf/msgs/0/bob.db.gz") 0 demo_recs) true true.
Definition held : sdb_db := putInst booted 0 [$ "0"; $ "bob"] bob.

Lemma bob_repr : repr bob demo_recs.
Proof.
  apply repr_flags, store_of_repr; [| |vm_compute; discriminate|vm_compute; reflexivity].
  - exact (rp_recs _ _ demo_repr).
  - exact (rp_keys _ _ demo_repr).
Qed.

Lemma bob_implements : implements bob demo_abs.
Proof. exists demo_recs. split_and!; [exact bob_repr|apply demo_fields_ok|done|done]. Qed.

Definition held_reg : sdb_reg :=
  with_insts (declare ($ "msgs") ($ "s.lxmf.id.$.msgs.$") demo_schema msgs_opts) (<[joinBinds [$ "0"; $ "bob"] := bob]> ∅).

Lemma held_at : g_sdbRegs held !! 0%nat = Some held_reg.
Proof. reflexivity. Qed.

Lemma held_inst : insts held_reg !! joinBinds [$ "0"; $ "bob"] = Some bob.
Proof. apply lookup_insert_eq. Qed.

Lemma held_store fs o : instStore (I := bytes) ($ "/state") [] (fs : gmap bytes bytes) o held 0 [$ "0"; $ "bob"] = Some bob.
Proof. unfold instStore. rewrite held_at. cbn [mbind option_bind]. by rewrite held_inst. Qed.

Lemma held_route key : sdbRoute held key = sdbRoute booted key.
Proof. by apply route_static. Qed.

Definition at_bob (rec field : string) : sdb_match := {| m_reg := 0; m_binds := [$ "0"; $ "bob"]; m_tail := [$ rec; $ field] |}.


Lemma held_healthy r k st : r ∈ g_sdbRegs held -> r_persist r = true -> insts r !! k = Some st -> healthy st.
Proof.
  intros Hr _ Hk. assert (r = held_reg) as -> by (change (r ∈ [held_reg]) in Hr; by apply list_elem_of_singleton in Hr).
  assert (st = bob) as ->.
  { unfold held_reg in Hk. cbn [insts with_insts] in Hk. apply lookup_insert_Some in Hk as [[_ <-]|[_ Hk]]; [done|]. by rewrite lookup_empty in Hk. }
  split; [discriminate|]. exists demo_recs. split; [exact bob_repr|apply demo_fields_ok].
Qed.

Lemma stored_deflates raw : is_Some (gzDeflateBin (C := bytes) true true raw).
Proof.
  unfold gzDeflateBin. cbn [negb andb tdefl_compress StoredTdefl tdefl_init]. pose proof (Zlen_nonneg raw).
  assert (0 <= Zlen raw / 8) by (apply Z.div_pos; lia). rewrite (proj2 (Z.leb_le _ _)) by lia.
  rewrite take_ge by (unfold Zlen in *; lia). by rewrite Z.eqb_refl.
Qed.

