(* ===== verification/Mirror.v ===== *)
(** * storage: the browser mirror (src/esp-idf/src/storage.cpp)

    The one client on the configuration port sees the tree as it changes. [Dump] cuts the
    tree into messages that the client merges; [Patch] collects changed keys, reloads
    record stores and sends one merge patch; [Inbound] applies what the client sends;
    [Session] is the connection and one pass of the storage task.

    The record stores are the interface [MirrorDb], which SdbRoute.v implements
    ([SdbMirror]); the packet link to the client is the interface [DcLink]. A node of
    cJSON is always allocated; printing may fail. The order in which the set of changed
    keys is walked is a parameter. *)

From stdpp Require Import gmap.
From S2P Require Import Prelude CLib Targz StorageDb Config SdbRoute.
Import Schema Block Store Tree Ops Subs Actor.
Open Scope Z_scope.
Open Scope spangap_scope.

Definition isSecret (key : bytes) : bool := has_prefix ($ "secrets.") key.
Definition isFw (key : bytes) : bool := streq key ($ "fw") || has_prefix ($ "fw.") key.
Definition isStorageDb (key : bytes) : bool := streq key ($ "storage") || has_prefix ($ "storage.") key.

Definition DC_OPEN_MAX : Z := 8.
Definition DC_DUMP_MAX : Z := 14000.
Definition DC_DUMP_DEPTH : nat := 32.
Definition DC_DIRTY_MAX : Z := 4096.

(** The strings the build configures: CONFIG_SPANGAP_FW_STUB, _NAME and _BANNER. *)
Record identity := { fw_stub : bytes; fw_name : bytes; fw_banner : bytes }.

(** The text of an object with one string, and with one number. *)
Definition quoted (s : bytes) : bytes := [34] ++ s ++ [34].
Definition DUMP_BEGIN : bytes := $ "{" ++ quoted ($ "__dump") ++ $ ":" ++ quoted ($ "b") ++ $ "}".
Definition DUMP_END : bytes := $ "{" ++ quoted ($ "__dump") ++ $ ":" ++ quoted ($ "e") ++ $ "}".
Definition PING : bytes := $ "{" ++ quoted ($ "ping") ++ $ ":1}".
Definition PONG : bytes := $ "{" ++ quoted ($ "pong") ++ $ ":1}".
Definition SAVE : bytes := $ "{" ++ quoted ($ "save") ++ $ ":1}".

(** ** The dump *)

Module Dump.
Section Dump.
Context `{CJ : CJson}.

(** What a dump is built from: the chunks so far, the children of the batch, and the
    estimate of its size. *)
Record chunker := { chunks : list bytes; batch : kids; batchLen : Z }.

Definition dcNodePrintLen (node : json) : Z :=
  match cJSON_PrintUnformatted node with Some s => Zlen s | None => 0 end.

(** The object [dcGetOrCreateObject] finds or adds, changed by [k]. *)
Definition dcGetOrCreateObject (parent : kids) (name : bytes) (k : kids -> kids) : kids :=
  match (i ← cJSON_find parent name; c ← parent !! i; Some (i, c)) with
  | Some (i, (nm, JNode false l)) => <[i := (nm, JNode false (k l))]> parent
  | _ => cJSON_AddItemToObject parent name (JNode false (k []))
  end.

Fixpoint dcBatchAdd (b : kids) (stack : list bytes) (name : bytes) (node : json) : kids :=
  match stack with
  | [] => cJSON_AddItemToObject b name (cJSON_Duplicate (None, node)).2
  | s :: stack' => dcGetOrCreateObject b s (fun l => dcBatchAdd l stack' name node)
  end.

Definition dcDumpEmit (st : chunker) : chunker :=
  match batch st with
  | [] => {| chunks := chunks st; batch := []; batchLen := 0 |}
  | b => {| chunks := chunks st ++ match cJSON_PrintUnformatted (JNode false b) with Some t => [t] | None => [] end;
            batch := []; batchLen := 0 |}
  end.

(** [dcStreamNode] from the point where it does not recurse. *)
Definition dcPlace (st : chunker) (stack : list bytes) (name : bytes) (node : json) (est : Z) : chunker :=
  let st := if negb (batchLen st =? 0) && (DC_DUMP_MAX <? batchLen st + est) then dcDumpEmit st else st in
  let st := {| chunks := chunks st; batch := dcBatchAdd (batch st) stack name node; batchLen := batchLen st + est |} in
  if DC_DUMP_MAX <=? batchLen st then dcDumpEmit st else st.

(** A child of an object always has a name. *)
Fixpoint dcStreamNode (st : chunker) (stack : list bytes) (name : bytes) (node : json) {struct node} : chunker :=
  let est := dcNodePrintLen node + Zlen name + 8 in
  match node with
  | JNode false ((_ :: _) as l) =>
      if (DC_DUMP_MAX <? est) && (length stack <? DC_DUMP_DEPTH)%nat then
        (fix each (l : kids) (st : chunker) {struct l} : chunker :=
          match l with
          | [] => st
          | (nm, c) :: rest => each rest (dcStreamNode st (stack ++ [name]) (default [] nm) c)
          end) l st
      else dcPlace st stack name node est
  | _ => dcPlace st stack name node est
  end.

(** The clone as it is streamed: without the secrets, with the identity. *)
Definition dcClone (id : identity) (root : kids) : kids :=
  let clone := (cJSON_Duplicate (None, JNode false root)).2 in
  let clone := match clone with JNode _ l => l | _ => [] end in
  let clone := match cJSON_find clone ($ "secrets") with
               | Some _ => cJSON_DeleteItemFromObject clone ($ "secrets")
               | None => clone end in
  let fw := cJSON_AddItemToObject [] ($ "stub") (JStr (fw_stub id)) in
  let fw := cJSON_AddItemToObject fw ($ "name") (JStr (fw_name id)) in
  let fw := cJSON_AddItemToObject fw ($ "banner") (JStr (fw_banner id)) in
  cJSON_AddItemToObject clone ($ "fw") (JNode false fw).

Definition dcStreamAll (l : kids) (st : chunker) : chunker :=
  foldl (fun st c => dcStreamNode st [] (default [] c.1) c.2) st l.

(** [dcBuildDumpInto]: what it appends. *)
Definition dcBuildDumpInto (id : identity) (root : kids) : list bytes :=
  let st := dcStreamAll (dcClone id root) {| chunks := []; batch := []; batchLen := 0 |} in
  [DUMP_BEGIN] ++ chunks (dcDumpEmit st) ++ [DUMP_END].

End Dump.
End Dump.
Import Dump.

(** ** The state *)

Module Mirror.

(** [s_dumpStaging], [s_dumpBuilding], [s_dumpDone], [s_dumpGen] and [s_dumpBuildGen]
    without their prefix. *)
Record mirror := {
  dcHandle : Z; dcDirtyKeys : gset bytes; dcMirrorLost : bool; dcOpenPrefixes : list bytes;
  dcDumpQueue : list bytes; dcDumpPos : nat; dcDumpPending : bool;
  dumpStaging : list bytes; dumpBuilding : bool; dumpDone : bool; dumpGen : Z; dumpBuildGen : Z
}.

Definition with_handle (m : mirror) (h g : Z) : mirror :=
  {| dcHandle := h; dcDirtyKeys := dcDirtyKeys m; dcMirrorLost := dcMirrorLost m; dcOpenPrefixes := dcOpenPrefixes m;
     dcDumpQueue := dcDumpQueue m; dcDumpPos := dcDumpPos m; dcDumpPending := dcDumpPending m;
     dumpStaging := dumpStaging m; dumpBuilding := dumpBuilding m; dumpDone := dumpDone m;
     dumpGen := g; dumpBuildGen := dumpBuildGen m |}.
Definition with_dirty (m : mirror) (k : gset bytes) (lost : bool) : mirror :=
  {| dcHandle := dcHandle m; dcDirtyKeys := k; dcMirrorLost := lost; dcOpenPrefixes := dcOpenPrefixes m;
     dcDumpQueue := dcDumpQueue m; dcDumpPos := dcDumpPos m; dcDumpPending := dcDumpPending m;
     dumpStaging := dumpStaging m; dumpBuilding := dumpBuilding m; dumpDone := dumpDone m;
     dumpGen := dumpGen m; dumpBuildGen := dumpBuildGen m |}.
Definition with_open (m : mirror) (l : list bytes) : mirror :=
  {| dcHandle := dcHandle m; dcDirtyKeys := dcDirtyKeys m; dcMirrorLost := dcMirrorLost m; dcOpenPrefixes := l;
     dcDumpQueue := dcDumpQueue m; dcDumpPos := dcDumpPos m; dcDumpPending := dcDumpPending m;
     dumpStaging := dumpStaging m; dumpBuilding := dumpBuilding m; dumpDone := dumpDone m;
     dumpGen := dumpGen m; dumpBuildGen := dumpBuildGen m |}.
Definition with_queue (m : mirror) (q : list bytes) (pos : nat) : mirror :=
  {| dcHandle := dcHandle m; dcDirtyKeys := dcDirtyKeys m; dcMirrorLost := dcMirrorLost m; dcOpenPrefixes := dcOpenPrefixes m;
     dcDumpQueue := q; dcDumpPos := pos; dcDumpPending := dcDumpPending m;
     dumpStaging := dumpStaging m; dumpBuilding := dumpBuilding m; dumpDone := dumpDone m;
     dumpGen := dumpGen m; dumpBuildGen := dumpBuildGen m |}.
Definition with_pending (m : mirror) (b : bool) : mirror :=
  {| dcHandle := dcHandle m; dcDirtyKeys := dcDirtyKeys m; dcMirrorLost := dcMirrorLost m; dcOpenPrefixes := dcOpenPrefixes m;
     dcDumpQueue := dcDumpQueue m; dcDumpPos := dcDumpPos m; dcDumpPending := b;
     dumpStaging := dumpStaging m; dumpBuilding := dumpBuilding m; dumpDone := dumpDone m;
     dumpGen := dumpGen m; dumpBuildGen := dumpBuildGen m |}.
Definition with_build (m : mirror) (st : list bytes) (building done : bool) (g : Z) : mirror :=
  {| dcHandle := dcHandle m; dcDirtyKeys := dcDirtyKeys m; dcMirrorLost := dcMirrorLost m; dcOpenPrefixes := dcOpenPrefixes m;
     dcDumpQueue := dcDumpQueue m; dcDumpPos := dcDumpPos m; dcDumpPending := dcDumpPending m;
     dumpStaging := st; dumpBuilding := building; dumpDone := done;
     dumpGen := dumpGen m; dumpBuildGen := g |}.

End Mirror.
Import Mirror.

(** The record stores: whether a key belongs to one and if so whether the client mirrors
    it; the records under a prefix; the dot-paths of the resident instances mirrored. *)
Class MirrorDb (D : Type) := {
  mirrorRoute : D -> bytes -> option bool;
  forEachUnder : D -> bytes -> option (list (bytes * bytes));
  mirroredInsts : D -> list bytes
}.

(** The link to the client, as its offers it: the bytes a send may have now, the largest
    message, and a send without waiting with the bytes it took. *)
Class DcLink (E : Type) := {
  itsSpacesAvailable : E -> Z -> Z;
  itsSendBufSize : E -> Z -> Z;
  itsSend : E -> Z -> bytes -> Z * E
}.

(** The order in which the [std::unordered_set] of changed keys is walked. *)
Class KeyOrder := { walk : gset bytes -> list bytes }.

(** ** Changed keys, reloads and patches *)

Module Patch.
Section Patch.
Context {D E : Type} `{CJ : CJson} `{SR : SdbRouter D} `{MD : MirrorDb D} `{LK : DcLink E} `{KO : KeyOrder}.

Definition dcAccumulateChange (m : mirror) (key : bytes) : mirror :=
  if dcHandle m <? 0 then m
  else if isSecret key then m
  else if dcMirrorLost m then m
  else if DC_DIRTY_MAX <=? Z.of_nat (size (dcDirtyKeys m)) then with_dirty m ∅ true
  else with_dirty m ({[key]} ∪ dcDirtyKeys m) (dcMirrorLost m).

Definition enqueueText (m : mirror) (t : option bytes) : mirror :=
  match t with Some t => with_queue m (dcDumpQueue m ++ [t]) (dcDumpPos m) | None => m end.

Definition dcQueueClear (m : mirror) (prefix : bytes) : mirror :=
  let '(clear, ok) := navigateOrCreate [] prefix (fun l leaf => cJSON_AddItemToObject l leaf JNull) in
  if ok : bool then enqueueText m (cJSON_PrintUnformatted (JNode false clear)) else m.

(** Equal to the prefix, or under it. *)
Definition isUnder (prefix key : bytes) : bool :=
  has_prefix prefix key && ((Zlen key =? Zlen prefix) || bool_decide (key !! length prefix = Some (chr "."))).

(** The lambda [emit] of [dcQueueReload], and its loop. *)
Definition emitBatch (m : mirror) (b : kids) (est : Z) : mirror * kids * Z :=
  match b with
  | [] => (m, b, est)
  | _ => (enqueueText m (cJSON_PrintUnformatted (JNode false b)), [], 0)
  end.

Fixpoint packLoop (kv : list (bytes * bytes)) (m : mirror) (b : kids) (est : Z) : mirror :=
  match kv with
  | [] => (emitBatch m b est).1.1
  | (k, v) :: kv' =>
      let '(b, ok) := navigateOrCreate b k (put_leaf (JStr (c_str v))) in
      if negb (ok : bool) then packLoop kv' m b est
      else
        let est := est + Zlen k + Zlen v + 8 in
        let '(m, b, est) := if DC_DUMP_MAX <=? est then emitBatch m b est else (m, b, est) in
        packLoop kv' m b est
  end.

Definition dcQueueReload (d : D) (m : mirror) (prefix : bytes) : mirror :=
  match forEachUnder d prefix with
  | None => m
  | Some kv =>
      let m := with_dirty m (filter (fun k => isUnder prefix k = false) (dcDirtyKeys m)) (dcMirrorLost m) in
      packLoop kv (dcQueueClear m prefix) [] 0
  end.

Definition dcReloadMirroredStores (d : D) (m : mirror) : mirror :=
  foldl (dcQueueReload d) m (mirroredInsts d ++ dcOpenPrefixes m).

Fixpoint eraseFirst (p : bytes) (l : list bytes) : list bytes :=
  match l with
  | [] => []
  | x :: l' => if streq x p then l' else x :: eraseFirst p l'
  end.

(** The closing loop of [dcOpenAdd]. *)
Fixpoint closeOldest (fuel : nat) (m : mirror) : mirror :=
  match fuel, last (dcOpenPrefixes m) with
  | S f, Some p =>
      if DC_OPEN_MAX <? Zlen (dcOpenPrefixes m)
      then let m := dcQueueClear m p in
           closeOldest f (with_open m (take (pred (length (dcOpenPrefixes m))) (dcOpenPrefixes m)))
      else m
  | _, _ => m
  end.

Definition dcOpenAdd (m : mirror) (prefix : bytes) : mirror :=
  let l := prefix :: eraseFirst prefix (dcOpenPrefixes m) in
  closeOldest (length l) (with_open m l).

Definition dcKeyIsOpen (m : mirror) (key : bytes) : bool :=
  existsb (fun p => has_prefix p key && bool_decide (key !! length p = Some (chr "."))) (dcOpenPrefixes m).

Definition dcShipStorePrefix (d : D) (m : mirror) (prefix : bytes) : mirror :=
  match mirrorRoute d prefix with
  | None => m
  | Some mirrored => dcQueueReload d (if mirrored : bool then m else dcOpenAdd m prefix) prefix
  end.

(** [None] for a key the client must not see. *)
Definition dcResolveKey (c : cfg_st D) (m : mirror) (key : bytes) : option json :=
  match mirrorRoute (db c) key with
  | Some mirrored =>
      if negb (dcKeyIsOpen m key) && negb mirrored then None
      else Some (match sdbGetLocked (db c) key with Some sv => JStr (c_str sv) | None => JNull end)
  | None =>
      match navigatePath (root c) key with
      | None => Some JNull
      | Some node => Some (cJSON_Duplicate (None, node)).2
      end
  end.

Definition patchOne (c : cfg_st D) (m : mirror) (patch : kids) (k : bytes) : kids :=
  match dcResolveKey c m k with
  | None => patch
  | Some v => (navigateOrCreate patch k (put_leaf v)).1
  end.

Definition buildPatch (c : cfg_st D) (m : mirror) : kids := foldl (patchOne c m) [] (walk (dcDirtyKeys m)).

Definition dcFlushPatch (c : cfg_st D) (m : mirror) (e : E) : mirror * E :=
  if dcHandle m <? 0 then (m, e)
  else if bool_decide (dcDirtyKeys m = ∅) && negb (dcMirrorLost m) then (m, e)
  else if itsSpacesAvailable e (dcHandle m) =? 0 then (m, e)
  else if dcMirrorLost m then
    (dcReloadMirroredStores (db c) (with_pending (with_dirty m ∅ false) true), e)
  else
    match buildPatch c m with
    | [] => (with_dirty m ∅ false, e)
    | patch =>
        match cJSON_PrintUnformatted (JNode false patch) with
        | None => (m, e)
        | Some text =>
            if itsSendBufSize e (dcHandle m) <? Zlen text then
              (dcReloadMirroredStores (db c) (with_pending (with_dirty m ∅ false) true), e)
            else if itsSpacesAvailable e (dcHandle m) <? Zlen text then (m, e)
            else
              let '(sent, e) := itsSend e (dcHandle m) text in
              (if sent =? Zlen text then with_dirty m ∅ false else m, e)
        end
    end.

Definition dcDumpInProgress (m : mirror) : bool :=
  dcDumpPending m || (dcDumpPos m <? length (dcDumpQueue m))%nat.

(** The two ends of the off-actor build in [dcPumpDump]; [spawned] is the answer of
    [spawnTask]. *)
Definition kickBuild (m : mirror) (spawned : bool) : mirror :=
  if dcDumpPending m && negb (dumpBuilding m) then with_build m [] spawned false (dumpGen m) else m.

Definition adoptBuild (m : mirror) : mirror :=
  if dumpBuilding m && dumpDone m then
    let m :=
      if (dumpBuildGen m =? dumpGen m) && (0 <=? dcHandle m) then
        let m := match dcDumpQueue m with
                 | [] => with_queue m (dumpStaging m) 0
                 | q => with_queue m (q ++ dumpStaging m) (dcDumpPos m)
                 end in
        with_pending m false
      else m in
    with_build m [] false (dumpDone m) (dumpBuildGen m)
  else m.

(** The sending loop. *)
Fixpoint pumpLoop (fuel : nat) (m : mirror) (e : E) : mirror * E :=
  match fuel, dcDumpQueue m !! dcDumpPos m with
  | S f, Some chunk =>
      let cap := itsSendBufSize e (dcHandle m) in
      if negb (cap =? 0) && (cap <? Zlen chunk + 4) then pumpLoop f (with_queue m (dcDumpQueue m) (S (dcDumpPos m))) e
      else if itsSpacesAvailable e (dcHandle m) <? Zlen chunk then (m, e)
      else
        let '(sent, e) := itsSend e (dcHandle m) chunk in
        if negb (sent =? Zlen chunk) then (m, e)
        else pumpLoop f (with_queue m (dcDumpQueue m) (S (dcDumpPos m))) e
  | _, _ => (m, e)
  end.

Definition dcPumpDump (m : mirror) (e : E) (spawned : bool) : mirror * E :=
  if dcHandle m <? 0 then (m, e)
  else
    let m := adoptBuild (kickBuild m spawned) in
    let '(m, e) := pumpLoop (S (length (dcDumpQueue m))) m e in
    (match dcDumpQueue m with
     | [] => m
     | q => if (length q <=? dcDumpPos m)%nat then with_queue m [] 0 else m
     end, e).

(** [dumpBuilderFn], the builder's task, when it gets to run. *)
Definition dumpBuilderFn (id : identity) (c : cfg_st D) (m : mirror) : mirror :=
  if dumpBuilding m && negb (dumpDone m)
  then with_build m (dumpStaging m ++ dcBuildDumpInto id (cfgRoot c)) true true (dumpBuildGen m) else m.

End Patch.
End Patch.
Import Patch.

(** ** What the client sends *)

Module Inbound.

(** The configuration tree with the mirror and the link, the saves asked of the persist
    worker, and the notifications to others in order. *)
Record host (D E : Type) := {
  cfg : cfg_st D; mir : mirror; link : E; saveRequests : nat; sentNotes : list notify
}.
Arguments cfg {D E}. Arguments mir {D E}. Arguments link {D E}.
Arguments saveRequests {D E}. Arguments sentNotes {D E}.

Section Inbound.
Context {D E : Type} `{CJ : CJson} `{SR : SdbRouter D} `{MD : MirrorDb D} `{LK : DcLink E} `{KO : KeyOrder}.
(** The storage task's handle, and the callback its subscription to every change holds. *)
Context (storageHandle : Z) (mirrorCb : Z).
Notation hst := (host D E).

Definition with_mir (h : hst) (m : mirror) : hst :=
  {| cfg := cfg h; mir := m; link := link h; saveRequests := saveRequests h; sentNotes := sentNotes h |}.

(** A notification of the storage task to itself is the mirror's; [signalFlagIfWaited]
    wakes other tasks and is left out. *)
Definition deliverNote (h : hst) (n : notify) : hst :=
  match n with
  | Call cb key _ => if cb =? mirrorCb then with_mir h (dcAccumulateChange (mir h) key)
                     else {| cfg := cfg h; mir := mir h; link := link h; saveRequests := saveRequests h; sentNotes := sentNotes h ++ [n] |}
  | Send _ _ => {| cfg := cfg h; mir := mir h; link := link h; saveRequests := saveRequests h; sentNotes := sentNotes h ++ [n] |}
  end.

(** A committed op list of any task; [None] as for [storageApplyOps]. *)
Definition applyWrite (sender : option Z) (h : hst) (w : bool * list bytes) : option hst :=
  '(c, notes) ← commit (cfg h) w.1 w.2 sender (Some storageHandle);
  Some (foldl deliverNote {| cfg := c; mir := mir h; link := link h; saveRequests := saveRequests h; sentNotes := sentNotes h |} notes).

Fixpoint applyWrites (sender : option Z) (h : hst) (ws : list (bool * list bytes)) : option hst :=
  match ws with
  | [] => Some h
  | w :: ws' => h ← applyWrite sender h w; applyWrites sender h ws'
  end.

(** A key of a patch that is not to be written. *)
Definition readOnly (key : bytes) : bool := isSecret key || isFw key || isStorageDb key.

(** The writes of [mergeIncomingPatch], each submitted alone: whether it is silent, and its
    op; [None] for a child without a name, whose null [string] is dereferenced. *)
Fixpoint mergeIncomingPatch (obj : json) (prefix : bytes) {struct obj} : option (list (bool * list bytes)) :=
  match obj with
  | JNode _ l =>
      (fix each (l : kids) {struct l} : option (list (bool * list bytes)) :=
        match l with
        | [] => Some []
        | (None, _) :: _ => None
        | (Some nm, item) :: rest =>
            let key := if Zlen prefix =? 0 then nm else prefix ++ $ "." ++ nm in
            ws ← (if readOnly key then Some []
                  else match item with
                       | JNull => Some [(true, [opAppendDelete key])]
                       | JNode false _ => mergeIncomingPatch item key
                       | JNode true _ => Some [(false, storageSetTree key (cJSON_Duplicate (None, item)).2)]
                       | JNum v => Some [(false, [opAppendKVInt (chr "S") key v])]
                       | JStr s => Some [(false, [opAppendKV (chr "S") key s])]
                       | JBool _ => Some []
                       end);
            ws' ← each rest;
            Some (ws ++ ws')
        end) l
  | _ => Some []
  end.

Definition with_link (h : hst) (e : E) : hst :=
  {| cfg := cfg h; mir := mir h; link := e; saveRequests := saveRequests h; sentNotes := sentNotes h |}.

Definition dcHandleMessage (h : hst) (text : bytes) : option hst :=
  if streq text PING then Some (with_link h (itsSend (link h) (dcHandle (mir h)) PONG).2)
  else if streq text SAVE then
    Some {| cfg := cfg h; mir := mir h; link := link h; saveRequests := S (saveRequests h); sentNotes := sentNotes h |}
  else
    match cJSON_ParseWithLength text with
    | None => Some h
    | Some r =>
        match cJSON_GetObjectItem r ($ "fetch") with
        | Some (JStr p) =>
            Some (with_mir h (if Zlen p =? 0 then with_open (mir h) [] else dcShipStorePrefix (db (cfg h)) (mir h) p))
        | _ => ws ← mergeIncomingPatch r []; applyWrites (Some storageHandle) h ws
        end
    end.

(** [dcPollConfig], with the messages the link holds. *)
Fixpoint recvLoop (h : hst) (msgs : list bytes) : option hst :=
  match msgs with
  | [] => Some h
  | t :: msgs' => h ← dcHandleMessage h t; recvLoop h msgs'
  end.

Definition dcPollConfig (h : hst) (msgs : list bytes) : option hst :=
  if dcHandle (mir h) <? 0 then Some h else recvLoop h msgs.

(** ** The session *)

Definition storageItsConnect (m : mirror) (handle : Z) : mirror * Z :=
  if 0 <=? dcHandle m then (m, -1)
  else (with_pending (with_handle m handle (wrap32 (dumpGen m + 1))) true, 0).

Definition storageItsDisconnect (m : mirror) : mirror :=
  let m := with_open (with_handle m (-1) (wrap32 (dumpGen m + 1))) [] in
  with_dirty (with_queue (with_pending m false) [] 0) ∅ false.

(** A pass of the storage task after its poll. *)
Definition mirrorPass (h : hst) (msgs : list bytes) (spawned : bool) : option hst :=
  h ← dcPollConfig h msgs;
  let '(m, e) := dcPumpDump (mir h) (link h) spawned in
  let '(m, e) := if dcDumpInProgress m then (m, e) else dcFlushPatch (cfg h) m e in
  Some (with_link (with_mir h m) e).

End Inbound.
End Inbound.
Import Inbound.

(** ** The record stores as the mirror sees them *)

Module SdbMirror.
Section SdbMirror.
Context {C I F : Type} `{TD : Tdefl C} `{TI : Tinfl I} `{CR : Crc} `{FS : FileSys F} `{DS : DirSys F}.
Context (stateDir : bytes) (legacy : list sdb_legacy) (fs : F) (o : oracle).
Import Route Access.

(** An instance's dot-path: the pattern, each wildcard filled from the joined binds. *)
Fixpoint fillPat (pat : list bytes) (ik : bytes) : list bytes :=
  match pat with
  | [] => []
  | p :: pat' =>
      if negb (streq p WILD) then p :: fillPat pat' ik
      else match strchr ik SEP with
           | Some (s, rest) => s :: fillPat pat' rest
           | None => ik :: fillPat pat' []
           end
  end.

Definition instPrefix (r : sdb_reg) (ik : bytes) : bytes := joinDots (fillPat (r_pat r) ik).

(** As [routerOf], this leaves out the stores a read loads. *)
Definition mirrorOf : MirrorDb (option sdb_db) := {|
  mirrorRoute od key :=
    d ← od; m ← sdbRoute d key; r ← g_sdbRegs d !! m_reg m; Some (browserMirror r);
  forEachUnder od prefix := d ← od; '(_, kv) ← sdbForEachUnderLocked stateDir legacy fs o d prefix; kv;
  mirroredInsts od :=
    match od with
    | None => []
    | Some d => concat (map (fun r => if browserMirror r then map (instPrefix r) (map fst (map_to_list (insts r))) else [])
                            (g_sdbRegs d))
    end
|}.

End SdbMirror.
End SdbMirror.
