(* ===== verification/MirrorDump.v ===== *)
(** * storage: what the dump carries

    A tree that holds part of another ([copies]), and that merging such parts adds up; the
    packing of a tree into messages, whatever the sizes: the client that merges them, in
    order, has every value of the tree. *)

From stdpp Require Import gmap.
From S2P Require Import Prelude CLib Config ConfigTree ConfigOps ConfigSet Persist PersistTree PersistSet Mirror.
Import Tree Ops Subs Actor Dump Mirror.
Open Scope Z_scope.
Open Scope spangap_scope.

Section Copies.
Context `{CJ : CJson} `{L : !CJsonLaws CJ}.
Notation oget := (kget cj_same).
Notation same := cj_same.
Abbreviation obj l := (Some (JNode false l)).

(** ** Part of a tree *)

Definition copied (T : option json) (ss : list bytes) (v : json) : Prop :=
  match v with
  | JNode false l => (exists l', navS T ss = obj l') /\ uniq l
  | _ => navS T ss = Some v
  end.

(** Every node of [c] is that of [T], an object a part of it. *)
Definition copies (T c : option json) : Prop := forall ss v, navS c ss = Some v -> copied T ss v.

Lemma nav_obj l s r : navS (obj l) (s :: r) = navS (oget l s) r.
Proof. cbn [navS mbind option_bind]. by rewrite step_object. Qed.

Lemma copies_none T : copies T None.
Proof. intros ss v. by rewrite navS_None. Qed.

Lemma copies_down lt lc s : copies (obj lt) (obj lc) -> copies (oget lt s) (oget lc s).
Proof.
  intros K ss v Hv. specialize (K (s :: ss) v). rewrite nav_obj in K. specialize (K Hv).
  destruct v as [| | | |[|] l]; cbn [copied] in *; by rewrite nav_obj in K.
Qed.

Lemma copies_obj T l : copies T (obj l) -> (exists l', T = obj l') /\ uniq l.
Proof. intros K. exact (K [] _ eq_refl). Qed.

Lemma copies_other T v : (forall l, v <> JNode false l) -> copies T (Some v) -> T = Some v.
Proof. intros N K. specialize (K [] v eq_refl). destruct v as [| | | |[|] l]; try exact K. by destruct (N l). Qed.

Lemma copies_self T : match T with Some j => jgood j | None => True end -> copies T T.
Proof.
  intros G ss v Hv. destruct v as [| | | |[|] l]; try exact Hv. split; [by exists l|].
  destruct T as [j|]; [|by rewrite navS_None in Hv]. pose proof (jgood_nav _ _ _ G Hv) as Gv.
  apply jgood_node in Gv as (_ & U & _). by apply U.
Qed.

Lemma copied_lval T ss v : copied T ss v -> forall x, lval (Some v) = Some x -> lval (navS T ss) = Some x.
Proof. destruct v as [| | | |[|] l]; try done; cbn [copied]; by intros ->. Qed.

(** A copy has no value the tree lacks. *)
Lemma copies_lval T c ss x : copies T c -> lval (navS c ss) = Some x -> lval (navS T ss) = Some x.
Proof. intros K. destruct (navS c ss) as [v|] eqn:E; [|done]. apply copied_lval, K, E. Qed.

Lemma copies_nonobj T B c : (forall l, B <> JNode false l) -> copies T (Some B) -> copies T c -> c = None \/ c = Some B.
Proof.
  intros N KB Kc. pose proof (copies_other _ _ N KB) as ->. destruct c as [v|]; [|by left]. right.
  destruct v as [| | | |[|] l]; try (by apply copies_other in Kc).
  destruct (copies_obj _ _ Kc) as [[l' E] _]. injection E as E. by destruct (N l').
Qed.

Lemma merge_leaf B c : (forall l, B <> JNode false l) -> merge1 deepMerge B c = if is_null B then None else Some B.
Proof. intros N. destruct B as [| | | |[|] l]; try done. by destruct (N l). Qed.

Lemma obj_or (B : json) : (exists l, B = JNode false l) \/ (forall l, B <> JNode false l).
Proof. destruct B as [| | | |[|] l]; [right; discriminate..|left; by eexists]. Qed.

(** Merging parts of one tree adds up. *)
Lemma merge_copies ss : forall T B c, copies T (Some B) -> copies T c ->
  (forall v, navS (merge1 deepMerge B c) ss = Some v -> copied T ss v) /\
  lval (navS (merge1 deepMerge B c) ss) = match lval (navS (Some B) ss) with Some x => Some x | None => lval (navS c ss) end.
Proof.
  assert (forall ss T B c, (forall l, B <> JNode false l) -> copies T (Some B) -> copies T c ->
    (forall v, navS (merge1 deepMerge B c) ss = Some v -> copied T ss v) /\
    lval (navS (merge1 deepMerge B c) ss) = match lval (navS (Some B) ss) with Some x => Some x | None => lval (navS c ss) end) as Leaf.
  { clear ss. intros ss T B c N KB Kc. rewrite merge_leaf by done. pose proof (copies_nonobj _ _ _ N KB Kc) as Hc. split.
    - destruct (is_null B); [intros v; by rewrite navS_None|intros v Hv; by apply KB].
    - assert (lval (navS (if is_null B then None else Some B) ss) = lval (navS (Some B) ss)) as ->.
      { destruct B as [| | | |b l]; try done. cbn [is_null]. rewrite navS_None. destruct ss as [|s r]; [done|]. by rewrite lval_nav_leaf. }
      destruct Hc as [->| ->]; rewrite ?navS_None; by destruct (lval _). }
  induction ss as [|s r IH]; intros T B c KB Kc; (destruct (obj_or B) as [[sub ->]|N]; [|by apply Leaf]);
    destruct (copies_obj _ _ KB) as [[lt ->] Ub].
  - destruct c as [[| | | |[|] cl]|]; cbn [merge1]; try (by apply copies_other in Kc).
    + destruct (copies_obj _ _ Kc) as [_ Uc]. split; [|done]. cbn [navS]. intros v [= <-]. split; [by eexists|].
      by apply (merge_spec false).
    + split; [|done]. cbn [navS]. intros v [= <-]. split; [by eexists|done].
  - destruct c as [[| | | |[|] cl]|]; cbn [merge1]; try (by apply copies_other in Kc).
    2: { split; [apply KB|]. rewrite (navS_None (s :: r)). by destruct (lval _). }
    destruct (copies_obj _ _ Kc) as [_ Uc]. destruct (merge_spec false sub cl Ub Uc) as [E _]. rewrite !nav_obj, E.
    pose proof (copies_down _ _ s KB) as KB'. pose proof (copies_down _ _ s Kc) as Kc'.
    assert (forall v, copied (oget lt s) r v -> copied (obj lt) (s :: r) v) as Up.
    { intros v. destruct v as [| | | |[|] l]; cbn [copied]; by rewrite nav_obj. }
    destruct (oget sub s) as [item|].
    + destruct (IH _ _ _ KB' Kc') as [H1 H2]. split; [|exact H2]. intros v Hv. by apply Up, H1.
    + split; [intros v Hv; by apply Up, Kc'|]. by rewrite navS_None.
Qed.

Lemma merge_obj lt b cl : copies (obj lt) (obj b) -> copies (obj lt) (obj cl) ->
  copies (obj lt) (obj (deepMerge (JNode false b) cl)) /\
  forall ss, lval (navS (obj (deepMerge (JNode false b) cl)) ss) =
    match lval (navS (obj b) ss) with Some x => Some x | None => lval (navS (obj cl) ss) end.
Proof.
  intros KB Kc. split; [intros ss v Hv|intros ss]; destruct (merge_copies ss _ _ _ KB Kc) as [H1 H2]; [by apply H1|exact H2].
Qed.

(** ** Paths up to case *)

(** What is left of a path after another. *)
Fixpoint strip (p ss : list bytes) : option (list bytes) :=
  match p, ss with
  | [], _ => Some ss
  | a :: p', s :: ss' => if same a s then strip p' ss' else None
  | _ :: _, [] => None
  end.

Lemma streamStep_same n a b : same a b = true -> step n a = step n b.
Proof.
  intros S. destruct n as [| | | |[|] l]; try done; [|by rewrite !step_object; apply oget_same].
  rewrite !step_array. destruct (isAllDigits a) eqn:D.
  - by rewrite (cj_digits _ _ D S), D.
  - destruct (isAllDigits b) eqn:D'; [|by apply oget_same].
    rewrite cj_sym in S. rewrite (cj_digits _ _ D' S) in D. congruence.
Qed.

Lemma nav_strip p : forall n ss rest, strip p ss = Some rest -> navS n ss = navS (navS n p) rest.
Proof.
  induction p as [|a p IH]; intros n ss rest; cbn [strip]; [by intros [= ->]|]. destruct ss as [|s ss]; [done|].
  destruct (same a s) eqn:S; [|done]. intros H. cbn [navS]. rewrite <- (IH _ _ _ H). f_equal.
  destruct n as [n|]; [|done]. cbn [mbind option_bind]. by rewrite (streamStep_same _ _ _ S).
Qed.

Lemma strip_self p r : strip p (p ++ r) = Some r.
Proof. induction p as [|a p IH]; [done|]. cbn [app strip]. by rewrite cj_refl. Qed.

Lemma strip_snoc p a ss : strip (p ++ [a]) ss =
  match strip p ss with Some (s :: r) => if same a s then Some r else None | _ => None end.
Proof.
  revert ss. induction p as [|x p IH]; intros ss; [by destruct ss as [|s ss]|]. cbn [app strip].
  destruct ss as [|s ss]; [done|]. by destruct (same x s).
Qed.

Lemma strip_siblings p a b : same a b = false -> strip (p ++ [a]) (p ++ [b]) = None.
Proof. intros S. rewrite strip_snoc, strip_self. by rewrite S. Qed.

(** A path at or above [p ++ [a]] is at or above [p], or below it. *)
Lemma strip_above q p a : strip q p = None -> strip p q = None -> strip q (p ++ [a]) = None.
Proof.
  revert q. induction p as [|x p IH]; intros [|y q]; cbn [strip app]; try done.
  intros H1 H2. rewrite cj_sym in H1. destruct (same x y) eqn:S; rewrite cj_sym, S; [|done]. by apply IH.
Qed.

Lemma nav_app n p q : navS n (p ++ q) = navS (navS n p) q.
Proof. revert n. induction p as [|s p IH]; intros n; [done|]. cbn [app navS]. by rewrite IH. Qed.

Lemma nav_under n p q : navS n p = None -> navS n (p ++ q) = None.
Proof. intros E. by rewrite nav_app, E, navS_None. Qed.

(** ** One unit placed in the batch *)

(** Every step of a path of the tree is an object. *)
Definition objs (T : option json) (p : list bytes) : Prop := forall q r, p = q ++ r -> exists l, navS T q = obj l.

Lemma objs_down T s p lt : T = obj lt -> objs T (s :: p) -> objs (oget lt s) p.
Proof.
  intros -> O q r E. destruct (O (s :: q) r) as [l H]; [by rewrite E|]. exists l. by rewrite nav_obj in H.
Qed.

Lemma objs_snoc T p a l : objs T p -> navS T (p ++ [a]) = obj l -> objs T (p ++ [a]).
Proof.
  intros O H q r E. destruct r as [|x r' _] using rev_ind.
  - rewrite app_nil_r in E. subst q. by exists l.
  - rewrite app_assoc in E. apply app_inj_tail in E as [E _]. by apply (O q r').
Qed.

(** [b'] is [b] with [node] at path [p], objects on the way. *)
Record put_at (p : list bytes) (node : json) (b b' : kids) : Prop := {
  pa_good : jgood (JNode false b');
  pa_at ss rest : strip p ss = Some rest -> navS (obj b') ss = navS (Some node) rest;
  pa_above ss : strip p ss = None -> strip ss p <> None -> exists l, navS (obj b') ss = obj l;
  pa_off ss : strip p ss = None -> strip ss p = None -> navS (obj b') ss = navS (obj b) ss
}.

(** The object under a name, found or to be added. *)
Definition found (b : kids) (s0 : bytes) (l : kids) : Prop := oget b s0 = obj l \/ (oget b s0 = None /\ l = []).

Lemma get_or_create b s0 f l : found b s0 l -> jgood (JNode false b) -> str_ok s0 ->
  (forall k, oget (dcGetOrCreateObject b s0 f) k = if same s0 k then obj (f l) else oget b k) /\
  (jgood (JNode false (f l)) -> jgood (JNode false (dcGetOrCreateObject b s0 f))).
Proof.
  intros Hl G W. unfold dcGetOrCreateObject. rewrite cj_find. destruct (kpos same b s0) as [i|] eqn:Ep; cbn [mbind option_bind].
  - destruct (kpos_Some _ _ _ Ep) as (n & v & Hi & _ & Ho). destruct Hl as [Hl|[Hl _]]; rewrite Ho in Hl; [|done].
    injection Hl as ->. rewrite Hi. cbn [mbind option_bind]. split; [intros k; by apply (oget_set _ _ _ _ _ _ _ Ep Hi)|].
    intros G'. by apply (jgood_insert _ _ _ _ (JNode false l)).
  - pose proof (kpos_None _ _ Ep) as Ho. destruct Hl as [Hl|[_ ->]]; [by rewrite Ho in Hl|]. rewrite cj_add. split.
    + intros k. rewrite oget_app. cbn [kget]. destruct (same s0 k) eqn:S; [|by destruct (oget b k)].
      by rewrite <- (oget_same _ _ _ S), Ho.
    + intros G'. by apply jgood_snoc.
Qed.

(** The steps of a path in [b] are objects, as far as they are there. *)
Definition open_path (b : option json) (p : list bytes) : Prop := forall q r, p = q ++ r -> navS b q = None \/ exists l, navS b q = obj l.

Lemma open_down b s p : open_path (obj b) (s :: p) -> open_path (oget b s) p.
Proof. intros O q r E. specialize (O (s :: q) r). rewrite nav_obj in O. apply O. by rewrite E. Qed.

Lemma put_here b b' s0 p node v : (forall k, oget b' k = if same s0 k then v else oget b k) -> jgood (JNode false b') ->
  (forall ss rest, strip p ss = Some rest -> navS v ss = navS (Some node) rest) ->
  (forall ss, strip p ss = None -> strip ss p <> None -> exists l, navS v ss = obj l) ->
  (forall ss, strip p ss = None -> strip ss p = None -> navS v ss = navS (oget b s0) ss) ->
  put_at (s0 :: p) node b b'.
Proof.
  intros Hget G At Ab Off. constructor; [done|..].
  - intros [|s r] rest; cbn [strip]; [done|]. destruct (same s0 s) eqn:S; [|done]. rewrite nav_obj, Hget, S. apply At.
  - intros [|s r]; cbn [strip]; [by eexists|]. rewrite nav_obj, Hget, (cj_sym s s0). destruct (same s0 s); [apply Ab|done].
  - intros [|s r]; cbn [strip]; [done|]. rewrite !nav_obj, Hget, (cj_sym s s0). destruct (same s0 s) eqn:S; [|done].
    rewrite <- (oget_same _ _ _ S). apply Off.
Qed.

Lemma batchAdd_puts stack name node : forall b, jgood (JNode false b) -> open_path (obj b) stack -> jgood node ->
  navS (obj b) (stack ++ [name]) = None -> Forall str_ok (stack ++ [name]) ->
  put_at (stack ++ [name]) node b (dcBatchAdd b stack name node).
Proof.
  induction stack as [|s0 stack IH]; intros b G O J F W; cbn [app dcBatchAdd] in *; rewrite nav_obj in F.
  - rewrite cj_dup. cbn [snd]. rewrite cj_add. cbn [navS] in F. rewrite Forall_singleton in W. eapply (put_here _ _ _ _ _ (Some node)).
    + intros k. rewrite oget_app. cbn [kget]. destruct (same name k) eqn:S; [|by destruct (oget b k)]. by rewrite <- (oget_same _ _ _ S), F.
    + by apply jgood_snoc.
    + intros ss rest [= ->]. done.
    + intros ss H. by destruct ss.
    + intros ss H. by destruct ss.
  - apply Forall_cons in W as [W0 W]. pose proof (open_down _ _ _ O) as O'.
    assert (exists l, found b s0 l) as [l Hl].
    { unfold found. destruct (O' [] stack eq_refl) as [H|[l H]]; cbn [navS] in H; [exists []; by right|exists l; by left]. }
    assert (forall q, q <> [] -> navS (obj l) q = navS (oget b s0) q) as Hq.
    { intros [|s r] N; [done|]. destruct Hl as [Hl|[Hl ->]]; rewrite Hl; [done|]. by rewrite nav_obj, !navS_None. }
    assert (jgood (JNode false l)) as Gl.
    { destruct Hl as [Hl|[_ ->]]; [by apply (jgood_oget _ _ _ _ G Hl)|by apply jgood_node]. }
    assert (open_path (obj l) stack) as Ol.
    { intros [|s q] r E; [right; by eexists|]. rewrite Hq by done. by apply (O' _ r). }
    destruct (IH l Gl Ol J) as [P1 P2 P3 P4]; [rewrite Hq; [done|by destruct stack]|done|].
    destruct (get_or_create b s0 (fun l => dcBatchAdd l stack name node) l Hl G W0) as [Hget Hg].
    eapply put_here; [exact Hget|by apply Hg|exact P2|exact P3|]. intros ss H1 H2. rewrite P4 by done. apply Hq. by destruct ss.
Qed.

(** What placing a unit [node] of [T] at path [p] makes of the batch [b]. *)
Record placed (T : option json) (p : list bytes) (node : json) (b b' : kids) : Prop := {
  pl_good : jgood (JNode false b');
  pl_copies : copies T (obj b');
  pl_keeps ss x : lval (navS (obj b) ss) = Some x -> lval (navS (obj b') ss) = Some x;
  pl_covers ss rest x : strip p ss = Some rest -> lval (navS (Some node) rest) = Some x -> lval (navS (obj b') ss) = Some x;
  pl_fresh q : navS (obj b) q = None -> strip p q = None -> strip q p = None -> navS (obj b') q = None
}.

Lemma strip_prefix ss p : strip p ss = None -> strip ss p <> None -> exists q a r, p = q ++ a :: r /\ strip q ss = Some [].
Proof.
  revert p. induction ss as [|s ss IH]; intros [|a p]; cbn [strip]; try done; [intros _ _; by exists [], a, p|].
  rewrite (cj_sym s a). destruct (same a s) eqn:S; [|done]. intros H1 H2. destruct (IH _ H1 H2) as (q & a' & r & -> & Q).
  exists (a :: q), a', r. split; [done|]. cbn [strip]. by rewrite S.
Qed.

Lemma place_ok stack name node T b : jgood (JNode false b) -> copies T (obj b) -> objs T stack ->
  navS T (stack ++ [name]) = Some node -> jgood node -> navS (obj b) (stack ++ [name]) = None ->
  Forall str_ok (stack ++ [name]) -> placed T (stack ++ [name]) node b (dcBatchAdd b stack name node).
Proof.
  intros G K O N J F W. set (p := stack ++ [name]) in *.
  assert (open_path (obj b) stack) as Op.
  { intros q r E. destruct (navS (obj b) q) as [v|] eqn:Ev; [right|by left]. pose proof (K _ _ Ev) as C.
    destruct (O q r E) as [l' El]. destruct v as [| | | |[|] l]; cbn [copied] in C; try congruence. by eexists. }
  destruct (batchAdd_puts stack name node b G Op J F W) as [P1 P2 P3 P4]. fold p in P2, P3, P4.
  assert (forall ss, strip p ss = None -> strip ss p <> None -> exists l l', navS T ss = obj l' /\ (navS (obj b) ss = None \/ navS (obj b) ss = obj l)) as Ab.
  { intros ss H1 H2. destruct (strip_prefix _ _ H1 H2) as (q & a & r & E & Q). destruct r as [|x r _] using rev_ind.
    - apply app_inj_tail in E as [<- _]. rewrite !(nav_strip _ _ _ _ Q). destruct (O stack []) as [l' El]; [by rewrite app_nil_r|]. cbn [navS].
      destruct (Op stack []) as [H|[l H]]; [by rewrite app_nil_r|exists [], l'; by split; [|left]|exists l, l'; by split; [|right]].
    - rewrite app_comm_cons, app_assoc in E. apply app_inj_tail in E as [E _]. rewrite !(nav_strip _ _ _ _ Q). destruct (O q (a :: r) E) as [l' El]. cbn [navS].
      destruct (Op q (a :: r) E) as [H|[l H]]; [exists [], l'; by split; [|left]|exists l, l'; by split; [|right]]. }
  constructor; [done|..].
  - intros ss v Hv. destruct (strip p ss) as [rest|] eqn:E1; [|destruct (strip ss p) as [l0|] eqn:E2].
    + rewrite (P2 _ _ E1) in Hv. pose proof (copies_self (Some node) J rest v Hv) as C.
      destruct v as [| | | |[|] l]; cbn [copied] in *; by rewrite (nav_strip _ _ _ _ E1), N.
    + destruct (P3 ss E1) as [l Hl]; [by rewrite E2|]. destruct (Ab ss E1) as (_ & l' & Ht & _); [by rewrite E2|].
      rewrite Hl in Hv. injection Hv as <-. split; [by eexists|].
      pose proof (jgood_nav _ _ _ P1 Hl) as (_ & U & _)%jgood_node. by apply U.
    + rewrite P4 in Hv by done. by apply K.
  - intros ss x H. destruct (strip p ss) as [rest|] eqn:E1; [|destruct (strip ss p) as [l0|] eqn:E2].
    + by rewrite (nav_strip _ _ _ _ E1), F, navS_None in H.
    + destruct (Ab ss E1) as (l & _ & _ & [Hb|Hb]); [by rewrite E2|..]; by rewrite Hb in H.
    + by rewrite P4.
  - intros ss rest x H1 H2. by rewrite (P2 _ _ H1).
  - intros q H1 H2 H3. by rewrite P4.
Qed.
End Copies.

(** ** The client *)

(** A client that merges every message it receives. *)
Section Client.
Context `{CJ : CJson} (cparse : bytes -> option json).

Definition receive (cl : kids) (t : bytes) : kids :=
  match cparse t with Some (JNode false _ as j) => deepMerge j cl | _ => cl end.

Definition received (cl : kids) (ts : list bytes) : kids := foldl receive cl ts.

End Client.

(** What the client's parser makes of printed text, and that printing finds memory. *)
Class JsonWire (CJ : CJson) `{!CJsonLaws CJ} (cparse : bytes -> option json) := {
  jw_parse j t : jgood j -> cJSON_PrintUnformatted j = Some t -> cparse t = Some (norm j);
  jw_print j : jgood j -> is_Some (cJSON_PrintUnformatted j);
  jw_names : cj_same ($ "fw") ($ "secrets") = false;
  jw_fields : uniq [(Some ($ "stub"), JNull); (Some ($ "name"), JNull); (Some ($ "banner"), JNull)]
}.

Section Stream.
Context `{CJ : CJson} `{L : !CJsonLaws CJ} (cparse : bytes -> option json) `{W : !JsonWire CJ cparse}.
Notation oget := (kget cj_same).
Notation same := cj_same.
Abbreviation obj l := (Some (JNode false l)).
Abbreviation got ts := (received cparse [] ts).

(** A message that carries a part of [T]. *)
Definition part (T : option json) (t : bytes) : Prop :=
  exists B, cJSON_PrintUnformatted (JNode false B) = Some t /\ jgood (JNode false B) /\ copies T (obj B).

Lemma copies_norm T B : match T with Some j => jgood j | None => True end -> jgood B ->
  copies T (Some B) -> copies (norm <$> T) (Some (norm B)).
Proof.
  intros GT GB K ss v. pose proof (navS_norm ss (Some B) GB) as E. cbn [fmap option_fmap option_map] in E. rewrite E.
  destruct (navS (Some B) ss) as [w|] eqn:Ew; [|done]. cbn [fmap option_fmap option_map]. intros [= <-].
  pose proof (K _ _ Ew) as C. pose proof (jgood_nav _ _ _ GB Ew) as Gw.
  assert (forall x, navS T ss = Some x -> navS (norm <$> T) ss = Some (norm x)) as N by (intros x Hx; by rewrite navS_norm, Hx).
  destruct w as [| | | |[|] l]; cbn [copied norm] in *; try (by apply N in C). destruct C as [[l' C] _]. apply N in C. split; [by eexists|].
  apply norm_good, jgood_node in Gw as (_ & U & _). by apply U.
Qed.

Lemma receive_part lt cl t B : jgood (JNode false lt) -> copies (norm <$> obj lt) (obj cl) ->
  cJSON_PrintUnformatted (JNode false B) = Some t -> jgood (JNode false B) -> copies (obj lt) (obj B) ->
  copies (norm <$> obj lt) (obj (receive cparse cl t)) /\
  forall ss, lval (navS (obj (receive cparse cl t)) ss) =
    match lval (navS (obj B) ss) with Some x => Some x | None => lval (navS (obj cl) ss) end.
Proof.
  intros G Kc P GB K. unfold receive. rewrite (jw_parse (cparse := cparse) _ _ GB P). cbn [norm].
  destruct (merge_obj _ _ _ (copies_norm (obj lt) _ G GB K) Kc) as [H1 H2]. split; [done|].
  intros ss. rewrite H2. change (obj (map _ B)) with (Some (norm (JNode false B))). by rewrite lval_norm.
Qed.

Lemma received_part lt ts : jgood (JNode false lt) -> Forall (part (obj lt)) ts -> copies (norm <$> obj lt) (obj (got ts)).
Proof.
  intros G F. unfold received. assert (forall cl, copies (norm <$> obj lt) (obj cl) -> copies (norm <$> obj lt) (obj (foldl (receive cparse) cl ts))) as H.
  { induction F as [|t ts P _ IH]; intros cl K; [done|]. cbn [foldl]. apply IH. destruct P as (B & P1 & P2 & P3). by eapply receive_part. }
  apply H. intros [|s r] v; [intros [= <-]; split; [by eexists|done]|]. by rewrite nav_obj, navS_None.
Qed.

(** ** The packing *)

Record stream_ok (lt : kids) (st : chunker) : Prop := {
  so_good : jgood (JNode false (batch st));
  so_copies : copies (obj lt) (obj (batch st));
  so_chunks : Forall (part (obj lt)) (chunks st)
}.

(** The value at a path, in the batch or with the client. *)
Definition view (st : chunker) (ss : list bytes) : option bytes :=
  match lval (navS (obj (batch st)) ss) with Some x => Some x | None => lval (navS (obj (got (chunks st))) ss) end.

Lemma view_bound lt st ss x : jgood (JNode false lt) -> stream_ok lt st -> view st ss = Some x -> lval (navS (obj lt) ss) = Some x.
Proof.
  intros G [S1 S2 S3]. unfold view. destruct (lval (navS (obj (batch st)) ss)) as [y|] eqn:E.
  - intros [= <-]. by apply (copies_lval _ _ _ _ S2).
  - intros H. rewrite <- lval_norm by done. by apply (copies_lval _ _ _ _ (received_part _ _ G S3)).
Qed.

Lemma emit_ok lt st : jgood (JNode false lt) -> stream_ok lt st ->
  stream_ok lt (dcDumpEmit st) /\ batch (dcDumpEmit st) = [] /\ forall ss, view (dcDumpEmit st) ss = view st ss.
Proof.
  intros G S. pose proof S as [S1 S2 S3]. unfold dcDumpEmit. destruct (batch st) as [|c b] eqn:E.
  { split_and!; [constructor; [done..]|done|]. intros ss. unfold view. cbn [batch chunks]. by rewrite E. }
  destruct (jw_print (cparse := cparse) _ S1) as [t P]. rewrite P.
  assert (part (obj lt) t) as Pt by (exists (c :: b); done). split_and!; [|done|].
  - constructor; cbn [batch chunks]; [done| |apply Forall_app; split; [done|by apply Forall_singleton]].
    intros [|s r] v; [intros [= <-]; split; [by eexists|done]|]. by rewrite nav_obj, navS_None.
  - intros ss. unfold view. cbn [batch chunks]. unfold received at 1. rewrite foldl_app. fold (got (chunks st)). cbn [foldl].
    rewrite (proj2 (receive_part lt (got (chunks st)) t (c :: b) G (received_part _ _ G S3) P S1 S2)), E.
    by destruct ss as [|s r]; rewrite ?nav_obj; cbn [kget]; rewrite ?navS_None.
Qed.

(** What streaming the unit [node] at path [p] makes of the state. *)
Record streamed (lt : kids) (p : list bytes) (node : json) (st st' : chunker) : Prop := {
  sm_ok : stream_ok lt st';
  sm_keeps ss x : view st ss = Some x -> view st' ss = Some x;
  sm_covers ss rest x : strip p ss = Some rest -> lval (navS (Some node) rest) = Some x -> view st' ss = Some x;
  sm_fresh q : navS (obj (batch st)) q = None -> strip p q = None -> strip q p = None -> navS (obj (batch st')) q = None
}.

Lemma emitted_fresh q : q <> [] -> navS (obj []) q = None.
Proof. destruct q as [|s r]; [done|]. by rewrite nav_obj, navS_None. Qed.

Lemma batch_fresh b q : navS (obj b) q = None -> q <> [].
Proof. by destruct q. Qed.

(** A new batch beside the same chunks. *)
Lemma add_ok lt st p node b' n : jgood (JNode false lt) -> stream_ok lt st -> placed (obj lt) p node (batch st) b' ->
  streamed lt p node st {| chunks := chunks st; batch := b'; batchLen := n |}.
Proof.
  intros G S [P1 P2 P3 P4 P5]. assert (stream_ok lt {| chunks := chunks st; batch := b'; batchLen := n |}) as S' by (constructor; [done..|apply S]).
  constructor; [done|..|done].
  - intros ss x H. pose proof (view_bound _ _ _ _ G S H) as B. unfold view in *. cbn [batch chunks].
    destruct (lval (navS (obj b') ss)) as [y|] eqn:E; [by rewrite <- (copies_lval _ _ _ _ P2 E), B|].
    destruct (lval (navS (obj (batch st)) ss)) as [y|] eqn:E'; [by rewrite (P3 _ _ E') in E|done].
  - intros ss rest x H1 H2. unfold view. cbn [batch]. by rewrite (P4 _ _ _ H1 H2).
Qed.

Lemma emit_after lt p node st st' : jgood (JNode false lt) -> streamed lt p node st st' -> streamed lt p node st (dcDumpEmit st').
Proof.
  intros G [S1 S2 S3 S4]. destruct (emit_ok _ _ G S1) as (E1 & E2 & E3). constructor; [done|..].
  - intros ss x H. rewrite E3. by apply S2.
  - intros ss rest x H1 H2. rewrite E3. by eapply S3.
  - intros q H _ _. rewrite E2. by eapply emitted_fresh, batch_fresh.
Qed.

Lemma emit_before lt p node st st' : jgood (JNode false lt) -> stream_ok lt st -> p <> [] ->
  streamed lt p node (dcDumpEmit st) st' -> streamed lt p node st st'.
Proof.
  intros G S N [S1 S2 S3 S4]. destruct (emit_ok _ _ G S) as (E1 & E2 & E3). constructor; [done|..|done|].
  - intros ss x H. apply S2. by rewrite E3.
  - intros q H. apply S4. rewrite E2. by eapply emitted_fresh, batch_fresh.
Qed.

Definition streams (node : json) : Prop := forall lt st stack name, jgood (JNode false lt) -> stream_ok lt st -> objs (obj lt) stack ->
  navS (obj lt) (stack ++ [name]) = Some node -> Forall str_ok (stack ++ [name]) -> navS (obj (batch st)) (stack ++ [name]) = None ->
  streamed lt (stack ++ [name]) node st (dcStreamNode st stack name node).

Lemma place_streams node est lt st stack name : jgood (JNode false lt) -> stream_ok lt st -> objs (obj lt) stack ->
  navS (obj lt) (stack ++ [name]) = Some node -> Forall str_ok (stack ++ [name]) -> navS (obj (batch st)) (stack ++ [name]) = None ->
  streamed lt (stack ++ [name]) node st (dcPlace st stack name node est).
Proof.
  intros G S O N F Fr. pose proof (jgood_nav _ _ _ G N) as J. unfold dcPlace.
  assert (forall st, stream_ok lt st -> navS (obj (batch st)) (stack ++ [name]) = None ->
    streamed lt (stack ++ [name]) node st {| chunks := chunks st; batch := dcBatchAdd (batch st) stack name node; batchLen := batchLen st + est |}) as A.
  { intros st0 S0 F0. apply add_ok; [done|done|]. apply place_ok; try done; apply S0. }
  assert (stack ++ [name] <> []) as Ne by (by destruct stack).
  assert (forall st0, streamed lt (stack ++ [name]) node st st0 ->
    streamed lt (stack ++ [name]) node st (if DC_DUMP_MAX <=? batchLen st0 then dcDumpEmit st0 else st0)) as B.
  { intros st0 H. destruct (_ <=? _); [by apply emit_after|done]. }
  apply B. destruct (_ && _); [|by apply A]. apply emit_before; [done|done|done|].
  destruct (emit_ok _ _ G S) as (E1 & E2 & _). apply A; [done|]. rewrite E2. by apply emitted_fresh.
Qed.

(** The children of an object, streamed one after the other. *)
Definition streamKids (stack : list bytes) (l : kids) (st : chunker) : chunker :=
  foldl (fun st c => dcStreamNode st stack (default [] c.1) c.2) st l.

Lemma streamNode_object st stack name l : l <> [] -> dcStreamNode st stack name (JNode false l) =
  let est := dcNodePrintLen (JNode false l) + Zlen name + 8 in
  if (DC_DUMP_MAX <? est) && (length stack <? DC_DUMP_DEPTH)%nat then streamKids (stack ++ [name]) l st
  else dcPlace st stack name (JNode false l) est.
Proof.
  intros N. destruct l as [|c0 l0]; [done|]. cbn [dcStreamNode]. destruct (_ && _); [|done]. destruct c0 as [nm c].
  unfold streamKids. cbn [foldl fst snd]. generalize (dcStreamNode st (stack ++ [name]) (default [] nm) c) as st0. clear.
  induction l0 as [|[nm c] l IH]; intros st; [done|]. cbn [foldl fst snd]. apply IH.
Qed.

(** What [streamKids] is given: distinct children of the object at [p], none of them in
    the batch. *)
Record kids_at (lt : kids) (p : list bytes) (st : chunker) (l : kids) : Prop := {
  ka_names : Forall (child_ok false) l;
  ka_uniq : uniq l;
  ka_there nm c : (Some nm, c) ∈ l -> navS (obj lt) (p ++ [nm]) = Some c;
  ka_fresh nm c : (Some nm, c) ∈ l -> navS (obj (batch st)) (p ++ [nm]) = None
}.

(** What it does. *)
Record kids_streamed (lt : kids) (p : list bytes) (l : kids) (st st' : chunker) : Prop := {
  ks_ok : stream_ok lt st';
  ks_keeps ss x : view st ss = Some x -> view st' ss = Some x;
  ks_covers nm c ss rest x : (Some nm, c) ∈ l -> strip (p ++ [nm]) ss = Some rest -> lval (navS (Some c) rest) = Some x -> view st' ss = Some x;
  ks_fresh q : navS (obj (batch st)) q = None -> (forall nm c, (Some nm, c) ∈ l -> strip (p ++ [nm]) q = None /\ strip q (p ++ [nm]) = None) ->
    navS (obj (batch st')) q = None
}.

Lemma uniq_apart n l nm c : uniq l -> oget l n = None -> (Some nm, c) ∈ l -> same n nm = false.
Proof.
  induction l as [|[[m|] v] l IH]; [by intros _ _ H%elem_of_nil|..]; cbn [uniq kget]; intros U O H.
  - destruct U as [_ U]. destruct (same m n) eqn:S; [done|]. apply elem_of_cons in H as [[= -> ->]|H]; [by rewrite cj_sym|by apply IH].
  - apply elem_of_cons in H as [H|H]; [done|by apply IH].
Qed.

Lemma kids_ok lt p l st : jgood (JNode false lt) -> objs (obj lt) p -> Forall str_ok p -> Forall (fun c => streams c.2) l ->
  stream_ok lt st -> kids_at lt p st l -> kids_streamed lt p l st (streamKids p l st).
Proof.
  intros G O Wp F. revert st. induction F as [|[[nm|] c] l Hc _ IH]; intros st S [A1 A2 A3 A4].
  - constructor; [done|done|by intros nm c ss rest x H%elem_of_nil|done].
  - unfold streamKids. cbn [foldl fst snd default id]. apply Forall_cons in A1 as [N1 A1]. destruct A2 as [A2 A2'].
    assert (streamed lt (p ++ [nm]) c st (dcStreamNode st p nm c)) as [B1 B2 B3 B4].
    { apply Hc; try done; [apply A3; by left| |apply (A4 nm c); by left]. apply Forall_app. split; [done|]. by apply Forall_singleton. }
    set (st1 := dcStreamNode st p nm c) in *. clearbody st1.
    assert (kids_at lt p st1 l) as A'.
    { constructor; [done|done|intros nm' c' H; apply A3; by right|]. intros nm' c' H. apply B4; [by apply (A4 nm' c'); right|..].
      - apply strip_siblings. by eapply uniq_apart.
      - apply strip_siblings. rewrite cj_sym. by eapply uniq_apart. }
    destruct (IH st1 B1 A') as [C1 C2 C3 C4]. fold (streamKids p l st1) in *. constructor; [done|..].
    + intros ss x H. by apply C2, B2.
    + intros nm' c' ss rest x H. apply elem_of_cons in H as [[= -> ->]|H]; [|by apply (C3 nm')]. intros H1 H2. apply C2. by eapply B3.
    + intros q H Hq. apply C4; [|intros nm' c' H'; apply (Hq nm' c'); by right]. destruct (Hq nm c) as [Q1 Q2]; [by left|]. by apply B4.
  - apply Forall_cons in A1 as [N1 _]. done.
Qed.

Lemma child_in l s c : oget l s = Some c -> exists nm, (Some nm, c) ∈ l /\ same nm s = true.
Proof.
  induction l as [|[[n|] v] l IH]; cbn [kget]; [done|..].
  - destruct (same n s) eqn:S; [intros [= <-]; exists n; split; [by left|done]|]. intros H. destruct (IH H) as (nm & I1 & I2).
    exists nm. split; [by right|done].
  - intros H. destruct (IH H) as (nm & I1 & I2). exists nm. split; [by right|done].
Qed.

Lemma in_child l nm c : uniq l -> (Some nm, c) ∈ l -> oget l nm = Some c.
Proof.
  induction l as [|[[n|] v] l IH]; [by intros _ H%elem_of_nil|..]; cbn [uniq kget]; intros U H.
  - destruct U as [U1 U2]. apply elem_of_cons in H as [[= -> ->]|H]; [by rewrite cj_refl|].
    rewrite (uniq_apart _ _ _ _ U2 U1 H). by apply IH.
  - apply elem_of_cons in H as [H|H]; [done|by apply IH].
Qed.

Lemma stream_all node : streams node.
Proof.
  induction node as [| | | |[|] l IH] using json_rect'; intros lt st stack name G S O N F Fr;
    try (cbn [dcStreamNode]; by apply place_streams).
  destruct l as [|c0 l0]; [by apply place_streams|]. set (l := c0 :: l0) in *. rewrite streamNode_object by done. cbn zeta.
  destruct (_ && _); [|by apply place_streams]. pose proof (jgood_nav _ _ _ G N) as J. apply jgood_node in J as (J1 & J2 & J3).
  specialize (J2 eq_refl). set (p := stack ++ [name]) in *.
  assert (forall nm c, (Some nm, c) ∈ l -> navS (obj lt) (p ++ [nm]) = Some c) as There.
  { intros nm c H. rewrite nav_app, N, nav_obj. cbn [navS]. by apply in_child. }
  assert (kids_at lt p st l) as A by (constructor; [done..|intros nm c _; by apply nav_under]).
  destruct (kids_ok lt p l st G (objs_snoc _ _ _ _ O N) F IH S A) as [K1 K2 K3 K4]. constructor; [done|done|..].
  - intros ss rest x H. destruct rest as [|s r]; [done|]. rewrite nav_obj. destruct (oget l s) as [c|] eqn:E; [|by rewrite navS_None].
    destruct (child_in _ _ _ E) as (nm & I1 & I2). apply (K3 nm c); [done|]. by rewrite strip_snoc, H, I2.
  - intros q H H1 H2. apply K4; [done|]. intros nm c _. split; [by rewrite strip_snoc, H1|by apply strip_above].
Qed.

(** ** The whole dump *)

Lemma clone_get id root k : uniq root -> oget root ($ "fw") = None ->
  oget (dcClone id root) k =
    if same ($ "secrets") k then None
    else if same ($ "fw") k then obj [(Some ($ "stub"), JStr (fw_stub id)); (Some ($ "name"), JStr (fw_name id)); (Some ($ "banner"), JStr (fw_banner id))]
    else oget root k.
Proof.
  intros U F. unfold dcClone. rewrite cj_dup. cbn [snd]. rewrite !cj_add. cbn [app]. rewrite cj_find, oget_app.
  assert (oget (match kpos same root ($ "secrets") with Some _ => cJSON_DeleteItemFromObject root ($ "secrets") | None => root end) k =
    if same ($ "secrets") k then None else oget root k) as ->.
  { destruct (kpos same root ($ "secrets")) eqn:E; [by apply del_spec|]. destruct (same ($ "secrets") k) eqn:S; [|done].
    rewrite <- (oget_same _ _ _ S). by apply kpos_None. }
  cbn [kget]. destruct (same ($ "secrets") k) eqn:S.
  - destruct (same ($ "fw") k) eqn:S'; [|done]. rewrite cj_sym in S. pose proof (cj_trans _ _ _ S' S) as X.
    by rewrite (jw_names (cparse := cparse)) in X.
  - destruct (oget root k) eqn:E; [|done]. destruct (same ($ "fw") k) eqn:S'; [|done]. by rewrite <- (oget_same _ _ _ S'), F in E.
Qed.

Lemma clone_good id root : jgood (JNode false root) -> oget root ($ "fw") = None ->
  str_ok (fw_stub id) -> str_ok (fw_name id) -> str_ok (fw_banner id) ->
  jgood (JNode false (dcClone id root)).
Proof using L W.
  intros G F I1 I2 I3. unfold dcClone. rewrite cj_dup. cbn [snd]. rewrite !cj_add. cbn [app].
  set (clone := match cJSON_find root ($ "secrets") with Some _ => _ | None => root end).
  assert (jgood (JNode false clone) /\ oget clone ($ "fw") = None) as [Gc Fc].
  { unfold clone. destruct (cJSON_find root ($ "secrets")); [|done]. split; [by apply jgood_del|].
    apply jgood_node in G as (_ & U & _). destruct (del_spec root ($ "secrets") (U eq_refl)) as [D _]. rewrite D, F. by destruct (same ($ "secrets") ($ "fw")). }
  assert (forall s, str_okb ($ s) = true -> str_ok ($ s)) as Ok by (intros s; apply str_okb_ok).
  apply jgood_snoc; [done|done|apply (Ok _); vm_compute; reflexivity|]. apply jgood_node. split_and!.
  - repeat (apply Forall_cons; split); try apply Forall_nil; try done; apply (Ok _); vm_compute; reflexivity.
  - intros _. pose proof (jw_fields (cparse := cparse)) as U. cbn [uniq kget] in U |- *. destruct U as (U1 & U2 & _). repeat split; try done. all: repeat (case_match; try done).
  - repeat (apply Forall_cons; split); try apply Forall_nil; done.
Qed.

Lemma build_ok id root : jgood (JNode false (dcClone id root)) ->
  exists cs, dcBuildDumpInto id root = [DUMP_BEGIN] ++ cs ++ [DUMP_END] /\ Forall (part (obj (dcClone id root))) cs /\
    forall ss, lval (navS (obj (got cs)) ss) = lval (navS (obj (dcClone id root)) ss).
Proof.
  intros G. set (lt := dcClone id root) in *. set (st0 := {| chunks := []; batch := []; batchLen := 0 |}).
  assert (stream_ok lt st0) as S0.
  { constructor; [by apply jgood_node| |done]. intros [|s r] v; [intros [= <-]; split; [by eexists|done]|]. by rewrite nav_obj, navS_None. }
  pose proof G as (G1 & G2 & _)%jgood_node. specialize (G2 eq_refl).
  assert (kids_at lt [] st0 lt) as A.
  { constructor; [done|done|intros nm c H; cbn [app]; rewrite nav_obj; cbn [navS]; by apply in_child|].
    intros nm c _. cbn [app batch]. by rewrite nav_obj. }
  assert (objs (obj lt) []) as O.
  { intros q r E. destruct q; [by eexists|done]. }
  destruct (kids_ok lt [] lt st0 G O (Forall_nil_2 _) ltac:(by apply Forall_true; intros; apply stream_all) S0 A) as [K1 K2 K3 K4].
  set (st := streamKids [] lt st0) in *. destruct (emit_ok _ _ G K1) as (E1 & E2 & E3).
  exists (chunks (dcDumpEmit st)). split; [done|]. split; [apply E1|]. intros ss.
  assert (view (dcDumpEmit st) ss = lval (navS (obj (got (chunks (dcDumpEmit st)))) ss)) as <-.
  { unfold view. rewrite E2. destruct ss as [|s r]; [done|]. rewrite nav_obj. cbn [kget]. by rewrite navS_None. }
  destruct (lval (navS (obj lt) ss)) as [x|] eqn:E.
  - destruct ss as [|s r]; [done|]. rewrite nav_obj in E. destruct (oget lt s) as [c|] eqn:Ec; [|by rewrite navS_None in E].
    destruct (child_in _ _ _ Ec) as (nm & I1 & I2). rewrite E3. apply (K3 nm c _ r x I1); [|done]. cbn [app strip]. by rewrite I2.
  - destruct (view (dcDumpEmit st) ss) as [y|] eqn:Ey; [|done]. by rewrite (view_bound _ _ _ _ G E1 Ey) in E.
Qed.

(** No part of the clone names the secrets. *)
Lemma part_public id root t : uniq root -> oget root ($ "fw") = None -> part (obj (dcClone id root)) t ->
  exists B, cJSON_PrintUnformatted (JNode false B) = Some t /\ oget B ($ "secrets") = None.
Proof.
  intros U F (B & P & _ & K). exists B. split; [done|]. destruct (oget B ($ "secrets")) as [v|] eqn:E; [|done].
  assert (navS (obj (dcClone id root)) [$ "secrets"] = None) as N by (rewrite nav_obj, clone_get, cj_refl by done; done).
  specialize (K [$ "secrets"] v ltac:(by rewrite nav_obj, E)). destruct v as [| | | |[|] l]; cbn [copied] in K; rewrite N in K; try done.
  by destruct K as [[l' K] _].
Qed.

(** C13: the dump carries the tree: the messages between its two brackets, merged in order by a
    client that starts with nothing, give it the value of every path of the device's tree,
    the firmware's identity under fw, and nothing under secrets, however the tree was cut
    into messages; and no message names the secrets at all. *)
Theorem dump_mirrors_tree id root : jgood (JNode false root) -> oget root ($ "fw") = None ->
  str_ok (fw_stub id) -> str_ok (fw_name id) -> str_ok (fw_banner id) ->
  exists cs, dcBuildDumpInto id root = [DUMP_BEGIN] ++ cs ++ [DUMP_END] /\
    (forall s r, lval (navS (obj (received cparse [] cs)) (s :: r)) =
       if same ($ "secrets") s then None
       else if same ($ "fw") s then
         lval (navS (obj [(Some ($ "stub"), JStr (fw_stub id)); (Some ($ "name"), JStr (fw_name id)); (Some ($ "banner"), JStr (fw_banner id))]) r)
       else lval (navS (obj root) (s :: r))) /\
    Forall (fun t => exists B, cJSON_PrintUnformatted (JNode false B) = Some t /\ oget B ($ "secrets") = None) cs.
Proof.
  intros G F I1 I2 I3. pose proof G as (_ & U & _)%jgood_node. specialize (U eq_refl).
  destruct (build_ok id root (clone_good id root G F I1 I2 I3)) as (cs & E & P & V). exists cs. split; [done|]. split.
  - intros s r. rewrite V, !nav_obj, clone_get by done. destruct (same ($ "secrets") s); [by rewrite navS_None|]. by destruct (same ($ "fw") s).
  - eapply Forall_impl; [exact P|]. intros t. by apply part_public.
Qed.
End Stream.
