(* ===== verification/MirrorPatch.v ===== *)
(** * storage: what a patch tells the client

    The merge patch of the changed keys: where it holds a value and what merging it makes
    of the client's tree. A client that is up to date but for the changed keys is up to
    date once it has merged the patch. *)

From stdpp Require Import gmap.
From S2P Require Import Prelude CLib Config ConfigTree ConfigOps ConfigSet Persist PersistTree PersistSet Mirror MirrorDump.
Import Tree Ops Subs Actor Dump Mirror Patch.
Open Scope Z_scope.
Open Scope spangap_scope.

Section View.
Context `{CJ : CJson} `{L : !CJsonLaws CJ}.
Notation oget := (kget cj_same).
Notation same := cj_same.
Abbreviation obj l := (Some (JNode false l)).

(** ** What a client reads after a merge *)

(** The value at [ss] after [B] was merged into [c], no array of [c] being patched. *)
Fixpoint mview (B : json) (c : option json) (ss : list bytes) : option bytes :=
  match B, ss with
  | JNode false sub, [] => None
  | JNode false sub, s :: r =>
      let c' := match c with Some (JNode false cl) => oget cl s | _ => None end in
      match oget sub s with None => lval (navS c' r) | Some it => mview it c' r end
  | JNull, _ => None
  | _, _ => lval (navS (Some B) ss)
  end.

(** [c] has no array where [B] has an object, along [ss]. *)
Definition no_array (B : json) (c : option json) (ss : list bytes) : Prop :=
  forall q r, ss = q ++ r -> (forall q1 r1, q = q1 ++ r1 -> exists l, navS (Some B) q1 = obj l) -> forall l', navS c q <> Some (JNode true l').

Lemma no_array_head sub c ss l : no_array (JNode false sub) c ss -> c <> Some (JNode true l).
Proof. intros N. apply (N [] ss eq_refl). intros q1 r1 H. symmetry in H. apply app_eq_nil in H as [-> _]. by eexists. Qed.

Lemma no_array_down sub c s r it : no_array (JNode false sub) c (s :: r) -> oget sub s = Some it ->
  no_array it (match c with Some (JNode false cl) => oget cl s | _ => None end) r.
Proof.
  intros N Eo q r' -> H l'. destruct c as [[| | | |[|] cl]|]; try (by rewrite navS_None).
  specialize (N (s :: q) r' eq_refl). rewrite nav_obj in N. apply N. intros [|x q1] r1; [by eexists|].
  intros [= -> ->]. rewrite nav_obj, Eo. by apply (H q1 r1).
Qed.

Lemma no_array_norm B c ss : jgood B -> no_array B c ss -> no_array (norm B) c ss.
Proof.
  intros G N q r Es H. apply (N q r Es). intros q1 r1 E1. destruct (H q1 r1 E1) as [l Hl].
  pose proof (navS_norm q1 (Some B) G) as X. cbn [fmap option_fmap option_map] in X. rewrite X in Hl.
  destruct (navS (Some B) q1) as [[| | | |[|] l0]|]; try done. by eexists.
Qed.

Lemma mview_self B ss : lval (navS (Some B) ss) = mview B None ss.
Proof.
  revert B. induction ss as [|s r IH]; intros B; [by destruct B as [| | | |[|] l]|].
  destruct B as [| | | |[|] sub]; try done; [by rewrite lval_nav_leaf|]. rewrite nav_obj. cbn [mview].
  destruct (oget sub s); [apply IH|done].
Qed.

Lemma merge_view ss : forall B c, jgood B -> match c with Some j => jgood j | None => True end -> no_array B c ss ->
  lval (navS (merge1 deepMerge B c) ss) = mview B c ss.
Proof.
  induction ss as [|s r IH]; intros B c GB Gc N; (destruct (obj_or B) as [[sub ->]|Ne];
    [|rewrite merge_leaf by done; destruct B as [| | | |[|] l]; [cbn [is_null]; by rewrite ?navS_None|done..|by destruct (Ne l)]]).
  - destruct c as [[| | | |[|] cl]|]; try done. by destruct (no_array_head _ _ _ cl N).
  - assert (forall c, (forall b l, c <> Some (JNode b l)) -> lval (navS (obj sub) (s :: r)) = mview (JNode false sub) c (s :: r)) as Leaf.
    { intros c0 Nc. rewrite nav_obj. cbn [mview]. destruct c0 as [[| | | |[|] l]|]; try (by destruct (oget sub s); [apply mview_self|]);
        by destruct (Nc _ l eq_refl). }
    destruct c as [[| | | |[|] cl]|]; cbn [merge1]; try (by apply Leaf).
    { by destruct (no_array_head _ _ _ cl N). }
    pose proof GB as (_ & U & _)%jgood_node. pose proof Gc as (_ & U' & _)%jgood_node.
    destruct (merge_spec false sub cl (U eq_refl) (U' eq_refl)) as [E _]. rewrite nav_obj, E. cbn [mview].
    destruct (oget sub s) as [it|] eqn:Eo; [|done]. apply IH; [by apply (jgood_oget false sub s)| |by apply (no_array_down _ _ _ _ _ N Eo)].
    destruct (oget cl s) eqn:Ec; [by apply (jgood_oget false cl s)|done].
Qed.

(** Objects on the way, then nothing: the client keeps what it has. *)
Lemma mview_off ss : forall B c, no_array B c ss -> navS (Some B) ss = None ->
  (forall q r v, ss = q ++ r -> navS (Some B) q = Some v -> exists l, v = JNode false l) ->
  mview B c ss = lval (navS c ss).
Proof.
  induction ss as [|s r IH]; intros B c N E O; [done|]. destruct (O [] (s :: r) B eq_refl eq_refl) as [sub ->].
  rewrite nav_obj in E. cbn [mview].
  set (c' := match c with Some (JNode false cl) => oget cl s | _ => None end).
  assert (lval (navS c (s :: r)) = lval (navS c' r)) as ->.
  { unfold c'. destruct c as [[| | | |[|] cl]|]; try (by rewrite lval_nav_leaf, navS_None); [|by rewrite nav_obj].
    by destruct (no_array_head _ _ _ cl N). }
  destruct (oget sub s) as [it|] eqn:Eo; [|done]. apply IH; [by apply (no_array_down _ _ _ _ _ N Eo)|done|].
  intros q r' v -> Hv. apply (O (s :: q) r' v); [done|]. by rewrite nav_obj, Eo.
Qed.

(** Objects on the way and at the end. *)
Lemma mview_inner ss : forall B c l, navS (Some B) ss = obj l ->
  (forall q a r, ss = q ++ a :: r -> exists l, navS (Some B) q = obj l) -> mview B c ss = None.
Proof.
  induction ss as [|s r IH]; intros B c l E O; [by injection E as ->|].
  destruct (O [] s r eq_refl) as [sub E0]. cbn [navS] in E0. injection E0 as ->. rewrite nav_obj in E. cbn [mview].
  destruct (oget sub s) as [it|] eqn:Eo; [|by rewrite navS_None in E]. apply (IH _ _ l E).
  intros q a r' ->. destruct (O (s :: q) a r' eq_refl) as [l' H]. rewrite nav_obj, Eo in H. by exists l'.
Qed.

(** Objects on the way, then a value: the client has the value. *)
Lemma mview_at k rest : forall B c v, navS (Some B) k = Some v -> (forall l, v <> JNode false l) ->
  (forall q a r, k = q ++ a :: r -> exists l, navS (Some B) q = obj l) ->
  mview B c (k ++ rest) = if is_null v then None else lval (navS (Some v) rest).
Proof.
  induction k as [|s k IH]; intros B c v E Nv O; cbn [app].
  - cbn [navS] in E. injection E as ->. destruct v as [| | | |[|] l]; [by destruct rest..|by destruct (Nv l)].
  - destruct (O [] s k eq_refl) as [sub E0]. cbn [navS] in E0. injection E0 as ->. rewrite nav_obj in E. cbn [mview].
    destruct (oget sub s) as [it|] eqn:Eo; [|by rewrite navS_None in E]. apply IH; [done|done|].
    intros q a r ->. destruct (O (s :: q) a r eq_refl) as [l H]. rewrite nav_obj, Eo in H. by exists l.
Qed.

(** ** The patch *)

(** Paths none of which leads to another, up to case. *)
Fixpoint apart (ks : list (list bytes)) : Prop :=
  match ks with
  | [] => True
  | k :: r => Forall (fun k' => strip k k' = None /\ strip k' k = None) r /\ apart r
  end.

Lemma apart_perm ks ks' : ks ≡ₚ ks' -> apart ks -> apart ks'.
Proof.
  induction 1 as [|k l l' P IH|k k' l|l l' l'' _ IH1 _ IH2]; cbn [apart]; [done|..].
  - intros [A B]. split; [by rewrite <- P|by apply IH].
  - intros [[[A1 A2] A]%Forall_cons [B C]]. split; [apply Forall_cons; done|done].
  - auto.
Qed.

(** A patch with the values [val] at the keys [ks], and nothing else. *)
Record patched (val : list bytes -> json) (ks : list (list bytes)) (P : kids) : Prop := {
  pc_good : jgood (JNode false P);
  pc_at k ss rest : k ∈ ks -> strip k ss = Some rest -> navS (obj P) ss = navS (Some (val k)) rest;
  pc_above ss : (forall k, k ∈ ks -> strip k ss = None) -> (exists k, k ∈ ks /\ strip ss k <> None) -> exists l, navS (obj P) ss = obj l;
  pc_off ss : ss <> [] -> (forall k, k ∈ ks -> strip k ss = None /\ strip ss k = None) -> navS (obj P) ss = None
}.

Lemma patched_nil val : patched val [] [].
Proof.
  constructor; [by apply jgood_node|by intros k ss rest H%elem_of_nil| |].
  - intros ss _ (k & H%elem_of_nil & _). done.
  - intros [|s r] N _; [done|]. by rewrite nav_obj, navS_None.
Qed.

Lemma put_leaf_fresh v l k : oget l k = None -> put_leaf v l k = l ++ [(Some k, v)].
Proof.
  intros E. unfold put_leaf. rewrite cj_add, cj_del. destruct (kpos same l k) as [i|] eqn:K; [|done].
  destruct (kpos_Some _ _ _ K) as (n & w & _ & _ & H). congruence.
Qed.

(** A step of [navigateOrCreate], and its end. *)
Lemma navCreate_step f nd s p k : good_seg s -> p <> [] -> Forall good_seg p ->
  navCreate (S f) nd (path_of (s :: p)) k =
  match cJSON_find nd s with
  | None => let '(c, r) := navCreate f [] (path_of p) k in (cJSON_AddItemToObject nd s (JNode false c), r)
  | Some i =>
      match nd !! i with
      | Some (nm, JNode b l) => let '(c, r) := navCreate f l (path_of p) k in (<[i := (nm, JNode b c)]> nd, r)
      | _ => let '(c, r) := navCreate f [] (path_of p) k in
             (cJSON_AddItemToObject (cJSON_DeleteItemFromObject nd s) s (JNode false c), r)
      end
  end.
Proof.
  intros G N F. destruct (seg_tests s G) as [T1 T2]. destruct p as [|s' r]; [done|].
  pose proof (path_nonempty (s :: s' :: r) (Forall_cons_2 _ _ _ G F) ltac:(done)) as Hne.
  destruct (path_of (s :: s' :: r)) as [|x q] eqn:Ep; [done|]. cbn [navCreate]. by rewrite <- Ep, segment_cons, T1, T2.
Qed.

Lemma navCreate_end f nd s k : good_seg s -> navCreate (S f) nd (path_of [s]) k = (k nd s, true).
Proof.
  intros G. destruct (seg_tests s G) as [T1 T2]. cbn [path_of]. pose proof G as (N & _ & Z). destruct s as [|x q] eqn:Es; [done|]. cbn [navCreate]. rewrite <- Es in *.
  rewrite segment_last, T1, T2 by done. cbn [negb]. do 2 f_equal. unfold trunc. apply take_ge. unfold Zlen, SEG_SIZE in Z. lia.
Qed.

(** On such paths [navigateOrCreate] places a value as the packing of a dump does. *)
Lemma navCreate_batchAdd stack name v : Forall good_seg (stack ++ [name]) -> forall b fuel, open_path (obj b) stack ->
  navS (obj b) (stack ++ [name]) = None -> (length (path_of (stack ++ [name])) <= fuel)%nat ->
  navCreate fuel b (path_of (stack ++ [name])) (put_leaf v) = (dcBatchAdd b stack name v, true).
Proof.
  induction stack as [|s0 stack IH]; intros F b fuel O E Hf; cbn [app dcBatchAdd] in *; rewrite nav_obj in E; pose proof F as [F0 F1]%Forall_cons.
  all: pose proof (path_nonempty _ F ltac:(done)) as Ne; destruct fuel as [|f]; [by apply Nat.le_0_r, nil_length_inv in Hf|].
  - rewrite navCreate_end by done. cbn [navS] in E. by rewrite put_leaf_fresh, cj_dup, cj_add.
  - rewrite navCreate_step; [|done|by destruct stack|done]. unfold dcGetOrCreateObject. pose proof (open_down _ _ _ O) as O'.
    assert (length (path_of (stack ++ [name])) <= f)%nat as Hf'.
    { destruct (stack ++ [name]) as [|s1 r1] eqn:Es; [by destruct stack|]. rewrite path_of_cons, length_app in Hf. cbn [length] in Hf. lia. }
    rewrite cj_find. destruct (kpos same b s0) as [i|] eqn:Ek; cbn [mbind option_bind].
    + destruct (kpos_Some _ _ _ Ek) as (n & w & Hi & _ & Ho). rewrite Hi. rewrite Ho in E, O'. cbn [mbind option_bind].
      destruct (O' [] stack eq_refl) as [H|[l H]]; cbn [navS] in H; [done|]. injection H as ->. by rewrite (IH F1 l f O' E Hf').
    + rewrite (IH F1 [] f); [done| | |done].
      * intros [|s q] r _; [right; by eexists|left; by rewrite nav_obj, navS_None].
      * destruct stack; cbn [app]; rewrite nav_obj; apply navS_None.
Qed.

Lemma strip_prefix_trans k ss p : strip k ss <> None -> strip ss p <> None -> strip k p <> None.
Proof.
  revert ss p. induction k as [|a k IH]; intros [|s ss] [|x p]; cbn [strip]; try done.
  destruct (same a s) eqn:S1; [|done]. destruct (same s x) eqn:S2; [|done]. rewrite (cj_trans _ _ _ S1 S2). apply IH.
Qed.

Lemma strip_both k k' ss : strip k k' = None -> strip k' k = None -> strip k ss <> None -> strip k' ss = None.
Proof.
  revert k' ss. induction k as [|a k IH]; intros [|b k'] [|s ss]; cbn [strip]; try done.
  rewrite (cj_sym b a). destruct (same a b) eqn:S.
  - intros H1 H2. rewrite (same_subst _ _ s S). destruct (same b s); [by apply IH|done].
  - intros _ _. destruct (same a s) eqn:S1; [|done]. intros _. destruct (same b s) eqn:S2; [|done].
    rewrite cj_sym in S2. by rewrite (cj_trans _ _ _ S1 S2) in S.
Qed.

Lemma strip_app_r q r : strip q (q ++ r) <> None.
Proof. by rewrite strip_self. Qed.

Lemma patch_step val ks P k : patched val ks P -> k <> [] -> Forall good_seg k -> Forall str_ok k -> jgood (val k) ->
  (forall k', k' ∈ ks -> strip k k' = None /\ strip k' k = None) ->
  patched val (k :: ks) (navigateOrCreate P (path_of k) (put_leaf (val k))).1.
Proof.
  intros [P1 P2 P3 P4] N Fg Fs J A. destruct k as [|name stack _] using rev_ind; [done|].
  assert (navS (obj P) (stack ++ [name]) = None) as F.
  { apply P4; [by destruct stack|]. intros k' H. destruct (A k' H); done. }
  assert (open_path (obj P) stack) as O.
  { intros q r ->. destruct q as [|s q]; [right; by eexists|]. set (p := s :: q) in *.
    assert (strip p ((p ++ r) ++ [name]) <> None) as Hp by (rewrite <- app_assoc; apply strip_app_r).
    assert (forall k', k' ∈ ks -> strip k' p = None) as Np.
    { intros k' H. destruct (strip k' p) eqn:E; [|done]. destruct (A k' H) as [_ X]. exfalso. revert X. apply (strip_prefix_trans _ p); [by rewrite E|done]. }
    destruct (decide (Exists (fun k' => strip p k' <> None) ks)) as [Ex|No].
    - right. apply P3; [done|]. by apply Exists_exists in Ex.
    - left. apply P4; [done|]. intros k' H. split; [by apply Np|]. destruct (strip p k') eqn:E; [|done]. destruct No. apply Exists_exists.
      exists k'. by rewrite E. }
  unfold navigateOrCreate. rewrite navCreate_batchAdd by done. cbn [fst].
  destruct (batchAdd_puts stack name (val (stack ++ [name])) P P1 O J F Fs) as [B1 B2 B3 B4]. set (k := stack ++ [name]) in *. constructor; [done|..].
  - intros k' ss rest H Hs. apply elem_of_cons in H as [->|H]; [by apply B2|]. rewrite <- (P2 _ _ _ H Hs). destruct (A k' H) as [A1 A2].
    apply B4.
    + destruct (strip k ss) eqn:E; [|done]. by rewrite (strip_both k k' ss A1 A2) in Hs; [|rewrite E].
    + destruct (strip ss k) eqn:E; [|done]. exfalso. revert A2. apply (strip_prefix_trans _ ss); [by rewrite Hs|by rewrite E].
  - intros ss Hn (k' & H & Hs). apply elem_of_cons in H as [->|H].
    + apply B3; [apply Hn; by left|done].
    + destruct (strip ss k) eqn:E; [apply B3; [apply Hn; by left|by rewrite E]|]. rewrite B4; [|apply Hn; by left|done].
      apply P3; [intros k0 H0; apply Hn; by right|by exists k'].
  - intros ss Ns Hn. rewrite B4 by (apply Hn; by left). apply P4; [done|]. intros k' H. apply Hn. by right.
Qed.

Lemma mview_norm ss : forall B c, jgood B -> mview (norm B) c ss = mview B c ss.
Proof.
  induction ss as [|s r IH]; intros B c G; [by destruct B as [| | | |[|] l]|].
  destruct B as [| | | |[|] l]; try done; [apply (lval_norm _ (s :: r) G)|]. cbn [norm mview]. rewrite oget_norm.
  destruct (oget l s) as [it|] eqn:E; [|done]. cbn. apply IH. by apply (jgood_oget false l s).
Qed.

(** ** What the client reads *)

(** The client with [cl], the device with [rt], and the keys [ks] changed: values at the
    keys are leaves, arrays or gone; what the device has above them are objects; the
    client has no array there; and elsewhere the client is up to date. *)
Record behind (rt cl : kids) (ks : list (list bytes)) (shown : bytes -> Prop) : Prop := {
  bh_leaf k l : k ∈ ks -> navS (obj rt) k <> obj l;
  bh_above k q a r v : k ∈ ks -> k = q ++ a :: r -> navS (obj rt) q = Some v -> exists l, v = JNode false l;
  bh_client k q a r l : k ∈ ks -> k = q ++ a :: r -> navS (obj cl) q <> Some (JNode true l);
  bh_rest s r : shown s -> (forall k, k ∈ ks -> strip k (s :: r) = None) -> lval (navS (obj cl) (s :: r)) = lval (navS (obj rt) (s :: r))
}.

(** The value a patch has for a key: null when it is gone. *)
Definition current (rt : kids) (k : list bytes) : json := default JNull (navS (obj rt) k).

Lemma strip_split k ss rest : strip k ss = Some rest -> exists k', ss = k' ++ rest /\ strip k k' = Some [].
Proof.
  revert ss. induction k as [|a k IH]; intros ss; cbn [strip]; [intros [= ->]; by exists []|]. destruct ss as [|s ss]; [done|].
  destruct (same a s) eqn:S; [|done]. intros H. destruct (IH _ H) as (k' & -> & Hk). exists (s :: k'). split; [done|]. cbn [strip]. by rewrite S.
Qed.

Lemma strip_swap k k' : strip k k' = Some [] -> strip k' k = Some [].
Proof.
  revert k'. induction k as [|a k IH]; intros [|s k']; cbn [strip]; try done. rewrite (cj_sym s a). destruct (same a s); [apply IH|done].
Qed.

Lemma strip_proper q a r k : strip k (q ++ a :: r) = Some [] -> exists q' a' r', k = q' ++ a' :: r' /\ strip q q' = Some [].
Proof.
  revert k. induction q as [|s q IH]; intros [|x k]; cbn [strip app]; try done.
  - intros _. by exists [], x, k.
  - destruct (same x s) eqn:S; [|done]. intros H. destruct (IH _ H) as (q' & a' & r' & -> & Hq). exists (x :: q'), a', r'. split; [done|].
    cbn [strip]. by rewrite cj_sym, S.
Qed.

(** No changed key is at or above a proper prefix of another, or of itself. *)
Lemma apart_above ks k q a q' k' : apart ks -> k ∈ ks -> k = q ++ a :: q' -> k' ∈ ks -> strip k' q = None.
Proof.
  intros A Hk E Hk'. destruct (strip k' q) eqn:Es; [|done]. exfalso.
  assert (strip k' k <> None) as X by (apply (strip_prefix_trans _ q); [by rewrite Es|rewrite E; apply strip_app_r]).
  destruct (decide (k' = k)) as [->|Nk].
  - assert (forall (k q : list bytes) l, strip k q = Some l -> (length k <= length q)%nat) as Len.
    { clear. induction k as [|x k IH]; intros [|y q] l; cbn [strip length]; try done; [lia..|].
      destruct (same x y); [|done]. intros H. specialize (IH _ _ H). lia. }
    specialize (Len _ _ _ Es). rewrite E, length_app in Len. cbn [length] in Len. lia.
  - apply X. clear -A Hk Hk' Nk. induction ks as [|x ks IH]; [by apply elem_of_nil in Hk|]. destruct A as [A1 A2].
    apply elem_of_cons in Hk, Hk'. destruct Hk as [->|Hk], Hk' as [->|Hk']; try done; [..|by apply IH];
      by apply (proj1 (Forall_forall _ _) A1).
Qed.

Section Reads.
Context (rt cl : kids) (ks : list (list bytes)) (shown : bytes -> Prop) (P : kids).
Context (Bh : behind rt cl ks shown) (Ap : apart ks) (Pa : patched (current rt) ks P).

(** Under a changed key the client has the device's value. *)
Lemma patch_under ss k rest : k ∈ ks -> strip k ss = Some rest -> mview (JNode false P) (obj cl) ss = lval (navS (obj rt) ss).
Proof using Bh Ap Pa.
  intros Hk E. destruct (strip_split _ _ _ E) as (k' & Es & Hk').
  pose proof (pc_at _ _ _ Pa k k' [] Hk Hk') as Hv. cbn [navS] in Hv.
  assert (lval (navS (obj rt) ss) = lval (navS (Some (current rt k)) rest)) as ->.
  { rewrite (nav_strip _ _ _ _ E). unfold current. destruct (navS (obj rt) k) as [v|]; [done|]. cbn [default].
    rewrite navS_None. destruct rest; [done|]. by rewrite lval_nav_leaf. }
  rewrite Es, (mview_at k' rest _ _ (current rt k)); [|done|..].
  - destruct (current rt k) as [| | | |b l] eqn:Ec; try done. cbn [is_null]. destruct rest; [done|]. by rewrite lval_nav_leaf.
  - intros l Hl. unfold current in Hl. destruct (navS (obj rt) k) as [v|] eqn:Ev; cbn in Hl; [|done]. subst v. by apply (bh_leaf _ _ _ _ Bh k l).
  - intros q a q' ->. destruct (strip_proper _ _ _ _ Hk') as (q2 & a2 & r2 & Ek & Hq2). apply (pc_above _ _ _ Pa).
    + intros k0 Hk0. destruct (strip k0 q) eqn:E0; [|done]. pose proof (apart_above _ _ _ _ _ _ Ap Hk Ek Hk0) as X. exfalso.
      revert X. apply (strip_prefix_trans _ q); [by rewrite E0|by rewrite Hq2].
    + exists k. split; [done|]. apply (strip_prefix_trans _ q2); [by rewrite Hq2|rewrite Ek; apply strip_app_r].
Qed.

(** What the patch has on the way to any other path leads to a changed key. *)
Lemma patch_leads ss q q' : (forall k, k ∈ ks -> strip k ss = None) -> ss = q ++ q' -> q <> [] -> navS (obj P) q <> None ->
  (exists k q2 a r2, k ∈ ks /\ k = q2 ++ a :: r2 /\ strip q q2 = Some []) /\ exists l, navS (obj P) q = obj l.
Proof using Pa.
  intros Off E Nq Hq.
  assert (forall k, k ∈ ks -> strip k q = None) as Offq.
  { intros k Hk. destruct (strip k q) eqn:Eq; [|done]. specialize (Off k Hk).
    assert (strip k ss <> None) as X by (apply (strip_prefix_trans _ q); [by rewrite Eq|rewrite E; apply strip_app_r]). by rewrite Off in X. }
  destruct (decide (Exists (fun k => strip q k <> None) ks)) as [Ex|Ne].
  - apply Exists_exists in Ex as (k & Hk & Hs). split; [|apply (pc_above _ _ _ Pa); [done|by exists k]].
    destruct (strip q k) as [[|a r2]|] eqn:Eq; [|..|done].
    + apply strip_swap in Eq. by rewrite Offq in Eq.
    + destruct (strip_split _ _ _ Eq) as (q2 & Ek & H2'). by exists k, q2, a, r2.
  - destruct Hq. apply (pc_off _ _ _ Pa); [done|]. intros k Hk. split; [by apply Offq|].
    destruct (strip q k) eqn:Eq; [|done]. destruct Ne. apply Exists_exists. exists k. by rewrite Eq.
Qed.

Lemma patch_elsewhere s r : shown s -> (forall k, k ∈ ks -> strip k (s :: r) = None) ->
  mview (JNode false P) (obj cl) (s :: r) = lval (navS (obj rt) (s :: r)).
Proof using Bh Pa.
  intros Sh Off. pose proof (patch_leads (s :: r)) as Up. specialize (fun q q' => Up q q' Off).
  assert (forall q q', s :: r = q ++ q' -> navS (obj P) q <> None -> exists l, navS (obj P) q = obj l) as Upo.
  { intros q q' E Hq. destruct q as [|x q]; [by eexists|]. by apply (Up (x :: q) q' E). }
  destruct (navS (obj P) (s :: r)) as [v|] eqn:Ev.
  - destruct (Up (s :: r) [] ltac:(by rewrite app_nil_r) ltac:(done) ltac:(by rewrite Ev)) as [(k & q2 & a & r2 & Hk & Ek & Hq) [l Hl]].
    rewrite (mview_inner _ _ _ l Hl).
    + rewrite (nav_strip q2 _ (s :: r) []) by (by apply strip_swap). cbn [navS].
      destruct (navS (obj rt) q2) as [w|] eqn:Ew; [|done]. by destruct (bh_above _ _ _ _ Bh k q2 a r2 w Hk Ek Ew) as [? ->].
    + intros q a' r' E. apply (Upo q (a' :: r') E). intros En. rewrite E in Hl. by rewrite (nav_under _ _ _ En) in Hl.
  - transitivity (lval (navS (obj cl) (s :: r))); [|by apply (bh_rest _ _ _ _ Bh)]. apply mview_off; [|done|].
    + intros q q' E Hq l'. destruct q as [|x q]; [done|]. destruct (Hq (x :: q) []) as [l Hl]; [by rewrite app_nil_r|].
      destruct (Up (x :: q) q' E) as [(k & q2 & a & r2 & Hk & Ek & Hs) _]; [done|by rewrite Hl|].
      apply strip_swap in Hs. rewrite (nav_strip _ _ _ _ Hs). by apply (bh_client _ _ _ _ Bh k q2 a r2).
    + intros q q' v E Hq. destruct (Upo q q' E) as [l Hl]; [by rewrite Hq|]. rewrite Hl in Hq. injection Hq as <-. by eexists.
Qed.

Lemma patch_view s r : shown s -> mview (JNode false P) (obj cl) (s :: r) = lval (navS (obj rt) (s :: r)).
Proof using Bh Ap Pa.
  intros Sh. destruct (decide (Exists (fun k => strip k (s :: r) <> None) ks)) as [Ex|No].
  - apply Exists_exists in Ex as (k & Hk & Hs). destruct (strip k (s :: r)) as [rest|] eqn:E; [|done]. by apply (patch_under _ k rest).
  - apply patch_elsewhere; [done|]. intros k Hk. destruct (strip k (s :: r)) eqn:E; [|done]. destruct No. apply Exists_exists. exists k. by rewrite E.
Qed.

(** The client has no array in the way. *)
Lemma patch_no_array ss : no_array (JNode false P) (obj cl) ss.
Proof using Bh Pa.
  intros q r _ Hq l'. destruct q as [|x q]; [done|]. set (p := x :: q) in *.
  assert (forall k, k ∈ ks -> strip k p = None) as Off.
  { intros k Hk. destruct (strip k p) as [rest|] eqn:Es; [|done]. destruct (strip_split _ _ _ Es) as (k' & Ep & Hk'). exfalso.
    destruct (Hq k' rest Ep) as [l Hl]. rewrite (pc_at _ _ _ Pa k k' [] Hk Hk') in Hl. cbn [navS] in Hl. injection Hl as Hl.
    unfold current in Hl. destruct (navS (obj rt) k) as [v|] eqn:Ev; cbn in Hl; [|done]. subst v. by apply (bh_leaf _ _ _ _ Bh k l). }
  destruct (Hq p []) as [l Hl]; [by rewrite app_nil_r|].
  destruct (patch_leads p p [] Off) as [(k & q2 & a & r2 & Hk & Ek & Hs) _]; [by rewrite app_nil_r|done|by rewrite Hl|].
  apply strip_swap in Hs. rewrite (nav_strip _ _ _ _ Hs). by apply (bh_client _ _ _ _ Bh k q2 a r2).
Qed.
End Reads.
End View.

(** The walk gives every changed key once. *)
Class KeyOrderLaws (KO : KeyOrder) := { walk_all s : walk s ≡ₚ elements s }.

Section Flush.
Context {D E : Type} `{CJ : CJson} `{L : !CJsonLaws CJ} `{SR : SdbRouter D} `{MD : MirrorDb D} `{LK : DcLink E}.
Context `{KO : KeyOrder} `{KL : !KeyOrderLaws KO} (cparse : bytes -> option json) `{W : !JsonWire CJ cparse}.
Notation oget := (kget cj_same).
Abbreviation obj l := (Some (JNode false l)).

(** The changed keys as paths of the tree, none of them in a record store. *)
Record tree_keys (c : cfg_st D) (m : mirror) (ks : list (list bytes)) : Prop := {
  tk_set : elements (dcDirtyKeys m) ≡ₚ map path_of ks;
  tk_segs : Forall (fun k => k <> [] /\ Forall good_seg k /\ Forall str_ok k) ks;
  tk_apart : apart ks;
  tk_tree k : k ∈ ks -> mirrorRoute (db c) (path_of k) = None
}.

Lemma fold_patched (c : cfg_st D) m kl : jgood (JNode false (cfgRoot c)) ->
  Forall (fun k => k <> [] /\ Forall good_seg k /\ Forall str_ok k) kl -> (forall k, k ∈ kl -> mirrorRoute (db c) (path_of k) = None) ->
  forall ks P, apart (kl ++ ks) -> patched (current (cfgRoot c)) ks P ->
  patched (current (cfgRoot c)) (rev kl ++ ks) (foldl (patchOne c m) P (map path_of kl)).
Proof using L.
  intros G F. induction F as [|k kl (N & Fg & Fs) _ IH]; intros R ks P A Pa; [done|]. cbn [map foldl rev app] in *. destruct A as [A1 A2].
  rewrite <- app_assoc. cbn [app]. apply IH; [intros k' H; apply R; by right| |].
  - apply (apart_perm (k :: kl ++ ks)); [by rewrite Permutation_middle|by split].
  - unfold patchOne, dcResolveKey. rewrite R by (by left). rewrite navigatePath_ok by done. fold (root c). unfold root.
    assert (patched (current (cfgRoot c)) (k :: ks) (navigateOrCreate P (path_of k) (put_leaf (current (cfgRoot c) k))).1) as H.
    { apply patch_step; try done.
      - unfold current. destruct (navS (obj (cfgRoot c)) k) as [v|] eqn:Ev; [by apply (jgood_nav _ _ _ G Ev)|done].
      - intros k' H. apply (proj1 (Forall_forall _ _) A1 k'). apply elem_of_app. by right. }
    unfold current in *. destruct (navS (obj (cfgRoot c)) k); [by rewrite cj_dup|exact H].
Qed.

Lemma buildPatch_ok c m ks : jgood (JNode false (cfgRoot c)) -> tree_keys c m ks ->
  patched (current (cfgRoot c)) ks (buildPatch c m).
Proof using L KL.
  intros G [T1 T2 T3 T4]. pose proof (walk_all (dcDirtyKeys m)) as P. rewrite T1 in P.
  apply Permutation_map_inv in P as (kl & Ew & P). unfold buildPatch. rewrite Ew.
  assert (forall k, k ∈ rev kl ++ [] <-> k ∈ ks) as In by (intros k; by rewrite app_nil_r, <- Permutation_rev, P).
  destruct (fold_patched c m kl G ltac:(by rewrite <- P) ltac:(intros k H; apply T4; by rewrite P) [] []) as [P1 P2 P3 P4].
  - rewrite app_nil_r. by apply (apart_perm ks).
  - apply patched_nil.
  - constructor; [done|..].
    + intros k ss rest H. apply P2. by apply In.
    + intros ss H (k & Hk & Hs). apply P3; [intros k' H'; apply H; by apply In|exists k; split; [by apply In|done]].
    + intros ss N H. apply P4; [done|]. intros k Hk. apply H. by apply In.
Qed.

Lemma packLoop_pending kv : forall m b est, dcDumpPending (packLoop kv m b est) = dcDumpPending m.
Proof.
  assert (forall m t, dcDumpPending (enqueueText m t) = dcDumpPending m) as Pp by (intros m [t|]; done).
  assert (forall m b est, dcDumpPending (emitBatch m b est).1.1 = dcDumpPending m) as Pe by (intros m [|c b] est; [done|apply Pp]).
  induction kv as [|[k v] kv IH]; intros m b est; cbn [packLoop]; [apply Pe|].
  destruct (navigateOrCreate b k _) as [b' [|]]; cbn [negb]; [|apply IH]. destruct (_ <=? _); [|apply IH].
  pose proof (Pe m b' (est + Zlen k + Zlen v + 8)) as H. destruct (emitBatch m b' _) as [[m' b2] est2]. rewrite IH. exact H.
Qed.

Lemma reload_pending (d : D) m : dcDumpPending (dcReloadMirroredStores d m) = dcDumpPending m.
Proof.
  unfold dcReloadMirroredStores. generalize (mirroredInsts d ++ dcOpenPrefixes m) as l. intros l. revert m.
  induction l as [|p l IH]; intros m; [done|]. cbn [foldl]. rewrite IH. unfold dcQueueReload. destruct (forEachUnder d p); [|done].
  rewrite packLoop_pending. unfold dcQueueClear. destruct (navigateOrCreate _ _ _) as [cl [|]]; [|done].
  by destruct (cJSON_PrintUnformatted _).
Qed.

(** C12: a patch brings the client up to date. When leaves or arrays of the tree changed, or
    were deleted, and the client is otherwise up to date, a flush builds one message, for
    whatever order the set of keys is walked in: it is too large and a new dump is asked
    for, or the link has no room and nothing is lost, or it is sent and forgotten only if
    the link took all of it, and a client that merges it reads the device's value at every
    path. The changed keys are keys of the tree, in no record store, and none is a prefix of
    another ([tree_keys]); each is now a leaf, an array or gone, with objects above it on the
    device and no array above it in the client, which is up to date elsewhere ([behind]).
    With keys inside one another or inside an array the order of the walk matters. *)
Theorem flush_updates_client (c : cfg_st D) m e ks cl shown :
  0 <= dcHandle m -> dcMirrorLost m = false -> itsSpacesAvailable e (dcHandle m) <> 0 -> ks <> [] ->
  jgood (JNode false (cfgRoot c)) -> jgood (JNode false cl) -> tree_keys c m ks -> behind (cfgRoot c) cl ks shown ->
  exists t, cJSON_PrintUnformatted (JNode false (buildPatch c m)) = Some t /\ let '(m', e') := dcFlushPatch c m e in
    (itsSendBufSize e (dcHandle m) < Zlen t /\ dcDumpPending m' = true /\ e' = e) \/
    (itsSpacesAvailable e (dcHandle m) < Zlen t /\ m' = m /\ e' = e) \/
    (Zlen t <= itsSendBufSize e (dcHandle m) /\ Zlen t <= itsSpacesAvailable e (dcHandle m) /\ e' = (itsSend e (dcHandle m) t).2 /\
     dcDirtyKeys m' = (if (itsSend e (dcHandle m) t).1 =? Zlen t then ∅ else dcDirtyKeys m) /\
     forall s r, shown s ->
       lval (navS (obj (receive cparse cl t)) (s :: r)) = lval (navS (obj (cfgRoot c)) (s :: r))).
Proof using L W KL.
  intros Hh Hl Hs Hk G Gc T B. pose proof (buildPatch_ok c m ks G T) as P.
  destruct (jw_print (cparse := cparse) _ (pc_good _ _ _ P)) as [t Ht]. exists t. split; [done|]. unfold dcFlushPatch.
  assert (exists k kr, ks = k :: kr) as (k0 & kr & Ek) by (destruct ks as [|k kr]; [done|by eexists _, _]).
  assert (dcDirtyKeys m <> ∅) as Nd.
  { intros Ed. pose proof (tk_set _ _ _ T) as X. rewrite Ed, elements_empty, Ek in X. by apply Permutation_nil in X. }
  rewrite (proj2 (Z.ltb_ge _ _) Hh), bool_decide_false, Hl, (proj2 (Z.eqb_neq _ _) Hs) by done. cbn [andb negb].
  assert (buildPatch c m <> []) as Np.
  { intros Ep. pose proof (proj1 (Forall_forall _ _) (tk_segs _ _ _ T) k0 ltac:(rewrite Ek; by left)) as (N & _ & _).
    pose proof (pc_at _ _ _ P k0 k0 [] ltac:(rewrite Ek; by left)) as H. rewrite Ep in H. specialize (H ltac:(pose proof (strip_self k0 []) as X; by rewrite app_nil_r in X)).
    destruct k0 as [|s r]; [done|]. by rewrite nav_obj, navS_None in H. }
  destruct (buildPatch c m) as [|x p] eqn:Ep; [done|]. rewrite <- Ep in *. rewrite Ht.
  destruct (Z.ltb_spec (itsSendBufSize e (dcHandle m)) (Zlen t)); [left; split; [done|]; by rewrite reload_pending|].
  destruct (Z.ltb_spec (itsSpacesAvailable e (dcHandle m)) (Zlen t)); [right; by left|].
  destruct (itsSend e (dcHandle m) t) as [n e'] eqn:Es. cbn [fst snd]. right. right. split; [done|]. split; [done|]. split; [done|]. split; [by destruct (n =? Zlen t)|].
  intros s r Sh. unfold receive. rewrite (jw_parse (cparse := cparse) _ _ (pc_good _ _ _ P) Ht). cbn [norm].
  rewrite <- (patch_view _ cl ks shown _ B (tk_apart _ _ _ T) P s r Sh), <- mview_norm by apply P. cbn [norm].
  set (B' := map _ (buildPatch c m)).
  change (obj (deepMerge (JNode false B') cl)) with (merge1 deepMerge (norm (JNode false (buildPatch c m))) (obj cl)).
  pose proof (pc_good _ _ _ P) as Gp. apply merge_view; [exact (norm_good _ Gp)|exact Gc|]. apply (no_array_norm _ _ _ Gp). by eapply patch_no_array.
Qed.
End Flush.
