(* ===== verification/MirrorGate.v ===== *)
(** * storage: what the client cannot write

    A patch of the client becomes one write per leaf; none of them reaches the secrets,
    provided the patch spells that name as the gate expects it. *)

From stdpp Require Import gmap.
From S2P Require Import Prelude CLib Config ConfigTree ConfigOps ConfigSet Persist PersistTree PersistSet Mirror.
Import Tree Ops Subs Actor Mirror Patch Inbound.
Open Scope Z_scope.
Open Scope spangap_scope.

(** ** The first segment of a key *)

Fixpoint skipDots (p : bytes) : bytes :=
  match p with c :: p' => if c =? chr "." then skipDots p' else p | [] => [] end.
Fixpoint upto (p : bytes) : bytes :=
  match p with c :: p' => if c =? chr "." then [] else c :: upto p' | [] => [] end.
Definition headSeg (p : bytes) : bytes := upto (skipDots p).

Lemma upto_app p q : upto (p ++ chr "." :: q) = upto p.
Proof. induction p as [|c p IH]; [done|]. cbn [app upto]. by rewrite IH. Qed.

Lemma headSeg_app p q : headSeg p <> [] -> headSeg (p ++ chr "." :: q) = headSeg p.
Proof.
  unfold headSeg. induction p as [|c p IH]; [done|]. cbn [app skipDots]. destruct (c =? chr ".") eqn:E; [done|]. intros _.
  change (c :: p ++ chr "." :: q) with ((c :: p) ++ chr "." :: q). apply upto_app.
Qed.

Lemma segment_upto p : exists dot rest, segment p = (upto p, dot, rest) /\ (upto p = [] -> p <> [] -> headSeg rest = headSeg p) /\ (length rest <= pred (length p))%nat.
Proof.
  assert (match strchr p (chr ".") with Some (seg, rest) => seg = upto p /\ p = seg ++ chr "." :: rest | None => p = upto p end) as H.
  { destruct (strchr p (chr ".")) as [[seg rest]|] eqn:E.
    - apply strchr_Some in E as [-> Hn]. split; [|done]. rewrite upto_app. clear -Hn. induction seg as [|c seg IH]; [done|]. cbn [upto].
      apply not_elem_of_cons in Hn as [H1 H2]. rewrite (proj2 (Z.eqb_neq _ _)) by done. by rewrite <- IH.
    - apply strchr_None in E. clear -E. induction p as [|c p IH]; [done|]. cbn [upto]. apply not_elem_of_cons in E as [H1 H2].
      rewrite (proj2 (Z.eqb_neq _ _)) by done. by rewrite <- IH. }
  unfold segment. destruct (strchr p (chr ".")) as [[seg rest]|].
  - destruct H as [H1 H2]. exists true, rest. split; [by rewrite H1|]. rewrite <- H1. split; [|rewrite H2, length_app; cbn [length]; lia].
    intros -> _. by rewrite H2.
  - exists false, []. split; [by rewrite <- H|]. split; [intros H'; by rewrite H' in H|cbn; lia].
Qed.

Section Gate.
Context {D E : Type} `{CJ : CJson} `{L : !CJsonLaws CJ} `{SR : SdbRouter D} `{MD : MirrorDb D} `{LK : DcLink E} `{KO : KeyOrder}.
Context (storageHandle mirrorCb : Z).
Notation oget := (kget cj_same).
Notation same := cj_same.
Notation hst := (host D E).
(** A write to a record store notifies its own key. *)
Context (SN : forall (d : D) op k vs sil d' ch dt, sdbApplyOpLocked d op k vs sil = Some (d', ch, dt) -> Forall (fun c => c.1 = k) ch).

(** A patch for one key has its first segment, and nothing else. *)
Lemma navCreate_head v p : forall fuel, (length p <= fuel)%nat ->
  (navCreate fuel [] p (put_leaf v)).1 = [] \/ exists w, (navCreate fuel [] p (put_leaf v)).1 = [(Some (headSeg p), w)] /\ headSeg p <> [].
Proof.
  induction p as [p IH] using (induction_ltof1 _ length). unfold ltof in IH. intros fuel Hf.
  destruct p as [|c p']; [left; by destruct fuel|]. destruct fuel as [|f]; [cbn in Hf; lia|]. set (p := c :: p') in *.
  change (navCreate (S f) [] p (put_leaf v)) with
    (let '(seg, dot, rest) := segment p in
      if Zlen seg =? 0 then navCreate f [] rest (put_leaf v)
      else if SEG_SIZE <=? Zlen seg then ([], false)
      else if negb (dot : bool) then (put_leaf v [] (trunc 96 seg), true)
      else match cJSON_find [] seg with
        | None => let '(c, r) := navCreate f [] rest (put_leaf v) in (cJSON_AddItemToObject [] seg (JNode false c), r)
        | Some i => match [] !! i with
            | Some (nm, JNode b l) => let '(c, r) := navCreate f l rest (put_leaf v) in (<[i := (nm, JNode b c)]> [], r)
            | _ => let '(c, r) := navCreate f [] rest (put_leaf v) in
                (cJSON_AddItemToObject (cJSON_DeleteItemFromObject [] seg) seg (JNode false c), r) end end).
  destruct (segment_upto p) as (dot & rest & -> & H1 & H2). cbn [pred length] in H2, Hf.
  destruct (Z.eqb_spec (Zlen (upto p)) 0) as [Z|Z].
  - apply Zlen_zero in Z. rewrite <- (H1 Z ltac:(done)). apply IH; unfold p in *; cbn [length pred] in *; lia.
  - assert (headSeg p = upto p) as ->.
    { unfold headSeg, p in *. cbn [skipDots]. destruct (c =? chr ".") eqn:Ec; [|done]. cbn [upto] in Z. by rewrite Ec in Z. }
    assert (upto p <> []) as Nu by (intros H'; by rewrite H' in Z).
    destruct (Z.leb_spec SEG_SIZE (Zlen (upto p))); [by left|]. destruct dot; cbn [negb].
    + rewrite cj_find. cbn [kpos]. destruct (navCreate f [] rest (put_leaf v)) as [k r]. rewrite cj_add. right. by eexists.
    + right. exists v. split; [|done]. cbn [fst]. unfold put_leaf. rewrite cj_del, cj_add. cbn [kpos app]. do 3 f_equal.
      unfold trunc. apply take_ge. unfold Zlen, SEG_SIZE in *. lia.
Qed.

(** ** One write *)

(** Every change under a path has the path's first segment. *)
Lemma collect_head node cap : forall path, headSeg path <> [] ->
  Forall (fun c => headSeg c.1 = headSeg path) (collectChanges cap path node).
Proof.
  induction node as [| | | |b l IH] using json_rect'; intros path N; try done. cbn [collectChanges]. generalize 0 as idx.
  induction IH as [|[nm item] r Hi _ IHr]; intros idx; [done|]. apply Forall_app. split; [|apply IHr].
  set (p := join_path path (default (sdec idx) nm)).
  assert (headSeg p = headSeg path) as Ep.
  { unfold p, join_path. destruct (Z.eqb_spec (Zlen path) 0) as [Z|]; [apply Zlen_zero in Z; by subst path|]. by apply headSeg_app. }
  destruct (_ <=? _); [done|]. rewrite <- Ep in N. rewrite <- Ep.
  destruct item as [| | | |[|] l]; cbn; try done; try (by apply Forall_singleton). by apply Hi.
Qed.

Lemma headSeg_idem k : headSeg (headSeg k) = headSeg k.
Proof.
  unfold headSeg. assert (forall p, upto (upto p) = upto p) as U.
  { induction p as [|c p IH]; [done|]. cbn [upto]. destruct (c =? chr ".") eqn:Ec; [done|]. cbn [upto]. by rewrite Ec, IH. }
  destruct (skipDots k) as [|c p] eqn:Es; [done|].
  assert ((c =? chr ".") = false) as Ec.
  { clear -Es. induction k as [|x k IH]; [done|]. cbn [skipDots] in Es. destruct (x =? chr ".") eqn:Ex; [by apply IH|]. by injection Es as -> ->. }
  cbn [upto]. rewrite Ec. cbn [skipDots]. rewrite Ec. cbn [upto]. by rewrite Ec, U.
Qed.

Lemma patch_heads hd w : headSeg hd = hd -> hd <> [] ->
  Forall (fun c => headSeg c.1 = hd) (collectChanges 128 [] (JNode false [(Some hd, w)])).
Proof.
  intros Eh N. cbn [collectChanges]. rewrite app_nil_r. unfold join_path. change (Zlen [] =? 0) with true. cbn iota. cbn [default id].
  destruct (_ <=? _); [done|]. pose proof (collect_head w 128 hd ltac:(by rewrite Eh)) as H. rewrite Eh in H.
  destruct w as [| | | |[|] l]; cbn; try done; by apply Forall_singleton.
Qed.

(** The keys of the calls a notification makes inline. *)
Definition note_key (n : notify) : option bytes := match n with Call _ key _ => Some key | Send _ _ => None end.

Lemma note_keys (P : bytes -> Prop) sh subs (ch : list (bytes * bytes)) : Forall (fun c => P c.1) ch ->
  Forall (fun n => match note_key n with Some k => P k | None => True end) (concat (map (fun c => notifyChange sh subs c.1 c.2) ch)).
Proof.
  intros F. apply Forall_concat, Forall_map. eapply Forall_impl; [exact F|]. intros [k v] Hk. cbn [fst snd] in *. unfold notifyChange.
  apply Forall_concat, Forall_map, Forall_true. intros r. unfold notifyRow. destruct (is_dead r); [done|]. destruct (_ && _); [done|].
  destruct (_ || _); [destruct (_ =? _); [done|by apply Forall_singleton]|]. destruct (s_task r); [by apply Forall_singleton|done].
Qed.

(** The key of an op on the tree. *)
Definition aop_key (a : aop) : option bytes :=
  match a with A_int _ k _ | A_str _ k _ | A_json _ k _ => Some k | A_del k => Some k | _ => None end.

Lemma apply_head (c : cfg_st D) sil o k : p_key o = k -> is_sub_op o = false ->
  let st := foldl (applyOne sil) {| p2_cfg := c; p2_patch := []; p2_changes := []; p2_dirty := false |} [o] in
  cfgRoot (p2_cfg st) = cfgRoot c /\ (p2_patch st = [] \/ exists w, p2_patch st = [(Some (headSeg k), w)] /\ headSeg k <> []) /\
  Forall (fun ch => headSeg ch.1 = headSeg k) (p2_changes st).
Proof using L SN.
  intros Ko So. cbn [foldl]. unfold applyOne. rewrite So. cbn [p2_cfg].
  destruct (sdbApplyOpLocked _ _ _ _ _) as [[[d ch] dt]|] eqn:Ed.
  { split; [done|]. split; [by left|]. cbn [p2_changes app]. apply SN in Ed. eapply Forall_impl; [exact Ed|]. cbn. intros x ->. by rewrite Ko. }
  assert (forall v, (navigateOrCreate [] (p_key o) (put_leaf v)).1 = [] \/
    exists w, (navigateOrCreate [] (p_key o) (put_leaf v)).1 = [(Some (headSeg k), w)] /\ headSeg k <> []) as Nv
    by (intros v; rewrite Ko; unfold navigateOrCreate; by apply navCreate_head).
  unfold applyTree. cbn [p2_cfg p2_patch p2_changes]. destruct (p_op o =? chr "D"); [by split; [|split; [apply Nv|]]|].
  destruct (p_val o) as [v|]; [|by split; [|split; [left|]]]. destruct (navigatePath _ _) as [cur|]; [|by split; [|split; [apply Nv|]]].
  destruct (if p_op o =? chr "d" then is_leaf cur else same_value cur v); [by split; [|split; [left|]]|by split; [|split; [apply Nv|]]].
Qed.

Lemma single_write (c : cfg_st D) silent a k name sender sh : aop_ok a -> aop_key a = Some k -> Zlen (encode_op a) < 2 ^ 32 - 1 ->
  uniq (cfgRoot c) -> same (headSeg k) name = false ->
  exists c' n, commit c silent [encode_op a] sender sh = Some (c', n) /\ uniq (cfgRoot c') /\ oget (cfgRoot c') name = oget (cfgRoot c) name /\
    Forall (fun x => match note_key x with Some key => headSeg key = headSeg k | None => True end) n.
Proof using L SN.
  intros Ha Hk Hl U Hn. unfold commit. cbn [concat]. rewrite app_nil_r.
  pose proof (encode_op_length a) as Hel. destruct (encode_op a) as [|x body] eqn:Ee; [cbn in Hel; lia|]. rewrite <- Ee in *.
  unfold storageApplyOps. rewrite <- (app_nil_r (encode_op a)). change (encode_op a ++ []) with (concat (map encode_op [a])).
  rewrite (parseOps_ok [a]);
    [|by constructor|rewrite Zlen_cons; cbn [map concat]; rewrite app_nil_r; pose proof (Zlen_nonneg (encode_op a)); lia|apply encodes_length].
  cbn [mbind option_bind map]. set (flag := if silent then OP_F_SILENT else 0). set (sil := negb (Z.land flag OP_F_SILENT =? 0)).
  assert (exists o, lefts [op_of a] = [o] /\ p_key o = k /\ is_sub_op o = false) as (o & -> & Ko & So).
  { destruct a; cbn in Hk; try done; injection Hk as ->; eexists; (split; [done|split; [done|]]); cbn in Ha; unfold is_sub_op; cbn [p_op];
      try (by destruct Ha as [[-> | ->] _]); done. }
  set (st := foldl (applyOne sil) {| p2_cfg := c; p2_patch := []; p2_changes := []; p2_dirty := false |} [o]).
  destruct (apply_head c sil o k Ko So) as (Er & Ep & Ec). fold st in Er, Ep, Ec.
  destruct (finishOps_root st sil [o] sender sh) as [R _].
  assert (Forall (fun x => match note_key x with Some key => headSeg key = headSeg k | None => True end) (finishOps st sil [o] sender sh).2) as Hnotes.
  { unfold finishOps. cbn [snd]. apply note_keys. apply Forall_app. split; [done|]. destruct sil; [done|].
    destruct Ep as [->|(w & -> & Nh)]; [done|]. apply patch_heads; [apply headSeg_idem|done]. }
  destruct (finishOps st sil [o] sender sh) as [c' notes]. cbn [fst snd] in R, Hnotes.
  eexists _, _. split; [done|]. unfold root in R. injection R as R. cbn [cfgRoot with_sems]. rewrite R, Er.
  assert (uniq (p2_patch st)) as Up by (by destruct Ep as [->|(w & -> & _)]).
  destruct (merge_spec false (p2_patch st) (cfgRoot c) Up U) as [M Um]. split; [done|]. split; [|done]. rewrite M.
  destruct Ep as [->|(w & -> & _)]; [done|]. cbn [kget]. by rewrite Hn.
Qed.

(** ** The writes of a patch *)

(** What cJSON's parser gives: the members of objects have names without NUL, numbers fit
    the int of a node. *)
Fixpoint msg_ok (j : json) : Prop :=
  match j with
  | JNum v => - 2 ^ 31 <= v < 2 ^ 31
  | JNode b l =>
      (fix all (l : kids) : Prop :=
        match l with [] => True | c :: r => (b = false -> exists n, c.1 = Some n /\ 0 ∉ n) /\ msg_ok c.2 /\ all r end) l
  | _ => True
  end.

(** A write that stays clear of the secrets. *)
Definition clear_write (w : bool * list bytes) : Prop :=
  w.2 = [] \/ exists a k, w.2 = [encode_op a] /\ aop_ok a /\ aop_key a = Some k /\ same (headSeg k) ($ "secrets") = false.

Definition joinKey (prefix nm : bytes) : bytes := if Zlen prefix =? 0 then nm else prefix ++ $ "." ++ nm.

Definition writeOf (key : bytes) (item : json) : option (list (bool * list bytes)) :=
  if readOnly key then Some []
  else match item with
       | JNull => Some [(true, [opAppendDelete key])]
       | JNode false _ => mergeIncomingPatch item key
       | JNode true _ => Some [(false, storageSetTree key (cJSON_Duplicate (None, item)).2)]
       | JNum v => Some [(false, [opAppendKVInt (chr "S") key v])]
       | JStr s => Some [(false, [opAppendKV (chr "S") key s])]
       | JBool _ => Some []
       end.

Lemma merge_cons b nm item r prefix : mergeIncomingPatch (JNode b ((Some nm, item) :: r)) prefix =
  (ws ← writeOf (joinKey prefix nm) item; ws' ← mergeIncomingPatch (JNode b r) prefix; Some (ws ++ ws')).
Proof. done. Qed.

Lemma writeOf_clear key item : 0 ∉ key -> same (headSeg key) ($ "secrets") = false -> msg_ok item ->
  (forall l, item = JNode false l -> exists ws, mergeIncomingPatch item key = Some ws /\ Forall clear_write ws) ->
  exists ws, writeOf key item = Some ws /\ Forall clear_write ws.
Proof using L.
  intros K Hs M H. unfold writeOf. destruct (readOnly key); [by exists []|].
  assert (forall sil a, aop_ok a -> aop_key a = Some key -> Forall clear_write [(sil, [encode_op a])]) as One.
  { intros sil a Ha Hk. apply Forall_singleton. right. by exists a, key. }
  destruct item as [|b|v|s|[|] l]; [eexists; split; [done|]..|by apply (H l)].
  - apply (One true (A_del key)); done.
  - done.
  - apply (One false (A_int (chr "S") key v)); [|done]. split_and!; [by left|done|apply M..].
  - rewrite opAppendKV_encode. destruct (inferType s); [apply (One false (A_int (chr "S") key (atoi s)))|apply (One false (A_str (chr "S") key s))]; try done.
    + split_and!; [by left|done|apply atoi_range..].
    + split; [by left|done].
  - apply Forall_singleton. unfold storageSetTree. destruct (cJSON_PrintUnformatted _) as [js|]; [right|by left].
    exists (A_json (chr "S") key js), key. split_and!; [done| |done|done]. split; [by left|done].
Qed.

Lemma merge_clear j : forall prefix, msg_ok j -> (exists l, j = JNode false l) -> 0 ∉ prefix -> headSeg prefix <> [] ->
  same (headSeg prefix) ($ "secrets") = false -> exists ws, mergeIncomingPatch j prefix = Some ws /\ Forall clear_write ws.
Proof using L.
  induction j as [| | | |b l IH] using json_rect'; intros prefix M (l0 & E0) K Hh Hs; try done. injection E0 as -> <-.
  induction IH as [|[nm item] r Hi _ IHr]; [by exists []|]. destruct M as (N & Mi & M). destruct (N eq_refl) as (n & En & Kn). cbn in En. subst nm.
  rewrite merge_cons. assert (joinKey prefix n = prefix ++ chr "." :: n) as ->.
  { unfold joinKey. destruct (Z.eqb_spec (Zlen prefix) 0) as [Z|]; [|done]. apply Zlen_zero in Z. by subst prefix. }
  destruct (writeOf_clear (prefix ++ chr "." :: n) item) as (ws & -> & F); [|by rewrite headSeg_app|done|..].
  - apply not_elem_of_app. split; [done|]. apply not_elem_of_cons. by split.
  - intros l ->. apply Hi; [done|by eexists| |by rewrite headSeg_app..]. apply not_elem_of_app. split; [done|]. apply not_elem_of_cons. by split.
  - destruct (IHr M) as (ws' & -> & F'). eexists. split; [done|]. apply Forall_app. by split.
Qed.

(** Under the name itself every key is one the gate knows. *)
Lemma merge_secrets l : msg_ok (JNode false l) -> mergeIncomingPatch (JNode false l) ($ "secrets") = Some [].
Proof.
  induction l as [|[nm item] r IH]; [done|]. intros (N & _ & M). destruct (N eq_refl) as (n & En & _). cbn in En. subst nm.
  rewrite merge_cons, IH by done. unfold writeOf, readOnly, isSecret, joinKey.
  rewrite (proj2 (has_prefix_true _ _)); [done|]. exists n. done.
Qed.

(** A member of the message that means the secrets spells their name, and is an object. *)
Definition spelled (n : bytes) (v : json) : Prop :=
  headSeg n <> [] /\ (same (headSeg n) ($ "secrets") = true -> n = $ "secrets" /\ exists l, v = JNode false l).

Lemma merge_top l : msg_ok (JNode false l) -> (forall n v, (Some n, v) ∈ l -> spelled n v) ->
  exists ws, mergeIncomingPatch (JNode false l) [] = Some ws /\ Forall clear_write ws.
Proof using L.
  induction l as [|[nm item] r IH]; [by exists []|]. intros (N & Mi & M) S. destruct (N eq_refl) as (n & En & Kn). cbn in En. subst nm.
  rewrite merge_cons. change (joinKey [] n) with n. destruct (S n item ltac:(by left)) as [Hh Hs].
  destruct (IH M) as (ws' & -> & F'); [intros n' v' H; apply S; by right|].
  destruct (same (headSeg n) ($ "secrets")) eqn:E1.
  - destruct (Hs eq_refl) as (-> & l & ->). cbn [snd] in Mi. exists ws'. unfold writeOf. change (readOnly ($ "secrets")) with false. cbn iota.
    by rewrite merge_secrets.
  - destruct (writeOf_clear n item Kn E1 Mi) as (ws & -> & F); [intros l ->; apply merge_clear; try done; by eexists|].
    eexists. split; [done|]. apply Forall_app. by split.
Qed.

(** ** What a message does *)

Lemma notes_cfg (n : list notify) : forall h : hst, cfg (foldl (deliverNote mirrorCb) h n) = cfg h.
Proof. induction n as [|x n IH]; intros h; [done|]. cbn [foldl]. rewrite IH. destruct x; [|done]. unfold deliverNote. by destruct (_ =? _). Qed.

(** The changes noted for the mirror. *)
Definition clear_key (k : bytes) : Prop := same (headSeg k) ($ "secrets") = false.

Definition noted (m : mirror) (n : list notify) : mirror :=
  foldl (fun m x => match x with Call cb key _ => if cb =? mirrorCb then dcAccumulateChange m key else m | Send _ _ => m end) m n.

Lemma notes_mir (n : list notify) : forall h : hst, mir (foldl (deliverNote mirrorCb) h n) = noted (mir h) n /\ link (foldl (deliverNote mirrorCb) h n) = link h.
Proof.
  induction n as [|x n IH]; intros h; [done|]. cbn [foldl]. destruct (IH (deliverNote mirrorCb h x)) as [E1 E2]. unfold noted. cbn [foldl].
  rewrite E1, E2. destruct x; [|done]. unfold deliverNote. by destruct (_ =? _).
Qed.

Lemma writes_clear (P : mirror -> Prop) ws :
  (forall m k, P m -> clear_key k -> P (dcAccumulateChange m k)) ->
  forall h : hst, Forall clear_write ws -> Forall (fun w => Zlen (concat w.2) < 2 ^ 32 - 1) ws -> uniq (cfgRoot (cfg h)) -> P (mir h) ->
  exists h', applyWrites storageHandle mirrorCb (Some storageHandle) h ws = Some h' /\ uniq (cfgRoot (cfg h')) /\
    oget (cfgRoot (cfg h')) ($ "secrets") = oget (cfgRoot (cfg h)) ($ "secrets") /\ P (mir h') /\ link h' = link h.
Proof using L SN.
  intros HP. induction ws as [|[sil ops] ws IH]; intros h F Z U Hm; [by exists h|]. apply Forall_cons in F as [F1 F]. apply Forall_cons in Z as [Z1 Z].
  unfold clear_write in F1. cbn [applyWrites fst snd] in *. unfold applyWrite. cbn [fst snd].
  assert (exists c n, commit (cfg h) sil ops (Some storageHandle) (Some storageHandle) = Some (c, n) /\ uniq (cfgRoot c) /\
    oget (cfgRoot c) ($ "secrets") = oget (cfgRoot (cfg h)) ($ "secrets") /\
    Forall (fun x => match note_key x with Some key => clear_key key | None => True end) n) as (c & n & -> & Uc & Ec & Hn).
  { destruct F1 as [->|(a & k & -> & A1 & A2 & A3)]; [by exists (cfg h), []|]. cbn [concat] in Z1. rewrite app_nil_r in Z1.
    destruct (single_write (cfg h) sil a k ($ "secrets") (Some storageHandle) (Some storageHandle) A1 A2 Z1 U A3) as (c & n & H1 & H2 & H3 & H4).
    exists c, n. split_and!; try done. eapply Forall_impl; [exact H4|]. intros x. cbn beta. destruct (note_key x) as [key|]; [|done]. unfold clear_key. intros Ek. by rewrite Ek. }
  cbn [mbind option_bind]. set (h0 := {| cfg := c; mir := mir h; link := link h; saveRequests := saveRequests h; sentNotes := sentNotes h |}).
  set (h1 := foldl _ _ n). assert (cfg h1 = c) as E1 by (unfold h1; by rewrite notes_cfg).
  destruct (notes_mir n h0) as [E2 E3]. fold h1 in E2, E3.
  assert (P (mir h1)) as Hm1.
  { rewrite E2. change (mir h0) with (mir h). clear -Hn Hm HP. revert Hm. generalize (mir h) as m. unfold noted. induction Hn as [|x n Hx _ IH]; intros m Hm; [done|].
    cbn [foldl]. apply IH. destruct x; [|done]. destruct (_ =? _); [by apply HP|done]. }
  destruct (IH h1 F Z ltac:(by rewrite E1) Hm1) as (h' & E' & Gu & G1 & G2 & G3). exists h'. split; [done|]. split; [done|].
  split; [by rewrite G1, E1|]. split; [done|]. by rewrite G3, E3.
Qed.

(** A message the parser makes something of: not an array, members spelled, values that fit
    an op. *)
Definition fine_msg (text : bytes) : Prop :=
  match cJSON_ParseWithLength text with
  | Some j =>
      msg_ok j /\ (forall l, j <> JNode true l) /\ (forall l n v, j = JNode false l -> (Some n, v) ∈ l -> spelled n v) /\
      (forall ws, mergeIncomingPatch j [] = Some ws -> Forall (fun w => Zlen (concat w.2) < 2 ^ 32 - 1) ws)
  | None => True
  end.

(** The writes of such a message. *)
Lemma fine_writes text j : fine_msg text -> cJSON_ParseWithLength text = Some j ->
  exists ws, mergeIncomingPatch j [] = Some ws /\ Forall clear_write ws /\ Forall (fun w => Zlen (concat w.2) < 2 ^ 32 - 1) ws.
Proof using L.
  unfold fine_msg. intros H Ej. rewrite Ej in H. destruct H as (M & Na & S & Z). destruct j as [| | | |[|] l]; try (by exists []); [by destruct (Na l)|].
  destruct (merge_top l M) as (ws & E1 & F); [intros n v; by apply S|]. exists ws. split_and!; [done|done|by apply Z].
Qed.

End Gate.
