(* ===== verification/MirrorInv.v ===== *)
(** * storage: what may reach the client, and in what order

    An invariant of the mirror over everything that happens to it: writes of other tasks,
    passes of the storage task, the off-actor build, connections. Nothing that reaches the
    wire names the secrets; the backlog and the open instances stay bounded. And the pump
    sends the queue in order. The router of SdbRoute.v meets what the invariant asks of the
    record stores. *)

From stdpp Require Import gmap relations.
From S2P Require Import Prelude CLib Config ConfigTree ConfigOps ConfigSet Persist PersistTree PersistSet Mirror MirrorDump MirrorPatch MirrorGate.
Import Tree Ops Subs Actor Dump Mirror Patch Inbound.
Open Scope Z_scope.
Open Scope spangap_scope.

(** What its promises about a send without waiting: the whole message or nothing, in
    order, on that handle alone; the largest message is a property of the link. *)
Class DcLinkLaws (E : Type) `{LK : DcLink E} := {
  wire : E -> Z -> list bytes;
  wire_send e h t n e' : itsSend e h t = (n, e') -> wire e' h = wire e h ++ (if n =? Zlen t then [t] else []);
  wire_other e h h' t n e' : itsSend e h t = (n, e') -> h' <> h -> wire e' h' = wire e h';
  wire_buf e h t n e' : itsSend e h t = (n, e') -> itsSendBufSize e' h = itsSendBufSize e h
}.

Section Pump.
Context {E : Type} `{LK : DcLink E} `{LL : !DcLinkLaws E}.

(** What is queued and not yet sent. *)
Definition owed (m : mirror) : list bytes := drop (dcDumpPos m) (dcDumpQueue m).

(** A message the link can carry at all. *)
Definition fits (cap : Z) (t : bytes) : bool := (cap =? 0) || (Zlen t + 4 <=? cap).

(** [m'] is [m] with the queue somewhere else. *)
Definition same_but_queue (m m' : mirror) : Prop := exists q pos, m' = with_queue m q pos.

Lemma pumpLoop_ok fuel : forall m e m' e', (dcDumpPos m <= length (dcDumpQueue m))%nat -> pumpLoop fuel m e = (m', e') ->
  exists sent, owed m = sent ++ owed m' /\
    wire e' (dcHandle m) = wire e (dcHandle m) ++ filter (fun t => fits (itsSendBufSize e (dcHandle m)) t = true) sent /\
    (forall h, h <> dcHandle m -> wire e' h = wire e h) /\
    same_but_queue m m' /\ dcDumpQueue m' = dcDumpQueue m /\ (dcDumpPos m' <= length (dcDumpQueue m))%nat.
Proof using LL.
  assert (forall m e, exists sent, owed m = sent ++ owed m /\
    wire e (dcHandle m) = wire e (dcHandle m) ++ filter (fun t => fits (itsSendBufSize e (dcHandle m)) t = true) sent /\
    (forall h, h <> dcHandle m -> wire e h = wire e h) /\ same_but_queue m m /\ dcDumpQueue m = dcDumpQueue m) as Stay.
  { intros m e. exists []. split_and!; [done|by rewrite app_nil_r|done|exists (dcDumpQueue m), (dcDumpPos m); by destruct m|done]. }
  induction fuel as [|f IH]; intros m e m' e' Hp; cbn [pumpLoop].
  { intros [= <- <-]. destruct (Stay m e) as (x & ? & ? & ? & ? & ?). exists x. by split_and!. }
  destruct (dcDumpQueue m !! dcDumpPos m) as [chunk|] eqn:Ec.
  2: { intros [= <- <-]. destruct (Stay m e) as (x & ? & ? & ? & ? & ?). exists x. by split_and!. }
  pose proof (lookup_lt_Some _ _ _ Ec) as Hlt. assert (owed m = chunk :: drop (S (dcDumpPos m)) (dcDumpQueue m)) as Eo by (unfold owed; by apply drop_S).
  set (m1 := with_queue m (dcDumpQueue m) (S (dcDumpPos m))). assert (owed m = chunk :: owed m1) as Eo1 by exact Eo.
  cbn zeta. set (cap := itsSendBufSize e (dcHandle m)).
  assert (negb (cap =? 0) && (cap <? Zlen chunk + 4) = negb (fits cap chunk)) as Ef.
  { unfold fits. rewrite negb_orb. f_equal. by rewrite Z.ltb_antisym. }
  rewrite Ef. destruct (fits cap chunk) eqn:Fc; cbn [negb].
  - destruct (itsSpacesAvailable e (dcHandle m) <? Zlen chunk).
    { intros [= <- <-]. destruct (Stay m e) as (x & ? & ? & ? & ? & ?). exists x. by split_and!. }
    destruct (itsSend e (dcHandle m) chunk) as [n e1] eqn:Es. pose proof (wire_send _ _ _ _ _ Es) as Hw.
    destruct (n =? Zlen chunk) eqn:En; cbn [negb].
    + intros H. destruct (IH m1 e1 m' e' ltac:(cbn; lia) H) as (sent & I1 & I2 & I3 & (q & pos & I4) & I5 & I6). change (dcHandle m1) with (dcHandle m) in *.
      exists (chunk :: sent). split_and!; [by rewrite Eo1, I1| |intros h Hh; by rewrite I3, (wire_other _ _ _ _ _ _ Es Hh)|exists q, pos; by rewrite I4|done|done].
      rewrite I2, Hw, (wire_buf _ _ _ _ _ Es). fold cap. rewrite filter_cons_True by done. by rewrite <- app_assoc.
    + intros [= <- <-]. rewrite app_nil_r in Hw. exists []. split_and!; [done|by rewrite app_nil_r|intros h Hh; by apply (wire_other _ _ _ _ _ _ Es)|
        exists (dcDumpQueue m), (dcDumpPos m); by destruct m|done|done].
  - intros H. destruct (IH m1 e m' e' ltac:(cbn; lia) H) as (sent & I1 & I2 & I3 & (q & pos & I4) & I5 & I6). change (dcHandle m1) with (dcHandle m) in *.
    exists (chunk :: sent). split_and!; [by rewrite Eo1, I1| |done|exists q, pos; by rewrite I4|done|done].
    rewrite I2. fold cap. rewrite filter_cons_False by (by rewrite Fc). done.
Qed.

(** What a pump may send: what was owed, and behind it a build that is done and of this
    session. *)
Definition adopted (m : mirror) : list bytes :=
  if dumpBuilding m && dumpDone m && (dumpBuildGen m =? dumpGen m) then dumpStaging m else [].

(** C15: the pump sends the queue in order. What a pass puts on the wire and what it still owes
    are together what was owed before, followed by the dump just built if it was built for
    this session: nothing is sent twice, out of order or dropped, but for messages larger
    than the link's buffer; and while something is owed no patch is sent. *)
Theorem pump_in_order m e spawned m' e' : 0 <= dcHandle m -> (dcDumpPos m <= length (dcDumpQueue m))%nat ->
  dcPumpDump m e spawned = (m', e') ->
  exists sent, owed m ++ adopted m = sent ++ owed m' /\
    wire e' (dcHandle m) = wire e (dcHandle m) ++ filter (fun t => fits (itsSendBufSize e (dcHandle m)) t = true) sent /\
    (forall h, h <> dcHandle m -> wire e' h = wire e h) /\
    (dcDumpPos m' <= length (dcDumpQueue m'))%nat /\
    (owed m' <> [] -> dcDumpInProgress m' = true).
Proof using LL.
  intros Hh Hp. unfold dcPumpDump. rewrite (proj2 (Z.ltb_ge _ _) Hh). set (m1 := kickBuild m spawned). set (m2 := adoptBuild m1).
  assert (dcHandle m2 = dcHandle m /\ owed m2 = owed m ++ adopted m /\ (dcDumpPos m2 <= length (dcDumpQueue m2))%nat) as (H1 & H2 & H3).
  { assert (dcHandle m1 = dcHandle m /\ dcDumpQueue m1 = dcDumpQueue m /\ dcDumpPos m1 = dcDumpPos m /\
      (dumpBuilding m = true -> m1 = m) /\ (dumpBuilding m = false -> dumpBuilding m1 && dumpDone m1 = false \/ m1 = m)) as (K1 & K2 & K3 & K4 & K5).
    { unfold m1, kickBuild. destruct (dcDumpPending m); cbn [andb]; [|split_and!; auto]. destruct (dumpBuilding m) eqn:Eb; cbn [negb]; [split_and!; by auto|].
      split_and!; try done. intros _. left. by destruct spawned. }
    unfold m2, adoptBuild, adopted. destruct (dumpBuilding m) eqn:Eb; cbn [andb].
    - rewrite K4, Eb by done. cbn [andb]. destruct (dumpDone m); cbn [andb]; [|by rewrite app_nil_r].
      rewrite (proj2 (Z.leb_le _ _) Hh), andb_true_r. destruct (dumpBuildGen m =? dumpGen m); [|by rewrite app_nil_r].
      unfold owed. destruct (dcDumpQueue m) as [|x q] eqn:Eq.
      + cbn in Hp. assert (dcDumpPos m = 0%nat) as -> by lia. cbn [app drop]. split_and!; [done|done|cbn; lia].
      + cbn [dcHandle with_build with_pending with_queue dcDumpPos dcDumpQueue]. split_and!; [done|by rewrite drop_app_le|rewrite length_app; lia].
    - rewrite app_nil_r. destruct (K5 eq_refl) as [-> | ->]; [|rewrite Eb; cbn [andb]; by split_and!].
      unfold owed. by rewrite K1, K2, K3. }
  destruct (pumpLoop (S (length (dcDumpQueue m2))) m2 e) as [m3 e3] eqn:El. destruct (pumpLoop_ok _ _ _ _ _ H3 El) as (sent & I1 & I2 & I3 & _ & I5 & I6).
  rewrite H1, H2 in *. intros H. exists sent.
  assert (e' = e3 /\ owed m' = owed m3 /\ (dcDumpPos m' <= length (dcDumpQueue m'))%nat) as (-> & E1 & E2).
  { destruct (dcDumpQueue m3) as [|x q] eqn:E3; [injection H as <- <-; split_and!; [done|done|by rewrite E3, I5]|].
    destruct (Nat.leb_spec (length (x :: q)) (dcDumpPos m3)) as [Hl|Hl]; injection H as <- <-; split_and!; try done; [|rewrite E3; lia].
    unfold owed at 2. rewrite E3, drop_ge by done. done. }
  rewrite E1. split_and!; [done|done|done|done|]. intros N. unfold dcDumpInProgress. apply orb_true_iff. right. apply Nat.ltb_lt.
  rewrite <- E1 in N. unfold owed in N. destruct (decide (length (dcDumpQueue m') <= dcDumpPos m')%nat); [by rewrite drop_ge in N|lia].
Qed.
End Pump.

(** ** What may reach the wire *)

Section Safe.
Context {D E : Type} `{CJ : CJson} `{L : !CJsonLaws CJ} `{SR : SdbRouter D} `{MD : MirrorDb D} `{LK : DcLink E} `{LL : !DcLinkLaws E}.
Context `{KO : KeyOrder} `{KL : !KeyOrderLaws KO}.
Notation oget := (kget cj_same).
Notation same := cj_same.
Notation hst := (host D E).
Abbreviation clear := (clear_key (L := L)).

(** Record stores none of which lies under the secrets, whatever is written to them; a
    write notifies its own key. *)
Record stores_clear (Safe : D -> Prop) : Prop := {
  sc_notes d op k vs sil d' ch dt : sdbApplyOpLocked d op k vs sil = Some (d', ch, dt) -> Forall (fun c => c.1 = k) ch;
  sc_keeps d op k vs sil d' ch dt : sdbApplyOpLocked d op k vs sil = Some (d', ch, dt) -> Safe d -> Safe d';
  sc_route d p b : Safe d -> mirrorRoute d p = Some b -> clear p;
  sc_each d p kv : Safe d -> forEachUnder d p = Some kv -> clear p -> Forall (fun x => clear x.1) kv;
  sc_insts d : Safe d -> Forall clear (mirroredInsts d)
}.
Context (Safe : D -> Prop) (SC : stores_clear Safe).

(** A message that does not name the secrets. *)
Definition public (t : bytes) : Prop :=
  t = DUMP_BEGIN \/ t = DUMP_END \/ t = PONG \/ exists B, cJSON_PrintUnformatted (JNode false B) = Some t /\ oget B ($ "secrets") = None.

Record mirror_within (n : Z) (m : mirror) : Prop := {
  mo_queue : Forall public (dcDumpQueue m);
  mo_staging : Forall public (dumpStaging m);
  mo_pos : (dcDumpPos m <= length (dcDumpQueue m))%nat;
  mo_dirty k : k ∈ dcDirtyKeys m -> clear k;
  mo_backlog : Z.of_nat (size (dcDirtyKeys m)) <= DC_DIRTY_MAX;
  mo_open : Forall clear (dcOpenPrefixes m);
  mo_open_len : Zlen (dcOpenPrefixes m) <= n;
  mo_open_nodup : NoDup (dcOpenPrefixes m)
}.
Abbreviation mirror_ok := (mirror_within DC_OPEN_MAX).

(** ** Trees built key by key *)

Lemma kget_delete_other l k i k' : kpos same l k = Some i -> same k k' = false -> oget (delete i l) k' = oget l k'.
Proof.
  revert i. induction l as [|[[m|] x] l IH]; intros i; cbn [kpos]; [done| |].
  - destruct (same m k) eqn:Sm.
    + intros [= <-] H. cbn [delete list_delete kget]. by rewrite (same_subst _ _ k' Sm), H.
    + destruct (kpos same l k) as [j|]; [|done]. cbn [option_map]. intros [= <-] H.
      change (delete (S j) ((Some m, x) :: l)) with ((Some m, x) :: delete j l). cbn [kget]. by rewrite (IH j eq_refl H).
  - destruct (kpos same l k) as [j|]; [|done]. cbn [option_map]. intros [= <-] H.
    change (delete (S j) ((None, x) :: l)) with ((@None bytes, x) :: delete j l). cbn [kget]. by apply IH.
Qed.

Lemma kget_del_other l k k' : same k k' = false -> oget (cJSON_DeleteItemFromObject l k) k' = oget l k'.
Proof. intros H. rewrite cj_del. destruct (kpos same l k) eqn:Ep; [by apply (kget_delete_other _ _ _ _ Ep)|done]. Qed.

Lemma kget_add_other l k v k' : same k k' = false -> oget (cJSON_AddItemToObject l k v) k' = oget l k'.
Proof. intros H. rewrite cj_add, oget_app. cbn [kget]. rewrite H. by destruct (oget l k'). Qed.

Lemma put_other v l k k' : same k k' = false -> oget (put_leaf v l k) k' = oget l k'.
Proof. intros H. unfold put_leaf. by rewrite kget_add_other, kget_del_other. Qed.

(** [navigateOrCreate] leaves alone what is under another first segment. *)
Lemma navCreate_other k name p : (forall l leaf, same leaf name = false -> oget (k l leaf) name = oget l name) -> same (headSeg p) name = false ->
  forall fuel nd, oget (navCreate fuel nd p k).1 name = oget nd name.
Proof.
  intros Hk. induction p as [p IH] using (induction_ltof1 _ length). unfold ltof in IH. intros Hs fuel nd.
  destruct p as [|c p']; [by destruct fuel|]. destruct fuel as [|f]; [done|]. set (p := c :: p') in *.
  change (navCreate (S f) nd p k) with
    (let '(seg, dot, rest) := segment p in
      if Zlen seg =? 0 then navCreate f nd rest k
      else if SEG_SIZE <=? Zlen seg then (nd, false)
      else if negb (dot : bool) then (k nd (trunc 96 seg), true)
      else match cJSON_find nd seg with
        | None => let '(c, r) := navCreate f [] rest k in (cJSON_AddItemToObject nd seg (JNode false c), r)
        | Some i => match nd !! i with
            | Some (nm, JNode b l) => let '(c, r) := navCreate f l rest k in (<[i := (nm, JNode b c)]> nd, r)
            | _ => let '(c, r) := navCreate f [] rest k in
                (cJSON_AddItemToObject (cJSON_DeleteItemFromObject nd seg) seg (JNode false c), r) end end).
  destruct (segment_upto p) as (dot & rest & -> & H1 & H2).
  destruct (Z.eqb_spec (Zlen (upto p)) 0) as [Z|Z].
  - apply Zlen_zero in Z. apply IH; [unfold p in *; cbn [length pred] in *; lia|]. by rewrite (H1 Z).
  - assert (headSeg p = upto p) as Eh.
    { unfold headSeg, p in *. cbn [skipDots]. destruct (c =? chr ".") eqn:Ec; [|done]. cbn [upto] in Z. by rewrite Ec in Z. }
    rewrite Eh in Hs. destruct (Z.leb_spec SEG_SIZE (Zlen (upto p))); [done|].
    assert (trunc 96 (upto p) = upto p) as Et by (unfold trunc; apply take_ge; unfold Zlen, SEG_SIZE in *; lia).
    destruct dot; cbn [negb]; [|rewrite Et; by apply Hk]. rewrite cj_find. destruct (kpos same nd (upto p)) as [i|] eqn:Ep.
    + destruct (kpos_Some _ _ _ Ep) as (n & w & Hi & _ & _). rewrite Hi.
      destruct w as [| | | |b l];
        try (destruct (navCreate f [] rest k) as [c0 r]; cbn [fst]; by rewrite kget_add_other, kget_del_other).
      destruct (navCreate f l rest k) as [c0 r]. cbn [fst]. by rewrite (oget_set _ _ _ _ _ _ _ Ep Hi), Hs.
    + destruct (navCreate f [] rest k) as [c0 r]. cbn [fst]. by rewrite kget_add_other.
Qed.

Lemma print_public B t : oget B ($ "secrets") = None -> cJSON_PrintUnformatted (JNode false B) = Some t -> public t.
Proof. intros H P. right. right. right. by exists B. Qed.

(** ** The operations *)

Lemma ok_queue n m q pos : mirror_within n m -> Forall public q -> (pos <= length q)%nat -> mirror_within n (with_queue m q pos).
Proof. intros [] Hq Hp. by constructor. Qed.

Lemma ok_dirty m s lost : mirror_ok m -> s ⊆ dcDirtyKeys m -> mirror_ok (with_dirty m s lost).
Proof.
  intros [] Hs. constructor; try done; cbn [dcDirtyKeys with_dirty]; [intros k Hk; by apply mo_dirty0, Hs|].
  apply subseteq_size in Hs. lia.
Qed.

Lemma ok_pending m b : mirror_ok m -> mirror_ok (with_pending m b).
Proof. intros []. by constructor. Qed.

Lemma ok_change m k : mirror_ok m -> clear k \/ isSecret k = true -> mirror_ok (dcAccumulateChange m k).
Proof.
  intros M Hk. unfold dcAccumulateChange. destruct (_ <? 0); [done|]. destruct (isSecret k); [done|]. destruct Hk as [Hk|]; [|done].
  destruct (dcMirrorLost m); [done|]. destruct (Z.leb_spec DC_DIRTY_MAX (Z.of_nat (size (dcDirtyKeys m)))) as [Hl|Hl]; [apply ok_dirty; [done|set_solver]|].
  destruct M. constructor; try done; cbn [dcDirtyKeys with_dirty].
  - intros k' Hk'. apply elem_of_union in Hk' as [->%elem_of_singleton|H]; [done|by apply mo_dirty0].
  - pose proof (size_union_alt {[k]} (dcDirtyKeys m)) as Hz. rewrite size_singleton in Hz.
    pose proof (subseteq_size (dcDirtyKeys m ∖ {[k]}) (dcDirtyKeys m) ltac:(set_solver)). lia.
Qed.

Lemma ok_push n m t : mirror_within n m -> match t with Some t => public t | None => True end -> mirror_within n (enqueueText m t).
Proof.
  intros M H. destruct t as [t|]; [|done]. apply ok_queue; [done|apply Forall_app; split; [apply M|by apply Forall_singleton]|].
  rewrite length_app. destruct M. lia.
Qed.

Lemma ok_clear n m p : mirror_within n m -> clear p -> mirror_within n (dcQueueClear m p).
Proof.
  intros M Hp. unfold dcQueueClear.
  pose proof (navCreate_other (fun l leaf => cJSON_AddItemToObject l leaf JNull) ($ "secrets") p ltac:(intros; by apply kget_add_other) Hp (length p) []) as H.
  unfold navigateOrCreate. destruct (navCreate _ _ _ _) as [c [|]]; [|done]. apply ok_push; [done|]. cbn [fst] in H.
  destruct (cJSON_PrintUnformatted _) eqn:Et; [by apply (print_public c)|done].
Qed.

Lemma ok_emit m b est : mirror_ok m -> oget b ($ "secrets") = None -> mirror_ok (emitBatch m b est).1.1 /\ oget (emitBatch m b est).1.2 ($ "secrets") = None.
Proof.
  intros M Hb. destruct b as [|x b]; [done|]. split; [|done]. cbn [emitBatch fst]. apply ok_push; [done|].
  destruct (cJSON_PrintUnformatted _) eqn:Et; [by apply (print_public (x :: b))|done].
Qed.

Lemma ok_pack kv : forall m b est, mirror_ok m -> oget b ($ "secrets") = None -> Forall (fun x => clear x.1) kv -> mirror_ok (packLoop kv m b est).
Proof.
  induction kv as [|[k v] kv IH]; intros m b est M Hb F; cbn [packLoop]; [by apply ok_emit|]. apply Forall_cons in F as [Fk F]. cbn [fst] in Fk.
  pose proof (navCreate_other (put_leaf (JStr (c_str v))) ($ "secrets") k ltac:(intros; by apply put_other) Fk (length k) b) as H.
  unfold navigateOrCreate. destruct (navCreate _ _ _ _) as [b' [|]]; cbn [negb fst] in *; rewrite Hb in H; [|by apply IH].
  destruct (_ <=? _); [|by apply IH]. destruct (ok_emit m b' (est + Zlen k + Zlen v + 8) M H) as [A B].
  destruct (emitBatch m b' _) as [[m' b2] est2]. by apply IH.
Qed.

Lemma ok_reload d m p : Safe d -> mirror_ok m -> clear p -> mirror_ok (dcQueueReload d m p).
Proof using SC KL.
  intros Sd M Hp. unfold dcQueueReload. destruct (forEachUnder d p) as [kv|] eqn:Ek; [|done].
  apply ok_pack; [|done|by apply (sc_each _ SC d p)]. apply ok_clear; [|done]. apply ok_dirty; [done|]. intros k Hk.
  by apply elem_of_filter in Hk as [_ Hk].
Qed.

Lemma ok_reload_all d m : Safe d -> mirror_ok m -> mirror_ok (dcReloadMirroredStores d m).
Proof using SC KL.
  intros Sd M. unfold dcReloadMirroredStores. assert (Forall clear (mirroredInsts d ++ dcOpenPrefixes m)) as F
    by (apply Forall_app; split; [by apply (sc_insts _ SC)|apply M]).
  revert F M. generalize (mirroredInsts d ++ dcOpenPrefixes m) as l. intros l F. revert m. induction F as [|p l Hp _ IH]; intros m M; [done|].
  cbn [foldl]. by apply IH, ok_reload.
Qed.

Lemma eraseFirst_spec p l : NoDup l -> eraseFirst p l = List.filter (fun x => negb (streq x p)) l /\ (p ∈ l -> (length l = S (length (eraseFirst p l)))%nat).
Proof.
  induction 1 as [|x l Hx N IH]; [split; [done|by intros H%elem_of_nil]|]. cbn [eraseFirst List.filter]. destruct (streq x p) eqn:Es; cbn [negb].
  - apply streq_true in Es as ->. split; [|done]. clear -Hx. induction l as [|y l IH]; [done|]. apply not_elem_of_cons in Hx as [H1 H2]. cbn [List.filter].
    destruct (streq y p) eqn:Es; [by apply streq_true in Es as ->|]. cbn [negb]. f_equal. by apply IH.
  - destruct IH as [IH1 IH2]. split; [by rewrite IH1|]. intros H. apply elem_of_cons in H as [->|H]; [by rewrite (proj2 (streq_true x x)) in Es|].
    cbn [length]. by rewrite IH2.
Qed.

Lemma filter_out p l : p ∉ List.filter (fun x => negb (streq x p)) l.
Proof.
  induction l as [|x l IH]; [by intros H%elem_of_nil|]. cbn [List.filter]. destruct (streq x p) eqn:Es; cbn [negb]; [done|].
  intros H. apply elem_of_cons in H as [->|H]; [|done]. by rewrite (proj2 (streq_true x x)) in Es.
Qed.

Lemma filter_sub (f : bytes -> bool) l : sublist (List.filter f l) l.
Proof. induction l as [|x l IH]; [done|]. cbn [List.filter]. destruct (f x); by constructor. Qed.

Lemma filter_Forall (P : bytes -> Prop) (f : bytes -> bool) l : Forall P l -> Forall P (List.filter f l).
Proof. induction 1 as [|x l Hx _ IH]; [done|]. cbn [List.filter]. destruct (f x); [by constructor|done]. Qed.

Lemma close_ok fuel : forall n m, mirror_within n m -> n <= DC_OPEN_MAX + Z.of_nat fuel -> mirror_ok (closeOldest fuel m).
Proof.
  induction fuel as [|f IH]; intros n m M Hn; cbn [closeOldest].
  { destruct M. constructor; try done. lia. }
  destruct (last (dcOpenPrefixes m)) as [p|] eqn:Ep.
  2: { apply last_None in Ep. destruct M. constructor; try done. rewrite Ep. done. }
  destruct (Z.ltb_spec DC_OPEN_MAX (Zlen (dcOpenPrefixes m))) as [Hl|Hl]; [|destruct M; by constructor].
  assert (clear p) as Hp.
  { destruct M. apply last_Some_elem_of in Ep. by apply (proj1 (Forall_forall _ _) mo_open0). }
  pose proof (ok_clear _ _ p M Hp) as M'. set (m1 := dcQueueClear m p) in *.
  assert (dcOpenPrefixes m1 = dcOpenPrefixes m) as Eo.
  { unfold m1, dcQueueClear. destruct (navigateOrCreate _ _ _) as [c [|]]; [|done]. by destruct (cJSON_PrintUnformatted _). }
  apply (IH (n - 1)); [|lia]. destruct M'. constructor; try done; cbn [dcOpenPrefixes with_open].
  - by apply Forall_take.
  - rewrite Zlen_take. unfold Zlen, DC_OPEN_MAX in *. rewrite Eo in mo_open_len0 |- *. lia.
  - eapply sublist_NoDup; [exact mo_open_nodup0|]. apply sublist_take.
Qed.

Lemma ok_openAdd m p : mirror_ok m -> clear p -> mirror_ok (dcOpenAdd m p).
Proof.
  intros M Hp. unfold dcOpenAdd. pose proof M as [M1 M2 M3 M4 M5 M6 M7 M8]. destruct (eraseFirst_spec p _ M8) as [Ee _]. rewrite Ee.
  set (l := List.filter _ _). assert (sublist l (dcOpenPrefixes m)) as Sl by apply filter_sub.
  apply (close_ok _ (DC_OPEN_MAX + 1)); [|cbn [length]; lia]. constructor; try done; cbn [dcOpenPrefixes with_open].
  - apply Forall_cons. split; [done|]. by apply filter_Forall.
  - rewrite Zlen_cons. apply sublist_length in Sl. unfold Zlen in *. lia.
  - apply NoDup_cons. split; [apply filter_out|]. by apply (sublist_NoDup _ _ M8).
Qed.

Lemma ok_ship d m p : Safe d -> mirror_ok m -> mirror_ok (dcShipStorePrefix d m p).
Proof using SC KL.
  intros Sd M. unfold dcShipStorePrefix. destruct (mirrorRoute d p) as [b|] eqn:Er; [|done]. pose proof (sc_route _ SC _ _ _ Sd Er) as Hp.
  apply ok_reload; [done| |done]. destruct b; [done|]. by apply ok_openAdd.
Qed.

(** A change of the wire that only adds what is public. *)
Definition sends (e e' : E) : Prop := forall h, exists ts, wire e' h = wire e h ++ ts /\ Forall public ts.

Lemma wireSends_refl e : sends e e.
Proof. intros h. exists []. by rewrite app_nil_r. Qed.

Lemma wireSends_trans e1 e2 e3 : sends e1 e2 -> sends e2 e3 -> sends e1 e3.
Proof.
  intros A B h. destruct (A h) as (t1 & H1 & F1), (B h) as (t2 & H2 & F2). exists (t1 ++ t2). rewrite app_assoc, H2, H1. split; [done|]. by apply Forall_app.
Qed.

Lemma send_public e h t n e' : itsSend e h t = (n, e') -> public t -> sends e e'.
Proof using LL KL.
  intros Es Ht h'. destruct (decide (h' = h)) as [->|N].
  - exists (if n =? Zlen t then [t] else []). split; [by apply wire_send|]. destruct (_ =? _); [by apply Forall_singleton|done].
  - exists []. rewrite app_nil_r. split; [by eapply wire_other|done].
Qed.

Lemma patch_public (c : cfg_st D) m : mirror_ok m -> oget (buildPatch c m) ($ "secrets") = None.
Proof using KL.
  intros M. unfold buildPatch. assert (Forall clear (walk (dcDirtyKeys m))) as F.
  { apply Forall_forall. intros k Hk. rewrite (walk_all (dcDirtyKeys m)) in Hk. apply elem_of_elements in Hk. by apply M. }
  assert (forall P, oget P ($ "secrets") = None -> oget (foldl (patchOne c m) P (walk (dcDirtyKeys m))) ($ "secrets") = None) as H; [|by apply H].
  induction F as [|k l Hk _ IH]; intros P HP; [done|]. cbn [foldl]. apply IH. unfold patchOne. destruct (dcResolveKey c m k) as [v|]; [|done].
  unfold navigateOrCreate. rewrite navCreate_other; [done|intros; by apply put_other|done].
Qed.

Lemma ok_flush (c : cfg_st D) m e m' e' : Safe (db c) -> mirror_ok m -> dcFlushPatch c m e = (m', e') -> mirror_ok m' /\ sends e e'.
Proof using KL LL SC.
  intros Sd M. unfold dcFlushPatch. pose proof (wireSends_refl e) as R.
  assert (mirror_ok (with_dirty m ∅ false)) as Me by (apply ok_dirty; [done|set_solver]).
  assert (mirror_ok (dcReloadMirroredStores (db c) (with_pending (with_dirty m ∅ false) true))) as Mr by (by apply ok_reload_all, ok_pending).
  destruct (_ <? 0); [by intros [= <- <-]|]. destruct (_ && _); [by intros [= <- <-]|]. destruct (_ =? 0); [by intros [= <- <-]|].
  destruct (dcMirrorLost m); [by intros [= <- <-]|]. pose proof (patch_public c m M) as Hp.
  destruct (buildPatch c m) as [|x p]; [by intros [= <- <-]|]. destruct (cJSON_PrintUnformatted _) as [t|] eqn:Et; [|by intros [= <- <-]].
  destruct (_ <? _); [by intros [= <- <-]|]. destruct (_ <? _); [by intros [= <- <-]|]. destruct (itsSend e (dcHandle m) t) as [n e1] eqn:Es.
  intros [= <- <-]. split; [by destruct (_ =? _)|]. by eapply send_public, print_public.
Qed.

Lemma ok_pump m e spawned m' e' : mirror_ok m -> dcPumpDump m e spawned = (m', e') -> mirror_ok m' /\ sends e e'.
Proof using LL KL.
  intros M. unfold dcPumpDump. destruct (_ <? 0); [intros [= <- <-]; split; [done|apply wireSends_refl]|].
  assert (mirror_ok (kickBuild m spawned)) as M1.
  { unfold kickBuild. destruct (_ && _); [|done]. destruct M. by constructor. }
  assert (mirror_ok (adoptBuild (kickBuild m spawned))) as M2.
  { revert M1. generalize (kickBuild m spawned) as m1. clear. intros m M. unfold adoptBuild. destruct (_ && _); [|done].
    assert (forall m, mirror_ok m -> mirror_ok (with_build m [] false (dumpDone m) (dumpBuildGen m))) as B by (intros m0 []; by constructor).
    apply B. destruct (_ && _); [|done]. apply ok_pending. pose proof M as [M1 M2 M3 _ _ _ _ _]. destruct (dcDumpQueue m) as [|x q] eqn:Eq.
    - apply ok_queue; [done|done|lia].
    - apply ok_queue; [done|rewrite <- Eq in *; by apply Forall_app|rewrite length_app; lia]. }
  set (m2 := adoptBuild (kickBuild m spawned)) in *. clearbody m2. destruct (pumpLoop _ m2 e) as [m3 e3] eqn:El.
  destruct (pumpLoop_ok _ _ _ _ _ (mo_pos _ _ M2) El) as (sent & P1 & P2 & P3 & (q & pos & P4) & P5 & P6).
  assert (mirror_ok m3) as M3.
  { rewrite P4 in *. cbn [dcDumpQueue with_queue dcDumpPos] in *. subst q. by apply ok_queue; [|apply M2|]. }
  intros H. assert (e' = e3 /\ mirror_ok m') as [-> M'].
  { destruct (dcDumpQueue m3) as [|x q0]; [by injection H as <- <-|]. revert H. generalize (length (x :: q0) <=? dcDumpPos m3)%nat as b.
    intros b [= <- <-]. split; [done|]. destruct b; [by apply ok_queue|done]. }
  split; [done|]. intros h. destruct (decide (h = dcHandle m2)) as [->|N]; [|exists []; by rewrite app_nil_r, P3].
  eexists. split; [exact P2|]. assert (Forall public (owed m2)) as F by (unfold owed; apply Forall_drop; apply M2).
  rewrite P1 in F. apply Forall_app in F as [F _]. apply Forall_forall. intros t Ht. apply list_elem_of_filter in Ht as [_ Ht].
  by apply (proj1 (Forall_forall _ _) F).
Qed.

(** ** The actions *)

Context (cparse : bytes -> option json) `{W : !JsonWire CJ cparse} (storageHandle mirrorCb : Z) (id : identity).

(** The changes a committed write notifies the mirror of: of no secret, or of one under
    its name. *)
Definition spelled_notes (n : list notify) : Prop :=
  Forall (fun x => match note_key x with Some k => clear k \/ isSecret k = true | None => True end) n.

(** What happens to the mirror: a write of any task; a change of the tree or the stores
    that is not notified; a pass of the storage task; the build of a dump; the client
    connecting and leaving; the link passing messages on. *)
Inductive mstep : hst -> hst -> Prop :=
| ms_write sender w h h' : applyWrite storageHandle mirrorCb sender h w = Some h' ->
    (forall c n, commit (cfg h) w.1 w.2 sender (Some storageHandle) = Some (c, n) -> spelled_notes n) -> mstep h h'
| ms_other h c : mstep h {| cfg := c; mir := mir h; link := link h; saveRequests := saveRequests h; sentNotes := sentNotes h |}
| ms_pass h msgs spawned h' : uniq (cfgRoot (cfg h)) -> Safe (db (cfg h)) -> Forall (fine_msg (L := L)) msgs ->
    mirrorPass storageHandle mirrorCb h msgs spawned = Some h' -> mstep h h'
| ms_build h : jgood (JNode false (cfgRoot (cfg h))) -> oget (cfgRoot (cfg h)) ($ "fw") = None ->
    mstep h (with_mir h (dumpBuilderFn id (cfg h) (mir h)))
| ms_connect h hd : mstep h (with_mir h (storageItsConnect (mir h) hd).1)
| ms_disconnect h : mstep h (with_mir h (storageItsDisconnect (mir h)))
| ms_link h e : wire e = wire (link h) -> mstep h (with_link h e).

(** The mirror is well formed, and everything on the wire is public. *)
Definition host_ok (h : hst) : Prop := mirror_ok (mir h) /\ forall hd, Forall public (wire (link h) hd).

Lemma sends_ok (m : mirror) e e' : sends e e' -> (forall hd, Forall public (wire e hd)) -> forall hd, Forall public (wire e' hd).
Proof. intros S F hd. destruct (S hd) as (ts & -> & Ft). by apply Forall_app. Qed.

Lemma ok_noted n : forall m, mirror_ok m -> spelled_notes n -> mirror_ok (noted mirrorCb m n).
Proof.
  intros m M H. unfold noted. revert m M. induction H as [|x n Hx _ IH]; intros m M; [done|]. cbn [foldl]. apply IH.
  destruct x; [|done]. destruct (_ =? _); [by apply ok_change|done].
Qed.

Lemma ok_write sender w h h' : host_ok h -> applyWrite storageHandle mirrorCb sender h w = Some h' ->
  (forall c n, commit (cfg h) w.1 w.2 sender (Some storageHandle) = Some (c, n) -> spelled_notes n) -> host_ok h'.
Proof.
  intros [M F] Ew Hn. unfold applyWrite in Ew. destruct (commit _ _ _ _ _) as [[c n]|] eqn:Ec; [|done]. cbn [mbind option_bind] in Ew.
  injection Ew as <-. set (h0 := {| cfg := c; mir := mir h; link := link h; saveRequests := saveRequests h; sentNotes := sentNotes h |}).
  destruct (notes_mir mirrorCb n h0) as [E1 E2]. unfold host_ok. rewrite E1, E2. split; [|done]. apply ok_noted; [done|by eapply Hn].
Qed.

(** Writes keep the stores safe. *)
Lemma ops_safe s os : forall st : pass2 (D := D), Safe (db (p2_cfg st)) -> Safe (db (p2_cfg (foldl (applyOne s) st os))).
Proof using SC KL.
  induction os as [|o os IH]; intros st Hs; [done|]. cbn [foldl]. apply IH. unfold applyOne. destruct (is_sub_op o); [done|].
  destruct (sdbApplyOpLocked _ _ _ _ _) as [[[d ch] dt]|] eqn:Es; [by apply (sc_keeps _ SC _ _ _ _ _ _ _ _ Es)|].
  unfold applyTree. cbn zeta. by repeat case_match.
Qed.

Lemma commit_safe (c : cfg_st D) sil ops sender sh c' n : Safe (db c) -> commit c sil ops sender sh = Some (c', n) -> Safe (db c').
Proof using SC KL.
  intros Sd. unfold commit. destruct (concat ops) as [|x body]; [by intros [= <- <-]|]. unfold storageApplyOps.
  destruct (parseOps _ _ _) as [[[bad os] saves]|]; [|done]. cbn [mbind option_bind]. destruct bad; [by intros [= <- <-]|].
  set (s := negb _). destruct (finishOps_root (foldl (applyOne s) {| p2_cfg := c; p2_patch := []; p2_changes := []; p2_dirty := false |} os) s os sender sh) as [_ Ed].
  destruct (finishOps _ s os sender sh) as [c1 notes]. cbn [fst] in Ed. intros [= <- <-]. cbn [db with_sems]. rewrite Ed.
  by apply ops_safe.
Qed.

Lemma writes_safe ws : forall h h' : hst, Safe (db (cfg h)) -> applyWrites storageHandle mirrorCb (Some storageHandle) h ws = Some h' -> Safe (db (cfg h')).
Proof using SC KL.
  induction ws as [|w ws IH]; intros h h' Sd; cbn [applyWrites]; [by intros [= <-]|]. unfold applyWrite.
  destruct (commit _ _ _ _ _) as [[c n]|] eqn:Ec; [|done]. cbn [mbind option_bind]. apply IH. rewrite notes_cfg. cbn [cfg]. by apply (commit_safe _ _ _ _ _ _ _ Sd Ec).
Qed.

Record msg_ok_state (h : hst) : Prop := { hs_uniq : uniq (cfgRoot (cfg h)); hs_safe : Safe (db (cfg h)); hs_ok : host_ok h }.

Lemma ok_message h t : msg_ok_state h -> fine_msg (L := L) t ->
  exists h', dcHandleMessage storageHandle mirrorCb h t = Some h' /\ msg_ok_state h'.
Proof using SC LL KL.
  intros [U Sd [M F]] Ht. unfold dcHandleMessage. destruct (streq t PING).
  { destruct (itsSend (link h) (dcHandle (mir h)) PONG) as [n e] eqn:Es. eexists. split; [done|]. constructor; [done|done|]. split; [done|].
    apply (sends_ok (mir h) (link h)); [|done]. eapply send_public; [exact Es|]. right. right. by left. }
  destruct (streq t SAVE); [eexists; split; [done|]; by constructor|]. destruct (cJSON_ParseWithLength t) as [j|] eqn:Ej; [|eexists; split; [done|]; by constructor].
  assert (exists h', (ws ← mergeIncomingPatch j []; applyWrites storageHandle mirrorCb (Some storageHandle) h ws) = Some h' /\ msg_ok_state h') as P.
  { destruct (fine_writes t j Ht Ej) as (ws & Ew & Fw & Z). rewrite Ew. cbn [mbind option_bind].
    destruct (writes_clear (E := E) storageHandle mirrorCb (sc_notes _ SC) mirror_ok ws) with (h := h) as (h' & H1 & H2 & _ & H3 & H4); try done.
    { intros m k Hm Hk. apply ok_change; [done|by left]. }
    exists h'. split; [done|]. constructor; [done|by apply (writes_safe ws h)|]. split; [done|]. by rewrite H4. }
  destruct (cJSON_GetObjectItem j ($ "fetch")) as [[| | |p|]|]; try exact P. eexists. split; [done|]. constructor; [done|done|]. split; [|done].
  cbn [mir with_mir]. destruct (Zlen p =? 0); [|by apply ok_ship]. destruct M. constructor; try done; cbn [dcOpenPrefixes with_open]; constructor.
Qed.

Lemma ok_recv msgs : forall h, msg_ok_state h -> Forall (fine_msg (L := L)) msgs ->
  exists h', recvLoop storageHandle mirrorCb h msgs = Some h' /\ msg_ok_state h'.
Proof using SC LL KL.
  induction msgs as [|t msgs IH]; intros h Hs F; cbn [recvLoop]; [by exists h|]. apply Forall_cons in F as [Ft F].
  destruct (ok_message h t Hs Ft) as (h1 & -> & H1). cbn [mbind option_bind]. by apply IH.
Qed.

(** A pass returns, and keeps the invariant. *)
Lemma ok_pass h msgs spawned : msg_ok_state h -> Forall (fine_msg (L := L)) msgs ->
  exists h', mirrorPass storageHandle mirrorCb h msgs spawned = Some h' /\ host_ok h'.
Proof using SC LL KL.
  intros Hs F. unfold mirrorPass, dcPollConfig.
  assert (exists h1, (if dcHandle (mir h) <? 0 then Some h else recvLoop storageHandle mirrorCb h msgs) = Some h1 /\ msg_ok_state h1) as (h1 & -> & [U Sd [M Fw]])
    by (destruct (_ <? 0); [by exists h|by apply ok_recv]).
  cbn [mbind option_bind]. destruct (dcPumpDump (mir h1) (link h1) spawned) as [m2 e2] eqn:Ep. destruct (ok_pump _ _ _ _ _ M Ep) as [M2 S2].
  destruct (if dcDumpInProgress m2 then (m2, e2) else dcFlushPatch (cfg h1) m2 e2) as [m3 e3] eqn:Ef.
  eexists. split; [done|]. assert (mirror_ok m3 /\ sends e2 e3) as [M3 S3].
  { destruct (dcDumpInProgress m2); [injection Ef as <- <-; split; [done|apply wireSends_refl]|]. by apply (ok_flush (cfg h1) m2 e2). }
  split; [done|]. cbn [link with_link]. apply (sends_ok m2 (link h1)); [by eapply wireSends_trans|done].
Qed.

Lemma ok_build h : str_ok (fw_stub id) -> str_ok (fw_name id) -> str_ok (fw_banner id) ->
  host_ok h -> jgood (JNode false (cfgRoot (cfg h))) -> oget (cfgRoot (cfg h)) ($ "fw") = None ->
  host_ok (with_mir h (dumpBuilderFn id (cfg h) (mir h))).
Proof using W KL.
  intros I1 I2 I3 [M F] G Fw. split; [|done]. cbn [mir with_mir]. unfold dumpBuilderFn. destruct (_ && _); [|done].
  destruct (build_ok cparse id (cfgRoot (cfg h)) (clone_good cparse id _ G Fw I1 I2 I3)) as (cs & Ed & P & _). rewrite Ed.
  destruct M. constructor; try done. cbn [dumpStaging with_build]. apply Forall_app. split; [done|]. apply Forall_app. split; [by apply Forall_singleton; left|].
  apply Forall_app. split; [|apply Forall_singleton; right; by left]. eapply Forall_impl; [exact P|]. intros t Pt.
  apply jgood_node in G as (_ & U & _). destruct (part_public cparse id _ t (U eq_refl) Fw Pt) as (B & P1 & P2). by apply (print_public B).
Qed.

Lemma ok_step h h' : str_ok (fw_stub id) -> str_ok (fw_name id) -> str_ok (fw_banner id) -> mstep h h' -> host_ok h -> host_ok h'.
Proof using SC LL KL W.
  intros I1 I2 I3 S H. destruct S as [sender w h h' Ew Hn|h c|h msgs spawned h' U Sd Fm Ep|h G Fw|h hd|h|h e Ee].
  - by apply (ok_write sender w h).
  - destruct H. by split.
  - destruct (ok_pass h msgs spawned) as (h2 & E2 & H2); [by constructor|done|]. congruence.
  - by apply ok_build.
  - destruct H as [M F]. split; [|done]. cbn [mir with_mir]. unfold storageItsConnect. destruct (_ <=? _); [done|]. destruct M. by constructor.
  - destruct H as [M F]. split; [|done]. cbn [mir with_mir]. unfold storageItsDisconnect. destruct M.
    constructor; try done; cbn; constructor.
  - destruct H as [M F]. split; [done|]. cbn [link with_link]. by rewrite Ee.
Qed.

(** C11: nothing that names the secrets reaches the client while the secrets go by their name.
    Whatever sequence of writes, passes, dumps, connections and messages follows the start,
    each message on the wire is a bracket of a dump, a pong, or the text of an object
    without a member named secrets; the changed keys never exceed the backlog's limit, nor
    the open instances theirs. The sequences are those of [mstep]: a write notifies of keys
    that stay clear of the secrets or spell them as [isSecret] expects ([spelled_notes]; a
    write of Secrets.pw would get through), the client's messages are not arrays, spell
    the secrets that way and fit an op ([fine_msg]), the record stores stay clear of the
    secrets, and the tree has no fw of its own when a dump is built. *)
Theorem secrets_never_sent h0 h : str_ok (fw_stub id) -> str_ok (fw_name id) -> str_ok (fw_banner id) ->
  host_ok h0 -> rtc mstep h0 h ->
  (forall hd t, t ∈ wire (link h) hd -> public t) /\
  Z.of_nat (size (dcDirtyKeys (mir h))) <= DC_DIRTY_MAX /\
  Zlen (dcOpenPrefixes (mir h)) <= DC_OPEN_MAX /\ NoDup (dcOpenPrefixes (mir h)).
Proof using SC LL KL W.
  intros I1 I2 I3 H0 S. assert (host_ok h) as [M F].
  { induction S as [h|h h1 h2 St _ IH]; [done|]. apply IH. by eapply ok_step. }
  split; [|by split_and!; apply M]. intros hd t Ht. by apply (proj1 (Forall_forall _ _) (F hd)).
Qed.
End Safe.

(** ** The record stores of storage.cpp stay clear of the secrets *)

From stdpp Require Import gmap.
From S2P Require Import Targz StorageDb SdbRoute SdbRouteProofs.
Import Schema Block Store Tree Ops Subs Actor Route Access SdbInstances SdbMirror Mirror.

Lemma headSeg_plain s : DOT ∉ s -> headSeg s = s.
Proof.
  intros H. unfold headSeg. assert (upto s = s) as U.
  { induction s as [|c s IH]; [done|]. apply not_elem_of_cons in H as [H1 H2]. cbn [upto]. change (chr ".") with DOT.
    rewrite (proj2 (Z.eqb_neq _ _)) by done. by rewrite IH. }
  destruct s as [|c s]; [done|]. cbn [skipDots]. apply not_elem_of_cons in H as [H1 H2]. change (chr ".") with DOT.
  by rewrite (proj2 (Z.eqb_neq c DOT)).
Qed.

Lemma headSeg_join s l q : s <> [] -> DOT ∉ s -> headSeg (joinDots (s :: l)) = s /\ headSeg (joinDots (s :: l) ++ DOT :: q) = s.
Proof.
  intros N H. assert (headSeg (joinDots (s :: l)) = s) as E.
  { destruct l as [|x l]; [by apply headSeg_plain|]. change (joinDots (s :: x :: l)) with (s ++ chr "." :: joinDots (x :: l)).
    rewrite headSeg_app; rewrite headSeg_plain; done. }
  split; [done|]. change DOT with (chr "."). by rewrite headSeg_app; rewrite E.
Qed.

Section Stores.
Context {C I F : Type} `{TD : Tdefl C} `{TI : Tinfl I} `{CR : Crc} `{FS : FileSys F} `{DS : DirSys F}.
Context (stateDir : bytes) (legacy : list sdb_legacy) (fs : F) (o : oracle).
Context `{CJ : CJson} `{L : !CJsonLaws CJ}.
Abbreviation ROUTER := (routerOf stateDir legacy fs o).
Abbreviation MDB := (mirrorOf stateDir legacy fs o).

(** A pattern that begins with a name other than the secrets. *)
Definition named (pat : list bytes) : Prop :=
  exists s r, pat = s :: r /\ s <> WILD /\ s <> [] /\ (DOT ∉ s) /\ cj_same s ($ "secrets") = false.

Definition namedRegs (d : sdb_db) : Prop := Forall named (map r_pat (g_sdbRegs d)).
Definition namedStores (od : option sdb_db) : Prop := match od with Some d => namedRegs d | None => True end.

(** ** The patterns do not change *)

Lemma pats_alter (f : sdb_reg -> gmap bytes sdb_store) i l : map r_pat (alter (fun r => with_insts r (f r)) i l) = map r_pat l.
Proof. revert i. induction l as [|r l IH]; intros [|i]; [done..|]. cbn. f_equal. apply IH. Qed.

Lemma pats_put d i b st : map r_pat (g_sdbRegs (putInst d i b st)) = map r_pat (g_sdbRegs d).
Proof. apply pats_alter. Qed.

Lemma pats_instance d i b d' st : sdbInstance stateDir d i b = Some (d', st) -> map r_pat (g_sdbRegs d') = map r_pat (g_sdbRegs d).
Proof.
  unfold sdbInstance. destruct (g_sdbRegs d !! i) as [r|]; [|done]. cbn [mbind option_bind]. destruct (insts r !! joinBinds b); [by intros [= <- <-]|].
  intros [= <- <-]. rewrite pats_put. destruct (r_persist r); [|done]. unfold mkdirpParent. by destruct (beforeSlash _).
Qed.

Lemma pats_load d i b d' st : loadInst stateDir legacy fs o d i b = Some (d', st) -> map r_pat (g_sdbRegs d') = map r_pat (g_sdbRegs d).
Proof.
  unfold loadInst. destruct (sdbInstance stateDir d i b) as [[d1 st1]|] eqn:E; [|done]. cbn [mbind option_bind]. apply pats_instance in E.
  destruct (loaded st1); [by intros [= <- <-]|]. destruct (sdbLoad _ _ _ _) as [[st2 ok]|]; [|done]. cbn [mbind option_bind].
  intros [= <- <-]. by rewrite pats_put.
Qed.

Lemma pats_erase d d1 i b st : sdbInstance stateDir d i b = Some (d1, st) ->
  map r_pat (g_sdbRegs (eraseInst (if Zlen (path st) =? 0 then d1 else with_deletes d1 (g_sdbPendingDeletes d1 ++ [path st])) i b)) =
  map r_pat (g_sdbRegs d).
Proof.
  intros Es. apply pats_instance in Es. unfold eraseInst. cbn [g_sdbRegs with_regs].
  rewrite (pats_alter (fun r => delete (joinBinds b) (insts r))). by destruct (_ =? _).
Qed.

Lemma apply_pats d op key vs sil d' ch dt : Access.sdbApplyOpLocked stateDir legacy fs o d op key vs sil = Some (Some (d', ch, dt)) ->
  map r_pat (g_sdbRegs d') = map r_pat (g_sdbRegs d) /\ Forall (fun c => c.1 = key) ch.
Proof.
  assert (forall v, Forall (fun c : bytes * bytes => c.1 = key) (changeOf sil key v)) as Ch by (intros v; unfold changeOf; destruct sil; [done|by apply Forall_singleton]).
  unfold Access.sdbApplyOpLocked. destruct (sdbRoute d key) as [m|]; [|done].
  destruct (m_tail m) as [|rec [|field [|x t]]].
  2: { destruct (sdbResolveLoaded _ _ _ _ _ _) as [[d1 st1]|] eqn:Es; [|done]. cbn [mbind option_bind]. unfold sdbResolveLoaded in Es; apply pats_load in Es.
       destruct (Z.eqb op (chr "D")); [|by intros [= <- <- _]]. destruct (sdbDeleteRecord st1 rec); [|done]. cbn [mbind option_bind].
       intros [= <- <- _]. by rewrite pats_put. }
  2: { destruct (knows d m field) as [k|]; [|done]. cbn [mbind option_bind]. destruct k; cbn [negb]; [|by intros [= <- <- _]].
       destruct (sdbResolveLoaded _ _ _ _ _ _) as [[d1 st1]|] eqn:Es; [|done]. cbn [mbind option_bind]. unfold sdbResolveLoaded in Es; apply pats_load in Es.
       destruct (Z.eqb op (chr "D")); [by intros [= <- <- _]|]. destruct (sdbGetField st1 rec field) as [cur|]; [|done]. cbn [mbind option_bind].
       match goal with |- (if ?b then _ else _) = _ -> _ => destruct b end; [by intros [= <- <- _]|].
       destruct (sdbSetField _ _ _ _ _ _); [|done]. cbn [mbind option_bind]. intros [= <- <- _]. by rewrite pats_put. }
  all: destruct (Z.eqb op (chr "D")); [|by intros [= <- <- _]]; destruct (sdbInstance _ _ _ _) as [[d1 st1]|] eqn:Es; [|done]; cbn [mbind option_bind];
    intros [= <- <- _]; split; [by apply (pats_erase _ _ _ _ _ Es)|done].
Qed.

(** ** Keys of the stores *)

Lemma route_head d p m : namedRegs d -> sdbRoute d p = Some m -> exists s rest, splitDots p = s :: rest /\ s <> [] /\ (DOT ∉ s) /\ cj_same s ($ "secrets") = false.
Proof.
  unfold sdbRoute. intros N H. destruct (g_sdbRegs d) as [|r0 rs] eqn:Er; [done|]. destruct (negb _); [done|]. rewrite <- Er in *.
  apply routeLoop_spec in H as (pre & r & post & Ers & _ & [_ Hs] & _). unfold namedRegs in N. rewrite Forall_map, Ers in N.
  apply Forall_app in N as [_ [N _]%Forall_cons]. destruct N as (s & pr & Ep & Nw & Ne & Nd & Ns). rewrite Ep in Hs. cbn [fill] in Hs.
  rewrite (proj2 (streq_false s WILD)) in Hs by done. rewrite Hs. by eexists _, _.
Qed.

Lemma split_head p s rest : splitDots p = s :: rest -> s <> [] -> DOT ∉ s -> headSeg p = s.
Proof. intros Es Ns Nd. rewrite <- (join_split p), Es. by apply headSeg_join. Qed.

Lemma each_keys st pre kv : sdbForEachInstance st pre = Some kv -> Forall (fun x => exists q, x.1 = pre ++ DOT :: q) kv.
Proof.
  unfold sdbForEachInstance. destruct (sdbForEach st) as [l|]; [|done]. cbn [mbind option_bind]. intros [= <-]. apply Forall_map, Forall_true.
  intros [[rec field] v]. by eexists.
Qed.

Lemma eachStem_keys ss : forall d i pre binds d' kv, eachStem stateDir legacy fs o d i pre binds ss = Some (d', kv) ->
  Forall (fun x => exists q, x.1 = pre ++ DOT :: q) kv.
Proof.
  induction ss as [|s ss IH]; intros d i pre binds d' kv; cbn [eachStem]; [by intros [= <- <-]|].
  destruct (loadInst _ _ _ _ _ _ _) as [[d1 st1]|]; [|done]. cbn [mbind option_bind].
  destruct (sdbForEachInstance st1 _) as [out|] eqn:Eo; [|done]. cbn [mbind option_bind].
  destruct (eachStem _ _ _ _ d1 i pre binds ss) as [[d2 rest]|] eqn:Es; [|done]. cbn [mbind option_bind]. intros [= <- <-].
  apply Forall_app. split; [|by eapply IH]. eapply Forall_impl; [exact (each_keys _ _ _ Eo)|]. intros x [q ->]. exists (s ++ DOT :: q). by rewrite <- app_assoc.
Qed.

(** What an enumeration gives begins as its prefix does. *)
Lemma under_keys d p rs : namedRegs d -> Forall named (map r_pat rs) -> forall i d' kv,
  underLoop stateDir legacy fs o d p (splitDots p) i rs = Some (d', Some kv) -> Forall (fun x => headSeg x.1 = headSeg p) kv.
Proof.
  intros N. induction rs as [|r rs IH]; intros Fn i d' kv; cbn [underLoop]; [done|]. cbn [map] in Fn. apply Forall_cons in Fn as [Fr Fn].
  destruct Fr as (s & pr & Ep & Nw & Ne & Nd & Ns). specialize (IH Fn). destruct (Nat.leb_spec (length (r_pat r)) (length (splitDots p))) as [Hl|Hl].
  - destruct (sdbRoute d p) as [m|] eqn:Em; [|by apply IH]. destruct (negb _); [by apply IH|].
    destruct (route_head _ _ _ N Em) as (s' & rest & Esp & N1 & N2 & _).
    destruct (sdbResolveLoaded _ _ _ _ _ _) as [[d1 st1]|]; [|done]. cbn [mbind option_bind].
    destruct (sdbForEachInstance st1 _) as [out|] eqn:Eo; [|done]. cbn [mbind option_bind]. intros [= <- <-].
    eapply Forall_impl; [exact (each_keys _ _ _ Eo)|]. intros x [q ->]. rewrite Ep, Esp. cbn [length take]. rewrite (split_head _ _ _ Esp N1 N2). by apply headSeg_join.
  - destruct (matchLead (r_pat r) (splitDots p)) as [binds|] eqn:El; [|by apply IH]. destruct (_ && _) eqn:Ec; [|by apply IH].
    destruct (eachStem _ _ _ _ _ _ _ _ _) as [[d1 out]|] eqn:Ee; [|done]. cbn [mbind option_bind]. intros [= <- <-].
    apply andb_true_iff in Ec as [Ec1%Nat.eqb_eq Ec2%bool_decide_eq_true].
    assert (headSeg p = s) as Hs.
    { destruct (splitDots p) as [|x rest] eqn:Esp.
      - rewrite Ep in Ec1, Ec2. destruct pr; [|done]. change (last [s]) with (Some s) in Ec2. by injection Ec2 as Ec2.
      - rewrite Ep in El. cbn [matchLead] in El. rewrite (proj2 (streq_false s WILD)) in El by done. destruct (streq s x) eqn:Ex; [|done].
        apply streq_true in Ex as <-. by apply (split_head _ _ _ Esp). }
    eapply Forall_impl; [exact (eachStem_keys _ _ _ _ _ _ _ Ee)|]. intros x [q ->]. change DOT with (chr "."). apply headSeg_app. by rewrite Hs.
Qed.

(** The router keeps the promise the mirror's invariant asks for. *)
Lemma router_clear : stores_clear (SR := ROUTER) (MD := MDB) namedStores.
Proof.
  constructor.
  - intros [d|] op k vs sil d' ch dt; cbn; [|by intros [= <- <- <-]].
    destruct (Access.sdbApplyOpLocked _ _ _ _ _ _ _ _ _) as [[[[d1 ch1] dt1]|]|] eqn:Ea; [|done|by intros [= <- <- <-]]. intros [= <- <- <-].
    by apply apply_pats in Ea as [_ H].
  - intros [d|] op k vs sil d' ch dt; cbn; [|by intros [= <- <- <-]].
    destruct (Access.sdbApplyOpLocked _ _ _ _ _ _ _ _ _) as [[[[d1 ch1] dt1]|]|] eqn:Ea; [|done|by intros [= <- <- <-]]. intros [= <- <- <-].
    apply apply_pats in Ea as [H _]. cbn. unfold namedRegs. by rewrite H.
  - intros [d|] p b; cbn; [|done]. intros N. destruct (sdbRoute d p) as [m|] eqn:Em; [|done]. intros _.
    destruct (route_head _ _ _ N Em) as (s & rest & Es & N1 & N2 & N3). unfold clear_key. by rewrite (split_head _ _ _ Es N1 N2).
  - intros [d|] p kv; cbn; [|done]. intros N. unfold sdbForEachUnderLocked. destruct (g_sdbRegs d) as [|r0 rs] eqn:Er; [done|]. rewrite <- Er.
    destruct (underLoop _ _ _ _ _ _ _ _ _) as [[d1 [kv1|]]|] eqn:Eu; cbn; [|done|done]. intros [= <-] Hp.
    eapply Forall_impl; [by eapply under_keys|]. cbn. intros x Hx. unfold clear_key. by rewrite Hx.
  - intros [d|]; cbn; [|done]. intros N. apply Forall_concat, Forall_map. unfold namedRegs in N. rewrite Forall_map in N. eapply Forall_impl; [exact N|].
    intros r (s & pr & Ep & Nw & Ne & Nd & Ns). destruct (browserMirror r); [|done]. apply Forall_map, Forall_map, Forall_true. intros [ik st].
    cbn [fst]. unfold clear_key, instPrefix. rewrite Ep. cbn [fillPat]. rewrite (proj2 (streq_false s WILD)) by done. cbn [negb].
    by rewrite (proj1 (headSeg_join s _ [] Ne Nd)).
Qed.
End Stores.
