(* ===== verification/MirrorDemo.v ===== *)
(** * storage: the browser mirror on a small device

    A link that takes what fits, a client that merges, and a device without record stores:
    witnesses of the theorems about the mirror, and what its gates and its patches let
    through. *)

From stdpp Require Import gmap relations.
From S2P Require Import Prelude CLib Config ConfigTree ConfigOps ConfigSet Persist PersistTree PersistSet PersistDemo.
From S2P Require Import Mirror MirrorDump MirrorPatch MirrorGate MirrorInv.
Import Tree Ops Subs Actor Dump Mirror Patch Inbound.
Import Plain (ci_same, NoStores, obj, arr, start).
Import PersistDemo.Text.
Open Scope Z_scope.
Open Scope spangap_scope.

#[local] Existing Instance NoStores.

Module Browser.

(** The link: the messages taken with their handle, the room, the largest message. *)
Record demo_link := { taken : list (Z * bytes); room : Z; largest : Z }.

#[export] Instance DemoLink : DcLink demo_link := {|
  itsSpacesAvailable e _ := room e;
  itsSendBufSize e _ := largest e;
  itsSend e h t := if Zlen t <=? room e then (Zlen t, {| taken := taken e ++ [(h, t)]; room := room e; largest := largest e |}) else (-1, e)
|}.

#[export] Instance DemoLinkLaws : DcLinkLaws demo_link.
Proof.
  refine {| wire e h := map snd (List.filter (fun x => x.1 =? h) (taken e)) |}; cbn; intros e h; intros.
  - destruct (Z.leb_spec (Zlen t) (room e)) as [Hl|Hl]; injection H as <- <-; cbn [taken].
    + rewrite List.filter_app, map_app. cbn [List.filter fst snd map]. by rewrite !Z.eqb_refl.
    + pose proof (Zlen_nonneg t). rewrite (proj2 (Z.eqb_neq _ _)) by lia. by rewrite app_nil_r.
  - destruct (Zlen t <=? room e); injection H as <- <-; [|done]. cbn [taken]. rewrite List.filter_app, map_app. cbn [List.filter fst snd].
    rewrite (proj2 (Z.eqb_neq h h')) by congruence. by rewrite app_nil_r.
  - destruct (Zlen t <=? room e); by injection H as <- <-.
Defined.

#[export] Instance NoRecords : MirrorDb unit := {| mirrorRoute _ _ := None; forEachUnder _ _ := None; mirroredInsts _ := [] |}.

#[export] Instance AnyOrder : KeyOrder := {| walk s := elements s |}.
#[export] Instance AnyOrderLaws : KeyOrderLaws AnyOrder := {| walk_all s := Permutation_refl (elements s) |}.

#[export] Instance DemoWire : JsonWire TextJson parse.
Proof.
  constructor.
  - intros j t G [= <-]. unfold parse. pose proof (dec_enc j G (length (enc j)) [] (Nat.le_refl _)) as Ed. rewrite app_nil_r in Ed. by rewrite Ed.
  - intros j _. by eexists.
  - done.
  - vm_compute. repeat split.
Defined.

Definition fw : identity := {| fw_stub := $ "stub"; fw_name := $ "dev"; fw_banner := $ "hello" |}.

Definition idle : mirror :=
  {| dcHandle := -1; dcDirtyKeys := ∅; dcMirrorLost := false; dcOpenPrefixes := []; dcDumpQueue := []; dcDumpPos := 0; dcDumpPending := false;
     dumpStaging := []; dumpBuilding := false; dumpDone := false; dumpGen := 0; dumpBuildGen := 0 |}.

(** The storage task is 7; the mirror's callback 5, subscribed to every change. *)
Definition device (r : kids) : cfg_st unit :=
  {| cfgRoot := r; externals := []; rootDirty := false; savePending := false; saveDelay := 0;
     subs := [{| s_task := Some 7; s_cb := 5; s_scope := []; s_direct := false |}]; pendingSaveSems := []; db := tt |}.

Definition demo_host (r : kids) : host unit demo_link :=
  {| cfg := device r; mir := idle; link := {| taken := []; room := 262144; largest := 262144 |}; saveRequests := 0; sentNotes := [] |}.

Definition kidsOf (j : json) : kids := match j with JNode _ l => l | _ => [] end.

Definition demo_root : kids := kidsOf (obj [
  ("s", obj [("a", JStr ($ "x")); ("nets", arr [obj [("ssid", JStr ($ "home"))]; obj [("ssid", JStr ($ "cafe"))]]); ("n", JNum 4)]);
  ("secrets", obj [("pw", JStr ($ "hunter2"))])]%string).

(** Connect, and passes with the builder in between. *)
Definition connect (h : host unit demo_link) : host unit demo_link := with_mir h (storageItsConnect (mir h) 3).1.
Definition onePass (msgs : list bytes) (h : host unit demo_link) : option (host unit demo_link) := mirrorPass 7 5 h msgs true.
Definition build (h : host unit demo_link) : host unit demo_link := with_mir h (dumpBuilderFn fw (cfg h) (mir h)).
Definition synced (r : kids) : option (host unit demo_link) :=
  h ← onePass [] (connect (demo_host r)); onePass [] (build h).
Definition write (ops : list bytes) (h : host unit demo_link) : option (host unit demo_link) := applyWrite 7 5 (Some 1) h (false, ops).

(** What a client that merges every message but the brackets of a dump then has. *)
Definition browser (h : host unit demo_link) : kids :=
  received parse [] (List.filter (fun t => negb (streq t DUMP_BEGIN) && negb (streq t DUMP_END) && negb (streq t PONG)) (map snd (taken (link h)))).
Definition shows (h : host unit demo_link) (p : list string) : option bytes := lval (navS (Some (JNode false (browser h))) (map str p)).
Definition has (h : host unit demo_link) (p : list string) : option bytes := lval (navS (Some (root (cfg h))) (map str p)).

End Browser.
Import Browser.

(** After the dump the client has the tree, and no secret. *)
Example dump_shown :
  (fun h => (shows h ["s"; "nets"; "1"; "ssid"], shows h ["fw"; "name"], shows h ["secrets"; "pw"]))%string <$> synced demo_root =
  Some (Some ($ "cafe"), Some ($ "dev"), None).
Proof. vm_compute. reflexivity. Qed.

(** A write reaches the client with the next pass. *)
Example patch_shown :
  (h ← synced demo_root; h ← write [opAppendKV (chr "S") ($ "s.a") ($ "y")] h; h ← onePass [] h; Some (shows h ["s"; "a"]%string)) = Some (Some ($ "y")).
Proof. vm_compute. reflexivity. Qed.

(** ** Witnesses *)

Lemma demo_root_good : jgood (JNode false demo_root).
Proof. unfold demo_root, obj, arr. cbn [kidsOf map]. json_good. Qed.

Lemma fw_good : str_ok (fw_stub fw) /\ str_ok (fw_name fw) /\ str_ok (fw_banner fw).
Proof. split_and!; apply str_okb_ok; vm_compute; reflexivity. Qed.

Lemma dump_mirrors_tree_witness : exists cs, dcBuildDumpInto fw demo_root = [DUMP_BEGIN] ++ cs ++ [DUMP_END] /\
  lval (navS (Some (JNode false (received parse [] cs))) [$ "s"; $ "a"]) = Some ($ "x").
Proof.
  destruct (dump_mirrors_tree parse fw demo_root demo_root_good eq_refl (proj1 fw_good) (proj1 (proj2 fw_good)) (proj2 (proj2 fw_good)))
    as (cs & Ed & V & _).
  exists cs. split; [exact Ed|]. rewrite V. vm_compute. reflexivity.
Defined.

(** A tree whose leaves do not fit one message: it goes out in four. *)
Definition big_root : kids :=
  let long c := JStr (repeat c (Z.to_nat 9000)) in
  kidsOf (obj [("s", obj [("p", long 65); ("q", long 66); ("r", obj [("u", long 67); ("v", JNum 1)])])]%string).

Example big_dump : length (dcBuildDumpInto fw big_root) = 6%nat.
Proof. vm_compute. reflexivity. Qed.

(** The device after a write of s.a, the client before it, and the mirror in between. *)
Definition new_root : kids := kidsOf (obj [("s", obj [("a", JStr ($ "y")); ("n", JNum 4)])]%string).
Definition old_root : kids := kidsOf (obj [("s", obj [("a", JStr ($ "x")); ("n", JNum 4)])]%string).
Definition changed : mirror := with_dirty (with_handle idle 3 0) {[ $ "s.a" ]} false.

Lemma changed_behind : behind new_root old_root [[$ "s"; $ "a"]] (fun s => s = $ "s").
Proof.
  constructor.
  - intros k l Hk. apply list_elem_of_singleton in Hk as ->. vm_compute. discriminate.
  - intros k q a r v Hk Ek Hv. apply list_elem_of_singleton in Hk as ->.
    destruct q as [|x [|y q]]; cbn [app] in Ek; [injection Hv as <-; by eexists|injection Ek as <- _; injection Hv as <-; by eexists|].
    injection Ek as _ _ Ek. by destruct q.
  - intros k q a r l Hk Ek. apply list_elem_of_singleton in Hk as ->.
    destruct q as [|x [|y q]]; cbn [app] in Ek; [done|injection Ek as <- _; vm_compute; discriminate|].
    injection Ek as _ _ Ek. by destruct q.
  - intros s r -> Off. specialize (Off [$ "s"; $ "a"] ltac:(by left)). destruct r as [|x r]; [done|]. cbn [strip] in Off.
    unfold new_root, old_root, obj. cbn [kidsOf map fst snd]. rewrite !nav_obj. cbn [kget]. change (cj_same ($ "s") ($ "s")) with true in *. cbn iota in *.
    rewrite !nav_obj. cbn [kget]. change (str "a") with ($ "a"). by destruct (cj_same ($ "a") x).
Qed.

(** The one patch of the flush. *)
Definition patch_text : bytes := default [] (snd <$> head (taken (dcFlushPatch (device new_root) changed (link (demo_host []))).2)).

Lemma patch_taken : taken (dcFlushPatch (device new_root) changed (link (demo_host []))).2 = [(3, patch_text)].
Proof. vm_compute. reflexivity. Qed.

Lemma patch_printed : cJSON_PrintUnformatted (JNode false (buildPatch (device new_root) changed)) = Some patch_text.
Proof. vm_compute. reflexivity. Qed.

Lemma patch_small : (Zlen patch_text <=? 262144) = true.
Proof. vm_compute. reflexivity. Qed.

Lemma changed_keys : tree_keys (device new_root) changed [[$ "s"; $ "a"]].
Proof.
  constructor.
  - change (dcDirtyKeys changed) with ({[ $ "s.a" ]} : gset bytes). rewrite elements_singleton. done.
  - rewrite Forall_singleton. split; [discriminate|]. split; [apply good_segs; vm_compute; reflexivity|].
    repeat (apply Forall_cons; split; [apply str_okb_ok; vm_compute; reflexivity|]). constructor.
  - split; [constructor|exact Logic.I].
  - intros k _. reflexivity.
Qed.

Lemma flush_updates_client_witness :
  taken (dcFlushPatch (device new_root) changed (link (demo_host []))).2 = [(3, patch_text)] /\
  lval (navS (Some (JNode false (receive parse old_root patch_text))) [$ "s"; $ "a"]) = Some ($ "y").
Proof.
  split; [exact patch_taken|].
  destruct (flush_updates_client parse (device new_root) changed (link (demo_host [])) [[$ "s"; $ "a"]] old_root (fun s => s = $ "s"))
    as (t & Ht & H).
  - cbn. lia.
  - reflexivity.
  - cbn. lia.
  - discriminate.
  - unfold new_root, obj. cbn [kidsOf map]. cbn [cfgRoot device]. json_good.
  - unfold old_root, obj. cbn [kidsOf map]. json_good.
  - exact changed_keys.
  - exact changed_behind.
  - rewrite patch_printed in Ht. apply (inj Some) in Ht as <-. pose proof patch_small as Sm. apply Z.leb_le in Sm.
    destruct (dcFlushPatch _ _ _) as [m' e']. destruct H as [(H & _)|[(H & _)|(_ & _ & _ & _ & V)]]; [clear -H Sm; change (itsSendBufSize _ _) with 262144 in H; lia|clear -H Sm; change (itsSpacesAvailable _ _) with 262144 in H; lia|].
    rewrite (V ($ "s") [$ "a"] eq_refl). reflexivity.
Defined.

(** A pass without messages does not touch the tree. *)
Lemma pass_idle h : exists h', onePass [] h = Some h' /\ cfg h' = cfg h.
Proof.
  unfold onePass, mirrorPass, dcPollConfig. cbn [recvLoop].
  assert ((if dcHandle (mir h) <? 0 then Some h else Some h) = Some h) as -> by (by destruct (_ <? 0)).
  cbn [mbind option_bind]. destruct (dcPumpDump _ _ _) as [m e]. destruct (if dcDumpInProgress m then _ else _) as [m' e']. by eexists.
Qed.

Lemma uniq_demo : uniq demo_root.
Proof. destruct (proj1 (jgood_node _ _) demo_root_good) as (_ & U & _). by apply U. Qed.

Lemma no_stores_clear : stores_clear (fun _ : unit => True).
Proof. by constructor; cbn; intros; [..|constructor]. Qed.

Lemma idle_ok r : host_ok (demo_host r).
Proof.
  split; [|by intros hd; constructor]. constructor; cbn; try done; try constructor; try (by intros k Hk%elem_of_empty); lia.
Qed.

(** A client connects, the dump is built and sent. *)
Lemma secrets_never_sent_witness : exists h, synced demo_root = Some h /\ forall hd t, t ∈ wire (link h) hd -> public t.
Proof.
  destruct (pass_idle (connect (demo_host demo_root))) as (h1 & E1 & C1). destruct (pass_idle (build h1)) as (h2 & E2 & C2).
  exists h2. unfold synced. rewrite E1. cbn [mbind option_bind]. split; [exact E2|].
  destruct (secrets_never_sent (fun _ => True) no_stores_clear parse 7 5 fw (demo_host demo_root) h2
    (proj1 fw_good) (proj1 (proj2 fw_good)) (proj2 (proj2 fw_good)) (idle_ok demo_root)) as [S _]; [|exact S].
  assert (uniq (cfgRoot (cfg h1))) as U1 by (rewrite C1; exact uniq_demo).
  apply (rtc_l _ _ (connect (demo_host demo_root))); [apply ms_connect|].
  apply (rtc_l _ _ h1); [apply (ms_pass _ 7 5 fw _ [] true); [exact uniq_demo|done|constructor|exact E1]|].
  apply (rtc_l _ _ (build h1)); [apply ms_build; rewrite C1; [exact demo_root_good|reflexivity]|].
  apply rtc_once. apply (ms_pass _ 7 5 fw _ [] true); [exact U1|done|constructor|exact E2].
Defined.

(** A message still queued, and a build that is done. *)
Definition owing : mirror := with_build (with_queue (with_pending (with_handle idle 3 1) true) [PONG] 0) [DUMP_BEGIN; DUMP_END] true true 1.

Lemma nothing_owed : owed (dcPumpDump owing (link (demo_host [])) true).1 = [].
Proof. vm_compute. reflexivity. Qed.

Lemma pump_in_order_witness : wire (dcPumpDump owing (link (demo_host [])) true).2 3 = [PONG; DUMP_BEGIN; DUMP_END].
Proof.
  destruct (pump_in_order owing (link (demo_host [])) true _ _ ltac:(cbn; lia) ltac:(cbn; lia) (surjective_pairing _)) as (sent & H1 & H2 & _).
  rewrite nothing_owed, app_nil_r in H1. change (dcHandle owing) with 3 in H2. rewrite H2, <- H1. vm_compute. reflexivity.
Defined.

(** A client writes a setting and tries its hand at the secrets. *)
Definition client_json : json := obj [("s", obj [("a", JStr ($ "y"))]); ("secrets", obj [("pw", JStr ($ "evil"))])]%string.

Lemma client_parsed : cJSON_ParseWithLength (enc client_json) = Some client_json.
Proof. vm_compute. reflexivity. Qed.

Lemma client_writes : forallb (fun w => Zlen (concat w.2) <? 2 ^ 32 - 1) <$> mergeIncomingPatch client_json [] = Some true.
Proof. vm_compute. reflexivity. Qed.

Lemma client_fine : fine_msg (enc client_json).
Proof.
  unfold fine_msg. rewrite client_parsed. split_and!.
  - unfold client_json, obj. cbn [map fst snd msg_ok].
    repeat match goal with |- _ /\ _ => split | |- True => exact Logic.I | |- false = false -> _ => intros _; eexists; split; [reflexivity|] end;
      vm_compute; intros H; repeat (apply elem_of_cons in H as [H|H]; [discriminate|]); by apply elem_of_nil in H.
  - discriminate.
  - intros l n v [= <-] H. unfold spelled. repeat (apply elem_of_cons in H as [[= -> ->]|H]; [split; [discriminate|]; intros Hs|]); [discriminate|by split; [|eexists]|].
    by apply elem_of_nil in H.
  - intros ws H. pose proof client_writes as C. rewrite H in C. cbn [fmap option_fmap option_map] in C.
    apply (inj Some) in C. rewrite forallb_forall in C. apply Forall_forall. intros w Hw. apply list_elem_of_In in Hw. by apply Z.ltb_lt, C.
Qed.


Example client_writes_a :
  (fun h => (has h ["s"; "a"], has h ["secrets"; "pw"]))%string <$> onePass [enc client_json] (connect (demo_host demo_root)) =
  Some (Some ($ "y"), Some ($ "hunter2")).
Proof. vm_compute. reflexivity. Qed.

(** ** What the gates and the patches let through *)

Module Lapses.
Definition del (k : string) : bytes := opAppendDelete (str k).
Definition set (k v : string) : bytes := opAppendKV (chr "S") (str k) (str v).
(** What the device has at a path after a message of the client. *)
Definition after_msg (j : json) (p : list string) : option (option bytes) :=
  h ← onePass [enc j] (connect (demo_host demo_root)); Some (has h p).
(** What the client and the device have at a path after writes and a pass. *)
Definition both (h : host unit demo_link) (p : list string) : option bytes * option bytes := (shows h p, has h p).
(** The changed keys walked in this order. *)
Definition in_order (l : list string) : KeyOrder := {| walk _ := map str l |}.
Definition after_patch (l : list string) (r cl : kids) (p : list string) : option bytes :=
  let t := default [] (cJSON_PrintUnformatted (JNode false (buildPatch (KO := in_order l) (device r) idle))) in
  lval (navS (Some (JNode false (receive parse cl t))) (map str p)).
End Lapses.
Import Lapses.

(** The gate compares names as written, [isSecret] needs the dot, and the tree ignores
    case and leading dots: a client overwrites or deletes the secrets. *)
Theorem client_overwrites_secrets :
  after_msg (obj [("Secrets", obj [("pw", JStr ($ "evil"))])]%string) ["secrets"; "pw"]%string = Some (Some ($ "evil")) /\
  after_msg (obj [(".secrets", obj [("pw", JStr ($ "evil"))])]%string) ["secrets"; "pw"]%string = Some (Some ($ "evil")) /\
  after_msg (obj [("secrets", JNull)]%string) ["secrets"; "pw"]%string = Some None.
Proof. vm_compute. split_and!; reflexivity. Qed.

(** A secret written under another spelling goes out with the next patch. *)
Theorem secret_reaches_client :
  (h ← synced demo_root; h ← write [set "Secrets.pw" "new"] h; h ← onePass [] h; Some (shows h ["secrets"; "pw"]%string)) = Some (Some ($ "new")).
Proof. vm_compute. reflexivity. Qed.

(** An array as a message: its members have no name, and the null is dereferenced. *)
Theorem array_message_crashes : (match onePass [enc (arr [JNum 1])] (connect (demo_host demo_root)) with Some _ => true | None => false end) = false.
Proof. vm_compute. reflexivity. Qed.

(** The first member of an array is deleted: the patch names the index, which by then is
    the next member's, and the client shows that one twice. *)
Theorem array_delete_diverges :
  (h ← synced demo_root; h ← write [del "s.nets.0"] h; h ← onePass [] h;
   Some (both h ["s"; "nets"; "0"; "ssid"], both h ["s"; "nets"; "1"; "ssid"]))%string =
  Some ((Some ($ "cafe"), Some ($ "cafe")), (Some ($ "cafe"), None)).
Proof. vm_compute. reflexivity. Qed.

(** A subtree deleted and refilled between two flushes: the client keeps the old members. *)
Theorem refilled_subtree_diverges :
  (h ← synced demo_root; h ← write [set "s.x.y" "1"] h; h ← onePass [] h;
   h ← write [del "s.x"] h; h ← write [set "s.x.z" "2"] h; h ← onePass [] h;
   Some (both h ["s"; "x"; "y"], both h ["s"; "x"; "z"]))%string =
  Some ((Some ($ "1"), None), (Some ($ "2"), Some ($ "2"))).
Proof. vm_compute. reflexivity. Qed.

(** After the backlog overflowed the whole tree is sent again, but a deletion in between
    is not: the client keeps what is gone. *)
Theorem redump_keeps_deleted :
  (h ← synced demo_root; h ← write [del "s.a"] (with_mir h (with_dirty (mir h) ∅ true)); h ← onePass [] h; h ← onePass [] h; h ← onePass [] (build h);
   Some (both h ["s"; "a"]%string, dcMirrorLost (mir h), dcDumpInProgress (mir h))) = Some ((Some ($ "x"), None), false, false).
Proof. vm_compute. reflexivity. Qed.

(** The patch depends on the order of the hash set: a deleted subtree with one of its
    deleted leaves, and an array with one of its members. *)
Theorem patch_depends_on_order :
  let cl := kidsOf (obj [("s", obj [("x", obj [("y", JStr ($ "1")); ("w", JStr ($ "2"))])])]%string) in
  let gone := kidsOf (obj [("s", JNode false [])]%string) in
  after_patch ["s.x.y"; "s.x"]%string gone cl ["s"; "x"; "w"]%string = None /\
  after_patch ["s.x"; "s.x.y"]%string gone cl ["s"; "x"; "w"]%string = Some ($ "2") /\
  after_patch ["s.nets.1.ssid"; "s.nets"]%string demo_root [] ["s"; "nets"; "2"; "ssid"]%string = None /\
  after_patch ["s.nets"; "s.nets.1.ssid"]%string demo_root [] ["s"; "nets"; "2"; "ssid"]%string = Some ($ "cafe").
Proof. vm_compute. split_and!; reflexivity. Qed.
